(* ===== verification/_CoqProject ===== *)
-Q . S2P
Prelude.v
RustStr.v
Ip.v
HostPattern.v
Dns.v
Sni.v
Watchlist.v
Egress.v
EgressFloor.v
EgressLive.v
ForkPool.v
ForkPoolFacts.v
ForkPoolClaim.v
ForkPoolProps.v
Resize.v
Admission.v
AdmissionProps.v
PoolCtl.v
PoolCoupling.v
PoolCtlLogic.v
PoolCtlSafe.v
PoolCtlProps.v
CkptStore.v
CkptFacts.v
CkptRestore.v
CkptCapture.v
CkptPrune.v
CkptProps.v
Retention.v
RetentionProps.v
CkptDelta.v
CkptDeltaFacts.v
CkptDeltaProps.v
S3Fs.v
S3FsFacts.v
S3FsSteps.v
S3FsOps.v
S3FsProps.v
S3FsFence.v
S3Client.v
S3ClientFacts.v
S3ClientWire.v
S3ClientProps.v
FileSys.v
FileSysFacts.v
OciLayer.v
OciLayerFacts.v
OciLayerProps.v
Ring.v
Doorbell.v
FrameStream.v
PackFormat.v
CudaProto.v
CudaProtoFacts.v
CudaProtoProps.v
CudaPipe.v
CudaPipeSpec.v
CudaPipeFacts.v
CudaPipeProps.v
CudaPipeAccount.v
CudaMem.v
CudaMemFacts.v
CudaMemIso.v
CudaMemProps.v
CudaVmm.v
CudaApi.v
CudaApiProps.v
CudaStack.v
CudaReadBack.v
