(* ===== verification/Prelude.v ===== *)
(** * A verification of smolvm's egress gateway, fork pools, checkpoints, mounts, image layers and remote CUDA

    smolvm runs workloads in microVMs. On the host a gateway process carries a
    machine's network traffic, a registry database keeps the durable state of
    machines and of the pools of held forks that can be leased, a checkpoint
    store keeps the machines' saved states, buckets are mounted into machines
    as file systems, a guest's CUDA calls are served by a daemon on the host,
    and shared memory and byte streams connect the parts.
    This library models the parts of that program that decide something: which
    flows a guest may open, who owns a held fork, which bytes a restore or a
    read returns, what may be deleted, whose device memory a call touches, and
    which bytes mean what. It is a
    shallow embedding: a Rust function is a Rocq function of the same name, a
    struct a record, an enum an inductive type, [Result] and [Option] are
    values, and code that mutates shared state is a function (or a step
    relation) on that state.

    ** The parts and the files that model them

    - [Prelude] (this file): results and the [?] operator, machine integers as
      [Z] at their width, byte strings and their codecs, tactics and hints.
    - [RustStr]: the [str] operations of Rust's standard library the sources
      call. [Ip]: [std::net::IpAddr], its parser and printer, and the prefix
      type [Cidr] of crates/smolvm-network/src/egress.rs.
    - [HostPattern] (crates/smolvm-protocol/src/host_pattern.rs): allow-list
      entries for names. Module [HostPattern] is the code, the relation
      [Admits] what an entry means.
    - [Dns] (crates/smolvm-network/src/dns.rs): the wire parser the gateway
      runs on a guest's queries and on upstream answers, and the messages it
      builds itself.
    - [Sni] (crates/smolvm-protocol/src/sni.rs and
      crates/smolvm-network/src/opening.rs): the server name of a TLS
      ClientHello, and the classification of a connection's opening bytes.
    - [Watchlist] (crates/smolvm-network/src/watchlist.rs): the hashed list of
      destinations to flag or refuse.
    - [Egress] (crates/smolvm-network/src/egress.rs and
      crates/smolvm-protocol/src/egress_rule.rs): the policy itself. A policy
      value holds locations in a [Store], because the clones of an
      [EgressPolicy] share their allow list, learned addresses, rules and
      watchlist through [Arc]s; [replace_allow_list], [learn_dns_answer] and
      the observers are functions on the store. [EgressFloor] and [EgressLive]
      prove what it promises. The policy calls [Ip], [HostPattern], [Dns] (the
      names and addresses of an answer) and [Watchlist].
    - [ForkPool] (src/pool.rs, the fork-pool transactions of src/db.rs, and the
      activation record of src/agent/fork.rs): the tables as finite maps
      whose rows keep the indexed columns next to the decoded [data] blob, and
      one function per transaction. [ForkPoolFacts] and [ForkPoolClaim] carry
      the table invariant through each of them, [ForkPoolProps] states the
      results over all histories.
    - [Resize] (src/db/resize.rs and the parts of src/agent/live_resize.rs that
      do not talk to the guest): the journal of live resizes, over encoded
      rows. [Resize.Serde] is the interface to [serde_json] its theorems are
      proved against; [ResizeHistory] is the step relation of the journal.
    - [Admission] (src/api/admission.rs): how many leases each CUDA device
      admits. A device's calibration is a state machine fed by telemetry
      ([observe]); the registry divides a device's limit among the pools with
      demand ([fair_pool_limit]) and hands a claim its limits ([limit], an
      argument of [ForkPool]'s [claim_fork_pool_slot]). [f64] is the Standard
      Library's executable IEEE binary64. [AdmissionProps] states the results.
    - [PoolCtl] (src/api/pool_controller.rs): the background task that keeps
      the pools filled, a client of [ForkPool] and [Admission]. [Proc.prog]
      are its functions as trees of transactions, lock sections and questions
      to the host; [Proc.exec] runs one under a schedule that says what the
      other tasks did before each step and what failed. [PoolCoupling] is the
      agreement of leases and slots and when each transaction may run,
      [PoolCtlLogic] a weakest precondition against every fair schedule,
      [PoolCtlSafe] the controller and its fills in that logic,
      [PoolCtlProps] the results.
    - [CkptStore] (crates/smolvm-checkpoint/src/store.rs): the
      content-addressed store of checkpoints. A [Store] is a table of inodes
      (compressed objects), the links of the shared object cache and the
      published or staged directories, each with its own links, index and
      retained generations; deleting a name leaves the inode to its other
      links, as hard links do. Capture ([writer_new], [ingest],
      [ingest_file_with_head], [store_chunk], [finish], [publish]), restore
      ([materialize_generation], also as a difference against a base),
      histories ([lineage_of], [resolve_in], [retain_generations_from]) and
      pruning. [ObjectCodec] is the interface to SHA-256 and zstd. The files
      [CkptFacts], [CkptRestore], [CkptCapture] and [CkptPrune] carry the
      proofs, [CkptProps] states the results.
    - [Retention] (src/checkpoint_retention.rs and the lineage records of
      store.rs): what a node forgets, when and in which order; a client of
      [CkptStore]. [RetentionProps] proves it against that store.
    - [CkptDelta] (the transfer functions of store.rs and
      src/checkpoint_delta.rs): a stored checkpoint exported as one file or as
      a delta of a base, imported by another node, and materialized over the
      tree of the nearest ancestor that node has; a client of [CkptStore] and
      [Retention]. [IndexCodec] (in [CkptStore]) is the interface to the JSON
      of an index.
      [CkptDeltaFacts] carries the proofs, [CkptDeltaProps] states the results.
    - [S3Fs] (crates/smolvm-s3fs/src/fs.rs, and the requests and replies of
      fuse.rs): a bucket mounted as a file system. [S3Fs.S3.S3Service] is the
      interface to the object store; every request handler is a function on
      the mount's state (inodes, staged files, caches, bucket). [S3FsFacts],
      [S3FsSteps] and [S3FsOps] carry the invariant and the refinement through
      the handlers, [S3FsProps] states the results, [S3FsFence] treats
      overlapping requests.
    - [S3Client] (crates/smolvm-s3fs/src/s3.rs and sigv4.rs): the client behind
      that interface: URLs, signatures, XML listings and time stamps, with the
      server as a function on a world ([Crypto] is the interface to SHA-256
      and HMAC). [S3ClientFacts] and [S3ClientWire] treat strings, dates and
      documents, [S3ClientProps] states the results.
    - [FileSys]: Rust's [Path] and the calls of [std::fs] the sources make,
      over a tree of nodes with the kernel's path resolution (links, dots).
      [FileSysFacts]: the calls keep a tree, and act where their path leads.
    - [OciLayer] (crates/smolvm-oci-layer/src/lib.rs): extracting an image
      layer as root; [LayerCrates] is the interface to tar and the
      decompressors. [OciLayerFacts] and [OciLayerProps] prove it.
    - [Ring] (crates/smolvm-cuda/src/ring.rs): the shared-memory command ring,
      its layout, [try_push] and [try_pop]. [Doorbell]: the accesses of both
      sides, [park], [unpark] and [take_parked] included, and the callers'
      doorbell loops in client.rs and host.rs, on a memory with store buffers.
    - [FrameStream] (crates/smolvm-network/src/frame_stream.rs and
      crates/smolvm-protocol/src/mediated_egress.rs): length-prefixed frames
      and the prelude of a mediated flow, over partial writes.
    - [PackFormat] (crates/smolvm-pack/src/format.rs): the fixed-size records
      of a packed machine.
    - [CudaProto] (crates/smolvm-cuda/src/proto.rs): the remote CUDA protocol,
      every request and response with its encoder and decoder, and the message
      framing. The decoder is a state monad on a cursor that also records the
      capacities it reserves. The arms of [encode_request] and
      [decode_request] are split into five groups in source order.
      [CudaProtoFacts] and [CudaProtoProps] prove it.
    - [CudaPipe] (the socket transport of crates/smolvm-cuda/src/client.rs, and
      [serve_inner] and [dispatch_quiet] of host.rs): deferred requests, their
      batching into frames and graph segments, fences, sticky failures, sync
      elision, the replay journal, and the host's loop. A [World] holds the
      client, the bytes in flight and the host. [CudaPipeSpec] is the same
      interface as plain function calls, [CudaPipeFacts] the simulation
      between the two against the interface [Answering] (what a host promises
      a client), [CudaPipeProps] and [CudaPipeAccount] (which failures reach
      the caller) the results.
    - [CudaMem] (the memory side of crates/smolvm-cuda/src/host.rs): a
      session's allocations and mappings, quotas, the copy-on-write and pointer
      translation of forked clones, the sharing verdict on uploaded chunks, the
      memory arms of [dispatch], and the emulated device [CpuBackend]. The
      class [Backend] is the driver; [CudaMemFacts] states the laws relied on
      as [DeviceLaws], with [CpuBackend] as an instance. [CudaMemIso] carries
      the isolation invariant, [CudaMemProps] states the results, [CudaVmm]
      treats the chunks of virtual memory a clone worker shares ([VmmLaws]).
    - [CudaApi] (the public methods of client.rs): one definition per method.
      [CudaApiProps] is a table of what each method computes; [CudaStack]
      composes methods, pipeline, serve loop, dispatcher and device, with the
      dispatcher as the instance [mem_host] of [Answering], and [CudaReadBack]
      follows a buffer through all of them.

    A query flows through them as in the code: the gateway reads the question
    ([Dns.question_name]), checks it ([Dns.hostname_allowed], hence
    [HostPattern.matches]), asks the watchlist, and on an answer records the
    addresses ([Egress.learn_dns_answer]); a new flow is decided by
    [Egress.allows_flow] from the floor, the rules, the static ranges and what
    was learned; its opening bytes are classified by [Sni.Opening.classify].
    A checkpoint is captured and published by [CkptStore], recorded in the
    lineage index and forgotten and reclaimed by [Retention].

    ** What the theorems show

    - Egress, the floor (C1, C30,
      [private_floor_reopened]): no rule, range or learned
      address opens the cloud-metadata range in any mode but Off, nor a
      reserved range under Strict; learning an answer never changes the
      decision on a floored address (DNS rebinding); which private
      destinations the private floor reopens ([mapped_spelling]: the IPv4-mapped
      form of an address is no way around it).
    - Egress, the live policy (C11, C29,
      [live_policy_roundtrip], [compile_rules_correct]): a replacement decides
      at once for every clone; over any interleaving of the lock sections of
      learners and replacements every learned entry is bounded in time, comes
      from an answer, and its name is allowed by the list in force unless its
      learning straddled the replacement that published this list; the rendered
      policy parses back; a rule list compiles exactly when each rule is
      valid; [revocation_race] is the interleaving in which a revoked name is
      still learned.
    - Fork pools (C2, C12,
      C20, [claim_idempotent], C31, [delete_drains],
      [expire_exact], [resize_exact]): over every history of transactions no
      machine is handed out twice, the tables stay consistent and no pool is
      overfilled; claims respect the limits and are idempotent; leases only
      move forward; expiry, resizing and deletion do exactly what they say.
    - The controller (C16, C17,
      C3, C32, C33, C34,
      [failing_pool_waits], [one_fill_per_pool], [undecodable_worker_stalls]):
      a live lease and its worker always agree; under any interleaving and any
      failure the controller and its fills only commit transactions that keep
      this; recovery and fills leave nothing half made; fills reach the target
      and never pass it; a failing pool waits, and is not filled twice at a
      time; one record that does not decode stops every pass.
    - Admission ([fair_shares], [probe_safe], [admission_bounded]): pools with
      demand divide a device evenly up to their ceilings; a limit is raised
      only after a full, safe and demanded window, to the highest level whose
      projected memory keeps the reserve; limits stay within the ceilings over
      any history.
    - Live resizes (C36): a recorded target is kept until it is
      completed or its machine removed, whatever else happens; competing and
      stale operations have no effect; a terminal receipt never changes.
    - Checkpoints (C4, C24, C35,
      [lineage_complete], [history_carried] and [index_wellformed]): a published
      checkpoint whose index is within the 256 MiB a reader accepts restores to
      exactly its files whatever other captures, deletions and prunes do, and
      is refused beyond (the capture does not check); no restore
      returns unchecked bytes; pruning removes exactly what nothing links;
      histories end, are complete and are carried over intact.
    - Checkpoints between nodes (C7, C25,
      [materialize_over_same], [import_atomic]): a delta imported over the exact
      base it names is the checkpoint that was exported and can serve as the
      next base; a restore over an ancestor's tree installs what a full one
      installs; a refused import leaves no trace. [import_unchecked_id] is the
      exception: an id that is a path.
    - Retention (C19, [request_honoured], [budget_minimal]): a run
      removes only what nothing keeps or pins and leaves the rest restorable,
      completes requested forgets, and frees no more than the budget needs.
    - Mounted buckets (C8, C37,
      [late_answers_fenced]): a mount is a map from paths to contents through
      its caches, staged writes and failing calls, in sessions that leave files
      open for writing where they are and whose calls are not ambiguous; a
      flush is durable or loses
      nothing; answers that other requests overtook are dropped. The theorems
      [unlinked_open_file_lingers], [long_listing_cut],
      [rmdir_unlisted_succeeds], [rewritten_file_read_stale] and
      [empty_write_overstates_size] are concrete
      runs outside those hypotheses in which it is not.
    - The S3 client ([listing_exact], [timestamps_roundtrip], [sign_canonical]):
      a paged listing is exactly the level of the bucket, which is what
      [S3Service] asks of a complete one; the calendar is right; a signature
      depends on what is sent only. [escaped_entity_misread] is the key text
      the listing reader gets wrong.
    - Image layers (C38, [whiteout_translated], and
      [sniff_lossless]): an extraction stays inside its directory and
      translates the markers; [dotdot_whiteout_wipes_parent] and
      [restored_mode_follows_link] are the two layers that reach outside.
    - Parsers (C39, [gateway_response_roundtrip],
      [matches_correct], [sni_roundtrip], and [classify_final]): totality and bounds
      of the DNS name reader, round trips against reference encodings, and
      the equivalence of the string matchers with declarative relations.
    - Watchlist ([watch_verdict_correct]): verdicts, and how often a match is
      recorded.
    - Ring (C18, C40): the ring refines a bounded
      FIFO queue until 2^32 pushes; under store buffers, access by access, no
      record is torn and no wake-up is lost, and without the fence of
      [take_parked] one is ([unfenced_loses_wakeup]);
      [ring_wrap_loses_records] shows what happens at 2^32.
    - CUDA on the wire (C9, C13,
      C28, [response_roundtrip], [frames_roundtrip],
      [preamble_unambiguous]): every request and response survives its
      encoding; the decoder returns on any bytes, with values in the range of
      their types; no buffer it allocates exceeds the larger of 16 MiB and twice
      the message, but for [launch_reserves_by_count]. [short_length_reads_clean]: a frame cut in
      its length reads as a clean end.
    - The CUDA pipeline (C5, C14,
      C15, C21, C10): batching and lag
      change no answer; every failure of the host reaches the caller once, or
      is still held and keeps deferred requests from running
      ([sync_reports_failure]: up to 512 of them, the next synchronization
      reports the first); a clone on a dead connection loses no request; every
      method returns what its specification computes on the host, with the
      listed protocol errors only; a buffer of any size written through the
      whole stack is read back when the driver executes the copies.
      [emulated_interior_refused]: the emulated device does not, past 64 MiB.
    - CUDA memory (C6, C27, C26,
      C22, C23, [forget_exact],
      [argument_windows_translated], [pool_shares_fit]): while the device has
      room, heap requests of a clone other than freeing a shared weight leave
      its parent's buffers alone, and are answered as on a private copy when
      the driver's copies succeed; a worker's write finds every shared chunk
      replaced by new memory with the same bytes; pointers, access rights,
      upload records and budgets are exact. [full_device_hits_parent] and
      [clone_frees_parent] are the two ways a clone reaches its parent's
      memory, [failed_copy_loses_weight] how it loses its own.
    - Streams and records ([flow_prelude_roundtrip], [pack_records_roundtrip]):
      round trips and exact acceptance.

    ** Bounds and fuel

    Loops that are not structural take fuel, and each has a proof that the
    fuel given suffices: the DNS name loop [17 * (length + 1) + 1] (it may
    follow 16 pointers and reads forward between them; C39),
    a walk follows at most 40 links as the kernel does, [create_dir_all] goes
    up at most the length of the path,
    [write_all] the length of the buffer (each round writes a byte or
    returns), the chunk loops of a capture the number of chunks (each round
    consumes one), the chain of a history the number of retained generations
    (each round removes one), a listing the number of pages (the code has no
    bound of its own; [listing_exact]), the year of a date one round per 365
    days, batched pruning the number of entries, the
    bisection of the admission controller 33 rounds (its 32-bit interval
    halves), the division of a limit as many rounds as it has slots (each
    hands out one), the
    search for an ancestor's tree the 64 steps the code takes (a restore is
    exact wherever it stops), the
    eviction loops of the mount's caches one more than their entries, the
    server-name and extension loops and the watchlist's parent walk the length
    of their input, the enqueues of the CUDA client 3 (a drain takes the
    pending segment first, so the second finds none), the serve loop the bytes
    received (each frame has a length), copy-on-write of chunks one more than
    the shared ranges (each round removes one), the binary search and the scan
    of arguments the length of their list, a bulk copy two more than its whole
    pieces, the white-space loops of [RustStr] the length of the
    string (each round drops a byte). The decimal and hexadecimal printers
    have 40 and 32 digits, enough for 128 bits. Integer widths are kept
    wherever the code can reach them: sequence numbers of the ring wrap at
    2^32, the generation of the mount's caches at 2^64, TTLs and deadlines
    saturate at 64 bits, sizes of checkpoints are added with a check, lengths
    of frames are checked against the width of their prefix.

    ** What is assumed

    Code outside the repository is an argument of the definitions that use
    it: [serde_json] (the rule list of a rendered policy and the JSON-RPC
    opening, and the rows of the resize journal), SHA-256 and zstd, the object
    store behind a mount, the clock, the environment, the process table, the
    view of a file at a reload, fresh tokens, and the outcomes of appending an
    audit record and of switching SQLite's durability. The laws a theorem
    needs of them are its hypotheses or the laws of an interface class, and
    its witness discharges them for a concrete function. A lock is never
    poisoned. The ring's memory is x86-TSO, every other shared state is behind its
    lock. A database transaction is
    atomic and isolated, a blob is the record it decodes to, and [COUNT] does
    not overflow. A CUDA host answers with statuses in range, with responses of
    the shape of their requests, and with no more than a frame for a download
    of at most 64 MiB ([Answering]; [CudaStack] shows it of the modelled
    dispatcher). The driver's blocks are disjoint and its copies, when they
    succeed, act on one block ([DeviceLaws]); it returns values of its types
    ([TypedBackend]); physical memory outlives its handle while it is mapped
    or retained ([VmmLaws]). That copies succeed is a hypothesis
    ([whole_copies], [copies_succeed]) of the parts that need it. The staging
    directory of a mount has room for every file. The arms of [dispatch] that do not concern memory
    are an argument. File-system calls of the checkpoint store fail only where
    the model has an error (missing and existing names, damaged contents);
    chunks of a capture are stored in some order, one step at a time. A
    retention run sees a fixed set of pins held by others, and a forgotten
    directory is deleted at once. The ceilings of the pools of one device sum
    to less than 2^32 - 1. A call to the object store may fail before
    or after it took effect; the refinement excludes the latter, the mount's
    requests run one after the other except as [S3FsFence] interleaves them,
    and nothing else writes the bucket.

    ** What is not modelled

    Sockets, threads and the smoltcp poll loop, processes, disks and the
    hypervisor, HTTP and its handlers, serde's data types, foreign-function
    forwarding to CUDA and generated code: their behaviour is that of the
    systems they call. Of src/db.rs the tables other than those of the fork
    pools and of resizes, of src/agent/fork.rs everything but
    [merge_fork_env] and [record_fork_activation], of the checkpoint store
    the single-file exports, the reuse of known inodes and the cache of
    materialized checkpoints, and
    of the S3 client the HTTP exchange itself are not modelled.

    Of the pool controller, waiting (the timer, the golden's lifecycle lock,
    the boot semaphore), log lines and gauges are not modelled, and forking and
    deleting machines are answers of the host.

    Of the CUDA service, the shared-memory and bridge transports of the client
    (the ring itself is [Ring]), the capture and replay of graphs, module and
    library handles, the reconstruction of a clone worker's context, the
    daemon's processes and the shims' C interfaces are not modelled.

    Candidates for later work: creation reservations (src/db.rs); the relay
    tables of the network stack (crates/smolvm-network/src/udp_relay.rs,
    icmp_relay.rs); the host DNS filter (src/dns_filter.rs) as a second client
    of [HostPattern]; retry back-off, image references and WebSocket framing;
    VM lifecycle states and memory-pressure decisions.

    ** This file

    Machine integers kept as [Z] with their width written out, byte strings,
    big- and little-endian codecs, the [result] type with its notation, and
    the tactics and hint databases the component files use. *)

From stdpp Require Export base list list_numbers gmap strings sorting.
From Stdlib Require Export ZArith Lia.

#[global] Set Warnings "-notation-overridden".

Open Scope Z_scope.

(** ** Results: [Result<T, E>] *)

Inductive result (T E : Type) : Type :=
| Ok (v : T)
| Err (e : E).
Arguments Ok {T E} v.
Arguments Err {T E} e.

#[global] Instance result_eq_dec {T E} `{EqDecision T, EqDecision E} :
  EqDecision (result T E).
Proof. solve_decision. Defined.

Definition is_ok {T E} (r : result T E) : bool :=
  match r with Ok _ => true | Err _ => false end.

Definition result_bind {T U E} (r : result T E) (f : T -> result U E) : result U E :=
  match r with Ok v => f v | Err e => Err e end.

(** [ok_or o e] is [Option::ok_or]. *)
Definition ok_or {T E} (o : option T) (e : E) : result T E :=
  match o with Some v => Ok v | None => Err e end.

Declare Scope rust_scope.
Delimit Scope rust_scope with rust.
Open Scope rust_scope.

(** The [?] operator, on [Result] and on [Option]. *)
Notation "'let?' x ':=' e 'in' k" := (result_bind e (fun x => k))
  (at level 10, x pattern, e at level 200, k at level 200,
   format "'[v' 'let?'  x  ':='  e  'in' '/' k ']'") : rust_scope.
Notation "'let!' x ':=' e 'in' k" := (mbind (M := option) (fun x => k) e)
  (at level 10, x pattern, e at level 200, k at level 200,
   format "'[v' 'let!'  x  ':='  e  'in' '/' k ']'") : rust_scope.

(** ** Machine integers

    An unsigned [w]-bit integer is a [Z] in [0, 2^w). Arithmetic that can
    overflow is written with the operation the source names: wrapping,
    saturating, or a plain [+] whose bound is proved. *)

Definition u_max (w : Z) : Z := 2 ^ w - 1.
Definition is_uint (w n : Z) : Prop := 0 <= n < 2 ^ w.

Abbreviation U8_MAX := 255.
Abbreviation U16_MAX := 65535.
Abbreviation U32_MAX := 4294967295.
Abbreviation U64_MAX := 18446744073709551615.

Definition wrap (w n : Z) : Z := n mod 2 ^ w.
Definition wrapping_add (w a b : Z) : Z := wrap w (a + b).
Definition wrapping_sub (w a b : Z) : Z := wrap w (a - b).
Definition saturating_add (w a b : Z) : Z := Z.min (a + b) (u_max w).
Definition saturating_sub (a b : Z) : Z := Z.max (a - b) 0.
Definition saturating_mul (w a b : Z) : Z := Z.min (a * b) (u_max w).
Definition checked_add (w a b : Z) : option Z := if a + b <=? u_max w then Some (a + b) else None.
Definition checked_mul (w a b : Z) : option Z := if a * b <=? u_max w then Some (a * b) else None.
Definition checked_sub (a b : Z) : option Z := if b <=? a then Some (a - b) else None.
Definition is_multiple_of (a b : Z) : bool := a mod b =? 0.
Definition div_ceil (a b : Z) : Z := (a + b - 1) / b.

Lemma is_uint_dec w n : Decision (is_uint w n).
Proof. unfold is_uint. apply _. Defined.
#[global] Existing Instance is_uint_dec.

(** ** Bytes *)

Abbreviation bytes := (list Z).

Definition is_byte (b : Z) : Prop := 0 <= b < 256.
Definition is_bytes (l : bytes) : Prop := Forall is_byte l.

#[global] Instance is_byte_dec b : Decision (is_byte b).
Proof. unfold is_byte. apply _. Defined.

(** A string literal of the source as its UTF-8 bytes. *)
Definition ascii_z (c : Ascii.ascii) : Z := Z.of_N (Ascii.N_of_ascii c).
Fixpoint bs (s : string) : bytes :=
  match s with
  | EmptyString => []
  | String c s => ascii_z c :: bs s
  end.

(** Rust's length of a slice, as a [usize]. *)
Definition len {A} (l : list A) : Z := Z.of_nat (length l).

(** [slice.get(i)] and [slice.get(a..b)] with [usize] indices. *)
Definition get {A} (l : list A) (i : Z) : option A :=
  if i <? 0 then None else l !! Z.to_nat i.
Definition get_range {A} (l : list A) (a b : Z) : option (list A) :=
  if (0 <=? a) && (a <=? b) && (b <=? len l)
  then Some (take (Z.to_nat (b - a)) (drop (Z.to_nat a) l)) else None.
Definition get_from {A} (l : list A) (a : Z) : option (list A) :=
  get_range l a (len l).
(** [&l[a..b]] where the source has already checked the bounds. *)
Definition slice {A} (l : list A) (a b : Z) : list A :=
  take (Z.to_nat (b - a)) (drop (Z.to_nat a) l).
(** [l[i]] on a byte slice whose bounds the source has checked. *)
Definition at_ (l : bytes) (i : Z) : Z := default 0 (get l i).

(** ** Endian codecs: [to_le_bytes], [from_le_bytes], [to_be_bytes], ... *)

Fixpoint to_le (n : nat) (v : Z) : bytes :=
  match n with
  | O => []
  | S n => v mod 256 :: to_le n (v / 256)
  end.

Fixpoint from_le (l : bytes) : Z :=
  match l with
  | [] => 0
  | b :: l => b + 256 * from_le l
  end.

Definition to_be (n : nat) (v : Z) : bytes := rev (to_le n v).
Definition from_be (l : bytes) : Z := from_le (rev l).

(** ** Automation *)

Create HintDb bytes.
Create Rewrite HintDb bytes.

(** Splits every boolean conjunction, comparison and negation in sight. *)
Ltac bool_simpl :=
  repeat match goal with
  | H : andb _ _ = true |- _ => apply andb_true_iff in H as [? ?]
  | H : orb _ _ = false |- _ => apply orb_false_iff in H as [? ?]
  | H : andb _ _ = false |- _ => apply andb_false_iff in H
  | H : orb _ _ = true |- _ => apply orb_true_iff in H
  | H : negb _ = true |- _ => apply negb_true_iff in H
  | H : negb _ = false |- _ => apply negb_false_iff in H
  | H : (_ <? _) = true |- _ => apply Z.ltb_lt in H
  | H : (_ <? _) = false |- _ => apply Z.ltb_ge in H
  | H : (_ <=? _) = true |- _ => apply Z.leb_le in H
  | H : (_ <=? _) = false |- _ => apply Z.leb_gt in H
  | H : (_ >? _) = _ |- _ => rewrite Z.gtb_ltb in H
  | H : (_ >=? _) = _ |- _ => rewrite Z.geb_leb in H
  | H : (_ =? _) = true |- _ => apply Z.eqb_eq in H
  | H : (_ =? _) = false |- _ => apply Z.eqb_neq in H
  | H : bool_decide _ = true |- _ => apply bool_decide_eq_true in H
  | H : bool_decide _ = false |- _ => apply bool_decide_eq_false in H
  end.

(** Case analysis on the guard of an [if] in the goal. *)
Ltac case_bool_guard :=
  match goal with
  | |- context [if ?b then _ else _] =>
      let E := fresh "E" in destruct b eqn:E; bool_simpl
  end.

Ltac case_bool_guard_in H :=
  match type of H with
  | context [if ?b then _ else _] =>
      let E := fresh "E" in destruct b eqn:E; bool_simpl
  end.

(** Case analysis on the scrutinee of the innermost [if] or [match]. *)
Ltac case_step :=
  match goal with
  | |- context [if ?b then _ else _] => destruct b eqn:?
  | |- context [match ?x with _ => _ end] => destruct x eqn:?
  end.
Ltac case_step_in H :=
  match type of H with
  | context [if ?b then _ else _] => destruct b eqn:?
  | context [match ?x with _ => _ end] => destruct x eqn:?
  end.
Ltac case_all := repeat (case_step; simplify_eq; bool_simpl).
Ltac case_all_in H := repeat (case_step_in H; simplify_eq; bool_simpl).

(** ** Lemmas on codecs *)

Lemma length_to_le n v : length (to_le n v) = n.
Proof. revert v. induction n; intros; simpl; auto. Qed.

Lemma length_to_be n v : length (to_be n v) = n.
Proof. unfold to_be. by rewrite length_rev, length_to_le. Qed.

Lemma to_le_bytes n v : is_bytes (to_le n v).
Proof.
  revert v. induction n; intros v; cbn [to_le]; [by constructor|].
  constructor; [|apply IHn]. unfold is_byte. pose proof (Z.mod_pos_bound v 256). lia.
Qed.

Lemma to_be_bytes n v : is_bytes (to_be n v).
Proof.
  unfold to_be, is_bytes. apply Forall_rev, to_le_bytes.
Qed.

Lemma from_to_le n v : from_le (to_le n v) = v mod 256 ^ Z.of_nat n.
Proof.
  revert v. induction n; intros v; cbn [to_le from_le].
  - by rewrite Z.mod_1_r.
  - rewrite IHn, Nat2Z.inj_succ, Z.pow_succ_r by lia.
    rewrite Z.rem_mul_r; [done | lia | apply Z.pow_pos_nonneg; lia].
Qed.

Lemma from_to_be n v : from_be (to_be n v) = v mod 256 ^ Z.of_nat n.
Proof. unfold from_be, to_be. by rewrite rev_involutive, from_to_le. Qed.

(** The codecs are exact on values that fit. *)
Lemma from_to_le_small n v :
  is_uint (8 * Z.of_nat n) v -> from_le (to_le n v) = v.
Proof.
  intros H. rewrite from_to_le. apply Z.mod_small.
  change 256 with (2 ^ 8). rewrite <-Z.pow_mul_r by lia. exact H.
Qed.

Lemma from_to_be_small n v :
  is_uint (8 * Z.of_nat n) v -> from_be (to_be n v) = v.
Proof.
  intros H. unfold from_be, to_be. by rewrite rev_involutive, from_to_le_small.
Qed.

Lemma from_le_bound l : is_bytes l -> 0 <= from_le l < 256 ^ len l.
Proof.
  unfold len. induction 1 as [|b l Hb _ IH]; cbn [from_le length].
  - rewrite Z.pow_0_r. lia.
  - rewrite Nat2Z.inj_succ, Z.pow_succ_r by lia. unfold is_byte in Hb. nia.
Qed.

Lemma from_be_bound l : is_bytes l -> 0 <= from_be l < 256 ^ len l.
Proof.
  intros H. unfold from_be.
  replace (len l) with (len (rev l)) by (unfold len; by rewrite length_rev).
  apply from_le_bound. unfold is_bytes. by apply Forall_rev.
Qed.

Lemma to_from_le l : is_bytes l -> to_le (length l) (from_le l) = l.
Proof.
  induction 1 as [|b l Hb _ IH]; [done|]. cbn [to_le from_le length].
  unfold is_byte in Hb.
  rewrite (Z.mul_comm 256), Z.mod_add, Z.mod_small by lia.
  rewrite Z.div_add, Z.div_small, Z.add_0_l by lia. by rewrite IH.
Qed.

Lemma to_from_be l : is_bytes l -> to_be (length l) (from_be l) = l.
Proof.
  intros H. unfold to_be, from_be.
  pose proof (to_from_le (rev l) (Forall_rev H)) as E.
  rewrite length_rev in E. by rewrite E, rev_involutive.
Qed.

#[export] Hint Rewrite length_to_le length_to_be : bytes.
#[export] Hint Resolve to_le_bytes to_be_bytes : bytes.

(** ** Lemmas on lengths and slices *)

Lemma len_nonneg {A} (l : list A) : 0 <= len l.
Proof. unfold len. lia. Qed.
Lemma len_app {A} (l k : list A) : len (l ++ k) = len l + len k.
Proof. unfold len. rewrite length_app. lia. Qed.
Lemma len_cons {A} (x : A) l : len (x :: l) = 1 + len l.
Proof. unfold len. simpl. lia. Qed.
Lemma len_nil {A} : len (@nil A) = 0.
Proof. done. Qed.
Lemma len_to_le n v : len (to_le n v) = Z.of_nat n.
Proof. unfold len. by rewrite length_to_le. Qed.
Lemma len_to_be n v : len (to_be n v) = Z.of_nat n.
Proof. unfold len. by rewrite length_to_be. Qed.
#[export] Hint Rewrite @len_app @len_cons @len_nil len_to_le len_to_be : bytes.

(** [get_range] at the seam of an append. *)
Lemma get_range_app {A} (l k m : list A) :
  get_range (l ++ k ++ m) (len l) (len l + len k) = Some k.
Proof.
  unfold get_range. pose proof (len_nonneg l). pose proof (len_nonneg k).
  pose proof (len_nonneg m).
  rewrite !len_app. case_bool_guard; [|lia].
  f_equal. unfold len. rewrite Nat2Z.id.
  rewrite drop_app_length. replace (Z.to_nat _) with (length k) by lia.
  apply take_app_length.
Qed.

Lemma get_app_mid {A} (l m : list A) x : get (l ++ x :: m) (len l) = Some x.
Proof.
  unfold get, len. destruct (Z.ltb_spec (Z.of_nat (length l)) 0); [lia|].
  rewrite Nat2Z.id. apply list_lookup_middle. done.
Qed.

Lemma get_Some_lt {A} (l : list A) i x : get l i = Some x -> 0 <= i < len l.
Proof.
  unfold get, len. destruct (Z.ltb_spec i 0); [done|].
  intros Hlt%lookup_lt_Some. lia.
Qed.

Lemma slice_app {A} (l k m : list A) a b :
  a = len l -> b = len l + len k -> slice (l ++ k ++ m) a b = k.
Proof.
  intros -> ->. unfold slice, len. rewrite Nat2Z.id, drop_app_length.
  replace (Z.to_nat _) with (length k) by lia. apply take_app_length.
Qed.

(** [get_range] with the seam given by computed positions. *)
Lemma get_range_app_at {A} (l k m : list A) a b :
  a = len l -> b = len l + len k -> get_range (l ++ k ++ m) a b = Some k.
Proof. intros -> ->. apply get_range_app. Qed.

Lemma get_range_Some {A} (l r : list A) a b :
  get_range l a b = Some r -> 0 <= a <= b /\ b <= len l /\ len r = b - a.
Proof.
  unfold get_range. intros H. case_bool_guard_in H; inv H.
  repeat split; try lia. unfold len in *. rewrite length_take, length_drop. lia.
Qed.

Lemma get_bytes l i x : is_bytes l -> get l i = Some x -> is_byte x.
Proof.
  intros H. unfold get. case_bool_guard; [done|]. intros El.
  by eapply Forall_lookup_1 in El.
Qed.

(** Facts about small integers by enumeration. *)
Lemma Z_range_ind (P : Z -> Prop) (n : Z) :
  Forall P (seqZ 0 n) -> forall z, 0 <= z < n -> P z.
Proof. intros H z Hz. eapply Forall_forall in H; [done|]. apply elem_of_seqZ. lia. Qed.

Lemma get_from_app {A} (l m : list A) a : a = len l -> get_from (l ++ m) a = Some m.
Proof.
  intros ->. unfold get_from. rewrite len_app, <-(app_nil_r m) at 1.
  apply get_range_app.
Qed.

Lemma slice_from_app {A} (l m : list A) a : a = len l -> slice (l ++ m) a (len (l ++ m)) = m.
Proof.
  intros ->. rewrite <-(app_nil_r m) at 1. apply slice_app; [done|]. by rewrite len_app.
Qed.

Lemma at_app_mid (l m : bytes) x i : i = len l -> at_ (l ++ x :: m) i = x.
Proof. intros ->. unfold at_. by rewrite get_app_mid. Qed.

Lemma to_be_2 n : to_be 2 n = [n / 256 mod 256; n mod 256].
Proof. done. Qed.

Lemma get_app_l {A} (l m : list A) i : i < len l -> get (l ++ m) i = get l i.
Proof.
  unfold get, len. intros H. case_bool_guard; [done|].
  apply lookup_app_l. lia.
Qed.

Lemma at_app_l (l m : bytes) i : i < len l -> at_ (l ++ m) i = at_ l i.
Proof. intros H. unfold at_. by rewrite get_app_l. Qed.

Lemma slice_app_l {A} (l m : list A) a b :
  0 <= a <= b -> b <= len l -> slice (l ++ m) a b = slice l a b.
Proof.
  unfold slice, len. intros H1 H2. rewrite drop_app_le by lia.
  rewrite take_app_le; [done|]. rewrite length_drop. lia.
Qed.

Lemma len_slice {A} (l : list A) a b : 0 <= a <= b -> b <= len l -> len (slice l a b) = b - a.
Proof. unfold slice, len. intros. rewrite length_take, length_drop. lia. Qed.

Lemma from_le_snoc0 l : from_le (l ++ [0]) = from_le l.
Proof. induction l as [|b l IH]; simpl; [done|]. by rewrite IH. Qed.

Lemma get_range_app_end {A} (l k : list A) a b :
  a = len l -> b = len l + len k -> get_range (l ++ k) a b = Some k.
Proof. intros -> ->. pose proof (get_range_app l k []) as H. by rewrite app_nil_r in H. Qed.

Lemma slice_app_end {A} (l k : list A) a b :
  a = len l -> b = len l + len k -> slice (l ++ k) a b = k.
Proof. intros Ha Hb. pose proof (slice_app l k [] a b Ha Hb) as H. by rewrite app_nil_r in H. Qed.
