(* ===== verification/RustStr.v ===== *)
(** * RustStr: the [str] operations of Rust's standard library

    A Rust [str] is its UTF-8 bytes, a [bytes]. The operations below are the
    ones the modelled crates call; those that take an ASCII [char] pattern act
    on bytes, which is exact on UTF-8, and [trim], [split_whitespace] and
    [split_once(char::is_whitespace)] recognise the encodings of every code
    point with the Unicode White_Space property. *)

From S2P Require Import Prelude.

Module Str.

(** ** ASCII classes and case *)

Definition is_ascii_digit (b : Z) : bool := (48 <=? b) && (b <=? 57).
Definition is_ascii_lower (b : Z) : bool := (97 <=? b) && (b <=? 122).
Definition is_ascii_upper (b : Z) : bool := (65 <=? b) && (b <=? 90).
Definition is_ascii_alphanumeric (b : Z) : bool :=
  is_ascii_digit b || is_ascii_lower b || is_ascii_upper b.

Definition lower_byte (b : Z) : Z := if is_ascii_upper b then b + 32 else b.
Definition to_ascii_lowercase (s : bytes) : bytes := map lower_byte s.
Definition eq_ignore_ascii_case (a b : bytes) : bool :=
  bool_decide (to_ascii_lowercase a = to_ascii_lowercase b).

(** ** Prefixes, suffixes, splitting *)

Definition is_empty (s : bytes) : bool :=
  match s with [] => true | _ => false end.

Fixpoint strip_prefix (p s : bytes) : option bytes :=
  match p, s with
  | [], _ => Some s
  | x :: p, y :: s => if x =? y then strip_prefix p s else None
  | _ :: _, [] => None
  end.

Definition strip_suffix (p s : bytes) : option bytes :=
  @rev Z <$> strip_prefix (rev p) (rev s).

Definition starts_with (p s : bytes) : bool := bool_decide (is_Some (strip_prefix p s)).
Definition ends_with (p s : bytes) : bool := bool_decide (is_Some (strip_suffix p s)).

Fixpoint drop_leading (c : Z) (s : bytes) : bytes :=
  match s with
  | [] => []
  | x :: s' => if x =? c then drop_leading c s' else s
  end.

(** [s.trim_end_matches(c)]. *)
Definition trim_end_matches (c : Z) (s : bytes) : bytes := rev (drop_leading c (rev s)).

(** [s.split_once(c)]: around the first [c]. *)
Fixpoint split_once (c : Z) (s : bytes) : option (bytes * bytes) :=
  match s with
  | [] => None
  | x :: s =>
      if x =? c then Some ([], s)
      else let! (a, b) := split_once c s in Some (x :: a, b)
  end.

(** [s.split(c)]: never empty. *)
Fixpoint split (c : Z) (s : bytes) : list bytes :=
  match s with
  | [] => [[]]
  | x :: s =>
      if x =? c then [] :: split c s
      else match split c s with
           | [] => [[x]]
           | h :: t => (x :: h) :: t
           end
  end.

Fixpoint join (sep : bytes) (l : list bytes) : bytes :=
  match l with
  | [] => []
  | [x] => x
  | x :: l => x ++ sep ++ join sep l
  end.

Definition contains (c : Z) (s : bytes) : bool := existsb (Z.eqb c) s.

(** ** White space *)

(** The length of the white-space character [s] starts with, 0 for none. *)
Definition ws_len (s : bytes) : nat :=
  match s with
  | b :: _ =>
      if ((9 <=? b) && (b <=? 13)) || (b =? 32) then 1%nat else
      match s with
      | 0xC2 :: c :: _ => if (c =? 0x85) || (c =? 0xA0) then 2%nat else 0%nat
      | 0xE1 :: 0x9A :: 0x80 :: _ => 3%nat
      | 0xE2 :: 0x80 :: c :: _ =>
          if ((0x80 <=? c) && (c <=? 0x8A)) || (c =? 0xA8) || (c =? 0xA9) || (c =? 0xAF)
          then 3%nat else 0%nat
      | 0xE2 :: 0x81 :: 0x9F :: _ => 3%nat
      | 0xE3 :: 0x80 :: 0x80 :: _ => 3%nat
      | _ => 0%nat
      end
  | [] => 0%nat
  end.

(** The length of the white-space character [s] ends with; [r] is [s] reversed. *)
Definition ws_len_rev (r : bytes) : nat :=
  match r with
  | b :: _ =>
      if ((9 <=? b) && (b <=? 13)) || (b =? 32) then 1%nat else
      if (Nat.eqb (ws_len (rev (take 2 r))) 2) then 2%nat else
      if (Nat.eqb (ws_len (rev (take 3 r))) 3) then 3%nat else 0%nat
  | [] => 0%nat
  end.

Fixpoint trim_start_fuel (fuel : nat) (s : bytes) : bytes :=
  match fuel with
  | O => s
  | S fuel => match ws_len s with O => s | n => trim_start_fuel fuel (drop n s) end
  end.
Fixpoint trim_end_fuel (fuel : nat) (r : bytes) : bytes :=
  match fuel with
  | O => r
  | S fuel => match ws_len_rev r with O => r | n => trim_end_fuel fuel (drop n r) end
  end.

Definition trim_start (s : bytes) : bytes := trim_start_fuel (length s) s.
Definition trim_end (s : bytes) : bytes := rev (trim_end_fuel (length s) (rev s)).
Definition trim (s : bytes) : bytes := trim_end (trim_start s).

(** [s.split_once(char::is_whitespace)]. *)
Fixpoint split_once_ws (s : bytes) : option (bytes * bytes) :=
  match s with
  | [] => None
  | x :: s' =>
      match ws_len s with
      | O => let! (a, b) := split_once_ws s' in Some (x :: a, b)
      | n => Some ([], drop n s)
      end
  end.

(** [s.split_whitespace()]: the maximal runs of other characters. *)
Fixpoint split_whitespace_fuel (fuel : nat) (s : bytes) : list bytes :=
  match fuel with
  | O => []
  | S fuel =>
      match trim_start s with
      | [] => []
      | s =>
          match split_once_ws s with
          | None => [s]
          | Some (a, b) => a :: split_whitespace_fuel fuel b
          end
      end
  end.
Definition split_whitespace (s : bytes) : list bytes :=
  split_whitespace_fuel (S (length s)) s.

(** [s.lines()]: split after each [\n]; a terminated line loses its [\n] and
    one [\r] before it, and no empty line follows a final [\n]. *)
Definition strip_cr (s : bytes) : bytes := default s (strip_suffix [13] s).
Fixpoint lines_of (segments : list bytes) : list bytes :=
  match segments with
  | [] => []
  | [last] => if is_empty last then [] else [last]
  | s :: rest => strip_cr s :: lines_of rest
  end.
Definition lines (s : bytes) : list bytes := lines_of (split 10 s).

(** ** [std::str::from_utf8] *)

Definition cont (b : Z) : bool := (0x80 <=? b) && (b <=? 0xBF).
Definition within (b lo hi : Z) : bool := (lo <=? b) && (b <=? hi).

Fixpoint utf8_valid (s : bytes) : bool :=
  match s with
  | [] => true
  | a :: s1 =>
      if within a 0 0x7F then utf8_valid s1 else
      match s1 with
      | [] => false
      | b :: s2 =>
          if within a 0xC2 0xDF then cont b && utf8_valid s2 else
          match s2 with
          | [] => false
          | c :: s3 =>
              if a =? 0xE0 then within b 0xA0 0xBF && cont c && utf8_valid s3 else
              if a =? 0xED then within b 0x80 0x9F && cont c && utf8_valid s3 else
              if within a 0xE1 0xEF then cont b && cont c && utf8_valid s3 else
              match s3 with
              | [] => false
              | d :: s4 =>
                  if a =? 0xF0 then within b 0x90 0xBF && cont c && cont d && utf8_valid s4 else
                  if within a 0xF1 0xF3 then cont b && cont c && cont d && utf8_valid s4 else
                  if a =? 0xF4 then within b 0x80 0x8F && cont c && cont d && utf8_valid s4
                  else false
              end
          end
      end
  end.

Definition from_utf8 (s : bytes) : option bytes := if utf8_valid s then Some s else None.

(** ** Integers: [str::parse] for an unsigned type of [w] bits

    An optional [+], then at least one decimal digit; overflow is an error. *)

Fixpoint digits_val (w acc : Z) (s : bytes) : option Z :=
  match s with
  | [] => Some acc
  | d :: s =>
      if is_ascii_digit d then
        let v := acc * 10 + (d - 48) in
        if v <=? u_max w then digits_val w v s else None
      else None
  end.

Definition parse_uint (w : Z) (s : bytes) : option Z :=
  let digits := match s with 43 :: d => d | _ => s end in
  if is_empty digits then None else digits_val w 0 digits.

(** Decimal text of a natural number ([to_string] on an unsigned integer). *)
Fixpoint dec_fuel (fuel : nat) (n : Z) (acc : bytes) : bytes :=
  match fuel with
  | O => acc
  | S fuel =>
      let acc := (48 + n mod 10) :: acc in
      if n <? 10 then acc else dec_fuel fuel (n / 10) acc
  end.
Definition dec (n : Z) : bytes := dec_fuel 40 n [].

End Str.

(** ** The fuel of the white-space loops suffices *)

Module StrFuel.
Import Str.

Lemma ws_len_pos_nonempty s n : ws_len s = S n -> (0 < length s)%nat.
Proof. destruct s; simpl; [done|lia]. Qed.

Lemma ws_len_rev_pos_nonempty r n : ws_len_rev r = S n -> (0 < length r)%nat.
Proof. destruct r; simpl; [done|lia]. Qed.

(** [trim_start] and [trim_end] stop only where no white space is left. *)
Lemma trim_start_fuel_done fuel s :
  (length s <= fuel)%nat -> ws_len (trim_start_fuel fuel s) = 0%nat.
Proof.
  revert s. induction fuel as [|fuel IH]; intros s Hs; simpl.
  { destruct s; [done|simpl in Hs; lia]. }
  destruct (ws_len s) as [|n] eqn:E; [done|].
  apply ws_len_pos_nonempty in E. apply IH. rewrite length_drop. lia.
Qed.

Lemma trim_end_fuel_done fuel r :
  (length r <= fuel)%nat -> ws_len_rev (trim_end_fuel fuel r) = 0%nat.
Proof.
  revert r. induction fuel as [|fuel IH]; intros r Hr; simpl.
  { destruct r; [done|simpl in Hr; lia]. }
  destruct (ws_len_rev r) as [|n] eqn:E; [done|].
  apply ws_len_rev_pos_nonempty in E. apply IH. rewrite length_drop. lia.
Qed.

Lemma trim_start_length fuel s : (length (trim_start_fuel fuel s) <= length s)%nat.
Proof.
  revert s. induction fuel as [|fuel IH]; intros s; simpl; [done|].
  destruct (ws_len s) as [|n]; [done|].
  etrans; [apply IH|]. rewrite length_drop. lia.
Qed.

Lemma split_once_ws_length s a b :
  split_once_ws s = Some (a, b) -> (length b < length s)%nat.
Proof.
  revert a b. induction s as [|x s IH]; intros a b; [done|].
  cbn [split_once_ws]. destruct (ws_len (x :: s)) as [|n] eqn:E.
  - destruct (split_once_ws s) as [[a' b']|] eqn:Es; simpl; [|done].
    intros [= <- <-]. specialize (IH _ _ eq_refl). lia.
  - intros [= <- <-]. rewrite length_drop. simpl. lia.
Qed.

(** [split_whitespace] is the loop run for as long as it needs. *)
Lemma split_whitespace_fuel_enough fuel fuel' s :
  (length s < fuel)%nat -> (length s < fuel')%nat ->
  split_whitespace_fuel fuel s = split_whitespace_fuel fuel' s.
Proof.
  revert fuel' s. induction fuel as [|fuel IH]; intros [|fuel'] s H H'; [lia..|].
  cbn [split_whitespace_fuel]. pose proof (trim_start_length (length s) s) as Hl.
  fold (trim_start s) in Hl. destruct (trim_start s) as [|x t]; [done|].
  destruct (split_once_ws (x :: t)) as [[a b]|] eqn:E; [|done].
  apply split_once_ws_length in E. f_equal. apply IH; lia.
Qed.

End StrFuel.

(** ** Prefixes *)

Module StrPrefix.
Import Str.

Lemma strip_prefix_Some p s r : strip_prefix p s = Some r <-> s = p ++ r.
Proof.
  revert s. induction p as [|x p IH]; intros s; simpl; [clear; naive_solver|].
  destruct s as [|y s]; simpl; [clear; naive_solver|].
  destruct (Z.eqb_spec x y) as [->|]; [rewrite IH|]; clear IH; naive_solver.
Qed.

Lemma strip_prefix_None p s : strip_prefix p s = None <-> forall r, s <> p ++ r.
Proof.
  destruct (strip_prefix p s) eqn:E.
  - apply strip_prefix_Some in E. naive_solver.
  - split; [|done]. intros _ r H. apply strip_prefix_Some in H. congruence.
Qed.
End StrPrefix.

(** ** Text without white space at its ends, and decimal text *)

Module StrFacts.
Import Str.

Definition plain (b : Z) : bool := is_ascii_alphanumeric b || (b =? 126).

Lemma ws_len_plain b s : plain b = true -> ws_len (b :: s) = 0%nat.
Proof.
  unfold plain, is_ascii_alphanumeric, is_ascii_digit, is_ascii_lower, is_ascii_upper. intros Hb.
  assert (48 <= b <= 126) as Hr by (repeat (bool_simpl; destruct_or?); lia).
  revert Hb. pattern b. revert b Hr.
  cut (Forall (fun b => 48 <= b -> plain b = true -> ws_len (b :: s) = 0%nat) (seqZ 0 127)).
  { intros Hf b Hr Hp. eapply Forall_forall in Hf; [by apply Hf; [lia|]|]. apply elem_of_seqZ. lia. }
  change (seqZ 0 127) with (ltac:(let l := eval vm_compute in (seqZ 0 127) in exact l)).
  repeat constructor; intros Hlo Hp; try (exfalso; lia); try discriminate Hp; reflexivity.
Qed.

Lemma ws_len_last_2 x b : ws_len [x; b] = 2%nat -> b = 133 \/ b = 160.
Proof.
  unfold ws_len. destruct (_ || _) in |- *; [done|].
  repeat case_match; simplify_eq; try done; bool_simpl; destruct_or?; bool_simpl; lia.
Qed.

Lemma ws_len_last_3 x y b : ws_len [x; y; b] = 3%nat -> 128 <= b.
Proof.
  unfold ws_len. destruct (_ || _) in |- *; [done|].
  repeat case_match; simplify_eq; try done; bool_simpl; destruct_or?; bool_simpl; lia.
Qed.

Lemma ws_len_rev_plain b r : plain b = true -> ws_len_rev (b :: r) = 0%nat.
Proof.
  intros Hp. pose proof (ws_len_plain b [] Hp) as H0.
  assert (b < 128) as Hb.
  { unfold plain, is_ascii_alphanumeric, is_ascii_digit, is_ascii_lower, is_ascii_upper in Hp.
    repeat (bool_simpl; destruct_or?); lia. }
  unfold ws_len_rev. unfold ws_len in H0 at 1. destruct (_ || _) in *; [done|]. clear H0.
  assert (ws_len (rev (take 2 (b :: r))) <> 2%nat) as H2.
  { destruct r as [|x r]; cbn [take rev app]; [rewrite ws_len_plain by done; done|].
    intros [?|?]%ws_len_last_2; lia. }
  assert (ws_len (rev (take 3 (b :: r))) <> 3%nat) as H3.
  { destruct r as [|x [|y r]]; cbn [take rev app]; [rewrite ws_len_plain by done; done| |].
    - unfold ws_len. repeat case_match; done.
    - intros ?%ws_len_last_3. lia. }
  by rewrite (proj2 (Nat.eqb_neq _ _) H2), (proj2 (Nat.eqb_neq _ _) H3).
Qed.

Lemma trim_plain s : forallb plain s = true -> trim s = s.
Proof.
  intros Hs. assert (trim_start s = s) as Ht.
  { unfold trim_start. destruct s as [|b s]; [done|]. simpl in Hs. bool_simpl.
    cbn [length trim_start_fuel]. by rewrite ws_len_plain. }
  unfold trim. rewrite Ht. unfold trim_end. rewrite <-length_rev.
  assert (forallb plain (rev s) = true) as Hr.
  { apply forallb_forall. intros x Hx%in_rev. by apply (proj1 (forallb_forall _ _) Hs). }
  destruct (rev s) as [|b r] eqn:Er; [by rewrite <-(rev_involutive s), Er|].
  simpl in Hr. bool_simpl. cbn [length trim_end_fuel]. rewrite ws_len_rev_plain by done.
  by rewrite <-Er, rev_involutive.
Qed.

Lemma dec_digits fuel n acc :
  forallb is_ascii_digit acc = true -> forallb is_ascii_digit (dec_fuel fuel n acc) = true.
Proof.
  revert n acc. induction fuel as [|fuel IH]; intros n acc Ha; [done|]. cbn [dec_fuel].
  assert (forallb is_ascii_digit ((48 + n mod 10) :: acc) = true) as Hb.
  { simpl. rewrite Ha, andb_true_r. unfold is_ascii_digit. pose proof (Z.mod_pos_bound n 10). lia. }
  destruct (n <? 10); [done|by apply IH].
Qed.

Lemma digits_dec w fuel n acc :
  0 <= n <= u_max w -> n < 10 ^ Z.of_nat fuel ->
  (0 < fuel)%nat -> digits_val w 0 (dec_fuel fuel n acc) = digits_val w n acc.
Proof.
  revert n acc. induction fuel as [|fuel IH]; intros n acc Hn Hf H0; [lia|]. cbn [dec_fuel].
  assert (forall m, m * 10 + n mod 10 = n ->
    digits_val w m ((48 + n mod 10) :: acc) = digits_val w n acc) as Hstep.
  { intros m Hm. cbn [digits_val]. pose proof (Z.mod_pos_bound n 10).
    assert (is_ascii_digit (48 + n mod 10) = true) as -> by (unfold is_ascii_digit; lia).
    replace (m * 10 + (48 + n mod 10 - 48)) with n by lia.
    by rewrite (proj2 (Z.leb_le n (u_max w)) ltac:(lia)). }
  destruct (Z.ltb_spec n 10).
  - apply Hstep. rewrite Z.mod_small by lia. lia.
  - rewrite Nat2Z.inj_succ, Z.pow_succ_r in Hf by lia.
    assert (0 <= n / 10 < 10 ^ Z.of_nat fuel) by (split; [apply Z.div_pos; lia|apply Z.div_lt_upper_bound; lia]).
    assert (n / 10 <= n) by (apply Z.div_le_upper_bound; lia).
    rewrite IH; [|lia|lia|].
    + apply Hstep. pose proof (Z.div_mod n 10). lia.
    + destruct fuel; [|lia]. change (10 ^ Z.of_nat 0) with 1 in *.
      assert (1 <= n / 10) by (apply Z.div_le_lower_bound; lia). lia.
Qed.

Lemma dec_nonempty fuel n acc : (0 < fuel)%nat \/ acc <> [] -> dec_fuel fuel n acc <> [].
Proof.
  revert n acc. induction fuel as [|fuel IH]; intros n acc Hf; simpl; [destruct Hf; [lia|done]|].
  destruct (n <? 10); [done|]. apply IH. by right.
Qed.

Lemma parse_dec w n : 0 <= n <= u_max w -> n < 10 ^ 40 -> parse_uint w (dec n) = Some n.
Proof.
  intros Hn Hb. unfold parse_uint.
  pose proof (dec_nonempty 40 n [] ltac:(left; lia)) as Hne.
  pose proof (dec_digits 40 n [] eq_refl) as Hd. fold (dec n) in *.
  assert (match dec n with 43 :: d => d | _ => dec n end = dec n) as ->.
  { destruct (dec n) as [|x l]; [done|]. simpl in Hd. bool_simpl.
    destruct (decide (x = 43)) as [->|]; [done|]. by repeat case_match. }
  assert (is_empty (dec n) = false) as -> by by destruct (dec n).
  unfold dec. rewrite digits_dec; [done..|lia].
Qed.

Lemma split_app c a b : split c (a ++ c :: b) = split c a ++ split c b.
Proof.
  induction a as [|x a IH]; simpl; [by rewrite Z.eqb_refl|]. destruct (x =? c); [by rewrite IH|].
  rewrite IH. destruct (split c a) eqn:E; [|done]. exfalso. destruct a; simpl in E; [done|].
  destruct (z =? c); [done|]. by destruct (split c a).
Qed.
Lemma split_free c s : c ∉ s -> split c s = [s].
Proof.
  induction s as [|x s IH]; simpl; [done|]. intros [Hx Hs]%not_elem_of_cons.
  destruct (Z.eqb_spec x c); [congruence|]. by rewrite IH.
Qed.

Lemma split_join_sep c l : l <> [] -> Forall (fun s => c ∉ s) l -> split c (join [c] l) = l.
Proof.
  intros Hne Hl. induction Hl as [|s l Hs Hl IH]; [done|]. destruct l as [|s' l]; [by apply split_free|].
  change (split c (s ++ c :: join [c] (s' :: l)) = s :: s' :: l).
  by rewrite split_app, split_free, IH.
Qed.
Lemma split_once_at c a b : c ∉ a -> split_once c (a ++ c :: b) = Some (a, b).
Proof.
  induction a as [|x a IH]; intros Ha; simpl; [by rewrite Z.eqb_refl|]. apply not_elem_of_cons in Ha as [Hx Ha].
  destruct (Z.eqb_spec x c); [congruence|]. by rewrite IH.
Qed.

End StrFacts.

(** ** String patterns *)

Module Pat.
Import Str.

(** What stands before and after the first occurrence of a pattern. *)
Fixpoint split_at (p s : bytes) : option (bytes * bytes) :=
  match strip_prefix p s with
  | Some rest => Some ([], rest)
  | None =>
      match s with
      | [] => None
      | x :: s => let! (a, b) := split_at p s in Some (x :: a, b)
      end
  end.

Definition contains_str (p s : bytes) : bool := bool_decide (is_Some (split_at p s)).

(** [s.replace(p, r)] for a pattern that is not empty. *)
Fixpoint replace_fuel (fuel : nat) (p r s : bytes) : bytes :=
  match fuel with
  | O => s
  | S fuel =>
      match split_at p s with
      | None => s
      | Some (a, b) => a ++ r ++ replace_fuel fuel p r b
      end
  end.
Definition replace (p r s : bytes) : bytes := replace_fuel (length s) p r s.

Definition trim_start_matches (c : Z) (s : bytes) : bytes := drop_leading c s.
Definition trim_matches (c : Z) (s : bytes) : bytes := trim_end_matches c (drop_leading c s).

(** A stable sort. *)
Fixpoint insert_by {A} (le : A -> A -> bool) (x : A) (l : list A) : list A :=
  match l with
  | [] => [x]
  | y :: l => if le x y then x :: y :: l else y :: insert_by le x l
  end.
Fixpoint sort_by {A} (le : A -> A -> bool) (l : list A) : list A :=
  match l with
  | [] => []
  | x :: l => insert_by le x (sort_by le l)
  end.

(** [{n:02}], [{n:04}]. *)
Definition padded (w : nat) (n : Z) : bytes := replicate (w - length (dec n)) 48 ++ dec n.
(** [{b:02x}], [{b:02X}]. *)
Definition lower_digit (d : Z) : Z := if d <? 10 then 48 + d else 87 + d.
Definition upper_digit (d : Z) : Z := if d <? 10 then 48 + d else 55 + d.
End Pat.
