(* ===== verification/Ip.v ===== *)
(** * Ip: [std::net::IpAddr] and [Cidr]

    An IPv4 address is its [u32] value and an IPv6 address its [u128] value.
    [Ip] holds the address classes, the text parser ([FromStr]) and the
    canonical text ([Display]) of the standard library; [Cidr] is the
    gateway's parsed prefix (crates/smolvm-network/src/egress.rs). *)

From S2P Require Import Prelude RustStr.

Module Ip.
Import Str.

Inductive IpAddr :=
| V4 (a : Z)
| V6 (a : Z).

#[global] Instance IpAddr_eq_dec : EqDecision IpAddr.
Proof. solve_decision. Defined.
#[global] Instance IpAddr_countable : Countable IpAddr.
Proof.
  refine (inj_countable'
    (fun i => match i with V4 a => (true, a) | V6 a => (false, a) end)
    (fun p => if p.1 then V4 p.2 else V6 p.2) _).
  by intros [].
Defined.

Definition wf (ip : IpAddr) : Prop :=
  match ip with V4 a => is_uint 32 a | V6 a => is_uint 128 a end.

(** Octet [i] of an IPv4 address and 16-bit segment [i] of an IPv6 address,
    both counted from the most significant. *)
Definition octet (a i : Z) : Z := Z.shiftr a (8 * (3 - i)) mod 256.
Definition segment (a i : Z) : Z := Z.shiftr a (16 * (7 - i)) mod 65536.
Definition octets4 (a : Z) : bytes := to_be 4 a.
Definition octets16 (a : Z) : bytes := to_be 16 a.
Definition segments (a : Z) : list Z := map (segment a) [0; 1; 2; 3; 4; 5; 6; 7].

(** ** Address classes *)

Definition v4_is_loopback (a : Z) : bool := octet a 0 =? 127.
Definition v4_is_link_local (a : Z) : bool := (octet a 0 =? 169) && (octet a 1 =? 254).
Definition v4_is_unspecified (a : Z) : bool := a =? 0.
Definition v4_is_broadcast (a : Z) : bool := a =? U32_MAX.
Definition v4_is_private (a : Z) : bool :=
  (octet a 0 =? 10)
  || ((octet a 0 =? 172) && (16 <=? octet a 1) && (octet a 1 <=? 31))
  || ((octet a 0 =? 192) && (octet a 1 =? 168)).

Definition v6_is_loopback (a : Z) : bool := a =? 1.
Definition v6_is_unspecified (a : Z) : bool := a =? 0.

(** [to_ipv4_mapped]: the IPv4 address in [::ffff:a.b.c.d]. *)
Definition to_ipv4_mapped (a : Z) : option Z :=
  if Z.shiftr a 32 =? 0xffff then Some (a mod 2 ^ 32) else None.
(** The IPv4-mapped IPv6 spelling of an IPv4 address. *)
Definition to_ipv6_mapped (a : Z) : Z := 0xffff * 2 ^ 32 + a.

(** ** [FromStr]: the parser of [core::net] *)

Definition parser (A : Type) : Type := bytes -> option (A * bytes).

(** [read_given_char]. *)
Definition read_char (c : Z) : parser unit := fun s =>
  match s with
  | x :: s => if x =? c then Some (tt, s) else None
  | [] => None
  end.

Definition hex_val (b : Z) : option Z :=
  if is_ascii_digit b then Some (b - 48)
  else if (97 <=? b) && (b <=? 102) then Some (b - 87)
  else if (65 <=? b) && (b <=? 70) then Some (b - 55) else None.
Definition to_digit (radix b : Z) : option Z :=
  let! d := hex_val b in if d <? radix then Some d else None.

(** [read_number]: as many digits as there are, at most [max_digits], the
    value checked against [limit] after each one. *)
Fixpoint read_digits (radix limit : Z) (max_digits count : nat) (acc : Z) (s : bytes) :
    option (Z * nat * bytes) :=
  match s with
  | [] => Some (acc, count, s)
  | b :: s' =>
      match to_digit radix b with
      | None => Some (acc, count, s)
      | Some d =>
          if acc * radix + d <=? limit then
            if Nat.leb (S count) max_digits
            then read_digits radix limit max_digits (S count) (acc * radix + d) s'
            else None
          else None
      end
  end.
Definition read_number (radix limit : Z) (max_digits : nat) (zero_prefix : bool) : parser Z :=
  fun s =>
  let! (v, count, rest) := read_digits radix limit max_digits 0 0 s in
  if Nat.eqb count 0 then None
  else if negb zero_prefix && bool_decide (head s = Some 48) && Nat.ltb 1 count then None
  else Some (v, rest).

Definition read_separator {A} (sep : Z) (index : nat) (inner : parser A) : parser A := fun s =>
  match index with
  | O => inner s
  | S _ => let! (_, s) := read_char sep s in inner s
  end.

Definition read_octet (index : nat) : parser Z :=
  read_separator 46 index (read_number 10 U8_MAX 3 false).

Definition read_ipv4 : parser Z := fun s =>
  let! (a, s) := read_octet 0 s in
  let! (b, s) := read_octet 1 s in
  let! (c, s) := read_octet 2 s in
  let! (d, s) := read_octet 3 s in
  Some (from_be [a; b; c; d], s).

(** [read_groups] on a slice of [limit] groups: the groups read, whether the
    last two came from an embedded IPv4 address, and the rest. *)
Fixpoint read_groups (n : nat) (limit i : nat) (s : bytes) : list Z * bool * bytes :=
  match n with
  | O => ([], false, s)
  | S n =>
      let v4 := if Nat.ltb (i + 1) limit then read_separator 58 i read_ipv4 s else None in
      match v4 with
      | Some (a, s) => ([a / 65536; a mod 65536], true, s)
      | None =>
          match read_separator 58 i (read_number 16 U16_MAX 4 true) s with
          | Some (g, s) =>
              let '(gs, v4, s) := read_groups n limit (S i) s in (g :: gs, v4, s)
          | None => ([], false, s)
          end
      end
  end.

Fixpoint of_segments (acc : Z) (l : list Z) : Z :=
  match l with [] => acc | g :: l => of_segments (acc * 65536 + g) l end.

Definition read_ipv6 : parser Z := fun s =>
  let '(head, head_ipv4, s) := read_groups 8 8 0 s in
  if Nat.eqb (length head) 8 then Some (of_segments 0 head, s)
  else if head_ipv4 then None
  else
    let! (_, s) := read_char 58 s in
    let! (_, s) := read_char 58 s in
    let limit := (8 - (length head + 1))%nat in
    let '(tail, _, s) := read_groups limit limit 0 s in
    let gap := replicate (8 - length head - length tail)%nat 0 in
    Some (of_segments 0 (head ++ gap ++ tail), s).

(** [s.parse::<IpAddr>()]. *)
Definition parse_ip (s : bytes) : option IpAddr :=
  match read_ipv4 s with
  | Some (a, []) => Some (V4 a)
  | Some _ => None
  | None => match read_ipv6 s with Some (a, []) => Some (V6 a) | _ => None end
  end.

(** ** [Display] *)

Definition hex_digit (d : Z) : Z := if d <? 10 then 48 + d else 87 + d.
Fixpoint hex_fuel (fuel : nat) (n : Z) (acc : bytes) : bytes :=
  match fuel with
  | O => acc
  | S fuel =>
      let acc := hex_digit (n mod 16) :: acc in
      if n <? 16 then acc else hex_fuel fuel (n / 16) acc
  end.
Definition hex (n : Z) : bytes := hex_fuel 32 n [].

Definition v4_to_string (a : Z) : bytes :=
  join [46] (map (fun i => dec (octet a i)) [0; 1; 2; 3]).

(** The first longest run of zero segments, as (start, length). *)
Fixpoint zero_run (i cur_start cur_len start best : nat) (l : list Z) : nat * nat :=
  match l with
  | [] => (start, best)
  | g :: l =>
      if g =? 0 then
        let cur_start := if Nat.eqb cur_len 0 then i else cur_start in
        let cur_len := S cur_len in
        if Nat.ltb best cur_len then zero_run (S i) cur_start cur_len cur_start cur_len l
        else zero_run (S i) cur_start cur_len start best l
      else zero_run (S i) 0 0 start best l
  end.

Definition v6_to_string (a : Z) : bytes :=
  match to_ipv4_mapped a with
  | Some v4 => bs "::ffff:" ++ v4_to_string v4
  | None =>
      let segs := segments a in
      let '(start, n) := zero_run 0 0 0 0 0 segs in
      if Nat.ltb 1 n
      then join [58] (map hex (take start segs)) ++ bs "::"
           ++ join [58] (map hex (drop (start + n) segs))
      else join [58] (map hex segs)
  end.

Definition to_string (ip : IpAddr) : bytes :=
  match ip with V4 a => v4_to_string a | V6 a => v6_to_string a end.

(** ** Lemmas on classes and the mapped form *)

Lemma mapped_roundtrip a : is_uint 32 a -> to_ipv4_mapped (to_ipv6_mapped a) = Some a.
Proof.
  intros [H1 H2]. unfold to_ipv4_mapped, to_ipv6_mapped.
  rewrite Z.shiftr_div_pow2, Z.div_add_l, Z.div_small, Z.add_0_r by lia.
  rewrite Z.eqb_refl. f_equal.
  rewrite Z.add_comm, Z.mod_add, Z.mod_small by lia. done.
Qed.

Lemma mapped_wf a : is_uint 32 a -> is_uint 128 (to_ipv6_mapped a).
Proof. unfold is_uint, to_ipv6_mapped. intros. lia. Qed.

Lemma mapped_inv a v : to_ipv4_mapped a = Some v -> a = to_ipv6_mapped v /\ is_uint 32 v.
Proof.
  unfold to_ipv4_mapped, to_ipv6_mapped, is_uint. intros H.
  destruct (Z.eqb_spec (Z.shiftr a 32) 0xffff) as [E|]; inv H.
  rewrite Z.shiftr_div_pow2 in E by lia.
  pose proof (Z.div_mod a (2 ^ 32)). pose proof (Z.mod_pos_bound a (2 ^ 32)). lia.
Qed.

(** A mapped address has a zero first segment, so it is in none of the IPv6
    classes that look at it. *)
Lemma mapped_segment0 a v : to_ipv4_mapped a = Some v -> segment a 0 = 0.
Proof.
  intros [-> [H1 H2]]%mapped_inv. unfold segment, to_ipv6_mapped.
  rewrite Z.shiftr_div_pow2 by lia. rewrite Z.div_small by lia. done.
Qed.

End Ip.

(** ** CIDR prefixes *)

Module Cidr.
Import Str Ip.

Inductive Cidr :=
| CV4 (network mask : Z)
| CV6 (network mask : Z).

#[global] Instance Cidr_eq_dec : EqDecision Cidr.
Proof. solve_decision. Defined.

(** [u32::MAX << (32 - prefix)] at width [w], 0 for a zero prefix. *)
Definition mask_of (w prefix : Z) : Z :=
  if prefix =? 0 then 0 else wrap w (Z.shiftl (u_max w) (w - prefix)).

Definition parse (spec : bytes) : option Cidr :=
  let! (addr, prefix) :=
    match split_once 47 (trim spec) with
    | Some (addr, prefix) => let! p := parse_uint 8 prefix in Some (addr, Some p)
    | None => Some (trim spec, None)
    end in
  let! ip := Ip.parse_ip addr in
  match ip with
  | V4 ip =>
      let prefix := default 32 prefix in
      if prefix >? 32 then None
      else let mask := mask_of 32 prefix in Some (CV4 (Z.land ip mask) mask)
  | V6 ip =>
      let prefix := default 128 prefix in
      if prefix >? 128 then None
      else let mask := mask_of 128 prefix in Some (CV6 (Z.land ip mask) mask)
  end.

Definition contains (c : Cidr) (ip : IpAddr) : bool :=
  match c, ip with
  | CV4 network mask, V4 ip => Z.land ip mask =? network
  | CV6 network mask, V6 ip => Z.land ip mask =? network
  | _, _ => false
  end.

End Cidr.

Module CidrFacts.
Import Str Ip Cidr.

Section Width.
Context (w : Z) (Hw : 0 < w).

(** The mask keeps the top [prefix] of [w] bits. *)
Lemma mask_of_bits prefix n :
  0 <= prefix <= w -> 0 <= n ->
  Z.testbit (mask_of w prefix) n = (w - prefix <=? n) && (n <? w).
Proof.
  intros Hp Hn. unfold mask_of, wrap, u_max. destruct (Z.eqb_spec prefix 0) as [->|].
  - rewrite Z.bits_0. symmetry. apply andb_false_iff.
    destruct (Z.ltb_spec n w); [left; apply Z.leb_gt; lia|by right].
  - replace (2 ^ w - 1) with (Z.ones w) by (rewrite Z.ones_equiv; lia).
    destruct (Z.ltb_spec n w).
    + rewrite Z.mod_pow2_bits_low, Z.shiftl_spec by lia. rewrite andb_true_r.
      destruct (Z.leb_spec (w - prefix) n).
      * rewrite Z.ones_spec_low by lia. done.
      * apply Z.testbit_neg_r. lia.
    + rewrite Z.mod_pow2_bits_high by lia. by rewrite andb_false_r.
Qed.

Lemma uint_high_bits x n : is_uint w x -> w <= n -> Z.testbit x n = false.
Proof.
  intros [H1 H2] Hn. destruct (Z.eq_dec x 0) as [->|]; [apply Z.bits_0|].
  apply Z.bits_above_log2; [lia|]. apply Z.log2_lt_pow2 in H2; lia.
Qed.

Lemma land_mask prefix x :
  0 <= prefix <= w -> is_uint w x ->
  Z.land x (mask_of w prefix) = Z.shiftl (Z.shiftr x (w - prefix)) (w - prefix).
Proof.
  intros Hp Hx. apply Z.bits_inj'. intros n Hn.
  rewrite Z.land_spec, mask_of_bits, Z.shiftl_spec by lia.
  destruct (Z.leb_spec (w - prefix) n); cbn [andb].
  - rewrite Z.shiftr_spec by lia. replace (n - (w - prefix) + (w - prefix)) with n by lia.
    destruct (Z.ltb_spec n w); [apply andb_true_r|].
    rewrite uint_high_bits by (done || lia). done.
  - rewrite andb_false_r, Z.testbit_neg_r by lia. done.
Qed.

(** Equality under the mask is equality of the prefixes. *)
Lemma land_mask_eq prefix x a :
  0 <= prefix <= w -> is_uint w x -> is_uint w a ->
  Z.land x (mask_of w prefix) = Z.land a (mask_of w prefix)
  <-> Z.shiftr x (w - prefix) = Z.shiftr a (w - prefix).
Proof.
  intros Hp Hx Ha. rewrite !land_mask by done. split; [|by intros ->].
  intros H. apply (f_equal (fun z => Z.shiftr z (w - prefix))) in H.
  rewrite !Z.shiftr_shiftl_l, Z.sub_diag, !Z.shiftl_0_r in H by lia. done.
Qed.
End Width.

End CidrFacts.

Module CidrProps.
Import Str Ip Cidr CidrFacts.

(** The address a range is written with, and its prefix length. *)
Definition same_prefix (net : IpAddr) (prefix : Z) (ip : IpAddr) : Prop :=
  match net, ip with
  | V4 a, V4 x => Z.shiftr x (32 - prefix) = Z.shiftr a (32 - prefix)
  | V6 a, V6 x => Z.shiftr x (128 - prefix) = Z.shiftr a (128 - prefix)
  | _, _ => False
  end.
Definition width (ip : IpAddr) : Z := match ip with V4 _ => 32 | V6 _ => 128 end.

(** A range written [addr/prefix] parses exactly when the prefix length fits
    the address family, and then contains exactly the addresses of that family
    whose first [prefix] bits are those of [addr]; the host bits of [addr] are
    ignored. *)
Theorem cidr_prefix spec addr ptext prefix net ip :
  split_once 47 (trim spec) = Some (addr, ptext) ->
  parse_uint 8 ptext = Some prefix -> Ip.parse_ip addr = Some net ->
  0 <= prefix -> wf net -> wf ip ->
  (is_Some (parse spec) <-> prefix <= width net)
  /\ forall c, parse spec = Some c -> contains c ip = true <-> same_prefix net prefix ip.
Proof.
  intros Hs Hp Ha H0 Hn Hi. unfold parse. rewrite Hs, Hp. cbn [mbind option_bind]. rewrite Ha.
  cbn [mbind option_bind default from_option]. unfold id.
  destruct net as [a|a]; cbn [width]; case_bool_guard.
  all: split; [first [split; [by intros []|lia] | split; [lia|by eexists]
                     | split; [intros _; lia|by eexists]]|].
  all: intros c [= <-]; destruct ip as [x|x]; cbn [contains same_prefix]; try done.
  all: rewrite Z.eqb_eq; apply land_mask_eq; done || lia.
Qed.

Lemma cidr_prefix_witness :
  is_Some (parse (bs "10.1.2.3/16"))
  /\ forall c, parse (bs "10.1.2.3/16") = Some c ->
     contains c (V4 (from_be [10; 1; 250; 9])) = true.
Proof.
  destruct (cidr_prefix (bs "10.1.2.3/16") (bs "10.1.2.3") (bs "16") 16
    (V4 (from_be [10; 1; 2; 3])) (V4 (from_be [10; 1; 250; 9]))) as [H1 H2];
    [by vm_compute..|].
  split; [by apply H1|]. intros c Hc. apply H2; [done|]. by vm_compute.
Defined.

End CidrProps.
