(* ===== verification/HostPattern.v ===== *)
(** * HostPattern: network host entries
    (crates/smolvm-protocol/src/host_pattern.rs)

    Allow-list entries for host names: legacy entries match a name and its
    subdomains, [=host] matches exactly, [*.host] matches subdomains only.
    [Spec] states what an entry admits without reference to string
    operations, and [matches] is proved to decide it. *)

From S2P Require Import Prelude RustStr Ip.

Module HostPattern.
Import Str.

Inductive PatternError := InvalidHostPattern (pattern : bytes).

Definition invalid_label (label : bytes) : bool :=
  let empty := is_empty label in
  let too_long := len label >? 63 in
  let edge_hyphen := starts_with (bs "-") label || ends_with (bs "-") label in
  let non_hostname_character :=
    negb (forallb (fun byte => is_ascii_alphanumeric byte || (byte =? 45)) label) in
  empty || too_long || edge_hyphen || non_hostname_character.

Definition encode_strict (pattern : bytes) : result bytes PatternError :=
  let pattern := default pattern (strip_suffix (bs ".") pattern) in
  let '(host, wildcard) :=
    match strip_prefix (bs "*.") pattern with
    | Some host => (host, true)
    | None => (pattern, false)
    end in
  let empty_host := is_empty host in
  let name_too_long := len host >? 253 in
  let extra_wildcard := contains 42 host in
  let ip_literal := negb wildcard && bool_decide (is_Some (Ip.parse_ip host)) in
  let invalid := existsb invalid_label (split 46 host) in
  if empty_host || name_too_long || extra_wildcard || ip_literal || invalid
  then Err (InvalidHostPattern pattern)
  else Ok (if wildcard then bs "*." ++ to_ascii_lowercase host
           else bs "=" ++ to_ascii_lowercase host).

(** The normal form both sides of a match are put in. *)
Definition normalize (s : bytes) : bytes := to_ascii_lowercase (trim_end_matches 46 s).

Definition matches (host entry : bytes) : bool :=
  let host := normalize host in
  let entry := normalize entry in
  match strip_prefix (bs "=") entry with
  | Some exact => negb (is_empty exact) && bool_decide (host = exact)
  | None =>
      match strip_prefix (bs "*.") entry with
      | Some suffix =>
          negb (is_empty suffix)
          && match strip_suffix suffix host with
             | Some prefix => ends_with (bs ".") prefix && (len prefix >? 1)
             | None => false
             end
      | None =>
          negb (is_empty entry)
          && (bool_decide (host = entry)
              || match strip_suffix entry host with
                 | Some prefix => ends_with (bs ".") prefix
                 | None => false
                 end)
      end
  end.

Definition static_resolution_host (entry : bytes) : option bytes :=
  if starts_with (bs "*.") entry then None
  else Some (default entry (strip_prefix (bs "=") entry)).

(** ** Specification *)

(** [is_subdomain name zone]: [name] is a label sequence in front of [zone],
    cut at a dot; [nonempty] asks that the part before the dot is not empty. *)
Definition is_subdomain (nonempty : bool) (name zone : bytes) : Prop :=
  exists q, (nonempty = true -> q <> []) /\ name = q ++ [46] ++ zone.

Inductive Admits : bytes -> bytes -> Prop :=
| AdmitsExact x : x <> [] -> Admits x (61 :: x)
| AdmitsWildcard h x : x <> [] -> is_subdomain true h x -> Admits h (42 :: 46 :: x)
| AdmitsApex e : e <> [] -> head e <> Some 61 -> take 2 e <> [42; 46] -> Admits e e
| AdmitsBelow h e :
    e <> [] -> head e <> Some 61 -> take 2 e <> [42; 46] -> is_subdomain false h e -> Admits h e.

End HostPattern.

(** ** Lemmas on the string operations *)

Module StrFacts.
Import Str StrPrefix.

Lemma strip_suffix_Some p s r : strip_suffix p s = Some r <-> s = r ++ p.
Proof.
  unfold strip_suffix. rewrite fmap_Some. split.
  - intros (q & H%strip_prefix_Some & ->).
    apply (f_equal (@rev Z)) in H. by rewrite rev_app_distr, !rev_involutive in H.
  - intros ->. exists (rev r). rewrite strip_prefix_Some, rev_app_distr, rev_involutive. done.
Qed.

Lemma strip_suffix_None p s : strip_suffix p s = None <-> forall r, s <> r ++ p.
Proof.
  destruct (strip_suffix p s) eqn:E.
  - apply strip_suffix_Some in E. naive_solver.
  - split; [|done]. intros _ r H. apply strip_suffix_Some in H. congruence.
Qed.

Lemma ends_with_true p s : ends_with p s = true <-> exists r, s = r ++ p.
Proof.
  unfold ends_with. rewrite bool_decide_eq_true. unfold is_Some.
  by setoid_rewrite strip_suffix_Some.
Qed.

Lemma is_empty_false s : is_empty s = false <-> s <> [].
Proof. destruct s; naive_solver. Qed.
Lemma is_empty_true s : is_empty s = true <-> s = [].
Proof. destruct s; naive_solver. Qed.

Lemma lower_app a b :
  to_ascii_lowercase (a ++ b) = to_ascii_lowercase a ++ to_ascii_lowercase b.
Proof. apply map_app. Qed.

Lemma lower_byte_idem b : lower_byte (lower_byte b) = lower_byte b.
Proof.
  unfold lower_byte, is_ascii_upper.
  destruct ((65 <=? b) && (b <=? 90)) eqn:E; [|by rewrite E].
  bool_simpl. case_bool_guard; [lia|done].
Qed.
Lemma lower_idem s : to_ascii_lowercase (to_ascii_lowercase s) = to_ascii_lowercase s.
Proof.
  unfold to_ascii_lowercase. rewrite map_map.
  apply map_ext. apply lower_byte_idem.
Qed.

Lemma lower_byte_dot b : lower_byte b = 46 <-> b = 46.
Proof.
  unfold lower_byte, is_ascii_upper. destruct (_ && _) eqn:E; [|done]. bool_simpl. lia.
Qed.

Lemma drop_leading_lower s :
  drop_leading 46 (to_ascii_lowercase s) = to_ascii_lowercase (drop_leading 46 s).
Proof.
  induction s as [|x s IH]; [done|]. simpl.
  destruct (Z.eqb_spec x 46) as [->|Hx]; [exact IH|].
  destruct (Z.eqb_spec (lower_byte x) 46) as [E|]; [|done].
  by apply (proj1 (lower_byte_dot _)) in E.
Qed.

Lemma trim_end_lower s :
  trim_end_matches 46 (to_ascii_lowercase s) = to_ascii_lowercase (trim_end_matches 46 s).
Proof.
  unfold trim_end_matches, to_ascii_lowercase. rewrite <-map_rev.
  fold (to_ascii_lowercase (rev s)). rewrite drop_leading_lower.
  unfold to_ascii_lowercase. by rewrite map_rev.
Qed.

Lemma drop_leading_idem c s : drop_leading c (drop_leading c s) = drop_leading c s.
Proof.
  induction s as [|x s IH]; [done|]. simpl.
  destruct (x =? c) eqn:E; [exact IH|]. simpl. by rewrite E.
Qed.

Lemma trim_end_idem c s : trim_end_matches c (trim_end_matches c s) = trim_end_matches c s.
Proof. unfold trim_end_matches. by rewrite rev_involutive, drop_leading_idem. Qed.

(** A string that does not end in [c] is left alone. *)
Lemma trim_end_id c s : last s <> Some c -> trim_end_matches c s = s.
Proof.
  intros H. unfold trim_end_matches.
  destruct s as [|x s _] using rev_ind; [done|]. rewrite rev_app_distr. simpl.
  rewrite last_snoc in H. destruct (Z.eqb_spec x c); [congruence|].
  rewrite <-(rev_involutive s) at 2. done.
Qed.

Lemma trim_end_last c s : last (trim_end_matches c s) <> Some c.
Proof.
  unfold trim_end_matches. induction s as [|x s IH] using rev_ind; [done|].
  rewrite rev_app_distr. simpl. destruct (Z.eqb_spec x c) as [|Hx]; [done|].
  simpl. rewrite last_snoc. congruence.
Qed.

Lemma last_lower s : last (to_ascii_lowercase s) <> Some 46 <-> last s <> Some 46.
Proof.
  destruct s as [|x s _] using rev_ind; [done|].
  rewrite lower_app. simpl. rewrite !last_snoc.
  split; intros H [=]; apply H; f_equal; by apply lower_byte_dot.
Qed.

Lemma split_nonnil c s : split c s <> [].
Proof. destruct s; simpl; [done|]. destruct (_ =? _); [done|]. by destruct (split c s). Qed.

Lemma join_cons sep x l : l <> [] -> join sep (x :: l) = x ++ sep ++ join sep l.
Proof. by destruct l. Qed.

(** [split] and [join] are inverse. *)
Lemma join_split c s : join [c] (split c s) = s.
Proof.
  induction s as [|x s IH]; [done|]. simpl.
  pose proof (split_nonnil c s) as Hn.
  destruct (Z.eqb_spec x c) as [->|].
  - rewrite join_cons by done. simpl. by rewrite IH.
  - destruct (split c s) as [|h t]; [done|]. destruct t; simpl in *; congruence.
Qed.

Lemma split_lower_dot s : map to_ascii_lowercase (split 46 s) = split 46 (to_ascii_lowercase s).
Proof.
  induction s as [|x s IH]; [done|]. simpl.
  destruct (Z.eqb_spec x 46) as [->|Hx]; simpl; [by rewrite IH|].
  destruct (Z.eqb_spec (lower_byte x) 46) as [E|_].
  { by apply (proj1 (lower_byte_dot _)) in E. }
  rewrite <-IH. by destruct (split 46 s).
Qed.

End StrFacts.

Module HostPatternFacts.
Import Str StrPrefix StrFacts HostPattern.

Lemma normalize_idem s : normalize (normalize s) = normalize s.
Proof. unfold normalize. by rewrite trim_end_lower, trim_end_idem, lower_idem. Qed.

Lemma normalize_last s : last (normalize s) <> Some 46.
Proof. unfold normalize. rewrite last_lower. apply trim_end_last. Qed.

Lemma normalize_id s : last s <> Some 46 -> to_ascii_lowercase s = s -> normalize s = s.
Proof. intros H E. unfold normalize. by rewrite trim_end_id. Qed.

Lemma subdomain_suffix h z (b : bool) :
  z <> [] ->
  match strip_suffix z h with
  | Some prefix => ends_with (bs ".") prefix && (if b then len prefix >? 1 else true)
  | None => false
  end = true <-> is_subdomain b h z.
Proof.
  intros Hz. unfold is_subdomain. destruct (strip_suffix z h) as [r|] eqn:E.
  - apply strip_suffix_Some in E as ->. rewrite andb_true_iff, ends_with_true. split.
    + intros [[q ->] Hlen]. exists q. rewrite <-app_assoc. split; [|done].
      intros ->. destruct q; [|done]. by simpl in Hlen.
    + intros (q & Hq & E). change (q ++ [46] ++ z) with (q ++ [46] ++ z) in E.
      rewrite app_assoc in E. apply app_inv_tail in E as ->. split; [by exists q|].
      destruct b; [|done]. destruct q; [by destruct Hq|].
      unfold len. simpl. rewrite length_app. simpl. apply Z.gtb_lt. lia.
  - split; [done|]. intros (q & _ & ->). rewrite strip_suffix_None in E.
    exfalso. apply (E (q ++ [46])). by rewrite <-app_assoc.
Qed.

(** [matches] decides [Admits] on normal forms. *)
Lemma matches_admits host entry :
  matches host entry = true <-> Admits (normalize host) (normalize entry).
Proof.
  unfold matches. generalize (normalize host), (normalize entry). clear. intros h e.
  change (bs "=") with [61]. change (bs "*.") with [42; 46].
  destruct (strip_prefix [61] e) as [x|] eqn:E1.
  { apply strip_prefix_Some in E1 as ->. simpl.
    rewrite andb_true_iff, negb_true_iff, is_empty_false, bool_decide_eq_true.
    split; [intros [? ->]; by constructor|]. intros A; inv A; simpl in *; naive_solver. }
  assert (Hne : head e <> Some 61).
  { rewrite strip_prefix_None in E1. intros Hh. destruct e as [|y e]; [done|].
    apply (E1 e). injection Hh as ->. done. }
  destruct (strip_prefix [42; 46] e) as [x|] eqn:E2.
  { apply strip_prefix_Some in E2 as ->. simpl in *.
    rewrite andb_true_iff, negb_true_iff, is_empty_false. split.
    - intros [Hx H]. constructor; [done|]. by apply (subdomain_suffix h x true).
    - intros A; inv A; simpl in *; try done. split; [done|].
      by apply (subdomain_suffix h x true). }
  assert (Hst : take 2 e <> [42; 46]).
  { rewrite strip_prefix_None in E2. intros Ht. apply (E2 (drop 2 e)).
    simpl. by rewrite <-(take_drop 2 e) at 1; rewrite Ht. }
  rewrite andb_true_iff, negb_true_iff, is_empty_false, orb_true_iff, bool_decide_eq_true.
  split.
  - intros [He [->|H]]; [by constructor|].
    apply AdmitsBelow; [done..|]. apply (subdomain_suffix h e false); [done|].
    destruct (strip_suffix e h); [by rewrite H|done].
  - intros A; inv A; simpl in *; try done; [by auto|].
    split; [done|]. right. apply (subdomain_suffix h e false) in H2; [|done].
    destruct (strip_suffix e h); [|done]. by rewrite andb_true_r in H2.
Qed.

(** A label that passes [invalid_label] is non-empty and has no dot at its end. *)
Lemma valid_label_last l : invalid_label l = false -> l <> [].
Proof.
  unfold invalid_label. intros H. bool_simpl. by apply is_empty_false.
Qed.

Lemma split_snoc c s : split c (s ++ [c]) = split c s ++ [[]].
Proof.
  induction s as [|x s IH]; simpl; [by rewrite Z.eqb_refl|].
  rewrite IH. destruct (x =? c); [done|].
  pose proof (split_nonnil c s). by destruct (split c s).
Qed.

Lemma valid_host_last host :
  existsb invalid_label (split 46 host) = false -> last host <> Some 46.
Proof.
  intros H Hl. destruct host as [|x host _] using rev_ind; [done|].
  rewrite last_snoc in Hl. simplify_eq.
  rewrite split_snoc, existsb_app in H. by apply orb_false_iff in H as [_ ?].
Qed.

(** What [encode_strict] accepts, and the entry it stores. *)
Lemma encode_strict_Ok p e :
  encode_strict p = Ok e ->
  exists host (wild : bool),
    default p (strip_suffix (bs ".") p) = (if wild then bs "*." ++ host else host)
    /\ e = (if wild then bs "*." else bs "=") ++ to_ascii_lowercase host
    /\ (wild = false -> strip_prefix (bs "*.") host = None)
    /\ host <> [] /\ last host <> Some 46 /\ len host <= 253.
Proof.
  unfold encode_strict. intros H.
  set (q := default p (strip_suffix (bs ".") p)) in *.
  destruct (strip_prefix (bs "*.") q) as [host|] eqn:E; cbv zeta iota in H.
  all: case_bool_guard_in H; inv H; bool_simpl.
  - apply strip_prefix_Some in E. exists host, true.
    repeat split; [done..|by apply is_empty_false|by apply valid_host_last|lia].
  - exists q, false.
    repeat split; [done..|by apply is_empty_false|by apply valid_host_last|lia].
Qed.

Lemma admits_wildcard h x : x <> [] -> Admits h (42 :: 46 :: x) <-> is_subdomain true h x.
Proof.
  intros Hx. split; [|by constructor].
  remember (42 :: 46 :: x) as e eqn:E. destruct 1; subst; by simplify_eq.
Qed.

Lemma admits_exact h x : x <> [] -> Admits h (61 :: x) <-> h = x.
Proof.
  intros Hx. split; [|intros ->; by constructor].
  remember (61 :: x) as e eqn:E. destruct 1; subst; by simplify_eq.
Qed.

(** A stored entry is in normal form. *)
Lemma entry_normal p z :
  z <> [] -> last z <> Some 46 -> to_ascii_lowercase p = p ->
  last (p ++ to_ascii_lowercase z) <> Some 46
  /\ to_ascii_lowercase (p ++ to_ascii_lowercase z) = p ++ to_ascii_lowercase z.
Proof.
  intros Hz Hl Hp. rewrite lower_app, Hp, lower_idem. split; [|done].
  destruct z as [|x z _] using rev_ind; [done|].
  rewrite lower_app, app_assoc. simpl. rewrite last_snoc in *.
  intros [= E]. by apply (proj1 (lower_byte_dot _)) in E as ->.
Qed.

(** ** Properties *)

(** [matches] decides exactly the admission relation: an [=] entry admits
    its own name only, a [*.] entry the names with a non-empty prefix ending at
    a dot in front of it, a legacy entry its name and its subdomains, all up
    to ASCII case and trailing dots; an empty entry admits nothing. *)
Theorem matches_correct host entry :
  matches host entry = true <-> Admits (normalize host) (normalize entry).
Proof. apply matches_admits. Qed.

(** An accepted strict pattern is stored as an entry that admits exactly
    what the user wrote: the host itself for an exact pattern, its proper
    subdomains for [*.host], compared in normal form. *)
Theorem encode_strict_admits p e host :
  encode_strict p = Ok e ->
  matches host e = true <->
  match strip_prefix (bs "*.") (default p (strip_suffix (bs ".") p)) with
  | Some zone => is_subdomain true (normalize host) (to_ascii_lowercase zone)
  | None => normalize host = to_ascii_lowercase (default p (strip_suffix (bs ".") p))
  end.
Proof.
  intros (z & wild & Hq & -> & Hn & Hz & Hl & _)%encode_strict_Ok. rewrite Hq, matches_admits.
  assert (Hz' : to_ascii_lowercase z <> []) by (by destruct z).
  destruct wild.
  - rewrite (proj2 (strip_prefix_Some _ (bs "*." ++ z) z)) by done.
    rewrite (normalize_id (bs "*." ++ _)) by by apply entry_normal.
    by apply admits_wildcard.
  - rewrite Hn, (normalize_id (bs "=" ++ _)) by (done || by apply entry_normal).
    by apply admits_exact.
Qed.

Lemma encode_strict_admits_witness :
  encode_strict (bs "*.Example.com.") = Ok (bs "*.example.com")
  /\ matches (bs "a.EXAMPLE.com") (bs "*.example.com") = true.
Proof.
  split; [by vm_compute|].
  apply (encode_strict_admits (bs "*.Example.com.") (bs "*.example.com") (bs "a.EXAMPLE.com"));
    [by vm_compute|]. exists (bs "a"). by vm_compute.
Defined.

End HostPatternFacts.
