(* ===== verification/Dns.v ===== *)
(** * Dns: DNS wire parsing for the gateway
    (crates/smolvm-network/src/dns.rs)

    The gateway reads the question of a guest query, learns the addresses of
    an upstream answer, and answers its own name or an error itself. [wire]
    names are the reference encoding the round trips are stated against. *)

From S2P Require Import Prelude RustStr Ip HostPattern.

Module Dns.
Import Str Ip.

Definition DNS_HEADER_LEN : Z := 12.
Definition DNS_ID_LEN : Z := 2.
Definition DNS_U16_LEN : Z := 2.
Definition DNS_U32_LEN : Z := 4.
Definition DNS_FLAGS_OFFSET : Z := 2.
Definition DNS_QDCOUNT_OFFSET : Z := 4.
Definition DNS_ANCOUNT_OFFSET : Z := 6.
Definition DNS_QUESTION_FIXED_LEN : Z := 4.
Definition DNS_RR_FIXED_LEN : Z := 10.
Definition DNS_RR_TYPE_OFFSET : Z := 0.
Definition DNS_RR_CLASS_OFFSET : Z := 2.
Definition DNS_RR_TTL_OFFSET : Z := 4.
Definition DNS_RR_RDLEN_OFFSET : Z := 8.
Definition DNS_CLASS_IN : Z := 1.
Definition DNS_TYPE_A : Z := 1.
Definition DNS_TYPE_AAAA : Z := 28.
Definition DNS_A_RDATA_LEN : Z := 4.
Definition DNS_AAAA_RDATA_LEN : Z := 16.
Definition DNS_RCODE_SERVFAIL : Z := 2.
Definition DNS_RCODE_NXDOMAIN : Z := 3.
Definition DNS_RCODE_MASK : Z := 0x000f.
Definition DNS_ONE_QUESTION : Z := 1.
Definition DNS_FLAG_RESPONSE : Z := 0x8000.
Definition DNS_FLAG_RECURSION_DESIRED : Z := 0x0100.
Definition DNS_FLAG_RECURSION_AVAILABLE : Z := 0x0080.
Definition DNS_POINTER_TAG : Z := 0xc0.
Definition DNS_POINTER_MASK : Z := 0xc0.
Definition DNS_POINTER_OFFSET_MASK : Z := 0x3f.
Definition DNS_MAX_COMPRESSION_JUMPS : Z := 16.
Definition DNS_MAX_LABEL_LEN : Z := 63.
Definition GATEWAY_HOSTNAME : bytes := bs "host.smolvm.internal".
Definition GATEWAY_TTL_SECS : Z := 60.

(** ** Host names *)

Definition normalize_hostname (hostname : bytes) : option bytes :=
  let hostname := to_ascii_lowercase (trim_end_matches 46 hostname) in
  if is_empty hostname then None else Some hostname.

Definition hostname_allowed (hostname : bytes) (allowed_hosts : list bytes) : bool :=
  match normalize_hostname hostname with
  | None => false
  | Some hostname => existsb (HostPattern.matches hostname) allowed_hosts
  end.

(** ** Integers and names in a packet *)

Definition read_u16 (buf : bytes) (offset : Z) : option Z :=
  let! b := get_range buf offset (offset + DNS_U16_LEN) in Some (from_be b).
Definition read_u32 (buf : bytes) (offset : Z) : option Z :=
  let! b := get_range buf offset (offset + DNS_U32_LEN) in Some (from_be b).

(** The variables of [read_name]'s loop. *)
Record name_state := NameState {
  ns_labels : list bytes;
  ns_pos : Z;
  ns_next : Z;
  ns_jumped : bool;
  ns_jumps : Z;
}.

(** One iteration: [inl] to go round again, [inr] with the function's result. *)
Definition read_name_step (packet : bytes) (st : name_state) :
    name_state + option (bytes * Z) :=
  match get packet (ns_pos st) with
  | None => inr None
  | Some l =>
      if Z.land l DNS_POINTER_MASK =? DNS_POINTER_TAG then
        match get packet (ns_pos st + 1) with
        | None => inr None
        | Some lo =>
            let pointer := Z.lor (Z.shiftl (Z.land l DNS_POINTER_OFFSET_MASK) 8) lo in
            if pointer >=? len packet then inr None
            else
              let next := if ns_jumped st then ns_next st else ns_pos st + DNS_U16_LEN in
              let jumps := ns_jumps st + 1 in
              if jumps >? DNS_MAX_COMPRESSION_JUMPS then inr None
              else inl (NameState (ns_labels st) pointer next true jumps)
        end
      else if negb (Z.land l DNS_POINTER_MASK =? 0) then inr None
      else
        let pos := ns_pos st + 1 in
        if l =? 0 then
          let next := if ns_jumped st then ns_next st else pos in
          inr (Some (join (bs ".") (rev (ns_labels st)), next))
        else if (l >? DNS_MAX_LABEL_LEN) || (pos + l >? len packet) then inr None
        else
          match from_utf8 (slice packet pos (pos + l)) with
          | None => inr None
          | Some label =>
              let pos := pos + l in
              let next := if ns_jumped st then ns_next st else pos in
              inl (NameState (to_ascii_lowercase label :: ns_labels st) pos next
                     (ns_jumped st) (ns_jumps st))
          end
  end.

(** The loop with explicit fuel; the outer [None] is fuel exhaustion, which
    [read_name_fuel] is proved never to reach. *)
Fixpoint read_name_loop (fuel : nat) (packet : bytes) (st : name_state) :
    option (option (bytes * Z)) :=
  match fuel with
  | O => None
  | S fuel =>
      match read_name_step packet st with
      | inl st => read_name_loop fuel packet st
      | inr r => Some r
      end
  end.

Definition read_name_init (offset : Z) : name_state := NameState [] offset offset false 0.

(** Each of the at most 17 straight runs visits a byte at most once. *)
Definition read_name_fuel (packet : bytes) : nat := S (17 * S (length packet)).

Definition read_name (packet : bytes) (offset : Z) : option (bytes * Z) :=
  default None (read_name_loop (read_name_fuel packet) packet (read_name_init offset)).

(** ** Questions and answers *)

Definition question_name (packet : bytes) : option bytes :=
  if len packet <? DNS_HEADER_LEN then None
  else
    let! qdcount := read_u16 packet DNS_QDCOUNT_OFFSET in
    if negb (qdcount =? DNS_ONE_QUESTION) then None
    else let! (name, _) := read_name packet DNS_HEADER_LEN in Some name.

Definition question_section_end (packet : bytes) : option Z :=
  if len packet <? DNS_HEADER_LEN then None
  else
    let! qdcount := read_u16 packet DNS_QDCOUNT_OFFSET in
    if negb (qdcount =? DNS_ONE_QUESTION) then None
    else
      let! (_, after_name) := read_name packet DNS_HEADER_LEN in
      let fin := after_name + DNS_QUESTION_FIXED_LEN in
      if fin >? len packet then None else Some fin.

(** [for _ in 0..qdcount]: skip the question section. *)
Fixpoint skip_questions (n : nat) (packet : bytes) (offset : Z) : option Z :=
  match n with
  | O => Some offset
  | S n =>
      let! (_, after_name) := read_name packet offset in
      if after_name + DNS_QUESTION_FIXED_LEN >? len packet then None
      else skip_questions n packet (after_name + DNS_QUESTION_FIXED_LEN)
  end.

(** A resource record from the byte after its name: the address it carries,
    if any, and the next offset. *)
Definition record_body (packet : bytes) (offset : Z) : option (list (IpAddr * Z) * Z) :=
  if offset + DNS_RR_FIXED_LEN >? len packet then None
  else
    let! rr_type := read_u16 packet (offset + DNS_RR_TYPE_OFFSET) in
    let! class := read_u16 packet (offset + DNS_RR_CLASS_OFFSET) in
    let! ttl := read_u32 packet (offset + DNS_RR_TTL_OFFSET) in
    let! rdlen := read_u16 packet (offset + DNS_RR_RDLEN_OFFSET) in
    let offset := offset + DNS_RR_FIXED_LEN in
    if offset + rdlen >? len packet then None
    else
      let ips :=
        if (class =? DNS_CLASS_IN) && (rr_type =? DNS_TYPE_A) && (rdlen =? DNS_A_RDATA_LEN)
        then [(V4 (from_be (slice packet offset (offset + DNS_A_RDATA_LEN))), ttl)]
        else if (class =? DNS_CLASS_IN) && (rr_type =? DNS_TYPE_AAAA)
                && (rdlen =? DNS_AAAA_RDATA_LEN)
        then [(V6 (from_be (slice packet offset (offset + DNS_AAAA_RDATA_LEN))), ttl)]
        else [] in
      Some (ips, offset + rdlen).

Definition read_record (packet : bytes) (offset : Z) : option (list (IpAddr * Z) * Z) :=
  let! (_, after_name) := read_name packet offset in record_body packet after_name.

Fixpoint read_records (n : nat) (packet : bytes) (offset : Z) : option (list (IpAddr * Z)) :=
  match n with
  | O => Some []
  | S n =>
      let! (ips, offset) := read_record packet offset in
      let! rest := read_records n packet offset in
      Some (ips ++ rest)
  end.

Definition parse_answer_ip_records (packet : bytes) : option (list (IpAddr * Z)) :=
  if len packet <? DNS_HEADER_LEN then None
  else
    let! qdcount := read_u16 packet DNS_QDCOUNT_OFFSET in
    let! ancount := read_u16 packet DNS_ANCOUNT_OFFSET in
    let! offset := skip_questions (Z.to_nat qdcount) packet DNS_HEADER_LEN in
    read_records (Z.to_nat ancount) packet offset.

Definition answer_ip_records (packet : bytes) : list (IpAddr * Z) :=
  default [] (parse_answer_ip_records packet).

(** ** Responses *)

Definition error_response (query : bytes) (rcode : Z) : bytes :=
  let id := if len query >=? DNS_ID_LEN then slice query 0 DNS_ID_LEN else [0; 0] in
  let req_flags :=
    if len query >=? DNS_FLAGS_OFFSET + DNS_U16_LEN
    then default 0 (read_u16 query DNS_FLAGS_OFFSET) else 0 in
  let flags :=
    Z.lor (Z.lor (Z.lor DNS_FLAG_RESPONSE (Z.land req_flags DNS_FLAG_RECURSION_DESIRED))
             DNS_FLAG_RECURSION_AVAILABLE)
      (Z.land rcode DNS_RCODE_MASK) in
  let question_end := question_section_end query in
  let qdcount := match question_end with Some _ => 1 | None => 0 end in
  id ++ to_be 2 flags ++ to_be 2 qdcount ++ to_be 2 0 ++ to_be 2 0 ++ to_be 2 0
  ++ match question_end with
     | Some fin => slice query DNS_HEADER_LEN fin
     | None => []
     end.

Definition gateway_response (query : bytes) (gateway : Z) : bytes :=
  let response := error_response query 0 in
  match question_section_end query with
  | None => response
  | Some fin =>
      if bool_decide (read_u16 query (fin - DNS_QUESTION_FIXED_LEN) = Some DNS_TYPE_A) then
        (take 6 response ++ to_be 2 1 ++ drop 8 response)
        ++ [DNS_POINTER_TAG; DNS_HEADER_LEN] ++ to_be 2 DNS_TYPE_A ++ to_be 2 DNS_CLASS_IN
        ++ to_be 4 GATEWAY_TTL_SECS ++ to_be 2 DNS_A_RDATA_LEN ++ octets4 gateway
      else response
  end.

(** ** The wire form of a name and of a query, without compression *)

Definition wire_name (labels : list bytes) : bytes :=
  concat (map (fun l => len l :: l) labels) ++ [0].

Definition wire_label (l : bytes) : Prop :=
  l <> [] /\ len l <= DNS_MAX_LABEL_LEN /\ utf8_valid l = true.

(** A query for one question: id, flags, counts, name, type, class. *)
Definition wire_query (id flags an ns ar : Z) (labels : list bytes) (qtype qclass : Z)
    (rest : bytes) : bytes :=
  (to_be 2 id ++ to_be 2 flags ++ to_be 2 1 ++ to_be 2 an ++ to_be 2 ns ++ to_be 2 ar)
  ++ wire_name labels ++ (to_be 2 qtype ++ to_be 2 qclass) ++ rest.

End Dns.

Module DnsFacts.
Import Str Ip Dns StrFacts HostPattern HostPatternFacts.

(** ** The loop of [read_name] *)

Definition name_wf (st : name_state) : Prop := 0 <= ns_pos st /\ 0 <= ns_jumps st <= 16.

Definition name_measure (packet : bytes) (st : name_state) : nat :=
  Z.to_nat ((16 - ns_jumps st) * (len packet + 1) + (len packet - ns_pos st)).

(** A step that goes round again keeps the invariant and decreases the measure. *)
Lemma read_name_step_decreases packet st st' :
  is_bytes packet -> name_wf st -> read_name_step packet st = inl st' ->
  name_wf st' /\ (name_measure packet st' < name_measure packet st)%nat.
Proof.
  intros Hb [Hp Hj] H. unfold read_name_step in H.
  destruct (get packet (ns_pos st)) as [l|] eqn:El; [|done].
  pose proof (get_Some_lt _ _ _ El). pose proof (get_bytes _ _ _ Hb El) as Hl.
  destruct (_ =? DNS_POINTER_TAG).
  - destruct (get packet (ns_pos st + 1)) as [lo|] eqn:Elo; [|done].
    pose proof (get_bytes _ _ _ Hb Elo) as Hlo.
    set (pointer := Z.lor _ lo) in *.
    assert (0 <= pointer).
    { apply Z.lor_nonneg. unfold is_byte in *. rewrite Z.shiftl_nonneg, Z.land_nonneg. lia. }
    destruct (pointer >=? len packet) eqn:E1; [done|].
    destruct (ns_jumps st + 1 >? DNS_MAX_COMPRESSION_JUMPS) eqn:E2; [done|].
    inv H. bool_simpl. unfold DNS_MAX_COMPRESSION_JUMPS in *.
    unfold name_wf, name_measure. simpl. split; [lia|]. nia.
  - destruct (negb _); [done|]. destruct (l =? 0) eqn:E0; [done|].
    destruct ((l >? _) || _) eqn:E1; [done|].
    destruct (from_utf8 _); [|done]. inv H. bool_simpl. unfold is_byte in *.
    unfold name_wf, name_measure. simpl. split; [lia|]. nia.
Qed.

Lemma read_name_loop_returns fuel packet st :
  is_bytes packet -> name_wf st -> (name_measure packet st < fuel)%nat ->
  is_Some (read_name_loop fuel packet st).
Proof.
  intros Hb. revert st. induction fuel as [|fuel IH]; intros st Hwf Hm; [lia|].
  simpl. destruct (read_name_step packet st) as [st'|] eqn:E; [|done].
  destruct (read_name_step_decreases _ _ _ Hb Hwf E). apply IH; [done|lia].
Qed.

Lemma read_name_fuel_enough packet offset :
  is_bytes packet -> 0 <= offset ->
  is_Some (read_name_loop (read_name_fuel packet) packet (read_name_init offset)).
Proof.
  intros Hb Ho. apply read_name_loop_returns; [done|unfold name_wf; simpl; lia|].
  unfold name_measure, read_name_fuel, read_name_init, len. simpl. lia.
Qed.

(** More fuel does not change a result. *)
Lemma read_name_loop_mono fuel fuel' packet st r :
  read_name_loop fuel packet st = Some r -> (fuel <= fuel')%nat ->
  read_name_loop fuel' packet st = Some r.
Proof.
  revert fuel' st. induction fuel as [|fuel IH]; intros fuel' st H Hle; [done|].
  destruct fuel'; [lia|]. simpl in *. destruct (read_name_step packet st); [|done].
  apply IH; [done|lia].
Qed.

(** The next offset lies after the name and inside the packet. *)
Lemma read_name_loop_bounds fuel packet st name next o :
  read_name_loop fuel packet st = Some (Some (name, next)) ->
  (if ns_jumped st then o < ns_next st <= len packet else o <= ns_pos st) ->
  is_bytes packet ->
  o < next <= len packet.
Proof.
  intros H Hst Hb. revert st H Hst. induction fuel as [|fuel IH]; intros st H Hst; [done|].
  simpl in H. destruct (read_name_step packet st) as [st'|r] eqn:E.
  - apply (IH st' H). clear H IH. unfold read_name_step in E.
    destruct (get packet (ns_pos st)) as [l|] eqn:El; [|done].
    pose proof (get_bytes _ _ _ Hb El) as Hl. unfold is_byte in Hl.
    destruct (_ =? DNS_POINTER_TAG).
    + destruct (get packet (ns_pos st + 1)) as [lo|] eqn:Elo; [|done].
      apply get_Some_lt in Elo. unfold DNS_U16_LEN in E.
      destruct (ns_jumped st) eqn:Ej; case_all_in E; simpl in *; lia.
    + destruct (ns_jumped st) eqn:Ej; case_all_in E; simpl in *; rewrite ?Ej; lia.
  - inv H. unfold read_name_step in E.
    destruct (get packet (ns_pos st)) as [l|] eqn:El; [|done]. apply get_Some_lt in El.
    destruct (ns_jumped st); case_all_in E; lia.
Qed.

Lemma read_name_bounds packet offset name next :
  is_bytes packet -> read_name packet offset = Some (name, next) ->
  offset < next <= len packet.
Proof.
  intros Hb. unfold read_name.
  destruct (read_name_loop _ _ _) as [r|] eqn:E; [|done]. simpl. intros ->.
  eapply read_name_loop_bounds in E; [exact E| |done]. simpl. lia.
Qed.

(** ** Names in wire form *)

Lemma label_len_no_pointer l : 0 <= l < 64 -> Z.land l 192 = 0.
Proof. apply (Z_range_ind (fun l => Z.land l 192 = 0)). vm_compute. repeat constructor. Qed.

Lemma wire_name_cons l labels : wire_name (l :: labels) = (len l :: l) ++ wire_name labels.
Proof. unfold wire_name. simpl. by rewrite <-app_assoc. Qed.

Lemma length_wire_name labels : (length labels < length (wire_name labels))%nat.
Proof.
  induction labels as [|l labels IH]; [simpl; lia|].
  rewrite wire_name_cons, length_app. simpl. lia.
Qed.

(** Where a name's loop leaves off: [st] has read up to the start of a wire
    name, and the loop reads all of it. *)
Lemma read_wire_name fuel before labels after acc next jumped jumps :
  Forall wire_label labels -> (length labels < fuel)%nat ->
  read_name_loop fuel (before ++ wire_name labels ++ after)
    (NameState acc (len before) next jumped jumps)
  = Some (Some (join (bs ".") (rev acc ++ map to_ascii_lowercase labels),
           if jumped then next else len before + len (wire_name labels))).
Proof.
  intros Hl. revert fuel before acc next.
  induction Hl as [|l labels (Hne & Hmax & Hutf) Hl IH]; intros fuel before acc next Hf.
  - destruct fuel; [simpl in *; lia|]. cbn [read_name_loop].
    unfold read_name_step, wire_name. simpl. rewrite get_app_mid. simpl.
    rewrite app_nil_r. done.
  - destruct fuel; [simpl in *; lia|]. cbn [read_name_loop].
    rewrite wire_name_cons. unfold read_name_step. cbn [ns_pos ns_labels ns_jumped ns_jumps ns_next].
    rewrite <-app_assoc. cbn [app]. rewrite get_app_mid.
    pose proof (len_nonneg l). assert (0 < len l).
    { destruct l; [done|]. rewrite len_cons. pose proof (len_nonneg l). lia. }
    unfold DNS_MAX_LABEL_LEN, DNS_POINTER_MASK, DNS_POINTER_TAG in *.
    rewrite label_len_no_pointer by lia. cbn [negb Z.eqb].
    rewrite (proj2 (Z.eqb_neq _ _)) by lia.
    rewrite (proj2 (orb_false_iff _ _)).
    2:{ rewrite !Z.gtb_ltb, !Z.ltb_ge, !len_app, len_cons, !len_app.
        pose proof (len_nonneg (wire_name labels)). pose proof (len_nonneg after). lia. }
    change (before ++ len l :: l ++ wire_name labels ++ after)
      with (before ++ [len l] ++ l ++ wire_name labels ++ after).
    rewrite app_assoc.
    rewrite (slice_app (before ++ [len l]) l (wire_name labels ++ after))
      by (rewrite len_app, len_cons, len_nil; lia).
    unfold from_utf8. rewrite Hutf.
    rewrite (app_assoc (before ++ [len l]) l).
    replace (len before + 1 + len l) with (len ((before ++ [len l]) ++ l))
      by (rewrite !len_app, len_cons, len_nil; lia).
    rewrite IH by (simpl in *; lia). cbn [rev]. rewrite <-!app_assoc. cbn [app map].
    do 2 f_equal. f_equal. destruct jumped; [done|].
    rewrite !len_app, !len_cons, !len_app. lia.
Qed.

Lemma read_name_wire before labels after :
  Forall wire_label labels ->
  read_name (before ++ wire_name labels ++ after) (len before)
  = Some (join (bs ".") (map to_ascii_lowercase labels),
          len before + len (wire_name labels)).
Proof.
  intros Hl. unfold read_name. unfold read_name_init. rewrite read_wire_name; [done..|].
  unfold read_name_fuel. pose proof (length_wire_name labels).
  rewrite !length_app. lia.
Qed.

Lemma read_name_wire12 before labels after :
  Forall wire_label labels -> len before = 12 ->
  read_name (before ++ wire_name labels ++ after) DNS_HEADER_LEN
  = Some (join (bs ".") (map to_ascii_lowercase labels), 12 + len (wire_name labels)).
Proof. intros Hl Hb. pose proof (read_name_wire before labels after Hl). by rewrite Hb in *. Qed.

(** A compression pointer to a wire name. *)
Lemma read_name_pointer before labels mid after :
  Forall wire_label labels -> len before = 12 ->
  read_name (before ++ wire_name labels ++ mid ++ [DNS_POINTER_TAG; DNS_HEADER_LEN] ++ after)
    (12 + len (wire_name labels) + len mid)
  = Some (join (bs ".") (map to_ascii_lowercase labels),
          12 + len (wire_name labels) + len mid + 2).
Proof.
  intros Hl Hb. set (p := before ++ _). set (o := _ + len mid).
  assert (Hg0 : get p o = Some 192).
  { subst p o. rewrite 2!app_assoc. replace (12 + _ + _) with (len ((before ++ wire_name labels) ++ mid))
      by (rewrite !len_app; lia). apply get_app_mid. }
  assert (Hg1 : get p (o + 1) = Some 12).
  { subst p o. rewrite 2!app_assoc.
    change (?x ++ [DNS_POINTER_TAG; DNS_HEADER_LEN] ++ after) with (x ++ [192] ++ 12 :: after).
    rewrite (app_assoc _ [192]).
    replace (12 + _ + _ + 1) with (len (((before ++ wire_name labels) ++ mid) ++ [192]))
      by (rewrite !len_app, len_cons, len_nil; lia). apply get_app_mid. }
  pose proof (get_Some_lt _ _ _ Hg1) as Ho. pose proof (len_nonneg (wire_name labels)).
  pose proof (len_nonneg mid).
  unfold read_name, read_name_init. unfold read_name_fuel. cbn [read_name_loop].
  unfold read_name_step. cbn [ns_pos ns_labels ns_jumped ns_jumps ns_next].
  rewrite Hg0, Hg1. change (Z.lor _ 12) with 12. cbv zeta.
  rewrite Z.geb_leb, (proj2 (Z.leb_gt _ _)) by (subst o; lia).
  change (0 + 1 >? DNS_MAX_COMPRESSION_JUMPS) with false. cbv iota.
  match goal with |- context [read_name_loop ?f _ _] =>
    pose proof (read_wire_name f before labels
      (mid ++ [DNS_POINTER_TAG; DNS_HEADER_LEN] ++ after) []
      (o + DNS_U16_LEN) true (0 + 1) Hl) as E
  end.
  rewrite Hb in E. fold p in E.
  change (Z.land 192 DNS_POINTER_MASK =? DNS_POINTER_TAG) with true. cbv iota.
  rewrite E; [done|].
  pose proof (length_wire_name labels). subst p. rewrite !length_app. lia.
Qed.

(** ** Headers *)

Definition wire_header (id flags qd an ns ar : Z) : bytes :=
  to_be 2 id ++ to_be 2 flags ++ to_be 2 qd ++ to_be 2 an ++ to_be 2 ns ++ to_be 2 ar.

Lemma len_wire_header id flags qd an ns ar : len (wire_header id flags qd an ns ar) = 12.
Proof. unfold wire_header. by autorewrite with bytes. Qed.

Lemma read_u16_at a v b o :
  o = len a -> is_uint 16 v -> read_u16 (a ++ to_be 2 v ++ b) o = Some v.
Proof.
  intros -> Hv. unfold read_u16.
  rewrite (get_range_app_at a (to_be 2 v) b) by (try rewrite len_to_be; done).
  simpl. f_equal. by apply from_to_be_small.
Qed.

Lemma read_u32_at a v b o :
  o = len a -> is_uint 32 v -> read_u32 (a ++ to_be 4 v ++ b) o = Some v.
Proof.
  intros -> Hv. unfold read_u32.
  rewrite (get_range_app_at a (to_be 4 v) b) by (try rewrite len_to_be; done).
  simpl. f_equal. by apply from_to_be_small.
Qed.

Lemma read_qdcount id flags qd an ns ar rest :
  is_uint 16 qd -> read_u16 (wire_header id flags qd an ns ar ++ rest) DNS_QDCOUNT_OFFSET = Some qd.
Proof.
  intros H. unfold wire_header. rewrite <-!app_assoc, (app_assoc (to_be 2 id)).
  apply read_u16_at; [by autorewrite with bytes|done].
Qed.

Lemma read_ancount id flags qd an ns ar rest :
  is_uint 16 an -> read_u16 (wire_header id flags qd an ns ar ++ rest) DNS_ANCOUNT_OFFSET = Some an.
Proof.
  intros H. unfold wire_header. rewrite <-!app_assoc, (app_assoc (to_be 2 id)), app_assoc.
  apply read_u16_at; [by autorewrite with bytes|done].
Qed.

(** The fixed fields of an A record, from the byte after its name. *)
Lemma record_fields before gw o :
  len before = o -> is_uint 32 gw ->
  let p := before ++ to_be 2 DNS_TYPE_A ++ to_be 2 DNS_CLASS_IN
           ++ to_be 4 GATEWAY_TTL_SECS ++ to_be 2 DNS_A_RDATA_LEN ++ octets4 gw in
  record_body p o
  = Some ([(V4 gw, GATEWAY_TTL_SECS)], o + 14).
Proof.
  intros <- Hgw p.
  assert (Hlen : len p = len before + 14).
  { subst p. unfold octets4. by autorewrite with bytes. }
  assert (H0 : read_u16 p (len before + DNS_RR_TYPE_OFFSET) = Some DNS_TYPE_A).
  { apply read_u16_at; [unfold DNS_RR_TYPE_OFFSET; lia|done]. }
  assert (H2 : read_u16 p (len before + DNS_RR_CLASS_OFFSET) = Some DNS_CLASS_IN).
  { subst p. rewrite app_assoc. apply read_u16_at; [by autorewrite with bytes|done]. }
  assert (H4 : read_u32 p (len before + DNS_RR_TTL_OFFSET) = Some GATEWAY_TTL_SECS).
  { subst p. rewrite 2!app_assoc. apply read_u32_at; [|done].
    unfold DNS_RR_TTL_OFFSET. autorewrite with bytes. lia. }
  assert (H8 : read_u16 p (len before + DNS_RR_RDLEN_OFFSET) = Some DNS_A_RDATA_LEN).
  { subst p. rewrite 3!app_assoc. apply read_u16_at; [|done].
    unfold DNS_RR_RDLEN_OFFSET. autorewrite with bytes. lia. }
  assert (Hs : slice p (len before + DNS_RR_FIXED_LEN)
                 (len before + DNS_RR_FIXED_LEN + DNS_A_RDATA_LEN) = octets4 gw).
  { subst p. rewrite 4!app_assoc, <-(app_nil_r (octets4 gw)).
    unfold DNS_RR_FIXED_LEN, DNS_A_RDATA_LEN, octets4.
    apply slice_app; autorewrite with bytes; lia. }
  unfold record_body. rewrite H0, H2, H4, H8, Hlen. cbn [mbind option_bind]. cbv zeta.
  rewrite Hs.
  unfold DNS_RR_FIXED_LEN. unfold DNS_A_RDATA_LEN at 1.
  case_bool_guard; [lia|]. case_bool_guard; [lia|].
  change ((DNS_CLASS_IN =? DNS_CLASS_IN) && (DNS_TYPE_A =? DNS_TYPE_A)
          && (DNS_A_RDATA_LEN =? DNS_A_RDATA_LEN)) with true.
  unfold octets4. rewrite from_to_be_small by done. unfold DNS_A_RDATA_LEN.
  do 2 f_equal. lia.
Qed.

Section Query.
Context (id flags an ns ar : Z) (labels : list bytes) (qtype qclass : Z) (rest : bytes).
Context (Hlabels : Forall wire_label labels) (Hqtype : is_uint 16 qtype).

Let q := wire_query id flags an ns ar labels qtype qclass rest.
Let name := join (bs ".") (map to_ascii_lowercase labels).
Let question := wire_name labels ++ to_be 2 qtype ++ to_be 2 qclass.

Lemma query_shape : q = wire_header id flags 1 an ns ar ++ wire_name labels
                        ++ (to_be 2 qtype ++ to_be 2 qclass) ++ rest.
Proof. done. Qed.

Lemma shape_long h t : len h = 12 -> (len (h ++ wire_name labels ++ t) <? DNS_HEADER_LEN) = false.
Proof.
  intros Hh. rewrite Z.ltb_ge, !len_app. unfold DNS_HEADER_LEN.
  pose proof (len_nonneg (wire_name labels)). pose proof (len_nonneg t). lia.
Qed.

(** Any packet that starts with a one-question header and the wire name. *)
Lemma question_name_shape id' fl' an' ns' ar' t :
  question_name (wire_header id' fl' 1 an' ns' ar' ++ wire_name labels ++ t) = Some name.
Proof.
  unfold question_name. rewrite shape_long by apply len_wire_header.
  rewrite read_qdcount by done. cbn [mbind option_bind].
  change (negb (1 =? DNS_ONE_QUESTION)) with false. cbv iota.
  by rewrite read_name_wire12 by (done || apply len_wire_header).
Qed.

Lemma query_end : question_section_end q = Some (12 + len question).
Proof.
  unfold question_section_end. rewrite query_shape, shape_long by apply len_wire_header.
  rewrite read_qdcount by done. cbn [mbind option_bind].
  change (negb (1 =? DNS_ONE_QUESTION)) with false. cbv iota.
  rewrite read_name_wire12 by (done || apply len_wire_header).
  cbn [mbind option_bind]. cbv zeta.
  unfold question, DNS_QUESTION_FIXED_LEN. rewrite !len_app, !len_to_be, len_wire_header.
  pose proof (len_nonneg rest). case_bool_guard; [lia|]. f_equal. lia.
Qed.

Lemma query_error_response rcode :
  exists fl, error_response q rcode = wire_header id fl 1 0 0 0 ++ question.
Proof.
  unfold error_response. rewrite query_end. eexists.
  assert (Hid : (len q >=? DNS_ID_LEN) = true).
  { rewrite query_shape, Z.geb_leb, Z.leb_le, len_app, len_wire_header.
    unfold DNS_ID_LEN. pose proof (len_nonneg (wire_name labels
      ++ (to_be 2 qtype ++ to_be 2 qclass) ++ rest)). lia. }
  rewrite Hid.
  assert (Hi : slice q 0 DNS_ID_LEN = to_be 2 id).
  { rewrite query_shape. unfold wire_header. rewrite <-!app_assoc.
    apply (slice_app [] (to_be 2 id)); [done|by rewrite len_to_be]. }
  assert (Hq : slice q DNS_HEADER_LEN (12 + len question) = question).
  { rewrite query_shape, (app_assoc (wire_name labels)).
    apply slice_app; rewrite len_wire_header; done. }
  rewrite Hi, Hq. unfold wire_header. by rewrite <-!app_assoc.
Qed.

Definition gateway_record (gw : Z) : bytes :=
  [DNS_POINTER_TAG; DNS_HEADER_LEN] ++ to_be 2 DNS_TYPE_A ++ to_be 2 DNS_CLASS_IN
  ++ to_be 4 GATEWAY_TTL_SECS ++ to_be 2 DNS_A_RDATA_LEN ++ octets4 gw.

Lemma query_gateway_response gw :
  exists fl, gateway_response q gw =
    if qtype =? DNS_TYPE_A
    then wire_header id fl 1 1 0 0 ++ question ++ gateway_record gw
    else wire_header id fl 1 0 0 0 ++ question.
Proof.
  unfold gateway_response. destruct (query_error_response 0) as [fl ->]. exists fl.
  rewrite query_end.
  assert (Hty : read_u16 q (12 + len question - DNS_QUESTION_FIXED_LEN) = Some qtype).
  { rewrite query_shape, <-(app_assoc (to_be 2 qtype)), 2!app_assoc, <-app_assoc.
    apply read_u16_at; [|done]. unfold question, DNS_QUESTION_FIXED_LEN.
    rewrite !len_app, len_wire_header, !len_to_be. lia. }
  rewrite Hty. destruct (Z.eqb_spec qtype DNS_TYPE_A) as [->|Hne].
  - rewrite bool_decide_eq_true_2 by done. unfold gateway_record.
    rewrite (app_assoc _ question). done.
  - rewrite bool_decide_eq_false_2 by congruence. done.
Qed.

(** The question section of a response is skipped. *)
Lemma skip_question h t :
  len h = 12 -> skip_questions 1 (h ++ question ++ t) DNS_HEADER_LEN = Some (12 + len question).
Proof.
  intros Hh. cbn [skip_questions]. unfold question. rewrite <-app_assoc.
  rewrite read_name_wire12 by done. cbn [mbind option_bind].
  unfold DNS_QUESTION_FIXED_LEN. rewrite !len_app, !len_to_be.
  pose proof (len_nonneg t). case_bool_guard; [lia|]. f_equal. lia.
Qed.

(** The gateway's one answer record reads back as its address. *)
Lemma read_gateway_record h gw :
  len h = 12 -> is_uint 32 gw ->
  read_record (h ++ question ++ gateway_record gw) (12 + len question)
  = Some ([(V4 gw, GATEWAY_TTL_SECS)], 12 + len question + 16).
Proof.
  intros Hh Hgw. unfold read_record.
  pose proof (read_name_pointer h labels (to_be 2 qtype ++ to_be 2 qclass)
    (drop 2 (gateway_record gw)) Hlabels Hh) as E.
  replace (12 + len (wire_name labels) + len (to_be 2 qtype ++ to_be 2 qclass))
    with (12 + len question) in E by (unfold question; rewrite !len_app, !len_to_be; lia).
  replace (h ++ question ++ gateway_record gw)
    with (h ++ wire_name labels ++ (to_be 2 qtype ++ to_be 2 qclass)
          ++ [DNS_POINTER_TAG; DNS_HEADER_LEN] ++ drop 2 (gateway_record gw))
    by (unfold question; by rewrite <-!app_assoc).
  rewrite E. cbn [mbind option_bind]. clear E.
  set (before := h ++ wire_name labels ++ (to_be 2 qtype ++ to_be 2 qclass)
                 ++ [DNS_POINTER_TAG; DNS_HEADER_LEN]).
  assert (Hb : len before = 12 + len question + 2).
  { subst before. unfold question. rewrite !len_app, !len_to_be, !len_cons, len_nil. lia. }
  change (drop 2 (gateway_record gw)) with
    (to_be 2 DNS_TYPE_A ++ to_be 2 DNS_CLASS_IN ++ to_be 4 GATEWAY_TTL_SECS
     ++ to_be 2 DNS_A_RDATA_LEN ++ octets4 gw).
  replace (h ++ wire_name labels ++ (to_be 2 qtype ++ to_be 2 qclass)
     ++ [DNS_POINTER_TAG; DNS_HEADER_LEN] ++ to_be 2 DNS_TYPE_A ++ to_be 2 DNS_CLASS_IN
     ++ to_be 4 GATEWAY_TTL_SECS ++ to_be 2 DNS_A_RDATA_LEN ++ octets4 gw)
    with (before ++ to_be 2 DNS_TYPE_A ++ to_be 2 DNS_CLASS_IN
     ++ to_be 4 GATEWAY_TTL_SECS ++ to_be 2 DNS_A_RDATA_LEN ++ octets4 gw)
    by (subst before; by rewrite <-!app_assoc).
  rewrite (record_fields before gw (12 + len question + 2)) by done. do 2 f_equal. lia.
Qed.

End Query.

End DnsFacts.

Module DnsProps.
Import Str Ip Dns DnsFacts HostPattern HostPatternFacts.

(** C39: The name parser is total on every packet, hostile compression
    pointers included: the loop returns within [read_name_fuel] iterations,
    more fuel changes nothing, and a parsed name's next offset lies after its
    start and inside the packet. *)
Theorem read_name_total packet offset :
  is_bytes packet -> 0 <= offset ->
  exists r,
    (forall fuel, (read_name_fuel packet <= fuel)%nat ->
       read_name_loop fuel packet (read_name_init offset) = Some r)
    /\ read_name packet offset = r
    /\ (forall name next, r = Some (name, next) -> offset < next <= len packet).
Proof.
  intros Hb Ho. destruct (read_name_fuel_enough packet offset Hb Ho) as [r Hr].
  exists r. split; [intros; by eapply read_name_loop_mono|].
  assert (E : read_name packet offset = r) by (unfold read_name; by rewrite Hr).
  split; [done|]. intros name next ->. by eapply read_name_bounds.
Qed.

(** A name whose pointer loops back on itself. *)
Definition self_pointer : bytes := replicate 12 0 ++ [192; 12].

Lemma read_name_total_witness :
  exists r,
    (forall fuel, (read_name_fuel self_pointer <= fuel)%nat ->
       read_name_loop fuel self_pointer (read_name_init 12) = Some r)
    /\ read_name self_pointer 12 = r
    /\ (forall name next, r = Some (name, next) ->
          12 < next <= len self_pointer).
Proof.
  apply (read_name_total self_pointer 12); [|lia].
  repeat constructor; lia.
Defined.

(** The question of a one-question query is read back as its
    labels, lower-cased and joined with dots, whatever follows it. *)
Theorem question_name_roundtrip id flags an ns ar labels qtype qclass rest :
  Forall wire_label labels ->
  question_name (wire_query id flags an ns ar labels qtype qclass rest)
  = Some (join (bs ".") (map to_ascii_lowercase labels)).
Proof. intros Hl. by apply question_name_shape. Qed.

Lemma question_name_roundtrip_witness :
  question_name (wire_query 7 256 0 0 0 [bs "API"; bs "example"; bs "com"] 28 1 [])
  = Some (bs "api.example.com").
Proof.
  rewrite question_name_roundtrip; [reflexivity|].
  repeat constructor; vm_compute; congruence.
Defined.

(** The gateway's answer for its own name echoes the question
    and, read back by the gateway's own answer parser, carries exactly the
    gateway address with its TTL for an A query and no address for any other
    type. *)
Theorem gateway_response_roundtrip id flags an ns ar labels qtype qclass rest gateway :
  Forall wire_label labels -> is_uint 16 qtype -> is_uint 32 gateway ->
  let q := wire_query id flags an ns ar labels qtype qclass rest in
  let r := gateway_response q gateway in
  question_name r = question_name q
  /\ answer_ip_records r
     = (if qtype =? DNS_TYPE_A then [(V4 gateway, GATEWAY_TTL_SECS)] else []).
Proof.
  intros Hl Ht Hg q r.
  destruct (query_gateway_response id flags an ns ar labels qtype qclass rest Hl Ht gateway)
    as [fl E]. fold q in E. fold r in E.
  assert (Hq : question_name q = Some (join (bs ".") (map to_ascii_lowercase labels))).
  { by apply question_name_shape. }
  rewrite Hq, E. unfold answer_ip_records, parse_answer_ip_records.
  destruct (qtype =? DNS_TYPE_A); (split;
    [rewrite <-?app_assoc; by apply question_name_shape|]).
  - rewrite <-!(app_assoc (wire_name labels)), shape_long by apply len_wire_header.
    rewrite read_qdcount, read_ancount by done. cbn [mbind option_bind].
    change (Z.to_nat 1) with 1%nat. rewrite (app_assoc (wire_name labels)).
    rewrite skip_question by (done || apply len_wire_header). cbn [mbind option_bind read_records].
    by rewrite read_gateway_record by (done || apply len_wire_header).
  - rewrite shape_long by apply len_wire_header.
    rewrite read_qdcount, read_ancount by done. cbn [mbind option_bind].
    change (Z.to_nat 1) with 1%nat.
    rewrite <-(app_nil_r (wire_name labels ++ _)).
    by rewrite skip_question by (done || apply len_wire_header).
Qed.

Lemma gateway_response_roundtrip_witness :
  let q := wire_query 7 256 0 0 0 [bs "host"; bs "smolvm"; bs "internal"] 1 1 [] in
  question_name (gateway_response q 1681915905) = Some GATEWAY_HOSTNAME
  /\ answer_ip_records (gateway_response q 1681915905) = [(V4 1681915905, 60)].
Proof.
  pose proof (gateway_response_roundtrip 7 256 0 0 0 [bs "host"; bs "smolvm"; bs "internal"]
    1 1 [] 1681915905) as H. cbv zeta in H |- *.
  destruct H as [H1 H2]; [repeat constructor; vm_compute; congruence|by split..|].
  split; [rewrite H1; reflexivity|rewrite H2; reflexivity].
Defined.

(** A query is let through exactly when its name, in normal form,
    is not empty and some allow-list entry admits it. *)
Theorem hostname_allowed_correct hostname hosts :
  hostname_allowed hostname hosts = true <->
  normalize hostname <> []
  /\ exists entry, entry ∈ hosts /\ Admits (normalize hostname) (normalize entry).
Proof.
  unfold hostname_allowed, normalize_hostname. fold (normalize hostname).
  destruct (is_empty (normalize hostname)) eqn:E.
  - apply StrFacts.is_empty_true in E. naive_solver.
  - apply StrFacts.is_empty_false in E. rewrite existsb_exists.
    setoid_rewrite matches_admits. setoid_rewrite normalize_idem.
    setoid_rewrite list_elem_of_In. naive_solver.
Qed.

End DnsProps.
