(* ===== verification/Sni.v ===== *)
(** * Sni: what a guest connection's opening bytes say
    (crates/smolvm-protocol/src/sni.rs, crates/smolvm-network/src/opening.rs)

    [Sni] peeks at the first TLS record of a flow for the [server_name]
    extension; [Opening] classifies the opening bytes of an outbound TCP
    connection. JSON parsing ([serde_json]) is a parameter of [Opening]. *)

From S2P Require Import Prelude RustStr.

Module Sni.
Import Str.

Definition MAX_CLIENT_HELLO : Z := 16 * 1024.

Inductive Peek :=
| Incomplete
| ServerName (name : bytes)
| NoServerName.

#[global] Instance Peek_eq_dec : EqDecision Peek.
Proof. solve_decision. Defined.

Definition u16_be (a b : Z) : Z := from_be [a; b].

Definition sni_char (c : Z) : bool :=
  is_ascii_alphanumeric c || (c =? 46) || (c =? 45) || (c =? 95).

(** [while list.len() >= 3]; the outer [None] is fuel exhaustion. *)
Fixpoint server_name_loop (fuel : nat) (list : bytes) : option (option Peek) :=
  match fuel with
  | O => None
  | S fuel =>
      if len list >=? 3 then
        let name_type := at_ list 0 in
        let n := u16_be (at_ list 1) (at_ list 2) in
        match get_range list 3 (3 + n) with
        | None => Some None
        | Some name =>
            if name_type =? 0 then
              match from_utf8 name with
              | None => Some None
              | Some name =>
                  if is_empty name || negb (forallb sni_char name)
                  then Some (Some NoServerName)
                  else Some (Some (ServerName
                         (to_ascii_lowercase (trim_end_matches 46 name))))
              end
            else server_name_loop fuel (slice list (3 + n) (len list))
        end
      else Some (Some NoServerName)
  end.

Definition parse_server_name (data : bytes) : option Peek :=
  let! a := get data 0 in
  let! b := get data 1 in
  let list_len := u16_be a b in
  let! list := get_range data 2 (2 + list_len) in
  default None (server_name_loop (S (length list)) list).

(** [while exts.len() >= 4]. *)
Fixpoint extensions_loop (fuel : nat) (exts : bytes) : option (option Peek) :=
  match fuel with
  | O => None
  | S fuel =>
      if len exts >=? 4 then
        let ext_type := u16_be (at_ exts 0) (at_ exts 1) in
        let n := u16_be (at_ exts 2) (at_ exts 3) in
        match get_range exts 4 (4 + n) with
        | None => Some None
        | Some data =>
            if ext_type =? 0
            then Some (Some (default NoServerName (parse_server_name data)))
            else extensions_loop fuel (slice exts (4 + n) (len exts))
        end
      else Some (Some NoServerName)
  end.

Definition parse_client_hello (body : bytes) : option Peek :=
  let! body := get_from body 34 in
  let! session_len := get body 0 in
  let! body := get_from body (1 + session_len) in
  let! c0 := get body 0 in
  let! c1 := get body 1 in
  let! body := get_from body (2 + u16_be c0 c1) in
  let! compression_len := get body 0 in
  let! body := get_from body (1 + compression_len) in
  if is_empty body then Some NoServerName
  else
    let! e0 := get body 0 in
    let! e1 := get body 1 in
    let! exts := get_range body 2 (2 + u16_be e0 e1) in
    default None (extensions_loop (S (length exts)) exts).

Definition peek_client_hello (buf : bytes) : Peek :=
  if len buf <? 5 then
    if is_empty buf || (at_ buf 0 =? 0x16) then Incomplete else NoServerName
  else if negb (at_ buf 0 =? 0x16) || negb (at_ buf 1 =? 0x03) then NoServerName
  else
    let record_len := u16_be (at_ buf 3) (at_ buf 4) in
    if (record_len =? 0) || (record_len >? MAX_CLIENT_HELLO) then NoServerName
    else if len buf <? 5 + record_len then Incomplete
    else
      let hs := slice buf 5 (5 + record_len) in
      if (len hs <? 4) || negb (at_ hs 0 =? 0x01) then NoServerName
      else
        let hs_len := from_be [0; at_ hs 1; at_ hs 2; at_ hs 3] in
        if len hs <? 4 + hs_len then NoServerName
        else default NoServerName (parse_client_hello (slice hs 4 (4 + hs_len))).

(** ** The reference encoding of a ClientHello *)

(** An extension of type [ty]. *)
Definition extension (ty : Z) (data : bytes) : bytes :=
  to_be 2 ty ++ to_be 2 (len data) ++ data.
Definition sni_extension (sni : bytes) : bytes :=
  let entry := 0 :: to_be 2 (len sni) ++ sni in
  extension 0 (to_be 2 (len entry) ++ entry).

Definition hello_body (version random session ciphers compression exts : bytes) : bytes :=
  version ++ random ++ [len session] ++ session ++ to_be 2 (len ciphers) ++ ciphers
  ++ [len compression] ++ compression ++ to_be 2 (len exts) ++ exts.

Definition hello_record (minor : Z) (body : bytes) : bytes :=
  let hs := [0x01] ++ to_be 3 (len body) ++ body in
  [0x16; 0x03; minor] ++ to_be 2 (len hs) ++ hs.

End Sni.

Module Opening.
Import Str Sni.

Definition MAX_OPENING_BYTES : Z := 5 + MAX_CLIENT_HELLO.
Definition MAX_STRATUM_LINE : Z := 4096.
Definition STRATUM_METHODS : list bytes :=
  [bs "mining.subscribe"; bs "mining.authorize"; bs "mining.configure";
   bs "mining.extranonce.subscribe"; bs "eth_submitLogin"].

Inductive Opening :=
| Stratum (method : bytes)
| OpenServerName (name : bytes)
| Other.

#[global] Instance Opening_eq_dec : EqDecision Opening.
Proof. solve_decision. Defined.

(** [serde_json::Value], an object as its entries. *)
#[warnings="-register-all"]
Inductive Value :=
| Null
| Bool (b : bool)
| Number (text : bytes)
| VString (s : bytes)
| VArray (l : list Value)
| Object (entries : list (bytes * Value)).

Fixpoint assoc (k : bytes) (l : list (bytes * Value)) : option Value :=
  match l with
  | [] => None
  | (k', v) :: l => if bool_decide (k = k') then Some v else assoc k l
  end.

(** [value.get(key)], [value.as_str()], [value.as_object()]. *)
Definition value_get (v : Value) (k : bytes) : option Value :=
  match v with Object l => assoc k l | _ => None end.
Definition as_str (v : Value) : option bytes :=
  match v with VString s => Some s | _ => None end.
Definition as_object (v : Value) : option (list (bytes * Value)) :=
  match v with Object l => Some l | _ => None end.
Definition contains_key (l : list (bytes * Value)) (k : bytes) : bool :=
  bool_decide (is_Some (assoc k l)).

Section Json.
(** [serde_json::from_slice::<Value>]. *)
Context (json_from_slice : bytes -> option Value).

Definition stratum_method (line : bytes) : option bytes :=
  let! request := json_from_slice line in
  let! mv := value_get request (bs "method") in
  let! method := as_str mv in
  match list_find (fun m => m = method) STRATUM_METHODS with
  | Some (_, known) => Some known
  | None =>
      let! pv := value_get request (bs "params") in
      let! params := as_object pv in
      if bool_decide (method = bs "login") && contains_key params (bs "login")
         && contains_key params (bs "pass")
      then Some (bs "login") else None
  end.

Definition position (c : Z) (l : bytes) : option nat := fst <$> list_find (fun b => b = c) l.

Definition classify (bytes : bytes) : option Opening :=
  let! first := get bytes 0 in
  let verdict :=
    if first =? 0x16 then
      match peek_client_hello bytes with
      | Incomplete => None
      | ServerName name => Some (OpenServerName name)
      | NoServerName => Some Other
      end
    else if first =? 123 then
      match position 10 bytes with
      | Some fin =>
          Some (match stratum_method (take fin bytes) with
                | Some m => Stratum m
                | None => Other
                end)
      | None => if len bytes >=? MAX_STRATUM_LINE then Some Other else None
      end
    else Some Other in
  match verdict with
  | None => if len bytes >=? MAX_OPENING_BYTES then Some Other else None
  | v => v
  end.

End Json.
End Opening.

Module SniFacts.
Import Str Sni.

Lemma u16_be_split n : is_uint 16 n -> u16_be (n / 256 mod 256) (n mod 256) = n.
Proof. intros H. unfold u16_be. rewrite <-to_be_2. by apply from_to_be_small. Qed.

Lemma sni_char_utf8 name : forallb sni_char name = true -> utf8_valid name = true.
Proof.
  induction name as [|c name IH]; simpl; [done|]. intros [Hc H]%andb_true_iff.
  assert (within c 0 127 = true) as ->; [|by apply IH].
  unfold sni_char, is_ascii_alphanumeric, is_ascii_digit, is_ascii_lower, is_ascii_upper in Hc.
  unfold within. lia.
Qed.

(** The two header words at the front of an extension. *)
Lemma extension_words ty data m :
  is_uint 16 ty -> is_uint 16 (len data) ->
  let e := extension ty data ++ m in
  u16_be (at_ e 0) (at_ e 1) = ty
  /\ u16_be (at_ e 2) (at_ e 3) = len data
  /\ get_range e 4 (4 + len data) = Some data
  /\ slice e (4 + len data) (len e) = m
  /\ (len e >=? 4) = true.
Proof.
  intros Ht Hd e. subst e. unfold extension. rewrite !to_be_2.
  repeat split.
  - by apply u16_be_split.
  - by apply u16_be_split.
  - rewrite <-!app_assoc, app_assoc. by apply get_range_app_at.
  - rewrite app_assoc. apply slice_from_app. by autorewrite with bytes.
  - autorewrite with bytes. pose proof (len_nonneg data). pose proof (len_nonneg m).
    rewrite Z.geb_leb, Z.leb_le. lia.
Qed.

Lemma length_extension ty data : length (extension ty data) = (4 + length data)%nat.
Proof. unfold extension. by rewrite !length_app, !length_to_be. Qed.

Lemma parse_server_name_sni sni :
  is_uint 16 (3 + len sni) -> sni <> [] -> forallb sni_char sni = true ->
  parse_server_name (to_be 2 (3 + len sni) ++ 0 :: to_be 2 (len sni) ++ sni)
  = Some (ServerName (to_ascii_lowercase (trim_end_matches 46 sni))).
Proof.
  intros Hl Hne Hc. pose proof (len_nonneg sni).
  unfold parse_server_name. rewrite (to_be_2 (3 + len sni)).
  cbn [app]. change (get (?a :: ?b :: ?l) 0) with (Some a).
  change (get (?a :: ?b :: ?l) 1) with (Some b). cbn [mbind option_bind].
  rewrite u16_be_split by done.
  set (list := 0 :: to_be 2 (len sni) ++ sni).
  assert (Hll : len list = 3 + len sni).
  { subst list. autorewrite with bytes. lia. }
  change (?a :: ?b :: list) with ([a; b] ++ list).
  rewrite get_range_app_end by (done || by rewrite Hll).
  cbn [mbind option_bind server_name_loop]. rewrite Hll.
  rewrite Z.geb_leb, (proj2 (Z.leb_le _ _)) by lia.
  subst list. rewrite to_be_2. cbn [app].
  change (at_ (?a :: ?l) 0) with a. change (at_ (?a :: ?b :: ?l) 1) with b.
  change (at_ (?a :: ?b :: ?c :: ?l) 2) with c.
  rewrite u16_be_split by (unfold is_uint in *; lia).
  change (?a :: ?b :: ?c :: sni) with ([a; b; c] ++ sni).
  rewrite get_range_app_end by done.
  cbn [Z.eqb]. unfold from_utf8. rewrite sni_char_utf8 by done.
  rewrite Hc. destruct sni; done.
Qed.

(** The loops return within the fuel [parse_server_name] and
    [parse_client_hello] give them: each round consumes its header. *)
Lemma server_name_loop_total fuel l :
  (length l < fuel)%nat -> is_Some (server_name_loop fuel l).
Proof.
  revert l. induction fuel as [|fuel IH]; intros l Hl; [lia|].
  cbn [server_name_loop]. case_bool_guard; [|by eexists].
  destruct (get_range _ _ _) as [name|] eqn:Er; [|by eexists].
  apply get_range_Some in Er as (? & ? & ?). case_all; [by eexists..|].
  apply IH. pose proof (len_slice l (3 + u16_be (at_ l 1) (at_ l 2)) (len l)).
  unfold len in *. lia.
Qed.

Lemma extensions_loop_total fuel l :
  (length l < fuel)%nat -> is_Some (extensions_loop fuel l).
Proof.
  revert l. induction fuel as [|fuel IH]; intros l Hl; [lia|].
  cbn [extensions_loop]. case_bool_guard; [|by eexists].
  destruct (get_range _ _ _) as [data|] eqn:Er; [|by eexists].
  apply get_range_Some in Er as (? & ? & ?). case_all; [by eexists..|].
  apply IH. pose proof (len_slice l (4 + u16_be (at_ l 2) (at_ l 3)) (len l)).
  unfold len in *. lia.
Qed.

(** Extensions of another type are skipped. *)
Lemma extensions_loop_sni fuel before sni after :
  Forall (fun e => is_uint 16 e.1 /\ e.1 <> 0 /\ is_uint 16 (len e.2)) before ->
  is_uint 16 (5 + len sni) -> sni <> [] -> forallb sni_char sni = true ->
  (length before < fuel)%nat ->
  extensions_loop fuel (concat (map (fun e => extension e.1 e.2) before)
                        ++ sni_extension sni ++ after)
  = Some (Some (ServerName (to_ascii_lowercase (trim_end_matches 46 sni)))).
Proof.
  intros Hb Hs Hne Hc. pose proof (len_nonneg sni). revert fuel.
  induction Hb as [|[ty data] before (Ht & Hnz & Hd) Hb IH]; intros [|fuel] Hf;
    simpl in Hf; try lia; cbn [extensions_loop map concat app].
  - unfold sni_extension.
    set (data := to_be 2 _ ++ _).
    assert (Hdl : len data = 5 + len sni).
    { subst data. autorewrite with bytes. lia. }
    destruct (extension_words 0 data after) as (-> & -> & -> & _ & ->);
      [done|by rewrite Hdl|]. cbn [Z.eqb]. subst data.
    replace (len (0 :: to_be 2 (len sni) ++ sni)) with (3 + len sni)
      by (autorewrite with bytes; lia).
    rewrite parse_server_name_sni by (done || unfold is_uint in *; lia). done.
  - cbn [fst snd] in *. rewrite <-app_assoc.
    destruct (extension_words ty data (concat (map (fun e => extension e.1 e.2) before)
      ++ sni_extension sni ++ after)) as (-> & -> & -> & -> & ->); [done..|].
    rewrite (proj2 (Z.eqb_neq _ _) Hnz). apply IH. lia.
Qed.

Lemma get_0_app (x : Z) l : get (x :: l) 0 = Some x.
Proof. done. Qed.

Lemma parse_client_hello_body version random session ciphers compression exts :
  len version = 2 -> len random = 32 -> is_uint 16 (len ciphers) ->
  is_uint 16 (len exts) ->
  parse_client_hello (hello_body version random session ciphers compression exts)
  = default None (extensions_loop (S (length exts)) exts).
Proof.
  intros Hv Hr Hc He. unfold parse_client_hello, hello_body.
  rewrite app_assoc, (get_from_app (version ++ random)) by (rewrite len_app; lia).
  cbn [mbind option_bind app]. rewrite get_0_app. cbn [mbind option_bind].
  rewrite app_comm_cons, get_from_app by (rewrite len_cons; lia).
  cbn [mbind option_bind]. rewrite (to_be_2 (len ciphers)). cbn [app].
  change (get (?a :: ?b :: ?l) 0) with (Some a).
  change (get (?a :: ?b :: ?l) 1) with (Some b). cbn [mbind option_bind].
  rewrite u16_be_split by done. rewrite 2!app_comm_cons, get_from_app
    by (rewrite !len_cons; lia).
  cbn [mbind option_bind app]. rewrite get_0_app. cbn [mbind option_bind].
  rewrite app_comm_cons, get_from_app by (rewrite len_cons; lia).
  cbn [mbind option_bind]. rewrite (to_be_2 (len exts)). cbn [app is_empty].
  change (get (?a :: ?b :: ?l) 0) with (Some a).
  change (get (?a :: ?b :: ?l) 1) with (Some b). cbn [mbind option_bind].
  rewrite u16_be_split by done.
  change (?a :: ?b :: exts) with ([a; b] ++ exts).
  by rewrite get_range_app_end by done.
Qed.

Lemma peek_hello_record minor body :
  is_uint 24 (len body) -> 4 + len body <= MAX_CLIENT_HELLO ->
  peek_client_hello (hello_record minor body)
  = default NoServerName (parse_client_hello body).
Proof.
  intros Hb Hm. unfold MAX_CLIENT_HELLO in Hm. unfold peek_client_hello, hello_record.
  set (hs := [1] ++ to_be 3 (len body) ++ body). pose proof (len_nonneg body).
  assert (Hh : len hs = 4 + len body) by (subst hs; autorewrite with bytes; lia).
  rewrite to_be_2. cbn [app].
  assert (Hlen : len (22 :: 3 :: minor :: len hs / 256 mod 256 :: len hs mod 256 :: hs)
                 = 5 + len hs) by (rewrite !len_cons; lia).
  rewrite Hlen. case_bool_guard; [lia|].
  change (at_ (22 :: ?l) 0) with 22. change (at_ (22 :: 3 :: ?l) 1) with 3.
  change (at_ (?a :: ?b :: ?c :: ?d :: ?l) 3) with d.
  change (at_ (?a :: ?b :: ?c :: ?d :: ?e :: ?l) 4) with e. cbn [Z.eqb Pos.eqb negb orb].
  rewrite u16_be_split by (unfold is_uint; lia).
  case_bool_guard; [unfold MAX_CLIENT_HELLO in *; lia|].
  case_bool_guard; [lia|].
  change (22 :: 3 :: minor :: ?h :: ?l :: hs) with ([22; 3; minor; h; l] ++ hs).
  rewrite (slice_app_end [_; _; _; _; _] hs) by done.
  change (at_ hs 0) with 1. cbn [Z.eqb Pos.eqb negb orb].
  rewrite Hh. case_bool_guard; [lia|].
  change (from_be [0; at_ hs 1; at_ hs 2; at_ hs 3])
    with (from_be ([0] ++ to_be 3 (len body))).
  replace (from_be ([0] ++ to_be 3 (len body))) with (len body).
  2:{ unfold from_be, to_be. rewrite rev_app_distr, rev_involutive.
      cbn [rev app]. rewrite from_le_snoc0. symmetry. by apply from_to_le_small. }
  case_bool_guard; [lia|]. subst hs. rewrite app_assoc.
  rewrite slice_app_end; [done|by autorewrite with bytes..].
Qed.

End SniFacts.

Module SniProps.
Import Str Sni SniFacts Opening.

Lemma at_byte (l : bytes) i : is_bytes l -> is_byte (at_ l i).
Proof.
  intros H. unfold at_. destruct (get l i) eqn:E; simpl; [by eapply get_bytes|].
  unfold is_byte. lia.
Qed.

Lemma record_len_bound buf :
  is_bytes buf -> 0 <= u16_be (at_ buf 3) (at_ buf 4) < 65536.
Proof.
  intros H. unfold u16_be. apply (from_be_bound [_; _]).
  repeat constructor; by apply at_byte.
Qed.

Lemma peek_final_lemma buf more :
  is_bytes buf -> peek_client_hello buf <> Incomplete ->
  peek_client_hello (buf ++ more) = peek_client_hello buf.
Proof.
  intros Hb Hn. unfold peek_client_hello in *.
  pose proof (len_nonneg more). rewrite len_app.
  pose proof (record_len_bound buf Hb) as Hr.
  destruct (len buf <? 5) eqn:E5; bool_simpl.
  - destruct (is_empty buf || (at_ buf 0 =? 22)) eqn:E0; [done|].
    apply orb_false_iff in E0 as [E1 E2]. destruct buf as [|x buf]; [done|].
    rewrite at_app_l by (rewrite len_cons; pose proof (len_nonneg buf); lia).
    rewrite E2. cbn [negb orb app is_empty]. by case_step.
  - destruct (len buf + len more <? 5) eqn:E5'; bool_simpl; [lia|].
    rewrite !at_app_l by lia.
    destruct (_ || _); [done|]. destruct (_ || _) eqn:E1; [done|].
    set (n := u16_be (at_ buf 3) (at_ buf 4)) in *.
    destruct (len buf <? 5 + n) eqn:E2; [done|]. bool_simpl.
    destruct (len buf + len more <? 5 + n) eqn:E3; bool_simpl; [lia|].
    by rewrite slice_app_l by lia.
Qed.

(** Inside a complete record the parse never asks for more bytes. *)
Lemma server_name_loop_decided fuel l : server_name_loop fuel l <> Some (Some Incomplete).
Proof.
  revert l. induction fuel as [|fuel IH]; intros l; [done|]. cbn [server_name_loop].
  repeat case_step; done.
Qed.

Lemma parse_server_name_decided data : parse_server_name data <> Some Incomplete.
Proof.
  unfold parse_server_name. intros H.
  apply bind_Some in H as (a & _ & H). apply bind_Some in H as (b & _ & H).
  apply bind_Some in H as (l & _ & H).
  pose proof (server_name_loop_decided (S (length l)) l).
  destruct (server_name_loop _ l); simpl in *; congruence.
Qed.

Lemma extensions_loop_decided fuel l : extensions_loop fuel l <> Some (Some Incomplete).
Proof.
  revert l. induction fuel as [|fuel IH]; intros l; [done|]. cbn [extensions_loop].
  destruct (_ >=? _); [|done]. destruct (get_range _ _ _) as [data|]; [|done].
  destruct (_ =? 0); [|apply IH].
  pose proof (parse_server_name_decided data). destruct (parse_server_name data); simpl; congruence.
Qed.

Lemma parse_client_hello_decided body : parse_client_hello body <> Some Incomplete.
Proof.
  unfold parse_client_hello. intros H.
  do 8 (apply bind_Some in H as (? & _ & H)).
  case_step_in H; [done|]. do 3 (apply bind_Some in H as (? & _ & H)).
  match type of H with default None (extensions_loop ?f ?l) = _ =>
    pose proof (extensions_loop_decided f l); destruct (extensions_loop f l) end;
  simpl in *; congruence.
Qed.

Lemma peek_incomplete_short buf :
  is_bytes buf -> peek_client_hello buf = Incomplete -> len buf < MAX_OPENING_BYTES.
Proof.
  intros Hb H. pose proof (record_len_bound buf Hb) as Hr. unfold peek_client_hello in H.
  unfold MAX_OPENING_BYTES, MAX_CLIENT_HELLO in *.
  destruct (len buf <? 5) eqn:E5; bool_simpl; [lia|].
  destruct (_ || _); [done|]. destruct (_ || _) eqn:E1; [done|]. bool_simpl.
  destruct (len buf <? _) eqn:E2; [bool_simpl; lia|]. exfalso.
  cbv zeta in H. do 2 (case_step_in H; [done|]).
  match type of H with context [parse_client_hello ?b] =>
    pose proof (parse_client_hello_decided b); destruct (parse_client_hello b) end;
  simpl in *; congruence.
Qed.

Lemma position_app c l m i : position c l = Some i -> position c (l ++ m) = Some i.
Proof.
  unfold position. rewrite !fmap_Some. intros ([j x] & H & ->).
  exists (j, x). split; [|done]. by apply list_find_app_l.
Qed.

Lemma position_lt c l i : position c l = Some i -> (i < length l)%nat.
Proof.
  unfold position. rewrite fmap_Some. intros ([j x] & H & ->).
  apply list_find_Some in H as (H & _). by apply lookup_lt_Some in H.
Qed.

(** ** Properties *)

(** The server name of any complete ClientHello is found, lower-cased and
    without trailing dots, whatever the session id, cipher suites, compression
    methods, the extensions before it and the bytes after it. *)
Theorem sni_roundtrip minor version random session ciphers compression before sni after :
  len version = 2 -> len random = 32 -> is_uint 16 (len ciphers) ->
  Forall (fun e => is_uint 16 e.1 /\ e.1 <> 0 /\ is_uint 16 (len e.2)) before ->
  is_uint 16 (5 + len sni) -> sni <> [] -> forallb sni_char sni = true ->
  let exts := concat (map (fun e => extension e.1 e.2) before) ++ sni_extension sni ++ after in
  let body := hello_body version random session ciphers compression exts in
  4 + len body <= MAX_CLIENT_HELLO ->
  peek_client_hello (hello_record minor body)
  = ServerName (to_ascii_lowercase (trim_end_matches 46 sni)).
Proof.
  intros Hv Hr Hci Hb Hs Hne Hc exts body Hm.
  assert (Hx : len exts <= len body).
  { unfold body, hello_body. rewrite !len_app, !len_to_be, !len_cons, len_nil.
    pose proof (len_nonneg session). pose proof (len_nonneg compression).
    pose proof (len_nonneg ciphers). lia. }
  pose proof (len_nonneg exts). pose proof (len_nonneg body).
  unfold MAX_CLIENT_HELLO in Hm.
  rewrite peek_hello_record; [|unfold is_uint; lia|unfold MAX_CLIENT_HELLO; lia].
  unfold body. rewrite parse_client_hello_body by (done || unfold is_uint; lia).
  pose proof (extensions_loop_sni (S (length exts)) before sni after Hb Hs Hne Hc) as E.
  fold exts in E. rewrite E; [done|].
  unfold exts. rewrite length_app. clear.
  induction before as [|e before IH]; cbn [length map concat]; [lia|].
  rewrite length_app, length_extension. lia.
Qed.

Lemma sni_roundtrip_witness :
  peek_client_hello (hello_record 1 (hello_body [3; 3] (replicate 32 7) [1; 2] [0x13; 1] [0]
    (extension 23 [] ++ sni_extension (bs "API.Notion.com") ++ extension 43 [1])))
  = ServerName (bs "api.notion.com").
Proof.
  pose proof (sni_roundtrip 1 [3; 3] (replicate 32 7) [1; 2] [0x13; 1] [0] [(23, [])]
    (bs "API.Notion.com") (extension 43 [1])) as H.
  apply H; try (vm_compute; congruence); try (split; vm_compute; congruence).
  repeat constructor; vm_compute; congruence.
Defined.

(** A classification is final: more bytes never change a verdict, except
    that a JSON line given up on for its length may still end. *)
Theorem classify_final json opening more v :
  is_bytes opening -> classify json opening = Some v ->
  (get opening 0 = Some 123 -> is_Some (position 10 opening)) ->
  classify json (opening ++ more) = Some v.
Proof.
  intros Hb Hc Hj. unfold classify in *.
  destruct (get opening 0) as [first|] eqn:E0; [|done]. cbn [mbind option_bind] in Hc.
  pose proof (get_Some_lt _ _ _ E0).
  rewrite get_app_l, E0 by lia. cbn [mbind option_bind]. cbv zeta in *.
  destruct (first =? 22) eqn:E22.
  - assert (Hp : peek_client_hello opening <> Incomplete).
    { intros Hp. pose proof (peek_incomplete_short _ Hb Hp). rewrite Hp in Hc.
      case_step_in Hc; [bool_simpl; lia|done]. }
    rewrite peek_final_lemma by done. destruct (peek_client_hello opening); [done|..]; done.
  - destruct (Z.eqb_spec first 123) as [->|]; [|done].
    destruct Hj as [i Hi]; [done|]. rewrite Hi in Hc. rewrite (position_app _ _ more _ Hi).
    pose proof (position_lt _ _ _ Hi). by rewrite take_app_le by lia.
Qed.

Lemma classify_final_witness :
  classify (fun _ => Some (Object [(bs "method", VString (bs "mining.subscribe"))]))
    (bs "{}" ++ [10] ++ bs "rest") = Some (Stratum (bs "mining.subscribe")).
Proof.
  pose proof (classify_final
    (fun _ => Some (Object [(bs "method", VString (bs "mining.subscribe"))]))
    (bs "{}" ++ [10]) (bs "rest") (Stratum (bs "mining.subscribe"))) as H.
  apply H; [repeat constructor; vm_compute; congruence|reflexivity|].
  intros _. exists 2%nat. reflexivity.
Defined.

(** No more than [MAX_OPENING_BYTES] are ever held: the limit is reached only
    by openings that are no ClientHello, so a classified server name is never
    lost to it, and every opening of that length has a verdict. *)
Theorem classify_bounded json opening :
  is_bytes opening -> len opening >= MAX_OPENING_BYTES ->
  peek_client_hello opening <> Incomplete /\ is_Some (classify json opening).
Proof.
  intros Hb Hl. split; [intros Hp; by apply peek_incomplete_short in Hp; [lia|]|].
  unfold classify.
  destruct opening as [|x opening]; [rewrite len_nil in Hl; by vm_compute in Hl|].
  rewrite get_0_app. cbn [mbind option_bind]. cbv zeta.
  match goal with |- context [match ?v with Some _ => _ | None => _ end] => destruct v end; [done|].
  rewrite Z.geb_leb, (proj2 (Z.leb_le _ _)) by lia. done.
Qed.

Lemma classify_bounded_witness :
  let o := replicate (Z.to_nat MAX_OPENING_BYTES) 22 in
  peek_client_hello o <> Incomplete /\ is_Some (classify (fun _ => None) o).
Proof.
  apply (classify_bounded (fun _ => None) (replicate (Z.to_nat MAX_OPENING_BYTES) 22)).
  - apply Forall_replicate. unfold is_byte. lia.
  - unfold len. rewrite length_replicate. vm_compute. congruence.
Defined.

End SniProps.
