(* ===== verification/Watchlist.v ===== *)
(** * Watchlist: destinations to flag or block
    (crates/smolvm-network/src/watchlist.rs)

    The list holds SHA-256 digests of names and addresses. The digest is a
    parameter; the file is what the host reads at a reload (its modification
    time and its text), and time is a monotonic nanosecond count. *)

From S2P Require Import Prelude RustStr Ip HostPattern.

Module Watchlist.
Import Str.

Definition SECOND : Z := 1000000000.
Definition MAX_ENTRIES : Z := 1000000.
Definition RELOAD_CHECK_INTERVAL : Z := 30 * SECOND.
Definition REPEAT_QUIET : Z := 60 * SECOND.
Definition MAX_REMEMBERED_MATCHES : Z := 4096.

Record Entry := MkEntry { label : bytes; block : bool }.

#[global] Instance Entry_eq_dec : EqDecision Entry.
Proof. solve_decision. Defined.

Record Watchlist := MkWatchlist {
  dns : gmap bytes Entry;
  ip : gmap bytes Entry;
}.
Definition default_list : Watchlist := MkWatchlist ∅ ∅.

Inductive Reason :=
| ExpectedLabelKind       (* expected `<label> <kind>:<sha256> [block]` *)
| OnlyActionBlock         (* the only action is `block` *)
| BadLabel                (* label must be 1 to 32 of [a-z0-9_-] *)
| ExpectedKind            (* expected `<kind>:<sha256>` *)
| BadDigest               (* digest must be 64 lowercase hex characters *)
| BadKind                 (* kind must be dns-sha256 or ip-sha256 *)
| TooManyEntries.         (* too many entries *)

Record WatchlistError := MkError { line : Z; reason : Reason }.

Definition is_lower_hex (b : Z) : bool :=
  is_ascii_digit b || ((97 <=? b) && (b <=? 102)).

(** [u8::from_str_radix(&hex[2i..2i + 2], 16)] for each [i]. *)
Fixpoint hex_bytes (hex : bytes) : option bytes :=
  match hex with
  | [] => Some []
  | a :: b :: rest =>
      let! x := Ip.hex_val a in
      let! y := Ip.hex_val b in
      let! out := hex_bytes rest in
      Some (16 * x + y :: out)
  | [_] => None
  end.

Definition parse_digest (hex : bytes) : option bytes :=
  if negb (len hex =? 64) || negb (forallb is_lower_hex hex) then None
  else hex_bytes hex.

Definition valid_label (label : bytes) : bool :=
  (1 <=? len label) && (len label <=? 32)
  && forallb (fun b => is_ascii_lower b || is_ascii_digit b || (b =? 95) || (b =? 45)) label.

Definition list_len (l : Watchlist) : Z := Z.of_nat (size (dns l) + size (ip l)).

(** The body of [parse]'s loop for a line that is neither blank nor a comment. *)
Definition parse_entry (wl : Watchlist) (line : bytes) : result Watchlist Reason :=
  let? (label, entry, action) :=
    match split_whitespace line with
    | [label; entry] => Ok (label, entry, None)
    | [label; entry; action] => Ok (label, entry, Some action)
    | _ => Err ExpectedLabelKind
    end in
  let? block :=
    match action with
    | None => Ok false
    | Some a => if bool_decide (a = bs "block") then Ok true else Err OnlyActionBlock
    end in
  if negb (valid_label label) then Err BadLabel
  else
    let? (kind, hex) := ok_or (split_once 58 entry) ExpectedKind in
    let? digest := ok_or (parse_digest hex) BadDigest in
    let? wl :=
      if bool_decide (kind = bs "dns-sha256")
      then Ok (MkWatchlist (<[digest := MkEntry label block]> (dns wl)) (ip wl))
      else if bool_decide (kind = bs "ip-sha256")
      then Ok (MkWatchlist (dns wl) (<[digest := MkEntry label block]> (ip wl)))
      else Err BadKind in
    if list_len wl >? MAX_ENTRIES then Err TooManyEntries else Ok wl.

Fixpoint parse_lines (index : Z) (wl : Watchlist) (ls : list bytes) :
    result Watchlist WatchlistError :=
  match ls with
  | [] => Ok wl
  | raw :: ls =>
      let line := trim raw in
      if is_empty line || starts_with (bs "#") line then parse_lines (index + 1) wl ls
      else
        match parse_entry wl line with
        | Ok wl => parse_lines (index + 1) wl ls
        | Err reason => Err (MkError (index + 1) reason)
        end
  end.

Definition parse (text : bytes) : result Watchlist WatchlistError :=
  parse_lines 0 default_list (lines text).

Definition is_empty_list (l : Watchlist) : bool :=
  bool_decide (dns l = ∅) && bool_decide (ip l = ∅).

Record Verdict := MkVerdict { record : option bytes; vblock : bool }.
Definition default_verdict : Verdict := MkVerdict None false.

(** What the host finds at the list's path: [None] when it cannot be read. *)
Record FileView := MkFile { mtime : option Z; text : option bytes }.

Record SourceState := MkSource {
  src_list : Watchlist;
  modified : option Z;
  checked : Z;
  recent : gmap (bytes * bytes) Z;
}.

Section Digest.
Context (sha256 : bytes -> bytes).

(** [loop] of [entry_dns]; the outer [None] is fuel exhaustion. *)
Fixpoint entry_dns_loop (fuel : nat) (l : Watchlist) (rest : bytes) : option (option Entry) :=
  match fuel with
  | O => None
  | S fuel =>
      if is_empty rest then Some None
      else
        match dns l !! sha256 rest with
        | Some entry => Some (Some entry)
        | None =>
            match split_once 46 rest with
            | None => Some None
            | Some (_, rest) => entry_dns_loop fuel l rest
            end
        end
  end.

Definition entry_dns (l : Watchlist) (name : bytes) : option Entry :=
  if bool_decide (dns l = ∅) then None
  else
    let name := to_ascii_lowercase (trim_end_matches 46 name) in
    default None (entry_dns_loop (S (length name)) l name).
Definition match_dns (l : Watchlist) (name : bytes) : option bytes :=
  label <$> entry_dns l name.

Definition entry_ip (l : Watchlist) (addr : Ip.IpAddr) : option Entry :=
  if bool_decide (ip l = ∅) then None else ip l !! sha256 (Ip.to_string addr).
Definition match_ip (l : Watchlist) (addr : Ip.IpAddr) : option bytes :=
  label <$> entry_ip l addr.

(** [Watchlist::load] on the file as it is. *)
Definition load (f : FileView) : option Watchlist :=
  let! t := text f in
  match parse t with Ok l => Some l | Err _ => None end.

Definition open (f : FileView) (now : Z) : option SourceState :=
  let! m := mtime f in
  let! l := load f in
  Some (MkSource l (Some m) now ∅).

Definition current (f : FileView) (now : Z) (st : SourceState) : SourceState :=
  if saturating_sub now (checked st) >=? RELOAD_CHECK_INTERVAL then
    if bool_decide (mtime f = modified st)
    then MkSource (src_list st) (modified st) now (recent st)
    else MkSource (default (src_list st) (load f)) (mtime f) now (recent st)
  else st.

Definition record_once (matched : Watchlist -> option Entry) (dest : bytes)
    (f : FileView) (now : Z) (st : SourceState) : Verdict * SourceState :=
  let st := current f now st in
  match matched (src_list st) with
  | None => (default_verdict, st)
  | Some entry =>
      let key := (label entry, dest) in
      let quiet :=
        match recent st !! key with
        | Some at_ => saturating_sub now at_ <? REPEAT_QUIET
        | None => false
        end in
      let st :=
        if negb quiet then
          let kept :=
            if Z.of_nat (size (recent st)) >=? MAX_REMEMBERED_MATCHES then ∅ else recent st in
          MkSource (src_list st) (modified st) (checked st) (<[key := now]> kept)
        else st in
      (MkVerdict (if quiet then None else Some (label entry)) (block entry), st)
  end.

Definition observe_dns (name : bytes) :=
  record_once (fun l => entry_dns l name) name.
Definition observe_ip (addr : Ip.IpAddr) (dest : bytes) :=
  record_once (fun l => entry_ip l addr) dest.

(** ** Specification of name matching *)

(** The name and its parent domains, most specific first. *)
Fixpoint tails {A} (l : list A) : list (list A) :=
  match l with [] => [] | _ :: t => l :: tails t end.
Definition domains (name : bytes) : list bytes := map (join [46]) (tails (split 46 name)).

Fixpoint first_listed (l : Watchlist) (names : list bytes) : option Entry :=
  match names with
  | [] => None
  | n :: names =>
      match dns l !! sha256 n with Some e => Some e | None => first_listed l names end
  end.

(** An observation of the guest: a DNS question or a destination, with the
    file and the clock at that moment. *)
Inductive Observation :=
| ObsDns (name : bytes)
| ObsIp (addr : Ip.IpAddr) (dest : bytes).

Definition observe (o : Observation) :=
  match o with
  | ObsDns name => observe_dns name
  | ObsIp addr dest => observe_ip addr dest
  end.

Inductive reachable (st0 : SourceState) : SourceState -> Prop :=
| reach_refl : reachable st0 st0
| reach_step st o f now :
    reachable st0 st -> reachable st0 (observe o f now st).2.

End Digest.
End Watchlist.

Module WatchlistFacts.
Import Str StrFacts Watchlist.

Section Digest.
Context (sha256 : bytes -> bytes).

(** The part after the first dot is the rest of the labels. *)
Lemma split_once_split s :
  match split_once 46 s with
  | Some (a, b) => split 46 s = a :: split 46 b
  | None => split 46 s = [s]
  end.
Proof.
  induction s as [|x s IH]; [done|]. cbn [split_once split].
  destruct (x =? 46); [done|].
  destruct (split_once 46 s) as [[a b]|]; cbn [mbind option_bind]; by rewrite IH.
Qed.

Lemma split_once_last c s a b :
  split_once c s = Some (a, b) -> s = a ++ [c] ++ b.
Proof.
  revert a. induction s as [|x s IH]; intros a; [done|]. cbn [split_once].
  destruct (Z.eqb_spec x c) as [->|]; [by intros [= <- <-]|].
  destruct (split_once c s) as [[a' b']|]; [|done]. cbn [mbind option_bind].
  intros [= <- <-]. simpl. by rewrite (IH a').
Qed.

(** The loop looks the name and its parents up in turn. *)
Lemma entry_dns_loop_domains fuel l name :
  name <> [] -> last name <> Some 46 -> (length name < fuel)%nat ->
  entry_dns_loop sha256 fuel l name = Some (first_listed sha256 l (domains name)).
Proof.
  revert name. induction fuel as [|fuel IH]; intros name Hne Hl Hf; [lia|].
  cbn [entry_dns_loop]. rewrite (proj2 (is_empty_false _) Hne).
  unfold domains. pose proof (join_split 46 name) as Hj.
  pose proof (split_once_split name) as Hs.
  destruct (split_once 46 name) as [[a b]|] eqn:E.
  - apply split_once_last in E as En. rewrite Hs in Hj |- *.
    cbn [tails map first_listed]. rewrite Hj.
    destruct (dns l !! sha256 name); [done|].
    assert (b <> []).
    { intros ->. apply Hl. by rewrite En, app_nil_r, last_snoc. }
    apply IH; [done| |].
    + intros Hb. apply Hl. rewrite En, last_app, last_app, Hb. done.
    + rewrite En, length_app in Hf. simpl in Hf. lia.
  - rewrite Hs. cbn [tails map first_listed join]. by destruct (dns l !! sha256 name).
Qed.

Lemma entry_dns_domains l name :
  entry_dns sha256 l name
  = match HostPattern.normalize name with
    | [] => None
    | n => first_listed sha256 l (domains n)
    end.
Proof.
  unfold entry_dns. fold (HostPattern.normalize name).
  pose proof (HostPatternFacts.normalize_last name) as Hl.
  destruct (HostPattern.normalize name) as [|x n] eqn:En; [by case_bool_decide|].
  rewrite <-En in *.
  case_bool_decide as Hd.
  - symmetry. generalize (domains (HostPattern.normalize name)). intros ds.
    induction ds as [|d ds IH]; [done|]. cbn [first_listed]. by rewrite Hd, lookup_empty.
  - rewrite entry_dns_loop_domains; [done|by rewrite En|done|lia].
Qed.

Lemma current_recent f now st : recent (current f now st) = recent st.
Proof. unfold current. by repeat case_step. Qed.

(** Only a list read from the file replaces the one in force. *)
Lemma current_list f now st :
  src_list (current f now st) = src_list st \/ load f = Some (src_list (current f now st)).
Proof.
  unfold current. case_step; [|by left]. case_step; [by left|]. simpl.
  destruct (load f); [by right|by left].
Qed.

Lemma record_once_bounded m dest f now st :
  Z.of_nat (size (recent st)) <= MAX_REMEMBERED_MATCHES ->
  Z.of_nat (size (recent (record_once m dest f now st).2)) <= MAX_REMEMBERED_MATCHES.
Proof.
  intros H. unfold record_once. cbv zeta. rewrite current_recent.
  destruct (m _) as [e|]; [|simpl; by rewrite current_recent].
  destruct (match recent st !! _ with Some _ => _ | None => _ end); cbn [negb snd recent];
    [by rewrite current_recent|].
  unfold MAX_REMEMBERED_MATCHES in *.
  case_bool_guard.
  - rewrite map_size_insert_None, map_size_empty by apply lookup_empty. lia.
  - rewrite map_size_insert. destruct (recent st !! _); simpl; lia.
Qed.

End Digest.
End WatchlistFacts.

Module WatchlistProps.
Import Str Watchlist WatchlistFacts.

(** A DNS question matches exactly when the digest of the queried name, or
    of one of its parent domains, is listed, and the most specific one decides;
    the empty name matches nothing. *)
Theorem watch_dns_correct sha256 l name :
  entry_dns sha256 l name
  = match HostPattern.normalize name with
    | [] => None
    | n => first_listed sha256 l (domains n)
    end.
Proof. apply entry_dns_domains. Qed.

(** The verdict on one observation: a match is refused exactly when its
    entry says [block], however recently it was recorded; it is recorded unless
    the same label and destination were recorded within the last minute; and
    afterwards the pair is remembered, so an immediate repeat stays quiet. *)
Theorem watch_verdict_correct m dest f now st v st' e :
  record_once m dest f now st = (v, st') ->
  m (src_list (current f now st)) = Some e ->
  vblock v = block e
  /\ (record v = Some (label e) <->
      forall t, recent st !! (label e, dest) = Some t -> saturating_sub now t >= REPEAT_QUIET)
  /\ (record v = None \/ record v = Some (label e))
  /\ exists t, recent st' !! (label e, dest) = Some t /\ saturating_sub now t < REPEAT_QUIET.
Proof.
  intros H Hm. unfold record_once in H. cbv zeta in H. rewrite Hm, current_recent in H.
  destruct (recent st !! (label e, dest)) as [t|] eqn:Et.
  - destruct (saturating_sub now t <? REPEAT_QUIET) eqn:Eq; cbn [negb] in H; inv H;
      bool_simpl; cbn [vblock record recent].
    + split; [done|]. split; [|split; [by left|exists t; by rewrite current_recent]].
      split; [done|]. intros Ht. specialize (Ht t eq_refl). lia.
    + split; [done|]. split; [|split; [by right|exists now]].
      * split; [|done]. intros _ t' [= <-]. lia.
      * rewrite lookup_insert_eq. split; [done|]. unfold saturating_sub, REPEAT_QUIET, SECOND. lia.
  - cbn [negb] in H. inv H. cbn [vblock record recent].
    split; [done|]. split; [done|]. split; [by right|]. exists now.
    rewrite lookup_insert_eq. split; [done|]. unfold saturating_sub, REPEAT_QUIET, SECOND. lia.
Qed.

Definition blocked_entry : Entry := MkEntry (bs "m1") true.
Definition quiet_source : SourceState :=
  MkSource (MkWatchlist {[bs "example.com" := blocked_entry]} ∅) (Some 0) 0
    {[(bs "m1", bs "a.example.com") := 5]}.

(** The digest is the identity here: the name is refused and not recorded again. *)
Lemma watch_verdict_correct_witness :
  let r := observe_dns id (bs "a.example.com") (MkFile (Some 0) None) 10 quiet_source in
  vblock r.1 = true /\ record r.1 = None.
Proof.
  pose proof (watch_verdict_correct (fun l => entry_dns id l (bs "a.example.com"))
    (bs "a.example.com") (MkFile (Some 0) None) 10 quiet_source
    (observe_dns id (bs "a.example.com") (MkFile (Some 0) None) 10 quiet_source).1
    (observe_dns id (bs "a.example.com") (MkFile (Some 0) None) 10 quiet_source).2
    blocked_entry) as H.
  destruct H as (H1 & H2 & H3 & _); [apply surjective_pairing|by vm_compute|].
  cbv zeta. split; [by rewrite H1|]. destruct H3 as [|H3]; [done|].
  exfalso. apply H2 with (t := 5) in H3; [by vm_compute in H3|by vm_compute].
Defined.

(** However many observations a guest provokes, a source opened from the
    file never remembers more than [MAX_REMEMBERED_MATCHES] matches. *)
Theorem watch_bounded sha256 f now st0 st :
  open f now = Some st0 -> reachable sha256 st0 st ->
  Z.of_nat (size (recent st)) <= MAX_REMEMBERED_MATCHES.
Proof.
  intros Ho. induction 1 as [|st o f' now' _ IH].
  - unfold open in Ho. apply bind_Some in Ho as (m & _ & Ho).
    apply bind_Some in Ho as (l & _ & [= <-]). cbn [recent]. by rewrite map_size_empty.
  - destruct o; simpl; by apply record_once_bounded.
Qed.

Definition sample_list : bytes :=
  bs "m1 dns-sha256:000102030405060708090a0b0c0d0e0f101112131415161718191a1b1c1d1e1f block".

Lemma watch_bounded_witness :
  exists st0, open (MkFile (Some 1) (Some sample_list)) 0 = Some st0
  /\ Z.of_nat (size (recent
       (observe (fun _ => seqZ 0 32) (ObsDns (bs "a.b")) (MkFile (Some 1) None) 9 st0).2))
     <= MAX_REMEMBERED_MATCHES.
Proof.
  eexists. split; [vm_compute; reflexivity|].
  eapply (watch_bounded (fun _ => seqZ 0 32) (MkFile (Some 1) (Some sample_list)) 0);
    [vm_compute; reflexivity|]. apply reach_step, reach_refl.
Defined.

End WatchlistProps.
