(* ===== verification/Egress.v ===== *)
(** * Egress: the gateway's outbound policy
    (crates/smolvm-network/src/egress.rs, crates/smolvm-protocol/src/egress_rule.rs)

    A policy is a value whose allow list, ordered rules and watchlist sit
    behind [Arc]s, so its clones share them: [Store] is that shared memory,
    [EgressPolicy] holds locations in it, and an operation that mutates
    through a lock is a function on the store. Time is a monotonic nanosecond
    count passed as [now]; environment variables are an [Env]; the JSON codec
    of the rule list and the outcome of appending an audit record are
    parameters. *)

From S2P Require Import Prelude RustStr Ip HostPattern Dns Sni Watchlist.

Module EgressRule.

Inductive FlowTransport := Tcp | Udp | Icmp.
Inductive RuleAction := Allow | Deny | Redirect.
Record PortRange := MkPorts { start : Z; end_ : Z }.
Record EgressRule := MkRule {
  transport : option FlowTransport;
  cidr : option bytes;
  ports : option PortRange;
  action : RuleAction;
}.

#[global] Instance FlowTransport_eq_dec : EqDecision FlowTransport.
Proof. solve_decision. Defined.
#[global] Instance RuleAction_eq_dec : EqDecision RuleAction.
Proof. solve_decision. Defined.

End EgressRule.

Module Egress.
Import Str Ip EgressRule.

Definition SECOND : Z := 1000000000.
Definition MIN_LEARNED_TTL : Z := 60.
Definition MAX_LEARNED_TTL : Z := 3600.

(** [Option::is_none_or] and [Option::is_some_and]. *)
Definition is_none_or {A} (o : option A) (f : A -> bool) : bool :=
  match o with None => true | Some x => f x end.
Definition is_some_and {A} (o : option A) (f : A -> bool) : bool :=
  match o with None => false | Some x => f x end.

(** ** Allow lists *)

Record Rules := MkRules {
  cidrs : list Cidr.Cidr;
  allowed_hosts : option (list bytes);
}.

Definition rules_build (allowed_cidrs allowed_hosts : option (list bytes)) : Rules :=
  MkRules (omap (M := list) Cidr.parse (default [] allowed_cidrs))
          (option_map (omap (M := list) Dns.normalize_hostname) allowed_hosts).

Definition rules_hostname_allowed (r : Rules) (hostname : bytes) : bool :=
  match allowed_hosts r with
  | None => true
  | Some hosts => Dns.hostname_allowed hostname hosts
  end.

Record Learned := MkLearned { expires_at : Z; lname : option bytes }.
Record AllowList := MkAllowList { al_rules : Rules; learned : gmap IpAddr Learned }.

(** ** The rendered allow list *)

Definition render_line (kind value : bytes) : bytes := kind ++ trim value ++ [10].
Definition render_live_policy (cidrs hosts : list bytes) : bytes :=
  bs "# smolvm egress allow list" ++ [10]
  ++ concat (map (render_line (bs "cidr ")) cidrs)
  ++ concat (map (render_line (bs "host ")) hosts).

Record CompiledRule := MkCompiled {
  c_transport : option FlowTransport;
  c_cidr : option Cidr.Cidr;
  c_ports : option PortRange;
  c_action : RuleAction;
  reopens_private : bool;
}.

Inductive PolicyError :=
| NotUtf8
| InvalidRules (line : Z)
| ExpectedEntry (line : Z)
| RuleInvalidCidr (index : Z)
| RuleInvalidPorts (index : Z)
| RuleRedirectNeedsTcp (index : Z)
| NoAllowList
| AllowPrivateInvalidCidr (spec : bytes).

Record LivePolicy := MkLive { allow_list : Rules; live_rules : option (list CompiledRule) }.

Definition compile_rule (index : Z) (rule : EgressRule) : result CompiledRule PolicyError :=
  let? cidr :=
    match cidr rule with
    | Some spec =>
        let? c := ok_or (Cidr.parse spec) (RuleInvalidCidr index) in Ok (Some c)
    | None => Ok None
    end in
  if is_some_and (ports rule) (fun p =>
       (start p =? 0) || (end_ p <? start p) || bool_decide (transport rule = Some Icmp))
  then Err (RuleInvalidPorts index)
  else if bool_decide (action rule = Redirect) && bool_decide (transport rule <> Some Tcp)
  then Err (RuleRedirectNeedsTcp index)
  else Ok (MkCompiled (transport rule) cidr (ports rule) (action rule) false).

Fixpoint compile_rules_from (index : Z) (rules : list EgressRule) :
    result (list CompiledRule) PolicyError :=
  match rules with
  | [] => Ok []
  | rule :: rules =>
      let? c := compile_rule index rule in
      let? cs := compile_rules_from (index + 1) rules in
      Ok (c :: cs)
  end.
Definition compile_rules (rules : list EgressRule) : result (list CompiledRule) PolicyError :=
  compile_rules_from 0 rules.

Section Json.
(** [serde_json::from_str::<Vec<EgressRule>>] and [serde_json::to_string]. *)
Context (rules_from_json : bytes -> option (list EgressRule)).
Context (rules_to_json : list EgressRule -> option bytes).

Definition render_live_rules (rules : list EgressRule) : option bytes :=
  let! json := rules_to_json rules in Some (bs "rules " ++ json ++ [10]).

(** The loop's accumulators. *)
Record live_acc := MkAcc {
  acc_cidrs : list bytes;
  acc_hosts : list bytes;
  acc_rules : option (list CompiledRule);
}.

(** One line that is neither blank nor a comment; [index] counts from 0. *)
Definition parse_live_line (index : Z) (acc : live_acc) (line : bytes) :
    result live_acc PolicyError :=
  match split_once_ws line with
  | Some (kind, value) =>
      let value := trim value in
      if bool_decide (kind = bs "cidr") && bool_decide (is_Some (Cidr.parse value))
      then Ok (MkAcc (acc_cidrs acc ++ [value]) (acc_hosts acc) (acc_rules acc))
      else if bool_decide (kind = bs "host") && negb (is_empty value)
      then Ok (MkAcc (acc_cidrs acc) (acc_hosts acc ++ [value]) (acc_rules acc))
      else if bool_decide (kind = bs "rules") && bool_decide (acc_rules acc = None)
      then
        let? parsed := ok_or (rules_from_json value) (InvalidRules (index + 1)) in
        let? compiled := compile_rules parsed in
        Ok (MkAcc (acc_cidrs acc) (acc_hosts acc) (Some compiled))
      else Err (ExpectedEntry (index + 1))
  | None => Err (ExpectedEntry (index + 1))
  end.

Fixpoint parse_live_lines (index : Z) (acc : live_acc) (ls : list bytes) :
    result live_acc PolicyError :=
  match ls with
  | [] => Ok acc
  | raw :: ls =>
      let line := trim raw in
      if is_empty line || starts_with (bs "#") line then parse_live_lines (index + 1) acc ls
      else
        let? acc := parse_live_line index acc line in
        parse_live_lines (index + 1) acc ls
  end.

Definition non_empty {A} (l : list A) : option (list A) :=
  match l with [] => None | _ => Some l end.

Definition parse_live_policy (text : bytes) : result LivePolicy PolicyError :=
  let? text := ok_or (from_utf8 text) NotUtf8 in
  let? acc := parse_live_lines 0 (MkAcc [] [] None) (lines text) in
  let list :=
    match acc_cidrs acc, acc_hosts acc with
    | [], [] => rules_build (Some []) (Some [])
    | cs, hs => rules_build (non_empty cs) (non_empty hs)
    end in
  Ok (MkLive list (acc_rules acc)).

End Json.

(** ** The platform floor *)

Inductive FloorMode := Off | MetadataOnly | MetadataAndLoopback | Strict | Private.

#[global] Instance FloorMode_eq_dec : EqDecision FloorMode.
Proof. solve_decision. Defined.

Definition parse_floor_override (v : bytes) : option FloorMode :=
  let v := to_ascii_lowercase (trim v) in
  if bool_decide (v = bs "strict") then Some Strict
  else if bool_decide (v = bs "metadata") || bool_decide (v = bs "metadata-only")
          || bool_decide (v = bs "metadataonly") then Some MetadataOnly
  else if bool_decide (v = bs "off") || bool_decide (v = bs "none") then Some Off
  else None.

(** The process environment; [var] also refuses a value that is not UTF-8. *)
Definition Env : Type := bytes -> option bytes.
Definition var (env : Env) (name : bytes) : option bytes :=
  let! v := env name in from_utf8 v.
Definition var_truthy (env : Env) (name : bytes) : bool :=
  is_some_and (var env name) (fun v =>
    bool_decide (v = bs "1") || eq_ignore_ascii_case v (bs "true")).

Definition floor_mode (env : Env) : FloorMode :=
  match (let! v := var env (bs "SMOLVM_EGRESS_FLOOR") in parse_floor_override v) with
  | Some mode => mode
  | None =>
      if var_truthy env (bs "SMOLVM_EGRESS_ALLOW_PRIVATE") then Off
      else if bool_decide (is_Some (env (bs "SMOLVM_PUBLISH_ADDR"))) then Strict
      else if var_truthy env (bs "SMOLVM_ALLOW_HOST_LOOPBACK") then MetadataOnly
      else MetadataAndLoopback
  end.

Definition is_link_local (ip : IpAddr) : bool :=
  match ip with
  | V4 v4 => v4_is_link_local v4
  | V6 v6 =>
      (Z.land (segment v6 0) 0xffc0 =? 0xfe80)
      || is_some_and (to_ipv4_mapped v6) v4_is_link_local
  end.

Definition v4_loopback_or_unspecified (v4 : Z) : bool :=
  v4_is_loopback v4 || v4_is_unspecified v4.
Definition is_host_loopback (ip : IpAddr) : bool :=
  match ip with
  | V4 v4 => v4_loopback_or_unspecified v4
  | V6 v6 =>
      v6_is_loopback v6 || v6_is_unspecified v6
      || is_some_and (to_ipv4_mapped v6) v4_loopback_or_unspecified
  end.

Definition is_reserved_v4 (v4 : Z) : bool :=
  v4_is_loopback v4 || v4_is_link_local v4 || v4_is_private v4 || v4_is_unspecified v4
  || v4_is_broadcast v4
  || ((octet v4 0 =? 100) && (64 <=? octet v4 1) && (octet v4 1 <=? 127)).

Definition is_floored (ip : IpAddr) (mode : FloorMode) : bool :=
  match mode with
  | Off => false
  | MetadataOnly => is_link_local ip
  | MetadataAndLoopback => is_link_local ip || is_host_loopback ip
  | Strict | Private =>
      match ip with
      | V4 v4 => is_reserved_v4 v4
      | V6 v6 =>
          v6_is_loopback v6 || v6_is_unspecified v6
          || (Z.land (segment v6 0) 0xffc0 =? 0xfe80)
          || (Z.land (segment v6 0) 0xfe00 =? 0xfc00)
          || is_some_and (to_ipv4_mapped v6) is_reserved_v4
      end
  end.

(** ** Policies and the memory their clones share *)

Record DecisionLog := MkDecisionLog {
  log_path : bytes;
  machine_id : bytes;
  parent_id : bytes;
}.

(** One record of the structured decision log, its timestamp left out. *)
Record DecisionEvent := MkDecision {
  d_log : DecisionLog;
  d_transport : bytes;
  d_action : bytes;
  d_destination : bytes;
  d_reason : bytes;
}.

Record EgressPolicy := MkPolicy {
  inner : option nat;
  rules : nat;
  floor : FloorMode;
  denial_log : option bytes;
  watchlist : option nat;
  signal_log : option bytes;
  decision_log : option DecisionLog;
}.

(** [allow_lists], [rule_lists] and [sources] are the targets of the [Arc]s;
    [audit] and [decisions] are the lines the audit files have received, in
    order ([audit] pairs a line with its file). *)
Record Store := MkStore {
  allow_lists : gmap nat AllowList;
  rule_lists : gmap nat (list CompiledRule);
  sources : gmap nat Watchlist.SourceState;
  audit : list (bytes * bytes);
  decisions : list DecisionEvent;
}.

Definition empty_store : Store := MkStore ∅ ∅ ∅ [] [].
Definition empty_rules : Rules := MkRules [] None.
Definition empty_list : AllowList := MkAllowList empty_rules ∅.

Definition list_at (s : Store) (l : nat) : AllowList := default empty_list (allow_lists s !! l).
Definition compiled_rules (s : Store) (p : EgressPolicy) : list CompiledRule :=
  default [] (rule_lists s !! rules p).

Definition set_list (l : nat) (a : AllowList) (s : Store) : Store :=
  MkStore (<[l := a]> (allow_lists s)) (rule_lists s) (sources s) (audit s) (decisions s).
Definition set_rules (l : nat) (r : list CompiledRule) (s : Store) : Store :=
  MkStore (allow_lists s) (<[l := r]> (rule_lists s)) (sources s) (audit s) (decisions s).
Definition set_source (l : nat) (w : Watchlist.SourceState) (s : Store) : Store :=
  MkStore (allow_lists s) (rule_lists s) (<[l := w]> (sources s)) (audit s) (decisions s).

(** [Arc::new]: a location nothing points to yet. *)
Definition new_list (a : AllowList) (s : Store) : nat * Store :=
  let l := fresh (dom (D := gset nat) (allow_lists s)) in (l, set_list l a s).
Definition new_rules (r : list CompiledRule) (s : Store) : nat * Store :=
  let l := fresh (dom (D := gset nat) (rule_lists s)) in (l, set_rules l r s).
Definition new_source (w : Watchlist.SourceState) (s : Store) : nat * Store :=
  let l := fresh (dom (D := gset nat) (sources s)) in (l, set_source l w s).

(** ** Construction *)

Definition unrestricted (env : Env) (s : Store) : EgressPolicy * Store :=
  let (r, s) := new_rules [] s in
  (MkPolicy None r (floor_mode env) None None None None, s).

Definition new (env : Env) (allowed_cidrs allowed_hosts : option (list bytes)) (s : Store) :
    EgressPolicy * Store :=
  if bool_decide (allowed_cidrs = None) && bool_decide (allowed_hosts = None)
  then unrestricted env s
  else
    let (l, s) := new_list (MkAllowList (rules_build allowed_cidrs allowed_hosts) ∅) s in
    let (r, s) := new_rules [] s in
    (MkPolicy (Some l) r (floor_mode env) None None None None, s).

Definition deny_all (env : Env) (s : Store) : EgressPolicy * Store := new env (Some []) (Some []) s.
Definition from_allowed_cidrs (env : Env) (allowed : option (list bytes)) (s : Store) :=
  new env allowed None s.

Definition with_denial_log (path : bytes) (p : EgressPolicy) : EgressPolicy :=
  MkPolicy (inner p) (rules p) (floor p) (Some path) (watchlist p) (signal_log p) (decision_log p).
Definition with_mediation_audit (path mid pid : bytes) (p : EgressPolicy) : EgressPolicy :=
  MkPolicy (inner p) (rules p) (floor p) (denial_log p) (watchlist p) (signal_log p)
    (Some (MkDecisionLog path mid pid)).
(** [f] is what the host finds at the watchlist's path. *)
Definition with_watchlist (f : Watchlist.FileView) (now : Z) (signals : bytes)
    (p : EgressPolicy) (s : Store) : EgressPolicy * Store :=
  match Watchlist.open f now with
  | Some w =>
      let (l, s) := new_source w s in
      (MkPolicy (inner p) (rules p) (floor p) (denial_log p) (Some l) (Some signals)
         (decision_log p), s)
  | None =>
      (MkPolicy (inner p) (rules p) (floor p) (denial_log p) None (Some signals)
         (decision_log p), s)
  end.
Definition watching (p : EgressPolicy) : bool := bool_decide (is_Some (watchlist p)).

Definition with_rules (rs : list EgressRule) (p : EgressPolicy) (s : Store) :
    result (EgressPolicy * Store) PolicyError :=
  let? cs := compile_rules rs in
  let (r, s) := new_rules cs s in
  Ok (MkPolicy (inner p) r (floor p) (denial_log p) (watchlist p) (signal_log p)
        (decision_log p), s).

(** The rules [with_private_floor] pushes. *)
Fixpoint private_exceptions (exceptions : list bytes) : result (list CompiledRule) PolicyError :=
  match exceptions with
  | [] => Ok []
  | spec :: rest =>
      let? c := ok_or (Cidr.parse spec) (AllowPrivateInvalidCidr spec) in
      let? cs := private_exceptions rest in
      Ok (MkCompiled None (Some c) None Allow true :: cs)
  end.
Definition with_private_floor (exceptions : list bytes) (p : EgressPolicy) (s : Store) :
    result (EgressPolicy * Store) PolicyError :=
  let? pushed := private_exceptions exceptions in
  let (r, s) := new_rules (compiled_rules s p ++ pushed) s in
  let floor := if bool_decide (floor p <> Strict) then Private else floor p in
  Ok (MkPolicy (inner p) r floor (denial_log p) (watchlist p) (signal_log p)
        (decision_log p), s).

Definition deny_all_datagrams (p : EgressPolicy) (s : Store) : EgressPolicy * Store :=
  let (l, s) := new_list (MkAllowList (MkRules [] None) ∅) s in
  (MkPolicy (Some l) (rules p) (floor p) (denial_log p) (watchlist p) (signal_log p)
     (decision_log p), s).

(** ** The decision on one flow *)

Definition mapped_of (ip : IpAddr) : option IpAddr :=
  match ip with
  | V6 v6 => V4 <$> to_ipv4_mapped v6
  | V4 _ => None
  end.

(** The closure [matches] of [rule_action]. *)
Definition rule_matches (tr : FlowTransport) (ip : IpAddr) (port : option Z)
    (rule : CompiledRule) : bool :=
  is_none_or (c_transport rule) (fun v => bool_decide (v = tr))
  && is_none_or (c_cidr rule) (fun c =>
       Cidr.contains c ip || is_some_and (mapped_of ip) (Cidr.contains c))
  && is_none_or (c_ports rule) (fun ps =>
       is_some_and port (fun p => (start ps <=? p) && (p <=? end_ ps))).

Definition rule_action (s : Store) (p : EgressPolicy) (tr : FlowTransport) (ip : IpAddr)
    (port : option Z) : option RuleAction :=
  let rs := compiled_rules s p in
  let! first := List.find (rule_matches tr ip port) rs in
  if negb (is_floored ip (floor p)) then Some (c_action first)
  else if bool_decide (floor p = Private) then
    let reopened :=
      bool_decide (c_action first = Allow) && negb (is_link_local ip)
      && (reopens_private first
          || bool_decide (c_transport first <> Some Udp)
          || existsb (rule_matches tr ip port) (List.filter reopens_private rs)) in
    Some (if reopened then Allow else Deny)
  else if bool_decide (floor p <> Strict) && is_host_loopback ip
          && bool_decide (c_action first = Allow)
  then Some (c_action first)
  else Some Deny.

Definition static_allowed (a : AllowList) (ip : IpAddr) : bool :=
  existsb (fun c => Cidr.contains c ip) (cidrs (al_rules a)).

Definition allows (now : Z) (s : Store) (p : EgressPolicy) (ip : IpAddr) : bool :=
  if is_floored ip (floor p) then
    if bool_decide (floor p <> Strict) && is_host_loopback ip
    then is_some_and (inner p) (fun l => static_allowed (list_at s l) ip)
    else false
  else
    match inner p with
    | None => true
    | Some l =>
        if static_allowed (list_at s l) ip then true
        else is_some_and (learned (list_at s l) !! ip) (fun e => expires_at e >? now)
    end.

Definition allows_flow (now : Z) (s : Store) (p : EgressPolicy) (tr : FlowTransport)
    (ip : IpAddr) (port : option Z) : bool :=
  match rule_action s p tr ip port with
  | Some Allow | Some Redirect => true
  | Some Deny => false
  | None => allows now s p ip
  end.

Definition is_restricted (s : Store) (p : EgressPolicy) : bool :=
  bool_decide (is_Some (inner p)) || negb (match compiled_rules s p with [] => true | _ => false end).
Definition dns_filter_active (s : Store) (p : EgressPolicy) : bool :=
  is_some_and (inner p) (fun l => bool_decide (is_Some (allowed_hosts (al_rules (list_at s l))))).

(** ** Audit records *)

(** [io_ok]: whether rotating, opening and writing the file succeed. *)
Definition record_decision (io_ok : bool) (transport action destination reason : bytes)
    (p : EgressPolicy) (s : Store) : result unit unit * Store :=
  match decision_log p with
  | None => (Ok tt, s)
  | Some log =>
      if io_ok then
        (Ok tt, MkStore (allow_lists s) (rule_lists s) (sources s) (audit s)
                  (decisions s ++ [MkDecision log transport action destination reason]))
      else (Err tt, s)
  end.

Definition append_audit_line (path message : bytes) (s : Store) : Store :=
  MkStore (allow_lists s) (rule_lists s) (sources s) (audit s ++ [(path, message)]) (decisions s).

Definition record_denial (io_ok : bool) (operation dest : bytes) (p : EgressPolicy) (s : Store) :
    Store :=
  let transport :=
    if bool_decide (operation = bs "connect") then bs "tcp"
    else if bool_decide (operation = bs "sendto") then bs "udp"
    else if bool_decide (operation = bs "icmp") then bs "icmp"
    else if bool_decide (operation = bs "resolve") then bs "dns"
    else bs "unknown" in
  let s := (record_decision io_ok transport (bs "deny") dest (bs "local_policy") p s).2 in
  match denial_log p with
  | Some path =>
      append_audit_line path (bs "egress policy denied " ++ operation ++ bs " " ++ dest) s
  | None => s
  end.

Definition record_signal (label dest : bytes) (p : EgressPolicy) (s : Store) : Store :=
  match signal_log p with
  | Some path => append_audit_line path (bs "egress watch " ++ label ++ bs " " ++ dest) s
  | None => s
  end.

Definition hostname_allowed (io_ok : bool) (hostname : bytes) (p : EgressPolicy) (s : Store) :
    bool * Store :=
  let allowed :=
    match inner p with
    | None => true
    | Some l => rules_hostname_allowed (al_rules (list_at s l)) hostname
    end in
  if allowed then
    let (r, s) := record_decision io_ok (bs "dns") (bs "allow") hostname (bs "local_policy") p s in
    (is_ok r, s)
  else (false, s).

(** [SocketAddr::to_string]. *)
Definition socket_to_string (ip : IpAddr) (port : Z) : bytes :=
  match ip with
  | V4 _ => Ip.to_string ip ++ bs ":" ++ dec port
  | V6 _ => bs "[" ++ Ip.to_string ip ++ bs "]:" ++ dec port
  end.

Definition STRATUM_SIGNAL : bytes := bs "stratum".

Section Observe.
Context (sha256 : bytes -> bytes).

(** A verdict of the watchlist, recorded as [label] on [dest]. *)
Definition note (l : nat) (dest : bytes) (v : Watchlist.Verdict * Watchlist.SourceState)
    (p : EgressPolicy) (s : Store) : bool * Store :=
  let (verdict, w) := v in
  let s := set_source l w s in
  let s :=
    match Watchlist.record verdict with
    | Some label => record_signal label dest p s
    | None => s
    end in
  (Watchlist.vblock verdict, s).

Definition observe_dns (f : Watchlist.FileView) (now : Z) (name : bytes) (p : EgressPolicy)
    (s : Store) : bool * Store :=
  match watchlist p with
  | None => (false, s)
  | Some l =>
      match sources s !! l with
      | None => (false, s)
      | Some w => note l name (Watchlist.observe_dns sha256 name f now w) p s
      end
  end.

Definition observe_destination (f : Watchlist.FileView) (now : Z) (ip : IpAddr) (port : Z)
    (p : EgressPolicy) (s : Store) : bool * Store :=
  match watchlist p with
  | None => (false, s)
  | Some l =>
      match sources s !! l with
      | None => (false, s)
      | Some w =>
          let dest := socket_to_string ip port in
          note l dest (Watchlist.observe_ip sha256 ip dest f now w) p s
      end
  end.

Definition observe_opening (f : Watchlist.FileView) (now : Z) (ip : IpAddr) (port : Z)
    (opening : Opening.Opening) (p : EgressPolicy) (s : Store) : bool * Store :=
  match opening with
  | Opening.Stratum _ => (false, record_signal STRATUM_SIGNAL (socket_to_string ip port) p s)
  | Opening.OpenServerName name => observe_dns f now name p s
  | Opening.Other => (false, s)
  end.
End Observe.

(** ** Learning and replacing *)

Definition clamp (lo hi v : Z) : Z := if v <? lo then lo else if hi <? v then hi else v.

Definition learn_record (now : Z) (name : option bytes) (m : gmap IpAddr Learned)
    (r : IpAddr * Z) : gmap IpAddr Learned :=
  let expires := now + clamp MIN_LEARNED_TTL MAX_LEARNED_TTL r.2 * SECOND in
  match m !! r.1 with
  | None => <[r.1 := MkLearned expires name]> m
  | Some entry =>
      if expires >=? expires_at entry then <[r.1 := MkLearned expires name]> m else m
  end.

Definition learn_into (now : Z) (name : option bytes) (records : list (IpAddr * Z))
    (m : gmap IpAddr Learned) : gmap IpAddr Learned :=
  foldl (learn_record now name) (filter (fun kv => expires_at kv.2 > now) m) records.

Definition learn (now : Z) (name : option bytes) (records : list (IpAddr * Z))
    (p : EgressPolicy) (s : Store) : Store :=
  match inner p with
  | None => s
  | Some l =>
      let a := list_at s l in
      set_list l (MkAllowList (al_rules a) (learn_into now name records (learned a))) s
  end.

Definition learn_ip_records (now : Z) (records : list (IpAddr * Z)) (p : EgressPolicy)
    (s : Store) : Store := learn now None records p s.

Definition answer_name (answer : bytes) : option bytes :=
  let! n := Dns.question_name answer in Dns.normalize_hostname n.

(** The check [learn_dns_answer] makes before it learns. *)
Definition learn_admitted (answer : bytes) (p : EgressPolicy) (s : Store) : bool :=
  match inner p, answer_name answer with
  | Some l, Some name => rules_hostname_allowed (al_rules (list_at s l)) name
  | _, _ => true
  end.

Definition learn_dns_answer (now : Z) (answer : bytes) (p : EgressPolicy) (s : Store) : Store :=
  if negb (learn_admitted answer p s) then s
  else learn now (answer_name answer) (Dns.answer_ip_records answer) p s.

(** The three writes of [replace_allow_list], each under its own lock. *)
Definition replace_rules (live : LivePolicy) (p : EgressPolicy) (s : Store) : Store :=
  match live_rules live with
  | Some rs => set_rules (rules p) (rs ++ List.filter reopens_private (compiled_rules s p)) s
  | None => s
  end.
Definition still_allowed (r : Rules) (e : Learned) : bool :=
  is_none_or (lname e) (rules_hostname_allowed r).
Definition replace_forget (next : Rules) (l : nat) (s : Store) : Store :=
  let a := list_at s l in
  set_list l (MkAllowList (al_rules a)
    (filter (fun kv => still_allowed next kv.2 = true) (learned a))) s.
Definition replace_publish (next : Rules) (l : nat) (s : Store) : Store :=
  set_list l (MkAllowList next (learned (list_at s l))) s.

Definition replace_allow_list (rules_from_json : bytes -> option (list EgressRule))
    (rendered : bytes) (p : EgressPolicy) (s : Store) : result Store PolicyError :=
  match inner p with
  | None => Err NoAllowList
  | Some l =>
      let? live := parse_live_policy rules_from_json rendered in
      let s := replace_rules live p s in
      let s := replace_forget (allow_list live) l s in
      Ok (replace_publish (allow_list live) l s)
  end.

End Egress.
