(* ===== verification/EgressFloor.v ===== *)
(** * EgressFloor: what no policy can open
    (crates/smolvm-network/src/egress.rs)

    The platform floor against every way a destination can be admitted: rules,
    static ranges, learned addresses, and the IPv4-mapped spelling of an IPv4
    address. *)

From S2P Require Import Prelude RustStr Ip HostPattern Dns Sni Watchlist Egress.

Module FloorFacts.
Import Str Ip EgressRule Egress.

(** ** The classes the floor is made of *)

Lemma link_local_not_loopback ip : is_link_local ip = true -> is_host_loopback ip = false.
Proof.
  assert (V : forall a, v4_is_link_local a = true -> v4_loopback_or_unspecified a = false).
  { intros a. unfold v4_is_link_local, v4_loopback_or_unspecified, v4_is_loopback,
      v4_is_unspecified. intros H. bool_simpl.
    apply orb_false_iff. split; apply Z.eqb_neq; [lia|]. intros ->. by vm_compute in H. }
  destruct ip as [a|a]; cbn [is_link_local is_host_loopback]; [apply V|].
  intros H. apply orb_false_iff. rewrite orb_false_iff.
  destruct (to_ipv4_mapped a) as [v|] eqn:Em; cbn [is_some_and] in *.
  - apply mapped_segment0 in Em as E0. rewrite E0 in H. cbn [is_some_and] in H.
    change (Z.land 0 65472 =? 65152) with false in H. rewrite orb_false_l in H.
    apply mapped_inv in Em as [-> [? ?]]. unfold to_ipv6_mapped, v6_is_loopback, v6_is_unspecified.
    repeat split; [apply Z.eqb_neq; lia..|by apply V].
  - rewrite orb_false_r in H. unfold v6_is_loopback, v6_is_unspecified.
    repeat split; apply Z.eqb_neq; intros ->; by vm_compute in H.
Qed.

Lemma reserved_link_local a : v4_is_link_local a = true -> is_reserved_v4 a = true.
Proof. intros H. unfold is_reserved_v4. by rewrite H, orb_true_r. Qed.

(** Link-local is floored in every mode but [Off]. *)
Lemma link_local_floored ip m :
  m <> Off -> is_link_local ip = true -> is_floored ip m = true.
Proof.
  intros Hm H. destruct m; try done; cbn [is_floored]; try by rewrite H.
  all: destruct ip as [a|a]; cbn [is_link_local] in H; [by apply reserved_link_local|];
    bool_simpl; destruct H as [H|H];
    [apply Z.eqb_eq in H; rewrite H, Z.eqb_refl; by rewrite ?orb_true_r|];
    destruct (to_ipv4_mapped a); [|done]; cbn [is_some_and] in *;
    rewrite reserved_link_local by done; apply orb_true_r.
Qed.

Lemma loopback_reserved ip m :
  m = Strict \/ m = Private -> is_host_loopback ip = true -> is_floored ip m = true.
Proof.
  assert (V : forall a, v4_loopback_or_unspecified a = true -> is_reserved_v4 a = true).
  { intros a. unfold v4_loopback_or_unspecified, is_reserved_v4. intros H.
    apply orb_true_iff in H as [H|H]; rewrite H; [done|]. by rewrite !orb_true_r. }
  intros Hm H. assert (is_floored ip Strict = true) as G.
  { destruct ip as [a|a]; cbn [is_floored is_host_loopback] in *; [by apply V|].
    destruct (v6_is_loopback a); [done|]. destruct (v6_is_unspecified a); [done|].
    rewrite !orb_false_l in *.
    destruct (to_ipv4_mapped a); [|done]. cbn [is_some_and] in *.
    rewrite V by done. apply orb_true_r. }
  by destruct Hm as [-> | ->].
Qed.

(** The modes are ordered: each floors what the weaker ones do. *)
Lemma floor_monotone ip :
  (is_floored ip MetadataOnly = true -> is_floored ip MetadataAndLoopback = true)
  /\ (is_floored ip MetadataAndLoopback = true -> is_floored ip Strict = true)
  /\ is_floored ip Private = is_floored ip Strict.
Proof.
  split; [intros H; cbn [is_floored] in *; by rewrite H|]. split; [|done].
  change (is_link_local ip || is_host_loopback ip = true -> is_floored ip Strict = true).
  intros H. bool_simpl. destruct H as [H|H]; [by apply link_local_floored|].
  apply loopback_reserved; auto.
Qed.

(** ** The IPv4-mapped spelling *)

Section Mapped.
Context (a : Z) (Ha : is_uint 32 a).

Lemma mapped_link_local : is_link_local (V6 (to_ipv6_mapped a)) = is_link_local (V4 a).
Proof.
  cbn [is_link_local]. rewrite mapped_roundtrip by done.
  rewrite (mapped_segment0 _ a) by by apply mapped_roundtrip. done.
Qed.

Lemma mapped_not_special :
  v6_is_loopback (to_ipv6_mapped a) = false /\ v6_is_unspecified (to_ipv6_mapped a) = false.
Proof.
  destruct Ha. unfold v6_is_loopback, v6_is_unspecified, to_ipv6_mapped.
  split; apply Z.eqb_neq; lia.
Qed.

Lemma mapped_loopback : is_host_loopback (V6 (to_ipv6_mapped a)) = is_host_loopback (V4 a).
Proof.
  cbn [is_host_loopback]. destruct mapped_not_special as [-> ->]. by rewrite mapped_roundtrip.
Qed.

Lemma mapped_floored m : is_floored (V6 (to_ipv6_mapped a)) m = is_floored (V4 a) m.
Proof.
  destruct m; [done|apply mapped_link_local| | |];
    cbn [is_floored]; rewrite ?mapped_link_local, ?mapped_loopback; try done.
  all: destruct mapped_not_special as [-> ->]; rewrite mapped_roundtrip by done;
    rewrite (mapped_segment0 _ a) by (by apply mapped_roundtrip); done.
Qed.

End Mapped.

(** A rule with no IPv6 range. *)
Definition v4_rule (r : CompiledRule) : Prop :=
  match c_cidr r with Some (Cidr.CV6 _ _) => False | _ => True end.
#[global] Instance v4_rule_dec r : Decision (v4_rule r).
Proof. unfold v4_rule. repeat case_match; apply _. Defined.

Lemma mapped_matches a tr port r :
  is_uint 32 a -> v4_rule r ->
  rule_matches tr (V6 (to_ipv6_mapped a)) port r = rule_matches tr (V4 a) port r.
Proof.
  intros Ha Hr. unfold rule_matches, v4_rule in *. cbn [mapped_of].
  rewrite mapped_roundtrip by done. cbn [fmap option_fmap option_map is_some_and].
  destruct (c_cidr r) as [[n m|n m]|]; [|done..]. cbn [is_none_or Cidr.contains].
  by rewrite orb_false_l, orb_false_r.
Qed.

Lemma find_ext {A} (f g : A -> bool) l :
  Forall (fun x => f x = g x) l -> List.find f l = List.find g l.
Proof. induction 1 as [|x l H _ IH]; [done|]. simpl. by rewrite H, IH. Qed.

Lemma existsb_filter_ext {A} (f g h : A -> bool) l :
  Forall (fun x => f x = g x) l -> existsb f (List.filter h l) = existsb g (List.filter h l).
Proof.
  induction 1 as [|x l H _ IH]; [done|]. simpl. destruct (h x); simpl; by rewrite ?H, IH.
Qed.

(** ** Decisions on a floored destination *)

(** The metadata range and, under [Strict], every reserved range. *)
Definition closed (p : EgressPolicy) (ip : IpAddr) : Prop :=
  (floor p <> Off /\ is_link_local ip = true)
  \/ (floor p = Strict /\ is_floored ip Strict = true).

Lemma closed_floored p ip : closed p ip -> is_floored ip (floor p) = true.
Proof. intros [[? ?]|[-> ?]]; [by apply link_local_floored|done]. Qed.

Lemma closed_no_loopback p ip :
  closed p ip -> bool_decide (floor p <> Strict) && is_host_loopback ip = false.
Proof.
  intros [[? H]|[-> ?]]; [by rewrite link_local_not_loopback, andb_false_r|done].
Qed.

Lemma closed_allows now s p ip : closed p ip -> allows now s p ip = false.
Proof.
  intros H. unfold allows. by rewrite closed_floored, closed_no_loopback.
Qed.

Lemma closed_rule_action s p tr ip port act :
  closed p ip -> rule_action s p tr ip port = Some act -> act = Deny.
Proof.
  intros H. unfold rule_action.
  destruct (List.find _ _) as [r|]; cbn [mbind option_bind]; [|done].
  rewrite closed_floored, closed_no_loopback by done. cbn [negb andb].
  case_bool_decide as Hp; [|by intros [= <-]].
  destruct H as [[_ H]|[H _]]; [|congruence].
  rewrite H. cbn [negb]. rewrite andb_false_r. by intros [= <-].
Qed.

Lemma closed_allows_flow now s p tr ip port :
  closed p ip -> allows_flow now s p tr ip port = false.
Proof.
  intros H. unfold allows_flow. destruct (rule_action _ _ _ _ _) as [act|] eqn:E.
  - by apply closed_rule_action in E as ->.
  - by apply closed_allows.
Qed.

End FloorFacts.

Module FloorProps.
Import Str Ip EgressRule Egress FloorFacts.

(** C1: Whatever the rules, the allow list and the addresses learned, and
    whatever the transport and port, a flow to the cloud-metadata range is
    refused in every mode but [Off], and under [Strict] so is a flow to any
    reserved range. The modes are nested, [Private] floors what [Strict] does,
    and asking for the private floor never weakens [Strict] or lifts the
    metadata range. *)
Theorem floor_absolute now s p tr ip port exceptions p' s' :
  (floor p <> Off /\ is_link_local ip = true) \/ (floor p = Strict /\ is_floored ip Strict = true) ->
  with_private_floor exceptions p s = Ok (p', s') ->
  allows_flow now s p tr ip port = false
  /\ rule_action s p tr ip port <> Some Allow
  /\ rule_action s p tr ip port <> Some Redirect
  /\ (floor p' = Strict <-> floor p = Strict)
  /\ allows_flow now s' p' tr ip port = false
  /\ (is_floored ip MetadataAndLoopback = true -> is_floored ip Private = true).
Proof.
  intros Hc Hw. change (closed p ip) in Hc.
  split; [by apply closed_allows_flow|].
  split; [intros E; by apply closed_rule_action in E|].
  split; [intros E; by apply closed_rule_action in E|].
  assert (Hfl : floor p' = if bool_decide (floor p <> Strict) then Private else floor p).
  { unfold with_private_floor in Hw. destruct (private_exceptions exceptions); [|done].
    cbn [result_bind] in Hw. by inv Hw. }
  assert (floor p' = Strict <-> floor p = Strict) as Hs.
  { rewrite Hfl. destruct (decide (floor p = Strict)) as [E|E].
    - by rewrite E.
    - by rewrite bool_decide_true. }
  split; [done|]. split; [|apply floor_monotone].
  apply closed_allows_flow. unfold closed. rewrite Hs, Hfl.
  destruct Hc as [[H1 H2]|[H1 H2]]; [|by right]. left. split; [|done]. by case_bool_decide.
Qed.

(** Addresses used below. *)
Definition metadata_ip : IpAddr := V4 (from_be [169; 254; 169; 254]).
Definition loopback_ip : IpAddr := V4 (from_be [127; 0; 0; 1]).
Definition allow_everything : CompiledRule := MkCompiled None None None Allow false.
Definition open_store : Store :=
  MkStore ∅ {[0%nat := [allow_everything]]} ∅ [] [].
Definition open_policy (m : FloorMode) : EgressPolicy := MkPolicy None 0 m None None None None.

Lemma floor_absolute_witness :
  allows_flow 0 open_store (open_policy MetadataOnly) Tcp metadata_ip (Some 80) = false.
Proof.
  destruct (with_private_floor [bs "0.0.0.0/0"] (open_policy MetadataOnly) open_store)
    as [[p' s']|] eqn:E; [|by vm_compute in E].
  refine (proj1 (floor_absolute _ _ _ _ _ _ _ _ _ _ E)). left. by vm_compute.
Defined.

(** An IPv4-mapped IPv6 address is the same destination as its IPv4 form:
    it is floored in the same modes, and rules with IPv4 ranges decide on both
    alike, so neither a deny nor the floor is bypassed by the other spelling. *)
Theorem mapped_spelling s p tr a port :
  is_uint 32 a -> Forall v4_rule (compiled_rules s p) ->
  (forall m, is_floored (V6 (to_ipv6_mapped a)) m = is_floored (V4 a) m)
  /\ rule_action s p tr (V6 (to_ipv6_mapped a)) port = rule_action s p tr (V4 a) port.
Proof.
  intros Ha Hr. split; [by apply mapped_floored|].
  unfold rule_action. rewrite mapped_floored, mapped_loopback, mapped_link_local by done.
  assert (Forall (fun r => rule_matches tr (V6 (to_ipv6_mapped a)) port r
                           = rule_matches tr (V4 a) port r) (compiled_rules s p)) as Hm.
  { eapply Forall_impl; [exact Hr|]. intros r. by apply mapped_matches. }
  rewrite (find_ext _ _ _ Hm). by rewrite (existsb_filter_ext _ _ _ _ Hm).
Qed.

Definition deny_10 : CompiledRule :=
  MkCompiled None (Some (Cidr.CV4 (from_be [10; 0; 0; 0]) (Cidr.mask_of 32 8))) None Deny false.

Lemma mapped_spelling_witness :
  rule_action (MkStore ∅ {[0%nat := [deny_10]]} ∅ [] []) (open_policy Off) Udp
    (V6 (to_ipv6_mapped (from_be [10; 1; 2; 3]))) None = Some Deny.
Proof.
  destruct (mapped_spelling (MkStore ∅ {[0%nat := [deny_10]]} ∅ [] []) (open_policy Off) Udp
    (from_be [10; 1; 2; 3]) None) as [_ H].
  - by vm_compute.
  - apply (bool_decide_unpack _). by vm_compute.
  - rewrite H. by vm_compute.
Defined.

(** Under the private floor a flow to a reserved destination is admitted in
    two ways only: the destination is not link-local and the first rule that
    matches allows it, where a UDP rule counts only if an [--allow-private]
    exception covers the destination too; or no rule matches and the host
    loopback is in a static range of the allow list. *)
Theorem private_floor_reopened now s p tr ip port :
  floor p = Private -> is_floored ip Private = true ->
  allows_flow now s p tr ip port = true <->
    (exists r, List.find (rule_matches tr ip port) (compiled_rules s p) = Some r
       /\ c_action r = Allow /\ is_link_local ip = false
       /\ (c_transport r <> Some Udp
           \/ exists x, x ∈ compiled_rules s p /\ reopens_private x = true
                        /\ rule_matches tr ip port x = true))
    \/ (List.find (rule_matches tr ip port) (compiled_rules s p) = None
        /\ is_host_loopback ip = true
        /\ exists l, inner p = Some l /\ static_allowed (list_at s l) ip = true).
Proof.
  intros Hp Hf. unfold allows_flow, rule_action, allows. rewrite Hp, Hf. cbn [negb].
  destruct (List.find _ _) as [r|] eqn:Er; cbn [mbind option_bind].
  - rewrite (bool_decide_true (Private = Private)) by done.
    apply List.find_some in Er as [Hin Hm].
    match goal with |- context [if ?b then Allow else Deny] => set (reopened := b) end.
    transitivity (reopened = true); [by destruct reopened|]. unfold reopened.
    rewrite !andb_true_iff, !orb_true_iff, negb_true_iff, !bool_decide_eq_true, existsb_exists.
    split.
    + intros [[Ha Hl] Hx]. left. exists r. repeat split; try done.
      destruct Hx as [[Hx|Hx]|(x & [Hx Hr]%filter_In & Hxm)]; [right|by left|right].
      * exists r. by rewrite list_elem_of_In.
      * exists x. by rewrite list_elem_of_In.
    + intros [(r' & [= <-] & Ha & Hl & Hx)|[? _]]; [|done]. split; [done|].
      destruct Hx as [Hx|(x & Hx & Hr & Hxm)]; [by left; right|]. right. exists x.
      rewrite filter_In, <-list_elem_of_In. done.
  - rewrite (bool_decide_true (Private <> Strict)) by done. cbn [andb].
    split.
    + intros H. right. split; [done|]. destruct (is_host_loopback ip); [|done]. split; [done|].
      destruct (inner p) as [l|]; [|done]. by exists l.
    + intros [(r & ? & _)|(_ & -> & l & -> & Hs)]; [done|]. exact Hs.
Qed.

Definition udp_allow_all : CompiledRule := MkCompiled (Some Udp) None None Allow false.
Definition except_10_1 : CompiledRule :=
  MkCompiled None (Some (Cidr.CV4 (from_be [10; 1; 0; 0]) (Cidr.mask_of 32 16))) None Allow true.
Definition private_store : Store :=
  MkStore ∅ {[0%nat := [udp_allow_all; except_10_1]]} ∅ [] [].

(** A UDP rule alone opens 10.1.2.3, which an exception covers. *)
Lemma private_floor_reopened_witness :
  allows_flow 0 private_store (open_policy Private) Udp (V4 (from_be [10; 1; 2; 3])) (Some 53) = true.
Proof.
  apply (private_floor_reopened 0 private_store (open_policy Private)); [done|by vm_compute|].
  left. exists udp_allow_all. split; [by vm_compute|]. split; [done|]. split; [by vm_compute|].
  right. exists except_10_1. split; [|by vm_compute].
  change (except_10_1 ∈ [udp_allow_all; except_10_1]). right. left.
Defined.

End FloorProps.
