(* ===== verification/EgressLive.v ===== *)
(** * EgressLive: replacing and learning while the machine runs
    (crates/smolvm-network/src/egress.rs)

    The rendered allow list's round trip, the effect of a replacement on every
    clone, and the invariant of the learned addresses over every interleaving of
    the lock sections of threads that replace the list and threads that learn
    answers. *)

From S2P Require Import Prelude RustStr Ip HostPattern Dns Sni Watchlist Egress.

Module LiveFacts.
Import Str Ip EgressRule Egress.

(** ** Printable text through the line parser *)

Definition printable (v : bytes) : Prop := v <> [] /\ Forall (fun b => 33 <= b <= 126) v.
#[global] Instance printable_dec v : Decision (printable v).
Proof. unfold printable. apply _. Defined.

Lemma ws_len_printable b s : 33 <= b <= 126 -> ws_len (b :: s) = 0%nat.
Proof.
  intros H. unfold ws_len. rewrite (proj2 (orb_false_iff _ _)).
  2:{ split; [apply andb_false_iff; right; apply Z.leb_gt; lia|apply Z.eqb_neq; lia]. }
  destruct b as [|b|]; try lia. do 7 (destruct b as [b|b|]; try done; try lia).
Qed.

Lemma ws_len_rev_printable b r : 33 <= b <= 126 -> ws_len_rev (b :: r) = 0%nat.
Proof.
  intros H. unfold ws_len_rev. rewrite (proj2 (orb_false_iff _ _)).
  2:{ split; [apply andb_false_iff; right; apply Z.leb_gt; lia|apply Z.eqb_neq; lia]. }
  assert (G : forall a c, (ws_len [a; b] <> 2)%nat /\ (ws_len [c; a; b] <> 3)%nat).
  { intros a c. split; unfold ws_len; repeat case_match; try done; bool_simpl; simplify_eq; lia. }
  destruct r as [|a [|c r]]; cbn [take rev app]; rewrite ?take_0; cbn [rev app].
  - by rewrite (ws_len_printable b).
  - destruct (G a 0) as [G2 _]. destruct (Nat.eqb_spec (ws_len [a; b]) 2); [done|].
    destruct (Nat.eqb_spec (ws_len [a; b]) 3) as [E|]; [|done].
    exfalso. clear G G2. revert E. unfold ws_len. repeat case_match; intros ?; done.
  - destruct (G a c) as [G2 G3].
    destruct (Nat.eqb_spec (ws_len [a; b]) 2); [done|].
    by destruct (Nat.eqb_spec (ws_len [c; a; b]) 3).
Qed.

(** Text that starts and ends with printable bytes is trimmed already. *)
Lemma trim_id x y s m :
  33 <= x <= 126 -> 33 <= y <= 126 -> s = x :: m -> last s = Some y -> trim s = s.
Proof.
  intros Hx Hy Es Hl. unfold trim.
  assert (trim_start s = s) as ->.
  { unfold trim_start. rewrite Es. cbn [length trim_start_fuel].
    by rewrite ws_len_printable. }
  apply last_Some in Hl as [s' El]. unfold trim_end.
  rewrite El, rev_unit, length_app, Nat.add_1_r. cbn [trim_end_fuel].
  rewrite ws_len_rev_printable by done. cbn [rev]. by rewrite rev_involutive.
Qed.

Lemma printable_last v : printable v -> exists y, last v = Some y /\ 33 <= y <= 126.
Proof.
  intros [Hne Hv]. destruct (last v) as [y|] eqn:E; [|by apply last_None in E].
  exists y. split; [done|]. apply last_Some in E as [v' ->].
  by apply Forall_app in Hv as [_ [? _]%Forall_cons].
Qed.

Lemma trim_printable v : printable v -> trim v = v.
Proof.
  intros H. destruct (printable_last v H) as (y & Hl & Hy).
  destruct H as [Hne Hv]. destruct v as [|x m]; [done|].
  apply Forall_cons in Hv as [Hx _].
  by apply (trim_id x y _ m).
Qed.

(** A keyword and its value, as one line. *)
Lemma entry_line_trim k v :
  printable k -> printable v -> trim (k ++ 32 :: v) = k ++ 32 :: v.
Proof.
  intros [Hk Fk] Hv. destruct (printable_last v Hv) as (y & Hl & Hy).
  destruct k as [|x k]; [done|]. apply Forall_cons in Fk as [Hx _].
  apply (trim_id x y _ (k ++ 32 :: v)); [done|done|done|].
  change (32 :: v) with ([32] ++ v). by rewrite !last_app, Hl.
Qed.

Lemma entry_line_split k v :
  Forall (fun b => 33 <= b <= 126) k -> split_once_ws (k ++ 32 :: v) = Some (k, v).
Proof.
  induction 1 as [|x k Hx _ IH]; [done|].
  cbn [app split_once_ws]. rewrite ws_len_printable by done. by rewrite IH.
Qed.

(** ** Lines *)

Definition clean (l : bytes) : Prop := Forall (fun b => 32 <= b <= 126) l.

Lemma split_line l rest : clean l -> split 10 (l ++ 10 :: rest) = l :: split 10 rest.
Proof.
  induction 1 as [|x l Hx _ IH]; [done|]. cbn [app split].
  destruct (Z.eqb_spec x 10); [lia|]. by rewrite IH.
Qed.

Lemma strip_cr_clean l : clean l -> strip_cr l = l.
Proof.
  intros H. unfold strip_cr, strip_suffix.
  assert (Hr : clean (rev l)) by by apply Forall_rev.
  destruct (rev l) as [|x r] eqn:E; [done|]. cbn [rev app strip_prefix].
  apply Forall_cons in Hr as [Hx _]. destruct (Z.eqb_spec 13 x); [lia|done].
Qed.

Lemma split_ne c s : split c s <> [].
Proof. destruct s as [|x s]; [done|]. cbn [split]. by repeat case_match. Qed.

Lemma lines_text ls :
  Forall clean ls -> lines (concat (map (fun l => l ++ [10]) ls)) = ls.
Proof.
  unfold lines. induction 1 as [|l ls Hl _ IH]; [done|].
  cbn [map concat]. rewrite <-app_assoc. cbn [app].
  rewrite split_line by done. cbn [lines_of].
  destruct (split 10 _) as [|h t] eqn:E; [by apply split_ne in E|].
  by rewrite strip_cr_clean, IH.
Qed.

Lemma utf8_ascii s : Forall (fun b => 0 <= b <= 127) s -> utf8_valid s = true.
Proof.
  induction 1 as [|x s Hx _ IH]; [done|]. cbn [utf8_valid]. unfold within.
  destruct (Z.leb_spec 0 x), (Z.leb_spec x 127); try lia. done.
Qed.

Lemma text_ascii ls :
  Forall clean ls -> Forall (fun b => 0 <= b <= 127) (concat (map (fun l => l ++ [10]) ls)).
Proof.
  induction 1 as [|l ls Hl _ IH]; [constructor|]. cbn [map concat].
  rewrite !Forall_app. split; [|done]. split; [|repeat constructor; lia].
  eapply Forall_impl; [exact Hl|]. simpl. lia.
Qed.

Lemma clean_entry k v : printable k -> printable v -> clean (k ++ 32 :: v).
Proof.
  intros [_ Hk] [_ Hv]. apply Forall_app. split; [|constructor; [lia|]].
  - eapply Forall_impl; [exact Hk|]. simpl. lia.
  - eapply Forall_impl; [exact Hv|]. simpl. lia.
Qed.

(** ** Learned addresses *)

Lemma learn_records_origin now name records m ip e :
  foldl (learn_record now name) m records !! ip = Some e ->
  m !! ip = Some e
  \/ exists ttl, (ip, ttl) ∈ records
     /\ e = MkLearned (now + clamp MIN_LEARNED_TTL MAX_LEARNED_TTL ttl * SECOND) name.
Proof.
  revert m. induction records as [|r records IH]; intros m H; [by left|].
  cbn [foldl] in H. apply IH in H as [H|(ttl & Hin & ->)];
    [|right; exists ttl; split; [by right|done]].
  assert (learn_record now name m r !! ip = m !! ip \/
          ip = r.1 /\ e = MkLearned
            (now + clamp MIN_LEARNED_TTL MAX_LEARNED_TTL r.2 * SECOND) name) as [E|[-> ->]].
  { unfold learn_record in *. destruct (decide (ip = r.1)) as [->|Hne].
    - destruct (m !! r.1) as [e0|] eqn:E0.
      + case_bool_guard; [|by left]. rewrite lookup_insert_eq in H. inv H. by right.
      + rewrite lookup_insert_eq in H. inv H. by right.
    - left. repeat case_match; by rewrite ?lookup_insert_ne by done. }
  - left. by rewrite <-E.
  - right. exists r.2. split; [|done]. destruct r. by left.
Qed.

Lemma learn_into_origin now name records m ip e :
  learn_into now name records m !! ip = Some e ->
  (m !! ip = Some e /\ expires_at e > now)
  \/ exists ttl, (ip, ttl) ∈ records
     /\ e = MkLearned (now + clamp MIN_LEARNED_TTL MAX_LEARNED_TTL ttl * SECOND) name.
Proof.
  intros [H|H]%learn_records_origin; [left|by right].
  by apply map_lookup_filter_Some in H.
Qed.

Lemma clamp_bounds lo hi v : lo <= hi -> lo <= clamp lo hi v <= hi.
Proof. intros. unfold clamp. repeat case_bool_guard; lia. Qed.

Lemma list_at_set_list l l' a s :
  list_at (set_list l a s) l' = if decide (l = l') then a else list_at s l'.
Proof.
  unfold list_at, set_list. simpl. case_decide as E; [subst|].
  - by rewrite lookup_insert_eq.
  - by rewrite lookup_insert_ne.
Qed.

Lemma list_at_replace_rules live p s l : list_at (replace_rules live p s) l = list_at s l.
Proof. unfold replace_rules. by destruct (live_rules live). Qed.

(** A successful replacement in one equation. *)
Lemma replace_list_at json rendered p s s' l :
  inner p = Some l -> replace_allow_list json rendered p s = Ok s' ->
  exists live, parse_live_policy json rendered = Ok live
  /\ list_at s' l = MkAllowList (allow_list live)
       (filter (fun kv => still_allowed (allow_list live) kv.2 = true) (learned (list_at s l))).
Proof.
  intros Hp. unfold replace_allow_list. rewrite Hp.
  destruct (parse_live_policy json rendered) as [live|]; cbn [result_bind]; [|done].
  intros [= <-]. exists live. split; [done|].
  unfold replace_publish, replace_forget.
  rewrite !list_at_set_list, !decide_True by done. by rewrite list_at_replace_rules.
Qed.

Lemma new_list_at env cs hs s p s' l :
  new env cs hs s = (p, s') -> inner p = Some l ->
  list_at s' l = MkAllowList (rules_build cs hs) ∅.
Proof.
  unfold new. case_match; [unfold unrestricted, new_rules; by intros [= <- <-]|].
  unfold new_list, new_rules. cbv zeta. intros [= <- <-] [= <-]. unfold list_at. simpl.
  by rewrite lookup_insert_eq.
Qed.

(** ** The rendered list *)

Definition entry_line (kind v : bytes) : bytes := kind ++ 32 :: v.
Definition policy_lines (cs hs : list bytes) : list bytes :=
  bs "# smolvm egress allow list"
  :: map (entry_line (bs "cidr")) cs ++ map (entry_line (bs "host")) hs.

Lemma render_entries k l :
  Forall printable l ->
  concat (map (render_line (k ++ [32])) l)
  = concat (map (fun l => l ++ [10]) (map (entry_line k) l)).
Proof.
  induction 1 as [|v l Hv _ IH]; [done|]. cbn [map concat]. rewrite IH. f_equal.
  unfold render_line, entry_line. rewrite trim_printable by done. by rewrite <-!app_assoc.
Qed.

Lemma render_policy_lines cs hs :
  Forall printable cs -> Forall printable hs ->
  render_live_policy cs hs = concat (map (fun l => l ++ [10]) (policy_lines cs hs)).
Proof.
  intros Hc Hh. unfold render_live_policy, policy_lines.
  change (bs "cidr ") with (bs "cidr" ++ [32]). change (bs "host ") with (bs "host" ++ [32]).
  rewrite !render_entries by done. cbn [map concat]. by rewrite map_app, concat_app, <-app_assoc.
Qed.

Lemma keyword_printable k : k ∈ [bs "cidr"; bs "host"; bs "rules"] -> printable k.
Proof.
  intros Hk. repeat (apply elem_of_cons in Hk as [->|Hk]); [..|by apply elem_of_nil in Hk];
    apply (bool_decide_unpack _); by vm_compute.
Qed.

Lemma entries_clean k l : printable k -> Forall printable l -> Forall clean (map (entry_line k) l).
Proof. intros Hk. induction 1; constructor; [by apply clean_entry|done]. Qed.

Lemma policy_lines_clean cs hs :
  Forall printable cs -> Forall printable hs -> Forall clean (policy_lines cs hs).
Proof.
  intros Hc Hh. constructor; [apply (bool_decide_unpack _); by vm_compute|].
  apply Forall_app. split; apply entries_clean; try done; apply keyword_printable; set_solver.
Qed.

Section Json.
Context (rules_from_json : bytes -> option (list EgressRule)).
#[local] Abbreviation parse_lines := (parse_live_lines rules_from_json).

(** An entry line is neither blank nor a comment. *)
Lemma parse_entry_line i acc k v rest :
  k ∈ [bs "cidr"; bs "host"; bs "rules"] -> printable v ->
  parse_lines i acc (entry_line k v :: rest)
  = let? acc := parse_live_line rules_from_json i acc (entry_line k v) in
    parse_lines (i + 1) acc rest.
Proof.
  intros Hk Hv. cbn [parse_live_lines]. unfold entry_line.
  rewrite entry_line_trim by (try done; by apply keyword_printable).
  repeat (apply elem_of_cons in Hk as [->|Hk]); [done..|by apply elem_of_nil in Hk].
Qed.

Lemma parse_live_line_split k v :
  k ∈ [bs "cidr"; bs "host"; bs "rules"] -> printable v ->
  split_once_ws (entry_line k v) = Some (k, v) /\ trim v = v.
Proof.
  intros Hk Hv. split; [|by apply trim_printable].
  apply entry_line_split. by apply keyword_printable.
Qed.

Lemma parse_cidr_lines cs i acc rest :
  Forall printable cs -> Forall (fun c => is_Some (Cidr.parse c)) cs ->
  parse_lines i acc (map (entry_line (bs "cidr")) cs ++ rest)
  = parse_lines (i + len cs) (MkAcc (acc_cidrs acc ++ cs) (acc_hosts acc) (acc_rules acc)) rest.
Proof.
  intros Hp. revert i acc. induction Hp as [|c cs Hc _ IH]; intros i acc Hs.
  - rewrite app_nil_r. destruct acc. by rewrite Z.add_0_r.
  - apply Forall_cons in Hs as [Hc' Hs]. cbn [map app].
    rewrite parse_entry_line by (done || set_solver). unfold parse_live_line.
    destruct (parse_live_line_split (bs "cidr") c) as [-> ->]; [set_solver|done|].
    rewrite (bool_decide_true (is_Some _)) by done.
    rewrite bool_decide_true by done. cbn [andb result_bind].
    rewrite IH by done. cbn [acc_cidrs acc_hosts acc_rules].
    rewrite <-app_assoc, len_cons. f_equal. lia.
Qed.

Lemma parse_host_lines hs i acc rest :
  Forall printable hs ->
  parse_lines i acc (map (entry_line (bs "host")) hs ++ rest)
  = parse_lines (i + len hs) (MkAcc (acc_cidrs acc) (acc_hosts acc ++ hs) (acc_rules acc)) rest.
Proof.
  intros Hp. revert i acc. induction Hp as [|h hs Hh _ IH]; intros i acc.
  - rewrite app_nil_r. destruct acc. by rewrite Z.add_0_r.
  - cbn [map app]. rewrite parse_entry_line by (done || set_solver). unfold parse_live_line.
    destruct (parse_live_line_split (bs "host") h) as [-> ->]; [set_solver|done|].
    rewrite bool_decide_false by done. cbn [andb].
    rewrite bool_decide_true by done.
    assert (is_empty h = false) as -> by (destruct Hh; by destruct h).
    cbn [andb negb result_bind]. rewrite IH. cbn [acc_cidrs acc_hosts acc_rules].
    rewrite <-app_assoc, len_cons. f_equal. lia.
Qed.

Lemma parse_rules_line i cs hs json parsed compiled :
  printable json -> rules_from_json json = Some parsed -> compile_rules parsed = Ok compiled ->
  parse_lines i (MkAcc cs hs None) [entry_line (bs "rules") json] = Ok (MkAcc cs hs (Some compiled)).
Proof.
  intros Hj Hp Hc. rewrite parse_entry_line by (done || set_solver). unfold parse_live_line.
  destruct (parse_live_line_split (bs "rules") json) as [-> ->];
    [set_solver|done|].
  rewrite bool_decide_false by done. cbn [andb]. rewrite bool_decide_false by done. cbn [andb].
  rewrite !bool_decide_true by done. cbn [andb]. by rewrite Hp; simpl; rewrite Hc.
Qed.

(** What a rendered list means. *)
Definition rendered_rules (cs hs : list bytes) : Rules :=
  match cs, hs with
  | [], [] => rules_build (Some []) (Some [])
  | cs, hs => rules_build (non_empty cs) (non_empty hs)
  end.

Lemma parse_policy_lines ls acc :
  Forall clean ls -> parse_lines 0 (MkAcc [] [] None) ls = Ok acc ->
  parse_live_policy rules_from_json (concat (map (fun l => l ++ [10]) ls))
  = Ok (MkLive (rendered_rules (acc_cidrs acc) (acc_hosts acc)) (acc_rules acc)).
Proof.
  intros Hc Hp. unfold parse_live_policy, from_utf8.
  rewrite utf8_ascii by by apply text_ascii. cbn [ok_or result_bind].
  rewrite lines_text by done. rewrite Hp.
  cbn [result_bind]. unfold rendered_rules. by destruct (acc_cidrs acc), (acc_hosts acc).
Qed.

Lemma parse_policy_body cs hs rest :
  Forall printable cs -> Forall (fun c => is_Some (Cidr.parse c)) cs -> Forall printable hs ->
  exists i, parse_lines 0 (MkAcc [] [] None) (policy_lines cs hs ++ rest)
  = parse_lines i (MkAcc cs hs None) rest.
Proof.
  intros Hc Hs Hh. unfold policy_lines. cbn [app].
  change (parse_lines 0 (MkAcc [] [] None)
    (bs "# smolvm egress allow list" ::
       (map (entry_line (bs "cidr")) cs ++ map (entry_line (bs "host")) hs) ++ rest))
    with (parse_lines 1 (MkAcc [] [] None)
       ((map (entry_line (bs "cidr")) cs ++ map (entry_line (bs "host")) hs) ++ rest)).
  rewrite <-app_assoc, parse_cidr_lines, parse_host_lines by done. by eexists.
Qed.

End Json.
End LiveFacts.

Module LiveProps.
Import Str Ip EgressRule Egress LiveFacts.

(** What the host renders is what the gateway puts in force: a rendered
    allow list, alone or followed by a rendered rule list, parses to exactly
    the rules [Rules::build] makes of the listed ranges and names, and to the
    compiled rules; the empty list parses to one that admits nothing. *)
Theorem live_policy_roundtrip rules_from_json rules_to_json cs hs rs json compiled :
  Forall printable cs -> Forall (fun c => is_Some (Cidr.parse c)) cs -> Forall printable hs ->
  rules_to_json rs = Some json -> rules_from_json json = Some rs -> printable json ->
  compile_rules rs = Ok compiled ->
  parse_live_policy rules_from_json (render_live_policy cs hs)
    = Ok (MkLive (rendered_rules cs hs) None)
  /\ (exists text, render_live_rules rules_to_json rs = Some text
       /\ parse_live_policy rules_from_json (render_live_policy cs hs ++ text)
          = Ok (MkLive (rendered_rules cs hs) (Some compiled)))
  /\ rendered_rules [] [] = MkRules [] (Some []).
Proof.
  intros Hc Hs Hh Ht Hf Hj Hr.
  rewrite render_policy_lines by done. split; [|split; [|done]].
  - erewrite (parse_policy_lines rules_from_json _ (MkAcc cs hs None)); [done| |].
    + by apply policy_lines_clean.
    + destruct (parse_policy_body rules_from_json cs hs []) as [i E]; [done..|].
      rewrite app_nil_r in E. by rewrite E.
  - unfold render_live_rules. rewrite Ht. cbn [mbind option_bind]. eexists. split; [done|].
    assert (concat (map (fun l => l ++ [10]) (policy_lines cs hs)) ++ bs "rules " ++ json ++ [10]
      = concat (map (fun l => l ++ [10]) (policy_lines cs hs ++ [entry_line (bs "rules") json])))
      as ->.
    { rewrite map_app, concat_app. cbn [map concat]. by rewrite app_nil_r. }
    erewrite (parse_policy_lines rules_from_json _ (MkAcc cs hs (Some compiled))); [done| |].
    + apply Forall_app. split; [by apply policy_lines_clean|].
      constructor; [|constructor]. apply clean_entry; [apply keyword_printable; set_solver|done].
    + destruct (parse_policy_body rules_from_json cs hs [entry_line (bs "rules") json])
        as [i ->]; [done..|]. by apply parse_rules_line with rs.
Qed.

Definition deny_rule : EgressRule := MkRule (Some Tcp) (Some (bs "10.0.0.0/8")) None Deny.
Definition one_rule_json : bytes := bs "[deny-10]".
Definition toy_to_json (rs : list EgressRule) : option bytes :=
  match rs with [r] => if bool_decide (cidr r = Some (bs "10.0.0.0/8")) then Some one_rule_json else None
  | _ => None end.
Definition toy_from_json (t : bytes) : option (list EgressRule) :=
  if bool_decide (t = one_rule_json) then Some [deny_rule] else None.

Lemma live_policy_roundtrip_witness :
  parse_live_policy toy_from_json (render_live_policy [bs "1.1.1.0/24"] [bs "*.example.com"])
  = Ok (MkLive (rendered_rules [bs "1.1.1.0/24"] [bs "*.example.com"]) None).
Proof.
  destruct (compile_rules [deny_rule]) as [compiled|] eqn:E; [|by vm_compute in E].
  refine (proj1 (live_policy_roundtrip toy_from_json toy_to_json [bs "1.1.1.0/24"]
    [bs "*.example.com"] [deny_rule] one_rule_json compiled _ _ _ _ _ _ E)).
  - apply (bool_decide_unpack _). by vm_compute.
  - constructor; [|constructor]. eexists. vm_compute. reflexivity.
  - apply (bool_decide_unpack _). by vm_compute.
  - by vm_compute.
  - by vm_compute.
  - apply (bool_decide_unpack _). by vm_compute.
Defined.

(** An upstream answer: a.example.com is 93.184.216.34 for 300 s. *)
Definition example_ip : IpAddr := V4 (from_be [93; 184; 216; 34]).
Definition example_answer : bytes :=
  Dns.gateway_response
    (Dns.wire_query 7 0x0100 0 0 0 [bs "a"; bs "example"; bs "com"] 1 1 []) (from_be [93; 184; 216; 34]).
Definition no_env : Env := fun _ => None.
Definition example_policy := (new no_env None (Some [bs "example.com"]) empty_store).1.
Definition example_store := (new no_env None (Some [bs "example.com"]) empty_store).2.

(** C11: A successful replacement decides for every clone of the policy (any
    policy sharing its list): names are allowed exactly when the new list
    allows them, and a destination the floor leaves alone is admitted exactly
    when a new range covers it or an unexpired learned entry does whose name
    the new list still allows (or which names no question). So an address
    learned for a revoked name is refused at once. A message with rules
    replaces the rules but keeps the private exceptions; one without keeps all. *)
Theorem replace_revokes json rendered p s s' l now q ip host io :
  inner p = Some l -> replace_allow_list json rendered p s = Ok s' ->
  inner q = Some l -> decision_log q = None -> is_floored ip (floor q) = false ->
  exists live, parse_live_policy json rendered = Ok live
  /\ ((hostname_allowed io host q s').1 = true <->
        rules_hostname_allowed (allow_list live) host = true)
  /\ (allows now s' q ip = true <->
        (exists c, c ∈ cidrs (allow_list live) /\ Cidr.contains c ip = true)
        \/ (exists e, learned (list_at s l) !! ip = Some e /\ expires_at e > now
             /\ forall name, lname e = Some name ->
                  rules_hostname_allowed (allow_list live) name = true))
  /\ compiled_rules s' p =
       match live_rules live with
       | Some rs => rs ++ List.filter reopens_private (compiled_rules s p)
       | None => compiled_rules s p
       end.
Proof.
  intros Hp Hr Hq Hd Hf. destruct (replace_list_at _ _ _ _ _ l Hp Hr) as (live & Hl & Ha).
  exists live. split; [done|]. split; [|split].
  - unfold hostname_allowed. rewrite Hq, Ha. cbn [al_rules]. unfold record_decision. rewrite Hd.
    by destruct (rules_hostname_allowed _ _).
  - unfold allows, static_allowed. rewrite Hf, Hq, Ha. cbn [al_rules learned].
    destruct (existsb _ _) eqn:Ec.
    { split; [|done]. intros _. left. apply existsb_exists in Ec as (c & Hc & Hi).
      exists c. by rewrite list_elem_of_In. }
    split.
    + intros H. right. destruct (_ !! ip) as [e|] eqn:Ee; [|done]. cbn [is_some_and] in H.
      apply map_lookup_filter_Some in Ee as [Ee Hs]. exists e. split; [done|].
      split; [by bool_simpl; lia|]. intros name Hn. unfold still_allowed in Hs. simpl in Hs.
      by rewrite Hn in Hs.
    + intros [(c & Hc & Hi)|(e & Ee & Ht & Hs)].
      { enough (existsb (fun c => Cidr.contains c ip) (cidrs (allow_list live)) = true) by congruence.
        apply existsb_exists. exists c. by rewrite <-list_elem_of_In. }
      rewrite (proj2 (map_lookup_filter_Some _ _ _ e)); [simpl; apply Z.gtb_gt; lia|].
      split; [done|]. unfold still_allowed. simpl. destruct (lname e); simpl; auto.
  - unfold replace_allow_list in Hr. rewrite Hp, Hl in Hr. cbn [result_bind] in Hr. inv Hr.
    unfold compiled_rules, replace_publish, replace_forget, replace_rules. simpl.
    destruct (live_rules live); [|done]. simpl. by rewrite lookup_insert_eq.
Qed.

(** The address learned for a.example.com goes when only example.org stays. *)
Lemma replace_revokes_witness :
  exists s', replace_allow_list (fun _ => None) (render_live_policy [] [bs "example.org"])
       example_policy (learn_dns_answer 5 example_answer example_policy example_store) = Ok s'
  /\ ~ allows 6 s' example_policy example_ip = true.
Proof.
  eexists. split; [vm_compute; reflexivity|]. intros Ha.
  destruct (replace_revokes (fun _ => None) (render_live_policy [] [bs "example.org"])
    example_policy (learn_dns_answer 5 example_answer example_policy example_store) _ 0%nat 6
    example_policy example_ip (bs "x") true eq_refl ltac:(vm_compute; reflexivity)
    eq_refl eq_refl ltac:(vm_compute; reflexivity)) as (live & Hl & _ & H & _).
  vm_compute in Hl. injection Hl as <-. apply H in Ha as [(c & Hc & _)|(e & He & _ & Hn)].
  - by apply elem_of_nil in Hc.
  - vm_compute in He. injection He as <-.
    specialize (Hn (bs "a.example.com") ltac:(vm_compute; reflexivity)). by vm_compute in Hn.
Defined.

(** C30: A DNS answer never opens a floored destination: learning any answer, under
    any policy, leaves the decision on every flow to a floored address as it
    was, for every policy and clone. *)
Theorem no_rebinding p q s t now answer tr ip port :
  is_floored ip (floor q) = true ->
  allows_flow now (learn_dns_answer t answer p s) q tr ip port = allows_flow now s q tr ip port.
Proof.
  intros Hf. unfold learn_dns_answer, learn. destruct (negb _); [done|].
  destruct (inner p) as [l|]; [|done].
  unfold allows_flow, allows. rewrite Hf.
  match goal with |- context [set_list l ?a s] => set (s' := set_list l a s) end.
  change (rule_action s' q tr ip port) with (rule_action s q tr ip port).
  destruct (rule_action s q tr ip port) as [[]|]; [done..|].
  case_bool_guard; [|done]. destruct (inner q) as [l'|]; [|done]. cbn [is_some_and].
  unfold s'. rewrite list_at_set_list. by case_decide; subst.
Qed.

(** An answer that names the host's loopback teaches nothing. *)
Lemma no_rebinding_witness :
  allows_flow 6 (learn_dns_answer 5 (Dns.gateway_response
     (Dns.wire_query 7 0x0100 0 0 0 [bs "a"; bs "example"; bs "com"] 1 1 [])
     (from_be [127; 0; 0; 1])) example_policy example_store)
    example_policy Tcp (V4 (from_be [127; 0; 0; 1])) (Some 22) = false.
Proof. rewrite no_rebinding; by vm_compute. Defined.

End LiveProps.

(** ** Threads: the control sockets and the gateway's learners

    [replace_allow_list] runs on the control thread of network/launch.rs and
    [learn_dns_answer] on the threads of stack.rs; neither holds a lock from
    its beginning to its end. Here every lock section is one step, any number
    of calls may be under way at once, and a history records the sections in
    the order they took their locks. A call is named by the position of its
    first section in the history. *)
Module LiveThreads.
Import Str Ip EgressRule Egress LiveFacts LiveProps.

(** How far a replacement has come: the sections it still has to run. *)
Inductive Replacing :=
| CtlRules (live : LivePolicy)
| CtlForget (live : LivePolicy)
| CtlPublish (live : LivePolicy).

(** The sections, as the history records them. *)
Inductive Event :=
| LCheck (answer : bytes)
| LInsert (check : nat) (at_ : Z) (answer : bytes)
| LIp (at_ : Z) (records : list (IpAddr * Z))
| LRequest (live : LivePolicy)
| LRules (request : nat)
| LForget (request : nat) (live : LivePolicy)
| LPublish (request : nat) (live : LivePolicy).

Record Sys := MkSys {
  clock : Z;
  store : Store;
  checked : gmap nat bytes;
  replacing : gmap nat Replacing;
  log : list Event;
}.

Inductive Act :=
| ActTime (t : Z)
| ActAnswer (answer : bytes)
| ActLearn (check : nat)
| ActIp (records : list (IpAddr * Z))
| ActReplace (rendered : bytes)
| ActControl (request : nat).

Definition start (t0 : Z) (s : Store) : Sys := MkSys t0 s ∅ ∅ [].

Section Perform.
Context (rules_from_json : bytes -> option (list EgressRule)) (p : EgressPolicy).

(** The next section of a replacement, and what is left of the call. *)
Definition control_step (l : nat) (j : nat) (c : Replacing) (x : Sys) : Sys :=
  match c with
  | CtlRules live =>
      MkSys (clock x) (replace_rules live p (store x)) (checked x)
        (<[j := CtlForget live]> (replacing x)) (log x ++ [LRules j])
  | CtlForget live =>
      MkSys (clock x) (replace_forget (allow_list live) l (store x)) (checked x)
        (<[j := CtlPublish live]> (replacing x)) (log x ++ [LForget j live])
  | CtlPublish live =>
      MkSys (clock x) (replace_publish (allow_list live) l (store x)) (checked x)
        (delete j (replacing x)) (log x ++ [LPublish j live])
  end.

(** One section of one thread; [None] when no such call is under way. *)
Definition perform (act : Act) (x : Sys) : option Sys :=
  match act with
  | ActTime t =>
      if clock x <=? t then Some (MkSys t (store x) (checked x) (replacing x) (log x)) else None
  | ActAnswer answer =>
      if negb (learn_admitted answer p (store x)) then Some x
      else Some (MkSys (clock x) (store x) (<[length (log x) := answer]> (checked x))
             (replacing x) (log x ++ [LCheck answer]))
  | ActLearn i =>
      match checked x !! i with
      | Some answer =>
          Some (MkSys (clock x)
            (learn (clock x) (answer_name answer) (Dns.answer_ip_records answer) p (store x))
            (delete i (checked x)) (replacing x) (log x ++ [LInsert i (clock x) answer]))
      | None => None
      end
  | ActIp records =>
      Some (MkSys (clock x) (learn_ip_records (clock x) records p (store x)) (checked x)
        (replacing x) (log x ++ [LIp (clock x) records]))
  | ActReplace rendered =>
      match inner p, parse_live_policy rules_from_json rendered with
      | Some _, Ok live =>
          Some (MkSys (clock x) (store x) (checked x)
            (<[length (log x) := CtlRules live]> (replacing x)) (log x ++ [LRequest live]))
      | _, _ => Some x
      end
  | ActControl j =>
      match inner p, replacing x !! j with
      | Some l, Some c => Some (control_step l j c x)
      | _, _ => None
      end
  end.

Fixpoint schedule (acts : list Act) (x : Sys) : option Sys :=
  match acts with
  | [] => Some x
  | act :: acts => match perform act x with Some x' => schedule acts x' | None => None end
  end.

(** *** Calls that run alone are the operations *)

Lemma learn_alone answer x :
  exists x', schedule (if learn_admitted answer p (store x)
                  then [ActAnswer answer; ActLearn (length (log x))] else [ActAnswer answer]) x
        = Some x'
  /\ store x' = learn_dns_answer (clock x) answer p (store x).
Proof.
  unfold learn_dns_answer. destruct (learn_admitted answer p (store x)) eqn:E;
    cbn [schedule perform]; rewrite E; cbn [negb]; [|by eexists].
  cbn [schedule perform checked]. rewrite lookup_insert_eq. by eexists.
Qed.

Lemma replace_alone rendered s' x :
  replace_allow_list rules_from_json rendered p (store x) = Ok s' ->
  exists x', schedule (ActReplace rendered :: replicate 3 (ActControl (length (log x)))) x = Some x'
  /\ store x' = s'.
Proof.
  unfold replace_allow_list. cbn [schedule perform replicate].
  destruct (inner p) as [l|]; [|done].
  destruct (parse_live_policy rules_from_json rendered) as [live|]; cbn [result_bind]; [|done].
  intros [= <-]. do 3 (cbn [schedule perform control_step replacing]; rewrite lookup_insert_eq).
  by eexists.
Qed.
End Perform.

(** *** What the history says of a learned entry *)

(** The rules in force after a history: those of its last publication. *)
Definition in_force (r0 : Rules) (h : list Event) : Rules :=
  foldl (fun r ev => match ev with LPublish _ live => allow_list live | _ => r end) r0 h.

Definition taught (t : Z) (name : option bytes) (records : list (IpAddr * Z)) (ip : IpAddr)
    (e : Learned) : Prop :=
  exists ttl, (ip, ttl) ∈ records
  /\ e = MkLearned (t + clamp MIN_LEARNED_TTL MAX_LEARNED_TTL ttl * SECOND) name.

(** Section [i] of the history put the entry there, for an answer whose name
    section [i_c] checked, or for records learned without a name. *)
Definition answered (h : list Event) (i_c i : nat) (a : bytes) (ip : IpAddr) (e : Learned) : Prop :=
  (i_c < i)%nat /\ h !! i_c = Some (LCheck a)
  /\ exists t, h !! i = Some (LInsert i_c t a)
       /\ taught t (answer_name a) (Dns.answer_ip_records a) ip e.
Definition unnamed (h : list Event) (i : nat) (ip : IpAddr) (e : Learned) : Prop :=
  exists t records, h !! i = Some (LIp t records) /\ taught t None records ip e.

(** The learning of sections [i_c] and [i] overlaps the replacement [j]: it was
    inserted after the replacement forgot and checked before it published. *)
Definition straddles (h : list Event) (i_c i j : nat) (live : LivePolicy) : Prop :=
  exists j_f j_p, h !! j_f = Some (LForget j live) /\ h !! j_p = Some (LPublish j live)
  /\ (j_f < j_p)%nat /\ (j_f < i)%nat /\ (i_c < j_p)%nat.

Definition kept (h : list Event) (i : nat) (e : Learned) : Prop :=
  forall k j live, (i < k)%nat -> h !! k = Some (LForget j live) ->
    still_allowed (allow_list live) e = true.
Definition entry_ok (t : Z) (h : list Event) (ip : IpAddr) (e : Learned) : Prop :=
  expires_at e <= t + MAX_LEARNED_TTL * SECOND
  /\ exists i, kept h i e /\ ((exists i_c a, answered h i_c i a ip e) \/ unnamed h i ip e).
Definition history_ok (r0 : Rules) (h : list Event) : Prop :=
  (forall i a, h !! i = Some (LCheck a) ->
     is_none_or (answer_name a) (rules_hostname_allowed (in_force r0 (take i h))) = true)
  /\ (forall k j live, h !! k = Some (LPublish j live) ->
       exists k', (k' < k)%nat /\ h !! k' = Some (LForget j live)).

Record Inv (r0 : Rules) (l : nat) (x : Sys) : Prop := {
  inv_rules : al_rules (list_at (store x) l) = in_force r0 (log x);
  inv_history : history_ok r0 (log x);
  inv_checked : forall i a, checked x !! i = Some a -> log x !! i = Some (LCheck a);
  inv_replacing : forall j live, replacing x !! j = Some (CtlPublish live) ->
    exists k, log x !! k = Some (LForget j live);
  inv_learned : forall ip e, learned (list_at (store x) l) !! ip = Some e ->
    entry_ok (clock x) (log x) ip e;
}.

(** *** One more section *)

Lemma grow {A} (h : list A) ev i y : h !! i = Some y -> (h ++ [ev]) !! i = Some y.
Proof. intros H. by apply lookup_app_l_Some. Qed.

Lemma grow_inv {A} (h : list A) ev i y :
  (h ++ [ev]) !! i = Some y -> h !! i = Some y \/ (i = length h /\ y = ev).
Proof.
  intros [H|[Hl H]]%lookup_app_Some; [by left|right].
  apply list_lookup_singleton_Some in H as [Hi <-]. split; [lia|done].
Qed.

Lemma in_force_snoc r0 h ev :
  in_force r0 (h ++ [ev]) = match ev with LPublish _ live => allow_list live | _ => in_force r0 h end.
Proof. unfold in_force. by rewrite foldl_snoc. Qed.

(** The rules in force are those of an earlier point, or a publication after it. *)
Lemma in_force_since r0 h i :
  in_force r0 h = in_force r0 (take i h)
  \/ exists k j live, (i <= k)%nat /\ h !! k = Some (LPublish j live)
       /\ in_force r0 h = allow_list live.
Proof.
  induction h as [|ev h IH] using rev_ind; [left; by rewrite take_nil|].
  destruct (decide (length h < i)%nat) as [Hi|Hi].
  { left. rewrite take_ge; [done|]. rewrite length_app. simpl. lia. }
  rewrite in_force_snoc, take_app_le by lia.
  assert (Hold : in_force r0 h = in_force r0 (take i h)
    \/ exists k j live, (i <= k)%nat /\ (h ++ [ev]) !! k = Some (LPublish j live)
         /\ in_force r0 h = allow_list live).
  { destruct IH as [IH|(k & j & live & Hk & Hp & E)]; [by left|right].
    exists k, j, live. split_and!; [done|by apply grow|done]. }
  destruct ev; try exact Hold. right. exists (length h), request, live.
  split_and!; [lia| |done]. by apply list_lookup_middle.
Qed.

Lemma history_snoc r0 h ev :
  history_ok r0 h ->
  (forall a, ev = LCheck a ->
     is_none_or (answer_name a) (rules_hostname_allowed (in_force r0 h)) = true) ->
  (forall j live, ev = LPublish j live -> exists k, h !! k = Some (LForget j live)) ->
  history_ok r0 (h ++ [ev]).
Proof.
  intros [Hc Hp] Hec Hep. split.
  - intros i a [H|[-> <-]]%grow_inv; [|rewrite take_app_length; by apply Hec].
    pose proof (lookup_lt_Some _ _ _ H). rewrite take_app_le by lia. by apply Hc.
  - intros k j live [H|[-> <-]]%grow_inv.
    + destruct (Hp _ _ _ H) as (k' & Hk & H'). exists k'. split; [done|by apply grow].
    + destruct (Hep _ _ eq_refl) as (k & Hk). exists k.
      split; [by eapply lookup_lt_Some|by apply grow].
Qed.

Lemma entry_snoc t t' h ev ip e :
  t <= t' -> entry_ok t h ip e ->
  (forall j live, ev = LForget j live -> still_allowed (allow_list live) e = true) ->
  entry_ok t' (h ++ [ev]) ip e.
Proof.
  intros Ht (Hx & i & Hk & Ho) Hev. split; [lia|]. exists i. split.
  - intros k j live Hi [H|[_ <-]]%grow_inv; [by eapply Hk|by eapply Hev].
  - destruct Ho as [(ic & a & Hlt & Hc & u & Hu & Ht')|(u & rs & Hu & Ht')];
      [left; exists ic, a|right].
    + split_and!; [done|by apply grow|]. exists u. split; [by apply grow|done].
    + exists u, rs. split; [by apply grow|done].
Qed.

Lemma kept_new h ev e : kept (h ++ [ev]) (length h) e.
Proof.
  intros k j live Hk H%lookup_lt_Some. rewrite length_app in H. simpl in H. lia.
Qed.

Lemma taught_expires t name records ip e :
  taught t name records ip e -> expires_at e <= t + MAX_LEARNED_TTL * SECOND.
Proof.
  intros (ttl & _ & ->). cbn [expires_at].
  pose proof (clamp_bounds MIN_LEARNED_TTL MAX_LEARNED_TTL ttl) as H.
  unfold MIN_LEARNED_TTL, MAX_LEARNED_TTL, SECOND in *. lia.
Qed.

(** An insertion leaves entries that were there and entries of its own. *)
Lemma learn_entries t name records m h ev :
  (forall ip e, m !! ip = Some e -> entry_ok t h ip e) ->
  (forall j live, ev <> LForget j live) ->
  (forall ip e, taught t name records ip e ->
     (exists i_c a, answered (h ++ [ev]) i_c (length h) a ip e) \/ unnamed (h ++ [ev]) (length h) ip e) ->
  forall ip e, learn_into t name records m !! ip = Some e -> entry_ok t (h ++ [ev]) ip e.
Proof.
  intros Hm Hev Ht ip e [[He _]|H]%learn_into_origin.
  - apply (entry_snoc t); [lia|by apply Hm|]. intros j live ->. by destruct (Hev j live).
  - split; [by eapply taught_expires|]. exists (length h). split; [apply kept_new|by apply Ht].
Qed.

Lemma learn_list_at now name records p s l :
  inner p = Some l ->
  list_at (learn now name records p s) l
  = MkAllowList (al_rules (list_at s l)) (learn_into now name records (learned (list_at s l))).
Proof. intros Hp. unfold learn. by rewrite Hp, list_at_set_list, decide_True. Qed.

(** *** The invariant *)

Section Invariant.
Context (json : bytes -> option (list EgressRule)) (p : EgressPolicy) (r0 : Rules) (l : nat).
Hypothesis Hp : inner p = Some l.

(** A section that teaches an answer or records. *)
Lemma teach_ok x ck name records ev :
  Inv r0 l x -> (forall i a, ck !! i = Some a -> checked x !! i = Some a) ->
  (forall a, ev <> LCheck a) -> (forall j live, ev <> LForget j live /\ ev <> LPublish j live) ->
  (forall ip e, taught (clock x) name records ip e ->
     (exists i_c a, answered (log x ++ [ev]) i_c (length (log x)) a ip e)
     \/ unnamed (log x ++ [ev]) (length (log x)) ip e) ->
  Inv r0 l (MkSys (clock x) (learn (clock x) name records p (store x)) ck (replacing x) (log x ++ [ev])).
Proof.
  intros [Hr Hh Hc Hj Hl] Hck Hnc Hn Ht.
  split; cbn [clock store checked replacing log]; rewrite ?learn_list_at by done.
  - rewrite in_force_snoc. cbn [al_rules]. destruct ev; try done. by destruct (Hn request live).
  - apply history_snoc; [done| |]; [by intros a ->; destruct (Hnc a)|].
    by intros j live ->; destruct (Hn j live).
  - intros i a H. by apply grow, Hc, Hck.
  - intros j live H. destruct (Hj _ _ H) as (k & Hk). exists k. by apply grow.
  - cbn [learned]. apply learn_entries; [done| |done]. intros j live. apply Hn.
Qed.

Lemma control_ok x j c :
  Inv r0 l x -> replacing x !! j = Some c -> Inv r0 l (control_step p l j c x).
Proof.
  intros [Hr Hh Hc Hj Hl] Hx. destruct c as [live|live|live];
    (split; cbn [control_step clock store checked replacing log];
     [rewrite in_force_snoc|apply history_snoc; try done|intros; apply grow; by auto| |]);
    unfold replace_forget, replace_publish;
    rewrite ?list_at_replace_rules, ?list_at_set_list, ?decide_True by done; cbn [al_rules learned]; try done.
  - intros j' live' [[-> ?]|[? H]]%lookup_insert_Some; [done|].
    destruct (Hj _ _ H) as (k & Hk). exists k. by apply grow.
  - intros ip e H. apply (entry_snoc (clock x)); [lia|by apply Hl|done].
  - intros j' live' [[-> [= ->]]|[? H]]%lookup_insert_Some.
    + exists (length (log x)). by apply list_lookup_middle.
    + destruct (Hj _ _ H) as (k & Hk). exists k. by apply grow.
  - intros ip e [H Hs]%map_lookup_filter_Some.
    apply (entry_snoc (clock x)); [lia|by apply Hl|]. by intros j' live' [= _ <-].
  - intros j' live' [= <- <-]. by apply Hj.
  - intros j' live' [? H]%lookup_delete_Some.
    destruct (Hj _ _ H) as (k & Hk). exists k. by apply grow.
  - intros ip e H. apply (entry_snoc (clock x)); [lia|by apply Hl|done].
Qed.

(** A section that reads the rules or starts a call changes no list. *)
Lemma note_ok x ck rp ev :
  Inv r0 l x -> (forall j live, ev <> LForget j live /\ ev <> LPublish j live) ->
  (forall a, ev = LCheck a -> learn_admitted a p (store x) = true) ->
  (forall i a, ck !! i = Some a -> checked x !! i = Some a \/ i = length (log x) /\ ev = LCheck a) ->
  (forall j live, rp !! j = Some (CtlPublish live) -> replacing x !! j = Some (CtlPublish live)) ->
  Inv r0 l (MkSys (clock x) (store x) ck rp (log x ++ [ev])).
Proof.
  intros [Hr Hh Hc Hj Hl] Hn Ha Hck Hrp. split; cbn [clock store checked replacing log].
  - rewrite in_force_snoc. destruct ev; try done. by destruct (Hn request live).
  - apply history_snoc; [done| |by intros j live ->; destruct (Hn j live)].
    intros a Ea. specialize (Ha a Ea). unfold learn_admitted in Ha. rewrite Hp, Hr in Ha.
    by destruct (answer_name a).
  - intros i a [H|[-> <-]]%Hck; [by apply grow, Hc|by apply list_lookup_middle].
  - intros j live H%Hrp. destruct (Hj _ _ H) as (k & Hk). exists k. by apply grow.
  - intros ip e H. apply (entry_snoc (clock x)); [lia|by apply Hl|].
    intros j live ->. by destruct (Hn j live).
Qed.

Lemma perform_ok act x x' : Inv r0 l x -> perform json p act x = Some x' -> Inv r0 l x'.
Proof.
  intros Hi. destruct act as [t|a|i|rs|rendered|j]; cbn [perform].
  - case_bool_guard; [|done]. intros [= <-]. destruct Hi as [Hr Hh Hc Hj Hl]. split; try done.
    cbn [clock store log]. intros ip e H. destruct (Hl ip e H) as [Hx ?]. split; [lia|done].
  - destruct (learn_admitted a p (store x)) eqn:E; cbn [negb]; intros [= <-]; [|done].
    apply note_ok; [done|done|by intros ? [= <-]| |done].
    intros i b [[<- <-]|[_ ?]]%lookup_insert_Some; [by right|by left].
  - destruct (checked x !! i) as [a|] eqn:E; [|done]. intros [= <-].
    apply teach_ok; [done|by intros ?? [_ ?]%lookup_delete_Some|done|done|].
    intros ip e Ht. left. exists i, a. pose proof (inv_checked _ _ _ Hi _ _ E) as Hc.
    split_and!; [by eapply lookup_lt_Some|by apply grow|].
    exists (clock x). split; [by apply list_lookup_middle|done].
  - intros [= <-]. apply teach_ok; [done|done|done|done|].
    intros ip e Ht. right. exists (clock x), rs. split; [by apply list_lookup_middle|done].
  - rewrite Hp. destruct (parse_live_policy json rendered) as [live|]; intros [= <-]; [|done].
    apply note_ok; [done|done|done|by left|].
    by intros j live' [[_ ?]|[_ ?]]%lookup_insert_Some.
  - rewrite Hp. destruct (replacing x !! j) as [c|] eqn:E; [|done]. intros [= <-].
    by apply control_ok.
Qed.

Lemma schedule_ok acts x x' : Inv r0 l x -> schedule json p acts x = Some x' -> Inv r0 l x'.
Proof.
  revert x. induction acts as [|act acts IH]; cbn [schedule]; intros x Hi; [by intros [= <-]|].
  destruct (perform json p act x) as [y|] eqn:E; [|done]. eauto using perform_ok.
Qed.

(** A checked name is allowed now, unless the learning straddled a replacement. *)
Lemma answered_now x i_c i a ip e :
  Inv r0 l x -> answered (log x) i_c i a ip e -> kept (log x) i e ->
  still_allowed (al_rules (list_at (store x) l)) e = true
  \/ exists j live, straddles (log x) i_c i j live
       /\ al_rules (list_at (store x) l) = allow_list live.
Proof.
  intros [Hr [Hch Hpub] _ _ _] (Hlt & Hc & t & Hins & ttl & _ & ->) Hk. rewrite Hr.
  destruct (in_force_since r0 (log x) i_c) as [->|(k & j & live & Hik & Hp' & ->)].
  { left. by apply Hch. }
  destruct (Hpub _ _ _ Hp') as (k' & Hk' & Hf).
  assert (i_c <> k) by congruence. assert (i <> k') by congruence.
  destruct (decide (i < k')%nat) as [Hik'|Hik']; [left; by eapply Hk|right].
  exists j, live. split; [|done]. exists k', k. split_and!; try done; lia.
Qed.
End Invariant.

Lemma start_ok t0 s l : learned (list_at s l) = ∅ -> Inv (al_rules (list_at s l)) l (start t0 s).
Proof.
  intros Hl. split; cbn [start clock store checked replacing log]; try done.
  intros ip e. by rewrite Hl, lookup_empty.
Qed.

(** C29: Answers learned and lists replaced on any number of
    threads, interleaved at every lock section in any order, from a new
    restricted policy: a learned address comes from a record of an answer that
    some thread inserted, with the expiry of that record, at most
    [MAX_LEARNED_TTL] ahead of the clock. If the answer's question has a name,
    the thread checked it before; and the rules now in force allow the name,
    with one exception, which the code does have ([revocation_race]): the
    insertion came after the replacement that published these rules had
    forgotten its revoked names, and the check before it published. Entries of
    answers without a name are not tied to the rules. *)
Theorem learned_invariant json env cs hs s0 p s1 l t0 acts x ip e :
  new env cs hs s0 = (p, s1) -> inner p = Some l ->
  schedule json p acts (start t0 s1) = Some x ->
  learned (list_at (store x) l) !! ip = Some e ->
  expires_at e <= clock x + MAX_LEARNED_TTL * SECOND
  /\ exists i, unnamed (log x) i ip e
     \/ exists i_c a, answered (log x) i_c i a ip e
        /\ forall name, answer_name a = Some name ->
             rules_hostname_allowed (al_rules (list_at (store x) l)) name = true
             \/ exists j live, straddles (log x) i_c i j live
                  /\ al_rules (list_at (store x) l) = allow_list live.
Proof.
  intros Hn Hp Hs He. pose proof (new_list_at _ _ _ _ _ _ _ Hn Hp) as Ha.
  assert (Hi : Inv (al_rules (list_at s1 l)) l x).
  { eapply schedule_ok; [done| |exact Hs]. apply start_ok. by rewrite Ha. }
  destruct (inv_learned _ _ _ Hi _ _ He) as (Hx & i & Hk & [(ic & a & Han)|Hu]);
    (split; [done|exists i]); [right; exists ic, a|by left].
  split; [done|]. intros name Hname.
  destruct (answered_now _ _ _ _ _ _ _ _ Hi Han Hk) as [H|H]; [left|by right].
  destruct Han as (_ & _ & t & _ & ttl & _ & ->). unfold still_allowed in H.
  cbn [lname] in H. by rewrite Hname in H.
Qed.

(** An answer checked before a replacement that allows nothing, and inserted
    after it. *)
Definition race : list Act :=
  [ActTime 5; ActAnswer example_answer; ActReplace (render_live_policy [] []);
   ActControl 1; ActControl 1; ActControl 1; ActLearn 0].
Definition raced : option Sys :=
  schedule (fun _ => None) example_policy race (start 0 example_store).

(** There the invariant finds the entry's answer and the replacement it
    straddled, since the rules in force do not allow its name. *)
Lemma learned_invariant_witness :
  exists x e i_c i j live, raced = Some x /\ learned (list_at (store x) 0) !! example_ip = Some e
  /\ expires_at e <= clock x + MAX_LEARNED_TTL * SECOND
  /\ answered (log x) i_c i example_answer example_ip e /\ straddles (log x) i_c i j live.
Proof.
  destruct raced as [x|] eqn:Hx; [|by vm_compute in Hx].
  destruct (learned (list_at (store x) 0) !! example_ip) as [e|] eqn:He.
  2:{ vm_compute in Hx. injection Hx as <-. by vm_compute in He. }
  destruct (learned_invariant (fun _ => None) no_env None (Some [bs "example.com"]) empty_store
    example_policy example_store 0 0 race x example_ip e (surjective_pairing _)
    ltac:(by vm_compute) Hx He) as (Ht & i & [(t & rs & Hi & _)|(ic & a & Ha & Hn)]).
  { vm_compute in Hx. injection Hx as <-. cbn [log] in Hi.
    do 7 (destruct i as [|i]; [done|]). done. }
  assert (a = example_answer) as ->.
  { destruct Ha as (_ & Hc & _). vm_compute in Hx. injection Hx as <-. cbn [log] in Hc.
    do 7 (destruct ic as [|ic]; [try done; by injection Hc as <-; vm_compute|]). done. }
  destruct (Hn (bs "a.example.com") ltac:(by vm_compute)) as [Hal|(j & live & Hj & _)].
  { vm_compute in Hx. injection Hx as <-. by vm_compute in Hal. }
  by exists x, e, ic, i, j, live.
Defined.

(** The exception of [learned_invariant] happens: the check and the insertion of
    [learn_dns_answer] are separate lock sections, and an answer checked before
    a replacement revokes its name and inserted after it leaves the revoked
    name's address admitted when every call has ended, although the new list
    admits nothing at all. *)
Theorem revocation_race :
  exists x, raced = Some x /\ checked x = ∅ /\ replacing x = ∅
  /\ al_rules (list_at (store x) 0) = MkRules [] (Some [])
  /\ allows 6 (store x) example_policy example_ip = true
  /\ (hostname_allowed true (bs "a.example.com") example_policy (store x)).1 = false.
Proof.
  destruct raced as [x|] eqn:Hx; [|by vm_compute in Hx].
  exists x. split; [done|]. vm_compute in Hx. injection Hx as <-. by vm_compute.
Qed.

End LiveThreads.

(** ** Compiling an ordered rule list *)
Module RuleProps.
Import Str Ip EgressRule Egress.

(** What a rule must satisfy: a range that parses, ports from 1 in order and
    not on ICMP, and TCP for a redirect. *)
Definition valid_rule (r : EgressRule) : Prop :=
  match cidr r with Some spec => is_Some (Cidr.parse spec) | None => True end
  /\ match ports r with
     | Some ps => start ps <> 0 /\ start ps <= end_ ps /\ transport r <> Some Icmp
     | None => True
     end
  /\ (action r = Redirect -> transport r = Some Tcp).

Definition compiles_to (r : EgressRule) (c : CompiledRule) : Prop :=
  c_transport c = transport r /\ c_ports c = ports r /\ c_action c = action r
  /\ c_cidr c = (let! spec := cidr r in Cidr.parse spec) /\ reopens_private c = false.

Definition error_index (e : PolicyError) : option Z :=
  match e with
  | RuleInvalidCidr i | RuleInvalidPorts i | RuleRedirectNeedsTcp i => Some i
  | _ => None
  end.

Lemma compile_rule_correct i r :
  match compile_rule i r with
  | Ok c => valid_rule r /\ compiles_to r c
  | Err e => ~ valid_rule r /\ error_index e = Some i
  end.
Proof.
  unfold compile_rule, valid_rule, compiles_to. destruct r as [tr spec ps act].
  cbn [transport cidr ports action].
  assert (forall c, match
    (if is_some_and ps (fun p => (start p =? 0) || (end_ p <? start p) || bool_decide (tr = Some Icmp))
     then Err (RuleInvalidPorts i)
     else if bool_decide (act = Redirect) && bool_decide (tr <> Some Tcp)
     then Err (RuleRedirectNeedsTcp i) else Ok (MkCompiled tr c ps act false)) with
    | Ok c' => c' = MkCompiled tr c ps act false
        /\ match ps with Some p => start p <> 0 /\ start p <= end_ p /\ tr <> Some Icmp | None => True end
        /\ (act = Redirect -> tr = Some Tcp)
    | Err e => ~ (match ps with Some p => start p <> 0 /\ start p <= end_ p /\ tr <> Some Icmp
                  | None => True end /\ (act = Redirect -> tr = Some Tcp)) /\ error_index e = Some i
    end) as H.
  { intros c. case_bool_guard.
    - split; [|done]. destruct ps as [p|]; [|done]. cbn [is_some_and] in E.
      intros [(H1 & H2 & H3) _]. bool_simpl. destruct E as [E|E]; bool_simpl; [|done].
      destruct E as [E|E]; bool_simpl; lia.
    - case_bool_guard; [split; [|done]; naive_solver|].
      split; [done|]. split.
      + destruct ps as [p|]; [|done]. cbn [is_some_and] in E. bool_simpl. repeat split; try done; lia.
      + intros ->. destruct E0 as [E0|E0]; bool_simpl; [done|].
        by destruct (decide (tr = Some Tcp)). }
  destruct spec as [spec|]; cbn [mbind option_bind].
  - destruct (Cidr.parse spec) as [c|]; cbn [ok_or result_bind].
    + specialize (H (Some c)). destruct (if is_some_and _ _ then _ else _) as [c'|e].
      * destruct H as (-> & H1 & H2). repeat split; by eauto.
      * destruct H as [H He]. split; [|done]. naive_solver.
    + split; [|done]. by intros [[? ?] _].
  - specialize (H None). cbn [result_bind]. destruct (if is_some_and _ _ then _ else _) as [c'|e].
    + destruct H as (-> & H1 & H2). repeat split; by eauto.
    + destruct H as [H He]. split; [|done]. naive_solver.
Qed.

Lemma compile_rules_from_correct i rs :
  match compile_rules_from i rs with
  | Ok cs => Forall valid_rule rs /\ Forall2 compiles_to rs cs
  | Err e => exists pre r post, rs = pre ++ r :: post /\ Forall valid_rule pre
             /\ ~ valid_rule r /\ error_index e = Some (i + len pre)
  end.
Proof.
  revert i. induction rs as [|r rs IH]; intros i; cbn [compile_rules_from]; [by repeat constructor|].
  pose proof (compile_rule_correct i r) as H. destruct (compile_rule i r) as [c|e]; cbn [result_bind].
  - destruct H as [Hv Hc]. specialize (IH (i + 1)).
    destruct (compile_rules_from (i + 1) rs) as [cs|e]; cbn [result_bind].
    + destruct IH. split; by constructor.
    + destruct IH as (pre & r' & post & -> & Hp & Hr & He).
      exists (r :: pre), r', post. rewrite len_cons, Z.add_assoc. repeat split; try done. by constructor.
  - destruct H as [Hv He]. exists [], r, rs. rewrite len_nil, Z.add_0_r. repeat split; done || constructor.
Qed.

(** A rule list compiles exactly when every rule of it is valid, each rule
    to its own fields with no private exception; otherwise the error names the
    index of the first invalid rule, and no list is put in force. *)
Theorem compile_rules_correct rs :
  match compile_rules rs with
  | Ok cs => Forall valid_rule rs /\ Forall2 compiles_to rs cs
  | Err e => exists pre r post, rs = pre ++ r :: post /\ Forall valid_rule pre
             /\ ~ valid_rule r /\ error_index e = Some (len pre)
  end.
Proof. apply (compile_rules_from_correct 0). Qed.

End RuleProps.
