(* ===== verification/ForkPool.v ===== *)
(** * ForkPool: held-fork pools and their one-shot leases
    (src/pool.rs, src/db.rs, src/agent/fork.rs)

    The durable tables are finite maps from primary key to row. A row keeps
    the indexed columns apart from the record in its [data] blob, as the tables
    do, so that the columns a query filters on and the record it decodes are
    different things; a blob is the record it decodes to. Every operation is
    one transaction: a function from the database to its outcome and the
    committed database, which is the old one when the transaction fails.
    [COUNT] columns are read as unbounded integers, and a [SELECT] without
    [ORDER BY] returns its rows in map order. *)

From S2P Require Import Prelude RustStr.

Module Pool.
Import Str.

Definition FORK_LEASE_ACTIVATION_GRACE_SECS : Z := 5 * 60.

Record ForkPoolRecord := MkPool {
  p_name : bytes;
  p_golden : bytes;
  desired_ready : Z;
  max_active : option Z;
  auto_admission : bool;
  cuda_device_ordinal : option Z;
  share_weights : bool;
  freeze_source : bool;
  ready_timeout_secs : Z;
  lease_ttl_secs : Z;
  p_created_at : Z;
  deleting : bool;
}.

Definition admission_device_ordinal (p : ForkPoolRecord) : option Z :=
  match cuda_device_ordinal p with
  | Some d => Some d
  | None => if share_weights p then Some 0 else None
  end.

(** The last entry for the key decides. *)
Definition cuda_device_ordinal_from_env (env : list (bytes * bytes)) : result Z bytes :=
  match List.find (fun kv => bool_decide (kv.1 = bs "SMOLVM_CUDA_DEVICE")) (rev env) with
  | None => Ok 0
  | Some (_, value) => ok_or (parse_uint 32 value) value
  end.

Record ForkPoolAdmissionLimit := MkLimit { limit_pool : Z; limit_device : Z }.

Inductive ForkPoolSlotState := Provisioning | Ready | SlotActivating | Leased | Retiring.
#[global] Instance ForkPoolSlotState_eq_dec : EqDecision ForkPoolSlotState.
Proof. solve_decision. Defined.

Definition slot_as_str (s : ForkPoolSlotState) : bytes :=
  match s with
  | Provisioning => bs "provisioning"
  | Ready => bs "ready"
  | SlotActivating => bs "activating"
  | Leased => bs "leased"
  | Retiring => bs "retiring"
  end.

Record ForkPoolSlotRecord := MkSlot {
  s_pool_name : bytes;
  s_machine_name : bytes;
  s_state : ForkPoolSlotState;
  s_lease_id : option bytes;
  s_created_at : Z;
  s_updated_at : Z;
  s_last_error : option bytes;
}.

Inductive ForkLeaseState := Activating | Active | Completed | Expired | Failed | Cancelled.
#[global] Instance ForkLeaseState_eq_dec : EqDecision ForkLeaseState.
Proof. solve_decision. Defined.

Definition lease_as_str (s : ForkLeaseState) : bytes :=
  match s with
  | Activating => bs "activating"
  | Active => bs "active"
  | Completed => bs "completed"
  | Expired => bs "expired"
  | Failed => bs "failed"
  | Cancelled => bs "cancelled"
  end.

Record ForkLeaseRecord := MkLease {
  l_id : bytes;
  l_pool_name : bytes;
  l_machine_name : bytes;
  l_idempotency_key : bytes;
  l_state : ForkLeaseState;
  l_assignment : list (bytes * bytes);
  l_payload_sha256 : option bytes;
  l_created_at : Z;
  l_updated_at : Z;
  l_expires_at : Z;
  l_ttl_secs : Z;
  l_last_error : option bytes;
}.

Inductive ClaimForkPoolSlot :=
| Claimed (lease : ForkLeaseRecord)
| Existing (lease : ForkLeaseRecord)
| NoReadySlot
| AtCapacity
| PoolNotFound
| PoolDeleting
| WorkspaceExternallyMounted.

Inductive RecordState :=
| Created | Running | Stopped | Paused | Pausing | RecordFailed | Unreachable | Frozen.
#[global] Instance RecordState_eq_dec : EqDecision RecordState.
Proof. solve_decision. Defined.

(** The fields of [VmRecord] the pool and its controller read and write. *)
Record VmRecord := MkVm {
  vm_golden : option bytes;
  forkpoint_held : bool;
  fork_env : list (bytes * bytes);
  vm_env : list (bytes * bytes);
  mounts : list (bytes * bytes * bool);
  vm_state : RecordState;
  vm_pid : option Z;
  pid_start_time : option Z;
}.

Record ForkPoolSlotClaim := MkClaim {
  c_pool_name : bytes;
  c_lease_id : bytes;
  c_idempotency_key : bytes;
  c_assignment : list (bytes * bytes);
  c_payload_sha256 : option bytes;
  c_require_private_workspace : bool;
  c_admission_limit : option ForkPoolAdmissionLimit;
  c_ttl_secs : Z;
  c_now : Z;
}.

(** ** Helpers of the claim *)

Definition push_component (components : list bytes) (component : bytes) : list bytes :=
  if bool_decide (component = []) || bool_decide (component = bs ".") then components
  else if bool_decide (component = bs "..") then removelast components
  else components ++ [component].
Definition targets_workspace_tree (target : bytes) : bool :=
  bool_decide (head (foldl push_component [] (split 47 target)) = Some (bs "workspace")).

Definition merge_fork_env (initial assignment : list (bytes * bytes)) : list (bytes * bytes) :=
  foldl (fun merged kv =>
    List.filter (fun e => negb (bool_decide (e.1 = kv.1))) merged ++ [kv]) initial assignment.

Definition record_fork_activation (vm : VmRecord) (assignment merged : list (bytes * bytes)) :
    VmRecord :=
  let keys := map fst assignment in
  MkVm (vm_golden vm) false merged
    (List.filter (fun e => negb (bool_decide (e.1 ∈ keys))) (vm_env vm) ++ assignment)
    (mounts vm) (vm_state vm) (vm_pid vm) (pid_start_time vm).

(** ** The tables *)

Record SlotRow := MkSlotRow { sr_pool : bytes; sr_state : bytes; sr_data : ForkPoolSlotRecord }.
Record LeaseRow := MkLeaseRow {
  lr_pool : bytes;
  lr_key : bytes;
  lr_state : bytes;
  lr_data : ForkLeaseRecord;
}.

(** A [vms] blob that does not decode is [None]. *)
Record Db := MkDb {
  pools : gmap bytes ForkPoolRecord;
  slots : gmap bytes SlotRow;
  leases : gmap bytes LeaseRow;
  vms : gmap bytes (option VmRecord);
  snapshots : gmap bytes bytes;
}.

Definition with_pools (f : gmap bytes ForkPoolRecord -> gmap bytes ForkPoolRecord) (d : Db) : Db :=
  MkDb (f (pools d)) (slots d) (leases d) (vms d) (snapshots d).
Definition with_slots (f : gmap bytes SlotRow -> gmap bytes SlotRow) (d : Db) : Db :=
  MkDb (pools d) (f (slots d)) (leases d) (vms d) (snapshots d).
Definition with_leases (f : gmap bytes LeaseRow -> gmap bytes LeaseRow) (d : Db) : Db :=
  MkDb (pools d) (slots d) (f (leases d)) (vms d) (snapshots d).
Definition with_vms (f : gmap bytes (option VmRecord) -> gmap bytes (option VmRecord)) (d : Db) : Db :=
  MkDb (pools d) (slots d) (leases d) (f (vms d)) (snapshots d).

(** [ORDER BY] on a text column compares bytes. *)
Fixpoint bytes_leb (a b : bytes) : bool :=
  match a, b with
  | [], _ => true
  | _ :: _, [] => false
  | x :: a, y :: b => if x <? y then true else if y <? x then false else bytes_leb a b
  end.
Definition key_le {A} (x y : bytes * A) : Prop := bytes_leb x.1 y.1 = true.
#[global] Instance key_le_dec {A} (x y : bytes * A) : Decision (key_le x y).
Proof. unfold key_le. apply _. Defined.

Definition select {A} (where_ : A -> bool) (m : gmap bytes A) : list (bytes * A) :=
  List.filter (fun kv => where_ kv.2) (map_to_list m).
Definition order_by_key {A} (l : list (bytes * A)) : list (bytes * A) := merge_sort key_le l.
Definition count {A} (where_ : A -> bool) (m : gmap bytes A) : Z := len (select where_ m).

(** [UPDATE fork_pool_slots SET state, data WHERE machine_name]. *)
Definition update_slot (machine : bytes) (data : ForkPoolSlotRecord) (state : bytes) (d : Db) : Db :=
  with_slots (alter (fun row => MkSlotRow (sr_pool row) state data) machine) d.
(** [UPDATE fork_leases SET state, data WHERE id]. *)
Definition update_lease (id : bytes) (data : ForkLeaseRecord) (state : bytes) (d : Db) : Db :=
  with_leases (alter (fun row => MkLeaseRow (lr_pool row) (lr_key row) state data) id) d.

Definition slot_in (pool : bytes) (states : list ForkPoolSlotState) (row : SlotRow) : bool :=
  bool_decide (sr_pool row = pool) && bool_decide (sr_state row ∈ map slot_as_str states).
Definition lease_state_in (states : list ForkLeaseState) (row : LeaseRow) : bool :=
  bool_decide (lr_state row ∈ map lease_as_str states).
Definition lease_in (pool : bytes) (states : list ForkLeaseState) (row : LeaseRow) : bool :=
  bool_decide (lr_pool row = pool) && lease_state_in states row.
Definition live : list ForkLeaseState := [Activating; Active].

(** ** Pools *)

Definition insert_fork_pool_if_not_exists (pool : ForkPoolRecord) (d : Db) : bool * Db :=
  match pools d !! p_name pool with
  | Some _ => (false, d)
  | None => (true, with_pools (insert (p_name pool) pool) d)
  end.
Definition get_fork_pool (name : bytes) (d : Db) : option ForkPoolRecord := pools d !! name.
Definition list_fork_pools (d : Db) : list ForkPoolRecord :=
  map snd (order_by_key (map_to_list (pools d))).

Definition set_retained_fork_snapshot (golden data : bytes) (d : Db) : Db :=
  MkDb (pools d) (slots d) (leases d) (vms d) (<[golden := data]> (snapshots d)).
Definition retained_fork_snapshot (golden : bytes) (d : Db) : option bytes := snapshots d !! golden.
Definition list_retained_fork_snapshots (d : Db) : list (bytes * bytes) :=
  order_by_key (map_to_list (snapshots d)).
Definition remove_retained_fork_snapshot (golden : bytes) (d : Db) : bool * Db :=
  (bool_decide (is_Some (snapshots d !! golden)),
   MkDb (pools d) (slots d) (leases d) (vms d) (delete golden (snapshots d))).

(** Provisioning slots first, then by machine name. *)
Definition surplus_candidates (name : bytes) (d : Db) : list (bytes * SlotRow) :=
  order_by_key (select (slot_in name [Provisioning]) (slots d))
  ++ order_by_key (select (slot_in name [Ready]) (slots d)).

Definition set_slot_state (st : ForkPoolSlotState) (now : Z) (s : ForkPoolSlotRecord) :=
  MkSlot (s_pool_name s) (s_machine_name s) st (s_lease_id s) (s_created_at s) now (s_last_error s).
Definition set_slot_state_error (st : ForkPoolSlotState) (now : Z) (err : option bytes)
    (s : ForkPoolSlotRecord) :=
  MkSlot (s_pool_name s) (s_machine_name s) st (s_lease_id s) (s_created_at s) now err.

(** The loops that retire the slots a query returned, by the record's name. *)
Definition retire_slot (now : Z) (d : Db) (row : bytes * SlotRow) : Db :=
  let slot := set_slot_state Retiring now (sr_data row.2) in
  update_slot (s_machine_name slot) slot (bs "retiring") d.

Definition set_desired_ready (n : Z) (p : ForkPoolRecord) : ForkPoolRecord :=
  MkPool (p_name p) (p_golden p) n (max_active p) (auto_admission p) (cuda_device_ordinal p)
    (share_weights p) (freeze_source p) (ready_timeout_secs p) (lease_ttl_secs p)
    (p_created_at p) (deleting p).
Definition set_deleting (p : ForkPoolRecord) : ForkPoolRecord :=
  MkPool (p_name p) (p_golden p) (desired_ready p) (max_active p) (auto_admission p)
    (cuda_device_ordinal p) (share_weights p) (freeze_source p) (ready_timeout_secs p)
    (lease_ttl_secs p) (p_created_at p) true.

Definition resize_fork_pool (name : bytes) (desired now : Z) (d : Db) : option ForkPoolRecord * Db :=
  match pools d !! name with
  | None => (None, d)
  | Some pool =>
      if deleting pool then (Some pool, d)
      else
        let pool := set_desired_ready desired pool in
        let d := with_pools (alter (fun _ => pool) name) d in
        let available := surplus_candidates name d in
        let surplus := (length available - Z.to_nat desired)%nat in
        (Some pool, foldl (retire_slot now) d (take surplus available))
  end.

(** ** Slots *)

Definition list_fork_pool_slots (pool : bytes) (d : Db) : list ForkPoolSlotRecord :=
  map (fun kv => sr_data kv.2)
    (order_by_key (select (fun row => bool_decide (sr_pool row = pool)) (slots d))).
Definition get_fork_pool_slot (machine : bytes) (d : Db) : option ForkPoolSlotRecord :=
  sr_data <$> slots d !! machine.

Definition available (pool : bytes) (d : Db) : Z := count (slot_in pool [Provisioning; Ready]) (slots d).

Definition fork_pool_ready_deficit (pool_name : bytes) (d : Db) : Z :=
  match pools d !! pool_name with
  | None => 0
  | Some pool =>
      if deleting pool then 0
      else if count (slot_in pool_name [SlotActivating]) (slots d) >? 0 then 0
      else saturating_sub (desired_ready pool) (available pool_name d)
  end.

Definition fork_pool_admission_counts (pool : bytes) (d : Db) : Z * Z :=
  (count (lease_in pool live) (leases d), count (lease_in pool [Completed]) (leases d)).

Definition reserve_fork_pool_slot (pool_name machine_name : bytes) (now : Z) (d : Db) : bool * Db :=
  match pools d !! pool_name with
  | None => (false, d)
  | Some pool =>
      if deleting pool then (false, d)
      else if count (slot_in pool_name [SlotActivating]) (slots d) >? 0 then (false, d)
      else if available pool_name d >=? desired_ready pool then (false, d)
      else
        let slot := MkSlot pool_name machine_name Provisioning None now now None in
        match slots d !! machine_name with
        | Some _ => (false, d)
        | None =>
            (true, with_slots
               (insert machine_name (MkSlotRow pool_name (slot_as_str Provisioning) slot)) d)
        end
  end.

Definition update_fork_pool_slot_state (machine : bytes) (expected next : ForkPoolSlotState)
    (now : Z) (error : option bytes) (d : Db) : bool * Db :=
  match slots d !! machine with
  | Some row =>
      if bool_decide (sr_state row = slot_as_str expected) then
        let slot := set_slot_state_error next now error (sr_data row) in
        (true, update_slot machine slot (slot_as_str next) d)
      else (false, d)
  | None => (false, d)
  end.
Definition mark_fork_pool_slot_ready (machine : bytes) (now : Z) :=
  update_fork_pool_slot_state machine Provisioning Ready now None.
Definition mark_fork_pool_slot_retiring_from (machine : bytes) (expected : ForkPoolSlotState)
    (now : Z) (error : option bytes) :=
  update_fork_pool_slot_state machine expected Retiring now error.
Definition mark_fork_pool_slot_retiring (machine : bytes) (now : Z) (error : option bytes) (d : Db) :
    bool * Db :=
  match slots d !! machine with
  | None => (false, d)
  | Some row =>
      let slot := set_slot_state_error Retiring now error (sr_data row) in
      (true, update_slot machine slot (slot_as_str Retiring) d)
  end.
Definition list_retiring_fork_pool_slots (d : Db) : list ForkPoolSlotRecord :=
  map (fun kv => sr_data kv.2)
    (select (fun row => bool_decide (sr_state row = bs "retiring")) (slots d)).
Definition remove_fork_pool_slot (machine : bytes) (d : Db) : bool * Db :=
  (bool_decide (is_Some (slots d !! machine)), with_slots (delete machine) d).

(** ** The claim *)

Definition effective_max_active (pool : ForkPoolRecord) (limit : option ForkPoolAdmissionLimit) :
    option Z :=
  match max_active pool, option_map limit_pool limit with
  | Some configured, Some adaptive => Some (Z.min configured adaptive)
  | Some configured, None => Some configured
  | None, adaptive => adaptive
  end.

(** [SELECT pool_name, COUNT( * ) ... GROUP BY pool_name]. *)
Definition live_by_pool (d : Db) : list (bytes * Z) :=
  map (fun name => (name, count (lease_in name live) (leases d)))
    (remove_dups (map (fun kv => lr_pool kv.2) (select (lease_state_in live) (leases d)))).

Definition active_on_device (pool_name : bytes) (pool : ForkPoolRecord) (ordinal : Z) (d : Db) : Z :=
  foldl (fun active g =>
    let active_pool := if bool_decide (g.1 = pool_name) then Some pool else pools d !! g.1 in
    if bool_decide ((let! p := active_pool in admission_device_ordinal p) = Some ordinal)
    then saturating_add 32 active g.2 else active) 0 (live_by_pool d).

Definition vm_valid (golden : bytes) (vm : option (option VmRecord)) : bool :=
  match vm with
  | Some (Some vm) => forkpoint_held vm && bool_decide (vm_golden vm = Some golden)
  | _ => false
  end.

(** The loop over the ready slots: retire the ones whose machine is not a held
    fork of the golden, stop at the first that is. *)
Fixpoint select_ready (golden : bytes) (now : Z) (rows : list (bytes * SlotRow)) (d : Db) :
    option (bytes * ForkPoolSlotRecord * VmRecord) * Db :=
  match rows with
  | [] => (None, d)
  | (machine, row) :: rows =>
      match vms d !! machine with
      | Some (Some vm) =>
          if vm_valid golden (Some (Some vm)) then (Some (machine, sr_data row, vm), d)
          else
            select_ready golden now rows
              (update_slot machine
                 (set_slot_state_error Retiring now
                    (Some (bs "ready slot no longer has a matching held VM")) (sr_data row))
                 (bs "retiring") d)
      | _ =>
          select_ready golden now rows
            (update_slot machine
               (set_slot_state_error Retiring now
                  (Some (bs "ready slot no longer has a matching held VM")) (sr_data row))
               (bs "retiring") d)
      end
  end.

(** The error of a transaction; [Constraint] is a violated key. *)
Inductive DbError := Constraint.

Definition find_by_key (pool key : bytes) (d : Db) : option LeaseRow :=
  match select (fun row => bool_decide (lr_pool row = pool) && bool_decide (lr_key row = key))
          (leases d) with
  | (_, row) :: _ => Some row
  | [] => None
  end.

(** [INSERT INTO fork_leases]: fails on a duplicate id or (pool, key). *)
Definition insert_lease (id : bytes) (row : LeaseRow) (d : Db) : result Db DbError :=
  if bool_decide (is_Some (leases d !! id))
     || bool_decide (is_Some (find_by_key (lr_pool row) (lr_key row) d))
  then Err Constraint
  else Ok (with_leases (insert id row) d).

Definition at_capacity (c : ForkPoolSlotClaim) (pool : ForkPoolRecord) (d : Db) : bool :=
  (match effective_max_active pool (c_admission_limit c) with
   | Some m => count (lease_in (c_pool_name c) live) (leases d) >=? m
   | None => false
   end)
  || match c_admission_limit c, admission_device_ordinal pool with
     | Some limit, Some ordinal =>
         active_on_device (c_pool_name c) pool ordinal d >=? limit_device limit
     | _, _ => false
     end.

Definition new_lease (c : ForkPoolSlotClaim) (machine : bytes) : ForkLeaseRecord :=
  MkLease (c_lease_id c) (c_pool_name c) machine (c_idempotency_key c) Activating
    (c_assignment c) (c_payload_sha256 c) (c_now c) (c_now c)
    (saturating_add 64 (c_now c) FORK_LEASE_ACTIVATION_GRACE_SECS) (c_ttl_secs c) None.

(** What the claim writes once a worker is selected. *)
Definition consume (c : ForkPoolSlotClaim) (machine : bytes) (slot : ForkPoolSlotRecord)
    (vm : VmRecord) (d : Db) : result Db DbError :=
  let vm := record_fork_activation vm (c_assignment c) (merge_fork_env (fork_env vm) (c_assignment c)) in
  let d := with_vms (alter (fun _ => Some vm) machine) d in
  let slot := MkSlot (s_pool_name slot) (s_machine_name slot) SlotActivating (Some (c_lease_id c))
    (s_created_at slot) (c_now c) (s_last_error slot) in
  let d := update_slot machine slot (bs "activating") d in
  insert_lease (c_lease_id c)
    (MkLeaseRow (c_pool_name c) (c_idempotency_key c) (bs "activating") (new_lease c machine)) d.

Definition claim_fork_pool_slot (c : ForkPoolSlotClaim) (d0 : Db) :
    result ClaimForkPoolSlot DbError * Db :=
  match find_by_key (c_pool_name c) (c_idempotency_key c) d0 with
  | Some row => (Ok (Existing (lr_data row)), d0)
  | None =>
      match pools d0 !! c_pool_name c with
      | None => (Ok PoolNotFound, d0)
      | Some pool =>
          if deleting pool then (Ok PoolDeleting, d0)
          else if at_capacity c pool d0 then (Ok AtCapacity, d0)
          else
            let rows := order_by_key (select (slot_in (c_pool_name c) [Ready]) (slots d0)) in
            let (selected, d) := select_ready (p_golden pool) (c_now c) rows d0 in
            match selected with
            | None => (Ok NoReadySlot, d)
            | Some (machine, slot, vm) =>
                if c_require_private_workspace c
                   && existsb (fun m => targets_workspace_tree m.1.2) (mounts vm)
                then (Ok WorkspaceExternallyMounted, d)
                else
                  match consume c machine slot vm d with
                  | Ok d => (Ok (Claimed (new_lease c machine)), d)
                  | Err e => (Err e, d0)
                  end
            end
      end
  end.

(** ** Leases *)

Definition get_fork_lease (pool id : bytes) (d : Db) : option ForkLeaseRecord :=
  let! row := leases d !! id in
  if bool_decide (lr_pool row = pool) then Some (lr_data row) else None.
Definition get_fork_lease_by_id (id : bytes) (d : Db) : option ForkLeaseRecord :=
  lr_data <$> leases d !! id.

Definition set_lease (st : ForkLeaseState) (now expires : Z) (err : option bytes)
    (l : ForkLeaseRecord) : ForkLeaseRecord :=
  MkLease (l_id l) (l_pool_name l) (l_machine_name l) (l_idempotency_key l) st (l_assignment l)
    (l_payload_sha256 l) (l_created_at l) now expires (l_ttl_secs l) err.

Definition transition_fork_lease (id : bytes) (expected next : ForkLeaseState)
    (slot_next : ForkPoolSlotState) (now : Z) (error : option bytes) (d : Db) :
    option ForkLeaseRecord * Db :=
  match leases d !! id with
  | None => (None, d)
  | Some row =>
      let lease := lr_data row in
      if bool_decide (l_state lease <> expected) then (Some lease, d)
      else
        let expires :=
          if bool_decide (expected = Activating) && bool_decide (next = Active)
          then saturating_add 64 now (l_ttl_secs lease) else l_expires_at lease in
        let lease := set_lease next now expires error lease in
        let d := update_lease id lease (lease_as_str next) d in
        let d :=
          match slots d !! l_machine_name lease with
          | Some srow =>
              update_slot (l_machine_name lease)
                (set_slot_state_error slot_next now error (sr_data srow)) (slot_as_str slot_next) d
          | None => d
          end in
        (Some lease, d)
  end.

Definition mark_fork_lease_active (id : bytes) (now : Z) :=
  transition_fork_lease id Activating Active Leased now None.
Definition fail_fork_lease (id : bytes) (now : Z) (error : bytes) :=
  transition_fork_lease id Activating Failed Retiring now (Some error).
Definition fail_active_fork_lease (id : bytes) (now : Z) (error : bytes) :=
  transition_fork_lease id Active Failed Retiring now (Some error).

Definition heartbeat_fork_lease (pool id : bytes) (now : Z) (d : Db) : option ForkLeaseRecord * Db :=
  match leases d !! id with
  | Some row =>
      if bool_decide (lr_pool row = pool) then
        let lease := lr_data row in
        if bool_decide (l_state lease = Active) && (l_expires_at lease >? now) then
          let lease := set_lease Active now (saturating_add 64 now (l_ttl_secs lease))
                         (l_last_error lease) lease in
          (Some lease, with_leases
             (alter (fun r => MkLeaseRow (lr_pool r) (lr_key r) (lr_state r) lease) id) d)
        else (Some lease, d)
      else (None, d)
  | None => (None, d)
  end.

Definition complete_fork_lease (pool id : bytes) (now : Z) (d : Db) : option ForkLeaseRecord * Db :=
  match get_fork_lease pool id d with
  | None => (None, d)
  | Some lease =>
      if bool_decide (l_state lease <> Active) then (Some lease, d)
      else transition_fork_lease id Active Completed Retiring now None d
  end.

(** One iteration of [expire_fork_leases]. *)
Definition expire_lease (now : Z) (acc : list ForkLeaseRecord * Db) (kv : bytes * LeaseRow) :
    list ForkLeaseRecord * Db :=
  let (expired, d) := acc in
  let lease := lr_data kv.2 in
  if l_expires_at lease >? now then acc
  else
    let lease := set_lease Expired now (l_expires_at lease) (l_last_error lease) lease in
    let d := update_lease (l_id lease) lease (bs "expired") d in
    let d :=
      match slots d !! l_machine_name lease with
      | Some srow =>
          update_slot (l_machine_name lease) (set_slot_state Retiring now (sr_data srow))
            (bs "retiring") d
      | None => d
      end in
    (expired ++ [lease], d).
Definition expire_fork_leases (now : Z) (d : Db) : list ForkLeaseRecord * Db :=
  foldl (expire_lease now) ([], d) (select (lease_state_in live) (leases d)).

Definition list_active_fork_leases (d : Db) : list ForkLeaseRecord :=
  map (fun kv => lr_data kv.2) (select (lease_state_in [Active]) (leases d)).

(** ** Deletion *)

Definition cancel_lease (now : Z) (d : Db) (kv : bytes * LeaseRow) : Db :=
  let lease := lr_data kv.2 in
  let lease := set_lease Cancelled now (l_expires_at lease) (l_last_error lease) lease in
  update_lease (l_id lease) lease (bs "cancelled") d.

Definition begin_delete_fork_pool (name : bytes) (force : bool) (now : Z) (d : Db) :
    option bool * Db :=
  match pools d !! name with
  | None => (None, d)
  | Some pool =>
      if (count (lease_in name live) (leases d) >? 0) && negb force then (Some false, d)
      else
        let d := with_pools (alter (fun _ => set_deleting pool) name) d in
        let d := foldl (retire_slot now) d
                   (select (fun row => bool_decide (sr_pool row = name)) (slots d)) in
        let d :=
          if force
          then foldl (cancel_lease now) d (select (lease_in name live) (leases d))
          else d in
        (Some true, d)
  end.

Definition finalize_pool (acc : list bytes * Db) (kv : bytes * ForkPoolRecord) : list bytes * Db :=
  let (removed, d) := acc in
  if negb (deleting kv.2) then acc
  else if count (fun row => bool_decide (sr_pool row = kv.1)) (slots d) =? 0 then
    let d := with_leases (filter (fun r => lr_pool r.2 <> kv.1)) d in
    (removed ++ [kv.1], with_pools (delete kv.1) d)
  else acc.
Definition finalize_deleted_fork_pools (d : Db) : list bytes * Db :=
  foldl finalize_pool ([], d) (map_to_list (pools d)).

(** ** The operations as steps *)

Inductive PoolOp :=
| OpInsertPool (p : ForkPoolRecord)
| OpSetSnapshot (golden data : bytes)
| OpRemoveSnapshot (golden : bytes)
| OpResize (name : bytes) (desired now : Z)
| OpReserve (pool machine : bytes) (now : Z)
| OpReady (machine : bytes) (now : Z)
| OpRetireFrom (machine : bytes) (expected : ForkPoolSlotState) (now : Z) (error : option bytes)
| OpRetire (machine : bytes) (now : Z) (error : option bytes)
| OpRemoveSlot (machine : bytes)
| OpClaim (c : ForkPoolSlotClaim)
| OpMarkActive (id : bytes) (now : Z)
| OpFail (id : bytes) (now : Z) (error : bytes)
| OpFailActive (id : bytes) (now : Z) (error : bytes)
| OpHeartbeat (pool id : bytes) (now : Z)
| OpComplete (pool id : bytes) (now : Z)
| OpExpire (now : Z)
| OpDelete (name : bytes) (force : bool) (now : Z)
| OpFinalize.

Definition run_op (op : PoolOp) (d : Db) : Db :=
  match op with
  | OpInsertPool p => (insert_fork_pool_if_not_exists p d).2
  | OpSetSnapshot g s => set_retained_fork_snapshot g s d
  | OpRemoveSnapshot g => (remove_retained_fork_snapshot g d).2
  | OpResize n k now => (resize_fork_pool n k now d).2
  | OpReserve p m now => (reserve_fork_pool_slot p m now d).2
  | OpReady m now => (mark_fork_pool_slot_ready m now d).2
  | OpRetireFrom m e now err => (mark_fork_pool_slot_retiring_from m e now err d).2
  | OpRetire m now err => (mark_fork_pool_slot_retiring m now err d).2
  | OpRemoveSlot m => (remove_fork_pool_slot m d).2
  | OpClaim c => (claim_fork_pool_slot c d).2
  | OpMarkActive i now => (mark_fork_lease_active i now d).2
  | OpFail i now e => (fail_fork_lease i now e d).2
  | OpFailActive i now e => (fail_active_fork_lease i now e d).2
  | OpHeartbeat p i now => (heartbeat_fork_lease p i now d).2
  | OpComplete p i now => (complete_fork_lease p i now d).2
  | OpExpire now => (expire_fork_leases now d).2
  | OpDelete n f now => (begin_delete_fork_pool n f now d).2
  | OpFinalize => (finalize_deleted_fork_pools d).2
  end.

End Pool.

(** ** The order of strings *)

Module BytesOrder.
Import Pool.

Lemma bytes_leb_total a b : bytes_leb a b = true \/ bytes_leb b a = true.
Proof.
  revert b. induction a as [|x a IH]; intros [|y b]; simpl; auto.
  destruct (Z.ltb_spec x y); [by left|]. destruct (Z.ltb_spec y x); [by right|]. apply IH.
Qed.
Lemma bytes_leb_antisym a b : bytes_leb a b = true -> bytes_leb b a = true -> a = b.
Proof.
  revert b. induction a as [|x a IH]; intros [|y b]; simpl; try done.
  destruct (Z.ltb_spec x y), (Z.ltb_spec y x); try done; [lia|]. intros H1 H2. rewrite (IH b H1 H2). f_equal. lia.
Qed.
Lemma bytes_leb_trans a b c : bytes_leb a b = true -> bytes_leb b c = true -> bytes_leb a c = true.
Proof.
  revert b c. induction a as [|x a IH]; intros [|y b] [|z c]; simpl; try done.
  destruct (Z.ltb_spec x y), (Z.ltb_spec y x), (Z.ltb_spec y z), (Z.ltb_spec z y), (Z.ltb_spec x z), (Z.ltb_spec z x);
    try done; try lia. by apply IH.
Qed.
End BytesOrder.
