(* ===== verification/ForkPoolFacts.v ===== *)
(** * ForkPoolFacts: queries, loops and the table invariant of the fork pool

    Counting over finite maps, the closed form of the loops over query results,
    and [db_ok]: the indexed columns of every row agree with the record in its
    blob, keys are unique, no slot outlives its pool and no pool is overfilled. *)

From S2P Require Import Prelude RustStr ForkPool.

Module PoolFacts.
Import Str Pool.

(** ** Counting *)

Section Count.
Context {A : Type}.
Implicit Types (f g : A -> bool) (m : gmap bytes A).

Definition b2z (b : bool) : Z := if b then 1 else 0.

Lemma count_perm f (l k : list (bytes * A)) :
  l ≡ₚ k -> len (List.filter (fun kv => f kv.2) l) = len (List.filter (fun kv => f kv.2) k).
Proof.
  unfold len. induction 1 as [|x l k _ IH|x y l|l k j _ IH1 _ IH2]; simpl; try done; try lia.
  - destruct (f x.2); simpl; lia.
  - destruct (f x.2), (f y.2); simpl; lia.
Qed.

Lemma count_insert_None f m k x :
  m !! k = None -> count f (<[k := x]> m) = count f m + b2z (f x).
Proof.
  intros H. unfold count, select. rewrite (count_perm f _ _ (map_to_list_insert m k x H)).
  cbn [List.filter snd]. destruct (f x); cbn [b2z]; rewrite ?len_cons; lia.
Qed.

Lemma count_insert_Some f m k x y :
  m !! k = Some y -> count f (<[k := x]> m) = count f m + b2z (f x) - b2z (f y).
Proof.
  intros H. rewrite <-insert_delete_eq, count_insert_None by apply lookup_delete_eq.
  rewrite <-(insert_delete_id m k y H) at 2.
  rewrite count_insert_None by apply lookup_delete_eq. lia.
Qed.

Lemma elem_of_select f m k x : (k, x) ∈ select f m <-> m !! k = Some x /\ f x = true.
Proof.
  unfold select. rewrite list_elem_of_In, filter_In, <-list_elem_of_In, elem_of_map_to_list. done.
Qed.

Lemma NoDup_select f m : NoDup (select f m).*1.
Proof.
  unfold select. pose proof (NoDup_fst_map_to_list m) as H.
  induction (map_to_list m) as [|[k x] l IH]; simpl in *; [constructor|].
  apply NoDup_cons in H as [Hk Hl]. destruct (f x); simpl; [|by apply IH].
  constructor; [|by apply IH]. intros Hin. apply Hk.
  apply list_elem_of_fmap in Hin as ([k' y] & -> & Hin). apply list_elem_of_fmap.
  exists (k', y). split; [done|].
  apply list_elem_of_In, filter_In in Hin as [Hin _]. by apply list_elem_of_In.
Qed.

Lemma count_size f m : count f m = Z.of_nat (length (select f m).*1).
Proof. unfold count, len. by rewrite length_fmap. Qed.

(** A count can only grow by rows that come to satisfy the condition. *)
Lemma count_mono f g m m' :
  (forall k x', m' !! k = Some x' -> g x' = true -> exists x, m !! k = Some x /\ f x = true) ->
  count g m' <= count f m.
Proof.
  intros H. rewrite !count_size. apply inj_le, submseteq_length.
  apply NoDup_submseteq; [apply NoDup_select|].
  intros k ([k' x'] & -> & Hx)%list_elem_of_fmap. apply elem_of_select in Hx as [Hx Hg].
  destruct (H _ _ Hx Hg) as (x & Hm & Hf). apply list_elem_of_fmap.
  exists (k', x). split; [done|]. by apply elem_of_select.
Qed.

Lemma count_ext f g m m' :
  (forall k, option_map f (m !! k) = option_map g (m' !! k)) -> count f m = count g m'.
Proof.
  intros H. apply Z.le_antisymm; apply count_mono; intros k x' Hx Hf; specialize (H k);
    rewrite Hx in H; simpl in H.
  - destruct (m' !! k); inv H. by eexists; rewrite <-Hf.
  - destruct (m !! k); inv H. by eexists; rewrite <-Hf.
Qed.

Lemma count_nonneg f m : 0 <= count f m.
Proof. apply len_nonneg. Qed.

Lemma count_zero f m : count f m = 0 <-> forall k x, m !! k = Some x -> f x = false.
Proof.
  unfold count. split.
  - intros H k x Hx. apply not_true_is_false. intros Hf.
    assert ((k, x) ∈ select f m) as Hin by by apply elem_of_select.
    destruct (select f m); [by apply elem_of_nil in Hin|]. rewrite len_cons in H.
    pose proof (len_nonneg l). lia.
  - intros H. destruct (select f m) as [|[k x] l] eqn:E; [done|].
    assert ((k, x) ∈ select f m) as Hin by (rewrite E; left).
    apply elem_of_select in Hin as [Hx Hf]. by rewrite (H _ _ Hx) in Hf.
Qed.

Lemma elem_of_order_by_key (l : list (bytes * A)) x : x ∈ order_by_key l <-> x ∈ l.
Proof. unfold order_by_key. by rewrite (merge_sort_Permutation key_le l). Qed.

Lemma NoDup_order_by_key (l : list (bytes * A)) : NoDup l.*1 -> NoDup (order_by_key l).*1.
Proof. intros H. unfold order_by_key. by rewrite (merge_sort_Permutation key_le l). Qed.

Lemma length_order_by_key (l : list (bytes * A)) : length (order_by_key l) = length l.
Proof. unfold order_by_key. by rewrite (merge_sort_Permutation key_le l). Qed.

End Count.

(** ** State columns *)

Lemma slot_as_str_inj s t : slot_as_str s = slot_as_str t -> s = t.
Proof. by destruct s, t. Qed.
Lemma lease_as_str_inj s t : lease_as_str s = lease_as_str t -> s = t.
Proof. by destruct s, t. Qed.

(** ** The invariant *)

Definition slot_ok (m : bytes) (row : SlotRow) : Prop :=
  s_machine_name (sr_data row) = m /\ s_pool_name (sr_data row) = sr_pool row
  /\ sr_state row = slot_as_str (s_state (sr_data row)).
Definition lease_ok (id : bytes) (row : LeaseRow) : Prop :=
  l_id (lr_data row) = id /\ l_pool_name (lr_data row) = lr_pool row
  /\ l_idempotency_key (lr_data row) = lr_key row
  /\ lr_state row = lease_as_str (l_state (lr_data row)).
Definition keys_unique (m : gmap bytes LeaseRow) : Prop :=
  forall i j ri rj, m !! i = Some ri -> m !! j = Some rj ->
    lr_pool ri = lr_pool rj -> lr_key ri = lr_key rj -> i = j.

Definition is_available (pool : bytes) : SlotRow -> bool := slot_in pool [Provisioning; Ready].

Record db_ok (d : Db) : Prop := {
  ok_pools : forall n p, pools d !! n = Some p -> p_name p = n;
  ok_slots : map_Forall slot_ok (slots d);
  ok_leases : map_Forall lease_ok (leases d);
  ok_keys : keys_unique (leases d);
  ok_owned : forall m row, slots d !! m = Some row -> is_Some (pools d !! sr_pool row);
  ok_filled : forall n p, pools d !! n = Some p -> available n d <= Z.max 0 (desired_ready p);
}.

(** ** Rows that evolve *)

Definition terminal (s : ForkLeaseState) : bool :=
  match s with Activating | Active => false | _ => true end.

(** The lifecycle of one lease: what never changes, and the transitions. *)
Definition lease_step (a b : ForkLeaseRecord) : Prop :=
  l_id b = l_id a /\ l_pool_name b = l_pool_name a /\ l_machine_name b = l_machine_name a
  /\ l_idempotency_key b = l_idempotency_key a /\ l_assignment b = l_assignment a
  /\ l_payload_sha256 b = l_payload_sha256 a /\ l_created_at b = l_created_at a
  /\ l_ttl_secs b = l_ttl_secs a
  /\ match l_state a with
     | Activating => True
     | Active => l_state b <> Activating
     | _ => b = a
     end.

(** One slot row against its successor in a transaction: same pool, and made
    available only from available. *)
Definition slots_le (m m' : gmap bytes SlotRow) : Prop :=
  forall k row', m' !! k = Some row' ->
    exists row, m !! k = Some row /\ sr_pool row' = sr_pool row
      /\ (forall pool, is_available pool row' = true -> is_available pool row = true).
Definition leases_le (m m' : gmap bytes LeaseRow) : Prop :=
  forall i row, m !! i = Some row ->
    exists row', m' !! i = Some row' /\ lr_pool row' = lr_pool row /\ lr_key row' = lr_key row
      /\ lease_step (lr_data row) (lr_data row').

#[global] Instance slots_le_refl : Reflexive slots_le.
Proof. intros m k row H. by exists row. Qed.
#[global] Instance slots_le_trans : Transitive slots_le.
Proof.
  intros a b c H1 H2 k row Hr. destruct (H2 _ _ Hr) as (r2 & Hr2 & Hp2 & Ha2).
  destruct (H1 _ _ Hr2) as (r1 & Hr1 & Hp1 & Ha1). exists r1.
  split; [done|]. split; [congruence|]. auto.
Qed.

#[global] Instance lease_step_refl : Reflexive lease_step.
Proof. intros a. repeat split. by destruct (l_state a). Qed.
Lemma lease_step_trans a b c : lease_step a b -> lease_step b c -> lease_step a c.
Proof.
  unfold lease_step. intros H1 H2. destruct_and!. repeat (split; [congruence|]).
  destruct (l_state a) eqn:Ea, (l_state b) eqn:Eb; subst; congruence.
Qed.
#[global] Instance leases_le_refl : Reflexive leases_le.
Proof. intros m i row H. by exists row. Qed.
#[global] Instance leases_le_trans : Transitive leases_le.
Proof.
  intros a b c H1 H2 i row Hr. destruct (H1 _ _ Hr) as (r1 & Hr1 & Hp1 & Hk1 & Hs1).
  destruct (H2 _ _ Hr1) as (r2 & Hr2 & Hp2 & Hk2 & Hs2). exists r2.
  split; [done|]. split; [congruence|]. split; [congruence|]. by eapply lease_step_trans.
Qed.

Lemma slots_le_available m m' pool :
  slots_le m m' -> count (is_available pool) m' <= count (is_available pool) m.
Proof.
  intros H. apply count_mono. intros k x' Hx Ha. destruct (H _ _ Hx) as (x & Hm & _ & Hav).
  exists x. auto.
Qed.

(** ** Loops over the rows of a query *)

(** A loop whose body writes only the row it was given: it keeps an invariant,
    leaves the other rows, and establishes [Q] of each row it visits. *)
Lemma foldl_rows {S A} (tab : S -> gmap bytes A) (step : S -> bytes * A -> S) (I : S -> Prop)
    (Q : bytes -> A -> option A -> Prop) l s :
  NoDup l.*1 -> (forall k x, (k, x) ∈ l -> tab s !! k = Some x) -> I s ->
  (forall s k x, I s -> (k, x) ∈ l -> tab s !! k = Some x ->
     I (step s (k, x)) /\ Q k x (tab (step s (k, x)) !! k)
     /\ forall j, j <> k -> tab (step s (k, x)) !! j = tab s !! j) ->
  I (foldl step s l)
  /\ (forall j, j ∉ l.*1 -> tab (foldl step s l) !! j = tab s !! j)
  /\ (forall k x, (k, x) ∈ l -> Q k x (tab (foldl step s l) !! k)).
Proof.
  revert s. induction l as [|[k x] l IH]; intros s Hnd Hin HI Hstep.
  { split; [done|]. split; [done|]. intros k x H. by apply elem_of_nil in H. }
  cbn [fmap list_fmap fst] in Hnd. apply NoDup_cons in Hnd as [Hk Hnd].
  destruct (Hstep s k x) as (HI' & HQ & Hframe); [done|left|by apply Hin; left|].
  assert (Hne : forall j y, (j, y) ∈ l -> j <> k).
  { intros j y Hj ->. apply Hk. apply list_elem_of_fmap. by exists (k, y). }
  destruct (IH (step s (k, x))) as (H1 & H2 & H3); [done| |done| |].
  - intros j y Hj. rewrite Hframe by eauto. apply Hin. by right.
  - intros s' j y HI'' Hj Ht. apply Hstep; [done|by right|done].
  - cbn [foldl]. split; [done|]. split.
    + intros j Hj. cbn [fmap list_fmap fst] in Hj. rewrite not_elem_of_cons in Hj.
      destruct Hj. rewrite H2 by done. by apply Hframe.
    + intros j y [[= -> ->]|Hj]%elem_of_cons; [|by apply H3]. by rewrite H2.
Qed.

(** ** Writing one row *)

Lemma update_slot_lookup m data st d :
  slots (update_slot m data st d) !! m
  = (fun row => MkSlotRow (sr_pool row) st data) <$> slots d !! m.
Proof. unfold update_slot. simpl. apply lookup_alter_eq. Qed.
Lemma update_slot_lookup_ne m data st d j :
  j <> m -> slots (update_slot m data st d) !! j = slots d !! j.
Proof. intros. unfold update_slot. simpl. by apply lookup_alter_ne. Qed.

Definition ident_of (m : bytes) (d : Db) (data : ForkPoolSlotRecord) : Prop :=
  s_machine_name data = m
  /\ forall row, slots d !! m = Some row -> s_pool_name data = sr_pool row.

Lemma update_slot_ok m data st d :
  map_Forall slot_ok (slots d) -> ident_of m d data -> st = slot_as_str (s_state data) ->
  map_Forall slot_ok (slots (update_slot m data st d)).
Proof.
  intros Hok [Hm Hp] ->. intros j row. destruct (decide (j = m)) as [->|Hne].
  - rewrite update_slot_lookup. destruct (slots d !! m) as [r|] eqn:E; [|done].
    cbn [fmap option_fmap option_map]. intros [= <-]. unfold slot_ok. simpl. auto.
  - rewrite update_slot_lookup_ne by done. apply Hok.
Qed.

Lemma not_available pool row s :
  sr_state row = slot_as_str s -> s <> Provisioning -> s <> Ready -> is_available pool row = false.
Proof.
  intros Hs H1 H2. unfold is_available, slot_in. apply andb_false_iff. right.
  apply bool_decide_eq_false. rewrite Hs. simpl. rewrite !elem_of_cons, elem_of_nil.
  intros [E|[E|[]]]; by destruct s.
Qed.

(** Giving a slot an unavailable state only shrinks the available ones. *)
Lemma update_slot_le m data s d :
  s <> Provisioning -> s <> Ready ->
  slots_le (slots d) (slots (update_slot m data (slot_as_str s) d)).
Proof.
  intros H1 H2 j row. destruct (decide (j = m)) as [->|Hne].
  - rewrite update_slot_lookup. destruct (slots d !! m) as [r|] eqn:E; [|done].
    cbn [fmap option_fmap option_map]. intros [= <-]. exists r. split; [done|]. split; [done|].
    intros pool Ha. by rewrite (not_available _ _ s) in Ha.
  - rewrite update_slot_lookup_ne by done. intros H. by exists row.
Qed.

Lemma update_lease_lookup i data st d :
  leases (update_lease i data st d) !! i
  = (fun row => MkLeaseRow (lr_pool row) (lr_key row) st data) <$> leases d !! i.
Proof. unfold update_lease. simpl. apply lookup_alter_eq. Qed.
Lemma update_lease_lookup_ne i data st d j :
  j <> i -> leases (update_lease i data st d) !! j = leases d !! j.
Proof. intros. unfold update_lease. simpl. by apply lookup_alter_ne. Qed.

(** The three facts a transaction keeps about the lease table. *)
Definition leases_ok (m : gmap bytes LeaseRow) : Prop := map_Forall lease_ok m /\ keys_unique m.

Lemma keys_unique_cols m m' :
  keys_unique m ->
  (forall j r', m' !! j = Some r' ->
     exists r, m !! j = Some r /\ lr_pool r' = lr_pool r /\ lr_key r' = lr_key r) ->
  keys_unique m'.
Proof.
  intros Hu H i j ri rj Hi Hj Hp Hk. destruct (H _ _ Hi) as (a & Ha & Hap & Hak).
  destruct (H _ _ Hj) as (b & Hb & Hbp & Hbk). apply (Hu i j a b); congruence.
Qed.

Lemma set_lease_row_ok (f : LeaseRow -> LeaseRow) i row m :
  leases_ok m -> m !! i = Some row ->
  lr_pool (f row) = lr_pool row -> lr_key (f row) = lr_key row ->
  lease_step (lr_data row) (lr_data (f row)) ->
  lr_state (f row) = lease_as_str (l_state (lr_data (f row))) ->
  leases_ok (alter f i m) /\ leases_le m (alter f i m).
Proof.
  intros [Hok Hu] Hi Hp Hk Hs Hst. pose proof (Hok _ _ Hi) as (O1 & O2 & O3 & O4).
  split; [split|].
  - intros j r. destruct (decide (i = j)) as [<-|Hne].
    + rewrite lookup_alter_eq, Hi. cbn [fmap option_fmap option_map]. intros [= <-].
      unfold lease_step in Hs. destruct_and!. unfold lease_ok. repeat split; congruence.
    + rewrite lookup_alter_ne by done. apply Hok.
  - eapply keys_unique_cols; [exact Hu|]. intros j r. destruct (decide (i = j)) as [<-|Hne].
    + rewrite lookup_alter_eq, Hi. cbn [fmap option_fmap option_map]. intros [= <-]. eauto.
    + rewrite lookup_alter_ne by done. intros H. by exists r.
  - intros j r. destruct (decide (i = j)) as [<-|Hne].
    + rewrite lookup_alter_eq, Hi. intros [= <-]. cbn [fmap option_fmap option_map]. eauto.
    + rewrite lookup_alter_ne by done. intros H. by exists r.
Qed.

Lemma update_lease_ok i row data s d :
  leases_ok (leases d) -> leases d !! i = Some row -> lease_step (lr_data row) data ->
  l_state data = s ->
  leases_ok (leases (update_lease i data (lease_as_str s) d))
  /\ leases_le (leases d) (leases (update_lease i data (lease_as_str s) d)).
Proof.
  intros Hok Hi Hs <-. unfold update_lease. cbn [with_leases leases].
  by apply (set_lease_row_ok _ i row).
Qed.

Lemma set_lease_step l s now e err :
  terminal (l_state l) = false -> (s = Activating -> l_state l = Activating) ->
  lease_step l (set_lease s now e err l).
Proof.
  intros Ht Hs. repeat (split; [done|]). cbn [set_lease l_state].
  destruct (l_state l); try done. intros ->. by specialize (Hs eq_refl).
Qed.

(** The invariant after a transaction that leaves the pools. *)
Lemma db_ok_frame d d' :
  db_ok d -> pools d' = pools d -> slots_le (slots d) (slots d') ->
  map_Forall slot_ok (slots d') -> leases_ok (leases d') -> db_ok d'.
Proof.
  intros [H1 H2 H3 H4 H5 H6] Hp Hle Hs [Hl Hk]. constructor; rewrite ?Hp; try done.
  - intros m row Hm. destruct (Hle _ _ Hm) as (r & Hr & -> & _). by apply (H5 m).
  - intros n p Hn. unfold available. pose proof (slots_le_available _ _ n Hle) as Hc.
    specialize (H6 n p Hn). unfold available in H6. unfold is_available in Hc. lia.
Qed.

Lemma db_ok_leases d : db_ok d -> leases_ok (leases d).
Proof. intros []. by split. Qed.

(** ** Effects: transactions that leave the pool table *)

Definition good (d : Db) : Prop := map_Forall slot_ok (slots d) /\ leases_ok (leases d).
Record effect (d d' : Db) : Prop := {
  eff_pools : pools d' = pools d;
  eff_slots : slots_le (slots d) (slots d');
  eff_leases : leases_le (leases d) (leases d');
  eff_good : good d';
}.

Lemma db_ok_good d : db_ok d -> good d.
Proof. intros Hd. split; [by destruct Hd|by apply db_ok_leases]. Qed.
Lemma effect_refl d : good d -> effect d d.
Proof. by constructor. Qed.
Lemma effect_trans a b c : effect a b -> effect b c -> effect a c.
Proof.
  intros [P1 S1 L1 G1] [P2 S2 L2 G2]. constructor; [congruence| | |done];
    etransitivity; eauto.
Qed.
Lemma effect_ok d d' : db_ok d -> effect d d' -> db_ok d'.
Proof. intros Hd [P S L [G1 G2]]. by eapply db_ok_frame. Qed.

Lemma effect_slot m data s d :
  good d -> ident_of m d data -> s_state data = s -> s <> Provisioning -> s <> Ready ->
  effect d (update_slot m data (slot_as_str s) d).
Proof.
  intros [Hs Hl] Hi <- H1 H2. constructor; [done|by apply update_slot_le|done|].
  split; [by apply update_slot_ok|done].
Qed.

Lemma effect_lease i row data s d :
  good d -> leases d !! i = Some row -> lease_step (lr_data row) data -> l_state data = s ->
  effect d (update_lease i data (lease_as_str s) d).
Proof.
  intros [Hs Hl] Hi Hst E. destruct (update_lease_ok i row data s d) as [H1 H2]; [done..|].
  constructor; [done|done|done|by split].
Qed.

Lemma good_ident d m row data :
  good d -> slots d !! m = Some row -> s_machine_name data = s_machine_name (sr_data row) ->
  s_pool_name data = s_pool_name (sr_data row) -> ident_of m d data.
Proof.
  intros [Hs _] Hm E1 E2. pose proof (Hs _ _ Hm) as (A & B & _).
  split; [congruence|]. intros r Hr. congruence.
Qed.

(** The slot of a lease's machine, given a new unavailable state. *)
Lemma effect_machine_slot d m (f : ForkPoolSlotRecord -> ForkPoolSlotRecord) s :
  good d -> (forall x, s_machine_name (f x) = s_machine_name x /\ s_pool_name (f x) = s_pool_name x
                       /\ s_state (f x) = s) ->
  s <> Provisioning -> s <> Ready ->
  effect d match slots d !! m with
           | Some srow => update_slot m (f (sr_data srow)) (slot_as_str s) d
           | None => d
           end.
Proof.
  intros Hg Hf H1 H2. destruct (slots d !! m) as [srow|] eqn:E; [|by apply effect_refl].
  destruct (Hf (sr_data srow)) as (F1 & F2 & F3).
  apply effect_slot; try done. by eapply good_ident.
Qed.

Lemma transition_effect i expected next slot_next now error d :
  good d -> terminal expected = false -> next <> Activating ->
  slot_next <> Provisioning -> slot_next <> Ready ->
  effect d (transition_fork_lease i expected next slot_next now error d).2
  /\ vms (transition_fork_lease i expected next slot_next now error d).2 = vms d.
Proof.
  intros Hg Ht Hn H1 H2. unfold transition_fork_lease.
  destruct (leases d !! i) as [row|] eqn:Ei; [|split; [by apply effect_refl|done]].
  case_bool_guard; [split; [by apply effect_refl|done]|]. cbv zeta. cbn [snd].
  assert (Hst : l_state (lr_data row) = expected).
  { destruct (decide (l_state (lr_data row) = expected)); [done|]. by contradict E. }
  match goal with |- context [update_lease i ?l _ _] => set (lease := l) end.
  assert (effect d (update_lease i lease (lease_as_str next) d)) as He.
  { eapply effect_lease; [done|done| |done]. apply set_lease_step; [by rewrite Hst|by intros ->]. }
  split.
  - eapply effect_trans; [exact He|].
    apply (effect_machine_slot _ _ (set_slot_state_error slot_next now error)); try done.
    apply (eff_good _ _ He).
  - by case_match.
Qed.

Lemma heartbeat_effect pool i now d :
  good d ->
  effect d (heartbeat_fork_lease pool i now d).2 /\ vms (heartbeat_fork_lease pool i now d).2 = vms d.
Proof.
  intros Hg. unfold heartbeat_fork_lease.
  destruct (leases d !! i) as [row|] eqn:Ei; [|split; [by apply effect_refl|done]].
  case_bool_guard; [|split; [by apply effect_refl|done]].
  case_bool_guard; [|split; [by apply effect_refl|done]]. cbv zeta. cbn [snd]. split; [|done].
  destruct Hg as [Hs Hl]. pose proof (proj1 Hl _ _ Ei) as (_ & _ & _ & Hcol).
  match goal with |- context [alter ?f i] => destruct (set_lease_row_ok f i row (leases d)) as [G1 G2] end;
    try done.
  - cbn [lr_data]. apply set_lease_step; [by rewrite H|done].
  - cbn [lr_data lr_state]. by rewrite Hcol, H.
Qed.

(** ** The loops *)

Lemma retire_rows now l d :
  good d -> NoDup l.*1 -> (forall k x, (k, x) ∈ l -> slots d !! k = Some x) ->
  let d' := foldl (retire_slot now) d l in
  (effect d d' /\ vms d' = vms d /\ leases d' = leases d)
  /\ (forall j, j ∉ l.*1 -> slots d' !! j = slots d !! j)
  /\ (forall k x, (k, x) ∈ l ->
       slots d' !! k = Some (MkSlotRow (sr_pool x) (bs "retiring")
                               (set_slot_state Retiring now (sr_data x)))).
Proof.
  intros Hg Hnd Hin d'.
  destruct (foldl_rows slots (retire_slot now)
    (fun d' => effect d d' /\ vms d' = vms d /\ leases d' = leases d)
    (fun k x o => o = Some (MkSlotRow (sr_pool x) (bs "retiring")
                              (set_slot_state Retiring now (sr_data x)))) l d) as (H1 & H2 & H3);
    [done|done| | |done].
  - split; [by apply effect_refl|done].
  - intros e k x (He & Hv & Hl) Hk Hx. pose proof (eff_good _ _ He) as Hge.
    pose proof (proj1 Hge _ _ Hx) as (A & B & _).
    unfold retire_slot. cbn [snd set_slot_state s_machine_name]. rewrite A.
    change (bs "retiring") with (slot_as_str Retiring).
    split; [split; [|done]|split].
    + eapply effect_trans; [exact He|]. apply effect_slot; try done. by eapply good_ident.
    + by rewrite update_slot_lookup, Hx.
    + intros j Hj. by apply update_slot_lookup_ne.
Qed.

Lemma live_row id row :
  lease_ok id row -> lease_state_in live row = true -> terminal (l_state (lr_data row)) = false.
Proof.
  intros (_ & _ & _ & E) H. unfold lease_state_in in H. apply bool_decide_eq_true in H.
  rewrite E in H. simpl in H. rewrite !elem_of_cons, elem_of_nil in H.
  destruct H as [H|[H|[]]]; by destruct (l_state (lr_data row)).
Qed.
Lemma live_row_iff id row :
  lease_ok id row -> lease_state_in live row = negb (terminal (l_state (lr_data row))).
Proof.
  intros (_ & _ & _ & E). unfold lease_state_in. rewrite E. by destruct (l_state (lr_data row)).
Qed.

Definition expired_record (now : Z) (l : ForkLeaseRecord) : ForkLeaseRecord :=
  set_lease Expired now (l_expires_at l) (l_last_error l) l.
Definition overdue (now : Z) (row : LeaseRow) : bool := negb (l_expires_at (lr_data row) >? now).

Lemma expire_step now l d k x :
  good d -> leases d !! k = Some x -> lease_state_in live x = true ->
  let d' := (expire_lease now (l, d) (k, x)).2 in
  effect d d' /\ vms d' = vms d
  /\ leases d' !! k
     = Some (if overdue now x
             then MkLeaseRow (lr_pool x) (lr_key x) (bs "expired") (expired_record now (lr_data x))
             else x)
  /\ (forall j, j <> k -> leases d' !! j = leases d !! j).
Proof.
  intros Hg Hk Hlive. unfold expire_lease, overdue. cbn [snd fst].
  destruct (l_expires_at (lr_data x) >? now); cbn [negb snd].
  { split; [by apply effect_refl|done]. }
  pose proof (proj1 (proj2 Hg) _ _ Hk) as Hxok. pose proof (proj1 Hxok) as Hid.
  fold (expired_record now (lr_data x)). set (lease := expired_record now (lr_data x)).
  assert (l_id lease = k) as -> by done.
  assert (effect d (update_lease k lease (bs "expired") d)) as He.
  { change (bs "expired") with (lease_as_str Expired). eapply effect_lease; [done|done| |done].
    apply set_lease_step; [by eapply live_row|done]. }
  split; [|split; [by case_match|split]].
  - eapply effect_trans; [exact He|]. change (bs "retiring") with (slot_as_str Retiring).
    apply (effect_machine_slot _ _ (set_slot_state Retiring now)); try done. apply (eff_good _ _ He).
  - transitivity (leases (update_lease k lease (bs "expired") d) !! k); [by case_match|].
    by rewrite update_lease_lookup, Hk.
  - intros j Hj. transitivity (leases (update_lease k lease (bs "expired") d) !! j); [by case_match|].
    by apply update_lease_lookup_ne.
Qed.

Lemma expire_rows now l acc d :
  good d -> NoDup l.*1 -> (forall k x, (k, x) ∈ l -> leases d !! k = Some x /\ lease_state_in live x = true) ->
  let d' := (foldl (expire_lease now) (acc, d) l).2 in
  (effect d d' /\ vms d' = vms d)
  /\ (forall j, j ∉ l.*1 -> leases d' !! j = leases d !! j)
  /\ (forall k x, (k, x) ∈ l -> leases d' !! k
       = Some (if overdue now x
               then MkLeaseRow (lr_pool x) (lr_key x) (bs "expired") (expired_record now (lr_data x))
               else x)).
Proof.
  intros Hg Hnd Hin d'.
  apply (foldl_rows (fun s => leases s.2) (expire_lease now)
    (fun s => effect d s.2 /\ vms s.2 = vms d)
    (fun _ x o => o = Some (if overdue now x
       then MkLeaseRow (lr_pool x) (lr_key x) (bs "expired") (expired_record now (lr_data x))
       else x)) l (acc, d)); [done| | |].
  - intros k x H. by apply Hin.
  - split; [by apply effect_refl|done].
  - intros [a e] k x [He Hv] Hkx Hk.
    destruct (expire_step now a e k x) as (H1 & H2 & H3 & H4);
      [apply (eff_good _ _ He)|done|by eapply Hin|]. cbn [snd] in *.
    split; [split; [by eapply effect_trans|congruence]|done].
Qed.

Lemma expire_list now l acc d :
  (foldl (expire_lease now) (acc, d) l).1
  = acc ++ map (fun kv => expired_record now (lr_data kv.2)) (List.filter (fun kv => overdue now kv.2) l).
Proof.
  revert acc d. induction l as [|[k x] l IH]; intros acc d; [by rewrite app_nil_r|].
  cbn [foldl List.filter snd]. unfold expire_lease at 2. cbn [snd]. unfold overdue at 1.
  destruct (l_expires_at (lr_data x) >? now); cbn [negb]; [apply IH|].
  rewrite IH. cbn [map snd]. by rewrite <-app_assoc.
Qed.

(** Once the loop has retired a machine's slot it stays retired. *)
Definition slot_retiring (m : bytes) (d : Db) : Prop :=
  forall row, slots d !! m = Some row -> sr_state row = bs "retiring".

Lemma slot_retiring_write m m' data d :
  slot_retiring m d \/ m = m' -> slot_retiring m (update_slot m' data (bs "retiring") d).
Proof.
  intros H row. destruct (decide (m = m')) as [<-|Hne].
  - rewrite update_slot_lookup. destruct (slots d !! m); [|done]. by intros [= <-].
  - rewrite update_slot_lookup_ne by done. by destruct H; [auto|].
Qed.

Lemma expire_step_retires now acc kx m :
  slot_retiring m acc.2 \/ (overdue now kx.2 = true /\ m = l_machine_name (lr_data kx.2)) ->
  slot_retiring m (expire_lease now acc kx).2.
Proof.
  destruct acc as [a d], kx as [k x]. unfold expire_lease, overdue. cbn [fst snd].
  intros H. destruct (l_expires_at (lr_data x) >? now); cbn [negb snd] in *.
  { destruct H as [H|[? _]]; done. }
  destruct (slots _ !! _) as [r|] eqn:E.
  - apply slot_retiring_write. cbn [set_lease l_machine_name].
    destruct H as [H|[_ H]]; [left; exact H|by right].
  - destruct H as [H|[_ ->]]; [exact H|]. intros row Hr.
    change (slots d !! l_machine_name (lr_data x) = None) in E.
    change (slots d !! l_machine_name (lr_data x) = Some row) in Hr. congruence.
Qed.

Lemma expire_retires now l acc m :
  (slot_retiring m acc.2
   \/ exists kx, kx ∈ l /\ overdue now kx.2 = true /\ m = l_machine_name (lr_data kx.2)) ->
  slot_retiring m (foldl (expire_lease now) acc l).2.
Proof.
  revert acc. induction l as [|kx l IH]; intros acc [H|(y & Hy & Ho & Hm)].
  - done.
  - by apply elem_of_nil in Hy.
  - apply IH. left. apply expire_step_retires. by left.
  - apply elem_of_cons in Hy as [->|Hy]; apply IH.
    + left. apply expire_step_retires. by right.
    + right. eauto.
Qed.

Lemma cancel_rows now l d :
  good d -> NoDup l.*1 -> (forall k x, (k, x) ∈ l -> leases d !! k = Some x /\ lease_state_in live x = true) ->
  let d' := foldl (cancel_lease now) d l in
  (effect d d' /\ vms d' = vms d /\ slots d' = slots d)
  /\ (forall j, j ∉ l.*1 -> leases d' !! j = leases d !! j)
  /\ (forall k x, (k, x) ∈ l -> exists r, leases d' !! k = Some r /\ lr_state r = bs "cancelled"
       /\ lr_pool r = lr_pool x).
Proof.
  intros Hg Hnd Hin d'.
  apply (foldl_rows leases (cancel_lease now)
    (fun e => effect d e /\ vms e = vms d /\ slots e = slots d)
    (fun k x o => exists r, o = Some r /\ lr_state r = bs "cancelled" /\ lr_pool r = lr_pool x)
    l d); [done| | |].
  - intros k x H. by apply Hin.
  - split; [by apply effect_refl|done].
  - intros e k x (He & Hv & Hs) Hkx Hk. pose proof (eff_good _ _ He) as Hge.
    pose proof (proj1 (proj2 Hge) _ _ Hk) as Hxok. pose proof (proj1 Hxok) as Hid.
    destruct (Hin _ _ Hkx) as [_ Hlive]. unfold cancel_lease. cbn [snd set_lease l_id]. rewrite Hid.
    change (bs "cancelled") with (lease_as_str Cancelled).
    split; [split; [|done]|split].
    + eapply effect_trans; [exact He|]. eapply effect_lease; [done|done| |done].
      apply set_lease_step; [by eapply live_row|done].
    + rewrite update_lease_lookup, Hk. cbn [fmap option_fmap option_map]. eauto.
    + intros j Hj. by apply update_lease_lookup_ne.
Qed.

End PoolFacts.
