(* ===== verification/ForkPoolClaim.v ===== *)
(** * ForkPoolClaim: the claim transaction and the invariant over all operations *)

From S2P Require Import Prelude RustStr ForkPool ForkPoolFacts.

Module ClaimFacts.
Import Str Pool PoolFacts.

(** ** Selecting a worker *)

Lemma select_ready_spec golden now rows d sel d' :
  good d -> NoDup rows.*1 -> (forall k row, (k, row) ∈ rows -> slots d !! k = Some row) ->
  select_ready golden now rows d = (sel, d') ->
  (effect d d' /\ vms d' = vms d /\ leases d' = leases d)
  /\ forall m slot vm, sel = Some (m, slot, vm) ->
     exists row, (m, row) ∈ rows /\ slots d' !! m = Some row /\ slot = sr_data row
       /\ vms d !! m = Some (Some vm) /\ forkpoint_held vm = true /\ vm_golden vm = Some golden.
Proof.
  revert d. induction rows as [|[k row] rows IH]; intros d Hg Hnd Hin Hs.
  { inv Hs. split; [|done]. split; [by apply effect_refl|done]. }
  cbn [fmap list_fmap fst] in Hnd. apply NoDup_cons in Hnd as [Hk Hnd].
  pose proof (Hin k row ltac:(left)) as Hrow.
  cbn [select_ready] in Hs.
  set (d1 := update_slot k _ (bs "retiring") d) in *.
  assert (Hrec : select_ready golden now rows d1 = (sel, d') ->
    (effect d d' /\ vms d' = vms d /\ leases d' = leases d)
    /\ forall m slot vm, sel = Some (m, slot, vm) ->
       exists row0, (m, row0) ∈ (k, row) :: rows /\ slots d' !! m = Some row0 /\ slot = sr_data row0
         /\ vms d !! m = Some (Some vm) /\ forkpoint_held vm = true /\ vm_golden vm = Some golden).
  { intros Hs'. assert (effect d d1) as He.
    { unfold d1. change (bs "retiring") with (slot_as_str Retiring). apply effect_slot; try done.
      by eapply good_ident. }
    destruct (IH d1) as [(H1 & H2 & H3) H4]; [apply (eff_good _ _ He)|done| |done|].
    - intros j r Hj. unfold d1. rewrite update_slot_lookup_ne; [apply Hin; by right|].
      intros ->. apply Hk, list_elem_of_fmap. by exists (k, r).
    - split; [split; [by eapply effect_trans|done]|]. intros m slot vm Hm.
      destruct (H4 _ _ _ Hm) as (r & Hr & ?). exists r. split; [by right|done]. }
  destruct (vms d !! k) as [[vm|]|] eqn:Ev; [|by apply Hrec..].
  unfold vm_valid in Hs. case_bool_guard_in Hs; [|by apply Hrec].
  inv Hs. split; [split; [by apply effect_refl|done]|].
  intros m slot vm' [= <- <- <-]. exists row. split; [by left|]. done.
Qed.

(** ** The writes of a claim *)

Lemma find_by_key_None pool key d :
  find_by_key pool key d = None ->
  forall i r, leases d !! i = Some r -> lr_pool r = pool -> lr_key r = key -> False.
Proof.
  unfold find_by_key. intros H i r Hi Hp Hk.
  assert ((i, r) ∈ select (fun row => bool_decide (lr_pool row = pool) && bool_decide (lr_key row = key))
            (leases d)) as Hin.
  { apply elem_of_select. split; [done|]. by rewrite !bool_decide_true. }
  destruct (select _ _) as [|[] ?]; [by apply elem_of_nil in Hin|done].
Qed.

Lemma find_by_key_Some pool key d i r :
  keys_unique (leases d) -> leases d !! i = Some r -> lr_pool r = pool -> lr_key r = key ->
  find_by_key pool key d = Some r.
Proof.
  intros Hu Hi Hp Hk. unfold find_by_key.
  assert ((i, r) ∈ select (fun row => bool_decide (lr_pool row = pool) && bool_decide (lr_key row = key))
            (leases d)) as Hin.
  { apply elem_of_select. split; [done|]. by rewrite !bool_decide_true. }
  destruct (select _ _) as [|[j r'] l] eqn:E; [by apply elem_of_nil in Hin|].
  assert ((j, r') ∈ (j, r') :: l) as Hj by left. rewrite <-E in Hj.
  apply elem_of_select in Hj as [Hj Hb]. bool_simpl. subst pool key.
  assert (i = j) as -> by (apply (Hu i j r r'); congruence). congruence.
Qed.

Lemma insert_lease_good id row d :
  good d -> leases d !! id = None -> find_by_key (lr_pool row) (lr_key row) d = None ->
  lease_ok id row -> effect d (with_leases (insert id row) d).
Proof.
  intros [Hs [Hl Hu]] Hid Hf Hok. constructor; [done|done| |split; [done|split]]; simpl.
  - intros i r Hi. exists r. rewrite lookup_insert_ne by congruence. done.
  - by apply map_Forall_insert_2.
  - pose proof (find_by_key_None _ _ _ Hf) as Hn.
    intros i j ri rj. destruct (decide (id = i)) as [<-|Hi], (decide (id = j)) as [<-|Hj];
      rewrite ?lookup_insert_eq, ?lookup_insert_ne by done; try done.
    + intros [= <-] Hj' Hp Hk. exfalso. by apply (Hn _ _ Hj').
    + intros Hi' [= <-] Hp Hk. exfalso. by apply (Hn _ _ Hi').
    + apply Hu.
Qed.

Definition activated (c : ForkPoolSlotClaim) (vm : VmRecord) : VmRecord :=
  record_fork_activation vm (c_assignment c) (merge_fork_env (fork_env vm) (c_assignment c)).

Lemma consume_spec c m row vm d d' :
  good d -> slots d !! m = Some row -> consume c m (sr_data row) vm d = Ok d' ->
  effect d d' /\ vms d' = alter (fun _ => Some (activated c vm)) m (vms d)
  /\ leases d !! c_lease_id c = None
  /\ find_by_key (c_pool_name c) (c_idempotency_key c) d = None
  /\ leases d' = <[c_lease_id c := MkLeaseRow (c_pool_name c) (c_idempotency_key c)
                                    (bs "activating") (new_lease c m)]> (leases d)
  /\ exists srow, slots d' !! m = Some srow /\ sr_pool srow = sr_pool row
     /\ sr_state srow = bs "activating" /\ s_lease_id (sr_data srow) = Some (c_lease_id c).
Proof.
  intros Hg Hrow Hc. unfold consume in Hc.
  set (d1 := with_vms _ d) in *. set (slot := MkSlot _ _ _ _ _ _ _) in *.
  set (d2 := update_slot m slot (bs "activating") d1) in *.
  assert (effect d d1) as He1 by by constructor.
  assert (effect d d2) as He2.
  { eapply effect_trans; [exact He1|]. unfold d2.
    change (bs "activating") with (slot_as_str SlotActivating). apply effect_slot; try done.
    by eapply good_ident. }
  unfold insert_lease in Hc. cbn [lr_pool lr_key] in Hc. destruct (bool_decide _ || bool_decide _) eqn:E; [done|].
  apply orb_false_iff in E as [E0 E]. apply bool_decide_eq_false, eq_None_not_Some in E0, E. inv Hc.
  split.
  - eapply effect_trans; [exact He2|]. apply insert_lease_good; [apply He2|done|done|done].
  - split; [done|]. split; [done|]. split; [done|]. split; [done|].
    eexists. cbn [with_leases slots]. unfold d2. rewrite update_slot_lookup.
    change (slots d1) with (slots d). rewrite Hrow. done.
Qed.

(** ** Every branch of the claim *)

Lemma claim_ready_rows pool d k row :
  (k, row) ∈ order_by_key (select (slot_in pool [Ready]) (slots d)) ->
  slots d !! k = Some row /\ sr_pool row = pool /\ sr_state row = bs "ready".
Proof.
  rewrite elem_of_order_by_key, elem_of_select. unfold slot_in. intros [H Hb]. bool_simpl.
  apply list_elem_of_singleton in H1. done.
Qed.

Lemma claim_spec c d :
  good d ->
  let r := claim_fork_pool_slot c d in
  effect d r.2
  /\ match r.1 with
     | Ok (Claimed l) =>
         exists pool m vm, l = new_lease c m
         /\ find_by_key (c_pool_name c) (c_idempotency_key c) d = None
         /\ pools d !! c_pool_name c = Some pool /\ deleting pool = false
         /\ at_capacity c pool d = false
         /\ vms d !! m = Some (Some vm) /\ forkpoint_held vm = true
         /\ vm_golden vm = Some (p_golden pool)
         /\ vms r.2 = alter (fun _ => Some (activated c vm)) m (vms d)
         /\ leases d !! c_lease_id c = None
         /\ leases r.2 = <[c_lease_id c := MkLeaseRow (c_pool_name c) (c_idempotency_key c)
                                    (bs "activating") l]> (leases d)
         /\ (exists old, slots d !! m = Some old /\ sr_pool old = c_pool_name c
                         /\ sr_state old = bs "ready")
         /\ (exists srow, slots r.2 !! m = Some srow /\ sr_state srow = bs "activating"
                         /\ s_lease_id (sr_data srow) = Some (c_lease_id c))
     | _ => vms r.2 = vms d /\ leases r.2 = leases d
     end.
Proof.
  intros Hg. unfold claim_fork_pool_slot. cbv zeta.
  destruct (find_by_key _ _ d) as [row|] eqn:Ef; [split; [by apply effect_refl|done]|].
  destruct (pools d !! c_pool_name c) as [pool|] eqn:Ep; [|split; [by apply effect_refl|done]].
  destruct (deleting pool) eqn:Ed; [split; [by apply effect_refl|done]|].
  destruct (at_capacity c pool d) eqn:Ec; [split; [by apply effect_refl|done]|].
  destruct (select_ready _ _ _ d) as [sel d1] eqn:Es.
  apply select_ready_spec in Es as [(He & Hv & Hl) Hsel];
    [|done|apply NoDup_order_by_key, NoDup_select|intros k row Hin; apply claim_ready_rows in Hin; apply Hin].
  destruct sel as [[[m slot] vm]|]; [|done].
  destruct (Hsel m slot vm eq_refl) as (row & Hin & Hrow & -> & Hvm & Hheld & Hgold).
  case_bool_guard; [done|].
  destruct (consume c m (sr_data row) vm d1) as [d2|e] eqn:Eco;
    [|split; [by apply effect_refl|done]].
  apply consume_spec in Eco as (He2 & Hv2 & Hid & Hf2 & Hl2 & srow & Hs1 & Hs2 & Hs3 & Hs4);
    [|apply He|done].
  cbn [fst snd]. split; [by eapply effect_trans|].
  exists pool, m, vm. rewrite Hv2, Hv. rewrite Hl in Hid, Hl2.
  do 11 (split; [done|]). split; [|by exists srow].
  exists row. apply claim_ready_rows in Hin. exact Hin.
Qed.

End ClaimFacts.

Module OpFacts.
Import Str Pool PoolFacts ClaimFacts.

(** ** Slot operations *)

Lemma update_state_effect m expected next now error d :
  good d -> (next <> Provisioning /\ next <> Ready) \/ (expected = Provisioning /\ next = Ready) ->
  effect d (update_fork_pool_slot_state m expected next now error d).2
  /\ vms (update_fork_pool_slot_state m expected next now error d).2 = vms d
  /\ leases (update_fork_pool_slot_state m expected next now error d).2 = leases d.
Proof.
  intros Hg Hn. unfold update_fork_pool_slot_state.
  destruct (slots d !! m) as [row|] eqn:Em; [|split; [by apply effect_refl|done]].
  case_bool_guard; [|split; [by apply effect_refl|done]]. cbn [snd]. split; [|done].
  assert (ident_of m d (set_slot_state_error next now error (sr_data row))) as Hi
    by by eapply good_ident.
  destruct Hn as [[H1 H2]|[-> ->]]; [by apply effect_slot|].
  constructor; [done| |done|split; [|apply Hg]].
  - intros j r. destruct (decide (j = m)) as [->|Hne].
    + rewrite update_slot_lookup, Em. cbn [fmap option_fmap option_map]. intros [= <-].
      exists row. split; [done|]. split; [done|]. intros pool. unfold is_available, slot_in.
      cbn [sr_pool sr_state]. rewrite E. intros H. bool_simpl. by rewrite bool_decide_true.
    + rewrite update_slot_lookup_ne by done. intros H. by exists r.
  - by apply update_slot_ok; [apply Hg|..].
Qed.

Lemma retire_effect m now error d :
  good d ->
  effect d (mark_fork_pool_slot_retiring m now error d).2
  /\ vms (mark_fork_pool_slot_retiring m now error d).2 = vms d
  /\ leases (mark_fork_pool_slot_retiring m now error d).2 = leases d.
Proof.
  intros Hg. unfold mark_fork_pool_slot_retiring.
  destruct (slots d !! m) as [row|] eqn:Em; [|split; [by apply effect_refl|done]].
  cbn [snd]. split; [|done]. apply effect_slot; try done. by eapply good_ident.
Qed.

Lemma remove_slot_effect m d : good d -> effect d (with_slots (delete m) d).
Proof.
  intros [Hs Hl]. constructor; [done| |done|split; [|done]]; simpl.
  - intros j r Hj. apply lookup_delete_Some in Hj as [_ Hj]. by exists r.
  - by apply map_Forall_delete.
Qed.

Lemma reserve_spec pool m now d :
  match reserve_fork_pool_slot pool m now d with
  | (true, d') =>
      exists p, pools d !! pool = Some p /\ deleting p = false
      /\ count (slot_in pool [SlotActivating]) (slots d) = 0
      /\ available pool d < desired_ready p /\ slots d !! m = None
      /\ d' = with_slots (insert m (MkSlotRow pool (slot_as_str Provisioning)
                  (MkSlot pool m Provisioning None now now None))) d
  | (false, d') => d' = d
  end.
Proof.
  unfold reserve_fork_pool_slot.
  destruct (pools d !! pool) as [p|]; [|done]. destruct (deleting p) eqn:Ed; [done|].
  case_bool_guard; [done|]. case_bool_guard; [done|]. destruct (slots d !! m) eqn:Em; [done|].
  exists p. pose proof (count_nonneg (slot_in pool [SlotActivating]) (slots d)).
  repeat split; try done. lia.
Qed.

(** ** The pool table *)

(** Pools renamed nowhere, with the same target. *)
Lemma db_ok_pools d f n :
  db_ok d -> (forall p, pools d !! n = Some p -> p_name (f p) = p_name p) ->
  (forall p, pools d !! n = Some p -> available n d <= Z.max 0 (desired_ready (f p))) ->
  db_ok (with_pools (alter f n) d).
Proof.
  intros [H1 H2 H3 H4 H5 H6] Hn Hf. constructor; try done; cbn [with_pools pools slots].
  - intros j p. destruct (decide (n = j)) as [<-|Hne].
    + rewrite lookup_alter_eq. destruct (pools d !! n) eqn:E; [|done]. intros [= <-].
      rewrite Hn by done. by apply H1.
    + rewrite lookup_alter_ne by done. apply H1.
  - intros m row Hm. destruct (H5 m row Hm) as [p Hp]. destruct (decide (n = sr_pool row)) as [->|Hne].
    + rewrite lookup_alter_eq, Hp. by eexists.
    + rewrite lookup_alter_ne by done. by eexists.
  - intros j p. change (available j (with_pools (alter f n) d)) with (available j d).
    destruct (decide (n = j)) as [<-|Hne].
    + rewrite lookup_alter_eq. destruct (pools d !! n) eqn:E; [|done]. intros [= <-]. by apply Hf.
    + rewrite lookup_alter_ne by done. apply H6.
Qed.

(** Retiring [l], all of them available, leaves that many fewer available. *)
Lemma count_retired f m m' (l : list (bytes * SlotRow)) :
  NoDup l.*1 -> (forall k x, (k, x) ∈ l -> m !! k = Some x /\ f x = true) ->
  (forall k x, (k, x) ∈ l -> exists y, m' !! k = Some y /\ f y = false) ->
  (forall j, j ∉ l.*1 -> m' !! j = m !! j) ->
  count f m' = count f m - len l.
Proof.
  intros Hnd Hl Hl' Hframe. unfold len. rewrite !count_size.
  assert ((select f m).*1 ≡ₚ l.*1 ++ (select f m').*1) as E.
  { apply NoDup_Permutation; [apply NoDup_select| |].
    - apply NoDup_app. split; [done|]. split; [|apply NoDup_select].
      intros k ([k' x] & -> & Hk)%list_elem_of_fmap ([k'' y] & E & Hy)%list_elem_of_fmap.
      simpl in E. subst k''. apply elem_of_select in Hy as [Hy Hf].
      destruct (Hl' _ _ Hk) as (z & Hz & Hfz). simpl in *. congruence.
    - intros k. rewrite elem_of_app, !list_elem_of_fmap. split.
      + intros ([k' x] & -> & Hx). apply elem_of_select in Hx as [Hx Hf]. simpl.
        destruct (decide (k' ∈ l.*1)) as [Hk|Hk].
        * left. apply list_elem_of_fmap in Hk as ([k'' y] & -> & Hy). by exists (k'', y).
        * right. exists (k', x). split; [done|]. apply elem_of_select. by rewrite Hframe.
      + intros [([k' x] & -> & Hx)|([k' x] & -> & Hx)].
        * exists (k', x). split; [done|]. apply elem_of_select. by apply Hl.
        * apply elem_of_select in Hx as [Hx Hf]. exists (k', x). split; [done|].
          apply elem_of_select. rewrite <-Hframe; [done|]. intros Hk.
          apply list_elem_of_fmap in Hk as ([k'' y] & E & Hy). simpl in E. subst k''.
          destruct (Hl' _ _ Hy) as (z & Hz & Hfz). congruence. }
  apply Permutation_length in E. rewrite length_app in E. rewrite E, length_fmap.
  rewrite !length_fmap. lia.
Qed.

(** ** Resizing *)

Lemma slot_in_singleton pool s row :
  slot_in pool [s] row = true <-> sr_pool row = pool /\ sr_state row = slot_as_str s.
Proof.
  unfold slot_in. rewrite andb_true_iff, !bool_decide_eq_true. simpl.
  by rewrite list_elem_of_singleton.
Qed.
Lemma is_available_iff pool row :
  is_available pool row = true <->
  slot_in pool [Provisioning] row = true \/ slot_in pool [Ready] row = true.
Proof.
  rewrite !slot_in_singleton. unfold is_available, slot_in.
  rewrite andb_true_iff, !bool_decide_eq_true. simpl. rewrite !elem_of_cons, elem_of_nil. tauto.
Qed.

Lemma elem_of_surplus name d k x :
  (k, x) ∈ surplus_candidates name d <-> slots d !! k = Some x /\ is_available name x = true.
Proof.
  unfold surplus_candidates. rewrite elem_of_app, !elem_of_order_by_key, !elem_of_select.
  rewrite is_available_iff. tauto.
Qed.

Lemma NoDup_surplus name d : NoDup (surplus_candidates name d).*1.
Proof.
  unfold surplus_candidates. rewrite fmap_app. apply NoDup_app.
  split; [apply NoDup_order_by_key, NoDup_select|].
  split; [|apply NoDup_order_by_key, NoDup_select].
  intros k ([k1 x] & -> & Hx)%list_elem_of_fmap ([k2 y] & E & Hy)%list_elem_of_fmap.
  simpl in E. subst k2. rewrite elem_of_order_by_key, elem_of_select in Hx, Hy.
  destruct Hx as [Hx [_ Px]%slot_in_singleton], Hy as [Hy [_ Py]%slot_in_singleton].
  rewrite Hx in Hy. inv Hy. by rewrite Px in Py.
Qed.

Lemma length_surplus name d : len (surplus_candidates name d) = available name d.
Proof.
  unfold available. rewrite count_size. unfold len.
  rewrite <-(length_fmap fst (surplus_candidates name d)).
  f_equal. apply Permutation_length, NoDup_Permutation; [apply NoDup_surplus|apply NoDup_select|].
  intros k. rewrite !list_elem_of_fmap. split; intros ([k' x] & -> & Hx); exists (k', x);
    (split; [done|]); [apply elem_of_select|apply elem_of_surplus].
  - by apply elem_of_surplus in Hx.
  - by apply elem_of_select in Hx.
Qed.

(** What a resize does to the slots: the first surplus candidates retire. *)
Lemma resize_spec name desired now d pool :
  good d -> pools d !! name = Some pool -> deleting pool = false ->
  let d1 := with_pools (alter (fun _ => set_desired_ready desired pool) name) d in
  let l := take (length (surplus_candidates name d) - Z.to_nat desired) (surplus_candidates name d) in
  let d' := (resize_fork_pool name desired now d).2 in
  effect d1 d' /\ vms d' = vms d /\ leases d' = leases d
  /\ available name d' = Z.min (available name d) (Z.max 0 desired)
  /\ (forall j, j ∉ l.*1 -> slots d' !! j = slots d !! j)
  /\ (forall k x, (k, x) ∈ l -> slots d !! k = Some x /\ is_available name x = true
       /\ exists y, slots d' !! k = Some y /\ s_state (sr_data y) = Retiring).
Proof.
  intros Hg Hp Hd d1 l d'. unfold d', resize_fork_pool. rewrite Hp, Hd. cbv zeta. cbn [snd].
  fold d1. change (surplus_candidates name d1) with (surplus_candidates name d). fold l.
  assert (Hin : forall k x, (k, x) ∈ l -> slots d !! k = Some x /\ is_available name x = true).
  { intros k x Hx. apply elem_of_surplus. unfold l in Hx. by apply elem_of_take in Hx as (? & ? & _);
      eapply list_elem_of_lookup_2. }
  assert (Hnd : NoDup l.*1).
  { unfold l. rewrite fmap_take. eapply NoDup_app with (k := drop _ _).
    rewrite take_drop. apply NoDup_surplus. }
  destruct (retire_rows now l d1) as ((He & Hv & Hl) & Hframe & Hret);
    [by destruct Hg|done|intros k x Hx; by apply Hin|].
  assert (Hy : forall k x, (k, x) ∈ l -> exists y,
    slots (foldl (retire_slot now) d1 l) !! k = Some y /\ s_state (sr_data y) = Retiring
    /\ is_available name y = false).
  { intros k x Hx. eexists. split; [by apply Hret|]. split; [done|].
    by apply (not_available _ _ Retiring). }
  split; [done|]. split; [done|]. split; [done|]. split; [|split].
  - rewrite <-(length_surplus name d). unfold available. fold (is_available name).
    rewrite (count_retired _ (slots d) _ l); try done.
    + change (count (is_available name) (slots d)) with (available name d).
      rewrite <-length_surplus. unfold l, len. rewrite length_take. lia.
    + intros k x Hx. destruct (Hy k x Hx) as (y & H1 & _ & H2). by exists y.
  - done.
  - intros k x Hx. destruct (Hin k x Hx). split; [done|]. split; [done|].
    destruct (Hy k x Hx) as (y & H1 & H2 & _). by exists y.
Qed.

(** ** Deleting *)

Lemma lease_in_live pool row :
  lease_in pool live row = true <-> lr_pool row = pool /\ lease_state_in live row = true.
Proof. unfold lease_in. by rewrite andb_true_iff, bool_decide_eq_true. Qed.

Lemma begin_delete_spec name force now d d' :
  good d -> begin_delete_fork_pool name force now d = (Some true, d') ->
  exists pool, pools d !! name = Some pool
  /\ (force = true \/ count (lease_in name live) (leases d) = 0)
  /\ effect (with_pools (alter (fun _ => set_deleting pool) name) d) d'
  /\ vms d' = vms d
  /\ (forall m row, slots d' !! m = Some row -> sr_pool row = name -> s_state (sr_data row) = Retiring)
  /\ count (lease_in name live) (leases d') = 0.
Proof.
  intros Hg. unfold begin_delete_fork_pool.
  destruct (pools d !! name) as [pool|] eqn:Ep; [|done].
  destruct (_ && negb force) eqn:Eb; [done|]. cbv zeta. intros [= <-]. exists pool. split; [done|].
  assert (Hc : force = true \/ count (lease_in name live) (leases d) = 0).
  { pose proof (count_nonneg (lease_in name live) (leases d)).
    apply andb_false_iff in Eb as [Eb|Eb]; bool_simpl; [right; lia|by left]. }
  split; [done|]. set (d1 := with_pools _ d). set (l := select (fun row => bool_decide (sr_pool row = name)) (slots d)).
  assert (Hl : forall k x, (k, x) ∈ l -> slots d1 !! k = Some x /\ sr_pool x = name).
  { intros k x. unfold l. rewrite elem_of_select, bool_decide_eq_true. done. }
  destruct (retire_rows now l d1) as ((He & Hv & Hle) & Hframe & Hret);
    [by destruct Hg|apply NoDup_select|intros k x Hx; by apply Hl|].
  set (d2 := foldl (retire_slot now) d1 l) in *.
  assert (Hslots : forall m row, slots d2 !! m = Some row -> sr_pool row = name ->
                                 s_state (sr_data row) = Retiring).
  { intros m row Hm Hp. destruct (decide (m ∈ l.*1)) as [Hin|Hin].
    - apply list_elem_of_fmap in Hin as ([k x] & -> & Hx). simpl in *.
      rewrite (Hret _ _ Hx) in Hm. by inv Hm.
    - rewrite Hframe in Hm by done. exfalso. apply Hin, list_elem_of_fmap.
      exists (m, row). split; [done|]. unfold l. rewrite elem_of_select. by rewrite bool_decide_true. }
  destruct force; cbv iota.
  - set (ls := select (lease_in name live) (leases d2)).
    assert (Hls : forall k x, (k, x) ∈ ls -> leases d2 !! k = Some x /\ lease_state_in live x = true).
    { intros k x. unfold ls. rewrite elem_of_select, lease_in_live. tauto. }
    destruct (cancel_rows now ls d2) as ((He2 & Hv2 & Hs2) & Hf2 & Hc2);
      [apply He|apply NoDup_select|done|].
    split; [by eapply effect_trans|]. split; [by rewrite Hv2, Hv|].
    split; [by rewrite Hs2|].
    apply count_zero. intros i r Hr. apply not_true_is_false. rewrite lease_in_live. intros [Hp Hli].
    destruct (decide (i ∈ ls.*1)) as [Hin|Hin].
    + apply list_elem_of_fmap in Hin as ([k x] & -> & Hx). simpl in *.
      destruct (Hc2 _ _ Hx) as (r' & Hr' & Hst & _). rewrite Hr in Hr'. inv Hr'.
      unfold lease_state_in in Hli. rewrite Hst in Hli. by vm_compute in Hli.
    + rewrite Hf2 in Hr by done. apply Hin, list_elem_of_fmap. exists (i, r). split; [done|].
      unfold ls. rewrite elem_of_select, lease_in_live. done.
  - split; [done|]. split; [done|]. split; [done|]. rewrite Hle. destruct Hc as [|Hc]; [done|exact Hc].
Qed.

Definition drained (d : Db) (kv : bytes * ForkPoolRecord) : bool :=
  deleting kv.2 && (count (fun row => bool_decide (sr_pool row = kv.1)) (slots d) =? 0).

Lemma finalize_step acc d kv :
  finalize_pool (acc, d) kv
  = if drained d kv
    then (acc ++ [kv.1], with_pools (delete kv.1) (with_leases (filter (fun r => lr_pool r.2 <> kv.1)) d))
    else (acc, d).
Proof. unfold finalize_pool, drained. destruct (deleting kv.2), (_ =? 0); done. Qed.

Lemma finalize_rows l acc d :
  let gone := map fst (List.filter (drained d) l) in
  let r := foldl finalize_pool (acc, d) l in
  r.1 = acc ++ gone /\ slots r.2 = slots d /\ vms r.2 = vms d
  /\ (forall n, pools r.2 !! n = if decide (n ∈ gone) then None else pools d !! n)
  /\ (forall i x, leases r.2 !! i = Some x <-> leases d !! i = Some x /\ lr_pool x ∉ gone).
Proof.
  revert acc d. induction l as [|kv l IH]; intros acc d.
  { cbn. rewrite app_nil_r. repeat split; try done; try set_solver. }
  cbn [foldl List.filter]. rewrite finalize_step. destruct (drained d kv) eqn:Ed; [|apply IH].
  match goal with |- context [foldl finalize_pool (_, ?e)] => set (d1 := e) end.
  destruct (IH (acc ++ [kv.1]) d1) as (H1 & H2 & H3 & H4 & H5).
  change (drained d1) with (drained d) in *. cbn [map].
  split; [by rewrite H1, <-app_assoc|]. split; [done|]. split; [done|]. split.
  - intros n. rewrite H4. unfold d1. cbn [with_pools pools with_leases].
    destruct (decide (n ∈ map fst (List.filter (drained d) l))) as [Hn|Hn].
    + rewrite decide_True; [done|by right].
    + destruct (decide (n = kv.1)) as [->|Hne].
      * rewrite lookup_delete_eq. by rewrite decide_True by by left.
      * rewrite lookup_delete_ne by done. rewrite decide_False; [done|].
        rewrite not_elem_of_cons. done.
  - intros i x. rewrite H5. unfold d1. cbn [with_pools leases with_leases].
    rewrite map_lookup_filter_Some, not_elem_of_cons. simpl. tauto.
Qed.

Lemma drained_no_slots d kv m row :
  drained d kv = true -> slots d !! m = Some row -> sr_pool row <> kv.1.
Proof.
  unfold drained. intros H Hm Hp. bool_simpl.
  rewrite count_zero in H0. specialize (H0 _ _ Hm). by apply bool_decide_eq_false in H0.
Qed.

Lemma finalize_ok d : db_ok d -> db_ok (finalize_deleted_fork_pools d).2.
Proof.
  intros [H1 H2 H3 H4 H5 H6].
  destruct (finalize_rows (map_to_list (pools d)) [] d) as (_ & Hs & _ & Hp & Hl).
  fold (finalize_deleted_fork_pools d) in *.
  set (gone := map fst _) in *. set (d' := (finalize_deleted_fork_pools d).2) in *.
  assert (Hgone : forall m row, slots d !! m = Some row -> sr_pool row ∉ gone).
  { intros m row Hm Hin. unfold gone in Hin. apply list_elem_of_In, in_map_iff in Hin as (kv & E & Hin).
    apply filter_In in Hin as [_ Hd]. by apply (drained_no_slots _ _ _ _ Hd Hm). }
  constructor.
  - intros n p. rewrite Hp. case_decide; [done|]. apply H1.
  - by rewrite Hs.
  - intros i r Hi. apply H3. by apply Hl.
  - eapply keys_unique_cols; [exact H4|]. intros j r [Hj _]%Hl. by exists r.
  - rewrite Hs. intros m row Hm. rewrite Hp, decide_False by by eapply Hgone. by apply (H5 m).
  - intros n p. rewrite Hp. case_decide; [done|]. intros Hn. unfold available. rewrite Hs. by apply H6.
Qed.

End OpFacts.
