(* ===== verification/ForkPoolProps.v ===== *)
(** * ForkPoolProps: what the fork pool promises

    The table invariant over every history of operations, exactly-once claims,
    idempotent retries, capacity limits, the lease lifecycle, expiry, resizing
    and deletion. *)

From S2P Require Import Prelude RustStr ForkPool ForkPoolFacts ForkPoolClaim.

Module HistoryFacts.
Import Str Pool PoolFacts ClaimFacts OpFacts.

(** ** One operation *)

Lemma insert_pool_ok p d : db_ok d -> db_ok (insert_fork_pool_if_not_exists p d).2.
Proof.
  intros Hd. unfold insert_fork_pool_if_not_exists.
  destruct (pools d !! p_name p) eqn:E; [done|]. destruct Hd as [H1 H2 H3 H4 H5 H6].
  constructor; try done; cbn [with_pools pools slots snd].
  - intros n q. destruct (decide (p_name p = n)) as [<-|Hne].
    + rewrite lookup_insert_eq. by intros [= <-].
    + rewrite lookup_insert_ne by done. apply H1.
  - intros m row Hm. destruct (H5 m row Hm) as [q Hq].
    rewrite lookup_insert_ne by congruence. by eexists.
  - intros n q. destruct (decide (p_name p = n)) as [<-|Hne].
    + rewrite lookup_insert_eq. intros [= <-].
      assert (available (p_name p) (with_pools (insert (p_name p) p) d) = 0) as ->; [|lia].
      apply count_zero. intros m row Hm. apply not_true_is_false. intros Ha.
      apply is_available_iff in Ha. rewrite !slot_in_singleton in Ha.
      destruct (H5 m row Hm) as [q Hq]. destruct Ha as [[Ha _]|[Ha _]]; congruence.
    + rewrite lookup_insert_ne by done. apply H6.
Qed.

Lemma reserve_ok pool m now d : db_ok d -> db_ok (reserve_fork_pool_slot pool m now d).2.
Proof.
  intros Hd. pose proof (reserve_spec pool m now d) as H.
  destruct (reserve_fork_pool_slot pool m now d) as [[] d']; [|by subst].
  destruct H as (p & Hp & _ & _ & Hav & Hm & ->). destruct Hd as [H1 H2 H3 H4 H5 H6].
  constructor; try done; cbn [with_slots pools slots snd].
  - by apply map_Forall_insert_2.
  - intros k row. destruct (decide (m = k)) as [<-|Hne].
    + rewrite lookup_insert_eq. intros [= <-]. by exists p.
    + rewrite lookup_insert_ne by done. apply H5.
  - intros n q Hq. unfold available. cbn [with_slots slots]. rewrite count_insert_None by done.
    change (count (slot_in n [Provisioning; Ready]) (slots d)) with (available n d).
    specialize (H6 n q Hq). unfold b2z. case_match eqn:Eb; [|lia].
    apply is_available_iff in Eb. rewrite !slot_in_singleton in Eb. cbn [sr_pool] in Eb.
    assert (n = pool) as -> by (destruct Eb as [[? _]|[? _]]; done).
    rewrite Hp in Hq. inv Hq. lia.
Qed.

Lemma resize_ok name desired now d : db_ok d -> db_ok (resize_fork_pool name desired now d).2.
Proof.
  intros Hd. destruct (pools d !! name) as [p|] eqn:Ep; [|by unfold resize_fork_pool; rewrite Ep].
  destruct (deleting p) eqn:Ed; [by unfold resize_fork_pool; rewrite Ep, Ed|].
  destruct (resize_spec name desired now d p) as (He & _ & _ & Hav & _ & _);
    [by apply db_ok_good|done|done|].
  set (d' := (resize_fork_pool name desired now d).2) in *.
  destruct He as [Pe Se Le [Gs Gl]]. destruct Hd as [H1 H2 H3 H4 H5 H6].
  cbn [with_pools pools slots leases] in *. constructor; rewrite ?Pe; try apply Gl; try done.
  - intros n q. destruct (decide (name = n)) as [<-|Hne].
    + rewrite lookup_alter_eq, Ep. intros [= <-]. exact (H1 name p Ep).
    + rewrite lookup_alter_ne by done. apply H1.
  - intros m row Hm. destruct (Se _ _ Hm) as (r & Hr & -> & _).
    destruct (H5 m r Hr) as [q Hq]. destruct (decide (name = sr_pool r)) as [->|Hne].
    + rewrite lookup_alter_eq, Hq. by eexists.
    + rewrite lookup_alter_ne by done. by eexists.
  - intros n q. destruct (decide (name = n)) as [<-|Hne].
    + rewrite lookup_alter_eq, Ep. intros [= <-]. cbn [set_desired_ready desired_ready]. lia.
    + rewrite lookup_alter_ne by done. intros Hq. specialize (H6 n q Hq).
      pose proof (slots_le_available _ _ n Se). unfold available in *. unfold is_available in *. lia.
Qed.

Lemma delete_ok name force now d : db_ok d -> db_ok (begin_delete_fork_pool name force now d).2.
Proof.
  intros Hd. destruct (begin_delete_fork_pool name force now d) as [[[]|] d'] eqn:E.
  - destruct (begin_delete_spec name force now d d') as (p & Hp & _ & He & _);
      [by apply db_ok_good|done|].
    cbn [snd]. eapply effect_ok; [|exact He]. apply db_ok_pools; [done| |].
    + intros q Hq. rewrite Hp in Hq. by inv Hq.
    + intros q _. exact (ok_filled _ Hd name p Hp).
  - unfold begin_delete_fork_pool in E. repeat case_match; by inv E.
  - unfold begin_delete_fork_pool in E. repeat case_match; by inv E.
Qed.

Lemma begin_delete_leases name force now d :
  good d -> leases_le (leases d) (leases (begin_delete_fork_pool name force now d).2)
  /\ vms (begin_delete_fork_pool name force now d).2 = vms d.
Proof.
  intros Hg. destruct (begin_delete_fork_pool name force now d) as [[[]|] d'] eqn:E.
  - destruct (begin_delete_spec name force now d d') as (p & _ & _ & He & Hv & _); [done..|].
    split; [apply (eff_leases _ _ He)|done].
  - unfold begin_delete_fork_pool in E. repeat case_match; by inv E.
  - unfold begin_delete_fork_pool in E. repeat case_match; by inv E.
Qed.

(** What every operation but a claim does: keep the invariant and the machines,
    and let leases only evolve (finalizing apart, which removes them). *)
Definition keeps (d d' : Db) : Prop := db_ok d' /\ leases_le (leases d) (leases d').

Lemma effect_keeps d d' : db_ok d -> effect d d' -> keeps d d'.
Proof. intros Hd He. split; [by eapply effect_ok|apply He]. Qed.

Lemma complete_effect pool i now d :
  good d -> effect d (complete_fork_lease pool i now d).2
  /\ vms (complete_fork_lease pool i now d).2 = vms d.
Proof.
  intros Hg. unfold complete_fork_lease.
  destruct (get_fork_lease pool i d); [|split; [by apply effect_refl|done]].
  case_bool_guard; [split; [by apply effect_refl|done]|]. by apply transition_effect.
Qed.

Lemma expire_effect now d :
  good d -> effect d (expire_fork_leases now d).2 /\ vms (expire_fork_leases now d).2 = vms d.
Proof.
  intros Hg. unfold expire_fork_leases.
  destruct (expire_rows now (select (lease_state_in live) (leases d)) [] d) as [H _];
    [done|apply NoDup_select| |done].
  intros k x. by rewrite elem_of_select.
Qed.

Lemma run_op_vms op d : good d -> (forall c, op <> OpClaim c) -> vms (run_op op d) = vms d.
Proof.
  intros Hg Hc. destruct op; cbn [run_op]; try done.
  - unfold insert_fork_pool_if_not_exists. by case_match.
  - destruct (pools d !! name) as [p|] eqn:Ep; [|by unfold resize_fork_pool; rewrite Ep].
    destruct (deleting p) eqn:Ed; [by unfold resize_fork_pool; rewrite Ep, Ed|].
    by apply (resize_spec name desired now d p).
  - pose proof (reserve_spec pool machine now d) as H.
    destruct (reserve_fork_pool_slot pool machine now d) as [[] d']; [|by subst].
    by destruct H as (p & _ & _ & _ & _ & _ & ->).
  - apply update_state_effect; auto.
  - apply update_state_effect; auto.
  - by apply retire_effect.
  - by destruct (Hc c).
  - by apply transition_effect.
  - by apply transition_effect.
  - by apply transition_effect.
  - by apply heartbeat_effect.
  - by apply complete_effect.
  - by apply expire_effect.
  - by apply begin_delete_leases.
  - destruct (finalize_rows (map_to_list (pools d)) [] d) as (_ & _ & H & _). exact H.
Qed.

Lemma run_op_ok op d :
  db_ok d -> db_ok (run_op op d) /\ (op <> OpFinalize -> leases_le (leases d) (leases (run_op op d))).
Proof.
  intros Hd. pose proof (db_ok_good d Hd) as Hg.
  assert (K : forall d', keeps d d' -> db_ok d' /\ (op <> OpFinalize -> leases_le (leases d) (leases d')))
    by (intros d' []; done).
  destruct op; cbn [run_op].
  - apply K. split; [by apply insert_pool_ok|]. unfold insert_fork_pool_if_not_exists. by case_match.
  - apply K. split; [|done]. by destruct Hd; constructor.
  - apply K. split; [|done]. by destruct Hd; constructor.
  - apply K. split; [by apply resize_ok|].
    destruct (pools d !! name) as [p|] eqn:Ep; [|by unfold resize_fork_pool; rewrite Ep].
    destruct (deleting p) eqn:Ed; [by unfold resize_fork_pool; rewrite Ep, Ed|].
    destruct (resize_spec name desired now d p) as (_ & _ & -> & _); done.
  - apply K. split; [by apply reserve_ok|]. pose proof (reserve_spec pool machine now d) as H.
    destruct (reserve_fork_pool_slot pool machine now d) as [[] d']; [|by subst].
    by destruct H as (p & _ & _ & _ & _ & _ & ->).
  - apply K, effect_keeps, update_state_effect; auto.
  - apply K, effect_keeps, update_state_effect; auto.
  - by apply K, effect_keeps, retire_effect.
  - by apply K, effect_keeps, remove_slot_effect.
  - by apply K, effect_keeps, claim_spec.
  - by apply K, effect_keeps, transition_effect.
  - by apply K, effect_keeps, transition_effect.
  - by apply K, effect_keeps, transition_effect.
  - by apply K, effect_keeps, heartbeat_effect.
  - by apply K, effect_keeps, complete_effect.
  - by apply K, effect_keeps, expire_effect.
  - apply K. split; [by apply delete_ok|by apply begin_delete_leases].
  - split; [by apply finalize_ok|done].
Qed.

(** ** Histories *)

Definition run (ops : list PoolOp) (d : Db) : Db := foldl (fun d op => run_op op d) d ops.
Definition fresh_db (machines : gmap bytes (option VmRecord)) : Db := MkDb ∅ ∅ ∅ machines ∅.

Lemma fresh_db_ok machines : db_ok (fresh_db machines).
Proof. by constructor. Qed.

Lemma run_ok ops d : db_ok d -> db_ok (run ops d).
Proof.
  revert d. induction ops as [|op ops IH]; intros d Hd; [done|]. apply IH. by apply run_op_ok.
Qed.

Lemma run_leases ops d :
  db_ok d -> OpFinalize ∉ ops -> leases_le (leases d) (leases (run ops d)).
Proof.
  revert d. induction ops as [|op ops IH]; intros d Hd Hf; [done|].
  rewrite not_elem_of_cons in Hf. destruct Hf as [Hne Hf]. destruct (run_op_ok op d Hd) as [Hok Hle].
  etransitivity; [by apply Hle|]. by apply IH.
Qed.

(** The machines handed out along a history, in order. *)
Fixpoint claimed (ops : list PoolOp) (d : Db) : list bytes :=
  match ops with
  | [] => []
  | op :: ops =>
      match op with
      | OpClaim c =>
          match (claim_fork_pool_slot c d).1 with
          | Ok (Claimed l) => [l_machine_name l]
          | _ => []
          end
      | _ => []
      end ++ claimed ops (run_op op d)
  end.

(** A machine whose record is not a held fork is never handed out again. *)
Definition released (m : bytes) (d : Db) : Prop :=
  forall vm, vms d !! m = Some (Some vm) -> forkpoint_held vm = false.

Lemma claim_releases c d m :
  good d ->
  match (claim_fork_pool_slot c d).1 with
  | Ok (Claimed l) =>
      ~ released (l_machine_name l) d /\ released (l_machine_name l) (claim_fork_pool_slot c d).2
  | _ => True
  end
  /\ (released m d -> released m (claim_fork_pool_slot c d).2).
Proof.
  intros Hg. pose proof (claim_spec c d Hg) as [_ H]. cbv zeta in H.
  destruct (claim_fork_pool_slot c d) as [[[l|l| | | | |]|e] d']; cbn [fst snd] in *;
    try (destruct H as [Hv _]; split; [done|]; unfold released; by rewrite Hv).
  destruct H as (pool & w & vm & -> & _ & _ & _ & _ & Hw & Hheld & _ & Hv & _).
  cbn [new_lease l_machine_name]. split; [split|].
  - intros Hr. specialize (Hr vm Hw). congruence.
  - intros vm'. rewrite Hv, lookup_alter_eq, Hw. by intros [= <-].
  - intros Hm vm'. rewrite Hv. destruct (decide (w = m)) as [->|Hne].
    + rewrite lookup_alter_eq, Hw. by intros [= <-].
    + rewrite lookup_alter_ne by done. apply Hm.
Qed.

Lemma released_run_op op d m : db_ok d -> released m d -> released m (run_op op d).
Proof.
  intros Hd Hm. pose proof (db_ok_good d Hd) as Hg.
  assert ((exists c, op = OpClaim c) \/ forall c, op <> OpClaim c) as [[c ->]|Hc]
    by (destruct op; eauto; by right).
  - by apply (claim_releases c d m).
  - unfold released. by rewrite run_op_vms.
Qed.

Lemma claimed_fresh ops d m : db_ok d -> released m d -> m ∉ claimed ops d.
Proof.
  revert d. induction ops as [|op ops IH]; intros d Hd Hm; [apply not_elem_of_nil|].
  cbn [claimed]. rewrite not_elem_of_app. split.
  - destruct op; try apply not_elem_of_nil.
    destruct (claim_releases c d m (db_ok_good d Hd)) as [H _].
    destruct (claim_fork_pool_slot c d).1 as [[]|]; try apply not_elem_of_nil.
    intros ->%list_elem_of_singleton. by destruct H.
  - apply IH; [by apply run_op_ok|by apply released_run_op].
Qed.

End HistoryFacts.

(** ** The device budget *)
Module DeviceFacts.
Import Str Pool PoolFacts ClaimFacts OpFacts.

Section Groups.
Context {A : Type} (key : A -> bytes).
Implicit Types (l : list A) (gs : list bytes).

Definition group (l : list A) (g : bytes) : Z :=
  len (List.filter (fun x => bool_decide (key x = g)) l).
Definition total (l : list A) (gs : list bytes) : Z := foldr (fun g n => group l g + n) 0 gs.

Lemma group_cons x l g : group (x :: l) g = group l g + b2z (bool_decide (key x = g)).
Proof. unfold group. cbn [List.filter]. case_bool_decide; cbn [b2z]; rewrite ?len_cons; lia. Qed.

Lemma total_cons x l gs :
  NoDup gs -> total (x :: l) gs = total l gs + b2z (bool_decide (key x ∈ gs)).
Proof.
  induction 1 as [|g gs Hg Hnd IH]; [done|]. cbn [total foldr] in *. fold (total l gs).
  fold (total (x :: l) gs). rewrite IH, group_cons.
  destruct (decide (key x = g)) as [E|E].
  - rewrite (bool_decide_true (key x = g)) by done.
    rewrite (bool_decide_false (key x ∈ gs)) by by rewrite E.
    rewrite bool_decide_true by (rewrite E; left). cbn [b2z]. lia.
  - rewrite (bool_decide_false (key x = g)) by done.
    rewrite (bool_decide_ext (key x ∈ g :: gs) (key x ∈ gs)) by (rewrite elem_of_cons; tauto).
    cbn [b2z]. lia.
Qed.

(** Group counts add up to the members. *)
Lemma total_members l gs :
  NoDup gs -> total l gs = len (List.filter (fun x => bool_decide (key x ∈ gs)) l).
Proof.
  intros Hnd. induction l as [|x l IH].
  - clear. induction gs as [|g gs IH]; [done|]. cbn [total foldr] in *. fold (total [] gs) in *.
    rewrite IH. done.
  - rewrite total_cons by done. rewrite IH. cbn [List.filter].
    case_bool_decide; cbn [b2z]; rewrite ?len_cons; lia.
Qed.
End Groups.

Lemma fold_saturating (P : bytes -> bool) (f : bytes -> Z) gs a :
  (forall g, 0 <= f g) -> 0 <= a <= u_max 32 ->
  foldl (fun acc g => if P g.1 then saturating_add 32 acc g.2 else acc) a
    (map (fun g => (g, f g)) gs)
  = Z.min (a + foldr (fun g n => f g + n) 0 (List.filter P gs)) (u_max 32).
Proof.
  intros Hf. revert a. induction gs as [|g gs IH]; intros a Ha; cbn [map foldl List.filter fst snd].
  - cbn [foldr]. lia.
  - assert (0 <= foldr (fun g n => f g + n) 0 (List.filter P gs)).
    { clear -Hf. induction (List.filter P gs) as [|h l IH]; cbn [foldr]; [lia|]. specialize (Hf h). lia. }
    specialize (Hf g) as Hg. destruct (P g); [|by apply IH].
    rewrite IH; unfold saturating_add in *; cbn [foldr]; lia.
Qed.

(** Whether a lease counts against the device budget of a claim on [pool]. *)
Definition pool_on_device (name : bytes) (pool : ForkPoolRecord) (ordinal : Z) (d : Db) (g : bytes) : bool :=
  bool_decide ((let! p := (if bool_decide (g = name) then Some pool else pools d !! g) in
                admission_device_ordinal p) = Some ordinal).
Definition on_device (name : bytes) (pool : ForkPoolRecord) (ordinal : Z) (d : Db) (row : LeaseRow) : bool :=
  lease_state_in live row && pool_on_device name pool ordinal d (lr_pool row).

Lemma NoDup_filter_fun (P : bytes -> bool) gs : NoDup gs -> NoDup (List.filter P gs).
Proof.
  induction 1 as [|g gs Hg _ IH]; simpl; [constructor|]. destruct (P g); [|done].
  constructor; [|done]. rewrite list_elem_of_In, filter_In, <-list_elem_of_In. tauto.
Qed.

Lemma filter_filter {A} (P Q : A -> bool) l :
  List.filter P (List.filter Q l) = List.filter (fun x => Q x && P x) l.
Proof.
  induction l as [|x l IH]; [done|]. simpl. destruct (Q x); simpl; [|done].
  destruct (P x); by rewrite IH.
Qed.

Lemma filter_ext_elem {A} (P Q : A -> bool) l :
  (forall x, x ∈ l -> P x = Q x) -> List.filter P l = List.filter Q l.
Proof.
  induction l as [|x l IH]; intros H; [done|]. simpl. rewrite (H x) by left.
  rewrite IH; [done|]. intros y Hy. apply H. by right.
Qed.

(** The grouped, saturating sum is the number of live leases on the device. *)
Lemma active_on_device_count name pool ordinal d :
  active_on_device name pool ordinal d
  = Z.min (count (on_device name pool ordinal d) (leases d)) (u_max 32).
Proof.
  unfold active_on_device, live_by_pool.
  set (rows := select (lease_state_in live) (leases d)).
  set (names := remove_dups _).
  etransitivity; [refine (fold_saturating (pool_on_device name pool ordinal d)
    (fun g => count (lease_in g live) (leases d)) names 0 _ _); [intros; apply count_nonneg|unfold u_max; lia]|].
  f_equal. rewrite Z.add_0_l.
  assert (Hg : forall g, count (lease_in g live) (leases d) = group (fun kv => lr_pool kv.2) rows g).
  { intros g. unfold count, group, rows, select. rewrite filter_filter. f_equal.
    apply filter_ext_elem. intros x _. unfold lease_in. apply andb_comm. }
  transitivity (total (fun kv => lr_pool kv.2) rows (List.filter (pool_on_device name pool ordinal d) names)).
  { induction (List.filter _ names) as [|g gs IH]; [done|]. cbn [foldr total]. rewrite Hg, IH. done. }
  rewrite total_members by apply NoDup_filter_fun, NoDup_remove_dups.
  unfold count, rows, select. rewrite filter_filter. f_equal. apply filter_ext_elem.
  intros [k r] Hin. unfold on_device. cbn [snd].
  destruct (lease_state_in live r) eqn:El; [|done]. cbn [andb].
  apply Bool.eq_iff_eq_true. rewrite bool_decide_eq_true, list_elem_of_In, filter_In, <-list_elem_of_In.
  unfold names. rewrite elem_of_remove_dups, list_elem_of_fmap.
  split; [tauto|]. intros H. split; [|done]. exists (k, r). split; [done|].
  apply elem_of_select. by apply elem_of_map_to_list in Hin.
Qed.

End DeviceFacts.

Module PoolProps.
Import Str Pool PoolFacts ClaimFacts OpFacts HistoryFacts DeviceFacts.

(** C12: Whatever the history of operations from an empty database: the
    indexed columns of every slot and lease agree with the record stored beside
    them, no two leases share a pool and retry key, every slot's pool exists,
    and no pool ever has more provisioning and ready workers than its target. *)
Theorem pool_tables_consistent machines ops : db_ok (run ops (fresh_db machines)).
Proof. apply run_ok, fresh_db_ok. Qed.

(** C2: Exactly once: along any history, no machine is handed out by two
    successful claims, whatever slots are removed, reserved again or resized in
    between. *)
Theorem claimed_at_most_once machines ops : NoDup (claimed ops (fresh_db machines)).
Proof.
  pose proof (fresh_db_ok machines) as Hd. revert Hd. generalize (fresh_db machines).
  induction ops as [|op ops IH]; intros d Hd; [constructor|]. cbn [claimed].
  pose proof (run_op_ok op d Hd) as [Hd' _].
  destruct op; try by apply IH.
  destruct (claim_releases c d [] (db_ok_good d Hd)) as [H _]. cbn [run_op] in *.
  destruct (claim_fork_pool_slot c d).1 as [[l| | | | | |]|]; try by apply IH.
  cbn [app]. constructor; [|by apply IH]. apply claimed_fresh; [done|apply H].
Qed.

(** A pool with one held worker, and a claim on it. *)
Definition sample_pool : ForkPoolRecord :=
  MkPool (bs "p") (bs "golden") 2 (Some 1) false (Some 0) true false 60 30 0 false.
Definition held_vm : VmRecord :=
  MkVm (Some (bs "golden")) true [(bs "INDEX", bs "0")] [(bs "TASK", bs "none")] []
    Running (Some 4242) (Some 7).
Definition sample_ops : list PoolOp :=
  [OpInsertPool sample_pool; OpReserve (bs "p") (bs "w1") 1; OpReady (bs "w1") 2].
Definition sample_db : Db := run sample_ops (fresh_db {[bs "w1" := Some held_vm]}).
Definition sample_claim (key : bytes) : ForkPoolSlotClaim :=
  MkClaim (bs "p") (bs "lease-1") key [(bs "TASK", bs "a")] None true (Some (MkLimit 4 4)) 30 10.
Definition sample_lease : ForkLeaseRecord := new_lease (sample_claim (bs "k")) (bs "w1").

Lemma sample_db_ok : db_ok sample_db.
Proof. apply run_ok, fresh_db_ok. Qed.
Lemma sample_claimed :
  claim_fork_pool_slot (sample_claim (bs "k")) sample_db
  = (Ok (Claimed sample_lease), (claim_fork_pool_slot (sample_claim (bs "k")) sample_db).2).
Proof. by vm_compute. Qed.

(** C20: A successful claim stays within every limit: the pool is not being
    deleted, its live leases including the new one stay within the configured
    and the adaptive limit, and the live leases of all pools on the same CUDA
    device stay within the device limit. The worker was ready and held for this
    golden; its slot now carries the lease, its machine is no longer held, and
    a controller that still believes the slot ready cannot retire it. *)
Theorem claim_admission c d l d' :
  db_ok d -> claim_fork_pool_slot c d = (Ok (Claimed l), d') ->
  exists pool, pools d !! c_pool_name c = Some pool /\ deleting pool = false
  /\ (forall m, effective_max_active pool (c_admission_limit c) = Some m ->
        count (lease_in (c_pool_name c) live) (leases d')
        = count (lease_in (c_pool_name c) live) (leases d) + 1
        /\ count (lease_in (c_pool_name c) live) (leases d') <= m)
  /\ (forall limit ordinal, c_admission_limit c = Some limit ->
        admission_device_ordinal pool = Some ordinal ->
        active_on_device (c_pool_name c) pool ordinal d' <= limit_device limit)
  /\ (exists vm vm', vms d !! l_machine_name l = Some (Some vm) /\ forkpoint_held vm = true
        /\ vm_golden vm = Some (p_golden pool)
        /\ vms d' !! l_machine_name l = Some (Some vm') /\ forkpoint_held vm' = false)
  /\ (exists slot, get_fork_pool_slot (l_machine_name l) d' = Some slot
        /\ s_state slot = SlotActivating /\ s_lease_id slot = Some (l_id l))
  /\ (forall now error,
        mark_fork_pool_slot_retiring_from (l_machine_name l) Ready now error d' = (false, d')).
Proof.
  intros Hd Hc. pose proof (db_ok_good d Hd) as Hg.
  destruct (claim_spec c d Hg) as [He H]. rewrite Hc in He, H. cbn [fst snd] in He, H.
  destruct H as (pool & m & vm & -> & _ & Hp & Hdel & Hcap & Hvm & Hheld & Hgold & Hv & Hid & Hl
                 & _ & srow & Hsrow & Hst & Hlid).
  unfold at_capacity in Hcap. apply orb_false_iff in Hcap as [Hcap1 Hcap2].
  assert (Hcount : count (lease_in (c_pool_name c) live) (leases d')
                   = count (lease_in (c_pool_name c) live) (leases d) + 1).
  { rewrite Hl, count_insert_None by done. unfold lease_in at 2. cbn [lr_pool].
    by rewrite bool_decide_true. }
  exists pool. split; [done|]. split; [done|]. split; [|split; [|split; [|split]]].
  - intros n Hn. rewrite Hn in Hcap1. split; [done|]. bool_simpl. lia.
  - intros limit ordinal Hlim Hord. rewrite Hlim, Hord in Hcap2.
    rewrite active_on_device_count in Hcap2 |- *.
    assert (on_device (c_pool_name c) pool ordinal d' = on_device (c_pool_name c) pool ordinal d) as ->.
    { unfold on_device, pool_on_device. by rewrite (eff_pools _ _ He). }
    rewrite Hl, count_insert_None by done. bool_simpl.
    unfold b2z. destruct (on_device _ _ _ _ _); lia.
  - exists vm, (activated c vm). cbn [new_lease l_machine_name].
    rewrite Hv, lookup_alter_eq, Hvm. done.
  - exists (sr_data srow). unfold get_fork_pool_slot. cbn [new_lease l_machine_name l_id].
    rewrite Hsrow. split; [done|]. split; [|done].
    pose proof (proj1 (eff_good _ _ He) _ _ Hsrow) as (_ & _ & E).
    rewrite Hst in E. symmetry. by apply (slot_as_str_inj SlotActivating).
  - intros now error. unfold mark_fork_pool_slot_retiring_from, update_fork_pool_slot_state.
    cbn [new_lease l_machine_name]. rewrite Hsrow. rewrite bool_decide_false; [done|].
    by rewrite Hst.
Qed.

Lemma claim_admission_witness :
  count (lease_in (bs "p") live)
    (leases (claim_fork_pool_slot (sample_claim (bs "k")) sample_db).2) <= 1.
Proof.
  destruct (claim_admission (sample_claim (bs "k")) sample_db sample_lease _ sample_db_ok sample_claimed)
    as (pool & Hp & _ & H & _).
  assert (pool = sample_pool) as -> by (vm_compute in Hp; by injection Hp as <-).
  apply (H 1). by vm_compute.
Defined.

(** A retry never consumes a second worker: once a claim succeeded, every
    later claim with the same pool and key, whatever else it asks for and
    whatever happened since (short of finalizing the deletion of a pool),
    returns the same lease on the same machine and changes nothing. *)
Theorem claim_idempotent c c' d l d' ops :
  db_ok d -> claim_fork_pool_slot c d = (Ok (Claimed l), d') -> OpFinalize ∉ ops ->
  c_pool_name c' = c_pool_name c -> c_idempotency_key c' = c_idempotency_key c ->
  exists l', claim_fork_pool_slot c' (run ops d') = (Ok (Existing l'), run ops d')
  /\ l_id l' = l_id l /\ l_machine_name l' = l_machine_name l /\ l_assignment l' = l_assignment l.
Proof.
  intros Hd Hc Hf Hp Hk. destruct (claim_spec c d (db_ok_good d Hd)) as [He H].
  rewrite Hc in He, H. cbn [fst snd] in He, H.
  destruct H as (pool & m & vm & -> & _ & _ & _ & _ & _ & _ & _ & _ & _ & Hl & _).
  assert (db_ok d') as Hd' by by eapply effect_ok.
  assert (Hrow : leases d' !! c_lease_id c
    = Some (MkLeaseRow (c_pool_name c) (c_idempotency_key c) (bs "activating") (new_lease c m)))
    by by rewrite Hl, lookup_insert_eq.
  destruct (run_leases ops d' Hd' Hf _ _ Hrow) as (row & Hrow' & Ep & Ek & Hs).
  exists (lr_data row). unfold claim_fork_pool_slot.
  rewrite (find_by_key_Some _ _ _ (c_lease_id c) row); [|apply run_ok; by destruct Hd'|done|
    by rewrite Ep, Hp|by rewrite Ek, Hk].
  unfold lease_step in Hs. cbn [lr_data] in Hs. split; [done|]. tauto.
Qed.

Lemma claim_idempotent_witness :
  exists l', claim_fork_pool_slot (MkClaim (bs "p") (bs "lease-2") (bs "k") [] None false None 5 99)
    (run [OpMarkActive (bs "lease-1") 11; OpExpire 1000]
       (claim_fork_pool_slot (sample_claim (bs "k")) sample_db).2)
  = (Ok (Existing l'), run [OpMarkActive (bs "lease-1") 11; OpExpire 1000]
       (claim_fork_pool_slot (sample_claim (bs "k")) sample_db).2)
  /\ l_machine_name l' = bs "w1".
Proof.
  destruct (claim_idempotent (sample_claim (bs "k"))
    (MkClaim (bs "p") (bs "lease-2") (bs "k") [] None false None 5 99) sample_db sample_lease _
    [OpMarkActive (bs "lease-1") 11; OpExpire 1000] sample_db_ok sample_claimed) as (l' & H1 & _ & H2 & _).
  - rewrite !not_elem_of_cons. split; [done|]. split; [done|apply not_elem_of_nil].
  - done.
  - done.
  - exists l'. split; [exact H1|]. rewrite H2. by vm_compute.
Defined.

(** C31: A lease, once ended, is immutable, and none goes back: along any history
    without finalizing, a lease keeps its identity, machine, assignment and
    TTL; a completed, expired, failed or cancelled record never changes again,
    and an active one never becomes activating. *)
Theorem lease_lifecycle d ops i row :
  db_ok d -> OpFinalize ∉ ops -> leases d !! i = Some row ->
  exists row', leases (run ops d) !! i = Some row'
  /\ l_id (lr_data row') = i /\ l_machine_name (lr_data row') = l_machine_name (lr_data row)
  /\ l_assignment (lr_data row') = l_assignment (lr_data row)
  /\ l_ttl_secs (lr_data row') = l_ttl_secs (lr_data row)
  /\ (terminal (l_state (lr_data row)) = true -> row' = row)
  /\ (l_state (lr_data row) = Active -> l_state (lr_data row') <> Activating).
Proof.
  intros Hd Hf Hi. destruct (run_leases ops d Hd Hf _ _ Hi) as (row' & Hr & Hp & Hk & Hs).
  pose proof (run_ok ops d Hd) as Hd'.
  pose proof (ok_leases _ Hd _ _ Hi) as (A1 & A2 & A3 & A4).
  pose proof (ok_leases _ Hd' _ _ Hr) as (B1 & B2 & B3 & B4).
  exists row'. unfold lease_step in Hs. destruct_and!. do 5 (split; [congruence|]). split.
  - intros Ht. assert (lr_data row' = lr_data row) as E by by destruct (l_state (lr_data row)).
    destruct row, row'. simpl in *. subst. congruence.
  - intros Ea. by rewrite Ea in *.
Qed.

Lemma lease_lifecycle_witness :
  exists row', leases (run [OpMarkActive (bs "lease-1") 11; OpComplete (bs "p") (bs "lease-1") 12;
                            OpExpire 9999]
       (claim_fork_pool_slot (sample_claim (bs "k")) sample_db).2) !! bs "lease-1" = Some row'
  /\ l_machine_name (lr_data row') = bs "w1".
Proof.
  destruct (lease_lifecycle (claim_fork_pool_slot (sample_claim (bs "k")) sample_db).2
    [OpMarkActive (bs "lease-1") 11; OpComplete (bs "p") (bs "lease-1") 12; OpExpire 9999]
    (bs "lease-1") (MkLeaseRow (bs "p") (bs "k") (bs "activating") sample_lease))
    as (row' & H1 & _ & H2 & _).
  - apply (run_op_ok (OpClaim (sample_claim (bs "k")))), sample_db_ok.
  - rewrite !not_elem_of_cons. do 3 (split; [done|]). apply not_elem_of_nil.
  - vm_compute. reflexivity.
  - exists row'. split; [exact H1|]. rewrite H2. by vm_compute.
Defined.

(** Resizing a live pool leaves exactly the smaller of what it had and the
    new target available; it retires only available workers of that pool, and a
    ready one only when no provisioning one is left; every other slot, every
    lease and every machine is untouched. *)
Theorem resize_exact name desired now d pool :
  db_ok d -> pools d !! name = Some pool -> deleting pool = false -> 0 <= desired ->
  let d' := (resize_fork_pool name desired now d).2 in
  available name d' = Z.min (available name d) desired
  /\ leases d' = leases d /\ vms d' = vms d
  /\ forall k x, slots d !! k = Some x ->
       slots d' !! k = Some x
       \/ (is_available name x = true
           /\ (exists y, slots d' !! k = Some y /\ s_state (sr_data y) = Retiring)
           /\ (slot_in name [Ready] x = true ->
               forall k' x', slots d' !! k' = Some x' -> slot_in name [Provisioning] x' = false)).
Proof.
  intros Hd Hp Hdel Hn d'.
  destruct (resize_spec name desired now d pool) as (_ & Hv & Hl & Hav & Hframe & Hret);
    [by apply db_ok_good|done|done|]. fold d' in Hv, Hl, Hav, Hframe, Hret.
  set (cand := surplus_candidates name d) in *.
  set (n := (length cand - Z.to_nat desired)%nat) in *.
  split; [rewrite Hav; lia|]. split; [done|]. split; [done|]. intros k x Hk.
  destruct (decide (k ∈ (take n cand).*1)) as [Hin|Hin]; [|left; by rewrite Hframe].
  right. apply list_elem_of_fmap in Hin as ([k' x'] & -> & Hin). simpl in *.
  destruct (Hret _ _ Hin) as (Hx' & Hav' & Hy). assert (x' = x) as -> by congruence.
  split; [done|]. split; [done|]. intros Hready j y Hj.
  apply not_true_is_false. intros Hprov.
  set (provs := order_by_key (select (slot_in name [Provisioning]) (slots d))).
  assert (Hlen : (length provs <= n)%nat).
  { destruct (decide (length provs <= n)%nat) as [|Hgt]; [done|exfalso].
    unfold cand, surplus_candidates in Hin. fold provs in Hin.
    rewrite take_app_le in Hin by lia. apply elem_of_take in Hin as (i & Hi & _).
    apply list_elem_of_lookup_2 in Hi. unfold provs in Hi.
    rewrite elem_of_order_by_key, elem_of_select in Hi. destruct Hi as [_ Hi].
    apply slot_in_singleton in Hi as [_ E1]. apply slot_in_singleton in Hready as [_ E2].
    rewrite E1 in E2. done. }
  assert (Hjl : j ∉ (take n cand).*1).
  { intros Hjin. apply list_elem_of_fmap in Hjin as ([j' z] & -> & Hz). simpl in *.
    destruct (Hret _ _ Hz) as (_ & _ & y' & Hy' & Hst). rewrite Hj in Hy'. inv Hy'.
    pose proof (proj1 (eff_good _ _ (proj1 (resize_spec name desired now d pool
      (db_ok_good d Hd) Hp Hdel))) _ _ Hj) as (_ & _ & E).
    apply slot_in_singleton in Hprov as [_ E']. rewrite E, Hst in E'. done. }
  rewrite Hframe in Hj by done.
  assert ((j, y) ∈ provs) as Hjp.
  { unfold provs. by rewrite elem_of_order_by_key, elem_of_select. }
  apply Hjl, list_elem_of_fmap. exists (j, y). split; [done|].
  unfold cand, surplus_candidates. fold provs. rewrite take_app_ge by lia. apply elem_of_app. by left.
Qed.

Lemma resize_exact_witness :
  available (bs "p") (resize_fork_pool (bs "p") 0 5 sample_db).2 = 0.
Proof.
  assert (available (bs "p") sample_db = 1) as E by by vm_compute.
  destruct (resize_exact (bs "p") 0 5 sample_db sample_pool sample_db_ok) as [H _];
    [by vm_compute..|]. rewrite H, E. done.
Defined.

(** Expiry takes exactly the overdue: a lease ends up expired just when it was
    live and its deadline had passed, every other lease is untouched, the
    result lists the expired ones, their workers are retired and no machine is
    changed. *)
Theorem expire_exact now d :
  db_ok d ->
  let r := expire_fork_leases now d in
  (forall i x, leases d !! i = Some x ->
     exists y, leases r.2 !! i = Some y
     /\ (terminal (l_state (lr_data x)) = false /\ l_expires_at (lr_data x) <= now ->
         l_state (lr_data y) = Expired /\ lr_data y ∈ r.1
         /\ forall row, slots r.2 !! l_machine_name (lr_data x) = Some row ->
              s_state (sr_data row) = Retiring)
     /\ (terminal (l_state (lr_data x)) = true \/ now < l_expires_at (lr_data x) -> y = x))
  /\ vms r.2 = vms d.
Proof.
  intros Hd r. pose proof (db_ok_good d Hd) as Hg.
  destruct (expire_rows now (select (lease_state_in live) (leases d)) [] d)
    as ((He & Hv) & Hframe & Hrows); [done|apply NoDup_select|intros k x; by rewrite elem_of_select|].
  fold (expire_fork_leases now d) in *. fold r in He, Hv, Hframe, Hrows. split; [|done].
  intros i x Hi. pose proof (ok_leases _ Hd _ _ Hi) as Hok.
  pose proof (live_row_iff _ _ Hok) as Hlive.
  destruct (terminal (l_state (lr_data x))) eqn:Et; cbn [negb] in Hlive.
  - exists x. rewrite Hframe. { split; [done|]. split; [by intros []|done]. }
    intros Hin. apply list_elem_of_fmap in Hin as ([k y] & -> & Hy). simpl in *.
    apply elem_of_select in Hy as [Hy Hl]. congruence.
  - assert ((i, x) ∈ select (lease_state_in live) (leases d)) as Hin by by apply elem_of_select.
    eexists. split; [by apply Hrows|]. unfold overdue.
    destruct (Z.gtb_spec (l_expires_at (lr_data x)) now) as [Hgt|Hle]; cbn [negb].
    + split; [lia|done].
    + split; [|intros [?|?]; [done|lia]]. intros _. cbn [lr_data]. split; [done|]. split.
      * unfold r, expire_fork_leases. rewrite expire_list. cbn [app].
        apply list_elem_of_In, in_map_iff. exists (i, x). split; [done|]. apply filter_In.
        split; [by apply list_elem_of_In|]. unfold overdue. cbn [snd].
        by destruct (Z.gtb_spec (l_expires_at (lr_data x)) now); [lia|].
      * intros row Hrow. pose proof (proj1 (eff_good _ _ He) _ _ Hrow) as (_ & _ & E).
        assert (slot_retiring (l_machine_name (lr_data x)) r.2) as Hret.
        { unfold r, expire_fork_leases. apply expire_retires. right. exists (i, x).
          split; [done|]. split; [|done]. unfold overdue. cbn [snd].
          by destruct (Z.gtb_spec (l_expires_at (lr_data x)) now); [lia|]. }
        rewrite (Hret _ Hrow) in E. symmetry. by apply (slot_as_str_inj Retiring).
Qed.

(** An activation handoff that never finished is expired after its grace. *)
Lemma expire_exact_witness :
  exists y, leases (expire_fork_leases 400 (claim_fork_pool_slot (sample_claim (bs "k")) sample_db).2).2
              !! bs "lease-1" = Some y
  /\ l_state (lr_data y) = Expired.
Proof.
  destruct (expire_exact 400 (claim_fork_pool_slot (sample_claim (bs "k")) sample_db).2) as [H _].
  { apply (run_op_ok (OpClaim (sample_claim (bs "k")))), sample_db_ok. }
  destruct (H (bs "lease-1") (MkLeaseRow (bs "p") (bs "k") (bs "activating") sample_lease))
    as (y & Hy & He & _); [by vm_compute|].
  exists y. split; [exact Hy|]. apply He. clear. split; vm_compute; [reflexivity|discriminate].
Defined.

(** Deleting a pool: without force it is refused while a lease is live, and
    then nothing changes; otherwise afterwards the pool is marked, all its
    workers retire and none of its leases is live, so every later claim is
    refused or answered from an old lease and every reservation is refused.
    Finalizing removes exactly the marked pools that have no slot left, with
    all their leases and nothing else. *)
Theorem delete_drains name force now d d' :
  db_ok d -> is_Some (pools d !! name) -> (begin_delete_fork_pool name force now d).2 = d' ->
  (force = false -> 0 < count (lease_in name live) (leases d) -> d' = d)
  /\ (force = true \/ count (lease_in name live) (leases d) = 0 ->
      (exists p, pools d' !! name = Some p /\ deleting p = true)
      /\ (forall m row, slots d' !! m = Some row -> sr_pool row = name ->
            s_state (sr_data row) = Retiring)
      /\ count (lease_in name live) (leases d') = 0
      /\ (forall c, c_pool_name c = name ->
            (claim_fork_pool_slot c d').2 = d'
            /\ ((claim_fork_pool_slot c d').1 = Ok PoolDeleting
                \/ exists l, (claim_fork_pool_slot c d').1 = Ok (Existing l)))
      /\ (forall m t, reserve_fork_pool_slot name m t d' = (false, d')))
  /\ (forall n, pools (finalize_deleted_fork_pools d).2 !! n =
        if bool_decide (n ∈ (finalize_deleted_fork_pools d).1) then None else pools d !! n)
  /\ (forall n, n ∈ (finalize_deleted_fork_pools d).1 <->
        exists p, pools d !! n = Some p /\ deleting p = true
          /\ forall m row, slots d !! m = Some row -> sr_pool row <> n)
  /\ (forall i x, leases (finalize_deleted_fork_pools d).2 !! i = Some x <->
        leases d !! i = Some x /\ lr_pool x ∉ (finalize_deleted_fork_pools d).1).
Proof.
  intros Hd [p Hp] Hdel. pose proof (db_ok_good d Hd) as Hg.
  split; [|split].
  - intros -> Hc. subst d'. unfold begin_delete_fork_pool. rewrite Hp.
    by destruct (Z.gtb_spec (count (lease_in name live) (leases d)) 0); [|lia].
  - intros Hf. destruct (begin_delete_fork_pool name force now d) as [r e] eqn:E. cbn [snd] in Hdel.
    subst e. assert (r = Some true) as ->.
    { unfold begin_delete_fork_pool in E. rewrite Hp in E.
      destruct Hf as [->|Hz]; [rewrite andb_false_r in E; by inv E|].
      rewrite Hz in E. cbn [Z.gtb Z.compare andb] in E. by inv E. }
    destruct (begin_delete_spec name force now d d' Hg E) as (q & Hq & _ & He & _ & Hs & Hl).
    assert (Hp' : pools d' !! name = Some (set_deleting q)).
    { rewrite (eff_pools _ _ He). cbn [with_pools pools]. by rewrite lookup_alter_eq, Hq. }
    split; [by exists (set_deleting q)|]. split; [done|]. split; [done|]. split.
    + intros c <-. unfold claim_fork_pool_slot. rewrite Hp'. cbn [set_deleting deleting].
      destruct (find_by_key _ _ d'); cbn [fst snd]; eauto.
    + intros m t. unfold reserve_fork_pool_slot. by rewrite Hp'.
  - destruct (finalize_rows (map_to_list (pools d)) [] d) as (H1 & _ & _ & H4 & H5).
    fold (finalize_deleted_fork_pools d) in *. cbn [app] in H1. rewrite H1.
    split; [intros n; rewrite H4; by case_decide; case_bool_decide|]. split; [|done].
    intros n. rewrite list_elem_of_In, in_map_iff. split.
    + intros ([n' q] & <- & Hin). apply filter_In in Hin as [Hin Hdr].
      apply list_elem_of_In, elem_of_map_to_list in Hin. exists q. split; [done|]. split.
      * unfold drained in Hdr. by apply andb_true_iff in Hdr as [? _].
      * intros m row Hm. by apply (drained_no_slots _ _ _ _ Hdr Hm).
    + intros (q & Hq & Hdq & Hno). exists (n, q). split; [done|]. apply filter_In.
      split; [by apply list_elem_of_In, elem_of_map_to_list|]. unfold drained. cbn [fst snd].
      rewrite Hdq. cbn [andb]. apply Z.eqb_eq, count_zero. intros m row Hm.
      apply bool_decide_eq_false. by apply (Hno m).
Qed.

Lemma delete_drains_witness :
  count (lease_in (bs "p") live)
    (leases (begin_delete_fork_pool (bs "p") true 20
       (claim_fork_pool_slot (sample_claim (bs "k")) sample_db).2).2) = 0.
Proof.
  destruct (delete_drains (bs "p") true 20 (claim_fork_pool_slot (sample_claim (bs "k")) sample_db).2 _
    (proj1 (run_op_ok (OpClaim (sample_claim (bs "k"))) _ sample_db_ok))
    ltac:(eexists; vm_compute; reflexivity) eq_refl) as (_ & H & _).
  by apply H; left.
Defined.

(** Deadlines: activation starts the TTL at the moment it commits and moves
    the worker to leased; a heartbeat extends an active lease that has not
    expired and nothing else; both saturate at the largest timestamp. *)
Theorem lease_deadlines d i row now :
  db_ok d -> leases d !! i = Some row ->
  (l_state (lr_data row) = Activating ->
     exists l', mark_fork_lease_active i now d = (Some l', (mark_fork_lease_active i now d).2)
     /\ get_fork_lease_by_id i (mark_fork_lease_active i now d).2 = Some l'
     /\ l_state l' = Active
     /\ l_expires_at l' = Z.min (now + l_ttl_secs (lr_data row)) (u_max 64)
     /\ forall s, get_fork_pool_slot (l_machine_name (lr_data row)) d = Some s ->
          exists s', get_fork_pool_slot (l_machine_name (lr_data row)) (mark_fork_lease_active i now d).2 = Some s'
          /\ s_state s' = Leased)
  /\ (let r := heartbeat_fork_lease (lr_pool row) i now d in
      if decide (l_state (lr_data row) = Active /\ now < l_expires_at (lr_data row))
      then exists l', r.1 = Some l' /\ get_fork_lease_by_id i r.2 = Some l' /\ l_state l' = Active
           /\ l_expires_at l' = Z.min (now + l_ttl_secs (lr_data row)) (u_max 64)
      else r = (Some (lr_data row), d)).
Proof.
  intros Hd Hi. split.
  - intros Hst. unfold mark_fork_lease_active, transition_fork_lease. rewrite Hi.
    rewrite bool_decide_false by (rewrite Hst; by intros []). cbv zeta. cbn [bool_decide andb].
    eexists. split; [done|]. cbn [fst snd].
    match goal with |- context [update_lease i ?l _ d] => set (lease := l) end.
    split; [|split; [done|split; [reflexivity|]]].
    + unfold get_fork_lease_by_id. case_match; cbn [update_slot with_slots leases];
        by rewrite update_lease_lookup, Hi.
    + intros s Hs. unfold get_fork_pool_slot in *. change (l_machine_name lease) with (l_machine_name (lr_data row)).
      change (slots (update_lease i lease (lease_as_str Active) d)) with (slots d).
      destruct (slots d !! l_machine_name (lr_data row)) as [srow|] eqn:E; [|done].
      rewrite update_slot_lookup. change (slots (update_lease i lease (lease_as_str Active) d)) with (slots d).
      rewrite E. eexists. split; done.
  - cbv zeta. unfold heartbeat_fork_lease. rewrite Hi, bool_decide_true by done. cbv zeta.
    destruct (decide _) as [[Ha Hn]|Hn].
    + rewrite (bool_decide_true (l_state _ = Active)) by done.
      destruct (Z.gtb_spec (l_expires_at (lr_data row)) now); [|lia]. cbn [andb fst snd].
      eexists. split; [done|]. unfold get_fork_lease_by_id. cbn [with_leases leases].
      rewrite lookup_alter_eq, Hi. done.
    + destruct (bool_decide _ && _) eqn:E; [|done]. bool_simpl. exfalso. apply Hn. split; [done|lia].
Qed.

Lemma lease_deadlines_witness :
  get_fork_lease_by_id (bs "lease-1")
    (mark_fork_lease_active (bs "lease-1") 100 (claim_fork_pool_slot (sample_claim (bs "k")) sample_db).2).2
  <> None.
Proof.
  destruct (lease_deadlines (claim_fork_pool_slot (sample_claim (bs "k")) sample_db).2 (bs "lease-1")
    (MkLeaseRow (bs "p") (bs "k") (bs "activating") sample_lease) 100) as [H _].
  - apply (run_op_ok (OpClaim (sample_claim (bs "k")))), sample_db_ok.
  - by vm_compute.
  - destruct H as (l' & _ & E & _); [by vm_compute|]. by rewrite E.
Defined.

End PoolProps.
