(* ===== verification/Resize.v ===== *)
(** * Resize: the durable journal of live resizes
    (src/db/resize.rs, src/agent/live_resize.rs)

    Before a running machine's geometry changes, the intended target is stored
    in [vm_resize_intents]; a retried request is recognised by its receipt in
    [vm_resize_receipts]. Rows hold the bytes [serde_json] produced, because
    two of the updates compare those bytes: [Serde] is what the journal relies
    on. The process table, the boot identity file, the outcome of switching
    SQLite's durability and fresh tokens are arguments. *)

From S2P Require Import Prelude RustStr ForkPool.

Module Resize.
Import Str.

Inductive ResizeTarget :=
| Cpus (n : Z)
| Memory (mib : Z)
| Disks (storage overlay : option Z).
#[global] Instance ResizeTarget_eq_dec : EqDecision ResizeTarget.
Proof. solve_decision. Defined.

Record ResizeIntent := MkIntent {
  token : bytes;
  pid : Z;
  started : Z;
  boot_id : option bytes;
  target : ResizeTarget;
}.
#[global] Instance ResizeIntent_eq_dec : EqDecision ResizeIntent.
Proof. solve_decision. Defined.

Inductive ResizeReceiptState := Active | Rejected (message : bytes) | Applied.
#[global] Instance ResizeReceiptState_eq_dec : EqDecision ResizeReceiptState.
Proof. solve_decision. Defined.

Record RuntimeIdentity := MkRuntime {
  rt_pid : Z;
  rt_start_time : Z;
  rt_boot_id : option bytes;
}.
#[global] Instance RuntimeIdentity_eq_dec : EqDecision RuntimeIdentity.
Proof. solve_decision. Defined.

(** The fields of [VmRecord] a resize reads and writes. *)
Record VmRecord := MkVm {
  cpus : Z;
  mem : Z;
  storage_gb : option Z;
  overlay_gb : option Z;
}.

Record ResizeGeometry := MkGeometry {
  g_cpus : Z;
  g_memory_mb : Z;
  g_storage_gb : option Z;
  g_overlay_gb : option Z;
}.
#[global] Instance ResizeGeometry_eq_dec : EqDecision ResizeGeometry.
Proof. solve_decision. Defined.

Definition geometry_from (record : VmRecord) : ResizeGeometry :=
  MkGeometry (cpus record) (mem record) (storage_gb record) (overlay_gb record).

Record ResizeReceipt := MkReceipt {
  operation_id : bytes;
  runtime : RuntimeIdentity;
  r_target : ResizeTarget;
  original : ResizeGeometry;
  r_state : ResizeReceiptState;
}.
#[global] Instance ResizeReceipt_eq_dec : EqDecision ResizeReceipt.
Proof. solve_decision. Defined.

Inductive Error :=
| InvalidOperationIdentity
| VmNotFound
| OperationReused
| InvalidReceiptTransition
| ReceiptOwnershipChanged
| UnfinishedResize
| InvalidProcessIdentity
| UnfinishedOtherTarget
| InvalidReplacementRuntime
| OwnershipChangedBeforeTransfer
| IntentDisappeared
| OwnershipChangedBeforeCompletion
| ProcessUnverified
| VmmChangedBeforeCompletion
| BootChanged
| BootIdentityUnavailable
| RuntimeIdentityMismatch
| InvalidGeometry
| BelowBootMemory
| OutsideCapacity
| DiskShrink
| DiskOverflow
| CpuStatusInvalid
| Database
| Panicked.

(** What the journal relies on: [serde_json::to_vec] may fail, and
    [serde_json::from_slice] decodes what it wrote. *)
Class Serde (A : Type) := MkSerde {
  to_vec : A -> option bytes;
  from_slice : bytes -> option A;
  from_slice_to_vec : forall x b, to_vec x = Some b -> from_slice b = Some x;
}.

(** A [vms] blob that does not decode is [None]; [pauses] is the [consumed]
    column of [vm_pause_operations]; [snapshots] is [fork_pool_snapshots]. *)
Record Db := MkDb {
  vms : gmap bytes (option VmRecord);
  intents : gmap bytes bytes;
  receipts : gmap (bytes * bytes) bytes;
  pauses : gmap (bytes * bytes) bool;
  snapshots : gmap bytes bytes;
}.
Definition with_vms (f : gmap bytes (option VmRecord) -> gmap bytes (option VmRecord)) (d : Db) : Db :=
  MkDb (f (vms d)) (intents d) (receipts d) (pauses d) (snapshots d).
Definition with_intents (f : gmap bytes bytes -> gmap bytes bytes) (d : Db) : Db :=
  MkDb (vms d) (f (intents d)) (receipts d) (pauses d) (snapshots d).
Definition with_receipts (f : gmap (bytes * bytes) bytes -> gmap (bytes * bytes) bytes) (d : Db) : Db :=
  MkDb (vms d) (intents d) (f (receipts d)) (pauses d) (snapshots d).

(** ** The host *)

(** [h_alive] and [h_start_time] are the operating system's answers;
    [h_boot_file] is /proc/sys/kernel/random/boot_id when it can be read. *)
Record Host := MkHost {
  h_linux : bool;
  h_boot_file : option bytes;
  h_alive : Z -> bool;
  h_start_time : Z -> option Z;
}.

Definition host_boot_id (h : Host) : result (option bytes) Error :=
  if h_linux h then
    match h_boot_file h with
    | None => Err BootIdentityUnavailable
    | Some id =>
        let id := trim id in
        if is_empty id then Err BootIdentityUnavailable else Ok (Some id)
    end
  else Ok None.

Definition start_time_matches (actual expected : Z) : bool :=
  if actual =? expected then true
  else if (expected <? 1000000000000) && (actual >=? 1000000000000)
  then actual / 1000000 =? expected
  else false.

Definition is_our_process_strict (h : Host) (pid : Z) (expected_start_time : option Z) : bool :=
  if negb (h_alive h pid) then false
  else match expected_start_time with
  | Some expected =>
      match h_start_time h pid with
      | Some actual => start_time_matches actual expected
      | None => false
      end
  | None => false
  end.

Definition observe (h : Host) (pid : Z) : option RuntimeIdentity :=
  let! start_time := h_start_time h pid in
  let! boot := match host_boot_id h with Ok b => Some b | Err _ => None end in
  if is_our_process_strict h pid (Some start_time)
  then Some (MkRuntime pid start_time boot) else None.

Definition validate_boot (r : RuntimeIdentity) (actual : option bytes) : result unit Error :=
  if bool_decide (rt_boot_id r <> actual) then Err BootChanged else Ok tt.

Definition validate (r : RuntimeIdentity) (actual : option (Z * option Z)) : result unit Error :=
  if (rt_pid r <=? 0) || bool_decide (actual <> Some (rt_pid r, Some (rt_start_time r)))
  then Err RuntimeIdentityMismatch else Ok tt.

(** ** The journal *)

(** The outcomes of the two [PRAGMA synchronous] updates. *)
Record Sync := MkSync { full_ok : bool; normal_ok : bool }.

Definition with_durable_resize_write {T} (io : Sync) (operation : Db -> result T Error * Db)
    (d : Db) : result T Error * Db :=
  if negb (full_ok io) then (Err Database, d)
  else
    let (r, d) := operation d in
    match r with
    | Err error => (Err error, d)
    | Ok value => if normal_ok io then (Ok value, d) else (Err Database, d)
    end.

Definition valid_operation_id (id : bytes) : bool :=
  negb (is_empty id) && (len id <=? 128)
  && forallb (fun b => is_ascii_alphanumeric b || (b =? 45) || (b =? 95)) id.

Definition set_receipt_state (s : ResizeReceiptState) (r : ResizeReceipt) : ResizeReceipt :=
  MkReceipt (operation_id r) (runtime r) (r_target r) (original r) s.

Section Journal.
Context `{Serde ResizeIntent, Serde ResizeReceipt}.

Definition begin_resize_receipt (io : Sync) (name : bytes) (request : ResizeReceipt) (d : Db) :
    result ResizeReceipt Error * Db :=
  if negb (valid_operation_id (operation_id request)) || bool_decide (r_state request <> Active)
  then (Err InvalidOperationIdentity, d)
  else with_durable_resize_write io (fun d =>
    match vms d !! name with
    | None => (Err VmNotFound, d)
    | Some _ =>
        match receipts d !! (name, operation_id request) with
        | Some blob =>
            match from_slice blob with
            | None => (Err Database, d)
            | Some previous =>
                if bool_decide (runtime previous <> runtime request)
                   || bool_decide (r_target previous <> r_target request)
                then (Err OperationReused, d)
                else (Ok previous, d)
            end
        | None =>
            match to_vec request with
            | None => (Err Database, d)
            | Some blob =>
                (Ok request, with_receipts (insert (name, operation_id request) blob) d)
            end
        end
    end) d.

Definition finish_resize_receipt (io : Sync) (name : bytes) (expected : ResizeReceipt)
    (terminal : ResizeReceiptState) (d : Db) : result unit Error * Db :=
  if bool_decide (r_state expected <> Active) || bool_decide (terminal = Active)
  then (Err InvalidReceiptTransition, d)
  else
    let completed := set_receipt_state terminal expected in
    with_durable_resize_write io (fun d =>
      match to_vec completed, to_vec expected with
      | Some new, Some old =>
          if bool_decide (receipts d !! (name, operation_id expected) = Some old)
          then (Ok tt, with_receipts (insert (name, operation_id expected) new) d)
          else (Err ReceiptOwnershipChanged, d)
      | _, _ => (Err Database, d)
      end) d.

Definition pending_resize (name : bytes) (d : Db) : result (option ResizeIntent) Error :=
  match intents d !! name with
  | None => Ok None
  | Some blob =>
      match from_slice blob with None => Err Database | Some i => Ok (Some i) end
  end.

Definition pending_resize_names (d : Db) : list bytes :=
  map fst (Pool.order_by_key (map_to_list (intents d))).

Definition require_completed_resize (name : bytes) (d : Db) : result unit Error :=
  match intents d !! name with Some _ => Err UnfinishedResize | None => Ok tt end.

Definition begin_resize (h : Host) (io : Sync) (fresh : bytes) (name : bytes) (p s : Z)
    (t : ResizeTarget) (d : Db) : result ResizeIntent Error * Db :=
  if p <=? 0 then (Err InvalidProcessIdentity, d)
  else match host_boot_id h with
  | Err e => (Err e, d)
  | Ok boot =>
      with_durable_resize_write io (fun d =>
        match vms d !! name with
        | None => (Err VmNotFound, d)
        | Some _ =>
            match intents d !! name with
            | Some blob =>
                match from_slice blob with
                | None => (Err Database, d)
                | Some intent =>
                    if negb (pid intent =? p) || negb (started intent =? s)
                       || bool_decide (boot_id intent <> boot)
                       || bool_decide (target intent <> t)
                    then (Err UnfinishedOtherTarget, d)
                    else (Ok intent, d)
                end
            | None =>
                let intent := MkIntent fresh p s boot t in
                match to_vec intent with
                | None => (Err Database, d)
                | Some blob => (Ok intent, with_intents (insert name blob) d)
                end
            end
        end) d
  end.

Definition rebind_resize (io : Sync) (fresh : bytes) (name : bytes) (expected : ResizeIntent)
    (rt : RuntimeIdentity) (d : Db) : result ResizeIntent Error * Db :=
  if rt_pid rt <=? 0 then (Err InvalidReplacementRuntime, d)
  else
    let replacement :=
      MkIntent fresh (rt_pid rt) (rt_start_time rt) (rt_boot_id rt) (target expected) in
    with_durable_resize_write io (fun d =>
      match to_vec replacement, to_vec expected with
      | Some new, Some old =>
          if bool_decide (intents d !! name = Some old)
          then (Ok replacement, with_intents (insert name new) d)
          else (Err OwnershipChangedBeforeTransfer, d)
      | _, _ => (Err Database, d)
      end) d.

Definition finish_resize (io : Sync) (name : bytes) (expected : ResizeIntent) (d : Db) :
    result unit Error * Db :=
  with_durable_resize_write io (fun d =>
    match intents d !! name with
    | None => (Err IntentDisappeared, d)
    | Some blob =>
        match from_slice blob with
        | None => (Err Database, d)
        | Some actual =>
            if bool_decide (actual <> expected)
            then (Err OwnershipChangedBeforeCompletion, d)
            else (Ok tt, with_intents (delete name) d)
        end
    end) d.

(** Removes the record with everything that names the machine; an unfinished
    pause is marked consumed. *)
Definition remove_vm (name : bytes) (d : Db) : result (option VmRecord) Error * Db :=
  match vms d !! name with
  | None => (Ok None, d)
  | Some None => (Err Database, d)
  | Some (Some r) =>
      (Ok (Some r),
       MkDb (delete name (vms d)) (delete name (intents d))
         (filter (fun kv => kv.1.1 <> name) (receipts d))
         (map_imap (fun k consumed => Some (bool_decide (k.1 = name) || consumed)) (pauses d))
         (delete name (snapshots d)))
  end.

(** ** The operations of a resize on the journal *)

Definition previous_runtime_gone (intent : ResizeIntent) (current_boot : option bytes)
    (alive : bool) (observed_start : option Z) : bool :=
  let previous_boot_ended :=
    match boot_id intent, current_boot with
    | Some old, Some current => bool_decide (old <> current)
    | _, _ => false
    end in
  previous_boot_ended || negb alive
  || match observed_start with Some start => negb (start =? started intent) | None => false end.

Definition begin_resize_intent (h : Host) (io : Sync) (fresh : bytes) (name : bytes) (p : Z)
    (s : option Z) (t : ResizeTarget) (d : Db) : result ResizeIntent Error * Db :=
  if negb (is_our_process_strict h p s) then (Err ProcessUnverified, d)
  else match s with
  | None => (Err Panicked, d)
  | Some start =>
      match host_boot_id h with
      | Err e => (Err e, d)
      | Ok boot =>
          match pending_resize name d with
          | Err e => (Err e, d)
          | Ok None => begin_resize h io fresh name p start t d
          | Ok (Some previous) =>
              let different_runtime :=
                negb (pid previous =? p) || negb (started previous =? start)
                || bool_decide (boot_id previous <> boot) in
              if different_runtime && bool_decide (target previous = t)
                 && previous_runtime_gone previous boot (h_alive h (pid previous))
                      (h_start_time h (pid previous))
              then rebind_resize io fresh name previous (MkRuntime p start boot) d
              else begin_resize h io fresh name p start t d
          end
      end
  end.

Definition clear_met_memory_intent (h : Host) (io : Sync) (name : bytes) (intent : ResizeIntent)
    (boot_mib : Z) (d : Db) : result bool Error * Db :=
  match target intent with
  | Memory t =>
      if boot_mib <? t then (Ok false, d)
      else match host_boot_id h with
      | Err e => (Err e, d)
      | Ok boot =>
          if negb (previous_runtime_gone intent boot (h_alive h (pid intent))
                     (h_start_time h (pid intent)))
          then (Ok false, d)
          else
            let (r, d) := finish_resize io name intent d in
            (let? _ := r in Ok true, d)
      end
  | _ => (Ok false, d)
  end.

Definition validate_intent_boot (intent : ResizeIntent) (actual : option bytes) : result unit Error :=
  if bool_decide (boot_id intent <> actual) then Err BootChanged else Ok tt.

Definition finish_resize_intent (h : Host) (io : Sync) (name : bytes) (intent : ResizeIntent)
    (d : Db) : result unit Error * Db :=
  match (let? boot := host_boot_id h in validate_intent_boot intent boot) with
  | Err e => (Err e, d)
  | Ok _ =>
      if negb (is_our_process_strict h (pid intent) (Some (started intent)))
      then (Err VmmChangedBeforeCompletion, d)
      else finish_resize io name intent d
  end.

End Journal.

(** ** Targets and runtime replies *)

Record MemoryGrowthInfo := MkGrowth {
  boot_mib : Z;
  base_ : Z;
  mapped : Z;
  plugged : Z;
  capacity : Z;
  driver : option bool;
}.

(** The slice pattern: [driver] is split off before the fixed words. *)
Definition split_driver (words : list bytes) : list bytes * option bytes :=
  match rev words with
  | d :: k :: head => if bool_decide (k = bs "driver") then (rev head, Some d) else (words, None)
  | _ => (words, None)
  end.

Definition growth_valid (i : MemoryGrowthInfo) : bool :=
  negb ((boot_mib i =? 0)
        || (capacity i =? 0)
        || (mapped i >? capacity i)
        || (plugged i >? mapped i)
        || negb (is_multiple_of (base_ i) (Z.shiftl 128 20))
        || negb (is_multiple_of (mapped i) (Z.shiftl 128 20))
        || negb (is_multiple_of (capacity i) (Z.shiftl 128 20))
        || negb (is_multiple_of (plugged i) (Z.shiftl 2 20))
        || negb (bool_decide (is_Some (checked_add 64 (base_ i) (capacity i))))
        || match checked_add 64 (boot_mib i) (Z.shiftr (capacity i) 20) with
           | None => true
           | Some total => total >? U32_MAX
           end).

Definition parse_growth (reply : bytes) : result MemoryGrowthInfo Error :=
  let (head, driver) := split_driver (split_whitespace reply) in
  match head with
  | [w0; w1; boot; w2; base; w3; mapped; w4; plugged; w5; capacity] =>
      if bool_decide ([w0; w1; w2; w3; w4; w5]
           = [bs "OK"; bs "boot_mib"; bs "base"; bs "mapped"; bs "plugged"; bs "capacity"])
      then
        let? boot := ok_or (parse_uint 32 boot) InvalidGeometry in
        let? base := ok_or (parse_uint 64 base) InvalidGeometry in
        let? mapped := ok_or (parse_uint 64 mapped) InvalidGeometry in
        let? plugged := ok_or (parse_uint 64 plugged) InvalidGeometry in
        let? capacity := ok_or (parse_uint 64 capacity) InvalidGeometry in
        let? driver :=
          match driver with
          | None => Ok None
          | Some v =>
              if bool_decide (v = bs "1") then Ok (Some true)
              else if bool_decide (v = bs "0") then Ok (Some false)
              else Err InvalidGeometry
          end in
        let info := MkGrowth boot base mapped plugged capacity driver in
        if growth_valid info then Ok info else Err InvalidGeometry
      else Err InvalidGeometry
  | _ => Err InvalidGeometry
  end.

Definition target_added_mib (i : MemoryGrowthInfo) (total_mib : Z) : result Z Error :=
  match checked_sub total_mib (boot_mib i) with
  | None => Err BelowBootMemory
  | Some target =>
      let bytes := wrap 64 (Z.shiftl target 20) in
      if (bytes <? mapped i) || (bytes >? capacity i) || negb (is_multiple_of target 128)
      then Err OutsideCapacity
      else Ok target
  end.

Definition growth_fits (total_bytes available_bytes extra_bytes : Z) : bool :=
  let reserve := Z.min (Z.max (total_bytes / 20) (Z.shiftl 512 20)) (Z.shiftl 4096 20) in
  (extra_bytes =? 0) || (available_bytes >=? saturating_add 64 extra_bytes reserve).

Definition validate_growth (current requested : Z) : result Z Error :=
  if (requested =? 0) || (requested <? current) then Err DiskShrink
  else ok_or (checked_mul 64 requested (Z.shiftl 1 30)) DiskOverflow.

Definition cpu_status (reply : bytes) : result (Z * Z) Error :=
  match split_whitespace reply with
  | [w0; w1; created; w2; capacity] =>
      if bool_decide ([w0; w1; w2] = [bs "OK"; bs "created"; bs "capacity"]) then
        match parse_uint 8 created, parse_uint 8 capacity with
        | Some created, Some capacity =>
            if (created >? 0) && (created <=? capacity) then Ok (created, capacity)
            else Err CpuStatusInvalid
        | _, _ => Err CpuStatusInvalid
        end
      else Err CpuStatusInvalid
  | _ => Err CpuStatusInvalid
  end.

End Resize.

(** ** The history of a journal *)

Module ResizeHistory.
Import Resize.

(** Every operation that writes the journal, and [SetVm] for the creation and
    update of machine records elsewhere. *)
Inductive Op :=
| BeginReceipt (io : Sync) (name : bytes) (request : ResizeReceipt)
| FinishReceipt (io : Sync) (name : bytes) (expected : ResizeReceipt) (terminal : ResizeReceiptState)
| BeginResize (h : Host) (io : Sync) (fresh name : bytes) (p s : Z) (t : ResizeTarget)
| RebindResize (io : Sync) (fresh name : bytes) (expected : ResizeIntent) (rt : RuntimeIdentity)
| FinishResize (io : Sync) (name : bytes) (expected : ResizeIntent)
| BeginIntent (h : Host) (io : Sync) (fresh name : bytes) (p : Z) (s : option Z) (t : ResizeTarget)
| ClearMet (h : Host) (io : Sync) (name : bytes) (i : ResizeIntent) (boot_mib : Z)
| FinishIntent (h : Host) (io : Sync) (name : bytes) (i : ResizeIntent)
| RemoveVm (name : bytes)
| SetVm (name : bytes) (record : option VmRecord).

(** The operations that may end the resize of [n]. *)
Definition releases (n : bytes) (op : Op) : Prop :=
  match op with
  | FinishResize _ m _ | ClearMet _ _ m _ _ | FinishIntent _ _ m _ | RemoveVm m => m = n
  | _ => False
  end.
Definition removes (n : bytes) (op : Op) : Prop :=
  match op with RemoveVm m => m = n | _ => False end.

Section History.
Context `{SI : Serde ResizeIntent, SR : Serde ResizeReceipt}.

Definition apply (d : Db) (op : Op) : Db :=
  match op with
  | BeginReceipt io n r => (begin_resize_receipt io n r d).2
  | FinishReceipt io n e t => (finish_resize_receipt io n e t d).2
  | BeginResize h io f n p s t => (begin_resize h io f n p s t d).2
  | RebindResize io f n e rt => (rebind_resize io f n e rt d).2
  | FinishResize io n e => (finish_resize io n e d).2
  | BeginIntent h io f n p s t => (begin_resize_intent h io f n p s t d).2
  | ClearMet h io n i b => (clear_met_memory_intent h io n i b d).2
  | FinishIntent h io n i => (finish_resize_intent h io n i d).2
  | RemoveVm n => (remove_vm n d).2
  | SetVm n r => with_vms (insert n r) d
  end.

(** Every row is the encoding of its record, under the record's key, and
    belongs to a machine that exists. *)
Definition journal_ok (d : Db) : Prop :=
  (forall n b, intents d !! n = Some b ->
     is_Some (vms d !! n) /\ exists i : ResizeIntent, to_vec i = Some b)
  /\ (forall n id b, receipts d !! (n, id) = Some b ->
     is_Some (vms d !! n)
     /\ exists r : ResizeReceipt, to_vec r = Some b /\ operation_id r = id /\ valid_operation_id id = true).

(** What a step may do to the two rows of a machine. *)
Definition intent_step (keep : Prop) (old new : option bytes) : Prop :=
  old = new
  \/ (old = None /\ exists i : ResizeIntent, new = to_vec i)
  \/ (exists i i' : ResizeIntent, old = to_vec i /\ new = to_vec i' /\ is_Some new /\ target i' = target i)
  \/ (~ keep /\ new = None).
Definition receipt_step (keep : Prop) (old new : option bytes) : Prop :=
  old = new
  \/ (old = None /\ exists r : ResizeReceipt, new = to_vec r /\ r_state r = Active)
  \/ (exists (r : ResizeReceipt) s, old = to_vec r /\ is_Some old /\ r_state r = Active /\ s <> Active
        /\ is_Some new /\ new = to_vec (set_receipt_state s r))
  \/ (~ keep /\ new = None).

Record op_step (op : Op) (d d' : Db) : Prop := MkOpStep {
  step_ok : journal_ok d -> journal_ok d';
  step_intents : forall n, intent_step (~ releases n op) (intents d !! n) (intents d' !! n);
  step_receipts : forall n id,
    receipt_step (~ removes n op) (receipts d !! (n, id)) (receipts d' !! (n, id));
}.

Lemma op_step_refl op d : op_step op d d.
Proof. split; [done|by left..]. Qed.

Lemma durable_step {T} op io (f : Db -> result T Error * Db) d :
  op_step op d (f d).2 -> op_step op d (with_durable_resize_write io f d).2.
Proof.
  intros H. unfold with_durable_resize_write.
  destruct (full_ok io); simpl; [|apply op_step_refl].
  destruct (f d) as [[v|e] d'] eqn:E; [|done]. by destruct (normal_ok io).
Qed.

(** A row written by [insert] under an existing machine. *)
Lemma intent_insert_step op d name b i :
  (journal_ok d -> is_Some (vms d !! name)) -> to_vec i = Some b ->
  (intents d !! name = None \/ exists i' : ResizeIntent, intents d !! name = to_vec i' /\ target i = target i') ->
  op_step op d (with_intents (insert name b) d).
Proof.
  intros Hvm Hb Hold. split; simpl.
  - intros Hok. specialize (Hvm Hok) as Hvm'. destruct Hok as [Hi Hr].
    split; [|done]. intros n b'. simpl.
    destruct (decide (name = n)) as [<-|Hn].
    + rewrite lookup_insert_eq. intros [= <-]. split; [done|by exists i].
    + rewrite lookup_insert_ne by done. apply Hi.
  - intros n. destruct (decide (name = n)) as [<-|Hn].
    + rewrite lookup_insert_eq, <-Hb.
      destruct Hold as [H|(i' & H & Ht)]; right; [left; eauto|right; left].
      exists i', i. rewrite Hb. by repeat split.
    + rewrite lookup_insert_ne by done. by left.
  - intros n id. by left.
Qed.

Lemma receipt_insert_step op d name r b :
  (journal_ok d -> is_Some (vms d !! name) /\ valid_operation_id (operation_id r) = true) ->
  to_vec r = Some b ->
  receipt_step (~ removes name op) (receipts d !! (name, operation_id r)) (Some b) ->
  op_step op d (with_receipts (insert (name, operation_id r) b) d).
Proof.
  intros Hvm Hb Hs. split; simpl.
  - intros Hok. specialize (Hvm Hok) as [Hvm' Hid]. destruct Hok as [Hi Hr].
    split; [done|]. intros n id b'. simpl.
    destruct (decide ((name, operation_id r) = (n, id))) as [[= <- <-]|Hn].
    + rewrite lookup_insert_eq. intros [= <-]. split; [done|by exists r].
    + rewrite lookup_insert_ne by done. apply Hr.
  - intros n. by left.
  - intros n id. destruct (decide ((name, operation_id r) = (n, id))) as [[= <- <-]|Hn].
    + by rewrite lookup_insert_eq.
    + rewrite lookup_insert_ne by done. by left.
Qed.

(** Encodings are injective, and a row's record is what it decodes to. *)
Lemma to_vec_inj {A} `{Serde A} (x y : A) b : to_vec x = Some b -> to_vec y = Some b -> x = y.
Proof. intros Hx%from_slice_to_vec Hy%from_slice_to_vec. congruence. Qed.

Lemma begin_receipt_step io n r d op :
  op_step op d (begin_resize_receipt io n r d).2.
Proof.
  unfold begin_resize_receipt. case_bool_guard; [apply op_step_refl|].
  apply durable_step. destruct (vms d !! n) eqn:Hv; [|apply op_step_refl].
  destruct (receipts d !! _) eqn:Hr; [repeat case_step; apply op_step_refl|].
  destruct (to_vec r) eqn:Hb; [|apply op_step_refl].
  apply receipt_insert_step; [by rewrite Hv|done|].
  rewrite Hr. right; left. split; [done|]. exists r. split; [done|]. by apply dec_stable.
Qed.

Lemma finish_receipt_step io n e t d op :
  op_step op d (finish_resize_receipt io n e t d).2.
Proof.
  unfold finish_resize_receipt. case_bool_guard; [apply op_step_refl|].
  apply durable_step. destruct (to_vec (set_receipt_state t e)) as [new|] eqn:Hn;
    [|apply op_step_refl].
  destruct (to_vec e) as [old|] eqn:He; [|apply op_step_refl].
  case_bool_decide as Hr; [|apply op_step_refl].
  apply (receipt_insert_step _ _ _ (set_receipt_state t e)); [|done|].
  - intros [_ Hok]. by apply Hok in Hr as (? & r & ? & ? & ?).
  - simpl. rewrite Hr. right; right; left. exists e, t.
    rewrite He, Hn. repeat split; try done. by apply dec_stable.
Qed.

Lemma begin_resize_step h io f n p s t d op :
  op_step op d (begin_resize h io f n p s t d).2.
Proof.
  unfold begin_resize. case_bool_guard; [apply op_step_refl|].
  destruct (host_boot_id h); [|apply op_step_refl].
  apply durable_step. destruct (vms d !! n) eqn:Hv; [|apply op_step_refl].
  destruct (intents d !! n) eqn:Hi; [repeat case_step; apply op_step_refl|].
  destruct (to_vec _) eqn:Hb; [|apply op_step_refl].
  eapply intent_insert_step; [by rewrite Hv|done|by left].
Qed.

Lemma rebind_step io f n e rt d op : op_step op d (rebind_resize io f n e rt d).2.
Proof.
  unfold rebind_resize. case_bool_guard; [apply op_step_refl|].
  apply durable_step. destruct (to_vec (MkIntent _ _ _ _ _)) eqn:Hb; [|apply op_step_refl].
  destruct (to_vec e) eqn:He; [|apply op_step_refl].
  case_bool_decide as Hi; [|apply op_step_refl].
  eapply intent_insert_step; [|done|].
  - intros [Hok _]. by apply Hok in Hi as [? _].
  - right. exists e. by rewrite He.
Qed.

(** A deletion of rows by an operation that may end the resize. *)
Lemma intent_delete_step op d n : releases n op -> op_step op d (with_intents (delete n) d).
Proof.
  intros Hr. split; simpl.
  - intros [Hi Hrec]. split; [|done]. intros m b. simpl.
    rewrite lookup_delete_Some. intros [_ H]. by apply Hi.
  - intros m. destruct (decide (n = m)) as [<-|Hn].
    + rewrite lookup_delete_eq. right; right; right. split; [|done]. tauto.
    + rewrite lookup_delete_ne by done. by left.
  - intros m id. by left.
Qed.

Lemma finish_step io n e d op : releases n op -> op_step op d (finish_resize io n e d).2.
Proof.
  intros Hr. unfold finish_resize. apply durable_step.
  repeat case_step; simpl; try apply op_step_refl. by apply intent_delete_step.
Qed.

Lemma remove_step n d : op_step (RemoveVm n) d (remove_vm n d).2.
Proof.
  unfold remove_vm. destruct (vms d !! n) as [[r|]|] eqn:Hv; try apply op_step_refl.
  split; simpl.
  - intros [Hi Hr]. split.
    + intros m b. simpl. rewrite lookup_delete_Some. intros [Hm H].
      rewrite lookup_delete_ne by done. by apply Hi.
    + intros m id b. simpl. rewrite map_lookup_filter_Some. simpl. intros [H Hm].
      rewrite lookup_delete_ne by done. by apply Hr.
  - intros m. destruct (decide (n = m)) as [<-|Hn].
    + rewrite lookup_delete_eq. right; right; right. split; [|done]. tauto.
    + rewrite lookup_delete_ne by done. by left.
  - intros m id. destruct (decide (n = m)) as [<-|Hn].
    + right; right; right. split; [tauto|]. apply map_lookup_filter_None_2.
      right. intros b _ Hne. by apply Hne.
    + left. destruct (receipts d !! (m, id)) as [b|] eqn:Hb; symmetry.
      * by apply map_lookup_filter_Some_2.
      * apply map_lookup_filter_None_2. by left.
Qed.

Lemma set_vm_step n r d op : op_step op d (with_vms (insert n r) d).
Proof.
  split; simpl; [|by left..].
  assert (forall m, is_Some (vms d !! m) -> is_Some (<[n := r]> (vms d) !! m)) as Hm.
  { intros m Hm. destruct (decide (n = m)) as [<-|Hn]; [by rewrite lookup_insert_eq|].
    by rewrite lookup_insert_ne. }
  intros [Hi Hr]. split; simpl.
  - intros m b Hb. destruct (Hi _ _ Hb). eauto.
  - intros m id b Hb. destruct (Hr _ _ _ Hb). eauto.
Qed.

(** The operations of a resize are the transactions above or do nothing. *)
Lemma apply_step op d : op_step op d (apply d op).
Proof.
  destruct op; simpl.
  - apply begin_receipt_step.
  - apply finish_receipt_step.
  - apply begin_resize_step.
  - apply rebind_step.
  - by apply finish_step.
  - unfold begin_resize_intent.
    repeat case_step; try apply op_step_refl; apply begin_resize_step || apply rebind_step.
  - unfold clear_met_memory_intent. repeat case_step; try apply op_step_refl.
    simpl. replace d0 with (finish_resize io name i d).2 by (by rewrite Heqp).
    by apply finish_step.
  - unfold finish_resize_intent. repeat case_step; try apply op_step_refl. by apply finish_step.
  - apply remove_step.
  - apply set_vm_step.
Qed.

Definition run (ops : list Op) (d : Db) : Db := foldl apply d ops.

Lemma journal_ok_run ops d : journal_ok d -> journal_ok (run ops d).
Proof.
  revert d. induction ops as [|op ops IH]; intros d Hd; [done|].
  apply IH. by apply (step_ok _ _ _ (apply_step op d)).
Qed.

Lemma intent_kept ops n d (i : ResizeIntent) b :
  intents d !! n = Some b -> to_vec i = Some b -> Forall (fun op => ~ releases n op) ops ->
  exists i' b', intents (run ops d) !! n = Some b' /\ to_vec i' = Some b' /\ target i' = target i.
Proof.
  revert d i b. induction ops as [|op ops IH]; intros d i b Hb Hi Hops; [eauto|].
  apply Forall_cons in Hops as [Hop Hops].
  destruct (step_intents _ _ _ (apply_step op d) n)
    as [E|[[E _]|[(i0 & i1 & E0 & E1 & [b1 Hb1] & Ht)|[E _]]]]; [| | |done].
  - apply (IH (apply d op) i b); [by rewrite <-E|done..].
  - congruence.
  - rewrite Hb in E0. rewrite Hb1 in E1.
    destruct (IH (apply d op) i1 b1) as (i' & b' & ? & ? & ?); [done..|].
    rewrite (to_vec_inj i i0 b) by done. exists i', b'. by rewrite <-Ht.
Qed.

(** A receipt's identity is fixed, and so is all of it once it is terminal. *)
Definition receipt_le (r r' : ResizeReceipt) : Prop :=
  operation_id r' = operation_id r /\ runtime r' = runtime r /\ r_target r' = r_target r
  /\ original r' = original r /\ (r_state r <> Active -> r' = r).

Lemma receipt_kept ops n id d (r : ResizeReceipt) b :
  receipts d !! (n, id) = Some b -> to_vec r = Some b -> Forall (fun op => ~ removes n op) ops ->
  exists r' b', receipts (run ops d) !! (n, id) = Some b' /\ to_vec r' = Some b' /\ receipt_le r r'.
Proof.
  revert d r b. induction ops as [|op ops IH]; intros d r b Hb Hr Hops.
  { exists r, b. by repeat split. }
  apply Forall_cons in Hops as [Hop Hops].
  destruct (step_receipts _ _ _ (apply_step op d) n id)
    as [E|[[E _]|[(r0 & st & E0 & _ & Ha & _ & [b1 Hb1] & E1)|[E _]]]]; [| | |done].
  - apply (IH (apply d op) r b); [by rewrite <-E|done..].
  - congruence.
  - rewrite Hb in E0. rewrite Hb1 in E1. rewrite (to_vec_inj r r0 b) in * by done.
    destruct (IH (apply d op) (set_receipt_state st r0) b1) as (r' & b' & ? & ? & Hle); [done..|].
    exists r', b'. destruct Hle as (? & ? & ? & ? & _). by repeat split.
Qed.

Lemma pending_resize_row n d i :
  journal_ok d ->
  pending_resize n d = Ok (Some i) <-> exists b, intents d !! n = Some b /\ to_vec i = Some b.
Proof.
  intros [Hi _]. unfold pending_resize. split.
  - destruct (intents d !! n) as [b|] eqn:Hb; [|done].
    destruct (Hi _ _ Hb) as (_ & j & Hj). rewrite (from_slice_to_vec _ _ Hj).
    intros [= ->]. eauto.
  - intros (b & -> & Hb). by rewrite (from_slice_to_vec _ _ Hb).
Qed.

(** Failing without an effect. *)
Definition refused {T} (r : result T Error * Db) (d : Db) : Prop :=
  is_ok r.1 = false /\ r.2 = d.

Lemma durable_refused {T} io (f : Db -> result T Error * Db) d :
  refused (f d) d -> refused (with_durable_resize_write io f d) d.
Proof.
  unfold refused, with_durable_resize_write. destruct (full_ok io); simpl; [|done].
  destruct (f d) as [[v|e] d']; simpl; by intros [? ?].
Qed.

Lemma begin_other_target h io f n p s t d i :
  pending_resize n d = Ok (Some i) -> target i <> t ->
  refused (begin_resize h io f n p s t d) d.
Proof.
  unfold pending_resize, begin_resize. intros Hp Ht.
  case_bool_guard; [done|]. destruct (host_boot_id h); [|done].
  apply durable_refused. destruct (vms d !! n); [|done].
  destruct (intents d !! n) as [b|]; [|done].
  destruct (from_slice (A := ResizeIntent) b) as [j|]; [|done]. injection Hp as ->.
  rewrite (bool_decide_eq_true_2 (target i <> t)), orb_true_r by done. done.
Qed.

Lemma begin_intent_other_target h io f n p s t d i :
  pending_resize n d = Ok (Some i) -> target i <> t ->
  refused (begin_resize_intent h io f n p s t d) d.
Proof.
  intros Hp Ht. unfold begin_resize_intent. rewrite Hp.
  rewrite (bool_decide_eq_false_2 (target i = t)) by done.
  case_bool_guard; [done|]. destruct s as [start|]; [|done].
  destruct (host_boot_id h) as [boot|]; [|done].
  rewrite andb_false_r. by eapply begin_other_target.
Qed.

Lemma finish_stale io n e d i :
  pending_resize n d = Ok (Some i) -> e <> i -> refused (finish_resize io n e d) d.
Proof.
  unfold pending_resize, finish_resize. intros Hp He. apply durable_refused.
  destruct (intents d !! n) as [b|]; [|done].
  destruct (from_slice (A := ResizeIntent) b) as [j|]; [|done]. injection Hp as ->.
  rewrite (bool_decide_eq_true_2 (i <> e)) by done. done.
Qed.

End History.
End ResizeHistory.

(** ** Properties *)

Module ResizeProps.
Import Str Resize ResizeHistory.

Section Retry.
Context `{SI : Serde ResizeIntent, SR : Serde ResizeReceipt}.

(** A retry by the runtime that owns the intent gets it back. *)
Lemma begin_same io h f n p s boot t tok d :
  journal_ok d -> full_ok io = true -> normal_ok io = true ->
  0 < p -> host_boot_id h = Ok boot ->
  pending_resize n d = Ok (Some (MkIntent tok p s boot t)) ->
  begin_resize h io f n p s t d = (Ok (MkIntent tok p s boot t), d).
Proof.
  intros Hok Hf Hn Hp Hb (b & Hrow & Hv)%pending_resize_row; [|done].
  unfold begin_resize, with_durable_resize_write. rewrite Hf, Hb. simpl.
  destruct (proj1 Hok _ _ Hrow) as [[v Hvm] _].
  rewrite (proj2 (Z.leb_gt p 0)), Hvm, Hrow, (from_slice_to_vec _ _ Hv) by done.
  cbn [pid started boot_id target]. rewrite !Z.eqb_refl, Hn.
  rewrite !bool_decide_eq_false_2 by (intros Hc; by apply Hc). done.
Qed.

End Retry.

Definition receipt_of `{Serde ResizeReceipt} (n id : bytes) (d : Db) : option ResizeReceipt :=
  let! b := receipts d !! (n, id) in from_slice b.

Lemma receipt_of_row `{SI : Serde ResizeIntent, SR : Serde ResizeReceipt} n id d r :
  journal_ok d ->
  receipt_of n id d = Some r <-> exists b, receipts d !! (n, id) = Some b /\ to_vec r = Some b.
Proof.
  intros [_ Hr]. unfold receipt_of. split.
  - destruct (receipts d !! (n, id)) as [b|] eqn:Hb; simpl; [|done].
    destruct (Hr _ _ _ Hb) as (_ & j & Hj & _). rewrite (from_slice_to_vec _ _ Hj).
    intros [= ->]. eauto.
  - intros (b & -> & Hb). simpl. by rewrite (from_slice_to_vec _ _ Hb).
Qed.

(** C36: over any history of journal operations, machine creations
    and removals, the journal stays well formed, and: the target recorded for
    a machine is neither changed nor lost by anything but an operation that
    completes its resize or removes the machine (a transfer to a replacement
    runtime keeps it); meanwhile branching is refused and so is, without an
    effect, every attempt to begin another target or to complete another
    intent, while the owner's retry gets the recorded intent back; and a receipt keeps its runtime, target and original geometry for
    as long as the machine exists, and never changes again once it is
    terminal. *)
Theorem resize_journal `{SI : Serde ResizeIntent, SR : Serde ResizeReceipt} ops d :
  journal_ok d ->
  let d' := run ops d in
  journal_ok d'
  /\ (forall n i, pending_resize n d = Ok (Some i) ->
        Forall (fun op => ~ releases n op) ops ->
        exists i', pending_resize n d' = Ok (Some i') /\ target i' = target i
          /\ require_completed_resize n d' = Err UnfinishedResize
          /\ (forall h io f p s t, t <> target i ->
                refused (begin_resize_intent h io f n p s t d') d')
          /\ (forall io e, e <> i' -> refused (finish_resize io n e d') d')
          /\ (forall h io f, full_ok io = true -> normal_ok io = true -> 0 < pid i' ->
                host_boot_id h = Ok (boot_id i') ->
                begin_resize h io f n (pid i') (started i') (target i') d' = (Ok i', d')))
  /\ (forall n id r, receipt_of n id d = Some r -> Forall (fun op => ~ removes n op) ops ->
        exists r', receipt_of n id d' = Some r' /\ receipt_le r r').
Proof.
  intros Hok d'. assert (journal_ok d') as Hok' by by apply journal_ok_run.
  split; [done|split].
  - intros n i (b & Hb & Hi)%pending_resize_row Hops; [|done].
    destruct (intent_kept ops n d i b) as (i' & b' & Hb' & Hi' & Ht); [done..|].
    assert (pending_resize n d' = Ok (Some i')) as Hp
      by (apply pending_resize_row; [done|]; by exists b').
    exists i'. split; [done|]. split; [done|]. split.
    { unfold require_completed_resize, d'. by rewrite Hb'. }
    split; [intros; eapply begin_intent_other_target; [done|congruence]|].
    split; [intros; by eapply finish_stale|].
    intros h io f Hf Hn Hpos Hboot. destruct i'. by eapply begin_same.
  - intros n id r (b & Hb & Hr)%receipt_of_row Hops; [|done].
    destruct (receipt_kept ops n id d r b) as (r' & b' & Hb' & Hr' & Hle); [done..|].
    exists r'. split; [|done]. apply receipt_of_row; [done|]. by exists b'.
Qed.

(** A codec to run the journal with: the bits of stdpp's [encode]. *)
Fixpoint bits (p : positive) : bytes :=
  match p with xH => [] | xO p => 0 :: bits p | xI p => 1 :: bits p end.
Fixpoint of_bits (b : bytes) : positive :=
  match b with [] => xH | x :: b => if x =? 0 then xO (of_bits b) else xI (of_bits b) end.
Lemma of_bits_bits p : of_bits (bits p) = p.
Proof. induction p as [p IH|p IH|]; simpl; congruence. Qed.

Definition bits_serde {A} `{Countable A} : Serde A.
Proof.
  refine (MkSerde A (fun x => Some (bits (encode x))) (fun b => decode (of_bits b)) _).
  intros x b [= <-]. rewrite of_bits_bits. apply decode_encode.
Defined.

#[local] Instance ResizeTarget_countable : Countable ResizeTarget.
Proof.
  refine (inj_countable'
    (fun t => match t with Cpus n => inl (inl n) | Memory n => inl (inr n)
                         | Disks s o => inr (s, o) end)
    (fun x => match x with inl (inl n) => Cpus n | inl (inr n) => Memory n
                         | inr (s, o) => Disks s o end) _).
  by intros [].
Defined.
#[local] Instance ResizeIntent_countable : Countable ResizeIntent.
Proof.
  refine (inj_countable'
    (fun i => (token i, pid i, started i, boot_id i, target i))
    (fun '(k, p, s, b, t) => MkIntent k p s b t) _).
  by intros [].
Defined.
#[local] Instance ResizeReceipt_countable : Countable ResizeReceipt.
Proof.
  refine (inj_countable'
    (fun r => (operation_id r,
               (rt_pid (runtime r), rt_start_time (runtime r), rt_boot_id (runtime r)),
               r_target r,
               (g_cpus (original r), g_memory_mb (original r), g_storage_gb (original r),
                g_overlay_gb (original r)),
               match r_state r with Active => inl true | Rejected m => inr m | Applied => inl false end))
    (fun '(k, (p, s, b), t, (c, m, sg, og), st) =>
       MkReceipt k (MkRuntime p s b) t (MkGeometry c m sg og)
         (match st with inl true => Active | inr m => Rejected m | inl false => Applied end)) _).
  by intros [? [] ? [] []].
Defined.
#[local] Instance intent_serde : Serde ResizeIntent := bits_serde.
#[local] Instance receipt_serde : Serde ResizeReceipt := bits_serde.

(** The host before and after the machine's VMM was replaced. *)
Definition host1 : Host :=
  MkHost true (Some (bs "boot-1")) (fun p => p =? 10) (fun p => if p =? 10 then Some 7 else None).
Definition host2 : Host :=
  MkHost true (Some (bs "boot-1")) (fun p => p =? 11) (fun p => if p =? 11 then Some 9 else None).
Definition sync : Sync := MkSync true true.
Definition request : ResizeReceipt :=
  MkReceipt (bs "op-1") (MkRuntime 10 7 (Some (bs "boot-1"))) (Memory 4096)
    (MkGeometry 2 2048 None None) Active.
Definition before : Db :=
  run [SetVm (bs "m") (Some (MkVm 2 2048 None None));
       BeginReceipt sync (bs "m") request;
       BeginIntent host1 sync (bs "t1") (bs "m") 10 (Some 7) (Memory 4096);
       FinishReceipt sync (bs "m") request Applied] (MkDb ∅ ∅ ∅ ∅ ∅).
Definition restart : list Op :=
  [BeginIntent host2 sync (bs "t2") (bs "m") 11 (Some 9) (Memory 4096)].

Lemma resize_journal_witness :
  journal_ok before
  /\ pending_resize (bs "m") (run restart before)
     = Ok (Some (MkIntent (bs "t2") 11 9 (Some (bs "boot-1")) (Memory 4096)))
  /\ exists i', pending_resize (bs "m") (run restart before) = Ok (Some i')
       /\ target i' = Memory 4096.
Proof.
  assert (journal_ok before) as Hok
    by (apply journal_ok_run; split; intros *; simpl; rewrite lookup_empty; done).
  split; [done|]. split; [vm_compute; reflexivity|].
  destruct (resize_journal restart before Hok) as (_ & H & _).
  destruct (H (bs "m") (MkIntent (bs "t1") 10 7 (Some (bs "boot-1")) (Memory 4096)))
    as (i' & Hi & Ht & _).
  - vm_compute. reflexivity.
  - repeat constructor; intros [].
  - by exists i'.
Defined.

(** ** Memory targets *)

Lemma digits_val_bounds w acc s v :
  0 <= acc <= u_max w -> digits_val w acc s = Some v -> 0 <= v <= u_max w.
Proof.
  revert acc. induction s as [|d s IH]; intros acc Ha; simpl; [congruence|].
  unfold is_ascii_digit. case_bool_guard; [|done].
  case_bool_guard; [|done]. apply IH. lia.
Qed.
Lemma parse_uint_bounds w s v : 0 <= w -> parse_uint w s = Some v -> 0 <= v <= u_max w.
Proof.
  unfold parse_uint. intros Hw. case_bool_guard; [done|]. apply digits_val_bounds.
  unfold u_max. pose proof (Z.pow_pos_nonneg 2 w). lia.
Qed.

(** What the runtime's reply guarantees once it parses. *)
Definition growth_ok (i : MemoryGrowthInfo) : Prop :=
  0 < boot_mib i /\ 0 <= base_ i /\ 0 <= plugged i <= mapped i /\ mapped i <= capacity i
  /\ base_ i + capacity i <= U64_MAX /\ boot_mib i + capacity i / 2 ^ 20 <= U32_MAX
  /\ capacity i mod (128 * 2 ^ 20) = 0 /\ mapped i mod (128 * 2 ^ 20) = 0.

Lemma growth_valid_ok i :
  growth_valid i = true -> 0 <= boot_mib i -> 0 <= base_ i -> 0 <= plugged i ->
  0 <= capacity i -> growth_ok i.
Proof.
  unfold growth_valid, growth_ok, is_multiple_of, checked_add. intros H **.
  bool_simpl. rewrite !Z.shiftl_mul_pow2, Z.shiftr_div_pow2 in * by lia.
  repeat match goal with
  | H : is_Some (if ?b then _ else _) |- _ => destruct b eqn:?; [clear H|by destruct H]
  | H : match (if ?b then _ else _) with _ => _ end = false |- _ =>
      destruct b eqn:?; [|done]
  end.
  bool_simpl. unfold u_max in *. lia.
Qed.

Lemma parse_growth_ok reply i : parse_growth reply = Ok i -> growth_ok i.
Proof.
  unfold parse_growth. destruct (split_driver _) as [head dr].
  do 12 (destruct head as [|? head]; try done). case_bool_decide; [|done].
  intros Hp.
  repeat match type of Hp with
  | context [ok_or (parse_uint ?w ?s) _] =>
      let E := fresh "E" in
      destruct (parse_uint w s) eqn:E; cbn [ok_or result_bind] in Hp;
        [apply parse_uint_bounds in E; [|lia]|done]
  end.
  match type of Hp with result_bind ?r _ = _ => destruct r as [drv|] end; [|done].
  cbn [result_bind] in Hp. case_step_in Hp; [|done]. injection Hp as <-.
  apply growth_valid_ok; simpl; [done|lia..].
Qed.

(** A total the runtime accepts: the RAM to add is exact, covers what is
    mapped and fits the capacity, its byte count did not wrap and stays inside
    the address space, and the growth beyond what is mapped is a whole number
    of 128 MiB blocks. *)
Theorem memory_target_sound reply i total added :
  parse_growth reply = Ok i -> 0 <= total <= U32_MAX -> target_added_mib i total = Ok added ->
  total = boot_mib i + added
  /\ mapped i <= added * 2 ^ 20 <= capacity i
  /\ base_ i + added * 2 ^ 20 <= U64_MAX
  /\ (added * 2 ^ 20 - mapped i) mod (128 * 2 ^ 20) = 0.
Proof.
  intros Hi%parse_growth_ok Ht. unfold target_added_mib, checked_sub, is_multiple_of, wrap.
  case_bool_guard; [|done]. rewrite Z.shiftl_mul_pow2 by lia. unfold growth_ok in Hi.
  rewrite Z.mod_small by lia. case_bool_guard; [done|]. intros [= <-].
  bool_simpl. change (2 ^ 20) with 1048576 in *.
  pose proof (Z.div_mod (total - boot_mib i) 128).
  pose proof (Z.div_mod (mapped i) (128 * 1048576)).
  repeat split; [lia..|]. apply Z.mod_divide; [lia|].
  exists ((total - boot_mib i) / 128 - mapped i / (128 * 1048576)). lia.
Qed.

(** [growth_fits] never overcommits the bound: what is left covers the
    reserve, at least 512 MiB. *)
Lemma growth_fits_reserve total available extra :
  0 <= available <= U64_MAX -> 0 < extra <= U64_MAX -> growth_fits total available extra = true ->
  extra <= available /\ (available < U64_MAX -> 512 * 2 ^ 20 <= available - extra).
Proof.
  unfold growth_fits, saturating_add. rewrite !Z.shiftl_mul_pow2 by lia.
  change (u_max 64) with U64_MAX. intros. bool_simpl.
  match goal with H : _ \/ _ |- _ => destruct H end; bool_simpl; lia.
Qed.

End ResizeProps.
