(* ===== verification/Admission.v ===== *)
(** * Admission: adaptive admission of fork-pool claims (src/api/admission.rs)

    A device's calibration state, the registry of devices and pools, and the
    fair division of a device's limit among the pools that have demand. Times
    are nanoseconds of the monotonic clock. An [f64] is a [spec_float] with
    binary64's precision and exponent range, so its arithmetic and
    comparisons are those of IEEE 754. Reasons are constructors with the
    numbers the messages print. *)

From Stdlib Require Import SpecFloat.
From S2P Require Import Prelude RustStr ForkPool.

Module Admission.
Import Str Pool.

(** ** Floating point *)

Definition f64 : Type := spec_float.
Definition f_add : f64 -> f64 -> f64 := SFadd 53 1024.
Definition f_sub : f64 -> f64 -> f64 := SFsub 53 1024.
Definition f_mul : f64 -> f64 -> f64 := SFmul 53 1024.
Definition f_div : f64 -> f64 -> f64 := SFdiv 53 1024.
Definition f_lt : f64 -> f64 -> bool := SFltb.
Definition f_le : f64 -> f64 -> bool := SFleb.
(** [n as f64]. *)
Definition f_of (n : Z) : f64 := binary_normalize 53 1024 n 0 false.
Definition INFINITY : f64 := S754_infinity false.

(** ** Constants *)

Definition SECOND : Z := 1000000000.
Definition OBSERVATION_WINDOW : Z := 8 * SECOND.
Definition MIN_STABLE_SAMPLES : Z := 5.
Definition PRESSURE_TTL : Z := 30 * SECOND.
Definition REPROBE_INTERVAL : Z := 15 * 60 * SECOND.
Definition TARGET_VRAM_RESERVE_MIB : Z := 8 * 1024.
Definition VRAM_RESERVE_PERCENT : Z := 10.
Definition SMALL_DEVICE_RESERVE_CAP_PERCENT : Z := 25.
Definition CPU_SATURATION_PERCENT : f64 := f_of 90.
Definition MARGINAL_GAIN_PERCENT : f64 := f_of 2.
Definition MIN_GPU_ACTIVITY_PERCENT : f64 := f_of 10.

(** [Duration::as_secs_f64]. *)
Definition as_secs_f64 (d : Z) : f64 := f_add (f_of (d / SECOND)) (f_div (f_of (d mod SECOND)) (f_of SECOND)).

(** ** Samples and scores *)

Record GpuSample := MkSample {
  device_ordinal : Z;
  utilization_percent : f64;
  used_memory_mib : Z;
  total_memory_mib : Z;
  free_memory_mib : Z;
  reserve_mib : Z;
}.

Definition device_reserve_mib (total : Z) : Z :=
  let percentage_reserve := saturating_mul 64 total VRAM_RESERVE_PERCENT / 100 in
  let absolute_reserve :=
    Z.min TARGET_VRAM_RESERVE_MIB (saturating_mul 64 total SMALL_DEVICE_RESERVE_CAP_PERCENT / 100) in
  Z.max percentage_reserve absolute_reserve.

Definition sample_new (device : Z) (utilization : f64) (used free total : Z) : GpuSample :=
  MkSample device utilization used total free (device_reserve_mib total).
Definition memory_safe (g : GpuSample) : bool := free_memory_mib g >=? reserve_mib g.

Record Score := MkScore { gpu_utilization_percent : f64; completion_rate : option f64 }.

Definition improvement_over (current baseline : Score) : f64 :=
  let gain (c p : f64) := f_mul (f_div (f_sub c p) p) (f_of 100) in
  let by_utilization :=
    if f_lt (f_of 0) (gpu_utilization_percent baseline)
    then gain (gpu_utilization_percent current) (gpu_utilization_percent baseline)
    else INFINITY in
  match completion_rate current, completion_rate baseline with
  | Some c, Some p => if f_lt (f_of 0) p then gain c p else by_utilization
  | _, _ => by_utilization
  end.

(** ** The state of one device *)

Inductive Reason :=
| WaitingForTelemetry
| CeilingChanged
| TelemetryUnavailable
| TelemetryRecovered
| Draining (active limit : Z)
| Observing (active limit : Z)
| Maturing (limit : Z)
| WaitingForActivity (active limit : Z)
| ReturnedMemory (limit free reserve : Z)
| ReturnedCpu (limit : Z) (cpu : f64)
| ReturnedGain (limit : Z) (gain : f64)
| HoldingProjected (limit desired free reserve : Z)
| HoldingMemory (limit free reserve : Z)
| HoldingCpu (limit : Z) (cpu : f64)
| Probing (limit : Z)
| ProbingSafe (limit free : Z)
| Settled (limit : Z).

(** What is learned about residency. *)
Record Calibration := MkCalibration {
  effective_limit : Z;
  best_limit : Z;
  best_score : option Score;
  testing_from : option (Z * Score);
  last_lower : option (Z * Score);
  settled : bool;
  last_probe : Z;
}.

(** The current observation window, as [reset_window] starts it. *)
Record Window := MkWindow {
  observed_active : Z;
  window_started : Z;
  window_samples : Z;
  gpu_utilization_sum : f64;
  host_cpu_sum : f64;
  window_peak_gpu_memory_mib : Z;
  waiting_for_maturity : bool;
  completed_at_start : Z;
}.

Record PoolAdmissionState := MkState {
  ceiling : Z;
  calibration : Calibration;
  window : Window;
  last_blocked : option Z;
  idle_gpu_memory_mib : option Z;
  latest_gpu : option GpuSample;
  latest_host_cpu_percent : option f64;
  telemetry_failed_open : bool;
  reason : Reason;
}.

Definition limit_of (s : PoolAdmissionState) : Z := effective_limit (calibration s).

Definition with_calibration (c : Calibration) (s : PoolAdmissionState) : PoolAdmissionState :=
  MkState (ceiling s) c (window s) (last_blocked s) (idle_gpu_memory_mib s) (latest_gpu s)
    (latest_host_cpu_percent s) (telemetry_failed_open s) (reason s).
Definition with_window (w : Window) (s : PoolAdmissionState) : PoolAdmissionState :=
  MkState (ceiling s) (calibration s) w (last_blocked s) (idle_gpu_memory_mib s) (latest_gpu s)
    (latest_host_cpu_percent s) (telemetry_failed_open s) (reason s).
Definition with_reason (r : Reason) (s : PoolAdmissionState) : PoolAdmissionState :=
  MkState (ceiling s) (calibration s) (window s) (last_blocked s) (idle_gpu_memory_mib s) (latest_gpu s)
    (latest_host_cpu_percent s) (telemetry_failed_open s) r.
Definition with_idle (i : option Z) (s : PoolAdmissionState) : PoolAdmissionState :=
  MkState (ceiling s) (calibration s) (window s) (last_blocked s) i (latest_gpu s)
    (latest_host_cpu_percent s) (telemetry_failed_open s) (reason s).
Definition with_blocked (b : option Z) (s : PoolAdmissionState) : PoolAdmissionState :=
  MkState (ceiling s) (calibration s) (window s) b (idle_gpu_memory_mib s) (latest_gpu s)
    (latest_host_cpu_percent s) (telemetry_failed_open s) (reason s).

Definition initial_limit (ceiling : Z) : Z :=
  if ceiling <=? 2 then ceiling else Z.max (div_ceil ceiling 3) 1.

Definition new_window (now active completed : Z) : Window :=
  MkWindow active now 0 (f_of 0) (f_of 0) 0 false completed.
Definition new (ceiling now completed : Z) : PoolAdmissionState :=
  let limit := initial_limit ceiling in
  MkState ceiling (MkCalibration limit limit None None None (limit =? ceiling) now)
    (new_window now 0 completed) None None None None false WaitingForTelemetry.

Definition reset_window (now active completed : Z) : PoolAdmissionState -> PoolAdmissionState :=
  with_window (new_window now active completed).

Definition has_pressure (now : Z) (s : PoolAdmissionState) : bool :=
  match last_blocked s with Some blocked => saturating_sub now blocked <=? PRESSURE_TTL | None => false end.

Definition update_ceiling (c now completed : Z) (s : PoolAdmissionState) : PoolAdmissionState :=
  if ceiling s =? c then s
  else
    let limit := Z.max (Z.min (limit_of s) c) 1 in
    let best := Z.max (Z.min (best_limit (calibration s)) c) 1 in
    reset_window now 0 completed
      (MkState c (MkCalibration limit best None None None (limit =? c) now) (window s) (last_blocked s) None
         (latest_gpu s) (latest_host_cpu_percent s) (telemetry_failed_open s) CeilingChanged).

(** ** Projection of memory *)

Definition projected_free_memory_mib (g : GpuSample) (active candidate : Z) (s : PoolAdmissionState) : option Z :=
  if (active =? 0) || (candidate <=? active) then None
  else
    let peak := Z.max (window_peak_gpu_memory_mib (window s)) (used_memory_mib g) in
    let active_memory :=
      match idle_gpu_memory_mib s with
      | Some idle => if idle <? peak then peak - idle else peak
      | None => peak
      end in
    let projected := div_ceil (saturating_mul 64 active_memory (candidate - active)) active in
    Some (saturating_sub (total_memory_mib g) (saturating_add 64 peak projected)).

(** The bisection; the interval at least halves. *)
Fixpoint candidate_search (fuel : nat) (g : GpuSample) (active low high : Z) (best : option (Z * Z))
    (s : PoolAdmissionState) : option (Z * Z) :=
  match fuel with
  | O => best
  | S fuel =>
      if low <=? high then
        let candidate := low + (high - low) / 2 in
        let! free := projected_free_memory_mib g active candidate s in
        if free >=? reserve_mib g
        then candidate_search fuel g active (saturating_add 32 candidate 1) high (Some (candidate, free)) s
        else candidate_search fuel g active low (saturating_sub candidate 1) best s
      else best
  end.

Definition largest_memory_safe_candidate (g : GpuSample) (active upper : Z) (s : PoolAdmissionState) :
    option (Z * Z) :=
  if (active =? 0) || (upper <=? active) then None
  else candidate_search 33 g active (saturating_add 32 active 1) upper None s.

(** ** One observation *)

(** Telemetry is gone: full residency. *)
Definition fail_open (now active completed : Z) (s : PoolAdmissionState) : PoolAdmissionState :=
  reset_window now active completed
    (MkState (ceiling s)
       (MkCalibration (ceiling s) (ceiling s) None None None true (last_probe (calibration s)))
       (window s) (last_blocked s) None (latest_gpu s) (latest_host_cpu_percent s) true TelemetryUnavailable).

(** Telemetry is back: calibration starts over. *)
Definition recover (now active completed : Z) (s : PoolAdmissionState) : PoolAdmissionState :=
  let limit := initial_limit (ceiling s) in
  reset_window now active completed
    (MkState (ceiling s) (MkCalibration limit limit None None None (limit =? ceiling s) now)
       (window s) (last_blocked s) None (latest_gpu s) (latest_host_cpu_percent s) false TelemetryRecovered).

(** Counting a sample into the window. *)
Definition count_sample (now active completed : Z) (g : GpuSample) (cpu : option f64) (s : PoolAdmissionState) :
    PoolAdmissionState :=
  let s := if active =? observed_active (window s) then s else reset_window now active completed s in
  let s :=
    if active =? 0
    then with_idle (Some (match idle_gpu_memory_mib s with
           | Some idle => Z.min idle (used_memory_mib g)
           | None => used_memory_mib g
           end)) s
    else s in
  let w := window s in
  with_window
    (MkWindow (observed_active w) (window_started w) (saturating_add 32 (window_samples w) 1)
       (f_add (gpu_utilization_sum w) (utilization_percent g))
       (f_add (host_cpu_sum w) (default (f_of 0) cpu))
       (Z.max (window_peak_gpu_memory_mib w) (used_memory_mib g))
       (waiting_for_maturity w) (completed_at_start w)) s.

(** What a full window says. *)
Record Verdict := MkVerdict {
  v_score : Score;
  v_mean_cpu : f64;
  v_free : Z;
  v_memory_safe : bool;
  v_cpu_safe : bool;
}.

Definition verdict (now active completed : Z) (g : GpuSample) (s : PoolAdmissionState) : Verdict :=
  let w := window s in
  let elapsed := saturating_sub now (window_started w) in
  let mean_gpu := f_div (gpu_utilization_sum w) (f_of (window_samples w)) in
  let mean_cpu := f_div (host_cpu_sum w) (f_of (window_samples w)) in
  let completed := saturating_sub completed (completed_at_start w) in
  let rate :=
    if (active >? 0) && (completed >=? active) && f_lt (f_of 0) (as_secs_f64 elapsed)
    then Some (f_div (f_of completed) (as_secs_f64 elapsed)) else None in
  let free := saturating_sub (total_memory_mib g) (window_peak_gpu_memory_mib w) in
  MkVerdict (MkScore mean_gpu rate) mean_cpu free
    (memory_safe g && (free >=? reserve_mib g)) (f_lt mean_cpu CPU_SATURATION_PERCENT).

(** Falling back to a lower level. *)
Definition fall_back (now active completed : Z) (level : Z * Score) (lower : option (Z * Score)) (r : Reason)
    (s : PoolAdmissionState) : PoolAdmissionState :=
  reset_window now active completed
    (with_reason r (with_calibration
       (MkCalibration level.1 level.1 (Some level.2) None lower true now) s)).

Definition set_settled (b : bool) (now : Z) (c : Calibration) : Calibration :=
  MkCalibration (effective_limit c) (best_limit c) (best_score c) (testing_from c) (last_lower c) b now.

(** Holding the level reached. *)
Definition settle (now active completed : Z) (r : Reason) (s : PoolAdmissionState) : PoolAdmissionState :=
  reset_window now active completed
    (with_reason r (with_calibration (set_settled true now (calibration s)) s)).

(** The level reached is the best one so far. *)
Definition accept (v : Verdict) (lower : option (Z * Score)) (s : PoolAdmissionState) : PoolAdmissionState :=
  let c := calibration s in
  with_calibration
    (MkCalibration (effective_limit c) (effective_limit c) (Some (v_score v)) None lower (settled c) (last_probe c)) s.

Definition reprobe (now : Z) (s : PoolAdmissionState) : PoolAdmissionState :=
  let c := calibration s in
  if settled c && (saturating_sub now (last_probe c) >=? REPROBE_INTERVAL) && has_pressure now s
     && (effective_limit c <? ceiling s)
  then with_calibration (set_settled false (last_probe c) c) s else s.

(** The end of a window: return to a lower level, probe a higher one, or hold. *)
Definition decide_level (now active completed : Z) (g : GpuSample) (v : Verdict) (s : PoolAdmissionState) :
    PoolAdmissionState :=
  let s := reprobe now s in
  let c := calibration s in
  let unsafe := negb (v_memory_safe v) || negb (v_cpu_safe v) in
  let hold :=
    settle now active completed
      (if negb (v_memory_safe v) then HoldingMemory (effective_limit c) (v_free v) (reserve_mib g)
       else if negb (v_cpu_safe v) then HoldingCpu (effective_limit c) (v_mean_cpu v)
       else Settled (effective_limit c)) s in
  match (if settled c && unsafe then last_lower c else None) with
  | Some level =>
      fall_back now active completed level None
        (if negb (v_memory_safe v) then ReturnedMemory level.1 (v_free v) (reserve_mib g)
         else ReturnedCpu level.1 (v_mean_cpu v)) s
  | None =>
      if negb (settled c) && has_pressure now s && v_memory_safe v && v_cpu_safe v then
        let desired := Z.min (saturating_mul 32 (effective_limit c) 2) (ceiling s) in
        if desired >? effective_limit c then
          match largest_memory_safe_candidate g active desired s with
          | None =>
              let free := default (v_free v) (projected_free_memory_mib g active desired s) in
              settle now active completed (HoldingProjected (effective_limit c) desired free (reserve_mib g)) s
          | Some (next, free) =>
              reset_window now active completed
                (with_reason (if next =? desired then Probing next else ProbingSafe next free)
                   (with_calibration
                      (MkCalibration next (best_limit c) (best_score c)
                         (Some (effective_limit c, v_score v)) (last_lower c) (settled c) (last_probe c)) s))
          end
        else hold
      else hold
  end.

(** A level under test is kept or given up. *)
Definition judge (now active completed : Z) (g : GpuSample) (v : Verdict) (s : PoolAdmissionState) :
    PoolAdmissionState :=
  match testing_from (calibration s) with
  | Some (prior_limit, prior_score) =>
      let improvement := improvement_over (v_score v) prior_score in
      if f_lt improvement MARGINAL_GAIN_PERCENT || negb (v_memory_safe v) || negb (v_cpu_safe v) then
        fall_back now active completed (prior_limit, prior_score) (last_lower (calibration s))
          (if negb (v_memory_safe v) then ReturnedMemory prior_limit (v_free v) (reserve_mib g)
           else if negb (v_cpu_safe v) then ReturnedCpu prior_limit (v_mean_cpu v)
           else ReturnedGain prior_limit improvement) s
      else decide_level now active completed g v (accept v (Some (prior_limit, prior_score)) s)
  | None => decide_level now active completed g v (accept v (last_lower (calibration s)) s)
  end.

Definition set_maturity (b : bool) (w : Window) : Window :=
  MkWindow (observed_active w) (window_started w) (window_samples w) (gpu_utilization_sum w) (host_cpu_sum w)
    (window_peak_gpu_memory_mib w) b (completed_at_start w).

Definition evaluate (now active completed : Z) (g : GpuSample) (s : PoolAdmissionState) : PoolAdmissionState :=
  let v := verdict now active completed g s in
  let idle_so_far := match completion_rate (v_score v) with None => true | Some _ => false end in
  if v_memory_safe v && v_cpu_safe v && waiting_for_maturity (window s) && idle_so_far
     && f_le MIN_GPU_ACTIVITY_PERCENT (utilization_percent g)
  then with_reason (Maturing (limit_of s)) (reset_window now active completed s)
  else if v_memory_safe v && v_cpu_safe v && idle_so_far
          && f_lt (gpu_utilization_percent (v_score v)) MIN_GPU_ACTIVITY_PERCENT
  then with_reason (WaitingForActivity active (limit_of s)) (with_window (set_maturity true (window s)) s)
  else judge now active completed g v (with_window (set_maturity false (window s)) s).

(** A window is full at the requested residency, with enough samples and time. *)
Definition window_full (now active : Z) (s : PoolAdmissionState) : bool :=
  (active =? limit_of s) && negb (window_samples (window s) <? MIN_STABLE_SAMPLES)
  && negb (saturating_sub now (window_started (window s)) <? OBSERVATION_WINDOW).

Definition observe_sample (now active completed : Z) (g : GpuSample) (cpu : option f64) (s : PoolAdmissionState) :
    PoolAdmissionState :=
  let s := count_sample now active completed g cpu s in
  if active >? limit_of s then with_reason (Draining active (limit_of s)) s
  else if negb (window_full now active s) then with_reason (Observing active (limit_of s)) s
  else evaluate now active completed g s.

Definition observe (now active completed : Z) (gpu : option GpuSample) (cpu : option f64) (s : PoolAdmissionState) :
    PoolAdmissionState :=
  let recovered := telemetry_failed_open s && match gpu with Some _ => true | None => false end in
  let s := MkState (ceiling s) (calibration s) (window s) (last_blocked s) (idle_gpu_memory_mib s) gpu cpu
             (telemetry_failed_open s) (reason s) in
  match gpu with
  | None => fail_open now active completed s
  | Some g =>
      if recovered then recover now active completed s else observe_sample now active completed g cpu s
  end.

(** ** The registry *)

Record DevicePoolState := MkDevicePool { dp_ceiling : Z; dp_active : Z; last_demand : option Z }.
Record DeviceAdmissionState := MkDevice {
  admission : PoolAdmissionState;
  dv_pools : gmap bytes DevicePoolState;
}.
Record AdmissionRegistry := MkRegistry {
  devices : gmap Z DeviceAdmissionState;
  pool_devices : gmap bytes Z;
}.
Definition registry_default : AdmissionRegistry := MkRegistry ∅ ∅.

Definition pool_ceiling (pool : ForkPoolRecord) : Z :=
  Z.max (Z.min (default (desired_ready pool) (max_active pool)) (desired_ready pool)) 1.

Definition note_blocked (now : Z) (name : bytes) (r : AdmissionRegistry) : AdmissionRegistry :=
  match pool_devices r !! name with
  | None => r
  | Some device =>
      MkRegistry
        (alter (fun d => MkDevice (with_blocked (Some now) (admission d))
           (alter (fun p => MkDevicePool (dp_ceiling p) (dp_active p) (Some now)) name (dv_pools d)))
           device (devices r))
        (pool_devices r)
  end.

(** ** Fair shares *)

Definition recent_demand (now : Z) (p : DevicePoolState) : bool :=
  match last_demand p with Some demand => saturating_sub now demand <=? PRESSURE_TTL | None => false end.

Definition demanded_pools (now : Z) (target : bytes) (include_target : bool) (d : DeviceAdmissionState) :
    list (bytes * DevicePoolState) :=
  order_by_key (List.filter (fun kv => recent_demand now kv.2 || (include_target && bool_decide (kv.1 = target)))
    (map_to_list (dv_pools d))).

(** One pass over the pools, a slot each while any remain. *)
Fixpoint share_round (demanded : list (bytes * DevicePoolState)) (shares : list Z) (remaining : Z) (advanced : bool) :
    list Z * Z * bool :=
  match demanded, shares with
  | (_, p) :: demanded, share :: shares =>
      if remaining =? 0 then (share :: shares, remaining, advanced)
      else if share <? dp_ceiling p then
        let '(shares, remaining, advanced) := share_round demanded shares (remaining - 1) true in
        (share + 1 :: shares, remaining, advanced)
      else
        let '(shares, remaining, advanced) := share_round demanded shares remaining advanced in
        (share :: shares, remaining, advanced)
  | _, _ => (shares, remaining, advanced)
  end.

Fixpoint share_loop (fuel : nat) (demanded : list (bytes * DevicePoolState)) (shares : list Z) (remaining : Z) :
    list Z :=
  match fuel with
  | O => shares
  | S fuel =>
      if remaining >? 0 then
        let '(shares, remaining, advanced) := share_round demanded shares remaining false in
        if advanced then share_loop fuel demanded shares remaining else shares
      else shares
  end.

(** Active leases of pools without demand. *)
Definition occupied (demanded : list (bytes * DevicePoolState)) (d : DeviceAdmissionState) : Z :=
  foldl (fun total kv => saturating_add 32 total (dp_active kv.2)) 0
    (List.filter (fun kv => negb (bool_decide (kv.1 ∈ map fst demanded))) (map_to_list (dv_pools d))).

Definition shares_of (demanded : list (bytes * DevicePoolState)) (device_limit : Z) (d : DeviceAdmissionState) :
    list Z :=
  let remaining := saturating_sub device_limit (occupied demanded d) in
  share_loop (Z.to_nat remaining) demanded (map (fun _ => 0) demanded) remaining.

Fixpoint share_at (target : bytes) (demanded : list (bytes * DevicePoolState)) (shares : list Z) : option Z :=
  match demanded, shares with
  | (name, _) :: demanded, share :: shares =>
      if bool_decide (name = target) then Some share else share_at target demanded shares
  | _, _ => None
  end.

Definition fair_pool_limit (d : DeviceAdmissionState) (target : bytes) (device_limit now : Z)
    (include_target : bool) : Z :=
  let demanded := demanded_pools now target include_target d in
  match demanded with
  | [] =>
      match dv_pools d !! target with
      | Some p => Z.min (dp_ceiling p) device_limit
      | None => device_limit
      end
  | _ => default 0 (share_at target demanded (shares_of demanded device_limit d))
  end.

(** [limit]: the claim limits of a pool, which joins its device. *)
Definition limit (now : Z) (pool : ForkPoolRecord) (r : AdmissionRegistry) :
    option ForkPoolAdmissionLimit * AdmissionRegistry :=
  if negb (auto_admission pool) then (None, r)
  else
    let fallback := pool_ceiling pool in
    match (let! device := admission_device_ordinal pool in
           let! state := devices r !! device in Some (device, state)) with
    | None => (Some (MkLimit fallback fallback), r)
    | Some (device, state) =>
        let pools :=
          match dv_pools state !! p_name pool with
          | Some _ => dv_pools state
          | None => <[p_name pool := MkDevicePool fallback 0 None]> (dv_pools state)
          end in
        let state := MkDevice (admission state) pools in
        let device_limit := limit_of (admission state) in
        (Some (MkLimit (fair_pool_limit state (p_name pool) device_limit now true) device_limit),
         MkRegistry (<[device := state]> (devices r)) (pool_devices r))
    end.

(** ** A controller tick *)

(** A pool, its active leases and its completions. *)
Definition Observation : Type := ForkPoolRecord * Z * Z.
Definition o_pool (o : Observation) : ForkPoolRecord := o.1.1.
Definition o_active (o : Observation) : Z := o.1.2.
Definition o_completed (o : Observation) : Z := o.2.

Definition on_device (device : Z) (o : Observation) : bool :=
  negb (deleting (o_pool o)) && bool_decide (admission_device_ordinal (o_pool o) = Some device).
Definition is_auto (o : Observation) : bool := auto_admission (o_pool o).

(** Devices with an automatic pool. *)
Definition live_devices (os : list Observation) : list Z :=
  elements (list_to_set (omap (fun o =>
    if negb (deleting (o_pool o)) && is_auto o then admission_device_ordinal (o_pool o) else None) os) : gset Z).

Definition total_ceiling (os : list Observation) : Z :=
  foldl (fun total o => saturating_add 32 total (pool_ceiling (o_pool o))) 0 os.
Definition total_active (os : list Observation) : Z :=
  foldl (fun total o => saturating_add 32 total (o_active o)) 0 os.
Definition total_completed (os : list Observation) : Z :=
  foldl (fun total o => saturating_add 64 total (o_completed o)) 0 os.

(** The entries of a device's pools: known ones keep their last demand. *)
Definition update_entry (pools : gmap bytes DevicePoolState) (o : Observation) : gmap bytes DevicePoolState :=
  let name := p_name (o_pool o) in
  let demand := let! p := pools !! name in last_demand p in
  <[name := MkDevicePool (pool_ceiling (o_pool o)) (o_active o) demand]> pools.

Definition update_device (now : Z) (gpu : option (gmap Z GpuSample)) (cpu : option f64) (sample : bool)
    (os : list Observation) (r : AdmissionRegistry) (device : Z) : AdmissionRegistry :=
  let pools := List.filter (on_device device) os in
  let auto_pools := List.filter is_auto pools in
  let c := Z.max (total_ceiling auto_pools) 1 in
  let completed := total_completed pools in
  let pool_devices :=
    foldl (fun m o => <[p_name (o_pool o) := device]> m) (pool_devices r) auto_pools in
  let state := default (MkDevice (new c now completed) ∅) (devices r !! device) in
  let names := map (fun o => p_name (o_pool o)) auto_pools in
  let entries := foldl update_entry (filter (fun kv => kv.1 ∈ names) (dv_pools state)) auto_pools in
  let a := update_ceiling c now completed (admission state) in
  let a :=
    if sample
    then observe now (total_active pools) completed (let! samples := gpu in samples !! device) cpu a
    else a in
  MkRegistry (<[device := MkDevice a entries]> (devices r)) pool_devices.

Definition update_pools_at (os : list Observation) (gpu : option (gmap Z GpuSample)) (cpu : option f64) (now : Z)
    (sample : bool) (r : AdmissionRegistry) : AdmissionRegistry :=
  let live := live_devices os in
  let live_names :=
    map (fun o => p_name (o_pool o))
      (List.filter (fun o => negb (deleting (o_pool o)) && is_auto o
         && match admission_device_ordinal (o_pool o) with Some _ => true | None => false end) os) in
  let r := MkRegistry (filter (fun kv => kv.1 ∈ live) (devices r))
             (filter (fun kv => kv.1 ∈ live_names) (pool_devices r)) in
  foldl (update_device now gpu cpu sample os) r live.

Definition observe_pools (os : list Observation) (gpu : option (gmap Z GpuSample)) (cpu : option f64) (now : Z) :
    AdmissionRegistry -> AdmissionRegistry := update_pools_at os gpu cpu now true.
Definition ensure_pools (os : list Observation) (now : Z) : AdmissionRegistry -> AdmissionRegistry :=
  update_pools_at os None None now false.

(** [observe]: one pool's tick. *)
Definition observe_pool (pool : ForkPoolRecord) (active completed : Z) (gpu : option GpuSample) (cpu : option f64)
    (now : Z) : AdmissionRegistry -> AdmissionRegistry :=
  observe_pools [(pool, active, completed)] (let! g := gpu in Some {[ device_ordinal g := g ]}) cpu now.

(** ** What a status shows *)

Record AdmissionSnapshot := MkSnapshot {
  sn_effective_limit : Z;
  sn_device_limit : Z;
  sn_device_ordinal : Z;
  (** the device's limit and the pool's share, when the device has several pools *)
  sn_shared : option (Z * Z);
  sn_reason : Reason;
  calibrating : bool;
  sn_gpu_utilization_percent : option f64;
  gpu_memory_used_mib : option Z;
  gpu_memory_total_mib : option Z;
  host_cpu_percent : option f64;
}.

Definition state_snapshot (s : PoolAdmissionState) : AdmissionSnapshot :=
  MkSnapshot (limit_of s) (limit_of s) 0 None (reason s) (negb (settled (calibration s)))
    (option_map utilization_percent (latest_gpu s)) (option_map used_memory_mib (latest_gpu s))
    (option_map total_memory_mib (latest_gpu s)) (latest_host_cpu_percent s).

Definition snapshot (now : Z) (pool : ForkPoolRecord) (r : AdmissionRegistry) : option AdmissionSnapshot :=
  if negb (auto_admission pool) then None
  else
    let! device := admission_device_ordinal pool in
    let! state := devices r !! device in
    let s := state_snapshot (admission state) in
    let pool_limit := fair_pool_limit state (p_name pool) (sn_effective_limit s) now true in
    Some (MkSnapshot pool_limit (sn_effective_limit s) device
      (if Z.of_nat (size (dv_pools state)) >? 1 then Some (sn_effective_limit s, pool_limit) else None)
      (sn_reason s) (calibrating s) (sn_gpu_utilization_percent s) (gpu_memory_used_mib s)
      (gpu_memory_total_mib s) (host_cpu_percent s)).

(** ** Telemetry *)

Record GpuDeviceSample := MkDeviceSample {
  ds_device_ordinal : Z;
  ds_uuid : bytes;
  ds_name : bytes;
  ds_utilization_percent : f64;
  ds_used_memory_mib : Z;
  ds_free_memory_mib : Z;
  ds_total_memory_mib : Z;
}.
Definition admission_sample (d : GpuDeviceSample) : GpuSample :=
  sample_new (ds_device_ordinal d) (ds_utilization_percent d) (ds_used_memory_mib d) (ds_free_memory_mib d)
    (ds_total_memory_mib d).

(** The host sampler keeps the last total and idle times of /proc/stat; [stat]
    is the file's text, if it can be read. The sum of the times wraps. *)
Definition HostCpuSampler : Type := option (Z * Z).
Definition cpu_sample (stat : option bytes) (previous : HostCpuSampler) : option f64 * HostCpuSampler :=
  match (let! data := stat in
         let! line := hd_error (lines data) in
         match split_whitespace line with
         | label :: fields =>
             if negb (bool_decide (label = bs "cpu")) then None
             else
               let values := omap (parse_uint 64) fields in
               if (length values <? 4)%nat then None
               else Some (wrap 64 (foldl Z.add 0 values),
                          saturating_add 64 (default 0 (values !! 3%nat)) (default 0 (values !! 4%nat)))
         | [] => None
         end) with
  | None => (None, previous)
  | Some (total, idle) =>
      (let! old := previous in
       let delta_total := saturating_sub total old.1 in
       let delta_idle := saturating_sub idle old.2 in
       if delta_total >? 0
       then Some (f_div (f_mul (f_of 100) (f_of (saturating_sub delta_total delta_idle))) (f_of delta_total))
       else None,
       Some (total, idle))
  end.

(** The devices a process sees, in the order CUDA numbers them. *)
Record NvmlDeviceIdentity := MkIdentity {
  nv_uuid : bytes;
  nv_name : bytes;
  nv_domain : Z;
  nv_bus : Z;
  nv_device : Z;
  mig_enabled : bool;
}.
Definition pci_le (a b : NvmlDeviceIdentity) : bool :=
  (nv_domain a <? nv_domain b)
  || ((nv_domain a =? nv_domain b)
      && ((nv_bus a <? nv_bus b) || ((nv_bus a =? nv_bus b) && (nv_device a <=? nv_device b)))).
Definition pci_order (a b : NvmlDeviceIdentity) : Prop := pci_le a b = true.
#[export] Instance pci_order_dec : RelDecision pci_order := fun a b => decide (pci_le a b = true).
Inductive VisibleError := OutOfRange (index count : Z) | NotUnique (token : bytes).

Fixpoint select_tokens (devices : list NvmlDeviceIdentity) (tokens : list bytes) :
    result (list NvmlDeviceIdentity) VisibleError :=
  match tokens with
  | [] => Ok []
  | token :: tokens =>
      if bool_decide (token = bs "-1") then Ok []
      else
        let? device :=
          match parse_uint 64 token with
          | Some index =>
              match devices !! Z.to_nat index with
              | Some device => Ok device
              | None => Err (OutOfRange index (Z.of_nat (length devices)))
              end
          | None =>
              match List.filter (fun d => starts_with token (nv_uuid d)) devices with
              | [device] => Ok device
              | _ => Err (NotUnique token)
              end
          end in
        let? rest := select_tokens devices tokens in Ok (device :: rest)
  end.
Definition select_visible_devices (devices : list NvmlDeviceIdentity) (visible : option bytes) :
    result (list NvmlDeviceIdentity) VisibleError :=
  let devices := merge_sort pci_order devices in
  match visible with
  | None => Ok devices
  | Some visible =>
      if is_empty (trim visible) then Ok [] else select_tokens devices (map trim (split 44 visible))
  end.
End Admission.
