(* ===== verification/AdmissionProps.v ===== *)
(** * AdmissionProps: bounds, safety and fairness of adaptive admission *)

From S2P Require Import Prelude RustStr ForkPool ForkPoolFacts Admission.

Module AdmissionFacts.
Import Pool Admission.

(** ** Bisection *)

Lemma div_ceil_mono a b k : 0 < k -> a <= b -> div_ceil a k <= div_ceil b k.
Proof. intros Hk Hab. unfold div_ceil. apply Z.div_le_mono; lia. Qed.

(** More workers leave less memory. *)
Lemma projected_mono g active c c' s f f' :
  0 < active -> 0 <= window_peak_gpu_memory_mib (window s) -> c <= c' ->
  projected_free_memory_mib g active c s = Some f ->
  projected_free_memory_mib g active c' s = Some f' -> f' <= f.
Proof.
  intros Ha Hp Hc. unfold projected_free_memory_mib.
  destruct (_ || (c <=? active)); [done|]. destruct (_ || (c' <=? active)); [done|]. intros [= <-] [= <-].
  set (peak := Z.max _ _). set (mem := match idle_gpu_memory_mib s with Some _ => _ | None => _ end).
  assert (0 <= mem) as Hm by (unfold mem, peak; destruct (idle_gpu_memory_mib s) as [i|]; [destruct (Z.ltb_spec i (Z.max (window_peak_gpu_memory_mib (window s)) (used_memory_mib g)))|]; lia).
  assert (saturating_mul 64 mem (c - active) <= saturating_mul 64 mem (c' - active)) as Hs.
  { unfold saturating_mul. apply Z.min_le_compat_r. nia. }
  pose proof (div_ceil_mono _ _ active Ha Hs). unfold saturating_sub, saturating_add in *. lia.
Qed.

Lemma projected_Some g active c s :
  0 < active < c -> exists f, projected_free_memory_mib g active c s = Some f.
Proof.
  intros Hc. unfold projected_free_memory_mib. destruct (Z.eqb_spec active 0); [lia|].
  destruct (Z.leb_spec c active); [lia|]. by eexists.
Qed.

(** [c] leaves the reserve free. *)
Definition safe_level (g : GpuSample) (active : Z) (s : PoolAdmissionState) (c : Z) : Prop :=
  exists f, projected_free_memory_mib g active c s = Some f /\ reserve_mib g <= f.

Lemma safe_level_down g active s c c' :
  0 <= window_peak_gpu_memory_mib (window s) -> 0 < active < c -> c <= c' ->
  safe_level g active s c' -> safe_level g active s c.
Proof.
  intros Hp Hc Hcc (f' & Hf' & Hr). destruct (projected_Some g active c s Hc) as [f Hf]. exists f. split; [done|].
  pose proof (projected_mono g active c c' s f f' ltac:(lia) Hp Hcc Hf Hf'). lia.
Qed.

Lemma candidate_search_spec fuel g active low high best s :
  0 <= window_peak_gpu_memory_mib (window s) -> 0 < active < low -> high < u_max 32 ->
  high - low < 2 ^ Z.of_nat fuel - 1 ->
  match best with
  | Some (c, f) => c = low - 1 /\ active < c /\ projected_free_memory_mib g active c s = Some f /\ reserve_mib g <= f
  | None => low = active + 1
  end ->
  match candidate_search fuel g active low high best s with
  | Some (c, f) => active < c /\ projected_free_memory_mib g active c s = Some f /\ reserve_mib g <= f
      /\ (c <= high \/ c = low - 1) /\ forall c', c < c' <= high -> ~ safe_level g active s c'
  | None => forall c', active < c' <= high -> ~ safe_level g active s c'
  end.
Proof.
  intros Hp. revert low high best. induction fuel as [|fuel IH]; intros low high best Hlow Hhigh Hf Hb.
  { assert (high < low) by (simpl in Hf; lia). simpl. destruct best as [[c f]|]; [|intros; lia].
    destruct Hb as (-> & ? & ? & ?). do 3 (split; [done|]). split; [by right|]. intros; lia. }
  cbn [candidate_search]. destruct (Z.leb_spec low high) as [Hle|Hgt].
  2: { destruct best as [[c f]|]; [|intros; lia]. destruct Hb as (-> & ? & ? & ?).
       do 3 (split; [done|]). split; [by right|]. intros; lia. }
  cbv zeta. set (m := low + (high - low) / 2).
  assert (low <= m <= high) as Hm.
  { unfold m. pose proof (Z.div_pos (high - low) 2). pose proof (Z.div_le_upper_bound (high - low) 2 (high - low)). lia. }
  assert (2 ^ Z.of_nat (S fuel) = 2 * 2 ^ Z.of_nat fuel) as Hpow by (rewrite Nat2Z.inj_succ, Z.pow_succ_r; lia).
  assert (high - m < 2 ^ Z.of_nat fuel /\ m - low < 2 ^ Z.of_nat fuel) as [Hr Hl].
  { unfold m. pose proof (Z.div_mod (high - low) 2). pose proof (Z.mod_pos_bound (high - low) 2). lia. }
  destruct (projected_Some g active m s) as [free Hfree]; [lia|]. rewrite Hfree. cbn.
  assert (saturating_add 32 m 1 = m + 1) as -> by (unfold saturating_add, u_max in *; lia).
  destruct (free >=? reserve_mib g) eqn:Eg.
  - specialize (IH (m + 1) high (Some (m, free)) ltac:(lia) Hhigh ltac:(lia)).
    destruct (candidate_search fuel g active (m + 1) high _ s) as [[c f]|].
    + destruct IH as (? & ? & ? & Hc & Hmax); [repeat split; [lia|lia|done|lia]|]. do 3 (split; [done|]).
      split; [lia|done].
    + exfalso. apply (IH ltac:(repeat split; [lia|lia|done|lia]) m); [lia|]. exists free. split; [done|lia].
  - assert (forall c', m <= c' <= high -> ~ safe_level g active s c') as Hno.
    { intros c' Hc' Hs. apply (safe_level_down g active s m c') in Hs as (f & Hf' & ?); [|done|lia|lia].
      rewrite Hfree in Hf'. injection Hf' as <-. lia. }
    assert (saturating_sub m 1 = m - 1) as -> by (unfold saturating_sub; lia).
    specialize (IH low (m - 1) best ltac:(lia) ltac:(lia) ltac:(lia) Hb).
    destruct (candidate_search fuel g active low (m - 1) best s) as [[c f]|].
    + destruct IH as (? & ? & ? & Hc & Hmax). do 3 (split; [done|]). split; [lia|].
      intros c' Hc'. destruct (Z_lt_le_dec c' m); [apply Hmax; lia|apply Hno; lia].
    + intros c' Hc'. destruct (Z_lt_le_dec c' m); [apply IH; lia|apply Hno; lia].
Qed.

(** The bisection finds the highest level up to [upper] that leaves the
    reserve free, if any above [active] does. *)
Lemma largest_candidate_spec g active upper s :
  0 <= window_peak_gpu_memory_mib (window s) -> 0 < active < upper -> upper < u_max 32 ->
  match largest_memory_safe_candidate g active upper s with
  | Some (c, f) => active < c <= upper /\ projected_free_memory_mib g active c s = Some f /\ reserve_mib g <= f
      /\ forall c', c < c' <= upper -> ~ safe_level g active s c'
  | None => forall c', active < c' <= upper -> ~ safe_level g active s c'
  end.
Proof.
  intros Hp Ha Hu. unfold largest_memory_safe_candidate. destruct (Z.eqb_spec active 0); [lia|].
  destruct (Z.leb_spec upper active); [lia|]. cbn [orb].
  assert (saturating_add 32 active 1 = active + 1) as -> by (unfold saturating_add, u_max in *; lia).
  pose proof (candidate_search_spec 33 g active (active + 1) upper None s Hp ltac:(lia) Hu) as Hs.
  specialize (Hs ltac:(unfold u_max in Hu; lia) eq_refl).
  destruct (candidate_search 33 g active (active + 1) upper None s) as [[c f]|]; [|exact Hs].
  destruct Hs as (? & ? & ? & ? & ?). split; [lia|]. done.
Qed.

(** ** Fair shares *)

Definition sum (l : list Z) : Z := foldr Z.add 0 l.

(** [k] pools are one slot above the water level, capped by their ceilings. *)
Definition water (level : Z) (k : nat) (demanded : list (bytes * DevicePoolState)) : list Z :=
  imap (fun i kv => Z.min (dp_ceiling kv.2) (level + if (i <? k)%nat then 1 else 0)) demanded.

Lemma water_cons level k kv demanded :
  water level k (kv :: demanded)
  = Z.min (dp_ceiling kv.2) (level + if (0 <? k)%nat then 1 else 0) :: water level (Nat.pred k) demanded.
Proof.
  unfold water. simpl. f_equal. apply imap_ext. intros i x _. simpl. do 2 f_equal.
  destruct k as [|k]; [done|]. simpl. by destruct (Nat.ltb_spec (S i) (S k)), (Nat.ltb_spec i k); try lia.
Qed.

Lemma water_nil level k : water level k [] = [].
Proof. done. Qed.

Lemma length_water level k demanded : length (water level k demanded) = length demanded.
Proof. apply length_imap. Qed.

Lemma water_full level demanded : water level (length demanded) demanded = water (level + 1) 0 demanded.
Proof.
  unfold water. apply imap_ext. intros i x Hi%lookup_lt_Some. simpl.
  destruct (Nat.ltb_spec i (length demanded)); [by rewrite Z.add_0_r|lia].
Qed.

Definition ceilings_ok (demanded : list (bytes * DevicePoolState)) : Prop :=
  Forall (fun kv => 0 <= dp_ceiling kv.2) demanded.

(** One pass: a prefix rises by one. *)
Lemma share_round_spec demanded level remaining advanced :
  0 <= remaining ->
  let '(shares, over, adv) := share_round demanded (water level 0 demanded) remaining advanced in
  exists k, (k <= length demanded)%nat /\ shares = water level k demanded
    /\ 0 <= over <= remaining /\ sum shares + over = sum (water level 0 demanded) + remaining
    /\ (over = 0 \/ k = length demanded)
    /\ (adv = true <-> advanced = true \/ over < remaining)
    /\ (over = remaining -> shares = water level 0 demanded).
Proof.
  revert remaining advanced. induction demanded as [|[name p] demanded IH]; intros remaining advanced Hr.
  { cbn. exists 0%nat. repeat split; try done; try lia; [by left|by intros [?|?]; [|lia]]. }
  rewrite (water_cons level 0). cbn [share_round Nat.pred snd]. rewrite Z.add_0_r.
  destruct (Z.eqb_spec remaining 0) as [->|Hn].
  { exists 0%nat. rewrite water_cons. cbn [Nat.pred snd]. rewrite Z.add_0_r.
    repeat split; try done; try lia; [by left|by intros [?|?]; [|lia]]. }
  destruct (Z.ltb_spec (Z.min (dp_ceiling p) level) (dp_ceiling p)) as [Hlt|Hge].
  - specialize (IH (remaining - 1) true ltac:(lia)).
    destruct (share_round demanded _ (remaining - 1) true) as [[sh over] adv].
    destruct IH as (k & Hk & -> & Hl & Hsum & He & Hadv & Hsame).
    exists (S k). rewrite water_cons. cbn [Nat.pred snd]. replace (Z.min (dp_ceiling p) level + 1)
      with (Z.min (dp_ceiling p) (level + 1)) by lia.
    assert (adv = true) as -> by (apply Hadv; by left).
    split; [simpl; lia|]. split; [done|]. split; [lia|]. split; [simpl in *; lia|].
    split; [simpl; lia|]. split; [|lia].
    split; [intros _; right; lia|by intros _].
  - specialize (IH remaining advanced Hr).
    destruct (share_round demanded _ remaining advanced) as [[sh over] adv].
    destruct IH as (k & Hk & -> & Hl & Hsum & He & Hadv & Hsame).
    exists (S k). rewrite water_cons. cbn [Nat.pred snd].
    split; [simpl; lia|]. split; [simpl; f_equal; lia|]. split; [lia|]. split; [simpl in *; lia|].
    split; [simpl; lia|]. split; [done|].
    intros Hx. by rewrite Hsame.
Qed.

Lemma water_stuck level demanded :
  water level 0 demanded = water (level + 1) 0 demanded ->
  water level 0 demanded = map (fun kv => dp_ceiling kv.2) demanded.
Proof.
  induction demanded as [|kv demanded IH]; [done|]. rewrite !water_cons. cbn [Nat.pred map]. rewrite !Z.add_0_r.
  intros [= Hc Hd]. f_equal; [lia|by apply IH].
Qed.

(** The loop stops with a water level: everything is handed out, or every pool
    is at its ceiling. *)
Lemma share_loop_spec fuel demanded level remaining :
  0 <= remaining -> (Z.to_nat remaining <= fuel)%nat ->
  exists level' k over, level <= level' /\ (k <= length demanded)%nat
    /\ share_loop fuel demanded (water level 0 demanded) remaining = water level' k demanded
    /\ 0 <= over /\ sum (water level' k demanded) + over = sum (water level 0 demanded) + remaining
    /\ (over = 0 \/ water level' k demanded = map (fun kv => dp_ceiling kv.2) demanded).
Proof.
  revert level remaining. induction fuel as [|fuel IH]; intros level remaining Hr Hf.
  { exists level, 0%nat, 0. assert (remaining = 0) as -> by lia. split; [lia|]. split; [lia|]. split; [done|].
    split; [lia|]. split; [done|by left]. }
  cbn [share_loop]. destruct (remaining >? 0) eqn:Eg.
  2: { exists level, 0%nat, 0. assert (remaining = 0) as -> by lia. split; [lia|]. split; [lia|]. split; [done|].
       split; [lia|]. split; [done|by left]. }
  pose proof (share_round_spec demanded level remaining false Hr) as Hs.
  destruct (share_round demanded _ remaining false) as [[shares over] adv].
  destruct Hs as (k & Hk & -> & Hl & Hsum & He & Hadv & Hsame). destruct adv.
  - assert (over < remaining) as Hlt by (destruct (proj1 Hadv eq_refl) as [?|?]; [done|lia]).
    destruct He as [->| ->].
    + exists level, k, 0. destruct fuel; simpl; (split; [lia|]; split; [lia|]; split; [done|]; split; [lia|]; split; [lia|by left]).
    + rewrite water_full in *. destruct (IH (level + 1) over ltac:(lia) ltac:(lia)) as (l' & k' & o' & ? & ? & -> & ? & ? & ?).
      exists l', k', o'. split; [lia|]. split; [lia|]. split; [done|]. split; [lia|]. split; [lia|done].
  - assert (over = remaining) as -> by (destruct (Z_lt_le_dec over remaining) as [?|?]; [|lia];
      assert (false = true) by (apply Hadv; by right); done).
    rewrite (Hsame eq_refl). exists level, 0%nat, remaining. split; [lia|]. split; [lia|]. split; [done|].
    split; [lia|]. split; [done|]. right. destruct He as [->| ->]; [lia|].
    apply water_stuck. rewrite <-(Hsame eq_refl) at 1. apply water_full.
Qed.

Lemma demanded_recent now name p d :
  dv_pools d !! name = Some p -> recent_demand now p = true ->
  demanded_pools now name true d = demanded_pools now [] false d.
Proof.
  intros Hp Hr. unfold demanded_pools. f_equal. apply List.filter_ext_in. intros [n q] Hin%list_elem_of_In.
  apply elem_of_map_to_list in Hin. cbn [fst snd]. rewrite andb_true_l, andb_false_l. case_bool_decide as E; [|done].
  subst n. rewrite Hp in Hin. injection Hin as <-. by rewrite Hr.
Qed.

Lemma NoDup_filter_keys {A} (f : bytes * A -> bool) (l : list (bytes * A)) :
  NoDup l.*1 -> NoDup (List.filter f l).*1.
Proof.
  induction l as [|x l IH]; [done|]. intros [Hx Hl]%NoDup_cons. simpl. destruct (f x); [|by apply IH].
  apply NoDup_cons. split; [|by apply IH]. intros (y & Hy & Hin)%list_elem_of_fmap. apply Hx.
  apply list_elem_of_In, filter_In in Hin as [Hin _]. apply list_elem_of_fmap. exists y.
  split; [done|by apply list_elem_of_In].
Qed.

Lemma NoDup_demanded now target b d : NoDup (map fst (demanded_pools now target b d)).
Proof. apply PoolFacts.NoDup_order_by_key, NoDup_filter_keys, NoDup_fst_map_to_list. Qed.

Lemma elem_of_demanded now target b d name p :
  (name, p) ∈ demanded_pools now target b d
  <-> dv_pools d !! name = Some p /\ (recent_demand now p = true \/ b = true /\ name = target).
Proof.
  unfold demanded_pools, order_by_key. rewrite (merge_sort_Permutation key_le), list_elem_of_In, filter_In.
  rewrite <-list_elem_of_In, elem_of_map_to_list. cbn [fst snd].
  rewrite orb_true_iff, andb_true_iff, bool_decide_eq_true. done.
Qed.

Lemma share_at_lookup demanded shares i name p v :
  NoDup (map fst demanded) -> demanded !! i = Some (name, p) -> shares !! i = Some v ->
  share_at name demanded shares = Some v.
Proof.
  revert i shares. induction demanded as [|[n q] demanded IH]; intros i shares Hn Hd Hs; [done|].
  destruct shares as [|sh shares]; [by rewrite lookup_nil in Hs|]. cbn [share_at map] in *.
  apply NoDup_cons in Hn as [Hnin Hn]. destruct i as [|i]; simpl in Hd, Hs.
  - simplify_eq. by rewrite bool_decide_eq_true_2.
  - rewrite bool_decide_eq_false_2; [by eapply IH|]. intros ->. apply Hnin. apply list_elem_of_fmap.
    exists (name, p). split; [done|]. by eapply list_elem_of_lookup_2.
Qed.

Lemma shares_of_water demanded device_limit d :
  let room := saturating_sub device_limit (occupied demanded d) in
  ceilings_ok demanded ->
  exists level k, 0 <= level /\ (k <= length demanded)%nat /\ shares_of demanded device_limit d = water level k demanded
    /\ sum (water level k demanded) <= room
    /\ (sum (water level k demanded) = room \/ water level k demanded = map (fun kv => dp_ceiling kv.2) demanded).
Proof.
  intros room Hc. unfold shares_of. fold room.
  assert (map (fun _ : bytes * DevicePoolState => 0) demanded = water 0 0 demanded
    /\ sum (water 0 0 demanded) = 0) as [-> H0].
  { clear room. induction demanded as [|kv demanded IH]; [done|]. apply Forall_cons in Hc as [Hk Hc].
    rewrite water_cons. cbn [map Nat.pred]. destruct (IH Hc) as [-> Hs]. split; [f_equal; simpl; lia|].
    cbn [sum foldr] in *. unfold sum in *. simpl. lia. }
  assert (0 <= room) as Hr by (unfold room, saturating_sub; lia).
  destruct (share_loop_spec (Z.to_nat room) demanded 0 room Hr ltac:(lia)) as (l & k & over & Hl & Hk & -> & Ho & Hs & He).
  exists l, k. split; [done|]. split; [done|]. split; [done|]. rewrite H0 in Hs. split; [lia|].
  destruct He as [->|He]; [left; lia|by right].
Qed.
End AdmissionFacts.

Module AdmissionProps.
Import Pool Admission AdmissionFacts.

Lemma water_lookup level k demanded i kv :
  demanded !! i = Some kv ->
  water level k demanded !! i = Some (Z.min (dp_ceiling kv.2) (level + if (i <? k)%nat then 1 else 0)).
Proof. intros Hi. unfold water. by rewrite list_lookup_imap, Hi. Qed.

Lemma sum_lookup l i v : Forall (Z.le 0) l -> l !! i = Some v -> v <= sum l.
Proof.
  revert i. induction l as [|x l IH]; intros i Hl Hi; [done|]. apply Forall_cons in Hl as [Hx Hl].
  assert (0 <= sum l) by (clear IH Hi; unfold sum; induction Hl; simpl; lia).
  unfold sum in *. destruct i as [|i]; simpl in Hi |- *; [simplify_eq; lia|]. specialize (IH i Hl Hi). lia.
Qed.

Lemma water_nonneg level k demanded : 0 <= level -> ceilings_ok demanded -> Forall (Z.le 0) (water level k demanded).
Proof.
  intros Hl Hc. apply Forall_lookup. intros i v. unfold water. rewrite list_lookup_imap.
  destruct (demanded !! i) as [kv|] eqn:E; [|done]. intros [= <-].
  pose proof (proj1 (Forall_lookup _ _) Hc i kv E). simpl in *. destruct (_ <? _)%nat; lia.
Qed.

(** Counts are unsigned. *)
Definition entries_ok (m : gmap bytes DevicePoolState) : Prop :=
  forall name p, m !! name = Some p -> 0 <= dp_ceiling p /\ 0 <= dp_active p.

Section Fair.
Context (now device_limit : Z) (d : DeviceAdmissionState) (Hd : entries_ok (dv_pools d)).

Lemma demanded_ceilings target b : ceilings_ok (demanded_pools now target b d).
Proof. apply Forall_forall. intros [n p] [Hp _]%elem_of_demanded. by eapply Hd. Qed.

Lemma occupied_nonneg demanded : 0 <= occupied demanded d.
Proof.
  unfold occupied. set (L := List.filter _ _).
  assert (Forall (fun kv => 0 <= dp_active kv.2) L) as HL.
  { apply Forall_forall. intros [n p] Hin. apply list_elem_of_In, filter_In in Hin as [Hin _].
    apply list_elem_of_In, elem_of_map_to_list in Hin. by eapply Hd. }
  assert (forall acc, 0 <= acc ->
    0 <= foldl (fun total kv => saturating_add 32 total (dp_active kv.2)) acc L) as Hf; [|by apply Hf].
  induction HL as [|kv L' Hk HL IH]; intros acc Ha; simpl; [done|]. apply IH.
  unfold saturating_add, u_max. lia.
Qed.

(** The limit of a demanded pool is its entry of the shares. *)
Lemma fair_limit_share target i name p :
  let demanded := demanded_pools now target true d in
  demanded = demanded_pools now name true d -> demanded !! i = Some (name, p) ->
  shares_of demanded device_limit d !! i = Some (fair_pool_limit d name device_limit now true).
Proof.
  intros demanded Heq Hi. destruct (shares_of_water demanded device_limit d (demanded_ceilings _ _))
    as (l & k & _ & _ & Hw & _). rewrite Hw, (water_lookup _ _ _ _ _ Hi). f_equal. symmetry.
  unfold fair_pool_limit. rewrite <-Heq. destruct demanded as [|x xs] eqn:Ed; [done|]. rewrite <-Ed in *.
  rewrite Hw. erewrite share_at_lookup; [done|apply NoDup_demanded|done|by apply water_lookup].
Qed.

Lemma fair_limit_bounds name p :
  0 <= device_limit -> dv_pools d !! name = Some p ->
  0 <= fair_pool_limit d name device_limit now true <= Z.min (dp_ceiling p) device_limit.
Proof.
  intros Hl Hp. set (E := demanded_pools now name true d).
  assert ((name, p) ∈ E) as [i Hi]%list_elem_of_lookup_1 by (apply elem_of_demanded; naive_solver).
  pose proof (fair_limit_share name i name p eq_refl Hi) as Hf. fold E in Hf.
  destruct (shares_of_water E device_limit d (demanded_ceilings _ _)) as (l' & k' & Hl' & _ & Hw' & Hs' & _).
  rewrite Hw' in Hf. pose proof (water_nonneg l' k' E Hl' (demanded_ceilings _ _)) as Hnn.
  pose proof (sum_lookup _ _ _ Hnn Hf). pose proof (proj1 (Forall_lookup _ _) Hnn _ _ Hf).
  rewrite (water_lookup _ _ _ _ _ Hi) in Hf. injection Hf as Hf. simpl in Hf.
  pose proof (occupied_nonneg E). unfold saturating_sub in Hs'. lia.
Qed.
End Fair.

(** The limits of the pools of a device that have demand divide
    what the others leave of the device's limit as evenly as their ceilings
    allow: there is a level such that each pool has its ceiling or the level,
    and the first few in name order one more; together they stay within the
    room and use all of it unless every pool has its ceiling; and no pool's
    limit exceeds its ceiling or the device's limit. *)
Theorem fair_shares now device_limit d :
  0 <= device_limit -> entries_ok (dv_pools d) ->
  let D := demanded_pools now [] false d in
  let share name := fair_pool_limit d name device_limit now true in
  let room := saturating_sub device_limit (occupied D d) in
  (forall name p, (name, p) ∈ D <-> dv_pools d !! name = Some p /\ recent_demand now p = true)
  /\ (exists level k, (k <= length D)%nat /\ forall i name p, D !! i = Some (name, p) ->
        share name = Z.min (dp_ceiling p) (level + if (i <? k)%nat then 1 else 0))
  /\ sum (map (fun kv => share kv.1) D) <= room
  /\ (sum (map (fun kv => share kv.1) D) = room \/ forall name p, (name, p) ∈ D -> share name = dp_ceiling p)
  /\ (forall name p, dv_pools d !! name = Some p -> 0 <= share name <= Z.min (dp_ceiling p) device_limit).
Proof.
  intros Hl Hd D share room.
  assert (forall i name p, D !! i = Some (name, p) -> demanded_pools now name true d = D) as Hsame.
  { intros i name p Hi. apply list_elem_of_lookup_2, elem_of_demanded in Hi as [Hp [Hr|[? _]]]; [|done].
    by eapply demanded_recent. }
  destruct (shares_of_water D device_limit d (demanded_ceilings now d Hd _ _)) as (l & k & Hl0 & Hk & Hw & Hs & He).
  assert (forall i name p, D !! i = Some (name, p) -> water l k D !! i = Some (share name)) as Hshare.
  { intros i name p Hi. pose proof (Hsame i name p Hi) as Hn.
    pose proof (fair_limit_share now device_limit d Hd name i name p eq_refl) as Hf. rewrite Hn in Hf.
    specialize (Hf Hi). by rewrite Hw in Hf. }
  assert (map (fun kv => share kv.1) D = water l k D) as Hmap.
  { apply list_eq. intros i. rewrite list_lookup_fmap. destruct (D !! i) as [[n p]|] eqn:Ei; simpl.
    - symmetry. by eapply Hshare.
    - symmetry. apply lookup_ge_None. rewrite length_water. by apply lookup_ge_None. }
  rewrite Hmap. split; [|split; [|split; [done|split]]].
  - intros name p. unfold D. rewrite elem_of_demanded. naive_solver.
  - exists l, k. split; [done|]. intros i name p Hi. specialize (Hshare i name p Hi).
    rewrite (water_lookup _ _ _ _ _ Hi) in Hshare. by injection Hshare.
  - destruct He as [He|He]; [by left|right]. intros name p [i Hi]%list_elem_of_lookup_1.
    specialize (Hshare i name p Hi). rewrite He, list_lookup_fmap, Hi in Hshare. by injection Hshare.
  - intros name p Hp. by apply fair_limit_bounds.
Qed.

(** ** Calibration *)

(** The limit stays between one and the ceiling, below it is the level that
    is being compared, and below that the one to return to. *)
Record adm_ok (s : PoolAdmissionState) : Prop := MkAdmOk {
  ao_ceiling : 1 <= ceiling s < u_max 32;
  ao_limit : 1 <= limit_of s <= ceiling s;
  ao_best : 1 <= best_limit (calibration s) <= ceiling s;
  ao_testing : forall p sc, testing_from (calibration s) = Some (p, sc) -> 1 <= p < limit_of s;
  ao_lower : forall q sc, last_lower (calibration s) = Some (q, sc) -> 1 <= q < limit_of s
    /\ forall p sc', testing_from (calibration s) = Some (p, sc') -> q < p;
  ao_peak : 0 <= window_peak_gpu_memory_mib (window s);
}.

Lemma initial_limit_bounds c : 1 <= c -> 1 <= initial_limit c <= c.
Proof.
  intros Hc. unfold initial_limit, div_ceil. destruct (Z.leb_spec c 2); [lia|].
  pose proof (Z.div_le_upper_bound (c + 3 - 1) 3 c). lia.
Qed.

Lemma calibration_ok_new c now completed : 1 <= c < u_max 32 -> adm_ok (new c now completed).
Proof. intros Hc. pose proof (initial_limit_bounds c ltac:(lia)). by split; simpl. Qed.

Lemma update_ceiling_ok c now completed s : 1 <= c < u_max 32 -> adm_ok s -> adm_ok (update_ceiling c now completed s).
Proof.
  intros Hc [? ? ? ? ? ?]. unfold update_ceiling. destruct (ceiling s =? c); [done|]. split; simpl; try done; unfold limit_of in *; simpl; lia.
Qed.

(** Operations that leave the ceiling and what was learned alone. *)
Lemma adm_ok_same s s' :
  adm_ok s -> ceiling s' = ceiling s -> calibration s' = calibration s ->
  0 <= window_peak_gpu_memory_mib (window s') -> adm_ok s'.
Proof. intros [? ? ? ? ? ?] Hc Hk Hp. unfold limit_of in *. split; unfold limit_of; rewrite ?Hc, ?Hk; done. Qed.

Lemma settle_ok now active completed r s : adm_ok s -> adm_ok (settle now active completed r s).
Proof. intros [? ? ? ? ? ?]. by split. Qed.

Lemma fall_back_ok now active completed level lower r s :
  adm_ok s -> 1 <= level.1 <= ceiling s -> (forall q sc, lower = Some (q, sc) -> 1 <= q < level.1) ->
  adm_ok (fall_back now active completed level lower r s).
Proof. intros [? ? ? ? ? ?] Hl Hq. split; try done. simpl. intros q sc Hs. split; [by eapply Hq|done]. Qed.

Lemma accept_ok v lower s :
  adm_ok s -> (forall q sc, lower = Some (q, sc) -> 1 <= q < limit_of s) -> adm_ok (accept v lower s).
Proof. intros [? ? ? ? ? ?] Hq. split; try done. simpl. intros q sc Hs. split; [by eapply Hq|done]. Qed.

Lemma reprobe_same now s :
  exists b, reprobe now s = with_calibration (set_settled b (last_probe (calibration s)) (calibration s)) s.
Proof. unfold reprobe. destruct (_ && _); eexists; [done|]. instantiate (1 := settled (calibration s)). by destruct s as [? []]. Qed.

(** A raise: the conditions under which the limit goes up, and how far. *)
Record raised (now active : Z) (g : GpuSample) (v : Verdict) (s : PoolAdmissionState) (next : Z) : Prop := MkRaised {
  ra_pressure : has_pressure now s = true;
  ra_safe : v_memory_safe v = true /\ v_cpu_safe v = true;
  ra_range : limit_of s < next <= Z.min (2 * limit_of s) (ceiling s);
  ra_level : safe_level g active s next;
  ra_max : forall c, next < c <= Z.min (2 * limit_of s) (ceiling s) -> ~ safe_level g active s c;
}.

Lemma decide_level_ok now active completed g v s :
  adm_ok s -> active = limit_of s -> testing_from (calibration s) = None ->
  let s' := decide_level now active completed g v s in
  adm_ok s' /\ ceiling s' = ceiling s
  /\ (limit_of s' <= limit_of s \/ raised now active g v s (limit_of s')).
Proof.
  intros Hs Ha Ht. unfold decide_level. destruct (reprobe_same now s) as [b ->].
  set (s1 := with_calibration _ s). assert (adm_ok s1) as Hs1 by (destruct Hs; by split).
  cbn [calibration with_calibration set_settled s1 settled last_lower effective_limit]. fold s1.
  change (effective_limit (calibration s)) with (limit_of s).
  destruct (if b && _ then _ else None) as [level|] eqn:El.
  { assert (last_lower (calibration s) = Some level) as Hl by (by destruct (b && _)).
    destruct level as [q sc]. destruct (ao_lower s Hs q sc Hl) as [Hq _]. split; [|split; [done|left]].
    - apply fall_back_ok; [done| |done]. simpl. pose proof (ao_limit s Hs). lia.
    - unfold limit_of. simpl. unfold limit_of in Hq. lia. }
  assert (forall r, adm_ok (settle now active completed r s1) /\ ceiling (settle now active completed r s1) = ceiling s
    /\ (limit_of (settle now active completed r s1) <= limit_of s \/ raised now active g v s (limit_of (settle now active completed r s1)))) as Hsettle.
  { intros r. split; [by apply settle_ok|]. split; [done|]. left. unfold limit_of. simpl. lia. }
  destruct (negb b && _ && _ && _) eqn:Eg; [|apply Hsettle].
  apply andb_true_iff in Eg as [[[Hb Hp]%andb_true_iff Hm]%andb_true_iff Hc].
  change (ceiling s1) with (ceiling s). pose proof (ao_limit s Hs) as Hlim. pose proof (ao_ceiling s Hs) as Hceil.
  assert (saturating_mul 32 (limit_of s) 2 = Z.min (2 * limit_of s) (u_max 32)) as Hsat by (unfold saturating_mul; lia).
  set (desired := Z.min (saturating_mul 32 (limit_of s) 2) (ceiling s)).
  assert (desired = Z.min (2 * limit_of s) (ceiling s)) as Hd by (unfold desired; rewrite Hsat; lia).
  destruct (desired >? limit_of s) eqn:Ed; [|apply Hsettle].
  pose proof (largest_candidate_spec g active desired s1 (ao_peak _ Hs1) ltac:(lia) ltac:(lia)) as Hlc.
  destruct (largest_memory_safe_candidate g active desired s1) as [[next free]|]; [|apply Hsettle].
  destruct Hlc as (Hn & Hf & Hr & Hmax). split; [|split; [done|right]].
  - destruct Hs. split; try done; unfold limit_of in *; simpl in *; [lia| |].
    + intros p sc [= <- <-]. lia.
    + intros q sc Hq. destruct (ao_lower0 q sc Hq) as [? _]. split; [lia|]. intros p sc' [= <- _]. lia.
  - change (limit_of _) with next. split; [done|done|lia|by exists free|]. rewrite <-Hd. apply Hmax.
Qed.

(** What the projection and the conditions of a raise read. *)
Definition alike (s s' : PoolAdmissionState) : Prop :=
  ceiling s' = ceiling s /\ limit_of s' = limit_of s /\ last_blocked s' = last_blocked s
  /\ idle_gpu_memory_mib s' = idle_gpu_memory_mib s
  /\ window_peak_gpu_memory_mib (window s') = window_peak_gpu_memory_mib (window s).

Lemma safe_level_alike g active s s' c : alike s s' -> safe_level g active s' c <-> safe_level g active s c.
Proof. intros (_ & _ & _ & Hi & Hw). unfold safe_level, projected_free_memory_mib. by rewrite Hi, Hw. Qed.

Lemma raised_alike now active g v s s' next : alike s s' -> raised now active g v s' next -> raised now active g v s next.
Proof.
  intros Ha [Hp Hs Hr Hl Hm]. pose proof (fun c => safe_level_alike g active s s' c Ha) as Hlv.
  destruct Ha as (Hc & Hli & Hb & _). rewrite Hli, Hc in Hr, Hm. unfold has_pressure in Hp. rewrite Hb in Hp.
  split; [done|done|done|by apply Hlv|]. intros c Hc' Hx. by apply (Hm c Hc'), Hlv.
Qed.

Lemma decide_level_alike now active completed g v s s' :
  alike s s' -> adm_ok s' -> active = limit_of s -> testing_from (calibration s') = None ->
  let s'' := decide_level now active completed g v s' in
  adm_ok s'' /\ ceiling s'' = ceiling s
  /\ (limit_of s'' <= limit_of s \/ raised now active g v s (limit_of s'')).
Proof.
  intros Ha Hs Hact Ht. pose proof Ha as (Hc & Hl & _).
  destruct (decide_level_ok now active completed g v s' Hs ltac:(congruence) Ht) as (H1 & H2 & H3).
  rewrite Hl in H3. split; [done|]. split; [congruence|]. destruct H3 as [?|?]; [by left|right].
  by eapply raised_alike.
Qed.

Lemma judge_ok now active completed g v s :
  adm_ok s -> active = limit_of s ->
  let s' := judge now active completed g v s in
  adm_ok s' /\ ceiling s' = ceiling s
  /\ (limit_of s' <= limit_of s \/ raised now active g v s (limit_of s')).
Proof.
  intros Hs Ha. unfold judge. destruct (testing_from (calibration s)) as [[p sc]|] eqn:Et.
  - pose proof (ao_testing s Hs p sc Et) as Hp. pose proof (ao_limit s Hs) as Hl. destruct (_ || _ || _).
    + split; [|split; [done|left; unfold limit_of in *; simpl; lia]]. apply fall_back_ok; [done|simpl; lia|].
      intros q sq Hq. destruct (ao_lower s Hs q sq Hq) as [? Hlt]. specialize (Hlt p sc Et). simpl. lia.
    + apply (decide_level_alike now active completed g v s (accept v (Some (p, sc)) s)); [done| |done|done].
      apply accept_ok; [done|]. by intros q sq [= <- <-].
  - apply (decide_level_alike now active completed g v s (accept v (last_lower (calibration s)) s)); [done| |done|done].
    apply accept_ok; [done|]. intros q sq Hq. by apply (ao_lower s Hs q sq Hq).
Qed.

Lemma evaluate_ok now active completed g s :
  adm_ok s -> active = limit_of s ->
  let s' := evaluate now active completed g s in
  adm_ok s' /\ ceiling s' = ceiling s
  /\ (limit_of s' <= limit_of s \/ raised now active g (verdict now active completed g s) s (limit_of s')).
Proof.
  intros Hs Ha. unfold evaluate. set (v := verdict _ _ _ _ _).
  destruct (_ && _ && _ && _ && _).
  { split; [|split; [done|left; unfold limit_of; simpl; lia]]. by eapply adm_ok_same. }
  destruct (_ && _ && _ && _).
  { split; [|split; [done|left; unfold limit_of; simpl; lia]]. eapply adm_ok_same; try done. apply (ao_peak s Hs). }
  set (s1 := with_window (set_maturity false (window s)) s).
  assert (adm_ok s1) as Hs1 by (eapply adm_ok_same; try done; apply (ao_peak s Hs)).
  destruct (judge_ok now active completed g v s1 Hs1 Ha) as (H1 & H2 & H3). split; [done|]. split; [done|].
  destruct H3 as [?|?]; [by left|right]. by apply (raised_alike now active g v s s1).
Qed.

Lemma count_sample_ok now active completed g cpu s :
  adm_ok s -> let s' := count_sample now active completed g cpu s in
  adm_ok s' /\ ceiling s' = ceiling s /\ calibration s' = calibration s /\ last_blocked s' = last_blocked s.
Proof.
  intros Hs. unfold count_sample. set (s1 := if active =? observed_active (window s) then s else _).
  assert (ceiling s1 = ceiling s /\ calibration s1 = calibration s /\ last_blocked s1 = last_blocked s
    /\ 0 <= window_peak_gpu_memory_mib (window s1)) as (Hc & Hk & Hb & Hp).
  { unfold s1. destruct (active =? _); [|done]. pose proof (ao_peak s Hs). done. }
  set (s2 := if active =? 0 then _ else s1).
  assert (ceiling s2 = ceiling s /\ calibration s2 = calibration s /\ last_blocked s2 = last_blocked s
    /\ window s2 = window s1) as (Hc2 & Hk2 & Hb2 & Hw2) by (unfold s2; by destruct (active =? 0)).
  split; [|done]. eapply adm_ok_same; [exact Hs|done|done|]. simpl. rewrite Hw2. lia.
Qed.

Lemma observe_ok now active completed gpu cpu s :
  adm_ok s -> adm_ok (observe now active completed gpu cpu s) /\ ceiling (observe now active completed gpu cpu s) = ceiling s.
Proof.
  intros Hs. unfold observe. set (s1 := MkState _ _ _ _ _ gpu cpu _ _).
  assert (adm_ok s1) as Hs1 by (eapply adm_ok_same; try done; apply (ao_peak s Hs)).
  pose proof (ao_ceiling s Hs). destruct gpu as [g|].
  2: { split; [|done]. split; simpl; try done; unfold limit_of; simpl; lia. }
  destruct (telemetry_failed_open s && true).
  { pose proof (initial_limit_bounds (ceiling s) ltac:(lia)). by split. }
  unfold observe_sample. destruct (count_sample_ok now active completed g cpu s1 Hs1) as (Hs2 & Hc2 & Hk2 & _).
  set (s2 := count_sample now active completed g cpu s1) in *.
  destruct (active >? limit_of s2); [split; [eapply adm_ok_same; try done; apply (ao_peak _ Hs2)|done]|].
  destruct (negb _) eqn:Ew; [split; [eapply adm_ok_same; try done; apply (ao_peak _ Hs2)|done]|].
  unfold window_full in Ew. bool_simpl.
  destruct (evaluate_ok now active completed g s2 Hs2) as (? & Hc & _); [lia|]. split; [done|].
  by rewrite Hc, Hc2.
Qed.

(** The limit of a device is raised only when it is safe and asked
    for: if an observation raises it, as many leases are active as were
    allowed, at least five samples over at least eight seconds were taken at
    that number, a claim was refused within the last half minute, the device
    keeps its reserve, the host's processors are not saturated, and the new
    limit is the highest one up to twice the old one and the ceiling at which
    the projected memory leaves the reserve free. *)
Theorem probe_safe now active completed g cpu s :
  adm_ok s -> telemetry_failed_open s = false ->
  let s' := observe now active completed (Some g) cpu s in
  let seen := count_sample now active completed g cpu s in
  let v := verdict now active completed g seen in
  limit_of s < limit_of s' ->
  active = limit_of s
  /\ MIN_STABLE_SAMPLES <= window_samples (window seen)
  /\ OBSERVATION_WINDOW <= saturating_sub now (window_started (window seen))
  /\ (exists blocked, last_blocked s = Some blocked /\ now - blocked <= PRESSURE_TTL)
  /\ reserve_mib g <= free_memory_mib g /\ reserve_mib g <= v_free v
  /\ f_lt (v_mean_cpu v) CPU_SATURATION_PERCENT = true
  /\ limit_of s' <= Z.min (2 * limit_of s) (ceiling s)
  /\ safe_level g active seen (limit_of s')
  /\ forall c, limit_of s' < c <= Z.min (2 * limit_of s) (ceiling s) -> ~ safe_level g active seen c.
Proof.
  intros Hs Ht s' seen v. unfold s', observe. clear s'. rewrite Ht. cbn [andb].
  set (s1 := MkState _ _ _ _ _ _ _ _ _).
  assert (adm_ok s1) as Hs1 by (eapply adm_ok_same; try done; apply (ao_peak s Hs)).
  unfold observe_sample. destruct (count_sample_ok now active completed g cpu s1 Hs1) as (Hs2 & Hc2 & Hk2 & Hb2).
  set (s2 := count_sample now active completed g cpu s1) in *.
  assert (limit_of s2 = limit_of s) as Hl2 by (unfold limit_of; by rewrite Hk2).
  assert (window s2 = window seen /\ idle_gpu_memory_mib s2 = idle_gpu_memory_mib seen) as [Hw Hi].
  { unfold s2, seen, count_sample. cbn [window s1]. destruct (active =? observed_active _); cbn; by destruct (active =? 0). }
  assert (forall c, safe_level g active s2 c <-> safe_level g active seen c) as Hlev.
  { intros c. unfold safe_level, projected_free_memory_mib. by rewrite Hw, Hi. }
  destruct (active >? limit_of s2); [intros Hlt; change (limit_of (with_reason _ _)) with (limit_of s2) in Hlt; lia|].
  destruct (negb _) eqn:Ew; [intros Hlt; change (limit_of (with_reason _ _)) with (limit_of s2) in Hlt; lia|].
  unfold window_full in Ew. rewrite negb_false_iff, !andb_true_iff, !negb_true_iff in Ew. destruct Ew as [[Hact Hsam] Hel].
  destruct (evaluate_ok now active completed g s2 Hs2) as (_ & _ & Hcase); [lia|]. intros Hlt.
  destruct Hcase as [?|[Hp [Hm Hc] Hr Hlv Hmax]]; [lia|].
  assert (verdict now active completed g s2 = v) as Hv by (unfold v, verdict; by rewrite Hw).
  rewrite Hv in Hm, Hc. rewrite Hw in *. rewrite Hl2 in *. rewrite Hc2 in *. change (ceiling s1) with (ceiling s) in *.
  unfold has_pressure in Hp. rewrite Hb2 in Hp. change (last_blocked s1) with (last_blocked s) in Hp.
  unfold v in Hm, Hc. cbn [verdict v_memory_safe v_cpu_safe] in Hm, Hc. apply andb_true_iff in Hm as [Hm1 Hm2].
  unfold memory_safe in Hm1. split; [lia|]. split; [lia|]. split; [lia|]. split.
  { destruct (last_blocked s) as [b|]; [|done]. exists b. split; [done|]. unfold saturating_sub in Hp. lia. }
  split; [lia|]. split; [unfold v; cbn [verdict v_free]; lia|]. split; [exact Hc|]. split; [lia|].
  split; [by apply Hlev|]. intros c Hcr Hsl. apply (Hmax c); [lia|by apply Hlev].
Qed.

(** ** The registry *)

Definition auto_on (device : Z) (os : list Observation) : list Observation :=
  List.filter is_auto (List.filter (on_device device) os).

(** Counts are unsigned, and no device's ceilings add up to the largest 32-bit
    number, at which the bisection would not end. *)
Definition obs_ok (os : list Observation) : Prop :=
  Forall (fun o => 0 <= o_active o) os /\ forall device, total_ceiling (auto_on device os) < u_max 32.

Definition device_ok (d : DeviceAdmissionState) : Prop := adm_ok (admission d) /\ entries_ok (dv_pools d).
Definition registry_ok (r : AdmissionRegistry) : Prop := forall device d, devices r !! device = Some d -> device_ok d.

Inductive registry_step : AdmissionRegistry -> AdmissionRegistry -> Prop :=
| step_tick os gpu cpu now sample r : obs_ok os -> registry_step r (update_pools_at os gpu cpu now sample r)
| step_blocked now name r : registry_step r (note_blocked now name r)
| step_limit now pool r : registry_step r (limit now pool r).2.

Lemma pool_ceiling_pos pool : 1 <= pool_ceiling pool.
Proof. unfold pool_ceiling. lia. Qed.

Lemma entries_ok_insert name p m :
  entries_ok m -> 0 <= dp_ceiling p /\ 0 <= dp_active p -> entries_ok (<[name := p]> m).
Proof. intros Hm Hp n q [[<- <-]|[_ Hq]]%lookup_insert_Some; [done|by eapply Hm]. Qed.

Lemma update_entries_ok os m :
  Forall (fun o => 0 <= o_active o) os -> entries_ok m -> entries_ok (foldl update_entry m os).
Proof.
  intros Hos. revert m. induction Hos as [|o os Ho Hos IH]; intros m Hm; simpl; [done|]. apply IH.
  apply entries_ok_insert; [done|]. simpl. pose proof (pool_ceiling_pos (o_pool o)). lia.
Qed.

Lemma total_ceiling_nonneg os : 0 <= total_ceiling os.
Proof.
  unfold total_ceiling. assert (forall acc, 0 <= acc ->
    0 <= foldl (fun total o => saturating_add 32 total (pool_ceiling (o_pool o))) acc os) as Hf; [|by apply Hf].
  induction os as [|o os IH]; intros acc Ha; simpl; [done|]. apply IH.
  pose proof (pool_ceiling_pos (o_pool o)). unfold saturating_add, u_max. lia.
Qed.

(** One device's part of a tick. *)
Definition next_device now gpu cpu sample os device (old : option DeviceAdmissionState) : DeviceAdmissionState :=
  default (MkDevice (new 1 0 0) ∅)
    (devices (update_device now gpu cpu sample os
       (MkRegistry (match old with Some d => {[device := d]} | None => ∅ end) ∅) device) !! device).

Lemma update_device_devices now gpu cpu sample os r device :
  devices (update_device now gpu cpu sample os r device)
  = <[device := next_device now gpu cpu sample os device (devices r !! device)]> (devices r).
Proof.
  unfold next_device, update_device. cbn [devices]. rewrite lookup_insert_eq. cbn [default id].
  destruct (devices r !! device) as [d|]; cbn; [by rewrite lookup_singleton_eq|done].
Qed.

Lemma update_devices_lookup now gpu cpu sample os l r k :
  NoDup l ->
  devices (foldl (update_device now gpu cpu sample os) r l) !! k
  = if bool_decide (k ∈ l) then Some (next_device now gpu cpu sample os k (devices r !! k)) else devices r !! k.
Proof.
  revert r. induction l as [|x l IH]; intros r Hn; [done|]. apply NoDup_cons in Hn as [Hx Hn]. simpl.
  rewrite IH, update_device_devices by done. destruct (decide (k = x)) as [->|Hne].
  - rewrite bool_decide_eq_false_2, lookup_insert_eq, bool_decide_eq_true_2; [done|by left|done].
  - rewrite lookup_insert_ne by done. rewrite (bool_decide_ext (k ∈ x :: l) (k ∈ l)); [done|].
    rewrite elem_of_cons. naive_solver.
Qed.

Lemma next_device_ok now gpu cpu sample os device old :
  obs_ok os -> (forall d, old = Some d -> device_ok d) ->
  let d := next_device now gpu cpu sample os device old in
  device_ok d /\ ceiling (admission d) = Z.max (total_ceiling (auto_on device os)) 1
  /\ (sample = true -> (let! samples := gpu in samples !! device) = None -> limit_of (admission d) = ceiling (admission d)).
Proof.
  intros [Ha Hc] Hold. unfold next_device, update_device. cbn [devices]. rewrite lookup_insert_eq. cbn [default id].
  fold (auto_on device os). set (c := Z.max (total_ceiling (auto_on device os)) 1).
  specialize (Hc device). pose proof (total_ceiling_nonneg (auto_on device os)) as Hn.
  assert (1 <= c < u_max 32) as Hcb by (unfold c, u_max in *; lia).
  set (completed := total_completed _).
  set (d0 := default _ _). assert (device_ok d0) as [Hd0 He0].
  { unfold d0. destruct old as [d|]; cbn.
    - rewrite lookup_singleton_eq. cbn. by apply Hold.
    - split; [by apply calibration_ok_new|]. intros n p Hp. cbn in Hp. by rewrite lookup_empty in Hp. }
  pose proof (update_ceiling_ok c now completed (admission d0) Hcb Hd0) as Hu.
  assert (ceiling (update_ceiling c now completed (admission d0)) = c) as Huc.
  { unfold update_ceiling. by destruct (Z.eqb_spec (ceiling (admission d0)) c). }
  assert (entries_ok (foldl update_entry
    (filter (fun kv => kv.1 ∈ map (fun o => p_name (o_pool o)) (auto_on device os)) (dv_pools d0)) (auto_on device os))) as He.
  { apply update_entries_ok.
    - apply Forall_forall. intros o Ho. apply (proj1 (Forall_forall _ _) Ha). apply list_elem_of_In in Ho.
      unfold auto_on in Ho. apply filter_In in Ho as [Ho _]. apply filter_In in Ho as [Ho _]. by apply list_elem_of_In.
    - intros n p [Hp _]%map_lookup_filter_Some. by eapply He0. }
  destruct sample; cbn [admission dv_pools].
  - match goal with |- context [observe now ?a completed ?g cpu ?s] =>
      destruct (observe_ok now a completed g cpu s Hu) as [Ho Hoc] end.
    split; [by split|]. split; [congruence|]. intros _ Hnone. rewrite Hnone. done.
  - split; [by split|]. by split.
Qed.

Lemma tick_ok os gpu cpu now sample r :
  obs_ok os -> registry_ok r ->
  forall device d, devices (update_pools_at os gpu cpu now sample r) !! device = Some d ->
  device_ok d /\ ceiling (admission d) = Z.max (total_ceiling (auto_on device os)) 1
  /\ (sample = true -> (let! samples := gpu in samples !! device) = None -> limit_of (admission d) = ceiling (admission d)).
Proof.
  intros Hos Hr device d. unfold update_pools_at. rewrite update_devices_lookup by (unfold live_devices; apply NoDup_elements).
  case_bool_decide as Hin.
  - intros [= <-]. apply next_device_ok; [done|]. intros d0. cbn [devices].
    intros [Hd0 _]%map_lookup_filter_Some. by eapply Hr.
  - cbn [devices]. intros [_ Hx]%map_lookup_filter_Some. done.
Qed.

Lemma blocked_ok now name r : registry_ok r -> registry_ok (note_blocked now name r).
Proof.
  intros Hr. unfold note_blocked. destruct (pool_devices r !! name) as [k|]; [|done]. intros device d. cbn [devices].
  intros [[<- (d0 & Hd0 & ->)]|[_ Hd]]%lookup_alter_Some; [|by eapply Hr].
  destruct (Hr _ _ Hd0) as [Ha He]. split.
  - eapply adm_ok_same; try done. apply (ao_peak _ Ha).
  - cbn [dv_pools]. intros n p [[<- (p0 & Hp & ->)]|[_ Hp]]%lookup_alter_Some; apply (He _ _ Hp).
Qed.

Lemma limit_registry_ok now pool r : registry_ok r -> registry_ok (limit now pool r).2.
Proof.
  intros Hr. unfold limit. destruct (negb _); [done|].
  destruct (admission_device_ordinal pool) as [k|]; [|done]. cbn [mbind option_bind].
  destruct (devices r !! k) as [d0|] eqn:Ed; [|done]. cbn [mbind option_bind snd]. intros device d. cbn [devices].
  intros [[<- <-]|[_ Hd]]%lookup_insert_Some; [|by eapply Hr]. destruct (Hr _ _ Ed) as [Ha He]. split; [done|].
  cbn [dv_pools]. destruct (dv_pools d0 !! p_name pool); [done|]. apply entries_ok_insert; [done|]. simpl.
  pose proof (pool_ceiling_pos pool). lia.
Qed.

Lemma registry_reachable_ok r : rtc registry_step registry_default r -> registry_ok r.
Proof.
  intros Hr. assert (registry_ok registry_default) as H0 by (intros k d; unfold registry_default; cbn [devices]; by rewrite lookup_empty).
  induction Hr as [|r1 r2 r3 Hstep _ IH]; [done|]. apply IH. destruct Hstep.
  - intros device d Hd. by eapply tick_ok.
  - by apply blocked_ok.
  - by apply limit_registry_ok.
Qed.

(** Whatever observations, refusals and claims the registry
    has seen, every device's limit is between one and the sum of its pools'
    ceilings as of the last tick, the level under test and the one to return
    to are below it, the limits handed to a claim obey pool limit <= device
    limit, and a device whose telemetry is lost admits up to its ceiling. *)
Theorem admission_bounded r :
  rtc registry_step registry_default r ->
  (forall device d, devices r !! device = Some d -> adm_ok (admission d))
  /\ (forall now pool lim, (limit now pool r).1 = Some lim ->
        0 <= limit_pool lim <= limit_device lim /\ 1 <= limit_device lim)
  /\ (forall os gpu cpu now sample device d, obs_ok os ->
        devices (update_pools_at os gpu cpu now sample r) !! device = Some d ->
        ceiling (admission d) = Z.max (total_ceiling (auto_on device os)) 1
        /\ (sample = true -> (let! samples := gpu in samples !! device) = None ->
              limit_of (admission d) = ceiling (admission d))).
Proof.
  intros Hreach. pose proof (registry_reachable_ok r Hreach) as Hr. split; [|split].
  - intros device d Hd. by apply (Hr device).
  - intros now pool lim Hl. pose proof (limit_registry_ok now pool r Hr) as Hr'. unfold limit in *.
    pose proof (pool_ceiling_pos pool) as Hc. destruct (negb _); [done|].
    destruct (admission_device_ordinal pool) as [k|]; [|injection Hl as <-; simpl; lia].
    cbn [mbind option_bind] in *. destruct (devices r !! k) as [d0|] eqn:Ed; [|injection Hl as <-; simpl; lia].
    cbn [mbind option_bind fst snd] in *.
    set (pools := match dv_pools d0 !! p_name pool with Some _ => _ | None => _ end) in *.
    set (d := MkDevice (admission d0) pools) in *. injection Hl as <-. cbn [limit_pool limit_device].
    destruct (Hr' k d) as [Ha He]; [cbn; apply lookup_insert_eq|].
    pose proof (ao_limit _ Ha) as Hlim. cbn [admission d] in Hlim.
    assert (is_Some (pools !! p_name pool)) as [p Hp].
    { unfold pools. destruct (dv_pools d0 !! p_name pool) eqn:E; [by eexists|]. rewrite lookup_insert_eq. by eexists. }
    pose proof (fair_limit_bounds now (limit_of (admission d0)) d He (p_name pool) p ltac:(lia) Hp). lia.
  - intros os gpu cpu now sample device d Hos Hd.
    destruct (tick_ok os gpu cpu now sample r Hos Hr device d Hd) as (_ & ? & ?). done.
Qed.

(** ** Witnesses *)

Lemma entries_decided m :
  bool_decide (map_Forall (fun _ p => 0 <= dp_ceiling p /\ 0 <= dp_active p) m) = true -> entries_ok m.
Proof. rewrite bool_decide_eq_true. intros Hm name p Hp. by apply (Hm name). Qed.

(** Three pools with demand and one without that holds a slot. *)
Definition sample_device : DeviceAdmissionState :=
  MkDevice (new 7 0 0)
    {[bs "a" := MkDevicePool 1 0 (Some 0); bs "b" := MkDevicePool 4 2 (Some 0);
      bs "c" := MkDevicePool 4 2 (Some 0); bs "d" := MkDevicePool 4 1 None]}.

Lemma fair_shares_witness :
  map (fun name => fair_pool_limit sample_device name 7 0 true) [bs "a"; bs "b"; bs "c"] = [1; 3; 2]
  /\ sum (map (fun kv => fair_pool_limit sample_device kv.1 7 0 true) (demanded_pools 0 [] false sample_device)) <= 6.
Proof.
  split; [by vm_compute|]. assert (entries_ok (dv_pools sample_device)) as He by by apply entries_decided.
  destruct (fair_shares 0 7 sample_device ltac:(lia) He) as (_ & _ & Hs & _). exact Hs.
Defined.

(** A device at its limit of four for eight seconds, with a refused claim. *)
Definition busy_sample : GpuSample := sample_new 0 (f_of 80) 20000 60000 80000.
Definition busy_state : PoolAdmissionState :=
  foldl (fun s t => observe (t * SECOND) 4 0 (Some busy_sample) (Some (f_of 50)) s)
    (with_blocked (Some 0) (new 12 0 0)) [0; 2; 4; 6].

Lemma busy_ok : adm_ok busy_state.
Proof.
  unfold busy_state. cbn [foldl]. do 4 apply observe_ok. eapply adm_ok_same;
    [apply (calibration_ok_new 12 0 0); by vm_compute|done..].
Qed.

Lemma probe_safe_witness :
  limit_of busy_state = 4
  /\ limit_of (observe (8 * SECOND) 4 0 (Some busy_sample) (Some (f_of 50)) busy_state) = 8
  /\ safe_level busy_sample 4 (count_sample (8 * SECOND) 4 0 busy_sample (Some (f_of 50)) busy_state) 8.
Proof.
  split; [by vm_compute|]. split; [by vm_compute|].
  pose proof (probe_safe (8 * SECOND) 4 0 busy_sample (Some (f_of 50)) busy_state busy_ok eq_refl) as Hp.
  cbv zeta in Hp. assert (limit_of (observe (8 * SECOND) 4 0 (Some busy_sample) (Some (f_of 50)) busy_state) = 8) as E
    by by vm_compute.
  rewrite E in Hp. destruct Hp as (_ & _ & _ & _ & _ & _ & _ & _ & Hl & _); [by vm_compute|exact Hl].
Defined.

Definition sample_pool : ForkPoolRecord :=
  MkPool (bs "p") (bs "g") 6 None true (Some 0) false false 60 60 0 false.
Definition sample_registry : AdmissionRegistry := ensure_pools [(sample_pool, 0, 0)] 0 registry_default.

Lemma sample_obs_ok : obs_ok [(sample_pool, 0, 0)].
Proof.
  split; [by repeat constructor|]. intros device. unfold auto_on. cbn [List.filter].
  destruct (on_device device _); by vm_compute.
Qed.

Lemma admission_bounded_witness :
  (limit 0 sample_pool sample_registry).1 = Some (MkLimit 2 2)
  /\ forall device d, devices sample_registry !! device = Some d -> adm_ok (admission d).
Proof.
  split; [by vm_compute|]. apply (admission_bounded sample_registry).
  eapply rtc_once. apply (step_tick [(sample_pool, 0, 0)] None None 0 false registry_default sample_obs_ok).
Defined.
End AdmissionProps.
