(* ===== verification/PoolCtl.v ===== *)
(** * PoolCtl: the controller of the fork pools (src/api/pool_controller.rs)

    The controller is asynchronous: between any two of its database
    transactions other tasks run theirs, a transaction may fail, and the host
    answers (clock, processes, forks, deletions) are not the controller's to
    choose. So its functions are programs: trees whose nodes are one
    transaction, one section under a lock, or one question to the host. A
    schedule answers each node and says what the others did just before it.
    Waiting is not modelled: neither the timer, nor the lifecycle lock of the
    golden that a fill holds, nor the boot semaphore. *)

From S2P Require Import Prelude RustStr ForkPool Admission.

(** ** Programs and their environment *)

Module Proc.
Import Str Pool Admission.

(** What the tasks of the process share outside the database:
    [retained_snapshots], the admission registry, the node's device report, and
    the provisioning counters as the list of their increments. *)
Record Shared := MkShared {
  retained : gmap bytes bytes;
  admission : AdmissionRegistry;
  cuda_devices : option (list GpuDeviceSample);
  provisions : list (bytes * bytes);
}.
Record World := MkWorld { db : Db; shared : Shared }.

(** What the others can do: a transaction, a change of a machine's record, a
    section under one of the locks. *)
Inductive EnvStep :=
| EnvOp (op : PoolOp)
| EnvVm (name : bytes) (record : option (option VmRecord))
| EnvShared (f : Shared -> Shared).

(** A blocking call fails in the database or by losing its task. *)
Inductive Fault := DbFault (e : bytes) | TaskFault (e : bytes).
Definition fault_str (f : Fault) : bytes := match f with DbFault e | TaskFault e => e end.

(** A batch of forks as [fork_held_machines_inner] delivers it: the results
    sent before and after the checkpoint is announced, and the final outcome
    with the snapshot to retain. A result is whether the worker is held. *)
Record Batch := MkBatch {
  b_before : list (bytes * result bool bytes);
  b_snapshot : option bytes;
  b_after : list (bytes * result bool bytes);
  b_outcome : result (option bytes) bytes;
}.

Inductive DeleteOne := DeleteOk | DeleteNotFound | DeleteFailed.

(** What one fill attempt produced. *)
Record FillStats := MkStats { ready : Z; failed : Z }.
Inductive FillResult := Joined (pool : bytes) (stats : FillStats) | Panicked (pool : bytes).

Record Move := MkMove {
  interference : list EnvStep;
  fault : option Fault;
  timestamp : Z;
  instant : Z;
  our_process : Z -> option Z -> bool;
  short_id : bytes;
  delete_one : DeleteOne;
  gpu_devices : option (list GpuDeviceSample);
  proc_stat : option bytes;
  batch : list bytes -> Batch;
  finished : list FillResult;
}.

Inductive prog (A : Type) : Type :=
| Ret (a : A)
| Tx (B : Type) (op : PoolOp) (out : Db -> B) (k : result B Fault -> prog A)
| Read (B : Type) (q : Db -> result B bytes) (k : result B Fault -> prog A)
| Upd (B : Type) (f : Shared -> B * Shared) (k : B -> prog A)
| Ask (B : Type) (q : Move -> B) (k : B -> prog A).
Arguments Ret {A} a.
Arguments Tx {A B} op out k.
Arguments Read {A B} q k.
Arguments Upd {A B} f k.
Arguments Ask {A B} q k.

Fixpoint bind {A B} (p : prog A) (f : A -> prog B) : prog B :=
  match p with
  | Ret a => f a
  | Tx op out k => Tx op out (fun r => bind (k r) f)
  | Read q k => Read q (fun r => bind (k r) f)
  | Upd g k => Upd g (fun r => bind (k r) f)
  | Ask q k => Ask q (fun r => bind (k r) f)
  end.

Notation "'do' x ':=' p 'in' k" := (bind p (fun x => k))
  (at level 10, x pattern, p at level 200, k at level 200,
   format "'[v' 'do'  x  ':='  p  'in' '/' k ']'") : rust_scope.
(** [p?]. *)
Notation "'try' x ':=' p 'in' k" :=
  (bind p (fun r => match r with Ok x => k | Err e => Ret (Err e) end))
  (at level 10, x pattern, p at level 200, k at level 200,
   format "'[v' 'try'  x  ':='  p  'in' '/' k ']'") : rust_scope.

Definition map_fault {B} (r : result B Fault) : result B bytes :=
  match r with Ok b => Ok b | Err f => Err (fault_str f) end.
Definition transact {B} (op : PoolOp) (out : Db -> B) : prog (result B Fault) := Tx op out Ret.
(** A transaction and a query with their errors as strings. *)
Definition exec_op {B} (op : PoolOp) (out : Db -> B) : prog (result B bytes) :=
  Tx op out (fun r => Ret (map_fault r)).
Definition query {B} (q : Db -> result B bytes) : prog (result B bytes) :=
  Read q (fun r => Ret (map_fault r)).
Definition locked {B} (f : Shared -> B * Shared) : prog B := Upd f Ret.
Definition ask {B} (q : Move -> B) : prog B := Ask q Ret.

(** [for x in l { f(x)?; } Ok(())]. *)
Fixpoint for_each {X} (l : list X) (f : X -> prog (result unit bytes)) : prog (result unit bytes) :=
  match l with
  | [] => Ret (Ok tt)
  | x :: l => try _ := f x in for_each l f
  end.

(** ** Runs

    [others] restricts what the other tasks may do: a step of theirs that it
    forbids in the present database does not happen. *)

Definition env_step (others : Db -> PoolOp -> bool) (w : World) (s : EnvStep) : World :=
  match s with
  | EnvOp op => if others (db w) op then MkWorld (run_op op (db w)) (shared w) else w
  | EnvVm name (Some r) => MkWorld (with_vms (insert name r) (db w)) (shared w)
  | EnvVm name None => MkWorld (with_vms (delete name) (db w)) (shared w)
  | EnvShared f => MkWorld (db w) (f (shared w))
  end.
Definition interfere (others : Db -> PoolOp -> bool) (steps : list EnvStep) (w : World) : World :=
  foldl (env_step others) w steps.

Record Outcome (A : Type) := MkOutcome {
  value : A;
  time : nat;
  world : World;
  committed : list (Db * PoolOp);
}.
Arguments MkOutcome {A}.
Arguments value {A}.
Arguments time {A}.
Arguments world {A}.
Arguments committed {A}.

Definition Schedule : Type := nat -> World -> Move.

(** A run: its value, the final world, and every transaction the program
    itself committed, with the database it committed to. *)
Fixpoint exec {A} (others : Db -> PoolOp -> bool) (sched : Schedule) (p : prog A) (n : nat) (w : World) :
    Outcome A :=
  let mv := sched n w in
  let w1 := interfere others (interference mv) w in
  match p with
  | Ret a => MkOutcome a n w []
  | Tx op out k =>
      match fault mv with
      | Some f => exec others sched (k (Err f)) (S n) w1
      | None =>
          let o := exec others sched (k (Ok (out (db w1)))) (S n) (MkWorld (run_op op (db w1)) (shared w1)) in
          MkOutcome (value o) (time o) (world o) ((db w1, op) :: committed o)
      end
  | Read q k =>
      match fault mv with
      | Some f => exec others sched (k (Err f)) (S n) w1
      | None =>
          exec others sched (k match q (db w1) with Ok b => Ok b | Err e => Err (DbFault e) end) (S n) w1
      end
  | Upd f k => let (b, s) := f (shared w1) in exec others sched (k b) (S n) (MkWorld (db w1) s)
  | Ask q k => exec others sched (k (q mv)) (S n) w1
  end.

End Proc.

(** ** The controller *)

Module Ctl.
Import Str Pat Pool Admission Proc.

Definition MAX_PREPARED_POOL_WORKERS : nat := 32.
Definition MAX_VM_NAME_LENGTH : Z := 128.

Definition provision_failure_reason (message : bytes) : bytes :=
  if contains_str (bs "Failure during vcpu run: Cannot allocate memory (os error 12)") message
  then bs "kvm_enomem"
  else if contains_str (bs "clone agent did not respond to ping within timeout") message
  then bs "agent_timeout"
  else if contains_str (bs "CUDA clone worker failed during reconstruction") message
  then bs "cuda_reconstruction"
  else bs "other".
Definition record_provision (status reason : bytes) : prog unit :=
  locked (fun s => (tt, MkShared (retained s) (admission s) (cuda_devices s)
                          (provisions s ++ [(status, reason)]))).

(** Seconds. *)
Definition MAX_FILL_BACKOFF : Z := 60.
Definition fill_backoff (consecutive_failures : Z) : Z :=
  Z.min (Z.shiftl 1 (Z.min consecutive_failures 6)) MAX_FILL_BACKOFF.

Definition is_stale_checkpoint_failure (detail : bytes) : bool :=
  contains_str (bs "restore checkpoint from") detail || contains_str (bs "cow-map guest memory") detail.

(** The tasks of [fills] by the pool they fill, [filling], [fill_backoff] as
    consecutive failures and the instant to wait for, and [host_cpu]. *)
Record ForkPoolController := MkCtl {
  fills : list ForkPoolRecord;
  filling : gset bytes;
  backoff : gmap bytes (Z * Z);
  host_cpu : HostCpuSampler;
}.

Definition with_retained (f : gmap bytes bytes -> gmap bytes bytes) (s : Shared) : Shared :=
  MkShared (f (retained s)) (admission s) (cuda_devices s) (provisions s).
Definition with_admission (f : AdmissionRegistry -> AdmissionRegistry) (s : Shared) : Shared :=
  MkShared (retained s) (f (admission s)) (cuda_devices s) (provisions s).

(** [ForkPoolController::new]: the checkpoints an earlier process retained. *)
Definition new : prog ForkPoolController :=
  do r := query (fun d => Ok (list_retained_fork_snapshots d)) in
  do _ := locked (fun s =>
    (tt, with_retained (fun _ => match r with Ok l => list_to_map l | Err _ => ∅ end) s)) in
  Ret (MkCtl [] ∅ ∅ None).

(** *** Records of workers *)

Definition is_process_alive (procs : Z -> option Z -> bool) (vm : VmRecord) : bool :=
  match vm_pid vm with Some pid => procs pid (pid_start_time vm) | None => false end.

Definition get_vm (name : bytes) (d : Db) : result (option VmRecord) bytes :=
  match vms d !! name with
  | None => Ok None
  | Some (Some vm) => Ok (Some vm)
  | Some None => Err (bs "deserialize vm record")
  end.
(** The names of [list_vms], which decodes every record. *)
Definition list_vms (d : Db) : result (list bytes) bytes :=
  if forallb (fun kv => bool_decide (is_Some kv.2)) (map_to_list (vms d))
  then Ok (map fst (order_by_key (map_to_list (vms d))))
  else Err (bs "deserialize vm record").

(** A live held fork of the pool's golden. *)
Definition held_worker (procs : Z -> option Z -> bool) (golden : bytes) (vm : option VmRecord) : bool :=
  match vm with
  | Some vm => forkpoint_held vm && bool_decide (vm_golden vm = Some golden) && is_process_alive procs vm
  | None => false
  end.
Definition leased_worker_is_live (procs : Z -> option Z -> bool) (vm : VmRecord) : bool :=
  is_process_alive procs vm || bool_decide (vm_state vm ∈ [Paused; Pausing]).

(** The slots of one pool that are in one state. *)
Definition slots_in (st : ForkPoolSlotState) (slots : list ForkPoolSlotRecord) : list ForkPoolSlotRecord :=
  List.filter (fun s => bool_decide (s_state s = st)) slots.

(** *** Recovery *)

Definition recover_slot (pool : ForkPoolRecord) (slot : ForkPoolSlotRecord) : prog (result unit bytes) :=
  try vm := query (get_vm (s_machine_name slot)) in
  do procs := ask our_process in
  do now := ask timestamp in
  if held_worker procs (p_golden pool) vm then
    try _ := exec_op (OpReady (s_machine_name slot) now)
               (fun d => (mark_fork_pool_slot_ready (s_machine_name slot) now d).1) in
    Ret (Ok tt)
  else
    let reason := Some (bs "controller restarted during worker provisioning") in
    try _ := exec_op (OpRetireFrom (s_machine_name slot) Provisioning now reason)
               (fun d => (mark_fork_pool_slot_retiring_from (s_machine_name slot) Provisioning now reason d).1) in
    Ret (Ok tt).

Definition recover_interrupted_provisioning : prog (result unit bytes) :=
  try pools := query (fun d => Ok (list_fork_pools d)) in
  for_each pools (fun pool =>
    try slots := query (fun d => Ok (list_fork_pool_slots (p_name pool) d)) in
    for_each (slots_in Provisioning slots) (recover_slot pool)).

(** *** Reconciliation *)

Definition check_ready_slot (pool : ForkPoolRecord) (slot : ForkPoolSlotRecord) : prog (result unit bytes) :=
  try vm := query (get_vm (s_machine_name slot)) in
  do procs := ask our_process in
  if held_worker procs (p_golden pool) vm then Ret (Ok tt)
  else
    do now := ask timestamp in
    let reason := Some (bs "ready worker is missing, dead, or no longer held") in
    try _ := exec_op (OpRetireFrom (s_machine_name slot) Ready now reason)
               (fun d => (mark_fork_pool_slot_retiring_from (s_machine_name slot) Ready now reason d).1) in
    Ret (Ok tt).

Definition retire_invalid_ready_workers : prog (result unit bytes) :=
  try pools := query (fun d => Ok (list_fork_pools d)) in
  for_each pools (fun pool =>
    try slots := query (fun d => Ok (list_fork_pool_slots (p_name pool) d)) in
    for_each (slots_in Ready slots) (check_ready_slot pool)).

Definition delete_retired_worker (slot : ForkPoolSlotRecord) : prog (result unit bytes) :=
  do r := ask delete_one in
  match r with
  | DeleteOk | DeleteNotFound =>
      try _ := exec_op (OpRemoveSlot (s_machine_name slot))
                 (fun d => (remove_fork_pool_slot (s_machine_name slot) d).1) in
      Ret (Ok tt)
  | DeleteFailed => Ret (Ok tt)
  end.
Definition delete_retired_workers : prog (result unit bytes) :=
  try slots := query (fun d => Ok (list_retiring_fork_pool_slots d)) in
  for_each slots delete_retired_worker.

Definition check_lease (lease : ForkLeaseRecord) : prog (result unit bytes) :=
  try vm := query (get_vm (l_machine_name lease)) in
  do procs := ask our_process in
  if match vm with Some vm => leased_worker_is_live procs vm | None => false end then Ret (Ok tt)
  else
    do now := ask timestamp in
    try _ := exec_op (OpFailActive (l_id lease) now (bs "leased worker process exited"))
               (fun d => (fail_active_fork_lease (l_id lease) now (bs "leased worker process exited") d).1) in
    Ret (Ok tt).
Definition retire_dead_leased_workers : prog (result unit bytes) :=
  try leases := query (fun d => Ok (list_active_fork_leases d)) in
  for_each leases check_lease.

(** The stale keys, and the map without them. *)
Definition retain_existing_checkpoint_sources (sources : gset bytes) (snapshots : gmap bytes bytes) :
    list bytes * gmap bytes bytes :=
  (List.filter (fun g => negb (bool_decide (g ∈ sources))) (map fst (map_to_list snapshots)),
   filter (fun kv => kv.1 ∈ sources) snapshots).

(** The cleanup's own errors are only logged. *)
Fixpoint remove_snapshots (stale : list bytes) : prog unit :=
  match stale with
  | [] => Ret tt
  | golden :: stale =>
      do _ := transact (OpRemoveSnapshot golden) (fun d => (remove_retained_fork_snapshot golden d).1) in
      remove_snapshots stale
  end.

(** [reconcile_once] up to the list of pools it goes on with. *)
Definition sweep : prog (result (list ForkPoolRecord) bytes) :=
  do now := ask timestamp in
  try _ := exec_op (OpExpire now) (fun d => (expire_fork_leases now d).1) in
  try _ := retire_invalid_ready_workers in
  try _ := retire_dead_leased_workers in
  try _ := delete_retired_workers in
  try _ := exec_op OpFinalize (fun d => (finalize_deleted_fork_pools d).1) in
  try pools := query (fun d => Ok (list_fork_pools d)) in
  try names := query list_vms in
  do stale := locked (fun s =>
    let (stale, kept) := retain_existing_checkpoint_sources (list_to_set names) (retained s) in
    (stale, with_retained (fun _ => kept) s)) in
  do _ := remove_snapshots stale in
  Ret (Ok pools).

Fixpoint observations (pools : list ForkPoolRecord) : prog (result (list Observation) bytes) :=
  match pools with
  | [] => Ret (Ok [])
  | pool :: pools =>
      try counts := query (fun d => Ok (fork_pool_admission_counts (p_name pool) d)) in
      try rest := observations pools in
      Ret (Ok ((pool, counts.1, counts.2) :: rest))
  end.

Definition gpu_samples (devices : list GpuDeviceSample) : gmap Z GpuSample :=
  foldl (fun m d => <[ds_device_ordinal d := admission_sample d]> m) ∅ devices.

(** The gauges it publishes are not modelled. *)
Definition update_admission (pools : list ForkPoolRecord) (sample : bool) (c : ForkPoolController) :
    prog (ForkPoolController * result unit bytes) :=
  do devices := (if sample then ask gpu_devices else Ret None) in
  do _ := (if sample
           then locked (fun s => (tt, MkShared (retained s) (admission s) devices (provisions s)))
           else Ret tt) in
  do stat := (if sample then ask proc_stat else Ret None) in
  let (cpu, sampler) := if sample then cpu_sample stat (host_cpu c) else (None, host_cpu c) in
  let c := MkCtl (fills c) (filling c) (backoff c) sampler in
  do os := observations (List.filter (fun p => negb (deleting p)) pools) in
  match os with
  | Err e => Ret (c, Err e)
  | Ok os =>
      do now := ask instant in
      do _ := locked (fun s =>
        (tt, with_admission
               (if sample then observe_pools os (gpu_samples <$> devices) cpu now else ensure_pools os now) s)) in
      Ret (c, Ok tt)
  end.

Definition backing_off (now : Z) (name : bytes) (c : ForkPoolController) : bool :=
  match backoff c !! name with Some (_, until) => now <? until | None => false end.

(** The loop over the pools: start a fill for each that needs one. *)
Fixpoint schedule_fills (now : Z) (pools : list ForkPoolRecord) (c : ForkPoolController) :
    prog (ForkPoolController * result unit bytes) :=
  match pools with
  | [] => Ret (c, Ok tt)
  | pool :: pools =>
      if bool_decide (p_name pool ∈ filling c) then schedule_fills now pools c
      else if backing_off now (p_name pool) c then schedule_fills now pools c
      else
        do deficit := query (fun d => Ok (fork_pool_ready_deficit (p_name pool) d)) in
        match deficit with
        | Err e => Ret (c, Err e)
        | Ok deficit =>
            schedule_fills now pools
              (if deficit >? 0
               then MkCtl (fills c ++ [pool]) ({[p_name pool]} ∪ filling c) (backoff c) (host_cpu c)
               else c)
        end
  end.

Definition forget_backoff (pools : list ForkPoolRecord) (c : ForkPoolController) : ForkPoolController :=
  MkCtl (fills c) (filling c) (filter (fun kv => kv.1 ∈ map p_name pools) (backoff c)) (host_cpu c).

Definition reconcile_once (sample : bool) (c : ForkPoolController) :
    prog (ForkPoolController * result unit bytes) :=
  do r := sweep in
  match r with
  | Err e => Ret (c, Err e)
  | Ok pools =>
      do r := update_admission pools sample c in
      match r with
      | (c, Err e) => Ret (c, Err e)
      | (c, Ok _) =>
          do now := ask instant in
          schedule_fills now (List.filter (fun p => negb (deleting p)) pools) (forget_backoff pools c)
      end
  end.

(** *** Finished fills *)

(** [handle_fill_task] of a task that [JoinSet] has removed from [fills]. *)
Definition handle_fill_task (now : Z) (r : FillResult) (c : ForkPoolController) : ForkPoolController :=
  match r with
  | Joined pool stats =>
      let filling := filling c ∖ {[pool]} in
      if ready stats >? 0 then MkCtl (fills c) filling (delete pool (backoff c)) (host_cpu c)
      else if failed stats >? 0 then
        let failures := match backoff c !! pool with Some (n, _) => n | None => 0 end + 1 in
        MkCtl (fills c) filling (<[pool := (failures, now + fill_backoff failures * SECOND)]> (backoff c))
          (host_cpu c)
      else MkCtl (fills c) filling (backoff c) (host_cpu c)
  | Panicked _ => MkCtl (fills c) ∅ (backoff c) (host_cpu c)
  end.

Definition result_pool (r : FillResult) : bytes := match r with Joined p _ | Panicked p => p end.
Fixpoint remove_task (pool : bytes) (tasks : list ForkPoolRecord) : list ForkPoolRecord :=
  match tasks with
  | [] => []
  | t :: tasks => if bool_decide (p_name t = pool) then tasks else t :: remove_task pool tasks
  end.
Definition join_task (r : FillResult) (c : ForkPoolController) : ForkPoolController :=
  MkCtl (remove_task (result_pool r) (fills c)) (filling c) (backoff c) (host_cpu c).

Fixpoint reap_results (rs : list FillResult) (c : ForkPoolController) : prog ForkPoolController :=
  match rs with
  | [] => Ret c
  | r :: rs => do now := ask instant in reap_results rs (handle_fill_task now r (join_task r c))
  end.
Definition reap_fill_tasks (c : ForkPoolController) : prog ForkPoolController :=
  do rs := ask finished in reap_results rs c.

(** *** The loop *)

Inductive Event :=
| Tick
| Notified
| FillDone (r : FillResult)
| ShutdownChanged (closed requested : bool).

Fixpoint run_events (events : list Event) (c : ForkPoolController) : prog ForkPoolController :=
  match events with
  | [] => Ret c
  | Tick :: events =>
      do c := reap_fill_tasks c in
      do r := reconcile_once true c in
      run_events events r.1
  | Notified :: events =>
      do c := reap_fill_tasks c in
      do r := reconcile_once false c in
      run_events events r.1
  | FillDone r :: events =>
      do now := ask instant in
      do r := reconcile_once false (handle_fill_task now r (join_task r c)) in
      run_events events r.1
  | ShutdownChanged closed requested :: events =>
      if closed || requested then Ret (MkCtl [] (filling c) (backoff c) (host_cpu c))
      else run_events events c
  end.

Definition run (events : list Event) (c : ForkPoolController) : prog ForkPoolController :=
  do _ := recover_interrupted_provisioning in run_events events c.

(** *** Filling a pool *)

Definition worker_name (pool suffix : bytes) : bytes :=
  let max_prefix := MAX_VM_NAME_LENGTH - len (bs "pool--") - len suffix in
  bs "pool-" ++ take (Z.to_nat (Z.min (len pool) max_prefix)) pool ++ bs "-" ++ suffix.

(** The reservation loop: it stops at the first worker not reserved. *)
Fixpoint reserve_workers (n : nat) (pool : bytes) (machines : list bytes) : prog (list bytes) :=
  match n with
  | O => Ret machines
  | S n =>
      do suffix := ask short_id in
      let machine := worker_name pool suffix in
      do now := ask timestamp in
      do r := transact (OpReserve pool machine now) (fun d => (reserve_fork_pool_slot pool machine now d).1) in
      match r with
      | Ok true => reserve_workers n pool (machines ++ [machine])
      | _ => Ret machines
      end
  end.

(** The durable record replaces the copy in memory. *)
Definition sync_retained (golden : bytes) : prog unit :=
  do r := query (fun d => Ok (retained_fork_snapshot golden d)) in
  match r with
  | Ok (Some snapshot) => locked (fun s => (tt, with_retained (insert golden snapshot) s))
  | Ok None => locked (fun s => (tt, with_retained (delete golden) s))
  | Err _ => Ret tt
  end.

Definition update_retained_snapshot (golden : bytes) (prior_hint proven : option bytes)
    (snapshots : gmap bytes bytes) : gmap bytes bytes :=
  match proven with
  | Some snapshot => <[golden := snapshot]> snapshots
  | None => if bool_decide (snapshots !! golden = prior_hint) then delete golden snapshots else snapshots
  end.

(** Its own error is dropped. *)
Definition retire_failed_provision (machine message : bytes) : prog unit :=
  do now := ask timestamp in
  do _ := transact (OpRetire machine now (Some message))
            (fun d => (mark_fork_pool_slot_retiring machine now (Some message) d).1) in
  Ret tt.

(** Why the worker is retired; [None] when it is ready. *)
Definition retirement_reason (machine : bytes) (r : result bool bytes) : prog (option bytes) :=
  match r with
  | Ok true =>
      do now := ask timestamp in
      do marked := transact (OpReady machine now) (fun d => (mark_fork_pool_slot_ready machine now d).1) in
      match marked with
      | Ok true => do _ := record_provision (bs "ready") (bs "none") in Ret None
      | Ok false =>
          do _ := record_provision (bs "failed") (bs "pool_changed") in
          Ret (Some (bs "pool changed while worker was provisioning"))
      | Err (DbFault e) => do _ := record_provision (bs "failed") (bs "state") in Ret (Some e)
      | Err (TaskFault e) => do _ := record_provision (bs "failed") (bs "state_task") in Ret (Some e)
      end
  | Ok false =>
      do _ := record_provision (bs "failed") (bs "not_held") in
      Ret (Some (bs "forked pool worker was not held"))
  | Err detail =>
      do _ := record_provision (bs "failed") (provision_failure_reason detail) in
      Ret (Some detail)
  end.

Definition finish_provision (machine : bytes) (r : result bool bytes) : prog (option bytes) :=
  do reason := retirement_reason machine r in
  match reason with
  | None => Ret None
  | Some reason => do _ := retire_failed_provision machine reason in Ret (Some reason)
  end.

(** [process_results]: the workers that reported, the counts, and whether a
    failure names a stale checkpoint. *)
Record Progress := MkProgress { completed : list bytes; stats : FillStats; stale_checkpoint : bool }.

Definition note_result (machine : bytes) (r : option bytes) (a : Progress) : Progress :=
  let s := stats a in
  match r with
  | None => MkProgress (machine :: completed a) (MkStats (ready s + 1) (failed s)) (stale_checkpoint a)
  | Some detail =>
      MkProgress (machine :: completed a) (MkStats (ready s) (failed s + 1))
        (stale_checkpoint a || is_stale_checkpoint_failure detail)
  end.
Fixpoint process_results (results : list (bytes * result bool bytes)) (a : Progress) : prog Progress :=
  match results with
  | [] => Ret a
  | (machine, r) :: results =>
      do f := finish_provision machine r in process_results results (note_result machine f a)
  end.

(** The workers of a failed batch that never reported. *)
Fixpoint retire_unreported (machines done_ : list bytes) (error : bytes) (s : FillStats) : prog FillStats :=
  match machines with
  | [] => Ret s
  | machine :: machines =>
      if bool_decide (machine ∈ done_) then retire_unreported machines done_ error s
      else
        do _ := record_provision (bs "failed") (bs "batch") in
        do _ := retire_failed_provision machine error in
        retire_unreported machines done_ error (MkStats (ready s) (failed s + 1))
  end.

Definition publish (golden : bytes) (hint proven : option bytes) : prog unit :=
  locked (fun s => (tt, with_retained (update_retained_snapshot golden hint proven) s)).

(** What follows the batch's last result. *)
Definition conclude_batch (golden : bytes) (machines : list bytes) (hint : option bytes) (b : Batch)
    (a : Progress) : prog FillStats :=
  do s := match b_outcome b with
          | Ok snapshot =>
              do _ := match b_snapshot b with None => publish golden hint snapshot | Some _ => Ret tt end in
              Ret (stats a)
          | Err error => retire_unreported machines (completed a) error (stats a)
          end in
  do _ := (if stale_checkpoint a then
             do _ := locked (fun s => (tt, with_retained (delete golden) s)) in
             do _ := transact (OpRemoveSnapshot golden) (fun d => (remove_retained_fork_snapshot golden d).1) in
             Ret tt
           else Ret tt) in
  Ret s.

Definition fill_pool (pool : ForkPoolRecord) : prog FillStats :=
  do machines := reserve_workers MAX_PREPARED_POOL_WORKERS (p_name pool) [] in
  match machines with
  | [] => Ret (MkStats 0 0)
  | _ =>
      do _ := sync_retained (p_golden pool) in
      do hint := locked (fun s => (retained s !! p_golden pool, s)) in
      do b := ask (fun mv => batch mv machines) in
      do a := process_results (b_before b) (MkProgress [] (MkStats 0 0) false) in
      do _ := match b_snapshot b with
              | Some snapshot => publish (p_golden pool) hint (Some snapshot)
              | None => Ret tt
              end in
      do a := process_results (b_after b) a in
      conclude_batch (p_golden pool) machines hint b a
  end.

End Ctl.
