(* ===== verification/PoolCoupling.v ===== *)
(** * PoolCoupling: leases and the workers they hold

    The tables of the fork pool keep more than each row's consistency: a live
    lease and the slot of its machine always agree. Two transactions
    (retiring a slot whatever its state, removing a slot) would break this if
    they were called at the wrong moment; [permitted] says when each
    transaction may run, and every permitted transaction keeps the agreement. *)

From S2P Require Import Prelude RustStr ForkPool ForkPoolFacts ForkPoolClaim ForkPoolProps.

Module Coupling.
Import Str Pool PoolFacts ClaimFacts OpFacts HistoryFacts.

Definition busy (s : ForkPoolSlotState) : bool :=
  match s with SlotActivating | Leased => true | _ => false end.
Definition in_use (o : option SlotRow) : bool :=
  match o with Some row => busy (s_state (sr_data row)) | None => false end.

Definition slot_state (m : bytes) (d : Db) : option ForkPoolSlotState :=
  (fun row => s_state (sr_data row)) <$> slots d !! m.

(** The slot state that goes with a lease's. *)
Definition worker_state (l : ForkLeaseState) : ForkPoolSlotState :=
  match l with Activating => SlotActivating | Active => Leased | _ => Retiring end.

Record coupled (d : Db) : Prop := {
  cp_lease : forall i l, leases d !! i = Some l -> terminal (l_state (lr_data l)) = false ->
    exists s, slots d !! l_machine_name (lr_data l) = Some s /\ sr_pool s = lr_pool l
      /\ s_lease_id (sr_data s) = Some i /\ s_state (sr_data s) = worker_state (l_state (lr_data l));
  cp_slot : forall m s, slots d !! m = Some s -> busy (s_state (sr_data s)) = true ->
    exists i l, s_lease_id (sr_data s) = Some i /\ leases d !! i = Some l
      /\ terminal (l_state (lr_data l)) = false /\ l_machine_name (lr_data l) = m;
}.

(** When a transaction may run. *)
Definition permitted (d : Db) (op : PoolOp) : bool :=
  match op with
  | OpRetireFrom _ expected _ _ => bool_decide (expected ∈ [Provisioning; Ready])
  | OpRetire m _ _ => negb (in_use (slots d !! m))
  | OpRemoveSlot m =>
      match slots d !! m with
      | Some row => bool_decide (s_state (sr_data row) = Retiring)
      | None => true
      end
  | _ => true
  end.

Lemma in_use_state m d :
  in_use (slots d !! m) = match slot_state m d with Some s => busy s | None => false end.
Proof. unfold slot_state. by destruct (slots d !! m). Qed.
Lemma slot_state_same m d d' : slots d' !! m = slots d !! m -> slot_state m d' = slot_state m d.
Proof. unfold slot_state. by intros ->. Qed.
Lemma slot_state_write m j data st d :
  slot_state j (update_slot m data st d)
  = if decide (j = m) then (fun _ => s_state data) <$> slots d !! m else slot_state j d.
Proof.
  unfold slot_state. case_decide as E; [subst|by rewrite update_slot_lookup_ne].
  rewrite update_slot_lookup. by destruct (slots d !! m).
Qed.

(** ** Transactions that leave the workers in use alone *)

Lemma coupled_slots d d' :
  coupled d -> leases d' = leases d ->
  (forall m, in_use (slots d !! m) = true \/ in_use (slots d' !! m) = true ->
     slots d' !! m = slots d !! m) ->
  coupled d'.
Proof.
  intros [HL HS] El Hu. constructor.
  - intros i l. rewrite El. intros Hi Ht. destruct (HL i l Hi Ht) as (s & Hs & Hp & Hid & Hst).
    exists s. rewrite Hu; [done|]. left. rewrite Hs. cbn [in_use]. rewrite Hst.
    by destruct (l_state (lr_data l)).
  - intros m s Hm Hb. rewrite El. apply HS; [|done]. rewrite <-Hu; [done|]. right. by rewrite Hm.
Qed.

(** One slot rewritten, from a state not in use to a state not in use. *)
Lemma coupled_update_slot m data st d :
  coupled d -> in_use (slots d !! m) = false -> busy (s_state data) = false ->
  coupled (update_slot m data st d).
Proof.
  intros Hc Hm Hb. apply (coupled_slots d); [done|done|]. intros j.
  destruct (decide (j = m)) as [->|Hne]; [|by rewrite update_slot_lookup_ne].
  rewrite update_slot_lookup. destruct (slots d !! m); [|done]. cbn [fmap option_fmap option_map in_use sr_data].
  rewrite Hb. cbn [in_use] in Hm. rewrite Hm. intros []; done.
Qed.

(** ** Transactions on a lease *)

(** Lease [i] and the slot of its machine move together. *)
Lemma coupled_lease d d' i l l' s s' :
  coupled d -> leases d !! i = Some l -> terminal (l_state (lr_data l)) = false ->
  leases d' !! i = Some l' -> lr_pool l' = lr_pool l -> l_machine_name (lr_data l') = l_machine_name (lr_data l) ->
  (forall j, j <> i -> leases d' !! j = leases d !! j) ->
  slots d !! l_machine_name (lr_data l) = Some s -> slots d' !! l_machine_name (lr_data l) = Some s' ->
  sr_pool s' = sr_pool s -> s_lease_id (sr_data s') = s_lease_id (sr_data s) ->
  s_state (sr_data s') = worker_state (l_state (lr_data l')) ->
  (forall m, m <> l_machine_name (lr_data l) -> slots d' !! m = slots d !! m) ->
  coupled d'.
Proof.
  intros [HL HS] Hi Ht Hi' Hp Hm Hj Hs Hs' Ep Eid Est Hf.
  destruct (HL i l Hi Ht) as (s0 & E & Hsp & Hsid & _). rewrite Hs in E. inv E.
  constructor.
  - intros j lj Hlj Htj. destruct (decide (j = i)) as [->|Hne].
    + rewrite Hi' in Hlj. inv Hlj. exists s'. rewrite Hm. repeat split; congruence.
    + rewrite Hj in Hlj by done. destruct (HL j lj Hlj Htj) as (sj & Hsj & Hrest).
      exists sj. rewrite Hf; [done|]. intros E. rewrite E, Hs in Hsj. inv Hsj.
      destruct Hrest as (_ & Hidj & _). congruence.
  - intros m sm Hsm Hb. destruct (decide (m = l_machine_name (lr_data l))) as [->|Hne].
    + rewrite Hs' in Hsm. inv Hsm. exists i, l'. split; [congruence|]. split; [done|]. split; [|done].
      rewrite Est in Hb. by destruct (l_state (lr_data l')).
    + rewrite Hf in Hsm by done. destruct (HS m sm Hsm Hb) as (k & lk & H1 & H2 & H3 & H4).
      exists k, lk. rewrite Hj; [done|]. intros ->. congruence.
Qed.

Lemma coupled_transition i expected next slot_next now error d :
  good d -> coupled d -> terminal expected = false -> slot_next = worker_state next ->
  coupled (transition_fork_lease i expected next slot_next now error d).2.
Proof.
  intros Hg Hc Ht ->. unfold transition_fork_lease.
  destruct (leases d !! i) as [row|] eqn:Ei; [|done].
  case_bool_guard; [done|]. cbv zeta. cbn [snd].
  assert (Hst : l_state (lr_data row) = expected).
  { destruct (decide (l_state (lr_data row) = expected)); [done|]. by contradict E. }
  rewrite <-Hst in Ht. destruct (cp_lease d Hc i row Ei Ht) as (s & Hs & Hsp & Hsid & Hss).
  match goal with |- context [update_lease i ?l _ _] => set (lease := l) end.
  change (slots (update_lease i lease (lease_as_str next) d)) with (slots d).
  change (l_machine_name lease) with (l_machine_name (lr_data row)). rewrite Hs.
  eapply (coupled_lease d _ i row _ s); [done|done|done| | | | |done| | | | |].
  - cbn [update_slot with_slots leases]. by rewrite update_lease_lookup, Ei.
  - done.
  - done.
  - intros j Hj. cbn [update_slot with_slots leases]. by apply update_lease_lookup_ne.
  - rewrite update_slot_lookup. change (slots (update_lease _ _ _ d)) with (slots d). by rewrite Hs.
  - done.
  - done.
  - done.
  - intros m Hm. by rewrite update_slot_lookup_ne.
Qed.

Lemma coupled_heartbeat pool i now d :
  good d -> coupled d -> coupled (heartbeat_fork_lease pool i now d).2.
Proof.
  intros Hg Hc. unfold heartbeat_fork_lease. destruct (leases d !! i) as [row|] eqn:Ei; [|done].
  case_bool_guard; [|done]. case_bool_guard; [|done]. cbv zeta. cbn [snd]. bool_simpl.
  assert (Ht : terminal (l_state (lr_data row)) = false) by by rewrite H.
  destruct (cp_lease d Hc i row Ei Ht) as (s & Hs & Hsp & Hsid & Hss).
  eapply (coupled_lease d _ i row _ s s); [done|done|done| | | | |done|done|done|done| |done].
  - cbn [with_leases leases]. by rewrite lookup_alter_eq, Ei.
  - done.
  - done.
  - intros j Hj. cbn [with_leases leases]. by rewrite lookup_alter_ne.
  - cbn [lr_data set_lease l_state]. by rewrite Hss, H.
Qed.

(** ** Expiry *)

Lemma coupled_expire_step now acc d k x :
  good d -> coupled d -> leases d !! k = Some x -> lease_state_in live x = true ->
  coupled (expire_lease now (acc, d) (k, x)).2.
Proof.
  intros Hg Hc Hk Hl. unfold expire_lease. cbn [snd fst].
  destruct (l_expires_at (lr_data x) >? now); cbn [snd]; [done|]. cbv zeta. cbn [snd].
  pose proof (proj1 (proj2 Hg) _ _ Hk) as Hok. pose proof (live_row _ _ Hok Hl) as Ht.
  destruct (cp_lease d Hc k x Hk Ht) as (s & Hs & Hsp & Hsid & Hss).
  cbn [set_lease l_id l_machine_name]. rewrite (proj1 Hok).
  match goal with |- context [update_lease k ?l _ _] => set (lease := l) end.
  change (slots (update_lease k lease (bs "expired") d)) with (slots d). rewrite Hs.
  eapply (coupled_lease d _ k x _ s); [done|done|done| | | | |done| | | | |].
  - cbn [update_slot with_slots leases]. by rewrite update_lease_lookup, Hk.
  - done.
  - done.
  - intros j Hj. cbn [update_slot with_slots leases]. by apply update_lease_lookup_ne.
  - rewrite update_slot_lookup. change (slots (update_lease _ _ _ d)) with (slots d). by rewrite Hs.
  - done.
  - done.
  - done.
  - intros m Hm. by rewrite update_slot_lookup_ne.
Qed.

Lemma coupled_expire now d : good d -> coupled d -> coupled (expire_fork_leases now d).2.
Proof.
  intros Hg Hc. unfold expire_fork_leases.
  destruct (foldl_rows (fun s => leases s.2) (expire_lease now)
    (fun s => good s.2 /\ coupled s.2) (fun _ _ _ => True)
    (select (lease_state_in live) (leases d)) ([], d)) as [H _]; [| | | |apply H].
  - apply NoDup_select.
  - intros k x. rewrite elem_of_select. by intros [].
  - done.
  - intros [a e] k x [Hge Hce] Hkx Hk. cbn [snd] in *. apply elem_of_select in Hkx as [_ Hl].
    destruct (expire_step now a e k x) as (He & _ & _ & Hframe); [done..|].
    split; [split; [apply He|by apply coupled_expire_step]|]. done.
Qed.

(** ** The claim *)

(** The loop over the ready slots retires some of them and nothing else. *)
Lemma select_ready_frame golden now rows d :
  (forall k row, (k, row) ∈ rows -> s_state (sr_data row) = Ready) -> NoDup rows.*1 ->
  (forall k row, (k, row) ∈ rows -> slots d !! k = Some row) ->
  let d' := (select_ready golden now rows d).2 in
  leases d' = leases d
  /\ forall m, slots d' !! m = slots d !! m
       \/ (slot_state m d = Some Ready /\ slot_state m d' = Some Retiring).
Proof.
  intros Hr. revert d. induction rows as [|[k row] rows IH]; intros d Hnd Hin.
  { split; [done|]. by left. }
  cbn [fmap list_fmap fst] in Hnd. apply NoDup_cons in Hnd as [Hk Hnd].
  pose proof (Hin k row ltac:(left)) as Hrow. pose proof (Hr k row ltac:(left)) as Hready.
  cbn [select_ready]. set (d1 := update_slot k _ (bs "retiring") d).
  assert (Hrec : let d' := (select_ready golden now rows d1).2 in
    leases d' = leases d
    /\ forall m, slots d' !! m = slots d !! m
         \/ (slot_state m d = Some Ready /\ slot_state m d' = Some Retiring)).
  { destruct (IH (fun k r H => Hr k r (list_elem_of_further _ _ _ H)) d1) as [H1 H2]; [done| |].
    - intros j r Hj. unfold d1. rewrite update_slot_lookup_ne; [apply Hin; by right|].
      intros ->. apply Hk, list_elem_of_fmap. by exists (k, r).
    - split; [done|]. intros m. specialize (H2 m). destruct (decide (m = k)) as [->|Hne].
      + right. split; [unfold slot_state; rewrite Hrow; cbn; by rewrite Hready|].
        destruct H2 as [H2|[_ H2]]; [|done]. apply slot_state_same in H2. rewrite H2.
        unfold d1. rewrite slot_state_write, decide_True, Hrow by done. done.
      + destruct H2 as [H2|[H2 H3]]; [left|right; split; [|done]]; revert H2; unfold d1.
        * by rewrite update_slot_lookup_ne.
        * by rewrite slot_state_write, decide_False. }
  destruct (vms d !! k) as [[vm|]|]; [|apply Hrec..].
  case_bool_guard; [|apply Hrec]. split; [done|]. by left.
Qed.

Lemma claim_row_state pool d k row :
  good d -> (k, row) ∈ order_by_key (select (slot_in pool [Ready]) (slots d)) ->
  s_state (sr_data row) = Ready.
Proof.
  intros Hg H. apply claim_ready_rows in H as (H1 & _ & H2).
  pose proof (proj1 Hg _ _ H1) as (_ & _ & E). apply slot_as_str_inj. rewrite <-E. exact H2.
Qed.

(** A new lease takes a worker that is not in use. *)
Lemma coupled_take d d' i l m s s' :
  coupled d -> leases d !! i = None -> leases d' = <[i := l]> (leases d) ->
  l_machine_name (lr_data l) = m -> l_state (lr_data l) = Activating ->
  slots d !! m = Some s -> in_use (Some s) = false -> slots d' !! m = Some s' ->
  sr_pool s' = lr_pool l -> s_lease_id (sr_data s') = Some i -> s_state (sr_data s') = SlotActivating ->
  (forall j, j <> m -> slots d' !! j = slots d !! j) ->
  coupled d'.
Proof.
  intros [HL HS] Hi El Hm Hst Hs Hu Hs' Hp Hid Hss Hf. constructor.
  - intros j lj. rewrite El. destruct (decide (i = j)) as [<-|Hne].
    + rewrite lookup_insert_eq. intros [= <-] _. exists s'. rewrite Hm, Hst. done.
    + rewrite lookup_insert_ne by done. intros Hj Ht. destruct (HL j lj Hj Ht) as (sj & Hsj & Hrest).
      exists sj. rewrite Hf; [done|]. intros E. rewrite E, Hs in Hsj. inv Hsj.
      destruct Hrest as (_ & _ & E'). cbn [in_use] in Hu. rewrite E' in Hu. by destruct (l_state (lr_data lj)).
  - intros j sj Hj Hb. destruct (decide (j = m)) as [->|Hne].
    + rewrite Hs' in Hj. inv Hj. exists i, l. rewrite El, lookup_insert_eq. by rewrite Hst.
    + rewrite Hf in Hj by done. destruct (HS j sj Hj Hb) as (k & lk & H1 & H2 & H3).
      exists k, lk. rewrite El, lookup_insert_ne by congruence. done.
Qed.

Lemma coupled_claim c d : good d -> coupled d -> coupled (claim_fork_pool_slot c d).2.
Proof.
  intros Hg Hc. unfold claim_fork_pool_slot.
  destruct (find_by_key _ _ d); [done|]. destruct (pools d !! c_pool_name c) as [pool|]; [|done].
  destruct (deleting pool); [done|]. destruct (at_capacity c pool d); [done|].
  set (rows := order_by_key _).
  assert (Hin : forall k row, (k, row) ∈ rows -> slots d !! k = Some row)
    by (intros k row H; apply (claim_ready_rows _ _ _ _ H)).
  assert (Hnd : NoDup rows.*1) by apply NoDup_order_by_key, NoDup_select.
  destruct (select_ready_frame (p_golden pool) (c_now c) rows d) as [Hl Hf];
    [intros k row; by apply claim_row_state|done|done|].
  destruct (select_ready _ _ rows d) as [sel d1] eqn:Es. cbn [snd] in *.
  assert (coupled d1) as Hc1.
  { apply (coupled_slots d); [done|done|]. intros m. rewrite !in_use_state.
    destruct (Hf m) as [?|[-> ->]]; [done|]. by intros []. }
  apply select_ready_spec in Es as [(He & _ & _) Hsel]; [|done..].
  destruct sel as [[[m slot] vm]|]; [|done].
  destruct (Hsel m slot vm eq_refl) as (row & Hrow & Hs & -> & _).
  case_bool_guard; [done|]. destruct (consume c m (sr_data row) vm d1) as [d2|e] eqn:Eco; [|done].
  pose proof (claim_row_state _ _ _ _ Hg Hrow) as Hready.
  apply claim_ready_rows in Hrow as (_ & Hpool & _).
  apply consume_spec in Eco as Hspec; [|apply He|done].
  destruct Hspec as (_ & _ & Hid & _ & El & srow & Hs' & Hsp & _ & Hsid).
  assert (slots d2 = slots (update_slot m (MkSlot (s_pool_name (sr_data row)) (s_machine_name (sr_data row))
    SlotActivating (Some (c_lease_id c)) (s_created_at (sr_data row)) (c_now c) (s_last_error (sr_data row)))
    (bs "activating") d1)) as Esl.
  { unfold consume, insert_lease in Eco. case_match; [done|]. by inv Eco. }
  cbn [snd]. eapply (coupled_take d1); [done|exact Hid|exact El|done|done|exact Hs| |exact Hs'| |done| |].
  - cbn [in_use]. by rewrite Hready.
  - by rewrite Hsp, Hpool.
  - rewrite Esl, update_slot_lookup, Hs in Hs'. by inv Hs'.
  - intros j Hj. rewrite Esl. by apply update_slot_lookup_ne.
Qed.

(** ** Resizing and deleting *)

Lemma coupled_resize name desired now d : good d -> coupled d -> coupled (resize_fork_pool name desired now d).2.
Proof.
  intros Hg Hc. destruct (pools d !! name) as [p|] eqn:Ep; [|by unfold resize_fork_pool; rewrite Ep].
  destruct (deleting p) eqn:Ed; [by unfold resize_fork_pool; rewrite Ep, Ed|].
  destruct (resize_spec name desired now d p) as (_ & _ & Hl & _ & Hframe & Hret); [done..|].
  apply (coupled_slots d); [done|done|]. set (l := take _ _) in *. set (d' := (resize_fork_pool _ _ _ d).2) in *.
  intros m Hu. destruct (decide (m ∈ l.*1)) as [Hin|Hin]; [|by apply Hframe]. exfalso.
  apply list_elem_of_fmap in Hin as ([k x] & -> & Hx). cbn [fst] in *.
  destruct (Hret k x Hx) as (H1 & H2 & y & H3 & H4). rewrite H1, H3 in Hu. cbn [in_use] in Hu.
  rewrite H4 in Hu. destruct Hu as [Hu|Hu]; [|done].
  pose proof (proj1 Hg _ _ H1) as (_ & _ & E). apply is_available_iff in H2. rewrite !slot_in_singleton in H2.
  assert (s_state (sr_data x) = Provisioning \/ s_state (sr_data x) = Ready) as [E'|E'].
  { destruct H2 as [[_ H2]|[_ H2]]; rewrite E in H2; apply slot_as_str_inj in H2; auto. }
  all: by rewrite E' in Hu.
Qed.

(** What a deletion leaves of the slots and leases of the other pools. *)
Lemma begin_delete_frame name force now d d' :
  good d -> begin_delete_fork_pool name force now d = (Some true, d') ->
  (forall m, slots d' !! m = slots d !! m
     \/ (is_Some (slot_state m d) /\ slot_state m d' = Some Retiring))
  /\ (forall m row, slots d !! m = Some row -> sr_pool row <> name -> slots d' !! m = Some row)
  /\ (forall i row, leases d !! i = Some row -> lr_pool row <> name -> leases d' !! i = Some row)
  /\ (forall i row, leases d' !! i = Some row -> terminal (l_state (lr_data row)) = false ->
        lr_pool row <> name /\ leases d !! i = Some row).
Proof.
  intros Hg Hd. pose proof (begin_delete_spec name force now d d' Hg Hd) as (p0 & _ & _ & He & _ & _ & Hzero).
  revert Hd. unfold begin_delete_fork_pool. destruct (pools d !! name) as [pool|]; [|done].
  destruct (_ && negb force) eqn:Eb; [done|]. cbv zeta. intros [= Ed].
  set (d1 := with_pools (alter (fun _ => set_deleting pool) name) d) in *.
  set (l := select (fun row => bool_decide (sr_pool row = name)) (slots d)) in *.
  assert (Hl : forall k x, (k, x) ∈ l <-> slots d !! k = Some x /\ sr_pool x = name).
  { intros k x. unfold l. by rewrite elem_of_select, bool_decide_eq_true. }
  destruct (retire_rows now l d1) as ((He2 & _ & Hle) & Hframe & Hret);
    [by destruct Hg|apply NoDup_select|intros k x Hx; by apply Hl|].
  set (d2 := foldl (retire_slot now) d1 l) in *.
  assert (Hkey : forall m row, slots d !! m = Some row -> sr_pool row <> name -> m ∉ l.*1).
  { intros m row Hm Hp Hin. apply list_elem_of_fmap in Hin as ([k x] & -> & Hx). apply Hl in Hx as [Hx E].
    cbn [fst] in Hm. congruence. }
  set (ls := select (lease_in name live) (leases d2)) in *.
  destruct (cancel_rows now ls d2) as ((_ & _ & Es) & Hcf & _).
  { apply He2. } { apply NoDup_select. }
  { intros k x. unfold ls. rewrite elem_of_select, lease_in_live. tauto. }
  assert (Esl : slots d' = slots d2) by (rewrite <-Ed; by destruct force).
  assert (Elr : forall i, i ∉ ls.*1 -> leases d' !! i = leases d !! i).
  { intros i Hi. rewrite <-Ed. destruct force; [rewrite Hcf by done|]; by rewrite Hle. }
  split; [|split; [|split]].
  - intros m. unfold slot_state. rewrite Esl.
    destruct (decide (m ∈ l.*1)) as [Hin|Hin]; [right|left; by apply Hframe].
    apply list_elem_of_fmap in Hin as ([k x] & -> & Hx). cbn [fst]. rewrite (Hret k x Hx).
    apply Hl in Hx as [Hx _]. rewrite Hx. split; [by eexists|done].
  - intros m row Hm Hp. rewrite Esl, Hframe by by eapply Hkey. done.
  - intros i row Hi Hp. rewrite Elr; [done|]. intros Hin.
    apply list_elem_of_fmap in Hin as ([k x] & -> & Hx). unfold ls in Hx.
    rewrite elem_of_select, lease_in_live, Hle in Hx. cbn [fst] in Hi.
    change (leases d1) with (leases d) in Hx. destruct Hx as (Hx & E & _). congruence.
  - intros i row Hi Ht. rewrite count_zero in Hzero. pose proof (Hzero i row Hi) as Hz.
    pose proof (proj1 (proj2 (eff_good _ _ He)) _ _ Hi) as Hok.
    assert (lr_pool row <> name) as Hp.
    { intros E. apply not_true_iff_false in Hz. apply Hz. rewrite lease_in_live.
      split; [done|]. rewrite (live_row_iff i) by done. by rewrite Ht. }
    split; [done|]. rewrite <-Elr; [done|]. intros Hin.
    apply list_elem_of_fmap in Hin as ([k x] & -> & Hx). cbn [fst] in *. unfold ls in Hx.
    rewrite elem_of_select, lease_in_live in Hx. destruct Hx as (Hx & E & _).
    destruct (eff_leases _ _ He k x) as (x' & Hx' & Ep & _).
    { rewrite Hle in Hx. exact Hx. }
    congruence.
Qed.

Lemma coupled_delete name force now d :
  good d -> coupled d -> coupled (begin_delete_fork_pool name force now d).2.
Proof.
  intros Hg Hc. destruct (begin_delete_fork_pool name force now d) as [[[]|] d'] eqn:E.
  - destruct (begin_delete_frame _ _ _ _ _ Hg E) as (H1 & H2 & H3 & H4). destruct Hc as [HL HS]. constructor.
    + intros i l Hi Ht. destruct (H4 i l Hi Ht) as [Hp Hi0].
      destruct (HL i l Hi0 Ht) as (s & Hs & Hsp & Hrest). exists s. split; [|done].
      apply H2; [done|congruence].
    + intros m s Hm Hb. cbn [snd] in *. assert (slots d !! m = Some s) as Hs.
      { destruct (H1 m) as [H|[_ H]]; [congruence|]. unfold slot_state in H. rewrite Hm in H.
        injection H as H. by rewrite H in Hb. }
      destruct (HS m s Hs Hb) as (i & l & Hid & Hl & Ht & Hlm). exists i, l.
      split; [done|]. split; [|done]. apply H3; [done|]. intros Hp.
      destruct (HL i l Hl Ht) as (s0 & Hs0 & Hsp & _). rewrite Hlm, Hs in Hs0. injection Hs0 as <-.
      pose proof (begin_delete_spec _ _ _ _ _ Hg E) as (_ & _ & _ & _ & _ & Hret & _).
      rewrite (Hret m s Hm) in Hb; [done|congruence].
  - unfold begin_delete_fork_pool in E. repeat case_match; by inv E.
  - unfold begin_delete_fork_pool in E. repeat case_match; by inv E.
Qed.

Lemma coupled_finalize d : coupled d -> coupled (finalize_deleted_fork_pools d).2.
Proof.
  intros Hc. destruct (finalize_rows (map_to_list (pools d)) [] d) as (_ & Hs & _ & _ & Hl).
  fold (finalize_deleted_fork_pools d) in *. destruct Hc as [HL HS]. constructor.
  - intros i l Hi Ht. rewrite Hs. apply HL; [|done]. by apply Hl.
  - intros m s Hm Hb. rewrite Hs in Hm. destruct (HS m s Hm Hb) as (i & l & Hid & Hi & Ht & Hlm).
    exists i, l. split; [done|]. split; [|done]. apply Hl. split; [done|]. intros Hg.
    destruct (HL i l Hi Ht) as (s0 & Hs0 & Hsp & _).
    apply list_elem_of_In, in_map_iff in Hg as (kv & E & Hin). apply filter_In in Hin as [_ Hd].
    by apply (drained_no_slots _ _ _ _ Hd Hs0); congruence.
Qed.

(** ** Every permitted transaction *)

Lemma coupled_update_state m expected next now error d :
  good d -> coupled d -> busy expected = false -> busy next = false ->
  coupled (update_fork_pool_slot_state m expected next now error d).2.
Proof.
  intros Hg Hc He Hn. unfold update_fork_pool_slot_state. destruct (slots d !! m) as [row|] eqn:E; [|done].
  case_bool_guard; [|done]. apply coupled_update_slot; [done| |done]. rewrite E. cbn [in_use].
  pose proof (proj1 Hg _ _ E) as (_ & _ & Hs). rewrite Hs in E0. by apply slot_as_str_inj in E0 as ->.
Qed.

Lemma coupled_run_op op d : db_ok d -> coupled d -> permitted d op = true -> coupled (run_op op d).
Proof.
  intros Hd Hc Hp. pose proof (db_ok_good d Hd) as Hg. destruct op; cbn [run_op permitted] in *.
  - unfold insert_fork_pool_if_not_exists. case_match; [done|]. by apply (coupled_slots d).
  - by apply (coupled_slots d).
  - by apply (coupled_slots d).
  - by apply coupled_resize.
  - pose proof (reserve_spec pool machine now d) as H.
    destruct (reserve_fork_pool_slot pool machine now d) as [[] d']; [|by subst].
    destruct H as (p & _ & _ & _ & _ & Hm & ->). apply (coupled_slots d); [done|done|]. intros j.
    cbn [with_slots slots snd]. destruct (decide (machine = j)) as [<-|Hne].
    + rewrite lookup_insert_eq, Hm. by intros [].
    + by rewrite lookup_insert_ne.
  - by apply coupled_update_state.
  - apply coupled_update_state; [done|done| |done]. bool_simpl. by destruct expected; [set_solver..].
  - unfold mark_fork_pool_slot_retiring. destruct (slots d !! machine) as [row|] eqn:E; [|done].
    apply coupled_update_slot; [done| |done]. bool_simpl. by rewrite E.
  - apply (coupled_slots d); [done|done|]. intros j. cbn [remove_fork_pool_slot snd with_slots slots].
    destruct (decide (machine = j)) as [<-|Hne]; [|by rewrite lookup_delete_ne].
    rewrite lookup_delete_eq. destruct (slots d !! machine) as [row|]; [|done]. bool_simpl.
    cbn [in_use]. rewrite Hp. by intros [].
  - by apply coupled_claim.
  - by apply coupled_transition.
  - by apply coupled_transition.
  - by apply coupled_transition.
  - by apply coupled_heartbeat.
  - unfold complete_fork_lease. destruct (get_fork_lease pool id d); [|done]. case_bool_guard; [done|].
    by apply coupled_transition.
  - by apply coupled_expire.
  - by apply coupled_delete.
  - by apply coupled_finalize.
Qed.

End Coupling.

(** ** The life of a slot *)

Module SlotLife.
Import Str Pool PoolFacts ClaimFacts OpFacts HistoryFacts Coupling.

(** What one transaction may do to the slot of machine [m]. *)
Inductive slot_step (op : PoolOp) (m : bytes) : option ForkPoolSlotState -> option ForkPoolSlotState -> Prop :=
| step_same o : slot_step op m o o
| step_reserve pool now : op = OpReserve pool m now -> slot_step op m None (Some Provisioning)
| step_ready now : op = OpReady m now -> slot_step op m (Some Provisioning) (Some Ready)
| step_claim c : op = OpClaim c -> slot_step op m (Some Ready) (Some SlotActivating)
| step_active i now : op = OpMarkActive i now -> slot_step op m (Some SlotActivating) (Some Leased)
| step_retire s : slot_step op m (Some s) (Some Retiring)
| step_remove : op = OpRemoveSlot m -> slot_step op m (Some Retiring) None.

Lemma step_eq op m a b : a = b -> slot_step op m a b.
Proof. intros ->. constructor. Qed.
Lemma step_retired op m a b : b = a \/ (is_Some a /\ b = Some Retiring) -> slot_step op m a b.
Proof. intros [->|[[s ->] ->]]; constructor. Qed.

Lemma step_write op m j data st d :
  (forall row, slots d !! m = Some row ->
     slot_step op m (Some (s_state (sr_data row))) (Some (s_state data))) ->
  slot_step op j (slot_state j d) (slot_state j (update_slot m data st d)).
Proof.
  intros H. rewrite slot_state_write. case_decide as E; [subst|by apply step_eq].
  unfold slot_state. destruct (slots d !! m) as [row|] eqn:E; [|by apply step_eq]. by apply H.
Qed.

Lemma step_update_state op j m expected next now error d :
  good d -> slot_step op m (Some expected) (Some next) ->
  slot_step op j (slot_state j d) (slot_state j (update_fork_pool_slot_state m expected next now error d).2).
Proof.
  intros Hg Hs. unfold update_fork_pool_slot_state. destruct (slots d !! m) as [row|] eqn:E; [|by apply step_eq].
  case_bool_guard; [|by apply step_eq]. cbn [snd]. apply step_write. intros r Hr. rewrite E in Hr. inv Hr.
  pose proof (proj1 Hg _ _ E) as (_ & _ & Hst). rewrite Hst in E0. apply slot_as_str_inj in E0 as ->. done.
Qed.

Lemma step_transition op j i expected next now error d :
  coupled d -> terminal expected = false ->
  slot_step op (match leases d !! i with Some row => l_machine_name (lr_data row) | None => [] end)
    (Some (worker_state expected)) (Some (worker_state next)) ->
  slot_step op j (slot_state j d)
    (slot_state j (transition_fork_lease i expected next (worker_state next) now error d).2).
Proof.
  intros Hc Ht Hs. unfold transition_fork_lease. destruct (leases d !! i) as [row|] eqn:Ei; [|by apply step_eq].
  case_bool_guard; [by apply step_eq|]. cbv zeta. cbn [snd].
  assert (Hst : l_state (lr_data row) = expected).
  { destruct (decide (l_state (lr_data row) = expected)); [done|]. by contradict E. }
  rewrite <-Hst in Ht. destruct (cp_lease d Hc i row Ei Ht) as (s & Hsl & _ & _ & Hss).
  match goal with |- context [update_lease i ?l _ _] => set (lease := l) end.
  change (slots (update_lease i lease (lease_as_str next) d)) with (slots d).
  change (l_machine_name lease) with (l_machine_name (lr_data row)). rewrite Hsl.
  change (slot_state j d) with (slot_state j (update_lease i lease (lease_as_str next) d)).
  apply step_write. change (slots (update_lease i lease (lease_as_str next) d)) with (slots d).
  intros r Hr. rewrite Hsl in Hr. inv Hr. rewrite Hss. done.
Qed.

Lemma step_expire op j now d :
  good d -> slot_step op j (slot_state j d) (slot_state j (expire_fork_leases now d).2).
Proof.
  intros Hg. apply step_retired. unfold expire_fork_leases.
  generalize (select (lease_state_in live) (leases d)) as l. intros l.
  assert (H : forall l acc, slot_state j acc.2 = slot_state j d
                 \/ (is_Some (slot_state j d) /\ slot_state j acc.2 = Some Retiring) ->
    slot_state j (foldl (expire_lease now) acc l).2 = slot_state j d
    \/ (is_Some (slot_state j d) /\ slot_state j (foldl (expire_lease now) acc l).2 = Some Retiring));
    [|by apply H; left].
  clear l. induction l as [|[k x] l IH]; intros [acc e] Ha; [done|]. cbn [foldl]. apply IH.
  cbn [snd] in Ha. unfold expire_lease. cbn [snd].
  destruct (l_expires_at (lr_data x) >? now); [done|]. cbv zeta. cbn [snd].
  match goal with |- context [update_lease ?i ?l _ _] => set (e1 := update_lease i l (bs "expired") e) end.
  change (slots e1) with (slots e). cbn [set_lease l_machine_name].
  destruct (slots e !! l_machine_name (lr_data x)) as [srow|] eqn:Es; [|done].
  rewrite slot_state_write. change (slots e1) with (slots e). change (slot_state j e1) with (slot_state j e).
  case_decide as E; [|done]. subst j. rewrite Es. right. split; [|done].
  destruct Ha as [Ha|[Ha _]]; [|done]. rewrite <-Ha. unfold slot_state. rewrite Es. by eexists.
Qed.

Lemma step_claim_slots j c d :
  good d -> slot_step (OpClaim c) j (slot_state j d) (slot_state j (claim_fork_pool_slot c d).2).
Proof.
  intros Hg. unfold claim_fork_pool_slot.
  destruct (find_by_key _ _ d); [by apply step_eq|].
  destruct (pools d !! c_pool_name c) as [pool|]; [|by apply step_eq].
  destruct (deleting pool); [by apply step_eq|]. destruct (at_capacity c pool d); [by apply step_eq|].
  set (rows := order_by_key _).
  assert (Hin : forall k row, (k, row) ∈ rows -> slots d !! k = Some row)
    by (intros k row H; apply (claim_ready_rows _ _ _ _ H)).
  assert (Hnd : NoDup rows.*1) by apply NoDup_order_by_key, NoDup_select.
  destruct (select_ready_frame (p_golden pool) (c_now c) rows d) as [_ Hf];
    [intros k row; by apply claim_row_state|done|done|].
  destruct (select_ready _ _ rows d) as [sel d1] eqn:Es. cbn [snd] in Hf.
  apply select_ready_spec in Es as [(He & _ & _) Hsel]; [|done..].
  assert (Hret : slot_step (OpClaim c) j (slot_state j d) (slot_state j d1)).
  { apply step_retired. destruct (Hf j) as [H|[-> ->]]; [left; by apply slot_state_same|right]. split; [by eexists|done]. }
  destruct sel as [[[m slot] vm]|]; [|done].
  destruct (Hsel m slot vm eq_refl) as (row & Hrow & Hs & -> & _).
  case_bool_guard; [done|]. destruct (consume c m (sr_data row) vm d1) as [d2|e] eqn:Eco; [|by apply step_eq].
  pose proof (claim_row_state _ _ _ _ Hg Hrow) as Hready. apply Hin in Hrow as Hrow'.
  unfold consume, insert_lease in Eco. case_match; [done|]. injection Eco as <-. cbn [snd].
  unfold slot_state at 2. cbn [with_leases slots].
  match goal with |- context [slots ?e !! j] => fold (slot_state j e) end.
  rewrite slot_state_write. case_decide as Ej; [subst j|exact Hret].
  cbn [with_vms slots]. rewrite Hs. cbn [fmap option_fmap option_map s_state].
  unfold slot_state. rewrite Hrow'. cbn. rewrite Hready. by eapply step_claim.
Qed.

Lemma run_op_slot op m d :
  db_ok d -> coupled d -> permitted d op = true ->
  slot_step op m (slot_state m d) (slot_state m (run_op op d)).
Proof.
  intros Hd Hc Hp. pose proof (db_ok_good d Hd) as Hg. destruct op; cbn [run_op permitted] in *.
  - unfold insert_fork_pool_if_not_exists. case_match; by apply step_eq.
  - by apply step_eq.
  - by apply step_eq.
  - destruct (pools d !! name) as [p|] eqn:Ep; [|unfold resize_fork_pool; rewrite Ep; by apply step_eq].
    destruct (deleting p) eqn:Ed; [unfold resize_fork_pool; rewrite Ep, Ed; by apply step_eq|].
    destruct (resize_spec name desired now d p) as (_ & _ & _ & _ & Hframe & Hret); [done..|].
    set (l := take _ _) in *. apply step_retired.
    destruct (decide (m ∈ l.*1)) as [Hin|Hin]; [right|left; by apply slot_state_same, Hframe].
    apply list_elem_of_fmap in Hin as ([k x] & -> & Hx). destruct (Hret k x Hx) as (H1 & _ & y & H2 & H3).
    cbn [fst]. unfold slot_state. rewrite H1, H2. cbn. split; [by eexists|congruence].
  - pose proof (reserve_spec pool machine now d) as H.
    destruct (reserve_fork_pool_slot pool machine now d) as [[] d']; [|subst; by apply step_eq].
    destruct H as (p & _ & _ & _ & _ & Hm & ->). unfold slot_state. cbn [with_slots slots snd].
    destruct (decide (machine = m)) as [<-|Hne].
    + rewrite lookup_insert_eq, Hm. by eapply step_reserve.
    + rewrite lookup_insert_ne by done. by apply step_eq.
  - apply step_update_state; [done|]. by eapply step_ready.
  - apply step_update_state; [done|]. constructor.
  - unfold mark_fork_pool_slot_retiring. destruct (slots d !! machine) as [row|] eqn:E; [|by apply step_eq].
    apply step_write. intros r _. constructor.
  - unfold slot_state. cbn [remove_fork_pool_slot snd with_slots slots].
    destruct (decide (machine = m)) as [<-|Hne]; [|rewrite lookup_delete_ne by done; by apply step_eq].
    rewrite lookup_delete_eq. destruct (slots d !! machine) as [row|]; [|by apply step_eq]. bool_simpl.
    cbn. rewrite Hp. by constructor.
  - by apply step_claim_slots.
  - apply (step_transition _ _ _ Activating Active); [done|done|]. by eapply step_active.
  - apply (step_transition _ _ _ Activating Failed); [done|done|]. constructor.
  - apply (step_transition _ _ _ Active Failed); [done|done|]. constructor.
  - unfold heartbeat_fork_lease. repeat case_match; by apply step_eq.
  - unfold complete_fork_lease. destruct (get_fork_lease pool id d); [|by apply step_eq].
    case_bool_guard; [by apply step_eq|]. apply (step_transition _ _ _ Active Completed); [done|done|]. constructor.
  - by apply step_expire.
  - apply step_retired. destruct (begin_delete_fork_pool name force now d) as [[[]|] d'] eqn:E.
    + destruct (begin_delete_frame _ _ _ _ _ Hg E) as (H1 & _).
      destruct (H1 m) as [H|H]; [left; by apply slot_state_same|by right].
    + left. unfold begin_delete_fork_pool in E. repeat case_match; by inv E.
    + left. unfold begin_delete_fork_pool in E. repeat case_match; by inv E.
  - apply step_eq. unfold slot_state.
    destruct (finalize_rows (map_to_list (pools d)) [] d) as (_ & Hs & _). fold (finalize_deleted_fork_pools d) in Hs.
    by rewrite Hs.
Qed.

End SlotLife.
