(* ===== verification/PoolCtlLogic.v ===== *)
(** * PoolCtlLogic: reasoning about the controller's programs

    A weakest precondition for [Proc.prog] against every fair answer of the
    environment. It also asks that each transaction the program commits is
    permitted where it commits, so that what one task owes the others and what
    it may assume of them meet in [permitted]. *)

From S2P Require Import Prelude RustStr ForkPool ForkPoolFacts ForkPoolClaim ForkPoolProps.
From S2P Require Import PoolCtl PoolCoupling.

Module Logic.
Import Str Pool PoolFacts HistoryFacts Coupling SlotLife Proc.

Definition sound (w : World) : Prop := db_ok (db w) /\ coupled (db w).
Definition after (op : PoolOp) (w : World) : World := MkWorld (run_op op (db w)) (shared w).

Lemma sound_after op w : sound w -> permitted (db w) op = true -> sound (after op w).
Proof. intros [H1 H2] Hp. split; [by apply run_op_ok|by apply coupled_run_op]. Qed.

Lemma sound_vms f w : sound w -> sound (MkWorld (with_vms f (db w)) (shared w)).
Proof. intros [H1 [HL HS]]. split; [|by constructor]. destruct H1. by constructor. Qed.

Section Wp.
Context (others : Db -> PoolOp -> bool) (fair : World -> Move -> Prop).

Fixpoint wp {A} (p : prog A) (Q : A -> World -> Prop) (w : World) : Prop :=
  match p with
  | Ret a => Q a w
  | Tx op out k =>
      forall mv, fair w mv ->
      let w1 := interfere others (interference mv) w in
      match fault mv with
      | Some f => wp (k (Err f)) Q w1
      | None => permitted (db w1) op = true /\ wp (k (Ok (out (db w1)))) Q (after op w1)
      end
  | Read q k =>
      forall mv, fair w mv ->
      let w1 := interfere others (interference mv) w in
      match fault mv with
      | Some f => wp (k (Err f)) Q w1
      | None => wp (k match q (db w1) with Ok b => Ok b | Err e => Err (DbFault e) end) Q w1
      end
  | Upd f k =>
      forall mv, fair w mv ->
      let w1 := interfere others (interference mv) w in
      wp (k (f (shared w1)).1) Q (MkWorld (db w1) (f (shared w1)).2)
  | Ask q k => forall mv, fair w mv -> wp (k (q mv)) Q (interfere others (interference mv) w)
  end.

(** Every run under a fair schedule ends as [wp] says. *)
Lemma wp_exec {A} (p : prog A) Q sched n w :
  (forall n w, fair w (sched n w)) -> wp p Q w ->
  let o := exec others sched p n w in
  Q (value o) (world o) /\ Forall (fun c => permitted c.1 c.2 = true) (committed o).
Proof.
  intros Hf. revert n w. induction p as [a|B op out k IH|B q k IH|B f k IH|B q k IH]; intros n w Hw;
    cbn [exec]; [by split| | | |]; specialize (Hw (sched n w) (Hf n w)); cbn zeta in *.
  - destruct (fault (sched n w)); [by apply IH|]. destruct Hw as [Hp Hw].
    destruct (IH _ (S n) _ Hw) as [H1 H2]. cbn [value world committed]. split; [done|]. by constructor.
  - destruct (fault (sched n w)); by apply IH.
  - destruct (f (shared _)) as [b s]. by apply IH.
  - by apply IH.
Qed.

Lemma wp_mono {A} (p : prog A) (Q Q' : A -> World -> Prop) w :
  (forall a w, Q a w -> Q' a w) -> wp p Q w -> wp p Q' w.
Proof.
  intros HQ. revert w. induction p as [a|B op out k IH|B q k IH|B f k IH|B q k IH]; intros w Hw;
    cbn [wp] in *; [by apply HQ| | | |]; intros mv Hmv; specialize (Hw mv Hmv); cbn zeta in *.
  - destruct (fault mv); [by apply IH|]. destruct Hw. split; [done|by apply IH].
  - destruct (fault mv); by apply IH.
  - by apply IH.
  - by apply IH.
Qed.

Lemma wp_bind {A B} (p : prog A) (f : A -> prog B) Q w :
  wp p (fun a => wp (f a) Q) w -> wp (bind p f) Q w.
Proof.
  revert w. induction p as [a|C op out k IH|C q k IH|C g k IH|C q k IH]; intros w Hw;
    cbn [bind wp] in *; [done| | | |]; intros mv Hmv; specialize (Hw mv Hmv); cbn zeta in *.
  - destruct (fault mv); [by apply IH|]. destruct Hw. split; [done|by apply IH].
  - destruct (fault mv); by apply IH.
  - by apply IH.
  - by apply IH.
Qed.

(** ** Assertions the others cannot break *)

Context (others_permitted : forall d op, others d op = true -> permitted d op = true).

Definition stable (P : World -> Prop) : Prop :=
  forall w s, sound w -> P w -> P (env_step others w s).

Lemma sound_step w s : sound w -> sound (env_step others w s).
Proof.
  intros Hw. destruct s as [op|name [r|]|f]; cbn [env_step]; [|by apply sound_vms..|done].
  destruct (others (db w) op) eqn:E; [|done]. by apply sound_after, others_permitted.
Qed.

Lemma interfere_stable P steps w :
  stable P -> sound w -> P w -> sound (interfere others steps w) /\ P (interfere others steps w).
Proof.
  intros Hs. revert w. unfold interfere. induction steps as [|s steps IH]; intros w Hw HP; [done|].
  cbn [foldl]. apply IH; [by apply sound_step|by apply Hs].
Qed.

Lemma stable_and P P' : stable P -> stable P' -> stable (fun w => P w /\ P' w).
Proof. intros H1 H2 w s Hw []. split; [by apply H1|by apply H2]. Qed.
Lemma stable_true (P : Prop) : stable (fun _ => P).
Proof. by intros w s. Qed.
Lemma stable_forall {X} (P : X -> World -> Prop) : (forall x, stable (P x)) -> stable (fun w => forall x, P x w).
Proof. intros H w s Hw Hx x. by apply H. Qed.

(** An assertion on the state of one slot is stable when no step that the
    others may take breaks it. *)
Lemma stable_slot m (S : option ForkPoolSlotState -> Prop) :
  (forall d op a b, others d op = true -> slot_step op m a b -> S a -> S b) ->
  stable (fun w => S (slot_state m (db w))).
Proof.
  intros H w [op|name [r|]|f] [Hd Hc] HS; cbn [env_step]; try done.
  destruct (others (db w) op) eqn:E; [|done].
  eapply H; [exact E| |exact HS]. apply run_op_slot; auto.
Qed.

Lemma wp_tx {B} P op (out : Db -> B) Q w :
  stable P -> sound w -> P w ->
  (forall mv w1, fair w mv -> sound w1 -> P w1 ->
     match fault mv with
     | Some f => Q (Err f) w1
     | None => permitted (db w1) op = true /\ (sound (after op w1) -> Q (Ok (out (db w1))) (after op w1))
     end) ->
  wp (transact op out) Q w.
Proof.
  intros Hs Hw HP H mv Hmv. destruct (interfere_stable P (interference mv) w Hs Hw HP) as [H1 H2].
  cbn zeta. specialize (H mv _ Hmv H1 H2). destruct (fault mv); [done|]. destruct H as [Hp H].
  split; [done|]. by apply H, sound_after.
Qed.

Lemma wp_exec_op {B} P op (out : Db -> B) Q w :
  stable P -> sound w -> P w ->
  (forall mv w1, fair w mv -> sound w1 -> P w1 ->
     match fault mv with
     | Some f => Q (Err (fault_str f)) w1
     | None => permitted (db w1) op = true /\ (sound (after op w1) -> Q (Ok (out (db w1))) (after op w1))
     end) ->
  wp (exec_op op out) Q w.
Proof.
  intros Hs Hw HP H mv Hmv. destruct (interfere_stable P (interference mv) w Hs Hw HP) as [H1 H2].
  cbn zeta. specialize (H mv _ Hmv H1 H2). destruct (fault mv); [done|]. destruct H as [Hp H].
  split; [done|]. by apply H, sound_after.
Qed.

Lemma wp_query {B} P (q : Db -> result B bytes) Q w :
  stable P -> sound w -> P w ->
  (forall w1 r, sound w1 -> P w1 -> r = q (db w1) \/ (is_ok r = false) -> Q r w1) ->
  wp (query q) Q w.
Proof.
  intros Hs Hw HP H mv Hmv. destruct (interfere_stable P (interference mv) w Hs Hw HP) as [H1 H2].
  cbn zeta. destruct (fault mv) as [f|]; [by apply H; auto|].
  destruct (q (db _)) eqn:E; apply H; auto.
Qed.

Lemma wp_locked {B} P (f : Shared -> B * Shared) Q w :
  stable P -> sound w -> P w ->
  (forall w1, sound w1 -> P w1 -> Q (f (shared w1)).1 (MkWorld (db w1) (f (shared w1)).2)) ->
  wp (locked f) Q w.
Proof.
  intros Hs Hw HP H mv Hmv. destruct (interfere_stable P (interference mv) w Hs Hw HP) as [H1 H2]. by apply H.
Qed.

Lemma wp_ask {B} P (q : Move -> B) Q w :
  stable P -> sound w -> P w ->
  (forall mv w1, fair w mv -> sound w1 -> P w1 -> Q (q mv) w1) ->
  wp (ask q) Q w.
Proof.
  intros Hs Hw HP H mv Hmv. destruct (interfere_stable P (interference mv) w Hs Hw HP) as [H1 H2]. by apply H.
Qed.

(** A loop with [?] in its body. *)
Lemma wp_for_each {X} (I : list X -> World -> Prop) (E : World -> Prop) l (f : X -> prog (result unit bytes)) w :
  (forall x l w, sound w -> I (x :: l) w ->
     wp (f x) (fun r w => sound w /\ match r with Ok _ => I l w | Err _ => E w end) w) ->
  sound w -> I l w ->
  wp (for_each l f) (fun r w => sound w /\ match r with Ok _ => I [] w | Err _ => E w end) w.
Proof.
  intros Hf. revert w. induction l as [|x l IH]; intros w Hw HI; [done|]. cbn [for_each].
  apply wp_bind. eapply wp_mono; [|by apply Hf]. intros [[]|e] w1 [H1 H2]; [by apply IH|done].
Qed.

(** ** Programs whose transactions are permitted anywhere *)

Fixpoint does (K : PoolOp -> Prop) {A} (p : prog A) : Prop :=
  match p with
  | Ret _ => True
  | Tx op out k => K op /\ forall r, does K (k r)
  | Read q k => forall r, does K (k r)
  | Upd f k => forall r, does K (k r)
  | Ask q k => forall r, does K (k r)
  end.

Lemma does_bind K {A B} (p : prog A) (f : A -> prog B) :
  does K p -> (forall a, does K (f a)) -> does K (bind p f).
Proof.
  intros Hp Hf. induction p as [a|C op out k IH|C q k IH|C g k IH|C q k IH]; cbn [bind does] in *;
    [by apply Hf| | | |]; [|by intros r; apply IH..]. destruct Hp. split; [done|]. intros r. by apply IH.
Qed.
Lemma does_for_each K {X} (l : list X) f : (forall x, does K (f x)) -> does K (for_each l f).
Proof.
  intros Hf. induction l as [|x l IH]; [done|]. cbn [for_each]. apply does_bind; [done|]. by intros [[]|e].
Qed.

Lemma wp_does (K : PoolOp -> Prop) (P : World -> Prop) {A} (p : prog A) w :
  (forall op d, K op -> permitted d op = true) -> stable P ->
  (forall op w, K op -> sound w -> P w -> P (after op w)) ->
  (forall w s, P w -> P (MkWorld (db w) s)) ->
  does K p -> sound w -> P w -> wp p (fun _ w => sound w /\ P w) w.
Proof.
  intros HK Hs HP Hsh. revert w. induction p as [a|B op out k IH|B q k IH|B f k IH|B q k IH]; intros w Hd Hw Hp;
    cbn [wp does] in *; [done| | | |]; intros mv Hmv;
    destruct (interfere_stable P (interference mv) w Hs Hw Hp) as [H1 H2]; cbn zeta.
  - destruct Hd as [Hop Hd]. destruct (fault mv); [by apply IH|]. split; [by apply HK|].
    apply IH; [done|by apply sound_after, HK|by apply HP].
  - destruct (fault mv); by apply IH.
  - apply IH; [done|done|by apply Hsh].
  - by apply IH.
Qed.

End Wp.

(** Decomposes a program into its parts. *)
Ltac does_step :=
  match goal with
  | |- does _ (bind _ _) => apply does_bind; [|intros ?]
  | |- does _ (for_each _ _) => apply does_for_each; intros ?
  | |- does _ (match ?x with _ => _ end) => destruct x
  | |- does _ (if ?x then _ else _) => destruct x
  | |- does _ _ => progress cbn [does]
  | |- _ /\ _ => split
  | |- forall _, _ => intros ?
  | _ => done
  end.
Ltac does_all := repeat does_step.

End Logic.
