(* ===== verification/PoolCtlSafe.v ===== *)
(** * PoolCtlSafe: the controller and its fills under interference

    Every transaction of the reconciler and of a fill is one the pool's
    invariants allow where it commits, whatever the other tasks do in between
    and whichever transactions fail; recovery leaves no slot being
    provisioned, and a fill leaves none of its own. *)

From S2P Require Import Prelude RustStr ForkPool ForkPoolFacts ForkPoolClaim ForkPoolProps Admission.
From S2P Require Import PoolCtl PoolCoupling PoolCtlLogic.

(** ** The reconciler *)

Module CtlSafe.
Import Str Pool Admission PoolFacts HistoryFacts Coupling SlotLife Proc Ctl Logic.

(** Only the reconciler removes slots. *)
Definition rely_ctl (d : Db) (op : PoolOp) : bool :=
  permitted d op && match op with OpRemoveSlot _ => false | _ => true end.
Lemma rely_ctl_permitted d op : rely_ctl d op = true -> permitted d op = true.
Proof. unfold rely_ctl. intros H. by bool_simpl. Qed.

Definition any : World -> Move -> Prop := fun _ _ => True.
Definition safe {A} (p : prog A) : Prop :=
  forall w, sound w -> wp rely_ctl any p (fun _ w => sound w) w.

(** Permitted in every database. *)
Definition free (op : PoolOp) : Prop := forall d, permitted d op = true.

Lemma safe_does {A} (p : prog A) : does free p -> safe p.
Proof.
  intros Hp w Hw. eapply wp_mono; [|apply (wp_does rely_ctl any rely_ctl_permitted free (fun _ => True))]; done || by intros ? ? [].
Qed.
Lemma safe_bind {A B} (p : prog A) (f : A -> prog B) : safe p -> (forall a, safe (f a)) -> safe (bind p f).
Proof. intros Hp Hf w Hw. apply wp_bind. eapply wp_mono; [|by apply Hp]. intros a w'. apply Hf. Qed.

Ltac safe_step :=
  match goal with
  | |- safe (bind _ _) => apply safe_bind; [|intros ?]
  | |- safe (match ?x with _ => _ end) => destruct x
  | |- safe (if ?x then _ else _) => destruct x
  | |- safe (let (_, _) := ?x in _) => destruct x
  end.
Ltac safe_all := repeat safe_step; try (apply safe_does; by does_all).

(** *** Deleting retired workers *)

Lemma retiring_slots_spec d :
  good d ->
  NoDup (map s_machine_name (list_retiring_fork_pool_slots d))
  /\ forall s, s ∈ list_retiring_fork_pool_slots d -> slot_state (s_machine_name s) d = Some Retiring.
Proof.
  intros Hg. unfold list_retiring_fork_pool_slots. set (q := select _ _).
  assert (Hq : forall k row, (k, row) ∈ q -> slots d !! k = Some row /\ s_machine_name (sr_data row) = k
                                             /\ s_state (sr_data row) = Retiring).
  { intros k row. unfold q. rewrite elem_of_select. intros [Hk Hb]. bool_simpl.
    pose proof (proj1 Hg _ _ Hk) as (A & _ & B). split; [done|]. split; [done|].
    apply slot_as_str_inj. by rewrite <-B, Hb. }
  split.
  - assert (map s_machine_name (map (fun kv => sr_data kv.2) q) = q.*1) as ->; [|apply NoDup_select].
    rewrite map_map. apply map_ext_in. intros [k row] Hk. apply list_elem_of_In, Hq in Hk. cbn. tauto.
  - intros s Hs. apply list_elem_of_In, in_map_iff in Hs as ([k row] & <- & Hk).
    apply list_elem_of_In, Hq in Hk as (H1 & H2 & H3). cbn. rewrite H2. unfold slot_state. rewrite H1. cbn. by rewrite H3.
Qed.

(** The slots still to be deleted. *)
Definition doomed (l : list ForkPoolSlotRecord) (w : World) : Prop :=
  NoDup (map s_machine_name l) /\ forall s, s ∈ l -> slot_state (s_machine_name s) (db w) = Some Retiring.

Lemma doomed_stable l : stable rely_ctl (doomed l).
Proof.
  apply stable_and; [apply stable_true|]. apply stable_forall. intros s w e Hw H Hs. specialize (H Hs). revert w e Hw H.
  apply (stable_slot rely_ctl rely_ctl_permitted (s_machine_name s) (fun o => o = Some Retiring)).
  intros d op a b Ho Hstep ->. inv Hstep; try done. unfold rely_ctl in Ho. by bool_simpl.
Qed.

Lemma delete_retired_worker_wp s l w :
  sound w -> doomed (s :: l) w ->
  wp rely_ctl any (delete_retired_worker s)
    (fun r w => sound w /\ match r with Ok _ => doomed l w | Err _ => True end) w.
Proof.
  intros Hw Hd. assert (Htail : forall w, doomed (s :: l) w -> doomed l w).
  { intros w0 [H1 H2]. cbn [map] in H1. apply NoDup_cons in H1 as [_ H1]. split; [done|].
    intros x Hx. apply H2. by right. }
  unfold delete_retired_worker. apply wp_bind.
  eapply (wp_ask rely_ctl any rely_ctl_permitted (doomed (s :: l))); [apply doomed_stable|done|done|].
  intros mv w1 _ Hw1 Hd1.
  assert (Hremove : wp rely_ctl any
    (try _ := exec_op (OpRemoveSlot (s_machine_name s)) (fun d => (remove_fork_pool_slot (s_machine_name s) d).1) in
     Ret (Ok tt)) (fun r w => sound w /\ match r with Ok _ => doomed l w | Err _ => True end) w1).
  { apply wp_bind.
    eapply (wp_exec_op rely_ctl any rely_ctl_permitted (doomed (s :: l))); [apply doomed_stable|done|done|].
    intros mv' w2 _ Hw2 Hd2. destruct (fault mv'); [done|]. split.
    - destruct Hd2 as [_ H2]. specialize (H2 s ltac:(left)). unfold slot_state in H2. cbn [permitted].
      destruct (slots (db w2) !! s_machine_name s); [|done]. injection H2 as ->. done.
    - intros Hs. split; [done|]. destruct (Htail _ Hd2) as [H1 H2]. split; [done|]. intros x Hx.
      rewrite <-(H2 x Hx). apply slot_state_same. cbn. apply lookup_delete_ne. intros E.
      destruct Hd2 as [Hnd _]. cbn [map] in Hnd. apply NoDup_cons in Hnd as [Hnd _]. apply Hnd. rewrite E.
      apply list_elem_of_In, in_map, list_elem_of_In. done. }
  destruct (delete_one mv); [done|done|]. split; [done|by apply Htail].
Qed.

Lemma delete_retired_safe : safe delete_retired_workers.
Proof.
  intros w Hw. unfold delete_retired_workers. apply wp_bind.
  eapply (wp_query rely_ctl any rely_ctl_permitted (fun _ => True)); [by apply stable_true|done|done|].
  intros w1 r Hw1 _ Hr. destruct r as [l|e]; [|done]. destruct Hr as [[= ->]|?]; [|done].
  eapply wp_mono; [|apply (wp_for_each rely_ctl any doomed (fun _ => True))]; try done.
  - by intros r w2 [].
  - intros x l w2. apply delete_retired_worker_wp.
  - by apply retiring_slots_spec, db_ok_good, Hw1.
Qed.

(** *** The whole loop *)

Lemma recover_free : does free recover_interrupted_provisioning.
Proof. unfold recover_interrupted_provisioning, recover_slot. does_all. Qed.
Lemma remove_snapshots_free l : does free (remove_snapshots l).
Proof. induction l as [|g l IH]; [done|]. cbn [remove_snapshots]. does_all. Qed.
Lemma observations_free l : does free (observations l).
Proof. induction l as [|p l IH]; [done|]. cbn [observations]. does_all. Qed.
Lemma schedule_free now l c : does free (schedule_fills now l c).
Proof.
  revert c. induction l as [|p l IH]; intros c; [done|]. cbn [schedule_fills]. repeat case_match; try apply IH.
  does_all.
Qed.
Lemma reap_free l c : does free (reap_results l c).
Proof. revert c. induction l as [|r l IH]; intros c; [done|]. cbn [reap_results]. does_all. Qed.

Lemma sweep_safe : safe sweep.
Proof.
  unfold sweep. safe_all.
  - apply safe_does. unfold retire_invalid_ready_workers, check_ready_slot. does_all.
  - apply safe_does. unfold retire_dead_leased_workers, check_lease. does_all.
  - apply delete_retired_safe.
  - apply safe_does, remove_snapshots_free.
Qed.
Lemma reconcile_safe sample c : safe (reconcile_once sample c).
Proof.
  unfold reconcile_once, update_admission. apply safe_bind; [apply sweep_safe|]. intros [pools|e]; [|safe_all].
  apply safe_bind.
  - destruct sample; safe_all; apply safe_does, observations_free.
  - intros [c' [[]|e]]; safe_all. apply safe_does, schedule_free.
Qed.
Lemma run_safe events c : safe (run events c).
Proof.
  unfold run. apply safe_bind; [apply safe_does, recover_free|]. intros _. revert c.
  induction events as [|ev events IH]; intros c; [by intros w|]. cbn [run_events].
  destruct ev as [| |r|closed requested].
  - unfold reap_fill_tasks. safe_all; [apply safe_does, reap_free|apply reconcile_safe|apply IH].
  - unfold reap_fill_tasks. safe_all; [apply safe_does, reap_free|apply reconcile_safe|apply IH].
  - safe_all; [apply reconcile_safe|apply IH].
  - destruct (closed || requested); [by intros w|apply IH].
Qed.

End CtlSafe.

(** ** A fill *)

Module FillSafe.
Import Str Pool Admission PoolFacts OpFacts HistoryFacts Coupling SlotLife Proc Ctl Logic.

(** A worker that cannot have been handed out. *)
Definition unclaimed (o : option ForkPoolSlotState) : bool :=
  match o with None | Some Provisioning | Some Retiring => true | _ => false end.

(** What the results of a batch for [ms] look like: each worker reports at most
    once, and, in a [strict] schedule, all of them report unless the batch
    fails. *)
Definition reported (b : Batch) : list bytes := map fst (b_before b ++ b_after b).
Definition batch_ok (strict : bool) (ms : list bytes) (b : Batch) : Prop :=
  NoDup (reported b) /\ reported b ⊆ ms
  /\ (strict = true -> is_ok (b_outcome b) = true -> ms ⊆ reported b).

Section Fill.
Context (own : gset bytes) (strict : bool) (pool : ForkPoolRecord).

(** The names this fill makes up are reserved and marked ready by nobody else. *)
Definition rely_fill (d : Db) (op : PoolOp) : bool :=
  permitted d op
  && match op with
     | OpReady m _ | OpReserve _ m _ => negb (bool_decide (m ∈ own))
     | _ => true
     end.
Lemma rely_fill_permitted d op : rely_fill d op = true -> permitted d op = true.
Proof. unfold rely_fill. intros H. by bool_simpl. Qed.

Definition fair_fill (w : World) (mv : Move) : Prop :=
  worker_name (p_name pool) (short_id mv) ∈ own
  /\ (forall ms, batch_ok strict ms (batch mv ms))
  /\ (strict = true -> fault mv = None).

(** [ours]: workers nobody can have claimed; [pending]: those reserved and not
    yet dealt with. *)
Definition knows (ours pending : gset bytes) (w : World) : Prop :=
  forall m, (m ∈ ours -> m ∈ own /\ unclaimed (slot_state m (db w)) = true)
            /\ (strict = true -> m ∈ own -> m ∉ pending -> slot_state m (db w) <> Some Provisioning).

Lemma knows_stable ours pending : stable rely_fill (knows ours pending).
Proof.
  apply stable_forall. intros m. apply stable_and.
  - intros w e Hw H Hm. destruct (H Hm) as [Ho Hu]. split; [done|]. revert w e Hw H Hu.
    enough (stable rely_fill (fun w => unclaimed (slot_state m (db w)) = true)) as Hs by (intros; by apply Hs).
    apply (stable_slot rely_fill rely_fill_permitted m (fun o => unclaimed o = true)).
    intros d op a b Hop Hstep Ha. inv Hstep; try done. unfold rely_fill in Hop. by bool_simpl.
  - intros w e Hw H Hst Ho Hp. specialize (H Hst Ho Hp). revert w e Hw H.
    apply (stable_slot rely_fill rely_fill_permitted m (fun o => o <> Some Provisioning)).
    intros d op a b Hop Hstep Ha. inv Hstep; try done. unfold rely_fill in Hop. by bool_simpl.
Qed.

(** A write of our own that moves one slot only. *)
Lemma knows_write ours pending ours' pending' m w w' :
  knows ours pending w -> (forall j, j <> m -> slot_state j (db w') = slot_state j (db w)) ->
  (forall j, j <> m -> (j ∈ ours' -> j ∈ ours) /\ (j ∈ pending -> j ∈ pending')) ->
  (m ∈ ours' -> m ∈ own /\ unclaimed (slot_state m (db w')) = true) ->
  (strict = true -> m ∈ own -> m ∉ pending' -> slot_state m (db w') <> Some Provisioning) ->
  knows ours' pending' w'.
Proof.
  intros Hk Hf Hp H1 H2 j. destruct (decide (j = m)) as [->|Hne]; [done|].
  rewrite (Hf j Hne). destruct (Hp j Hne) as [Ho Hq], (Hk j) as [K1 K2]. split; [by auto|].
  intros Hst Hown Hj. apply K2; auto.
Qed.

Abbreviation W := (wp rely_fill fair_fill).

(** *** Reserving *)

Lemma reserve_workers_wp n machines w :
  sound w -> knows (list_to_set machines) (list_to_set machines) w ->
  W (reserve_workers n (p_name pool) machines) (fun ms w => sound w /\ knows (list_to_set ms) (list_to_set ms) w) w.
Proof.
  revert machines w. induction n as [|n IH]; intros machines w Hw Hk; [done|]. cbn [reserve_workers].
  apply wp_bind. eapply (wp_ask rely_fill fair_fill rely_fill_permitted _ _ _ _ (knows_stable _ _)); [done|exact Hk|].
  intros mv w1 [Hown _] Hw1 Hk1. set (machine := worker_name _ _) in *.
  apply wp_bind. eapply (wp_ask rely_fill fair_fill rely_fill_permitted _ _ _ _ (knows_stable _ _)); [done|exact Hk1|].
  intros mv2 w2 _ Hw2 Hk2.
  apply wp_bind. eapply (wp_tx rely_fill fair_fill rely_fill_permitted _ _ _ _ _ (knows_stable _ _)); [done|exact Hk2|].
  intros mv3 w3 _ Hw3 Hk3. destruct (fault mv3); [done|]. split; [done|]. intros Hs3.
  unfold after in *. cbn [run_op] in *.
  pose proof (reserve_spec (p_name pool) machine (timestamp mv2) (db w3)) as Hr.
  destruct (reserve_fork_pool_slot _ _ _ _) as [[] d']; cbn [fst snd] in *; [|subst d'; by destruct w3].
  apply IH; [done|]. destruct Hr as (p & _ & _ & _ & _ & Hm & ->).
  eapply (knows_write _ _ _ _ machine); [exact Hk3| | | |].
  - intros j Hj. apply slot_state_same. cbn. by rewrite lookup_insert_ne.
  - intros j Hj. set_solver.
  - intros _. split; [done|]. unfold slot_state. cbn. by rewrite lookup_insert_eq.
  - set_solver.
Qed.

(** *** One result *)

Lemma record_provision_wp ours pending status reason Q w :
  sound w -> knows ours pending w ->
  (forall w1, sound w1 -> knows ours pending w1 -> Q tt w1) ->
  W (record_provision status reason) Q w.
Proof.
  intros Hw Hk HQ.
  eapply (wp_locked rely_fill fair_fill rely_fill_permitted _ _ _ _ (knows_stable ours pending)); [done|done|].
  intros w1 H1 H2. apply HQ; [exact H1|exact H2].
Qed.

Lemma mark_ready_slots m now d :
  (forall j, j <> m -> slot_state j (mark_fork_pool_slot_ready m now d).2 = slot_state j d)
  /\ if (mark_fork_pool_slot_ready m now d).1
     then slot_state m (mark_fork_pool_slot_ready m now d).2 = Some Ready
     else (mark_fork_pool_slot_ready m now d).2 = d.
Proof.
  unfold mark_fork_pool_slot_ready, update_fork_pool_slot_state.
  destruct (slots d !! m) as [row|] eqn:E; [|done]. case_bool_guard; [|done]. cbn [fst snd]. split.
  - intros j Hj. by rewrite slot_state_write, decide_False.
  - by rewrite slot_state_write, decide_True, E.
Qed.

Lemma retirement_reason_wp ours pending m r w :
  sound w -> knows ours pending w -> m ∈ ours ->
  W (retirement_reason m r)
    (fun o w => sound w /\ match o with None => knows (ours ∖ {[m]}) (pending ∖ {[m]}) w | Some _ => knows ours pending w end) w.
Proof.
  intros Hw Hk Hm. unfold retirement_reason. destruct r as [[]|detail].
  - apply wp_bind. eapply (wp_ask rely_fill fair_fill rely_fill_permitted _ _ _ _ (knows_stable _ _)); [done|exact Hk|].
    intros mv w1 _ Hw1 Hk1. apply wp_bind.
    eapply (wp_tx rely_fill fair_fill rely_fill_permitted _ _ _ _ _ (knows_stable _ _)); [done|exact Hk1|].
    intros mv2 w2 _ Hw2 Hk2. destruct (fault mv2) as [[e|e]|].
    + apply wp_bind. by eapply record_provision_wp.
    + apply wp_bind. by eapply record_provision_wp.
    + split; [done|]. intros Hs. unfold after in *. cbn [run_op] in *.
      destruct (mark_ready_slots m (timestamp mv) (db w2)) as [Hf Hr].
      destruct (mark_fork_pool_slot_ready m (timestamp mv) (db w2)) as [[] d']; cbn [fst snd] in *.
      * apply wp_bind. eapply (record_provision_wp (ours ∖ {[m]}) (pending ∖ {[m]})); [done| |done].
        eapply (knows_write _ _ _ _ m); [exact Hk2|exact Hf|set_solver|set_solver|]. intros _ _ _. cbn. by rewrite Hr.
      * subst d'. apply wp_bind. by eapply record_provision_wp.
  - apply wp_bind. by eapply record_provision_wp.
  - apply wp_bind. by eapply record_provision_wp.
Qed.

Lemma retire_failed_wp ours pending m message w :
  sound w -> knows ours pending w -> m ∈ ours ->
  W (retire_failed_provision m message) (fun _ w => sound w /\ knows ours (pending ∖ {[m]}) w) w.
Proof.
  intros Hw Hk Hm. unfold retire_failed_provision.
  apply wp_bind. eapply (wp_ask rely_fill fair_fill rely_fill_permitted _ _ _ _ (knows_stable _ _)); [done|exact Hk|].
  intros mv w1 _ Hw1 Hk1. apply wp_bind.
  eapply (wp_tx rely_fill fair_fill rely_fill_permitted _ _ _ _ _ (knows_stable _ _)); [done|exact Hk1|].
  intros mv2 w2 (_ & _ & Hnf) Hw2 Hk2. destruct (fault mv2) as [f|].
  { split; [done|]. eapply (knows_write _ _ _ _ m); [exact Hk2|done|set_solver|apply Hk2|]. intros Hst. by specialize (Hnf Hst). }
  destruct (Hk2 m) as [Hu _]. destruct (Hu Hm) as [Ho Hun]. split.
  - cbn [permitted]. rewrite in_use_state. by destruct (slot_state m (db w2)) as [[]|].
  - intros Hs. split; [done|].
    assert (Hst : forall j, slot_state j (db (after (OpRetire m (timestamp mv) (Some message)) w2))
      = if decide (j = m) then (fun _ => Retiring) <$> slots (db w2) !! m else slot_state j (db w2)).
    { intros j. unfold after. cbn [run_op db]. unfold mark_fork_pool_slot_retiring.
      destruct (slots (db w2) !! m) as [row|] eqn:E; cbn [snd].
      - rewrite slot_state_write, E. by case_decide.
      - unfold slot_state. case_decide; [subst; by rewrite E|done]. }
    eapply (knows_write _ _ _ _ m); [exact Hk2| |set_solver| |].
    + intros j Hj. by rewrite Hst, decide_False.
    + intros _. split; [done|]. rewrite Hst, decide_True by done. by destruct (slots (db w2) !! m).
    + intros _ _ _. rewrite Hst, decide_True by done. by destruct (slots (db w2) !! m).
Qed.

Lemma finish_provision_wp ours pending m r w :
  sound w -> knows ours pending w -> m ∈ ours ->
  W (finish_provision m r) (fun _ w => sound w /\ knows (ours ∖ {[m]}) (pending ∖ {[m]}) w) w.
Proof.
  intros Hw Hk Hm. unfold finish_provision. apply wp_bind.
  eapply wp_mono; [|by apply (retirement_reason_wp ours pending)]. intros [reason|] w1 [Hw1 Hk1]; [|done].
  apply wp_bind. eapply wp_mono; [|by apply (retire_failed_wp ours pending)]. intros [] w2 [Hw2 Hk2].
  split; [done|]. intros j. destruct (Hk2 j) as [K1 K2]. split; [set_solver|done].
Qed.

Lemma process_results_wp ours pending results a w :
  sound w -> knows ours pending w -> NoDup (map fst results) -> (forall m, m ∈ map fst results -> m ∈ ours) ->
  W (process_results results a)
    (fun a' w => sound w /\ knows (ours ∖ list_to_set (map fst results)) (pending ∖ list_to_set (map fst results)) w
       /\ completed a' = reverse (map fst results) ++ completed a) w.
Proof.
  revert ours pending a w. induction results as [|[m r] results IH]; intros ours pending a w Hw Hk Hnd Hin.
  { split; [done|]. split; [|done]. cbn. by rewrite !difference_empty_L. }
  cbn [map fst] in *. apply NoDup_cons in Hnd as [Hm Hnd]. cbn [process_results]. apply wp_bind.
  eapply wp_mono; [|apply (finish_provision_wp ours pending); [done|done|apply Hin; by left]].
  intros f w1 [Hw1 Hk1]. eapply wp_mono; [|apply (IH (ours ∖ {[m]}) (pending ∖ {[m]})); try done].
  - intros a' w2 (H1 & H2 & H3). split; [done|]. split.
    + cbn [list_to_set]. by rewrite !difference_difference_l_L in H2.
    + rewrite H3, reverse_cons, <-app_assoc. f_equal. by destruct f.
  - intros j Hj. apply elem_of_difference. split; [apply Hin; by right|].
    intros ->%elem_of_singleton. done.
Qed.

(** *** The end of a batch *)

Lemma retire_unreported_wp ours pending machines done_ error s w :
  sound w -> knows ours pending w -> (forall m, m ∈ machines -> m ∉ done_ -> m ∈ ours) ->
  W (retire_unreported machines done_ error s)
    (fun _ w => sound w /\ knows ours (pending ∖ (list_to_set machines ∖ list_to_set done_)) w) w.
Proof.
  revert pending s w. induction machines as [|m machines IH]; intros pending s w Hw Hk Hin.
  { split; [done|]. by replace (pending ∖ (list_to_set [] ∖ list_to_set done_)) with pending by set_solver. }
  cbn [retire_unreported list_to_set]. case_bool_guard.
  - eapply wp_mono; [|apply (IH pending); [done|done|]].
    + intros ? w1 [H1 H2]. split; [done|].
      by replace (({[m]} ∪ list_to_set machines) ∖ list_to_set done_ : gset bytes)
        with (list_to_set machines ∖ list_to_set done_ : gset bytes) by set_solver.
    + intros j Hj. apply Hin. by right.
  - apply wp_bind. eapply (record_provision_wp ours pending); [done|done|]. intros w1 Hw1 Hk1.
    apply wp_bind. eapply wp_mono; [|apply (retire_failed_wp ours pending); [done|done|apply Hin; [by left|done]]].
    intros _ w2 [Hw2 Hk2]. eapply wp_mono; [|apply (IH (pending ∖ {[m]})); [done|done|]].
    + intros ? w3 [H1 H2]. split; [done|]. rewrite difference_difference_l_L in H2.
      replace (({[m]} ∪ list_to_set machines) ∖ list_to_set done_ : gset bytes)
        with ({[m]} ∪ list_to_set machines ∖ list_to_set done_ : gset bytes) by set_solver. done.
    + intros j Hj. apply Hin. by right.
Qed.

Lemma publish_wp ours pending golden hint proven w :
  sound w -> knows ours pending w ->
  W (publish golden hint proven) (fun _ w => sound w /\ knows ours pending w) w.
Proof.
  intros Hw Hk.
  eapply (wp_locked rely_fill fair_fill rely_fill_permitted _ _ _ _ (knows_stable ours pending)); [done|done|].
  intros w1 H1 H2. split; [exact H1|exact H2].
Qed.

Lemma discard_wp ours pending golden (b : bool) w :
  sound w -> knows ours pending w ->
  W (if b then
       do _ := locked (fun s => (tt, with_retained (delete golden) s)) in
       do _ := transact (OpRemoveSnapshot golden) (fun d => (remove_retained_fork_snapshot golden d).1) in
       Ret tt
     else Ret tt) (fun _ w => sound w /\ knows ours pending w) w.
Proof.
  intros Hw Hk. destruct b; [|done]. apply wp_bind.
  eapply (wp_locked rely_fill fair_fill rely_fill_permitted _ _ _ _ (knows_stable ours pending)); [done|done|].
  intros w1 H1 H2. apply wp_bind.
  eapply (wp_tx rely_fill fair_fill rely_fill_permitted _ _ _ _ _ (knows_stable ours pending)); [exact H1|exact H2|].
  intros mv w2 _ H3 H4. destruct (fault mv); [done|]. split; [done|]. intros H5. split; [exact H5|exact H4].
Qed.

Lemma sync_wp ours pending golden w :
  sound w -> knows ours pending w -> W (sync_retained golden) (fun _ w => sound w /\ knows ours pending w) w.
Proof.
  intros Hw Hk. unfold sync_retained. apply wp_bind.
  eapply (wp_query rely_fill fair_fill rely_fill_permitted _ _ _ _ (knows_stable ours pending)); [done|done|].
  intros w1 r H1 H2 _. destruct r as [[snapshot|]|e]; [| |done].
  all: eapply (wp_locked rely_fill fair_fill rely_fill_permitted _ _ _ _ (knows_stable ours pending)); [done|done|];
    intros w2 H3 H4; split; [exact H3|exact H4].
Qed.

Lemma conclude_batch_wp (M D : gset bytes) golden machines hint b a w :
  sound w -> M = list_to_set machines -> knows (M ∖ D) (M ∖ D) w ->
  (forall m, m ∈ completed a <-> m ∈ D) ->
  (strict = true -> is_ok (b_outcome b) = true -> M ⊆ D) ->
  W (conclude_batch golden machines hint b a) (fun _ w => sound w /\ (strict = true -> knows ∅ ∅ w)) w.
Proof.
  intros Hw HM Hk Hdone Hall. unfold conclude_batch. apply wp_bind.
  eapply (wp_mono _ _ _ (fun _ w => sound w /\ exists U, knows U (if strict then ∅ else M) w)).
  - intros s w1 (Hw1 & U & Hk1). apply wp_bind. eapply wp_mono; [|by apply (discard_wp U)].
    intros _ w2 [Hw2 Hk2]. split; [done|]. intros Hst. rewrite Hst in Hk2. intros m.
    destruct (Hk2 m) as [_ K]. split; [set_solver|]. intros _. by apply K.
  - destruct (b_outcome b) as [snapshot|error] eqn:Eo.
    + apply wp_bind. eapply (wp_mono _ _ _ (fun _ w => sound w /\ knows (M ∖ D) (M ∖ D) w)).
      2: { destruct (b_snapshot b); [done|by apply publish_wp]. }
      intros _ w1 [Hw1 Hk1]. split; [done|]. exists (M ∖ D).
      intros m. destruct (Hk1 m) as [K1 K2]. split; [done|]. intros Hst Ho Hm. apply K2; [done|done|].
      specialize (Hall Hst eq_refl). clear -Hall. set_solver.
    + eapply wp_mono; [|apply (retire_unreported_wp (M ∖ D) (M ∖ D)); [done|done|]].
      * intros s w1 [Hw1 Hk1]. split; [done|]. exists (M ∖ D). intros m. destruct (Hk1 m) as [K1 K2].
        split; [done|]. intros Hst Ho Hm. apply K2; [done|done|].
        rewrite elem_of_difference. intros [H1 H2]. apply H2, elem_of_difference. split; [set_solver|].
        rewrite elem_of_list_to_set, Hdone. set_solver.
      * intros m Hm Hd. rewrite Hdone in Hd. set_solver.
Qed.

Lemma fill_pool_wp w :
  sound w -> knows ∅ ∅ w ->
  W (fill_pool pool) (fun _ w => sound w /\ (strict = true -> knows ∅ ∅ w)) w.
Proof.
  intros Hw Hk. unfold fill_pool. apply wp_bind.
  eapply wp_mono; [|by apply (reserve_workers_wp _ [])]. intros machines w1 [Hw1 Hk1].
  destruct machines as [|m0 ms]; [done|]. set (machines := m0 :: ms) in *. set (M := list_to_set machines) in *.
  apply wp_bind. eapply wp_mono; [|by apply (sync_wp M M)]. intros _ w2 [Hw2 Hk2].
  apply wp_bind. eapply (wp_locked rely_fill fair_fill rely_fill_permitted _ _ _ _ (knows_stable M M)); [done|done|].
  intros w3 Hw3 Hk3. apply wp_bind.
  eapply (wp_ask rely_fill fair_fill rely_fill_permitted _ _ _ _ (knows_stable M M)); [exact Hw3|exact Hk3|].
  intros mv w4 (_ & Hb & _) Hw4 Hk4. destruct (Hb machines) as (Hnd & Hsub & Hall). clear Hb.
  set (b := batch mv machines) in *. unfold reported in *. rewrite map_app in *.
  apply NoDup_app in Hnd as (Hnd1 & Hdis & Hnd2).
  apply wp_bind. eapply wp_mono; [|apply (process_results_wp M M); [done|done|done|set_solver]].
  intros a1 w5 (Hw5 & Hk5 & Hc5). set (B := list_to_set (map fst (b_before b)) : gset bytes) in *.
  apply wp_bind. eapply (wp_mono _ _ _ (fun _ w => sound w /\ knows (M ∖ B) (M ∖ B) w)).
  2: { destruct (b_snapshot b); [by apply publish_wp|done]. }
  intros _ w6 [Hw6 Hk6].
  apply wp_bind. eapply wp_mono; [|apply (process_results_wp (M ∖ B) (M ∖ B)); [done|done|done|set_solver]].
  intros a2 w7 (Hw7 & Hk7 & Hc7). set (A := list_to_set (map fst (b_after b)) : gset bytes) in *.
  assert (Hdone : forall m, m ∈ completed a2 <-> m ∈ B ∪ A).
  { intros m. rewrite Hc7, Hc5. rewrite !elem_of_app, !elem_of_reverse. unfold A, B. cbn [completed]. set_solver. }
  apply (conclude_batch_wp M (B ∪ A)); try done.
  - by rewrite difference_difference_l_L in Hk7.
  - intros Hst Ho. specialize (Hall Hst Ho). clear -Hall. set_solver.
Qed.

End Fill.
End FillSafe.

(** ** Recovery *)

Module Recover.
Import Str Pool Admission PoolFacts ClaimFacts OpFacts HistoryFacts Coupling SlotLife Proc Ctl Logic CtlSafe.

(** No fill runs before the recovery is over, so nobody reserves slots. *)
Definition rely_recover (d : Db) (op : PoolOp) : bool :=
  permitted d op && match op with OpReserve _ _ _ => false | _ => true end.
Lemma rely_recover_permitted d op : rely_recover d op = true -> permitted d op = true.
Proof. unfold rely_recover. intros H. by bool_simpl. Qed.

(** A transaction other than a reservation makes no slots and moves none to
    another pool. *)
Lemma run_op_origin op d m row' :
  db_ok d -> (forall p k t, op <> OpReserve p k t) -> slots (run_op op d) !! m = Some row' ->
  exists row, slots d !! m = Some row /\ sr_pool row' = sr_pool row.
Proof.
  intros Hd Hn. pose proof (db_ok_good d Hd) as Hg.
  assert (K : forall d0 d', slots d0 = slots d -> slots_le (slots d0) (slots d') ->
    slots d' !! m = Some row' -> exists row, slots d !! m = Some row /\ sr_pool row' = sr_pool row).
  { intros d0 d' E Hle H. destruct (Hle _ _ H) as (row & H1 & H2 & _). rewrite E in H1. eauto. }
  destruct op; cbn [run_op].
  all: try (apply (K d); [done|]).
  - unfold insert_fork_pool_if_not_exists. by case_match.
  - done.
  - done.
  - destruct (pools d !! name) as [p|] eqn:Ep; [|by unfold resize_fork_pool; rewrite Ep].
    destruct (deleting p) eqn:Ed; [by unfold resize_fork_pool; rewrite Ep, Ed|].
    destruct (resize_spec name desired now d p) as (He & _); [done..|]. exact (eff_slots _ _ He).
  - by destruct (Hn pool machine now).
  - apply update_state_effect; auto.
  - apply update_state_effect; auto.
  - by apply retire_effect.
  - apply (remove_slot_effect machine d Hg).
  - by apply claim_spec.
  - by apply transition_effect.
  - by apply transition_effect.
  - by apply transition_effect.
  - by apply heartbeat_effect.
  - by apply complete_effect.
  - by apply expire_effect.
  - destruct (begin_delete_fork_pool name force now d) as [[[]|] d'] eqn:E.
    + destruct (begin_delete_spec name force now d d' Hg E) as (p & _ & _ & He & _). exact (eff_slots _ _ He).
    + unfold begin_delete_fork_pool in E. repeat case_match; by inv E.
    + unfold begin_delete_fork_pool in E. repeat case_match; by inv E.
  - destruct (finalize_rows (map_to_list (pools d)) [] d) as (_ & Hs & _). fold (finalize_deleted_fork_pools d) in Hs.
    by rewrite Hs.
Qed.

(** Every slot still being provisioned satisfies [C], of its machine and pool. *)
Definition covered (C : bytes -> bytes -> Prop) (d : Db) : Prop :=
  forall m row, slots d !! m = Some row -> s_state (sr_data row) = Provisioning -> C m (sr_pool row).

Lemma covered_run_op C op d :
  db_ok d -> coupled d -> permitted d op = true -> (forall p k t, op <> OpReserve p k t) ->
  covered C d -> covered C (run_op op d).
Proof.
  intros Hd Hc Hp Hn HC m row Hm Hs. destruct (run_op_origin op d m row Hd Hn Hm) as (row0 & H0 & ->).
  apply HC; [done|]. pose proof (run_op_slot op m d Hd Hc Hp) as Hstep. unfold slot_state in Hstep.
  rewrite Hm, H0 in Hstep. cbn in Hstep. rewrite Hs in Hstep. by inv Hstep.
Qed.

Lemma covered_stable C : stable rely_recover (fun w => covered C (db w)).
Proof.
  intros w s [Hd Hc] HC. destruct s as [op|name [r|]|f]; cbn [env_step]; [|done..].
  destruct (rely_recover (db w) op) eqn:E; [|done]. unfold rely_recover in E. bool_simpl.
  apply covered_run_op; [done|done|done| |done]. by intros p k t ->.
Qed.

Abbreviation W := (wp rely_recover any).

(** A transaction that leaves machine [m] not being provisioned. *)
Lemma settle_wp {B} C m op (out : Db -> B) w :
  sound w -> covered C (db w) -> free op -> (forall p k t, op <> OpReserve p k t) ->
  (forall d, db_ok d -> slot_state m (run_op op d) <> Some Provisioning) ->
  W (exec_op op out)
    (fun r w => sound w /\ match r with Ok _ => covered (fun j p => C j p /\ j <> m) (db w) | Err _ => True end) w.
Proof.
  intros Hw HC Hf Hn Hm.
  eapply (wp_exec_op rely_recover any rely_recover_permitted _ _ _ _ _ (covered_stable C)); [done|done|].
  intros mv w1 _ Hw1 HC1. destruct (fault mv); [done|]. split; [apply Hf|]. intros Hs. split; [done|].
  unfold after in *. cbn [db] in *. intros j row Hj Hst. split.
  - destruct Hw1 as [Hd Hc]. exact (covered_run_op C op (db w1) Hd Hc (Hf _) Hn HC1 j row Hj Hst).
  - intros ->. apply (Hm (db w1)); [apply Hw1|]. unfold slot_state. rewrite Hj. cbn. by rewrite Hst.
Qed.

Lemma leaves_provisioning m next now error d :
  db_ok d -> next <> Provisioning ->
  slot_state m (update_fork_pool_slot_state m Provisioning next now error d).2 <> Some Provisioning.
Proof.
  intros Hd Hn. unfold update_fork_pool_slot_state, slot_state at 1.
  destruct (slots d !! m) as [row|] eqn:E; [|by cbn; rewrite E].
  case_bool_guard; cbn [snd].
  - rewrite update_slot_lookup, E. cbn. congruence.
  - rewrite E. cbn. intros [= H]. pose proof (ok_slots _ Hd _ _ E) as (_ & _ & Hs). by rewrite Hs, H in E0.
Qed.

Lemma recover_slot_wp C p s w :
  sound w -> covered C (db w) ->
  W (recover_slot p s)
    (fun r w => sound w /\ match r with
                           | Ok _ => covered (fun j q => C j q /\ j <> s_machine_name s) (db w)
                           | Err _ => True end) w.
Proof.
  intros Hw HC. unfold recover_slot. apply wp_bind.
  eapply (wp_query rely_recover any rely_recover_permitted _ _ _ _ (covered_stable C)); [done|done|].
  intros w1 [vm|e] Hw1 HC1 _; [|done]. apply wp_bind.
  eapply (wp_ask rely_recover any rely_recover_permitted _ _ _ _ (covered_stable C)); [done|done|].
  intros mv w2 _ Hw2 HC2. apply wp_bind.
  eapply (wp_ask rely_recover any rely_recover_permitted _ _ _ _ (covered_stable C)); [done|done|].
  intros mv3 w3 _ Hw3 HC3. case_match; apply wp_bind.
  all: eapply wp_mono; [|apply (settle_wp C (s_machine_name s)); try done];
    [by intros [[]|e] w4 [H4 H5]|intros d Hd; by apply leaves_provisioning].
Qed.

Lemma listed_provisioning pool d m row :
  good d -> slots d !! m = Some row -> sr_pool row = pool -> s_state (sr_data row) = Provisioning ->
  m ∈ map s_machine_name (slots_in Provisioning (list_fork_pool_slots pool d)).
Proof.
  intros Hg Hm Hp Hs. pose proof (proj1 Hg _ _ Hm) as (A & _ & _).
  apply list_elem_of_In, in_map_iff. exists (sr_data row). split; [done|]. apply filter_In.
  split; [|by rewrite bool_decide_true]. apply in_map_iff. exists (m, row). split; [done|].
  apply list_elem_of_In, elem_of_order_by_key, elem_of_select. split; [done|]. by rewrite bool_decide_true.
Qed.

Lemma recover_wp w :
  sound w ->
  W recover_interrupted_provisioning
    (fun r w => sound w /\ (is_ok r = true -> forall m, slot_state m (db w) <> Some Provisioning)) w.
Proof.
  intros Hw. unfold recover_interrupted_provisioning. apply wp_bind.
  eapply (wp_query rely_recover any rely_recover_permitted (fun _ => True)); [by apply stable_true|done|done|].
  intros w1 [ps|e] Hw1 _ Hr; [|done]. destruct Hr as [[= ->]|?]; [|done].
  set (I := fun (l : list ForkPoolRecord) (w : World) => covered (fun _ q => q ∈ map p_name l) (db w)).
  eapply wp_mono; [|apply (wp_for_each rely_recover any I (fun _ => True))]; [| |done|].
  - intros [[]|e] w2 [H1 H2]; (split; [done|]); [|done]. intros _ m Hm. unfold slot_state in Hm.
    destruct (slots (db w2) !! m) as [row|] eqn:E; [|done]. injection Hm as Hm.
    specialize (H2 m row E Hm). by apply elem_of_nil in H2.
  - intros p l w2 Hw2 HI. apply wp_bind.
    eapply (wp_query rely_recover any rely_recover_permitted _ _ _ _ (covered_stable _)); [done|exact HI|].
    intros w3 [sl|e] Hw3 HI3 Hr; [|done]. destruct Hr as [[= ->]|?]; [|done].
    set (J := fun (sl : list ForkPoolSlotRecord) (w : World) =>
      covered (fun m q => q ∈ map p_name l \/ m ∈ map s_machine_name sl) (db w)).
    eapply wp_mono; [|apply (wp_for_each rely_recover any J (fun _ => True)); [|done|]].
    + intros [[]|e] w4 [H1 H2]; (split; [done|]); [|done]. intros m row Hm Hs.
      destruct (H2 m row Hm Hs) as [?|H]; [done|by apply elem_of_nil in H].
    + intros s sl w4 Hw4 HJ. eapply wp_mono; [|exact (recover_slot_wp _ p s w4 Hw4 HJ)].
      intros [[]|e] w5 [H1 H2]; (split; [done|]); [|done]. intros m row Hm Hs.
      destruct (H2 m row Hm Hs) as [[?|H] Hne]; [by left|right]. by apply elem_of_cons in H as [?|?].
    + intros m row Hm Hs. specialize (HI3 m row Hm Hs). cbn [map] in HI3.
      apply elem_of_cons in HI3 as [E|H]; [right|by left].
      by eapply listed_provisioning; [apply db_ok_good, Hw3|..].
  - intros m row Hm Hs. destruct (ok_owned _ (proj1 Hw1) m row Hm) as [p Hp].
    rewrite <-(ok_pools _ (proj1 Hw1) _ _ Hp). apply list_elem_of_In, in_map. unfold list_fork_pools.
    apply in_map_iff. exists (sr_pool row, p). split; [done|].
    apply list_elem_of_In, elem_of_order_by_key. by apply elem_of_map_to_list.
Qed.

End Recover.
