(* ===== verification/PoolCtlProps.v ===== *)
(** * PoolCtlProps: what the pool controller promises *)

From S2P Require Import Prelude RustStr ForkPool ForkPoolFacts ForkPoolClaim ForkPoolProps Admission.
From S2P Require Import PoolCtl PoolCoupling PoolCtlLogic PoolCtlSafe.

(** ** A fill that nothing disturbs *)

Module QuietFill.
Import Str Pool Admission PoolFacts OpFacts HistoryFacts Coupling Proc Ctl Logic.

Definition alone (d : Db) (op : PoolOp) : bool := false.

Section Quiet.
Context (pool : ForkPoolRecord).

(** No interference, no failure, ids not in use, and every worker boots held. *)
Definition fair_quiet (w : World) (mv : Move) : Prop :=
  interference mv = [] /\ fault mv = None
  /\ slots (db w) !! worker_name (p_name pool) (short_id mv) = None
  /\ forall ms, b_before (batch mv ms) ++ b_after (batch mv ms) ≡ₚ map (fun m => (m, Ok true)) ms
                /\ is_ok (b_outcome (batch mv ms)) = true.

Abbreviation W := (wp alone fair_quiet).

Lemma quiet_ask {B} (q : Move -> B) Q w : (forall mv, fair_quiet w mv -> Q (q mv) w) -> W (ask q) Q w.
Proof. intros H mv Hmv. pose proof Hmv as (Hi & _). rewrite Hi. by apply H. Qed.
Lemma quiet_tx {B} op (out : Db -> B) Q w :
  permitted (db w) op = true -> Q (Ok (out (db w))) (after op w) -> W (transact op out) Q w.
Proof. intros Hp H mv (Hi & Hf & _). cbn zeta. rewrite Hf, Hi. done. Qed.
Lemma quiet_locked {B} (f : Shared -> B * Shared) Q w :
  Q (f (shared w)).1 (MkWorld (db w) (f (shared w)).2) -> W (locked f) Q w.
Proof. intros H mv (Hi & _). cbn zeta. rewrite Hi. done. Qed.
Lemma quiet_query {B} (q : Db -> result B bytes) Q w : Q (q (db w)) w -> W (query q) Q w.
Proof. intros H mv (Hi & Hf & _). cbn zeta. rewrite Hf, Hi. cbn. by destruct (q (db w)). Qed.

(** The pool's target, and how many of its workers are available and ready. *)
Record standing (desired a r : Z) (d : Db) : Prop := {
  st_pool : exists p, pools d !! p_name pool = Some p /\ deleting p = false /\ desired_ready p = desired;
  st_activating : count (slot_in (p_name pool) [SlotActivating]) (slots d) = 0;
  st_available : available (p_name pool) d = a;
  st_ready : count (slot_in (p_name pool) [Ready]) (slots d) = r;
}.

Definition provisioning_slot (d : Db) (m : bytes) : Prop :=
  exists row, slots d !! m = Some row /\ sr_pool row = p_name pool /\ sr_state row = bs "provisioning".

Lemma reserve_standing desired a r m now d :
  standing desired a r d -> slots d !! m = None ->
  let res := reserve_fork_pool_slot (p_name pool) m now d in
  if a <? desired then res.1 = true /\ standing desired (a + 1) r res.2 /\ provisioning_slot res.2 m
       /\ (forall j, provisioning_slot d j -> provisioning_slot res.2 j)
       /\ (forall j, j <> m -> slots res.2 !! j = slots d !! j)
  else res = (false, d).
Proof.
  intros [(p & Hp & Hdel & Hdes) Hact Hav Hr] Hm. unfold reserve_fork_pool_slot. rewrite Hp, Hdel, Hact, Hav, Hdes, Hm.
  rewrite Z.geb_leb, Z.leb_antisym. cbn [Z.gtb Z.compare]. destruct (a <? desired); cbn [negb]; [|done].
  cbn [fst snd]. split; [done|]. split; [constructor; cbn [with_slots pools slots]|split; [|split]].
  - eauto.
  - rewrite count_insert_None by done. rewrite Hact. unfold slot_in. cbn [sr_pool sr_state].
    rewrite bool_decide_true by done. done.
  - unfold available in *. cbn [with_slots slots]. rewrite count_insert_None by done. rewrite Hav. unfold slot_in.
    cbn [sr_pool sr_state]. rewrite bool_decide_true by done. done.
  - rewrite count_insert_None by done. rewrite Hr. unfold slot_in. cbn [sr_pool sr_state].
    rewrite bool_decide_true by done. exact (Z.add_0_r r).
  - eexists. cbn [with_slots slots]. by rewrite lookup_insert_eq.
  - intros j (row & Hj & H). exists row. cbn [with_slots slots]. rewrite lookup_insert_ne by congruence. done.
  - intros j Hj. cbn [with_slots slots]. by rewrite lookup_insert_ne.
Qed.

Lemma reserve_quiet n desired a r machines w :
  standing desired a r (db w) -> NoDup machines -> Forall (provisioning_slot (db w)) machines ->
  W (reserve_workers n (p_name pool) machines)
    (fun ms w => exists new, ms = machines ++ new /\ len new = Z.min (Z.of_nat n) (Z.max 0 (desired - a))
       /\ NoDup ms /\ Forall (provisioning_slot (db w)) ms /\ standing desired (a + len new) r (db w)) w.
Proof.
  revert a machines w. induction n as [|n IH]; intros a machines w Hs Hnd Hp.
  { cbn [reserve_workers wp]. exists []. rewrite app_nil_r. split; [done|]. split; [unfold len; cbn; lia|].
    unfold len. cbn. by rewrite Z.add_0_r. }
  cbn [reserve_workers]. apply wp_bind, quiet_ask. intros mv (_ & _ & Hfresh & _).
  apply wp_bind, quiet_ask. intros mv2 _. set (machine := worker_name _ _) in *. apply wp_bind, quiet_tx; [done|].
  pose proof (reserve_standing desired a r machine (timestamp mv2) (db w) Hs Hfresh) as H. cbn zeta in H.
  unfold after. cbn [run_op]. destruct (a <? desired) eqn:E; bool_simpl.
  - destruct H as (Hok & Hs' & Hm & Hkeep & _). rewrite Hok.
    eapply wp_mono; [|apply (IH (a + 1)); cbn [db]; [done| |]].
    + intros ms w' (new & -> & Hlen & Hnd' & Hp' & Hs''). exists (machine :: new). rewrite <-app_assoc in *.
      split; [done|]. unfold len in *. cbn [length] in *. split; [lia|]. split; [done|]. split; [done|].
      by replace (a + Z.of_nat (S (length new))) with (a + 1 + Z.of_nat (length new)) by lia.
    + apply NoDup_app. split; [done|]. split; [|apply NoDup_singleton].
      intros x Hx ->%list_elem_of_singleton. rewrite Forall_forall in Hp. destruct (Hp _ Hx) as (row & Hr & _). congruence.
    + apply Forall_app. split; [|by constructor]. eapply Forall_impl; [done|]. exact Hkeep.
  - rewrite H. cbn [fst snd]. exists []. rewrite app_nil_r. split; [done|]. split; [unfold len; cbn; lia|].
    unfold len. cbn. rewrite Z.add_0_r. by destruct w.
Qed.

(** *** Booting *)

Lemma ready_standing desired a r m now d :
  standing desired a r d -> provisioning_slot d m ->
  let res := mark_fork_pool_slot_ready m now d in
  res.1 = true /\ standing desired a (r + 1) res.2
  /\ forall j, j <> m -> provisioning_slot d j -> provisioning_slot res.2 j.
Proof.
  intros [Hp Hact Hav Hr] (row & Hm & Hpool & Hst).
  unfold mark_fork_pool_slot_ready, update_fork_pool_slot_state. rewrite Hm, Hst. cbn zeta.
  rewrite bool_decide_true by done. cbn [fst snd]. split; [done|].
  set (data := set_slot_state_error _ _ _ _).
  set (row' := MkSlotRow (p_name pool) (bs "ready") data).
  assert (Es : slots (update_slot m data (slot_as_str Ready) d) = <[m := row']> (slots d)).
  { unfold update_slot. cbn [with_slots slots]. apply map_eq. intros j. destruct (decide (m = j)) as [<-|Hne].
    - rewrite lookup_alter_eq, lookup_insert_eq, Hm. cbn. unfold row'. by rewrite Hpool.
    - by rewrite lookup_alter_ne, lookup_insert_ne. }
  assert (Hc : forall st, count (slot_in (p_name pool) st) (<[m := row']> (slots d))
    = count (slot_in (p_name pool) st) (slots d) + b2z (slot_in (p_name pool) st row') - b2z (slot_in (p_name pool) st row)).
  { intros st. by apply count_insert_Some. }
  assert (Hin : forall st, slot_in (p_name pool) st row = bool_decide (bs "provisioning" ∈ map slot_as_str st)
                      /\ slot_in (p_name pool) st row' = bool_decide (bs "ready" ∈ map slot_as_str st)).
  { intros st. unfold slot_in. rewrite Hpool, Hst. cbn [sr_pool row' sr_state]. by rewrite bool_decide_true. }
  split; [constructor|].
  - exact Hp.
  - rewrite Es, Hc, Hact. destruct (Hin [SlotActivating]) as [-> ->]. done.
  - unfold available in *. rewrite Es, Hc, Hav. destruct (Hin [Provisioning; Ready]) as [-> ->]. exact (Z.add_simpl_r a 1).
  - rewrite Es, Hc, Hr. destruct (Hin [Ready]) as [-> ->]. exact (Z.sub_0_r (r + 1)).
  - intros j Hj (rj & H1 & H2). exists rj. rewrite Es, lookup_insert_ne by done. done.
Qed.

Lemma process_quiet desired a r results ms acc w :
  results = map (fun m => (m, Ok true)) ms -> NoDup ms -> standing desired a r (db w) ->
  Forall (provisioning_slot (db w)) ms ->
  W (process_results results acc)
    (fun acc' w' => standing desired a (r + len ms) (db w')
       /\ stats acc' = MkStats (ready (stats acc) + len ms) (failed (stats acc))
       /\ stale_checkpoint acc' = stale_checkpoint acc
       /\ forall j, j ∉ ms -> provisioning_slot (db w) j -> provisioning_slot (db w') j) w.
Proof.
  intros ->. revert r acc w. induction ms as [|m ms IH]; intros r acc w Hnd Hs Hp.
  { cbn [map process_results wp]. change (len []) with 0. rewrite !Z.add_0_r. split; [done|].
    split; [by destruct (stats acc)|done]. }
  apply NoDup_cons in Hnd as [Hm Hnd]. apply Forall_cons in Hp as [Hpm Hp].
  cbn [map process_results]. unfold finish_provision, retirement_reason.
  apply wp_bind, wp_bind, wp_bind, quiet_ask. intros mv _. apply wp_bind, quiet_tx; [done|].
  destruct (ready_standing desired a r m (timestamp mv) (db w) Hs Hpm) as (Hok & Hs' & Hkeep).
  unfold after. cbn [run_op]. rewrite Hok. apply wp_bind, quiet_locked. cbn [fst snd db shared wp].
  eapply wp_mono; [|apply (IH (r + 1)); cbn [db]; [done|done|]].
  - intros acc' w' (H1 & H2 & H3 & H4). unfold len in *. cbn [length note_result stats ready failed stale_checkpoint] in *.
    split; [by replace (r + Z.of_nat (S (length ms))) with (r + 1 + Z.of_nat (length ms)) by lia|].
    split; [rewrite H2; f_equal; lia|]. split; [done|].
    intros j Hj Hjp. rewrite not_elem_of_cons in Hj. destruct Hj. apply H4; [done|]. by apply Hkeep.
  - apply Forall_forall. intros j Hj. apply Hkeep; [intros ->; done|]. rewrite Forall_forall in Hp. by apply Hp.
Qed.

Lemma perm_split (l1 l2 : list (bytes * result bool bytes)) ms :
  l1 ++ l2 ≡ₚ map (fun m => (m, Ok true)) ms ->
  exists m1 m2, l1 = map (fun m => (m, Ok true)) m1 /\ l2 = map (fun m => (m, Ok true)) m2 /\ m1 ++ m2 ≡ₚ ms.
Proof.
  intros H.
  assert (Hk : forall l : list (bytes * result bool bytes), (forall x, x ∈ l -> x.2 = Ok true) -> l = map (fun m => (m, Ok true)) (map fst l)).
  { intros l Hl. rewrite map_map. rewrite <-(map_id l) at 1. apply map_ext_in. intros [m x] Hx.
    apply list_elem_of_In, Hl in Hx. cbn in *. by rewrite Hx. }
  assert (Ha : forall x, x ∈ l1 ++ l2 -> x.2 = Ok true).
  { intros x. rewrite H. intros Hx. apply list_elem_of_In, in_map_iff in Hx as (m & <- & _). done. }
  exists (map fst l1), (map fst l2). split; [|split].
  - apply Hk. intros x Hx. apply Ha, elem_of_app. by left.
  - apply Hk. intros x Hx. apply Ha, elem_of_app. by right.
  - rewrite <-map_app. rewrite (Permutation_map fst H), map_map. by rewrite map_id.
Qed.

Lemma sync_quiet golden w : W (sync_retained golden) (fun _ w' => db w' = db w) w.
Proof.
  unfold sync_retained. apply wp_bind, quiet_query. destruct (retained_fork_snapshot _ _); by apply quiet_locked.
Qed.

(** What one fill achieves. *)
Lemma fill_quiet desired a r w :
  standing desired a r (db w) ->
  let k := Z.min (Z.of_nat MAX_PREPARED_POOL_WORKERS) (Z.max 0 (desired - a)) in
  W (fill_pool pool) (fun s w => s = MkStats k 0 /\ standing desired (a + k) (r + k) (db w)) w.
Proof.
  intros Hs k. unfold fill_pool. apply wp_bind.
  eapply wp_mono; [|apply (reserve_quiet _ desired a r []); [done|constructor|constructor]].
  intros ms w1 (new & -> & Hlen & Hnd & Hp & Hs1). cbn [app] in *. fold k in Hlen. rewrite Hlen in Hs1.
  destruct new as [|m0 ms]; [|set (machines := m0 :: ms) in *].
  { unfold len in Hlen. cbn in Hlen. cbn [wp]. rewrite <-Hlen, !Z.add_0_r in *. done. }
  apply wp_bind. eapply wp_mono; [|apply sync_quiet]. intros [] w2 E2. apply wp_bind, quiet_locked. cbn [fst snd].
  apply wp_bind, quiet_ask. intros mv (_ & _ & _ & Hb). destruct (Hb machines) as [Hperm Hout].
  set (b := batch mv machines) in *. apply perm_split in Hperm as (m1 & m2 & E1 & E2' & Hm).
  rewrite <-Hm in Hnd. apply NoDup_app in Hnd as (Hnd1 & Hdis & Hnd2).
  assert (Forall (provisioning_slot (db w2)) m1 /\ Forall (provisioning_slot (db w2)) m2) as [Hp1 Hp2].
  { rewrite E2. rewrite <-Hm in Hp. by apply Forall_app. }
  rewrite <-E2 in Hs1. apply wp_bind.
  eapply wp_mono; [|apply (process_quiet desired (a + k) r _ m1); [done|done|exact Hs1|exact Hp1]].
  intros a1 w3 (Hs3 & Hst3 & Hf3 & Hkeep). apply wp_bind.
  eapply (wp_mono _ _ _ (fun _ w => db w = db w3)).
  2: { destruct (b_snapshot b); [by apply quiet_locked|done]. }
  intros [] w4 E4. apply wp_bind.
  eapply wp_mono; [|apply (process_quiet desired (a + k) (r + len m1) _ m2); [done|done|by rewrite E4|]].
  2: { rewrite E4. rewrite Forall_forall in Hp2 |- *. intros j Hj. apply Hkeep; [|by apply Hp2]. by intros H; apply (Hdis j). }
  intros a2 w5 (Hs5 & Hst5 & Hf5 & _). unfold conclude_batch. rewrite Hf5, Hf3.
  apply wp_bind. destruct (b_outcome b) as [snapshot|]; [|done]. apply wp_bind.
  eapply (wp_mono _ _ _ (fun _ w => db w = db w5)).
  2: { destruct (b_snapshot b); [done|by apply quiet_locked]. }
  intros [] w6 E6. cbn [wp bind stale_checkpoint].
  assert (len m1 + len m2 = k) as Hk.
  { rewrite <-Hlen. unfold len, machines in *. apply Permutation_length in Hm. rewrite length_app in Hm. lia. }
  rewrite E6, Hst5, Hst3. cbn [stats ready failed]. split; [f_equal; lia|].
  by replace (r + k) with (r + len m1 + len m2) by lia.
Qed.

(** Successive fills. *)
Fixpoint refill (n : nat) : prog unit :=
  match n with O => Ret tt | S n => do _ := fill_pool pool in refill n end.

Lemma refill_quiet n desired r w :
  r <= desired -> standing desired r r (db w) ->
  let r' := Z.min desired (r + Z.of_nat n * Z.of_nat MAX_PREPARED_POOL_WORKERS) in
  W (refill n) (fun _ w => standing desired r' r' (db w)) w.
Proof.
  revert r w. induction n as [|n IH]; intros r w Hr Hs; cbn zeta.
  { cbn [refill wp]. replace (Z.min desired (r + Z.of_nat 0 * Z.of_nat MAX_PREPARED_POOL_WORKERS)) with r by lia. done. }
  cbn [refill]. apply wp_bind. eapply wp_mono; [|by apply fill_quiet]. cbn zeta. intros s w1 [_ H].
  set (k := Z.min _ _) in H. eapply wp_mono; [|apply (IH (r + k)); [unfold k; lia|done]]. cbn zeta.
  intros [] w2. replace (Z.min desired (r + k + Z.of_nat n * Z.of_nat MAX_PREPARED_POOL_WORKERS))
    with (Z.min desired (r + Z.of_nat (S n) * Z.of_nat MAX_PREPARED_POOL_WORKERS)) by (unfold k; lia). done.
Qed.

End Quiet.
End QuietFill.

(** ** Starting fills *)

Module Starts.
Import Str Pool Admission PoolFacts HistoryFacts Coupling Proc Ctl Logic QuietFill.

(** What a program returns under every answer that [ok] allows. *)
Fixpoint returns (ok : Move -> Prop) {A} (P : A -> Prop) (p : prog A) : Prop :=
  match p with
  | Ret a => P a
  | Tx op out k => forall r, returns ok P (k r)
  | Read q k => forall r, returns ok P (k r)
  | Upd f k => forall r, returns ok P (k r)
  | Ask q k => forall mv, ok mv -> returns ok P (k (q mv))
  end.

Section Returns.
Context (ok : Move -> Prop).

Lemma returns_exec {A} (P : A -> Prop) (p : prog A) others sched n w :
  (forall n w, ok (sched n w)) -> returns ok P p -> P (value (exec others sched p n w)).
Proof.
  intros Hok. revert n w. induction p as [a|B op out k IH|B q k IH|B f k IH|B q k IH]; intros n w Hp;
    cbn [exec returns] in *; [done| | | |].
  - destruct (fault _); [by apply IH|]. cbn [value]. by apply IH.
  - destruct (fault _); by apply IH.
  - destruct (f _) as [b s]. by apply IH.
  - apply IH, Hp, Hok.
Qed.
Lemma returns_mono {A} (P P' : A -> Prop) (p : prog A) :
  (forall a, P a -> P' a) -> returns ok P p -> returns ok P' p.
Proof. intros H. induction p; cbn [returns] in *; eauto. Qed.
Lemma returns_bind {A B} (P : B -> Prop) (p : prog A) (f : A -> prog B) :
  returns ok (fun a => returns ok P (f a)) p -> returns ok P (bind p f).
Proof. induction p; cbn [returns bind] in *; eauto. Qed.
(** A program whose value does not matter. *)
Lemma returns_any {A} (P : A -> Prop) (p : prog A) : (forall a, P a) -> returns ok P p.
Proof. intros H. induction p; cbn [returns]; eauto. Qed.
End Returns.

(** The tasks that run are those the controller counts as filling, one to a pool. *)
Definition one_each (c : ForkPoolController) : Prop :=
  NoDup (map p_name (fills c)) /\ forall name, name ∈ filling c <-> name ∈ map p_name (fills c).

Definition no_panic (mv : Move) : Prop := Forall (fun r => match r with Joined _ _ => True | _ => False end) (finished mv).

Lemma schedule_one now pools c :
  one_each c -> returns no_panic (fun r => one_each r.1) (schedule_fills now pools c).
Proof.
  revert c. induction pools as [|p pools IH]; intros c Hc; [done|]. cbn [schedule_fills].
  case_bool_guard; [by apply IH|]. case_match; [by apply IH|]. apply returns_bind. cbn [query returns].
  intros [deficit|f]; [|done]. apply IH. case_match; [|done]. destruct Hc as [Hnd Hf]. split; cbn [fills filling].
  - rewrite map_app. apply NoDup_app. split; [done|]. split; [|apply NoDup_singleton].
    intros x Hx ->%list_elem_of_singleton. by apply E, Hf.
  - intros name. rewrite map_app, elem_of_union, elem_of_singleton, elem_of_app, Hf. cbn.
    rewrite list_elem_of_singleton. tauto.
Qed.

Lemma remove_task_names pool tasks :
  NoDup (map p_name tasks) ->
  NoDup (map p_name (remove_task pool tasks))
  /\ forall name, name ∈ map p_name (remove_task pool tasks) <-> name ∈ map p_name tasks /\ name <> pool.
Proof.
  induction tasks as [|t tasks IH]; intros Hnd.
  { split; [done|]. intros name. cbn. rewrite elem_of_nil. tauto. }
  cbn [map remove_task] in *. apply NoDup_cons in Hnd as [Ht Hnd]. destruct (IH Hnd) as [H1 H2]. case_bool_guard.
  - subst pool. split; [done|]. intros name. rewrite elem_of_cons. split; [|tauto].
    intros Hn. split; [by right|]. by intros ->.
  - cbn [map]. split.
    + apply NoDup_cons. split; [|done]. rewrite H2. tauto.
    + intros name. rewrite !elem_of_cons, H2. split; [|tauto]. intros [->|[]]; [|tauto]. by split; [left|].
Qed.

Lemma join_one now pool s c : one_each c -> one_each (handle_fill_task now (Joined pool s) (join_task (Joined pool s) c)).
Proof.
  intros [Hnd Hf]. destruct (remove_task_names pool (fills c) Hnd) as [H1 H2].
  assert (Hc : forall b, one_each (MkCtl (remove_task pool (fills c)) (filling c ∖ {[pool]}) b (host_cpu c))).
  { intros b. split; [done|]. intros name. cbn [fills filling]. rewrite elem_of_difference, elem_of_singleton, Hf, H2. done. }
  cbn [handle_fill_task join_task fills filling backoff host_cpu result_pool]. by repeat case_match.
Qed.

Lemma reconcile_one sample c :
  one_each c -> returns no_panic (fun r => one_each r.1) (reconcile_once sample c).
Proof.
  intros Hc. unfold reconcile_once. apply returns_bind, returns_any. intros [pools|e]; [|done].
  apply returns_bind. apply (returns_mono _ (fun r => fills r.1 = fills c /\ filling r.1 = filling c)).
  - intros [c' [[]|e]] [E1 E2]; cbn [fst] in *.
    + apply returns_bind. cbn [ask returns]. intros mv _. apply schedule_one. unfold one_each, forget_backoff.
      cbn [fills filling]. by rewrite E1, E2.
    + cbn [returns fst]. unfold one_each. by rewrite E1, E2.
  - unfold update_admission. apply returns_bind, returns_any. intros devices. apply returns_bind, returns_any. intros _.
    apply returns_bind, returns_any. intros stat. case_match. apply returns_bind, returns_any. intros [os|e]; [|done].
    apply returns_bind, returns_any. intros now. apply returns_bind, returns_any. done.
Qed.

Lemma reap_one rs c :
  Forall (fun r => match r with Joined _ _ => True | _ => False end) rs -> one_each c ->
  returns no_panic one_each (reap_results rs c).
Proof.
  intros Hr. revert c. induction Hr as [|r rs Hr _ IH]; intros c Hc; [done|]. cbn [reap_results].
  apply returns_bind. cbn [ask returns]. intros mv _. apply IH. destruct r; [|done]. by apply join_one.
Qed.

Definition joined_events (events : list Event) : bool :=
  forallb (fun e => match e with FillDone (Panicked _) => false | _ => true end) events.

Lemma run_one events c :
  joined_events events = true -> one_each c ->
  returns no_panic (fun c => NoDup (map p_name (fills c))) (run events c).
Proof.
  intros He Hc. unfold run. apply returns_bind, returns_any. intros _. revert c Hc.
  induction events as [|e events IH]; intros c Hc; [apply Hc|]. cbn [joined_events forallb] in He.
  apply andb_true_iff in He as [He1 He2]. specialize (IH He2). cbn [run_events].
  assert (Hround : forall sample, returns no_panic (fun c => NoDup (map p_name (fills c)))
    (do c := reap_fill_tasks c in do r := reconcile_once sample c in run_events events r.1)).
  { intros sample. apply returns_bind. unfold reap_fill_tasks. apply returns_bind. cbn [ask returns]. intros mv Hmv.
    eapply returns_mono; [|by apply reap_one]. intros c' Hc'. apply returns_bind.
    eapply returns_mono; [|by apply reconcile_one]. intros r Hr. by apply IH. }
  destruct e as [| |[pool s|pool]|closed requested]; [apply Hround|apply Hround| |done|].
  - apply returns_bind. cbn [ask returns]. intros mv _. apply returns_bind.
    eapply returns_mono; [|by apply reconcile_one, join_one]. intros r Hr. by apply IH.
  - case_match; [|by apply IH]. apply NoDup_nil_2.
Qed.

(** *** Backing off *)

Lemma fill_backoff_bounds n : 1 <= n -> 2 <= fill_backoff n <= MAX_FILL_BACKOFF /\ (n <= 5 -> fill_backoff n = 2 ^ n).
Proof.
  intros Hn. unfold fill_backoff, MAX_FILL_BACKOFF. rewrite Z.shiftl_1_l.
  assert (2 <= 2 ^ Z.min n 6) by (apply (Z.pow_le_mono_r 2 1); lia). split; [lia|]. intros H5.
  replace (Z.min n 6) with n by lia. assert (2 ^ n <= 32) by (apply (Z.pow_le_mono_r 2 n 5); lia). lia.
Qed.

(** The pools a pass starts were not being filled and not waiting. *)
Lemma schedule_started now pools c :
  returns (fun _ => True)
    (fun r => exists new, fills r.1 = fills c ++ new /\ backoff r.1 = backoff c
       /\ Forall (fun p => p ∈ pools /\ p_name p ∉ filling c /\ backing_off now (p_name p) c = false) new)
    (schedule_fills now pools c).
Proof.
  revert c. induction pools as [|p pools IH]; intros c.
  { exists []. by rewrite app_nil_r. }
  assert (Hmore : forall c', (exists m, fills c' = fills c ++ m
      /\ Forall (fun q => q ∈ p :: pools /\ p_name q ∉ filling c /\ backing_off now (p_name q) c = false) m) ->
      backoff c' = backoff c -> filling c ⊆ filling c' ->
      returns (fun _ => True) (fun r => exists new, fills r.1 = fills c ++ new /\ backoff r.1 = backoff c
       /\ Forall (fun q => q ∈ p :: pools /\ p_name q ∉ filling c /\ backing_off now (p_name q) c = false) new)
      (schedule_fills now pools c')).
  { intros c' (m & E & Hm) Eb Hsub. eapply returns_mono; [|apply IH]. intros r (new & E1 & E2 & Hn).
    exists (m ++ new). rewrite E1, E, <-app_assoc. split; [done|]. split; [congruence|]. apply Forall_app. split; [done|].
    eapply Forall_impl; [done|]. intros q (H1 & H2 & H3). split; [by right|]. split; [set_solver|].
    unfold backing_off in *. by rewrite Eb in H3. }
  assert (Hself : exists m, fills c = fills c ++ m
      /\ Forall (fun q => q ∈ p :: pools /\ p_name q ∉ filling c /\ backing_off now (p_name q) c = false) m)
    by (exists []; by rewrite app_nil_r).
  cbn [schedule_fills]. case_bool_guard; [by apply Hmore|]. case_match eqn:Eb; [by apply Hmore|].
  apply returns_bind. cbn [query returns]. intros [deficit|f]; [|destruct Hself as (m & E1 & Hm); by exists m].
  apply Hmore; case_match; cbn [fills backoff filling]; try done; [|set_solver].
  exists [p]. split; [done|]. constructor; [|done]. split; [left|]. done.
Qed.

End Starts.

(** ** A worker record that does not decode *)

Module Stall.
Import Str Pool Admission PoolFacts OpFacts HistoryFacts Coupling SlotLife Proc Ctl Logic CtlSafe QuietFill.

Definition undisturbed (w : World) (mv : Move) : Prop := interference mv = [].
Abbreviation W := (wp alone undisturbed).

(** [pool] has a ready worker [m] whose machine record does not decode. *)
Record blocked (pool : ForkPoolRecord) (m : bytes) (d : Db) : Prop := {
  bl_pool : pools d !! p_name pool = Some pool;
  bl_slot : exists row, slots d !! m = Some row /\ sr_pool row = p_name pool /\ s_state (sr_data row) = Ready;
  bl_vm : vms d !! m = Some None;
}.

Lemma still_query {B} (q : Db -> result B bytes) Q w :
  (forall r, r = q (db w) \/ is_ok r = false -> Q r w) -> W (query q) Q w.
Proof.
  intros H mv Hi. cbn zeta. rewrite Hi. cbn. destruct (fault mv); [by apply H; right|].
  destruct (q (db w)) eqn:E; apply H; auto.
Qed.
Lemma still_op {B} op (out : Db -> B) Q w :
  permitted (db w) op = true -> (forall f, Q (Err f) w) -> Q (Ok (out (db w))) (after op w) -> W (exec_op op out) Q w.
Proof. intros Hp He Ho mv Hi. cbn zeta. rewrite Hi. cbn. destruct (fault mv); [apply He|done]. Qed.
Lemma still_ask {B} (q : Move -> B) Q w : (forall mv, Q (q mv) w) -> W (ask q) Q w.
Proof. intros H mv Hi. rewrite Hi. apply H. Qed.

(** Expiry leaves a worker no lease holds. *)
Lemma expire_spares now m d :
  good d -> coupled d -> in_use (slots d !! m) = false -> slots (expire_fork_leases now d).2 !! m = slots d !! m.
Proof.
  intros Hg Hc Hm. unfold expire_fork_leases.
  destruct (foldl_rows (fun s => leases s.2) (expire_lease now)
    (fun s => (good s.2 /\ coupled s.2) /\ slots s.2 !! m = slots d !! m) (fun _ _ _ => True)
    (select (lease_state_in live) (leases d)) ([], d)) as [[_ H] _]; [apply NoDup_select| |done| |exact H].
  { intros k x. rewrite elem_of_select. by intros []. }
  intros [a e] k x [[Hge Hce] He] Hkx Hk. cbn [snd] in *. apply elem_of_select in Hkx as [_ Hl].
  destruct (expire_step now a e k x) as (Heff & _ & _ & Hframe); [done..|].
  split; [|done]. split; [split; [apply Heff|by apply coupled_expire_step]|].
  pose proof (proj1 (proj2 Hge) _ _ Hk) as Hok. pose proof (live_row _ _ Hok Hl) as Ht.
  destruct (cp_lease e Hce k x Hk Ht) as (s & Hs & _ & _ & Hss).
  unfold expire_lease. cbn [snd]. destruct (l_expires_at (lr_data x) >? now); [done|]. cbv zeta. cbn [snd set_lease l_machine_name].
  change (slots (update_lease _ _ _ e)) with (slots e). rewrite Hs. rewrite update_slot_lookup_ne; [exact He|].
  intros ->. rewrite <-He, Hs in Hm. cbn [in_use] in Hm. rewrite Hss in Hm. by destruct (l_state (lr_data x)).
Qed.

Lemma blocked_expire now pool m d : db_ok d -> coupled d -> blocked pool m d -> blocked pool m (expire_fork_leases now d).2.
Proof.
  intros Hd Hc [Hp (row & Hr & Hrest) Hv]. pose proof (db_ok_good d Hd) as Hg.
  destruct (expire_effect now d Hg) as [He Ev]. constructor.
  - by rewrite (eff_pools _ _ He).
  - exists row. rewrite expire_spares; [done|done|done|]. rewrite Hr. cbn. by rewrite (proj2 Hrest).
  - by rewrite Ev.
Qed.

Lemma blocked_retire k now reason pool m d :
  k <> m -> blocked pool m d -> blocked pool m (mark_fork_pool_slot_retiring_from k Ready now reason d).2.
Proof.
  intros Hne [Hp Hr Hv]. unfold mark_fork_pool_slot_retiring_from, update_fork_pool_slot_state.
  destruct (slots d !! k); [|done]. case_bool_guard; [|done]. constructor; try done.
  destruct Hr as (row & Hr & ?). exists row. cbn [snd]. rewrite update_slot_lookup_ne by congruence. done.
Qed.

Lemma check_blocked pool p m s w :
  sound w -> blocked pool m (db w) ->
  W (check_ready_slot p s)
    (fun r w => sound w /\ match r with Ok _ => blocked pool m (db w) /\ s_machine_name s <> m | Err _ => True end) w.
Proof.
  intros Hw Hb. unfold check_ready_slot. apply wp_bind, still_query. intros [vm|e] Hr; [|done].
  destruct Hr as [Hr|?]; [|done].
  assert (Hne : s_machine_name s <> m).
  { intros E. unfold get_vm in Hr. by rewrite E, (bl_vm _ _ _ Hb) in Hr. }
  apply wp_bind, still_ask. intros mv. case_match; [done|]. apply wp_bind, still_ask. intros mv2.
  apply wp_bind, still_op; [done|done|]. split; [by apply sound_after|]. split; [|done]. by apply blocked_retire.
Qed.

Lemma retire_invalid_blocked pool m w :
  sound w -> blocked pool m (db w) -> W retire_invalid_ready_workers (fun r _ => is_ok r = false) w.
Proof.
  intros Hw Hb. unfold retire_invalid_ready_workers. apply wp_bind, still_query. intros [ps|e] Hr; [|done].
  destruct Hr as [[= ->]|?]; [|done].
  eapply wp_mono; [|apply (wp_for_each alone undisturbed (fun l w => blocked pool m (db w) /\ pool ∈ l) (fun _ => True))];
    [| |done|].
  - intros [[]|e] w1 [_ H]; [|done]. destruct H as [_ H]. by apply elem_of_nil in H.
  - intros p l w1 Hw1 [Hb1 Hin]. apply wp_bind, still_query. intros [sl|e] Hr; [|done].
    destruct Hr as [[= ->]|?]; [|done].
    eapply wp_mono; [|apply (wp_for_each alone undisturbed
      (fun sl w => blocked pool m (db w) /\ (pool ∈ l \/ m ∈ map s_machine_name sl)) (fun _ => True)); [|done|]].
    + intros [[]|e] w2 [H1 H2]; (split; [done|]); [|done]. destruct H2 as [H2 [H|H]]; [done|by apply elem_of_nil in H].
    + intros s sl w2 Hw2 [Hb2 Hin2]. eapply wp_mono; [|by apply (check_blocked pool p m s)].
      intros [[]|e] w3 [H1 H2]; (split; [done|]); [|done]. destruct H2 as [H2 Hne]. split; [done|].
      destruct Hin2 as [?|H]; [by left|right]. by apply elem_of_cons in H as [?|?].
    + split; [done|]. apply elem_of_cons in Hin as [->|?]; [right|by left].
      destruct (bl_slot _ _ _ Hb1) as (row & Hrow & Hp & Hst).
      pose proof (ok_slots _ (proj1 Hw1) _ _ Hrow) as (A & _ & _).
      apply list_elem_of_In, in_map_iff. exists (sr_data row). split; [done|]. apply filter_In.
      split; [|by rewrite bool_decide_true]. apply in_map_iff. exists (m, row). split; [done|].
      apply list_elem_of_In, elem_of_order_by_key, elem_of_select. split; [done|]. by rewrite bool_decide_true.
  - split; [done|]. unfold list_fork_pools. apply list_elem_of_In, in_map_iff. exists (p_name pool, pool).
    split; [done|]. apply list_elem_of_In, elem_of_order_by_key, elem_of_map_to_list. apply Hb.
Qed.

Lemma reconcile_blocked sample c pool m w :
  sound w -> blocked pool m (db w) ->
  W (reconcile_once sample c) (fun r _ => exists e, r = (c, Err e)) w.
Proof.
  intros Hw Hb. unfold reconcile_once. apply wp_bind.
  eapply (wp_mono _ _ _ (fun r _ => is_ok r = false)); [intros [ps|e] w1 H; [done|]; by exists e|].
  unfold sweep. apply wp_bind, still_ask. intros mv. apply wp_bind, still_op; [done|done|].
  apply wp_bind. eapply wp_mono; [|apply (retire_invalid_blocked pool m)].
  - intros [[]|e] w1 H; done.
  - by apply sound_after.
  - by destruct Hw; apply blocked_expire.
Qed.

End Stall.

(** ** The properties *)

Module CtlProps.
Import Str Pool Admission PoolFacts HistoryFacts PoolProps Coupling SlotLife Proc Ctl Logic CtlSafe FillSafe Recover QuietFill Starts Stall.

(** A history in which a transaction that is not permitted does not run. *)
Definition run_permitted (ops : list PoolOp) (d : Db) : Db :=
  foldl (fun d op => if permitted d op then run_op op d else d) d ops.

Lemma run_permitted_sound ops d :
  db_ok d /\ coupled d -> db_ok (run_permitted ops d) /\ coupled (run_permitted ops d).
Proof.
  revert d. unfold run_permitted. induction ops as [|op ops IH]; intros d [Hd Hc]; [done|]. cbn [foldl]. apply IH.
  destruct (permitted d op) eqn:E; [|done]. split; [by apply run_op_ok|by apply coupled_run_op].
Qed.
Lemma fresh_coupled machines : coupled (fresh_db machines).
Proof. by constructor. Qed.

Lemma knows_empty own strict w :
  (strict = true -> forall m, m ∈ own -> slot_state m (db w) <> Some Provisioning) -> knows own strict ∅ ∅ w.
Proof. intros H m. split; [set_solver|]. intros Hs Hm _. by apply H. Qed.

(** C16: Over every history of permitted transactions, a live lease holds
    exactly one worker: the slot of its machine exists, belongs to the lease's
    pool, carries the lease's id and is activating or leased as the lease is
    activating or active; and a slot in use always belongs to a live lease on
    its machine, so that no worker is in use by nobody. *)
Theorem leases_hold_workers machines ops : coupled (run_permitted ops (fresh_db machines)).
Proof. apply run_permitted_sound. split; [apply fresh_db_ok|apply fresh_coupled]. Qed.

(** C17: Whatever the other tasks do between the controller's steps and
    whichever of its transactions fail, every transaction the controller's
    loop commits (recovery, expiry, retiring, deleting, finalizing) is
    permitted in the database it commits to: it never removes a slot that is
    not retiring, never retires a worker in use. So the tables stay consistent
    and every live lease keeps its worker. *)
Theorem controller_transactions sched events c n w :
  db_ok (db w) /\ coupled (db w) ->
  let o := exec rely_ctl sched (run events c) n w in
  (db_ok (db (world o)) /\ coupled (db (world o)))
  /\ Forall (fun t => permitted t.1 t.2 = true) (committed o).
Proof.
  intros Hw. exact (wp_exec rely_ctl any (run events c) (fun _ w => sound w) sched n w ltac:(done) (run_safe events c w Hw)).
Qed.

(** C3: A fill never takes a worker from a client. With arbitrary
    permitted transactions of others in between (claims, resizes, deletions,
    removals) and arbitrary failures, the slots it retires without looking at
    their state are never in use when it does, provided nobody else reserves
    or marks ready the names it makes up and each worker reports at most once. *)
Theorem fill_transactions own pool sched n w :
  db_ok (db w) /\ coupled (db w) -> (forall n w, fair_fill own false pool w (sched n w)) ->
  let o := exec (rely_fill own) sched (fill_pool pool) n w in
  (db_ok (db (world o)) /\ coupled (db (world o)))
  /\ Forall (fun t => permitted t.1 t.2 = true) (committed o).
Proof.
  intros Hw Hf. destruct (wp_exec _ _ (fill_pool pool) _ sched n w Hf 
    (fill_pool_wp own false pool w Hw (knows_empty own false w ltac:(done)))) as [[H _] Ht]. by split.
Qed.

(** C32: A fill leaves no worker half made: when no transaction fails and a
    batch that succeeds reports on all its workers, none of the names the fill
    made up is still being provisioned when it returns, however the others
    interfere. *)
Theorem fill_settles own pool sched n w :
  db_ok (db w) /\ coupled (db w) -> (forall n w, fair_fill own true pool w (sched n w)) ->
  (forall m, m ∈ own -> slot_state m (db w) <> Some Provisioning) ->
  forall m, m ∈ own -> slot_state m (db (world (exec (rely_fill own) sched (fill_pool pool) n w))) <> Some Provisioning.
Proof.
  intros Hw Hf H0 m Hm.
  destruct (wp_exec _ _ (fill_pool pool) _ sched n w Hf 
    (fill_pool_wp own true pool w Hw (knows_empty own true w (fun _ => H0)))) as [[_ H] _].
  by apply (H eq_refl m).
Qed.

(** C33: When the recovery at start-up succeeds, no slot of any pool is still
    being provisioned: each was marked ready or retired, although clients
    claim, resize and delete while it runs. *)
Theorem recovery_settles sched n w :
  db_ok (db w) /\ coupled (db w) ->
  let o := exec rely_recover sched recover_interrupted_provisioning n w in
  is_ok (value o) = true -> forall m, slot_state m (db (world o)) <> Some Provisioning.
Proof.
  intros Hw. destruct (wp_exec rely_recover any _ _ sched n w ltac:(done) (recover_wp w Hw)) as [[_ H] _]. exact H.
Qed.

(** C34: A pool reaches its target and stays there. From [r] ready workers,
    none being provisioned and none activating, [k] successive fills whose
    workers boot leave exactly [min (desired, r + 32 k)] ready, and as many
    available, so that no fill ever overshoots. *)
Theorem pool_fills_up pool desired r k sched n w :
  (forall n w, fair_quiet pool w (sched n w)) -> r <= desired -> standing pool desired r r (db w) ->
  let d := db (world (exec alone sched (refill pool k) n w)) in
  let r' := Z.min desired (r + Z.of_nat k * 32) in
  count (slot_in (p_name pool) [Ready]) (slots d) = r' /\ available (p_name pool) d = r'.
Proof.
  intros Hf Hr Hs. destruct (wp_exec _ _ _ _ sched n w Hf (refill_quiet pool k desired r w Hr Hs)) as [[_ _ H1 H2] _].
  by split.
Qed.

(** As long as no fill task panics, the controller never has two
    fills of one pool running, whatever its transactions answer. *)
Theorem one_fill_per_pool others sched events c n w :
  (forall n w, no_panic (sched n w)) -> joined_events events = true -> one_each c ->
  NoDup (map p_name (fills (value (exec others sched (run events c) n w)))).
Proof.
  intros Hok He Hc. apply (returns_exec no_panic (fun c => NoDup (map p_name (fills c)))); [done|]. by apply run_one.
Qed.

(** A fill that boots no worker and loses some makes its pool wait,
    and no pass over the pools starts it again before then: [2^n] seconds after
    the n-th such fill in a row, up to a minute. The first wait is two
    seconds. *)
Theorem failing_pool_waits pool s t now pools c others sched n w :
  ready s = 0 -> 0 < failed s -> (forall k u, backoff c !! pool = Some (k, u) -> 0 <= k) ->
  let k := match backoff c !! pool with Some (k, _) => k | None => 0 end + 1 in
  let c1 := handle_fill_task t (Joined pool s) (join_task (Joined pool s) c) in
  let c2 := (value (exec others sched (schedule_fills now pools c1) n w)).1 in
  (2 <= fill_backoff k <= 60 /\ (k <= 5 -> fill_backoff k = 2 ^ k))
  /\ (now < t + fill_backoff k * SECOND ->
      exists new, fills c2 = fills c1 ++ new /\ forall p, p ∈ new -> p_name p <> pool).
Proof.
  intros Hr Hfail Hk k c1 c2. split.
  { apply fill_backoff_bounds. unfold k. destruct (backoff c !! pool) as [[j u]|] eqn:E; [|lia].
    specialize (Hk j u eq_refl). lia. }
  intros Hnow. destruct (returns_exec (fun _ => True) _ _ others sched n w ltac:(done) (schedule_started now pools c1))
    as (new & E & _ & Hnew). exists new. split; [exact E|]. intros p Hp Epool.
  rewrite Forall_forall in Hnew. destruct (Hnew p Hp) as (_ & _ & Hb). revert Hb.
  unfold backing_off, c1. cbn [handle_fill_task join_task fills filling backoff host_cpu result_pool]. rewrite Hr.
  cbn [Z.gtb Z.compare]. rewrite Z.gtb_ltb, (proj2 (Z.ltb_lt 0 (failed s)) Hfail). cbn [backoff].
  rewrite Epool, lookup_insert_eq. fold k. intros Hb. bool_simpl. lia.
Qed.

(** One ready worker whose machine record does not decode stops the
    reconciliation of every pool: undisturbed, each pass ends in an error
    before it deletes retired workers or starts a fill, whatever else happens
    in it, and the next pass meets the same worker. A claim treats the same
    record as a worker to retire. *)
Theorem undecodable_worker_stalls sched sample c pool m n w :
  db_ok (db w) /\ coupled (db w) -> blocked pool m (db w) -> (forall n w, interference (sched n w) = []) ->
  exists e, value (exec alone sched (reconcile_once sample c) n w) = (c, Err e).
Proof.
  intros Hw Hb Hs.
  by destruct (wp_exec alone undisturbed _ _ sched n w Hs (reconcile_blocked sample c pool m w Hw Hb)) as [H _].
Qed.

End CtlProps.

(** ** Examples *)

Module CtlSample.
Import Str Pool Admission PoolFacts HistoryFacts PoolProps Coupling SlotLife Proc Ctl Logic CtlSafe FillSafe Recover QuietFill Starts Stall CtlProps.

Definition no_batch (ms : list bytes) : Batch := MkBatch [] None [] (Err (bs "no golden")).
(** Every worker reports once, with [r]. *)
Definition report (r : result bool bytes) (ms : list bytes) : Batch :=
  MkBatch (map (fun m => (m, r)) (remove_dups ms)) None [] (Ok (Some (bs "snapshot"))).

Lemma report_ok strict r ms : batch_ok strict ms (report r ms).
Proof.
  unfold batch_ok, reported, report. cbn [b_before b_after]. rewrite app_nil_r, map_map, map_id.
  split; [apply NoDup_remove_dups|]. split; [|intros _ _]; intros m; by rewrite elem_of_remove_dups.
Qed.

Definition move (steps : list EnvStep) (id : bytes) (b : list bytes -> Batch) : Move :=
  MkMove steps None 100 0 (fun _ _ => true) id DeleteOk None None b [].
Definition world_of (ops : list PoolOp) (vm : option VmRecord) : World :=
  MkWorld (run_permitted ops (fresh_db {[bs "w1" := vm]})) (MkShared ∅ registry_default None []).
Lemma world_of_sound ops vm : db_ok (db (world_of ops vm)) /\ coupled (db (world_of ops vm)).
Proof. apply run_permitted_sound. split; [apply fresh_db_ok|apply fresh_coupled]. Qed.

Definition idle : ForkPoolController := MkCtl [] ∅ ∅ None.
(** A client claims the only ready worker while the controller lists slots. *)
Definition claiming : Schedule := fun n _ =>
  move (if decide (n = 6%nat) then [EnvOp (OpClaim (sample_claim (bs "k")))] else []) (bs "0badcafe") no_batch.

(** The tick expires leases, finalizes pools and starts a fill of the pool that
    is one worker short; the client's lease holds its worker. *)
Lemma controller_transactions_witness :
  let o := exec rely_ctl claiming (Ctl.run [Tick] idle) 0 (world_of sample_ops (Some held_vm)) in
  coupled (db (world o)) /\ Forall (fun t => permitted t.1 t.2 = true) (committed o)
  /\ map snd (committed o) = [OpExpire 100; OpFinalize]
  /\ slot_state (bs "w1") (db (world o)) = Some SlotActivating.
Proof.
  destruct (controller_transactions claiming [Tick] idle 0 (world_of sample_ops (Some held_vm)) (world_of_sound _ _))
    as [[_ H1] H2].
  split; [exact H1|]. split; [exact H2|]. split; by vm_compute.
Defined.

Definition fill_name : bytes := worker_name (bs "p") (bs "0badcafe").
(** The worker boots, but the pool is deleted before it is marked ready. *)
Definition deleting_meanwhile : Schedule := fun n _ =>
  move (if decide (n = 8%nat) then [EnvOp (OpDelete (bs "p") true 50)] else []) (bs "0badcafe") (report (Ok true)).

Lemma fill_fair strict n w : fair_fill {[fill_name]} strict sample_pool w (deleting_meanwhile n w).
Proof. split; [by apply elem_of_singleton|]. split; [|done]. intros ms. apply report_ok. Qed.

Lemma fill_transactions_witness :
  let o := exec (rely_fill {[fill_name]}) deleting_meanwhile (fill_pool sample_pool) 0 (world_of sample_ops (Some held_vm)) in
  coupled (db (world o)) /\ Forall (fun t => permitted t.1 t.2 = true) (committed o)
  /\ value o = MkStats 0 1.
Proof.
  destruct (fill_transactions {[fill_name]} sample_pool deleting_meanwhile 0 (world_of sample_ops (Some held_vm))
    (world_of_sound _ _) (fill_fair false)) as [[_ H1] H2].
  split; [exact H1|]. split; [exact H2|]. by vm_compute.
Defined.

Lemma fill_settles_witness :
  let o := exec (rely_fill {[fill_name]}) deleting_meanwhile (fill_pool sample_pool) 0 (world_of sample_ops (Some held_vm)) in
  slot_state fill_name (db (world o)) <> Some Provisioning
  /\ slot_state fill_name (db (world o)) = Some Retiring.
Proof.
  split; [|by vm_compute].
  apply (fill_settles {[fill_name]} sample_pool deleting_meanwhile 0 (world_of sample_ops (Some held_vm))
    (world_of_sound _ _) (fill_fair true)); [|by apply elem_of_singleton].
  intros m ->%elem_of_singleton. by vm_compute.
Defined.

Definition interrupted : World :=
  world_of [OpInsertPool sample_pool; OpReserve (bs "p") (bs "w1") 1; OpReserve (bs "p") (bs "w2") 1] (Some held_vm).
Definition steady : Schedule := fun _ _ => move [] (bs "0badcafe") no_batch.

(** The booted worker is kept, the missing one retired. *)
Lemma recovery_settles_witness :
  let o := exec rely_recover steady recover_interrupted_provisioning 0 interrupted in
  slot_state (bs "w1") (db (world o)) <> Some Provisioning
  /\ slot_state (bs "w1") (db (world o)) = Some Ready /\ slot_state (bs "w2") (db (world o)) = Some Retiring.
Proof.
  split; [|split; by vm_compute].
  apply (recovery_settles steady 0 interrupted (world_of_sound _ _)). by vm_compute.
Defined.

(** An id longer than every name in use. *)
Definition unused_id (d : Db) : bytes :=
  replicate (S (max_list (map (fun kv => length kv.1) (map_to_list (slots d))))) 97.
Definition all_boot (ms : list bytes) : Batch := MkBatch (map (fun m => (m, Ok true)) ms) None [] (Ok None).
Definition booting : Schedule := fun _ w => move [] (unused_id (db w)) all_boot.

Lemma unused_id_fresh pool d : slots d !! worker_name pool (unused_id d) = None.
Proof.
  apply eq_None_not_Some. intros [row Hr]. set (ls := map (fun kv => length kv.1) (map_to_list (slots d))).
  assert (length (worker_name pool (unused_id d)) <= max_list ls)%nat as H.
  { apply max_list_elem_of_le, list_elem_of_In, in_map_iff.
    exists (worker_name pool (unused_id d), row). split; [done|]. by apply list_elem_of_In, elem_of_map_to_list. }
  revert H. unfold worker_name. rewrite !length_app. unfold unused_id at 2. rewrite length_replicate.
  fold ls. cbn [bs length]. lia.
Qed.

Lemma booting_fair n w : fair_quiet sample_pool w (booting n w).
Proof.
  split; [done|]. split; [done|]. split; [apply unused_id_fresh|]. intros ms. cbn. by rewrite app_nil_r.
Qed.

Definition big_pool : list PoolOp := [OpInsertPool sample_pool; OpResize (bs "p") 40 1].

Lemma pool_fills_up_witness :
  let d k := db (world (exec alone booting (refill sample_pool k) 0 (world_of big_pool None))) in
  count (slot_in (bs "p") [Ready]) (slots (d 1%nat)) = 32 /\ count (slot_in (bs "p") [Ready]) (slots (d 2%nat)) = 40.
Proof.
  assert (Hs : standing sample_pool 40 0 0 (db (world_of big_pool None))).
  { constructor; [|by vm_compute..]. eexists. split; [by vm_compute|done]. }
  split.
  - exact (proj1 (pool_fills_up sample_pool 40 0 1 booting 0 (world_of big_pool None) booting_fair ltac:(lia) Hs)).
  - exact (proj1 (pool_fills_up sample_pool 40 0 2 booting 0 (world_of big_pool None) booting_fair ltac:(lia) Hs)).
Defined.

(** Two ticks and a finished fill. *)
Lemma one_fill_per_pool_witness :
  let c := value (exec rely_ctl steady (Ctl.run [Tick; Notified; FillDone (Joined (bs "p") (MkStats 0 0))] idle) 0
                    (world_of sample_ops (Some held_vm))) in
  NoDup (map p_name (fills c)) /\ map p_name (fills c) = [bs "p"].
Proof.
  split; [|by vm_compute]. apply one_fill_per_pool; [intros n w; constructor|done|].
  split; [apply NoDup_nil_2|]. intros name. cbn. set_solver.
Defined.

(** Three failed fills in a row: eight seconds. *)
Definition failing : ForkPoolController := MkCtl [] {[bs "p"]} {[bs "p" := (2, 7)]} None.

Lemma failing_pool_waits_witness :
  let c1 := handle_fill_task 7 (Joined (bs "p") (MkStats 0 5)) (join_task (Joined (bs "p") (MkStats 0 5)) failing) in
  let c2 := (value (exec alone steady (schedule_fills (7 * SECOND) [sample_pool] c1) 0 (world_of big_pool None))).1 in
  fill_backoff 3 = 8 /\ exists new, fills c2 = fills c1 ++ new /\ forall p, p ∈ new -> p_name p <> bs "p".
Proof.
  destruct (failing_pool_waits (bs "p") (MkStats 0 5) 7 (7 * SECOND) [sample_pool] failing alone steady 0
    (world_of big_pool None)) as [[_ H1] H2].
  - done.
  - done.
  - intros k u H. vm_compute in H. injection H as <- _. done.
  - split; [by apply H1; vm_compute|]. apply H2. by vm_compute.
Defined.

Lemma undecodable_worker_stalls_witness :
  exists e, value (exec alone steady (reconcile_once true idle) 0 (world_of sample_ops None)) = (idle, Err e).
Proof.
  apply (undecodable_worker_stalls steady true idle sample_pool (bs "w1")); [apply world_of_sound| |done].
  constructor; [by vm_compute| |by vm_compute]. eexists. split; [by vm_compute|]. by vm_compute.
Defined.

End CtlSample.
