(* ===== verification/CkptStore.v ===== *)
(** * CkptStore: the content-addressed checkpoint store
    (crates/smolvm-checkpoint/src/store.rs)

    A stored checkpoint is a directory with an index and a hard link to every
    object the index names; the store's own [objects] directory links each
    object once more, by its digest. Directories are maps from names to
    inodes, so that links are shared and counted as the file system does.
    Hashing, compression and temporary names come from other crates:
    [ObjectCodec] is what the store relies on. Chunks are stored by one worker
    at a time, each store split in two steps between which others may run.
    File system calls fail only in the ways the code distinguishes. *)

From S2P Require Import Prelude RustStr ForkPool.

(** ** [std::path::Path] on Unix *)

Module Path.
Import Str.

Inductive Component := RootDir | CurDir | ParentDir | Normal (name : bytes).
#[global] Instance Component_eq_dec : EqDecision Component.
Proof. solve_decision. Defined.

Definition component (first : bool) (segment : bytes) : list Component :=
  if is_empty segment then []
  else if bool_decide (segment = bs ".") then (if first then [CurDir] else [])
  else if bool_decide (segment = bs "..") then [ParentDir]
  else [Normal segment].

Definition components (path : bytes) : list Component :=
  match path with
  | [] => []
  | 47 :: _ => RootDir :: mjoin (map (component false) (split 47 path))
  | _ =>
      match split 47 path with
      | [] => []
      | s :: rest => component true s ++ mjoin (map (component false) rest)
      end
  end.

(** [parent] and [file_name], on components. *)
Definition parent (p : list Component) : option (list Component) :=
  match last p with
  | None | Some RootDir => None
  | Some _ => Some (removelast p)
  end.
Definition file_name (p : list Component) : option bytes :=
  match last p with Some (Normal n) => Some n | _ => None end.

End Path.

Module Ckpt.
Import Str Path.

Definition CHUNK_SIZE : Z := 1024 * 1024.
Definition VERSION : Z := 1.
Definition MAX_BYTES : Z := 2 * 1024 * 1024 * 1024 * 1024.
(** File modes are masked with [0o777], which is 511. *)
Definition MAX_RETAINED_GENERATIONS : Z := 256.
Definition OBJECT_STAGING_PREFIX : bytes := bs ".checkpoint-object-".

(** [None] in [chunks] is a chunk of zeros. *)
Record StoredFile := MkFile {
  path : bytes;
  size : Z;
  mode : Z;
  chunks : list (option bytes);
}.

Record CheckpointLineage := MkLineage {
  cl_id : bytes;
  cl_parent : option bytes;
  cl_machine : bytes;
  cl_created_at : bytes;
}.

(** The part of [PackManifest] the store reads: [checkpoint], and in it
    [lineage]. *)
Record PackManifest := MkManifest { checkpoint : option (option CheckpointLineage) }.

Record Index := MkIndex {
  version : Z;
  chunk_size : Z;
  manifest : PackManifest;
  files : list StoredFile;
}.

Inductive IoError := NotFound | AlreadyExists | InvalidData | UnexpectedEof | NotADirectory.
#[global] Instance IoError_eq_dec : EqDecision IoError.
Proof. solve_decision. Defined.

Record WriteStats := MkStats {
  new_bytes : Z;
  new_logical_bytes : Z;
  reused_bytes : Z;
  zero_bytes : Z;
}.
Definition stats_default : WriteStats := MkStats 0 0 0 0.
Definition stats_add (a b : WriteStats) : WriteStats :=
  MkStats (new_bytes a + new_bytes b) (new_logical_bytes a + new_logical_bytes b)
    (reused_bytes a + reused_bytes b) (zero_bytes a + zero_bytes b).

Record WriteOptions := MkOptions { trust_existing_objects : bool; defer_object_sync : bool }.

(** ** Validation *)

Definition safe_relative (path : bytes) : bool :=
  negb (is_empty path)
  && forallb (fun c => match c with Normal _ => true | _ => false end) (components path).

Definition lower_hex (b : Z) : bool := is_ascii_digit b || ((97 <=? b) && (b <=? 102)).
Definition is_object_name (name : bytes) : bool := (len name =? 64) && forallb lower_hex name.
Definition valid_generation_id (id : bytes) : bool := (len id =? 32) && forallb lower_hex id.
Definition is_checkpoint_id (id : bytes) : bool := valid_generation_id id.

Definition valid_file (total : Z) (paths : gset bytes) (file : StoredFile) : bool :=
  negb ((total >? MAX_BYTES)
        || negb (safe_relative (path file))
        || bool_decide (path file ∈ paths)
        || negb (len (chunks file) =? div_ceil (size file) CHUNK_SIZE)
        || negb (Z.land (mode file) (Z.lxor (u_max 32) 511) =? 0))
  && forallb (fun c => match c with Some h => is_object_name h | None => true end) (chunks file).

Fixpoint validate_files (total : Z) (paths : gset bytes) (fs : list StoredFile) :
    result unit IoError :=
  match fs with
  | [] => Ok tt
  | file :: rest =>
      let? total := ok_or (checked_add 64 total (size file)) InvalidData in
      if valid_file total paths file then validate_files total ({[path file]} ∪ paths) rest
      else Err InvalidData
  end.

Definition validate_index (index : Index) : result unit IoError :=
  if negb (version index =? VERSION) || negb (chunk_size index =? CHUNK_SIZE)
     || (len (files index) >? 100000)
  then Err InvalidData
  else validate_files 0 ∅ (files index).

(** ** The file system of a store *)

(** What the store relies on: [digest] is the hexadecimal SHA-256, [compress]
    zstd, [decode_prefix c n] the first [n] bytes a decoder of [c] yields, and
    [temp_name] an unused name with the staging prefix. *)
Class ObjectCodec := MkCodec {
  digest : bytes -> bytes;
  compress : bytes -> bytes;
  decode_prefix : bytes -> Z -> option bytes;
  temp_name : gmap bytes Z -> bytes;
  digest_name : forall b, is_object_name (digest b) = true;
  decode_compress : forall b n, 0 <= n -> decode_prefix (compress b) n = Some (take (Z.to_nat n) b);
  compress_len : forall b, 0 < len b <= CHUNK_SIZE ->
    0 < len (compress b) <= CHUNK_SIZE + 128 * 1024;
  temp_fresh : forall m, m !! temp_name m = None;
  temp_prefix : forall m, starts_with OBJECT_STAGING_PREFIX (temp_name m) = true;
}.

(** The bytes of an index file: what serde_json writes for an index. *)
Class IndexCodec := {
  encode_index : Index -> bytes;
  encode_index_inj : forall a b, encode_index a = encode_index b -> a = b;
}.

(** The largest index file that is read. *)
Definition MAX_INDEX : Z := 256 * 1024 * 1024.

(** A checkpoint directory; [d_capture] while it stands in the store's staging
    directory with a capture's marker. *)
Record Dir := MkDir {
  d_objects : gmap bytes Z;
  d_index : option Index;
  d_generations : gmap bytes Index;
  d_capture : bool;
}.

(** [objects] is the store's own directory of links. *)
Record Store := MkStore {
  objects : gmap bytes Z;
  inodes : gmap Z bytes;
  dirs : gmap bytes Dir;
}.

Definition with_objects (f : gmap bytes Z -> gmap bytes Z) (s : Store) : Store :=
  MkStore (f (objects s)) (inodes s) (dirs s).
Definition with_dirs (f : gmap bytes Dir -> gmap bytes Dir) (s : Store) : Store :=
  MkStore (objects s) (inodes s) (f (dirs s)).
Definition link_in_dir (dir name : bytes) (i : Z) (s : Store) : Store :=
  with_dirs (alter (fun d => MkDir (<[name := i]> (d_objects d)) (d_index d) (d_generations d) (d_capture d)) dir) s.
Definition dir_at (s : Store) (dir : bytes) : Dir := default (MkDir ∅ None ∅ false) (dirs s !! dir).

Definition links_in (m : gmap bytes Z) (i : Z) : Z :=
  len (List.filter (fun kv => kv.2 =? i) (map_to_list m)).
Definition nlink (s : Store) (i : Z) : Z :=
  links_in (objects s) i
  + foldr Z.add 0 (map (fun kv => links_in (d_objects kv.2) i) (map_to_list (dirs s))).

(** The inode a new file gets. *)
Definition fresh_inode (s : Store) : Z := 1 + foldr Z.max 0 (map fst (map_to_list (inodes s))).

(** ** Objects *)

Section Objects.
Context `{ObjectCodec} `{IndexCodec}.

Definition decode_object (s : Store) (link : option Z) (size : Z) : result bytes IoError :=
  match (let! i := link in inodes s !! i) with
  | None => Err NotFound
  | Some content =>
      if (len content =? 0) || (len content >? CHUNK_SIZE + 128 * 1024) then Err InvalidData
      else match decode_prefix content (size + 1) with
      | None => Err InvalidData
      | Some b => if len b =? size then Ok b else Err InvalidData
      end
  end.

Definition read_object (s : Store) (link : option Z) (hash : bytes) (size : Z) : result bytes IoError :=
  let? b := decode_object s link size in
  if bool_decide (digest b = hash) then Ok b else Err InvalidData.

Definition verify_object_matches (s : Store) (link : option Z) (expected : bytes) :
    result unit IoError :=
  let? b := decode_object s link (len expected) in
  if bool_decide (b = expected) then Ok tt else Err InvalidData.

Definition is_zero_filled (b : bytes) : bool := forallb (fun x => x =? 0) b.

(** The first step of [store_chunk]: is the object there already? *)
Definition existing_object (opts : WriteOptions) (b : bytes) (s : Store) : result unit IoError :=
  let link := objects s !! digest b in
  if trust_existing_objects opts then
    match (let! i := link in inodes s !! i) with
    | None => Err NotFound
    | Some content => if len content >? 0 then Ok tt else Err InvalidData
    end
  else verify_object_matches s link b.

Definition ChunkResult : Type := option bytes * WriteStats * option bytes.

(** The end of [store_chunk]: link the cached object into the checkpoint. *)
Definition link_chunk (opts : WriteOptions) (dir : bytes) (b : bytes) (stats : WriteStats)
    (s : Store) : result ChunkResult IoError * Store :=
  let hash := digest b in
  match objects s !! hash with
  | None => (Err NotFound, s)
  | Some i =>
      match d_objects (dir_at s dir) !! hash with
      | None => (Ok (Some hash, stats, None), link_in_dir dir hash i s)
      | Some linked =>
          if trust_existing_objects opts then (Ok (Some hash, stats, None), s)
          else (let? _ := verify_object_matches s (Some linked) b in Ok (Some hash, stats, None), s)
      end
  end.

(** The second step, after the temporary file [temp] was written. *)
Definition store_new_chunk (opts : WriteOptions) (dir : bytes) (b : bytes) (s : Store) :
    result ChunkResult IoError * Store :=
  let hash := digest b in
  let count := len b in
  let i := fresh_inode s in
  let compressed := compress b in
  let new := MkStats (len compressed) count 0 0 in
  let reused := MkStats 0 0 count 0 in
  let with_inode := MkStore (objects s) (<[i := compressed]> (inodes s)) (dirs s) in
  if defer_object_sync opts then
    let temp := temp_name (objects s) in
    match d_objects (dir_at s dir) !! hash with
    | None =>
        (Ok (Some hash, new, Some temp),
         link_in_dir dir hash i (with_objects (insert temp i) with_inode))
    | Some _ => (Ok (Some hash, reused, None), s)
    end
  else
    match objects s !! hash with
    | None => link_chunk opts dir b new (with_objects (insert hash i) with_inode)
    | Some other =>
        match verify_object_matches s (Some other) b with
        | Err e => (Err e, s)
        | Ok _ => link_chunk opts dir b reused s
        end
    end.

Definition store_chunk_after (existing : result unit IoError) (opts : WriteOptions) (dir : bytes)
    (b : bytes) (s : Store) : result ChunkResult IoError * Store :=
  match existing with
  | Ok _ => link_chunk opts dir b (MkStats 0 0 (len b) 0) s
  | Err NotFound => store_new_chunk opts dir b s
  | Err e => (Err e, s)
  end.

Definition store_chunk (opts : WriteOptions) (dir : bytes) (b : bytes) (s : Store) :
    result ChunkResult IoError * Store :=
  if is_zero_filled b then (Ok (None, MkStats 0 0 0 (len b), None), s)
  else store_chunk_after (existing_object opts b s) opts dir b s.

(** ** Capturing *)

Inductive Job := Hole (count : Z) | Data (b : bytes).

Record Writer := MkWriter {
  w_dir : bytes;
  w_options : WriteOptions;
  stats : WriteStats;
  pending : list (bytes * bytes);
}.

(** [Writer::new] in an empty private staging directory. *)
Definition writer_new (opts : WriteOptions) (dir : bytes) (s : Store) :
    result Writer IoError * Store :=
  match dirs s !! dir with
  | Some _ => (Err AlreadyExists, s)
  | None =>
      (Ok (MkWriter dir opts stats_default []),
       with_dirs (insert dir (MkDir ∅ None ∅ true)) s)
  end.

Definition ingest_job (job : Job) (w : Writer) (s : Store) :
    result (option bytes) IoError * Writer * Store :=
  match job with
  | Hole count =>
      (Ok None,
       MkWriter (w_dir w) (w_options w) (stats_add (stats w) (MkStats 0 0 0 count)) (pending w), s)
  | Data b =>
      match store_chunk (w_options w) (w_dir w) b s with
      | (Err e, s) => (Err e, w, s)
      | (Ok (hash, st, unsynced), s) =>
          let pending :=
            match unsynced, hash with
            | Some p, Some h => pending w ++ [(p, h)]
            | _, _ => pending w
            end in
          (Ok hash, MkWriter (w_dir w) (w_options w) (stats_add (stats w) st) pending, s)
      end
  end.

(** [jobs] are what [next] yields, and [failed] the error it ends with. *)
Fixpoint ingest_chunks (jobs : list Job) (failed : option IoError) (w : Writer) (s : Store) :
    result (list (option bytes)) IoError * Writer * Store :=
  match jobs with
  | [] => (match failed with Some e => Err e | None => Ok [] end, w, s)
  | job :: jobs =>
      match ingest_job job w s with
      | (Err e, w, s) => (Err e, w, s)
      | (Ok c, w, s) =>
          let '(r, w, s) := ingest_chunks jobs failed w s in
          (let? cs := r in Ok (c :: cs), w, s)
      end
  end.

(** Reading [remaining] bytes of a source chunk by chunk. *)
Fixpoint source_jobs (fuel : nat) (remaining : Z) (source : bytes) : list Job * option IoError :=
  match fuel with
  | O => ([], None)
  | S fuel =>
      if remaining <=? 0 then ([], None)
      else
        let count := Z.min remaining CHUNK_SIZE in
        if len source <? count then ([], Some UnexpectedEof)
        else
          let (jobs, failed) :=
            source_jobs fuel (remaining - count) (drop (Z.to_nat count) source) in
          (Data (take (Z.to_nat count) source) :: jobs, failed)
  end.

Definition ingest_fuel (size : Z) : nat := S (Z.to_nat (size / CHUNK_SIZE)).

Definition ingest (file : bytes) (sz md : Z) (source : bytes) (w : Writer) (s : Store) :
    result StoredFile IoError * Writer * Store :=
  if negb (safe_relative file) || (sz >? MAX_BYTES) then (Err InvalidData, w, s)
  else
    let (jobs, failed) := source_jobs (ingest_fuel sz) sz source in
    let '(r, w, s) := ingest_chunks jobs failed w s in
    (let? cs := r in Ok (MkFile file sz (Z.land md 511) cs), w, s).

(** A sparse file: [hole offset] is what [SEEK_DATA] says of the chunk at
    [offset], and [head] replaces the first chunk. *)
Fixpoint sparse_jobs (fuel : nat) (offset : Z) (hole : Z -> bool) (head : option bytes)
    (content : bytes) : list Job :=
  match fuel with
  | O => []
  | S fuel =>
      if offset >=? len content then []
      else
        let count := Z.min (len content - offset) CHUNK_SIZE in
        let job :=
          match head with
          | Some h => if offset =? 0 then Data h
                      else if hole offset then Hole count
                      else Data (slice content offset (offset + count))
          | None => if hole offset then Hole count else Data (slice content offset (offset + count))
          end in
        job :: sparse_jobs fuel (offset + count) hole head content
  end.

Definition ingest_file_with_head (file : bytes) (md : Z) (hole : Z -> bool) (content : bytes)
    (head : option bytes) (w : Writer) (s : Store) : result StoredFile IoError * Writer * Store :=
  let sz := len content in
  if negb (safe_relative file) || (sz >? MAX_BYTES) then (Err InvalidData, w, s)
  else if match head with Some h => negb (len h =? Z.min sz CHUNK_SIZE) | None => false end
  then (Err InvalidData, w, s)
  else
    let '(r, w, s) :=
      ingest_chunks (sparse_jobs (ingest_fuel sz) 0 hole head content) None w s in
    (let? cs := r in Ok (MkFile file sz (Z.land md 511) cs), w, s).

(** ** Publishing *)

Fixpoint publish_pending (ps : list (bytes * bytes)) (s : Store) : result unit IoError * Store :=
  match ps with
  | [] => (Ok tt, s)
  | (temp, hash) :: rest =>
      match objects s !! temp with
      | None => (Err NotFound, s)
      | Some i =>
          let linked :=
            match objects s !! hash with
            | None => with_objects (insert hash i) s
            | Some _ => s
            end in
          publish_pending rest (with_objects (delete temp) linked)
      end
  end.

Definition finish (m : PackManifest) (fs : list StoredFile) (w : Writer) (s : Store) :
    result WriteStats IoError * Writer * Store :=
  let index := MkIndex VERSION CHUNK_SIZE m fs in
  match validate_index index with
  | Err e => (Err e, w, s)
  | Ok _ =>
      let taken := MkWriter (w_dir w) (w_options w) (stats w) [] in
      match publish_pending (pending w) s with
      | (Err e, s) => (Err e, taken, s)
      | (Ok _, s) =>
          match d_index (dir_at s (w_dir w)) with
          | Some _ => (Err AlreadyExists, taken, s)
          | None =>
              (Ok (stats w), MkWriter (w_dir w) (w_options w) stats_default [],
               with_dirs (alter (fun d =>
                   MkDir (d_objects d) (Some index) (d_generations d) (d_capture d)) (w_dir w)) s)
          end
      end
  end.

(** Atomically, never over an existing checkpoint. *)
Definition publish (source destination : bytes) (s : Store) : result unit IoError * Store :=
  match dirs s !! source with
  | None => (Err NotFound, s)
  | Some d =>
      match dirs s !! destination with
      | Some _ => (Err AlreadyExists, s)
      | None =>
          (Ok tt, with_dirs (fun m => <[destination :=
             MkDir (d_objects d) (d_index d) (d_generations d) false]> (delete source m)) s)
      end
  end.

(** ** Restoring *)

Definition zeros (n : Z) : bytes := replicate (Z.to_nat n) 0.
Definition set_len (f : bytes) (n : Z) : bytes := take (Z.to_nat n) (f ++ zeros (n - len f)).
Definition write_at (f : bytes) (offset : Z) (b : bytes) : bytes :=
  take (Z.to_nat offset) f ++ b ++ drop (Z.to_nat (offset + len b)) f.

(** What a restore may diff against: the base's index, how its files clone
    ([None] where the file system cannot), which are exactly what this process
    wrote, and the extent map of a clone. *)
Record Base := MkBase {
  b_files : list StoredFile;
  b_clone : bytes -> option bytes;
  b_trusted : bytes -> bool;
  b_data_map : bytes -> option (list bool);
}.

Definition cloned_chunk_matches (f : bytes) (data_map : option (list bool)) (offset count : Z)
    (hash : option bytes) : result bool IoError :=
  let hole :=
    match hash, data_map with
    | None, Some map =>
        let first := offset / CHUNK_SIZE in
        let last := Z.min (div_ceil (offset + count) CHUNK_SIZE) (len map) in
        negb (existsb (fun held => held) (slice map first last))
    | _, _ => false
    end in
  if hole then Ok true
  else
    let? b := ok_or (get_range f offset (offset + count)) UnexpectedEof in
    Ok (match hash with Some h => bool_decide (digest b = h) | None => is_zero_filled b end).

Definition restore_chunk (s : Store) (objs : gmap bytes Z) (sz : Z) (cloned trusted : bool)
    (base_chunks : list (option bytes)) (data_map : option (list bool)) (f : bytes) (index : Z)
    (hash : option bytes) : result bytes IoError :=
  let offset := index * CHUNK_SIZE in
  let count := Z.min (sz - offset) CHUNK_SIZE in
  let unchanged := bool_decide (get base_chunks index = Some hash) in
  if unchanged && trusted then Ok f
  else if negb cloned && bool_decide (hash = None) then Ok f
  else
    let? same :=
      (if unchanged then cloned_chunk_matches f data_map offset count hash else Ok false) in
    if same : bool then Ok f
    else match hash with
    | Some h => let? b := read_object s (objs !! h) h count in Ok (write_at f offset b)
    | None => Ok (write_at f offset (zeros count))
    end.

Fixpoint restore_chunks (s : Store) (objs : gmap bytes Z) (sz : Z) (cloned trusted : bool)
    (base_chunks : list (option bytes)) (data_map : option (list bool)) (f : bytes) (index : Z)
    (cs : list (option bytes)) : result bytes IoError :=
  match cs with
  | [] => Ok f
  | c :: cs =>
      let? f := restore_chunk s objs sz cloned trusted base_chunks data_map f index c in
      restore_chunks s objs sz cloned trusted base_chunks data_map f (index + 1) cs
  end.

Definition base_entry (base : option Base) (p : bytes) : option (Base * StoredFile) :=
  let! b := base in
  let! file := List.find (fun file => bool_decide (path file = p)) (b_files b) in
  Some (b, file).

Definition restore_file (s : Store) (objs : gmap bytes Z) (base : option Base) (entry : StoredFile) :
    result bytes IoError :=
  let clone :=
    let! (b, file) := base_entry base (path entry) in
    let! content := b_clone b (path file) in
    if len content =? size file then Some (b, file, content) else None in
  match clone with
  | Some (b, file, content) =>
      let trusted := b_trusted b (path entry) in
      restore_chunks s objs (size entry) true trusted (chunks file)
        (if trusted then None else b_data_map b (path entry))
        (set_len content (size entry)) 0 (chunks entry)
  | None =>
      restore_chunks s objs (size entry) false false [] None (zeros (size entry)) 0 (chunks entry)
  end.

(** Restored files by the components of their path. *)
Abbreviation Output := (gmap (list bytes) (bytes * Z)).
Definition names (p : bytes) : list bytes :=
  omap (fun c => match c with Normal n => Some n | _ => None end) (components p).

Fixpoint restore_files (s : Store) (objs : gmap bytes Z) (base : option Base)
    (fs : list StoredFile) (out : Output) : result Output IoError :=
  match fs with
  | [] => Ok out
  | entry :: fs =>
      let p := names (path entry) in
      if existsb (fun kv => bool_decide (kv.1 `prefix_of` p /\ kv.1 <> p)) (map_to_list out)
      then Err NotADirectory
      else if existsb (fun kv => bool_decide (p `prefix_of` kv.1)) (map_to_list out)
      then Err AlreadyExists
      else
        let? content := restore_file s objs base entry in
        restore_files s objs base fs (<[p := (content, mode entry)]> out)
  end.

Definition read_index_from (index : Index) : result Index IoError :=
  if len (encode_index index) >? MAX_INDEX then Err InvalidData
  else
    let? _ := validate_index index in
    Ok index.

Definition read_index_at (s : Store) (dir : bytes) (generation : option bytes) :
    result Index IoError :=
  let? index :=
    match generation with
    | None => ok_or (d_index (dir_at s dir)) NotFound
    | Some id =>
        if valid_generation_id id then ok_or (d_generations (dir_at s dir) !! id) NotFound
        else Err InvalidData
    end in
  read_index_from index.

Definition materialize_generation (s : Store) (dir : bytes) (generation : option bytes)
    (base : option Base) : result (PackManifest * Output) IoError :=
  let? index := read_index_at s dir generation in
  let? out := restore_files s (d_objects (dir_at s dir)) base (files index) ∅ in
  Ok (manifest index, out).

End Objects.

(** ** Generations *)

Section Generations.
Context `{IndexCodec}.

Record Generation := MkGeneration {
  g_id : bytes;
  g_parent : option bytes;
  g_machine : bytes;
  g_created_at : bytes;
  data_bytes : Z;
  retained : bool;
}.

Fixpoint data_size_from (file : StoredFile) (index : Z) (cs : list (option bytes)) : Z :=
  match cs with
  | [] => 0
  | c :: cs =>
      (match c with
       | None => 0
       | Some _ =>
           if index + 1 =? len (chunks file) then size file - index * CHUNK_SIZE else CHUNK_SIZE
       end) + data_size_from file (index + 1) cs
  end.
Definition data_size (file : StoredFile) : Z := data_size_from file 0 (chunks file).

Definition generation_of (index : Index) (kept : bool) : option Generation :=
  let! c := checkpoint (manifest index) in
  let! l := c in
  Some (MkGeneration (cl_id l) (cl_parent l) (cl_machine l) (cl_created_at l)
          (foldr Z.add 0 (map data_size (files index))) kept).

(** The retained generations: each index under the id it names. *)
Fixpoint read_retained (entries : list (bytes * Index)) (acc : gmap bytes Generation) :
    result (gmap bytes Generation) IoError :=
  match entries with
  | [] => Ok acc
  | (id, index) :: entries =>
      if negb (valid_generation_id id) then read_retained entries acc
      else
        let? index := read_index_from index in
        read_retained entries
          (match generation_of index true with
           | Some g => if bool_decide (g_id g = id) then <[id := g]> acc else acc
           | None => acc
           end)
  end.

(** The chain from [last] along parents; what it uses leaves [kept]. *)
Fixpoint chain_from (fuel : nat) (last : Generation) (kept : gmap bytes Generation) :
    list Generation * gmap bytes Generation :=
  match fuel with
  | O => ([], kept)
  | S fuel =>
      match (let! p := g_parent last in (fun g => (p, g)) <$> kept !! p) with
      | None => ([], kept)
      | Some (p, g) =>
          let (chain, kept) := chain_from fuel g (delete p kept) in
          (g :: chain, kept)
      end
  end.

Definition newer (a b : Generation) : Prop := Pool.bytes_leb (g_created_at b) (g_created_at a) = true.
#[global] Instance newer_dec a b : Decision (newer a b).
Proof. unfold newer. apply _. Defined.

Definition lineage_of (s : Store) (dir : bytes) : result (list Generation) IoError :=
  let? index := read_index_at s dir None in
  match generation_of index false with
  | None => Ok []
  | Some own =>
      let? kept := read_retained (map_to_list (d_generations (dir_at s dir))) ∅ in
      let (chain, rest) := chain_from (S (base.size kept)) own kept in
      Ok (own :: chain ++ merge_sort newer (map snd (map_to_list rest)))
  end.

Definition is_ascii_hexdigit (b : Z) : bool :=
  is_ascii_digit b || ((97 <=? b) && (b <=? 102)) || ((65 <=? b) && (b <=? 70)).

Definition resolve_in (lineage : list Generation) (at_spec : bytes) : result (option bytes) IoError :=
  let spec := trim at_spec in
  let? generation :=
    match strip_prefix (bs "~") spec with
    | Some depth =>
        let? depth := ok_or (parse_uint 64 depth) InvalidData in
        ok_or (get lineage depth) InvalidData
    | None =>
        if bool_decide (47 ∈ spec) then Err InvalidData
        else if (len spec <? 8) || negb (forallb is_ascii_hexdigit spec) then Err InvalidData
        else
          match List.filter (fun g => starts_with (to_ascii_lowercase spec) (g_id g)) lineage with
          | [g] => Ok g
          | _ => Err InvalidData
          end
    end in
  Ok (if retained generation then Some (g_id generation) else None).

Definition resolve_generation (s : Store) (dir at_spec : bytes) : result (option bytes) IoError :=
  let? lineage := lineage_of s dir in
  resolve_in lineage at_spec.

(** The generations to retain, from [start] on. *)
Fixpoint from_start (start : option bytes) (started : bool) (gs : list Generation) :
    bool * list Generation :=
  match gs with
  | [] => (started, [])
  | g :: gs =>
      let started := started || bool_decide (start = Some (g_id g)) in
      let (r, rest) := from_start start started gs in
      (r, if started then g :: rest else rest)
  end.

(** Links every object of an index into [dir], from [source] or the store. *)
Fixpoint link_objects (dir source : bytes) (hashes : list bytes) (s : Store) :
    result unit IoError * Store :=
  match hashes with
  | [] => (Ok tt, s)
  | h :: hashes =>
      match d_objects (dir_at s dir) !! h with
      | Some _ => link_objects dir source hashes s
      | None =>
          let from :=
            match d_objects (dir_at s source) !! h with
            | Some i => Some i
            | None => objects s !! h
            end in
          match from with
          | None => (Err NotFound, s)
          | Some i => link_objects dir source hashes (link_in_dir dir h i s)
          end
      end
  end.

Definition index_hashes (index : Index) : list bytes :=
  omap id (mjoin (map chunks (files index))).

Fixpoint retain_all (dir source : bytes) (gs : list Generation) (s : Store) (count : Z) :
    result Z IoError * Store :=
  match gs with
  | [] => (Ok count, s)
  | g :: gs =>
      match read_index_at s source (if retained g then Some (g_id g) else None) with
      | Err e => (Err e, s)
      | Ok index =>
          match link_objects dir source (index_hashes index) s with
          | (Err e, s) => (Err e, s)
          | (Ok _, s) =>
              retain_all dir source gs
                (with_dirs (alter (fun d =>
                   MkDir (d_objects d) (d_index d) (<[g_id g := index]> (d_generations d))
                     (d_capture d)) dir) s) (count + 1)
          end
      end
  end.

Definition retain_generations_from (dir source : bytes) (start : option bytes) (limit : Z)
    (s : Store) : result Z IoError * Store :=
  let limit := Z.min limit MAX_RETAINED_GENERATIONS in
  if limit =? 0 then (Ok 0, s)
  else match lineage_of s source with
  | Err e => (Err e, s)
  | Ok lineage =>
      let (started, sources) := from_start start (bool_decide (start = None)) lineage in
      if negb started then (Err InvalidData, s)
      else retain_all dir source (take (Z.to_nat limit) sources) s 0
  end.

End Generations.

(** ** Pruning *)

Record PruneStats := MkPrune {
  removed_objects : Z;
  removed_bytes : Z;
  kept_objects : Z;
  kept_bytes : Z;
}.

Definition remove_abandoned_captures (s : Store) : Store :=
  with_dirs (filter (fun kv => d_capture kv.2 = false)) s.

Section Prune.
(** [old] says a staging file is a day old, [allocated] the disk space of an
    inode. *)
Context (old : bytes -> bool) (allocated : Z -> Z).

Definition is_staging (name : bytes) : bool := starts_with OBJECT_STAGING_PREFIX name.

(** The unlocked scan of one entry: a candidate for removal, or counted. *)
Definition scan_entry (s : Store) (acc : list bytes * PruneStats) (name : bytes) :
    list bytes * PruneStats :=
  let (candidates, st) := acc in
  if negb (is_staging name) && negb (is_object_name name) then acc
  else match objects s !! name with
  | None => acc
  | Some i =>
      if is_staging name && negb (old name) then acc
      else if is_staging name || (nlink s i =? 1) then (candidates ++ [name], st)
      else (candidates, MkPrune (removed_objects st) (removed_bytes st) (kept_objects st + 1)
                          (kept_bytes st + allocated i))
  end.

(** The removal of a candidate, re-checked under the store's lock. *)
Definition prune_candidate (acc : Store * PruneStats) (name : bytes) : Store * PruneStats :=
  let (s, st) := acc in
  match objects s !! name with
  | None => acc
  | Some i =>
      if is_staging name || (nlink s i =? 1)
      then (with_objects (delete name) s,
            MkPrune (removed_objects st + 1) (removed_bytes st + allocated i) (kept_objects st)
              (kept_bytes st))
      else (s, MkPrune (removed_objects st) (removed_bytes st) (kept_objects st + 1)
                 (kept_bytes st + allocated i))
  end.

Definition prune_batch (entries : list bytes) (acc : Store * PruneStats) : Store * PruneStats :=
  let (candidates, st) := foldl (scan_entry acc.1) ([], acc.2) entries in
  foldl prune_candidate (acc.1, st) candidates.

Fixpoint prune_loop (fuel batch : nat) (entries : list bytes) (acc : Store * PruneStats) :
    Store * PruneStats :=
  match fuel with
  | O => acc
  | S fuel =>
      match entries with
      | [] => acc
      | _ => prune_loop fuel batch (drop batch entries) (prune_batch (take batch entries) acc)
      end
  end.

Definition prune_in_batches (batch : nat) (s : Store) : PruneStats * Store :=
  let batch := Nat.max batch 1 in
  let s := remove_abandoned_captures s in
  let entries := map fst (map_to_list (objects s)) in
  let (s, st) := prune_loop (length entries) batch entries (s, MkPrune 0 0 0 0) in
  (st, s).

(** [prune]: one pass under the lock, staging files of any age. The bytes
    removed are file lengths there. *)
Definition prune_entry (length_of : Z -> Z) (acc : Z * Store) (name : bytes) : Z * Store :=
  let (removed, s) := acc in
  match objects s !! name with
  | None => acc
  | Some i =>
      if is_staging name || (is_object_name name && (nlink s i =? 1))
      then (removed + length_of i, with_objects (delete name) s)
      else acc
  end.
Definition prune (length_of : Z -> Z) (s : Store) : Z * Store :=
  let s := remove_abandoned_captures s in
  foldl (prune_entry length_of) (0, s) (map fst (map_to_list (objects s))).

Definition exclusive_objects (s : Store) (dir : bytes) : Z * Z :=
  let own := List.filter (fun kv => nlink s kv.2 <=? 2) (map_to_list (d_objects (dir_at s dir))) in
  (len own, foldr Z.add 0 (map (fun kv => allocated kv.2) own)).

End Prune.

End Ckpt.
