(* ===== verification/CkptFacts.v ===== *)
(** * CkptFacts: the store's invariant and the effect of each operation on it *)

From S2P Require Import Prelude RustStr ForkPool CkptStore.

Module CkptFacts.
Import Str Path Ckpt.

(** ** Names *)

Lemma object_name_not_staging h : is_object_name h = true -> is_staging h = false.
Proof.
  unfold is_object_name, is_staging, starts_with. intros H.
  apply bool_decide_eq_false_2. intros [r Hr].
  destruct h as [|x h]; [done|]. apply andb_true_iff in H as [_ H].
  simpl in H. apply andb_true_iff in H as [Hx _].
  change OBJECT_STAGING_PREFIX with (46 :: bs "checkpoint-object-") in Hr.
  cbn [strip_prefix] in Hr. destruct (Z.eqb_spec 46 x) as [<-|]; done.
Qed.

Section Facts.
Context `{ObjectCodec}.

Lemma digest_not_staging b : is_staging (digest b) = false.
Proof. apply object_name_not_staging, digest_name. Qed.

Lemma temp_not_digest m b : temp_name m <> digest b.
Proof.
  intros E. pose proof (temp_prefix m) as Ht. pose proof (digest_not_staging b) as Hd.
  unfold is_staging in Hd. congruence.
Qed.

(** ** The invariant *)

(** [i] holds the compression of bytes whose digest is [h]. *)
Definition object_ok (s : Store) (h : bytes) (i : Z) : Prop :=
  exists b, inodes s !! i = Some (compress b) /\ digest b = h /\ 0 < len b <= CHUNK_SIZE.

Record store_ok (s : Store) : Prop := MkStoreOk {
  ok_objects : forall h i, objects s !! h = Some i -> is_object_name h = true -> object_ok s h i;
  ok_dirs : forall dir d h i, dirs s !! dir = Some d -> d_objects d !! h = Some i -> object_ok s h i;
}.

Definition collision_free (b : bytes) : Prop := forall b', digest b' = digest b -> b' = b.

Lemma object_ok_mono s s' h i : inodes s ⊆ inodes s' -> object_ok s h i -> object_ok s' h i.
Proof. intros Hs (b & Hi & Hb & Hl). exists b. eauto using lookup_weaken. Qed.

Lemma fresh_inode_fresh s : inodes s !! fresh_inode s = None.
Proof.
  apply eq_None_not_Some. intros [c Hc].
  apply elem_of_map_to_list in Hc.
  assert (forall l : list (Z * bytes), (fresh_inode s, c) ∈ l ->
    fresh_inode s <= foldr Z.max 0 (map fst l)) as Hm.
  { induction l as [|[k v] l IH]; intros Hin; [by apply not_elem_of_nil in Hin|].
    apply elem_of_cons in Hin as [[= <- <-]|Hin]; simpl; [lia|]. specialize (IH Hin). lia. }
  apply Hm in Hc. unfold fresh_inode in Hc. lia.
Qed.

(** ** Reading objects *)

Lemma decode_object_ok s h i b n :
  object_ok s h i -> collision_free b -> digest b = h -> n = len b ->
  decode_object s (Some i) n = Ok b.
Proof.
  intros (b' & Hi & Hd & Hl) Hc Hb ->. assert (b' = b) as -> by (apply Hc; congruence).
  unfold decode_object. simpl. rewrite Hi.
  pose proof (compress_len b Hl) as [H1 H2].
  destruct (Z.eqb_spec (len (compress b)) 0); [lia|]. simpl.
  destruct (Z.gtb_spec (len (compress b)) (CHUNK_SIZE + 128 * 1024)); [lia|].
  rewrite decode_compress by lia. rewrite take_ge by (unfold len; lia).
  by rewrite Z.eqb_refl.
Qed.

Lemma verify_object_ok s h i b :
  object_ok s h i -> collision_free b -> digest b = h ->
  verify_object_matches s (Some i) b = Ok tt.
Proof.
  intros Ho Hc Hb. unfold verify_object_matches.
  rewrite (decode_object_ok s h i b) by done. simpl. by rewrite bool_decide_true.
Qed.

Lemma read_object_ok s h i b :
  object_ok s h i -> collision_free b -> digest b = h ->
  read_object s (Some i) h (len b) = Ok b.
Proof.
  intros Ho Hc Hb. unfold read_object.
  rewrite (decode_object_ok s h i b) by done. simpl. by rewrite bool_decide_true.
Qed.

(** What a read returns always has the digest asked for. *)
Lemma read_object_digest s link h n b :
  read_object s link h n = Ok b -> digest b = h /\ len b = n.
Proof.
  unfold read_object, decode_object.
  destruct (mbind _ link) as [c|]; [|done]. destruct (_ || _); [done|].
  destruct (decode_prefix c (n + 1)) as [b'|]; [|done].
  destruct (Z.eqb_spec (len b') n) as [<-|]; [|done]. simpl.
  case_bool_decide; [|done]. by intros [= <-].
Qed.

(** ** Growth *)

(** What captures do to a store while they hold its lock. *)
Record grows (s s' : Store) : Prop := MkGrows {
  grows_inodes : inodes s ⊆ inodes s';
  grows_objects : objects s ⊆ objects s';
}.
#[global] Instance grows_refl : Reflexive grows.
Proof. by split. Qed.
#[global] Instance grows_trans : Transitive grows.
Proof. intros s1 s2 s3 [] []. split; by etrans. Qed.

(** A step of a writer in [dir] leaves the other directories alone. *)
Record writes_in (dir : bytes) (s s' : Store) : Prop := MkWrites {
  writes_inodes : inodes s ⊆ inodes s';
  writes_others : forall d, d <> dir -> dirs s' !! d = dirs s !! d;
  writes_own : forall d, dirs s !! dir = Some d -> exists d', dirs s' !! dir = Some d'
    /\ d_objects d ⊆ d_objects d' /\ d_index d' = d_index d
    /\ d_generations d' = d_generations d /\ d_capture d' = d_capture d;
}.
#[global] Instance writes_in_refl dir : Reflexive (writes_in dir).
Proof. intros s. split; [done..|]. intros d Hd. by exists d. Qed.
#[global] Instance writes_in_trans dir : Transitive (writes_in dir).
Proof.
  intros s1 s2 s3 [Hi1 Ho1 Hd1] [Hi2 Ho2 Hd2]. split; [by etrans| |].
  - intros d Hd. by rewrite Ho2, Ho1.
  - intros d Hd. destruct (Hd1 d Hd) as (d' & Hd' & ? & ? & ? & ?).
    destruct (Hd2 d' Hd') as (d'' & Hd'' & ? & ? & ? & ?).
    exists d''. repeat split; [done|by etrans|congruence..].
Qed.

Lemma dir_at_Some s dir d : dirs s !! dir = Some d -> dir_at s dir = d.
Proof. unfold dir_at. by intros ->. Qed.

(** Linking a good object into a directory that does not have the name. *)
Lemma link_in_dir_ok s dir d h i :
  store_ok s -> dirs s !! dir = Some d -> d_objects d !! h = None -> object_ok s h i ->
  store_ok (link_in_dir dir h i s) /\ writes_in dir s (link_in_dir dir h i s)
  /\ d_objects (dir_at (link_in_dir dir h i s) dir) !! h = Some i.
Proof.
  intros Hok Hd Hh Ho.
  assert (dirs (link_in_dir dir h i s) !! dir
    = Some (MkDir (<[h := i]> (d_objects d)) (d_index d) (d_generations d) (d_capture d))) as Hd'.
  { simpl. by rewrite lookup_alter_eq, Hd. }
  split; [split|split; [split|]].
  - apply (ok_objects s Hok).
  - intros dir' d' h' i' Hdir' Hobj. destruct (decide (dir' = dir)) as [->|Hne].
    + rewrite Hd' in Hdir'. injection Hdir' as <-. simpl in Hobj.
      destruct (decide (h = h')) as [<-|Hh'].
      * rewrite lookup_insert_eq in Hobj. by injection Hobj as <-.
      * rewrite lookup_insert_ne in Hobj by done. by eapply (ok_dirs s Hok).
    + simpl in Hdir'. rewrite lookup_alter_ne in Hdir' by done. by eapply (ok_dirs s Hok).
  - done.
  - intros d' Hne. simpl. by rewrite lookup_alter_ne.
  - intros d0 Hd0. rewrite Hd in Hd0. injection Hd0 as <-. eexists. split; [done|]. simpl.
    split; [|done]. by apply insert_subseteq.
  - rewrite (dir_at_Some _ _ _ Hd'). simpl. by rewrite lookup_insert_eq.
Qed.

(** A new file in the store's own directory. *)
Lemma add_inode_ok s name b :
  store_ok s -> 0 < len b <= CHUNK_SIZE ->
  (is_object_name name = true -> digest b = name) ->
  let s' := MkStore (<[name := fresh_inode s]> (objects s))
              (<[fresh_inode s := compress b]> (inodes s)) (dirs s) in
  store_ok s' /\ inodes s ⊆ inodes s' /\ object_ok s' (digest b) (fresh_inode s).
Proof.
  intros Hok Hl Hname s'.
  assert (inodes s ⊆ inodes s') as Hi by (apply insert_subseteq, fresh_inode_fresh).
  assert (object_ok s' (digest b) (fresh_inode s)) as Ho.
  { exists b. simpl. by rewrite lookup_insert_eq. }
  split; [split|done].
  - intros h i. simpl. destruct (decide (name = h)) as [<-|Hh].
    + rewrite lookup_insert_eq. intros [= <-] Hn. by rewrite <-(Hname Hn).
    + rewrite lookup_insert_ne by done. intros Hi' Hn.
      eapply object_ok_mono; [done|]. by apply (ok_objects s Hok).
  - intros dir d h i Hd Hh. eapply object_ok_mono; [done|]. by eapply (ok_dirs s Hok).
Qed.

(** ** Storing a chunk *)

Definition stored_chunk (b : bytes) : option bytes :=
  if is_zero_filled b then None else Some (digest b).
Definition logical (st : WriteStats) : Z :=
  new_logical_bytes st + reused_bytes st + zero_bytes st.

Lemma logical_add a b : logical (stats_add a b) = logical a + logical b.
Proof. unfold logical. simpl. lia. Qed.

Lemma existing_object_ok opts b s :
  store_ok s -> collision_free b ->
  (existing_object opts b s = Ok tt /\ is_Some (objects s !! digest b))
  \/ existing_object opts b s = Err NotFound.
Proof.
  intros Hok Hc. unfold existing_object.
  destruct (objects s !! digest b) as [i|] eqn:Hi; [left|right].
  - split; [|by eexists]. pose proof (ok_objects s Hok _ _ Hi (digest_name b)) as Ho.
    destruct (trust_existing_objects opts); [|by eapply verify_object_ok].
    destruct Ho as (b' & Hb' & _ & Hl). simpl. rewrite Hb'.
    pose proof (compress_len b' Hl). by destruct (Z.gtb_spec (len (compress b')) 0); [|lia].
  - by destruct (trust_existing_objects opts).
Qed.

(** What storing [b] leaves behind; [t] is a temporary file still to publish. *)
Record chunk_stored (dir b : bytes) (s : Store) (st : WriteStats) (t : option bytes) (s' : Store) :
    Prop := MkStored {
  cs_ok : store_ok s';
  cs_grows : grows s s';
  cs_writes : writes_in dir s s';
  cs_linked : is_Some (d_objects (dir_at s' dir) !! digest b);
  cs_logical : logical st = len b;
  cs_temp : forall temp, t = Some temp -> exists i, objects s !! temp = None
    /\ objects s' !! temp = Some i /\ object_ok s' (digest b) i /\ is_staging temp = true;
}.

Lemma link_chunk_ok opts dir d b st s :
  store_ok s -> dirs s !! dir = Some d -> is_Some (objects s !! digest b) -> collision_free b ->
  logical st = len b ->
  exists s', link_chunk opts dir b st s = (Ok (Some (digest b), st, None), s')
    /\ chunk_stored dir b s st None s'.
Proof.
  intros Hok Hd [i Hi] Hc Hst. unfold link_chunk. rewrite Hi, (dir_at_Some _ _ _ Hd).
  destruct (d_objects d !! digest b) as [j|] eqn:Hj.
  - assert (chunk_stored dir b s st None s) as Hcs.
    { split; try done. by rewrite (dir_at_Some _ _ _ Hd), Hj. }
    destruct (trust_existing_objects opts); [by eexists|].
    rewrite (verify_object_ok s (digest b)); [|by eapply (ok_dirs s Hok)|done..]. by eexists.
  - eexists. split; [done|].
    destruct (link_in_dir_ok s dir d (digest b) i) as (? & ? & Hl); [done..| |].
    { by apply (ok_objects s Hok), digest_name. }
    split; try done. all: try by rewrite Hl.
Qed.

Lemma chunk_stored_before dir b s s1 st t s' :
  grows s s1 -> writes_in dir s s1 -> chunk_stored dir b s1 st t s' -> t = None ->
  chunk_stored dir b s st t s'.
Proof.
  intros Hg Hw [] ->. split; try done; by etrans.
Qed.

Lemma store_new_chunk_ok opts dir d b s :
  store_ok s -> dirs s !! dir = Some d -> collision_free b -> 0 < len b <= CHUNK_SIZE ->
  exists st t s', store_new_chunk opts dir b s = (Ok (Some (digest b), st, t), s')
    /\ chunk_stored dir b s st t s'.
Proof.
  intros Hok Hd Hc Hl. unfold store_new_chunk. rewrite (dir_at_Some _ _ _ Hd).
  destruct (defer_object_sync opts).
  - destruct (d_objects d !! digest b) as [j|] eqn:Hj.
    { eexists _, None, s. split; [done|]. split; try done; [|unfold logical; simpl; lia].
      by rewrite (dir_at_Some _ _ _ Hd), Hj. }
    set (temp := temp_name (objects s)). pose proof (temp_fresh (objects s)) as Hf.
    fold temp in Hf. assert (is_staging temp = true) as Hst by apply temp_prefix.
    destruct (add_inode_ok s temp b) as (Hok1 & Hi1 & Ho1); [done..| |].
    { intros Hn. apply object_name_not_staging in Hn. congruence. }
    destruct (link_in_dir_ok _ dir d (digest b) (fresh_inode s) Hok1 Hd Hj Ho1) as (Hok2 & Hw2 & Hl2).
    eexists _, (Some temp), _. split; [done|]. split.
    + done.
    + split; [done|]. by apply insert_subseteq.
    + destruct Hw2 as [Hwi Hwo Hwd]. split; [done|apply Hwo|apply Hwd].
    + unfold with_objects. simpl. by rewrite Hl2.
    + unfold logical. simpl. lia.
    + intros ? [= <-]. exists (fresh_inode s). simpl. by rewrite lookup_insert_eq.
  - destruct (objects s !! digest b) as [j|] eqn:Hj.
    + rewrite (verify_object_ok s (digest b)); [|by apply (ok_objects s Hok), digest_name|done..].
      destruct (link_chunk_ok opts dir d b (MkStats 0 0 (len b) 0) s) as (s' & -> & Hcs);
        [done..|by rewrite Hj|done|unfold logical; simpl; lia|]. by eexists _, _, _.
    + destruct (add_inode_ok s (digest b) b) as (Hok1 & Hi1 & Ho1); [done..|].
      edestruct (link_chunk_ok opts dir d b) as (s' & Hs' & Hcs);
        [exact Hok1|exact Hd|simpl; by rewrite lookup_insert_eq|done| |].
      2: { unfold with_objects. simpl. rewrite Hs'. eexists _, _, _. split; [done|].
           eapply chunk_stored_before; [| |exact Hcs|done].
           - split; [done|]. by apply insert_subseteq.
           - split; [done..|]. intros d0 Hd0. by exists d0. }
      unfold logical. simpl. lia.
Qed.

(** The two steps of [store_chunk], with other captures running in between. *)
Lemma store_chunk_after_ok opts dir d b s0 s :
  store_ok s0 -> store_ok s -> grows s0 s -> dirs s !! dir = Some d ->
  collision_free b -> 0 < len b <= CHUNK_SIZE ->
  exists st t s',
    store_chunk_after (existing_object opts b s0) opts dir b s = (Ok (Some (digest b), st, t), s')
    /\ chunk_stored dir b s st t s'.
Proof.
  intros Hok0 Hok Hg Hd Hc Hl. unfold store_chunk_after.
  destruct (existing_object_ok opts b s0) as [[-> [i Hi]]| ->]; [done..| |].
  - destruct (link_chunk_ok opts dir d b (MkStats 0 0 (len b) 0) s) as (s' & -> & Hcs);
      [done..| |done|unfold logical; simpl; lia|by eexists _, _, _].
    exists i. by eapply lookup_weaken, grows_objects.
  - by eapply store_new_chunk_ok.
Qed.

(** ** Capturing files *)

Definition job_bytes (j : Job) : bytes := match j with Hole n => zeros n | Data b => b end.
Definition job_hash (j : Job) : option bytes :=
  match j with Hole _ => None | Data b => stored_chunk b end.
Definition job_ok (j : Job) : Prop :=
  match j with Hole n => 0 <= n | Data b => 0 < len b <= CHUNK_SIZE /\ collision_free b end.

(** The unpublished objects of a capture. *)
Record writer_ok (w : Writer) (s : Store) : Prop := MkWriterOk {
  wok_nodup : NoDup (map fst (pending w));
  wok_pending : forall t h, (t, h) ∈ pending w -> is_staging t = true /\ is_object_name h = true
    /\ exists i, objects s !! t = Some i /\ object_ok s h i;
}.

Record captured (w : Writer) (s : Store) (hs : list (option bytes)) (n : Z)
    (w' : Writer) (s' : Store) : Prop := MkCaptured {
  cap_ok : store_ok s';
  cap_grows : grows s s';
  cap_writes : writes_in (w_dir w) s s';
  cap_writer : writer_ok w' s';
  cap_same : w_dir w' = w_dir w /\ w_options w' = w_options w;
  cap_linked : forall h, Some h ∈ hs -> is_Some (d_objects (dir_at s' (w_dir w)) !! h);
  cap_logical : logical (stats w') = logical (stats w) + n;
}.

Lemma len_zeros n : 0 <= n -> len (zeros n) = n.
Proof. intros. unfold len, zeros. rewrite length_replicate. lia. Qed.

Lemma linked_weaken dir s s' h :
  is_Some (dirs s !! dir) -> writes_in dir s s' ->
  is_Some (d_objects (dir_at s dir) !! h) -> is_Some (d_objects (dir_at s' dir) !! h).
Proof.
  intros [d Hd] Hw [i Hi]. destruct (writes_own _ _ _ Hw d Hd) as (d' & Hd' & Hsub & _).
  rewrite (dir_at_Some _ _ _ Hd) in Hi. rewrite (dir_at_Some _ _ _ Hd').
  exists i. by eapply lookup_weaken.
Qed.

Lemma writes_in_dir dir s s' : writes_in dir s s' -> is_Some (dirs s !! dir) -> is_Some (dirs s' !! dir).
Proof. intros Hw [d Hd]. destruct (writes_own _ _ _ Hw d Hd) as (d' & -> & _). by eexists. Qed.

Lemma writer_ok_grows w s s' : grows s s' -> writer_ok w s -> writer_ok w s'.
Proof.
  intros [Hi Ho] [Hn Hp]. split; [done|]. intros t h Ht.
  destruct (Hp t h Ht) as (? & ? & i & Hti & Hobj). split; [done|]. split; [done|].
  exists i. split; [by eapply lookup_weaken|by eapply object_ok_mono].
Qed.

Lemma ingest_job_ok j w s :
  store_ok s -> writer_ok w s -> is_Some (dirs s !! w_dir w) -> job_ok j ->
  exists w' s', ingest_job j w s = (Ok (job_hash j), w', s')
    /\ captured w s [job_hash j] (len (job_bytes j)) w' s'.
Proof.
  intros Hok Hw [d Hd] Hj. destruct j as [n|b]; simpl.
  - eexists _, _. split; [done|]. split; try done.
    + by destruct Hw.
    + intros h Hh. by apply list_elem_of_singleton in Hh.
    + simpl. rewrite logical_add, len_zeros by done. unfold logical. simpl. lia.
  - destruct Hj as [Hl Hc]. unfold store_chunk, stored_chunk.
    destruct (is_zero_filled b) eqn:Ez.
    { eexists _, _. split; [done|]. split; try done.
      - by destruct Hw.
      - intros h Hh. by apply list_elem_of_singleton in Hh.
      - simpl. rewrite logical_add. unfold logical. simpl. lia. }
    destruct (store_chunk_after_ok (w_options w) (w_dir w) d b s s)
      as (st & t & s' & -> & [Hok' Hg Hwr Hlk Hlo Ht]); [done..|].
    eexists _, _. split; [done|]. split; try done.
    + destruct (writer_ok_grows w s s' Hg Hw) as [Hn Hp]. destruct t as [temp|]; [|done].
      destruct (Ht temp eq_refl) as (i & Hnew & Hti & Hobj & Hst).
      split; simpl.
      * rewrite map_app. apply NoDup_app. split; [done|]. split; [|apply NoDup_singleton].
        intros t' Ht' Heq%list_elem_of_singleton. simpl in Heq. subst t'.
        apply list_elem_of_In, in_map_iff in Ht' as ([t' h'] & Heq & Hin). simpl in Heq. subst t'.
        destruct (wok_pending w s Hw temp h') as (_ & _ & i' & Hi' & _); [by apply list_elem_of_In|].
        congruence.
      * intros t' h'. rewrite elem_of_app. intros [Hin|Heq%list_elem_of_singleton]; [by apply Hp|].
        injection Heq as -> ->. split; [done|]. split; [apply digest_name|]. by exists i.
    + intros h Hh%list_elem_of_singleton. by injection Hh as ->.
    + simpl. rewrite logical_add. lia.
Qed.

Lemma captured_trans w s hs n w1 s1 hs' n' w2 s2 :
  is_Some (dirs s !! w_dir w) ->
  captured w s hs n w1 s1 -> captured w1 s1 hs' n' w2 s2 -> captured w s (hs ++ hs') (n + n') w2 s2.
Proof.
  intros Hd [Hok1 Hg1 Hw1 Hwr1 [Hs1 Ho1] Hl1 Hn1] [Hok2 Hg2 Hw2 Hwr2 [Hs2 Ho2] Hl2 Hn2].
  rewrite Hs1 in Hw2, Hl2. split; [done|by etrans|by etrans|done|split; congruence| |lia].
  intros h [Hh|Hh]%elem_of_app; [|by apply Hl2].
  eapply linked_weaken; [|exact Hw2|by apply Hl1]. by eapply writes_in_dir.
Qed.

Lemma captured_refl w s : store_ok s -> writer_ok w s -> captured w s [] 0 w s.
Proof. intros. split; try done; [|lia]. by intros h Hh%not_elem_of_nil. Qed.

Lemma ingest_chunks_ok jobs w s :
  store_ok s -> writer_ok w s -> is_Some (dirs s !! w_dir w) -> Forall job_ok jobs ->
  exists w' s', ingest_chunks jobs None w s = (Ok (map job_hash jobs), w', s')
    /\ captured w s (map job_hash jobs) (foldr Z.add 0 (map (fun j => len (job_bytes j)) jobs)) w' s'.
Proof.
  intros Hok Hw Hd Hjobs. revert w s Hok Hw Hd.
  induction Hjobs as [|j jobs Hj _ IH]; intros w s Hok Hw Hd; simpl.
  { eexists _, _. split; [done|]. by apply captured_refl. }
  destruct (ingest_job_ok j w s) as (w1 & s1 & -> & Hcap1); [done..|].
  pose proof (cap_same _ _ _ _ _ _ Hcap1) as [Hsame _].
  destruct (IH w1 s1) as (w2 & s2 & -> & Hcap2).
  - by eapply cap_ok.
  - by eapply cap_writer.
  - rewrite Hsame. eapply writes_in_dir; [by eapply cap_writes|done].
  - eexists _, _. split; [done|].
    change (job_hash j :: map job_hash jobs) with ([job_hash j] ++ map job_hash jobs).
    by eapply captured_trans.
Qed.

(** ** Chunks of a file *)

(** [splits data cs]: [cs] are the chunks of [data], all but the last full. *)
Inductive splits : bytes -> list bytes -> Prop :=
| splits_nil : splits [] []
| splits_cons b rest cs : 0 < len b <= CHUNK_SIZE -> (rest = [] \/ len b = CHUNK_SIZE) ->
    splits rest cs -> splits (b ++ rest) (b :: cs).

Lemma splits_step data cs :
  data <> [] ->
  splits (drop (Z.to_nat (Z.min (len data) CHUNK_SIZE)) data) cs ->
  splits data (take (Z.to_nat (Z.min (len data) CHUNK_SIZE)) data :: cs).
Proof.
  intros Hne Hs. set (n := Z.to_nat _) in *. rewrite <-(take_drop n data) at 1.
  assert (0 < len data) as Hpos.
  { destruct data; [done|]. unfold len. simpl. lia. }
  assert (len (take n data) = Z.min (len data) CHUNK_SIZE) as Hn.
  { unfold len. rewrite length_take. subst n. unfold len, CHUNK_SIZE in *. lia. }
  constructor; [unfold CHUNK_SIZE in *; lia| |done].
  destruct (Z.le_gt_cases (len data) CHUNK_SIZE) as [Hle|Hgt]; [left|right; lia].
  apply drop_ge. subst n. unfold len in *. lia.
Qed.

Lemma splits_count data cs : splits data cs -> len cs = div_ceil (len data) CHUNK_SIZE.
Proof.
  unfold div_ceil. induction 1 as [|b rest cs Hb Hr _ IH]; [done|].
  rewrite len_app, len_cons, IH. unfold CHUNK_SIZE in *.
  destruct Hr as [->|Hb'].
  - change (len (@nil Z)) with 0. rewrite Z.add_0_r.
    change (1 + (0 + 1024 * 1024 - 1) / (1024 * 1024)) with 1.
    apply (Z.div_unique_pos _ _ _ (len b - 1)); lia.
  - rewrite Hb'. replace (1024 * 1024 + len rest + 1024 * 1024 - 1)
      with (len rest + 1024 * 1024 - 1 + 1 * (1024 * 1024)) by lia.
    rewrite Z.div_add by lia. lia.
Qed.

Lemma splits_len data cs :
  splits data cs -> foldr Z.add 0 (map len cs) = len data.
Proof. induction 1 as [|b rest cs _ _ _ IH]; [done|]. simpl. rewrite IH, len_app. lia. Qed.

Lemma splits_bounds data cs : splits data cs -> Forall (fun b => 0 < len b <= CHUNK_SIZE) cs.
Proof. induction 1; constructor; done. Qed.

Lemma fuel_step n fuel :
  0 < n -> n / CHUNK_SIZE < Z.of_nat (S fuel) ->
  n - Z.min n CHUNK_SIZE = 0 \/ (n - Z.min n CHUNK_SIZE) / CHUNK_SIZE < Z.of_nat fuel.
Proof.
  intros Hn Hf. destruct (Z.le_gt_cases n CHUNK_SIZE); [left; lia|right].
  rewrite Z.min_r by lia. replace (n - CHUNK_SIZE) with (n + (-1) * CHUNK_SIZE) by lia.
  rewrite Z.div_add by (unfold CHUNK_SIZE; lia). lia.
Qed.

Lemma source_jobs_ok fuel data rest :
  data = [] \/ len data / CHUNK_SIZE < Z.of_nat fuel ->
  exists cs, source_jobs fuel (len data) (data ++ rest) = (map Data cs, None) /\ splits data cs.
Proof.
  revert data rest. induction fuel as [|fuel IH]; intros data rest Hf.
  { destruct Hf as [->|Hf]; [exists []; by split; [|constructor]|].
    pose proof (len_nonneg data). assert (0 <= len data / CHUNK_SIZE)
      by (apply Z.div_pos; unfold CHUNK_SIZE; lia). lia. }
  destruct data as [|x data']; [exists []; by split; [|constructor]|].
  set (data := x :: data') in *. destruct Hf as [Hf|Hf]; [done|].
  assert (0 < len data) as Hpos by (unfold data; rewrite len_cons; pose proof (len_nonneg data'); lia).
  cbn [source_jobs]. destruct (Z.leb_spec (len data) 0); [lia|].
  set (count := Z.min (len data) CHUNK_SIZE).
  destruct (Z.ltb_spec (len (data ++ rest)) count) as [Hlt|_].
  { rewrite len_app in Hlt. pose proof (len_nonneg rest). lia. }
  assert (0 <= count) by (unfold count, CHUNK_SIZE; lia).
  assert (Z.to_nat count <= length data)%nat by (unfold count, len in *; lia).
  rewrite drop_app_le, take_app_le by done.
  assert (len (drop (Z.to_nat count) data) = len data - count) as Hlen.
  { unfold len in *. rewrite length_drop. lia. }
  destruct (IH (drop (Z.to_nat count) data) rest) as (cs & Hcs & Hsp).
  { rewrite Hlen. destruct (fuel_step (len data) fuel Hpos Hf) as [Hz|Hz]; [left|right; done].
    apply nil_length_inv. fold count in Hz. unfold len in *. lia. }
  rewrite Hlen in Hcs. rewrite Hcs. exists (take (Z.to_nat count) data :: cs).
  split; [done|]. by apply splits_step.
Qed.

Lemma ingest_fuel_enough n : 0 <= n -> n / CHUNK_SIZE < Z.of_nat (ingest_fuel n).
Proof.
  intros Hn. unfold ingest_fuel.
  assert (0 <= n / CHUNK_SIZE) by (apply Z.div_pos; unfold CHUNK_SIZE; lia). lia.
Qed.

(** The data a sparse capture stands for. *)
Definition with_head (head : option bytes) (content : bytes) : bytes :=
  match head with Some h => h ++ drop (length h) content | None => content end.

Definition holes_ok (hole : Z -> bool) (content : bytes) : Prop :=
  forall o, 0 <= o < len content -> hole o = true ->
    is_zero_filled (slice content o (o + Z.min (len content - o) CHUNK_SIZE)) = true.

Lemma zero_filled_zeros b : is_zero_filled b = true -> b = zeros (len b).
Proof.
  unfold is_zero_filled, zeros, len. rewrite Nat2Z.id.
  induction b as [|x b IH]; intros Hz; [done|]. simpl in *. bool_simpl. subst. f_equal. by apply IH.
Qed.

Lemma zero_filled_of_zeros n : is_zero_filled (zeros n) = true.
Proof. unfold is_zero_filled, zeros. induction (Z.to_nat n); simpl; done. Qed.

Lemma sparse_jobs_ok fuel o hole head content :
  holes_ok hole content -> 0 <= o <= len content ->
  (head <> None -> 0 < o) ->
  o = len content \/ (len content - o) / CHUNK_SIZE < Z.of_nat fuel ->
  let jobs := sparse_jobs fuel o hole head content in
  splits (drop (Z.to_nat o) content) (map job_bytes jobs)
  /\ Forall (fun j => match j with Hole n => 0 <= n | Data _ => True end) jobs.
Proof.
  intros Hh. revert o. induction fuel as [|fuel IH]; intros o Ho Hhd Hf.
  { destruct Hf as [->|Hf].
    - rewrite drop_ge by (unfold len; lia). split; constructor.
    - assert (0 <= (len content - o) / CHUNK_SIZE) by (apply Z.div_pos; unfold CHUNK_SIZE; lia). lia. }
  cbn [sparse_jobs]. destruct (Z.geb_spec o (len content)) as [Hge|Hlt].
  { rewrite drop_ge by (unfold len in *; lia). split; constructor. }
  destruct Hf as [Hf|Hf]; [lia|]. set (count := Z.min (len content - o) CHUNK_SIZE).
  assert (0 < count) by (unfold count, CHUNK_SIZE; lia).
  destruct (IH (o + count)) as [Hsp Hj].
  - unfold count. lia.
  - intros Hne. specialize (Hhd Hne). lia.
  - replace (len content - (o + count)) with (len content - o - count) by lia.
    destruct (fuel_step (len content - o) fuel ltac:(lia) Hf) as [Hz|Hz]; [left; unfold count; lia|by right].
  - assert (job_bytes (if hole o then Hole count else Data (slice content o (o + count)))
      = slice content o (o + count)) as Hb.
    { destruct (hole o) eqn:Eh; [|done]. simpl. symmetry.
      etrans; [apply zero_filled_zeros, Hh; [lia|done]|]. f_equal. rewrite len_slice; lia. }
    assert (forall j, job_bytes j = slice content o (o + count) ->
      splits (drop (Z.to_nat o) content) (map job_bytes (j :: sparse_jobs fuel (o + count) hole head content)))
      as Hstep.
    { intros j Hjb. simpl. rewrite Hjb. unfold slice.
      replace (o + count - o) with (Z.min (len (drop (Z.to_nat o) content)) CHUNK_SIZE).
      2: { unfold count, len in *. rewrite length_drop. lia. }
      apply splits_step.
      - intros Hnil. apply (f_equal length) in Hnil. rewrite length_drop in Hnil.
        unfold len in *. simpl in Hnil. lia.
      - rewrite drop_drop. replace (Z.to_nat o + Z.to_nat _)%nat with (Z.to_nat (o + count)); [done|].
        unfold count, len in *. rewrite length_drop. lia. }
    destruct head as [h|].
    + destruct (Z.eqb_spec o 0); [specialize (Hhd ltac:(done)); lia|].
      split; [by apply Hstep|]. constructor; [|done]. destruct (hole o); [lia|done].
    + split; [by apply Hstep|]. constructor; [|done]. destruct (hole o); [lia|done].
Qed.

(** ** Ingesting a file *)

Definition data_ok (data : bytes) : Prop := forall cs, splits data cs -> Forall collision_free cs.

(** [e] describes [data], and [dir] holds its objects. *)
Definition describes (s : Store) (dir : bytes) (e : StoredFile) (data : bytes) : Prop :=
  size e = len data
  /\ exists cs, splits data cs /\ chunks e = map stored_chunk cs /\ Forall collision_free cs
       /\ forall h, Some h ∈ chunks e -> is_Some (d_objects (dir_at s dir) !! h).

Lemma job_hash_bytes jobs : map job_hash jobs = map stored_chunk (map job_bytes jobs).
Proof.
  rewrite map_map. apply map_ext. intros [n|b]; [|done]. simpl. unfold stored_chunk.
  by rewrite zero_filled_of_zeros.
Qed.

Lemma ingest_jobs_ok file data md jobs w s :
  store_ok s -> writer_ok w s -> is_Some (dirs s !! w_dir w) -> data_ok data ->
  splits data (map job_bytes jobs) ->
  Forall (fun j => match j with Hole n => 0 <= n | Data _ => True end) jobs ->
  exists w' s' cs, ingest_chunks jobs None w s = (Ok cs, w', s')
    /\ captured w s cs (len data) w' s'
    /\ describes s' (w_dir w) (MkFile file (len data) md cs) data.
Proof.
  intros Hok Hw Hd Hdata Hsp Hj. specialize (Hdata _ Hsp) as Hcf.
  destruct (ingest_chunks_ok jobs w s) as (w' & s' & E & Hcap); [done..| |].
  { pose proof (splits_bounds _ _ Hsp) as Hb. rewrite Forall_map in Hb, Hcf.
    rewrite Forall_forall in *. intros [n|b] Hin; simpl.
    - by apply (Hj (Hole n)).
    - split; [by apply (Hb (Data b))|by apply (Hcf (Data b))]. }
  assert (foldr Z.add 0 (map (fun j => len (job_bytes j)) jobs) = len data) as Hlen.
  { rewrite <-(map_map job_bytes len). by apply splits_len. }
  rewrite Hlen in Hcap. exists w', s', (map job_hash jobs). split; [done|]. split; [done|].
  split; [done|]. exists (map job_bytes jobs). simpl.
  split; [done|]. split; [apply job_hash_bytes|]. split; [done|]. apply (cap_linked _ _ _ _ _ _ Hcap).
Qed.

Lemma ingest_ok file data rest md w s :
  store_ok s -> writer_ok w s -> is_Some (dirs s !! w_dir w) -> data_ok data ->
  safe_relative file = true -> len data <= MAX_BYTES ->
  exists w' s' cs,
    ingest file (len data) md (data ++ rest) w s
      = (Ok (MkFile file (len data) (Z.land md 511) cs), w', s')
    /\ captured w s cs (len data) w' s'
    /\ describes s' (w_dir w) (MkFile file (len data) (Z.land md 511) cs) data.
Proof.
  intros Hok Hw Hd Hdata Hsafe Hmax. unfold ingest. rewrite Hsafe. cbn [negb orb].
  destruct (Z.gtb_spec (len data) MAX_BYTES); [lia|].
  destruct (source_jobs_ok (ingest_fuel (len data)) data rest) as (cs & -> & Hsp).
  { right. apply ingest_fuel_enough, len_nonneg. }
  destruct (ingest_jobs_ok file data (Z.land md 511) (map Data cs) w s) as (w' & s' & hs & -> & ? & ?);
    [done..| | |by eexists _, _, _].
  - rewrite map_map. simpl. by rewrite map_id.
  - apply Forall_map, Forall_true. done.
Qed.

Lemma with_head_jobs head content hole fuel :
  holes_ok hole content ->
  (forall h, head = Some h -> len h = Z.min (len content) CHUNK_SIZE) ->
  len content / CHUNK_SIZE < Z.of_nat fuel ->
  let jobs := sparse_jobs fuel 0 hole head content in
  splits (with_head head content) (map job_bytes jobs)
  /\ Forall (fun j => match j with Hole n => 0 <= n | Data _ => True end) jobs.
Proof.
  intros Hh Hhd Hf. destruct (decide (content = [])) as [->|Hne].
  { assert (with_head head [] = []) as ->.
    { destruct head as [h|]; [|done]. specialize (Hhd h eq_refl). simpl. rewrite drop_nil, app_nil_r.
      apply nil_length_inv. unfold len, CHUNK_SIZE in Hhd. simpl in Hhd. lia. }
    destruct fuel; simpl; split; constructor. }
  assert (0 < len content) as Hpos.
  { destruct content; [done|]. rewrite len_cons. pose proof (len_nonneg content). lia. }
  destruct head as [h|]; simpl.
  2: { rewrite <-(drop_0 content) at 1. change 0%nat with (Z.to_nat 0).
       apply sparse_jobs_ok; [done|lia|done|right; by rewrite Z.sub_0_r]. }
  destruct fuel as [|fuel].
  { assert (0 <= len content / CHUNK_SIZE) by (apply Z.div_pos; unfold CHUNK_SIZE; lia). lia. }
  cbn [sparse_jobs]. destruct (Z.geb_spec 0 (len content)); [lia|]. simpl. rewrite Z.sub_0_r.
  specialize (Hhd h eq_refl). set (count := Z.min (len content) CHUNK_SIZE) in *.
  assert (0 < count) by (unfold count, CHUNK_SIZE; lia).
  destruct (sparse_jobs_ok fuel count hole (Some h) content) as [Hsp Hj].
  - done.
  - unfold count. lia.
  - done.
  - destruct (fuel_step (len content) fuel Hpos Hf) as [Hz|Hz]; [left; unfold count; lia|by right].
  - replace (length h) with (Z.to_nat count) by (unfold len in Hhd; lia).
    split; [|by constructor]. constructor; [lia| |done].
    destruct (Z.le_gt_cases (len content) CHUNK_SIZE); [left|right; lia].
    apply drop_ge. unfold count, len in *. lia.
Qed.

Lemma ingest_file_ok file md hole content head w s :
  store_ok s -> writer_ok w s -> is_Some (dirs s !! w_dir w) -> data_ok (with_head head content) ->
  safe_relative file = true -> len content <= MAX_BYTES -> holes_ok hole content ->
  (forall h, head = Some h -> len h = Z.min (len content) CHUNK_SIZE) ->
  exists w' s' cs,
    ingest_file_with_head file md hole content head w s
      = (Ok (MkFile file (len content) (Z.land md 511) cs), w', s')
    /\ captured w s cs (len content) w' s'
    /\ describes s' (w_dir w) (MkFile file (len content) (Z.land md 511) cs) (with_head head content).
Proof.
  intros Hok Hw Hd Hdata Hsafe Hmax Hh Hhd. unfold ingest_file_with_head. rewrite Hsafe. cbn [negb orb].
  destruct (Z.gtb_spec (len content) MAX_BYTES); [lia|].
  assert (len (with_head head content) = len content) as Hlen.
  { destruct head as [h|]; [|done]. specialize (Hhd h eq_refl). simpl. rewrite len_app.
    unfold len in *. rewrite length_drop. lia. }
  destruct (with_head_jobs head content hole (ingest_fuel (len content))) as [Hsp Hj];
    [done..|apply ingest_fuel_enough, len_nonneg|].
  assert (match head with Some h => negb (len h =? Z.min (len content) CHUNK_SIZE) | None => false end
    = false) as ->.
  { destruct head as [h|]; [|done]. by rewrite (Hhd h eq_refl), Z.eqb_refl. }
  destruct (ingest_jobs_ok file (with_head head content) (Z.land md 511) _ w s Hok Hw Hd Hdata Hsp Hj)
    as (w' & s' & hs & -> & Hc & Hds).
  rewrite Hlen in *. by eexists _, _, _.
Qed.

(** ** Publishing *)

Lemma publish_pending_ok ps s :
  store_ok s -> NoDup (map fst ps) ->
  (forall t h, (t, h) ∈ ps -> is_staging t = true /\ is_object_name h = true
     /\ exists i, objects s !! t = Some i /\ object_ok s h i) ->
  exists s', publish_pending ps s = (Ok tt, s') /\ store_ok s' /\ inodes s' = inodes s
    /\ dirs s' = dirs s /\ forall h, is_object_name h = true -> is_Some (objects s !! h) ->
       is_Some (objects s' !! h).
Proof.
  revert s. induction ps as [|[t h] ps IH]; intros s Hok Hn Hp; simpl.
  { by exists s. }
  apply NoDup_cons in Hn as [Hnt Hn].
  destruct (Hp t h) as (Ht & Hh & i & Hi & Ho); [by left|]. rewrite Hi.
  set (linked := match objects s !! h with None => _ | Some _ => s end).
  assert (inodes linked = inodes s /\ dirs linked = dirs s
    /\ (forall k, is_staging k = true -> objects linked !! k = objects s !! k)
    /\ (forall k j, objects linked !! k = Some j -> objects s !! k = Some j \/ (k = h /\ j = i))
    /\ (forall k, is_Some (objects s !! k) -> is_Some (objects linked !! k))) as (Hi1 & Hd1 & Hs1 & Hl1 & Hm1).
  { unfold linked. destruct (objects s !! h) eqn:Eh; [by eauto 6|]. simpl.
    split; [done|]. split; [done|]. split; [|split].
    - intros k Hk. rewrite lookup_insert_ne; [done|]. intros <-.
      apply object_name_not_staging in Hh. congruence.
    - intros k j. destruct (decide (h = k)) as [<-|].
      + rewrite lookup_insert_eq. intros [= <-]. by right.
      + rewrite lookup_insert_ne by done. by left.
    - intros k Hk. destruct (decide (h = k)) as [<-|]; [by rewrite lookup_insert_eq|].
      by rewrite lookup_insert_ne. }
  assert (forall k j, object_ok s k j -> object_ok linked k j) as Hom.
  { intros k j. apply object_ok_mono. by rewrite Hi1. }
  destruct (IH (with_objects (delete t) linked)) as (s' & -> & Hok' & Hi' & Hd' & Hm').
  - split.
    + intros k j. simpl. rewrite lookup_delete_Some. intros [_ Hk] Hname.
      destruct (Hl1 k j Hk) as [Hks|[-> ->]]; [|by apply (Hom h i)].
      by apply (Hom k j), (ok_objects s Hok).
    + intros dir d k j. simpl. rewrite Hd1. intros. apply (Hom k j). by eapply (ok_dirs s Hok).
  - done.
  - intros t' h' Hin. destruct (Hp t' h') as (Ht' & Hh' & j & Hj & Ho'); [by right|].
    split; [done|]. split; [done|]. exists j. split; [|by apply (Hom h' j)].
    simpl. rewrite lookup_delete_ne; [by rewrite Hs1|]. intros <-. apply Hnt.
    apply list_elem_of_fmap. by exists (t, h').
  - exists s'. split; [done|]. split; [done|]. simpl in *. split; [congruence|]. split; [congruence|].
    intros k Hk Hsk. apply Hm'; [done|]. rewrite lookup_delete_ne; [by apply Hm1|].
    intros <-. apply object_name_not_staging in Hk. congruence.
Qed.

End Facts.
End CkptFacts.
