(* ===== verification/CkptRestore.v ===== *)
(** * CkptRestore: what a restore writes

    Restoring is followed chunk by chunk: [restore_chunks_sound] carries a
    property of each chunk's bytes through the loop, whether the chunk was
    read from an object, punched, or kept from a clone of a base. *)

From S2P Require Import Prelude RustStr ForkPool CkptStore CkptFacts.

Module RestoreFacts.
Import Str Path Ckpt CkptFacts.

(** ** Byte ranges *)

Lemma slice_drop_eq (f g : bytes) a b :
  drop (Z.to_nat a) f = drop (Z.to_nat a) g -> slice f a b = slice g a b.
Proof. unfold slice. by intros ->. Qed.

Lemma slice_take_eq (f g : bytes) n a b :
  0 <= a -> b <= n -> take (Z.to_nat n) f = take (Z.to_nat n) g -> slice f a b = slice g a b.
Proof.
  intros Ha Hb E. unfold slice. set (c := Z.to_nat (b - a)).
  destruct (Z.le_gt_cases b a) as [Hle|Hlt].
  { replace c with 0%nat by (unfold c; lia). by rewrite !take_0. }
  assert (forall l : bytes, take c (drop (Z.to_nat a) l)
    = drop (Z.to_nat a) (take (Z.to_nat a + c) l)) as Hs.
  { intros l. by rewrite skipn_firstn_comm, Nat.add_comm, Nat.add_sub. }
  rewrite !Hs. f_equal.
  assert (forall l : bytes, take (Z.to_nat a + c) l
    = take (Z.to_nat a + c) (take (Z.to_nat n) l)) as Ht.
  { intros l. rewrite take_take. f_equal. unfold c. lia. }
  by rewrite (Ht f), (Ht g), E.
Qed.

Lemma write_at_facts (f : bytes) o b :
  0 <= o -> o + len b <= len f ->
  len (write_at f o b) = len f
  /\ take (Z.to_nat o) (write_at f o b) = take (Z.to_nat o) f
  /\ slice (write_at f o b) o (o + len b) = b
  /\ drop (Z.to_nat (o + len b)) (write_at f o b) = drop (Z.to_nat (o + len b)) f.
Proof.
  intros Ho Hl. unfold write_at, slice. set (a := Z.to_nat o).
  assert (length (take a f) = a) as Ha by (rewrite length_take; unfold a, len in *; lia).
  replace (Z.to_nat (o + len b)) with (a + length b)%nat by (unfold a, len; lia).
  replace (Z.to_nat (o + len b - o)) with (length b) by (unfold len; lia).
  repeat split.
  - unfold len in *. rewrite !length_app, Ha, length_drop. unfold a. lia.
  - rewrite take_app_le by lia. rewrite take_take. f_equal. lia.
  - rewrite drop_app_ge, Ha, Nat.sub_diag, drop_0 by lia.
    by rewrite take_app_length.
  - rewrite app_assoc, drop_app_ge by (rewrite length_app; lia).
    rewrite length_app, Ha, Nat.sub_diag, drop_0. done.
Qed.

Lemma slice_whole_range (f : bytes) a b :
  0 <= a <= b -> b <= len f -> get_range f a b = Some (slice f a b).
Proof.
  intros Ha Hb. unfold get_range, slice.
  destruct (Z.leb_spec 0 a), (Z.leb_spec a b), (Z.leb_spec b (len f)); simpl; try lia. done.
Qed.

Section Restore.
Context `{ObjectCodec}.
Context (s : Store) (objs : gmap bytes Z) (sz : Z) (cloned trusted : bool).
Context (base_chunks : list (option bytes)) (data_map : option (list bool)).
Context (all : list (option bytes)) (f0 : bytes) (Q : Z -> bytes -> Prop).
Context (Hlen0 : len f0 = sz) (Hall : len all = div_ceil sz CHUNK_SIZE).

Let off (k : Z) : Z := k * CHUNK_SIZE.
Let cnt (k : Z) : Z := Z.min (sz - off k) CHUNK_SIZE.
Let piece (f : bytes) (k : Z) : bytes := slice f (off k) (off k + cnt k).

(** Each way a chunk can come about gives a good one. *)
Context (Hsome : forall k h b, get all k = Some (Some h) -> digest b = h -> len b = cnt k -> Q k b).
Context (Hnone : forall k b, get all k = Some None -> is_zero_filled b = true -> len b = cnt k -> Q k b).
Context (Htrusted : forall k c, get all k = Some c -> get base_chunks k = Some c -> trusted = true ->
           Q k (piece f0 k)).
Context (Hfresh : cloned = false -> forall k, 0 <= k < len all -> is_zero_filled (piece f0 k) = true).
Context (Hmap : forall k, get all k = Some None ->
           cloned_chunk_matches f0 data_map (off k) (cnt k) None = Ok true ->
           is_zero_filled (piece f0 k) = true).

Lemma chunk_range k : 0 <= k < len all -> 0 <= off k /\ 0 < cnt k /\ off k + cnt k <= sz.
Proof using Hall.
  intros Hk. rewrite Hall in Hk. unfold div_ceil in Hk.
  assert (off k < sz).
  { unfold off. assert (CHUNK_SIZE * k <= sz - 1); [|lia].
    assert (k <= (sz - 1) / CHUNK_SIZE) as Hd.
    { replace (sz + CHUNK_SIZE - 1) with (sz - 1 + 1 * CHUNK_SIZE) in Hk by lia.
      rewrite Z.div_add in Hk by (unfold CHUNK_SIZE; lia). lia. }
    pose proof (Z.mul_div_le (sz - 1) CHUNK_SIZE ltac:(unfold CHUNK_SIZE; lia)).
    unfold CHUNK_SIZE in *. lia. }
  unfold cnt, off, CHUNK_SIZE in *. lia.
Qed.

Definition progress (k : Z) (f : bytes) : Prop :=
  len f = sz /\ drop (Z.to_nat (off k)) f = drop (Z.to_nat (off k)) f0
  /\ forall j, 0 <= j < k -> Q j (piece f j).

(** One more chunk is right, and nothing before or after it changed. *)
Lemma progress_step k f f' :
  0 <= k < len all -> progress k f -> len f' = sz ->
  take (Z.to_nat (off k)) f' = take (Z.to_nat (off k)) f ->
  drop (Z.to_nat (off k + cnt k)) f' = drop (Z.to_nat (off k + cnt k)) f ->
  Q k (piece f' k) -> progress (k + 1) f'.
Proof.
  intros Hk (Hl & Hd & Hq) Hl' Ht Hd' HQ. destruct (chunk_range k Hk) as (Ho & Hc & Hb).
  assert (off (k + 1) = off k + CHUNK_SIZE) as Hoff by (unfold off; lia).
  split; [done|]. split.
  - assert (Z.to_nat (off (k + 1))
      = Z.to_nat (off k + cnt k) + (Z.to_nat (off (k + 1)) - Z.to_nat (off k + cnt k)))%nat as ->.
    { unfold cnt in *. lia. }
    rewrite <-!drop_drop, Hd'. rewrite !drop_drop. 
    assert (drop (Z.to_nat (off k + cnt k)) f = drop (Z.to_nat (off k + cnt k)) f0) as Hd2.
    { replace (Z.to_nat (off k + cnt k)) with (Z.to_nat (off k) + Z.to_nat (cnt k))%nat by lia.
      by rewrite <-!drop_drop, Hd. }
    by rewrite <-!drop_drop, Hd2.
  - intros j Hj. destruct (decide (j = k)) as [->|Hne]; [done|].
    assert (piece f' j = piece f j) as ->; [|apply Hq; lia].
    apply (slice_take_eq f' f (off k)); [unfold off, CHUNK_SIZE; lia| |done].
    unfold cnt, off, CHUNK_SIZE in *. lia.
Qed.

Lemma progress_keep k f :
  0 <= k < len all -> progress k f -> Q k (piece f k) -> progress (k + 1) f.
Proof. intros Hk Hp HQ. eapply progress_step; try done. by destruct Hp. Qed.

Lemma progress_write k f b :
  0 <= k < len all -> progress k f -> len b = cnt k -> Q k b ->
  progress (k + 1) (write_at f (off k) b).
Proof.
  intros Hk Hp Hb HQ. destruct (chunk_range k Hk) as (Ho & Hc & Hr). destruct Hp as (Hl & Hd & Hq).
  destruct (write_at_facts f (off k) b) as (H1 & H2 & H3 & H4); [lia..|].
  eapply progress_step; [done|by split|lia|done| |].
  - by rewrite <-Hb.
  - unfold piece. rewrite <-Hb, H3. done.
Qed.

Lemma matches_piece k f c :
  0 <= k < len all -> progress k f -> get all k = Some c ->
  cloned_chunk_matches f data_map (off k) (cnt k) c = Ok true -> Q k (piece f k).
Proof.
  intros Hk (Hl & Hd & _) Hc Hm. destruct (chunk_range k Hk) as (Ho & Hcn & Hr).
  assert (piece f k = piece f0 k) as Hpc by by apply slice_drop_eq.
  assert (len (piece f k) = cnt k) as Hpl by (unfold piece; rewrite len_slice; lia).
  assert (forall g, len g = sz -> get_range g (off k) (off k + cnt k) = Some (piece g k)) as Hg
    by (intros g Hgl; apply slice_whole_range; lia).
  destruct c as [h|].
  - unfold cloned_chunk_matches in Hm. rewrite (Hg f Hl) in Hm. simpl in Hm.
    injection Hm as Hm. apply bool_decide_eq_true in Hm. by eapply Hsome.
  - apply Hnone; [done| |done]. rewrite Hpc. apply Hmap; [done|].
    rewrite <-Hm. unfold cloned_chunk_matches. by rewrite (Hg f Hl), (Hg f0 Hlen0), Hpc.
Qed.

(** A hole of a fresh file is already there. *)
Lemma restore_skip k f :
  0 <= k < len all -> progress k f -> get all k = Some None -> cloned = false ->
  progress (k + 1) f.
Proof.
  intros Hk Hp Hc Hcl. apply progress_keep; [done..|].
  destruct (chunk_range k Hk) as (?&?&?). destruct Hp as (Hl & Hd & _). apply Hnone; [done| |].
  - replace (piece f k) with (piece f0 k) by by apply slice_drop_eq. by apply Hfresh.
  - unfold piece. rewrite len_slice; lia.
Qed.

Lemma restore_write k f c f' :
  0 <= k < len all -> progress k f -> get all k = Some c ->
  (match c with
   | Some h => let? b := read_object s (objs !! h) h (cnt k) in Ok (write_at f (off k) b)
   | None => Ok (write_at f (off k) (zeros (cnt k)))
   end) = Ok f' -> progress (k + 1) f'.
Proof.
  intros Hk Hp Hc. destruct c as [h|].
  - destruct (read_object s (objs !! h) h (cnt k)) as [b|] eqn:Hr; simpl; [|done].
    intros [= <-]. apply read_object_digest in Hr as [Hd Hl].
    apply progress_write; [done..|]. by eapply Hsome.
  - intros [= <-]. destruct (chunk_range k Hk) as (?&?&?).
    apply progress_write; [done..|rewrite len_zeros; lia|].
    apply Hnone; [done|apply zero_filled_of_zeros|rewrite len_zeros; lia].
Qed.

Lemma restore_chunk_sound k f c f' :
  0 <= k < len all -> progress k f -> get all k = Some c ->
  restore_chunk s objs sz cloned trusted base_chunks data_map f k c = Ok f' ->
  progress (k + 1) f'.
Proof.
  intros Hk Hp Hc. unfold restore_chunk. fold (off k). fold (cnt k).
  destruct (bool_decide (get base_chunks k = Some c)) eqn:Hu; simpl.
  - apply bool_decide_eq_true in Hu. destruct trusted eqn:Htr.
    { intros [= <-]. apply progress_keep; [done..|].
      replace (piece f k) with (piece f0 k) by (symmetry; apply slice_drop_eq; apply Hp).
      by eapply Htrusted. }
    destruct (negb cloned && bool_decide (c = None)) eqn:Hn.
    { intros [= <-]. bool_simpl. subst c. by apply restore_skip. }
    destruct (cloned_chunk_matches f data_map (off k) (cnt k) c) as [[|]|] eqn:Hm; simpl; [| |done].
    + intros [= <-]. apply progress_keep; [done..|]. by eapply matches_piece.
    + by apply restore_write.
  - destruct (negb cloned && bool_decide (c = None)) eqn:Hn.
    { intros [= <-]. bool_simpl. subst c. by apply restore_skip. }
    by apply restore_write.
Qed.

Lemma restore_chunks_sound pre cs k f f' :
  all = pre ++ cs -> k = len pre -> progress k f ->
  restore_chunks s objs sz cloned trusted base_chunks data_map f k cs = Ok f' ->
  len f' = sz /\ forall j, 0 <= j < len all -> Q j (piece f' j).
Proof.
  revert pre k f. induction cs as [|c cs IH]; intros pre k f Hsplit Hkl Hp; simpl.
  { intros [= <-]. destruct Hp as (Hl & _ & Hq). split; [done|].
    rewrite Hsplit, app_nil_r, <-Hkl. done. }
  assert (get all k = Some c) as Hc by (rewrite Hsplit, Hkl; apply get_app_mid).
  assert (0 <= k < len all) as Hr by by eapply get_Some_lt.
  destruct (restore_chunk _ _ _ _ _ _ _ f k c) as [f1|] eqn:E; simpl; [|done].
  apply (IH (pre ++ [c])); [by rewrite <-app_assoc| |by eapply restore_chunk_sound].
  by rewrite len_app, Hkl.
Qed.

(** The loop does not fail when every object is there. *)
Lemma restore_chunks_total pre cs k f :
  all = pre ++ cs -> k = len pre -> len f = sz ->
  (forall j h, get all j = Some (Some h) -> exists b, read_object s (objs !! h) h (cnt j) = Ok b) ->
  exists f', restore_chunks s objs sz cloned trusted base_chunks data_map f k cs = Ok f'.
Proof using Hall.
  clear Hmap. revert pre k f.
  induction cs as [|c cs IH]; intros pre k f Hsplit Hkl Hl Hobj; simpl; [by eexists|].
  assert (get all k = Some c) as Hc by (rewrite Hsplit, Hkl; apply get_app_mid).
  assert (0 <= k < len all) as Hr by by eapply get_Some_lt.
  destruct (chunk_range k Hr) as (Ho & Hcn & Hb).
  assert (exists f1, restore_chunk s objs sz cloned trusted base_chunks data_map f k c = Ok f1
    /\ len f1 = sz) as (f1 & -> & Hl1).
  { unfold restore_chunk. fold (off k). fold (cnt k).
    destruct (_ && trusted); [by eexists|]. destruct (negb cloned && _); [by eexists|].
    assert (exists b, (if bool_decide (get base_chunks k = Some c)
      then cloned_chunk_matches f data_map (off k) (cnt k) c else Ok false) = Ok b) as [b ->].
    { destruct (bool_decide _); [|by eexists]. unfold cloned_chunk_matches.
      rewrite slice_whole_range by lia. simpl. destruct c, data_map; try case_step; by eexists. }
    simpl. destruct b; [by eexists|]. destruct c as [h|].
    - destruct (Hobj k h Hc) as [b Hb']. rewrite Hb'. simpl. eexists. split; [done|].
      apply read_object_digest in Hb' as [_ Hbl].
      destruct (write_at_facts f (off k) b) as [-> _]; [lia..|done].
    - eexists. split; [done|]. pose proof (len_zeros (cnt k) ltac:(lia)).
      destruct (write_at_facts f (off k) (zeros (cnt k))) as [-> _]; [lia..|done]. }
  apply (IH (pre ++ [c])); [by rewrite <-app_assoc| |done..]. by rewrite len_app, Hkl.
Qed.

End Restore.

(** ** Files *)

(** Chunk [k] of a file of [sz] bytes. *)
Definition piece_at (sz : Z) (f : bytes) (k : Z) : bytes :=
  slice f (k * CHUNK_SIZE) (k * CHUNK_SIZE + Z.min (sz - k * CHUNK_SIZE) CHUNK_SIZE).

Lemma zero_filled_lookup b :
  is_zero_filled b = true <-> forall i x, b !! i = Some x -> x = 0.
Proof.
  unfold is_zero_filled. rewrite forallb_forall. split.
  - intros H i x Hx. apply Z.eqb_eq, H, list_elem_of_In. by eapply list_elem_of_lookup_2.
  - intros H x Hx. apply Z.eqb_eq. apply list_elem_of_In, list_elem_of_lookup in Hx as [i Hi]. eauto.
Qed.

Lemma lookup_slice (l : bytes) a b i x :
  slice l a b !! i = Some x ->
  (i < Z.to_nat (b - a))%nat /\ l !! (Z.to_nat a + i)%nat = Some x.
Proof.
  unfold slice. intros Hx. pose proof (lookup_lt_Some _ _ _ Hx) as Hi.
  rewrite length_take in Hi. rewrite lookup_take_lt, lookup_drop in Hx by lia. split; [lia|done].
Qed.

Lemma zero_filled_slice_zeros n a b : is_zero_filled (slice (zeros n) a b) = true.
Proof.
  apply zero_filled_lookup. intros i x [_ Hx]%lookup_slice.
  by apply lookup_replicate in Hx as [-> _].
Qed.

Lemma len_set_len f n : 0 <= n -> len (set_len f n) = n.
Proof.
  intros Hn. unfold set_len, len. rewrite length_take, length_app.
  unfold zeros. rewrite length_replicate. unfold len. lia.
Qed.

Lemma set_len_lookup f n i x :
  set_len f n !! i = Some x -> f !! i = Some x \/ ((length f <= i)%nat /\ x = 0).
Proof.
  unfold set_len. intros Hx. pose proof (lookup_lt_Some _ _ _ Hx) as Hi. rewrite length_take in Hi.
  rewrite lookup_take_lt in Hx by lia. apply lookup_app_Some in Hx as [Hx|[Hge Hx]]; [by left|right].
  by apply lookup_replicate in Hx as [-> _].
Qed.

(** Resizing a clone keeps a chunk of zeros, and a chunk inside both sizes. *)
Lemma set_len_zero_piece f n k :
  0 <= k -> is_zero_filled (piece_at (len f) f k) = true ->
  is_zero_filled (piece_at n (set_len f n) k) = true.
Proof.
  intros Hk Hz. apply zero_filled_lookup. intros i x [Hi Hx]%lookup_slice.
  apply set_len_lookup in Hx as [Hx|[_ ->]]; [|done].
  rewrite zero_filled_lookup in Hz. apply (Hz i). unfold piece_at, slice.
  pose proof (lookup_lt_Some _ _ _ Hx). rewrite lookup_take_lt, lookup_drop; [done|].
  unfold len, CHUNK_SIZE in *. lia.
Qed.

Lemma set_len_same_piece f n k :
  0 <= k -> 0 <= n -> len (piece_at (len f) f k) = Z.min (n - k * CHUNK_SIZE) CHUNK_SIZE ->
  0 < len (piece_at (len f) f k) -> piece_at n (set_len f n) k = piece_at (len f) f k.
Proof.
  intros Hk Hn Hlen Hpos. set (o := k * CHUNK_SIZE) in *.
  assert (0 <= o) by (unfold o, CHUNK_SIZE; lia).
  assert (0 < CHUNK_SIZE) by (unfold CHUNK_SIZE; lia).
  set (c := Z.min (n - o) CHUNK_SIZE) in *.
  assert (o + c <= n) by (unfold c; lia). assert (0 < c) by lia.
  assert (o + c <= len f).
  { unfold piece_at, slice, len in Hlen, Hpos. fold o in Hlen, Hpos.
    rewrite length_take, length_drop in Hlen, Hpos. unfold len. lia. }
  assert (Z.min (len f - o) CHUNK_SIZE = c) as Hc.
  { unfold piece_at in Hlen. fold o in Hlen. rewrite len_slice in Hlen; [lia|..]; unfold c in *; lia. }
  unfold piece_at. fold o. rewrite Hc. fold c.
  unfold set_len. apply (slice_take_eq _ _ (Z.min n (len f))); [lia..|].
  rewrite take_take. replace (Z.to_nat (Z.min n (len f)) `min` Z.to_nat n)%nat
    with (Z.to_nat (Z.min n (len f))) by lia.
  apply take_app_le. unfold len. lia.
Qed.

Section Files.
Context `{ObjectCodec}.

Definition verified (c : option bytes) (b : bytes) : Prop :=
  match c with Some h => digest b = h | None => is_zero_filled b = true end.

(** Every chunk of [f] is the one the entry's index names. *)
Definition file_verified (e : StoredFile) (f : bytes) : Prop :=
  len f = size e
  /\ forall k c, get (chunks e) k = Some c -> verified c (piece_at (size e) f k).

(** What a restore may assume of a base it diffs [e] against: the extent map
    of the clone is true to it, and a file recorded as unchanged since it was
    written is the one its index describes. *)
Record base_ok (base : option Base) (e : StoredFile) : Prop := MkBaseOk {
  bok_map : forall b file content map, base_entry base (path e) = Some (b, file) ->
    b_clone b (path file) = Some content -> b_data_map b (path e) = Some map ->
    len map = div_ceil (size e) CHUNK_SIZE
    /\ forall k, get map k = Some false ->
         is_zero_filled (piece_at (size e) (set_len content (size e)) k) = true;
  bok_trusted : forall b file content, base_entry base (path e) = Some (b, file) ->
    b_clone b (path file) = Some content -> b_trusted b (path e) = true ->
    len (chunks file) = div_ceil (size file) CHUNK_SIZE /\ file_verified file content;
}.

(** Every clone is read back. *)
Definition untrusted (base : option Base) (e : StoredFile) : Prop :=
  forall b file, base_entry base (path e) = Some (b, file) -> b_trusted b (path e) = false.

Lemma hole_map_false map k sz :
  0 <= k < div_ceil sz CHUNK_SIZE -> len map = div_ceil sz CHUNK_SIZE ->
  negb (existsb (fun held => held)
    (slice map (k * CHUNK_SIZE / CHUNK_SIZE)
       (Z.min (div_ceil (k * CHUNK_SIZE + Z.min (sz - k * CHUNK_SIZE) CHUNK_SIZE) CHUNK_SIZE) (len map))))
  = true -> get map k = Some false.
Proof.
  intros Hk Hl. rewrite Z.div_mul by (unfold CHUNK_SIZE; lia).
  set (last := Z.min _ _). intros Hn.
  assert (k < last) as Hlast.
  { unfold last. rewrite Hl. apply Z.min_glb_lt; [|lia]. unfold div_ceil.
    apply Z.lt_le_trans with (k + 1); [lia|]. apply Z.div_le_lower_bound; [unfold CHUNK_SIZE; lia|].
    unfold div_ceil in Hk. assert (k * CHUNK_SIZE < sz); [|unfold CHUNK_SIZE in *; lia].
    assert (k <= (sz - 1) / CHUNK_SIZE) as Hd.
    { replace (sz + CHUNK_SIZE - 1) with (sz - 1 + 1 * CHUNK_SIZE) in Hk by lia.
      rewrite Z.div_add in Hk by (unfold CHUNK_SIZE; lia). lia. }
    pose proof (Z.mul_div_le (sz - 1) CHUNK_SIZE ltac:(unfold CHUNK_SIZE; lia)).
    unfold CHUNK_SIZE in *. lia. }
  assert (last <= len map) as Hle by (unfold last; lia).
  unfold get. destruct (Z.ltb_spec k 0); [lia|].
  destruct (map !! Z.to_nat k) as [held|] eqn:Hh.
  2: { apply lookup_ge_None in Hh. unfold len in *. lia. }
  destruct held; [|done]. apply negb_true_iff in Hn.
  rewrite <-not_true_iff_false in Hn. exfalso. apply Hn.
  apply existsb_exists. exists true. split; [|done]. apply list_elem_of_In.
  apply (list_elem_of_lookup_2 _ 0). unfold slice. rewrite lookup_take_lt, lookup_drop by lia.
  by rewrite Nat.add_0_r.
Qed.

Lemma set_len_piece_trusted e file content k c b :
  0 <= size e -> 0 <= k -> file_verified file content -> get (chunks file) k = Some c ->
  c = stored_chunk b -> collision_free b ->
  len b = Z.min (size e - k * CHUNK_SIZE) CHUNK_SIZE -> 0 < len b ->
  piece_at (size e) (set_len content (size e)) k = b.
Proof.
  intros Hsz Hk [Hl Hv] Hc Hcb Hcf Hlb Hpos. specialize (Hv k c Hc). rewrite <-Hl in Hv.
  unfold stored_chunk in Hcb. destruct (is_zero_filled b) eqn:Hz; subst c; simpl in Hv.
  - apply set_len_zero_piece with (n := size e) in Hv; [|done].
    rewrite (zero_filled_zeros _ Hv), (zero_filled_zeros _ Hz). f_equal. rewrite Hlb.
    unfold piece_at. rewrite len_slice; [lia|unfold CHUNK_SIZE in *; lia|].
    rewrite len_set_len by lia. lia.
  - apply Hcf in Hv. rewrite <-Hv. apply set_len_same_piece; [done..| |]; by rewrite Hv.
Qed.

(** ** Pieces and chunks *)

Lemma get_cons {A} (x : A) l k : get (x :: l) (k + 1) = if k <? 0 then get (x :: l) (k + 1) else get l k.
Proof.
  destruct (Z.ltb_spec k 0); [done|]. unfold get.
  destruct (Z.ltb_spec (k + 1) 0), (Z.ltb_spec k 0); try lia.
  by replace (Z.to_nat (k + 1)) with (S (Z.to_nat k)) by lia.
Qed.

Lemma piece_shift f n k :
  0 <= k -> piece_at (CHUNK_SIZE + n) f (k + 1) = piece_at n (drop (Z.to_nat CHUNK_SIZE) f) k.
Proof.
  intros Hk. assert (0 < CHUNK_SIZE) by (unfold CHUNK_SIZE; lia). unfold piece_at, slice.
  rewrite drop_drop. f_equal; [lia|]. f_equal. lia.
Qed.

Lemma piece_zero (b rest : bytes) :
  0 < len b <= CHUNK_SIZE -> (rest = [] \/ len b = CHUNK_SIZE) ->
  forall f : bytes, piece_at (len (b ++ rest)) f 0 = take (length b) f.
Proof.
  intros Hb Hr f. unfold piece_at, slice. rewrite len_app. simpl.
  f_equal. destruct Hr as [->|Hr]; [change (len (@nil Z)) with 0|];
    unfold len in *; lia.
Qed.

Lemma splits_pieces data cs :
  splits data cs -> forall k b, get cs k = Some b -> piece_at (len data) data k = b.
Proof.
  induction 1 as [|b rest cs Hb Hr Hs IH]; intros k b' Hk; [by apply get_Some_lt in Hk; unfold len in Hk; simpl in Hk; lia|].
  destruct (decide (k = 0)) as [->|Hk0].
  - injection Hk as <-. rewrite (piece_zero b rest) by done. apply take_app_length.
  - pose proof (get_Some_lt _ _ _ Hk) as Hlt. destruct Hr as [->|Hr].
    { inversion Hs; subst; [unfold len in Hlt; simpl in Hlt; lia|].
      destruct b0; [unfold len in *; simpl in *; lia|done]. }
    replace k with (k - 1 + 1) in * by lia. rewrite get_cons in Hk.
    destruct (Z.ltb_spec (k - 1) 0); [lia|].
    rewrite len_app, Hr, piece_shift by lia.
    replace (Z.to_nat CHUNK_SIZE) with (length b) by (unfold len in Hr; lia).
    rewrite drop_app_length. by apply IH.
Qed.

Lemma pieces_determine data cs f :
  splits data cs -> len f = len data ->
  (forall k b, get cs k = Some b -> piece_at (len data) f k = b) -> f = data.
Proof.
  intros Hs. revert f. induction Hs as [|b rest cs Hb Hr Hs IH]; intros f Hl Hp.
  { apply nil_length_inv. unfold len in Hl. simpl in Hl. lia. }
  pose proof (Hp 0 b eq_refl) as H0. rewrite (piece_zero b rest) in H0 by done.
  rewrite <-(take_drop (length b) f), H0. f_equal.
  destruct Hr as [->|Hr].
  { apply drop_ge. unfold len in Hl. rewrite length_app in Hl. simpl in Hl. lia. }
  assert (Z.to_nat CHUNK_SIZE = length b) as HC by (unfold len in Hr; lia).
  apply IH.
  - unfold len in *. rewrite length_drop, length_app in *. lia.
  - intros k b' Hk. pose proof (get_Some_lt _ _ _ Hk).
    rewrite <-(Hp (k + 1) b').
    + rewrite len_app, Hr, piece_shift, HC by lia. done.
    + rewrite get_cons. destruct (Z.ltb_spec k 0); [lia|done].
Qed.

(** ** One file *)

Section OneFile.
Context (s : Store) (objs : gmap bytes Z) (base : option Base) (e : StoredFile).
Context (Hsz : 0 <= size e) (Hall : len (chunks e) = div_ceil (size e) CHUNK_SIZE).
Context (Hbase : base_ok base e).

Section Good.
Context (Q : Z -> bytes -> Prop).
Context (Hsome : forall k h b, get (chunks e) k = Some (Some h) -> digest b = h ->
  len b = Z.min (size e - k * CHUNK_SIZE) CHUNK_SIZE -> Q k b).
Context (Hnone : forall k b, get (chunks e) k = Some None -> is_zero_filled b = true ->
  len b = Z.min (size e - k * CHUNK_SIZE) CHUNK_SIZE -> Q k b).

(** A file written from nothing. *)
Lemma restore_fresh_sound f :
  restore_chunks s objs (size e) false false [] None (zeros (size e)) 0 (chunks e) = Ok f ->
  len f = size e /\ forall k, 0 <= k < len (chunks e) -> Q k (piece_at (size e) f k).
Proof.
  eapply (restore_chunks_sound _ _ _ _ _ _ _ (chunks e) (zeros (size e)) Q) with (pre := []); try done.
  - by apply len_zeros.
  - intros. apply zero_filled_slice_zeros.
  - intros. apply zero_filled_slice_zeros.
  - split; [by apply len_zeros|]. split; [done|]. lia.
Qed.

Lemma restore_file_sound f :
  (forall b file content k c, base_entry base (path e) = Some (b, file) ->
     b_clone b (path file) = Some content -> len content = size file -> b_trusted b (path e) = true ->
     get (chunks e) k = Some c -> get (chunks file) k = Some c ->
     Q k (piece_at (size e) (set_len content (size e)) k)) ->
  restore_file s objs base e = Ok f ->
  len f = size e /\ forall k, 0 <= k < len (chunks e) -> Q k (piece_at (size e) f k).
Proof.
  intros Htr. unfold restore_file.
  destruct (base_entry base (path e)) as [[b file]|] eqn:Hb; simpl.
  2: by apply restore_fresh_sound.
  destruct (b_clone b (path file)) as [content|] eqn:Hc; simpl.
  2: by apply restore_fresh_sound.
  destruct (Z.eqb_spec (len content) (size file)) as [Hcl|Hcl]; simpl.
  2: by apply restore_fresh_sound.
  eapply (restore_chunks_sound _ _ _ _ _ _ _ (chunks e) (set_len content (size e)) Q) with (pre := []); try done.
  - by apply len_set_len.
  - intros k c Hk Hbk Htt. by eapply Htr.
  - intros k Hk Hm. pose proof (get_Some_lt _ _ _ Hk) as Hkr.
    assert (is_zero_filled (piece_at (size e) (set_len content (size e)) k) = true \/
      exists map, (if b_trusted b (path e) then None else b_data_map b (path e)) = Some map
        /\ get map k = Some false) as [Hz|(map & Hmap & Hf)]; [|done|].
    2: { destruct (b_trusted b (path e)); [done|].
         by apply (bok_map _ _ Hbase b file content map Hb Hc Hmap). }
    unfold cloned_chunk_matches in Hm.
    assert (exists p, get_range (set_len content (size e)) (k * CHUNK_SIZE)
      (k * CHUNK_SIZE + Z.min (size e - k * CHUNK_SIZE) CHUNK_SIZE) = Some p
      /\ p = piece_at (size e) (set_len content (size e)) k) as (p & Hp & Hpe).
    { eexists. split; [apply slice_whole_range|done].
      - destruct (chunk_range (size e) (chunks e) Hall k Hkr) as (?&?&?). lia.
      - rewrite len_set_len by done.
        destruct (chunk_range (size e) (chunks e) Hall k Hkr) as (?&?&?). lia. }
    rewrite Hp in Hm. simpl in Hm. rewrite Hpe in Hm.
    destruct (if b_trusted b (path e) then None else b_data_map b (path e)) as [map|] eqn:Hmap.
    + destruct (negb _) eqn:Hn in Hm; [|left; by injection Hm].
      right. exists map. split; [done|]. eapply hole_map_false; [|
        |exact Hn].
      * by rewrite <-Hall.
      * destruct (b_trusted b (path e)); [done|].
        by apply (bok_map _ _ Hbase b file content map Hb Hc Hmap).
    + left. by injection Hm.
  - split; [by apply len_set_len|]. split; [done|]. lia.
Qed.

End Good.

End OneFile.

End Files.
End RestoreFacts.
