(* ===== verification/CkptCapture.v ===== *)
(** * CkptCapture: a capture and what survives it

    A whole capture stores and links every file ([capture_ok]); what other
    writers and pruning do leaves it alone ([others_keep_checkpoint]); and a
    restore gives back its files ([materialize_holds]). *)

From S2P Require Import Prelude RustStr ForkPool CkptStore CkptFacts CkptRestore.

Module CaptureFacts.
Import Str Path Ckpt CkptFacts RestoreFacts.

Section Capture.
Context `{ObjectCodec} `{IndexCodec}.

(** ** Exact restores *)

Lemma describes_chunks s dir e data :
  describes s dir e data ->
  0 <= size e /\ len (chunks e) = div_ceil (size e) CHUNK_SIZE.
Proof.
  intros (Hsz & cs & Hsp & Hcs & _). split; [rewrite Hsz; apply len_nonneg|].
  rewrite Hcs, Hsz. unfold len at 1. rewrite length_map. by apply splits_count.
Qed.

Lemma get_map {A B} (f : A -> B) l k : get (map f l) k = f <$> get l k.
Proof. unfold get. case_bool_guard; [done|]. apply list_lookup_fmap. Qed.

Lemma get_elem {A} (l : list A) k x : get l k = Some x -> x ∈ l.
Proof. unfold get. case_bool_guard; [done|]. apply list_elem_of_lookup_2. Qed.

(** The chunk an entry names at [k], with its length. *)
Lemma describes_piece e data cs k c :
  splits data cs -> chunks e = map stored_chunk cs -> size e = len data ->
  get (chunks e) k = Some c ->
  exists b, get cs k = Some b /\ c = stored_chunk b
    /\ len b = Z.min (size e - k * CHUNK_SIZE) CHUNK_SIZE /\ 0 < len b.
Proof.
  intros Hsp Hcs Hsz Hk. pose proof (get_Some_lt _ _ _ Hk) as Hkr.
  rewrite Hcs, get_map in Hk. destruct (get cs k) as [b|] eqn:Hb; [|done]. injection Hk as <-.
  exists b. split; [done|]. split; [done|].
  pose proof (splits_bounds _ _ Hsp) as Hbd. rewrite Forall_forall in Hbd.
  specialize (Hbd b (get_elem _ _ _ Hb)). split; [|lia].
  assert (len (chunks e) = div_ceil (size e) CHUNK_SIZE) as Hall.
  { rewrite Hcs, Hsz. unfold len at 1. rewrite length_map. by apply splits_count. }
  rewrite <-(splits_pieces data cs Hsp k b Hb). unfold piece_at. rewrite <-Hsz.
  destruct (chunk_range (size e) (chunks e) Hall k Hkr) as (?&?&?).
  rewrite len_slice; lia.
Qed.

Lemma restore_file_exact s dir D base e data :
  dirs s !! dir = Some D -> (forall h i, d_objects D !! h = Some i -> object_ok s h i) ->
  describes s dir e data -> base_ok base e ->
  restore_file s (d_objects D) base e = Ok data.
Proof.
  intros HD Hobj Hd Hbase. pose proof (describes_chunks _ _ _ _ Hd) as [Hsz Hall].
  destruct Hd as (Hse & cs & Hsp & Hcs & Hcf & Hlk). rewrite (dir_at_Some _ _ _ HD) in Hlk.
  rewrite Forall_forall in Hcf.
  assert (exists f, restore_file s (d_objects D) base e = Ok f) as [f Hf].
  { assert (forall j h, get (chunks e) j = Some (Some h) -> exists b,
      read_object s (d_objects D !! h) h (Z.min (size e - j * CHUNK_SIZE) CHUNK_SIZE) = Ok b) as Hread.
    { intros j h Hj. destruct (describes_piece e data cs j (Some h)) as (b & Hb & Hh & Hlb & _);
        [done..|]. destruct (Hlk h (get_elem _ _ _ Hj)) as [i Hi]. rewrite Hi, <-Hlb. exists b.
      unfold stored_chunk in Hh. destruct (is_zero_filled b); [done|]. injection Hh as ->.
      apply read_object_ok; [by apply Hobj|by apply Hcf, (get_elem cs j)|done]. }
    unfold restore_file.
    destruct (mbind _ _) as [[[b file] content]|];
      (apply (restore_chunks_total _ _ _ _ _ _ _ (chunks e) Hall [] (chunks e) 0);
       [done|done| |done]); [by apply len_set_len|by apply len_zeros]. }
  rewrite Hf. f_equal.
  destruct (restore_file_sound s (d_objects D) base e Hsz Hall Hbase
    (fun k x => get cs k = Some x)) with (f := f) as [Hfl Hfk]; [..|done|].
  - intros k h x Hk Hx Hxl. destruct (describes_piece e data cs k (Some h)) as (b & Hb & Hh & Hlb & _);
      [done..|]. rewrite Hb. f_equal. unfold stored_chunk in Hh. destruct (is_zero_filled b); [done|].
    injection Hh as ->. symmetry. by apply Hcf; [apply (get_elem cs k)|].
  - intros k x Hk Hx Hxl. destruct (describes_piece e data cs k None) as (b & Hb & Hh & Hlb & _);
      [done..|]. rewrite Hb. f_equal. unfold stored_chunk in Hh.
    destruct (is_zero_filled b) eqn:Hz; [|done].
    rewrite (zero_filled_zeros _ Hz), (zero_filled_zeros _ Hx). congruence.
  - intros b file content k c Hbe Hcl Hcon Htr Hk Hbk.
    destruct (describes_piece e data cs k c) as (x & Hx & -> & Hlx & Hpos); [done..|].
    rewrite Hx. f_equal. symmetry. destruct (bok_trusted _ _ Hbase b file content) as [_ Hv]; [done..|].
    pose proof (get_Some_lt _ _ _ Hk).
    eapply set_len_piece_trusted; [done|lia|done|done|done|by apply Hcf, (get_elem cs k)|done..].
  - apply (pieces_determine data cs); [done|congruence|]. intros k b Hb.
    assert (0 <= k < len (chunks e)) as Hk.
    { apply get_Some_lt in Hb. rewrite Hcs. unfold len in *. by rewrite length_map. }
    specialize (Hfk k Hk). rewrite <-Hse. congruence.
Qed.

(** ** Restoring every file *)

(** No path is another's, nor a directory of another's. *)
Definition paths_apart (es : list StoredFile) : Prop :=
  forall i j a b, es !! i = Some a -> es !! j = Some b ->
    names (path a) `prefix_of` names (path b) -> i = j.

Lemma existsb_false {A} (f : A -> bool) l : existsb f l = false <-> forall x, x ∈ l -> f x = false.
Proof.
  rewrite <-not_true_iff_false, existsb_exists. split.
  - intros Hn x Hx. apply not_true_iff_false. intros Hf. apply Hn. exists x.
    split; [by apply list_elem_of_In|done].
  - intros Hn (x & Hx & Hf). apply list_elem_of_In in Hx. rewrite (Hn x Hx) in Hf. done.
Qed.

(** The two conflicts of a path with what was restored before. *)
Lemma restore_files_cons s objs base e es out r :
  restore_files s objs base (e :: es) out = Ok r <->
  (forall k v, out !! k = Some v ->
     ~ (k `prefix_of` names (path e)) /\ ~ (names (path e) `prefix_of` k))
  /\ exists f, restore_file s objs base e = Ok f
     /\ restore_files s objs base es (<[names (path e) := (f, mode e)]> out) = Ok r.
Proof.
  cbn [restore_files]. split.
  - destruct (existsb _ _) eqn:H1; [done|]. destruct (existsb _ _) eqn:H2 in |- *; [done|].
    rewrite existsb_false in H1, H2.
    destruct (restore_file s objs base e) as [f|] eqn:Hf; simpl; [|done]. intros Hr.
    split; [|by exists f]. intros k v Hk%elem_of_map_to_list.
    specialize (H1 _ Hk) as Hk1. specialize (H2 _ Hk) as Hk2. simpl in *.
    apply bool_decide_eq_false in Hk1, Hk2. split; [|done]. intros Hp. apply Hk1. split; [done|].
    intros ->. by apply Hk2.
  - intros (Hno & f & Hf & Hr).
    destruct (existsb _ _) eqn:H1.
    { apply existsb_exists in H1 as ([k v] & Hin & Hb). apply list_elem_of_In, elem_of_map_to_list in Hin.
      apply bool_decide_eq_true in Hb. destruct (Hno k v Hin). tauto. }
    destruct (existsb _ _) eqn:H2 in |- *.
    { apply existsb_exists in H2 as ([k v] & Hin & Hb). apply list_elem_of_In, elem_of_map_to_list in Hin.
      apply bool_decide_eq_true in Hb. destruct (Hno k v Hin). tauto. }
    rewrite Hf. done.
Qed.

(** Later files do not disturb earlier ones. *)
Lemma restore_files_keeps s objs base es out r k v :
  restore_files s objs base es out = Ok r -> out !! k = Some v -> r !! k = Some v.
Proof.
  revert out. induction es as [|e es IH]; intros out; [by intros [= <-]|].
  intros (Hno & f & _ & Hr)%restore_files_cons Hk. apply (IH _ Hr).
  rewrite lookup_insert_ne; [done|]. intros <-. by destruct (Hno _ _ Hk).
Qed.

Lemma restore_files_each s objs base es out r e :
  restore_files s objs base es out = Ok r -> e ∈ es ->
  exists f, restore_file s objs base e = Ok f /\ r !! names (path e) = Some (f, mode e).
Proof.
  revert out. induction es as [|e' es IH]; intros out Hr Hin; [by apply not_elem_of_nil in Hin|].
  apply restore_files_cons in Hr as (_ & f & Hf & Hr).
  apply elem_of_cons in Hin as [->|Hin]; [|by eapply IH].
  exists f. split; [done|]. eapply restore_files_keeps; [done|]. by rewrite lookup_insert_eq.
Qed.

Lemma restore_files_exact s objs base es ds :
  Forall2 (fun e data => restore_file s objs base e = Ok data) es ds -> paths_apart es ->
  forall out, (forall k v e, out !! k = Some v -> e ∈ es ->
     ~ (k `prefix_of` names (path e)) /\ ~ (names (path e) `prefix_of` k)) ->
  exists r, restore_files s objs base es out = Ok r
    /\ (forall k v, r !! k = Some v -> out !! k = Some v
          \/ exists i e data, es !! i = Some e /\ ds !! i = Some data
               /\ k = names (path e) /\ v = (data, mode e)).
Proof.
  induction 1 as [|e data es ds He _ IH]; intros Hap out Hout.
  { exists out. split; [done|]. by left. }
  destruct (IH) with (out := <[names (path e) := (data, mode e)]> out) as (r & Hr & Hk).
  - intros i j a b Ha Hb Hp. apply Nat.succ_inj. by apply (Hap (S i) (S j) a b).
  - intros k v e' Hk Hin. destruct (decide (names (path e) = k)) as [<-|Hne].
    + apply list_elem_of_lookup in Hin as [i Hi]. split; intros Hp.
      * by specialize (Hap 0%nat (S i) e e' eq_refl Hi Hp).
      * by specialize (Hap (S i) 0%nat e' e Hi eq_refl Hp).
    + rewrite lookup_insert_ne in Hk by done. apply (Hout k v e'); [done|by right].
  - exists r. split.
    + apply restore_files_cons. split; [|by exists data]. intros k v Hkv.
      apply (Hout k v e); [done|by left].
    + intros k v Hkv. destruct (Hk k v Hkv) as [Hi|(i & e' & data' & ? & ? & ? & ?)].
      * destruct (decide (names (path e) = k)) as [<-|Hne].
        -- rewrite lookup_insert_eq in Hi. injection Hi as <-. right. exists 0%nat, e, data. done.
        -- rewrite lookup_insert_ne in Hi by done. by left.
      * right. exists (S i), e', data'. done.
Qed.

(** ** Validation of a capture's index *)

Definition entry_valid (e : StoredFile) : Prop :=
  0 <= size e /\ safe_relative (path e) = true
  /\ len (chunks e) = div_ceil (size e) CHUNK_SIZE
  /\ (exists m, mode e = Z.land m 511)
  /\ Forall (fun c => match c with Some h => is_object_name h = true | None => True end) (chunks e).

Lemma mode_masked m : Z.land (Z.land m 511) (Z.lxor (u_max 32) 511) = 0.
Proof.
  rewrite <-Z.land_assoc. change (Z.land 511 (Z.lxor (u_max 32) 511)) with 0. apply Z.land_0_r.
Qed.

Lemma validate_files_ok es total paths :
  Forall entry_valid es -> NoDup (map path es) -> (forall e, e ∈ es -> path e ∉ paths) ->
  0 <= total -> total + foldr Z.add 0 (map size es) <= MAX_BYTES ->
  validate_files total paths es = Ok tt.
Proof.
  intros Hv. revert total paths.
  induction Hv as [|e es (Hs & Hsafe & Hc & [m Hm] & Hh) Hes IH]; intros total paths Hn Hp Ht Hmax; [done|].
  simpl in *. apply NoDup_cons in Hn as [Hne Hn].
  assert (0 <= foldr Z.add 0 (map size es)) as Hnn.
  { clear -Hes. induction Hes as [|e es [? _] _ IH]; simpl; lia. }
  unfold checked_add. unfold MAX_BYTES in *. change (u_max 64) with U64_MAX.
  destruct (Z.leb_spec (total + size e) U64_MAX); [|lia]. simpl.
  assert (valid_file (total + size e) paths e = true) as ->.
  { unfold valid_file, MAX_BYTES. rewrite Hsafe, Hc, Hm, mode_masked, Z.eqb_refl.
    rewrite bool_decide_eq_false_2 by (apply Hp; by left).
    destruct (Z.gtb_spec (total + size e) (2 * 1024 * 1024 * 1024 * 1024)); [lia|]. simpl.
    apply forallb_forall. intros c Hin%list_elem_of_In. rewrite Forall_forall in Hh.
    specialize (Hh c Hin). by destruct c. }
  apply IH; [done| |lia|lia]. intros e' Hin. rewrite not_elem_of_union, not_elem_of_singleton.
  split; [|by apply Hp; right]. intros Heq. apply Hne. rewrite <-Heq.
  apply list_elem_of_fmap. by exists e'.
Qed.

Lemma describes_valid s dir p md data cs :
  safe_relative p = true -> describes s dir (MkFile p (len data) (Z.land md 511) cs) data ->
  entry_valid (MkFile p (len data) (Z.land md 511) cs).
Proof.
  intros Hsafe Hd. destruct (describes_chunks _ _ _ _ Hd) as [Hs Hc].
  destruct Hd as (_ & bs & _ & Hcs & _). simpl in *. repeat split; simpl; try done; [by eexists|].
  rewrite Hcs. apply Forall_map, Forall_true. intros b. unfold stored_chunk.
  destruct (is_zero_filled b); [done|apply digest_name].
Qed.

(** ** A whole capture *)

(** A source of a file: a stream to read, or a sparse file. *)
Inductive Input :=
| Stream (data rest : bytes)
| Sparse (hole : Z -> bool) (content : bytes) (head : option bytes).

Definition input_data (i : Input) : bytes :=
  match i with Stream data _ => data | Sparse _ content head => with_head head content end.

Definition ingest_input (p : bytes) (md : Z) (i : Input) (w : Writer) (s : Store) :
    result StoredFile IoError * Writer * Store :=
  match i with
  | Stream data rest => ingest p (len data) md (data ++ rest) w s
  | Sparse hole content head => ingest_file_with_head p md hole content head w s
  end.

Fixpoint ingest_all (inputs : list (bytes * Z * Input)) (w : Writer) (s : Store) :
    result (list StoredFile) IoError * Writer * Store :=
  match inputs with
  | [] => (Ok [], w, s)
  | (p, md, i) :: inputs =>
      match ingest_input p md i w s with
      | (Err e, w, s) => (Err e, w, s)
      | (Ok f, w, s) =>
          let '(r, w, s) := ingest_all inputs w s in
          (let? fs := r in Ok (f :: fs), w, s)
      end
  end.

Definition capture (opts : WriteOptions) (staging dst : bytes) (m : PackManifest)
    (inputs : list (bytes * Z * Input)) (s : Store) : result WriteStats IoError * Store :=
  match writer_new opts staging s with
  | (Err e, s) => (Err e, s)
  | (Ok w, s) =>
      match ingest_all inputs w s with
      | (Err e, _, s) => (Err e, s)
      | (Ok fs, w, s) =>
          match finish m fs w s with
          | (Err e, _, s) => (Err e, s)
          | (Ok st, _, s) =>
              let (r, s) := publish staging dst s in (let? _ := r in Ok st, s)
          end
      end
  end.

Definition input_ok (x : bytes * Z * Input) : Prop :=
  let '(p, md, i) := x in
  safe_relative p = true /\ data_ok (input_data i)
  /\ match i with
     | Stream _ _ => True
     | Sparse hole content head =>
         holes_ok hole content /\ forall h, head = Some h -> len h = Z.min (len content) CHUNK_SIZE
     end.

Definition input_size (x : bytes * Z * Input) : Z := len (input_data x.2).

Lemma with_head_len head content :
  (forall h, head = Some h -> len h = Z.min (len content) CHUNK_SIZE) ->
  len (with_head head content) = len content.
Proof.
  intros Hh. destruct head as [h|]; [|done]. specialize (Hh h eq_refl). simpl. rewrite len_app.
  unfold len in *. rewrite length_drop. lia.
Qed.

Lemma ingest_input_ok p md i w s :
  store_ok s -> writer_ok w s -> is_Some (dirs s !! w_dir w) -> input_ok (p, md, i) ->
  len (input_data i) <= MAX_BYTES ->
  exists w' s' cs, let e := MkFile p (len (input_data i)) (Z.land md 511) cs in
    ingest_input p md i w s = (Ok e, w', s')
    /\ captured w s cs (len (input_data i)) w' s' /\ describes s' (w_dir w) e (input_data i).
Proof.
  intros Hok Hw Hd (Hsafe & Hdata & Hi) Hmax. destruct i as [data rest|hole content head]; simpl in *.
  - by apply ingest_ok.
  - destruct Hi as [Hh Hhd]. pose proof (with_head_len head content Hhd) as Hl. rewrite Hl in *.
    by apply ingest_file_ok.
Qed.

Lemma describes_weaken dir s s' e data :
  is_Some (dirs s !! dir) -> writes_in dir s s' -> describes s dir e data -> describes s' dir e data.
Proof.
  intros Hd Hw (Hsz & cs & Hsp & Hcs & Hcf & Hl). split; [done|]. exists cs.
  repeat split; try done. intros h Hh. eapply linked_weaken; [done|done|by apply Hl].
Qed.

Definition entry_for (x : bytes * Z * Input) (e : StoredFile) : Prop :=
  path e = x.1.1 /\ mode e = Z.land x.1.2 511 /\ size e = input_size x /\ entry_valid e.

Lemma ingest_all_ok inputs w s :
  store_ok s -> writer_ok w s -> is_Some (dirs s !! w_dir w) -> Forall input_ok inputs ->
  Forall (fun x => input_size x <= MAX_BYTES) inputs ->
  exists w' s' es hs, ingest_all inputs w s = (Ok es, w', s')
    /\ captured w s hs (foldr Z.add 0 (map input_size inputs)) w' s'
    /\ Forall2 (fun x e => describes s' (w_dir w) e (input_data x.2) /\ entry_for x e) inputs es.
Proof.
  intros Hok Hw Hd Hin. revert w s Hok Hw Hd.
  induction Hin as [|[[p md] i] inputs Hx _ IH]; intros w s Hok Hw Hd Hmax; simpl.
  { exists w, s, [], []. split; [done|]. split; [by apply captured_refl|constructor]. }
  apply Forall_cons in Hmax as [Hm Hmax].
  destruct (ingest_input_ok p md i w s) as (w1 & s1 & cs & -> & Hc1 & Hd1); [done..|].
  pose proof (cap_same _ _ _ _ _ _ Hc1) as [Hsame _].
  assert (is_Some (dirs s1 !! w_dir w)) as Hdir1 by (eapply writes_in_dir; [by eapply cap_writes|done]).
  destruct (IH w1 s1) as (w2 & s2 & es & hs & -> & Hc2 & Hf2).
  { by eapply cap_ok. } { by eapply cap_writer. } { by rewrite Hsame. } { done. }
  eexists w2, s2, _, _. split; [done|]. split; [by eapply captured_trans|].
  rewrite Hsame in Hf2. constructor; [|done]. pose proof (cap_writes _ _ _ _ _ _ Hc2) as Hw2.
  rewrite Hsame in Hw2. split; [by eapply describes_weaken|].
  do 3 (split; [done|]). destruct Hx as [Hsafe _]. by eapply describes_valid.
Qed.

Lemma paths_of inputs es :
  Forall2 (fun x e => entry_for x e) inputs es ->
  map path es = map (fun x => x.1.1) inputs
  /\ foldr Z.add 0 (map size es) = foldr Z.add 0 (map input_size inputs)
  /\ Forall entry_valid es.
Proof.
  induction 1 as [|x e inputs es (Hp & _ & Hs & Hv) _ (IHp & IHs & IHv)]; [done|]. simpl.
  rewrite Hp, Hs, IHp, IHs. repeat split; try done. by constructor.
Qed.

(** The published checkpoint [dst] holds the inputs. *)
Record checkpoint_holds (dst : bytes) (m : PackManifest) (inputs : list (bytes * Z * Input))
    (D : Dir) (s : Store) : Prop := MkHolds {
  holds_dir : dirs s !! dst = Some D;
  holds_capture : d_capture D = false;
  holds_objects : forall h i, d_objects D !! h = Some i -> object_ok s h i;
  holds_index : exists es, d_index D = Some (MkIndex VERSION CHUNK_SIZE m es)
    /\ validate_index (MkIndex VERSION CHUNK_SIZE m es) = Ok tt
    /\ Forall2 (fun x e => describes s dst e (input_data x.2) /\ entry_for x e) inputs es;
}.

Definition total_size (inputs : list (bytes * Z * Input)) : Z := foldr Z.add 0 (map input_size inputs).

Lemma input_size_le inputs : Forall (fun x => input_size x <= total_size inputs) inputs.
Proof.
  assert (forall l, 0 <= total_size l) as Hnn.
  { intros l. induction l as [|x l IH]; unfold total_size in *; simpl; [lia|].
    unfold input_size at 1. pose proof (len_nonneg (input_data x.2)). lia. }
  induction inputs as [|x l IH]; constructor; unfold total_size in *; simpl.
  - specialize (Hnn l). lia.
  - eapply Forall_impl; [exact IH|]. intros y Hy. simpl in Hy. unfold input_size at 2.
    pose proof (len_nonneg (input_data x.2)). lia.
Qed.

Lemma index_valid m inputs es :
  Forall2 (fun x e => entry_for x e) inputs es -> NoDup (map (fun x => x.1.1) inputs) ->
  len inputs <= 100000 -> total_size inputs <= MAX_BYTES ->
  validate_index (MkIndex VERSION CHUNK_SIZE m es) = Ok tt.
Proof.
  intros Hf Hn Hl Ht. destruct (paths_of _ _ Hf) as (Hp & Hs & Hv).
  unfold validate_index. simpl. apply Forall2_length in Hf. unfold len in *. rewrite <-Hf.
  destruct (Z.gtb_spec (Z.of_nat (length inputs)) 100000); [lia|].
  apply validate_files_ok; [done|by rewrite Hp|by intros|lia|]. unfold total_size in Ht. lia.
Qed.

Lemma capture_ok opts staging dst m inputs s :
  store_ok s -> dirs s !! staging = None -> dirs s !! dst = None -> staging <> dst ->
  Forall input_ok inputs -> NoDup (map (fun x => x.1.1) inputs) -> len inputs <= 100000 ->
  total_size inputs <= MAX_BYTES ->
  exists st D s', capture opts staging dst m inputs s = (Ok st, s')
    /\ logical st = total_size inputs /\ store_ok s' /\ checkpoint_holds dst m inputs D s'.
Proof.
  intros Hok Hst Hdst Hne Hin Hnd Hlen Htot. unfold capture, writer_new. rewrite Hst.
  set (s0 := with_dirs _ s). set (w0 := MkWriter _ _ _ _).
  assert (dirs s0 !! staging = Some (MkDir ∅ None ∅ true)) as Hd0 by apply lookup_insert_eq.
  assert (store_ok s0) as Hok0.
  { split; [apply (ok_objects s Hok)|]. intros dir d h i. simpl.
    destruct (decide (staging = dir)) as [<-|]; [rewrite lookup_insert_eq; by intros [= <-]|].
    rewrite lookup_insert_ne by done. apply (ok_dirs s Hok). }
  destruct (ingest_all_ok inputs w0 s0) as (w1 & s1 & es & hs & -> & Hc & Hf); [done| |by eexists|done| |].
  { split; [constructor|]. by intros t h Hx%not_elem_of_nil. }
  { eapply Forall_impl; [apply input_size_le|]. simpl. lia. }
  destruct (cap_same _ _ _ _ _ _ Hc) as [Hwd Hwo]. simpl in Hwd, Hwo.
  pose proof (writes_own _ _ _ (cap_writes _ _ _ _ _ _ Hc) _ Hd0) as (d1 & Hd1 & _ & Hi1 & Hg1 & _).
  change (w_dir w0) with staging in Hd1.
  assert (validate_index (MkIndex VERSION CHUNK_SIZE m es) = Ok tt) as Hval.
  { eapply index_valid; [|done..]. eapply Forall2_impl; [exact Hf|]. by intros x e [_ ?]. }
  unfold finish. rewrite Hval.
  destruct (cap_writer _ _ _ _ _ _ Hc) as [Hwn Hwp].
  destruct (publish_pending_ok (pending w1) s1) as (s2 & -> & Hok2 & Hi2 & Hdr2 & _);
    [by eapply cap_ok|done|done|]. cbn beta iota zeta.
  rewrite Hwd, (dir_at_Some s2 staging d1) by (rewrite Hdr2; exact Hd1). rewrite Hi1.
  simpl. unfold publish. simpl. rewrite Hdr2, lookup_alter_eq, Hd1. simpl.
  assert (dirs s1 !! dst = None) as Hdst1.
  { rewrite (writes_others _ _ _ (cap_writes _ _ _ _ _ _ Hc)) by done. simpl.
    by rewrite lookup_insert_ne. }
  rewrite lookup_alter_ne, Hdst1 by done. eexists _, _, _. split; [done|]. split; [|split].
  - by rewrite (cap_logical _ _ _ _ _ _ Hc).
  - split; [apply (ok_objects s2 Hok2)|]. intros dir d h i. simpl.
    destruct (decide (dst = dir)) as [<-|]; [rewrite lookup_insert_eq; intros [= <-]; simpl|].
    { apply (ok_dirs s2 Hok2 staging d1). by rewrite Hdr2. }
    rewrite lookup_insert_ne by done. intros [Hns Hl]%lookup_delete_Some.
    rewrite lookup_alter_ne in Hl by done. apply (ok_dirs s2 Hok2 dir). done.
  - split; simpl; [apply lookup_insert_eq|done| |].
    + intros h i. apply (ok_dirs s2 Hok2 staging d1). by rewrite Hdr2.
    + exists es. split; [done|]. split; [done|]. eapply Forall2_impl; [exact Hf|].
      intros x e [(Hsz & cs & Hsp & Hcs & Hcf & Hl) He]. split; [|done]. split; [done|]. exists cs.
      repeat split; try done. intros h Hh. specialize (Hl h Hh). unfold dir_at in *. simpl in *.
      rewrite lookup_insert_eq. simpl. by rewrite Hd1 in Hl.
Qed.

(** ** Everyone else *)

(** What other captures, prunes and deletions do while [dst] is kept. *)
Inductive other_step (old : bytes -> bool) (allocated : Z -> Z) (dst : bytes) (s : Store) : Store -> Prop :=
| other_new opts dir : other_step old allocated dst s (writer_new opts dir s).2
| other_chunk existing opts dir b :
    dir <> dst -> other_step old allocated dst s (store_chunk_after existing opts dir b s).2
| other_finish m fs w : w_dir w <> dst -> other_step old allocated dst s (finish m fs w s).2
| other_publish a b : a <> dst -> other_step old allocated dst s (publish a b s).2
| other_retain dir source start limit :
    dir <> dst -> other_step old allocated dst s (retain_generations_from dir source start limit s).2
| other_delete dir : dir <> dst -> other_step old allocated dst s (with_dirs (delete dir) s)
| other_prune_candidate st name :
    other_step old allocated dst s (prune_candidate allocated (s, st) name).1
| other_prune batch : other_step old allocated dst s (prune_in_batches old allocated batch s).2
| other_prune_all : other_step old allocated dst s (prune allocated s).2.

Definition keeps (dst : bytes) (s s' : Store) : Prop :=
  inodes s ⊆ inodes s' /\ forall D, dirs s !! dst = Some D -> d_capture D = false -> dirs s' !! dst = Some D.
#[global] Instance keeps_refl dst : Reflexive (keeps dst).
Proof. by intros s. Qed.
#[global] Instance keeps_trans dst : Transitive (keeps dst).
Proof. intros s1 s2 s3 [Hi1 Hd1] [Hi2 Hd2]. split; [by etrans|auto]. Qed.

Lemma link_in_dir_keeps dst dir h i s : dir <> dst -> keeps dst s (link_in_dir dir h i s).
Proof. intros Hne. split; [done|]. intros D HD _. simpl. by rewrite lookup_alter_ne. Qed.

Lemma link_chunk_keeps dst opts dir b st s : dir <> dst -> keeps dst s (link_chunk opts dir b st s).2.
Proof.
  intros Hne. unfold link_chunk. repeat case_match; simpl; try done; by apply link_in_dir_keeps.
Qed.

Lemma with_objects_keeps dst f s : keeps dst s (with_objects f s).
Proof. done. Qed.

Lemma new_object_keeps dst name b s :
  keeps dst s (with_objects (insert name (fresh_inode s))
    (MkStore (objects s) (<[fresh_inode s := compress b]> (inodes s)) (dirs s))).
Proof. split; [|done]. simpl. apply insert_subseteq, fresh_inode_fresh. Qed.

Lemma store_chunk_keeps dst existing opts dir b s :
  dir <> dst -> keeps dst s (store_chunk_after existing opts dir b s).2.
Proof.
  intros Hne. unfold store_chunk_after. destruct existing as [[]|[]]; try done.
  { by apply link_chunk_keeps. }
  unfold store_new_chunk. destruct (defer_object_sync opts).
  - case_match; [done|]. simpl. etrans; [apply new_object_keeps|by apply link_in_dir_keeps].
  - destruct (objects s !! digest b).
    + destruct (verify_object_matches s (Some z) b); [by apply link_chunk_keeps|done].
    + etrans; [apply new_object_keeps|by apply link_chunk_keeps].
Qed.

Lemma publish_pending_keeps dst ps s : keeps dst s (publish_pending ps s).2.
Proof.
  revert s. induction ps as [|[t h] ps IH]; intros s; simpl; [done|].
  destruct (objects s !! t); [|done]. etrans; [|apply IH]. by destruct (objects s !! h).
Qed.

Lemma alter_dir_keeps dst dir f s : dir <> dst -> keeps dst s (with_dirs (alter f dir) s).
Proof. intros Hne. split; [done|]. intros D HD _. simpl. by rewrite lookup_alter_ne. Qed.

Lemma finish_keeps dst m fs w s : w_dir w <> dst -> keeps dst s (finish m fs w s).2.
Proof.
  intros Hne. unfold finish. destruct (validate_index _); [|done].
  pose proof (publish_pending_keeps dst (pending w) s) as Hp.
  destruct (publish_pending (pending w) s) as [[[]|] s']; simpl in *; [|done].
  destruct (d_index _); simpl; [done|]. etrans; [exact Hp|by apply alter_dir_keeps].
Qed.

Lemma link_objects_keeps dst dir source hs s : dir <> dst -> keeps dst s (link_objects dir source hs s).2.
Proof.
  intros Hne. revert s. induction hs as [|h hs IH]; intros s; cbn [link_objects]; [done|].
  destruct (d_objects (dir_at s dir) !! h); [apply IH|].
  destruct (match d_objects _ !! h with Some i => _ | None => _ end); [|done].
  etrans; [by apply link_in_dir_keeps|apply IH].
Qed.

Lemma retain_keeps dst dir source start limit s :
  dir <> dst -> keeps dst s (retain_generations_from dir source start limit s).2.
Proof.
  intros Hne. unfold retain_generations_from. case_match; [done|].
  destruct (lineage_of s source) as [lineage|]; [|done].
  destruct (from_start _ _ lineage) as [started sources]. destruct (negb started); [done|].
  generalize (take (Z.to_nat (limit `min` MAX_RETAINED_GENERATIONS)) sources). intros gs.
  generalize 0. clear -Hne. revert s.
  induction gs as [|g gs IH]; intros s count; cbn [retain_all]; [done|].
  destruct (read_index_at s source _) as [index|]; [|done].
  pose proof (link_objects_keeps dst dir source (index_hashes index) s Hne) as Hl.
  destruct (link_objects dir source (index_hashes index) s) as [[[]|] s']; simpl in Hl; [|done].
  etrans; [exact Hl|]. etrans; [|apply IH]. by apply alter_dir_keeps.
Qed.

Lemma remove_abandoned_keeps dst s : keeps dst s (remove_abandoned_captures s).
Proof.
  split; [done|]. intros D HD HDc. simpl. by apply map_lookup_filter_Some.
Qed.

Lemma prune_candidate_keeps dst allocated acc name :
  keeps dst acc.1 (prune_candidate allocated acc name).1.
Proof. destruct acc as [s st]. simpl. repeat case_match; done. Qed.

Lemma foldl_keeps {A B} dst (store : A -> Store) (f : A -> B -> A) l a :
  (forall a b, keeps dst (store a) (store (f a b))) -> keeps dst (store a) (store (foldl f a l)).
Proof. intros Hf. revert a. induction l as [|x l IH]; intros a; simpl; [done|]. etrans; [apply Hf|apply IH]. Qed.

Lemma prune_keeps dst old allocated batch s : keeps dst s (prune_in_batches old allocated batch s).2.
Proof.
  unfold prune_in_batches. etrans; [apply remove_abandoned_keeps|].
  set (s1 := remove_abandoned_captures s). set (entries := map fst _). set (st := MkPrune 0 0 0 0).
  assert (forall fuel n l acc, keeps dst acc.1 (prune_loop old allocated fuel n l acc).1) as Hl.
  { induction fuel as [|fuel IH]; intros n l acc; simpl; [done|]. destruct l; [done|].
    etrans; [|apply IH]. unfold prune_batch. destruct (foldl _ _ _) as [cands st'].
    apply (foldl_keeps dst fst _ _ (acc.1, st')). intros. apply prune_candidate_keeps. }
  specialize (Hl (length entries) (Nat.max batch 1) entries (s1, st)).
  by destruct (prune_loop _ _ _ _ _ _).
Qed.

Lemma other_step_keeps old allocated dst s s' : other_step old allocated dst s s' ->
  is_Some (dirs s !! dst) -> keeps dst s s'.
Proof.
  intros Hs [D0 HD0]. destruct Hs.
  - unfold writer_new. destruct (dirs s !! dir) eqn:Hd; [done|]. split; [done|]. intros D HD _. simpl.
    rewrite lookup_insert_ne; [done|congruence].
  - by apply store_chunk_keeps.
  - by apply finish_keeps.
  - unfold publish. destruct (dirs s !! a) eqn:Ha; [|done]. destruct (dirs s !! b) eqn:Hb; [done|].
    split; [done|]. intros D HD _. simpl. rewrite lookup_insert_ne by congruence.
    by rewrite lookup_delete_ne.
  - by apply retain_keeps.
  - split; [done|]. intros D HD _. simpl. by rewrite lookup_delete_ne.
  - apply (prune_candidate_keeps dst allocated (s, st)).
  - apply prune_keeps.
  - unfold prune. etrans; [apply remove_abandoned_keeps|]. set (l := map fst _).
    apply (foldl_keeps dst snd _ l (0, remove_abandoned_captures s)). intros [r s'] name.
    simpl. repeat case_match; done.
Qed.

Lemma others_keep_checkpoint old allocated dst m inputs D s s' :
  rtc (other_step old allocated dst) s s' -> checkpoint_holds dst m inputs D s ->
  checkpoint_holds dst m inputs D s'.
Proof.
  induction 1 as [|s s1 s2 Hs _ IH]; [done|]. intros [Hd Hc Ho (es & Hi & Hv & Hf)]. apply IH.
  apply other_step_keeps in Hs as [Hin Hdir]; [|by eexists]. specialize (Hdir D Hd Hc).
  split; [done|done|eauto using object_ok_mono|]. exists es. split; [done|]. split; [done|].
  eapply Forall2_impl; [exact Hf|]. intros x e [(Hsz & cs & Hsp & Hcs & Hcf & Hl) He].
  split; [|done]. split; [done|]. exists cs. repeat split; try done. intros h Hh.
  rewrite (dir_at_Some _ _ _ Hdir), <-(dir_at_Some _ _ _ Hd). by apply Hl.
Qed.

(** ** Restoring a capture *)

(** The tree a capture of [inputs] stands for. *)
Definition restored (inputs : list (bytes * Z * Input)) : gmap (list bytes) (bytes * Z) :=
  list_to_map (map (fun x => (names x.1.1, (input_data x.2, Z.land x.1.2 511))) inputs).

Definition inputs_apart (inputs : list (bytes * Z * Input)) : Prop :=
  forall i j a b, inputs !! i = Some a -> inputs !! j = Some b ->
    names a.1.1 `prefix_of` names b.1.1 -> i = j.

(** An index file over the limit is refused before anything is read. *)
Lemma materialize_holds dst m inputs D s base index :
  checkpoint_holds dst m inputs D s -> inputs_apart inputs -> d_index D = Some index ->
  (forall e, e ∈ files index -> base_ok base e) ->
  materialize_generation s dst None base =
  if len (encode_index index) <=? MAX_INDEX then Ok (m, restored inputs) else Err InvalidData.
Proof.
  intros [Hd Hc Ho (es & Hi & Hv & Hf)] Hap Hix Hbase.
  unfold materialize_generation, read_index_at, read_index_from.
  rewrite Hi in Hix. injection Hix as <-. rewrite (dir_at_Some _ _ _ Hd), Hi. cbn [ok_or result_bind].
  rewrite Z.gtb_ltb, Z.ltb_antisym. destruct (_ <=? MAX_INDEX); [|done]. cbn [negb]. rewrite Hv. simpl.
  assert (paths_apart es) as Hpa.
  { intros i j a b Ha Hb Hp.
    destruct (Forall2_lookup_r _ _ _ _ _ Hf Ha) as (x & Hx & _ & Hpx & _).
    destruct (Forall2_lookup_r _ _ _ _ _ Hf Hb) as (y & Hy & _ & Hpy & _).
    apply (Hap i j x y Hx Hy). congruence. }
  assert (Forall2 (fun e data => restore_file s (d_objects D) base e = Ok data) es
    (map (fun x => input_data x.2) inputs)) as Hrf.
  { apply Forall2_fmap_r, Forall2_flip.
    assert (forall e, e ∈ es -> base_ok base e) as Hb by (by intros; apply Hbase).
    clear -Hf Hd Ho Hb. induction Hf as [|x e inputs es [Hde _] _ IH]; constructor.
    - eapply restore_file_exact; [done|done|done|]. apply Hb. by left.
    - apply IH. intros. apply Hb. by right. }
  destruct (restore_files_exact s (d_objects D) base es _ Hrf Hpa ∅) as (r & Hr & Hk); [by intros|].
  rewrite Hr. simpl. do 2 f_equal. apply map_eq. intros k. unfold restored.
  destruct (list_to_map _ !! k) as [v|] eqn:Hv'.
  - apply elem_of_list_to_map_2, list_elem_of_fmap in Hv' as (x & [= -> ->] & Hx).
    apply list_elem_of_lookup in Hx as [i Hx].
    destruct (Forall2_lookup_l _ _ _ _ _ Hf Hx) as (e & He & _ & Hpe & Hme & _).
    destruct (restore_files_each _ _ _ _ _ _ e Hr) as (f & Hfe & Hre); [by eapply list_elem_of_lookup_2|].
    rewrite <-Hpe, Hre. do 2 f_equal; [|done].
    destruct (Forall2_lookup_l _ _ _ _ _ Hrf He) as (dat & Hdat & Hres).
    rewrite list_lookup_fmap, Hx in Hdat. injection Hdat as <-. congruence.
  - destruct (r !! k) as [v|] eqn:Hrk; [|done].
    destruct (Hk k v Hrk) as [Hx|(i & e & dat & He & Hdat & -> & ->)]; [by rewrite lookup_empty in Hx|].
    rewrite list_lookup_fmap in Hdat. destruct (inputs !! i) as [x|] eqn:Hx; [|done].
    apply not_elem_of_list_to_map_2 in Hv'. exfalso. apply Hv'.
    destruct (Forall2_lookup_l _ _ _ _ _ Hf Hx) as (e' & He' & _ & Hpe & _).
    apply list_elem_of_fmap. exists (names x.1.1, (input_data x.2, Z.land x.1.2 511)).
    split; [simpl; congruence|]. apply list_elem_of_fmap. exists x. split; [done|].
    by eapply list_elem_of_lookup_2.
Qed.

End Capture.
End CaptureFacts.
