(* ===== verification/CkptPrune.v ===== *)
(** * CkptPrune: what pruning removes, and the order of a history *)

From S2P Require Import Prelude RustStr ForkPool CkptStore.

Module PruneFacts.
Import Str Path Ckpt.

(** ** Counting links *)

#[global] Instance list_filter_proper {A} (f : A -> bool) :
  Proper ((≡ₚ) ==> (≡ₚ)) (List.filter f).
Proof.
  induction 1 as [|x l k _ IH|x y l|l1 l2 l3 _ IH1 _ IH2]; simpl; [done| | |by etrans].
  - destruct (f x); [by constructor|done].
  - destruct (f x), (f y); try done. by constructor.
Qed.

Lemma links_in_perm (m : gmap bytes Z) i l :
  l ≡ₚ map_to_list m -> links_in m i = len (List.filter (fun kv => kv.2 =? i) l).
Proof.
  intros Hl. unfold links_in, len. f_equal. symmetry. apply Permutation_length. by rewrite Hl.
Qed.

Lemma links_in_delete (m : gmap bytes Z) k j i :
  m !! k = Some j -> links_in m i = links_in (delete k m) i + (if j =? i then 1 else 0).
Proof.
  intros Hk. rewrite (links_in_perm m i _ (map_to_list_delete _ _ _ Hk)). simpl.
  unfold links_in. destruct (j =? i); simpl; [rewrite len_cons|]; lia.
Qed.

Lemma links_in_nonneg m i : 0 <= links_in m i.
Proof. apply len_nonneg. Qed.

Lemma links_in_0 m i : (forall k j, m !! k = Some j -> j <> i) -> links_in m i = 0.
Proof.
  intros Hm. unfold links_in.
  replace (List.filter _ _) with (@nil (bytes * Z)); [done|]. symmetry.
  assert (forall kv, kv ∈ map_to_list m -> kv.2 <> i) as Ha.
  { intros [k j] Hin%elem_of_map_to_list. by eapply Hm. }
  revert Ha. generalize (map_to_list m). induction l as [|x l IH]; intros Ha; [done|]. simpl.
  destruct (Z.eqb_spec x.2 i) as [He|]; [exfalso; apply (Ha x); [left|done]|].
  apply IH. intros. apply Ha. by right.
Qed.

Lemma links_in_pos m k i : m !! k = Some i -> 1 <= links_in m i.
Proof.
  intros Hk. rewrite (links_in_delete m k i i Hk), Z.eqb_refl.
  pose proof (links_in_nonneg (delete k m) i). lia.
Qed.

(** Links from checkpoint directories. *)
Definition dir_links (s : Store) (i : Z) : Z :=
  foldr Z.add 0 (map (fun kv => links_in (d_objects kv.2) i) (map_to_list (dirs s))).

(** No inode has two names in the store's own directory. *)
Definition one_name (s : Store) : Prop :=
  forall n n' i, objects s !! n = Some i -> objects s !! n' = Some i -> n = n'.

Lemma dir_links_nonneg s i : 0 <= dir_links s i.
Proof.
  unfold dir_links. induction (map_to_list (dirs s)) as [|x l IH]; simpl; [lia|].
  pose proof (links_in_nonneg (d_objects x.2) i). lia.
Qed.

(** No link is a link from nowhere. *)
Lemma dir_links_0 s i :
  dir_links s i = 0 <-> forall dir d h, dirs s !! dir = Some d -> d_objects d !! h <> Some i.
Proof.
  assert (forall l : list (bytes * Dir),
    foldr Z.add 0 (map (fun kv => links_in (d_objects kv.2) i) l) = 0
    <-> forall dir d h, (dir, d) ∈ l -> d_objects d !! h <> Some i) as Hl.
  { induction l as [|[dir d] l IH]; simpl.
    { split; [intros _ dir d h Hin; by apply not_elem_of_nil in Hin|done]. }
    assert (0 <= foldr Z.add 0 (map (fun kv => links_in (d_objects kv.2) i) l)) as Hnn.
    { clear IH. induction l as [|x l IH]; simpl; [lia|].
      pose proof (links_in_nonneg (d_objects x.2) i). lia. }
    pose proof (links_in_nonneg (d_objects d) i). split.
    - intros Hz dir' d' h Hin Hh. apply elem_of_cons in Hin as [[= -> ->]|Hin].
      + apply links_in_pos in Hh. lia.
      + apply (proj1 IH ltac:(lia) dir' d' h Hin Hh).
    - intros Hn. rewrite links_in_0, Z.add_0_l.
      + apply IH. intros dir' d' h Hin. apply (Hn dir'). by right.
      + intros k j Hk ->. apply (Hn dir d k); [by left|done]. }
  unfold dir_links. rewrite Hl. split; intros Hn dir d h Hd; apply (Hn dir); by apply elem_of_map_to_list.
Qed.

Lemma one_name_links s n i : one_name s -> objects s !! n = Some i -> nlink s i = 1 + dir_links s i.
Proof.
  intros Hu Hn. unfold nlink. fold (dir_links s i). f_equal.
  rewrite (links_in_delete _ n i i Hn), Z.eqb_refl, links_in_0; [done|].
  intros k j [Hne Hk]%lookup_delete_Some ->. by apply Hne, (Hu n k i).
Qed.

Lemma one_name_delete s n : one_name s -> one_name (with_objects (delete n) s).
Proof.
  intros Hu a b i. simpl. rewrite !lookup_delete_Some. intros [_ Ha] [_ Hb]. by eapply Hu.
Qed.

Lemma remove_nothing s : with_objects (filter (fun kv => kv.1 ∉ [])) s = s.
Proof.
  destruct s as [o ins ds]. unfold with_objects. simpl. f_equal.
  apply map_filter_id. intros k v _. by apply not_elem_of_nil.
Qed.

(** ** The reference: what is garbage *)

Section Prune.
Context (old : bytes -> bool) (allocated : Z -> Z).

Definition garbage (s : Store) (n : bytes) (i : Z) : bool :=
  if is_staging n then old n else is_object_name n && (dir_links s i =? 0).
Definition garbage_name (s : Store) (n : bytes) : bool :=
  match objects s !! n with Some i => garbage s n i | None => false end.
Definition space (s : Store) (n : bytes) : Z := default 0 (allocated <$> objects s !! n).

Lemma scan_ok s l cs st :
  one_name s ->
  let '(cs', st') := foldl (scan_entry old allocated s) (cs, st) l in
  cs' = cs ++ List.filter (garbage_name s) l
  /\ removed_objects st' = removed_objects st /\ removed_bytes st' = removed_bytes st.
Proof.
  intros Hu. revert cs st. induction l as [|n l IH]; intros cs st.
  { cbn. rewrite app_nil_r. done. }
  cbn [foldl List.filter]. unfold scan_entry at 2, garbage_name at 1, garbage.
  destruct (is_staging n) eqn:Est, (is_object_name n) eqn:Eob; cbn [negb andb orb];
    destruct (objects s !! n) as [i|] eqn:En; try apply IH.
  1,2: destruct (old n); cbn [negb]; [|apply IH];
    specialize (IH (cs ++ [n]) st); destruct (foldl _ _ _); by rewrite <-app_assoc in IH.
  rewrite (one_name_links s n i Hu En). destruct (Z.eqb_spec (1 + dir_links s i) 1) as [He|He].
  - replace (dir_links s i) with 0 by lia. cbn [Z.eqb]. specialize (IH (cs ++ [n]) st).
    destruct (foldl _ _ _). by rewrite <-app_assoc in IH.
  - destruct (Z.eqb_spec (dir_links s i) 0); [lia|].
    specialize (IH cs (MkPrune (removed_objects st) (removed_bytes st) (kept_objects st + 1)
      (kept_bytes st + allocated i))). by destruct (foldl _ _ _).
Qed.

Lemma sum_filter_space s l :
  foldr Z.add 0 (map (space s) l) = foldr (fun n a => space s n + a) 0 l.
Proof. induction l; simpl; congruence. Qed.

(** Removing candidates that are all garbage. *)
Lemma candidates_ok s st l :
  one_name s -> NoDup l -> Forall (fun n => garbage_name s n = true) l ->
  let '(s', st') := foldl (prune_candidate allocated) (s, st) l in
  s' = with_objects (filter (fun kv => kv.1 ∉ l)) s
  /\ removed_objects st' = removed_objects st + len l
  /\ removed_bytes st' = removed_bytes st + foldr Z.add 0 (map (space s) l).
Proof.
  intros Hu Hn Hg. revert s st Hu Hg. induction Hn as [|n l Hnl Hn IH]; intros s st Hu Hg.
  { cbn. by rewrite remove_nothing, !Z.add_0_r. }
  apply Forall_cons in Hg as [Hgn Hg]. cbn [foldl prune_candidate].
  unfold garbage_name, garbage in Hgn. destruct (objects s !! n) as [i|] eqn:En; [|done].
  assert (is_staging n || (nlink s i =? 1) = true) as ->.
  { rewrite (one_name_links s n i Hu En). destruct (is_staging n); [done|]. bool_simpl.
    apply Z.eqb_eq. simpl. lia. }
  specialize (IH (with_objects (delete n) s) (MkPrune (removed_objects st + 1)
    (removed_bytes st + allocated i) (kept_objects st) (kept_bytes st))).
  assert (forall k, k ∈ l -> objects (with_objects (delete n) s) !! k = objects s !! k) as Hk.
  { intros k Hkl. simpl. apply lookup_delete_ne. by intros ->. }
  destruct (foldl _ _ _) as [s' st']. destruct IH as (-> & -> & ->).
  { by apply one_name_delete. }
  { rewrite Forall_forall in *. intros k Hkl. specialize (Hg k Hkl). unfold garbage_name in *.
    by rewrite (Hk k Hkl). }
  split; [|split].
  - unfold with_objects. simpl. f_equal. apply map_eq. intros k. apply option_eq. intros v.
    rewrite !map_lookup_filter_Some, lookup_delete_Some, not_elem_of_cons. simpl. clear. naive_solver.
  - simpl. rewrite len_cons. lia.
  - simpl. unfold space at 2. rewrite En. simpl.
    assert (map (space (with_objects (delete n) s)) l = map (space s) l) as ->; [|lia].
    apply map_ext_in. intros k Hkl%list_elem_of_In. unfold space. by rewrite (Hk k Hkl).
Qed.

Lemma garbage_name_mono s (l : list bytes) n :
  garbage_name (with_objects (filter (fun kv => kv.1 ∉ l)) s) n
  = if bool_decide (n ∈ l) then false else garbage_name s n.
Proof.
  unfold garbage_name. simpl. case_bool_decide as Hn.
  - assert (filter (fun kv : bytes * Z => kv.1 ∉ l) (objects s) !! n = None) as ->; [|done].
    apply map_lookup_filter_None. right. intros i _ Hx. by apply Hx.
  - destruct (objects s !! n) as [i|] eqn:En.
    + assert (filter (fun kv : bytes * Z => kv.1 ∉ l) (objects s) !! n = Some i) as ->; [|done].
      by apply map_lookup_filter_Some.
    + assert (filter (fun kv : bytes * Z => kv.1 ∉ l) (objects s) !! n = None) as ->; [|done].
      apply map_lookup_filter_None. by left.
Qed.

Lemma batch_ok s st l :
  one_name s -> NoDup l ->
  let '(s', st') := prune_batch old allocated l (s, st) in
  s' = with_objects (filter (fun kv => kv.1 ∉ List.filter (garbage_name s) l)) s
  /\ removed_objects st' = removed_objects st + len (List.filter (garbage_name s) l)
  /\ removed_bytes st' = removed_bytes st
       + foldr Z.add 0 (map (space s) (List.filter (garbage_name s) l)).
Proof.
  intros Hu Hn. unfold prune_batch. simpl. pose proof (scan_ok s l [] st Hu) as Hs.
  destruct (foldl (scan_entry old allocated s) _ _) as [cs st1]. destruct Hs as (-> & <- & <-).
  simpl. apply candidates_ok; [done|by apply NoDup_ListNoDup, List.NoDup_filter, NoDup_ListNoDup|].
  apply Forall_forall. intros n Hin%list_elem_of_In%filter_In. by destruct Hin.
Qed.

Lemma one_name_filter s (P : bytes * Z -> Prop) `{forall kv, Decision (P kv)} :
  one_name s -> one_name (with_objects (filter P) s).
Proof.
  intros Hu a b i. simpl. rewrite !map_lookup_filter_Some. intros [Ha _] [Hb _]. by eapply Hu.
Qed.

Lemma prune_loop_ok fuel batch l s st :
  (1 <= batch)%nat -> (length l <= fuel)%nat -> one_name s -> NoDup l ->
  let '(s', st') := prune_loop old allocated fuel batch l (s, st) in
  s' = with_objects (filter (fun kv => kv.1 ∉ List.filter (garbage_name s) l)) s
  /\ removed_objects st' = removed_objects st + len (List.filter (garbage_name s) l)
  /\ removed_bytes st' = removed_bytes st
       + foldr Z.add 0 (map (space s) (List.filter (garbage_name s) l)).
Proof.
  intros Hb. revert l s st. induction fuel as [|fuel IH]; intros l s st Hl Hu Hn.
  { destruct l; [|simpl in Hl; lia]. by apply (candidates_ok s st []). }
  cbn [prune_loop]. destruct l as [|n l']; [by apply (candidates_ok s st [])|].
  set (l := n :: l') in *. set (a := take batch l). set (b := drop batch l).
  assert (l = a ++ b) as Hab by (symmetry; apply take_drop).
  rewrite Hab in Hn. apply NoDup_app in Hn as (Hna & Hdisj & Hnb).
  pose proof (batch_ok s st a Hu Hna) as Hba.
  destruct (prune_batch old allocated a (s, st)) as [s1 st1]. destruct Hba as (-> & Hr1 & Hb1).
  set (ga := List.filter (garbage_name s) a) in *.
  assert (length b <= fuel)%nat as Hbl.
  { unfold b. rewrite length_drop. unfold l in *. simpl in *. lia. }
  specialize (IH b (with_objects (filter (fun kv => kv.1 ∉ ga)) s) st1 Hbl
    (one_name_filter s _ Hu) Hnb).
  destruct (prune_loop _ _ _ _ _ _) as [s' st']. destruct IH as (-> & -> & ->).
  assert (forall n, n ∈ b -> n ∉ ga) as Hgb.
  { intros x Hx Hga. apply (Hdisj x); [|done].
    apply list_elem_of_In in Hga. apply filter_In in Hga as [Hga _]. by apply list_elem_of_In. }
  assert (List.filter (garbage_name (with_objects (filter (fun kv => kv.1 ∉ ga)) s)) b
    = List.filter (garbage_name s) b) as ->.
  { apply filter_ext_in. intros x Hx%list_elem_of_In. rewrite garbage_name_mono.
    by rewrite bool_decide_eq_false_2 by auto. }
  rewrite Hab, List.filter_app. fold ga. set (gb := List.filter (garbage_name s) b).
  split; [|split].
  - unfold with_objects. simpl. f_equal. apply map_eq. intros k. apply option_eq. intros v.
    rewrite !map_lookup_filter_Some, elem_of_app. simpl. naive_solver.
  - rewrite Hr1, len_app. lia.
  - rewrite Hb1, map_app, foldr_app, <-Z.add_assoc. f_equal.
    assert (map (space (with_objects (filter (fun kv => kv.1 ∉ ga)) s)) gb = map (space s) gb) as ->.
    { apply map_ext_in. intros x Hx%filter_In. destruct Hx as [Hx%list_elem_of_In _]. unfold space. f_equal. f_equal.
      simpl. destruct (objects s !! x) as [i|] eqn:Ei.
      - apply map_lookup_filter_Some. simpl. auto.
      - apply map_lookup_filter_None. by left. }
    generalize (map (space s) ga) (foldr Z.add 0 (map (space s) gb)).
    induction l0 as [|y l0 IH]; intros z; simpl; [lia|]. specialize (IH z). lia.
Qed.

End Prune.

(** [prune] treats every staging file as old. *)
Lemma prune_entry_ok length_of r s n :
  one_name s ->
  prune_entry length_of (r, s) n
  = if garbage_name (fun _ => true) s n then (r + space length_of s n, with_objects (delete n) s)
    else (r, s).
Proof.
  intros Hu. unfold prune_entry, garbage_name, garbage, space.
  destruct (objects s !! n) as [i|] eqn:En; [|done]. rewrite (one_name_links s n i Hu En).
  destruct (is_staging n); [done|]. destruct (is_object_name n); [|done]. simpl.
  destruct (Z.eqb_spec (1 + dir_links s i) 1), (Z.eqb_spec (dir_links s i) 0); try lia; done.
Qed.

Lemma prune_entries_ok length_of l r s :
  one_name s -> NoDup l ->
  let '(r', s') := foldl (prune_entry length_of) (r, s) l in
  s' = with_objects (filter (fun kv => kv.1 ∉ List.filter (garbage_name (fun _ => true) s) l)) s
  /\ r' = r + foldr Z.add 0 (map (space length_of s) (List.filter (garbage_name (fun _ => true) s) l)).
Proof.
  intros Hu Hn. revert r s Hu. induction Hn as [|n l Hnl Hn IH]; intros r s Hu.
  { cbn. by rewrite remove_nothing, Z.add_0_r. }
  cbn [foldl List.filter]. rewrite (prune_entry_ok length_of r s n Hu).
  assert (forall s1 l0, (forall k, k ∈ l -> objects s1 !! k = objects s !! k) -> dirs s1 = dirs s ->
    (forall k, k ∈ l0 -> k ∈ l) ->
    List.filter (garbage_name (fun _ => true) s1) l0 = List.filter (garbage_name (fun _ => true) s) l0
    /\ map (space length_of s1) l0 = map (space length_of s) l0) as Hsame.
  { intros s1 l0 Ho Hd Hl0. split; [apply filter_ext_in|apply map_ext_in]; intros k Hk%list_elem_of_In%Hl0;
      unfold garbage_name, space; rewrite (Ho k Hk); [|done]. unfold garbage, dir_links. by rewrite Hd. }
  destruct (garbage_name (fun _ => true) s n); [|by apply IH].
  specialize (IH (r + space length_of s n) (with_objects (delete n) s) (one_name_delete _ _ Hu)).
  destruct (foldl _ _ _) as [r' s']. destruct IH as [-> ->].
  assert (forall k, k ∈ l -> objects (with_objects (delete n) s) !! k = objects s !! k) as Hk.
  { intros k Hkl. simpl. apply lookup_delete_ne. by intros ->. }
  destruct (Hsame (with_objects (delete n) s) l Hk eq_refl ltac:(done)) as [-> _].
  set (gl := List.filter _ l).
  assert (forall k, k ∈ gl -> k ∈ l) as Hgl.
  { intros k Hin. apply list_elem_of_In, filter_In in Hin as [Hin _]. by apply list_elem_of_In. }
  destruct (Hsame (with_objects (delete n) s) gl Hk eq_refl Hgl) as [_ ->].
  split.
  - unfold with_objects. simpl. f_equal. apply map_eq. intros k. apply option_eq. intros v.
    rewrite !map_lookup_filter_Some, lookup_delete_Some, not_elem_of_cons. simpl. clear. naive_solver.
  - simpl. lia.
Qed.

(** Keeping what is not garbage, by name or by entry. *)
Lemma filter_not_garbage old s :
  filter (fun kv => kv.1 ∉ List.filter (garbage_name old s) (map fst (map_to_list (objects s)))) (objects s)
  = filter (fun kv => garbage old s kv.1 kv.2 = false) (objects s).
Proof.
  apply map_filter_ext. intros n i Hn. simpl.
  assert (garbage_name old s n = garbage old s n i) as Hg by (unfold garbage_name; by rewrite Hn).
  rewrite list_elem_of_In, filter_In, Hg. split.
  - intros Hx. apply not_true_iff_false. intros Ht. apply Hx. split; [|done].
    apply in_map_iff. exists (n, i). split; [done|]. by apply list_elem_of_In, elem_of_map_to_list.
  - intros -> [_ ?]. done.
Qed.

End PruneFacts.

(** ** Histories *)

Module LineageFacts.
Import Str Path Ckpt.

Section Lineage.
Context `{IndexCodec}.

(** An index that is read is the one on disk, small enough and valid. *)
Lemma read_index_from_Ok index index' :
  read_index_from index = Ok index' <->
  index' = index /\ len (encode_index index) <= MAX_INDEX /\ validate_index index = Ok tt.
Proof.
  unfold read_index_from. destruct (Z.gtb_spec (len (encode_index index)) MAX_INDEX).
  { split; [done|]. intros (_ & ? & _). lia. }
  destruct (validate_index index) as [[]|e]; cbn [result_bind]; [|naive_solver].
  split; [intros [= <-]; auto|naive_solver].
Qed.

Lemma read_index_at_Ok s dir id index :
  read_index_at s dir id = Ok index ->
  match id with
  | None => d_index (dir_at s dir) = Some index
  | Some id => d_generations (dir_at s dir) !! id = Some index
  end /\ len (encode_index index) <= MAX_INDEX /\ validate_index index = Ok tt.
Proof.
  unfold read_index_at. destruct id as [id|]; [destruct (valid_generation_id id); [|done]|];
    (destruct (_ : option Index) as [i|]; [|done]); cbn [ok_or result_bind];
    by intros (-> & ? & ?)%read_index_from_Ok.
Qed.

(** Each generation of [chain] is the parent of the one before. *)
Fixpoint parent_chain (last : Generation) (chain : list Generation) : Prop :=
  match chain with
  | [] => True
  | g :: chain => g_parent last = Some (g_id g) /\ parent_chain g chain
  end.
Definition oldest (own : Generation) (chain : list Generation) : Generation :=
  List.last chain own.

Definition keyed (kept : gmap bytes Generation) : Prop :=
  forall id g, kept !! id = Some g -> g_id g = id.

Lemma chain_from_ok fuel last kept :
  (base.size kept < fuel)%nat -> keyed kept ->
  let '(chain, rest) := chain_from fuel last kept in
  map snd (map_to_list kept) ≡ₚ chain ++ map snd (map_to_list rest)
  /\ parent_chain last chain /\ rest ⊆ kept
  /\ forall p, g_parent (oldest last chain) = Some p -> rest !! p = None.
Proof.
  revert last kept. induction fuel as [|fuel IH]; intros last kept Hf Hk; [lia|]. cbn [chain_from].
  destruct (g_parent last) as [p|] eqn:Ep; cbn [mbind option_bind].
  2: { split; [done|]. split; [done|]. split; [done|]. simpl. rewrite Ep. done. }
  destruct (kept !! p) as [g|] eqn:Eg; cbn.
  2: { split; [done|]. split; [done|]. split; [done|]. simpl. rewrite Ep. by intros ? [= <-]. }
  specialize (IH g (delete p kept)).
  destruct (chain_from fuel g (delete p kept)) as [chain rest].
  assert (base.size (delete p kept) = Nat.pred (base.size kept)) as Hsz by (apply map_size_delete_Some; by eexists).
  destruct IH as (Hperm & Hch & Hsub & Hold).
  { assert (base.size kept <> 0%nat); [|lia]. intros H0%map_size_empty_inv. subst. by rewrite lookup_empty in Eg. }
  { intros id g' [_ Hg']%lookup_delete_Some. by apply Hk. }
  split; [|split; [|split]].
  - rewrite <-(map_to_list_delete kept p g Eg). simpl. by rewrite Hperm.
  - simpl. split; [|done]. by rewrite (Hk p g Eg).
  - etrans; [exact Hsub|apply delete_subseteq].
  - intros q Hq. apply Hold. unfold oldest in *. destruct chain as [|c chain]; [done|].
    cbn [List.last] in *. rewrite <-Hq. f_equal. clear. revert c.
    induction chain as [|c' chain IH]; intros c; [done|]. apply IH.
Qed.

(** What [lineage_of] keeps of the retained generations. *)
Definition retained_as (entries : list (bytes * Index)) (id : bytes) (g : Generation) : Prop :=
  exists index, (id, index) ∈ entries /\ valid_generation_id id = true
    /\ generation_of index true = Some g /\ g_id g = id.

Lemma read_retained_ok entries acc r :
  NoDup (map fst entries) -> (forall id, id ∈ map fst entries -> acc !! id = None) ->
  read_retained entries acc = Ok r ->
  forall id g, r !! id = Some g <-> acc !! id = Some g \/ retained_as entries id g.
Proof.
  revert acc. induction entries as [|[id index] entries IH]; intros acc Hn Ha Hr id' g.
  { injection Hr as <-. unfold retained_as. split; [by left|]. intros [?|(? & Hin & _)]; [done|].
    by apply not_elem_of_nil in Hin. }
  simpl in Hn. apply NoDup_cons in Hn as [Hni Hn]. cbn [read_retained] in Hr.
  assert (acc !! id = None) as Hid by (apply Ha; by left).
  assert (forall v, retained_as ((id, index) :: entries) id' v <->
    (id' = id /\ valid_generation_id id = true /\ generation_of index true = Some v /\ g_id v = id)
    \/ retained_as entries id' v) as Hcons.
  { intros v. unfold retained_as. setoid_rewrite elem_of_cons. split.
    - intros (ix & [[= -> ->]|Hin] & Hrest); [left; naive_solver|right; by exists ix].
    - intros [(-> & ?)|(ix & Hin & Hrest)]; [exists index|exists ix]; naive_solver. }
  rewrite Hcons. clear Hcons. destruct (valid_generation_id id) eqn:Ev; cbn [negb] in Hr.
  2: { rewrite (IH acc Hn (fun k Hk => Ha k (list_elem_of_further _ _ _ Hk)) Hr). naive_solver. }
  destruct (read_index_from index) as [index'|] eqn:Eri; [|done]. cbn [result_bind] in Hr.
  apply read_index_from_Ok in Eri as (-> & _ & _).
  set (acc' := match generation_of index true with Some g => _ | None => acc end) in Hr.
  assert (forall k v, acc' !! k = Some v <-> acc !! k = Some v
    \/ (k = id /\ generation_of index true = Some v /\ g_id v = id)) as Hacc.
  { intros k v. unfold acc'. destruct (generation_of index true) as [g0|] eqn:Eg; [|naive_solver].
    case_bool_decide as He; [|naive_solver]. destruct (decide (id = k)) as [<-|Hne].
    - rewrite lookup_insert_eq, Hid. naive_solver.
    - rewrite lookup_insert_ne by done. naive_solver. }
  rewrite (IH acc' Hn) with (id := id') (g := g); [|intros k Hk|done].
  - rewrite Hacc. naive_solver.
  - destruct (acc' !! k) as [v|] eqn:Ek; [|done]. apply Hacc in Ek as [Hv|(-> & _)]; [|done].
    rewrite (Ha k) in Hv; [done|by right].
Qed.

#[global] Instance newer_total : Total newer.
Proof. intros a b. apply BytesOrder.bytes_leb_total. Qed.

(** ** Carrying a history over *)

Lemma dir_at_alter s dir d f :
  dirs s !! dir = Some d -> dir_at (with_dirs (alter f dir) s) dir = f d.
Proof. intros Hd. unfold dir_at. simpl. by rewrite lookup_alter_eq, Hd. Qed.

Lemma dir_at_alter_ne s dir dir' f :
  dir <> dir' -> dir_at (with_dirs (alter f dir) s) dir' = dir_at s dir'.
Proof. intros Hd. unfold dir_at. simpl. by rewrite lookup_alter_ne. Qed.

(** Linking adds names only. *)
Record only_links (dir : bytes) (s s' : Store) : Prop := MkOnlyLinks {
  ol_dir : exists d d', dirs s !! dir = Some d /\ dirs s' !! dir = Some d'
    /\ d_objects d ⊆ d_objects d' /\ d_generations d = d_generations d' /\ d_index d = d_index d';
  ol_other : forall other, other <> dir -> dir_at s' other = dir_at s other;
}.

Lemma link_objects_ok dir source hs s s' :
  is_Some (dirs s !! dir) -> link_objects dir source hs s = (Ok tt, s') ->
  only_links dir s s' /\ forall h, h ∈ hs -> is_Some (d_objects (dir_at s' dir) !! h).
Proof.
  intros [d Hd]. revert s d Hd. induction hs as [|h hs IH]; intros s d Hd; cbn [link_objects].
  { intros [= <-]. split; [split; [by exists d, d|done]|]. by intros h Hh%not_elem_of_nil. }
  destruct (d_objects (dir_at s dir) !! h) as [i|] eqn:Ei.
  - intros Hl. destruct (IH s d Hd Hl) as [Ho Hs]. split; [done|].
    intros h' Hin. apply elem_of_cons in Hin as [->|Hin]; [|by apply Hs].
    destruct (ol_dir _ _ _ Ho) as (d0 & d1 & Hd0 & Hd1 & Hsub & _).
    unfold dir_at in *. rewrite Hd0 in Ei. rewrite Hd1. simpl in *. exists i. by eapply lookup_weaken.
  - destruct (match d_objects (dir_at s source) !! h with Some i => _ | None => _ end) as [i|]; [|done].
    intros Hl. set (s1 := link_in_dir dir h i s) in Hl.
    assert (dirs s1 !! dir = Some (MkDir (<[h := i]> (d_objects d)) (d_index d) (d_generations d) (d_capture d))) as Hd1.
    { unfold s1. simpl. by rewrite lookup_alter_eq, Hd. }
    destruct (IH s1 _ Hd1 Hl) as [Ho Hs]. destruct (ol_dir _ _ _ Ho) as (d0 & d' & Hd0 & Hd' & Hsub & Hg & Hi).
    rewrite Hd1 in Hd0. injection Hd0 as <-. simpl in *.
    unfold dir_at in Ei. rewrite Hd in Ei. simpl in Ei. split.
    + split.
      * exists d, d'. repeat split; try done. etrans; [|exact Hsub]. by apply insert_subseteq.
      * intros other Hne. rewrite (ol_other _ _ _ Ho other Hne). by apply dir_at_alter_ne.
    + intros h' Hin. apply elem_of_cons in Hin as [->|Hin]; [|by apply Hs].
      unfold dir_at. rewrite Hd'. simpl. exists i. eapply lookup_weaken; [|exact Hsub]. apply lookup_insert_eq.
Qed.

(** [dir] keeps generation [id] as [index], with every object it names. *)
Definition keeps_generation (s : Store) (dir id : bytes) (index : Index) : Prop :=
  d_generations (dir_at s dir) !! id = Some index
  /\ forall h, h ∈ index_hashes index -> is_Some (d_objects (dir_at s dir) !! h).

Definition source_index (s : Store) (source : bytes) (g : Generation) : result Index IoError :=
  read_index_at s source (if retained g then Some (g_id g) else None).

Lemma read_index_at_ext s s' dir id : dir_at s' dir = dir_at s dir -> read_index_at s' dir id = read_index_at s dir id.
Proof. unfold read_index_at. by intros ->. Qed.

Lemma retain_all_ok dir source gs s n r s' :
  dir <> source -> is_Some (dirs s !! dir) -> NoDup (map g_id gs) ->
  retain_all dir source gs s n = (Ok r, s') ->
  r = n + len gs
  /\ (forall id index, id ∉ map g_id gs -> keeps_generation s dir id index -> keeps_generation s' dir id index)
  /\ forall g, g ∈ gs -> exists index, source_index s source g = Ok index /\ keeps_generation s' dir (g_id g) index.
Proof.
  intros Hne. revert s n. induction gs as [|g gs IH]; intros s n Hd Hn; cbn [retain_all].
  { intros [= <- <-]. split; [unfold len; simpl; lia|]. split; [done|]. by intros g Hg%not_elem_of_nil. }
  simpl in Hn. apply NoDup_cons in Hn as [Hgn Hn].
  destruct (read_index_at s source _) as [index|] eqn:Er; [|done].
  destruct (link_objects dir source (index_hashes index) s) as [[[]|] s1] eqn:El; [|done].
  destruct (link_objects_ok _ _ _ _ _ Hd El) as [Ho Hl].
  destruct (ol_dir _ _ _ Ho) as (d & d1 & Hd0 & Hd1 & Hsub & Hg & _).
  set (f := fun d : Dir => _). set (s2 := with_dirs (alter f dir) s1). intros Hr.
  assert (dir_at s2 dir = f d1) as Hs2 by by apply dir_at_alter.
  assert (dirs s2 !! dir = Some (f d1)) as Hd2 by (unfold s2; simpl; by rewrite lookup_alter_eq, Hd1).
  destruct (IH s2 (n + 1)) as (-> & Hkeep & Hall); [by eexists|done|done|].
  assert (dir_at s2 source = dir_at s source) as Hsrc.
  { unfold s2. rewrite dir_at_alter_ne by done. by apply (ol_other _ _ _ Ho). }
  unfold dir_at in Hl. rewrite Hd1 in Hl. simpl in Hl.
  assert (keeps_generation s2 dir (g_id g) index) as Hg2.
  { split; rewrite Hs2; simpl; [apply lookup_insert_eq|done]. }
  split; [rewrite len_cons; lia|]. split.
  - intros id ix [Hni Hnn]%not_elem_of_cons [Hx Hh]. apply Hkeep; [done|].
    unfold dir_at in Hx, Hh. rewrite Hd0 in Hx, Hh. simpl in Hx, Hh.
    split; rewrite Hs2; simpl; [rewrite lookup_insert_ne by done; by rewrite <-Hg|].
    intros h Hin. destruct (Hh h Hin) as [i Hi]. exists i. by eapply lookup_weaken.
  - intros g' Hin. apply elem_of_cons in Hin as [->|Hin].
    + exists index. split; [done|]. by apply Hkeep.
    + destruct (Hall g' Hin) as (ix & Hix & Hk). exists ix. split; [|done].
      unfold source_index in *. by rewrite <-(read_index_at_ext s s2).
Qed.

End Lineage.
End LineageFacts.
