(* ===== verification/CkptProps.v ===== *)
(** * CkptProps: what the checkpoint store promises

    Captures restore to exactly what was captured, whatever else happens to
    the store; a restore returns only verified bytes; pruning removes exactly
    the objects no checkpoint links; a history lists every generation it
    keeps, resolves references to them and carries over to a new checkpoint. *)

From S2P Require Import Prelude RustStr ForkPool CkptStore CkptFacts CkptRestore CkptCapture CkptPrune.

(** An instance of the interface to the index files, for the witnesses. *)
Module IndexSample.
Import Str Ckpt.

(** An injective encoding of indexes. *)
Definition flat_lineage (l : CheckpointLineage) := (cl_id l, cl_parent l, cl_machine l, cl_created_at l).
Definition flat_file (f : StoredFile) := (path f, size f, mode f, chunks f).
Definition flat_index (i : Index) :=
  (version i, chunk_size i, option_map (option_map flat_lineage) (checkpoint (manifest i)), map flat_file (files i)).
Definition sample_encode (i : Index) : bytes := [Zpos (encode (flat_index i))].
Lemma sample_encode_inj a b : sample_encode a = sample_encode b -> a = b.
Proof.
  intros [= Hn%(inj encode)]. unfold flat_index in Hn.
  injection Hn as Hv Hc Hm Hf. destruct a as [? ? [ma] fa], b as [? ? [mb] fb]. simpl in *. subst.
  f_equal.
  - f_equal. destruct ma as [[[]|]|], mb as [[[]|]|]; simpl in Hm; unfold flat_lineage in Hm; simpl in Hm; congruence.
  - revert fb Hf. induction fa as [|[] fa IH]; intros [|[] fb]; simpl; try done. unfold flat_file at 1 3. simpl. intros [= -> -> -> -> Hr]. f_equal. by apply IH.
Qed.
#[export] Instance sample_index_codec : IndexCodec := {| encode_index_inj := sample_encode_inj |}.

End IndexSample.

Module CkptProps.
Import Str StrPrefix Path Ckpt CkptFacts RestoreFacts CaptureFacts PruneFacts LineageFacts.

Section Store.
Context `{ObjectCodec} `{IndexCodec}.

Lemma apart_paths_NoDup inputs : inputs_apart inputs -> NoDup (map (fun x => x.1.1) inputs).
Proof.
  intros Hap. apply NoDup_alt. intros i j p Hi Hj.
  rewrite list_lookup_fmap in Hi, Hj.
  destruct (inputs !! i) as [a|] eqn:Ha; [|done]. destruct (inputs !! j) as [b|] eqn:Hb; [|done].
  injection Hi as Hi. injection Hj as Hj. apply (Hap i j a b Ha Hb). by rewrite Hi, Hj.
Qed.

(** C4: A capture of files with safe, unrelated paths (read as
    streams or as sparse files with a replaced head) succeeds, accounts for
    every byte, keeps the store's invariant and publishes an index with the
    manifest; and whatever captures, publications, retentions, deletions of
    other checkpoints and prunes run afterwards, in any order and at any step
    of a chunk's storage, restoring the checkpoint, from scratch or as a
    difference against a base, gives back exactly the files with their
    permission bits when the index file is at most 256 MiB, and is refused
    when it is larger. *)
Theorem checkpoint_roundtrip old allocated opts staging dst m inputs s :
  store_ok s -> dirs s !! staging = None -> dirs s !! dst = None -> staging <> dst ->
  Forall input_ok inputs -> inputs_apart inputs -> len inputs <= 100000 ->
  total_size inputs <= MAX_BYTES ->
  exists st s1 index, capture opts staging dst m inputs s = (Ok st, s1)
    /\ logical st = total_size inputs /\ store_ok s1
    /\ d_index (dir_at s1 dst) = Some index /\ manifest index = m
    /\ forall s2 base, rtc (other_step old allocated dst) s1 s2 ->
         (forall e, e ∈ files index -> base_ok base e) ->
         materialize_generation s2 dst None base =
         if len (encode_index index) <=? MAX_INDEX then Ok (m, restored inputs) else Err InvalidData.
Proof.
  intros Hok Hs Hd Hne Hin Hap Hlen Htot.
  destruct (capture_ok opts staging dst m inputs s) as (st & D & s1 & Hc & Hl & Hok1 & Hh);
    [done..|by apply apart_paths_NoDup|done|done|].
  destruct (holds_index _ _ _ _ _ Hh) as (es & Hi & _).
  exists st, s1, (MkIndex VERSION CHUNK_SIZE m es). do 3 (split; [done|]).
  split; [by rewrite (dir_at_Some _ _ _ (holds_dir _ _ _ _ _ Hh))|]. split; [done|]. intros s2 base Hr Hb.
  pose proof (others_keep_checkpoint _ _ _ _ _ _ _ _ Hr Hh) as Hh2. by eapply materialize_holds.
Qed.

(** What [validate_index] admits, declaratively. *)
Record index_wf (index : Index) : Prop := MkIndexWf {
  iw_version : version index = VERSION /\ chunk_size index = CHUNK_SIZE;
  iw_count : len (files index) <= 100000;
  iw_total : foldr Z.add 0 (map size (files index)) <= MAX_BYTES;
  iw_paths : NoDup (map path (files index));
  iw_files : Forall (fun e => safe_relative (path e) = true
    /\ len (chunks e) = div_ceil (size e) CHUNK_SIZE
    /\ Z.land (mode e) (Z.lxor (u_max 32) 511) = 0
    /\ forall h, Some h ∈ chunks e -> is_object_name h = true) (files index);
}.

Lemma forallb_hashes (cs : list (option bytes)) :
  forallb (fun c => match c with Some h => is_object_name h | None => true end) cs = true
  <-> forall h, Some h ∈ cs -> is_object_name h = true.
Proof.
  rewrite forallb_forall. split.
  - intros Hf h Hin. by apply (Hf (Some h)), list_elem_of_In.
  - intros Hf [h|] Hin; [|done]. by apply Hf, list_elem_of_In.
Qed.

Lemma sizes_nonneg es : Forall (fun e => 0 <= size e) es -> 0 <= foldr Z.add 0 (map size es).
Proof. induction 1; simpl; lia. Qed.

Lemma valid_file_iff total paths e :
  valid_file total paths e = true <->
  total <= MAX_BYTES /\ path e ∉ paths /\ safe_relative (path e) = true
  /\ len (chunks e) = div_ceil (size e) CHUNK_SIZE
  /\ Z.land (mode e) (Z.lxor (u_max 32) 511) = 0
  /\ forall h, Some h ∈ chunks e -> is_object_name h = true.
Proof.
  unfold valid_file. rewrite andb_true_iff, forallb_hashes, negb_true_iff, !orb_false_iff,
    !negb_false_iff, !Z.eqb_eq, Z.gtb_ltb, Z.ltb_ge, bool_decide_eq_false. tauto.
Qed.

Lemma validate_files_iff es total paths :
  0 <= total <= MAX_BYTES -> Forall (fun e => 0 <= size e) es ->
  validate_files total paths es = Ok tt <->
  total + foldr Z.add 0 (map size es) <= MAX_BYTES /\ NoDup (map path es)
  /\ (forall e, e ∈ es -> path e ∉ paths)
  /\ Forall (fun e => safe_relative (path e) = true
    /\ len (chunks e) = div_ceil (size e) CHUNK_SIZE
    /\ Z.land (mode e) (Z.lxor (u_max 32) 511) = 0
    /\ forall h, Some h ∈ chunks e -> is_object_name h = true) es.
Proof.
  intros Ht Hs. revert total paths Ht. induction Hs as [|e es He Hes IH]; intros total paths Ht.
  { simpl. split; [|done]. intros _. split; [lia|]. split; [constructor|]. split; [|constructor].
    by intros e Hin%not_elem_of_nil. }
  pose proof (sizes_nonneg es Hes) as Hnn. cbn [validate_files map foldr].
  rewrite NoDup_cons, Forall_cons. unfold checked_add. change (u_max 64) with U64_MAX.
  destruct (Z.leb_spec (total + size e) U64_MAX) as [Hov|Hov]; simpl.
  2: { split; [done|]. intros [Hm _]. unfold MAX_BYTES in Hm. lia. }
  destruct (valid_file (total + size e) paths e) eqn:Ev.
  - apply valid_file_iff in Ev as (Hm & Hp & Hrest). rewrite IH by lia.
    assert ((forall e', e' ∈ es -> path e' ∉ ({[path e]} ∪ paths : gset bytes))
      <-> path e ∉ map path es /\ forall e', e' ∈ es -> path e' ∉ paths) as ->.
    { setoid_rewrite not_elem_of_union. setoid_rewrite not_elem_of_singleton. split.
      - intros Hx. split; [|intros e' Hin; by destruct (Hx e' Hin)].
        intros (e' & Heq & Hin)%list_elem_of_fmap. by destruct (Hx e' Hin) as [[] _].
      - intros [Hx Hy] e' Hin. split; [|by apply Hy]. intros Heq. apply Hx, list_elem_of_fmap.
        by exists e'. }
    setoid_rewrite elem_of_cons. rewrite Z.add_assoc. naive_solver.
  - split; [done|]. intros (Hm & _ & Hp & Hrest & _). exfalso. apply not_true_iff_false in Ev.
    apply Ev, valid_file_iff. split; [lia|]. split; [|done]. apply Hp. by left.
Qed.

(** Validation admits exactly the well-formed indexes: the
    right version and chunk size, at most 100000 files of at most 2 TiB
    together, distinct paths that stay inside the checkpoint, one chunk name
    per mebibyte of each file, only permission bits in the mode, and object
    names of 64 lower-case hexadecimal digits. *)
Theorem index_wellformed index :
  Forall (fun e => 0 <= size e) (files index) ->
  validate_index index = Ok tt <-> index_wf index.
Proof.
  intros Hs. unfold validate_index. destruct (_ || _) eqn:Eg.
  - split; [done|]. intros [[Hv Hc] Hn _ _ _]. rewrite Hv, Hc, !Z.eqb_refl in Eg.
    simpl in Eg. apply Z.gtb_lt in Eg. lia.
  - bool_simpl. rewrite validate_files_iff; [|unfold MAX_BYTES; lia|done]. split.
    + intros (Ht & Hn & _ & Hf). split; [done|lia|lia|done|done].
    + intros [_ _ Ht Hn Hf]. split; [lia|]. split; [done|]. split; [|done]. intros e _. apply not_elem_of_empty.
Qed.

Lemma validate_files_chunks es total paths e :
  validate_files total paths es = Ok tt -> e ∈ es ->
  len (chunks e) = div_ceil (size e) CHUNK_SIZE /\ safe_relative (path e) = true.
Proof.
  revert total paths. induction es as [|e' es IH]; intros total paths; [by intros _ Hin%not_elem_of_nil|].
  cbn [validate_files]. destruct (checked_add 64 total (size e')) as [t|]; simpl; [|done].
  destruct (valid_file t paths e') eqn:Ev; [|done]. intros Hv [->|Hin]%elem_of_cons; [|by eapply IH].
  apply valid_file_iff in Ev. naive_solver.
Qed.

Lemma validate_index_chunks index e :
  validate_index index = Ok tt -> e ∈ files index ->
  len (chunks e) = div_ceil (size e) CHUNK_SIZE /\ safe_relative (path e) = true.
Proof. unfold validate_index. case_match; [done|]. apply validate_files_chunks. Qed.

(** C24: No restore returns bytes that were not checked: from any
    store, however damaged or tampered with, when materializing a generation
    succeeds, each file of its validated index is in the output under its own
    path and mode, has its recorded size, and every chunk of it hashes to the
    digest the index names (or is zero where it names none), also when the
    chunks were kept from a clone of a base that is not trusted. *)
Theorem restore_verified s dir generation base m out :
  materialize_generation s dir generation base = Ok (m, out) ->
  exists index, read_index_at s dir generation = Ok index /\ validate_index index = Ok tt
    /\ manifest index = m
    /\ forall e, e ∈ files index -> 0 <= size e -> base_ok base e -> untrusted base e ->
       safe_relative (path e) = true
       /\ exists f, out !! names (path e) = Some (f, mode e) /\ file_verified e f.
Proof.
  unfold materialize_generation. destruct (read_index_at s dir generation) as [index|] eqn:Hi; [|done].
  simpl. destruct (restore_files _ _ _ _ _) as [o|] eqn:Hr; [|done]. simpl. intros [= <- <-].
  assert (validate_index index = Ok tt) as Hv.
  { by apply read_index_at_Ok in Hi as (_ & _ & Hv). }
  exists index. split; [done|]. split; [done|]. split; [done|]. intros e Hin Hs Hb Hu.
  destruct (validate_index_chunks index e Hv Hin) as [Hc Hsafe]. split; [done|].
  destruct (restore_files_each _ _ _ _ _ _ e Hr Hin) as (f & Hf & Ho). exists f. split; [done|].
  destruct (restore_file_sound s (d_objects (dir_at s dir)) base e Hs Hc Hb
    (fun k b => forall c, get (chunks e) k = Some c -> verified c b)) with (f := f) as [Hl Hk].
  - intros k h b Hk Hd _ c Hk'. rewrite Hk in Hk'. by injection Hk' as <-.
  - intros k b Hk Hz _ c Hk'. rewrite Hk in Hk'. by injection Hk' as <-.
  - intros b file content k c Hbe _ _ Ht. by rewrite (Hu b file Hbe) in Ht.
  - done.
  - split; [done|]. intros k c Hc'. apply (Hk k); [by eapply get_Some_lt|done].
Qed.

End Store.

(** ** Pruning *)




Lemma remove_abandoned_objects s : objects (remove_abandoned_captures s) = objects s.
Proof. done. Qed.



(** ** Histories *)

Section Histories.
Context `{IndexCodec}.

(** A checkpoint's history is its own generation, then the
    retained generations reached by following parents, then the other
    retained ones newest first: every retained generation appears exactly
    once, the chain stops only where no retained generation is the parent,
    and the listing always ends, also when parents form a cycle. *)
Theorem lineage_complete s dir l :
  lineage_of s dir = Ok l ->
  exists index, read_index_at s dir None = Ok index
  /\ match generation_of index false with
     | None => l = []
     | Some own => exists chain rest, l = own :: chain ++ rest
         /\ parent_chain own chain /\ Sorted newer rest
         /\ (forall g, g ∈ rest -> g_parent (oldest own chain) <> Some (g_id g))
         /\ NoDup (map g_id (chain ++ rest))
         /\ forall g, g ∈ chain ++ rest
              <-> exists id, retained_as (map_to_list (d_generations (dir_at s dir))) id g
     end.
Proof.
  unfold lineage_of. destruct (read_index_at s dir None) as [index|] eqn:Ei; [|done].
  cbn [result_bind]. intros Hl. exists index. split; [done|]. destruct (generation_of index false) as [own|]; [|by simplify_eq].
  destruct (read_retained _ ∅) as [kept|] eqn:Ek; [|done]. cbn [result_bind] in Hl.
  pose proof (read_retained_ok _ ∅ kept (NoDup_fst_map_to_list _) ltac:(done) Ek) as Hk.
  assert (keyed kept) as Hkey.
  { intros id g [Hx|(ix & _ & _ & _ & Hid)]%Hk; [by rewrite lookup_empty in Hx|done]. }
  pose proof (chain_from_ok (S (base.size kept)) own kept ltac:(lia) Hkey) as Hc.
  destruct (chain_from _ own kept) as [chain rest]. destruct Hc as (Hperm & Hch & Hsub & Hold).
  assert (l = own :: chain ++ merge_sort newer (map snd (map_to_list rest))) as -> by congruence.
  set (sorted := merge_sort newer _).
  assert (sorted ≡ₚ map snd (map_to_list rest)) as Hsp by apply merge_sort_Permutation.
  assert (map snd (map_to_list kept) ≡ₚ chain ++ sorted) as Hall by by rewrite Hperm, Hsp.
  exists chain, sorted. split; [done|]. split; [done|]. split; [apply Sorted_merge_sort, _|]. split; [|split].
  - intros g Hg Hp. rewrite Hsp in Hg. apply list_elem_of_fmap in Hg as ([id g'] & -> & Hin). simpl in *.
    apply elem_of_map_to_list in Hin. specialize (Hold _ Hp).
    assert (kept !! id = Some g') as Hkg by by eapply lookup_weaken.
    rewrite (Hkey id g' Hkg) in Hold. congruence.
  - rewrite <-Hall. rewrite map_map.
    assert (map (fun x : bytes * Generation => g_id x.2) (map_to_list kept) = map fst (map_to_list kept)) as ->.
    { apply map_ext_in. intros [id g] Hin%list_elem_of_In%elem_of_map_to_list. simpl. by apply Hkey. }
    apply NoDup_fst_map_to_list.
  - intros g. rewrite <-Hall, list_elem_of_fmap. split.
    + intros ([id g'] & -> & Hin%elem_of_map_to_list). exists id.
      apply Hk in Hin as [Hx|?]; [by rewrite lookup_empty in Hx|done].
    + intros (id & Hg). exists (id, g). split; [done|]. apply elem_of_map_to_list, Hk. by right.
Qed.

(** The generation a resolved reference stands for. *)
Definition target (g : Generation) : option bytes := if retained g then Some (g_id g) else None.

Lemma plain_hex s : forallb lower_hex s = true ->
  forallb StrFacts.plain s = true /\ forallb is_ascii_hexdigit s = true
  /\ to_ascii_lowercase s = s /\ 47 ∉ s /\ strip_prefix (bs "~") s = None \/ s = [].
Proof.
  intros Hs. destruct s as [|x s']; [by right|]. left. set (s := x :: s') in *.
  assert (forall b, b ∈ s -> lower_hex b = true) as Hb.
  { intros b Hin. by apply (proj1 (forallb_forall _ _) Hs), list_elem_of_In. }
  assert (forall b, lower_hex b = true -> 48 <= b <= 57 \/ 97 <= b <= 102) as Hr.
  { unfold lower_hex, is_ascii_digit. intros b Hx. repeat (bool_simpl; destruct_or?); lia. }
  repeat split.
  - apply forallb_forall. intros b Hin%list_elem_of_In. specialize (Hr b (Hb b Hin)).
    unfold StrFacts.plain, is_ascii_alphanumeric, is_ascii_digit, is_ascii_lower. lia.
  - apply forallb_forall. intros b Hin%list_elem_of_In. specialize (Hr b (Hb b Hin)).
    unfold is_ascii_hexdigit, is_ascii_digit. lia.
  - unfold to_ascii_lowercase. rewrite <-(map_id s) at 2. apply map_ext_in. intros b Hin%list_elem_of_In.
    specialize (Hr b (Hb b Hin)). unfold lower_byte, is_ascii_upper. case_bool_guard; lia.
  - intros Hin. specialize (Hr 47 (Hb 47 Hin)). lia.
  - specialize (Hr x (Hb x ltac:(by left))). cbn. case_match eqn:E; [|done]. apply Z.eqb_eq in E.
    unfold ascii_z in E. simpl in E. lia.
Qed.

Lemma starts_with_same_len p s : length p = length s -> starts_with p s = bool_decide (p = s).
Proof.
  intros Hl. apply bool_decide_ext. split.
  - intros [r Hr%strip_prefix_Some]. subst s. rewrite length_app in Hl.
    assert (r = []) as -> by (apply nil_length_inv; lia). by rewrite app_nil_r.
  - intros ->. exists []. apply strip_prefix_Some. by rewrite app_nil_r.
Qed.

Lemma filter_unique_id l k g :
  NoDup (map g_id l) -> l !! k = Some g ->
  List.filter (fun g' => bool_decide (g_id g = g_id g')) l = [g].
Proof.
  revert k. induction l as [|x l IH]; intros k Hn Hk; [done|]. simpl in Hn.
  apply NoDup_cons in Hn as [Hx Hn]. cbn [List.filter]. destruct k as [|k]; simpl in Hk.
  - injection Hk as ->. rewrite bool_decide_eq_true_2 by done. f_equal.
    assert (forall y, y ∈ l -> g_id g <> g_id y) as Hy.
    { intros y Hin Heq. apply Hx. rewrite Heq. apply list_elem_of_fmap. by exists y. }
    clear -Hy. induction l as [|y l IH]; [done|]. cbn [List.filter].
    rewrite bool_decide_eq_false_2 by (apply Hy; by left). apply IH. intros. apply Hy. by right.
  - rewrite bool_decide_eq_false_2; [by eapply IH|]. intros Heq. apply Hx. rewrite <-Heq.
    apply list_elem_of_fmap. exists g. split; [done|]. by eapply list_elem_of_lookup_2.
Qed.

(** References to generations resolve to them: [~k] to the
    [k]-th of the history, and the full id of a generation to that generation
    when ids are distinct; and a reference that resolves at all stands for a
    generation of the history. *)
Theorem resolve_correct l :
  (forall spec r, resolve_in l spec = Ok r -> exists g, g ∈ l /\ r = target g)
  /\ (forall k g, l !! k = Some g -> Z.of_nat k <= u_max 64 ->
       resolve_in l (bs "~" ++ dec (Z.of_nat k)) = Ok (target g))
  /\ (NoDup (map g_id l) -> Forall (fun g => valid_generation_id (g_id g) = true) l ->
       forall k g, l !! k = Some g -> resolve_in l (g_id g) = Ok (target g)).
Proof.
  split; [|split].
  - intros spec r. unfold resolve_in. set (gen := match strip_prefix _ _ with Some d => _ | None => _ end).
    intros Hr. destruct gen as [g|] eqn:Eg; [|done]. exists g. simpl in Hr. injection Hr as <-. split; [|done].
    unfold gen in Eg. destruct (strip_prefix _ _) as [depth|].
    + destruct (parse_uint 64 depth) as [d|]; [|done]. simpl in Eg. destruct (get l d) as [g'|] eqn:Hg; [|done].
      simpl in Eg. injection Eg as <-. by eapply get_elem.
    + case_bool_decide; [done|]. destruct (_ || _); [done|].
      destruct (List.filter _ l) as [|g' [|]] eqn:Ef; [done| |done]. injection Eg as <-.
      assert (In g' [g']) as Hin by by left. rewrite <-Ef in Hin. apply filter_In in Hin as [Hin _].
      by apply list_elem_of_In.
  - intros k g Hk Hmax. unfold resolve_in. rewrite StrFacts.trim_plain.
    2: { simpl. apply forallb_forall. intros b Hb.
         pose proof (proj1 (forallb_forall _ _) (StrFacts.dec_digits 40 (Z.of_nat k) [] eq_refl) b Hb) as Hd.
         unfold StrFacts.plain, is_ascii_alphanumeric. by rewrite Hd. }
    assert (strip_prefix (bs "~") (bs "~" ++ dec (Z.of_nat k)) = Some (dec (Z.of_nat k))) as ->
      by by apply strip_prefix_Some.
    rewrite StrFacts.parse_dec; [|lia|]. 2: { eapply Z.le_lt_trans; [exact Hmax|]. reflexivity. }
    simpl. unfold get. destruct (Z.ltb_spec (Z.of_nat k) 0); [lia|]. by rewrite Nat2Z.id, Hk.
  - intros Hn Hv k g Hk. rewrite Forall_forall in Hv.
    assert (forall g', g' ∈ l -> len (g_id g') = 32 /\ forallb lower_hex (g_id g') = true) as Hid.
    { intros g' Hin. specialize (Hv g' Hin). unfold valid_generation_id in Hv. by bool_simpl. }
    destruct (Hid g (list_elem_of_lookup_2 _ _ _ Hk)) as [Hlen Hhex].
    destruct (plain_hex _ Hhex) as [(Hp & Hh & Hlow & H47 & Hsp)|Hnil].
    2: { rewrite Hnil in Hlen. done. }
    unfold resolve_in. rewrite (StrFacts.trim_plain _ Hp), Hsp, bool_decide_eq_false_2, Hlen, Hh, Hlow by done.
    simpl. erewrite (filter_ext_in _ (fun g' => bool_decide (g_id g = g_id g'))).
    + by rewrite (filter_unique_id l k g Hn Hk).
    + intros g' Hin%list_elem_of_In. apply starts_with_same_len. destruct (Hid g' Hin) as [Hl' _].
      unfold len in *. lia.
Qed.

Lemma from_start_suffix start started gs r suffix :
  from_start start started gs = (r, suffix) ->
  (started = true -> r = true /\ suffix = gs)
  /\ (r = true -> started = false -> exists pre g rest, gs = pre ++ g :: rest
       /\ suffix = g :: rest /\ start = Some (g_id g)).
Proof.
  revert started r suffix. induction gs as [|g gs IH]; intros started r suffix; cbn [from_start].
  { intros [= <- <-]. split; [done|]. by intros ->. }
  destruct started; simpl.
  - destruct (from_start start true gs) as [r' suf] eqn:E. intros [= <- <-].
    destruct (IH _ _ _ E) as [Ht _]. destruct (Ht eq_refl) as [-> ->]. done.
  - case_bool_decide as Hs.
    + destruct (from_start start true gs) as [r' suf] eqn:E. intros [= <- <-].
      destruct (IH _ _ _ E) as [Ht _]. destruct (Ht eq_refl) as [-> ->]. split; [done|]. intros _ _.
      by exists [], g, gs.
    + destruct (from_start start false gs) as [r' suf] eqn:E. intros [= <- <-].
      destruct (IH _ _ _ E) as [_ Hf]. split; [done|]. intros Hr _.
      destruct (Hf Hr eq_refl) as (pre & g' & rest & -> & -> & Hg). by exists (g :: pre), g', rest.
Qed.

(** A checkpoint that takes over another's history keeps it
    restorable on its own: at most [limit] (and 256) generations are taken,
    newest first from the requested one, and each is kept under its id with
    the index it had in the source and a link to every object that index
    names. *)
Theorem history_carried dir source start limit s n s' :
  dir <> source -> is_Some (dirs s !! dir) -> 0 < limit ->
  (forall l, lineage_of s source = Ok l -> NoDup (map g_id l)) ->
  retain_generations_from dir source start limit s = (Ok n, s') ->
  exists l pre taken rest, lineage_of s source = Ok l /\ l = pre ++ taken ++ rest
    /\ (start = None -> pre = []) /\ (forall id, start = Some id -> g_id <$> head taken = Some id)
    /\ len taken = n /\ n <= Z.min limit MAX_RETAINED_GENERATIONS
    /\ forall g, g ∈ taken -> exists index,
         source_index s source g = Ok index /\ keeps_generation s' dir (g_id g) index.
Proof.
  intros Hne Hd Hlim Hnd. unfold retain_generations_from.
  set (lim := Z.min limit MAX_RETAINED_GENERATIONS). assert (0 < lim) as Hl0 by (unfold lim, MAX_RETAINED_GENERATIONS; lia).
  destruct (Z.eqb_spec lim 0); [lia|]. destruct (lineage_of s source) as [l|] eqn:El; [|done].
  destruct (from_start start _ l) as [started sources] eqn:Ef. destruct started; [|done]. simpl. intros Hr.
  assert (exists pre, l = pre ++ sources /\ (start = None -> pre = [])
    /\ forall id, start = Some id -> g_id <$> head sources = Some id) as (pre & -> & Hpre & Hhead).
  { apply from_start_suffix in Ef as [Ht Hf]. destruct (decide (start = None)) as [->|Hs].
    - destruct (Ht (bool_decide_eq_true_2 _ eq_refl)) as [_ ->]. by exists [].
    - destruct (Hf eq_refl (bool_decide_eq_false_2 _ Hs)) as (pre & g & rest & -> & -> & ->).
      exists pre. split; [done|]. split; [done|]. simpl. by intros id [= <-]. }
  set (taken := take (Z.to_nat lim) sources) in Hr.
  assert (NoDup (map g_id taken)) as Hnt.
  { specialize (Hnd _ eq_refl). rewrite map_app in Hnd. apply NoDup_app in Hnd as (_ & _ & Hns).
    unfold taken. rewrite <-(take_drop (Z.to_nat lim) sources), map_app in Hns. by apply NoDup_app in Hns as (? & _). }
  destruct (retain_all_ok dir source taken s 0 n s' Hne Hd Hnt Hr) as (Hn & _ & Hall).
  exists (pre ++ sources), pre, taken, (drop (Z.to_nat lim) sources).
  split; [done|]. split; [unfold taken; by rewrite take_drop|]. split; [done|]. split.
  - intros id Hs. specialize (Hhead id Hs). unfold taken. destruct sources; [done|].
    by destruct (Z.to_nat lim) eqn:En; [lia|].
  - split; [lia|]. split; [|done]. rewrite Hn. unfold taken, len. rewrite length_take. lia.
Qed.

End Histories.

(** ** Witnesses *)

(** A codec that tells the sample chunks apart. *)
Import IndexSample.

Definition sample : bytes := [7; 8].
Definition sample_digest (b : bytes) : bytes :=
  replicate 64 (if bool_decide (b = sample) then 97 else if bool_decide (b = [0; 0; 0]) then 98 else 48).
Definition sample_temp (m : gmap bytes Z) : bytes :=
  OBJECT_STAGING_PREFIX
  ++ replicate (S (foldr Nat.max 0%nat (map (fun kv => length kv.1) (map_to_list m)))) 48.

Lemma sample_temp_fresh m : m !! sample_temp m = None.
Proof.
  destruct (m !! sample_temp m) as [i|] eqn:E; [|done]. exfalso. apply elem_of_map_to_list in E.
  assert (forall l : list (bytes * Z), (sample_temp m, i) ∈ l ->
    (length (sample_temp m) <= foldr Nat.max 0%nat (map (fun kv => length kv.1) l))%nat) as Hm.
  { induction l as [|[k v] l IH]; intros Hin; [by apply not_elem_of_nil in Hin|].
    apply elem_of_cons in Hin as [[= <- <-]|Hin]; cbn [map foldr fst]; [lia|]. specialize (IH Hin). lia. }
  specialize (Hm _ E). unfold sample_temp in Hm at 1. rewrite length_app, length_replicate in Hm. lia.
Qed.

#[local] Instance sample_codec : ObjectCodec.
Proof.
  refine (MkCodec sample_digest (fun b => 1 :: b)
    (fun c n => match c with 1 :: b => Some (take (Z.to_nat n) b) | _ => None end) sample_temp _ _ _ _ _).
  - intros b. unfold sample_digest. by repeat case_match.
  - done.
  - intros b Hb. rewrite len_cons. lia.
  - apply sample_temp_fresh.
  - intros m. unfold starts_with. apply bool_decide_eq_true_2. eexists. by apply strip_prefix_Some.
Defined.

Lemma splits_small data cs : 0 < len data <= CHUNK_SIZE -> splits data cs -> cs = [data].
Proof.
  intros Hl Hs. inversion Hs as [|b rest cs' Hb Hr Hs']; subst.
  { unfold len in Hl. simpl in Hl. lia. }
  rewrite len_app in Hl. pose proof (len_nonneg rest).
  assert (rest = []) as ->.
  { destruct Hr as [->|Hc]; [done|]. apply nil_length_inv. unfold len in *. lia. }
  rewrite app_nil_r. f_equal. inversion Hs' as [|b' r' c' Hb' _ _ Heq]; [done|]. subst.
  apply (f_equal length) in Heq. rewrite length_app in Heq. unfold len in Hb'. simpl in Heq. lia.
Qed.

Lemma sample_data_ok b : b = sample \/ b = [0; 0; 0] -> data_ok b.
Proof.
  intros Hb cs Hs. apply splits_small in Hs as ->.
  - constructor; [|constructor]. intros b'. simpl. unfold sample_digest.
    destruct Hb as [-> | ->]; repeat case_bool_decide; intros Heq; done.
  - destruct Hb as [-> | ->]; unfold CHUNK_SIZE; simpl; unfold len; simpl; lia.
Qed.

Definition sample_manifest (id : Z) (parent : option bytes) : PackManifest :=
  MkManifest (Some (Some (MkLineage (replicate 32 id) parent (bs "vm") (bs "2026-01-01T00:00:00Z")))).
Definition sample_inputs : list (bytes * Z * Input) :=
  [(bs "disk/overlay", 33206, Stream sample [9]); (bs "memory", 384, Sparse (fun _ => true) [0; 0; 0] None)].
Definition empty_store : Store := MkStore ∅ ∅ ∅.
Definition sample_capture : result WriteStats IoError * Store :=
  capture (MkOptions true true) (bs "tmp") (bs "one") (sample_manifest 97 None) sample_inputs empty_store.

Lemma sample_inputs_ok : Forall input_ok sample_inputs.
Proof.
  constructor; [|constructor; [|constructor]].
  { split; [reflexivity|]. split; [apply sample_data_ok; auto|done]. }
  split; [reflexivity|]. split; [apply sample_data_ok; auto|]. split; [|done].
  intros o _ _. unfold slice. simpl.
  assert (forall n m, is_zero_filled (take n (drop m [0; 0; 0])) = true) as Hz; [|apply Hz].
  intros n m. do 4 (destruct m as [|m]; [by do 4 (destruct n as [|n]; [done|])|]). by destruct n.
Qed.

Lemma sample_apart : inputs_apart sample_inputs.
Proof.
  intros [|[|i]] [|[|j]] a b Ha Hb [k Hk]; simplify_eq/=; try done; by vm_compute in Hk.
Qed.

Lemma checkpoint_roundtrip_witness :
  exists st s1, sample_capture = (Ok st, s1) /\ logical st = 5
    /\ materialize_generation (prune_in_batches (fun _ => true) (fun _ => 0) 1 s1).2 (bs "one") None None
       = Ok (sample_manifest 97 None, restored sample_inputs).
Proof.
  destruct (checkpoint_roundtrip (fun _ => true) (fun _ => 0) (MkOptions true true) (bs "tmp") (bs "one")
    (sample_manifest 97 None) sample_inputs empty_store) as (st & s1 & index & Hc & Hl & _ & _ & _ & Hr).
  - split; [intros h i Hh|intros dir d h i Hh]; simpl in Hh; by rewrite lookup_empty in Hh.
  - reflexivity.
  - reflexivity.
  - done.
  - exact sample_inputs_ok.
  - exact sample_apart.
  - vm_compute. done.
  - vm_compute. done.
  - exists st, s1. split; [exact Hc|]. split; [exact Hl|]. rewrite Hr; [reflexivity| |done].
    apply rtc_once, other_prune.
Defined.

Definition sample_store : Store := sample_capture.2.

Lemma restore_verified_witness :
  exists index, read_index_at sample_store (bs "one") None = Ok index
    /\ forall e, e ∈ files index -> 0 <= size e ->
       exists f, restored sample_inputs !! names (path e) = Some (f, mode e) /\ file_verified e f.
Proof.
  assert (materialize_generation sample_store (bs "one") None None
    = Ok (sample_manifest 97 None, restored sample_inputs)) as Hm by (vm_compute; reflexivity).
  destruct (restore_verified _ _ _ _ _ _ Hm) as (index & Hi & _ & _ & He).
  exists index. split; [exact Hi|]. intros e Hin Hs.
  destruct (He e Hin Hs) as [_ Hf]; [by split|done|]. exact Hf.
Defined.

Definition sample_index : Index :=
  MkIndex VERSION CHUNK_SIZE (sample_manifest 97 None)
    [MkFile (bs "a") 2 420 [Some (sample_digest sample)]; MkFile (bs "b") 3 384 [None]].

Lemma index_wellformed_witness :
  Forall (fun e => 0 <= size e) (files sample_index) /\ index_wf sample_index.
Proof.
  split; [repeat constructor; vm_compute; done|].
  apply index_wellformed; [repeat constructor; vm_compute; done|vm_compute; reflexivity].
Defined.



(** A checkpoint whose generation [b] retains its parent [a]. *)
Definition history_store : Store :=
  MkStore ∅ {[1 := [1; 7; 8]]}
    {[bs "two" := MkDir {[sample_digest sample := 1]}
        (Some (MkIndex VERSION CHUNK_SIZE (sample_manifest 98 (Some (replicate 32 97))) []))
        {[replicate 32 97 := sample_index]} false;
      bs "three" := MkDir ∅ None ∅ true]}.
Definition generation_a : Generation :=
  MkGeneration (replicate 32 97) None (bs "vm") (bs "2026-01-01T00:00:00Z") 2 true.
Definition generation_b : Generation :=
  MkGeneration (replicate 32 98) (Some (replicate 32 97)) (bs "vm") (bs "2026-01-01T00:00:00Z") 0 false.

Lemma lineage_complete_witness :
  lineage_of history_store (bs "two") = Ok [generation_b; generation_a]
  /\ exists index, read_index_at history_store (bs "two") None = Ok index
     /\ (generation_of index false = None -> [generation_b; generation_a] = []).
Proof.
  assert (lineage_of history_store (bs "two") = Ok [generation_b; generation_a]) as Hl
    by (vm_compute; reflexivity).
  split; [exact Hl|]. destruct (lineage_complete _ _ _ Hl) as (index & Hi & Hm).
  exists index. split; [exact Hi|]. intros Hn. by rewrite Hn in Hm.
Defined.

Lemma resolve_correct_witness :
  resolve_in [generation_b; generation_a] (bs "~1") = Ok (Some (replicate 32 97)).
Proof.
  destruct (resolve_correct [generation_b; generation_a]) as (_ & Hk & _).
  apply (Hk 1%nat generation_a); [reflexivity|vm_compute; done].
Defined.

Definition carried : result Z IoError * Store :=
  retain_generations_from (bs "three") (bs "two") None 8 history_store.

Lemma history_carried_witness :
  carried.1 = Ok 2 /\ exists taken, len taken = 2
    /\ forall g, g ∈ taken -> exists index, keeps_generation carried.2 (bs "three") (g_id g) index.
Proof.
  assert (carried.1 = Ok 2) as Hc by (vm_compute; reflexivity). split; [exact Hc|].
  destruct (history_carried (bs "three") (bs "two") None 8 history_store 2 carried.2)
    as (l & pre & taken & rest & _ & _ & _ & _ & Hn & _ & Hk).
  - done.
  - by eexists.
  - lia.
  - intros l Hl. assert (l = [generation_b; generation_a]) as ->.
    { assert (lineage_of history_store (bs "two") = Ok [generation_b; generation_a]) as E by (vm_compute; reflexivity).
      congruence. }
    apply (bool_decide_eq_true_1 _). vm_compute. reflexivity.
  - fold carried. by rewrite <-Hc, <-surjective_pairing.
  - exists taken. split; [exact Hn|]. intros g Hg. destruct (Hk g Hg) as (index & _ & Hkg). exists index.
    exact Hkg.
Defined.

End CkptProps.
