(* ===== verification/Retention.v ===== *)
(** * Retention: keeping the node's checkpoint store bounded
    (src/checkpoint_retention.rs, and the lineage index of
    crates/smolvm-checkpoint/src/store.rs)

    A node store is a checkpoint store whose [dirs] are the published
    directories, the lineage records, the pins and the recorded forgets.
    Modification times, the capacity of the file system and which pins others
    hold are arguments. Forgotten directories are deleted at once; the trash
    and the staging of imports are not part of the state. *)

From S2P Require Import Prelude RustStr ForkPool CkptStore CkptFacts CkptCapture.

Module Retain.
Import Str Path Ckpt.

(** ** The lineage index *)

Record LineageRecord := MkRecord {
  lr_id : bytes;
  lr_parent : option bytes;
  lr_machine : bytes;
  lr_created_at : bytes;
  lr_path : bytes;
}.

(** [records] holds the file [{id}.json] of each id: a record, or [None] when
    it does not parse. A pin has the time of its last use. *)
Record NodeStore := MkNode {
  ns_store : Store;
  records : gmap bytes (option LineageRecord);
  pins : gmap bytes Z;
  forgets : gmap bytes Z;
}.
Definition with_store (f : Store -> Store) (n : NodeStore) : NodeStore :=
  MkNode (f (ns_store n)) (records n) (pins n) (forgets n).
Definition with_records (f : gmap bytes (option LineageRecord) -> gmap bytes (option LineageRecord))
    (n : NodeStore) : NodeStore :=
  MkNode (ns_store n) (f (records n)) (pins n) (forgets n).
Definition with_pins (f : gmap bytes Z -> gmap bytes Z) (n : NodeStore) : NodeStore :=
  MkNode (ns_store n) (records n) (f (pins n)) (forgets n).
Definition with_forgets (f : gmap bytes Z -> gmap bytes Z) (n : NodeStore) : NodeStore :=
  MkNode (ns_store n) (records n) (pins n) (f (forgets n)).

(** A published directory, and not the staging of a capture. *)
Definition published (n : NodeStore) (dir : bytes) : bool :=
  match dirs (ns_store n) !! dir with Some d => negb (d_capture d) | None => false end.

Definition record_lineage (r : LineageRecord) (n : NodeStore) : result unit IoError * NodeStore :=
  if valid_generation_id (lr_id r) then (Ok tt, with_records (insert (lr_id r) (Some r)) n)
  else (Err InvalidData, n).

Definition remove_lineage (id : bytes) (n : NodeStore) : bool * NodeStore :=
  if valid_generation_id id then
    match records n !! id with
    | Some _ => (true, with_records (delete id) n)
    | None => (false, n)
    end
  else (false, n).

Definition find_lineage (id : bytes) (n : NodeStore) : result (option LineageRecord) IoError :=
  if valid_generation_id id then
    match records n !! id with
    | Some (Some r) => Ok (Some r)
    | Some None => Err InvalidData
    | None => Ok None
    end
  else Ok None.

(** Oldest first, by time and then id; unreadable records are left out. *)
Definition record_le (a b : LineageRecord) : Prop :=
  if bool_decide (lr_created_at a = lr_created_at b)
  then Pool.bytes_leb (lr_id a) (lr_id b) = true
  else Pool.bytes_leb (lr_created_at a) (lr_created_at b) = true.
#[global] Instance record_le_dec a b : Decision (record_le a b).
Proof. unfold record_le. case_match; apply _. Defined.

Definition list_lineage (n : NodeStore) : list LineageRecord :=
  merge_sort record_le
    (omap (fun kv => if starts_with (bs ".") kv.1 then None else kv.2) (map_to_list (records n))).

Section Run.
(** [root] is the store's path and [canonical] what [canonicalize] gives for
    its published directory; [pinned id] says another process holds the pin;
    [mtime] is the newer modification time of a published directory and its
    index; [now] the clock; [old], [allocated] and [space] as the file system
    answers. *)
Context (root : bytes) (canonical : option (list Component)).
Context (pinned : bytes -> bool) (mtime : bytes -> option Z) (now : Z).
Context (old : bytes -> bool) (allocated : Z -> Z) (space : option (Z * Z)).

Definition published_dir : list Component := components root ++ [Normal (bs "published")].

(** ** What must stay *)

Record Keep := MkKeep { k_ids : gset bytes; k_dirs : gset bytes }.

Definition component_str (c : Component) : bytes :=
  match c with RootDir => bs "/" | CurDir => bs "." | ParentDir => bs ".." | Normal n => n end.

(** The first component of [path] below [base]. *)
Fixpoint first_below (base path : list Component) : option bytes :=
  match base, path with
  | [], c :: _ => Some (component_str c)
  | x :: base, y :: path => if bool_decide (x = y) then first_below base path else None
  | _, [] => None
  end.

(** The fields of a machine record that retention reads. *)
Record VmRecord := MkVm {
  checkpoint_head : option bytes;
  source_smolmachine : option bytes;
  paused_checkpoint : option bytes;
}.

Definition record_keep (r : VmRecord) (k : Keep) : Keep :=
  let ids := match checkpoint_head r with Some head => {[head]} ∪ k_ids k | None => k_ids k end in
  let paths := option_list (source_smolmachine r) ++ option_list (paused_checkpoint r) in
  let below :=
    mjoin (map (fun p =>
      omap (fun base => first_below base (components p))
        (published_dir :: option_list canonical)) paths) in
  MkKeep ids (list_to_set below ∪ k_dirs k).
Definition from_records (rs : list VmRecord) : Keep :=
  foldl (fun k r => record_keep r k) (MkKeep ∅ ∅) rs.

Definition keeps (k : Keep) (id : option bytes) (dir : option bytes) : bool :=
  match id with Some id => bool_decide (id ∈ k_ids k) | None => false end
  || match dir with Some dir => bool_decide (dir ∈ k_dirs k) | None => false end.

(** ** Pins and requests *)

(** [pin]: the use is recorded; the shared lock is [pinned]. *)
Definition pin (id : bytes) (n : NodeStore) : bool * NodeStore :=
  if is_checkpoint_id id then (true, with_pins (insert id now) n) else (false, n).

(** Opening the pin creates it. *)
Definition try_claim (id : bytes) (n : NodeStore) : bool * NodeStore :=
  (negb (pinned id),
   with_pins (fun m => match m !! id with Some _ => m | None => <[id := now]> m end) n).

Definition last_pinned (n : NodeStore) (id : bytes) : option Z := pins n !! id.
Definition forget_requested (n : NodeStore) (id : bytes) : bool := bool_decide (is_Some (forgets n !! id)).
Definition request_forget (id : bytes) (n : NodeStore) : NodeStore := with_forgets (insert id now) n.

(** ** Forgetting *)

Inductive Forgotten := Removed | Absent | Deferred.

Definition record_dir (r : LineageRecord) : option bytes :=
  let path := components (lr_path r) in
  let! parent := parent path in
  if bool_decide (parent = published_dir)
     || match canonical with Some c => bool_decide (parent = c) | None => false end
  then file_name path else None.

Definition discard (dir : bytes) (n : NodeStore) : bool * NodeStore :=
  if published n dir then (true, with_store (with_dirs (delete dir)) n) else (false, n).

Definition imported_name (id : bytes) : bytes := id ++ bs ".checkpoint".

(** The published directories of an id. *)
Definition forget_dirs (id : bytes) (record : option LineageRecord) (n : NodeStore) : list bytes :=
  let dirs := option_list (let! r := record in record_dir r) in
  let imported := imported_name id in
  if negb (bool_decide (imported ∈ dirs)) && published n imported then dirs ++ [imported] else dirs.

Definition forget_inner (id : bytes) (k : Keep) (remember : bool) (n : NodeStore) :
    result Forgotten IoError * NodeStore :=
  let remembered (n : NodeStore) := if remember then request_forget id n else n in
  if negb (is_checkpoint_id id) then (Ok Absent, n)
  else
    let (claimed, n) := try_claim id n in
    if negb claimed then (Ok Deferred, remembered n)
    else match find_lineage id n with
    | Err e => (Err e, n)
    | Ok record =>
        let dirs := forget_dirs id record n in
        if bool_decide (id ∈ k_ids k) || existsb (fun dir => bool_decide (dir ∈ k_dirs k)) dirs
        then (Ok Deferred, remembered n)
        else
          let (removed, n) := remove_lineage id n in
          let (removed, n) :=
            foldl (fun '(removed, n) dir => let (gone, n) := discard dir n in (removed || gone, n))
              (removed, n) dirs in
          let n := with_pins (delete id) (with_forgets (delete id) n) in
          (Ok (if removed then Removed else Absent), n)
    end.

Definition forget (id : bytes) (k : Keep) (n : NodeStore) : result Forgotten IoError * NodeStore :=
  forget_inner id k true n.

(** ** Selection *)

Record Entry := MkEntry {
  e_dir : bytes;
  e_id : option bytes;
  last_used : Z;
  e_keep : bool;
  e_requested : bool;
}.

(** Durations in nanoseconds. *)
Record Policy := MkPolicy { max_age : option Z; grace : Z; p_max_bytes : option Z }.
Definition secs (n : Z) : Z := n * 1000000000.
Definition DEFAULT_MAX_AGE : Z := secs (24 * 60 * 60).
Definition DEFAULT_GRACE : Z := secs (30 * 60).
Definition DEFAULT_BUDGET_DIVISOR : Z := 4.
Definition RESERVE_DIVISOR : Z := 10.
Definition PRUNE_BATCH : nat := Z.to_nat 20000.
Definition STALE_STAGING : Z := secs (24 * 60 * 60).

Definition policy_default : Policy := MkPolicy (Some DEFAULT_MAX_AGE) DEFAULT_GRACE None.

(** [env] is the process environment. *)
Definition env_secs (env : bytes -> option bytes) (name : bytes) : option Z :=
  let! v := env name in parse_uint 64 (trim v).

Definition from_env (env : bytes -> option bytes) : option Policy :=
  let off :=
    match env (bs "SMOLVM_CHECKPOINT_STORE_RETENTION") with
    | Some v => bool_decide (trim v = bs "off") || bool_decide (trim v = bs "0")
                || bool_decide (trim v = bs "false")
    | None => false
    end in
  if off then None
  else Some (MkPolicy
    (match env_secs env (bs "SMOLVM_CHECKPOINT_STORE_MAX_AGE_SECS") with
     | Some 0 => None
     | Some n => Some (secs n)
     | None => max_age policy_default
     end)
    (match env_secs env (bs "SMOLVM_CHECKPOINT_STORE_GRACE_SECS") with
     | Some n => secs n
     | None => grace policy_default
     end)
    (match env_secs env (bs "SMOLVM_CHECKPOINT_STORE_MAX_BYTES") with
     | Some n => if n >? 0 then Some n else None
     | None => None
     end)).

Definition idle (e : Entry) : Z := saturating_sub now (last_used e).

Definition is_expired (p : Policy) (e : Entry) : bool :=
  negb (e_keep e)
  && (e_requested e
      || match max_age p with Some max => idle e >=? Z.max max (grace p) | None => false end).
(** Indexes of the entries that satisfy [f]. *)
Fixpoint positions (f : Entry -> bool) (start : nat) (es : list Entry) : list nat :=
  match es with
  | [] => []
  | e :: es => if f e then start :: positions f (S start) es else positions f (S start) es
  end.
Definition expired (p : Policy) (es : list Entry) : list nat := positions (is_expired p) 0 es.

Record Budget := MkBudget { b_max_bytes : Z; reserve_bytes : Z }.
Definition for_capacity (capacity max_bytes : option Z) : Budget :=
  MkBudget
    (match max_bytes, capacity with
     | Some m, _ => m
     | None, Some c => c / DEFAULT_BUDGET_DIVISOR
     | None, None => U64_MAX
     end)
    (match capacity with Some c => c / RESERVE_DIVISOR | None => 0 end).
Definition fits (b : Budget) (held available : Z) : bool :=
  (held <=? b_max_bytes b) && (available >=? reserve_bytes b).

Definition used_le (es : list Entry) (i j : nat) : Prop :=
  default 0 (last_used <$> es !! i) <= default 0 (last_used <$> es !! j).
#[global] Instance used_le_dec es i j : Decision (used_le es i j).
Proof. unfold used_le. apply _. Defined.

Definition eligible (p : Policy) (e : Entry) : bool := negb (e_keep e) && (idle e >=? grace p).
Definition candidates (p : Policy) (es : list Entry) : list nat :=
  merge_sort (used_le es) (positions (eligible p) 0 es).

Fixpoint choose (b : Budget) (reclaims : nat -> Z) (held available : Z) (cs : list nat) : list nat :=
  match cs with
  | [] => []
  | i :: cs =>
      if fits b held available then []
      else i :: choose b reclaims (saturating_sub held (reclaims i))
                  (saturating_add 64 available (reclaims i)) cs
  end.
Definition over_budget (p : Policy) (b : Budget) (reclaims : nat -> Z) (held available : Z)
    (es : list Entry) : list nat :=
  if fits b held available then [] else choose b reclaims held available (candidates p es).

(** ** A run *)

(** The newest record of each directory that exists, and the ids of records
    whose directory is gone. *)
Definition scan_record (n : NodeStore) (acc : gmap bytes bytes * list bytes) (r : LineageRecord) :
    gmap bytes bytes * list bytes :=
  match record_dir r with
  | Some dir => if published n dir then (<[dir := lr_id r]> acc.1, acc.2)
                else (acc.1, acc.2 ++ [lr_id r])
  | None => (acc.1, acc.2 ++ [lr_id r])
  end.

Definition entry_id (by_dir : gmap bytes bytes) (dir : bytes) : option bytes :=
  match by_dir !! dir with
  | Some id => Some id
  | None =>
      let! id := strip_suffix (bs ".checkpoint") dir in
      if is_checkpoint_id id then Some id else None
  end.

Definition scan_entry (k : Keep) (n : NodeStore) (by_dir : gmap bytes bytes) (dir : bytes) : Entry :=
  let id := entry_id by_dir dir in
  MkEntry dir id
    (Z.max (default 0 (mtime dir)) (default 0 (let! i := id in last_pinned n i)))
    (keeps k id (Some dir))
    (match id with Some i => forget_requested n i | None => false end).

Definition scan (k : Keep) (n : NodeStore) : list Entry * list bytes :=
  let (by_dir, dangling) := foldl (scan_record n) (∅, []) (list_lineage n) in
  let names :=
    List.filter (fun dir => negb (starts_with (bs ".") dir) && published n dir)
      (map fst (map_to_list (dirs (ns_store n)))) in
  (map (scan_entry k n by_dir) names, dangling).

(** Requests and pins of ids no checkpoint has, a day old. *)
Definition sweep_stale_ids (held : list bytes) (n : NodeStore) : NodeStore :=
  let stale (id : bytes) (at_time : Z) :=
    negb (bool_decide (id ∈ held)) && (saturating_sub now at_time >=? STALE_STAGING) in
  with_pins (filter (fun kv => stale kv.1 kv.2 && negb (pinned kv.1) = false))
    (with_forgets (filter (fun kv => stale kv.1 kv.2 = false)) n).

Record Report := MkReport {
  r_checkpoints : Z;
  r_forgotten : Z;
  r_in_use : Z;
  r_kept : Z;
  r_reclaimed_objects : Z;
  r_reclaimed_bytes : Z;
  r_held_bytes : Z;
}.

Definition count_outcome (o : Forgotten) (r : Report) : Report :=
  match o with
  | Removed => MkReport (r_checkpoints r) (r_forgotten r + 1) (r_in_use r) (r_kept r)
                 (r_reclaimed_objects r) (r_reclaimed_bytes r) (r_held_bytes r)
  | Deferred => MkReport (r_checkpoints r) (r_forgotten r) (r_in_use r + 1) (r_kept r)
                  (r_reclaimed_objects r) (r_reclaimed_bytes r) (r_held_bytes r)
  | Absent => r
  end.
Definition count_prune (p : PruneStats) (r : Report) : Report :=
  MkReport (r_checkpoints r) (r_forgotten r) (r_in_use r) (r_kept r)
    (r_reclaimed_objects r + removed_objects p) (r_reclaimed_bytes r + removed_bytes p) (kept_bytes p).

Definition forget_entry (e : Entry) (k : Keep) (r : Report) (n : NodeStore) :
    result Report IoError * NodeStore :=
  let (outcome, n) :=
    match e_id e with
    | Some id => forget_inner id k false n
    | None => let (gone, n) := discard (e_dir e) n in (Ok (if gone then Removed else Absent), n)
    end in
  (let? o := outcome in Ok (count_outcome o r), n).

Fixpoint forget_entries (es : list Entry) (k : Keep) (r : Report) (n : NodeStore) :
    result Report IoError * NodeStore :=
  match es with
  | [] => (Ok r, n)
  | e :: es =>
      match forget_entry e k r n with
      | (Err err, n) => (Err err, n)
      | (Ok r, n) => forget_entries es k r n
      end
  end.

Fixpoint forget_ids (ids : list bytes) (k : Keep) (n : NodeStore) : result unit IoError * NodeStore :=
  match ids with
  | [] => (Ok tt, n)
  | id :: ids =>
      match forget_inner id k false n with
      | (Err e, n) => (Err e, n)
      | (Ok _, n) => forget_ids ids k n
      end
  end.

Definition prune_node (n : NodeStore) : PruneStats * NodeStore :=
  let (st, s) := prune_in_batches old allocated PRUNE_BATCH (ns_store n) in
  (st, with_store (fun _ => s) n).

(** What is left after the expired entries. *)
Definition remaining (p : Policy) (es : list Entry) : list Entry :=
  List.filter (fun e => negb (is_expired p e)) es.
Definition reclaims (n : NodeStore) (es : list Entry) (i : nat) : Z :=
  match es !! i with Some e => (exclusive_objects allocated (ns_store n) (e_dir e)).2 | None => 0 end.
Definition pick (es : list Entry) (indexes : list nat) : list Entry := omap (fun i => es !! i) indexes.

Definition run_budget (k : Keep) (p : Policy) (es : list Entry) (r : Report) (n : NodeStore) :
    result Report IoError * NodeStore :=
  let (pruned, n) := prune_node n in
  let r := count_prune pruned r in
  let budget := for_capacity (fst <$> space) (p_max_bytes p) in
  let available := default U64_MAX (snd <$> space) in
  let es := remaining p es in
  match over_budget p budget (reclaims n es) (kept_bytes pruned) available es with
  | [] => (Ok r, n)
  | chosen =>
      match forget_entries (pick es chosen) k r n with
      | (Err e, n) => (Err e, n)
      | (Ok r, n) => let (pruned, n) := prune_node n in (Ok (count_prune pruned r), n)
      end
  end.

(** [run] on an existing store. *)
Definition run (k : Keep) (p : Policy) (n : NodeStore) : result Report IoError * NodeStore :=
  let (es, dangling) := scan k n in
  let r := MkReport (len es) 0 0 (len (List.filter e_keep es)) 0 0 0 in
  match forget_ids dangling k n with
  | (Err e, n) => (Err e, n)
  | (Ok _, n) =>
      let n := sweep_stale_ids (omap e_id es) n in
      match forget_entries (pick es (expired p es)) k r n with
      | (Err e, n) => (Err e, n)
      | (Ok r, n) => run_budget k p es r n
      end
  end.

End Run.
End Retain.
