(* ===== verification/RetentionProps.v ===== *)
(** * RetentionProps: what retention may and must remove *)

From S2P Require Import Prelude RustStr ForkPool CkptStore CkptFacts CkptCapture CkptProps Retention.

Module RetainFacts.
Import Str Path Ckpt CkptFacts CaptureFacts Retain.

(** ** Restores do not see the rest of the store *)

Section Restore.
Context `{ObjectCodec} `{IndexCodec}.

Lemma restore_chunks_ext s s' objs sz cl tr bc dm f k cs :
  inodes s' = inodes s ->
  restore_chunks s' objs sz cl tr bc dm f k cs = restore_chunks s objs sz cl tr bc dm f k cs.
Proof.
  intros Hi. revert f k. induction cs as [|c cs IH]; intros f k; [done|]. cbn [restore_chunks].
  assert (restore_chunk s' objs sz cl tr bc dm f k c = restore_chunk s objs sz cl tr bc dm f k c) as ->.
  { unfold restore_chunk, read_object, decode_object. by rewrite Hi. }
  destruct (restore_chunk s objs sz cl tr bc dm f k c); simpl; [apply IH|done].
Qed.

Lemma restore_files_ext s s' objs base es out :
  inodes s' = inodes s -> restore_files s' objs base es out = restore_files s objs base es out.
Proof.
  intros Hi. revert out. induction es as [|e es IH]; intros out; [done|]. cbn [restore_files].
  assert (restore_file s' objs base e = restore_file s objs base e) as ->.
  { unfold restore_file. case_match; [|by apply restore_chunks_ext].
    destruct p as [[b file] content]. by apply restore_chunks_ext. }
  destruct (restore_file s objs base e); simpl; [|done]. by rewrite IH.
Qed.

Lemma materialize_ext s s' dir generation base :
  inodes s' = inodes s -> dirs s' !! dir = dirs s !! dir ->
  materialize_generation s' dir generation base = materialize_generation s dir generation base.
Proof.
  intros Hi Hd. assert (dir_at s' dir = dir_at s dir) as Hda by (unfold dir_at; by rewrite Hd).
  unfold materialize_generation, read_index_at. rewrite Hda.
  destruct (match generation with None => _ | Some _ => _ end) as [index|]; simpl; [|done].
  destruct (read_index_from index); simpl; [|done]. by rewrite (restore_files_ext s s').
Qed.
End Restore.

(** ** Pruning keeps directories *)

Lemma prune_candidates_dirs allocated l acc :
  dirs (foldl (prune_candidate allocated) acc l).1 = dirs acc.1
  /\ inodes (foldl (prune_candidate allocated) acc l).1 = inodes acc.1.
Proof.
  revert acc. induction l as [|x l IH]; intros acc; [done|]. simpl.
  destruct (IH (prune_candidate allocated acc x)) as [-> ->]. destruct acc as [s st]. simpl.
  repeat case_match; done.
Qed.

Lemma prune_loop_dirs old allocated fuel batch l acc :
  dirs (prune_loop old allocated fuel batch l acc).1 = dirs acc.1
  /\ inodes (prune_loop old allocated fuel batch l acc).1 = inodes acc.1.
Proof.
  revert l acc. induction fuel as [|fuel IH]; intros l acc; simpl; [done|]. destruct l; [done|].
  destruct (IH (drop batch (l :: l0)) (prune_batch old allocated (take batch (l :: l0)) acc)) as [-> ->].
  unfold prune_batch. destruct (foldl _ _ _) as [cs st].
  apply (prune_candidates_dirs allocated cs (acc.1, st)).
Qed.

Lemma prune_dirs old allocated batch s :
  let s' := (prune_in_batches old allocated batch s).2 in
  inodes s' = inodes s /\ dirs s' = filter (fun kv => d_capture kv.2 = false) (dirs s).
Proof.
  unfold prune_in_batches. set (s1 := remove_abandoned_captures s). set (l := map fst _).
  destruct (prune_loop_dirs old allocated (length l) (Nat.max batch 1) l (s1, MkPrune 0 0 0 0)) as [Hd Hi].
  destruct (prune_loop _ _ _ _ _ _). simpl in *. by rewrite Hd, Hi.
Qed.

Section Run.
Context (root : bytes) (canonical : option (list Component)).
Context (pinned : bytes -> bool) (mtime : bytes -> option Z) (now : Z).
Context (old : bytes -> bool) (allocated : Z -> Z) (space : option (Z * Z)).
Context (k : Keep).

Local Abbreviation record_dir := (record_dir root canonical).
Local Abbreviation forget_inner := (forget_inner root canonical pinned now).
Local Abbreviation scan := (scan root canonical mtime k).

(** ** What removing a directory takes *)

(** The ids whose forget takes the directory along. *)
Definition owns (n : NodeStore) (id dir : bytes) : Prop :=
  (exists r, records n !! id = Some (Some r) /\ record_dir r = Some dir) \/ dir = imported_name id.

Definition may_forget (n : NodeStore) (id dir : bytes) : Prop :=
  owns n id dir /\ pinned id = false /\ id ∉ k_ids k /\ dir ∉ k_dirs k.

(** Published directories stay as they are, or go because of [P]. *)
Record shrinks (P : bytes -> Prop) (n n' : NodeStore) : Prop := MkShrinks {
  sh_inodes : inodes (ns_store n') = inodes (ns_store n);
  sh_records : records n' ⊆ records n;
  sh_dirs : forall d D, dirs (ns_store n) !! d = Some D -> d_capture D = false ->
    dirs (ns_store n') !! d = Some D \/ (dirs (ns_store n') !! d = None /\ P d);
  sh_gone : forall d, dirs (ns_store n) !! d = None -> dirs (ns_store n') !! d = None;
}.
#[local] Instance shrinks_refl P : Reflexive (shrinks P).
Proof. intros n. split; auto. Qed.
#[local] Instance shrinks_trans P : Transitive (shrinks P).
Proof.
  intros n1 n2 n3 [Hi1 Hr1 Hd1 Hg1] [Hi2 Hr2 Hd2 Hg2]. split; [congruence|by etrans| |auto].
  intros d D Hd Hc. destruct (Hd1 d D Hd Hc) as [Hd'|[Hd' HP]]; [auto|right; auto].
Qed.

Lemma shrinks_mono (P Q : bytes -> Prop) n n' : (forall d, P d -> Q d) -> shrinks P n n' -> shrinks Q n n'.
Proof.
  intros HPQ [Hi Hr Hd Hg]. split; [done..| |done]. intros d D Hdd Hc.
  destruct (Hd d D Hdd Hc) as [?|[? ?]]; auto.
Qed.

Lemma owns_mono n n' id d : records n' ⊆ records n -> owns n' id d -> owns n id d.
Proof. intros Hs [(r & Hr & Hd)|Hd]; [left|by right]. exists r. eauto using lookup_weaken. Qed.

(** Steps that only touch pins and requests. *)
Lemma shrinks_same P n n' :
  ns_store n' = ns_store n -> records n' = records n -> shrinks P n n'.
Proof. intros Hs Hr. split; rewrite ?Hs, ?Hr; auto. Qed.

Lemma discard_shrinks (P : bytes -> Prop) dir n : P dir -> shrinks P n (discard dir n).2.
Proof.
  intros HP. unfold discard. destruct (published n dir); [|done]. split; simpl; [done|done| |].
  - intros d D Hd _. destruct (decide (dir = d)) as [<-|Hne].
    + right. by rewrite lookup_delete_eq.
    + left. by rewrite lookup_delete_ne.
  - intros d Hd. apply lookup_delete_None. by right.
Qed.

Lemma discards_shrinks (P : bytes -> Prop) ds removed n :
  (forall d, d ∈ ds -> P d) ->
  let '(_, n') := foldl (fun '(removed, n) dir => let (gone, n) := discard dir n in (removed || gone, n))
     (removed, n) ds in
  shrinks P n n' /\ records n' = records n
  /\ forall d D, d ∈ ds -> dirs (ns_store n) !! d = Some D -> d_capture D = false ->
       dirs (ns_store n') !! d = None.
Proof.
  revert removed n. induction ds as [|x ds IH]; intros removed n HP; simpl.
  { split; [done|]. split; [done|]. by intros d D Hd%not_elem_of_nil. }
  pose proof (discard_shrinks P x n (HP x ltac:(by left))) as Hs.
  assert (records (discard x n).2 = records n) as Hrec by (unfold discard; by destruct (published n x)).
  assert (forall D, dirs (ns_store n) !! x = Some D -> d_capture D = false ->
    dirs (ns_store (discard x n).2) !! x = None) as Hx.
  { intros D HD HDc. unfold discard, published. rewrite HD, HDc. simpl. apply lookup_delete_eq. }
  destruct (discard x n) as [gone n1]. simpl in *.
  specialize (IH (removed || gone) n1 ltac:(intros; apply HP; by right)).
  destruct (foldl _ _ _) as [r' n']. destruct IH as (Hs' & Hr' & Hd').
  split; [by etrans|]. split; [congruence|]. intros d D Hin HD HDc.
  destruct (sh_dirs _ _ _ Hs d D HD HDc) as [Hd1|[Hd1 _]]; [|by apply (sh_gone _ _ _ Hs')].
  apply elem_of_cons in Hin as [->|Hin]; [by rewrite (Hx D HD HDc) in Hd1|by eapply Hd'].
Qed.

Lemma forget_dirs_owned n id record d :
  find_lineage id n = Ok record -> d ∈ forget_dirs root canonical id record n -> owns n id d.
Proof.
  intros Hf Hd. unfold find_lineage in Hf. unfold forget_dirs in Hd.
  assert (d ∈ option_list (let! r := record in record_dir r) -> owns n id d) as Hl.
  { destruct (valid_generation_id id); [|by simplify_eq/=; intros ?%not_elem_of_nil].
    destruct (records n !! id) as [[r|]|] eqn:Er; simplify_eq/=; [|by intros ?%not_elem_of_nil].
    destruct (record_dir r) as [d'|] eqn:Ed; [|by intros ?%not_elem_of_nil].
    intros ->%list_elem_of_singleton. left. by exists r. }
  case_match; [|by apply Hl]. apply elem_of_app in Hd as [Hd|Hd]; [by apply Hl|].
  apply list_elem_of_singleton in Hd as ->. by right.
Qed.

Lemma remove_lineage_spec id n :
  ns_store (remove_lineage id n).2 = ns_store n /\ records (remove_lineage id n).2 ⊆ records n.
Proof.
  unfold remove_lineage. repeat case_match; simpl; split; try done. apply delete_subseteq.
Qed.

(** A forget removes only directories it may. *)
Lemma forget_inner_shrinks id remember n :
  shrinks (may_forget n id) n (forget_inner id k remember n).2.
Proof.
  unfold Retain.forget_inner. destruct (negb (is_checkpoint_id id)); [done|].
  unfold try_claim. set (n1 := with_pins _ n).
  assert (shrinks (may_forget n id) n n1) as H1 by by apply shrinks_same.
  destruct (pinned id) eqn:Ep; simpl.
  { destruct remember; [|done]. etrans; [exact H1|]. by apply shrinks_same. }
  destruct (find_lineage id n1) as [record|] eqn:Ef; [|done].
  destruct (_ || _) eqn:Ek; simpl.
  { destruct remember; [|done]. etrans; [exact H1|]. by apply shrinks_same. }
  bool_simpl. destruct (remove_lineage_spec id n1) as [Hst Hsub].
  destruct (remove_lineage id n1) as [removed n2]. simpl in Hst, Hsub.
  assert (shrinks (may_forget n id) n1 n2) as H2.
  { split; rewrite ?Hst; auto. }
  pose proof (discards_shrinks (may_forget n id) (forget_dirs root canonical id record n1) removed n2) as Hd.
  destruct (foldl _ _ _) as [r' n3]. destruct Hd as (H3 & _).
  { intros d Hd. split; [exact (forget_dirs_owned n1 id record d Ef Hd)|]. split; [done|]. split; [done|].
    intros Hk. apply not_true_iff_false in H0. apply H0, existsb_exists. exists d.
    split; [by apply list_elem_of_In|by apply bool_decide_eq_true_2]. }
  etrans; [exact H1|]. etrans; [exact H2|]. etrans; [exact H3|]. by apply shrinks_same.
Qed.

Lemma may_forget_mono n n' id d : records n' ⊆ records n -> may_forget n' id d -> may_forget n id d.
Proof. intros Hs [Ho ?]. split; [by eapply owns_mono|done]. Qed.

Lemma forget_ids_shrinks n0 (P : bytes -> Prop) ids n :
  records n ⊆ records n0 -> (forall id d, id ∈ ids -> may_forget n0 id d -> P d) ->
  shrinks P n (forget_ids root canonical pinned now ids k n).2.
Proof.
  revert n. induction ids as [|id ids IH]; intros n Hr HP; cbn [forget_ids]; [done|].
  pose proof (forget_inner_shrinks id false n) as Hs.
  destruct (forget_inner id k false n) as [[o|e] n1]; simpl in Hs; simpl.
  - assert (shrinks P n n1) as Hs1.
    { eapply shrinks_mono; [|exact Hs]. intros d Hd. apply (HP id); [by left|by eapply may_forget_mono]. }
    etrans; [exact Hs1|]. apply IH; [etrans; [apply (sh_records _ _ _ Hs1)|done]|].
    intros id' d Hin. apply HP. by right.
  - eapply shrinks_mono; [|exact Hs]. intros d Hd. apply (HP id); [by left|by eapply may_forget_mono].
Qed.

Definition entry_may_go (n0 : NodeStore) (e : Entry) (d : bytes) : Prop :=
  match e_id e with Some id => may_forget n0 id d | None => d = e_dir e end.

Lemma forget_entry_shrinks n0 (P : bytes -> Prop) e r n :
  records n ⊆ records n0 -> (forall d, entry_may_go n0 e d -> P d) ->
  shrinks P n (forget_entry root canonical pinned now e k r n).2.
Proof.
  intros Hr HP. unfold forget_entry, entry_may_go in *. destruct (e_id e) as [id|].
  - pose proof (forget_inner_shrinks id false n) as Hs.
    destruct (forget_inner id k false n) as [o n1]. simpl in *. eapply shrinks_mono; [|exact Hs].
    intros d Hd. apply HP. by eapply may_forget_mono.
  - pose proof (discard_shrinks P (e_dir e) n (HP _ eq_refl)) as Hs. by destruct (discard (e_dir e) n).
Qed.

Lemma forget_entries_shrinks n0 (P : bytes -> Prop) es r n :
  records n ⊆ records n0 -> (forall e d, e ∈ es -> entry_may_go n0 e d -> P d) ->
  shrinks P n (forget_entries root canonical pinned now es k r n).2.
Proof.
  revert r n. induction es as [|e es IH]; intros r n Hr HP; cbn [forget_entries]; [done|].
  pose proof (forget_entry_shrinks n0 P e r n Hr (fun d => HP e d ltac:(by left))) as Hs.
  destruct (forget_entry _ _ _ _ e k r n) as [[r1|err] n1]; simpl in *; [|done].
  etrans; [exact Hs|]. apply IH; [etrans; [apply (sh_records _ _ _ Hs)|done]|].
  intros e' d Hin. apply HP. by right.
Qed.

Lemma prune_node_shrinks P n : shrinks P n (prune_node old allocated n).2.
Proof.
  unfold prune_node. pose proof (prune_dirs old allocated PRUNE_BATCH (ns_store n)) as [Hi Hd].
  destruct (prune_in_batches _ _ _ _) as [st s]. simpl in *. split; simpl; [done|done| |].
  - intros d D HD Hc. left. rewrite Hd. by apply map_lookup_filter_Some.
  - intros d HD. rewrite Hd. apply map_lookup_filter_None. by left.
Qed.

(** ** Which entries are due *)

Definition due (p : Policy) (e : Entry) : Prop :=
  e_keep e = false /\ (e_requested e = true \/ grace p <= idle now e).

Lemma positions_spec f start es i :
  i ∈ positions f start es <-> exists j e, i = (start + j)%nat /\ es !! j = Some e /\ f e = true.
Proof.
  revert start. induction es as [|e es IH]; intros start; simpl.
  { split; [by intros ?%not_elem_of_nil|]. intros (j & e & _ & He & _). by rewrite lookup_nil in He. }
  assert (i ∈ positions f (S start) es <->
    exists j e', i = (start + S j)%nat /\ es !! j = Some e' /\ f e' = true) as Hrec.
  { rewrite IH. setoid_rewrite Nat.add_succ_r. by setoid_rewrite <-Nat.add_succ_l. }
  destruct (f e) eqn:Ef; [rewrite elem_of_cons|]; rewrite Hrec; split.
  - intros [->|(j & e' & ? & ? & ?)]; [exists 0%nat, e; rewrite Nat.add_0_r; done|by exists (S j), e'].
  - intros ([|j] & e' & -> & He & Hf); [left; lia|right; by exists j, e'].
  - intros (j & e' & ? & ? & ?). by exists (S j), e'.
  - intros ([|j] & e' & -> & He & Hf); [simplify_eq/=; congruence|by exists j, e'].
Qed.

Lemma pick_spec es is_ e : e ∈ pick es is_ <-> exists i, i ∈ is_ /\ es !! i = Some e.
Proof. unfold pick. rewrite list_elem_of_omap. done. Qed.

Lemma expired_spec p es e :
  e ∈ pick es (expired now p es) <-> e ∈ es /\ is_expired now p e = true.
Proof.
  rewrite pick_spec. setoid_rewrite positions_spec. rewrite (list_elem_of_lookup es e). split.
  - intros (i & (j & e' & -> & He' & Hf) & He). simpl in He. rewrite He' in He. injection He as <-.
    split; [by exists j|done].
  - intros [[j Hj] Hf]. exists j. split; [by exists j, e|done].
Qed.

Lemma is_expired_due p e : is_expired now p e = true -> due p e.
Proof.
  unfold is_expired, due. intros Hx. bool_simpl. split; [done|].
  destruct H0 as [Hr|Hm]; [by left|right]. destruct (max_age p); [|done]. bool_simpl. lia.
Qed.

Lemma eligible_due p e : eligible now p e = true -> due p e.
Proof. unfold eligible, due. intros Hx. bool_simpl. split; [done|]. right. lia. Qed.

Lemma choose_prefix b reclaims held available cs :
  exists m, choose b reclaims held available cs = take m cs.
Proof.
  revert held available. induction cs as [|c cs IH]; intros held available; simpl; [by exists 0%nat|].
  destruct (fits b held available); [by exists 0%nat|].
  destruct (IH (saturating_sub held (reclaims c)) (saturating_add 64 available (reclaims c))) as [m ->].
  by exists (S m).
Qed.

Lemma over_budget_due p b reclaims held available es e :
  e ∈ pick es (over_budget now p b reclaims held available es) -> due p e.
Proof.
  intros (i & Hi & He)%pick_spec. unfold over_budget in Hi. destruct (fits b held available); [by apply not_elem_of_nil in Hi|].
  destruct (choose_prefix b reclaims held available (candidates now p es)) as [m Hm]. rewrite Hm in Hi.
  apply elem_of_take in Hi as (j & Hj & _). apply list_elem_of_lookup_2 in Hj. unfold candidates in Hj.
  rewrite merge_sort_Permutation in Hj. apply positions_spec in Hj as (j' & e' & -> & He' & Hel).
  simpl in He. rewrite He' in He. injection He as <-. by apply eligible_due.
Qed.

(** ** A whole run *)

(** Why a run may have removed [d]: an unpinned id nothing continues from
    takes it along, because the id is due or its own directory was gone, or
    the directory has no id and is due. *)
Inductive justified (p : Policy) (n : NodeStore) (d : bytes) : Prop :=
| just_dangling id : id ∈ (scan n).2 -> may_forget n id d -> justified p n d
| just_due e id : e ∈ (scan n).1 -> due p e -> e_id e = Some id -> may_forget n id d -> justified p n d
| just_nameless e : e ∈ (scan n).1 -> due p e -> e_id e = None -> e_dir e = d -> d ∉ k_dirs k ->
    justified p n d.

Lemma scan_keep n e : e ∈ (scan n).1 -> e_keep e = keeps k (e_id e) (Some (e_dir e)).
Proof.
  unfold Retain.scan. destruct (foldl _ _ _) as [by_dir dangling]. simpl.
  intros (dir & -> & _)%list_elem_of_fmap. done.
Qed.

Lemma entry_justified p n e d : e ∈ (scan n).1 -> due p e -> entry_may_go n e d -> justified p n d.
Proof.
  intros He Hdue Hgo. unfold entry_may_go in Hgo. destruct (e_id e) as [id|] eqn:Eid.
  - by eapply just_due.
  - subst d. eapply just_nameless; [done..|]. destruct Hdue as [Hk _]. rewrite (scan_keep n e He) in Hk.
    unfold keeps in Hk. rewrite Eid in Hk. simpl in Hk. by bool_simpl.
Qed.

Lemma run_budget_shrinks p n0 r n :
  records n ⊆ records n0 ->
  shrinks (justified p n0) n
    (run_budget root canonical pinned now old allocated space k p (scan n0).1 r n).2.
Proof.
  intros Hr. unfold run_budget. pose proof (prune_node_shrinks (justified p n0) n) as H1.
  destruct (prune_node old allocated n) as [st n1]. simpl in H1.
  set (es := remaining now p (scan n0).1). set (chosen := over_budget _ _ _ _ _ _ _).
  assert (forall e, e ∈ pick es chosen -> e ∈ (scan n0).1 /\ due p e) as Hdue.
  { intros e He. split; [|by eapply over_budget_due]. apply pick_spec in He as (i & _ & He).
    apply list_elem_of_lookup_2, list_elem_of_In in He. unfold es, remaining in He.
    apply filter_In in He as [He _]. by apply list_elem_of_In. }
  destruct chosen as [|c chosen]; [done|].
  pose proof (forget_entries_shrinks n0 (justified p n0) (pick es (c :: chosen)) (count_prune st r) n1) as H2.
  destruct (forget_entries _ _ _ _ _ _ _ _) as [[r2|err] n2]; simpl in H2.
  - pose proof (prune_node_shrinks (justified p n0) n2) as H3.
    destruct (prune_node old allocated n2) as [st2 n3]. simpl in *. etrans; [exact H1|]. etrans; [|exact H3].
    apply H2; [etrans; [apply (sh_records _ _ _ H1)|done]|].
    intros e d He. destruct (Hdue e He). by apply entry_justified.
  - simpl. etrans; [exact H1|]. apply H2; [etrans; [apply (sh_records _ _ _ H1)|done]|].
    intros e d He. destruct (Hdue e He). by apply entry_justified.
Qed.

Lemma run_shrinks p n :
  shrinks (justified p n) n (run root canonical pinned mtime now old allocated space k p n).2.
Proof.
  unfold run. pose proof (just_dangling p n) as Hdang. pose proof (entry_justified p n) as Hent.
  pose proof (run_budget_shrinks p n) as Hbud.
  destruct (scan n) as [es dangling] eqn:Es. simpl in *.
  pose proof (forget_ids_shrinks n (justified p n) dangling n ltac:(done)) as H1.
  destruct (forget_ids _ _ _ _ dangling k n) as [[[]|e] n1]; simpl in H1.
  2: { apply H1. intros id d Hin Hm. by eapply Hdang. }
  specialize (H1 ltac:(intros id d Hin Hm; by eapply Hdang)).
  set (n2 := sweep_stale_ids pinned now (omap e_id es) n1).
  assert (shrinks (justified p n) n1 n2) as H2 by by apply shrinks_same.
  assert (shrinks (justified p n) n n2) as H12 by by etrans.
  pose proof (forget_entries_shrinks n (justified p n) (pick es (expired now p es))
    (MkReport (len es) 0 0 (len (List.filter e_keep es)) 0 0 0) n2) as H3.
  destruct (forget_entries _ _ _ _ _ _ _ _) as [[r|err] n3]; simpl in H3.
  - assert (shrinks (justified p n) n n3) as H13.
    { etrans; [exact H12|]. apply H3; [apply (sh_records _ _ _ H12)|].
      intros e d [He Hx]%expired_spec. apply Hent; [done|by apply is_expired_due]. }
    etrans; [exact H13|]. apply Hbud, (sh_records _ _ _ H13).
  - simpl. etrans; [exact H12|]. apply H3; [apply (sh_records _ _ _ H12)|].
    intros e d [He Hx]%expired_spec. apply Hent; [done|by apply is_expired_due].
Qed.

(** ** Requests are honoured *)

Section Request.
(** [id]'s record names the published directory [d], nothing holds [id], and
    nothing keeps a directory it would take along. *)
Context (id d : bytes) (r : LineageRecord).
Context (Hid : is_checkpoint_id id = true) (Hrd : record_dir r = Some d).
Context (Hpin : pinned id = false) (Hki : id ∉ k_ids k) (Hkd : d ∉ k_dirs k).
Context (Hkim : imported_name id ∉ k_dirs k).

Definition waiting (n : NodeStore) : Prop :=
  records n !! id = Some (Some r) /\ forall D, dirs (ns_store n) !! d = Some D -> d_capture D = false.
Definition settled (n : NodeStore) : Prop := waiting n \/ dirs (ns_store n) !! d = None.

Lemma settled_step n n' P :
  shrinks P n n' -> records n' !! id = records n !! id \/ dirs (ns_store n') !! d = None ->
  settled n -> settled n'.
Proof.
  intros Hs [Hr|Hd]; [|by right]. intros [[Hrec Hc]|Hg]; [left|right; by apply (sh_gone _ _ _ Hs)].
  split; [congruence|]. intros D HD. destruct (dirs (ns_store n) !! d) as [D0|] eqn:E.
  - destruct (sh_dirs _ _ _ Hs d D0 E (Hc D0 eq_refl)) as [Hx|[Hx _]]; [|congruence].
    rewrite HD in Hx. injection Hx as ->. by apply Hc.
  - rewrite (sh_gone _ _ _ Hs d E) in HD. done.
Qed.

Lemma forget_other_records id' remember n :
  id' <> id -> records (forget_inner id' k remember n).2 !! id = records n !! id.
Proof.
  intros Hne. unfold Retain.forget_inner. destruct (negb (is_checkpoint_id id')); [done|].
  unfold try_claim. destruct (negb (negb (pinned id'))); [by destruct remember|].
  destruct (find_lineage id' _) as [record|]; [|done]. destruct (_ || _); [by destruct remember|].
  set (n1 := with_pins _ n).
  assert (records (remove_lineage id' n1).2 !! id = records n !! id) as Hr.
  { unfold remove_lineage. repeat case_match; try done. simpl. by rewrite lookup_delete_ne. }
  destruct (remove_lineage id' n1) as [removed n2]. simpl in Hr.
  pose proof (discards_shrinks (fun _ => True) (forget_dirs root canonical id' record n1) removed n2 ltac:(done)) as Hd.
  destruct (foldl _ _ _) as [r' n3]. destruct Hd as (_ & Hrec & _). simpl. by rewrite Hrec.
Qed.

Lemma forget_waiting remember n :
  waiting n -> exists o, (forget_inner id k remember n).1 = Ok o
    /\ dirs (ns_store (forget_inner id k remember n).2) !! d = None.
Proof.
  intros [Hrec Hc]. unfold Retain.forget_inner. rewrite Hid. unfold try_claim. rewrite Hpin. simpl.
  set (n1 := with_pins _ n).
  assert (find_lineage id n1 = Ok (Some r)) as ->.
  { unfold find_lineage. unfold is_checkpoint_id in Hid. rewrite Hid. simpl. by rewrite Hrec. }
  assert (d ∈ forget_dirs root canonical id (Some r) n1) as Hin.
  { unfold forget_dirs. simpl. rewrite Hrd. simpl. case_match; by left. }
  assert (forall x, x ∈ forget_dirs root canonical id (Some r) n1 -> x ∉ k_dirs k) as Hno.
  { intros x. unfold forget_dirs. simpl. rewrite Hrd. simpl. case_match;
      intros Hx; repeat (apply elem_of_cons in Hx as [->|Hx]; [done|]); by apply not_elem_of_nil in Hx. }
  rewrite bool_decide_eq_false_2 by done.
  assert (existsb (fun dir => bool_decide (dir ∈ k_dirs k)) (forget_dirs root canonical id (Some r) n1) = false) as ->.
  { apply existsb_false. intros x Hx. by apply bool_decide_eq_false_2, Hno. }
  simpl. destruct (remove_lineage_spec id n1) as [Hst _].
  destruct (remove_lineage id n1) as [removed n2]. simpl in Hst.
  pose proof (discards_shrinks (fun _ => True) (forget_dirs root canonical id (Some r) n1) removed n2 ltac:(done)) as Hd.
  destruct (foldl _ _ _) as [r' n3]. destruct Hd as (Hs & _ & Hgone). simpl.
  eexists. split; [done|]. destruct (dirs (ns_store n) !! d) as [D|] eqn:E.
  - apply (Hgone d D Hin); [by rewrite Hst|by apply Hc].
  - apply (sh_gone _ _ _ Hs). by rewrite Hst.
Qed.

Lemma forget_settles id' remember n : settled n -> settled (forget_inner id' k remember n).2.
Proof.
  intros Hs. eapply settled_step; [apply forget_inner_shrinks| |exact Hs].
  destruct (decide (id' = id)) as [->|Hne]; [|left; by apply forget_other_records].
  destruct Hs as [Hw|Hg]; right; [by destruct (forget_waiting remember n Hw) as (? & _ & ?)|].
  apply (sh_gone _ _ _ (forget_inner_shrinks id remember n) d Hg).
Qed.

Lemma forget_entry_settles e rep n : settled n -> settled (forget_entry root canonical pinned now e k rep n).2.
Proof.
  intros Hs. unfold forget_entry. destruct (e_id e) as [id'|].
  - pose proof (forget_settles id' false n Hs) as H1. by destruct (forget_inner id' k false n).
  - pose proof (discard_shrinks (fun _ => True) (e_dir e) n I) as H1.
    assert (records (discard (e_dir e) n).2 = records n) as H2 by (unfold discard; by case_match).
    destruct (discard (e_dir e) n) as [g n1]. simpl in *. eapply settled_step; [exact H1| |exact Hs].
    left. by rewrite H2.
Qed.

Lemma forget_entries_honoured es rep n rep' n' :
  settled n -> forget_entries root canonical pinned now es k rep n = (Ok rep', n') ->
  (exists e, e ∈ es /\ e_id e = Some id) -> dirs (ns_store n') !! d = None.
Proof.
  revert rep n. induction es as [|e es IH]; intros rep n Hs Hf (e0 & Hin & He0); [by apply not_elem_of_nil in Hin|].
  cbn [forget_entries] in Hf. pose proof (forget_entry_settles e rep n Hs) as Hs1.
  destruct (forget_entry root canonical pinned now e k rep n) as [[rep1|err] n1] eqn:Ee; [|done]. simpl in Hs1.
  apply elem_of_cons in Hin as [->|Hin]; [|by eapply IH; [done..|exists e0]].
  assert (dirs (ns_store n1) !! d = None) as Hg.
  { unfold forget_entry in Ee. rewrite He0 in Ee.
    destruct Hs as [Hw|Hg].
    - destruct (forget_waiting false n Hw) as (o & _ & Hd). destruct (forget_inner id k false n) as [res n2].
      simpl in *. by injection Ee as _ <-.
    - pose proof (sh_gone _ _ _ (forget_inner_shrinks id false n) d Hg) as Hd.
      destruct (forget_inner id k false n) as [res n2]. simpl in *. by injection Ee as _ <-. }
  assert (shrinks (fun _ => True) n1 n') as Hs2.
  { pose proof (forget_entries_shrinks n1 (fun _ => True) es rep1 n1 ltac:(done) ltac:(done)) as Hx.
    by rewrite Hf in Hx. }
  by apply (sh_gone _ _ _ Hs2).
Qed.

Lemma forget_ids_settles ids n : settled n -> settled (forget_ids root canonical pinned now ids k n).2.
Proof.
  revert n. induction ids as [|i ids IH]; intros n Hs; cbn [forget_ids]; [done|].
  pose proof (forget_settles i false n Hs) as H1.
  destruct (forget_inner i k false n) as [[o|e] n1]; simpl in *; [by apply IH|done].
Qed.

Lemma scan_records_by_dir n l acc :
  published n d = true ->
  (forall x, x ∈ l -> record_dir x = Some d -> lr_id x = id) ->
  acc.1 !! d = Some id \/ r ∈ l -> lr_id r = id ->
  (foldl (Retain.scan_record root canonical n) acc l).1 !! d = Some id.
Proof.
  intros Hp. revert acc. induction l as [|x l IH]; intros acc Hu Hr Hlr; simpl.
  { destruct Hr as [?|Hr]; [done|by apply not_elem_of_nil in Hr]. }
  apply IH; [intros y Hy; apply Hu; by right| |done].
  assert (x = r -> (Retain.scan_record root canonical n acc x).1 !! d = Some id) as Hx.
  { intros ->. unfold Retain.scan_record. rewrite Hrd, Hp. simpl. by rewrite lookup_insert_eq, Hlr. }
  destruct Hr as [Ha|Hin].
  - left. unfold Retain.scan_record. destruct (record_dir x) as [dx|] eqn:Edx; [|done].
    destruct (published n dx); [|done]. simpl. destruct (decide (dx = d)) as [->|Hne].
    + rewrite lookup_insert_eq. f_equal. by apply Hu; [left|].
    + by rewrite lookup_insert_ne.
  - apply elem_of_cons in Hin as [->|Hin]; [left; by apply Hx|by right].
Qed.

Lemma id_not_dot : starts_with (bs ".") id = false.
Proof.
  revert Hid. unfold is_checkpoint_id, valid_generation_id. generalize id as i.
  intros [|c rest] [Hlen Hhex]%andb_true_iff; [done|]. cbn [forallb] in Hhex.
  apply andb_true_iff in Hhex as [Hc _]. apply bool_decide_eq_false_2. intros [x Hx].
  change (bs ".") with [46] in Hx. cbn [strip_prefix] in Hx.
  destruct (Z.eqb_spec 46 c) as [<-|]; done.
Qed.

Lemma run_honoured p n rep n' :
  run root canonical pinned mtime now old allocated space k p n = (Ok rep, n') ->
  waiting n -> published n d = true -> starts_with (bs ".") d = false ->
  (forall key x, records n !! key = Some (Some x) -> lr_id x = key) ->
  (forall key x, records n !! key = Some (Some x) -> record_dir x = Some d -> key = id) ->
  is_Some (forgets n !! id) ->
  dirs (ns_store n') !! d = None.
Proof.
  intros Hrun Hw Hp Hdot Hwf Hu Hf. unfold run in Hrun.
  assert (exists e, e ∈ (scan n).1 /\ e_id e = Some id /\ is_expired now p e = true) as (e & He & Hei & Hx).
  { unfold Retain.scan.
    pose proof (scan_records_by_dir n (list_lineage n) (∅, []) Hp) as Hby.
    assert (forall x, x ∈ list_lineage n <-> exists key, records n !! key = Some (Some x)
      /\ starts_with (bs ".") key = false) as Hl.
    { intros x. unfold list_lineage. rewrite merge_sort_Permutation, list_elem_of_omap. split.
      - intros ([key v] & Hin & Hv). apply elem_of_map_to_list in Hin. cbn [fst snd] in Hv.
        destruct (starts_with (bs ".") key) eqn:Es; [done|]. subst v. by exists key.
      - intros (key & Hk & Hs). exists (key, Some x). split; [by apply elem_of_map_to_list|].
        cbn [fst snd]. by rewrite Hs. }
    destruct (foldl _ _ _) as [by_dir dangling]. simpl in *.
    assert (by_dir !! d = Some id) as Hd.
    { apply Hby; [|right; apply Hl; exists id; split; [apply Hw|exact id_not_dot]|by apply Hwf, Hw].
      intros x (key & Hk & _)%Hl Hxd. rewrite (Hwf key x Hk). by eapply Hu. }
    exists (scan_entry mtime k n by_dir d). split; [|split].
    - apply list_elem_of_fmap. exists d. split; [done|]. apply list_elem_of_In, filter_In.
      split; [|by rewrite Hdot, Hp]. unfold published in Hp.
      destruct (dirs (ns_store n) !! d) as [D|] eqn:ED; [|done]. apply in_map_iff. exists (d, D).
      split; [done|]. by apply list_elem_of_In, elem_of_map_to_list.
    - simpl. unfold entry_id. by rewrite Hd.
    - unfold is_expired. simpl. unfold entry_id. rewrite Hd.
      unfold keeps, forget_requested. rewrite !bool_decide_eq_false_2, bool_decide_eq_true_2 by done. done. }
  destruct (scan n) as [es dangling]. simpl in *.
  pose proof (forget_ids_settles dangling n (or_introl Hw)) as H1.
  destruct (forget_ids _ _ _ _ dangling k n) as [[[]|err] n1]; [|done]. simpl in H1.
  set (n2 := sweep_stale_ids pinned now (omap e_id es) n1) in Hrun.
  assert (settled n2) as H2 by exact H1.
  destruct (forget_entries _ _ _ _ _ _ _ n2) as [[r3|err] n3] eqn:E3; [|done].
  assert (dirs (ns_store n3) !! d = None) as H3.
  { eapply forget_entries_honoured; [exact H2|exact E3|]. exists e. split; [|done]. by apply expired_spec. }
  unfold run_budget in Hrun. pose proof (prune_node_shrinks (fun _ => True) n3) as H4.
  destruct (prune_node old allocated n3) as [st n4]. simpl in H4.
  apply (sh_gone _ _ _ H4) in H3. destruct (over_budget _ _ _ _ _ _ _) as [|c cs]; [by injection Hrun as _ <-|].
  pose proof (forget_entries_shrinks n4 (fun _ => True) (pick (remaining now p es) (c :: cs)) (count_prune st r3) n4
    ltac:(done) ltac:(done)) as H5.
  destruct (forget_entries _ _ _ _ _ _ _ n4) as [[r5|err] n5]; [|done]. simpl in H5.
  pose proof (prune_node_shrinks (fun _ => True) n5) as H6. destruct (prune_node old allocated n5) as [st6 n6].
  injection Hrun as _ <-. by apply (sh_gone _ _ _ H6), (sh_gone _ _ _ H5).
Qed.
End Request.

End Run.
End RetainFacts.

Module RetentionProps.
Import Str Path Ckpt Retain RetainFacts.

(** C19: Retention removes only what it may: after any run,
    successful or not, a published checkpoint is either untouched, and
    restores exactly as before in each of its generations, or gone for a
    stated reason: an id that no machine continues from, that nothing pins and
    that is due (requested, or idle for the grace period) or whose own
    directory was missing takes the directory along, or the directory has no
    id, is due and no machine was created from it. *)
Theorem retention_safe `{ObjectCodec} `{IndexCodec} root canonical pinned mtime now old allocated space k p n r n' :
  run root canonical pinned mtime now old allocated space k p n = (r, n') ->
  forall d D, dirs (ns_store n) !! d = Some D -> d_capture D = false ->
  (dirs (ns_store n') !! d = Some D
   /\ forall generation base, materialize_generation (ns_store n') d generation base
        = materialize_generation (ns_store n) d generation base)
  \/ (dirs (ns_store n') !! d = None /\ justified root canonical pinned mtime now k p n d).
Proof.
  intros Hr d D HD Hc.
  pose proof (run_shrinks root canonical pinned mtime now old allocated space k p n) as Hs.
  rewrite Hr in Hs. simpl in Hs. destruct (sh_dirs _ _ _ Hs d D HD Hc) as [Hd|?]; [left|by right].
  split; [done|]. intros generation base. apply materialize_ext; [|congruence].
  apply (sh_inodes _ _ _ Hs).
Qed.

(** A forget the control plane asked for is completed: when
    a run succeeds, a published checkpoint whose id was requested is gone,
    provided its record is the only one naming the directory, nothing pins
    the id and no machine keeps the id or a directory it would take along. *)
Theorem request_honoured root canonical pinned mtime now old allocated space k p n rep n' id d r :
  run root canonical pinned mtime now old allocated space k p n = (Ok rep, n') ->
  is_checkpoint_id id = true -> records n !! id = Some (Some r) ->
  record_dir root canonical r = Some d -> published n d = true -> starts_with (bs ".") d = false ->
  (forall key x, records n !! key = Some (Some x) ->
     lr_id x = key /\ (record_dir root canonical x = Some d -> key = id)) ->
  is_Some (forgets n !! id) -> pinned id = false ->
  id ∉ k_ids k -> d ∉ k_dirs k -> imported_name id ∉ k_dirs k ->
  dirs (ns_store n') !! d = None.
Proof.
  intros Hrun Hid Hrec Hrd Hp Hdot Hu Hf Hpin Hki Hkd Hkim.
  eapply (run_honoured root canonical pinned mtime now old allocated space k id d r); try done.
  - split; [done|]. intros D HD. unfold published in Hp. rewrite HD in Hp. by destruct (d_capture D).
  - intros key x Hx. by apply Hu.
  - intros key x Hx. by apply Hu.
Qed.

(** ** The budget *)

Lemma positions_NoDup f start es : NoDup (positions f start es).
Proof.
  revert start. induction es as [|e es IH]; intros start; simpl; [constructor|].
  destruct (f e); [|apply IH]. constructor; [|apply IH].
  intros (j & e' & Hj & _)%positions_spec. lia.
Qed.
#[local] Instance used_le_total es : Total (used_le es).
Proof. intros i j. unfold used_le. lia. Qed.

(** What is held and available once the chosen entries are forgotten. *)
Definition held_after (reclaims : nat -> Z) (held : Z) (l : list nat) : Z :=
  foldl (fun h i => saturating_sub h (reclaims i)) held l.
Definition available_after (reclaims : nat -> Z) (available : Z) (l : list nat) : Z :=
  foldl (fun a i => saturating_add 64 a (reclaims i)) available l.

Lemma choose_minimal b reclaims held available cs :
  exists m, choose b reclaims held available cs = take m cs /\ (m <= length cs)%nat
  /\ (forall j, (j < m)%nat ->
        fits b (held_after reclaims held (take j cs)) (available_after reclaims available (take j cs)) = false)
  /\ (m = length cs \/
      fits b (held_after reclaims held (take m cs)) (available_after reclaims available (take m cs)) = true).
Proof.
  revert held available. induction cs as [|c cs IH]; intros held available; simpl.
  { exists 0%nat. repeat split; [done|lia|by left]. }
  destruct (fits b held available) eqn:Ef.
  - exists 0%nat. repeat split; [lia|lia|]. by right.
  - destruct (IH (saturating_sub held (reclaims c)) (saturating_add 64 available (reclaims c)))
      as (m & -> & Hm & Hlt & Hend). exists (S m). split; [done|]. split; [lia|]. split.
    + intros [|j] Hj; [done|]. apply (Hlt j). lia.
    + destruct Hend as [->|Hend]; [by left|by right].
Qed.

(** Over budget, retention forgets least recently used first
    and no more than needed: the entries chosen are a prefix of the
    unkept entries past their grace in order of last use, every shorter
    prefix leaves the store over its budget or the file system below its
    reserve, and the chosen one ends that unless nothing else may go. *)
Theorem budget_minimal now p b reclaims held available es :
  let cs := candidates now p es in
  Sorted (used_le es) cs /\ NoDup cs
  /\ (forall i, i ∈ cs <-> exists e, es !! i = Some e /\ e_keep e = false /\ grace p <= idle now e)
  /\ exists m, over_budget now p b reclaims held available es = take m cs /\ (m <= length cs)%nat
     /\ (forall j, (j < m)%nat ->
           fits b (held_after reclaims held (take j cs)) (available_after reclaims available (take j cs)) = false)
     /\ (m = length cs \/
         fits b (held_after reclaims held (take m cs)) (available_after reclaims available (take m cs)) = true).
Proof.
  intros cs. assert (cs ≡ₚ positions (eligible now p) 0 es) as Hp by apply merge_sort_Permutation.
  split; [apply Sorted_merge_sort, _|]. split; [rewrite Hp; apply positions_NoDup|]. split.
  - intros i. rewrite Hp, positions_spec. unfold eligible. split.
    + intros (j & e & -> & He & Hf). exists e. bool_simpl. split; [done|]. split; [done|lia].
    + intros (e & He & Hk & Hg). exists i, e. split; [done|]. split; [done|]. rewrite Hk. simpl.
      apply Z.geb_le. lia.
  - unfold over_budget. destruct (fits b held available) eqn:Ef; [|apply choose_minimal].
    exists 0%nat. repeat split; [lia|lia|]. by right.
Qed.

(** ** Witnesses *)

Definition sample_id : bytes := replicate 32 97.
Definition sample_record : LineageRecord :=
  MkRecord sample_id None (bs "vm") (bs "2026-01-01T00:00:00Z") (bs "/s/published/vm-1").
Definition sample_node : NodeStore :=
  MkNode (MkStore ∅ ∅ {[bs "vm-1" := MkDir ∅ None ∅ false]})
    {[sample_id := Some sample_record]} ∅ {[sample_id := 0]}.
Definition sample_run (k : Keep) : result Report IoError * NodeStore :=
  run (bs "/s") None (fun _ => false) (fun _ => Some 5) 10 (fun _ => false) (fun _ => 0) None
    k policy_default sample_node.

Lemma sample_run_ok : is_ok (sample_run (MkKeep ∅ ∅)).1 = true.
Proof. vm_compute. reflexivity. Qed.

Lemma request_honoured_witness :
  exists rep n', sample_run (MkKeep ∅ ∅) = (Ok rep, n') /\ dirs (ns_store n') !! bs "vm-1" = None.
Proof.
  pose proof sample_run_ok as Hok. destruct (sample_run (MkKeep ∅ ∅)) as [[rep|] n'] eqn:E; [|discriminate Hok].
  exists rep, n'. split; [reflexivity|]. unfold sample_run in E.
  apply (request_honoured _ _ _ _ _ _ _ _ _ _ _ _ _ sample_id (bs "vm-1") sample_record E).
  - reflexivity.
  - reflexivity.
  - reflexivity.
  - reflexivity.
  - reflexivity.
  - intros key x Hx. cbn [sample_node records] in Hx. apply lookup_singleton_Some in Hx as [<- [= <-]].
    split; reflexivity.
  - eexists. reflexivity.
  - reflexivity.
  - apply not_elem_of_empty.
  - apply not_elem_of_empty.
  - apply not_elem_of_empty.
Defined.

Lemma retention_safe_witness :
  let k := MkKeep ∅ {[bs "vm-1"]} in
  dirs (ns_store (sample_run k).2) !! bs "vm-1" = Some (MkDir ∅ None ∅ false).
Proof.
  intros k. destruct (sample_run k) as [r n'] eqn:E. unfold sample_run in E. cbn [snd].
  destruct (@retention_safe CkptProps.sample_codec IndexSample.sample_index_codec (bs "/s") None (fun _ => false) (fun _ => Some 5) 10 (fun _ => false) (fun _ => 0) None
    k policy_default sample_node r n' E (bs "vm-1") (MkDir ∅ None ∅ false)) as [[Hd _]|[_ Hj]];
    [reflexivity|reflexivity|exact Hd|].
  exfalso. assert (bs "vm-1" ∈ k_dirs k) as Hin by (cbn [k k_dirs]; by apply elem_of_singleton).
  destruct Hj as [id _ (_ & _ & _ & Hn)|e id _ _ _ (_ & _ & _ & Hn)|e _ _ _ _ Hn]; exact (Hn Hin).
Defined.

End RetentionProps.
