(* ===== verification/CkptDelta.v ===== *)
(** * CkptDelta: moving checkpoints between nodes
    (the transfer functions of crates/smolvm-checkpoint/src/store.rs, and
    src/checkpoint_delta.rs)

    A stored checkpoint is exported as one file with its index and its
    objects, or as a delta without the objects its base holds. A node imports
    the file into its store, completing a delta from its own copy of the base,
    and materializes the files over the tree of the nearest ancestor it has.
    Pins are modelled in [Retention]; here they are taken and held. *)

From S2P Require Import Prelude RustStr ForkPool CkptStore Retention.

Module Delta.
Import Str Path Ckpt Retain.

Definition own_objects (index : Index) : gset bytes := list_to_set (index_hashes index).

Record ExportStats := MkExportStats { ex_objects : Z; ex_object_bytes : Z; ex_base_objects : Z }.

(** A chunked checkpoint file; [ef_base] names a delta's base by its id and
    the digest of its index. *)
Record ExportFile := MkExport {
  ef_chunked : bool;
  ef_lineage : option CheckpointLineage;
  ef_history : list Generation;
  ef_base : option (bytes * bytes);
  ef_index : Index;
  ef_objects : gmap bytes bytes;
}.

Definition bytes_le (a b : bytes) : Prop := Pool.bytes_leb a b = true.
#[export] Instance bytes_le_dec : RelDecision bytes_le := fun a b => decide (Pool.bytes_leb a b = true).

(** A materialized tree: contents and modes by the components of the paths. *)
Abbreviation Tree := (gmap (list bytes) (bytes * Z)).

(** A file of the base with its content and mode in the tree, and whether it
    opens. *)
Abbreviation BaseFile := (StoredFile * (bytes * Z) * bool)%type.

Section Transfer.
Context `{ObjectCodec} `{IndexCodec}.

Definition index_digest (s : Store) (dir : bytes) : result bytes IoError :=
  let? index := ok_or (d_index (dir_at s dir)) NotFound in
  if len (encode_index index) >? MAX_INDEX then Err InvalidData
  else Ok (digest (encode_index index)).

(** ** Export *)

(** The objects are linked, or copied, into the file. *)
Fixpoint export_objects (s : Store) (objs : gmap bytes Z) (skip : gset bytes) (hashes : list bytes)
    (st : ExportStats) (out : gmap bytes bytes) : result (ExportStats * gmap bytes bytes) IoError :=
  match hashes with
  | [] => Ok (st, out)
  | h :: hashes =>
      if bool_decide (h ∈ skip) then
        export_objects s objs skip hashes
          (MkExportStats (ex_objects st) (ex_object_bytes st) (ex_base_objects st + 1)) out
      else
        let? content := ok_or (let! i := objs !! h in inodes s !! i) NotFound in
        export_objects s objs skip hashes
          (MkExportStats (ex_objects st + 1) (ex_object_bytes st + len content) (ex_base_objects st))
          (<[h := content]> out)
  end.

Definition export_base (s : Store) (base : option bytes) (base_index : option Index) :
    result (option (bytes * bytes)) IoError :=
  match base, base_index with
  | Some base, Some index =>
      match (let! c := checkpoint (manifest index) in let! l := c in Some (cl_id l)) with
      | None => Err InvalidData
      | Some id => let? d := index_digest s base in Ok (Some (id, d))
      end
  | _, _ => Ok None
  end.

Definition export_chunked (s : Store) (dir : bytes) (base : option bytes) (output_exists : bool) :
    result (ExportStats * ExportFile) IoError :=
  if output_exists then Err AlreadyExists
  else
    let? own := read_index_at s dir None in
    let? base_index :=
      match base with
      | Some base => let? index := read_index_at s base None in Ok (Some index)
      | None => Ok None
      end in
    let skip := match base_index with Some index => own_objects index | None => ∅ end in
    match export_objects s (d_objects (dir_at s dir)) skip (elements (own_objects own))
            (MkExportStats 0 0 0) ∅ with
    | Err e => Err e
    | Ok (st, objs) =>
        match checkpoint (manifest own) with
        | None => Err InvalidData
        | Some lineage =>
            let? b := export_base s base base_index in
            Ok (st, MkExport true lineage (option_list (generation_of own false)) b own objs)
        end
    end.

(** ** Completing a delta *)

Definition missing_objects (s : Store) (dir : bytes) : result (list bytes) IoError :=
  let? index := read_index_at s dir None in
  Ok (merge_sort bytes_le
        (List.filter (fun h => negb (bool_decide (is_Some (d_objects (dir_at s dir) !! h))))
           (elements (own_objects index)))).

Fixpoint link_missing (dir base : bytes) (hashes : list bytes) (linked : Z) (s : Store) :
    result Z IoError * Store :=
  match hashes with
  | [] => (Ok linked, s)
  | h :: hashes =>
      match d_objects (dir_at s base) !! h with
      | None => (Err InvalidData, s)
      | Some i =>
          match d_objects (dir_at s dir) !! h with
          | Some _ => link_missing dir base hashes linked s
          | None => link_missing dir base hashes (linked + 1) (link_in_dir dir h i s)
          end
      end
  end.

Definition complete_from_base (dir base : bytes) (s : Store) : result Z IoError * Store :=
  match missing_objects s dir with
  | Err e => (Err e, s)
  | Ok missing => link_missing dir base missing 0 s
  end.

Definition adopt_objects (dir : bytes) (s : Store) : Z * Store :=
  foldl (fun acc kv =>
      match objects acc.2 !! kv.1 with
      | Some _ => acc
      | None => (acc.1 + 1, with_objects (insert kv.1 kv.2) acc.2)
      end) (0, s) (map_to_list (d_objects (dir_at s dir))).

(** ** Materializing over a base tree *)

(** A stored checkpoint and an untouched materialization of it; [bt_opens]
    says a file of it could be opened for reading. *)
Record BaseTree := MkBaseTree {
  bt_stored : bytes;
  bt_tree : Tree;
  bt_opens : bytes -> bool;
}.

Record MaterializeStats := MkMaterialize {
  linked_files : Z;
  linked_bytes : Z;
  copied_chunks : Z;
  written_chunks : Z;
}.

(** The base's files that are in its tree with their size. *)
Definition base_files (s : Store) (base : option BaseTree) : result (list BaseFile) IoError :=
  match base with
  | None => Ok []
  | Some b =>
      let? index := read_index_at s (bt_stored b) None in
      Ok (omap (fun file =>
        let! held := bt_tree b !! names (path file) in
        if len held.1 =? size file then Some (file, held, bt_opens b (path file)) else None) (files index))
  end.

(** A whole file of the base with the same chunks, size and mode, to link. *)
Definition whole (bfs : list BaseFile) (e : StoredFile) : option (bytes * Z) :=
  let! f := List.find (fun f => bool_decide (chunks f.1.1 = chunks e /\ size f.1.1 = size e /\ mode f.1.1 = mode e)) bfs in
  Some f.1.2.

(** The first full chunk of the base with a digest. *)
Fixpoint locate_in (file : StoredFile) (index : Z) (cs : list (option bytes)) (h : bytes) : option Z :=
  match cs with
  | [] => None
  | c :: cs =>
      if bool_decide (c = Some h) && (size file - index * CHUNK_SIZE >=? CHUNK_SIZE)
      then Some (index * CHUNK_SIZE) else locate_in file (index + 1) cs h
  end.
Fixpoint located (bfs : list BaseFile) (h : bytes) : option (bytes * bool * Z) :=
  match bfs with
  | [] => None
  | (file, held, opens) :: bfs =>
      match locate_in file 0 (chunks file) h with
      | Some at_ => Some (held.1, opens, at_)
      | None => located bfs h
      end
  end.

Definition over_chunk (s : Store) (objs : gmap bytes Z) (bfs : list BaseFile) (sz : Z)
    (acc : bytes * MaterializeStats) (index : Z) (hash : option bytes) :
    result (bytes * MaterializeStats) IoError :=
  let '(f, st) := acc in
  match hash with
  | None => Ok acc
  | Some h =>
      let offset := index * CHUNK_SIZE in
      let count := Z.min (sz - offset) CHUNK_SIZE in
      match (if count =? CHUNK_SIZE then located bfs h else None) with
      | Some (content, true, at_) =>
          Ok (write_at f offset (slice content at_ (at_ + count)),
              MkMaterialize (linked_files st) (linked_bytes st) (copied_chunks st + 1) (written_chunks st))
      | _ =>
          let? b := read_object s (objs !! h) h count in
          Ok (write_at f offset b,
              MkMaterialize (linked_files st) (linked_bytes st) (copied_chunks st) (written_chunks st + 1))
      end
  end.

Fixpoint over_chunks (s : Store) (objs : gmap bytes Z) (bfs : list BaseFile) (sz : Z)
    (acc : bytes * MaterializeStats) (index : Z) (cs : list (option bytes)) :
    result (bytes * MaterializeStats) IoError :=
  match cs with
  | [] => Ok acc
  | c :: cs =>
      let? acc := over_chunk s objs bfs sz acc index c in
      over_chunks s objs bfs sz acc (index + 1) cs
  end.

Definition over_file (s : Store) (objs : gmap bytes Z) (bfs : list BaseFile)
    (e : StoredFile) (st : MaterializeStats) : result (bytes * Z * MaterializeStats) IoError :=
  match whole bfs e with
  | Some held =>
      Ok (held, MkMaterialize (linked_files st + 1) (linked_bytes st + size e) (copied_chunks st) (written_chunks st))
  | None =>
      let? acc := over_chunks s objs bfs (size e) (zeros (size e), st) 0 (chunks e) in
      Ok (acc.1, mode e, acc.2)
  end.

(** Two files conflict as in a restore. *)
Fixpoint over_files (s : Store) (objs : gmap bytes Z) (bfs : list BaseFile)
    (fs : list StoredFile) (out : Tree) (st : MaterializeStats) : result (Tree * MaterializeStats) IoError :=
  match fs with
  | [] => Ok (out, st)
  | e :: fs =>
      let p := names (path e) in
      if existsb (fun kv => bool_decide (kv.1 `prefix_of` p /\ kv.1 <> p)) (map_to_list out)
      then Err NotADirectory
      else if existsb (fun kv => bool_decide (p `prefix_of` kv.1)) (map_to_list out)
      then Err AlreadyExists
      else
        match over_file s objs bfs e st with
        | Err e => Err e
        | Ok (file, st) => over_files s objs bfs fs (<[p := file]> out) st
        end
  end.

Definition materialize_over (s : Store) (dir : bytes) (base : option BaseTree) :
    result (Tree * MaterializeStats) IoError :=
  let? index := read_index_at s dir None in
  let? bfs := base_files s base in
  over_files s (d_objects (dir_at s dir)) bfs (files index) ∅ (MkMaterialize 0 0 0 0).
End Transfer.

(** ** The node *)

Inductive RestoreError :=
| Io (e : IoError)
| Incompatible
| NoId
| BaseNotHeld (id : bytes)
| BaseMismatch (id : bytes)
| MissingObjects (count : Z).

Definition io {A} (r : result A IoError) : result A RestoreError :=
  match r with Ok v => Ok v | Err e => Err (Io e) end.

Record Imported := MkImported {
  im_id : bytes;
  im_directory : bytes;
  im_base : option bytes;
  im_base_objects : Z;
  im_already_held : bool;
}.

(** The shared extraction directory, and which tree a checkpoint has there. *)
Record Restorer := MkRestorer {
  node : NodeStore;
  trees : gmap bytes (Tree * bool);  (* with the marker of a finished extraction *)
  materialized : gmap bytes bytes;
}.

Section Node.
Context `{ObjectCodec} `{IndexCodec}.
Context (root : bytes) (canonical : option (list Component)) (now : Z).
(** The outcome of the version check, and an unused staging name. *)
Context (compatible : bool) (staging : bytes).

(** The directory a record names: by its name in the published directory, or
    by its path elsewhere. *)
Definition record_key (r : LineageRecord) : bytes :=
  match record_dir root canonical r with Some dir => dir | None => bs "/" ++ lr_path r end.

Definition held_checkpoint (id : bytes) (n : NodeStore) : result (option bytes) RestoreError :=
  let? record := io (find_lineage id n) in
  match record with
  | None => Ok None
  | Some r =>
      let dir := record_key r in
      match d_index (dir_at (ns_store n) dir) with
      | None => Ok None
      | Some _ =>
          let? missing := io (missing_objects (ns_store n) dir) in
          Ok (match missing with [] => Some dir | _ => None end)
      end
  end.

(** The base a delta names, as this node holds it. *)
Definition import_base (base : option (bytes * bytes)) (n : NodeStore) :
    result (option (bytes * bytes)) RestoreError * NodeStore :=
  match base with
  | None => (Ok None, n)
  | Some (id, index_sha256) =>
      let n := (pin now id n).2 in
      (match held_checkpoint id n with
       | Err e => Err e
       | Ok None => Err (BaseNotHeld id)
       | Ok (Some dir) =>
           let? d := io (index_digest (ns_store n) dir) in
           if bool_decide (d <> index_sha256) then Err (BaseMismatch id) else Ok (Some (id, dir))
       end, n)
  end.

(** The file's index and objects, in a private directory. *)
Definition unpack_object (s : Store) (kv : bytes * bytes) : Store :=
  let i := fresh_inode s in
  link_in_dir staging kv.1 i (MkStore (objects s) (<[i := kv.2]> (inodes s)) (dirs s)).
Definition unpack (x : ExportFile) (s : Store) : Store :=
  foldl unpack_object (with_dirs (insert staging (MkDir ∅ (Some (ef_index x)) ∅ true)) s)
    (map_to_list (ef_objects x)).
Definition drop_staging : NodeStore -> NodeStore := with_store (with_dirs (delete staging)).

Definition complete (base : option (bytes * bytes)) (s : Store) : result Z IoError * Store :=
  match base with
  | Some (_, dir) => complete_from_base staging dir s
  | None => (Ok 0, s)
  end.

Definition record_path (dir : bytes) : bytes := root ++ bs "/published/" ++ dir.
Definition finish_register (l : CheckpointLineage) (base : option (bytes * bytes)) (linked : Z) (dir : bytes)
    (n : NodeStore) : result (option Imported) RestoreError * NodeStore :=
  let n := with_store (fun s => (adopt_objects dir s).2) n in
  let '(r, n) := record_lineage
    (MkRecord (cl_id l) (cl_parent l) (cl_machine l) (cl_created_at l) (record_path dir)) n in
  (let? _ := io r in
   Ok (Some (MkImported (cl_id l) dir (option_map fst base) linked false)), n).

(** Under its own name, in the object cache and in the lineage index. *)
Definition register (l : CheckpointLineage) (base : option (bytes * bytes)) (linked : Z) (n : NodeStore) :
    result (option Imported) RestoreError * NodeStore :=
  let dir := imported_name (cl_id l) in
  match publish staging dir (ns_store n) with
  | (Err e, _) =>
      if bool_decide (e = AlreadyExists) then finish_register l base linked dir (drop_staging n)
      else (Err (Io e), drop_staging n)
  | (Ok _, s) => finish_register l base linked dir (with_store (fun _ => s) n)
  end.

Definition import_new (x : ExportFile) (l : CheckpointLineage) (n : NodeStore) :
    result (option Imported) RestoreError * NodeStore :=
  match import_base (ef_base x) n with
  | (Err e, n) => (Err e, n)
  | (Ok base, n) =>
      let n := with_store (unpack x) n in
      match complete base (ns_store n) with
      | (Err e, s) => (Err (Io e), drop_staging (with_store (fun _ => s) n))
      | (Ok linked, s) =>
          let n := with_store (fun _ => s) n in
          match missing_objects (ns_store n) staging with
          | Err e => (Err (Io e), drop_staging n)
          | Ok [] => register l base linked n
          | Ok missing => (Err (MissingObjects (len missing)), drop_staging n)
          end
      end
  end.

Definition import (x : ExportFile) (n : NodeStore) : result (option Imported) RestoreError * NodeStore :=
  if negb (ef_chunked x) then (Ok None, n)
  else if negb compatible then (Err Incompatible, n)
  else
    match ef_lineage x with
    | None => (Err NoId, n)
    | Some l =>
        let n := (pin now (cl_id l) n).2 in
        match held_checkpoint (cl_id l) n with
        | Err e => (Err e, n)
        | Ok (Some dir) =>
            (Ok (Some (MkImported (cl_id l) dir (option_map fst (ef_base x)) 0 true)), n)
        | Ok None => import_new x l n
        end
    end.

(** ** Restoring *)

(** The nearest ancestor with a tree, at most 64 steps up. *)
Fixpoint nearest_tree (fuel : nat) (cursor : option bytes) (r : Restorer) :
    result (option (bytes * bytes)) RestoreError * Restorer :=
  match fuel, cursor with
  | S fuel, Some id =>
      let r := MkRestorer (pin now id (node r)).2 (trees r) (materialized r) in
      match held_checkpoint id (node r) with
      | Err e => (Err e, r)
      | Ok stored =>
          let found :=
            let! tree := materialized r !! id in
            let! dir := stored in
            let! t := trees r !! tree in
            if t.2 : bool then Some (dir, tree) else None in
          match found with
          | Some base => (Ok (Some base), r)
          | None =>
              match find_lineage id (node r) with
              | Err e => (Err (Io e), r)
              | Ok record => nearest_tree fuel (let! rec := record in lr_parent rec) r
              end
          end
      end
  | _, _ => (Ok None, r)
  end.

Definition tree_at (r : Restorer) (tree : bytes) : Tree :=
  match trees r !! tree with Some (t, _) => t | None => ∅ end.

(** The finished tree takes its name unless something stands there. *)
Definition publish_tree (shared id : bytes) (t : Tree) (r : Restorer) : result (option bytes) RestoreError * Restorer :=
  match trees r !! shared with
  | None => (Ok (Some shared), MkRestorer (node r) (<[shared := (t, true)]> (trees r)) (<[id := shared]> (materialized r)))
  | Some (_, true) => (Ok (Some shared), MkRestorer (node r) (trees r) (<[id := shared]> (materialized r)))
  | Some (_, false) => (Err (Io AlreadyExists), r)
  end.

Definition restore_over (opens : bytes -> bool) (shared : bytes) (im : Imported) (r : Restorer) :
    result (option bytes) RestoreError * Restorer :=
  match find_lineage (im_id im) (node r) with
  | Err e => (Err (Io e), r)
  | Ok record =>
      match nearest_tree 64 (let! rec := record in lr_parent rec) r with
      | (Err e, r) => (Err e, r)
      | (Ok base, r) =>
          match materialize_over (ns_store (node r)) (im_directory im)
                  (let! b := base in Some (MkBaseTree b.1 (tree_at r b.2) opens)) with
          | Err e => (Err (Io e), r)
          | Ok (t, _) => publish_tree shared (im_id im) t r
          end
      end
  end.

(** [shared] is the directory the file's checksum names. *)
Definition prepare_restore (opens : bytes -> bool) (shared : bytes) (x : ExportFile) (r : Restorer) :
    result (option bytes) RestoreError * Restorer :=
  match trees r !! shared with
  | Some (_, true) => (Ok (if ef_chunked x then Some shared else None), r)
  | _ =>
      match import x (node r) with
      | (Err e, n) => (Err e, MkRestorer n (trees r) (materialized r))
      | (Ok None, n) => (Ok None, MkRestorer n (trees r) (materialized r))
      | (Ok (Some im), n) => restore_over opens shared im (MkRestorer n (trees r) (materialized r))
      end
  end.
End Node.
End Delta.
