(* ===== verification/CkptDeltaFacts.v ===== *)
(** * CkptDeltaFacts: what the steps of a checkpoint transfer do

    Files are determined by their verified chunks; what an export carries, and
    the directory an import makes of it. *)

From S2P Require Import Prelude RustStr ForkPool CkptStore CkptFacts CkptRestore CkptCapture CkptProps.
From S2P Require Import CkptPrune Retention CkptDelta.

Module DeltaFacts.
Import Str StrFacts Path Ckpt CkptFacts RestoreFacts CaptureFacts Retain Delta.

Section Codec.
Context `{ObjectCodec} `{IndexCodec}.

(** ** A file is determined by its verified chunks *)

Lemma splits_total (data : bytes) : exists cs, splits data cs.
Proof using.
  remember (length data) as n eqn:Hn. revert data Hn. induction (lt_wf n) as [n _ IH]. intros data ->.
  destruct (decide (data = [])) as [->|Hne]; [exists []; constructor|].
  destruct (IH (length (drop (Z.to_nat (Z.min (len data) CHUNK_SIZE)) data))) with (data := drop (Z.to_nat (Z.min (len data) CHUNK_SIZE)) data) as [cs Hcs]; [|done|].
  { rewrite length_drop. destruct data; [done|]. unfold len, CHUNK_SIZE. simpl. lia. }
  eexists. by apply splits_step.
Qed.

Lemma get_in_range {A} (l : list A) k : 0 <= k < len l -> exists x, get l k = Some x.
Proof using.
  intros Hk. unfold get, len in *. destruct (Z.ltb_spec k 0); [lia|].
  apply lookup_lt_is_Some_2. lia.
Qed.

(** No two byte strings have the same one of these digests. *)
Definition unambiguous (hs : list bytes) : Prop :=
  forall h b b', h ∈ hs -> digest b = h -> digest b' = h -> b = b'.

Lemma verified_unique e f g :
  len (chunks e) = div_ceil (size e) CHUNK_SIZE -> unambiguous (omap id (chunks e)) ->
  file_verified e f -> file_verified e g -> f = g.
Proof using.
  intros Hc Hu [Hlf Hf] [Hlg Hg]. destruct (splits_total g) as [cs Hcs].
  eapply pieces_determine; [done|congruence|]. intros k b Hk. rewrite Hlg.
  rewrite <- (splits_pieces g cs Hcs k b Hk), Hlg.
  assert (exists c, get (chunks e) k = Some c) as [c Hkc].
  { apply get_Some_lt in Hk. rewrite (splits_count _ _ Hcs), Hlg, <- Hc in Hk. by apply get_in_range. }
  specialize (Hf k c Hkc). specialize (Hg k c Hkc). destruct c as [h|]; simpl in *.
  - apply (Hu h); [|done|done]. apply list_elem_of_omap. exists (Some h). split; [by eapply get_elem|done].
  - apply zero_filled_zeros in Hf, Hg. rewrite Hf, Hg. f_equal.
    pose proof (get_Some_lt _ _ _ Hkc) as Hr. destruct (chunk_range (size e) (chunks e) Hc k Hr) as (? & ? & ?).
    unfold piece_at, len, slice. rewrite !length_take, !length_drop. unfold len in *. lia.
Qed.

(** ** Materializing over a base *)

(** The base's files are what its index says. *)
Definition base_verified (bfs : list BaseFile) : Prop :=
  Forall (fun f => file_verified f.1.1 f.1.2.1 /\ f.1.2.2 = mode f.1.1) bfs.

Lemma locate_in_spec file h cs index at_ :
  locate_in file index cs h = Some at_ ->
  exists k, 0 <= k < len cs /\ get cs k = Some (Some h) /\ at_ = (index + k) * CHUNK_SIZE
    /\ CHUNK_SIZE <= size file - at_.
Proof using.
  revert index. induction cs as [|c cs IH]; intros index; cbn [locate_in]; [done|].
  destruct (bool_decide (c = Some h) && _) eqn:E.
  - intros [= <-]. apply andb_true_iff in E as [->%bool_decide_eq_true_1 Hs]. exists 0.
    split; [unfold len; simpl; lia|]. split; [done|]. lia.
  - intros (k & Hk & Hg & -> & Hs)%IH. exists (k + 1). split; [unfold len in *; simpl in *; lia|].
    rewrite get_cons. destruct (Z.ltb_spec k 0); [lia|]. split; [done|]. split; [f_equal; lia|lia].
Qed.

Lemma located_spec bfs h content opens at_ :
  base_verified bfs -> located bfs h = Some (content, opens, at_) ->
  digest (slice content at_ (at_ + CHUNK_SIZE)) = h.
Proof using.
  induction 1 as [|[[file c] o] bfs [[Hl Hv] _] _ IH]; cbn [located]; [done|].
  destruct (locate_in file 0 (chunks file) h) as [a|] eqn:El; [|done].
  intros [= <- <- <-]. apply locate_in_spec in El as (k & Hk & Hg & -> & Hs).
  specialize (Hv k (Some h) Hg). simpl in *. rewrite <- Hv. unfold piece_at. rewrite Z.add_0_l in *.
  by rewrite Z.min_r by lia.
Qed.

Lemma fresh_chunk s objs sz f k c :
  restore_chunk s objs sz false false [] None f k c =
  match c with
  | None => Ok f
  | Some h => let? b := read_object s (objs !! h) h (Z.min (sz - k * CHUNK_SIZE) CHUNK_SIZE) in
              Ok (write_at f (k * CHUNK_SIZE) b)
  end.
Proof using.
  unfold restore_chunk. assert (get (@nil (option bytes)) k = None) as ->.
  { unfold get. destruct (k <? 0); [done|]. apply lookup_nil. }
  rewrite bool_decide_eq_false_2 by done. simpl. by destruct c.
Qed.

Lemma over_chunks_same s objs bfs sz cs k f st g :
  base_verified bfs -> unambiguous (omap id cs) ->
  restore_chunks s objs sz false false [] None f k cs = Ok g ->
  exists st', over_chunks s objs bfs sz (f, st) k cs = Ok (g, st').
Proof using.
  intros Hb. revert k f st. induction cs as [|c cs IH]; intros k f st Hu; cbn [restore_chunks over_chunks].
  { intros [= <-]. by eexists. }
  rewrite fresh_chunk.
  assert (unambiguous (omap id cs)) as Hu'.
  { intros h b b' Hh. apply Hu. destruct c; simpl; [by right|done]. }
  destruct c as [h|]; [|by apply IH]. unfold over_chunk.
  destruct (read_object s (objs !! h) h _) as [b|] eqn:Er; cbn [result_bind]; [|done]. intros Hr.
  destruct (read_object_digest _ _ _ _ _ Er) as [Hd Hl].
  destruct (if _ =? CHUNK_SIZE then located bfs h else None) as [[[content []] a]|] eqn:El;
    [|cbn [result_bind]; by apply IH|cbn [result_bind]; by apply IH].
  destruct (Z.eqb_spec (Z.min (sz - k * CHUNK_SIZE) CHUNK_SIZE) CHUNK_SIZE) as [Hc|]; [|done].
  rewrite Hc. apply located_spec in El; [|done].
  rewrite (Hu h (slice content a (a + CHUNK_SIZE)) b) by (by left || done). cbn [result_bind]. by apply IH.
Qed.

Lemma whole_spec bfs e held :
  base_verified bfs -> whole bfs e = Some held -> file_verified e held.1 /\ held.2 = mode e.
Proof using.
  intros Hb. unfold whole. destruct (find _ bfs) as [[[file c] o]|] eqn:Ef; [|done]. intros [= <-].
  apply find_some in Ef as [Hin Hk]. apply bool_decide_eq_true_1 in Hk as (Hc & Hs & Hm). simpl in *.
  apply list_elem_of_In in Hin. unfold base_verified in Hb. rewrite Forall_forall in Hb.
  destruct (Hb _ Hin) as [[Hl Hv] Hmode]. simpl in *. split; [|congruence].
  split; [congruence|]. rewrite <- Hc, <- Hs. exact Hv.
Qed.

Lemma fresh_verified s objs e f :
  0 <= size e -> len (chunks e) = div_ceil (size e) CHUNK_SIZE ->
  restore_file s objs None e = Ok f -> file_verified e f.
Proof using.
  intros Hs Hc Hr. unfold restore_file in Hr. simpl in Hr.
  destruct (restore_fresh_sound s objs e Hs Hc
    (fun k b => forall c, get (chunks e) k = Some c -> verified c b)) with (f := f) as [Hl Hk]; [| |done|].
  - intros k h b Hk Hd _ c Hk'. rewrite Hk in Hk'. by injection Hk' as <-.
  - intros k b Hk Hz _ c Hk'. rewrite Hk in Hk'. by injection Hk' as <-.
  - split; [done|]. intros k c Hc'. apply (Hk k); [by eapply get_Some_lt|done].
Qed.

Lemma over_file_same s objs bfs e st f :
  base_verified bfs -> unambiguous (omap id (chunks e)) -> 0 <= size e ->
  len (chunks e) = div_ceil (size e) CHUNK_SIZE -> restore_file s objs None e = Ok f ->
  exists st', over_file s objs bfs e st = Ok (f, mode e, st').
Proof using.
  intros Hb Hu Hs Hc Hr. unfold over_file. destruct (whole bfs e) as [[content md]|] eqn:Ew.
  - apply whole_spec in Ew as [Hv Hm]; [|done]. apply fresh_verified in Hr; [|done|done]. simpl in *.
    rewrite (verified_unique e content f), Hm by done. by eexists.
  - destruct (over_chunks_same s objs bfs (size e) (chunks e) 0 (zeros (size e)) st f) as [st' ->]; [done..|].
    by eexists.
Qed.

Lemma over_files_same s objs bfs es out r st :
  base_verified bfs -> unambiguous (omap id (mjoin (map chunks es))) ->
  Forall (fun e => 0 <= size e /\ len (chunks e) = div_ceil (size e) CHUNK_SIZE) es ->
  restore_files s objs None es out = Ok r -> exists st', over_files s objs bfs es out st = Ok (r, st').
Proof using.
  intros Hb. revert out st. induction es as [|e es IH]; intros out st Hu Hw; cbn [restore_files over_files].
  { intros [= <-]. by eexists. }
  apply Forall_cons in Hw as [[Hs Hc] Hw].
  destruct (existsb _ _); [done|]. destruct (existsb _ _); [done|].
  destruct (restore_file s objs None e) as [f|] eqn:Ef; [|done]. cbn [result_bind]. intros Hr.
  assert (unambiguous (omap id (chunks e)) /\ unambiguous (omap id (mjoin (map chunks es)))) as [Hu1 Hu2].
  { cbn [map mjoin list_join] in Hu. rewrite omap_app in Hu.
    split; intros h b b' Hh; apply Hu, elem_of_app; [by left|by right]. }
  destruct (over_file_same s objs bfs e st f Hb Hu1 Hs Hc Ef) as [st1 ->]. by apply IH.
Qed.

(** ** Restores read objects only *)

Lemma read_object_content s s' l l' h n :
  (let! i := l in inodes s !! i) = (let! i := l' in inodes s' !! i) ->
  read_object s l h n = read_object s' l' h n.
Proof using. intros Hc. unfold read_object, decode_object. by rewrite Hc. Qed.

Section TwoStores.
Context (sA sB : Store) (objsA objsB : gmap bytes Z).

Definition reads_alike (hs : list bytes) : Prop :=
  forall h n b, h ∈ hs -> read_object sA (objsA !! h) h n = Ok b -> read_object sB (objsB !! h) h n = Ok b.

Lemma restore_chunks_alike sz f k cs g :
  reads_alike (omap id cs) -> restore_chunks sA objsA sz false false [] None f k cs = Ok g ->
  restore_chunks sB objsB sz false false [] None f k cs = Ok g.
Proof using.
  revert k f. induction cs as [|c cs IH]; intros k f Ha; cbn [restore_chunks]; [done|]. rewrite !fresh_chunk.
  assert (reads_alike (omap id cs)) as Ha'.
  { intros h n b Hh. apply Ha. destruct c; simpl; [by right|done]. }
  destruct c as [h|]; [|by apply IH].
  destruct (read_object sA _ h _) as [b|] eqn:Er; [|done]. apply Ha in Er; [|by left]. rewrite Er.
  cbn [result_bind]. by apply IH.
Qed.

Lemma restore_files_alike es out r :
  reads_alike (omap id (mjoin (map chunks es))) ->
  restore_files sA objsA None es out = Ok r -> restore_files sB objsB None es out = Ok r.
Proof using.
  revert out. induction es as [|e es IH]; intros out Ha; cbn [restore_files]; [done|].
  cbn [map mjoin list_join] in Ha. rewrite omap_app in Ha.
  destruct (existsb _ _); [done|]. destruct (existsb _ _); [done|].
  destruct (restore_file sA objsA None e) as [f|] eqn:Ef; [|done].
  unfold restore_file in *. cbn [base_entry mbind option_bind] in *.
  rewrite (restore_chunks_alike _ _ _ _ f); [|intros h n b Hh; apply Ha, elem_of_app; by left|done].
  cbn [result_bind]. apply IH. intros h n b Hh. apply Ha, elem_of_app. by right.
Qed.
End TwoStores.

(** ** What an export carries *)

Lemma export_objects_spec s objs skip hs st out st' out' :
  NoDup hs -> (forall h, h ∈ hs -> out !! h = None) ->
  export_objects s objs skip hs st out = Ok (st', out') ->
  (forall h, h ∈ hs -> h ∉ skip -> exists c, (let! i := objs !! h in inodes s !! i) = Some c /\ out' !! h = Some c)
  /\ (forall h, h ∉ hs \/ h ∈ skip -> out' !! h = out !! h).
Proof using.
  intros Hnd. revert st out. induction Hnd as [|h hs Hh Hnd IH]; intros st out Hout; cbn [export_objects].
  { intros [= _ <-]. split; [by intros h Hh%not_elem_of_nil|done]. }
  case_bool_decide as Hs.
  - intros Hr. apply IH in Hr as [H1 H2]; [|intros h' Hh'; apply Hout; by right]. split.
    + intros h' [->|Hh']%elem_of_cons Hns; [done|by apply H1].
    + intros h' Hh'. apply H2. destruct Hh' as [Hn|]; [left|by right]. intros ?. apply Hn. by right.
  - destruct (let! i := objs !! h in inodes s !! i) as [c|] eqn:Ec; cbn [ok_or result_bind]; [|done].
    intros Hr. apply IH in Hr as [H1 H2].
    2: { intros h' Hh'. rewrite lookup_insert_ne by (intros ->; done). apply Hout. by right. }
    split.
    + intros h' [->|Hh']%elem_of_cons Hns; [|by apply H1]. exists c. split; [done|].
      rewrite H2 by (by left). by rewrite lookup_insert_eq.
    + intros h' Hh'. rewrite H2.
      * rewrite lookup_insert_ne; [done|]. intros ->. destruct Hh' as [Hn|]; [apply Hn; by left|done].
      * destruct Hh' as [Hn|]; [left|by right]. intros ?. apply Hn. by right.
Qed.

(** ** What an import makes *)

(** A directory of [s'] beside those of [s], with some objects. *)
Record staged (dir : bytes) (s s' : Store) (index : Index) (objs : gmap bytes Z) : Prop := MkStaged {
  st_inodes : inodes s ⊆ inodes s';
  st_objects : objects s' = objects s;
  st_others : forall d, d <> dir -> dirs s' !! d = dirs s !! d;
  st_dir : dirs s' !! dir = Some (MkDir objs (Some index) ∅ true);
}.

Lemma unpack_object_spec dir s s' index objs h c :
  staged dir s s' index objs -> objs !! h = None ->
  exists j, staged dir s (unpack_object dir s' (h, c)) index (<[h := j]> objs)
    /\ inodes (unpack_object dir s' (h, c)) !! j = Some c /\ inodes s' ⊆ inodes (unpack_object dir s' (h, c)).
Proof using.
  intros [Hi Ho Hd Hs] Hh. exists (fresh_inode s').
  assert (inodes s' ⊆ <[fresh_inode s' := c]> (inodes s')) as Hsub by (apply insert_subseteq, fresh_inode_fresh).
  unfold unpack_object, link_in_dir, with_dirs. cbn [fst snd inodes objects dirs]. split_and!.
  - split; cbn [inodes objects dirs]; [by etrans|done| |].
    + intros d Hne. rewrite lookup_alter_ne by done. by apply Hd.
    + rewrite lookup_alter_eq, Hs. done.
  - apply lookup_insert_eq.
  - done.
Qed.

Lemma unpack_all_spec dir s s' index objs (l : list (bytes * bytes)) :
  staged dir s s' index objs -> NoDup (map fst l) -> (forall h, h ∈ map fst l -> objs !! h = None) ->
  let s2 := foldl (unpack_object dir) s' l in
  inodes s' ⊆ inodes s2 /\ exists objs', staged dir s s2 index objs'
    /\ (forall h c, (h, c) ∈ l -> exists j, objs' !! h = Some j /\ inodes s2 !! j = Some c)
    /\ (forall h, h ∉ map fst l -> objs' !! h = objs !! h).
Proof using.
  revert s' objs. induction l as [|[h c] l IH]; intros s' objs Hs Hnd Hn; simpl.
  { split; [done|]. exists objs. split; [done|]. split; [by intros ?? ?%not_elem_of_nil|done]. }
  apply NoDup_cons in Hnd as [Hh Hnd].
  destruct (unpack_object_spec dir s s' index objs h c Hs) as (j & Hs1 & Hj & Hsub); [apply Hn; by left|].
  destruct (IH _ _ Hs1 Hnd) as (Hsub2 & objs' & Hs2 & Ha & Hb).
  { intros h' Hh'. rewrite lookup_insert_ne by (intros ->; done). apply Hn. by right. }
  split; [by etrans|]. exists objs'. split; [done|]. split.
  - intros h' c' [[= -> ->]|Hin]%elem_of_cons; [|by apply Ha]. exists j. split.
    + rewrite Hb by done. by rewrite lookup_insert_eq.
    + by eapply lookup_weaken.
  - intros h' [Hne Hh']%not_elem_of_cons. rewrite Hb by done. by rewrite lookup_insert_ne.
Qed.

Lemma link_missing_spec dir base s s' index objs bobjs hs linked :
  staged dir s s' index objs -> base <> dir -> d_objects (dir_at s base) = bobjs ->
  (forall h, h ∈ hs -> is_Some (bobjs !! h) /\ objs !! h = None) -> NoDup hs ->
  exists s2 objs', link_missing dir base hs linked s' = (Ok (linked + len hs), s2)
    /\ inodes s2 = inodes s' /\ staged dir s s2 index objs'
    /\ (forall h, h ∈ hs -> objs' !! h = bobjs !! h) /\ (forall h, h ∉ hs -> objs' !! h = objs !! h).
Proof using.
  intros Hs Hne Hb Hhs Hnd. revert s' objs linked Hs Hhs.
  induction Hnd as [|h hs Hh Hnd IH]; intros s' objs linked Hs Hhs; cbn [link_missing].
  { exists s', objs. unfold len. simpl. rewrite Z.add_0_r. split_and!; [done|done|done| |done].
    by intros h Hh%not_elem_of_nil. }
  destruct (Hhs h) as [[i Hi] Ho]; [by left|]. pose proof Hs as [Hin Hob Hd Hst].
  assert (d_objects (dir_at s' base) !! h = Some i) as ->.
  { unfold dir_at. rewrite Hd by done. unfold dir_at in Hb. by rewrite Hb. }
  assert (d_objects (dir_at s' dir) !! h = None) as -> by (unfold dir_at; by rewrite Hst).
  destruct (IH (link_in_dir dir h i s') (<[h := i]> objs) (linked + 1)) as (s2 & objs' & E & Hi2 & Hs2 & Ha & Hc).
  - unfold link_in_dir, with_dirs. split; cbn [inodes objects dirs]; [done|done| |].
    + intros d Hnd'. rewrite lookup_alter_ne by done. by apply Hd.
    + by rewrite lookup_alter_eq, Hst.
  - intros h' Hh'. destruct (Hhs h') as [? ?]; [by right|]. split; [done|].
    rewrite lookup_insert_ne by (intros ->; done). done.
  - exists s2, objs'. rewrite E. split_and!; [do 2 f_equal; unfold len; simpl; lia|done|done| |].
    + intros h' [->|Hh']%elem_of_cons; [|by apply Ha]. rewrite Hc by done. by rewrite lookup_insert_eq.
    + intros h' [Hn1 Hn2]%not_elem_of_cons. rewrite Hc by done. by rewrite lookup_insert_ne.
Qed.

(** The object cache only gains links. *)
Lemma adopt_spec dir s :
  inodes (adopt_objects dir s).2 = inodes s /\ dirs (adopt_objects dir s).2 = dirs s.
Proof using.
  unfold adopt_objects. set (l := map_to_list _).
  assert (forall acc : Z * Store, inodes acc.2 = inodes s /\ dirs acc.2 = dirs s ->
    let r := foldl (fun acc kv => match objects acc.2 !! kv.1 with
               | Some _ => acc | None => (acc.1 + 1, with_objects (insert kv.1 kv.2) acc.2) end) acc l in
    inodes r.2 = inodes s /\ dirs r.2 = dirs s) as Hf; [|by apply (Hf (0, s))].
  induction l as [|kv l IH]; intros acc Ha; simpl; [done|]. apply IH. by destruct (objects acc.2 !! kv.1).
Qed.

Lemma adopt_objects_from dir s h i :
  objects (adopt_objects dir s).2 !! h = Some i ->
  objects s !! h = Some i \/ d_objects (dir_at s dir) !! h = Some i.
Proof using.
  unfold adopt_objects. set (l := map_to_list _).
  assert (forall acc : Z * Store,
    let r := foldl (fun acc kv => match objects acc.2 !! kv.1 with
               | Some _ => acc | None => (acc.1 + 1, with_objects (insert kv.1 kv.2) acc.2) end) acc l in
    objects r.2 !! h = Some i -> objects acc.2 !! h = Some i \/ (h, i) ∈ l) as Hf.
  { induction l as [|[k v] l IH]; intros acc; cbn [foldl fst snd]; [by left|].
    intros [Ho|Hin]%IH; [|right; by right]. destruct (objects acc.2 !! k) eqn:Ek; [by left|].
    cbn [snd with_objects objects] in Ho. destruct (decide (k = h)) as [->|].
    - rewrite lookup_insert_eq in Ho. injection Ho as ->. right. by left.
    - rewrite lookup_insert_ne in Ho by done. by left. }
  intros [|Hin]%(Hf (0, s)); [by left|]. right. by apply elem_of_map_to_list.
Qed.
End Codec.

(** ** Paths of the store *)

Lemma components_below root name :
  root <> [] -> 47 ∉ name -> component false name = [Normal name] ->
  components (root ++ bs "/published/" ++ name) = components root ++ [Normal (bs "published"); Normal name].
Proof.
  intros Hr Hn Hc.
  assert (split 47 (root ++ bs "/published/" ++ name) = split 47 root ++ [bs "published"; name]) as Hs.
  { change (bs "/published/" ++ name) with (47 :: bs "published" ++ 47 :: name).
    rewrite split_app, (split_app 47 (bs "published") name), (split_free 47 name) by done. done. }
  assert (forall first rest, mjoin (map (component first) (rest ++ [bs "published"; name]))
    = mjoin (map (component first) rest) ++ mjoin (map (component first) [bs "published"; name])) as Hm.
  { intros. by rewrite map_app, join_app. }
  assert (mjoin (map (component false) [bs "published"; name]) = [Normal (bs "published"); Normal name]) as Hl.
  { cbn [map mjoin list_join]. rewrite Hc. done. }
  destruct root as [|x root]; [done|].
  destruct (decide (x = 47)) as [->|Hx].
  - change (components ((47 :: root) ++ bs "/published/" ++ name))
      with (RootDir :: mjoin (map (component false) (split 47 ((47 :: root) ++ bs "/published/" ++ name)))).
    rewrite Hs, Hm, Hl. done.
  - assert (forall p, components (x :: p) =
      match split 47 (x :: p) with [] => [] | s :: rest => component true s ++ mjoin (map (component false) rest) end) as Hx'.
    { intros p. unfold components. destruct x as [|[]|]; try done. repeat (destruct p0; try done). }
    rewrite <- app_comm_cons, !Hx'. rewrite app_comm_cons, Hs.
    destruct (split 47 (x :: root)) as [|s rest] eqn:Es.
    { exfalso. simpl in Es. destruct (x =? 47); [done|]. by destruct (split 47 root). }
    cbn [app]. rewrite Hm, Hl. by rewrite app_assoc.
Qed.

Lemma imported_name_plain id :
  valid_generation_id id = true ->
  47 ∉ imported_name id /\ component false (imported_name id) = [Normal (imported_name id)].
Proof.
  unfold valid_generation_id. intros [Hl Hh]%andb_true_iff. unfold imported_name. split.
  - rewrite not_elem_of_app. split; [|by apply (bool_decide_unpack _); vm_compute]. intros Hin.
    rewrite forallb_forall in Hh. apply list_elem_of_In, Hh in Hin. by vm_compute in Hin.
  - unfold component. destruct id as [|x id]; [done|]. cbn [is_empty app].
    rewrite !bool_decide_eq_false_2; [done| |]; intros E%(f_equal length);
      change (bs ".checkpoint") with (46 :: bs "checkpoint") in E; simpl in E; rewrite length_app in E; simpl in E; lia.
Qed.

Section Node.
Context `{ObjectCodec} `{IndexCodec}.
Context (root : bytes) (canonical : option (list Component)) (now : Z) (staging : bytes).
Abbreviation held := (held_checkpoint root canonical).

Lemma record_dir_imported l dir :
  root <> [] -> valid_generation_id (cl_id l) = true -> dir = imported_name (cl_id l) ->
  record_dir root canonical (MkRecord (cl_id l) (cl_parent l) (cl_machine l) (cl_created_at l)
    (record_path root dir)) = Some dir.
Proof using.
  intros Hr Hv ->. destruct (imported_name_plain _ Hv) as [Hs Hc]. unfold record_dir, record_path. cbn [lr_path].
  rewrite components_below by done. unfold parent, file_name, published_dir.
  change [Normal (bs "published"); Normal (imported_name (cl_id l))]
    with ([Normal (bs "published")] ++ [Normal (imported_name (cl_id l))]).
  rewrite app_assoc, last_snoc, removelast_last. cbn [mbind option_bind].
  by rewrite bool_decide_eq_true_2.
Qed.

(** Pins are not looked at by a lookup. *)
Lemma held_pin id id' n : held id (pin now id' n).2 = held id n.
Proof using. unfold pin. by destruct (is_checkpoint_id id'). Qed.
Lemma pin_store id n : ns_store (pin now id n).2 = ns_store n /\ records (pin now id n).2 = records n.
Proof using. unfold pin. by destruct (is_checkpoint_id id). Qed.

Lemma missing_nil s dir :
  missing_objects s dir = Ok [] <->
  exists index, read_index_at s dir None = Ok index
    /\ forall h, h ∈ own_objects index -> is_Some (d_objects (dir_at s dir) !! h).
Proof using.
  unfold missing_objects. destruct (read_index_at s dir None) as [index|e]; cbn [result_bind]; [|split; [done|by intros (? & ? & _)]].
  set (l := List.filter _ _). split.
  - intros [= Hl]. exists index. split; [done|]. intros h Hh.
    assert (l = []) as Hl'.
    { apply Permutation_nil. rewrite <- Hl. apply merge_sort_Permutation. }
    destruct (decide (is_Some (d_objects (dir_at s dir) !! h))) as [|Hn]; [done|]. exfalso.
    assert (h ∈ l) as Hin; [|rewrite Hl' in Hin; by apply not_elem_of_nil in Hin].
    apply list_elem_of_In, filter_In. split; [by apply list_elem_of_In, elem_of_elements|].
    by rewrite bool_decide_eq_false_2.
  - intros (i & [= <-] & Ha). assert (l = []) as ->; [|done].
    destruct l as [|h l'] eqn:E; [done|]. assert (In h l) as Hin by (rewrite E; by left).
    apply filter_In in Hin as [Hin%list_elem_of_In%elem_of_elements Hb].
    by rewrite (bool_decide_eq_true_2 _ (Ha h Hin)) in Hb.
Qed.

Lemma held_spec id n dir :
  held id n = Ok (Some dir) ->
  exists index, read_index_at (ns_store n) dir None = Ok index
    /\ forall h, h ∈ own_objects index -> is_Some (d_objects (dir_at (ns_store n) dir) !! h).
Proof using.
  unfold held_checkpoint. destruct (find_lineage id n) as [record|]; [|done]. cbn [io result_bind].
  destruct record as [r|]; [|done]. set (d := record_key root canonical r). cbv zeta.
  destruct (d_index (dir_at (ns_store n) d)); [|done].
  destruct (missing_objects (ns_store n) d) as [[|]|] eqn:Em; [|done|done]. cbn [io result_bind].
  intros [= <-]. by apply missing_nil.
Qed.

Lemma read_staged s s' index objs :
  staged staging s s' index objs -> read_index_from index = Ok index ->
  read_index_at s' staging None = Ok index /\ d_objects (dir_at s' staging) = objs.
Proof using.
  intros [_ _ _ Hd] Hv. unfold read_index_at, dir_at. rewrite Hd. simpl. by rewrite Hv.
Qed.

(** The objects of the base a delta is completed from. *)
Definition base_objects_of (s : Store) (base : option (bytes * bytes)) : gmap bytes Z :=
  match base with Some (_, dir) => d_objects (dir_at s dir) | None => ∅ end.

Lemma complete_ok s s1 index objs base :
  staged staging s s1 index objs -> read_index_from index = Ok index ->
  (forall id dir, base = Some (id, dir) -> dir <> staging) ->
  (forall h, h ∈ own_objects index -> is_Some (objs !! h) \/ is_Some (base_objects_of s base !! h)) ->
  exists linked s2 objs', complete staging base s1 = (Ok linked, s2) /\ inodes s2 = inodes s1
    /\ staged staging s s2 index objs'
    /\ (forall h, h ∈ own_objects index -> is_Some (objs' !! h))
    /\ (forall h j, objs !! h = Some j -> objs' !! h = Some j)
    /\ (forall h, h ∈ own_objects index -> objs !! h = None -> objs' !! h = base_objects_of s base !! h)
    /\ (forall h j, objs' !! h = Some j -> objs !! h = Some j \/ base_objects_of s base !! h = Some j).
Proof using.
  intros Hs Hv Hne Hall. destruct (read_staged _ _ _ _ Hs Hv) as [Hr Ho].
  destruct base as [[id dir]|]; cbn [complete base_objects_of] in *.
  2: { exists 0, s1, objs. split_and!; [done|done|done| |done| |by left].
       - intros h Hh. destruct (Hall h Hh) as [|[? Hx]]; [done|]. by rewrite lookup_empty in Hx.
       - intros h Hh Hn. by rewrite Hn, lookup_empty. }
  unfold complete_from_base, missing_objects. rewrite Hr. cbn [result_bind]. rewrite Ho.
  set (l := List.filter _ _).
  assert (forall h, h ∈ merge_sort bytes_le l <-> h ∈ own_objects index /\ objs !! h = None) as Hl.
  { intros h. rewrite merge_sort_Permutation. unfold l. rewrite list_elem_of_In, filter_In, <- list_elem_of_In, elem_of_elements.
    rewrite negb_true_iff, bool_decide_eq_false, <- eq_None_not_Some. done. }
  destruct (link_missing_spec staging dir s s1 index objs (d_objects (dir_at s dir)) (merge_sort bytes_le l) 0)
    as (s2 & objs' & E & Hi & Hs2 & Ha & Hb); [done|by eapply Hne|done| | |].
  - intros h [Hh Hn]%Hl. split; [|done]. destruct (Hall h Hh) as [[? Hx]|]; [congruence|done].
  - rewrite merge_sort_Permutation. unfold l. apply NoDup_ListNoDup, List.NoDup_filter, NoDup_ListNoDup, NoDup_elements.
  - exists (0 + len (merge_sort bytes_le l)), s2, objs'. split_and!; [done|done|done| | | |].
    + intros h Hh. destruct (objs !! h) as [j|] eqn:Ej.
      * rewrite Hb; [by eexists|]. intros [_ ?]%Hl. congruence.
      * rewrite Ha by (by apply Hl). destruct (Hall h Hh) as [[? Hx]|]; [congruence|done].
    + intros h j Hj. rewrite Hb; [done|]. intros [_ ?]%Hl. congruence.
    + intros h Hh Hn. apply Ha. by apply Hl.
    + intros h j Hj. destruct (decide (h ∈ merge_sort bytes_le l)) as [Hin|Hin].
      * right. by rewrite <- Ha.
      * left. by rewrite <- Hb.
Qed.

(** A directory imported beside the others. *)
Record imported_at (dir : bytes) (index : Index) (n n' : NodeStore) (objs : gmap bytes Z) : Prop := MkImportedAt {
  ia_inodes : inodes (ns_store n) ⊆ inodes (ns_store n');
  ia_dir : dirs (ns_store n') !! dir = Some (MkDir objs (Some index) ∅ false);
  ia_others : forall d, d <> dir -> dirs (ns_store n') !! d = dirs (ns_store n) !! d;
  ia_objects : forall h i, objects (ns_store n') !! h = Some i ->
    objects (ns_store n) !! h = Some i \/ objs !! h = Some i;
}.

Lemma register_ok l base linked n n1 index objs :
  root <> [] -> valid_generation_id (cl_id l) = true ->
  dirs (ns_store n) !! staging = None -> dirs (ns_store n) !! imported_name (cl_id l) = None ->
  staging <> imported_name (cl_id l) -> staged staging (ns_store n) (ns_store n1) index objs -> records n1 = records n ->
  let dir := imported_name (cl_id l) in
  exists n2, register root staging l base linked n1
      = (Ok (Some (MkImported (cl_id l) dir (option_map (@fst bytes bytes) base) linked false)), n2)
    /\ imported_at dir index n n2 objs /\ inodes (ns_store n2) = inodes (ns_store n1)
    /\ records n2 = <[cl_id l := Some (MkRecord (cl_id l) (cl_parent l) (cl_machine l) (cl_created_at l)
         (record_path root dir))]> (records n).
Proof using.
  intros Hr Hv Hs0 Hd0 Hne [Hi Ho Hd Hs] Hrec dir. unfold register, publish. rewrite Hs. fold dir.
  rewrite Hd by done. fold dir in Hd0. rewrite Hd0. unfold finish_register, record_lineage. cbn [lr_id].
  rewrite Hv. cbn [io result_bind]. eexists. split; [reflexivity|].
  set (s2 := with_dirs _ (ns_store n1)). destruct (adopt_spec dir s2) as [Hai Had].
  split; [split|split]; cbn [with_records with_store ns_store records].
  - rewrite Hai. done.
  - rewrite Had. cbn [s2 with_dirs dirs]. by rewrite lookup_insert_eq.
  - intros d Hnd. rewrite Had. cbn [s2 with_dirs dirs]. rewrite lookup_insert_ne by done.
    destruct (decide (staging = d)) as [<-|]; [by rewrite lookup_delete_eq, Hs0|].
    rewrite lookup_delete_ne by done. by apply Hd.
  - intros h i [Hh|Hh]%adopt_objects_from; [left; by rewrite <- Ho|right].
    unfold dir_at in Hh. cbn [s2 with_dirs dirs] in Hh. by rewrite lookup_insert_eq in Hh.
  - by rewrite Hai.
  - by rewrite Hrec.
Qed.

Lemma read_index_own s dir index : read_index_at s dir None = Ok index ->
  d_index (dir_at s dir) = Some index /\ read_index_from index = Ok index.
Proof using.
  unfold read_index_at. destruct (d_index (dir_at s dir)) as [i|]; cbn [ok_or result_bind]; [|done].
  intros Hr. pose proof (proj1 (LineageFacts.read_index_from_Ok _ _) Hr) as [-> _]. done.
Qed.

Lemma export_spec sA dir base st x :
  export_chunked sA dir base false = Ok (st, x) ->
  read_index_at sA dir None = Ok (ef_index x) /\ ef_chunked x = true
  /\ exists skip,
     (match base with
      | None => ef_base x = None /\ skip = ∅
      | Some b => exists bi id, read_index_at sA b None = Ok bi /\ skip = own_objects bi
          /\ ef_base x = Some (id, digest (encode_index bi))
      end)
     /\ (forall h, h ∈ own_objects (ef_index x) -> h ∉ skip ->
          exists c, (let! i := d_objects (dir_at sA dir) !! h in inodes sA !! i) = Some c /\ ef_objects x !! h = Some c)
     /\ (forall h, h ∉ own_objects (ef_index x) \/ h ∈ skip -> ef_objects x !! h = None).
Proof using.
  unfold export_chunked. destruct (read_index_at sA dir None) as [own|] eqn:Eo; [|done]. cbn [result_bind].
  set (bi := match base with Some b => _ | None => _ end).
  destruct bi as [bidx|] eqn:Eb; [|done]. cbn [result_bind].
  set (skip := match bidx with Some index => own_objects index | None => ∅ end).
  destruct (export_objects _ _ _ _ _ _) as [[st' objs]|] eqn:Ee; [|done].
  apply export_objects_spec in Ee as [Ha Hb]; [|apply NoDup_elements|intros; apply lookup_empty].
  destruct (checkpoint (manifest own)) as [lineage|]; [|done].
  destruct (export_base sA base bidx) as [eb|] eqn:Ex; [|done]. cbn [result_bind]. intros [= <- <-].
  cbn [ef_index ef_chunked ef_base ef_objects]. split; [done|]. split; [done|]. exists skip. split_and!.
  - unfold bi in Eb. destruct base as [b|].
    + destruct (read_index_at sA b None) as [i|] eqn:Ei; [|done]. injection Eb as <-.
      unfold export_base in Ex. destruct (let! c := checkpoint (manifest i) in _) as [id|]; [|done].
      unfold index_digest in Ex. rewrite (proj1 (read_index_own _ _ _ Ei)) in Ex. cbn [ok_or result_bind] in Ex.
      destruct (len (encode_index i) >? _); [done|]. injection Ex as <-. by exists i, id.
    + injection Eb as <-. by injection Ex as <-.
  - intros h Hh Hs. apply Ha; [by apply elem_of_elements|done].
  - intros h Hh. rewrite Hb, lookup_empty; [done|]. destruct Hh; [left|by right]. by rewrite elem_of_elements.
Qed.

(** This node can take the checkpoint, and holds the base it names. *)
Record importable (l : CheckpointLineage) (n : NodeStore) : Prop := MkImportable {
  imp_root : root <> [];
  imp_id : valid_generation_id (cl_id l) = true;
  imp_new : held (cl_id l) n = Ok None;
  imp_staging : dirs (ns_store n) !! staging = None;
  imp_dir : dirs (ns_store n) !! imported_name (cl_id l) = None;
  imp_apart : staging <> imported_name (cl_id l);
}.
Definition base_present (x : ExportFile) (n : NodeStore) : Prop :=
  forall b d, ef_base x = Some (b, d) ->
    exists dir, held b n = Ok (Some dir) /\ index_digest (ns_store n) dir = Ok d.

Lemma import_base_ok x n :
  base_present x n ->
  exists base n1, import_base root canonical now (ef_base x) n = (Ok base, n1)
    /\ ns_store n1 = ns_store n /\ records n1 = records n
    /\ match ef_base x with
       | None => base = None
       | Some (b, d) => exists dir, base = Some (b, dir) /\ held b n = Ok (Some dir)
           /\ index_digest (ns_store n) dir = Ok d
       end.
Proof using.
  intros Hb. unfold import_base. destruct (ef_base x) as [[b d]|] eqn:Eb; [|by exists None, n].
  destruct (Hb b d Eb) as (dir & Hh & Hd). destruct (pin_store b n) as [Hs Hr].
  rewrite held_pin, Hh, Hs, Hd. cbn [io result_bind]. rewrite bool_decide_eq_false_2 by (intros []; done).
  exists (Some (b, dir)), (pin now b n).2. split_and!; [done|done|done|]. by exists dir.
Qed.

(** The private directory of an unpacked file. *)
Lemma unpack_ok x s :
  exists objs, staged staging s (unpack staging x s) (ef_index x) objs
    /\ (forall h c, ef_objects x !! h = Some c ->
          exists j, objs !! h = Some j /\ inodes (unpack staging x s) !! j = Some c)
    /\ (forall h, objs !! h = None <-> ef_objects x !! h = None).
Proof using.
  set (s0 := with_dirs (insert staging (MkDir ∅ (Some (ef_index x)) ∅ true)) s).
  assert (staged staging s s0 (ef_index x) ∅) as Hst.
  { split; cbn [s0 with_dirs inodes objects dirs]; [done|done| |by rewrite lookup_insert_eq].
    intros d Hd. by rewrite lookup_insert_ne. }
  destruct (unpack_all_spec staging s s0 (ef_index x) ∅ (map_to_list (ef_objects x)) Hst)
    as (_ & objs & Hs & Ho & Hn); [apply NoDup_fst_map_to_list|intros; apply lookup_empty|].
  exists objs. unfold unpack. split_and!; [done| |].
  - intros h c Hc. apply Ho. by apply elem_of_map_to_list.
  - intros h. split; intros Hnone.
    + destruct (ef_objects x !! h) as [c|] eqn:Ec; [|done].
      destruct (Ho h c) as (j & Hj & _); [by apply elem_of_map_to_list|congruence].
    + rewrite Hn; [apply lookup_empty|]. intros Hin. apply list_elem_of_fmap in Hin as ([h' c] & -> & Hin).
      apply elem_of_map_to_list in Hin. simpl in Hnone. congruence.
Qed.

Lemma import_new_ok x l n index :
  ef_index x = index -> read_index_from index = Ok index -> importable l n -> base_present x n ->
  (forall h, h ∈ own_objects index -> is_Some (ef_objects x !! h)
     \/ exists b d dir, ef_base x = Some (b, d) /\ held b n = Ok (Some dir)
         /\ is_Some (d_objects (dir_at (ns_store n) dir) !! h)) ->
  exists base linked objs n', import_new root canonical now staging x l n
      = (Ok (Some (MkImported (cl_id l) (imported_name (cl_id l)) (option_map (@fst bytes bytes) base) linked false)), n')
    /\ imported_at (imported_name (cl_id l)) index n n' objs
    /\ records n' = <[cl_id l := Some (MkRecord (cl_id l) (cl_parent l) (cl_machine l) (cl_created_at l)
          (record_path root (imported_name (cl_id l))))]> (records n)
    /\ (forall h, h ∈ own_objects index -> is_Some (objs !! h))
    /\ (forall h c, ef_objects x !! h = Some c -> exists j, objs !! h = Some j /\ inodes (ns_store n') !! j = Some c)
    /\ (forall h, h ∈ own_objects index -> ef_objects x !! h = None ->
          exists b d dir, ef_base x = Some (b, d) /\ held b n = Ok (Some dir)
            /\ objs !! h = d_objects (dir_at (ns_store n) dir) !! h)
    /\ (forall h j, objs !! h = Some j ->
          (exists c, ef_objects x !! h = Some c /\ inodes (ns_store n') !! j = Some c)
          \/ exists d, d_objects (dir_at (ns_store n) d) !! h = Some j).
Proof using.
  intros Hx Hv [Hr Hid _ Hs0 Hd0 Hne] Hb Hall.
  destruct (import_base_ok x n Hb) as (base & n1 & E1 & Hs1 & Hr1 & Hbase).
  unfold import_new. rewrite E1. set (n2 := with_store (unpack staging x) n1).
  destruct (unpack_ok x (ns_store n)) as (objs & Hs2 & Ho2 & Hdom). rewrite Hx in Hs2.
  assert (unpack staging x (ns_store n) = ns_store n2) as E2 by (cbn [n2 with_store ns_store]; by rewrite Hs1).
  rewrite E2 in *. clear E2.
  assert (forall b dir, held b n = Ok (Some dir) -> dir <> staging) as Hns.
  { intros b dir Hh ->. apply held_spec in Hh as (i & Hi & _). apply read_index_own in Hi as [Hi _].
    unfold dir_at in Hi. by rewrite Hs0 in Hi. }
  destruct (complete_ok (ns_store n) (ns_store n2) index objs base Hs2 Hv) as (linked & s3 & objs' & E3 & Hi3 & Hs3 & Ha3 & Hk3 & Hb3 & Hc3).
  { intros id dir ->. destruct (ef_base x) as [[b d]|]; [|done]. destruct Hbase as (? & [= <- <-] & Hh & _). by eapply Hns. }
  { intros h Hh. destruct (Hall h Hh) as [Hc|(b & d & dir & Heb & Hh' & Hd)].
    - left. apply not_eq_None_Some. rewrite Hdom. by apply not_eq_None_Some.
    - right. rewrite Heb in Hbase. destruct Hbase as (dir' & -> & Hh2 & _). cbn [base_objects_of].
      rewrite Hh' in Hh2. injection Hh2 as <-. done. }
  rewrite E3. cbn [with_store ns_store].
  set (n3 := with_store (fun _ => s3) n2).
  assert (missing_objects s3 staging = Ok []) as Hm.
  { apply missing_nil. destruct (read_staged _ _ _ _ Hs3 Hv) as [Hri Hoi]. exists index. split; [done|]. by rewrite Hoi. }
  cbn [n3 with_store ns_store] in *. rewrite Hm.
  destruct (register_ok l base linked n n3 index objs') as (n4 & E4 & Hat & Hi4 & Hr4); [done..|].
  fold n3. rewrite E4. exists base, linked, objs', n4. split_and!; [done|done|done|done| | |].
  - intros h c Hc. destruct (Ho2 h c Hc) as (j & Hj & Hjc).
    exists j. split; [by apply Hk3|]. rewrite Hi4. cbn [n3 with_store ns_store]. by rewrite Hi3.
  - intros h Hh Hn. destruct (Hall h Hh) as [[? ?]|(b & d & dir & Heb & Hh' & Hd)]; [congruence|].
    exists b, d, dir. split_and!; [done|done|]. rewrite Hb3 by (done || by apply Hdom).
    rewrite Heb in Hbase. destruct Hbase as (dir' & -> & Hh2 & _). cbn [base_objects_of].
    rewrite Hh' in Hh2. injection Hh2 as <-. done.
  - intros h j [Hj|Hj]%Hc3.
    + left. destruct (ef_objects x !! h) as [c|] eqn:Ec; [|apply Hdom in Ec; congruence].
      exists c. split; [done|]. destruct (Ho2 h c Ec) as (j' & Hj' & Hjc).
      rewrite Hi4. cbn [n3 with_store ns_store]. rewrite Hi3. congruence.
    + right. destruct base as [[b dir]|]; cbn [base_objects_of] in Hj; [by exists dir|]. by rewrite lookup_empty in Hj.
Qed.
End Node.
End DeltaFacts.
