(* ===== verification/CkptDeltaProps.v ===== *)
(** * CkptDeltaProps: a checkpoint moved to another node is the same one

    Materializing over a base tree gives what a full restore gives; a delta
    exported by one node and imported by another restores to the same files,
    and a refused import leaves the store as it was. *)

From S2P Require Import Prelude RustStr ForkPool CkptStore CkptFacts CkptRestore CkptCapture CkptProps.
From S2P Require Import CkptPrune Retention CkptDelta CkptDeltaFacts.

Module DeltaProps.
Import Str Path Ckpt CkptFacts RestoreFacts CaptureFacts CkptProps Retain Delta DeltaFacts.

Section Same.
Context `{ObjectCodec} `{IndexCodec}.

(** Sizes are unsigned, and the index names every chunk by a digest of its own. *)
Record plain (s : Store) (dir : bytes) : Prop := MkPlain {
  pl_sizes : forall index e, read_index_at s dir None = Ok index -> e ∈ files index -> 0 <= size e;
  pl_names : forall index, read_index_at s dir None = Ok index -> unambiguous (index_hashes index);
}.

(** The files of a tree that stand where an index has them are its files. *)
Definition tree_ok (s : Store) (dir : bytes) (t : Tree) : Prop :=
  forall index e f, read_index_at s dir None = Ok index -> e ∈ files index ->
    t !! names (path e) = Some f -> len f.1 = size e -> file_verified e f.1 /\ f.2 = mode e.

Lemma materialized_tree_ok s dir m out :
  materialize_generation s dir None None = Ok (m, out) -> plain s dir -> tree_ok s dir out.
Proof using.
  unfold materialize_generation. intros Hm [Hs _] index e f Hi He Hf Hl. rewrite Hi in Hm. cbn [result_bind] in Hm.
  destruct (restore_files _ _ _ _ _) as [o|] eqn:Er; [|done]. injection Hm as _ ->.
  destruct (restore_files_each _ _ _ _ _ _ e Er He) as (g & Hg & Ho). rewrite Ho in Hf. injection Hf as <-.
  destruct (read_index_own _ _ _ Hi) as [_ (_ & _ & Hv)%LineageFacts.read_index_from_Ok].
  destruct (validate_index_chunks index e Hv He) as [Hc _]. split; [|done].
  eapply fresh_verified; [by eapply Hs|done|done].
Qed.

Lemma base_files_ok s b bfs :
  tree_ok s (bt_stored b) (bt_tree b) -> base_files s (Some b) = Ok bfs -> base_verified bfs.
Proof using.
  intros Ht. unfold base_files. destruct (read_index_at s (bt_stored b) None) as [index|] eqn:Ei; [|done].
  cbn [result_bind]. intros [= <-]. apply Forall_forall. intros f (e & He & Hf)%list_elem_of_omap.
  destruct (bt_tree b !! names (path e)) as [h|] eqn:Eh; [|done]. cbn [mbind option_bind] in Hf.
  destruct (Z.eqb_spec (len h.1) (size e)); [|done]. injection Hf as <-. by eapply Ht.
Qed.

Lemma over_same s dir base m out :
  (forall b, base = Some b -> tree_ok s (bt_stored b) (bt_tree b)
     /\ exists bi, read_index_at s (bt_stored b) None = Ok bi) ->
  materialize_generation s dir None None = Ok (m, out) -> plain s dir ->
  exists st, materialize_over s dir base = Ok (out, st).
Proof using.
  intros Hb Hm [Hs Hn]. unfold materialize_over. unfold materialize_generation in Hm.
  destruct (read_index_at s dir None) as [index|] eqn:Ei; [|done]. cbn [result_bind] in *.
  destruct (restore_files _ _ _ _ _) as [o|] eqn:Er; [|done]. injection Hm as _ ->.
  assert (exists bfs, base_files s base = Ok bfs /\ base_verified bfs) as (bfs & -> & Hbv).
  { destruct base as [b|]; [|exists []; split; [done|constructor]]. destruct (Hb b eq_refl) as [Ht [bi Hbi]].
    destruct (base_files s (Some b)) as [bfs|] eqn:Eb; [exists bfs; split; [done|by eapply base_files_ok]|].
    unfold base_files in Eb. by rewrite Hbi in Eb. }
  cbn [result_bind]. eapply over_files_same; [done|by apply Hn| |done].
  apply Forall_forall. intros e He. apply read_index_own in Ei as Hv. destruct Hv as [_ (_ & _ & Hv)%LineageFacts.read_index_from_Ok].
  destruct (validate_index_chunks index e Hv He) as [Hc _]. split; [by eapply Hs|done].
Qed.

(** Materializing over a tree of another checkpoint is
    a restore: linking whole files and copying full chunks that an untouched
    tree of a stored checkpoint has gives the same files, contents and modes
    as decompressing every object, whichever files of the tree can be read. *)
Theorem materialize_over_same s dir b mb m out :
  materialize_generation s (bt_stored b) None None = Ok (mb, bt_tree b) -> plain s (bt_stored b) ->
  materialize_generation s dir None None = Ok (m, out) -> plain s dir ->
  exists st, materialize_over s dir (Some b) = Ok (out, st).
Proof using.
  intros Hb Hpb Hm Hp. eapply over_same; [|done|done]. intros ? [= <-].
  split; [by eapply materialized_tree_ok|]. unfold materialize_generation in Hb.
  destruct (read_index_at s (bt_stored b) None) as [bi|]; [by exists bi|done].
Qed.
End Same.

Section Transfer.
Context `{ObjectCodec} `{IndexCodec}.
Context (root : bytes) (canonical : option (list Component)) (now : Z) (staging : bytes).

(** ** A delta carries the rest *)

(** The index of the base has a digest of its own. *)
Definition base_unique (s : Store) (base : option bytes) : Prop :=
  forall b bi, base = Some b -> read_index_at s b None = Ok bi -> collision_free (encode_index bi).

Lemma base_held_exact sA dir base st x n b d dirB bi :
  export_chunked sA dir base false = Ok (st, x) -> base_unique sA base -> ef_base x = Some (b, d) ->
  held_checkpoint root canonical b n = Ok (Some dirB) -> index_digest (ns_store n) dirB = Ok d ->
  (forall bA, base = Some bA -> read_index_at sA bA None = Ok bi) ->
  forall h, h ∈ own_objects bi -> is_Some (d_objects (dir_at (ns_store n) dirB) !! h).
Proof using.
  intros Hx Hu Hb Hh Hd Hbi. apply export_spec in Hx as (_ & _ & skip & Hbase & _).
  destruct base as [bA|]; [|by destruct Hbase; congruence].
  destruct Hbase as (bi' & id & Hi & _ & He). rewrite (Hbi bA eq_refl) in Hi. injection Hi as <-.
  rewrite Hb in He. injection He as _ ->. apply held_spec in Hh as (iB & HiB & Ho).
  apply read_index_own in HiB as [HdB _]. unfold index_digest in Hd. rewrite HdB in Hd. cbn [ok_or result_bind] in Hd.
  destruct (len (encode_index iB) >? _); [done|]. injection Hd as Hd.
  apply (Hu bA bi eq_refl (Hbi bA eq_refl)), encode_index_inj in Hd as ->. done.
Qed.

Lemma export_complete sA dir base st x n :
  export_chunked sA dir base false = Ok (st, x) -> base_unique sA base -> base_present root canonical x n ->
  forall h, h ∈ own_objects (ef_index x) -> is_Some (ef_objects x !! h)
     \/ exists b d dirB, ef_base x = Some (b, d) /\ held_checkpoint root canonical b n = Ok (Some dirB)
         /\ is_Some (d_objects (dir_at (ns_store n) dirB) !! h).
Proof using.
  intros Hx Hu Hp h Hh. pose proof Hx as Hx'. apply export_spec in Hx' as (_ & _ & skip & Hbase & Hc & _).
  destruct (decide (h ∈ skip)) as [Hs|Hs]; [right|left; destruct (Hc h Hh Hs) as (c & _ & ->); by eexists].
  destruct base as [bA|]; [|destruct Hbase as [_ ->]; by apply not_elem_of_empty in Hs].
  destruct Hbase as (bi & id & Hi & -> & He). destruct (Hp _ _ He) as (dirB & Hh' & Hd).
  exists id, (digest (encode_index bi)), dirB. split_and!; [done|done|].
  eapply base_held_exact; [done|done|done|done|done| |done]. by intros ? [= <-].
Qed.

(** What the imported directory reads is what the exported one reads. *)
Lemma transfer_alike sA dir base st x n n' dir' objs :
  export_chunked sA dir base false = Ok (st, x) -> store_ok (ns_store n) ->
  unambiguous (index_hashes (ef_index x)) -> imported_at dir' (ef_index x) n n' objs ->
  (forall h c, ef_objects x !! h = Some c -> exists j, objs !! h = Some j /\ inodes (ns_store n') !! j = Some c) ->
  (forall h, h ∈ own_objects (ef_index x) -> is_Some (objs !! h)) ->
  (forall h, h ∈ own_objects (ef_index x) -> ef_objects x !! h = None ->
     exists b d dirB, ef_base x = Some (b, d) /\ held_checkpoint root canonical b n = Ok (Some dirB)
       /\ objs !! h = d_objects (dir_at (ns_store n) dirB) !! h) ->
  reads_alike sA (ns_store n') (d_objects (dir_at sA dir)) objs (index_hashes (ef_index x)).
Proof using.
  intros Hx Hok Hu [Hin _ _ _] Hcar Hall Hbase h k b Hh Hr.
  assert (h ∈ own_objects (ef_index x)) as Hown by (unfold own_objects; by apply elem_of_list_to_set).
  destruct (ef_objects x !! h) as [c|] eqn:Ec.
  - apply export_spec in Hx as (_ & _ & skip & _ & Hcont & Hnone).
    destruct (decide (h ∈ skip)) as [Hs|Hs]; [rewrite Hnone in Ec by (by right); done|].
    destruct (Hcont h Hown Hs) as (c' & Hc' & He). rewrite Ec in He. injection He as <-.
    destruct (Hcar h c Ec) as (j & Hj & Hjc). rewrite <- Hr. symmetry. apply read_object_content.
    rewrite Hc', Hj. cbn [mbind option_bind]. by rewrite Hjc.
  - destruct (Hbase h Hown Ec) as (bb & d & dirB & _ & _ & Ho). destruct (Hall h Hown) as [j Hj]. rewrite Hj.
    rewrite Hj in Ho. symmetry in Ho. unfold dir_at in Ho. destruct (dirs (ns_store n) !! dirB) as [D|] eqn:ED; [|done].
    pose proof (ok_dirs _ Hok _ _ _ _ ED Ho) as Hobj. apply read_object_digest in Hr as [Hd <-].
    apply read_object_ok; [by eapply object_ok_mono| |done].
    intros b' Hb'. apply (Hu h); [done|congruence|done].
Qed.

Lemma import_keeps_ok sA dir base st x n n' dir' objs :
  export_chunked sA dir base false = Ok (st, x) -> store_ok sA -> store_ok (ns_store n) ->
  imported_at dir' (ef_index x) n n' objs ->
  (forall h j, objs !! h = Some j ->
     (exists c, ef_objects x !! h = Some c /\ inodes (ns_store n') !! j = Some c)
     \/ exists d, d_objects (dir_at (ns_store n) d) !! h = Some j) ->
  store_ok (ns_store n').
Proof using.
  intros Hx HA Hok [Hin Hd Hoth Hob] Hobjs.
  assert (forall h j, objs !! h = Some j -> object_ok (ns_store n') h j) as Hall.
  { intros h j [(c & Hc & Hj)|(d & Hj)]%Hobjs.
    - apply export_spec in Hx as (_ & _ & skip & _ & Hcont & Hnone).
      destruct (decide (h ∈ own_objects (ef_index x))) as [Hh|Hh]; [|rewrite Hnone in Hc by (by left); done].
      destruct (decide (h ∈ skip)) as [Hs|Hs]; [rewrite Hnone in Hc by (by right); done|].
      destruct (Hcont h Hh Hs) as (c' & Hc' & He). rewrite Hc in He. injection He as <-.
      destruct (d_objects (dir_at sA dir) !! h) as [i|] eqn:Ei; [|done]. cbn [mbind option_bind] in Hc'.
      unfold dir_at in Ei. destruct (dirs sA !! dir) as [D|] eqn:ED; [|done].
      destruct (ok_dirs _ HA _ _ _ _ ED Ei) as (b & Hb & Hdg & Hl). exists b. split; [congruence|done].
    - unfold dir_at in Hj. destruct (dirs (ns_store n) !! d) as [D|] eqn:ED; [|done].
      eapply object_ok_mono; [done|]. by eapply ok_dirs. }
  split.
  - intros h i [Ho|Ho]%Hob Hn; [|by apply Hall]. eapply object_ok_mono; [done|]. by eapply ok_objects.
  - intros d D h i HD Hi. destruct (decide (d = dir')) as [->|Hne].
    + rewrite Hd in HD. injection HD as <-. by apply Hall.
    + rewrite Hoth in HD by done. eapply object_ok_mono; [done|]. by eapply ok_dirs.
Qed.

Lemma held_imported l index n n' objs :
  root <> [] -> valid_generation_id (cl_id l) = true -> read_index_from index = Ok index ->
  imported_at (imported_name (cl_id l)) index n n' objs ->
  records n' = <[cl_id l := Some (MkRecord (cl_id l) (cl_parent l) (cl_machine l) (cl_created_at l)
     (record_path root (imported_name (cl_id l))))]> (records n) ->
  (forall h, h ∈ own_objects index -> is_Some (objs !! h)) ->
  held_checkpoint root canonical (cl_id l) n' = Ok (Some (imported_name (cl_id l)))
  /\ read_index_at (ns_store n') (imported_name (cl_id l)) None = Ok index
  /\ d_objects (dir_at (ns_store n') (imported_name (cl_id l))) = objs.
Proof using.
  intros Hr Hid Hv [_ Hd _ _] Hrec Hall. set (dir := imported_name (cl_id l)) in *.
  assert (dir_at (ns_store n') dir = MkDir objs (Some index) ∅ false) as Hat by (unfold dir_at; by rewrite Hd).
  assert (read_index_at (ns_store n') dir None = Ok index) as Hi.
  { unfold read_index_at. rewrite Hat. cbn [d_index ok_or result_bind]. by rewrite Hv. }
  split_and!; [|done|by rewrite Hat]. unfold held_checkpoint, find_lineage.
  rewrite Hid, Hrec, lookup_insert_eq. cbn [io result_bind].
  unfold record_key. rewrite record_dir_imported by done. cbv zeta. rewrite Hat. cbn [d_index].
  assert (missing_objects (ns_store n') dir = Ok []) as ->; [|done].
  apply missing_nil. exists index. split; [done|]. by rewrite Hat.
Qed.

(** C7: A checkpoint moved to another node as a delta is the
    checkpoint it was. Exported against a base, the file holds exactly the
    objects the base's index does not name; a node that holds that base, by
    its id and the digest of its index, imports it, then holds it complete
    under its own name, restores from it the very files the exporting node
    restores, has the same index digest, so that the next delta of the chain
    finds its base, keeps every other checkpoint untouched, and keeps every
    object of its store decodable to its name. *)
Theorem delta_roundtrip sA dir base st x l m out n :
  export_chunked sA dir base false = Ok (st, x) -> ef_lineage x = Some l ->
  materialize_generation sA dir None None = Ok (m, out) ->
  unambiguous (index_hashes (ef_index x)) -> base_unique sA base ->
  store_ok sA -> store_ok (ns_store n) -> importable root canonical staging l n -> base_present root canonical x n ->
  exists im n', import root canonical now true staging x n = (Ok (Some im), n')
    /\ held_checkpoint root canonical (cl_id l) n' = Ok (Some (im_directory im))
    /\ materialize_generation (ns_store n') (im_directory im) None None = Ok (m, out)
    /\ index_digest (ns_store n') (im_directory im) = index_digest sA dir
    /\ (forall d, d <> im_directory im -> dirs (ns_store n') !! d = dirs (ns_store n) !! d)
    /\ store_ok (ns_store n')
    /\ (forall b bi, base = Some b -> read_index_at sA b None = Ok bi ->
          dom (ef_objects x) = own_objects (ef_index x) ∖ own_objects bi).
Proof using.
  intros Hx Hl Hm Hu Hbu HA Hok Himp Hp.
  pose proof (export_spec _ _ _ _ _ Hx) as (Hi & Hch & skip & Hbase & Hcont & Hnone).
  destruct (read_index_own _ _ _ Hi) as [HiA Hv].
  unfold import. rewrite Hch, Hl. cbn [negb].
  rewrite held_pin, (imp_new _ _ _ _ _ Himp). set (np := (pin now (cl_id l) n).2).
  destruct (pin_store now (cl_id l) n) as [Hps Hpr]. fold np in Hps, Hpr.
  assert (forall id, held_checkpoint root canonical id np = held_checkpoint root canonical id n) as Hph
    by (intros id; apply held_pin).
  destruct (import_new_ok root canonical now staging x l np (ef_index x))
    as (b & linked & objs & n' & E & Hat & Hrec & Hall & Hcar & Hbs & Hfrom); [done|done| | | |].
  { destruct Himp. split; rewrite ?Hps, ?Hph; done. }
  { intros b d Hb. rewrite Hps. setoid_rewrite Hph. by apply Hp. }
  { rewrite Hps. setoid_rewrite Hph. by eapply export_complete. }
  eexists _, n'. split; [exact E|]. cbn [im_directory].
  destruct (held_imported l (ef_index x) np n' objs (imp_root _ _ _ _ _ Himp) (imp_id _ _ _ _ _ Himp) Hv Hat Hrec Hall)
    as (Hh & HiB & HoB).
  rewrite <- Hps in Hok |- *.
  split_and!; [done| | | | |].
  - unfold materialize_generation in Hm |- *. rewrite Hi in Hm. rewrite HiB, HoB. cbn [result_bind] in *.
    destruct (restore_files sA _ _ _ _) as [o|] eqn:Er; [|done]. cbn [result_bind] in Hm.
    rewrite (restore_files_alike sA (ns_store n') (d_objects (dir_at sA dir)) objs _ _ o); [done| |done].
    by eapply transfer_alike.
  - unfold index_digest. destruct (read_index_own _ _ _ HiB) as [-> _]. by rewrite HiA.
  - apply (ia_others _ _ _ _ _ Hat).
  - eapply import_keeps_ok; done.
  - intros bb bi -> Hbi. destruct Hbase as (bi' & id & Hbi' & -> & _). rewrite Hbi in Hbi'. injection Hbi' as <-.
    apply set_eq. intros h. rewrite elem_of_dom, elem_of_difference. split.
    + intros [c Hc]. destruct (decide (h ∈ own_objects (ef_index x))) as [|Hn]; [|rewrite Hnone in Hc by (by left); done].
      split; [done|]. intros Hs. rewrite Hnone in Hc by (by right). done.
    + intros [Hh1 Hh2]. destruct (Hcont h Hh1 Hh2) as (c & _ & ->). by eexists.
Qed.

(** ** A refused import *)

(** [s'] differs from [s] in the staging directory only, and in inodes no
    name refers to. *)
Record beside (s s' : Store) : Prop := MkBeside {
  bs_objects : objects s' = objects s;
  bs_dirs : forall d, d <> staging -> dirs s' !! d = dirs s !! d;
}.
Lemma beside_refl s : beside s s.
Proof using. by split. Qed.
Lemma beside_trans s1 s2 s3 : beside s1 s2 -> beside s2 s3 -> beside s1 s3.
Proof using. intros [Ho Hd] [Ho' Hd']. split; [congruence|]. intros d Hn. rewrite Hd' by done. by apply Hd. Qed.
Lemma beside_link h i s : beside s (link_in_dir staging h i s).
Proof using. split; [done|]. intros d Hn. cbn [link_in_dir with_dirs dirs]. by rewrite lookup_alter_ne. Qed.

Lemma beside_unpack x s : beside s (unpack staging x s).
Proof using.
  unfold unpack. set (s0 := with_dirs _ s). apply (beside_trans _ s0).
  { split; [done|]. intros d Hn. cbn [s0 with_dirs dirs]. by rewrite lookup_insert_ne. }
  generalize s0. induction (map_to_list (ef_objects x)) as [|kv l IH]; intros s1; cbn [foldl]; [apply beside_refl|].
  eapply beside_trans; [|apply IH]. unfold unpack_object.
  eapply beside_trans; [|apply beside_link]. by split.
Qed.

Lemma beside_link_missing base hs linked s r s' :
  link_missing staging base hs linked s = (r, s') -> beside s s'.
Proof using.
  revert linked s. induction hs as [|h hs IH]; intros linked s; cbn [link_missing].
  { intros [= _ <-]. apply beside_refl. }
  destruct (d_objects (dir_at s base) !! h) as [i|]; [|intros [= _ <-]; apply beside_refl].
  destruct (d_objects (dir_at s staging) !! h); [by apply IH|].
  intros Hl%IH. eapply beside_trans; [apply beside_link|done].
Qed.

Lemma beside_complete base s r s' : complete staging base s = (r, s') -> beside s s'.
Proof using.
  unfold complete, complete_from_base. destruct base as [[id dir]|]; [|intros [= _ <-]; apply beside_refl].
  destruct (missing_objects s staging); [apply beside_link_missing|]. intros [= _ <-]. apply beside_refl.
Qed.

(** What stands by name in a node's store. *)
Definition names_of (n : NodeStore) := (objects (ns_store n), dirs (ns_store n), records n).

Lemma drop_beside n n' :
  dirs (ns_store n) !! staging = None -> beside (ns_store n) (ns_store n') -> records n' = records n ->
  names_of (drop_staging staging n') = names_of n.
Proof using.
  intros Hs [Ho Hd] Hr. unfold names_of. cbn [drop_staging with_store with_dirs ns_store objects dirs records].
  rewrite Ho, Hr. do 2 f_equal. apply map_eq. intros d. destruct (decide (d = staging)) as [->|Hn].
  - by rewrite lookup_delete_eq.
  - rewrite lookup_delete_ne by done. by apply Hd.
Qed.

Lemma import_base_names base n r n' :
  import_base root canonical now base n = (r, n') -> ns_store n' = ns_store n /\ records n' = records n.
Proof using.
  unfold import_base. destruct base as [[id d]|]; intros [= _ <-]; [apply pin_store|done].
Qed.

Lemma register_refused l base linked n e n' :
  valid_generation_id (cl_id l) = true -> register root staging l base linked n = (Err e, n') ->
  n' = drop_staging staging n.
Proof using.
  intros Hv. unfold register. destruct (publish _ _ _) as [[]s].
  - unfold finish_register, record_lineage. cbn [lr_id]. by rewrite Hv.
  - case_bool_decide; [|by intros [= _ <-]]. unfold finish_register, record_lineage. cbn [lr_id]. by rewrite Hv.
Qed.

Lemma import_new_refused x l n e n' :
  valid_generation_id (cl_id l) = true -> dirs (ns_store n) !! staging = None ->
  import_new root canonical now staging x l n = (Err e, n') -> names_of n' = names_of n.
Proof using.
  intros Hv Hs. unfold import_new.
  destruct (import_base root canonical now (ef_base x) n) as [[base|e1] n1] eqn:Eb;
    apply import_base_names in Eb as [Hs1 Hr1].
  2: { intros [= _ <-]. unfold names_of. by rewrite Hs1, Hr1. }
  set (n2 := with_store (unpack staging x) n1).
  assert (beside (ns_store n) (ns_store n2)) as H2.
  { cbn [n2 with_store ns_store]. rewrite Hs1. apply beside_unpack. }
  destruct (complete staging base (ns_store n2)) as [[linked|e2] s3] eqn:Ec;
    apply beside_complete in Ec; pose proof (beside_trans _ _ _ H2 Ec) as H3.
  2: { intros [= _ <-]. by apply drop_beside. }
  destruct (missing_objects _ staging) as [[|h hs]|e3].
  - intros Hr. apply register_refused in Hr as ->; [|done]. by apply drop_beside.
  - intros [= _ <-]. by apply drop_beside.
  - intros [= _ <-]. by apply drop_beside.
Qed.

(** An import either succeeds or leaves no trace: when it is
    refused, whatever the reason, every object, every checkpoint directory
    and every lineage record of the node stands as before, the staging
    directory gone; and a delta is refused when the node holds its base not at
    all or under another index. *)
Theorem import_atomic compatible x l n :
  ef_lineage x = Some l -> valid_generation_id (cl_id l) = true -> dirs (ns_store n) !! staging = None ->
  (forall e n', import root canonical now compatible staging x n = (Err e, n') -> names_of n' = names_of n)
  /\ (forall b d, ef_chunked x = true -> ef_base x = Some (b, d) ->
        held_checkpoint root canonical (cl_id l) n = Ok None ->
        (forall dir, held_checkpoint root canonical b n = Ok (Some dir) -> index_digest (ns_store n) dir <> Ok d) ->
        exists e, (import root canonical now compatible staging x n).1 = Err e).
Proof using.
  intros Hl Hv Hs. unfold import. rewrite Hl. destruct (pin_store now (cl_id l) n) as [Hps Hpr].
  split.
  - intros e n'. destruct (ef_chunked x); [|done]. cbn [negb]. destruct compatible; [|by intros [= _ <-]].
    cbn [negb]. assert (names_of (pin now (cl_id l) n).2 = names_of n) as Hp by (unfold names_of; by rewrite Hps, Hpr).
    destruct (held_checkpoint _ _ _ _) as [[dir|]|].
    + done.
    + rewrite <- Hp. intros Hi. eapply import_new_refused; [done| |done]. by rewrite Hps.
    + by intros [= _ <-].
  - intros b d -> Hb Hn Hno. cbn [negb]. destruct compatible; cbn [negb]; [|by eexists].
    rewrite held_pin, Hn. unfold import_new, import_base. rewrite Hb, !held_pin.
    destruct (held_checkpoint root canonical b n) as [[dir|]|] eqn:Eh; [|by eexists|by eexists].
    destruct (pin_store now b (pin now (cl_id l) n).2) as [-> _]. rewrite Hps.
    destruct (index_digest (ns_store n) dir) as [d'|] eqn:Ed; cbn [io result_bind]; [|by eexists].
    rewrite bool_decide_eq_true_2; [by eexists|]. intros ->. by eapply Hno.
Qed.

(** ** Restoring over the nearest ancestor *)

(** Each recorded tree of a checkpoint the node holds is a tree of it. *)
Definition restorer_ok (r : Restorer) : Prop :=
  forall id tree t dir, materialized r !! id = Some tree -> trees r !! tree = Some (t, true) ->
    held_checkpoint root canonical id (node r) = Ok (Some dir) -> tree_ok (ns_store (node r)) dir t.

(** The lineage index and the indexes it names are readable. *)
Definition readable (n : NodeStore) : Prop :=
  forall id, (exists d, held_checkpoint root canonical id n = Ok d) /\ exists rec, find_lineage id n = Ok rec.

Definition same_but_pins (r r' : Restorer) : Prop :=
  ns_store (node r') = ns_store (node r) /\ records (node r') = records (node r)
  /\ trees r' = trees r /\ materialized r' = materialized r.

Lemma same_held r r' id : same_but_pins r r' ->
  held_checkpoint root canonical id (node r') = held_checkpoint root canonical id (node r)
  /\ find_lineage id (node r') = find_lineage id (node r).
Proof using.
  intros (Hs & Hr & _). assert (find_lineage id (node r') = find_lineage id (node r)) as Hf
    by (unfold find_lineage; by rewrite Hr).
  split; [|done]. unfold held_checkpoint. by rewrite Hf, Hs.
Qed.

Lemma nearest_tree_ok fuel cursor r :
  readable (node r) ->
  exists base r', nearest_tree root canonical now fuel cursor r = (Ok base, r') /\ same_but_pins r r'
    /\ forall dir tree, base = Some (dir, tree) -> exists id t,
         materialized r !! id = Some tree /\ trees r !! tree = Some (t, true)
         /\ held_checkpoint root canonical id (node r) = Ok (Some dir).
Proof using.
  revert cursor r. induction fuel as [|fuel IH]; intros cursor r Hr; cbn [nearest_tree].
  { exists None, r. destruct cursor; (split; [done|split; [by repeat split|done]]). }
  destruct cursor as [id|]; [|exists None, r; split; [done|split; [by repeat split|done]]]. set (r1 := MkRestorer _ _ _).
  assert (same_but_pins r r1) as H1.
  { destruct (pin_store now id (node r)) as [Hs Hrec]. by repeat split. }
  destruct (same_held r r1 id H1) as [Hh Hf]. cbn [r1 node] in Hh, Hf |- *. cbv zeta.
  rewrite Hh. destruct (Hr id) as [[stored Hst] [rec Hrec]]. rewrite Hst.
  destruct (let! tree := materialized r1 !! id in _) as [[dir tree]|] eqn:Ef.
  - exists (Some (dir, tree)), r1. split_and!; [done|done|]. intros ? ? [= <- <-].
    cbn [r1 materialized trees] in Ef. destruct (materialized r !! id) as [tr|] eqn:Em; [|done]. cbn [mbind option_bind] in Ef.
    destruct stored as [d|]; [|done]. destruct (trees r !! tr) as [[t []]|] eqn:Et; [|done|done].
    injection Ef as -> ->. exists id, t. by rewrite Hst.
  - rewrite Hf, Hrec. destruct (IH (let! rec := rec in lr_parent rec) r1) as (base & r' & E & Hsame & Hb).
    { intros id'. destruct (same_held r r1 id' H1) as [Hh' Hf']. rewrite Hh', Hf'. apply Hr. }
    exists base, r'. split; [exact E|]. destruct H1 as (A1 & A2 & A3 & A4), Hsame as (B1 & B2 & B3 & B4).
    split; [repeat split; congruence|]. intros dir tree Hbase. destruct (Hb dir tree Hbase) as (id' & t & Hm & Ht & Hd).
    exists id', t. split_and!; [done|done|]. rewrite <- Hd. symmetry.
    by apply (same_held r r1 id').
Qed.

(** C25: A chunked restore installs exactly the checkpoint: once
    the file is imported, [prepare_restore] always succeeds (whatever the
    depth of its ancestry) and publishes, marked as extracted and recorded for
    the checkpoint, the tree a full materialization of its stored directory
    gives, although it links and copies whatever it can from the tree of the
    nearest ancestor the node has; no other tree is touched, and the recorded
    trees stay trees of their checkpoints. *)
Theorem restore_exact opens shared x r im n m out :
  trees r !! shared = None -> (forall id, materialized r !! id = Some shared -> id = im_id im) ->
  import root canonical now true staging x (node r) = (Ok (Some im), n) ->
  held_checkpoint root canonical (im_id im) n = Ok (Some (im_directory im)) ->
  readable n -> restorer_ok (MkRestorer n (trees r) (materialized r)) ->
  plain (ns_store n) (im_directory im) ->
  materialize_generation (ns_store n) (im_directory im) None None = Ok (m, out) ->
  exists r', prepare_restore root canonical now true staging opens shared x r = (Ok (Some shared), r')
    /\ trees r' = <[shared := (out, true)]> (trees r)
    /\ materialized r' = <[im_id im := shared]> (materialized r)
    /\ restorer_ok r'.
Proof using.
  intros Hsh Hown Hi Hh Hrd Hok Hpl Hm. unfold prepare_restore. rewrite Hsh, Hi. unfold restore_over. cbn [node].
  destruct (Hrd (im_id im)) as [_ [rec ->]]. set (r1 := MkRestorer n _ _) in *.
  destruct (nearest_tree_ok 64 (let! rec := rec in lr_parent rec) r1 Hrd) as (base & r2 & -> & Hsame & Hb).
  pose proof Hsame as (Hs & Hrec & Ht & Hmt). cbn [r1 node trees materialized] in Hs, Hrec, Ht, Hmt. rewrite Hs.
  set (bt := let! b := base in _). destruct (over_same (ns_store n) (im_directory im) bt m out) as [st ->]; [|done|done|].
  { intros b Hbt. destruct base as [[dir tree]|]; [|done]. cbn [bt mbind option_bind] in Hbt. injection Hbt as <-.
    destruct (Hb dir tree eq_refl) as (id & t & Hmid & Htr & Hd). cbn [bt_stored bt_tree].
    unfold tree_at. rewrite Ht. cbn [snd fst]. cbn [r1 trees] in Htr. rewrite Htr. split; [by eapply Hok|].
    apply held_spec in Hd as (bi & Hbi & _). by exists bi. }
  unfold publish_tree. rewrite Ht, Hsh. eexists. split; [reflexivity|]. cbn [trees materialized].
  rewrite Hmt. split_and!; [done|done|].
  intros id tree t dir. cbn [trees materialized node]. destruct (same_held r1 r2 id Hsame) as [-> _].
  cbn [r1 node]. rewrite Hs. destruct (decide (tree = shared)) as [->|Hne].
  - rewrite lookup_insert_eq. intros Hid [= <-] Hd. destruct (decide (im_id im = id)) as [<-|Hne].
    + rewrite Hh in Hd. injection Hd as <-. by eapply materialized_tree_ok.
    + rewrite lookup_insert_ne in Hid by done. by destruct Hne; rewrite (Hown id Hid).
  - intros Hid Htr Hd. rewrite lookup_insert_ne in Htr by congruence.
    destruct (decide (im_id im = id)) as [<-|Hni]; [rewrite lookup_insert_eq in Hid; congruence|].
    rewrite lookup_insert_ne in Hid by done. by eapply Hok.
Qed.
End Transfer.
End DeltaProps.

Module DeltaSample.
Import Str Path Ckpt IndexSample CkptFacts RestoreFacts CaptureFacts Retain Delta DeltaFacts DeltaProps.

(** An equality by evaluation of its sides. *)
Ltac evaluates := match goal with |- _ = ?y => vm_cast_no_check (eq_refl y) end.

Definition h1 : bytes := replicate 64 97.
Definition h2 : bytes := replicate 64 98.
Definition base_id : bytes := replicate 32 97.
Definition child_id : bytes := replicate 32 98.
Definition lineage (id : bytes) (parent : option bytes) : CheckpointLineage :=
  MkLineage id parent (bs "vm") (bs "2026-01-01T00:00:00Z").
Definition base_index : Index :=
  MkIndex VERSION CHUNK_SIZE (MkManifest (Some (Some (lineage base_id None))))
    [MkFile (bs "disk") 2 420 [Some h1]].
Definition child_index : Index :=
  MkIndex VERSION CHUNK_SIZE (MkManifest (Some (Some (lineage child_id (Some base_id)))))
    [MkFile (bs "disk") 2 420 [Some h1]; MkFile (bs "ram") 1 384 [Some h2]; MkFile (bs "zero") 3 384 [None]].

Definition base_code : bytes := Eval vm_compute in sample_encode base_index.
Definition sample_digest (b : bytes) : bytes :=
  replicate 64 (if bool_decide (b = [7; 8]) then 97 else if bool_decide (b = [5]) then 98
                else if bool_decide (b = base_code) then 99 else 48).
#[local] Instance delta_codec : ObjectCodec.
Proof.
  refine (MkCodec sample_digest (fun b => 1 :: b)
    (fun c n => match c with 1 :: b => Some (take (Z.to_nat n) b) | _ => None end) CkptProps.sample_temp _ _ _ _ _).
  - intros b. unfold sample_digest. by repeat case_match.
  - done.
  - intros b Hb. rewrite len_cons. lia.
  - apply CkptProps.sample_temp_fresh.
  - apply CkptProps.sample_codec.
Defined.

(** The exporting node has the base and its child, the importing one the base. *)
Definition store_a : Store :=
  MkStore {[h1 := 1; h2 := 2]} {[1 := [1; 7; 8]; 2 := [1; 5]]}
    {[bs "base" := MkDir {[h1 := 1]} (Some base_index) ∅ false;
      bs "child" := MkDir {[h1 := 1; h2 := 2]} (Some child_index) ∅ false]}.
Definition sample_root : bytes := bs "/s".
Definition record (id : bytes) : LineageRecord :=
  MkRecord id None (bs "vm") (bs "2026-01-01T00:00:00Z") (record_path sample_root (imported_name id)).
Definition node_b : NodeStore :=
  MkNode (MkStore {[h1 := 4]} {[4 := [1; 7; 8]]} {[imported_name base_id := MkDir {[h1 := 4]} (Some base_index) ∅ false]})
    {[base_id := Some (record base_id)]} ∅ ∅.
Definition delta : ExportFile :=
  MkExport true (Some (lineage child_id (Some base_id)))
    (option_list (generation_of child_index false)) (Some (base_id, replicate 64 99)) child_index {[h2 := [1; 5]]}.
Definition child_files : Tree :=
  {[names (bs "disk") := ([7; 8], 420); names (bs "ram") := ([5], 384); names (bs "zero") := ([0; 0; 0], 384)]}.

Lemma sample_export : export_chunked store_a (bs "child") (Some (bs "base")) false
  = Ok (MkExportStats 1 2 1, delta).
Proof. by evaluates. Qed.
Lemma sample_files : materialize_generation store_a (bs "child") None None
  = Ok (manifest child_index, child_files).
Proof. by evaluates. Qed.

Lemma digest_known b h : sample_digest b = h -> h = h1 \/ h = h2 ->
  (h = h1 /\ b = [7; 8]) \/ (h = h2 /\ b = [5]).
Proof. intros <-. unfold sample_digest. repeat case_bool_decide; intros [|]; try done; subst; auto. Qed.
Lemma sample_unambiguous hs : (forall h, h ∈ hs -> h = h1 \/ h = h2) -> unambiguous hs.
Proof.
  intros Hh h b b' Hin Hb Hb'. apply Hh in Hin.
  destruct (digest_known b h Hb Hin) as [[-> ->]|[-> ->]], (digest_known b' _ Hb' Hin) as [[? ->]|[? ->]]; done.
Qed.

Ltac lookups H := repeat (apply lookup_insert_Some in H as [[<- <-]|[_ H]]);
  try (apply lookup_singleton_Some in H as [<- <-]); try (by rewrite lookup_empty in H).
Ltac object b := exists b; split; [vm_compute; reflexivity|split; [vm_compute; reflexivity|done]].

Lemma store_a_ok : store_ok store_a.
Proof.
  split.
  - intros h i Hh _. cbn [store_a objects] in Hh. lookups Hh; [object [7; 8]|object [5]].
  - intros d D h i Hd Hh. cbn [store_a dirs] in Hd. lookups Hd; cbn [d_objects] in Hh; lookups Hh;
      (object [7; 8] || object [5]).
Qed.
Lemma node_b_ok : store_ok (ns_store node_b).
Proof.
  split.
  - intros h i Hh _. cbn [node_b ns_store objects] in Hh. lookups Hh. object [7; 8].
  - intros d D h i Hd Hh. cbn [node_b ns_store dirs] in Hd. lookups Hd; cbn [d_objects] in Hh; lookups Hh. object [7; 8].
Qed.
Lemma sample_base_unique : base_unique store_a (Some (bs "base")).
Proof.
  intros b bi [= <-] Hi. assert (bi = base_index) as -> by (vm_compute in Hi; by injection Hi as <-).
  change (collision_free base_code). intros b'.
  assert (digest base_code = replicate 64 99) as -> by evaluates.
  cbn [digest delta_codec]. unfold sample_digest. by repeat case_bool_decide.
Qed.
Lemma sample_importable : importable sample_root None (bs ".stage") (lineage child_id (Some base_id)) node_b.
Proof. split; [done|by evaluates..|by vm_compute]. Qed.
Lemma sample_base_present : base_present sample_root None delta node_b.
Proof. intros b d [= <- <-]. exists (imported_name base_id). split; by evaluates. Qed.

Lemma delta_roundtrip_witness :
  exists im n', import sample_root None 0 true (bs ".stage") delta node_b = (Ok (Some im), n')
    /\ materialize_generation (ns_store n') (im_directory im) None None = Ok (manifest child_index, child_files).
Proof.
  destruct (delta_roundtrip sample_root None 0 (bs ".stage") store_a (bs "child") (Some (bs "base"))
    _ delta (lineage child_id (Some base_id)) (manifest child_index) child_files node_b sample_export) as (im & n' & Hi & _ & Hm & _).
  - reflexivity.
  - exact sample_files.
  - apply sample_unambiguous. intros h Hh. vm_compute in Hh. set_solver.
  - exact sample_base_unique.
  - exact store_a_ok.
  - exact node_b_ok.
  - exact sample_importable.
  - exact sample_base_present.
  - exists im, n'. split; [exact Hi|exact Hm].
Defined.

Definition node_b1 : NodeStore := (import sample_root None 0 true (bs ".stage") delta node_b).2.
Definition imported : Imported :=
  MkImported child_id (imported_name child_id) (Some base_id) 1 false.
Definition base_tree : Tree := {[names (bs "disk") := ([7; 8], 420)]}.
(** A restorer that has the base's tree. *)
Definition restorer : Restorer := MkRestorer node_b {[bs "t0" := (base_tree, true)]} {[base_id := bs "t0"]}.

Lemma sample_import : import sample_root None 0 true (bs ".stage") delta node_b = (Ok (Some imported), node_b1).
Proof. by evaluates. Qed.
Lemma sample_plain s dir index :
  read_index_at s dir None = Ok index -> Forall (fun e => 0 <= size e) (files index) ->
  (forall h, h ∈ index_hashes index -> h = h1 \/ h = h2) -> plain s dir.
Proof.
  intros Hi Hs Hh. split.
  - intros i e Hi'. rewrite Hi in Hi'. injection Hi' as <-. rewrite Forall_forall in Hs. apply Hs.
  - intros i Hi'. rewrite Hi in Hi'. injection Hi' as <-. by apply sample_unambiguous.
Qed.
Lemma child_hashes h : h ∈ index_hashes child_index -> h = h1 \/ h = h2.
Proof. intros Hh. vm_compute in Hh. set_solver. Qed.
Lemma base_hashes h : h ∈ index_hashes base_index -> h = h1 \/ h = h2.
Proof. intros Hh. vm_compute in Hh. set_solver. Qed.

Lemma materialize_over_same_witness :
  exists st, materialize_over store_a (bs "child") (Some (MkBaseTree (bs "base") base_tree (fun _ => false)))
    = Ok (child_files, st).
Proof.
  eapply (materialize_over_same store_a (bs "child") (MkBaseTree (bs "base") base_tree (fun _ => false))
    (manifest base_index) (manifest child_index)).
  - by evaluates.
  - eapply (sample_plain _ _ base_index); [by evaluates|by repeat constructor|exact base_hashes].
  - exact sample_files.
  - eapply (sample_plain _ _ child_index); [by evaluates|by repeat constructor|exact child_hashes].
Defined.

Lemma record_cases id : records node_b1 !! id = None \/ id = base_id \/ id = child_id.
Proof.
  assert (records node_b1 = {[base_id := Some (record base_id); child_id :=
    Some (MkRecord child_id (Some base_id) (bs "vm") (bs "2026-01-01T00:00:00Z")
      (record_path sample_root (imported_name child_id)))]}) as -> by evaluates.
  destruct (decide (base_id = id)) as [|Hb]; [by auto|]. destruct (decide (child_id = id)) as [|Hc]; [by auto|].
  left. by rewrite lookup_insert_ne, lookup_singleton_ne.
Qed.
Lemma sample_readable : readable sample_root None node_b1.
Proof.
  intros id. destruct (record_cases id) as [Hn|[-> | ->]].
  - unfold held_checkpoint, find_lineage. rewrite Hn. destruct (valid_generation_id id); by split; eexists.
  - by split; eexists; vm_compute.
  - by split; eexists; vm_compute.
Qed.

Lemma restore_exact_witness :
  exists r', prepare_restore sample_root None 0 true (bs ".stage") (fun _ => true) (bs "00c0ffee") delta restorer
      = (Ok (Some (bs "00c0ffee")), r')
    /\ trees r' !! bs "00c0ffee" = Some (child_files, true).
Proof.
  destruct (restore_exact sample_root None 0 (bs ".stage") (fun _ => true) (bs "00c0ffee") delta restorer
    imported node_b1 (manifest child_index) child_files) as (r' & Hr & Ht & _).
  - by evaluates.
  - intros id Hid. cbn [restorer materialized] in Hid. apply lookup_singleton_Some in Hid as [_ Hid]. done.
  - exact sample_import.
  - by evaluates.
  - exact sample_readable.
  - intros id tree t dir Hm Ht Hd. cbn [restorer trees materialized] in *.
    apply lookup_singleton_Some in Hm as [<- <-]. apply lookup_singleton_Some in Ht as [_ [= <-]].
    assert (dir = imported_name base_id) as -> by (vm_compute in Hd; by injection Hd as <-).
    eapply (materialized_tree_ok _ _ (manifest base_index)); [by evaluates|].
    eapply (sample_plain _ _ base_index); [by evaluates|by repeat constructor|exact base_hashes].
  - eapply (sample_plain _ _ child_index); [by evaluates|by repeat constructor|exact child_hashes].
  - by evaluates.
  - exists r'. split; [exact Hr|]. rewrite Ht. apply lookup_insert_eq.
Defined.

(** The base is not held: refused. *)
Definition bare_node : NodeStore := MkNode (MkStore ∅ ∅ ∅) ∅ ∅ ∅.
Lemma import_atomic_witness :
  exists e n', import sample_root None 0 true (bs ".stage") delta bare_node = (Err e, n')
    /\ names_of n' = names_of bare_node.
Proof.
  destruct (import_atomic sample_root None 0 (bs ".stage") true delta (lineage child_id (Some base_id)) bare_node)
    as [Ha Hb]; [reflexivity|by evaluates|reflexivity|].
  destruct (Hb base_id (replicate 64 99)) as [e He]; [reflexivity|reflexivity|by evaluates| |].
  - intros dir Hd. vm_compute in Hd. done.
  - exists e, (import sample_root None 0 true (bs ".stage") delta bare_node).2.
    assert (import sample_root None 0 true (bs ".stage") delta bare_node
      = (Err e, (import sample_root None 0 true (bs ".stage") delta bare_node).2)) as Hi
      by (rewrite <- He; apply surjective_pairing).
    split; [exact Hi|]. by eapply Ha.
Defined.

(** ** An id is not checked before it is a path *)

Definition evil_id : bytes := bs "../../evil".
Definition evil : ExportFile :=
  MkExport true (Some (lineage evil_id None)) [] None
    (MkIndex VERSION CHUNK_SIZE (MkManifest (Some (Some (lineage evil_id None)))) [MkFile (bs "ram") 1 384 [Some h2]])
    {[h2 := [1; 5]]}.

(** The id a file's manifest gives is used as a path before anything checks
    it: with an id that climbs out of the published directory the import ends
    in the error of the lineage index, but the unpacked directory has been
    moved to that path, outside the store, and its objects are in the cache. *)
Theorem import_unchecked_id :
  exists n', import sample_root None 0 true (bs ".stage") evil node_b = (Err (Io InvalidData), n')
    /\ is_Some (dirs (ns_store n') !! imported_name evil_id)
    /\ components (record_path sample_root (imported_name evil_id))
       = [RootDir; Normal (bs "s"); Normal (bs "published"); ParentDir; ParentDir; Normal (bs "evil.checkpoint")]
    /\ is_Some (objects (ns_store n') !! h2).
Proof.
  exists (import sample_root None 0 true (bs ".stage") evil node_b).2.
  split_and!; [by evaluates| |by evaluates|]; match goal with |- ?P => apply (bool_decide_unpack P) end;
    vm_cast_no_check I.
Qed.
End DeltaSample.
