(* ===== verification/S3Fs.v ===== *)
(** * S3Fs: a file system over an object store
    (crates/smolvm-s3fs/src/fs.rs, and the wire formats it uses of fuse.rs)

    The mount's state is its inode tables, the files staged for writing and
    the caches of lookups, listings and small files. The object store is
    reached through [S3Service], whose laws are S3's documented ones: reads
    see the last write, and a complete listing of a level names every object
    of it. Each request runs in a context that gives the clocks and whether
    each call of the service is applied and reported. *)

From S2P Require Import Prelude RustStr.

Module S3.
Import Str.

(** ** The service *)

(** [size] and [time] as listings and HEAD report them. *)
Record ObjectInfo := MkInfo { oi_key : bytes; oi_size : Z; oi_time : Z }.
Record Listing := MkListing {
  l_objects : list ObjectInfo;
  directory_marker_exists : bool;
  l_prefixes : list bytes;
}.

Definition join (parent name : bytes) : bytes :=
  if is_empty parent then name else parent ++ bs "/" ++ name.

Definition slash_free (name : bytes) : Prop := name <> [] /\ 47 ∉ name.

Class S3Service := MkService {
  bucket : Type;
  object : bucket -> bytes -> option (bytes * Z);
  put_object : bucket -> bytes -> bytes -> Z -> bucket;
  delete_object : bucket -> bytes -> bucket;
  list_level : bucket -> bytes -> Listing * bool;
  object_put : forall b k v t k',
    object (put_object b k v t) k' = if bool_decide (k = k') then Some (v, t) else object b k';
  object_delete : forall b k k',
    object (delete_object b k) k' = if bool_decide (k = k') then None else object b k';
  list_sound : forall b dir o, o ∈ l_objects (list_level b dir).1 ->
    (ends_with (bs "/") (oi_key o) = false -> slash_free (oi_key o)
       /\ exists v, object b (join dir (oi_key o)) = Some (v, oi_time o) /\ oi_size o = len v)
    /\ (trim_end_matches 47 (oi_key o) <> [] -> slash_free (trim_end_matches 47 (oi_key o)));
  list_prefixes : forall b dir p, p ∈ l_prefixes (list_level b dir).1 -> slash_free p;
  list_complete : forall b dir name, (list_level b dir).2 = true -> slash_free name ->
    is_Some (object b (join dir name)) -> name ∈ map oi_key (l_objects (list_level b dir).1);
}.

Inductive Call := Head | Get | GetRange | Put | Delete | List | Copy.
(** A call fails before or after it took effect. *)
Inductive Outcome := Done | Refused | Ambiguous.

(** [later] is the clock once the calls have been answered. *)
Record Ctx := MkCtx {
  now : Z;
  later : Z;
  clock : Z;
  server_time : Z;
  outcome : Call -> Outcome;
}.

(** ** State *)

Inductive Node := NDir | NFile (size mtime : Z).
Inductive Known := Present (n : Node) | Absent.
#[global] Instance Node_eq_dec : EqDecision Node.
Proof. solve_decision. Defined.
#[global] Instance Known_eq_dec : EqDecision Known.
Proof. solve_decision. Defined.

Record CachedDirectory := MkCachedDir { cd_names : gset bytes; cd_fetched : Z }.

Record Metadata := MkMeta {
  entries : gmap bytes (Known * Z);
  directories : gmap bytes CachedDirectory;
  listed_names : Z;
  generation : Z;
}.

Record SmallFile := MkSmall {
  sf_size : Z;
  sf_mtime : Z;
  sf_bytes : bytes;
  sf_fetched : Z;
  sf_used : Z;
}.

Record Staged := MkStaged {
  st_file : bytes;
  st_key : bytes;
  st_size : Z;
  st_dirty : bool;
  st_writers : Z;
}.

Definition FUSE_ROOT_ID : Z := 1.
Definition DIR_MODE : Z := 16877.
Definition FILE_MODE : Z := 33188.
Definition FATTR_SIZE : Z := Z.shiftl 1 3.
Definition FATTR_FH : Z := Z.shiftl 1 6.
Definition SMALL_FILE_MAX : Z := 1024 * 1024.
Definition SMALL_CACHE_BYTES : Z := 256 * 1024 * 1024.
Definition DIRECTORY_CACHE_NAMES : Z := 100000.
Definition DIRECTORY_CACHE_COUNT : Z := 1024.
Definition I64_MAX : Z := 2 ^ 63 - 1.

Section Fs.
Context `{S3Service}.

Record S3Fs := MkFs {
  the_bucket : bucket;
  read_only : bool;
  cache_ttl : Z;
  next_ino : Z;
  next_fh : Z;
  inodes : gmap Z bytes;
  paths : gmap bytes Z;
  staged : gmap Z Staged;
  meta : Metadata;
  small : gmap bytes SmallFile;
}.

Definition meta_default : Metadata := MkMeta ∅ ∅ 0 0.
Definition new (b : bucket) (ro : bool) (ttl : Z) : S3Fs :=
  MkFs b ro ttl (FUSE_ROOT_ID + 1) 1 {[FUSE_ROOT_ID := []]} {[[] := FUSE_ROOT_ID]} ∅ meta_default ∅.

Definition with_bucket (b : bucket) (s : S3Fs) : S3Fs :=
  MkFs b (read_only s) (cache_ttl s) (next_ino s) (next_fh s) (inodes s) (paths s) (staged s) (meta s) (small s).
Definition with_inodes (i : gmap Z bytes) (p : gmap bytes Z) (n : Z) (s : S3Fs) : S3Fs :=
  MkFs (the_bucket s) (read_only s) (cache_ttl s) n (next_fh s) i p (staged s) (meta s) (small s).
Definition with_staged (f : gmap Z Staged -> gmap Z Staged) (s : S3Fs) : S3Fs :=
  MkFs (the_bucket s) (read_only s) (cache_ttl s) (next_ino s) (next_fh s) (inodes s) (paths s)
    (f (staged s)) (meta s) (small s).
Definition with_meta (f : Metadata -> Metadata) (s : S3Fs) : S3Fs :=
  MkFs (the_bucket s) (read_only s) (cache_ttl s) (next_ino s) (next_fh s) (inodes s) (paths s)
    (staged s) (f (meta s)) (small s).
Definition with_small (f : gmap bytes SmallFile -> gmap bytes SmallFile) (s : S3Fs) : S3Fs :=
  MkFs (the_bucket s) (read_only s) (cache_ttl s) (next_ino s) (next_fh s) (inodes s) (paths s)
    (staged s) (meta s) (f (small s)).

(** ** The client's calls *)

(** Errors a handler tells apart. *)
Inductive S3Error := Status404 | Status416 | OtherError.

Definition head (x : Ctx) (path : bytes) (s : S3Fs) : result (option ObjectInfo) S3Error :=
  match outcome x Head with
  | Done => Ok ((fun '(v, t) => MkInfo path (len v) t) <$> object (the_bucket s) path)
  | _ => Err OtherError
  end.
Definition get_whole (x : Ctx) (path : bytes) (s : S3Fs) : result bytes S3Error :=
  match outcome x Get with
  | Done => match object (the_bucket s) path with Some (v, _) => Ok v | None => Err Status404 end
  | _ => Err OtherError
  end.
(** A range that starts past the end is status 416. *)
Definition get_ranged (x : Ctx) (path : bytes) (first last : Z) (s : S3Fs) : result bytes S3Error :=
  match outcome x GetRange with
  | Done =>
      match object (the_bucket s) path with
      | Some (v, _) =>
          if first >=? len v then Err Status416 else Ok (slice v first (Z.min (last + 1) (len v)))
      | None => Err Status404
      end
  | _ => Err OtherError
  end.
Definition mutate (o : Outcome) (b : bucket) (s : S3Fs) : result unit S3Error * S3Fs :=
  match o with
  | Done => (Ok tt, with_bucket b s)
  | Refused => (Err OtherError, s)
  | Ambiguous => (Err OtherError, with_bucket b s)
  end.
Definition put (x : Ctx) (path body : bytes) (s : S3Fs) : result unit S3Error * S3Fs :=
  mutate (outcome x Put) (put_object (the_bucket s) path body (server_time x)) s.
Definition delete_key (x : Ctx) (path : bytes) (s : S3Fs) : result unit S3Error * S3Fs :=
  mutate (outcome x Delete) (delete_object (the_bucket s) path) s.
Definition copy (x : Ctx) (from to : bytes) (s : S3Fs) : result Z S3Error * S3Fs :=
  match object (the_bucket s) from with
  | None => (Err (match outcome x Copy with Done => Status404 | _ => OtherError end), s)
  | Some (v, _) =>
      let (r, s) := mutate (outcome x Copy) (put_object (the_bucket s) to v (server_time x)) s in
      (let? _ := r in Ok (server_time x), s)
  end.
Definition list_dir_snapshot (x : Ctx) (path : bytes) (s : S3Fs) : result (Listing * bool) S3Error :=
  match outcome x List with Done => Ok (list_level (the_bucket s) path) | _ => Err OtherError end.

(** ** The cache of lookups *)

Fixpoint rsplit_once (c : Z) (s : bytes) : option (bytes * bytes) :=
  match s with
  | [] => None
  | b :: s =>
      match rsplit_once c s with
      | Some (p, q) => Some (b :: p, q)
      | None => if b =? c then Some ([], s) else None
      end
  end.
Definition split_path (path : bytes) : bytes * bytes := default ([], path) (rsplit_once 47 path).

(** The directory fetched first. *)
Definition older (a b : bytes * CachedDirectory) : bytes * CachedDirectory :=
  if cd_fetched b.2 <? cd_fetched a.2 then b else a.
Definition oldest_directory (m : Metadata) : option (bytes * CachedDirectory) :=
  match map_to_list (directories m) with [] => None | d :: ds => Some (foldl older d ds) end.

Fixpoint bound_directories_fuel (fuel : nat) (m : Metadata) : Metadata :=
  match fuel with
  | O => m
  | S fuel =>
      if (listed_names m >? DIRECTORY_CACHE_NAMES)
         || (Z.of_nat (size (directories m)) >? DIRECTORY_CACHE_COUNT) then
        match oldest_directory m with
        | None => m
        | Some (path, d) =>
            bound_directories_fuel fuel
              (MkMeta (entries m) (delete path (directories m))
                 (listed_names m - Z.of_nat (size (cd_names d))) (generation m))
        end
      else m
  end.
Definition bound_directories (m : Metadata) : Metadata :=
  bound_directories_fuel (S (size (directories m))) m.

Definition fresh (ttl at_time now : Z) : bool := saturating_sub now at_time <? ttl.

Definition prune_entries (ttl now : Z) (m : Metadata) : Metadata :=
  if Z.of_nat (size (entries m)) >? 100000
  then MkMeta (filter (fun kv => fresh ttl kv.2.2 now = true) (entries m)) (directories m)
         (listed_names m) (generation m)
  else m.

(** [names.insert(name)] and [names.remove(name)] in a cached listing. *)
Definition list_name (parent name : bytes) (m : Metadata) : Metadata :=
  match directories m !! parent with
  | None => m
  | Some d =>
      if bool_decide (name ∈ cd_names d) then m
      else MkMeta (entries m)
             (<[parent := MkCachedDir ({[name]} ∪ cd_names d) (cd_fetched d)]> (directories m))
             (listed_names m + 1) (generation m)
  end.
Definition unlist_name (parent name : bytes) (m : Metadata) : Metadata :=
  match directories m !! parent with
  | None => m
  | Some d =>
      if bool_decide (name ∈ cd_names d)
      then MkMeta (entries m)
             (<[parent := MkCachedDir (cd_names d ∖ {[name]}) (cd_fetched d)]> (directories m))
             (listed_names m - 1) (generation m)
      else m
  end.

Definition set_entries (f : gmap bytes (Known * Z) -> gmap bytes (Known * Z)) (m : Metadata) : Metadata :=
  MkMeta (f (entries m)) (directories m) (listed_names m) (generation m).

Definition record (path : bytes) (k : Known) (at_time : Z) (m : Metadata) : Metadata :=
  let (parent, name) := split_path path in
  let m := match k with Present _ => list_name parent name m | Absent => unlist_name parent name m end in
  bound_directories (set_entries (insert path (k, at_time)) m).

Definition bump (m : Metadata) : Metadata :=
  MkMeta (entries m) (directories m) (listed_names m) (wrapping_add 64 (generation m) 1).

Definition known (now : Z) (path : bytes) (s : S3Fs) : option Known :=
  if cache_ttl s =? 0 then None
  else
    match (let! (k, at_time) := entries (meta s) !! path in
           if fresh (cache_ttl s) at_time now then Some k else None) with
    | Some k => Some k
    | None =>
        let (parent, name) := split_path path in
        let! d := directories (meta s) !! parent in
        if fresh (cache_ttl s) (cd_fetched d) now && negb (bool_decide (name ∈ cd_names d))
        then Some Absent else None
    end.

Definition remember (now : Z) (path : bytes) (k : Known) (s : S3Fs) : S3Fs :=
  if cache_ttl s =? 0 then s
  else with_meta (fun m => record path k now (bump (prune_entries (cache_ttl s) now m))) s.

Record CacheSnapshot := MkSnapshot { sn_generation : Z; sn_started : Z }.
Definition cache_snapshot (now : Z) (s : S3Fs) : CacheSnapshot := MkSnapshot (generation (meta s)) now.

(** Whether what was observed since the snapshot may be recorded. *)
Definition still_valid (later : Z) (sn : CacheSnapshot) (s : S3Fs) : bool :=
  negb (cache_ttl s =? 0) && fresh (cache_ttl s) (sn_started sn) later
  && (generation (meta s) =? sn_generation sn).

Definition remember_observed (later : Z) (path : bytes) (k : Known) (sn : CacheSnapshot) (s : S3Fs) : S3Fs :=
  if still_valid later sn s
  then with_meta (fun m => record path k (sn_started sn) (prune_entries (cache_ttl s) later m)) s
  else s.

Definition invalidate_copied_destination (path : bytes) (s : S3Fs) : S3Fs :=
  let (parent, name) := split_path path in
  with_meta (fun m => bound_directories (list_name parent name (set_entries (delete path) (bump m)))) s.

(** What a listed object is: a file, or the marker of a directory. *)
Definition listed_child (o : ObjectInfo) : option (bytes * Node) :=
  if ends_with (bs "/") (oi_key o) then
    let name := trim_end_matches 47 (oi_key o) in
    if is_empty name then None else Some (name, NDir)
  else Some (oi_key o, NFile (oi_size o) (oi_time o)).
Definition listed_children (l : Listing) : list (bytes * Node) :=
  map (fun d => (d, NDir)) (l_prefixes l) ++ omap listed_child (l_objects l).

Definition nonempty_listing (l : Listing) : bool :=
  directory_marker_exists l || negb (bool_decide (l_objects l = [])) || negb (bool_decide (l_prefixes l = [])).

Definition store_directory (dir : bytes) (names : gset bytes) (at_time : Z) (m : Metadata) : Metadata :=
  let old := match directories m !! dir with Some d => Z.of_nat (size (cd_names d)) | None => 0 end in
  bound_directories
    (MkMeta (entries m) (<[dir := MkCachedDir names at_time]> (directories m))
       (listed_names m - old + Z.of_nat (size names)) (generation m)).

Definition remember_listing (later : Z) (dir : bytes) (l : Listing) (complete : bool) (sn : CacheSnapshot)
    (s : S3Fs) : S3Fs :=
  if negb (still_valid later sn s) then s
  else
    with_meta (fun m =>
      let m := prune_entries (cache_ttl s) later m in
      let m := if negb (is_empty dir) && nonempty_listing l
               then record dir (Present NDir) (sn_started sn) m else m in
      let children := listed_children l in
      let m := foldl (fun m '(name, n) => record (join dir name) (Present n) (sn_started sn) m) m children in
      let names := list_to_set (map fst children) : gset bytes in
      if complete && forallb (fun name => negb (is_empty name) && negb (contains 47 name)) (map fst children)
         && (Z.of_nat (size names) <=? DIRECTORY_CACHE_NAMES)
      then store_directory dir names (sn_started sn) m
      else m) s.

(** ** The cache of small files *)

Definition forget_bytes (path : bytes) (s : S3Fs) : S3Fs := with_small (delete path) s.

Definition small_hit (now : Z) (path : bytes) (size mtime : Z) (s : S3Fs) : option SmallFile :=
  let! f := small s !! path in
  if (sf_size f =? size) && (sf_mtime f =? mtime) && fresh (cache_ttl s) (sf_fetched f) now
  then Some f else None.

Definition least_used (a b : bytes * SmallFile) : bytes * SmallFile :=
  if sf_used b.2 <? sf_used a.2 then b else a.
Definition total_small (m : gmap bytes SmallFile) : Z :=
  foldr Z.add 0 (map (fun kv => sf_size kv.2) (map_to_list m)).

Fixpoint evict (fuel : nat) (total size : Z) (m : gmap bytes SmallFile) : gmap bytes SmallFile :=
  match fuel with
  | O => m
  | S fuel =>
      if total + size >? SMALL_CACHE_BYTES then
        match map_to_list m with
        | [] => m
        | f :: fs =>
            let (path, f) := foldl least_used f fs in
            evict fuel (total - sf_size f) size (delete path m)
        end
      else m
  end.

(** Keeping the bytes once they were fetched. *)
Definition keep_bytes (later clock : Z) (path : bytes) (sz mtime : Z) (b : bytes) (s : S3Fs) : S3Fs :=
  if negb (len b =? sz) then remember later path (Present (NFile (len b) clock)) s
  else
    with_small (fun m =>
      <[path := MkSmall sz mtime b later later]> (evict (S (size m)) (total_small m) sz m)) s.

Definition small_bytes (x : Ctx) (path : bytes) (sz mtime : Z) (s : S3Fs) : option bytes * S3Fs :=
  match small_hit (now x) path sz mtime s with
  | Some f =>
      (Some (sf_bytes f),
       with_small (insert path (MkSmall (sf_size f) (sf_mtime f) (sf_bytes f) (sf_fetched f) (now x))) s)
  | None =>
      match get_whole x path s with
      | Err _ => (None, s)
      | Ok b => (Some b, keep_bytes (later x) (clock x) path sz mtime b s)
      end
  end.

(** ** Inodes *)

Definition path_of (ino : Z) (s : S3Fs) : option bytes := inodes s !! ino.

Definition ino_for (path : bytes) (s : S3Fs) : Z * S3Fs :=
  match paths s !! path with
  | Some i => (i, s)
  | None =>
      let ino := next_ino s in
      (ino, with_inodes (<[ino := path]> (inodes s)) (<[path := ino]> (paths s)) (ino + 1) s)
  end.

Definition forget_path (path : bytes) (s : S3Fs) : S3Fs :=
  match paths s !! path with
  | Some ino => with_inodes (delete ino (inodes s)) (delete path (paths s)) (next_ino s) s
  | None => s
  end.

Definition rename_path (from to : bytes) (s : S3Fs) : S3Fs :=
  let s := forget_path to s in
  match paths s !! from with
  | Some ino =>
      with_inodes (<[ino := to]> (inodes s)) (<[to := ino]> (delete from (paths s))) (next_ino s) s
  | None => s
  end.

Record Attr := MkAttr { a_ino : Z; a_size : Z; a_blocks : Z; a_mtime : Z; a_mode : Z; a_nlink : Z }.
Definition attr_for (ino : Z) (n : Node) : Attr :=
  match n with
  | NDir => MkAttr ino 0 0 0 DIR_MODE 2
  | NFile size mtime => MkAttr ino size (div_ceil size 512) mtime FILE_MODE 1
  end.

(** ** Staged files *)

Definition find_staged (path : bytes) (m : gmap Z Staged) : option (Z * Staged) :=
  List.find (fun kv => bool_decide (st_key kv.2 = path)) (map_to_list m).

Definition stat (x : Ctx) (path : bytes) (s : S3Fs) : option Node * S3Fs :=
  if is_empty path then (Some NDir, s)
  else match find_staged path (staged s) with
  | Some (_, st) => (Some (NFile (st_size st) (clock x)), s)
  | None =>
      match known (now x) path s with
      | Some (Present n) => (Some n, s)
      | Some Absent => (None, s)
      | None =>
          let sn := cache_snapshot (now x) s in
          match head x path s with
          | Ok (Some info) =>
              let n := NFile (oi_size info) (oi_time info) in
              (Some n, remember_observed (later x) path (Present n) sn s)
          | r =>
              let head_failed := negb (is_ok r) in
              match list_dir_snapshot x path s with
              | Ok (l, complete) =>
                  if nonempty_listing l
                  then (Some NDir, remember_listing (later x) path l complete sn s)
                  else if head_failed then (None, s)
                  else
                    let s := remember_listing (later x) path l complete sn s in
                    (None, if complete then remember_observed (later x) path Absent sn s else s)
              | Err _ => (None, s)
              end
          end
      end
  end.

Definition resize_file (b : bytes) (n : Z) : bytes :=
  take (Z.to_nat n) (b ++ replicate (Z.to_nat (n - len b)) 0).
(** A write past the end leaves a hole of zeros; [write_all] of nothing writes
    nothing. *)
Definition write_file (b : bytes) (offset : Z) (data : bytes) : bytes :=
  match data with
  | [] => b
  | _ :: _ =>
      let b := b ++ replicate (Z.to_nat (offset - len b)) 0 in
      take (Z.to_nat offset) b ++ data ++ drop (Z.to_nat (offset + len data)) b
  end.

Definition set_staged_len (n : Z) (st : Staged) : Staged :=
  MkStaged (resize_file (st_file st) n) (st_key st) n true (st_writers st).

Definition open_staged (x : Ctx) (path : bytes) (truncate : bool) (s : S3Fs) : result Z S3Error * S3Fs :=
  match find_staged path (staged s) with
  | Some (fh, st) =>
      let st := if truncate then set_staged_len 0 st else st in
      let st := MkStaged (st_file st) (st_key st) (st_size st) (st_dirty st) (st_writers st + 1) in
      (Ok fh, with_staged (insert fh st) s)
  | None =>
      match (if truncate then Ok [] else get_whole x path s) with
      | Err e => (Err e, s)
      | Ok b =>
          let fh := next_fh s in
          (Ok fh,
           MkFs (the_bucket s) (read_only s) (cache_ttl s) (next_ino s) (fh + 1) (inodes s) (paths s)
             (<[fh := MkStaged b path (len b) truncate 1]> (staged s)) (meta s) (small s))
      end
  end.

Definition EIO : Z := 5.
Definition ENOENT : Z := 2.
Definition EBADF : Z := 9.
Definition EINVAL : Z := 22.
Definition EFBIG : Z := 27.
Definition EROFS : Z := 30.
Definition ENOSYS : Z := 38.
Definition ENOTEMPTY : Z := 39.

Definition truncates (path : bytes) (fh : option Z) (handle : Z) (st : Staged) : bool :=
  bool_decide (st_key st = path) || bool_decide (fh = Some handle).

(** [memory n]: whether a buffer of [n] bytes can be reserved. A length over
    [i64::MAX] fails as a file's length and as a buffer's. *)
Definition truncate (memory : Z -> bool) (x : Ctx) (path : bytes) (fh : option Z) (size : Z) (s : S3Fs) :
    result unit Z * S3Fs :=
  if existsb (fun kv => truncates path fh kv.1 kv.2) (map_to_list (staged s))
  then if size >? I64_MAX then (Err EIO, s)
  else (Ok tt, with_staged (map_imap (fun handle st =>
          Some (if truncates path fh handle st then set_staged_len size st else st))) s)
  else
    match (if size =? 0 then Ok [] else get_whole x path s) with
    | Err _ => (Err EIO, s)
    | Ok b =>
        if (size >? len b) && (negb (memory (size - len b)) || (size >? I64_MAX)) then (Err EFBIG, s)
        else
          match put x path (resize_file b size) s with
          | (Err _, s) => (Err EIO, s)
          | (Ok _, s) =>
              (Ok tt, remember (later x) path (Present (NFile size (clock x))) (forget_bytes path s))
          end
    end.

(** Upload what is staged under [fh]. *)
Definition upload (x : Ctx) (fh : Z) (st : Staged) (path : bytes) (s : S3Fs) : result unit Z * S3Fs :=
  if st_dirty st then
    match put x path (st_file st) s with
    | (Err _, s) => (Err EIO, s)
    | (Ok _, s) =>
        let clean := MkStaged (st_file st) (st_key st) (st_size st) false (st_writers st) in
        (Ok tt,
         remember (later x) path (Present (NFile (len (st_file st)) (clock x)))
           (forget_bytes path (with_staged (insert fh clean) s)))
    end
  else (Ok tt, s).

Definition flush_staged (x : Ctx) (fh : Z) (path : bytes) (close : bool) (s : S3Fs) :
    result unit Z * S3Fs :=
  match staged s !! fh with
  | None => (Ok tt, s)
  | Some st =>
      let st :=
        if close then MkStaged (st_file st) (st_key st) (st_size st) (st_dirty st)
                        (saturating_sub (st_writers st) 1)
        else st in
      let s := with_staged (insert fh st) s in
      match upload x fh st path s with
      | (Err e, s) => (Err e, s)
      | (Ok _, s) =>
          (Ok tt, if st_writers st =? 0 then with_staged (delete fh) s else s)
      end
  end.

(** ** Requests *)

Record Request := MkRequest { opcode : Z; nodeid : Z; data : bytes }.

Fixpoint until_nul (b : bytes) : option bytes :=
  match b with
  | [] => None
  | c :: b => if c =? 0 then Some [] else let! r := until_nul b in Some (c :: r)
  end.
Definition name_at (r : Request) (offset : Z) : option bytes :=
  let! rest := get_from (data r) offset in
  let! name := until_nul rest in
  from_utf8 name.
Definition u32_at (r : Request) (offset : Z) : Z :=
  match get_range (data r) offset (offset + 4) with Some b => from_le b | None => 0 end.
Definition u64_at (r : Request) (offset : Z) : Z :=
  match get_range (data r) offset (offset + 8) with Some b => from_le b | None => 0 end.

Inductive Reply :=
| ROk
| RError (errno : Z)
| RAttr (a : Attr)
| REntry (a : Attr)
| RCreate (a : Attr) (fh : Z)
| ROpen (fh : Z)
| RData (b : bytes)
| RWritten (n : Z)
| RDirectory (b : bytes)
| RStatFs (blocks bfree bavail files : Z).

Definition DT_DIR : Z := 4.
Definition DT_REG : Z := 8.

Definition push_dirent (buf : bytes) (max ino offset kind : Z) (name : bytes) : option bytes :=
  let padded := Z.land (len name + 7) (Z.lxor (u_max 64) 7) in
  if len buf + 24 + padded >? max then None
  else Some (buf ++ to_le 8 ino ++ to_le 8 offset ++ to_le 4 (len name) ++ to_le 4 kind ++ name
             ++ replicate (Z.to_nat (padded - len name)) 0).

(** Entries until one does not fit. *)
Fixpoint push_children (dir : bytes) (max next : Z) (cs : list (bytes * Z)) (buf : bytes) (s : S3Fs) :
    bytes * Z * S3Fs :=
  match cs with
  | [] => (buf, next, s)
  | (name, kind) :: cs =>
      let (ino, s) := ino_for (join dir name) s in
      match push_dirent buf max ino next kind name with
      | None => (buf, next, s)
      | Some buf => push_children dir max (next + 1) cs buf s
      end
  end.

Definition op_lookup (x : Ctx) (r : Request) (s : S3Fs) : Reply * S3Fs :=
  match path_of (nodeid r) s with
  | None => (RError ENOENT, s)
  | Some parent =>
      match name_at r 0 with
      | None => (RError EINVAL, s)
      | Some name =>
          let path := join parent name in
          match stat x path s with
          | (None, s) => (RError ENOENT, s)
          | (Some n, s) => let (ino, s) := ino_for path s in (REntry (attr_for ino n), s)
          end
      end
  end.

Definition stat_reply (x : Ctx) (r : Request) (path : bytes) (s : S3Fs) : Reply * S3Fs :=
  match stat x path s with
  | (None, s) => (RError ENOENT, s)
  | (Some n, s) => (RAttr (attr_for (nodeid r) n), s)
  end.

Definition op_getattr (x : Ctx) (r : Request) (s : S3Fs) : Reply * S3Fs :=
  match path_of (nodeid r) s with
  | None => (RError ENOENT, s)
  | Some path => stat_reply x r path s
  end.

(** Handlers that change anything are refused on a read-only mount. *)
Definition writable (s : S3Fs) (k : Reply * S3Fs) : Reply * S3Fs :=
  if read_only s then (RError EROFS, s) else k.

Definition op_setattr (memory : Z -> bool) (x : Ctx) (r : Request) (s : S3Fs) : Reply * S3Fs :=
  writable s
    match path_of (nodeid r) s with
    | None => (RError ENOENT, s)
    | Some path =>
        let valid := u32_at r 0 in
        if negb (Z.land valid FATTR_SIZE =? 0) then
          let fh := if negb (Z.land valid FATTR_FH =? 0) then Some (u64_at r 8) else None in
          match truncate memory x path fh (u64_at r 16) s with
          | (Err e, s) => (RError e, s)
          | (Ok _, s) => stat_reply x r path s
          end
        else stat_reply x r path s
    end.

Definition op_readdir (x : Ctx) (r : Request) (s : S3Fs) : Reply * S3Fs :=
  match path_of (nodeid r) s with
  | None => (RError ENOENT, s)
  | Some path =>
      let offset := u64_at r 8 in
      let size := u32_at r 16 in
      if offset >? 0 then (RDirectory [], s)
      else
        let sn := cache_snapshot (now x) s in
        match list_dir_snapshot x path s with
        | Err _ => (RError EIO, s)
        | Ok (l, complete) =>
            let s := remember_listing (later x) path l complete sn s in
            let buf := default [] (push_dirent [] size (nodeid r) 1 DT_DIR (bs ".")) in
            let buf := default buf (push_dirent buf size (nodeid r) 2 DT_DIR (bs "..")) in
            let '(buf, next, s) :=
              push_children path size 3 (map (fun d => (d, DT_DIR)) (l_prefixes l)) buf s in
            let files := List.filter (fun o => negb (ends_with (bs "/") (oi_key o))) (l_objects l) in
            let '(buf, _, s) := push_children path size next (map (fun o => (oi_key o, DT_REG)) files) buf s in
            (RDirectory buf, s)
        end
  end.

Definition O_WRONLY : Z := 1.
Definition O_RDWR : Z := 2.
Definition O_TRUNC : Z := 512.

Definition op_open (x : Ctx) (r : Request) (s : S3Fs) : Reply * S3Fs :=
  match path_of (nodeid r) s with
  | None => (RError ENOENT, s)
  | Some path =>
      let flags := u32_at r 0 in
      if negb (Z.land flags (Z.lor O_WRONLY O_RDWR) =? 0) then
        writable s
          match open_staged x path (negb (Z.land flags O_TRUNC =? 0)) s with
          | (Ok fh, s) => (ROpen fh, s)
          | (Err _, s) => (RError EIO, s)
          end
      else (ROpen 0, s)
  end.

Definition op_create (x : Ctx) (r : Request) (s : S3Fs) : Reply * S3Fs :=
  writable s
    match path_of (nodeid r) s with
    | None => (RError ENOENT, s)
    | Some parent =>
        match name_at r 16 with
        | None => (RError EINVAL, s)
        | Some name =>
            let path := join parent name in
            match open_staged x path true s with
            | (Err _, s) => (RError EIO, s)
            | (Ok fh, s) =>
                let (ino, s) := ino_for path s in
                (RCreate (attr_for ino (NFile 0 (clock x))) fh, s)
            end
        end
    end.

Definition read_from (b : bytes) (offset size : Z) : bytes :=
  let start := Z.min offset (len b) in
  slice b start (Z.min (start + size) (len b)).

Definition read_object (x : Ctx) (path : bytes) (offset size : Z) (s : S3Fs) : Reply :=
  match get_ranged x path offset (offset + size - 1) s with
  | Ok b => RData b
  | Err Status416 => RData []
  | Err _ => RError EIO
  end.

(** The staged file a read sees: its own handle's, or any of its path. *)
Definition staged_for (fh : Z) (path : bytes) (s : S3Fs) : option Staged :=
  match staged s !! fh with
  | Some st => Some st
  | None => snd <$> find_staged path (staged s)
  end.

Definition op_read (x : Ctx) (r : Request) (s : S3Fs) : Reply * S3Fs :=
  match path_of (nodeid r) s with
  | None => (RError ENOENT, s)
  | Some path =>
      let fh := u64_at r 0 in
      let offset := u64_at r 8 in
      let size := u32_at r 16 in
      match staged_for fh path s with
      | Some st =>
          if offset >? I64_MAX then (RError EIO, s) else (RData (read_from (st_file st) offset size), s)
      | None =>
          if size =? 0 then (RData [], s)
          else match known (now x) path s with
          | Some (Present (NFile total mtime)) =>
              if total <=? SMALL_FILE_MAX then
                match small_bytes x path total mtime s with
                | (Some b, s) => (RData (read_from b offset size), s)
                | (None, s) => (read_object x path offset size s, s)
                end
              else (read_object x path offset size s, s)
          | _ => (read_object x path offset size s, s)
          end
      end
  end.

Definition op_write (r : Request) (s : S3Fs) : Reply * S3Fs :=
  writable s
    (let fh := u64_at r 0 in
     let offset := u64_at r 8 in
     let size := u32_at r 16 in
     match get_range (data r) 40 (40 + size) with
     | None => (RError EINVAL, s)
     | Some d =>
         match staged s !! fh with
         | None => (RError EBADF, s)
         | Some st =>
             if (offset >? I64_MAX) || (negb (is_empty d) && (offset + size >? I64_MAX)) then (RError EIO, s)
             else
               (RWritten size,
                with_staged (insert fh (MkStaged (write_file (st_file st) offset d) (st_key st)
                  (Z.max (st_size st) (offset + size)) true (st_writers st))) s)
         end
     end).

Definition unit_reply (k : result unit Z * S3Fs) : Reply * S3Fs :=
  match k with (Ok _, s) => (ROk, s) | (Err e, s) => (RError e, s) end.

Definition op_flush (x : Ctx) (r : Request) (s : S3Fs) : Reply * S3Fs :=
  match path_of (nodeid r) s with
  | None => (RError ENOENT, s)
  | Some path => unit_reply (flush_staged x (u64_at r 0) path false s)
  end.

Definition op_fsync (x : Ctx) (r : Request) (s : S3Fs) : Reply * S3Fs :=
  match path_of (nodeid r) s with
  | None => (RError ENOENT, s)
  | Some path =>
      let fh := u64_at r 0 in
      let fh :=
        if fh =? 0 then match find_staged path (staged s) with Some (h, _) => h | None => fh end else fh in
      unit_reply (flush_staged x fh path false s)
  end.

Definition op_release (x : Ctx) (r : Request) (s : S3Fs) : Reply * S3Fs :=
  match path_of (nodeid r) s with
  | None => (ROk, s)
  | Some path => unit_reply (flush_staged x (u64_at r 0) path true s)
  end.

Definition op_unlink (x : Ctx) (r : Request) (s : S3Fs) : Reply * S3Fs :=
  writable s
    match path_of (nodeid r) s with
    | None => (RError ENOENT, s)
    | Some parent =>
        match name_at r 0 with
        | None => (RError EINVAL, s)
        | Some name =>
            let path := join parent name in
            match delete_key x path s with
            | (Err _, s) => (RError EIO, s)
            | (Ok _, s) => (ROk, remember (later x) path Absent (forget_bytes path (forget_path path s)))
            end
        end
    end.

Definition op_mkdir (x : Ctx) (r : Request) (s : S3Fs) : Reply * S3Fs :=
  writable s
    match path_of (nodeid r) s with
    | None => (RError ENOENT, s)
    | Some parent =>
        match name_at r 8 with
        | None => (RError EINVAL, s)
        | Some name =>
            let path := join parent name in
            match put x (path ++ bs "/") [] s with
            | (Err _, s) => (RError EIO, s)
            | (Ok _, s) =>
                let (ino, s) := ino_for path (remember (later x) path (Present NDir) s) in
                (REntry (attr_for ino NDir), s)
            end
        end
    end.

Definition op_rmdir (x : Ctx) (r : Request) (s : S3Fs) : Reply * S3Fs :=
  writable s
    match path_of (nodeid r) s with
    | None => (RError ENOENT, s)
    | Some parent =>
        match name_at r 0 with
        | None => (RError EINVAL, s)
        | Some name =>
            let path := join parent name in
            let remove :=
              match delete_key x (path ++ bs "/") s with
              | (Err _, s) => (RError EIO, s)
              | (Ok _, s) => (ROk, remember (later x) path Absent (forget_path path s))
              end in
            match list_dir_snapshot x path s with
            | Ok (l, _) =>
                if negb (bool_decide (l_objects l = [])) || negb (bool_decide (l_prefixes l = []))
                then (RError ENOTEMPTY, s) else remove
            | Err _ => remove
            end
        end
    end.

Definition rename_entry (x : Ctx) (from to : bytes) (s : S3Fs) : Reply * S3Fs :=
  let source := known (now x) from s in
  match copy x from to s with
  | (Err Status404, s) => (RError ENOENT, s)
  | (Err _, s) => (RError EIO, s)
  | (Ok mtime, s) =>
      let s := invalidate_copied_destination to (forget_bytes to s) in
      match delete_key x from s with
      | (Err _, s) => (RError EIO, s)
      | (Ok _, s) =>
          let s := remember (later x) from Absent (forget_bytes from (rename_path from to s)) in
          (ROk,
           match source with
           | Some (Present (NFile size _)) => remember (later x) to (Present (NFile size mtime)) s
           | _ => s
           end)
      end
  end.

Definition op_rename (x : Ctx) (r : Request) (s : S3Fs) : Reply * S3Fs :=
  writable s
    match path_of (nodeid r) s with
    | None => (RError ENOENT, s)
    | Some parent =>
        match name_at r 8 with
        | None => (RError EINVAL, s)
        | Some old_name =>
            match name_at r (8 + len old_name + 1) with
            | None => (RError EINVAL, s)
            | Some new_name =>
                match path_of (u64_at r 0) s with
                | None => (RError ENOENT, s)
                | Some new_parent =>
                    let from := join parent old_name in
                    let to := join new_parent new_name in
                    if bool_decide (from = to)
                    then match stat x from s with
                         | (Some _, s) => (ROk, s)
                         | (None, s) => (RError ENOENT, s)
                         end
                    else rename_entry x from to s
                end
            end
        end
    end.

Definition dispatch (memory : Z -> bool) (x : Ctx) (r : Request) (s : S3Fs) : Reply * S3Fs :=
  match opcode r with
  | 1 => op_lookup x r s
  | 3 => op_getattr x r s
  | 4 => op_setattr memory x r s
  | 27 => (ROpen 0, s)
  | 29 | 30 => (ROk, s)
  | 28 => op_readdir x r s
  | 14 => op_open x r s
  | 35 => op_create x r s
  | 15 => op_read x r s
  | 16 => op_write r s
  | 25 => op_flush x r s
  | 20 => op_fsync x r s
  | 18 => op_release x r s
  | 10 => op_unlink x r s
  | 9 => op_mkdir x r s
  | 11 => op_rmdir x r s
  | 12 => op_rename x r s
  | 17 => (RStatFs (Z.shiftl 1 40) (Z.shiftl 1 40) (Z.shiftl 1 40) (Z.shiftl 1 20), s)
  | 38 => (ROk, s)
  | _ => (RError ENOSYS, s)
  end.

End Fs.
End S3.
