(* ===== verification/S3FsFacts.v ===== *)
(** * S3FsFacts: the mount's invariant

    With no writer but the mount, what its caches claim of the bucket is true:
    files have the size recorded, what is recorded absent is absent, cached
    listings name every object of their level, and cached bytes are the
    object's. *)

From S2P Require Import Prelude RustStr S3Fs.

Module S3Facts.
Import Str S3.

(** ** Paths *)

(** A child of some directory. *)
Definition path_ok (p : bytes) : Prop := exists d name, slash_free name /\ p = join d name.

Lemma rsplit_once_free s : 47 ∉ s -> rsplit_once 47 s = None.
Proof.
  induction s as [|b s IH]; intros Hs; [done|]. apply not_elem_of_cons in Hs as [Hb Hs]. simpl.
  rewrite IH by done. by destruct (Z.eqb_spec b 47).
Qed.

Lemma rsplit_once_app d name : 47 ∉ name -> rsplit_once 47 (d ++ 47 :: name) = Some (d, name).
Proof. intros Hn. induction d as [|b d IH]; simpl; [by rewrite rsplit_once_free|by rewrite IH]. Qed.

Lemma split_join d name : slash_free name -> split_path (join d name) = (d, name).
Proof.
  intros [Hne Hn]. unfold split_path, join. destruct d as [|c d]; cbn [is_empty].
  - by rewrite rsplit_once_free.
  - change (bs "/" ++ name) with (47 :: name). by rewrite rsplit_once_app.
Qed.

Lemma join_inj d name d' name' :
  slash_free name -> slash_free name' -> join d name = join d' name' -> d = d' /\ name = name'.
Proof.
  intros Hn Hn' He. pose proof (split_join d name Hn) as H1. pose proof (split_join d' name' Hn') as H2.
  rewrite He, H2 in H1. by simplify_eq.
Qed.

Lemma join_last d name : join d name ++ bs "/" <> [] /\ forall q, slash_free q -> forall d', join d' q <> join d name ++ bs "/".
Proof.
  split; [by destruct (join d name)|]. intros q [Hne Hq] d' He.
  assert (last (join d' q) = last q) as Hl.
  { unfold join. destruct (is_empty d'); [done|]. rewrite !last_app. by destruct q using rev_ind; [|rewrite last_snoc]. }
  change (bs "/") with [47] in He. rewrite He, last_snoc in Hl. symmetry in Hl. apply last_Some in Hl as [l ->].
  apply Hq, elem_of_app. right. by left.
Qed.

Section Facts.
Context `{S3Service}.

(** ** Metadata *)

Definition claim_ok (b : bucket) (p : bytes) (k : Known) : Prop :=
  match k with
  | Present (NFile size _) => exists v t, object b p = Some (v, t) /\ size = len v
  | Present NDir => True
  | Absent => object b p = None
  end.

Definition names_total (ds : gmap bytes CachedDirectory) : Z :=
  foldr Z.add 0 (map (fun kv => Z.of_nat (size (cd_names kv.2))) (map_to_list ds)).

(** Every claim but those about [p], if any, is true of [b]. *)
Record meta_ok (but : option bytes) (b : bucket) (m : Metadata) : Prop := MkMetaOk {
  mo_entries : forall q k t, entries m !! q = Some (k, t) -> path_ok q /\ (but <> Some q -> claim_ok b q k);
  mo_dirs : forall d D name, directories m !! d = Some D -> slash_free name ->
    is_Some (object b (join d name)) -> but <> Some (join d name) -> name ∈ cd_names D;
  mo_listed : listed_names m = names_total (directories m);
}.

Lemma sum_perm (l l' : list Z) : l ≡ₚ l' -> foldr Z.add 0 l = foldr Z.add 0 l'.
Proof. induction 1; simpl; lia. Qed.

Lemma names_total_perm ds l :
  l ≡ₚ map_to_list ds -> names_total ds = foldr Z.add 0 (map (fun kv => Z.of_nat (size (cd_names kv.2))) l).
Proof.
  intros Hp. unfold names_total. by apply sum_perm; rewrite Hp.
Qed.

Lemma names_total_delete ds d D :
  ds !! d = Some D -> names_total ds = Z.of_nat (size (cd_names D)) + names_total (delete d ds).
Proof. intros Hd. by rewrite (names_total_perm ds _ (map_to_list_delete _ _ _ Hd)). Qed.

Lemma names_total_insert ds d D :
  names_total (<[d := D]> ds) = Z.of_nat (size (cd_names D)) + names_total (delete d ds).
Proof.
  rewrite (names_total_delete (<[d := D]> ds) d D) by apply lookup_insert_eq.
  by rewrite delete_insert_eq.
Qed.

Lemma names_total_nonneg ds : 0 <= names_total ds.
Proof. unfold names_total. induction (map_to_list ds); simpl; lia. Qed.

Lemma oldest_directory_in m path d :
  oldest_directory m = Some (path, d) -> directories m !! path = Some d.
Proof.
  unfold oldest_directory. destruct (map_to_list (directories m)) as [|x l] eqn:E; [done|].
  intros [= Hf]. apply elem_of_map_to_list. rewrite E.
  assert (forall l a, foldl older a l ∈ a :: l) as Hin.
  { clear. induction l as [|y l IH]; intros a; simpl; [by left|].
    specialize (IH (older a y)). apply elem_of_cons in IH as [->|IH]; [|right; by right].
    unfold older. case_match; [right; by left|by left]. }
  rewrite <-Hf. apply Hin.
Qed.

Lemma bound_directories_fuel_ok fuel but b m :
  meta_ok but b m -> meta_ok but b (bound_directories_fuel fuel m).
Proof.
  revert m. induction fuel as [|fuel IH]; intros m Hm; simpl; [done|]. case_match; [|done].
  destruct (oldest_directory m) as [[path d]|] eqn:Eo; [|done]. apply oldest_directory_in in Eo.
  apply IH. destruct Hm as [He Hd Hl]. split; [exact He| |]; simpl.
  - intros d' D name [_ HD]%lookup_delete_Some. by eapply Hd.
  - rewrite Hl, (names_total_delete _ _ _ Eo). lia.
Qed.

Lemma bound_directories_ok but b m : meta_ok but b m -> meta_ok but b (bound_directories m).
Proof. apply bound_directories_fuel_ok. Qed.

(** The loop ends within its bounds. *)
Lemma bound_directories_bounded but b m :
  meta_ok but b m ->
  listed_names (bound_directories m) <= DIRECTORY_CACHE_NAMES
  /\ Z.of_nat (size (directories (bound_directories m))) <= DIRECTORY_CACHE_COUNT.
Proof.
  intros Hm. unfold bound_directories.
  assert (forall fuel m, meta_ok but b m -> (size (directories m) < fuel)%nat ->
    listed_names (bound_directories_fuel fuel m) <= DIRECTORY_CACHE_NAMES
    /\ Z.of_nat (size (directories (bound_directories_fuel fuel m))) <= DIRECTORY_CACHE_COUNT) as Hf.
  { clear. induction fuel as [|fuel IH]; intros m Hm Hf; [lia|]. simpl. case_match eqn:Eg.
    - destruct (oldest_directory m) as [[path d]|] eqn:Eo.
      + pose proof (bound_directories_fuel_ok 1 but b m Hm) as Hm1. simpl in Hm1. rewrite Eg, Eo in Hm1.
        apply IH; [done|]. simpl. apply oldest_directory_in in Eo.
        assert (size (delete path (directories m)) = Nat.pred (size (directories m))) as ->
          by (apply map_size_delete_Some; by eexists).
        assert (size (directories m) <> 0%nat); [|lia]. intros H0%map_size_empty_inv.
        rewrite H0, lookup_empty in Eo. done.
      + unfold oldest_directory in Eo. destruct (map_to_list (directories m)) eqn:El; [|done].
        apply map_to_list_empty_iff in El. rewrite (mo_listed _ _ _ Hm), El. unfold names_total.
        rewrite map_to_list_empty, map_size_empty. vm_compute. split; done.
    - bool_simpl. lia. }
  apply Hf; [done|lia].
Qed.

Lemma list_name_ok but b parent name m :
  meta_ok but b m -> meta_ok but b (list_name parent name m).
Proof.
  intros [He Hd Hl]. unfold list_name. destruct (directories m !! parent) as [D|] eqn:ED; [|by split].
  case_bool_decide as Hn; [by split|]. split; simpl; [exact He| |].
  - intros d D' name'. destruct (decide (parent = d)) as [<-|Hne].
    + rewrite lookup_insert_eq. intros [= <-] Hf Hs Hb. simpl. apply elem_of_union_r. by eapply Hd.
    + rewrite lookup_insert_ne by done. by apply Hd.
  - rewrite Hl, names_total_insert, (names_total_delete _ _ _ ED). simpl.
    rewrite size_union by set_solver. rewrite size_singleton. lia.
Qed.

Lemma list_name_listed parent name m D :
  directories (list_name parent name m) !! parent = Some D -> name ∈ cd_names D.
Proof.
  unfold list_name. destruct (directories m !! parent) as [D0|] eqn:ED; [|congruence].
  case_bool_decide as Hn; simpl; [congruence|]. rewrite lookup_insert_eq. intros [= <-]. simpl. set_solver.
Qed.

Lemma unlist_name_ok b d name m :
  slash_free name -> meta_ok (Some (join d name)) b m ->
  object b (join d name) = None -> meta_ok (Some (join d name)) b (unlist_name d name m).
Proof.
  intros Hfree [He Hd Hl] Ho. unfold unlist_name. destruct (directories m !! d) as [D|] eqn:ED; [|by split].
  case_bool_decide as Hn; [|by split]. split; simpl; [exact He| |].
  - intros d' D' name'. destruct (decide (d = d')) as [<-|Hne].
    + rewrite lookup_insert_eq. intros [= <-] Hf Hs Hb. simpl. apply elem_of_difference.
      split; [by eapply Hd|]. intros ->%elem_of_singleton. by apply Hb.
    + rewrite lookup_insert_ne by done. by apply Hd.
  - rewrite Hl, names_total_insert, (names_total_delete _ _ _ ED). simpl.
    rewrite size_difference by set_solver. rewrite size_singleton.
    assert (size (cd_names D) <> 0%nat); [|lia]. intros H0%size_empty_inv. set_solver.
Qed.

(** The directories of a path's own entry, once its name is listed or gone. *)
Lemma set_entry_ok b p k t m :
  path_ok p -> meta_ok (Some p) b m -> claim_ok b p k ->
  (forall d name D, p = join d name -> slash_free name -> directories m !! d = Some D ->
     is_Some (object b p) -> name ∈ cd_names D) ->
  meta_ok None b (set_entries (insert p (k, t)) m).
Proof.
  intros Hp [He Hd Hl] Hk Hdir. split; simpl; [|intros d D name HD Hf Hs _|exact Hl].
  - intros q k' t'. destruct (decide (p = q)) as [<-|Hne].
    + rewrite lookup_insert_eq. by intros [= <- <-].
    + rewrite lookup_insert_ne by done. intros Hq%He. destruct Hq as [? Hq]. split; [done|].
      intros _. apply Hq. congruence.
  - destruct (decide (p = join d name)) as [->|Hne]; [by eapply Hdir|]. eapply Hd; [done..|congruence].
Qed.

Lemma record_ok b p k t m :
  path_ok p -> meta_ok (Some p) b m -> claim_ok b p k -> meta_ok None b (record p k t m).
Proof.
  intros (d & name & Hf & ->) Hm Hk. unfold record. rewrite (split_join d name Hf).
  apply bound_directories_ok, set_entry_ok; [by exists d, name| |done|].
  - destruct k; [by apply list_name_ok|by apply unlist_name_ok].
  - intros d' name' D He Hf' HD Hs. apply join_inj in He as [<- <-]; [|done..].
    destruct k; [by eapply list_name_listed|]. simpl in Hk. rewrite Hk in Hs. by destruct Hs.
Qed.

Lemma meta_ok_but but b m : meta_ok None b m -> meta_ok but b m.
Proof.
  intros [He Hd Hl]. split; [|intros; by eapply Hd|done]. intros q k t Hq.
  destruct (He q k t Hq) as [? Hc]. split; [done|]. intros _. by apply Hc.
Qed.

Lemma bump_ok but b m : meta_ok but b m -> meta_ok but b (bump m).
Proof. intros [He Hd Hl]. by split. Qed.

Lemma prune_meta_ok but b ttl t m : meta_ok but b m -> meta_ok but b (prune_entries ttl t m).
Proof.
  intros [He Hd Hl]. unfold prune_entries. case_match; [|by split]. split; simpl; [|done|done].
  intros q k t' [Hq _]%map_lookup_filter_Some. by apply He in Hq.
Qed.

(** The bucket changes at one key. *)
Definition agree_but (p : bytes) (b b' : bucket) : Prop := forall q, q <> p -> object b' q = object b q.

Lemma claim_agree p b b' q k : agree_but p b b' -> q <> p -> claim_ok b q k -> claim_ok b' q k.
Proof. intros Ha Hq. unfold claim_ok. by rewrite (Ha q Hq). Qed.

Lemma meta_ok_change p b b' m : agree_but p b b' -> meta_ok None b m -> meta_ok (Some p) b' m.
Proof.
  intros Ha [He Hd Hl]. split; [| |done].
  - intros q k t Hq. destruct (He q k t Hq) as [Hok Hc]. split; [done|]. intros Hne.
    apply (claim_agree p b); [done|congruence|by apply Hc].
  - intros d D name HD Hf Hs Hne. eapply Hd; [done..| |done]. rewrite <-(Ha (join d name)); [done|congruence].
Qed.

(** A key no path names may change freely. *)
Lemma meta_ok_marker p b b' m :
  agree_but (p ++ bs "/") b b' -> path_ok p -> meta_ok None b m -> meta_ok None b' m.
Proof.
  intros Ha (dp & np & Hnp & ->) [He Hd Hl].
  assert (forall q, path_ok q -> object b' q = object b q) as Hq.
  { intros q (d & name & Hf & ->). apply Ha. by apply join_last. }
  split; [| |done].
  - intros q k t Hqk. destruct (He q k t Hqk) as [Hok Hc]. split; [done|]. intros _.
    specialize (Hc ltac:(done)). unfold claim_ok in *. by rewrite (Hq q Hok).
  - intros d D name HD Hf Hs _. eapply Hd; [done..| |done]. rewrite <-(Hq (join d name)); [done|].
    by exists d, name.
Qed.

(** ** The whole state *)

Record fs_ok (s : S3Fs) : Prop := MkFsOk {
  fo_staged : forall fh st, staged s !! fh = Some st ->
    0 < fh < next_fh s /\ st_size st = len (st_file st) /\ path_ok (st_key st)
    /\ (st_dirty st = false -> exists t, object (the_bucket s) (st_key st) = Some (st_file st, t));
  fo_keys : forall fh fh' st st', staged s !! fh = Some st -> staged s !! fh' = Some st' ->
    st_key st = st_key st' -> fh = fh';
  fo_fh : 0 < next_fh s;
  fo_meta : meta_ok None (the_bucket s) (meta s);
  fo_ttl : cache_ttl s = 0 -> entries (meta s) = ∅ /\ directories (meta s) = ∅;
  fo_small : forall p f, small s !! p = Some f -> path_ok p
    /\ sf_size f = len (sf_bytes f) /\ exists t, object (the_bucket s) p = Some (sf_bytes f, t);
  fo_inodes : forall i p, inodes s !! i = Some p <-> paths s !! p = Some i;
  fo_next : forall i p, inodes s !! i = Some p -> i < next_ino s /\ (p = [] \/ path_ok p);
}.

(** What a program sees of the files. *)
Definition view (s : S3Fs) (p : bytes) : option bytes :=
  match find_staged p (staged s) with
  | Some (_, st) => Some (st_file st)
  | None => fst <$> object (the_bucket s) p
  end.

Lemma find_staged_Some s p fh st :
  find_staged p (staged s) = Some (fh, st) -> staged s !! fh = Some st /\ st_key st = p.
Proof.
  unfold find_staged. intros [Hin Hk]%find_some. simpl in Hk. bool_simpl.
  split; [|done]. by apply elem_of_map_to_list, list_elem_of_In.
Qed.

Lemma find_staged_None s p :
  find_staged p (staged s) = None <-> forall fh st, staged s !! fh = Some st -> st_key st <> p.
Proof.
  unfold find_staged. split.
  - intros Hf fh st Hst Hk.
    assert (In (fh, st) (map_to_list (staged s))) as Hin by by apply list_elem_of_In, elem_of_map_to_list.
    pose proof (find_none _ _ Hf _ Hin) as Hx. simpl in Hx. by bool_simpl.
  - intros Hn. destruct (List.find _ _) as [[fh st]|] eqn:E; [|done].
    apply find_some in E as [Hin Hk]. simpl in Hk. bool_simpl.
    apply list_elem_of_In, elem_of_map_to_list in Hin. by apply Hn in Hin.
Qed.

Lemma find_staged_unique s fh st :
  fs_ok s -> staged s !! fh = Some st -> find_staged (st_key st) (staged s) = Some (fh, st).
Proof.
  intros Hs Hst. destruct (find_staged (st_key st) (staged s)) as [[fh' st']|] eqn:E.
  - apply find_staged_Some in E as [Hst' Hk]. assert (fh' = fh) as -> by by eapply (fo_keys s Hs).
    by simplify_eq.
  - apply find_staged_None with (fh := fh) (st := st) in E; [|done]. by destruct E.
Qed.

(** ** Changes that only touch the caches or the inode tables *)

Record same_core (s s' : S3Fs) : Prop := MkSame {
  sc_bucket : the_bucket s' = the_bucket s;
  sc_ro : read_only s' = read_only s;
  sc_ttl : cache_ttl s' = cache_ttl s;
  sc_fh : next_fh s' = next_fh s;
  sc_staged : staged s' = staged s;
}.
#[global] Instance same_core_refl : Reflexive same_core.
Proof. by intros s. Qed.
#[global] Instance same_core_trans : Transitive same_core.
Proof. intros s1 s2 s3 [] []. split; congruence. Qed.

Lemma same_core_view s s' p : same_core s s' -> view s' p = view s p.
Proof. intros [Hb _ _ _ Hs]. unfold view. by rewrite Hb, Hs. Qed.

(** The bound on listings never adds one. *)
Lemma bound_directories_empty m : directories m = ∅ -> bound_directories m = m.
Proof.
  intros Hd. unfold bound_directories. rewrite Hd, map_size_empty. simpl. unfold oldest_directory.
  rewrite Hd, map_to_list_empty. by case_match.
Qed.

Lemma fs_ok_meta s f :
  fs_ok s -> meta_ok None (the_bucket s) (f (meta s)) -> cache_ttl s <> 0 -> fs_ok (with_meta f s).
Proof. intros [] Hm Ht. split; try done. Qed.

Lemma record_observed_ok s ttl path k t later :
  fs_ok s -> path_ok path -> claim_ok (the_bucket s) path k -> cache_ttl s <> 0 ->
  fs_ok (with_meta (fun m => record path k t (prune_entries ttl later m)) s).
Proof.
  intros Hs Hp Hk Ht. apply fs_ok_meta; [done| |done].
  apply record_ok; [done| |done]. by apply prune_meta_ok, meta_ok_but, fo_meta.
Qed.

Lemma still_valid_ttl later sn s : still_valid later sn s = true -> cache_ttl s <> 0.
Proof. unfold still_valid. intros Hv. by bool_simpl. Qed.

Lemma remember_observed_ok later path k sn s :
  fs_ok s -> path_ok path -> claim_ok (the_bucket s) path k ->
  fs_ok (remember_observed later path k sn s) /\ same_core s (remember_observed later path k sn s).
Proof.
  intros Hs Hp Hk. unfold remember_observed. destruct (still_valid later sn s) eqn:Ev; [|done].
  split; [|done]. apply record_observed_ok; [done..|by eapply still_valid_ttl].
Qed.

Lemma records_ok b dir t children m :
  meta_ok None b m ->
  (forall name n, (name, n) ∈ children -> slash_free name /\ claim_ok b (join dir name) (Present n)) ->
  meta_ok None b (foldl (fun m '(name, n) => record (join dir name) (Present n) t m) m children).
Proof.
  revert m. induction children as [|[name n] children IH]; intros m Hm Hc; [done|]. simpl. apply IH.
  - destruct (Hc name n) as [Hf Hk]; [by left|]. apply record_ok; [by exists dir, name|by apply meta_ok_but|done].
  - intros name' n' Hin. apply Hc. by right.
Qed.

Lemma store_directory_ok b dir names t m :
  meta_ok None b m ->
  (forall name, slash_free name -> is_Some (object b (join dir name)) -> name ∈ names) ->
  meta_ok None b (store_directory dir names t m).
Proof.
  intros [He Hd Hl] Hn. unfold store_directory. apply bound_directories_ok. split; simpl; [exact He| |].
  - intros d D name. destruct (decide (dir = d)) as [<-|Hne].
    + rewrite lookup_insert_eq. intros [= <-] Hf Hs _. by apply Hn.
    + rewrite lookup_insert_ne by done. by apply Hd.
  - rewrite names_total_insert. simpl. destruct (directories m !! dir) as [D|] eqn:ED.
    + rewrite Hl, (names_total_delete _ _ _ ED). lia.
    + rewrite delete_id by done. lia.
Qed.

Lemma listed_children_ok b dir :
  let l := (list_level b dir).1 in
  (forall name n, (name, n) ∈ listed_children l -> slash_free name /\ claim_ok b (join dir name) (Present n))
  /\ ((list_level b dir).2 = true -> forall name, slash_free name -> is_Some (object b (join dir name)) ->
       name ∈ map fst (listed_children l)).
Proof.
  intros l. split.
  - intros name n [Hin|Hin]%elem_of_app.
    + apply list_elem_of_fmap in Hin as (p & [= -> ->] & Hp). split; [by eapply list_prefixes|done].
    + apply list_elem_of_omap in Hin as (o & Ho & Hc). destruct (list_sound b dir o Ho) as [Hs1 Hs2].
      unfold listed_child in Hc. destruct (ends_with (bs "/") (oi_key o)).
      * destruct (is_empty (trim_end_matches 47 (oi_key o))) eqn:Et; [done|]. injection Hc as <- <-.
        split; [|done]. apply Hs2. intros Hnil. by rewrite Hnil in Et.
      * injection Hc as <- <-. destruct (Hs1 eq_refl) as (Hf & v & Hv & Hsz). split; [done|]. simpl.
        by exists v, (oi_time o).
  - intros Hc name Hf Hs. pose proof (list_complete b dir name Hc Hf Hs) as Hin.
    apply list_elem_of_fmap in Hin as (o & -> & Ho). unfold listed_children. rewrite map_app.
    apply elem_of_app. right. apply list_elem_of_fmap. exists (oi_key o, NFile (oi_size o) (oi_time o)).
    split; [done|]. apply list_elem_of_omap. exists o. split; [done|]. unfold listed_child.
    destruct (ends_with (bs "/") (oi_key o)) eqn:Ee; [|done]. exfalso.
    apply bool_decide_eq_true in Ee as [r Hr]. unfold strip_suffix in Hr.
    destruct (strip_prefix (rev (bs "/")) (rev (oi_key o))) as [q|] eqn:Eq; [|done].
    change (rev (bs "/")) with [47] in Eq. destruct (rev (oi_key o)) as [|c cs] eqn:Er; [done|].
    cbn [strip_prefix] in Eq. destruct (Z.eqb_spec 47 c) as [<-|]; [|done]. apply Hf.
    rewrite <-(rev_involutive (oi_key o)), Er. simpl. apply elem_of_app. right. by left.
Qed.

(** A listing whose claims are true of the bucket. *)
Definition listing_true (b : bucket) (dir : bytes) (l : Listing) (complete : bool) : Prop :=
  (forall name n, (name, n) ∈ listed_children l -> slash_free name /\ claim_ok b (join dir name) (Present n))
  /\ (complete = true -> forall name, slash_free name -> is_Some (object b (join dir name)) ->
       name ∈ map fst (listed_children l)).

Lemma remember_listing_true later dir l complete sn s :
  fs_ok s -> dir = [] \/ path_ok dir -> listing_true (the_bucket s) dir l complete ->
  fs_ok (remember_listing later dir l complete sn s)
  /\ same_core s (remember_listing later dir l complete sn s).
Proof.
  intros Hs Hdir [Hch Hall].
  unfold remember_listing. destruct (still_valid later sn s) eqn:Ev; [|done]. simpl. split; [|done].
  apply fs_ok_meta; [done| |by eapply still_valid_ttl].
  set (m1 := prune_entries _ _ _).
  assert (meta_ok None (the_bucket s) m1) as H1 by by apply prune_meta_ok, fo_meta.
  set (m2 := if _ && _ then _ else m1).
  assert (meta_ok None (the_bucket s) m2) as H2.
  { unfold m2. destruct Hdir as [->|Hp]; [done|]. case_match; [|done].
    apply record_ok; [done|by apply meta_ok_but|done]. }
  pose proof (records_ok _ dir (sn_started sn) (listed_children l) m2 H2 Hch) as H3.
  destruct complete; [|done]. simpl. case_match; [|done]. apply store_directory_ok; [done|].
  intros name Hf Hx. apply elem_of_list_to_set. by apply Hall.
Qed.

Lemma remember_listing_ok later dir sn s :
  fs_ok s -> dir = [] \/ path_ok dir ->
  let '(l, complete) := list_level (the_bucket s) dir in
  fs_ok (remember_listing later dir l complete sn s)
  /\ same_core s (remember_listing later dir l complete sn s).
Proof.
  intros Hs Hdir. pose proof (listed_children_ok (the_bucket s) dir) as Hl.
  destruct (list_level (the_bucket s) dir) as [l complete]. by apply remember_listing_true.
Qed.

Lemma ino_for_ok path s :
  fs_ok s -> path = [] \/ path_ok path -> fs_ok (ino_for path s).2 /\ same_core s (ino_for path s).2.
Proof.
  intros Hs Hp. unfold ino_for. destruct (paths s !! path) as [i|] eqn:Ei; [done|]. split; [|done].
  destruct Hs. split; try done; simpl.
  - intros i p. destruct (decide (next_ino s = i)) as [<-|Hne]; [rewrite lookup_insert_eq|rewrite lookup_insert_ne by done].
    + split; [intros [= <-]; apply lookup_insert_eq|]. destruct (decide (path = p)) as [<-|Hnp]; [done|].
      rewrite lookup_insert_ne by done. intros Hx%fo_inodes0. apply fo_next0 in Hx. lia.
    + rewrite fo_inodes0. destruct (decide (path = p)) as [<-|Hnp]; [rewrite lookup_insert_eq, Ei; naive_solver|].
      by rewrite lookup_insert_ne.
  - intros i p. destruct (decide (next_ino s = i)) as [<-|Hne]; [rewrite lookup_insert_eq|rewrite lookup_insert_ne by done].
    + intros [= <-]. split; [lia|done].
    + intros Hx%fo_next0. destruct Hx. split; [lia|done].
Qed.

Lemma forget_path_ok path s : fs_ok s -> fs_ok (forget_path path s) /\ same_core s (forget_path path s).
Proof.
  intros Hs. unfold forget_path. destruct (paths s !! path) as [i|] eqn:Ei; [|done]. split; [|done].
  pose proof (proj2 (fo_inodes s Hs i path) Ei) as Hi. destruct Hs. split; try done; simpl.
  - intros j p. rewrite !lookup_delete_Some, fo_inodes0. split.
    + intros [Hne Hp]. split; [|done]. intros <-. congruence.
    + intros [Hne Hp]. split; [|done]. intros <-. apply fo_inodes0 in Hp. congruence.
  - intros j p [_ Hp]%lookup_delete_Some. by apply fo_next0 in Hp.
Qed.

Lemma rename_path_ok from to s :
  fs_ok s -> path_ok to -> from <> to ->
  fs_ok (rename_path from to s) /\ same_core s (rename_path from to s).
Proof.
  intros Hs Hto Hne. unfold rename_path. destruct (forget_path_ok to s Hs) as [Hs1 Hc1].
  assert (paths (forget_path to s) !! to = None) as Hnone.
  { unfold forget_path. destruct (paths s !! to) eqn:E; [apply lookup_delete_eq|done]. }
  set (s1 := forget_path to s) in *. destruct (paths s1 !! from) as [i|] eqn:Ei; [|done].
  split; [|by destruct Hc1; split].
  pose proof (proj2 (fo_inodes s1 Hs1 i from) Ei) as Hi. destruct Hs1. split; try done; simpl.
  - intros j p. destruct (decide (i = j)) as [<-|Hij]; [rewrite lookup_insert_eq|rewrite lookup_insert_ne by done].
    + split; [intros [= <-]; apply lookup_insert_eq|].
      destruct (decide (to = p)) as [<-|Hp]; [done|]. rewrite lookup_insert_ne by done.
      intros [Hf Hx]%lookup_delete_Some. apply fo_inodes0 in Hx. congruence.
    + rewrite fo_inodes0. destruct (decide (to = p)) as [<-|Hp].
      * rewrite lookup_insert_eq, Hnone. naive_solver.
      * rewrite lookup_insert_ne, lookup_delete_Some by done. split; [|naive_solver].
        intros Hx. split; [|done]. intros <-. congruence.
  - intros j p. destruct (decide (i = j)) as [<-|Hij]; [rewrite lookup_insert_eq|rewrite lookup_insert_ne by done].
    + intros [= <-]. split; [by apply (fo_next0 i from)|by right].
    + apply fo_next0.
Qed.

(** ** Changes of the bucket *)

Lemma remember_core t p k s : same_core s (remember t p k s).
Proof. unfold remember. by case_match. Qed.

(** The bucket changed at [p], the mount forgets the bytes and records what
    [p] is now. *)
Lemma change_ok s p b' k t :
  fs_ok s -> path_ok p -> agree_but p (the_bucket s) b' -> claim_ok b' p k ->
  (forall fh st, staged s !! fh = Some st -> st_key st = p -> st_dirty st = false ->
     exists t, object b' p = Some (st_file st, t)) ->
  fs_ok (remember t p k (forget_bytes p (with_bucket b' s))).
Proof.
  intros Hs Hp Ha Hk Hst. set (s1 := forget_bytes p (with_bucket b' s)).
  assert (meta_ok (Some p) b' (meta s)) as Hm by by eapply meta_ok_change, fo_meta.
  assert (meta_ok None b' (meta (remember t p k s1))) as Hm1.
  { unfold remember. change (cache_ttl s1) with (cache_ttl s). destruct (Z.eqb_spec (cache_ttl s) 0) as [Ht|Ht].
    - destruct (fo_ttl s Hs Ht) as [He Hd]. destruct Hm as [_ _ Hl]. split; simpl.
      + intros q k' t'. by rewrite He, lookup_empty.
      + intros d D name. by rewrite Hd, lookup_empty.
      + done.
    - simpl. apply record_ok; [done|by apply bump_ok, prune_meta_ok|done]. }
  destruct (remember_core t p k s1) as [Hb _ Httl Hfh Hstg]. destruct Hs.
  assert (inodes (remember t p k s1) = inodes s /\ paths (remember t p k s1) = paths s
    /\ next_ino (remember t p k s1) = next_ino s /\ small (remember t p k s1) = delete p (small s)) as (Ei & Ep & En & Esm).
  { unfold remember. by case_match. }
  split; rewrite ?Hb, ?Httl, ?Hfh, ?Hstg, ?Ei, ?Ep, ?En, ?Esm; try done; simpl.
  - intros fh st Hfs. destruct (fo_staged0 fh st Hfs) as (? & ? & ? & Hcl). repeat (split; [done|]).
    intros Hd. destruct (decide (st_key st = p)) as [Hkp|Hkp]; [rewrite Hkp; by eapply Hst|].
    rewrite (Ha (st_key st) Hkp). by apply Hcl.
  - intros Ht. unfold remember. simpl. rewrite Ht. simpl. by apply fo_ttl0.
  - intros q f [Hne Hf]%lookup_delete_Some. destruct (fo_small0 q f Hf) as (? & ? & t' & Ho).
    split; [done|]. split; [done|]. exists t'. by rewrite (Ha q) by done.
Qed.

Lemma view_change s s' p b' :
  the_bucket s' = b' -> staged s' = staged s -> agree_but p (the_bucket s) b' ->
  find_staged p (staged s) = None ->
  forall q, view s' q = if bool_decide (q = p) then fst <$> object b' p else view s q.
Proof.
  intros Hb Hst Ha Hn q. unfold view. rewrite Hb, Hst. case_bool_decide as Hq; [subst q; by rewrite Hn|].
  by rewrite (Ha q Hq).
Qed.

Lemma put_agree b p v t : agree_but p b (put_object b p v t).
Proof. intros q Hq. rewrite object_put. by rewrite bool_decide_eq_false_2. Qed.
Lemma put_same b p v t : object (put_object b p v t) p = Some (v, t).
Proof. rewrite object_put. by rewrite bool_decide_eq_true_2. Qed.
Lemma delete_agree b p : agree_but p b (delete_object b p).
Proof. intros q Hq. rewrite object_delete. by rewrite bool_decide_eq_false_2. Qed.
Lemma delete_same b p : object (delete_object b p) p = None.
Proof. rewrite object_delete. by rewrite bool_decide_eq_true_2. Qed.

End Facts.
End S3Facts.
