(* ===== verification/S3FsSteps.v ===== *)
(** * S3FsSteps: each request against the files a program sees *)

From S2P Require Import Prelude RustStr S3Fs S3FsFacts.

Module S3Steps.
Import Str S3 S3Facts.

Section Steps.
Context `{S3Service}.

(** Calls that fail are not applied. *)
Definition unambiguous (x : Ctx) : Prop := forall c, outcome x c <> Ambiguous.

Definition files : Type := bytes -> option bytes.
Definition upd (V : files) (p : bytes) (v : option bytes) : files :=
  fun q => if bool_decide (q = p) then v else V q.

Definition same_files (s s' : S3Fs) : Prop := forall q, view s' q = view s q.
Definition files_at (s' : S3Fs) (V : files) : Prop := forall q, view s' q = V q.

(** ** Lookups *)

Lemma known_claim t p k s : fs_ok s -> path_ok p -> known t p s = Some k -> claim_ok (the_bucket s) p k.
Proof.
  intros Hs Hp. unfold known. destruct (cache_ttl s =? 0); [done|].
  destruct (mbind _ (entries (meta s) !! p)) as [k'|] eqn:Ee.
  - intros [= <-]. destruct (entries (meta s) !! p) as [[k0 t0]|] eqn:E0; [|done]. simpl in Ee.
    case_match; [|done]. injection Ee as <-. by apply (mo_entries _ _ _ (fo_meta s Hs) p k0 t0).
  - destruct Hp as (d & name & Hf & ->). rewrite (split_join d name Hf). simpl.
    destruct (directories (meta s) !! d) as [D|] eqn:ED; [|done]. simpl. case_match eqn:Eg; [|done].
    intros [= <-]. bool_simpl. simpl. destruct (object (the_bucket s) (join d name)) eqn:Eo; [|done].
    exfalso. apply H1. eapply (mo_dirs _ _ _ (fo_meta s Hs)); [done|done|by eexists|done].
Qed.

Lemma head_Ok x p s info :
  head x p s = Ok info ->
  match info with
  | Some i => exists v, object (the_bucket s) p = Some (v, oi_time i) /\ oi_size i = len v
  | None => object (the_bucket s) p = None
  end.
Proof.
  unfold head. destruct (outcome x Head); [|done..]. intros [= <-].
  destruct (object (the_bucket s) p) as [[v t]|]; simpl; [by exists v|done].
Qed.

(** A file's attributes are those of its contents. *)
Lemma stat_ok x path s :
  fs_ok s -> path = [] \/ path_ok path ->
  let '(n, s') := stat x path s in
  fs_ok s' /\ same_core s s'
  /\ forall sz m, n = Some (NFile sz m) -> exists c, view s path = Some c /\ len c = sz.
Proof.
  intros Hs Hp. unfold stat. destruct Hp as [->|Hp]; [done|].
  assert (is_empty path = false) as ->.
  { destruct Hp as (d & name & [Hn _] & ->). unfold join. destruct d; [by destruct name|done]. }
  destruct (find_staged path (staged s)) as [[fh st]|] eqn:Ef.
  { split; [done|]. split; [done|]. intros sz m [= <- _]. unfold view. rewrite Ef. exists (st_file st).
    split; [done|]. apply find_staged_Some in Ef as [Hst _]. by destruct (fo_staged s Hs fh st Hst) as (_ & -> & _). }
  assert (forall sz m, claim_ok (the_bucket s) path (Present (NFile sz m)) ->
    exists c, view s path = Some c /\ len c = sz) as Hview.
  { intros sz m (v & t & Ho & ->). exists v. split; [|done]. unfold view. by rewrite Ef, Ho. }
  destruct (known (now x) path s) as [[n|]|] eqn:Ek.
  { split; [done|]. split; [done|]. intros sz m [= ->]. eapply Hview. by eapply known_claim. }
  { done. }
  destruct (head x path s) as [[info|]|e] eqn:Eh.
  - apply head_Ok in Eh as (v & Ho & Hsz). set (n := NFile _ _).
    assert (claim_ok (the_bucket s) path (Present n)) as Hc by (simpl; eauto).
    destruct (remember_observed_ok (later x) path (Present n) (cache_snapshot (now x) s) s Hs Hp Hc).
    split; [done|]. split; [done|]. intros sz m [= <- <-]. by eapply Hview.
  - apply head_Ok in Eh. unfold list_dir_snapshot. destruct (outcome x List); [|done..].
    pose proof (remember_listing_ok (later x) path (cache_snapshot (now x) s) s Hs (or_intror Hp)) as Hl.
    destruct (list_level (the_bucket s) path) as [l complete]. destruct Hl as [Hs1 Hc1].
    destruct (nonempty_listing l); [done|]. simpl. destruct complete; [|done].
    set (s1 := remember_listing _ _ _ _ _ s) in *.
    destruct (remember_observed_ok (later x) path Absent (cache_snapshot (now x) s) s1 Hs1 Hp) as [Hs2 Hc2].
    { simpl. by rewrite (sc_bucket _ _ Hc1). }
    split; [done|]. split; [by etrans|done].
  - simpl. unfold list_dir_snapshot. destruct (outcome x List); [|done..].
    pose proof (remember_listing_ok (later x) path (cache_snapshot (now x) s) s Hs (or_intror Hp)) as Hl.
    destruct (list_level (the_bucket s) path) as [l complete]. destruct Hl as [Hs1 Hc1].
    by destruct (nonempty_listing l).
Qed.

(** ** Staged files *)

Lemma staged_update_ok s fh st st' :
  fs_ok s -> staged s !! fh = Some st -> st_key st' = st_key st -> st_size st' = len (st_file st') ->
  (st_dirty st' = false -> exists t, object (the_bucket s) (st_key st) = Some (st_file st', t)) ->
  fs_ok (with_staged (insert fh st') s)
  /\ files_at (with_staged (insert fh st') s) (upd (view s) (st_key st) (Some (st_file st'))).
Proof.
  intros Hs Hst Hk Hsz Hd.
  assert (fs_ok (with_staged (insert fh st') s)) as Hs'.
  { destruct (fo_staged s Hs fh st Hst) as (Hfh & _ & Hpk & _). destruct Hs. split; try done; simpl.
    - intros h sth. destruct (decide (fh = h)) as [<-|Hne]; [rewrite lookup_insert_eq|by rewrite lookup_insert_ne; auto].
      intros [= <-]. rewrite Hk. done.
    - intros h h' a b. destruct (decide (fh = h)) as [<-|Hn], (decide (fh = h')) as [<-|Hn'];
        rewrite ?lookup_insert_eq, ?lookup_insert_ne by done; [done| | |by eapply fo_keys0].
      + intros [= <-] Hb Hab. rewrite Hk in Hab. by eapply fo_keys0.
      + intros Ha [= <-] Hab. rewrite Hk in Hab. by eapply fo_keys0. }
  split; [done|]. intros q. unfold upd. case_bool_decide as Hq.
  - subst q. unfold view.
    assert (find_staged (st_key st) (staged (with_staged (insert fh st') s)) = Some (fh, st')) as ->; [|done].
    rewrite <-Hk. apply find_staged_unique; [done|]. apply lookup_insert_eq.
  - unfold view. simpl. destruct (find_staged q (staged s)) as [[h a]|] eqn:E.
    + apply find_staged_Some in E as [Ha Hka]. assert (h <> fh) by (intros ->; congruence).
      pose proof (find_staged_unique (with_staged (insert fh st') s) h a Hs') as Hf. simpl in Hf.
      rewrite Hka in Hf. by rewrite Hf by (by rewrite lookup_insert_ne).
    + destruct (find_staged q (<[fh := st']> (staged s))) as [[h a]|] eqn:E'; [|done].
      apply (find_staged_Some (with_staged (insert fh st') s)) in E' as [Ha Hka]. simpl in Ha.
      destruct (decide (fh = h)) as [<-|Hne]; [rewrite lookup_insert_eq in Ha; simplify_eq; congruence|].
      rewrite lookup_insert_ne in Ha by done. by apply (proj1 (find_staged_None s q) E) in Ha.
Qed.

Lemma staged_new_ok s p b dirty :
  fs_ok s -> path_ok p -> find_staged p (staged s) = None ->
  (dirty = false -> exists t, object (the_bucket s) p = Some (b, t)) ->
  let s' := MkFs (the_bucket s) (read_only s) (cache_ttl s) (next_ino s) (next_fh s + 1) (inodes s) (paths s)
    (<[next_fh s := MkStaged b p (len b) dirty 1]> (staged s)) (meta s) (small s) in
  fs_ok s' /\ files_at s' (upd (view s) p (Some b)).
Proof.
  intros Hs Hp Hn Hd s'. set (st := MkStaged b p (len b) dirty 1).
  assert (staged s !! next_fh s = None) as Hfree.
  { destruct (staged s !! next_fh s) as [a|] eqn:E; [|done]. apply (fo_staged s Hs) in E. lia. }
  assert (fs_ok s') as Hs'.
  { pose proof (proj1 (find_staged_None s p) Hn) as Hnk. destruct Hs. split; try done; simpl.
    - intros h a. destruct (decide (next_fh s = h)) as [<-|Hne].
      + rewrite lookup_insert_eq. intros [= <-]. split; [lia|]. done.
      + rewrite lookup_insert_ne by done. intros Ha. destruct (fo_staged0 h a Ha) as (? & ?). split; [lia|done].
    - intros h h' a a'. destruct (decide (next_fh s = h)) as [<-|Hh], (decide (next_fh s = h')) as [<-|Hh'];
        rewrite ?lookup_insert_eq, ?lookup_insert_ne by done; [done| | |by eapply fo_keys0].
      + intros [= <-] Ha' Hkk. simpl in Hkk. symmetry in Hkk. by apply Hnk in Ha'.
      + intros Ha [= <-] Hkk. simpl in Hkk. by apply Hnk in Ha.
    - lia. }
  split; [done|]. intros q. unfold upd. case_bool_decide as Hq.
  - subst q. unfold view. pose proof (find_staged_unique s' (next_fh s) st Hs') as Hf.
    change (st_key st) with p in Hf. by rewrite Hf by apply lookup_insert_eq.
  - unfold view. simpl. fold st. destruct (find_staged q (staged s)) as [[h a]|] eqn:E.
    + apply find_staged_Some in E as [Ha Hka]. assert (next_fh s <> h) by (intros <-; congruence).
      pose proof (find_staged_unique s' h a Hs') as Hf. rewrite Hka in Hf. simpl in Hf. fold st in Hf.
      by rewrite Hf by (by rewrite lookup_insert_ne).
    + destruct (find_staged q (<[next_fh s := st]> (staged s))) as [[h a]|] eqn:E'; [|done].
      apply (find_staged_Some s') in E' as [Ha Hka]. simpl in Ha.
      destruct (decide (next_fh s = h)) as [<-|Hne]; [rewrite lookup_insert_eq in Ha; injection Ha as <-; simpl in Hka; congruence|].
      rewrite lookup_insert_ne in Ha by done. by apply (proj1 (find_staged_None s q) E) in Ha.
Qed.

Lemma get_whole_Ok x p s b : get_whole x p s = Ok b -> exists t, object (the_bucket s) p = Some (b, t).
Proof.
  unfold get_whole. destruct (outcome x Get); [|done..]. destruct (object (the_bucket s) p) as [[v t]|]; [|done].
  intros [= <-]. by exists t.
Qed.

Lemma resize_file_0 b : resize_file b 0 = [].
Proof. done. Qed.

Lemma len_resize_file b n : 0 <= n -> len (resize_file b n) = n.
Proof.
  intros Hn. unfold resize_file, len in *. rewrite length_take, length_app, length_replicate. lia.
Qed.

Lemma upd_view s p v : view s p = v -> forall q, upd (view s) p v q = view s q.
Proof. intros Hv q. unfold upd. case_bool_decide; congruence. Qed.

Lemma open_staged_ok x p trunc s :
  fs_ok s -> path_ok p ->
  let '(r, s') := open_staged x p trunc s in
  fs_ok s' /\ match r with
    | Ok fh => files_at s' (if trunc then upd (view s) p (Some []) else view s) /\ 0 < fh
        /\ (exists st, staged s' !! fh = Some st /\ st_key st = p)
    | Err _ => s' = s
    end.
Proof.
  intros Hs Hp. unfold open_staged. destruct (find_staged p (staged s)) as [[fh st]|] eqn:Ef.
  - pose proof (find_staged_Some s p fh st Ef) as [Hst Hk].
    destruct (fo_staged s Hs fh st Hst) as (Hfh & Hsz & _ & Hcl). set (st' := MkStaged _ _ _ _ _).
    destruct (staged_update_ok s fh st st') as [Hs' Hv]; [done|done|by destruct trunc| | |].
    { destruct trunc; [reflexivity|done]. }
    { destruct trunc; [done|exact Hcl]. }
    split; [done|]. split; [|split; [lia|]].
    + intros q. rewrite Hv, Hk. destruct trunc; [done|]. apply upd_view. unfold view. by rewrite Ef.
    + exists st'. split; [apply lookup_insert_eq|]. by destruct trunc.
  - destruct trunc.
    + destruct (staged_new_ok s p [] true Hs Hp Ef) as [Hs' Hv]; [done|]. split; [done|].
      split; [done|]. split; [by apply fo_fh|]. eexists. split; [apply lookup_insert_eq|done].
    + destruct (get_whole x p s) as [b|] eqn:Eg; [|done]. apply get_whole_Ok in Eg as [t Ho].
      destruct (staged_new_ok s p b false Hs Hp Ef) as [Hs' Hv]; [by exists t|]. split; [done|].
      split; [|split; [by apply fo_fh|eexists; split; [apply lookup_insert_eq|done]]].
      intros q. rewrite Hv. apply upd_view. unfold view. by rewrite Ef, Ho.
Qed.

(** ** Uploads *)

Lemma mutate_cases o b s : o <> Ambiguous ->
  mutate o b s = (Ok tt, with_bucket b s) \/ mutate o b s = (Err OtherError, s).
Proof. destruct o; simpl; auto; done. Qed.

Lemma remember_staged t p k f s :
  remember t p k (with_staged f s) = with_staged f (remember t p k s).
Proof. unfold remember. simpl. by case_match. Qed.

Lemma upload_ok x fh st s :
  unambiguous x -> fs_ok s -> staged s !! fh = Some st ->
  let '(r, s') := upload x fh st (st_key st) s in
  fs_ok s' /\ same_files s s'
  /\ match r with
     | Ok _ => (exists t, object (the_bucket s') (st_key st) = Some (st_file st, t))
        /\ exists st', staged s' !! fh = Some st' /\ st_writers st' = st_writers st /\ st_dirty st' = false
             /\ st_key st' = st_key st /\ st_file st' = st_file st
     | Err _ => s' = s
     end.
Proof.
  intros Hx Hs Hst. destruct (fo_staged s Hs fh st Hst) as (Hfh & Hsz & Hp & Hcl). unfold upload.
  destruct (st_dirty st) eqn:Ed; [|split; [done|]; split; [done|]; split; [by apply Hcl|by exists st]].
  unfold put. set (b' := put_object _ _ _ _).
  destruct (mutate_cases (outcome x Put) b' s (Hx Put)) as [-> | ->]; [|done].
  set (k := Present _). set (clean := MkStaged _ _ _ _ _).
  set (s1 := remember (later x) (st_key st) k (forget_bytes (st_key st) (with_bucket b' s))).
  assert (fs_ok s1) as Hs1.
  { apply change_ok; [done|done|apply put_agree| |].
    - exists (st_file st), (server_time x). split; [apply put_same|done].
    - intros h a Ha Hka Hda. assert (h = fh) as -> by by eapply (fo_keys s Hs). congruence. }
  assert (remember (later x) (st_key st) k (forget_bytes (st_key st) (with_staged (insert fh clean) (with_bucket b' s)))
    = with_staged (insert fh clean) s1) as ->.
  { unfold s1. by rewrite <-remember_staged. }
  pose proof (remember_core (later x) (st_key st) k (forget_bytes (st_key st) (with_bucket b' s))) as Hcore. fold s1 in Hcore.
  assert (staged s1 !! fh = Some st) as Hst1 by by rewrite (sc_staged _ _ Hcore).
  assert (object (the_bucket s1) (st_key st) = Some (st_file st, server_time x)) as Ho.
  { rewrite (sc_bucket _ _ Hcore). apply put_same. }
  destruct (staged_update_ok s1 fh st clean) as [Hs2 Hv2]; [done|done|done|done|by eexists|].
  split; [done|]. split; [|split; [by eexists|]].
  - intros q. rewrite Hv2. unfold upd. case_bool_decide as Hq.
    + subst q. unfold view. by rewrite (find_staged_unique s fh st Hs Hst).
    + unfold view. rewrite (sc_staged _ _ Hcore), (sc_bucket _ _ Hcore). simpl.
      assert (object b' q = object (the_bucket s) q) as -> by by apply put_agree. done.
  - exists clean. simpl. split; [apply lookup_insert_eq|done].
Qed.

Lemma staged_remove_ok s fh st :
  fs_ok s -> staged s !! fh = Some st -> st_dirty st = false ->
  fs_ok (with_staged (delete fh) s) /\ same_files s (with_staged (delete fh) s).
Proof.
  intros Hs Hst Hd. destruct (fo_staged s Hs fh st Hst) as (_ & _ & _ & Hcl). destruct (Hcl Hd) as [t Ho].
  assert (fs_ok (with_staged (delete fh) s)) as Hs'.
  { destruct Hs. split; try done; simpl.
    - intros h a [_ Ha]%lookup_delete_Some. by apply fo_staged0.
    - intros h h' a a' [_ Ha]%lookup_delete_Some [_ Ha']%lookup_delete_Some. by eapply fo_keys0. }
  split; [done|]. intros q. unfold view. simpl.
  destruct (find_staged q (delete fh (staged s))) as [[h a]|] eqn:E.
  - apply (find_staged_Some (with_staged (delete fh) s)) in E as [Ha Hk]. simpl in Ha.
    apply lookup_delete_Some in Ha as [_ Ha]. rewrite <-Hk. by rewrite (find_staged_unique s h a Hs Ha).
  - destruct (find_staged q (staged s)) as [[h a]|] eqn:E'; [|done].
    apply find_staged_Some in E' as [Ha Hk].
    destruct (decide (h = fh)) as [->|Hne]; [simplify_eq; by rewrite Ho|].
    exfalso. apply (proj1 (find_staged_None (with_staged (delete fh) s) q) E h a); [|done].
    simpl. by rewrite lookup_delete_ne.
Qed.

(** A flush changes no file, and once it succeeds the object is the file. *)
Lemma flush_staged_ok x fh path close s :
  unambiguous x -> fs_ok s -> (forall st, staged s !! fh = Some st -> st_key st = path) ->
  let '(r, s') := flush_staged x fh path close s in
  fs_ok s' /\ same_files s s'
  /\ forall st, staged s !! fh = Some st -> r = Ok tt ->
       exists t, object (the_bucket s') path = Some (st_file st, t).
Proof.
  intros Hx Hs Hk. unfold flush_staged. destruct (staged s !! fh) as [st|] eqn:Est; [|done].
  specialize (Hk st eq_refl). set (st1 := if close then _ else st).
  assert (st_key st1 = path /\ st_file st1 = st_file st /\ st_size st1 = st_size st /\ st_dirty st1 = st_dirty st)
    as (Hk1 & Hf1 & Hz1 & Hd1) by by destruct close.
  destruct (fo_staged s Hs fh st Est) as (_ & Hsz & _ & Hcl).
  destruct (staged_update_ok s fh st st1) as [Hs1 Hv1]; [done|done|congruence|congruence| |].
  { rewrite Hd1, Hf1. exact Hcl. }
  set (s1 := with_staged (insert fh st1) s) in *.
  assert (staged s1 !! fh = Some st1) as Hst1 by apply lookup_insert_eq.
  assert (same_files s s1) as Hsame1.
  { intros q. rewrite Hv1. apply upd_view. unfold view. by rewrite (find_staged_unique s fh st Hs Est), Hf1. }
  pose proof (upload_ok x fh st1 s1 Hx Hs1 Hst1) as Hu. rewrite <-Hk1.
  destruct (upload x fh st1 (st_key st1) s1) as [r s2]. destruct Hu as (Hs2 & Hsame2 & Hr).
  destruct r as [[]|e]; [|split; [done|]; split; [|done]; intros q; by rewrite Hsame2].
  destruct Hr as [[t Ho] (st2 & Hst2 & Hw2 & Hd2 & _)].
  destruct (st_writers st1 =? 0).
  - destruct (staged_remove_ok s2 fh st2 Hs2 Hst2 Hd2) as [Hs3 Hsame3]. split; [done|]. split.
    + intros q. by rewrite Hsame3, Hsame2.
    + intros ? [= <-] _. exists t. simpl. by rewrite <-Hf1.
  - split; [done|]. split; [intros q; by rewrite Hsame2|]. intros ? [= <-] _. exists t. by rewrite <-Hf1.
Qed.

End Steps.
End S3Steps.
