(* ===== verification/S3FsOps.v ===== *)
(** * S3FsOps: every handler refines the files a program sees *)

From S2P Require Import Prelude RustStr S3Fs S3FsFacts S3FsSteps.

Module S3Ops.
Import Str S3 S3Facts S3Steps.

Section Ops.
Context `{S3Service}.

(** ** Requests as the kernel sends them *)

Definition name_ok (r : Request) (offset : Z) : Prop :=
  forall name, name_at r offset = Some name -> slash_free name.
(** A handle is used on the file it was opened for. *)
Definition handle_ok (s : S3Fs) (r : Request) (fh : Z) : Prop :=
  forall st p, staged s !! fh = Some st -> path_of (nodeid r) s = Some p -> st_key st = p.
(** No file is removed or replaced while it is being written. *)
Definition not_staged (s : S3Fs) (ino : Z) (r : Request) (offset : Z) : Prop :=
  forall parent name, path_of ino s = Some parent -> name_at r offset = Some name ->
    find_staged (join parent name) (staged s) = None.

Definition well_used (s : S3Fs) (r : Request) : Prop :=
  is_bytes (data r)
  /\ match opcode r with
     | 1 => name_ok r 0
     | 9 => name_ok r 8
     | 10 => name_ok r 0 /\ not_staged s (nodeid r) r 0
     | 11 => name_ok r 0 /\ forall parent name, path_of (nodeid r) s = Some parent ->
               name_at r 0 = Some name -> view s (join parent name) = None
     | 12 => name_ok r 8 /\ not_staged s (nodeid r) r 8
             /\ forall name, name_at r 8 = Some name ->
                  name_ok r (8 + len name + 1) /\ not_staged s (u64_at r 0) r (8 + len name + 1)
     | 35 => name_ok r 16
     | 4 => handle_ok s r (u64_at r 8)
            /\ forall p, path_of (nodeid r) s = Some p -> Z.land (u32_at r 0) FATTR_SIZE <> 0 -> p <> []
     | 14 => forall p, path_of (nodeid r) s = Some p -> p <> []
     | 15 | 18 | 20 | 25 => handle_ok s r (u64_at r 0)
     | 16 => forall st, staged s !! u64_at r 0 = Some st -> u32_at r 16 = 0 ->
               u64_at r 8 <= len (st_file st)
     | _ => True
     end.

(** ** What a request does to the files *)

(** Keys that end in a slash mark directories and are no files. *)
Definition fs_eq (V V' : files) : Prop := forall q, path_ok q -> V' q = V q.
#[local] Infix "≈" := fs_eq (at level 70).

Definition resizes (r : Request) : bool := negb (Z.land (u32_at r 0) FATTR_SIZE =? 0).
Definition child (s : S3Fs) (ino : Z) (r : Request) (offset : Z) (p : bytes) : Prop :=
  exists parent name, path_of ino s = Some parent /\ name_at r offset = Some name /\ p = join parent name.

Definition write_effect (s : S3Fs) (r : Request) (rep : Reply) (V V' : files) : Prop :=
  match rep with
  | RWritten n => exists st old d, staged s !! u64_at r 0 = Some st /\ V (st_key st) = Some old
      /\ get_range (data r) 40 (40 + n) = Some d
      /\ upd V (st_key st) (Some (write_file old (u64_at r 8) d)) ≈ V'
  | _ => V ≈ V'
  end.

Definition read_effect (s : S3Fs) (r : Request) (rep : Reply) (V V' : files) : Prop :=
  V ≈ V' /\ forall d, rep = RData d ->
    (u32_at r 16 = 0 /\ d = [])
    \/ exists p c, path_of (nodeid r) s = Some p /\ V p = Some c
         /\ d = read_from c (u64_at r 8) (u32_at r 16).

Definition rename_effect (s : S3Fs) (r : Request) (rep : Reply) (V V' : files) : Prop :=
  V ≈ V' /\ (rep = ROk -> exists p, child s (nodeid r) r 8 p
      /\ exists name, name_at r 8 = Some name /\ child s (u64_at r 0) r (8 + len name + 1) p)
  \/ exists name from to v, name_at r 8 = Some name /\ child s (nodeid r) r 8 from
       /\ child s (u64_at r 0) r (8 + len name + 1) to /\ V from = Some v
       /\ match rep with
          | ROk => upd (upd V to (Some v)) from None ≈ V'
          | _ => upd V to (Some v) ≈ V'
          end.

Definition effect (s : S3Fs) (r : Request) (rep : Reply) (V V' : files) : Prop :=
  match opcode r with
  | 4 => V ≈ V' /\ (forall a, rep = RAttr a -> resizes r = false)
         \/ resizes r = true /\ exists p, path_of (nodeid r) s = Some p
              /\ upd V p (Some (resize_file (default [] (V p)) (u64_at r 16))) ≈ V'
  | 10 => match rep with
          | ROk => exists p, child s (nodeid r) r 0 p /\ upd V p None ≈ V'
          | _ => V ≈ V'
          end
  | 12 => rename_effect s r rep V V'
  | 14 => match rep with
          | ROpen fh => exists p, path_of (nodeid r) s = Some p /\
              (if (0 <? fh) && negb (Z.land (u32_at r 0) O_TRUNC =? 0) then upd V p (Some []) else V) ≈ V'
          | _ => V ≈ V'
          end
  | 15 => read_effect s r rep V V'
  | 16 => write_effect s r rep V V'
  | 35 => match rep with
          | RCreate _ _ => exists p, child s (nodeid r) r 16 p /\ upd V p (Some []) ≈ V'
          | _ => V ≈ V'
          end
  | _ => V ≈ V'
  end.

(** A reply that describes a file gives the size of its contents. *)
Definition attrs (s : S3Fs) (r : Request) (rep : Reply) (V' : files) : Prop :=
  match opcode r, rep with
  | 1, REntry a => exists p, child s (nodeid r) r 0 p
      /\ (a_mode a = FILE_MODE -> exists c, V' p = Some c /\ len c = a_size a)
  | 3, RAttr a | 4, RAttr a => exists p, path_of (nodeid r) s = Some p
      /\ (a_mode a = FILE_MODE -> exists c, V' p = Some c /\ len c = a_size a)
  | _, _ => True
  end.

Lemma files_at_eq V s' : files_at s' V -> V ≈ view s'.
Proof. intros Hf q _. apply Hf. Qed.
Lemma same_core_eq s s' : same_core s s' -> view s ≈ view s'.
Proof. intros Hc q _. by apply same_core_view. Qed.

(** ** Numbers of a request *)

Lemma u64_at_nonneg r o : is_bytes (data r) -> 0 <= u64_at r o.
Proof.
  intros Hd. unfold u64_at, get_range. case_match eqn:E; [|done]. case_match; [|done]. injection E as <-.
  apply from_le_bound. apply Forall_take, Forall_drop, Hd.
Qed.

Lemma remember_inodes t p k s : inodes (remember t p k s) = inodes s.
Proof. unfold remember. by destruct (cache_ttl s =? 0). Qed.

(** ** Truncation *)

Lemma truncate_ok memory x path fh n s :
  unambiguous x -> fs_ok s -> path_ok path -> 0 <= n ->
  (forall h st, fh = Some h -> staged s !! h = Some st -> st_key st = path) ->
  let '(r, s') := truncate memory x path fh n s in
  fs_ok s' /\ inodes s' = inodes s
  /\ match r with
     | Ok _ => files_at s' (upd (view s) path (Some (resize_file (default [] (view s path)) n)))
     | Err _ => files_at s' (view s)
     end.
Proof.
  intros Hx Hs Hp Hn Hfh. unfold truncate.
  destruct (existsb _ _) eqn:Ee.
  - destruct (n >? I64_MAX); [done|]. apply existsb_exists in Ee as ([h st] & Hin & Ht). simpl in Ht.
    apply list_elem_of_In, elem_of_map_to_list in Hin.
    assert (st_key st = path) as Hk.
    { unfold truncates in Ht. apply orb_true_iff in Ht as [Ht|Ht]; bool_simpl; [done|by eapply Hfh]. }
    assert (map_imap (fun handle st0 => Some (if truncates path fh handle st0 then set_staged_len n st0 else st0))
      (staged s) = <[h := set_staged_len n st]> (staged s)) as Hm.
    { apply map_eq. intros j. rewrite map_lookup_imap. destruct (decide (h = j)) as [<-|Hne].
      - rewrite lookup_insert_eq, Hin. simpl. by rewrite Ht.
      - rewrite lookup_insert_ne by done. destruct (staged s !! j) as [a|] eqn:Ea; [|done]. simpl. f_equal.
        destruct (truncates path fh j a) eqn:Et; [|done]. exfalso. apply Hne.
        assert (st_key a = path) as Hka.
        { unfold truncates in Et. apply orb_true_iff in Et as [Et|Et]; bool_simpl; [done|by eapply Hfh]. }
        eapply (fo_keys s Hs); [done..|congruence]. }
    destruct (staged_update_ok s h st (set_staged_len n st)) as [Hs' Hv]; [done|done|done| |done|].
    { simpl. by rewrite len_resize_file. }
    assert (with_staged (map_imap (fun handle st0 =>
      Some (if truncates path fh handle st0 then set_staged_len n st0 else st0))) s
      = with_staged (insert h (set_staged_len n st)) s) as ->.
    { unfold with_staged. by rewrite Hm. }
    split; [done|]. split; [done|]. intros q. rewrite Hv, Hk. unfold upd. case_bool_decide; [|done].
    unfold view. rewrite <-Hk, (find_staged_unique s h st Hs Hin). done.
  - assert (find_staged path (staged s) = None) as Hf.
    { apply find_staged_None. intros h st Hst Hk. apply not_true_iff_false in Ee. apply Ee, existsb_exists.
      exists (h, st). split; [by apply list_elem_of_In, elem_of_map_to_list|]. unfold truncates. simpl.
      by rewrite bool_decide_eq_true_2. }
    destruct (if n =? 0 then _ else _) as [b|] eqn:Eg; [|done].
    assert (resize_file b n = resize_file (default [] (view s path)) n) as Hb.
    { destruct (Z.eqb_spec n 0) as [->|]; [done|]. apply get_whole_Ok in Eg as [t Ho].
      unfold view. by rewrite Hf, Ho. }
    destruct (_ && _); [done|]. unfold put. set (b' := put_object _ _ _ _).
    destruct (mutate_cases (outcome x Put) b' s (Hx Put)) as [-> | ->]; [|done].
    set (k := Present _). set (s1 := forget_bytes path (with_bucket b' s)).
    assert (fs_ok (remember (later x) path k s1)) as Hs1.
    { apply change_ok; [done|done|apply put_agree| |].
      - exists (resize_file b n), (server_time x). split; [apply put_same|by rewrite len_resize_file].
      - intros h st Hst Hk. by apply (proj1 (find_staged_None s path) Hf) in Hst. }
    split; [done|]. split; [by rewrite remember_inodes|].
    pose proof (remember_core (later x) path k s1) as Hc. intros q.
    rewrite (view_change s _ path b'); [|apply (sc_bucket _ _ Hc)|apply (sc_staged _ _ Hc)|apply put_agree|done].
    unfold upd. case_bool_decide; [|done]. unfold b'. by rewrite put_same, Hb.
Qed.

(** ** Reading *)

Lemma remember_same_ok t p k s :
  fs_ok s -> path_ok p -> claim_ok (the_bucket s) p k -> fs_ok (remember t p k s).
Proof.
  intros Hs Hp Hk. unfold remember. destruct (Z.eqb_spec (cache_ttl s) 0); [done|].
  apply fs_ok_meta; [done| |done]. apply record_ok; [done| |done].
  by apply bump_ok, prune_meta_ok, meta_ok_but, fo_meta.
Qed.

Lemma with_small_ok s f :
  fs_ok s ->
  (forall p g, f (small s) !! p = Some g -> path_ok p
     /\ sf_size g = len (sf_bytes g) /\ exists t, object (the_bucket s) p = Some (sf_bytes g, t)) ->
  fs_ok (with_small f s).
Proof. intros [] Hf. by split. Qed.

Lemma evict_sub fuel total sz m : evict fuel total sz m ⊆ m.
Proof.
  revert total m. induction fuel as [|fuel IH]; intros total m; simpl; [done|]. case_match; [|done].
  destruct (map_to_list m); [done|]. destruct (foldl _ _ _) as [path f].
  etrans; [apply IH|apply delete_subseteq].
Qed.

Lemma small_bytes_ok x path sz mtime s :
  fs_ok s -> path_ok path ->
  let '(r, s') := small_bytes x path sz mtime s in
  fs_ok s' /\ same_core s s' /\ inodes s' = inodes s
  /\ forall b, r = Some b -> exists t, object (the_bucket s) path = Some (b, t).
Proof.
  intros Hs Hp. unfold small_bytes. destruct (small_hit (now x) path sz mtime s) as [f|] eqn:Eh.
  - unfold small_hit in Eh. destruct (small s !! path) as [f'|] eqn:Ef; [|done]. simpl in Eh.
    case_match; [|done]. injection Eh as ->. destruct (fo_small s Hs path f Ef) as (_ & Hsz & Ho).
    split; [|split; [done|split; [done|by intros ? [= <-]]]]. apply with_small_ok; [done|]. intros q g.
    destruct (decide (path = q)) as [<-|Hne]; [rewrite lookup_insert_eq; by intros [= <-]|].
    rewrite lookup_insert_ne by done. apply (fo_small s Hs).
  - destruct (get_whole x path s) as [b|] eqn:Eg; [|done]. apply get_whole_Ok in Eg as [t Ho].
    unfold keep_bytes. destruct (Z.eqb_spec (len b) sz) as [<-|Hne]; cbn [negb].
    + split; [|split; [done|split; [done|]]]; [|intros ? [= <-]; by exists t]. apply with_small_ok; [done|]. intros q g.
      destruct (decide (path = q)) as [<-|Hne].
      * rewrite lookup_insert_eq. intros [= <-]. simpl. split; [done|]. split; [done|]. by exists t.
      * rewrite lookup_insert_ne by done. intros Hg. apply (fo_small s Hs). by apply (lookup_weaken _ _ _ _ Hg (evict_sub _ _ _ _)).
    + split; [apply remember_same_ok; [done|done|by exists b, t]|]. split; [apply remember_core|].
      split; [by rewrite remember_inodes|]. intros ? [= <-]. by exists t.
Qed.

Lemma read_range_ok x path offset n s d :
  0 <= offset -> 0 < n -> find_staged path (staged s) = None ->
  read_object x path offset n s = RData d ->
  exists c, view s path = Some c /\ d = read_from c offset n.
Proof.
  intros Ho Hn Hf. unfold read_object, get_ranged. destruct (outcome x GetRange); [|done..].
  destruct (object (the_bucket s) path) as [[v t]|] eqn:Eo; [|done].
  assert (view s path = Some v) as Hv by (unfold view; by rewrite Hf, Eo).
  destruct (Z.geb_spec offset (len v)).
  - intros [= <-]. exists v. split; [done|]. unfold read_from. rewrite Z.min_r by lia.
    unfold slice. replace (Z.to_nat (Z.min (len v + n) (len v) - len v)) with 0%nat by lia. by rewrite take_0.
  - intros [= <-]. exists v. split; [done|]. unfold read_from. rewrite (Z.min_l offset) by lia.
    do 2 f_equal. lia.
Qed.

Lemma known_present t p n s : fs_ok s -> known t p s = Some (Present n) -> path_ok p.
Proof.
  intros Hs. unfold known. destruct (cache_ttl s =? 0); [done|].
  destruct (mbind _ (entries (meta s) !! p)) as [k'|] eqn:Ee.
  - intros _. destruct (entries (meta s) !! p) as [[k0 t0]|] eqn:E0; [|done].
    by apply (mo_entries _ _ _ (fo_meta s Hs) p k0 t0).
  - destruct (split_path p) as [d name]. destruct (directories (meta s) !! d); [|done]. simpl. by case_match.
Qed.

Lemma op_read_ok x r s :
  fs_ok s -> well_used s r -> opcode r = 15 ->
  let '(rep, s') := op_read x r s in
  fs_ok s' /\ read_effect s r rep (view s) (view s').
Proof.
  intros Hs [Hd Hw] Ho. rewrite Ho in Hw. unfold op_read, read_effect.
  destruct (path_of (nodeid r) s) as [path|] eqn:Ep; [|done].
  pose proof (u64_at_nonneg r 8 Hd) as Hoff.
  assert (0 <= u32_at r 16) as Hsz.
  { unfold u32_at, get_range. case_match eqn:E; [|done]. case_match; [|done]. injection E as <-.
    apply from_le_bound. apply Forall_take, Forall_drop, Hd. }
  destruct (staged_for (u64_at r 0) path s) as [st|] eqn:Est.
  - assert (view s path = Some (st_file st)) as Hv.
    { unfold staged_for in Est. destruct (staged s !! u64_at r 0) as [a|] eqn:Ea.
      - injection Est as ->. rewrite <-(Hw st path Ea Ep). unfold view.
        by rewrite (find_staged_unique s _ _ Hs Ea).
      - destruct (find_staged path (staged s)) as [[h a]|] eqn:Ef; [|done]. simpl in Est. injection Est as ->.
        unfold view. by rewrite Ef. }
    destruct (u64_at r 8 >? I64_MAX); [done|].
    split; [done|]. split; [done|]. intros d [= <-]. right. by exists path, (st_file st).
  - assert (find_staged path (staged s) = None) as Hf.
    { unfold staged_for in Est. destruct (staged s !! u64_at r 0); [done|]. by destruct (find_staged path (staged s)). }
    destruct (Z.eqb_spec (u32_at r 16) 0) as [Hz|Hz].
    { split; [done|]. split; [done|]. intros d [= <-]. by left. }
    assert (forall s', same_core s s' -> forall d, read_object x path (u64_at r 8) (u32_at r 16) s' = RData d ->
      exists p c, Some path = Some p /\ view s p = Some c /\ d = read_from c (u64_at r 8) (u32_at r 16)) as Hobj.
    { intros s' Hc d Hrd. apply read_range_ok in Hrd as (c & Hv & ->); [|lia|lia|by rewrite (sc_staged _ _ Hc)].
      rewrite (same_core_view s s') in Hv by done. by exists path, c. }
    destruct (known (now x) path s) as [[[|total mtime]|]|] eqn:Ek;
      try (split; [done|]; split; [done|]; intros d Hrd; right; by eapply Hobj).
    destruct (total <=? SMALL_FILE_MAX); [|split; [done|]; split; [done|]; intros d Hrd; right; by eapply Hobj].
    pose proof (known_present _ _ _ _ Hs Ek) as Hp.
    pose proof (small_bytes_ok x path total mtime s Hs Hp) as Hsm.
    destruct (small_bytes x path total mtime s) as [[b|] s1]; destruct Hsm as (Hs1 & Hc1 & _ & Hb).
    + split; [done|]. split; [intros q _; by apply same_core_view|]. intros d [= <-]. right.
      destruct (Hb b eq_refl) as [t Hob]. exists path, b. split; [done|]. split; [|done].
      unfold view. by rewrite Hf, Hob.
    + split; [done|]. split; [intros q _; by apply same_core_view|]. intros d Hrd. right. by eapply Hobj.
Qed.

(** ** Writing and opening *)

Lemma len_write_file b o d :
  0 <= o -> (d = [] -> o <= len b) -> len (write_file b o d) = Z.max (len b) (o + len d).
Proof.
  intros Ho Hd. destruct d as [|c d]; [rewrite len_nil; specialize (Hd eq_refl); simpl; lia|].
  unfold write_file, len in *. repeat rewrite ?length_app, ?length_take, ?length_drop, ?length_replicate. lia.
Qed.

Lemma op_write_ok r s :
  fs_ok s -> well_used s r -> opcode r = 16 ->
  let '(rep, s') := op_write r s in
  fs_ok s' /\ write_effect s r rep (view s) (view s').
Proof.
  intros Hs [Hd Hw] Ho. rewrite Ho in Hw. unfold op_write, writable, write_effect. destruct (read_only s); [done|].
  destruct (get_range (data r) 40 (40 + u32_at r 16)) as [d|] eqn:Eg; [|done].
  destruct (staged s !! u64_at r 0) as [st|] eqn:Est; [|done].
  destruct (_ || _); [done|].
  pose proof (u64_at_nonneg r 8 Hd) as Hoff. pose proof (get_range_Some _ _ _ _ Eg) as (_ & _ & Hlen).
  destruct (fo_staged s Hs _ _ Est) as (_ & Hsz & _).
  destruct (staged_update_ok s (u64_at r 0) st (MkStaged (write_file (st_file st) (u64_at r 8) d) (st_key st)
    (Z.max (st_size st) (u64_at r 8 + u32_at r 16)) true (st_writers st))) as [Hs' Hv]; [done|done|done| |done|].
  { simpl. rewrite len_write_file, Hsz; [lia|done|].
    intros ->. apply (Hw st eq_refl). rewrite len_nil in Hlen. lia. }
  split; [done|]. exists st, (st_file st), d. split; [done|]. split.
  - unfold view. by rewrite (find_staged_unique s _ _ Hs Est).
  - split; [done|]. by apply files_at_eq.
Qed.

Lemma inode_path s i p : fs_ok s -> path_of i s = Some p -> p = [] \/ path_ok p.
Proof. intros Hs Hp. by apply (fo_next s Hs i p). Qed.

Lemma child_path parent name : slash_free name -> path_ok (join parent name).
Proof. intros Hn. by exists parent, name. Qed.

(** The kernel opens no directory for writing. *)
Lemma op_open_ok x r s :
  fs_ok s -> (forall p, path_of (nodeid r) s = Some p -> p <> []) ->
  let '(rep, s') := op_open x r s in
  fs_ok s' /\ match rep with
    | ROpen fh => exists p, path_of (nodeid r) s = Some p /\
        (if (0 <? fh) && negb (Z.land (u32_at r 0) O_TRUNC =? 0) then upd (view s) p (Some []) else view s) ≈ view s'
    | _ => view s ≈ view s'
    end.
Proof.
  intros Hs Hroot. unfold op_open. destruct (path_of (nodeid r) s) as [p|] eqn:Ep; [|done].
  destruct (inode_path s _ _ Hs Ep) as [->|Hp]; [by destruct (Hroot [] eq_refl)|].
  destruct (negb _); [|by split; [|exists p]].
  unfold writable. destruct (read_only s); [done|].
  pose proof (open_staged_ok x p (negb (Z.land (u32_at r 0) O_TRUNC =? 0)) s Hs Hp) as Ho.
  destruct (open_staged _ _ _ _) as [[fh|e] s']; [|by destruct Ho as [? ->]].
  destruct Ho as (Hs' & Hv & Hfh & _). split; [done|]. exists p. split; [done|].
  destruct (Z.ltb_spec 0 fh); [|lia]. simpl. by apply files_at_eq.
Qed.

Lemma op_create_ok x r s :
  fs_ok s -> name_ok r 16 ->
  let '(rep, s') := op_create x r s in
  fs_ok s' /\ match rep with
    | RCreate _ _ => exists p, child s (nodeid r) r 16 p /\ upd (view s) p (Some []) ≈ view s'
    | _ => view s ≈ view s'
    end.
Proof.
  intros Hs Hn. unfold op_create, writable. destruct (read_only s); [done|].
  destruct (path_of (nodeid r) s) as [parent|] eqn:Ep; [|done].
  destruct (name_at r 16) as [name|] eqn:En; [|done].
  pose proof (child_path parent name (Hn name En)) as Hp. set (path := join parent name) in *.
  pose proof (open_staged_ok x path true s Hs Hp) as Ho.
  destruct (open_staged x path true s) as [[fh|e] s1]; [|by destruct Ho as [? ->]].
  destruct Ho as (Hs1 & Hv1 & _). destruct (ino_for_ok path s1 Hs1 (or_intror Hp)) as [Hs2 Hc2].
  destruct (ino_for path s1) as [ino s2]. simpl in *. split; [done|]. exists path. split; [by exists parent, name|].
  intros q _. by rewrite (same_core_view s1 s2).
Qed.

(** ** Attributes *)

Lemma stat_reply_ok x r path s :
  fs_ok s -> path = [] \/ path_ok path ->
  let '(rep, s') := stat_reply x r path s in
  fs_ok s' /\ same_core s s'
  /\ (forall a, rep = RAttr a -> a_mode a = FILE_MODE -> exists c, view s path = Some c /\ len c = a_size a).
Proof.
  intros Hs Hp. unfold stat_reply. pose proof (stat_ok x path s Hs Hp) as Hst.
  destruct (stat x path s) as [[n|] s']; destruct Hst as (Hs' & Hc & Hf); [|done].
  split; [done|]. split; [done|]. intros a [= <-]. destruct n as [|sz m]; simpl; [done|]. intros _. by eapply Hf.
Qed.

Lemma op_lookup_ok x r s :
  fs_ok s -> name_ok r 0 ->
  let '(rep, s') := op_lookup x r s in
  fs_ok s' /\ view s ≈ view s'
  /\ match rep with
     | REntry a => exists p, child s (nodeid r) r 0 p
         /\ (a_mode a = FILE_MODE -> exists c, view s' p = Some c /\ len c = a_size a)
     | _ => True
     end.
Proof.
  intros Hs Hn. unfold op_lookup. destruct (path_of (nodeid r) s) as [parent|] eqn:Ep; [|done].
  destruct (name_at r 0) as [name|] eqn:En; [|done].
  pose proof (child_path parent name (Hn name En)) as Hp. set (path := join parent name) in *.
  pose proof (stat_ok x path s Hs (or_intror Hp)) as Hst.
  destruct (stat x path s) as [[n|] s1]; destruct Hst as (Hs1 & Hc1 & Hf); [|split; [done|]; split; [by apply same_core_eq|done]].
  destruct (ino_for_ok path s1 Hs1 (or_intror Hp)) as [Hs2 Hc2].
  destruct (ino_for path s1) as [ino s2]. simpl in *.
  assert (same_core s s2) as Hc by by etrans.
  split; [done|]. split; [by apply same_core_eq|]. exists path. split; [by exists parent, name|].
  destruct n as [|sz m]; simpl; [done|]. intros _. rewrite (same_core_view s s2) by done. by eapply Hf.
Qed.

Lemma op_setattr_ok memory x r s :
  unambiguous x -> fs_ok s -> is_bytes (data r) -> handle_ok s r (u64_at r 8) ->
  (forall p, path_of (nodeid r) s = Some p -> resizes r = true -> p <> []) ->
  let '(rep, s') := op_setattr memory x r s in
  fs_ok s'
  /\ (view s ≈ view s' /\ (forall a, rep = RAttr a -> resizes r = false)
      \/ resizes r = true /\ exists p, path_of (nodeid r) s = Some p
           /\ upd (view s) p (Some (resize_file (default [] (view s p)) (u64_at r 16))) ≈ view s')
  /\ match rep with
     | RAttr a => exists p, path_of (nodeid r) s = Some p
         /\ (a_mode a = FILE_MODE -> exists c, view s' p = Some c /\ len c = a_size a)
     | _ => True
     end.
Proof.
  intros Hx Hs Hd Hh Hroot. unfold op_setattr, writable. destruct (read_only s); [by split; [|split; [left|]]|].
  destruct (path_of (nodeid r) s) as [p|] eqn:Ep; [|by split; [|split; [left|]]].
  pose proof (inode_path s _ _ Hs Ep) as Hp.
  fold (resizes r). destruct (resizes r) eqn:Er.
  - destruct Hp as [->|Hp]; [by destruct (Hroot [] eq_refl eq_refl)|].
    set (fh := if negb _ then _ else None).
    pose proof (truncate_ok memory x p fh (u64_at r 16) s Hx Hs Hp (u64_at_nonneg r 16 Hd)) as Ht.
    destruct (truncate memory x p fh (u64_at r 16) s) as [res s1]. destruct Ht as (Hs1 & Hi1 & Hv1).
    { intros h st Hfh Hst. unfold fh in Hfh. destruct (negb _); [|done]. injection Hfh as <-. by eapply Hh. }
    destruct res as [[]|e]; [|split; [done|]; split; [left; split; [by apply files_at_eq|done]|done]].
    pose proof (stat_reply_ok x r p s1 Hs1 (or_intror Hp)) as Hst.
    destruct (stat_reply x r p s1) as [rep s2]. destruct Hst as (Hs2 & Hc2 & Ha).
    split; [done|]. split.
    + right. split; [done|]. exists p. split; [done|]. intros q _. by rewrite (same_core_view s1 s2), Hv1.
    + destruct rep; try done. exists p. split; [done|]. intros Hm. rewrite (same_core_view s1 s2) by done. by apply Ha.
  - pose proof (stat_reply_ok x r p s Hs Hp) as Hst.
    destruct (stat_reply x r p s) as [rep s2]. destruct Hst as (Hs2 & Hc2 & Ha).
    split; [done|]. split; [left; split; [by apply same_core_eq|done]|].
    destruct rep; try done. exists p. split; [done|]. intros Hm. rewrite (same_core_view s s2) by done. by apply Ha.
Qed.

(** ** Listing *)

Lemma push_children_ok dir max next cs buf s :
  fs_ok s -> (forall name kind, (name, kind) ∈ cs -> slash_free name) ->
  fs_ok (push_children dir max next cs buf s).2 /\ same_core s (push_children dir max next cs buf s).2.
Proof.
  revert next buf s. induction cs as [|[name kind] cs IH]; intros next buf s Hs Hn; cbn [push_children]; [done|].
  destruct (ino_for_ok (join dir name) s Hs) as [Hs1 Hc1].
  { right. apply child_path. apply (Hn name kind). by left. }
  destruct (ino_for (join dir name) s) as [ino s1]. simpl in *.
  destruct (push_dirent buf max ino next kind name) as [buf'|]; [|done].
  destruct (IH (next + 1) buf' s1 Hs1) as [Hs2 Hc2]; [intros; eapply Hn; by right|].
  split; [done|by etrans].
Qed.

Lemma op_readdir_ok x r s :
  fs_ok s -> let '(rep, s') := op_readdir x r s in fs_ok s' /\ view s ≈ view s'.
Proof.
  intros Hs. unfold op_readdir. destruct (path_of (nodeid r) s) as [path|] eqn:Ep; [|done].
  pose proof (inode_path s _ _ Hs Ep) as Hp. destruct (u64_at r 8 >? 0); [done|].
  unfold list_dir_snapshot. destruct (outcome x List); [|done..].
  pose proof (remember_listing_ok (later x) path (cache_snapshot (now x) s) s Hs Hp) as Hl.
  destruct (listed_children_ok (the_bucket s) path) as [Hch _].
  pose proof (list_prefixes (the_bucket s) path) as Hpre. pose proof (list_sound (the_bucket s) path) as Hso.
  destruct (list_level (the_bucket s) path) as [l complete]. destruct Hl as [Hs1 Hc1]. simpl in Hpre, Hso.
  set (s1 := remember_listing _ _ _ _ _ s) in *.
  set (buf1 := default _ (push_dirent (default _ _) _ _ _ _ _)).
  destruct (push_children_ok path (u32_at r 16) 3 (map (fun d => (d, DT_DIR)) (l_prefixes l)) buf1 s1 Hs1) as [Hs2 Hc2].
  { intros name kind Hin. apply list_elem_of_fmap in Hin as (d & [= -> ->] & Hd). by apply Hpre. }
  destruct (push_children _ _ _ _ _ s1) as [[buf2 next] s2]. simpl in Hs2, Hc2.
  edestruct (push_children_ok path (u32_at r 16) next) as [Hs3 Hc3]; [exact Hs2| |].
  2: { destruct (push_children _ _ _ _ _ s2) as [[buf3 next3] s3] eqn:E3. simpl in *. rewrite E3 in *.
       split; [exact Hs3|]. apply same_core_eq. do 2 (etrans; [eassumption|]). exact Hc3. }
  intros name kind Hin. apply list_elem_of_fmap in Hin as (o & [= -> ->] & Ho).
  apply list_elem_of_In, filter_In in Ho as [Ho He]. apply list_elem_of_In in Ho. bool_simpl.
  by apply (Hso o Ho).
Qed.

(** ** Names *)

Lemma op_unlink_ok x r s :
  unambiguous x -> fs_ok s -> name_ok r 0 -> not_staged s (nodeid r) r 0 ->
  let '(rep, s') := op_unlink x r s in
  fs_ok s' /\ match rep with
    | ROk => exists p, child s (nodeid r) r 0 p /\ upd (view s) p None ≈ view s'
    | _ => view s ≈ view s'
    end.
Proof.
  intros Hx Hs Hn Hns. unfold op_unlink, writable. destruct (read_only s); [done|].
  destruct (path_of (nodeid r) s) as [parent|] eqn:Ep; [|done].
  destruct (name_at r 0) as [name|] eqn:En; [|done].
  pose proof (child_path parent name (Hn name En)) as Hp.
  pose proof (Hns parent name Ep En) as Hf. set (path := join parent name) in *.
  unfold delete_key. set (b' := delete_object _ _).
  destruct (mutate_cases (outcome x Delete) b' s (Hx Delete)) as [-> | ->]; [|done].
  assert (forget_bytes path (forget_path path (with_bucket b' s))
    = forget_bytes path (with_bucket b' (forget_path path s))) as ->.
  { unfold forget_path. simpl. by destruct (paths s !! path). }
  destruct (forget_path_ok path s Hs) as [Hs1 Hc1]. set (s1 := forget_path path s) in *.
  assert (agree_but path (the_bucket s1) b') as Ha by (rewrite (sc_bucket _ _ Hc1); apply delete_agree).
  split.
  - apply change_ok; [done|done|done|apply delete_same|]. intros h st Hst Hk.
    rewrite (sc_staged _ _ Hc1) in Hst. by apply (proj1 (find_staged_None s path) Hf) in Hst.
  - exists path. split; [by exists parent, name|]. intros q _.
    pose proof (remember_core (later x) path Absent (forget_bytes path (with_bucket b' s1))) as Hc.
    rewrite (view_change s1 _ path b'); [|apply (sc_bucket _ _ Hc)|apply (sc_staged _ _ Hc)|done|by rewrite (sc_staged _ _ Hc1)].
    unfold upd. case_bool_decide; [unfold b'; by rewrite delete_same|]. by apply same_core_view.
Qed.

(** A marker of a directory is no file. *)
Lemma marker_ok s p b' :
  fs_ok s -> path_ok p -> agree_but (p ++ bs "/") (the_bucket s) b' ->
  fs_ok (with_bucket b' s) /\ view s ≈ view (with_bucket b' s).
Proof.
  intros Hs Hp Ha.
  assert (forall q, path_ok q -> object b' q = object (the_bucket s) q) as Hq.
  { intros q (d & name & Hf & ->). apply Ha. destruct Hp as (dp & np & Hnp & ->). by apply join_last. }
  split.
  - pose proof (meta_ok_marker p _ b' _ Ha Hp (fo_meta s Hs)) as Hm. destruct Hs. split; try done; simpl.
    + intros fh st Hst. destruct (fo_staged0 fh st Hst) as (? & ? & Hk & ?). by rewrite (Hq _ Hk).
    + intros q f Hf. destruct (fo_small0 q f Hf) as (Hk & ? & ?). by rewrite (Hq _ Hk).
  - intros q Hqp. unfold view. simpl. by rewrite (Hq q Hqp).
Qed.

Lemma op_mkdir_ok x r s :
  unambiguous x -> fs_ok s -> name_ok r 8 ->
  let '(rep, s') := op_mkdir x r s in fs_ok s' /\ view s ≈ view s'.
Proof.
  intros Hx Hs Hn. unfold op_mkdir, writable. destruct (read_only s); [done|].
  destruct (path_of (nodeid r) s) as [parent|] eqn:Ep; [|done].
  destruct (name_at r 8) as [name|] eqn:En; [|done].
  pose proof (child_path parent name (Hn name En)) as Hp. set (path := join parent name) in *.
  unfold put. set (b' := put_object _ _ _ _).
  destruct (mutate_cases (outcome x Put) b' s (Hx Put)) as [-> | ->]; [|done].
  destruct (marker_ok s path b' Hs Hp) as [Hs1 Hv1]; [apply put_agree|].
  pose proof (remember_same_ok (later x) path (Present NDir) _ Hs1 Hp I) as Hs2.
  pose proof (remember_core (later x) path (Present NDir) (with_bucket b' s)) as Hc2.
  destruct (ino_for_ok path _ Hs2 (or_intror Hp)) as [Hs3 Hc3].
  destruct (ino_for path _) as [ino s3]. simpl in *. split; [done|]. intros q Hq.
  rewrite (same_core_view _ _ q Hc3), (same_core_view _ _ q Hc2). by apply Hv1.
Qed.

Lemma op_rmdir_ok x r s :
  unambiguous x -> fs_ok s -> name_ok r 0 ->
  (forall parent name, path_of (nodeid r) s = Some parent -> name_at r 0 = Some name ->
     view s (join parent name) = None) ->
  let '(rep, s') := op_rmdir x r s in fs_ok s' /\ view s ≈ view s'.
Proof.
  intros Hx Hs Hn Hdir. unfold op_rmdir, writable. destruct (read_only s); [done|].
  destruct (path_of (nodeid r) s) as [parent|] eqn:Ep; [|done].
  destruct (name_at r 0) as [name|] eqn:En; [|done].
  pose proof (child_path parent name (Hn name En)) as Hp.
  pose proof (Hdir parent name eq_refl eq_refl) as Hnone. set (path := join parent name) in *.
  assert (let '(rep, s') := match delete_key x (path ++ bs "/") s with
      | (Err _, s) => (RError EIO, s)
      | (Ok _, s) => (ROk, remember (later x) path Absent (forget_path path s))
      end in fs_ok s' /\ view s ≈ view s') as Hrm.
  { unfold delete_key. set (b' := delete_object _ _).
    destruct (mutate_cases (outcome x Delete) b' s (Hx Delete)) as [-> | ->]; [|done].
    destruct (marker_ok s path b' Hs Hp) as [Hs1 Hv1]; [apply delete_agree|].
    destruct (forget_path_ok path _ Hs1) as [Hs2 Hc2]. set (s2 := forget_path path (with_bucket b' s)) in *.
    assert (object (the_bucket s2) path = None) as Ho.
    { pose proof (Hv1 path Hp) as Hx1. rewrite Hnone in Hx1. unfold view in Hx1.
      destruct (find_staged path _) as [[? ?]|]; [done|].
      rewrite (sc_bucket _ _ Hc2). simpl in *. by destruct (object b' path). }
    split; [by apply remember_same_ok|]. intros q Hq.
    rewrite (same_core_view _ _ q (remember_core (later x) path Absent s2)), (same_core_view _ _ q Hc2). by apply Hv1. }
  unfold list_dir_snapshot. destruct (outcome x List); [|exact Hrm..].
  destruct (list_level (the_bucket s) path) as [l complete]. destruct (_ || _); [done|exact Hrm].
Qed.

(** ** Flushing *)

Lemma op_flush_ok x r s fh close k :
  unambiguous x -> fs_ok s ->
  (forall path, path_of (nodeid r) s = Some path ->
     k = unit_reply (flush_staged x fh path close s)
     /\ forall st, staged s !! fh = Some st -> st_key st = path) ->
  (path_of (nodeid r) s = None -> k.2 = s) ->
  let '(rep, s') := k in fs_ok s' /\ view s ≈ view s'.
Proof.
  intros Hx Hs Hk Hnone. destruct (path_of (nodeid r) s) as [path|] eqn:Ep.
  - destruct (Hk path eq_refl) as [-> Hkey]. pose proof (flush_staged_ok x fh path close s Hx Hs Hkey) as Hf.
    destruct (flush_staged x fh path close s) as [[[]|e] s']; destruct Hf as (Hs' & Hv & _); simpl;
      (split; [done|]; intros q _; apply Hv).
  - specialize (Hnone eq_refl). destruct k as [rep s']. simpl in Hnone. by subst.
Qed.

(** ** Renaming *)

Lemma invalidate_ok s p b' :
  fs_ok s -> path_ok p -> agree_but p (the_bucket s) b' -> find_staged p (staged s) = None ->
  fs_ok (invalidate_copied_destination p (forget_bytes p (with_bucket b' s)))
  /\ files_at (invalidate_copied_destination p (forget_bytes p (with_bucket b' s)))
       (upd (view s) p (fst <$> object b' p))
  /\ staged (invalidate_copied_destination p (forget_bytes p (with_bucket b' s))) = staged s
  /\ the_bucket (invalidate_copied_destination p (forget_bytes p (with_bucket b' s))) = b'.
Proof.
  intros Hs Hp Ha Hf. destruct Hp as (d & name & Hfree & ->).
  assert (meta_ok (Some (join d name)) b' (meta s)) as [He Hd Hl] by by eapply meta_ok_change, fo_meta.
  set (s1 := forget_bytes (join d name) (with_bucket b' s)).
  unfold invalidate_copied_destination. rewrite (split_join d name Hfree).
  assert (meta_ok (Some (join d name)) b' (list_name d name (set_entries (delete (join d name)) (bump (meta s))))) as Hm1.
  { apply list_name_ok. split; simpl; [|done|done]. intros q k t [_ Hq]%lookup_delete_Some. by apply He in Hq. }
  assert (entries (list_name d name (set_entries (delete (join d name)) (bump (meta s))))
    = delete (join d name) (entries (meta s))) as Hent.
  { unfold list_name. simpl. destruct (directories (meta s) !! d); [|done]. by destruct (bool_decide _). }
  split; [|split; [|done]].
  - pose proof (find_staged_None s (join d name)) as [Hno _]. specialize (Hno Hf).
    assert (meta_ok None b' (bound_directories
      (list_name d name (set_entries (delete (join d name)) (bump (meta s)))))) as Hm2.
    { apply bound_directories_ok. destruct Hm1 as [He1 Hd1 Hl1]. split; [| |done].
      - intros q k t Hq. destruct (He1 q k t Hq) as [? Hc]. split; [done|]. intros _. apply Hc.
        rewrite Hent in Hq. apply lookup_delete_Some in Hq as [Hne _]. congruence.
      - intros d' D name' HD Hf' Hs' _. destruct (decide (join d name = join d' name')) as [Heq|Hne].
        + apply join_inj in Heq as [<- <-]; [|done..]. by eapply list_name_listed.
        + eapply Hd1; [done..|congruence]. }
    destruct Hs. split; try done; simpl.
    + intros fh st Hst. destruct (fo_staged0 fh st Hst) as (? & ? & ? & Hcl). repeat (split; [done|]).
      rewrite (Ha (st_key st)); [done|]. by apply Hno in Hst.
    + intros Ht. destruct (fo_ttl0 Ht) as [He0 Hd0].
      assert (list_name d name (set_entries (delete (join d name)) (bump (meta s)))
        = set_entries (delete (join d name)) (bump (meta s))) as ->.
      { unfold list_name. simpl. by rewrite Hd0, lookup_empty. }
      rewrite bound_directories_empty by done. simpl. rewrite He0, delete_empty. done.
    + intros q f [Hne Hq]%lookup_delete_Some. destruct (fo_small0 q f Hq) as (? & ? & t & Ho).
      split; [done|]. split; [done|]. exists t. by rewrite (Ha q) by done.
  - intros q. by apply (view_change s _ (join d name) b').
Qed.

Lemma rename_entry_ok x from to s :
  unambiguous x -> fs_ok s -> path_ok from -> path_ok to -> from <> to ->
  find_staged from (staged s) = None -> find_staged to (staged s) = None ->
  let '(rep, s') := rename_entry x from to s in
  fs_ok s' /\ (view s ≈ view s' /\ rep <> ROk
    \/ exists v, view s from = Some v /\ match rep with
         | ROk => upd (upd (view s) to (Some v)) from None ≈ view s'
         | _ => upd (view s) to (Some v) ≈ view s'
         end).
Proof.
  intros Hx Hs Hpf Hpt Hne Hff Hft. unfold rename_entry, copy.
  destruct (object (the_bucket s) from) as [[v t]|] eqn:Eo; cbn.
  2: { destruct (outcome x Copy); (split; [done|]; by left). }
  assert (view s from = Some v) as Hv by (unfold view; by rewrite Hff, Eo).
  set (b1 := put_object _ _ _ _).
  destruct (mutate_cases (outcome x Copy) b1 s (Hx Copy)) as [-> | ->]; cbn; [|split; [done|]; by left].
  destruct (invalidate_ok s to b1 Hs Hpt (put_agree _ _ _ _) Hft) as (Hs1 & Hv1 & Hst1 & Hb1).
  set (s1 := invalidate_copied_destination _ _) in *.
  assert (files_at s1 (upd (view s) to (Some v))) as Hv1'.
  { intros q. rewrite Hv1. unfold b1. by rewrite put_same. }
  unfold delete_key. set (b2 := delete_object (the_bucket s1) from).
  destruct (mutate_cases (outcome x Delete) b2 s1 (Hx Delete)) as [-> | ->]; cbn.
  2: { split; [done|]. right. exists v. split; [done|]. by apply files_at_eq. }
  assert (forget_bytes from (rename_path from to (with_bucket b2 s1))
    = forget_bytes from (with_bucket b2 (rename_path from to s1))) as ->.
  { unfold rename_path, forget_path. simpl. destruct (paths s1 !! to); simpl; by destruct (_ !! from). }
  destruct (rename_path_ok from to s1 Hs1 Hpt Hne) as [Hs2 Hc2]. set (s2 := rename_path from to s1) in *.
  assert (agree_but from (the_bucket s2) b2) as Ha2 by (rewrite (sc_bucket _ _ Hc2); apply delete_agree).
  assert (find_staged from (staged s2) = None) as Hff2 by by rewrite (sc_staged _ _ Hc2), Hst1.
  set (s3 := remember (later x) from Absent (forget_bytes from (with_bucket b2 s2))).
  assert (fs_ok s3) as Hs3.
  { apply change_ok; [done|done|done|apply delete_same|]. intros h st Hst Hk.
    by apply (proj1 (find_staged_None s2 from) Hff2) in Hst. }
  pose proof (remember_core (later x) from Absent (forget_bytes from (with_bucket b2 s2))) as Hc3. fold s3 in Hc3.
  assert (files_at s3 (upd (upd (view s) to (Some v)) from None)) as Hv3.
  { intros q. rewrite (view_change s2 s3 from b2); [|apply (sc_bucket _ _ Hc3)|apply (sc_staged _ _ Hc3)|done|done].
    unfold upd at 1. case_bool_decide; [unfold b2; by rewrite delete_same|].
    rewrite (same_core_view _ _ q Hc2). apply Hv1'. }
  destruct (known (now x) from s) as [[[|sz m]|]|] eqn:Ek;
    try (split; [done|]; right; exists v; split; [done|]; by apply files_at_eq).
  apply known_claim in Ek as (v' & t' & Ho' & ->); [|done..]. rewrite Eo in Ho'. injection Ho' as <- <-.
  set (k := Present _).
  assert (claim_ok (the_bucket s3) to k) as Hk.
  { exists v, (server_time x). split; [|done]. rewrite (sc_bucket _ _ Hc3). simpl. unfold b2.
    rewrite (delete_agree (the_bucket s1) from to) by done. rewrite Hb1. apply put_same. }
  split; [by apply remember_same_ok|]. right. exists v. split; [done|]. intros q _.
  rewrite (same_core_view _ _ q (remember_core (later x) to k s3)). apply Hv3.
Qed.

Lemma op_rename_ok x r s :
  unambiguous x -> fs_ok s -> well_used s r -> opcode r = 12 ->
  let '(rep, s') := op_rename x r s in
  fs_ok s' /\ rename_effect s r rep (view s) (view s').
Proof.
  intros Hx Hs [_ Hw] Ho. rewrite Ho in Hw. destruct Hw as (Hn1 & Hs1 & Hw2). unfold op_rename, rename_effect, writable.
  destruct (read_only s); [by split; [|left]|].
  destruct (path_of (nodeid r) s) as [parent|] eqn:Ep; [|by split; [|left]].
  destruct (name_at r 8) as [old|] eqn:En; [|by split; [|left]].
  destruct (name_at r (8 + len old + 1)) as [new|] eqn:En2; [|by split; [|left]].
  destruct (path_of (u64_at r 0) s) as [parent2|] eqn:Ep2; [|by split; [|left]].
  destruct (Hw2 old eq_refl) as [Hn2 Hs2].
  pose proof (child_path parent old (Hn1 old En)) as Hpf. pose proof (child_path parent2 new (Hn2 new En2)) as Hpt.
  pose proof (Hs1 parent old Ep En) as Hff. pose proof (Hs2 parent2 new Ep2 En2) as Hft.
  assert (child s (nodeid r) r 8 (join parent old)) as Hc1 by by exists parent, old.
  assert (child s (u64_at r 0) r (8 + len old + 1) (join parent2 new)) as Hc2 by by exists parent2, new.
  set (from := join parent old) in *. set (to := join parent2 new) in *.
  case_bool_decide as Hft'.
  - pose proof (stat_ok x from s Hs (or_intror Hpf)) as Hst.
    destruct (stat x from s) as [[n|] s']; destruct Hst as (Hs' & Hc & _); (split; [done|]; left; split; [by apply same_core_eq|]); [|done].
    intros _. exists from. split; [done|]. exists old. split; [done|]. by rewrite Hft'.
  - pose proof (rename_entry_ok x from to s Hx Hs Hpf Hpt Hft' Hff Hft) as Hr.
    destruct (rename_entry x from to s) as [rep s']. destruct Hr as [Hs' [[Hv Hrep]|(v & Hv & Hr)]]; split; [done| |done|].
    + left. split; [done|]. by intros ->.
    + right. exists old, from, to, v. done.
Qed.

(** ** All requests *)

Lemma dispatch_ok memory x r s :
  unambiguous x -> fs_ok s -> well_used s r ->
  let '(rep, s') := dispatch memory x r s in
  fs_ok s' /\ effect s r rep (view s) (view s') /\ attrs s r rep (view s').
Proof.
  intros Hx Hs Hw. pose proof Hw as [Hd Hw']. unfold dispatch, effect, attrs.
  assert (forall k : Reply * S3Fs, (let '(rep, s') := k in fs_ok s' /\ view s ≈ view s') ->
    let '(rep, s') := k in fs_ok s' /\ view s ≈ view s' /\ True) as Hplain.
  { intros [rep s'] [? ?]. done. }
  destruct (decide (opcode r = 1)) as [E|N1]; [rewrite E in *|].
  { pose proof (op_lookup_ok x r s Hs Hw') as Hl. destruct (op_lookup x r s) as [rep s'].
    destruct Hl as (? & ? & ?). split; [done|]. split; [done|]. by destruct rep. }
  destruct (decide (opcode r = 3)) as [E|N3]; [rewrite E in *|].
  { unfold op_getattr. destruct (path_of (nodeid r) s) as [p|] eqn:Ep; [|done].
    pose proof (stat_reply_ok x r p s Hs (inode_path s _ _ Hs Ep)) as Hst.
    destruct (stat_reply x r p s) as [rep s']. destruct Hst as (? & Hc & Ha). split; [done|].
    split; [by apply same_core_eq|]. destruct rep; try done. exists p. split; [done|].
    intros Hm. rewrite (same_core_view s s') by done. by apply Ha. }
  destruct (decide (opcode r = 4)) as [E|N4]; [rewrite E in *|].
  { destruct Hw' as [Hh Hroot].
    pose proof (op_setattr_ok memory x r s Hx Hs Hd Hh) as Hl. destruct (op_setattr memory x r s) as [rep s'].
    destruct Hl as (? & ? & ?); [|split; [done|]; split; [done|by destruct rep]].
    intros p Hp Hr. apply (Hroot p Hp). unfold resizes in Hr. by bool_simpl. }
  destruct (decide (opcode r = 9)) as [E|N9]; [rewrite E in *; by apply Hplain, op_mkdir_ok|].
  destruct (decide (opcode r = 10)) as [E|N10]; [rewrite E in *|].
  { destruct Hw' as [Hn Hns]. pose proof (op_unlink_ok x r s Hx Hs Hn Hns) as Hl.
    destruct (op_unlink x r s) as [rep s']. by destruct Hl. }
  destruct (decide (opcode r = 11)) as [E|N11]; [rewrite E in *|].
  { destruct Hw' as [Hn Hdir]. by apply Hplain, op_rmdir_ok. }
  destruct (decide (opcode r = 12)) as [E|N12]; [|].
  { pose proof (op_rename_ok x r s Hx Hs Hw E) as Hl. rewrite E. destruct (op_rename x r s) as [rep s']. by destruct Hl. }
  destruct (decide (opcode r = 14)) as [E|N14]; [rewrite E in *|].
  { pose proof (op_open_ok x r s Hs Hw') as Hl. destruct (op_open x r s) as [rep s']. by destruct Hl. }
  destruct (decide (opcode r = 15)) as [E|N15]; [|].
  { pose proof (op_read_ok x r s Hs Hw E) as Hl. rewrite E. destruct (op_read x r s) as [rep s']. by destruct Hl. }
  destruct (decide (opcode r = 16)) as [E|N16]; [rewrite E in *|].
  { pose proof (op_write_ok r s Hs Hw) as Hl. destruct (op_write r s) as [rep s']. by destruct Hl. }
  destruct (decide (opcode r = 18)) as [E|N18]; [rewrite E in *|].
  { apply Hplain, (op_flush_ok x r s (u64_at r 0) true); [done|done| |]; unfold op_release.
    - intros path Hp. rewrite Hp. split; [done|]. intros st Hst. by eapply Hw'.
    - by intros ->. }
  destruct (decide (opcode r = 20)) as [E|N20]; [rewrite E in *|].
  { set (fh := if u64_at r 0 =? 0 then
        match path_of (nodeid r) s with
        | Some path => match find_staged path (staged s) with Some (h, _) => h | None => u64_at r 0 end
        | None => 0 end else u64_at r 0).
    apply Hplain, (op_flush_ok x r s fh false); [done|done| |]; unfold op_fsync.
    - intros path Hp. unfold fh. rewrite Hp. split; [by destruct (u64_at r 0 =? 0)|]. intros st.
      destruct (u64_at r 0 =? 0); [|intros Hst; by eapply Hw'].
      destruct (find_staged path (staged s)) as [[h a]|] eqn:Ef; [|intros Hst; by eapply Hw'].
      apply find_staged_Some in Ef as [Ha Hk]. intros Hst. by simplify_eq.
    - by intros ->. }
  destruct (decide (opcode r = 25)) as [E|N25]; [rewrite E in *|].
  { apply Hplain, (op_flush_ok x r s (u64_at r 0) false); [done|done| |]; unfold op_flush.
    - intros path Hp. rewrite Hp. split; [done|]. intros st Hst. by eapply Hw'.
    - by intros ->. }
  destruct (decide (opcode r = 28)) as [E|N28]; [rewrite E in *; by apply Hplain, op_readdir_ok|].
  destruct (decide (opcode r = 35)) as [E|N35]; [rewrite E in *|].
  { pose proof (op_create_ok x r s Hs Hw') as Hl. destruct (op_create x r s) as [rep s']. by destruct Hl. }
  clear Hw Hw'. destruct (opcode r) as [|p|p]; [done| |done].
  do 6 (destruct p as [p|p|]; try done).
Qed.

End Ops.
End S3Ops.
