(* ===== verification/S3FsProps.v ===== *)
(** * S3FsProps: what a mounted bucket promises *)

From S2P Require Import Prelude RustStr S3Fs S3FsFacts S3FsSteps S3FsOps.

Module S3Props.
Import Str S3 S3Facts S3Steps S3Ops.

Section Props.
Context `{S3Service}.

(** Requests served one after the other, none of whose calls is ambiguous. *)
Inductive session : S3Fs -> list (Request * Reply) -> S3Fs -> Prop :=
| session_nil s : session s [] s
| session_cons memory x r rep s s1 l s2 :
    unambiguous x -> well_used s r -> dispatch memory x r s = (rep, s1) ->
    session s1 l s2 -> session s ((r, rep) :: l) s2.

Lemma new_ok b ro ttl : fs_ok (new b ro ttl).
Proof.
  split; simpl.
  - intros fh st. by rewrite lookup_empty.
  - intros fh fh' st st'. by rewrite lookup_empty.
  - done.
  - split; simpl; [intros q k t|intros d D name|]; by rewrite ?lookup_empty.
  - done.
  - intros p f. by rewrite lookup_empty.
  - intros i p. rewrite !lookup_singleton_Some. naive_solver.
  - intros i p [<- <-]%lookup_singleton_Some. split; [done|by left].
Qed.

Lemma requests_ok s l s' : fs_ok s -> session s l s' -> fs_ok s'.
Proof.
  intros Hs Hl. induction Hl as [|memory x r rep s s1 l s2 Hx Hw Hd Hl IH]; [done|]. apply IH.
  pose proof (dispatch_ok memory x r s Hx Hs Hw) as Hok. rewrite Hd in Hok. by destruct Hok.
Qed.


(** C37: Flushing a file that is being written makes the object
    exactly the file as the program sees it, or fails and loses nothing: the
    files stay as they were and the staged contents are still there, marked
    for the next flush. *)
Theorem flush_durable x r rep s s' st path :
  fs_ok s -> unambiguous x -> path_of (nodeid r) s = Some path ->
  staged s !! u64_at r 0 = Some st -> st_key st = path ->
  op_flush x r s = (rep, s') ->
  (forall q, view s' q = view s q)
  /\ ((rep = ROk /\ exists t, object (the_bucket s') path = Some (st_file st, t))
      \/ (rep = RError EIO /\ staged s' !! u64_at r 0 = Some st /\ st_dirty st = true)).
Proof.
  intros Hs Hx Hp Hst Hk. unfold op_flush. rewrite Hp. unfold flush_staged. rewrite Hst.
  assert (staged (with_staged (insert (u64_at r 0) st) s) !! u64_at r 0 = Some st) as Hst1 by apply lookup_insert_eq.
  assert (with_staged (insert (u64_at r 0) st) s = s) as ->.
  { destruct s. unfold with_staged. simpl in *. by rewrite insert_id. }
  pose proof (upload_ok x (u64_at r 0) st s Hx Hs Hst) as Hu. rewrite <-Hk.
  assert ((upload x (u64_at r 0) st (st_key st) s).1 = Ok tt
    \/ (upload x (u64_at r 0) st (st_key st) s).1 = Err EIO /\ st_dirty st = true) as Hcase.
  { unfold upload. destruct (st_dirty st); [|by left]. destruct (put _ _ _ _) as [[[]|] ?]; [by left|by right]. }
  destruct (upload x (u64_at r 0) st (st_key st) s) as [res s1]. simpl in Hcase.
  destruct Hu as (Hs1 & Hv1 & Hr). destruct Hcase as [->|[-> Hd]]; simpl.
  - destruct Hr as [[t Ho] (st2 & Hst2 & Hw2 & Hd2 & _)].
    destruct (st_writers st =? 0); intros [= <- <-].
    + destruct (staged_remove_ok s1 _ st2 Hs1 Hst2 Hd2) as [_ Hv2]. split; [|left; split; [done|by exists t]].
      intros q. by rewrite Hv2, Hv1.
    + split; [done|]. left. split; [done|]. by exists t.
  - subst s1. intros [= <- <-]. split; [done|]. by right.
Qed.

End Props.

(** ** A service over a finite map *)

Definition dir_prefix (dir : bytes) : bytes := if is_empty dir then [] else dir ++ bs "/".

Fixpoint first_part (s : bytes) : option bytes :=
  match s with
  | [] => None
  | b :: s => if b =? 47 then Some [] else let! p := first_part s in Some (b :: p)
  end.

Definition slash_freeb (name : bytes) : bool := negb (is_empty name) && negb (contains 47 name).

Definition level_object (dir : bytes) (kv : bytes * (bytes * Z)) : option ObjectInfo :=
  let name := (split_path kv.1).2 in
  if bool_decide (kv.1 = join dir name) && slash_freeb name
  then Some (MkInfo name (len kv.2.1) kv.2.2) else None.

Definition level_prefix (dir key : bytes) : option bytes :=
  let! rest := strip_prefix (dir_prefix dir) key in
  let! p := first_part rest in
  if slash_freeb p then Some p else None.

Definition map_level (b : gmap bytes (bytes * Z)) (dir : bytes) : Listing * bool :=
  (MkListing (omap (level_object dir) (map_to_list b)) (bool_decide (is_Some (b !! (dir ++ bs "/"))))
     (omap (level_prefix dir) (map fst (map_to_list b))), true).

Lemma slash_freeb_spec name : slash_freeb name = true <-> slash_free name.
Proof.
  unfold slash_freeb, slash_free, contains. rewrite andb_true_iff, !negb_true_iff.
  assert (existsb (Z.eqb 47) name = false <-> 47 ∉ name) as ->.
  { rewrite <-not_true_iff_false, existsb_exists. split; intros Hn Hin; apply Hn.
    - exists 47. by rewrite <-list_elem_of_In.
    - destruct Hin as (c & Hc & <-%Z.eqb_eq). by rewrite list_elem_of_In. }
  by destruct name; split; intros [? ?].
Qed.

Lemma level_object_key dir kv o :
  level_object dir kv = Some o -> slash_free (oi_key o) /\ kv.1 = join dir (oi_key o)
    /\ oi_size o = len kv.2.1 /\ oi_time o = kv.2.2.
Proof.
  unfold level_object. destruct (bool_decide _) eqn:Eb; [|done]. apply bool_decide_eq_true in Eb. cbn [andb].
  destruct (slash_freeb _) eqn:Es; [|done]. intros [= <-]. by rewrite slash_freeb_spec in Es.
Qed.

Lemma slash_free_trim name : slash_free name -> trim_end_matches 47 name = name.
Proof.
  intros [_ Hn]. unfold trim_end_matches. destruct (rev name) as [|c cs] eqn:Er.
  - by rewrite <-(rev_involutive name), Er.
  - cbn [drop_leading]. destruct (Z.eqb_spec c 47) as [->|].
    + exfalso. apply Hn. rewrite <-(rev_involutive name), Er. simpl. apply elem_of_app. right. by left.
    + by rewrite <-Er, rev_involutive.
Qed.

#[local] Program Instance map_service : S3Service := {|
  bucket := gmap bytes (bytes * Z);
  object b k := b !! k;
  put_object b k v t := <[k := (v, t)]> b;
  delete_object b k := delete k b;
  list_level := map_level;
|}.
Next Obligation. intros b k v t k'. case_bool_decide as E; [subst; apply lookup_insert_eq|by apply lookup_insert_ne]. Qed.
Next Obligation. intros b k k'. case_bool_decide as E; [subst; apply lookup_delete_eq|by apply lookup_delete_ne]. Qed.
Next Obligation.
  intros b dir o ([k [v t]] & Hin & Ho)%list_elem_of_omap. apply elem_of_map_to_list in Hin.
  apply level_object_key in Ho as (Hf & Hk & Hs & Ht). simpl in *. subst k.
  rewrite slash_free_trim by done. split; [|done]. intros _. split; [done|]. exists v. by rewrite Ht.
Qed.
Next Obligation.
  intros b dir p (key & _ & Hp)%list_elem_of_omap. unfold level_prefix in Hp.
  destruct (strip_prefix _ key) as [rest|]; [|done]. cbn in Hp. destruct (first_part rest) as [q|]; [|done].
  cbn in Hp. destruct (slash_freeb q) eqn:Eq; [|done]. injection Hp as <-. by apply slash_freeb_spec.
Qed.
Next Obligation.
  intros b dir name _ Hf [[v t] Ho]. apply list_elem_of_fmap. exists (MkInfo name (len v) t). split; [done|].
  apply list_elem_of_omap. exists (join dir name, (v, t)). split; [by apply elem_of_map_to_list|].
  unfold level_object. cbn [fst snd]. rewrite split_join by done. cbn [snd].
  rewrite bool_decide_eq_true_2 by done. by rewrite (proj2 (slash_freeb_spec name) Hf).
Qed.

(** ** Requests for concrete runs *)

Definition all_done : Ctx := MkCtx 0 0 0 0 (fun _ => Done).
Definition without (c : Call) : Ctx :=
  MkCtx 0 0 0 0 (fun c' =>
    match c, c' with List, List | Put, Put => Refused | _, _ => Done end).

Definition named (op parent pad : Z) (name : bytes) : Request :=
  MkRequest op parent (replicate (Z.to_nat pad) 0 ++ name ++ [0]).
Definition lookup_of (name : bytes) : Request := named 1 1 0 name.
Definition create_of (name : bytes) : Request := named 35 1 16 name.
Definition mkdir_of (name : bytes) : Request := named 9 1 8 name.
Definition unlink_of (name : bytes) : Request := named 10 1 0 name.
Definition rmdir_of (name : bytes) : Request := named 11 1 0 name.
Definition write_of (ino fh : Z) (d : bytes) : Request :=
  MkRequest 16 ino (to_le 8 fh ++ to_le 8 0 ++ to_le 4 (len d) ++ replicate 20 0 ++ d).
Definition on_handle (op ino fh : Z) : Request := MkRequest op ino (to_le 8 fh).
Definition read_of (ino size : Z) : Request :=
  MkRequest 15 ino (to_le 8 0 ++ to_le 8 0 ++ to_le 4 size).

(** Replies to requests served in turn. *)
Fixpoint serve (l : list (Ctx * Request)) (s : S3Fs) : list Reply * S3Fs :=
  match l with
  | [] => ([], s)
  | (x, r) :: l =>
      let (rep, s) := dispatch (fun _ => true) x r s in
      let (reps, s) := serve l s in (rep :: reps, s)
  end.

Definition empty_mount : S3Fs := new (H := map_service) ∅ false 2000.
Definition written : S3Fs :=
  (serve [(all_done, create_of (bs "f")); (all_done, write_of 2 1 (bs "hi"))] empty_mount).2.

Lemma all_done_unambiguous c : unambiguous (without c) /\ unambiguous all_done.
Proof. split; intros c'; [by destruct c, c'|done]. Qed.

Lemma named_slash_free op parent pad name :
  name_at (named op parent pad name) pad = Some name -> slash_freeb name = true ->
  name_ok (named op parent pad name) pad.
Proof. intros Hn Hf q Hq. rewrite Hn in Hq. injection Hq as <-. by apply slash_freeb_spec. Qed.

Fixpoint served_well (l : list (Ctx * Request)) (s : S3Fs) : Prop :=
  match l with
  | [] => True
  | (x, r) :: l =>
      unambiguous x /\ well_used s r /\ served_well l (dispatch (fun _ => true) x r s).2
  end.

Lemma serve_session l s : served_well l s -> exists tr, length tr = length l /\ session s tr (serve l s).2.
Proof.
  revert s. induction l as [|[x r] l IH]; intros s; simpl; [intros _; exists []; by split; [|constructor]|].
  intros (Hx & Hw & Hl). destruct (dispatch _ x r s) as [rep s1] eqn:Ed. simpl in Hl.
  destruct (IH s1 Hl) as (tr & Hn & Htr). destruct (serve l s1) as [reps s2]. simpl in *.
  exists ((r, rep) :: tr). split; [simpl; by f_equal|by econstructor].
Qed.

Lemma bytes_decided (l : bytes) : bool_decide (is_bytes l) = true -> is_bytes l.
Proof. apply bool_decide_eq_true. Qed.

Lemma written_session : exists tr, length tr = 2%nat /\ session empty_mount tr written.
Proof.
  apply (serve_session [(all_done, create_of (bs "f")); (all_done, write_of 2 1 (bs "hi"))]). split; [apply (all_done_unambiguous Put)|]. split; [|split;
    [apply (all_done_unambiguous Put)|split; [|done]]].
  - split; [by apply bytes_decided|]. by apply (named_slash_free 35 1 16 (bs "f")).
  - split; [by apply bytes_decided|]. by intros st _.
Qed.

Lemma first_of_pair {A B} (p : A * B) a : p.1 = a -> p = (a, p.2).
Proof. destruct p. simpl. by intros ->. Qed.


Definition written_staged : Staged := MkStaged (bs "hi") (bs "f") 2 true 1.

(** Both outcomes occur: with the store up, and with uploads refused. *)
Lemma flush_durable_witness :
  staged written !! 1 = Some written_staged
  /\ (op_flush all_done (on_handle 25 2 1) written).1 = ROk
  /\ (op_flush (without Put) (on_handle 25 2 1) written).1 = RError EIO
  /\ forall q, view (op_flush (without Put) (on_handle 25 2 1) written).2 q = view written q.
Proof.
  split; [by vm_compute|]. split; [by vm_compute|]. split; [by vm_compute|].
  assert (fs_ok written) as Hs.
  { destruct written_session as (tr & _ & Htr). apply (requests_ok _ _ _ (new_ok ∅ false 2000) Htr). }
  refine (proj1 (flush_durable (without Put) (on_handle 25 2 1) (RError EIO) written _ written_staged (bs "f")
    Hs (proj1 (all_done_unambiguous Put)) _ _ _ (first_of_pair _ _ _))); by vm_compute.
Defined.

(** ** Requests outside the hypotheses *)

(** A file removed while it is open stays visible after its last close: with
    its inode forgotten, the close neither uploads nor drops what is staged. *)
Theorem unlinked_open_file_lingers :
  (serve [(all_done, create_of (bs "f")); (all_done, write_of 2 1 (bs "hi")); (all_done, unlink_of (bs "f"));
          (all_done, on_handle 25 2 1); (all_done, on_handle 18 2 1); (all_done, lookup_of (bs "f"));
          (all_done, read_of 3 10)] empty_mount).1
  = [RCreate (MkAttr 2 0 0 0 FILE_MODE 1) 1; RWritten 2; ROk; RError ENOENT; ROk;
     REntry (MkAttr 3 2 1 0 FILE_MODE 1); RData (bs "hi")].
Proof. by vm_compute. Qed.

(** An empty write past the end is accepted and raises the size the file is
    reported with, while its contents stay as they were. *)
Theorem empty_write_overstates_size :
  let empty_at := MkRequest 16 2 (to_le 8 1 ++ to_le 8 100 ++ to_le 4 0 ++ replicate 20 0) in
  let s := (serve [(all_done, empty_at)] written).2 in
  (serve [(all_done, empty_at); (all_done, lookup_of (bs "f")); (all_done, read_of 2 200)] written).1
  = [RWritten 0; REntry (MkAttr 2 100 1 0 FILE_MODE 1); RData (bs "hi")]
  /\ view s (bs "f") = Some (bs "hi").
Proof. by vm_compute. Qed.

(** Removing a directory whose listing fails succeeds and hides its files,
    where the same request is refused when the listing answers. *)
Theorem rmdir_unlisted_succeeds :
  let s := (serve [(all_done, mkdir_of (bs "d")); (all_done, named 35 2 16 (bs "f"));
                   (all_done, on_handle 25 3 1); (all_done, on_handle 18 3 1)] empty_mount).2 in
  (dispatch (fun _ => true) all_done (rmdir_of (bs "d")) s).1 = RError ENOTEMPTY
  /\ (serve [(without List, rmdir_of (bs "d")); (all_done, lookup_of (bs "d"))] s).1 = [ROk; RError ENOENT]
  /\ view (serve [(without List, rmdir_of (bs "d"))] s).2 (bs "d/f") = Some [].
Proof. by vm_compute. Qed.

(** Workers serve requests side by side: a read that fetched before a rewrite
    of the same size and second, and keeps its bytes after it, makes later
    reads return the old contents. *)
Theorem rewritten_file_read_stale :
  let s1 := (serve [(all_done, create_of (bs "f")); (all_done, write_of 2 1 (bs "old"));
                    (all_done, on_handle 25 2 1); (all_done, on_handle 18 2 1)] empty_mount).2 in
  let s2 := (serve [(all_done, MkRequest 14 2 (to_le 4 (Z.lor O_WRONLY O_TRUNC)));
                    (all_done, write_of 2 2 (bs "new"));
                    (all_done, on_handle 25 2 2); (all_done, on_handle 18 2 2)] s1).2 in
  known 0 (bs "f") s1 = Some (Present (NFile 3 0)) /\ get_whole all_done (bs "f") s1 = Ok (bs "old")
  /\ let s3 := keep_bytes 0 0 (bs "f") 3 0 (bs "old") s2 in
     view s3 (bs "f") = Some (bs "new")
     /\ (dispatch (fun _ => true) all_done (read_of 2 10) s3).1 = RData (bs "old").
Proof. by vm_compute. Qed.

Definition readdir_of (ino offset size : Z) : Request :=
  MkRequest 28 ino (to_le 8 0 ++ to_le 8 offset ++ to_le 4 size).
Definition three_files : S3Fs :=
  new (H := map_service) {[bs "a" := ([], 0); bs "b" := ([], 0); bs "c" := ([], 0)]} false 2000.

(** What does not fit into the first buffer of a directory is never listed:
    the continuation of a listing is empty. *)
Theorem long_listing_cut :
  match (serve [(all_done, readdir_of 1 0 96); (all_done, readdir_of 1 3 96)] three_files).1 with
  | [RDirectory first; RDirectory rest] => len first = 96 /\ rest = []
  | _ => False
  end
  /\ view three_files (bs "c") = Some []
  /\ exists buf, (dispatch (fun _ => true) all_done (readdir_of 1 0 4096) three_files).1 = RDirectory buf
       /\ len buf = 160.
Proof. split; [by vm_compute|]. split; [done|]. eexists. split; by vm_compute. Qed.
End S3Props.
