(* ===== verification/S3FsFence.v ===== *)
(** * S3FsFence: observations recorded after other requests

    A lookup notes the generation of the caches, asks the store without a
    lock, and records the answer only when the generation is still the same.
    Every change of the bucket through the mount bumps it, so an answer that
    was overtaken is dropped. *)

From S2P Require Import Prelude RustStr S3Fs S3FsFacts S3FsSteps S3FsOps S3FsProps.

Module S3Fence.
Import Str S3 S3Facts S3Steps S3Ops S3Props.

Section Fence.
Context `{S3Service}.

(** ** The generation *)

Definition same_objects (s s' : S3Fs) : Prop :=
  forall q, path_ok q -> object (the_bucket s') q = object (the_bucket s) q.

(** At most [k] bumps, modulo the width of the counter; none only when no
    object changed. *)
Record bumps (k : Z) (s s' : S3Fs) : Prop := MkBumps {
  bm_ttl : cache_ttl s' = cache_ttl s;
  bm_gen : cache_ttl s <> 0 -> exists j, 0 <= j <= k
    /\ wrap 64 (generation (meta s')) = wrap 64 (generation (meta s) + j)
    /\ (j = 0 -> same_objects s s');
}.

Lemma bumps_trans k k' s1 s2 s3 : bumps k s1 s2 -> bumps k' s2 s3 -> bumps (k + k') s1 s3.
Proof.
  intros [Ht Hg] [Ht' Hg']. split; [congruence|]. intros Hn.
  destruct (Hg Hn) as (j & Hj & Hw & Ho). destruct (Hg' ltac:(congruence)) as (j' & Hj' & Hw' & Ho').
  exists (j + j'). split; [lia|]. split.
  - rewrite Hw'. unfold wrap in *. rewrite Z.add_assoc.
    rewrite <-(Z.add_mod_idemp_l (generation (meta s2))), Hw, Z.add_mod_idemp_l by done. done.
  - intros H0 q Hq. rewrite Ho', Ho by (done || lia). done.
Qed.

Lemma bumps_le k k' s s' : bumps k s s' -> k <= k' -> bumps k' s s'.
Proof. intros [Ht Hg] Hk. split; [done|]. intros Hn. destruct (Hg Hn) as (j & ? & ?). exists j. split; [lia|done]. Qed.

Lemma bumps_same s s' :
  cache_ttl s' = cache_ttl s -> generation (meta s') = generation (meta s) -> same_objects s s' ->
  bumps 0 s s'.
Proof. intros Ht Hg Ho. split; [done|]. intros _. exists 0. split; [lia|]. by rewrite Hg, Z.add_0_r. Qed.

(** ** What the caches' operations do to the generation *)

Lemma generation_bound fuel m : generation (bound_directories_fuel fuel m) = generation m.
Proof.
  revert m. induction fuel as [|fuel IH]; intros m; simpl; [done|]. destruct (_ || _); [|done].
  destruct (oldest_directory m) as [[? ?]|]; [by rewrite IH|done].
Qed.

Lemma generation_list_name d n m : generation (list_name d n m) = generation m.
Proof. unfold list_name. destruct (directories m !! d); [|done]. by destruct (bool_decide _). Qed.
Lemma generation_unlist_name d n m : generation (unlist_name d n m) = generation m.
Proof. unfold unlist_name. destruct (directories m !! d); [|done]. by destruct (bool_decide _). Qed.
Lemma generation_prune ttl t m : generation (prune_entries ttl t m) = generation m.
Proof. unfold prune_entries. by destruct (_ >? _). Qed.

Lemma generation_record p k t m : generation (record p k t m) = generation m.
Proof.
  unfold record. destruct (split_path p) as [d n]. unfold bound_directories. rewrite generation_bound. simpl.
  destruct k; [apply generation_list_name|apply generation_unlist_name].
Qed.

Lemma generation_records dir t cs m :
  generation (foldl (fun m '(name, n) => record (join dir name) (Present n) t m) m cs) = generation m.
Proof. revert m. induction cs as [|[name n] cs IH]; intros m; simpl; [done|]. by rewrite IH, generation_record. Qed.

(** A change that is remembered bumps it. *)
Lemma bumps_remember s s1 t p k :
  cache_ttl s1 = cache_ttl s -> meta s1 = meta s -> bumps 1 s (remember t p k s1).
Proof.
  intros Ht Hm. unfold remember. destruct (Z.eqb_spec (cache_ttl s1) 0) as [E|E].
  - split; [done|]. congruence.
  - split; [done|]. intros _. exists 1. split; [lia|]. split; [|lia]. simpl.
    rewrite generation_record. simpl. rewrite generation_prune, Hm. unfold wrapping_add, wrap. by rewrite Z.mod_mod.
Qed.

Lemma bumps_observed t p k sn s : bumps 0 s (remember_observed t p k sn s).
Proof.
  unfold remember_observed. destruct (still_valid t sn s); apply bumps_same; try done. simpl.
  by rewrite generation_record, generation_prune.
Qed.

Lemma bumps_listing t dir l c sn s : bumps 0 s (remember_listing t dir l c sn s).
Proof.
  unfold remember_listing. destruct (negb (still_valid t sn s)); apply bumps_same; try done. simpl.
  set (m := foldl _ _ _). assert (generation m = generation (meta s)) as Hm.
  { unfold m. rewrite generation_records. destruct (_ && _) in |- *; rewrite ?generation_record; by rewrite generation_prune. }
  destruct (_ && _) in |- *; [|done]. unfold store_directory, bound_directories. by rewrite generation_bound.
Qed.

(** ** Requests *)

(** Nothing the fence watches changed. *)
Definition kept (s s' : S3Fs) : Prop :=
  cache_ttl s' = cache_ttl s /\ meta s' = meta s /\ the_bucket s' = the_bucket s.

Lemma kept_bumps s s' : kept s s' -> bumps 0 s s'.
Proof. intros (Ht & Hm & Hb). apply bumps_same; [done|by rewrite Hm|]. intros q _. by rewrite Hb. Qed.

Lemma still_bumps k s s' : kept s s' -> 0 <= k -> bumps k s s'.
Proof. intros Hk Hle. by apply (bumps_le 0); [apply kept_bumps|]. Qed.

Lemma kept_then k s s1 s2 : kept s s1 -> bumps k s1 s2 -> bumps k s s2.
Proof. intros Hk%kept_bumps Hb. by apply (bumps_trans 0 k s s1). Qed.
Lemma then_kept k s s1 s2 : bumps k s s1 -> kept s1 s2 -> bumps k s s2.
Proof. intros Hb Hk%kept_bumps. rewrite <-(Z.add_0_r k). by eapply bumps_trans. Qed.

Lemma kept_refl s : kept s s.
Proof. done. Qed.

Lemma ino_for_kept p s : kept s (ino_for p s).2.
Proof. unfold ino_for. by destruct (paths s !! p). Qed.
Lemma forget_path_kept p s : kept s (forget_path p s).
Proof. unfold forget_path. by destruct (paths s !! p). Qed.
Lemma rename_path_kept p q s : kept s (rename_path p q s).
Proof.
  unfold rename_path. pose proof (forget_path_kept q s) as Hk. destruct (paths _ !! p); [|done]. apply Hk.
Qed.

Lemma bumps_stat x path s : bumps 0 s (stat x path s).2.
Proof.
  unfold stat. destruct (is_empty path); [by apply kept_bumps|].
  destruct (find_staged path (staged s)) as [[? ?]|]; [by apply kept_bumps|].
  destruct (known (now x) path s) as [[]|]; [by apply kept_bumps..|].
  assert (bumps 0 s (match list_dir_snapshot x path s with
    | Ok (l, complete) =>
        if nonempty_listing l then (Some NDir, remember_listing (later x) path l complete (cache_snapshot (now x) s) s)
        else if negb (is_ok (head x path s)) then (None, s)
        else (None, if complete
          then remember_observed (later x) path Absent (cache_snapshot (now x) s)
                 (remember_listing (later x) path l complete (cache_snapshot (now x) s) s)
          else remember_listing (later x) path l complete (cache_snapshot (now x) s) s)
    | Err _ => (None, s) end).2) as Hl.
  { destruct (list_dir_snapshot x path s) as [[l c]|]; [|by apply kept_bumps].
    destruct (nonempty_listing l); [apply bumps_listing|]. destruct (negb _); [by apply kept_bumps|].
    destruct c; [|apply bumps_listing]. apply (bumps_trans 0 0 s (remember_listing (later x) path l true (cache_snapshot (now x) s) s));
      [apply bumps_listing|apply bumps_observed]. }
  destruct (head x path s) as [[info|]|]; [apply bumps_observed|exact Hl|exact Hl].
Qed.

Lemma bumps_stat_reply x r path s : bumps 0 s (stat_reply x r path s).2.
Proof. unfold stat_reply. pose proof (bumps_stat x path s) as Hb. by destruct (stat x path s) as [[n|] s1]. Qed.

Lemma mutate_fields o b s :
  o <> Ambiguous ->
  match (mutate o b s).1 with
  | Ok _ => cache_ttl (mutate o b s).2 = cache_ttl s /\ meta (mutate o b s).2 = meta s
  | Err _ => (mutate o b s).2 = s
  end.
Proof. by destruct o. Qed.

(** A change of the bucket and the note of it. *)
Lemma bumps_change o b s (f : S3Fs -> S3Fs) t p k :
  o <> Ambiguous -> (forall s, cache_ttl (f s) = cache_ttl s /\ meta (f s) = meta s) ->
  bumps 1 s (match mutate o b s with (Err _, s) => s | (Ok _, s) => remember t p k (f s) end).
Proof.
  intros Ho Hf. pose proof (mutate_fields o b s Ho) as Hm. destruct (mutate o b s) as [[u|e] s1]; simpl in Hm.
  - destruct Hm as [Ht Hm], (Hf s1) as [Ht' Hm']. apply bumps_remember; congruence.
  - subst s1. by apply still_bumps.
Qed.

Lemma bumps_open_staged x p trunc s : kept s (open_staged x p trunc s).2.
Proof.
  unfold open_staged. destruct (find_staged p (staged s)) as [[fh st]|]; [done|].
  by destruct (if trunc then _ else _).
Qed.

Lemma bumps_truncate memory x path fh n s : unambiguous x -> bumps 1 s (truncate memory x path fh n s).2.
Proof.
  intros Hx. unfold truncate. destruct (existsb _ _); [by destruct (n >? I64_MAX); apply still_bumps|].
  destruct (if n =? 0 then _ else _) as [b|]; [|by apply still_bumps].
  destruct (_ && _); [by apply still_bumps|].
  pose proof (bumps_change (outcome x Put) (put_object (the_bucket s) path (resize_file b n) (server_time x)) s
    (forget_bytes path) (later x) path (Present (NFile n (clock x))) (Hx Put) ltac:(done)) as Hb.
  unfold put. by destruct (mutate _ _ s) as [[u|e] s1].
Qed.

Lemma bumps_upload x fh st path s : unambiguous x -> bumps 1 s (upload x fh st path s).2.
Proof.
  intros Hx. unfold upload. destruct (st_dirty st); [|by apply still_bumps].
  pose proof (bumps_change (outcome x Put) (put_object (the_bucket s) path (st_file st) (server_time x)) s
    (fun s => forget_bytes path (with_staged (insert fh (MkStaged (st_file st) (st_key st) (st_size st) false (st_writers st))) s))
    (later x) path (Present (NFile (len (st_file st)) (clock x))) (Hx Put) ltac:(done)) as Hb.
  unfold put. by destruct (mutate _ _ s) as [[u|e] s1].
Qed.

Lemma bumps_flush_staged x fh path close s : unambiguous x -> bumps 1 s (flush_staged x fh path close s).2.
Proof.
  intros Hx. unfold flush_staged. destruct (staged s !! fh) as [st|]; [|by apply still_bumps].
  set (st' := if close then _ else st). apply (kept_then 1 s (with_staged (insert fh st') s)); [done|].
  pose proof (bumps_upload x fh st' path (with_staged (insert fh st') s) Hx) as Hu.
  destruct (upload _ _ _ _ _) as [[u|e] s1]; [|done]. simpl in *. destruct (st_writers st' =? 0); [|done].
  by eapply then_kept.
Qed.

Lemma bumps_small_bytes x path n t s : bumps 1 s (small_bytes x path n t s).2.
Proof.
  unfold small_bytes. destruct (small_hit _ _ _ _ s) as [f|]; [by apply still_bumps|].
  destruct (get_whole x path s) as [b|]; [|by apply still_bumps]. simpl.
  unfold keep_bytes. destruct (negb _); [by apply bumps_remember|]. by apply still_bumps.
Qed.

Lemma push_children_kept dir max next cs buf s : kept s (push_children dir max next cs buf s).2.
Proof.
  revert next buf s. induction cs as [|[name kind] cs IH]; intros next buf s; simpl; [done|].
  pose proof (ino_for_kept (join dir name) s) as Hk. destruct (ino_for (join dir name) s) as [ino s1]. simpl in Hk.
  destruct (push_dirent _ _ _ _ _ _) as [buf'|]; [|done]. specialize (IH (next + 1) buf' s1).
  destruct Hk as (? & ? & ?), IH as (? & ? & ?). repeat split; congruence.
Qed.

Lemma bumps_rename_entry x from to s : unambiguous x -> bumps 3 s (rename_entry x from to s).2.
Proof.
  intros Hx. unfold rename_entry. set (source := known (now x) from s).
  unfold copy. destruct (object (the_bucket s) from) as [[v t]|];
    [|by destruct (outcome x Copy); apply still_bumps].
  pose proof (mutate_fields (outcome x Copy) (put_object (the_bucket s) to v (server_time x)) s (Hx Copy)) as Hm.
  destruct (mutate (outcome x Copy) _ s) as [[u|e] s1]; simpl in Hm |- *;
    [|subst s1; by destruct e; apply still_bumps].
  set (s2 := invalidate_copied_destination to (forget_bytes to s1)).
  assert (bumps 1 s s2) as H2.
  { unfold s2, invalidate_copied_destination. destruct (split_path to) as [d n]. destruct Hm as [Ht Hm].
    split; [done|]. intros _. exists 1. split; [lia|]. split; [|lia]. simpl.
    unfold bound_directories. rewrite generation_bound, generation_list_name. simpl. rewrite Hm.
    unfold wrapping_add, wrap. by rewrite Z.mod_mod. }
  pose proof (bumps_change (outcome x Delete) (delete_object (the_bucket s2) from) s2
    (fun s => forget_bytes from (rename_path from to s)) (later x) from Absent (Hx Delete)) as H3.
  specialize (H3 ltac:(intros s'; destruct (rename_path_kept from to s') as (? & ? & _); done)).
  unfold delete_key. destruct (mutate (outcome x Delete) _ s2) as [[u'|e'] s3].
  - assert (bumps 2 s (remember (later x) from Absent (forget_bytes from (rename_path from to s3)))) as H4
      by by apply (bumps_trans 1 1 s s2).
    simpl. destruct source as [[[|sz mt]|]|]; try (apply (bumps_le 2); [done|lia]).
    apply (bumps_trans 2 1 s _ _ H4). by apply bumps_remember.
  - simpl. apply (bumps_le 2); [by apply (bumps_trans 1 1 s s2)|lia].
Qed.

Lemma bumps_change_reply o b s (f : S3Fs -> S3Fs) t p k e (g : S3Fs -> Reply * S3Fs) :
  o <> Ambiguous -> (forall s, cache_ttl (f s) = cache_ttl s /\ meta (f s) = meta s) ->
  (forall s, kept s (g s).2) ->
  bumps 1 s (match mutate o b s with (Err _, s) => (RError e, s) | (Ok _, s) => g (remember t p k (f s)) end).2.
Proof.
  intros Ho Hf Hg. pose proof (bumps_change o b s f t p k Ho Hf) as Hb.
  destruct (mutate o b s) as [[u|e'] s1]; [|done]. by eapply then_kept.
Qed.

Lemma writable_bumps k s rs : 0 <= k -> bumps k s rs.2 -> bumps k s (writable s rs).2.
Proof. intros Hk Hb. unfold writable. destruct (read_only s); [by apply still_bumps|done]. Qed.

Lemma bumps_op_lookup x r s : bumps 0 s (op_lookup x r s).2.
Proof.
  unfold op_lookup. destruct (path_of _ s) as [parent|]; [|by apply still_bumps].
  destruct (name_at r 0) as [name|]; [|by apply still_bumps].
  pose proof (bumps_stat x (join parent name) s) as Hb. destruct (stat x (join parent name) s) as [[n|] s1]; [|done].
  pose proof (ino_for_kept (join parent name) s1) as Hk. destruct (ino_for _ s1) as [ino s2]. by eapply then_kept.
Qed.

Lemma bumps_op_setattr memory x r s : unambiguous x -> bumps 1 s (op_setattr memory x r s).2.
Proof.
  intros Hx. apply writable_bumps; [done|]; cbv zeta. destruct (path_of _ s) as [path|]; [|by apply still_bumps]; cbv zeta.
  destruct (negb _); [|by apply (bumps_le 0); [apply bumps_stat_reply|]].
  match goal with |- context [truncate memory x path ?fh ?n s] =>
    pose proof (bumps_truncate memory x path fh n s Hx) as Hb; destruct (truncate memory x path fh n s) as [[u|e] s1] end;
    [|done]. apply (bumps_trans 1 0 s s1); [done|apply bumps_stat_reply].
Qed.

Lemma bumps_op_readdir x r s : bumps 0 s (op_readdir x r s).2.
Proof.
  unfold op_readdir. destruct (path_of _ s) as [path|]; [|by apply still_bumps]; cbv zeta.
  destruct (_ >? 0); [by apply still_bumps|].
  destruct (list_dir_snapshot x path s) as [[l c]|]; [|by apply still_bumps]; cbv zeta.
  pose proof (bumps_listing (later x) path l c (cache_snapshot (now x) s) s) as Hb.
  set (s1 := remember_listing _ _ _ _ _ _) in *.
  match goal with |- context [push_children path ?m ?n ?cs ?b s1] =>
    pose proof (push_children_kept path m n cs b s1) as Hk; destruct (push_children path m n cs b s1) as [[b2 n2] s2] end.
  match goal with |- context [push_children path ?m ?n ?cs ?b s2] =>
    pose proof (push_children_kept path m n cs b s2) as Hk'; destruct (push_children path m n cs b s2) as [[b3 n3] s3] end.
  eapply then_kept; [by eapply then_kept|done].
Qed.

Lemma bumps_op_open x r s : bumps 0 s (op_open x r s).2.
Proof.
  unfold op_open. destruct (path_of _ s) as [path|]; [|by apply still_bumps]; cbv zeta. destruct (negb _); [|by apply still_bumps]; cbv zeta.
  apply writable_bumps; [done|]; cbv zeta.
  match goal with |- context [open_staged x path ?t s] =>
    pose proof (bumps_open_staged x path t s) as Hk; destruct (open_staged x path t s) as [[fh|] s1] end;
  by apply still_bumps.
Qed.

Lemma bumps_op_create x r s : bumps 0 s (op_create x r s).2.
Proof.
  apply writable_bumps; [done|]; cbv zeta. destruct (path_of _ s) as [parent|]; [|by apply still_bumps]; cbv zeta.
  destruct (name_at r 16) as [name|]; [|by apply still_bumps]; cbv zeta.
  pose proof (bumps_open_staged x (join parent name) true s) as Hk.
  destruct (open_staged _ _ _ s) as [[fh|] s1]; [|by apply still_bumps]; cbv zeta.
  pose proof (ino_for_kept (join parent name) s1) as Hk'. destruct (ino_for _ s1) as [ino s2].
  eapply then_kept; [by apply kept_bumps|done].
Qed.

Lemma bumps_op_read x r s : bumps 1 s (op_read x r s).2.
Proof.
  unfold op_read. destruct (path_of _ s) as [path|]; [|by apply still_bumps]; cbv zeta.
  destruct (staged_for _ path s) as [st|]; [destruct (_ >? I64_MAX); by apply still_bumps|].
  destruct (_ =? 0); [by apply still_bumps|].
  destruct (known (now x) path s) as [[[|total mt]|]|]; try by apply still_bumps.
  destruct (total <=? SMALL_FILE_MAX); [|by apply still_bumps]; cbv zeta.
  pose proof (bumps_small_bytes x path total mt s) as Hb. by destruct (small_bytes _ _ _ _ s) as [[b|] s1].
Qed.

Lemma bumps_op_write r s : bumps 0 s (op_write r s).2.
Proof.
  apply writable_bumps; [done|]; cbv zeta. destruct (get_range _ _ _); [|by apply still_bumps]; cbv zeta.
  destruct (staged s !! _); [|by apply still_bumps]; cbv zeta. destruct (_ || _); by apply still_bumps.
Qed.

Lemma bumps_unit_reply k s rs : bumps k s rs.2 -> bumps k s (unit_reply rs).2.
Proof. by destruct rs as [[u|e] s1]. Qed.

Lemma bumps_op_rename x r s : unambiguous x -> bumps 3 s (op_rename x r s).2.
Proof.
  intros Hx. apply writable_bumps; [done|]; cbv zeta. destruct (path_of (nodeid r) s) as [parent|]; [|by apply still_bumps]; cbv zeta.
  destruct (name_at r 8) as [old|]; [|by apply still_bumps]; cbv zeta.
  destruct (name_at r _) as [new'|]; [|by apply still_bumps]; cbv zeta.
  destruct (path_of (u64_at r 0) s) as [np|]; [|by apply still_bumps]; cbv zeta.
  destruct (bool_decide _); [|by apply bumps_rename_entry].
  pose proof (bumps_stat x (join parent old) s) as Hb.
  destruct (stat _ _ s) as [[n|] s1]; by apply (bumps_le 0).
Qed.

Lemma bumps_op_unlink x r s : unambiguous x -> bumps 1 s (op_unlink x r s).2.
Proof.
  intros Hx. apply writable_bumps; [done|]; cbv zeta. destruct (path_of _ s) as [parent|]; [|by apply still_bumps]; cbv zeta.
  destruct (name_at r 0) as [name|]; [|by apply still_bumps]; cbv zeta.
  apply (bumps_change_reply _ _ s (fun s => forget_bytes (join parent name) (forget_path (join parent name) s))
    _ _ _ _ (fun s => (ROk, s))); [apply Hx| |done].
  intros s'. by destruct (forget_path_kept (join parent name) s') as (? & ? & _).
Qed.

Lemma bumps_op_mkdir x r s : unambiguous x -> bumps 1 s (op_mkdir x r s).2.
Proof.
  intros Hx. apply writable_bumps; [done|]; cbv zeta. destruct (path_of _ s) as [parent|]; [|by apply still_bumps]; cbv zeta.
  destruct (name_at r 8) as [name|]; [|by apply still_bumps]; cbv zeta.
  apply (bumps_change_reply _ _ s (fun s => s) _ _ _ _
    (fun s => let (ino, s) := ino_for (join parent name) s in (REntry (attr_for ino NDir), s))); [apply Hx|done|].
  intros s'. pose proof (ino_for_kept (join parent name) s'). by destruct (ino_for _ s').
Qed.

Lemma bumps_op_rmdir x r s : unambiguous x -> bumps 1 s (op_rmdir x r s).2.
Proof.
  intros Hx. apply writable_bumps; [done|]; cbv zeta. destruct (path_of _ s) as [parent|]; [|by apply still_bumps]; cbv zeta.
  destruct (name_at r 0) as [name|]; [|by apply still_bumps]; cbv zeta.
  assert (bumps 1 s (match delete_key x (join parent name ++ bs "/") s with
    | (Err _, s) => (RError EIO, s)
    | (Ok _, s) => (ROk, remember (later x) (join parent name) Absent (forget_path (join parent name) s)) end).2) as Hr.
  { apply (bumps_change_reply _ _ s (forget_path (join parent name)) _ _ _ _ (fun s => (ROk, s))); [apply Hx| |done].
    intros s'. by destruct (forget_path_kept (join parent name) s') as (? & ? & _). }
  destruct (list_dir_snapshot _ _ s) as [[l c]|]; [|exact Hr]. destruct (_ || _); [by apply still_bumps|exact Hr].
Qed.

Create HintDb fence.
#[local] Hint Resolve bumps_op_lookup bumps_op_setattr bumps_op_readdir bumps_op_open bumps_op_create bumps_op_read
  bumps_op_write bumps_op_rename bumps_op_unlink bumps_op_mkdir bumps_op_rmdir bumps_stat_reply bumps_unit_reply
  bumps_flush_staged : fence.

Lemma bumps_dispatch memory x r s : unambiguous x -> bumps 3 s (dispatch memory x r s).2.
Proof.
  intros Hx. assert (forall s', bumps 0 s s' -> bumps 3 s s') as H0 by (intros; by apply (bumps_le 0)).
  assert (forall s', bumps 1 s s' -> bumps 3 s s') as H1 by (intros; by apply (bumps_le 1)).
  assert (bumps 3 s s) as Hs by by apply still_bumps.
  assert (bumps 0 s (op_getattr x r s).2) as Hg.
  { unfold op_getattr. destruct (path_of _ s); [apply bumps_stat_reply|by apply still_bumps]. }
  assert (bumps 1 s (op_flush x r s).2 /\ bumps 1 s (op_fsync x r s).2 /\ bumps 1 s (op_release x r s).2) as (Hf & Hy & Hl).
  { unfold op_flush, op_fsync, op_release. destruct (path_of _ s); (split; [|split]); auto with fence; by apply still_bumps. }
  unfold dispatch. repeat case_match; auto with fence.
Qed.

(** ** Late answers *)

Lemma bumps_session s l s' : session s l s' -> bumps (3 * Z.of_nat (length l)) s s'.
Proof.
  induction 1 as [s|memory x r rep s s1 l s2 Hx Hw Hd Hl IH]; [by apply still_bumps|].
  pose proof (bumps_dispatch memory x r s Hx) as Hb. rewrite Hd in Hb. simpl in Hb.
  cbn [length]. replace (3 * Z.of_nat (S (length l))) with (3 + 3 * Z.of_nat (length l)) by lia.
  by eapply bumps_trans.
Qed.

Definition answer (info : option ObjectInfo) : Known :=
  match info with Some i => Present (NFile (oi_size i) (oi_time i)) | None => Absent end.

(** What the caches may answer is true. *)
Definition coherent (s : S3Fs) : Prop :=
  forall t p k, path_ok p -> known t p s = Some k -> claim_ok (the_bucket s) p k.

Lemma fs_ok_coherent s : fs_ok s -> coherent s.
Proof. intros Hs t p k Hp. by apply known_claim. Qed.

(** What was observed in the middle of a fenced session is still true. *)
Lemma observed_still s0 l1 s1 l2 s2 :
  session s0 l1 s1 -> session s1 l2 s2 -> 3 * Z.of_nat (length l1 + length l2) < 2 ^ 64 ->
  cache_ttl s2 <> 0 -> generation (meta s2) = generation (meta s0) -> same_objects s1 s2.
Proof.
  intros H1 H2 Hn Ht Hg. pose proof (bumps_session s0 l1 s1 H1) as B1. pose proof (bumps_session s1 l2 s2 H2) as B2.
  assert (cache_ttl s0 <> 0) as Ht0 by (rewrite <-(bm_ttl _ _ _ B1), <-(bm_ttl _ _ _ B2); done).
  destruct (bm_gen _ _ _ B1 Ht0) as (j1 & Hj1 & Hw1 & _).
  destruct (bm_gen _ _ _ B2 ltac:(by rewrite <-(bm_ttl _ _ _ B2))) as (j2 & Hj2 & Hw2 & Ho2).
  apply Ho2. rewrite Hg in Hw2. unfold wrap in *.
  rewrite <-(Z.add_mod_idemp_l (generation (meta s1))), Hw1, Z.add_mod_idemp_l in Hw2 by done.
  assert ((generation (meta s0) + j1 + j2 - generation (meta s0)) mod 2 ^ 64 = 0) as Hz.
  { rewrite Zminus_mod, <-Hw2, Z.sub_diag. done. }
  replace (generation (meta s0) + j1 + j2 - generation (meta s0)) with (j1 + j2) in Hz by lia.
  rewrite Z.mod_small in Hz by lia. lia.
Qed.

Lemma claim_still s1 s2 p k :
  same_objects s1 s2 -> path_ok p -> claim_ok (the_bucket s1) p k -> claim_ok (the_bucket s2) p k.
Proof. intros Ho Hp. destruct k as [[|sz t]|]; simpl; [done|by rewrite Ho..]. Qed.

Lemma listing_still s1 s2 dir l c :
  same_objects s1 s2 -> listing_true (the_bucket s1) dir l c -> listing_true (the_bucket s2) dir l c.
Proof.
  intros Ho [Hc Ha]. split.
  - intros name n Hin. destruct (Hc name n Hin) as [Hf Hk]. split; [done|].
    eapply claim_still; [done|by apply child_path|done].
  - intros Hcc name Hf. rewrite Ho by by apply child_path. by apply Ha.
Qed.

(** Requests overlap: a lookup notes the state of the
    caches, the store answers while other requests run, and the answer is
    recorded after still others. Whether it is the answer of a HEAD or a
    listing, and whatever changed in between, what the caches say afterwards
    is true of the bucket and no file changes. *)
Theorem late_answers_fenced x t late path s0 l1 s1 l2 s2 :
  fs_ok s0 -> session s0 l1 s1 -> session s1 l2 s2 -> path_ok path ->
  3 * Z.of_nat (length l1 + length l2) < 2 ^ 64 ->
  let sn := cache_snapshot t s0 in
  (forall info, head x path s1 = Ok info ->
     let s3 := remember_observed late path (answer info) sn s2 in coherent s3 /\ fs_ok s3 /\ same_files s2 s3)
  /\ (forall l c, list_dir_snapshot x path s1 = Ok (l, c) ->
     let s3 := remember_listing late path l c sn s2 in coherent s3 /\ fs_ok s3 /\ same_files s2 s3).
Proof.
  intros Hs0 H1 H2 Hp Hn sn. pose proof (requests_ok _ _ _ Hs0 H1) as Hs1. pose proof (requests_ok _ _ _ Hs1 H2) as Hs2.
  assert (still_valid late sn s2 = true -> same_objects s1 s2) as Hsame.
  { intros Hv. apply (observed_still s0 l1 s1 l2 s2); [done..|by eapply still_valid_ttl|].
    unfold still_valid in Hv. apply andb_true_iff in Hv as [_ Hv]. by apply Z.eqb_eq in Hv. }
  assert (forall s3, fs_ok s3 -> same_core s2 s3 -> coherent s3 /\ fs_ok s3 /\ same_files s2 s3) as Hdone.
  { intros s3 Hs3 Hc. split; [by apply fs_ok_coherent|]. split; [done|]. intros q. by apply same_core_view. }
  split.
  - intros info Hh. destruct (still_valid late sn s2) eqn:Ev.
    + assert (claim_ok (the_bucket s2) path (answer info)) as Hk.
      { apply (claim_still s1); [by apply Hsame|done|]. pose proof (head_Ok _ _ _ _ Hh) as Ho.
        destruct info as [i|]; [|done]. destruct Ho as (v & ? & ?). by exists v, (oi_time i). }
      destruct (remember_observed_ok late path (answer info) sn s2 Hs2 Hp Hk) as [Hs3 Hc]. by apply Hdone.
    + unfold remember_observed. rewrite Ev. by apply Hdone.
  - intros l c Hl. destruct (still_valid late sn s2) eqn:Ev.
    + pose proof (listed_children_ok (the_bucket s1) path) as Hlt. unfold list_dir_snapshot in Hl.
      destruct (outcome x List); try done. injection Hl as Hl. rewrite Hl in Hlt.
      destruct (remember_listing_true late path l c sn s2 Hs2 (or_intror Hp)) as [Hs3 Hc]; [|by apply Hdone].
      eapply listing_still; [by apply Hsame|done].
    + unfold remember_listing. rewrite Ev. by apply Hdone.
Qed.
End Fence.

#[local] Existing Instance map_service.

Definition flushed : S3Fs := (dispatch (fun _ => true) all_done (on_handle 25 2 1) written).2.

Lemma flushed_session : exists tr, length tr = 1%nat /\ session written tr flushed.
Proof.
  apply (serve_session [(all_done, on_handle 25 2 1)]). split; [apply (all_done_unambiguous Put)|].
  split; [|done]. split; [by apply bytes_decided|]. intros st p. vm_compute. by intros [= <-] [= <-].
Qed.

(** A HEAD that found no object, answered before the upload and recorded after
    it, does not hide the file. *)
Lemma late_answers_fenced_witness :
  head all_done (bs "f") written = Ok None
  /\ known 0 (bs "f") (remember_observed 0 (bs "f") (answer None) (cache_snapshot 0 empty_mount) flushed)
     = Some (Present (NFile 2 0))
  /\ coherent (remember_observed 0 (bs "f") (answer None) (cache_snapshot 0 empty_mount) flushed).
Proof.
  split; [by vm_compute|]. split; [by vm_compute|].
  destruct written_session as (l1 & Hn1 & H1), flushed_session as (l2 & Hn2 & H2).
  refine (proj1 (proj1 (late_answers_fenced all_done 0 0 (bs "f") empty_mount l1 written l2 flushed
    (new_ok ∅ false 2000) H1 H2 _ _) None _)).
  - exists [], (bs "f"). split; [by apply slash_freeb_spec|done].
  - rewrite Hn1, Hn2. done.
  - by vm_compute.
Defined.
End S3Fence.
