(* ===== verification/S3Client.v ===== *)
(** * S3Client: the client of the object store behind a mount
    (crates/smolvm-s3fs/src/sigv4.rs and s3.rs)

    Keys become URLs, requests are signed, listings are read page by page
    from XML, and time stamps are computed by hand. SHA-256 and HMAC are
    parameters ([Crypto]); the server is a function on a world, so that a
    listing may see it change between pages. *)

From S2P Require Import Prelude RustStr ForkPool S3Fs.

(** ** Signatures *)

Module Sigv4.
Import Str Pat.

Class Crypto := MkCrypto {
  hmac : bytes -> bytes -> bytes;
  sha256 : bytes -> bytes;
}.

Definition UNSIGNED_PAYLOAD : bytes := bs "UNSIGNED-PAYLOAD".
Definition EMPTY_SHA256 : bytes := bs "e3b0c44298fc1c149afbf4c8996fb92427ae41e4649b934ca495991b7852b855".

Record Credentials := MkCreds {
  access_key_id : bytes;
  secret_access_key : bytes;
  session_token : option bytes;
}.

Record SignRequest := MkSign {
  method : bytes;
  path : bytes;
  query : list (bytes * bytes);
  headers : list (bytes * bytes);
  payload_sha256 : bytes;
}.

Definition hex (b : bytes) : bytes := flat_map (fun x => [lower_digit (x / 16); lower_digit (x mod 16)]) b.

Definition unreserved (b : Z) : bool :=
  is_ascii_upper b || is_ascii_lower b || is_ascii_digit b
  || (b =? 45) || (b =? 95) || (b =? 46) || (b =? 126).

Definition encode_byte (encode_slash : bool) (b : Z) : bytes :=
  if unreserved b then [b]
  else if (b =? 47) && negb encode_slash then [47]
  else [37; upper_digit (b / 16); upper_digit (b mod 16)].
Definition uri_encode (s : bytes) (encode_slash : bool) : bytes := flat_map (encode_byte encode_slash) s.

Definition signed_by_sign : list bytes :=
  [bs "x-amz-date"; bs "x-amz-content-sha256"; bs "authorization"; bs "x-amz-security-token"].

(** The headers [sign] puts in place of its own older ones. *)
Definition amz_headers (req : SignRequest) (creds : Credentials) (amz_date : bytes) : list (bytes * bytes) :=
  filter (fun h => to_ascii_lowercase h.1 ∉ signed_by_sign) (headers req)
  ++ [(bs "x-amz-date", amz_date); (bs "x-amz-content-sha256", payload_sha256 req)]
  ++ match session_token creds with Some token => [(bs "x-amz-security-token", token)] | None => [] end.

Definition canonical_header_list (hs : list (bytes * bytes)) : list (bytes * bytes) :=
  sort_by (fun a b => Pool.bytes_leb a.1 b.1) (map (fun h => (to_ascii_lowercase h.1, trim h.2)) hs).
Definition signed_headers (canon : list (bytes * bytes)) : bytes := join (bs ";") (map fst canon).
Definition canonical_headers (canon : list (bytes * bytes)) : bytes :=
  flat_map (fun h => h.1 ++ bs ":" ++ h.2 ++ [10]) canon.

(** Pairs of strings in Rust's order. *)
Definition pair_leb (a b : bytes * bytes) : bool :=
  if bool_decide (a.1 = b.1) then Pool.bytes_leb a.2 b.2 else Pool.bytes_leb a.1 b.1.
Definition encode_pair (kv : bytes * bytes) : bytes * bytes := (uri_encode kv.1 true, uri_encode kv.2 true).
Definition query_string (q : list (bytes * bytes)) : bytes :=
  join (bs "&") (map (fun kv => kv.1 ++ bs "=" ++ kv.2) q).
Definition canonical_query (q : list (bytes * bytes)) : bytes :=
  query_string (sort_by pair_leb (map encode_pair q)).

Section Sign.
Context `{Crypto}.

Definition sha256_hex (data : bytes) : bytes := hex (sha256 data).

Definition canonical_request (req : SignRequest) (canon : list (bytes * bytes)) : bytes :=
  join [10] [method req; path req; canonical_query (query req); canonical_headers canon;
             signed_headers canon; payload_sha256 req].

Definition scope (date_stamp region : bytes) : bytes := date_stamp ++ bs "/" ++ region ++ bs "/s3/aws4_request".

Definition signing_key (creds : Credentials) (date_stamp region : bytes) : bytes :=
  hmac (hmac (hmac (hmac (bs "AWS4" ++ secret_access_key creds) date_stamp) region) (bs "s3")) (bs "aws4_request").

(** The headers after signing. *)
Definition sign (req : SignRequest) (creds : Credentials) (region : bytes) (now : bytes * bytes) : list (bytes * bytes) :=
  let '(date_stamp, amz_date) := now in
  let hs := amz_headers req creds amz_date in
  let canon := canonical_header_list hs in
  let scope := scope date_stamp region in
  let string_to_sign :=
    join [10] [bs "AWS4-HMAC-SHA256"; amz_date; scope; sha256_hex (canonical_request req canon)] in
  let signature := hex (hmac (signing_key creds date_stamp region) string_to_sign) in
  hs ++ [(bs "authorization",
    bs "AWS4-HMAC-SHA256 Credential=" ++ access_key_id creds ++ bs "/" ++ scope
    ++ bs ", SignedHeaders=" ++ signed_headers canon ++ bs ", Signature=" ++ signature)].
End Sign.
End Sigv4.

(** ** Dates *)

Module Civil.
Import Str Pat.

Definition is_leap (y : Z) : bool :=
  ((y mod 4 =? 0) && negb (y mod 100 =? 0)) || (y mod 400 =? 0).

Definition days_in_month (y m : Z) : Z :=
  if existsb (Z.eqb m) [1; 3; 5; 7; 8; 10; 12] then 31
  else if existsb (Z.eqb m) [4; 6; 9; 11] then 30
  else if m =? 2 then (if is_leap y then 29 else 28)
  else 30.

Definition year_len (y : Z) : Z := if is_leap y then 366 else 365.

(** [n] years from [y]; [n] months from [m]. *)
Fixpoint add_years (n : nat) (y days : Z) : Z :=
  match n with O => days | S n => add_years n (y + 1) (days + year_len y) end.
Fixpoint add_months (n : nat) (y m days : Z) : Z :=
  match n with O => days | S n => add_months n y (m + 1) (days + days_in_month y m) end.

Definition ymd_to_days (y m d : Z) : Z :=
  let days := add_years (Z.to_nat (y - 1970)) 1970 0 in
  let days := add_months (Z.to_nat (m - 1)) y 1 days in
  wrap 64 (days + d - 1).

Fixpoint find_year (fuel : nat) (y days : Z) : Z * Z :=
  match fuel with
  | O => (y, days)
  | S fuel => if days <? year_len y then (y, days) else find_year fuel (y + 1) (days - year_len y)
  end.
Fixpoint find_month (fuel : nat) (y m days : Z) : Z * Z :=
  match fuel with
  | O => (m, days)
  | S fuel => if days >=? days_in_month y m then find_month fuel y (m + 1) (days - days_in_month y m) else (m, days)
  end.

(** A year has at least 365 days and twelve months. *)
Definition civil_from_days (days : Z) : Z * Z * Z :=
  let '(y, days) := find_year (S (Z.to_nat (days / 365))) 1970 days in
  let '(m, days) := find_month 12 y 1 days in
  (y, m, days + 1).

Definition format_date (secs : Z) : bytes :=
  let '(y, m, d) := civil_from_days (secs / 86400) in
  padded 4 y ++ padded 2 m ++ padded 2 d.

Definition format_datetime (secs : Z) : bytes :=
  let '(y, m, d) := civil_from_days (secs / 86400) in
  let rem := secs mod 86400 in
  padded 4 y ++ padded 2 m ++ padded 2 d ++ bs "T"
  ++ padded 2 (rem / 3600) ++ padded 2 (rem mod 3600 / 60) ++ padded 2 (rem mod 60) ++ bs "Z".

(** Release arithmetic: it wraps. *)
Definition seconds (y mo d h mi sec : Z) : Z :=
  wrap 64 (ymd_to_days y mo d * 86400 + h * 3600 + mi * 60 + sec).

Definition parse_iso8601 (s : bytes) : option Z :=
  if len s <? 19 then None
  else
    let num a b := parse_uint 64 (slice s a b) in
    let! y := num 0 4 in let! mo := num 5 7 in let! d := num 8 10 in
    let! h := num 11 13 in let! mi := num 14 16 in let! sec := num 17 19 in
    Some (seconds y mo d h mi sec).

Definition MONTHS : list bytes :=
  [bs "Jan"; bs "Feb"; bs "Mar"; bs "Apr"; bs "May"; bs "Jun";
   bs "Jul"; bs "Aug"; bs "Sep"; bs "Oct"; bs "Nov"; bs "Dec"].

Definition parse_http_date (s : bytes) : option Z :=
  match split_whitespace s with
  | _ :: day :: month :: year :: time :: _ =>
      let! d := parse_uint 64 day in
      let! (mo, _) := list_find (fun m => m = month) MONTHS in
      let! y := parse_uint 64 year in
      match split 58 time with
      | [h; mi; sec] =>
          let! h := parse_uint 64 h in
          let! mi := parse_uint 64 mi in
          let! sec := parse_uint 64 sec in
          Some (seconds y (Z.of_nat mo + 1) d h mi sec)
      | _ => None
      end
  | _ => None
  end.
End Civil.

(** ** XML *)

Module Xml.
Import Str Pat.

Definition open_tag (tag : bytes) : bytes := bs "<" ++ tag ++ bs ">".
Definition close_tag (tag : bytes) : bytes := bs "</" ++ tag ++ bs ">".

Definition unescape (s : bytes) : bytes :=
  replace (bs "&apos;") [39] (replace (bs "&quot;") [34] (replace (bs "&gt;") [62]
    (replace (bs "&lt;") [60] (replace (bs "&amp;") [38] s)))).

Definition xml_field (xml tag : bytes) : option bytes :=
  let! (_, rest) := split_at (open_tag tag) xml in
  let! (text, _) := split_at (close_tag tag) rest in
  Some (unescape text).

Fixpoint xml_blocks_fuel (fuel : nat) (xml tag : bytes) : list bytes :=
  match fuel with
  | O => []
  | S fuel =>
      match split_at (open_tag tag) xml with
      | None => []
      | Some (_, after) =>
          match split_at (close_tag tag) after with
          | None => []
          | Some (block, rest) => block :: xml_blocks_fuel fuel rest tag
          end
      end
  end.
Definition xml_blocks (xml tag : bytes) : list bytes := xml_blocks_fuel (length xml) xml tag.
End Xml.

(** ** The client *)

Module Client.
Import Str Pat Sigv4 Civil Xml.

Inductive Error :=
| Transport (e : bytes)
| Status (status : Z) (code message : bytes)
| Parse (e : bytes).

Record Config := MkConfig {
  endpoint : bytes;
  region : bytes;
  bucket : bytes;
  prefix : bytes;
  credentials : option Credentials;
  path_style : bool;
}.

Record Request := MkRequest {
  rq_method : bytes;
  rq_url : bytes;
  rq_headers : list (bytes * bytes);
  rq_body : option bytes;
}.

(** Reading the body, as bytes or as text, can fail. *)
Record Response := MkResponse {
  r_header : bytes -> option bytes;
  r_bytes : result bytes bytes;
  r_text : result bytes bytes;
}.
Inductive HttpResult := HttpOk (r : Response) | HttpStatus (status : Z) (r : Response) | HttpTransport (e : bytes).

Section Client.
Context `{Crypto}.
(** The server, and the clock. *)
Context {World : Type} (http : Request -> World -> HttpResult * World) (now_secs : World -> Z).
Context (cfg : Config).

Definition full_key (rel : bytes) : bytes :=
  let rel := trim_start_matches 47 rel in
  if is_empty (prefix cfg) then rel else trim_matches 47 (prefix cfg) ++ bs "/" ++ rel.

Definition url_for (key : bytes) : bytes * bytes :=
  let enc := uri_encode key false in
  if path_style cfg then
    let path := bs "/" ++ bucket cfg ++ bs "/" ++ enc in
    (trim_end_matches 47 (endpoint cfg) ++ path, path)
  else
    let path := bs "/" ++ enc in
    let host := replace (bs "://") (bs "://" ++ bucket cfg ++ bs ".") (trim_end_matches 47 (endpoint cfg)) in
    (host ++ path, path).

(** Between the first and the second [://], up to a slash. *)
Definition host_of (url : bytes) : bytes :=
  let rest :=
    match split_at (bs "://") url with
    | Some (_, rest) => match split_at (bs "://") rest with Some (part, _) => part | None => rest end
    | None => url
    end in
  default [] (head (split 47 rest)).

Definition now (w : World) : bytes * bytes := (format_date (now_secs w), format_datetime (now_secs w)).

Definition send (method key : bytes) (query : list (bytes * bytes)) (headers : list (bytes * bytes))
    (body : option bytes) (w : World) : result Response Error * World :=
  let '(url, path) := url_for key in
  let headers := headers ++ [(bs "host", host_of url)] in
  let headers :=
    match credentials cfg with
    | None => headers
    | Some creds =>
        let payload_hash := match body with Some b => sha256_hex b | None => EMPTY_SHA256 end in
        sign (MkSign method path query headers
                (if is_empty payload_hash then UNSIGNED_PAYLOAD else payload_hash))
          creds (region cfg) (now w)
    end in
  let qs := query_string (map encode_pair query) in
  let full := if is_empty qs then url else url ++ bs "?" ++ qs in
  let headers := filter (fun h => eq_ignore_ascii_case h.1 (bs "host") = false) headers in
  match http (MkRequest method full headers body) w with
  | (HttpOk r, w) => (Ok r, w)
  | (HttpStatus status r, w) =>
      let text := match r_text r with Ok text => text | Err _ => [] end in
      (Err (Status status (default [] (xml_field text (bs "Code"))) (default [] (xml_field text (bs "Message")))), w)
  | (HttpTransport e, w) => (Err (Transport e), w)
  end.

(** [head]. *)
Definition head_object (rel : bytes) (w : World) : result (option S3.ObjectInfo) Error * World :=
  match send (bs "HEAD") (full_key rel) [] [] None w with
  | (Ok r, w) =>
      let size := default 0 (let! v := r_header r (bs "content-length") in parse_uint 64 v) in
      let time := default 0 (let! v := r_header r (bs "last-modified") in parse_http_date v) in
      (Ok (Some (S3.MkInfo rel size time)), w)
  | (Err (Status 404 _ _), w) => (Ok None, w)
  | (Err e, w) => (Err e, w)
  end.

Definition get (rel : bytes) (range : option (Z * Z)) (w : World) : result bytes Error * World :=
  let headers := match range with
    | Some (start, fin) => [(bs "range", bs "bytes=" ++ dec start ++ bs "-" ++ dec fin)]
    | None => [] end in
  match send (bs "GET") (full_key rel) [] headers None w with
  | (Ok r, w) => (match r_bytes r with Ok b => Ok b | Err e => Err (Transport e) end, w)
  | (Err e, w) => (Err e, w)
  end.

Definition put (rel body : bytes) (w : World) : result unit Error * World :=
  match send (bs "PUT") (full_key rel) [] [(bs "content-length", dec (len body))] (Some body) w with
  | (Ok _, w) => (Ok tt, w)
  | (Err e, w) => (Err e, w)
  end.

Definition copy_answer (body : bytes) : result Z Error :=
  match xml_field body (bs "Code") with
  | Some code => Err (Status 200 code (default [] (xml_field body (bs "Message"))))
  | None =>
      if negb (contains_str (bs "<CopyObjectResult") body)
         || negb (ends_with (bs "</CopyObjectResult>") (trim_end body))
         || match xml_field body (bs "ETag") with Some etag => is_empty etag | None => true end
      then Err (Parse (bs "invalid copy response"))
      else ok_or (let! value := xml_field body (bs "LastModified") in parse_iso8601 value)
             (Parse (bs "copy response has no valid LastModified"))
  end.

Definition copy (from to : bytes) (w : World) : result Z Error * World :=
  let source := bs "/" ++ bucket cfg ++ bs "/" ++ full_key from in
  let headers := [(bs "x-amz-copy-source", uri_encode source false);
                  (bs "x-amz-metadata-directive", bs "COPY"); (bs "content-length", bs "0")] in
  match send (bs "PUT") (full_key to) [] headers (Some []) w with
  | (Err e, w) => (Err e, w)
  | (Ok r, w) => (match r_text r with Err e => Err (Transport e) | Ok body => copy_answer body end, w)
  end.

Definition delete (rel : bytes) (w : World) : result unit Error * World :=
  match send (bs "DELETE") (full_key rel) [] [] None w with
  | (Ok _, w) => (Ok tt, w)
  | (Err (Status 404 _ _), w) => (Ok tt, w)
  | (Err e, w) => (Err e, w)
  end.

(** ** Listings *)

(** The text is one listing. *)
Definition listing_root (body : bytes) : option bytes :=
  let! (_, rest) := split_at (bs "<ListBucketResult") body in
  let root := trim_end (bs "<ListBucketResult" ++ rest) in
  let empty_root := ends_with (bs "/>") root && negb (contains 62 (take (length root - 2) root)) in
  if ends_with (bs "</ListBucketResult>") root || empty_root then Some root else None.

Definition list_object (pre : bytes) (acc : S3.Listing) (c : bytes) : S3.Listing :=
  match xml_field c (bs "Key") with
  | None => acc
  | Some key =>
      if bool_decide (key = pre) then S3.MkListing (S3.l_objects acc) true (S3.l_prefixes acc)
      else
        let rel_key := default key (strip_prefix pre key) in
        if is_empty rel_key then acc
        else S3.MkListing (S3.l_objects acc ++ [S3.MkInfo rel_key
               (default 0 (let! s := xml_field c (bs "Size") in parse_uint 64 s))
               (default 0 (let! s := xml_field c (bs "LastModified") in parse_iso8601 s))])
             (S3.directory_marker_exists acc) (S3.l_prefixes acc)
  end.

Definition list_prefix (pre : bytes) (acc : S3.Listing) (p : bytes) : S3.Listing :=
  match xml_field p (bs "Prefix") with
  | None => acc
  | Some pfx =>
      let name := trim_end_matches 47 (default pfx (strip_prefix pre pfx)) in
      if is_empty name then acc
      else S3.MkListing (S3.l_objects acc) (S3.directory_marker_exists acc) (S3.l_prefixes acc ++ [name])
  end.

Definition list_page (pre : bytes) (acc : S3.Listing) (body : bytes) : S3.Listing :=
  foldl (list_prefix pre) (foldl (list_object pre) acc (xml_blocks body (bs "Contents")))
    (xml_blocks body (bs "CommonPrefixes")).

Definition list_query (pre : bytes) (token : option bytes) : list (bytes * bytes) :=
  [(bs "list-type", bs "2"); (bs "delimiter", bs "/"); (bs "max-keys", bs "1000")]
  ++ (if is_empty pre then [] else [(bs "prefix", pre)])
  ++ match token with Some t => [(bs "continuation-token", t)] | None => [] end.

Definition list_prefix_of (rel : bytes) : bytes :=
  let pre := full_key rel in
  if negb (is_empty pre) && negb (ends_with (bs "/") pre) then pre ++ bs "/" else pre.

(** [None]: the server has sent more pages than the fuel. *)
Fixpoint list_pages (fuel : nat) (pre : bytes) (token : option bytes) (tokens : gset bytes) (acc : S3.Listing)
    (w : World) : option (result (S3.Listing * bool) Error * World) :=
  match fuel with
  | O => None
  | S fuel =>
      match send (bs "GET") [] (list_query pre token) [] None w with
      | (Err e, w) => Some (Err e, w)
      | (Ok r, w) =>
          match r_text r with
          | Err e => Some (Err (Transport e), w)
          | Ok body =>
              match listing_root body with
              | None => Some (Err (Parse (bs "invalid listing response")), w)
              | Some _ =>
                  let acc := list_page pre acc body in
                  match xml_field body (bs "IsTruncated") with
                  | None => Some (Ok (acc, false), w)
                  | Some flag =>
                      if bool_decide (flag = bs "true") then
                        match xml_field body (bs "NextContinuationToken") with
                        | None | Some [] => Some (Err (Parse (bs "truncated listing has no token")), w)
                        | Some next =>
                            if bool_decide (next ∈ tokens)
                            then Some (Err (Parse (bs "listing repeats a continuation token")), w)
                            else list_pages fuel pre (Some next) ({[next]} ∪ tokens) acc w
                        end
                      else if bool_decide (flag = bs "false") then Some (Ok (acc, true), w)
                      else Some (Err (Parse (bs "invalid listing truncation flag")), w)
                  end
              end
          end
      end
  end.

Definition list_dir_snapshot (fuel : nat) (rel : bytes) (w : World) :
    option (result (S3.Listing * bool) Error * World) :=
  list_pages fuel (list_prefix_of rel) None ∅ (S3.MkListing [] false []) w.

Definition list_dir (fuel : nat) (rel : bytes) (w : World) : option (result S3.Listing Error * World) :=
  let! (r, w) := list_dir_snapshot fuel rel w in
  Some (let? l := r in Ok l.1, w).
End Client.
End Client.
