(* ===== verification/S3ClientFacts.v ===== *)
(** * S3ClientFacts: dates, percent encoding and XML text *)

From S2P Require Import Prelude RustStr ForkPool S3Fs S3Client.

(** ** Words *)

Module WordFacts.
Import Str StrFacts Pat.

Definition graphic (b : Z) : Prop := 33 <= b <= 126.

Lemma ws_len_graphic b s : graphic b -> ws_len (b :: s) = 0%nat.
Proof.
  intros Hr. unfold graphic in Hr. pattern b. revert b Hr.
  cut (Forall (fun b => ws_len (b :: s) = 0%nat) (seqZ 33 94)).
  { intros Hf b Hr. eapply Forall_forall in Hf; [exact Hf|]. apply elem_of_seqZ. lia. }
  change (seqZ 33 94) with (ltac:(let l := eval vm_compute in (seqZ 33 94) in exact l)).
  repeat constructor.
Qed.

Lemma split_once_word w rest :
  Forall graphic w -> split_once_ws (w ++ 32 :: rest) = Some (w, rest).
Proof.
  induction 1 as [|b w Hb _ IH]; [done|]. change ((b :: w) ++ 32 :: rest) with (b :: (w ++ 32 :: rest)).
  cbn [split_once_ws]. rewrite ws_len_graphic by done. by rewrite IH.
Qed.
Lemma split_once_only w : Forall graphic w -> split_once_ws w = None.
Proof.
  induction 1 as [|b w Hb _ IH]; [done|]. cbn [split_once_ws]. rewrite ws_len_graphic by done. by rewrite IH.
Qed.

Lemma trim_start_graphic b s : graphic b -> trim_start (b :: s) = b :: s.
Proof. intros Hb. unfold trim_start. cbn [length trim_start_fuel]. by rewrite ws_len_graphic. Qed.

Lemma split_whitespace_words ws :
  Forall (fun w => w <> [] /\ Forall graphic w) ws -> ws <> [] -> split_whitespace (join (bs " ") ws) = ws.
Proof.
  intros Hw Hne. unfold split_whitespace.
  assert (forall fuel, (length ws <= fuel)%nat -> split_whitespace_fuel fuel (join (bs " ") ws) = ws) as Hf.
  2: { apply Hf. clear Hf Hne. induction Hw as [|w ws [Hn _] _ IH]; simpl; [lia|].
       destruct ws as [|w' ws]; [simpl; destruct w; simpl; [done|lia]|]. rewrite !length_app. simpl in *. lia. }
  induction Hw as [|w ws [Hn Hg] Hws IH]; [done|]. clear Hne. intros [|fuel] Hl; simpl in Hl; [lia|].
  assert (exists b w', w = b :: w' /\ graphic b) as (b & w' & -> & Hb).
  { destruct w as [|b w']; [done|]. apply Forall_cons in Hg as [? _]. by exists b, w'. }
  cbn [split_whitespace_fuel join]. destruct ws as [|w2 ws].
  - rewrite trim_start_graphic by done. by rewrite split_once_only.
  - cbn [app]. rewrite trim_start_graphic by done.
    change (b :: w' ++ bs " " ++ join (bs " ") (w2 :: ws)) with ((b :: w') ++ 32 :: join (bs " ") (w2 :: ws)).
    rewrite split_once_word by done. f_equal. apply IH; [done|lia].
Qed.

(** ** Padded numbers *)

Lemma digits_zeros w n s : 0 <= u_max w -> digits_val w 0 (replicate n 48 ++ s) = digits_val w 0 s.
Proof.
  intros Hw. induction n as [|n IH]; [done|]. cbn [replicate app digits_val].
  change (is_ascii_digit 48) with true. change (0 * 10 + (48 - 48)) with 0.
  by rewrite (proj2 (Z.leb_le 0 (u_max w)) Hw).
Qed.

Lemma digit_graphic s : forallb is_ascii_digit s = true -> Forall graphic s.
Proof.
  intros Hs. apply Forall_forall. intros x Hx. rewrite forallb_forall in Hs.
  apply list_elem_of_In, Hs in Hx. unfold is_ascii_digit, graphic in *. lia.
Qed.
Lemma padded_digits w n : forallb is_ascii_digit (padded w n) = true.
Proof.
  unfold padded. rewrite forallb_app. unfold dec at 2. rewrite (dec_digits 40 n [] eq_refl), andb_true_r.
  apply forallb_forall. intros x Hx%list_elem_of_In. by apply elem_of_replicate in Hx as [-> _].
Qed.

Lemma parse_padded w k n : 0 <= n <= u_max w -> n < 10 ^ 40 -> parse_uint w (padded k n) = Some n.
Proof.
  intros Hn Hb. pose proof (parse_dec w n Hn Hb) as Hp. unfold padded, parse_uint in *.
  assert (forall s, forallb is_ascii_digit s = true -> match s with 43 :: d => d | _ => s end = s) as Hplus.
  { intros [|x s] Hs; [done|]. simpl in Hs. bool_simpl. destruct (decide (x = 43)) as [->|]; [done|].
    by repeat case_match. }
  rewrite (Hplus (dec n)) in Hp by apply (dec_digits 40 n [] eq_refl).
  rewrite Hplus by apply (padded_digits k n).
  destruct (dec n) as [|x l] eqn:E; [done|]. rewrite <- E in *. cbn [is_empty] in Hp.
  assert (is_empty (dec n) = false) as Ee by (by rewrite E). rewrite Ee in Hp.
  assert (is_empty (replicate (k - length (dec n)) 48 ++ dec n) = false) as ->.
  { rewrite E. by destruct (replicate _ _). }
  by rewrite digits_zeros by lia.
Qed.

Lemma dec_length k n : (0 < k <= 40)%nat -> 0 <= n < 10 ^ Z.of_nat k -> (length (dec n) <= k)%nat.
Proof.
  intros Hk Hn. unfold dec.
  assert (forall fuel n acc, 0 <= n < 10 ^ Z.of_nat k -> (0 < k)%nat ->
    (length (dec_fuel fuel n acc) <= k + length acc)%nat) as Hf.
  { clear n Hn. destruct Hk as [_ _]. induction k as [|k IH]; intros fuel n acc Hn H0; [lia|].
    destruct fuel as [|fuel]; cbn [dec_fuel]; [lia|]. destruct (Z.ltb_spec n 10); [simpl; lia|].
    rewrite Nat2Z.inj_succ, Z.pow_succ_r in Hn by lia.
    assert (0 <= n / 10 < 10 ^ Z.of_nat k) by (split; [apply Z.div_pos; lia|apply Z.div_lt_upper_bound; lia]).
    destruct k as [|k].
    - change (10 ^ Z.of_nat 0) with 1 in *. assert (1 <= n / 10) by (apply Z.div_le_lower_bound; lia). lia.
    - etrans; [apply IH; [done|lia]|]. cbn [length]. lia. }
  specialize (Hf 40%nat n [] Hn ltac:(lia)). rewrite Nat.add_0_r in Hf. exact Hf.
Qed.
Lemma padded_length k n : (0 < k <= 40)%nat -> 0 <= n < 10 ^ Z.of_nat k -> length (padded k n) = k.
Proof. intros Hk Hn. unfold padded. rewrite length_app, length_replicate. pose proof (dec_length k n Hk Hn). lia. Qed.
End WordFacts.

(** ** Dates *)

Module CivilFacts.
Import Str Pat Civil WordFacts.

Lemma year_len_pos y : 365 <= year_len y <= 366.
Proof. unfold year_len. destruct (is_leap y); lia. Qed.
Lemma month_len_pos y m : 28 <= days_in_month y m <= 31.
Proof. unfold days_in_month. repeat case_match; lia. Qed.

Lemma add_years_acc n y d : add_years n y d = d + add_years n y 0.
Proof.
  revert y d. induction n as [|n IH]; intros y d; cbn [add_years]; [lia|]. rewrite IH, (IH _ (0 + _)). lia.
Qed.
Lemma add_months_acc n y m d : add_months n y m d = d + add_months n y m 0.
Proof.
  revert m d. induction n as [|n IH]; intros m d; cbn [add_months]; [lia|]. rewrite IH, (IH _ (0 + _)). lia.
Qed.
Lemma add_years_bound n y : 365 * Z.of_nat n <= add_years n y 0 <= 366 * Z.of_nat n.
Proof.
  revert y. induction n as [|n IH]; intros y; cbn [add_years]; [lia|]. rewrite add_years_acc.
  specialize (IH (y + 1)). pose proof (year_len_pos y). lia.
Qed.

Lemma find_year_spec fuel y days : 0 <= days < 365 * Z.of_nat fuel ->
  exists k d, find_year fuel y days = (y + Z.of_nat k, d) /\ days = add_years k y 0 + d
    /\ 0 <= d < year_len (y + Z.of_nat k).
Proof.
  revert y days. induction fuel as [|fuel IH]; intros y days Hd; [lia|]. cbn [find_year].
  destruct (Z.ltb_spec days (year_len y)) as [Hl|Hl].
  - exists 0%nat, days. rewrite Z.add_0_r. split; [done|]. split; [simpl; lia|lia].
  - pose proof (year_len_pos y). destruct (IH (y + 1) (days - year_len y)) as (k & d & -> & He & Hr); [lia|].
    exists (S k), d. replace (y + 1 + Z.of_nat k) with (y + Z.of_nat (S k)) in * by lia.
    split; [done|]. split; [|done]. cbn [add_years]. rewrite add_years_acc. lia.
Qed.

(** The months of a year make up its days. *)
Lemma year_months y : add_months 12 y 1 0 = year_len y.
Proof. unfold year_len. cbn [add_months]. unfold days_in_month. destruct (is_leap y); reflexivity. Qed.

Lemma find_month_from fuel y m days : 0 <= days < add_months fuel y m 0 ->
  exists k d, find_month fuel y m days = (m + Z.of_nat k, d) /\ (k < fuel)%nat
    /\ 0 <= d < days_in_month y (m + Z.of_nat k) /\ days = add_months k y m 0 + d.
Proof.
  revert m days. induction fuel as [|fuel IH]; intros m days Hd; cbn [add_months] in Hd; [lia|].
  rewrite add_months_acc in Hd. cbn [find_month]. destruct (Z.geb_spec days (days_in_month y m)) as [Hl|Hl].
  - destruct (IH (m + 1) (days - days_in_month y m)) as (k & d & -> & Hk & Hr & He); [lia|].
    exists (S k), d. replace (m + 1 + Z.of_nat k) with (m + Z.of_nat (S k)) in * by lia.
    split_and!; [done|lia|lia|lia|]. cbn [add_months]. rewrite add_months_acc. lia.
  - exists 0%nat, days. rewrite Z.add_0_r. split_and!; [done|lia|lia|lia|simpl; lia].
Qed.

Lemma find_month_spec y days : 0 <= days < year_len y ->
  exists m d, find_month 12 y 1 days = (m, d) /\ 1 <= m <= 12 /\ 0 <= d < days_in_month y m
    /\ days = add_months (Z.to_nat (m - 1)) y 1 0 + d.
Proof.
  rewrite <- year_months. intros (k & d & -> & Hk & Hr & He)%find_month_from.
  exists (1 + Z.of_nat k), d. replace (Z.to_nat (1 + Z.of_nat k - 1)) with k by lia. split_and!; [done|lia..].
Qed.

Lemma civil_spec days : 0 <= days -> exists y m d, civil_from_days days = (y, m, d)
  /\ 1970 <= y /\ 1 <= m <= 12 /\ 1 <= d <= days_in_month y m
  /\ days = add_years (Z.to_nat (y - 1970)) 1970 0 + add_months (Z.to_nat (m - 1)) y 1 0 + (d - 1)
  /\ 365 * (y - 1970) <= days.
Proof.
  intros Hd. unfold civil_from_days. pose proof (Z.div_pos days 365 Hd). pose proof (Z.div_mod days 365).
  pose proof (Z.mod_pos_bound days 365).
  destruct (find_year_spec (S (Z.to_nat (days / 365))) 1970 days) as (k & r & -> & He & Hr); [lia|].
  destruct (find_month_spec (1970 + Z.of_nat k) r Hr) as (m & d & -> & Hm & Hdm & Hr').
  exists (1970 + Z.of_nat k), m, (d + 1). replace (Z.to_nat (1970 + Z.of_nat k - 1970)) with k by lia.
  pose proof (add_years_bound k 1970). split_and!; [done|lia..].
Qed.

(** ** The Gregorian calendar *)

(** Leap years up to [y], days before a month, days since 1970. *)
Definition leaps (y : Z) : Z := y / 4 - y / 100 + y / 400.
Definition leap_year (y : Z) : Prop := leaps y - leaps (y - 1) = 1.
Definition days_before (y m : Z) : Z :=
  nth (Z.to_nat (m - 1)) [0; 31; 59; 90; 120; 151; 181; 212; 243; 273; 304; 334] 0
  + (if bool_decide (2 < m) then leaps y - leaps (y - 1) else 0).
Definition epoch_day (y m d : Z) : Z :=
  365 * (y - 1970) + (leaps (y - 1) - leaps 1969) + days_before y m + (d - 1).
Definition valid_date (y m d : Z) : Prop :=
  1970 <= y < 10000 /\ 1 <= m <= 12
  /\ 1 <= d <= (if bool_decide (m = 12) then 31 else days_before y (m + 1) - days_before y m).

Lemma div_step y c : 0 < c -> y / c - (y - 1) / c = if y mod c =? 0 then 1 else 0.
Proof.
  intros Hc. pose proof (Z.div_mod y c ltac:(lia)). pose proof (Z.mod_pos_bound y c Hc).
  destruct (Z.eqb_spec (y mod c) 0) as [E|E].
  - assert ((y - 1) / c = y / c - 1); [|lia]. symmetry. apply (Z.div_unique _ _ _ (c - 1)); [lia|]. nia.
  - assert ((y - 1) / c = y / c); [|lia]. symmetry. apply (Z.div_unique _ _ _ (y mod c - 1)); [lia|]. nia.
Qed.
Lemma leap_count y : leaps y - leaps (y - 1) = if is_leap y then 1 else 0.
Proof.
  unfold leaps, is_leap. pose proof (div_step y 4). pose proof (div_step y 100). pose proof (div_step y 400).
  assert (y mod 400 = 0 -> y mod 100 = 0 /\ y mod 4 = 0) as H400.
  { intros E. apply Z.mod_divide in E as [k ->]; [|lia]. split; apply Z.mod_divide; try lia; [by exists (4 * k); lia|by exists (100 * k); lia]. }
  assert (y mod 100 = 0 -> y mod 4 = 0) as H100.
  { intros E. apply Z.mod_divide in E as [k ->]; [|lia]. apply Z.mod_divide; [lia|]. exists (25 * k). lia. }
  destruct (Z.eqb_spec (y mod 4) 0), (Z.eqb_spec (y mod 100) 0), (Z.eqb_spec (y mod 400) 0); cbn [andb orb negb]; lia.
Qed.
Lemma years_leaps k y : add_years k y 0 = 365 * Z.of_nat k + (leaps (y + Z.of_nat k - 1) - leaps (y - 1)).
Proof.
  revert y. induction k as [|k IH]; intros y; cbn [add_years].
  - replace (y + Z.of_nat 0 - 1) with (y - 1) by lia. lia.
  - rewrite add_years_acc, IH. unfold year_len. pose proof (leap_count y).
    replace (y + 1 + Z.of_nat k - 1) with (y + Z.of_nat (S k) - 1) by lia. replace (y + 1 - 1) with y by lia.
    destruct (is_leap y); lia.
Qed.
Lemma months_before y m : 1 <= m <= 12 ->
  days_before y m = add_months (Z.to_nat (m - 1)) y 1 0
  /\ (if bool_decide (m = 12) then 31 else days_before y (m + 1) - days_before y m) = days_in_month y m.
Proof.
  intros Hm. unfold days_before. pose proof (leap_count y) as Hl. rewrite Hl. clear Hl.
  assert (exists j, (j < 12)%nat /\ m = 1 + Z.of_nat j) as (j & Hj & ->) by (exists (Z.to_nat (m - 1)); lia).
  replace (Z.to_nat (1 + Z.of_nat j - 1)) with j by lia.
  replace (Z.to_nat (1 + Z.of_nat j + 1 - 1)) with (S j) by lia.
  do 12 (destruct j as [|j]; [cbn [add_months]; unfold days_in_month; destruct (is_leap y); split; reflexivity|]). lia.
Qed.

Lemma find_year_at k fuel y r : (k < fuel)%nat -> 0 <= r < year_len (y + Z.of_nat k) ->
  find_year fuel y (add_years k y 0 + r) = (y + Z.of_nat k, r).
Proof.
  revert fuel y. induction k as [|k IH]; intros [|fuel] y Hf Hr; [lia| |lia|]; cbn [find_year add_years].
  - rewrite Z.add_0_r in Hr |- *. rewrite Z.add_0_l. by rewrite (proj2 (Z.ltb_lt _ _)) by lia.
  - rewrite add_years_acc. pose proof (add_years_bound k (y + 1)).
    rewrite (proj2 (Z.ltb_ge _ _)) by lia.
    replace (0 + year_len y + add_years k (y + 1) 0 + r - year_len y) with (add_years k (y + 1) 0 + r) by lia.
    replace (y + Z.of_nat (S k)) with (y + 1 + Z.of_nat k) in * by lia. apply IH; [lia|done].
Qed.
Lemma find_month_at j fuel y m r : (j < fuel)%nat -> 0 <= r < days_in_month y (m + Z.of_nat j) ->
  find_month fuel y m (add_months j y m 0 + r) = (m + Z.of_nat j, r).
Proof.
  revert fuel m. induction j as [|j IH]; intros [|fuel] m Hf Hr; [lia| |lia|]; cbn [find_month add_months].
  - rewrite Z.add_0_r in Hr |- *. rewrite Z.add_0_l. destruct (Z.geb_spec r (days_in_month y m)); [lia|done].
  - rewrite add_months_acc. assert (0 <= add_months j y (m + 1) 0) as Hn.
    { clear. generalize (m + 1) as k. induction j as [|j IH]; intros k; cbn [add_months]; [lia|].
      rewrite add_months_acc. pose proof (month_len_pos y k). specialize (IH (k + 1)). lia. }
    destruct (Z.geb_spec (0 + days_in_month y m + add_months j y (m + 1) 0 + r) (days_in_month y m)); [|lia].
    replace (0 + days_in_month y m + add_months j y (m + 1) 0 + r - days_in_month y m) with (add_months j y (m + 1) 0 + r) by lia.
    replace (m + Z.of_nat (S j)) with (m + 1 + Z.of_nat j) in * by lia. apply IH; [lia|done].
Qed.

Lemma months_below_year j y r : (j < 12)%nat -> 0 <= r < days_in_month y (1 + Z.of_nat j) ->
  0 <= add_months j y 1 0 + r < year_len y.
Proof.
  intros Hj Hr. rewrite <- year_months.
  assert (forall n m, 0 <= add_months n y m 0) as Hn.
  { induction n as [|n IH]; intros m; cbn [add_months]; [lia|]. rewrite add_months_acc.
    pose proof (month_len_pos y m). specialize (IH (m + 1)). lia. }
  assert (forall n j m, (j < n)%nat -> add_months j y m 0 + days_in_month y (m + Z.of_nat j) <= add_months n y m 0) as Hlt.
  { induction n as [|n IH]; intros [|i] m Hi; [lia|lia| |]; cbn [add_months].
    - rewrite add_months_acc, Z.add_0_r. specialize (Hn n (m + 1)). lia.
    - rewrite !(add_months_acc _ _ _ (0 + _)). specialize (IH i (m + 1) ltac:(lia)).
      replace (m + 1 + Z.of_nat i) with (m + Z.of_nat (S i)) in IH by lia. lia. }
  specialize (Hlt 12%nat j 1 Hj). specialize (Hn j 1). lia.
Qed.

(** The calendar computes the date of a day. *)
Lemma civil_epoch y m d : valid_date y m d -> civil_from_days (epoch_day y m d) = (y, m, d).
Proof.
  intros (Hy & Hm & Hd). destruct (months_before y m Hm) as [Hb Hl]. rewrite Hl in Hd. unfold epoch_day. rewrite Hb.
  set (k := Z.to_nat (y - 1970)). set (j := Z.to_nat (m - 1)).
  pose proof (years_leaps k 1970) as Hk. replace (1970 + Z.of_nat k - 1) with (y - 1) in Hk by lia.
  replace (365 * Z.of_nat k) with (365 * (y - 1970)) in Hk by lia. change (1970 - 1) with 1969 in Hk. rewrite <- Hk.
  assert (0 <= d - 1 < days_in_month y (1 + Z.of_nat j)) as Hr by (replace (1 + Z.of_nat j) with m by lia; lia).
  pose proof (months_below_year j y (d - 1) ltac:(lia) Hr) as Hyl. pose proof (add_years_bound k 1970) as Hkb.
  unfold civil_from_days. rewrite <- Z.add_assoc. rewrite find_year_at.
  - replace (1970 + Z.of_nat k) with y by lia. rewrite find_month_at by (lia || done). f_equal; [f_equal; lia|lia].
  - assert (Z.of_nat k <= (add_years k 1970 0 + (add_months j y 1 0 + (d - 1))) / 365); [|lia].
    apply Z.div_le_lower_bound; lia.
  - by replace (1970 + Z.of_nat k) with y by lia.
Qed.

Lemma ymd_civil days y m d : 0 <= days < 2 ^ 64 -> civil_from_days days = (y, m, d) -> ymd_to_days y m d = days.
Proof.
  intros Hd Hc. destruct (civil_spec days ltac:(lia)) as (y' & m' & d' & Hc' & Hy & Hm & Hdm & He & _).
  rewrite Hc in Hc'. injection Hc' as <- <- <-. unfold ymd_to_days. rewrite add_months_acc.
  unfold wrap. rewrite Z.mod_small; lia.
Qed.
End CivilFacts.

(** ** Patterns *)

Module PatFacts.
Import Str StrPrefix Pat.

Lemma split_at_None p s : split_at p s = None -> forall a b, s <> a ++ p ++ b.
Proof.
  revert p. induction s as [|x s IH]; intros p; cbn [split_at].
  - destruct (strip_prefix p []) eqn:E; [done|]. intros _ [|y a] b; [|done]. apply (proj1 (strip_prefix_None _ _) E).
  - destruct (strip_prefix p (x :: s)) eqn:E; [done|]. destruct (split_at p s) as [[]|] eqn:Es; [done|].
    intros _ [|y a] b; [apply (proj1 (strip_prefix_None _ _) E)|]. intros [= -> ->]. by eapply IH.
Qed.

Lemma split_at_Some p s a b : split_at p s = Some (a, b) -> s = a ++ p ++ b.
Proof.
  revert a. induction s as [|x s IH]; intros a; cbn [split_at].
  - destruct (strip_prefix p []) eqn:E; [|done]. intros [= <- <-]. apply (proj1 (strip_prefix_Some _ _ _) E).
  - destruct (strip_prefix p (x :: s)) eqn:E; [intros [= <- <-]; apply (proj1 (strip_prefix_Some _ _ _) E)|].
    destruct (split_at p s) as [[a' b']|]; [|done]. cbn [mbind option_bind]. intros [= <- <-]. cbn [app].
    f_equal. by apply IH.
Qed.

Lemma split_at_here p s : split_at p (p ++ s) = Some ([], s).
Proof. destruct (p ++ s) eqn:E; cbn [split_at]; by rewrite (proj2 (strip_prefix_Some _ _ _) (eq_sym E)). Qed.

(** A pattern that starts with [c] is not found where there is no [c]. *)
Lemma split_at_skip c p t s : c ∉ t ->
  split_at (c :: p) (t ++ s) = let! (a, b) := split_at (c :: p) s in Some (t ++ a, b).
Proof.
  induction t as [|x t IH]; intros Hc; [cbn [app]; by destruct (split_at (c :: p) s) as [[]|]|].
  apply not_elem_of_cons in Hc as [Hx Ht]. cbn [app split_at strip_prefix].
  rewrite (proj2 (Z.eqb_neq c x) Hx), IH by done. by destruct (split_at (c :: p) s) as [[]|].
Qed.

(** [replace] from the front. *)
Lemma replace_fuel_enough fuel fuel' p r s : p <> [] -> (length s <= fuel)%nat -> (length s <= fuel')%nat ->
  replace_fuel fuel p r s = replace_fuel fuel' p r s.
Proof.
  intros Hp. revert fuel' s. induction fuel as [|fuel IH]; intros fuel' s H1 H2; cbn [replace_fuel].
  - destruct s; [|simpl in H1; lia]. destruct fuel'; [done|]. cbn [replace_fuel split_at].
    by destruct p.
  - destruct fuel' as [|fuel']; cbn [replace_fuel].
    + destruct s; [|simpl in H2; lia]. cbn [split_at]. by destruct p.
    + destruct (split_at p s) as [[a b]|] eqn:E; [|done]. apply split_at_Some in E as ->.
      rewrite !length_app in *. destruct p; [done|]. simpl in *. do 2 f_equal. apply IH; lia.
Qed.

Lemma replace_eq p r s : p <> [] ->
  replace p r s = match strip_prefix p s with
                  | Some rest => r ++ replace p r rest
                  | None => match s with [] => [] | x :: s => x :: replace p r s end
                  end.
Proof.
  intros Hp. unfold replace. destruct (strip_prefix p s) as [rest|] eqn:E.
  - apply strip_prefix_Some in E as ->. destruct (length (p ++ rest)) as [|n] eqn:El.
    { rewrite length_app in El. destruct p; [done|]. simpl in El. lia. }
    cbn [replace_fuel]. rewrite split_at_here. cbn [app]. f_equal. apply replace_fuel_enough; [done| |lia].
    rewrite length_app in El. destruct p; [done|]. simpl in El. lia.
  - destruct s as [|x s]; [done|]. cbn [length replace_fuel split_at]. rewrite E.
    destruct (split_at p s) as [[a b]|] eqn:Es; cbn [mbind option_bind app].
    + f_equal. destruct (length s) as [|n] eqn:El.
      { destruct s; [|done]. cbn [split_at] in Es. by destruct p. }
      cbn [replace_fuel]. rewrite Es. do 2 f_equal. apply split_at_Some in Es as ->.
      rewrite !length_app in El. destruct p; [done|]. simpl in El.
      apply (replace_fuel_enough (S n) n); [done|lia|lia].
    + f_equal. destruct s as [|y s']; [done|]. cbn [length replace_fuel]. by rewrite Es.
Qed.

Lemma replace_skip c p r t s : c ∉ t -> replace (c :: p) r (t ++ s) = t ++ replace (c :: p) r s.
Proof.
  induction t as [|x t IH]; intros Hc; [done|]. apply not_elem_of_cons in Hc as [Hx Ht].
  rewrite replace_eq by done. cbn [app strip_prefix]. rewrite (proj2 (Z.eqb_neq c x) Hx). by rewrite IH.
Qed.
End PatFacts.

(** ** XML text *)

Module XmlFacts.
Import Str StrPrefix Pat Xml PatFacts.

(** The entities of XML. *)
Definition entities : list (Z * bytes) :=
  [(38, bs "&amp;"); (60, bs "&lt;"); (62, bs "&gt;"); (34, bs "&quot;"); (39, bs "&apos;")].
Fixpoint entity (tbl : list (Z * bytes)) (x : Z) : bytes :=
  match tbl with
  | [] => [x]
  | (c, e) :: tbl => if x =? c then e else entity tbl x
  end.
Definition escape (s : bytes) : bytes := flat_map (entity entities) s.

(** Where unescaping an escaped text would find an entity too many. *)
Definition clean (s : bytes) : Prop :=
  forall p a b, p ∈ [bs "&lt;"; bs "&gt;"; bs "&quot;"; bs "&apos;"] -> s <> a ++ p ++ b.

Section Pass.
Context (c0 : Z) (q : bytes) (tbl : list (Z * bytes)).
Hypothesis c0_out : entity tbl c0 = [c0].
Hypothesis q_amp : 38 ∉ q.
Hypothesis q_plain : forall x, x ∈ q -> entity tbl x = [x] /\ x <> c0.
(** The other entities differ from this one before they end. *)
Hypothesis tbl_ok : forall c e, (c, e) ∈ tbl -> exists e', e = 38 :: e' /\ 38 ∉ e'
  /\ forall t, strip_prefix (38 :: q) (e ++ t) = None.

Lemma entity_cases x : entity tbl x = [x] \/ (x, entity tbl x) ∈ tbl.
Proof using.
  clear. induction tbl as [|[c e] t IH]; [by left|]. cbn [entity]. destruct (Z.eqb_spec x c) as [->|].
  - right. by left.
  - destruct IH as [|Hin]; [by left|right; by right].
Qed.

Definition entity0 (x : Z) : bytes := if x =? c0 then 38 :: q else entity tbl x.

Lemma strip_encoded u s rest :
  (forall x, x ∈ u -> entity tbl x = [x] /\ x <> c0 /\ x <> 38) ->
  strip_prefix u (flat_map entity0 s) = Some rest -> is_Some (strip_prefix u s).
Proof using tbl_ok.
  revert s. induction u as [|a u IH]; intros s Hu; [by eexists|].
  destruct (Hu a) as (Ha & Hac & Ha8); [by left|].
  destruct s as [|y s]; [done|]. cbn [flat_map]. unfold entity0 at 1.
  destruct (Z.eqb_spec y c0) as [->|Hy].
  { cbn [app strip_prefix]. destruct (Z.eqb_spec a 38); [done|discriminate]. }
  destruct (entity_cases y) as [->|Hin].
  - cbn [app strip_prefix]. destruct (Z.eqb_spec a y) as [->|]; [|done].
    intros Hr. apply IH in Hr; [done|]. intros x Hx. apply Hu. by right.
  - apply tbl_ok in Hin as (e' & -> & _). cbn [app strip_prefix]. destruct (Z.eqb_spec a 38); [done|discriminate].
Qed.

(** One replacement decodes one entity. *)
Lemma replace_pass s :
  (c0 = 38 \/ entity tbl 38 = [38] /\ forall a b, s <> a ++ (38 :: q) ++ b) ->
  replace (38 :: q) [c0] (flat_map entity0 s) = flat_map (entity tbl) s.
Proof using q_amp q_plain tbl_ok c0_out.
  induction s as [|x s IH]; intros Hc; [done|].
  assert (replace (38 :: q) [c0] (flat_map entity0 s) = flat_map (entity tbl) s) as Hs.
  { apply IH. destruct Hc as [|[He Hc]]; [by left|right]. split; [done|]. intros a b ->. by apply (Hc (x :: a) b). }
  cbn [flat_map]. unfold entity0 at 1. destruct (Z.eqb_spec x c0) as [->|Hx].
  { rewrite replace_eq by done. rewrite (proj2 (strip_prefix_Some (38 :: q) _ _) eq_refl), Hs, c0_out. done. }
  destruct (entity_cases x) as [E|Hin].
  - rewrite E. rewrite replace_eq by done. cbn [app]. destruct (strip_prefix _ (x :: _)) as [rest|] eqn:Er; [|by rewrite Hs].
    exfalso. cbn [strip_prefix] in Er. destruct (Z.eqb_spec 38 x) as [<-|]; [|done].
    destruct Hc as [Hc|[_ Hc]]; [congruence|]. apply strip_encoded in Er as [t Ht].
    + apply strip_prefix_Some in Ht as ->. by apply (Hc [] t).
    + intros y Hy. destruct (q_plain y Hy). split_and!; [done|done|]. by intros ->.
  - destruct (tbl_ok _ _ Hin) as (e & He & Hn & Hno). rewrite He in Hno |- *.
    rewrite replace_eq by done. rewrite Hno. cbn [app]. by rewrite replace_skip, Hs.
Qed.
End Pass.

Ltac pass_tables :=
  match goal with
  | |- forall c e, (c, e) ∈ _ -> _ =>
      let H := fresh in
      intros ? ? H; repeat (apply elem_of_cons in H as [[= -> ->]|H]);
      try (eexists; split; [reflexivity|split; [by apply (bool_decide_unpack _); vm_compute|intros; reflexivity]]);
      by apply not_elem_of_nil in H
  | |- forall x, x ∈ _ -> _ =>
      let H := fresh in
      intros ? H; repeat (apply elem_of_cons in H as [->|H]); try done; by apply not_elem_of_nil in H
  | |- _ ∉ _ => apply (bool_decide_unpack _); vm_compute; exact I
  | |- _ = _ => reflexivity
  end.

(** Unescaping undoes escaping on clean text. *)
Lemma unescape_escape s : clean s -> unescape (escape s) = s.
Proof.
  intros Hc. unfold unescape.
  assert (replace (bs "&amp;") [38] (escape s)
    = flat_map (entity [(60, bs "&lt;"); (62, bs "&gt;"); (34, bs "&quot;"); (39, bs "&apos;")]) s) as ->.
  { apply (replace_pass 38 (bs "amp;")); [pass_tables..|by left]. }
  assert (replace (bs "&lt;") [60] (flat_map (entity [(60, bs "&lt;"); (62, bs "&gt;"); (34, bs "&quot;"); (39, bs "&apos;")]) s)
    = flat_map (entity [(62, bs "&gt;"); (34, bs "&quot;"); (39, bs "&apos;")]) s) as ->.
  { apply (replace_pass 60 (bs "lt;")); [pass_tables..|]. right. split; [done|]. intros a b. apply Hc. set_solver. }
  assert (replace (bs "&gt;") [62] (flat_map (entity [(62, bs "&gt;"); (34, bs "&quot;"); (39, bs "&apos;")]) s)
    = flat_map (entity [(34, bs "&quot;"); (39, bs "&apos;")]) s) as ->.
  { apply (replace_pass 62 (bs "gt;")); [pass_tables..|]. right. split; [done|]. intros a b. apply Hc. set_solver. }
  assert (replace (bs "&quot;") [34] (flat_map (entity [(34, bs "&quot;"); (39, bs "&apos;")]) s)
    = flat_map (entity [(39, bs "&apos;")]) s) as ->.
  { apply (replace_pass 34 (bs "quot;")); [pass_tables..|]. right. split; [done|]. intros a b. apply Hc. set_solver. }
  assert (replace (bs "&apos;") [39] (flat_map (entity [(39, bs "&apos;")]) s) = flat_map (entity []) s) as ->.
  { apply (replace_pass 39 (bs "apos;")); [pass_tables..|]. right. split; [done|]. intros a b. apply Hc. set_solver. }
  clear Hc. induction s as [|x s IH]; [done|]. change (x :: flat_map (entity []) s = x :: s). by rewrite IH.
Qed.

Lemma escape_no_tags s : 60 ∉ escape s.
Proof.
  unfold escape. induction s as [|x s IH]; [by apply not_elem_of_nil|]. cbn [flat_map]. rewrite elem_of_app.
  intros [Hx|]; [|done]. unfold entities, entity in Hx.
  repeat (case_match; [vm_compute in Hx; set_solver|]). apply list_elem_of_singleton in Hx. lia.
Qed.
End XmlFacts.

(** ** Documents as tags and texts *)

Module TokenFacts.
Import Str StrPrefix Pat Xml PatFacts XmlFacts.

Inductive token := Tag (body : bytes) | Text (t : bytes).
Definition show (t : token) : bytes := match t with Tag b => 60 :: b ++ [62] | Text t => t end.
Definition flat (ts : list token) : bytes := flat_map show ts.
Definition well_formed (t : token) : Prop :=
  match t with Tag b => 60 ∉ b /\ 62 ∉ b | Text t => 60 ∉ t end.
Definition tags (ts : list token) : list bytes := omap (fun t => match t with Tag b => Some b | Text _ => None end) ts.

Fixpoint cut (b : bytes) (ts : list token) : option (list token * list token) :=
  match ts with
  | [] => None
  | t :: ts =>
      if (match t with Tag b' => bool_decide (b' = b) | Text _ => false end) then Some ([], ts)
      else let! (x, y) := cut b ts in Some (t :: x, y)
  end.

Lemma flat_app a b : flat (a ++ b) = flat a ++ flat b.
Proof. apply flat_map_app. Qed.

Lemma cut_app b u v : b ∉ tags u -> cut b (u ++ Tag b :: v) = Some (u, v).
Proof.
  induction u as [|[b'|t] u IH]; intros Hb; cbn [app cut].
  - by rewrite bool_decide_eq_true_2.
  - cbn in Hb. apply not_elem_of_cons in Hb as [Hne Hb]. rewrite bool_decide_eq_false_2 by done. by rewrite IH.
  - by rewrite IH.
Qed.
Lemma cut_none b u : b ∉ tags u -> cut b u = None.
Proof.
  induction u as [|[b'|t] u IH]; intros Hb; cbn [cut]; [done| |by rewrite IH].
  cbn in Hb. apply not_elem_of_cons in Hb as [Hne Hb]. rewrite bool_decide_eq_false_2 by done. by rewrite IH.
Qed.
Lemma tags_app u v : tags (u ++ v) = tags u ++ tags v.
Proof. apply omap_app. Qed.

Lemma body_prefix b b' s : 62 ∉ b -> 62 ∉ b' -> b <> b' -> strip_prefix (b ++ [62]) (b' ++ 62 :: s) = None.
Proof.
  revert b'. induction b as [|x b IH]; intros [|x' b'] Hb Hb' Hne; [done| | |].
  - cbn [app strip_prefix]. apply not_elem_of_cons in Hb' as [Hx _]. by rewrite (proj2 (Z.eqb_neq _ _) Hx).
  - cbn [app strip_prefix]. apply not_elem_of_cons in Hb as [Hx _]. by rewrite (proj2 (Z.eqb_neq x 62)) by congruence.
  - cbn [app strip_prefix]. apply not_elem_of_cons in Hb as [_ Hb], Hb' as [_ Hb'].
    destruct (Z.eqb_spec x x') as [->|]; [|done]. apply IH; [done..|congruence].
Qed.

Lemma split_at_tokens b ts : Forall well_formed ts -> 62 ∉ b ->
  split_at (60 :: b ++ [62]) (flat ts) = let! (x, y) := cut b ts in Some (flat x, flat y).
Proof.
  intros Hw Hb. induction Hw as [|t ts Ht _ IH]; [done|]. cbn [cut].
  change (flat (t :: ts)) with (show t ++ flat ts). destruct t as [b'|t]; cbn [show well_formed] in *.
  - destruct Ht as [H1 H2]. case_bool_decide as Hb'.
    + subst b'. replace ((60 :: b ++ [62]) ++ flat ts) with ((60 :: b ++ [62]) ++ flat ts) by done. by rewrite split_at_here.
    + rewrite <- app_comm_cons, <- app_assoc. cbn [split_at]. cbn [strip_prefix Z.eqb Pos.eqb].
      change ([62] ++ flat ts) with (62 :: flat ts). rewrite body_prefix by done.
      change (b' ++ 62 :: flat ts) with (b' ++ [62] ++ flat ts). rewrite app_assoc.
      rewrite split_at_skip, IH by set_solver. destruct (cut b ts) as [[x y]|]; [|done]. cbn [mbind option_bind].
      do 2 f_equal.
  - rewrite split_at_skip, IH by done. by destruct (cut b ts) as [[x y]|].
Qed.

(** The text of the first element, and all elements, of a name. *)
Definition field (ts : list token) (n : bytes) : option bytes :=
  let! (_, r) := cut n ts in let! (t, _) := cut (47 :: n) r in Some (unescape (flat t)).
Fixpoint blocks (fuel : nat) (ts : list token) (n : bytes) : list (list token) :=
  match fuel with
  | O => []
  | S fuel =>
      match cut n ts with
      | None => []
      | Some (_, after) =>
          match cut (47 :: n) after with
          | None => []
          | Some (block, rest) => block :: blocks fuel rest n
          end
      end
  end.

Lemma cut_wf b ts x y : Forall well_formed ts -> cut b ts = Some (x, y) -> Forall well_formed x /\ Forall well_formed y.
Proof.
  intros Hw. revert x. induction Hw as [|t ts Ht Hts IH]; intros x; cbn [cut]; [done|].
  destruct (match t with Tag b' => _ | Text _ => false end); [intros [= <- <-]; by split; [constructor|]|].
  destruct (cut b ts) as [[x' y']|]; [|done]. intros [= <- <-]. destruct (IH x' eq_refl). by split; [constructor|].
Qed.

Lemma xml_field_tokens ts n : Forall well_formed ts -> 62 ∉ n -> xml_field (flat ts) n = field ts n.
Proof.
  intros Hw Hn. unfold xml_field, field. change (open_tag n) with (60 :: n ++ [62]).
  change (close_tag n) with (60 :: (47 :: n) ++ [62]). rewrite split_at_tokens by done.
  destruct (cut n ts) as [[x y]|] eqn:E; [|done]. cbn [mbind option_bind]. apply cut_wf in E as [_ Hy]; [|done].
  rewrite split_at_tokens by (done || set_solver). by destruct (cut (47 :: n) y) as [[]|].
Qed.

Lemma xml_blocks_tokens fuel ts n : Forall well_formed ts -> 62 ∉ n ->
  xml_blocks_fuel fuel (flat ts) n = map flat (blocks fuel ts n).
Proof.
  revert ts. induction fuel as [|fuel IH]; intros ts Hw Hn; [done|]. cbn [xml_blocks_fuel blocks].
  change (open_tag n) with (60 :: n ++ [62]). change (close_tag n) with (60 :: (47 :: n) ++ [62]).
  rewrite split_at_tokens by done. destruct (cut n ts) as [[x y]|] eqn:E; [|done]. cbn [mbind option_bind].
  apply cut_wf in E as [_ Hy]; [|done]. rewrite split_at_tokens by (done || set_solver).
  destruct (cut (47 :: n) y) as [[u v]|] eqn:E2; [|done]. cbn [mbind option_bind map].
  apply cut_wf in E2 as [_ Hv]; [|done]. by rewrite IH.
Qed.

(** ** Rendered elements *)

Definition element (n : bytes) (ts : list token) : list token := Tag n :: ts ++ [Tag (47 :: n)].

Lemma field_element n u t v : n ∉ tags u -> field (u ++ element n [Text t] ++ v) n = Some (unescape t).
Proof.
  intros Hn. unfold field. change (element n [Text t] ++ v) with (Tag n :: [Text t] ++ Tag (47 :: n) :: v).
  rewrite cut_app by done. cbn [mbind option_bind]. rewrite cut_app by apply not_elem_of_nil.
  cbn [mbind option_bind flat flat_map show]. by rewrite app_nil_r.
Qed.
Lemma field_none n ts : n ∉ tags ts -> field ts n = None.
Proof. intros Hn. unfold field. by rewrite cut_none. Qed.

Lemma blocks_elements fuel n u bl v : (length bl <= fuel)%nat -> n ∉ tags u -> n ∉ tags v ->
  Forall (fun b => 47 :: n ∉ tags b) bl ->
  blocks fuel (u ++ flat_map (element n) bl ++ v) n = bl.
Proof.
  intros Hl Hu Hv Hb. revert fuel u Hl Hu. induction Hb as [|b bl Hb _ IH]; intros fuel u Hl Hu; cbn [flat_map app].
  - destruct fuel as [|fuel]; [done|]. cbn [blocks]. rewrite cut_none; [done|]. rewrite tags_app. set_solver.
  - destruct fuel as [|fuel]; [simpl in Hl; lia|]. cbn [blocks].
    change (element n b) with (Tag n :: b ++ [Tag (47 :: n)]). rewrite <- !app_assoc. cbn [app].
    rewrite cut_app by done. rewrite <- app_assoc. cbn [app]. rewrite cut_app by done. f_equal.
    apply (IH fuel []); [simpl in Hl; lia|apply not_elem_of_nil].
Qed.
End TokenFacts.
