(* ===== verification/S3ClientWire.v ===== *)
(** * S3ClientWire: what the client exchanges with the server

    The documented form of time stamps, queries and listing pages, and that
    the client's readers and writers agree with it. *)

From S2P Require Import Prelude RustStr ForkPool S3Fs S3Client S3ClientFacts.

(** ** The other side of the wire *)

Module Server.
Import Str Pat Civil XmlFacts TokenFacts.

Definition hex_value (d : Z) : Z := if is_ascii_digit d then d - 48 else d - 55.
Fixpoint percent_decode (s : bytes) : bytes :=
  match s with
  | [] => []
  | 37 :: a :: b :: s => (hex_value a * 16 + hex_value b) :: percent_decode s
  | x :: s => x :: percent_decode s
  end.

(** The query of a URL, decoded. *)
Definition parse_pair (s : bytes) : bytes * bytes :=
  match split_once 61 s with
  | Some (k, v) => (percent_decode k, percent_decode v)
  | None => (percent_decode s, [])
  end.
Definition query_of (url : bytes) : list (bytes * bytes) :=
  match split_once 63 url with Some (_, q) => map parse_pair (split 38 q) | None => [] end.

(** Time stamps: RFC 3339 in listings, RFC 1123 in headers. *)
Definition iso_text (y m d h mi sec : Z) : bytes :=
  padded 4 y ++ bs "-" ++ padded 2 m ++ bs "-" ++ padded 2 d ++ bs "T"
  ++ padded 2 h ++ bs ":" ++ padded 2 mi ++ bs ":" ++ padded 2 sec ++ bs ".000Z".
Definition http_text (weekday : bytes) (y m d h mi sec : Z) : bytes :=
  join (bs " ") [weekday ++ bs ","; padded 2 d; default [] (MONTHS !! Z.to_nat (m - 1)); padded 4 y;
    join (bs ":") [padded 2 h; padded 2 mi; padded 2 sec]; bs "GMT"].
Definition iso8601 (secs : Z) : bytes :=
  let '(y, m, d) := civil_from_days (secs / 86400) in
  let rem := secs mod 86400 in iso_text y m d (rem / 3600) (rem mod 3600 / 60) (rem mod 60).
Definition http_date (weekday : bytes) (secs : Z) : bytes :=
  let '(y, m, d) := civil_from_days (secs / 86400) in
  let rem := secs mod 86400 in http_text weekday y m d (rem / 3600) (rem mod 3600 / 60) (rem mod 60).

(** A level of a bucket, as ListObjectsV2 with the delimiter [/] defines it. *)
Inductive Entry := Object (key : bytes) (size time : Z) | CommonPrefix (p : bytes).
Definition is_level (m : gmap bytes (bytes * Z)) (pre : bytes) (es : list Entry) : Prop :=
  (forall k n t, Object k n t ∈ es <->
     exists v r, k = pre ++ r /\ 47 ∉ r /\ m !! k = Some (v, t) /\ n = len v)
  /\ (forall p, CommonPrefix p ∈ es <->
     exists r1 r2, p = pre ++ r1 ++ bs "/" /\ 47 ∉ r1 /\ is_Some (m !! (pre ++ r1 ++ bs "/" ++ r2))).

Definition objects_of (es : list Entry) : list (bytes * Z * Z) :=
  omap (fun e => match e with Object k n t => Some (k, n, t) | CommonPrefix _ => None end) es.
Definition prefixes_of (es : list Entry) : list bytes :=
  omap (fun e => match e with Object _ _ _ => None | CommonPrefix p => Some p end) es.

(** The document of a page. *)
Definition object_doc (extra : list token) (o : bytes * Z * Z) : list token :=
  element (bs "Key") [Text (escape o.1.1)] ++ element (bs "LastModified") [Text (iso8601 o.2)]
  ++ extra ++ element (bs "Size") [Text (dec o.1.2)].
Definition prefix_doc (p : bytes) : list token := element (bs "Prefix") [Text (escape p)].
Definition page_doc (prolog extra : list token) (attrs : bytes) (noise : list token) (es : list Entry)
    (next : option bytes) : list token :=
  prolog ++ [Tag (bs "ListBucketResult" ++ attrs)] ++ noise
  ++ element (bs "IsTruncated") [Text (match next with Some _ => bs "true" | None => bs "false" end)]
  ++ match next with Some t => element (bs "NextContinuationToken") [Text (escape t)] | None => [] end
  ++ flat_map (element (bs "Contents")) (map (object_doc extra) (objects_of es))
  ++ flat_map (element (bs "CommonPrefixes")) (map prefix_doc (prefixes_of es))
  ++ [Tag (bs "/ListBucketResult")].
End Server.

Module ClientFacts.
Import Str StrFacts StrPrefix Pat Sigv4 Civil Xml Client WordFacts CivilFacts PatFacts XmlFacts TokenFacts Server.

(** ** Time stamps *)

Lemma add_years_mono n m y : (n <= m)%nat -> add_years n y 0 <= add_years m y 0.
Proof.
  revert m y. induction n as [|n IH]; intros m y Hm; [pose proof (add_years_bound m y); simpl; lia|].
  destruct m as [|m]; [lia|]. cbn [add_years]. rewrite !(add_years_acc _ _ (0 + _)).
  specialize (IH m (y + 1) ltac:(lia)). lia.
Qed.

Lemma epoch_day_bounds y m d : valid_date y m d -> 0 <= epoch_day y m d < 2932897.
Proof.
  intros Hv. pose proof (civil_epoch y m d Hv) as Hc. destruct Hv as (Hy & Hm & Hd).
  destruct (months_before y m Hm) as [Hb Hl]. rewrite Hl in Hd. unfold epoch_day. rewrite Hb.
  set (k := Z.to_nat (y - 1970)). set (j := Z.to_nat (m - 1)).
  pose proof (years_leaps k 1970) as Hk. replace (1970 + Z.of_nat k - 1) with (y - 1) in Hk by lia.
  pose proof (add_years_bound k 1970). change (1970 - 1) with 1969 in Hk.
  pose proof (months_below_year j y (d - 1) ltac:(lia) ltac:(replace (1 + Z.of_nat j) with m by lia; lia)) as Hyl.
  pose proof (add_years_mono (S k) (Z.to_nat 8030) 1970 ltac:(lia)) as Hmono.
  assert (add_years (Z.to_nat 8030) 1970 0 = 2932897) as E by (vm_compute; reflexivity). rewrite E in Hmono.
  assert (add_years (S k) 1970 0 = add_years k 1970 0 + year_len y) as HS; [|lia].
  rewrite !years_leaps. unfold year_len. pose proof (leap_count y).
  replace (1970 + Z.of_nat (S k) - 1) with y by lia. replace (1970 + Z.of_nat k - 1) with (y - 1) by lia.
  destruct (is_leap y); lia.
Qed.

(** The first second of the year 10000. *)
Definition Y10K : Z := 253402300800.

Lemma civil_small secs y m d : 0 <= secs < Y10K -> civil_from_days (secs / 86400) = (y, m, d) ->
  1970 <= y < 10000 /\ 1 <= m <= 12 /\ 1 <= d <= 31 /\ ymd_to_days y m d = secs / 86400.
Proof.
  intros Hs Hc. unfold Y10K in Hs.
  assert (0 <= secs / 86400 < 2932897) as Hd by (split; [apply Z.div_pos; lia|apply Z.div_lt_upper_bound; lia]).
  destruct (civil_spec (secs / 86400)) as (y' & m' & d' & Hc' & Hy & Hm & Hdm & He & _); [lia|].
  rewrite Hc in Hc'. injection Hc' as <- <- <-. pose proof (month_len_pos y m).
  split_and!; try lia; [|apply (ymd_civil (secs / 86400)); [|done]; change (2 ^ 64) with 18446744073709551616; lia].
  destruct (Z.lt_ge_cases y 10000) as [|Hge]; [done|]. exfalso.
  pose proof (add_years_mono (Z.to_nat 8030) (Z.to_nat (y - 1970)) 1970 ltac:(lia)) as Hmono.
  assert (add_years (Z.to_nat 8030) 1970 0 = 2932897) as E by (vm_compute; reflexivity). rewrite E in Hmono.
  assert (0 <= add_months (Z.to_nat (m - 1)) y 1 0); [|lia]. clear.
  intros. generalize (Z.to_nat (m - 1)) as n. generalize 1 as k. intros k n. revert k. induction n as [|n IH]; intros k; cbn [add_months]; [lia|].
  rewrite add_months_acc. pose proof (month_len_pos y k). specialize (IH (k + 1)). lia.
Qed.

(** The fields of a time stamp give it back. *)
Lemma seconds_fields secs y m d : 0 <= secs < Y10K -> civil_from_days (secs / 86400) = (y, m, d) ->
  seconds y m d (secs mod 86400 / 3600) (secs mod 86400 mod 3600 / 60) (secs mod 86400 mod 60) = secs.
Proof.
  intros Hs Hc. destruct (civil_small secs y m d Hs Hc) as (_ & _ & _ & Hd). unfold seconds. rewrite Hd.
  unfold Y10K in Hs. unfold wrap. change (2 ^ 64) with 18446744073709551616.
  replace (secs mod 86400 mod 60) with (secs mod 86400 mod 3600 mod 60).
  2: { rewrite <- (Znumtheory.Zmod_div_mod 60 3600 (secs mod 86400)); [done|lia|lia|by exists 60]. }
  pose proof (Z.div_mod secs 86400 ltac:(lia)). pose proof (Z.div_mod (secs mod 86400) 3600 ltac:(lia)).
  pose proof (Z.div_mod (secs mod 86400 mod 3600) 60 ltac:(lia)). rewrite Z.mod_small; lia.
Qed.

Lemma fields_small secs : 0 <= secs mod 86400 / 3600 < 24 /\ 0 <= secs mod 86400 mod 3600 / 60 < 60
  /\ 0 <= secs mod 86400 mod 60 < 60.
Proof.
  pose proof (Z.mod_pos_bound secs 86400 ltac:(lia)). pose proof (Z.mod_pos_bound (secs mod 86400) 3600 ltac:(lia)).
  pose proof (Z.mod_pos_bound (secs mod 86400) 60 ltac:(lia)).
  split_and!; try lia; (apply Z.div_pos; lia) || (apply Z.div_lt_upper_bound; lia).
Qed.

Lemma parse_2 n : 0 <= n < 100 -> parse_uint 64 (padded 2 n) = Some n.
Proof. intros Hn. apply parse_padded; [unfold u_max; lia|lia]. Qed.
Lemma padded_2 n : 0 <= n < 100 -> exists a b, padded 2 n = [a; b].
Proof.
  intros Hn. pose proof (padded_length 2 n ltac:(lia) Hn) as Hl.
  destruct (padded 2 n) as [|a [|b [|]]]; try done. by exists a, b.
Qed.
Lemma padded_4 n : 0 <= n < 10000 -> exists a b c d, padded 4 n = [a; b; c; d].
Proof.
  intros Hn. pose proof (padded_length 4 n ltac:(lia) Hn) as Hl.
  destruct (padded 4 n) as [|a [|b [|c [|d [|]]]]]; try done. by exists a, b, c, d.
Qed.

Lemma parse_iso_shape y1 y2 y3 y4 m1 m2 d1 d2 h1 h2 i1 i2 s1 s2 :
  parse_iso8601 ([y1; y2; y3; y4] ++ bs "-" ++ [m1; m2] ++ bs "-" ++ [d1; d2] ++ bs "T"
    ++ [h1; h2] ++ bs ":" ++ [i1; i2] ++ bs ":" ++ [s1; s2] ++ bs ".000Z")
  = let! y := parse_uint 64 [y1; y2; y3; y4] in let! mo := parse_uint 64 [m1; m2] in
    let! d := parse_uint 64 [d1; d2] in let! h := parse_uint 64 [h1; h2] in
    let! mi := parse_uint 64 [i1; i2] in let! sec := parse_uint 64 [s1; s2] in
    Some (seconds y mo d h mi sec).
Proof. reflexivity. Qed.

Lemma iso8601_parses secs : 0 <= secs < Y10K -> parse_iso8601 (iso8601 secs) = Some secs.
Proof.
  intros Hs. unfold iso8601, iso_text. destruct (civil_from_days (secs / 86400)) as [[y m] d] eqn:Hc.
  destruct (civil_small secs y m d Hs Hc) as (Hy & Hm & Hd & _). destruct (fields_small secs) as (Hh & Hmi & Hse).
  pose proof (seconds_fields secs y m d Hs Hc) as Hsec.
  assert (parse_uint 64 (padded 4 y) = Some y) as Py by (apply parse_padded; [unfold u_max; lia|lia]).
  pose proof (parse_2 m ltac:(lia)) as Pm. pose proof (parse_2 d ltac:(lia)) as Pd.
  pose proof (parse_2 (secs mod 86400 / 3600) ltac:(lia)) as Ph.
  pose proof (parse_2 (secs mod 86400 mod 3600 / 60) ltac:(lia)) as Pi.
  pose proof (parse_2 (secs mod 86400 mod 60) ltac:(lia)) as Ps.
  destruct (padded_4 y ltac:(lia)) as (y1 & y2 & y3 & y4 & Ey).
  destruct (padded_2 m ltac:(lia)) as (m1 & m2 & Em). destruct (padded_2 d ltac:(lia)) as (d1 & d2 & Ed).
  destruct (padded_2 (secs mod 86400 / 3600) ltac:(lia)) as (h1 & h2 & Eh).
  destruct (padded_2 (secs mod 86400 mod 3600 / 60) ltac:(lia)) as (i1 & i2 & Ei).
  destruct (padded_2 (secs mod 86400 mod 60) ltac:(lia)) as (s1 & s2 & Es).
  rewrite Ey, Em, Ed, Eh, Ei, Es in *. rewrite parse_iso_shape.
  rewrite Py, Pm, Pd, Ph, Pi, Ps. cbn [mbind option_bind]. by rewrite Hsec.
Qed.

Lemma graphics s : forallb (fun b => within b 33 126) s = true -> Forall graphic s.
Proof.
  intros Hs. apply Forall_forall. intros x Hx. rewrite forallb_forall in Hs. apply list_elem_of_In, Hs in Hx.
  unfold within, graphic in *. lia.
Qed.
Lemma month_found i : (i < 12)%nat -> exists name, MONTHS !! i = Some name /\ list_find (fun m => m = name) MONTHS = Some (i, name)
  /\ name <> [] /\ Forall graphic name.
Proof.
  intros Hi. do 12 (destruct i as [|i]; [eexists; split; [reflexivity|]; split; [vm_compute; reflexivity|];
    split; [done|by apply graphics]|]). lia.
Qed.
Lemma digits_no_colon s : forallb is_ascii_digit s = true -> 58 ∉ s.
Proof. intros Hs Hin. rewrite forallb_forall in Hs. apply list_elem_of_In, Hs in Hin. by vm_compute in Hin. Qed.
Lemma padded_word k n : padded k n <> [] /\ Forall graphic (padded k n).
Proof.
  split; [|apply digit_graphic, padded_digits]. unfold padded. intros Hn. apply app_eq_nil in Hn as [_ Hn].
  by apply (dec_nonempty 40 n []) in Hn; [|left; lia].
Qed.

Lemma clock_word a b c : join (bs ":") [padded 2 a; padded 2 b; padded 2 c] <> []
  /\ Forall graphic (join (bs ":") [padded 2 a; padded 2 b; padded 2 c]).
Proof.
  cbn [join]. destruct (padded_word 2 a) as [Ha Ga], (padded_word 2 b) as [_ Gb], (padded_word 2 c) as [_ Gc].
  split; [by destruct (padded 2 a)|].
  apply Forall_app_2; [done|]. apply Forall_app_2; [by apply graphics|].
  apply Forall_app_2; [done|]. apply Forall_app_2; [by apply graphics|done].
Qed.

Lemma http_date_parses weekday secs :
  Forall graphic weekday -> 0 <= secs < Y10K -> parse_http_date (http_date weekday secs) = Some secs.
Proof.
  intros Hw Hs. unfold http_date, http_text. destruct (civil_from_days (secs / 86400)) as [[y m] d] eqn:Hc.
  destruct (civil_small secs y m d Hs Hc) as (Hy & Hm & Hd & _). destruct (fields_small secs) as (Hh & Hmi & Hse).
  pose proof (seconds_fields secs y m d Hs Hc) as Hsec.
  destruct (month_found (Z.to_nat (m - 1)) ltac:(lia)) as (name & -> & Hf & Hn1 & Hn2). cbn [default from_option id].
  unfold parse_http_date. rewrite split_whitespace_words; [|apply Forall_cons_2; [|apply Forall_cons_2;
    [apply padded_word|apply Forall_cons_2; [done|apply Forall_cons_2; [apply padded_word|apply Forall_cons_2;
    [|apply Forall_cons_2; [|apply Forall_nil_2]]]]]]|done].
  - rewrite parse_2 by lia. cbn [mbind option_bind]. rewrite Hf. cbn [mbind option_bind].
    rewrite (parse_padded 64 4 y) by (unfold u_max; lia). cbn [mbind option_bind].
    rewrite (split_join_sep 58); [|done|repeat constructor; apply digits_no_colon, padded_digits].
    rewrite !parse_2 by lia. cbn [mbind option_bind].
    replace (Z.of_nat (Z.to_nat (m - 1)) + 1) with m by lia. by rewrite Hsec.
  - split; [by destruct weekday|]. apply Forall_app. split; [done|by apply graphics].
  - apply clock_word.
  - split; [done|by apply graphics].
Qed.

(** The time stamp of a date and a time of day. *)
Lemma date_fields y m d h mi sec : valid_date y m d -> 0 <= h < 24 -> 0 <= mi < 60 -> 0 <= sec < 60 ->
  let secs := epoch_day y m d * 86400 + h * 3600 + mi * 60 + sec in
  0 <= secs < Y10K /\ secs / 86400 = epoch_day y m d /\ secs mod 86400 / 3600 = h
  /\ secs mod 86400 mod 3600 / 60 = mi /\ secs mod 86400 mod 60 = sec.
Proof.
  intros Hv Hh Hmi Hs secs.
  assert (secs / 86400 = epoch_day y m d /\ secs mod 86400 = h * 3600 + mi * 60 + sec) as [Hq Hr].
  { unfold secs. split; [symmetry; apply (Z.div_unique _ _ _ (h * 3600 + mi * 60 + sec)); lia|].
    symmetry. apply (Z.mod_unique _ _ (epoch_day y m d)); lia. }
  rewrite Hr. split_and!; [| |exact Hq| | |].
  - pose proof (epoch_day_bounds y m d Hv). unfold secs. lia.
  - pose proof (epoch_day_bounds y m d Hv). unfold secs, Y10K. lia.
  - symmetry. apply (Z.div_unique _ _ _ (mi * 60 + sec)); lia.
  - replace ((h * 3600 + mi * 60 + sec) mod 3600) with (mi * 60 + sec); [|apply (Z.mod_unique _ _ h); lia].
    symmetry. apply (Z.div_unique _ _ _ sec); lia.
  - symmetry. apply (Z.mod_unique _ _ (h * 60 + mi)); lia.
Qed.

(** ** Percent encoding *)

Definition is_byte (b : Z) : Prop := 0 <= b < 256.

Lemma hex_upper n : 0 <= n < 16 -> hex_value (upper_digit n) = n /\ unreserved (upper_digit n) = true.
Proof.
  intros Hn. unfold hex_value, upper_digit, unreserved, is_ascii_digit, is_ascii_upper.
  destruct (Z.ltb_spec n 10); [rewrite (proj2 (andb_true_iff _ _)) by lia; split; [lia|]|].
  - replace (48 <=? 48 + n) with true by lia. replace (48 + n <=? 57) with true by lia.
    cbn [andb]. by rewrite orb_true_r.
  - replace (48 <=? 55 + n) with true by lia. replace (55 + n <=? 57) with false by lia.
    replace (65 <=? 55 + n) with true by lia. replace (55 + n <=? 90) with true by lia. cbn [andb orb]. split; [lia|done].
Qed.

Lemma decode_unreserved x s : x <> 37 -> percent_decode (x :: s) = x :: percent_decode s.
Proof. intros Hx. cbn [percent_decode]. repeat case_match; congruence. Qed.

Lemma percent_decode_encode slash s : Forall is_byte s -> percent_decode (uri_encode s slash) = s.
Proof.
  unfold uri_encode. induction 1 as [|b s Hb _ IH]; [done|]. cbn [flat_map]. unfold encode_byte at 1.
  destruct (unreserved b) eqn:Hu.
  - cbn [app]. rewrite decode_unreserved; [by rewrite IH|]. intros ->. by vm_compute in Hu.
  - destruct ((b =? 47) && negb slash) eqn:Hs.
    + apply andb_true_iff in Hs as [->%Z.eqb_eq _]. cbn [app]. rewrite decode_unreserved by done. by rewrite IH.
    + cbn [app percent_decode]. unfold is_byte in Hb.
      assert (0 <= b / 16 < 16) by (split; [apply Z.div_pos; lia|apply Z.div_lt_upper_bound; lia]).
      pose proof (Z.mod_pos_bound b 16 ltac:(lia)).
      rewrite (proj1 (hex_upper (b / 16) ltac:(lia))), (proj1 (hex_upper (b mod 16) ltac:(lia))), IH.
      f_equal. pose proof (Z.div_mod b 16). lia.
Qed.

(** An encoded component has no delimiter of a query. *)
Lemma encoded_free c s : Forall is_byte s -> unreserved c = false -> c <> 37 -> c ∉ uri_encode s true.
Proof.
  intros Hs Hc H37. unfold uri_encode. induction Hs as [|b s Hb _ IH]; [apply not_elem_of_nil|]. cbn [flat_map].
  rewrite elem_of_app. intros [Hin|]; [|done]. unfold encode_byte in Hin. unfold is_byte in Hb.
  assert (0 <= b / 16 < 16) by (split; [apply Z.div_pos; lia|apply Z.div_lt_upper_bound; lia]).
  pose proof (Z.mod_pos_bound b 16 ltac:(lia)).
  destruct (hex_upper (b / 16) ltac:(lia)) as [_ H1], (hex_upper (b mod 16) ltac:(lia)) as [_ H2].
  destruct (unreserved b) eqn:Hu; [apply list_elem_of_singleton in Hin as ->; congruence|].
  rewrite andb_false_r in Hin. repeat (apply elem_of_cons in Hin as [->|Hin]; [congruence|]).
  by apply not_elem_of_nil in Hin.
Qed.

Lemma query_decodes url q : 63 ∉ url -> q <> [] ->
  Forall (fun kv => Forall is_byte kv.1 /\ Forall is_byte kv.2) q ->
  query_of (url ++ bs "?" ++ query_string (map encode_pair q)) = q.
Proof.
  intros Hu Hne Hq. unfold query_of. change (url ++ bs "?" ++ ?x) with (url ++ 63 :: x).
  rewrite split_once_at by done. unfold query_string. rewrite (split_join_sep 38).
  - rewrite !map_map. rewrite <- (map_id q) at 2. apply map_ext_in. intros [k v] Hin.
    apply list_elem_of_In in Hin. rewrite Forall_forall in Hq. destruct (Hq _ Hin) as [Hk Hv]. cbn [fst snd] in *.
    unfold parse_pair, encode_pair. cbn [fst snd].
    change (uri_encode k true ++ bs "=" ++ uri_encode v true) with (uri_encode k true ++ 61 :: uri_encode v true).
    rewrite split_once_at by (by apply encoded_free). by rewrite !percent_decode_encode.
  - by destruct q.
  - apply Forall_forall. intros s Hin. apply list_elem_of_fmap in Hin as (kv & -> & Hin).
    apply list_elem_of_fmap in Hin as ([k v] & -> & Hin). rewrite Forall_forall in Hq. destruct (Hq _ Hin) as [Hk Hv].
    cbn [fst snd encode_pair] in *. rewrite !elem_of_app. intros [Ha|[Hb|Hb]].
    + revert Ha. by apply encoded_free.
    + vm_compute in Hb. set_solver.
    + revert Hb. by apply encoded_free.
Qed.

(** ** Pages *)

Lemma unescape_plain t : 38 ∉ t -> unescape t = t.
Proof.
  intros Ht. assert (forall q r, replace (38 :: q) r t = t) as Hr.
  { intros q r. rewrite <- (app_nil_r t) at 1. rewrite replace_skip by done. apply app_nil_r. }
  unfold unescape. rewrite (Hr (bs "amp;") [38] : replace (bs "&amp;") [38] t = t).
  rewrite (Hr (bs "lt;") [60] : replace (bs "&lt;") [60] t = t), (Hr (bs "gt;") [62] : replace (bs "&gt;") [62] t = t).
  rewrite (Hr (bs "quot;") [34] : replace (bs "&quot;") [34] t = t). apply (Hr (bs "apos;")).
Qed.

(** The tags the client looks for, at the level of a page and of an object. *)
Definition page_tags : list bytes :=
  [bs "IsTruncated"; bs "NextContinuationToken"; bs "Contents"; bs "CommonPrefixes"].
Definition object_tags : list bytes := [bs "Size"; bs "/Contents"; bs "CommonPrefixes"].

(** What else a document may hold. *)
Record other_ok (prolog extra : list token) (attrs : bytes) (noise : list token) : Prop := MkOther {
  ot_prolog : Forall well_formed prolog /\ (forall x, x ∈ tags prolog -> x ∉ page_tags)
    /\ (forall x, x ∈ tags prolog -> strip_prefix (bs "ListBucketResult") (x ++ [62]) = None);
  ot_extra : Forall well_formed extra /\ forall x, x ∈ tags extra -> x ∉ object_tags;
  ot_attrs : 60 ∉ attrs /\ 62 ∉ attrs;
  ot_noise : Forall well_formed noise /\ forall x, x ∈ tags noise -> x ∉ page_tags;
}.

Lemma tags_elements n bl x : x ∈ tags (flat_map (element n) bl) ->
  x = n \/ x = 47 :: n \/ exists b, b ∈ bl /\ x ∈ tags b.
Proof.
  induction bl as [|b bl IH]; [by intros ?%not_elem_of_nil|]. cbn [flat_map]. rewrite tags_app, elem_of_app.
  intros [Hx|Hx].
  - unfold element in Hx. cbn in Hx. apply elem_of_cons in Hx as [->|Hx]; [by left|].
    rewrite tags_app, elem_of_app in Hx. destruct Hx as [Hx|Hx]; [right; right; exists b; split; [by left|done]|].
    cbn in Hx. apply list_elem_of_singleton in Hx. by right; left.
  - destruct (IH Hx) as [|[|(b' & Hb & Hx')]]; [by left|by right; left|]. right; right. exists b'. split; [by right|done].
Qed.

Lemma blocks_length n u bl v : (length bl <= length (flat (u ++ flat_map (element n) bl ++ v)))%nat.
Proof.
  rewrite !flat_app, !length_app. assert (length bl <= length (flat (flat_map (element n) bl)))%nat; [|lia].
  induction bl as [|b bl IH]; [done|]. cbn [flat_map]. rewrite flat_app, length_app. cbn. lia.
Qed.

Lemma wf_element n ts : 60 ∉ n -> 62 ∉ n -> Forall well_formed ts -> Forall well_formed (element n ts).
Proof.
  intros H1 H2 Ht. unfold element. constructor; [done|]. apply Forall_app_2; [done|]. constructor; [|constructor].
  split; apply not_elem_of_cons; done.
Qed.
Lemma wf_elements n bl : 60 ∉ n -> 62 ∉ n -> Forall (Forall well_formed) bl ->
  Forall well_formed (flat_map (element n) bl).
Proof.
  intros H1 H2. induction 1 as [|b bl Hb _ IH]; [constructor|]. cbn [flat_map].
  apply Forall_app_2; [by apply wf_element|done].
Qed.

Lemma digit_free c s : forallb is_ascii_digit s = true -> is_ascii_digit c = false -> c ∉ s.
Proof. intros Hs Hc Hin. rewrite forallb_forall in Hs. apply list_elem_of_In, Hs in Hin. congruence. Qed.
Lemma dec_free c n : is_ascii_digit c = false -> c ∉ dec n.
Proof. apply digit_free, (dec_digits 40 n [] eq_refl). Qed.
Lemma iso_free c t : is_ascii_digit c = false -> c ∉ bs "-T:.000Z" -> c ∉ iso8601 t.
Proof.
  intros Hd Hc. unfold iso8601, iso_text. destruct (civil_from_days _) as [[y m] d].
  assert (forall k n, c ∉ padded k n) as Hp by (intros; apply digit_free; [apply padded_digits|done]).
  assert (forall s : bytes, (forall x, x ∈ s -> x ∈ bs "-T:.000Z") -> c ∉ s) as Hs by (intros s H Hin; apply Hc; by apply H).
  rewrite !not_elem_of_app. split_and!; try apply Hp; apply Hs; intros x Hx; vm_compute in Hx |- *; set_solver.
Qed.

Lemma object_wf extra o : Forall well_formed extra -> Forall well_formed (object_doc extra o).
Proof.
  intros He. unfold object_doc. repeat apply Forall_app_2; [..|done|];
    (apply wf_element; [by apply (bool_decide_unpack _); vm_compute..|constructor; [|constructor]]); cbn [well_formed].
  - apply escape_no_tags.
  - by apply iso_free; [|apply (bool_decide_unpack _); vm_compute].
  - by apply dec_free.
Qed.
Lemma prefix_wf p : Forall well_formed (prefix_doc p).
Proof.
  apply wf_element; [by apply (bool_decide_unpack _); vm_compute..|]. constructor; [|constructor]. apply escape_no_tags.
Qed.

Ltac not_tag := apply (bool_decide_unpack _); vm_compute; exact I.

Lemma strip_longer l u s : 62 ∉ l -> strip_prefix l (u ++ [62]) = None -> strip_prefix l (u ++ 62 :: s) = None.
Proof.
  revert u. induction l as [|x l IH]; intros u Hl; [done|]. apply not_elem_of_cons in Hl as [Hx Hl].
  destruct u as [|y u]; cbn [app strip_prefix].
  - by rewrite (proj2 (Z.eqb_neq x 62)) by congruence.
  - destruct (x =? y); [by apply IH|done].
Qed.

Lemma split_root prolog s : Forall well_formed prolog ->
  (forall x, x ∈ tags prolog -> strip_prefix (bs "ListBucketResult") (x ++ [62]) = None) ->
  split_at (bs "<ListBucketResult") (flat prolog ++ bs "<ListBucketResult" ++ s) = Some (flat prolog, s).
Proof.
  intros Hw Ht. change (bs "<ListBucketResult") with (60 :: bs "ListBucketResult").
  induction Hw as [|[b|t] ts Hb _ IH]; [exact (split_at_here (60 :: bs "ListBucketResult") s)| |].
  - change (flat (Tag b :: ts)) with ((60 :: b ++ [62]) ++ flat ts). rewrite <- !app_assoc, <- app_comm_cons.
    cbn [split_at]. cbn [strip_prefix Z.eqb Pos.eqb]. rewrite <- app_assoc. cbn [app].
    rewrite strip_longer; [|not_tag|apply Ht; by left].
    change (b ++ 62 :: ?x) with (b ++ [62] ++ x). rewrite app_assoc.
    destruct Hb as [Hb _]. rewrite split_at_skip by set_solver. change (60 :: bs "ListBucketResult" ++ s) with
      ((60 :: bs "ListBucketResult") ++ s). rewrite IH by (intros x Hx; apply Ht; by right).
    cbn [mbind option_bind]. do 2 f_equal.
  - change (flat (Text t :: ts)) with (t ++ flat ts). rewrite <- app_assoc. rewrite split_at_skip by done.
    rewrite IH by (intros x Hx; by apply Ht). done.
Qed.

Lemma ws_len_rev_graphic b r : graphic b -> ws_len_rev (b :: r) = 0%nat.
Proof.
  intros Hp. pose proof (ws_len_graphic b [] Hp) as H0. unfold graphic in Hp.
  unfold ws_len_rev. unfold ws_len in H0 at 1. destruct (_ || _) in *; [done|]. clear H0.
  assert (ws_len (rev (take 2 (b :: r))) <> 2%nat) as H2.
  { destruct r as [|x r]; cbn [take rev app]; [rewrite ws_len_graphic by done; done|].
    intros [?|?]%ws_len_last_2; lia. }
  assert (ws_len (rev (take 3 (b :: r))) <> 3%nat) as H3.
  { destruct r as [|x [|y r]]; cbn [take rev app]; [rewrite ws_len_graphic by done; done| |].
    - unfold ws_len. repeat case_match; done.
    - intros ?%ws_len_last_3. lia. }
  by rewrite (proj2 (Nat.eqb_neq _ _) H2), (proj2 (Nat.eqb_neq _ _) H3).
Qed.
Lemma trim_end_graphic s t : match rev t with b :: _ => graphic b | [] => False end -> trim_end (s ++ t) = s ++ t.
Proof.
  intros Ht. unfold trim_end. rewrite rev_app_distr. destruct (rev t) as [|b r] eqn:E; [done|].
  destruct (length (s ++ t)) as [|n] eqn:El.
  { rewrite length_app in El. assert (t = []) as -> by (destruct t; [done|simpl in El; lia]). done. }
  cbn [app trim_end_fuel]. rewrite ws_len_rev_graphic by done. rewrite app_comm_cons, <- E, <- rev_app_distr. apply rev_involutive.
Qed.
Lemma ends_with_app s t : ends_with t (s ++ t) = true.
Proof.
  unfold ends_with, strip_suffix. rewrite rev_app_distr. rewrite (proj2 (strip_prefix_Some (rev t) _ _) eq_refl).
  apply bool_decide_eq_true_2. by eexists.
Qed.

Section Page.
Context (prolog extra : list token) (attrs : bytes) (noise : list token) (Ho : other_ok prolog extra attrs noise).
Context (es : list Entry) (next : option bytes).
Abbreviation head_doc := (prolog ++ [Tag (bs "ListBucketResult" ++ attrs)] ++ noise
  ++ element (bs "IsTruncated") [Text (match next with Some _ => bs "true" | None => bs "false" end)]
  ++ match next with Some t => element (bs "NextContinuationToken") [Text (escape t)] | None => [] end).
Abbreviation doc := (page_doc prolog extra attrs noise es next).

Lemma page_wf : Forall well_formed doc.
Proof using Ho.
  destruct Ho as [[Hp _] [He _] [Ha1 Ha2] [Hn _]]. unfold page_doc. apply Forall_app_2; [done|].
  apply Forall_app_2; [constructor; [|constructor]|].
  { cbn [well_formed]. rewrite !not_elem_of_app. split; (split; [by apply (bool_decide_unpack _); vm_compute|done]). }
  apply Forall_app_2; [done|]. apply Forall_app_2.
  { apply wf_element; [by apply (bool_decide_unpack _); vm_compute..|]. constructor; [|constructor].
    cbn [well_formed]. destruct next; by apply (bool_decide_unpack _); vm_compute. }
  apply Forall_app_2.
  { destruct next; [|constructor]. apply wf_element; [by apply (bool_decide_unpack _); vm_compute..|].
    constructor; [apply escape_no_tags|constructor]. }
  apply Forall_app_2; [|apply Forall_app_2].
  - apply wf_elements; [by apply (bool_decide_unpack _); vm_compute..|]. apply Forall_forall.
    intros b Hb. apply list_elem_of_fmap in Hb as (o & -> & _). by apply object_wf.
  - apply wf_elements; [by apply (bool_decide_unpack _); vm_compute..|]. apply Forall_forall.
    intros b Hb. apply list_elem_of_fmap in Hb as (o & -> & _). apply prefix_wf.
  - constructor; [|constructor]. split; by apply (bool_decide_unpack _); vm_compute.
Qed.

Lemma head_tags x : x ∈ page_tags -> x <> bs "IsTruncated" -> x <> bs "NextContinuationToken" -> x ∉ tags head_doc.
Proof using Ho.
  intros Hx H1 H2. destruct Ho as [(_ & Hp & _) _ _ [_ Hn]]. rewrite !tags_app, !not_elem_of_app. split_and!.
  - intros Hin. by apply (Hp x).
  - cbn. intros Hin%list_elem_of_singleton. subst x. unfold page_tags in Hx.
    repeat (apply elem_of_cons in Hx as [Hx|Hx]; [by apply (f_equal (@head Z)) in Hx|]). by apply not_elem_of_nil in Hx.
  - intros Hin. by apply (Hn x).
  - cbn. rewrite !not_elem_of_cons. split_and!; [done| |apply not_elem_of_nil]. intros ->. revert Hx. not_tag.
  - destruct next; [|apply not_elem_of_nil]. cbn. rewrite !not_elem_of_cons. split_and!; [done| |apply not_elem_of_nil].
    intros ->. revert Hx. not_tag.
Qed.

Lemma object_doc_tags o x : x ∈ tags (object_doc extra o) -> x ∈ tags extra \/ x ∈
  [bs "Key"; bs "/Key"; bs "LastModified"; bs "/LastModified"; bs "Size"; bs "/Size"].
Proof using.
  clear. unfold object_doc. rewrite !tags_app, !elem_of_app. cbn. intros [Hx|[Hx|[Hx|Hx]]]; [right..|by left|right]; set_solver.
Qed.

Lemma page_contents : xml_blocks (flat doc) (bs "Contents") = map flat (map (object_doc extra) (objects_of es)).
Proof using Ho.
  unfold xml_blocks. rewrite xml_blocks_tokens; [|apply page_wf|not_tag]. f_equal.
  assert (doc = head_doc ++ flat_map (element (bs "Contents")) (map (object_doc extra) (objects_of es))
     ++ flat_map (element (bs "CommonPrefixes")) (map prefix_doc (prefixes_of es)) ++ [Tag (bs "/ListBucketResult")]) as ->
    by (unfold page_doc; by rewrite <- !app_assoc).
  apply blocks_elements; [apply blocks_length|apply head_tags; [set_solver|done|done]| |].
  - rewrite tags_app, not_elem_of_app. split; [|not_tag].
    intros [Hx|[Hx|(b & Hb & Hx)]]%tags_elements; [done|done|]. apply list_elem_of_fmap in Hb as (p & -> & _).
    cbn in Hx. revert Hx. not_tag.
  - apply Forall_forall. intros b Hb. apply list_elem_of_fmap in Hb as (o & -> & _). intros [Hx|Hx]%object_doc_tags.
    + destruct (ot_extra _ _ _ _ Ho) as [_ He]. apply (He _ Hx). set_solver.
    + revert Hx. not_tag.
Qed.

Lemma page_prefixes : xml_blocks (flat doc) (bs "CommonPrefixes") = map flat (map prefix_doc (prefixes_of es)).
Proof using Ho.
  unfold xml_blocks. rewrite xml_blocks_tokens; [|apply page_wf|not_tag]. f_equal.
  assert (doc = (head_doc ++ flat_map (element (bs "Contents")) (map (object_doc extra) (objects_of es)))
     ++ flat_map (element (bs "CommonPrefixes")) (map prefix_doc (prefixes_of es)) ++ [Tag (bs "/ListBucketResult")]) as ->
    by (unfold page_doc; by rewrite <- !app_assoc).
  apply blocks_elements; [apply blocks_length| |not_tag|].
  - rewrite tags_app, not_elem_of_app. split; [apply head_tags; [set_solver|done|done]|].
    intros [Hx|[Hx|(b & Hb & Hx)]]%tags_elements; [done|done|]. apply list_elem_of_fmap in Hb as (o & -> & _).
    apply object_doc_tags in Hx as [Hx|Hx]; [|revert Hx; not_tag].
    destruct (ot_extra _ _ _ _ Ho) as [_ He]. apply (He _ Hx). set_solver.
  - apply Forall_forall. intros b Hb. apply list_elem_of_fmap in Hb as (o & -> & _). cbn. not_tag.
Qed.

Lemma outer_tags x : x ∈ [bs "IsTruncated"; bs "NextContinuationToken"] ->
  x ∉ tags (prolog ++ [Tag (bs "ListBucketResult" ++ attrs)] ++ noise).
Proof using Ho.
  intros Hx. destruct Ho as [(_ & Hp & _) _ _ [_ Hn]]. rewrite !tags_app, !not_elem_of_app. split_and!.
  - intros Hin. apply (Hp x); [done|]. set_solver.
  - cbn. intros Hin%list_elem_of_singleton. subst x.
    repeat (apply elem_of_cons in Hx as [Hx|Hx]; [by apply (f_equal (@head Z)) in Hx|]). by apply not_elem_of_nil in Hx.
  - intros Hin. apply (Hn x); [done|]. set_solver.
Qed.

Lemma page_flag : xml_field (flat doc) (bs "IsTruncated")
  = Some (match next with Some _ => bs "true" | None => bs "false" end).
Proof using Ho.
  rewrite xml_field_tokens; [|apply page_wf|not_tag]. unfold page_doc.
  rewrite (app_assoc [_] noise), (app_assoc prolog). rewrite field_element by (apply outer_tags; set_solver).
  f_equal. apply unescape_plain. destruct next; not_tag.
Qed.

Lemma page_token t : next = Some t -> clean t -> xml_field (flat doc) (bs "NextContinuationToken") = Some t.
Proof using Ho.
  intros Hn Ht. rewrite xml_field_tokens; [|apply page_wf|not_tag]. unfold page_doc. rewrite Hn.
  rewrite (app_assoc noise), (app_assoc [_] (noise ++ _)), (app_assoc prolog). rewrite field_element.
  - by rewrite unescape_escape.
  - rewrite !app_assoc, tags_app, not_elem_of_app, <- app_assoc. split; [apply outer_tags; set_solver|]. cbn. not_tag.
Qed.

Lemma page_root : is_Some (listing_root (flat doc)).
Proof using Ho.
  destruct Ho as [(Hw & _ & Hr) _ _ _]. unfold listing_root.
  assert (flat doc = flat prolog ++ bs "<ListBucketResult" ++ (attrs ++ [62]
    ++ flat (noise ++ element (bs "IsTruncated") [Text (match next with Some _ => bs "true" | None => bs "false" end)]
      ++ match next with Some t => element (bs "NextContinuationToken") [Text (escape t)] | None => [] end
      ++ flat_map (element (bs "Contents")) (map (object_doc extra) (objects_of es))
      ++ flat_map (element (bs "CommonPrefixes")) (map prefix_doc (prefixes_of es))) ++ bs "</ListBucketResult>")) as ->.
  { unfold page_doc. rewrite (flat_app prolog). f_equal. rewrite (flat_app [_]).
    assert (flat [Tag (bs "ListBucketResult" ++ attrs)] = bs "<ListBucketResult" ++ attrs ++ [62]) as ->.
    { change ((60 :: (bs "ListBucketResult" ++ attrs) ++ [62]) ++ [] = bs "<ListBucketResult" ++ attrs ++ [62]).
      by rewrite app_nil_r, <- app_assoc. }
    rewrite !flat_app, <- !app_assoc. done. }
  rewrite split_root by done. cbn [mbind option_bind]. rewrite !app_assoc.
  rewrite trim_end_graphic by (by vm_compute). rewrite ends_with_app. by eexists.
Qed.
End Page.
End ClientFacts.
