(* ===== verification/S3ClientProps.v ===== *)
(** * S3ClientProps: what the S3 client promises

    Time stamps are read back, a signature does not depend on the order of
    its parts, and a directory read page by page is the level of the bucket. *)

From S2P Require Import Prelude RustStr ForkPool ForkPoolFacts S3Fs S3Client S3ClientFacts S3ClientWire.

Module ListFacts.
Import Str StrFacts StrPrefix Pat Sigv4 Civil Xml Client PatFacts XmlFacts TokenFacts Server ClientFacts.

(** ** What a page adds *)

Definition info_of (pre : bytes) (o : bytes * Z * Z) : option S3.ObjectInfo :=
  let! r := strip_prefix pre o.1.1 in
  if is_empty r then None else Some (S3.MkInfo r o.1.2 o.2).
Definition name_of (pre p : bytes) : option bytes :=
  let! r := strip_prefix pre p in
  let name := trim_end_matches 47 r in if is_empty name then None else Some name.
Definition add_entries (pre : bytes) (acc : S3.Listing) (es : list Entry) : S3.Listing :=
  S3.MkListing (S3.l_objects acc ++ omap (info_of pre) (objects_of es))
    (S3.directory_marker_exists acc || existsb (fun o => bool_decide (o.1.1 = pre)) (objects_of es))
    (S3.l_prefixes acc ++ omap (name_of pre) (prefixes_of es)).

Definition entry_ok (pre : bytes) (e : Entry) : Prop :=
  match e with
  | Object k n t => clean k /\ (exists r, k = pre ++ r) /\ 0 <= n <= u_max 64 /\ 0 <= t < Y10K
  | CommonPrefix p => clean p /\ exists r, p = pre ++ r
  end.

Lemma add_app pre acc es es' : add_entries pre (add_entries pre acc es) es' = add_entries pre acc (es ++ es').
Proof.
  unfold add_entries, objects_of, prefixes_of. cbn [S3.l_objects S3.directory_marker_exists S3.l_prefixes].
  rewrite !omap_app, existsb_app. f_equal; rewrite ?app_assoc, ?orb_assoc; done.
Qed.

Section Object.
Context (extra : list token) (Hw : Forall well_formed extra) (Hx : forall x, x ∈ tags extra -> x ∉ object_tags).

Lemma object_fields k n t :
  let d := object_doc extra (k, n, t) in
  field d (bs "Key") = Some (unescape (escape k)) /\ field d (bs "LastModified") = Some (unescape (iso8601 t))
  /\ field d (bs "Size") = Some (unescape (dec n)).
Proof using Hw Hx.
  cbv zeta. unfold object_doc. cbn [fst snd]. split_and!.
  - by apply (field_element (bs "Key") []), not_elem_of_nil.
  - apply field_element. cbn. not_tag.
  - rewrite 2!app_assoc. rewrite <- (app_nil_r (element (bs "Size") _)). apply field_element.
    rewrite !tags_app, !not_elem_of_app. split; [cbn; split; not_tag|]. intros Hin. apply (Hx _ Hin). set_solver.
Qed.

Lemma read_object_doc pre k n t acc :
  entry_ok pre (Object k n t) ->
  list_object pre acc (flat (object_doc extra (k, n, t)))
  = S3.MkListing (S3.l_objects acc ++ option_list (info_of pre (k, n, t)))
      (S3.directory_marker_exists acc || bool_decide (k = pre)) (S3.l_prefixes acc).
Proof using Hw Hx.
  intros (Hk & [r ->] & Hn & Ht). unfold list_object.
  pose proof (object_wf extra (pre ++ r, n, t) Hw) as Hwf.
  rewrite !(xml_field_tokens _ _ Hwf) by not_tag.
  destruct (object_fields (pre ++ r) n t) as (-> & -> & ->). rewrite unescape_escape by done.
  rewrite !unescape_plain by (by apply dec_free || by apply iso_free; [|not_tag]). cbn [mbind option_bind].
  rewrite parse_dec by (unfold u_max in *; lia). rewrite iso8601_parses by done. cbn [default from_option id].
  unfold info_of. cbn [fst snd]. rewrite (proj2 (strip_prefix_Some pre _ _) eq_refl). cbn [mbind option_bind default from_option id].
  destruct r as [|c r]; cbn [is_empty option_list].
  - rewrite !app_nil_r. by rewrite !bool_decide_eq_true_2, orb_true_r.
  - rewrite bool_decide_eq_false_2; [by rewrite orb_false_r|].
    intros Heq. apply (f_equal length) in Heq. rewrite length_app in Heq. simpl in Heq. lia.
Qed.

Lemma read_prefix_doc pre p acc :
  entry_ok pre (CommonPrefix p) ->
  list_prefix pre acc (flat (prefix_doc p))
  = S3.MkListing (S3.l_objects acc) (S3.directory_marker_exists acc) (S3.l_prefixes acc ++ option_list (name_of pre p)).
Proof using.
  intros (Hp & [r ->]). unfold list_prefix.
  rewrite (xml_field_tokens _ _ (prefix_wf (pre ++ r))) by not_tag. unfold prefix_doc.
  assert (field (element (bs "Prefix") [Text (escape (pre ++ r))]) (bs "Prefix") = Some (pre ++ r)) as ->.
  { rewrite <- (unescape_escape (pre ++ r) Hp) at 2. rewrite <- (app_nil_r (element _ _)).
    apply (field_element (bs "Prefix") []), not_elem_of_nil. } unfold name_of.
  rewrite (proj2 (strip_prefix_Some pre _ _) eq_refl). cbn [mbind option_bind default from_option id].
  destruct (is_empty (trim_end_matches 47 r)); cbn [option_list]; [|done]. rewrite app_nil_r. by destruct acc.
Qed.

Lemma read_objects pre es acc : Forall (entry_ok pre) es ->
  foldl (list_object pre) acc (map flat (map (object_doc extra) (objects_of es)))
  = S3.MkListing (S3.l_objects acc ++ omap (info_of pre) (objects_of es))
      (S3.directory_marker_exists acc || existsb (fun o => bool_decide (o.1.1 = pre)) (objects_of es)) (S3.l_prefixes acc).
Proof using Hw Hx.
  intros He. revert acc. induction He as [|[k n t|p] es Hok _ IH]; intros acc.
  - cbn. rewrite app_nil_r, orb_false_r. by destruct acc.
  - change (objects_of (Object k n t :: es)) with ((k, n, t) :: objects_of es). cbn [map foldl omap list_omap existsb fst].
    rewrite read_object_doc by done. rewrite IH. cbn [S3.l_objects S3.directory_marker_exists S3.l_prefixes].
    f_equal; [|by rewrite orb_assoc]. destruct (info_of pre (k, n, t)); cbn [option_list]; [by rewrite <- app_assoc|by rewrite app_nil_r].
  - apply IH.
Qed.
Lemma read_prefixes pre es acc : Forall (entry_ok pre) es ->
  foldl (list_prefix pre) acc (map flat (map prefix_doc (prefixes_of es)))
  = S3.MkListing (S3.l_objects acc) (S3.directory_marker_exists acc)
      (S3.l_prefixes acc ++ omap (name_of pre) (prefixes_of es)).
Proof using.
  intros He. revert acc. induction He as [|[k n t|p] es Hok _ IH]; intros acc.
  - cbn. rewrite app_nil_r. by destruct acc.
  - apply IH.
  - change (prefixes_of (CommonPrefix p :: es)) with (p :: prefixes_of es). cbn [map foldl omap list_omap].
    rewrite read_prefix_doc by done. rewrite IH. cbn [S3.l_objects S3.directory_marker_exists S3.l_prefixes].
    f_equal. destruct (name_of pre p); cbn [option_list]; [by rewrite <- app_assoc|by rewrite app_nil_r].
Qed.
End Object.

Lemma read_page pre acc prolog extra attrs noise es next :
  other_ok prolog extra attrs noise -> Forall (entry_ok pre) es ->
  list_page pre acc (flat (page_doc prolog extra attrs noise es next)) = add_entries pre acc es.
Proof.
  intros Ho He. unfold list_page. rewrite page_contents, page_prefixes by done.
  destruct (ot_extra _ _ _ _ Ho) as [Hw Hx]. by rewrite read_objects, read_prefixes.
Qed.

(** ** The loop *)

Lemma bytes_in_range s : forallb (fun b => within b 0 255) s = true -> Forall is_byte s.
Proof.
  intros Hs. apply Forall_forall. intros x Hx. rewrite forallb_forall in Hs. apply list_elem_of_In, Hs in Hx.
  unfold within, is_byte in *. lia.
Qed.

Section Loop.
Context `{Crypto} {World : Type} (http : Request -> World -> HttpResult * World) (now_secs : World -> Z) (cfg : Config).
Context (page : option bytes -> option (list Entry * option bytes)) (pre : bytes).

(** The bucket's URL has no query of its own. *)
Definition plain_url : Prop := 63 ∉ (url_for cfg []).1.

(** The server answers a listing request with the page its token names. *)
Definition serves : Prop :=
  forall req w tok es next, rq_method req = bs "GET" -> query_of (rq_url req) = list_query pre tok ->
    page tok = Some (es, next) ->
    exists r w' prolog extra attrs noise, http req w = (HttpOk r, w') /\ other_ok prolog extra attrs noise
      /\ r_text r = Ok (flat (page_doc prolog extra attrs noise es next)).

(** The pages from a token to the last one: the tokens met and all entries. *)
Inductive walk : option bytes -> list bytes -> list Entry -> Prop :=
| walk_last tok es : page tok = Some (es, None) -> walk tok [] es
| walk_next tok es t ts es' : page tok = Some (es, Some t) -> walk (Some t) ts es' -> walk tok (t :: ts) (es ++ es').

Definition token_ok (t : bytes) : Prop := t <> [] /\ clean t /\ Forall is_byte t.

Lemma list_query_bytes tok : Forall is_byte pre -> (forall t, tok = Some t -> Forall is_byte t) ->
  Forall (fun kv => Forall is_byte kv.1 /\ Forall is_byte kv.2) (list_query pre tok).
Proof using.
  intros Hp Ht. pose proof bytes_in_range as Hb.
  unfold list_query. apply Forall_app_2; [repeat (constructor; [split; by apply Hb|]); constructor|].
  apply Forall_app_2.
  - destruct (is_empty pre); constructor; [|constructor]. split; [by apply Hb|done].
  - destruct tok as [t|]; constructor; [|constructor]. split; [by apply Hb|by apply Ht].
Qed.

Lemma send_page tok es next w : plain_url -> serves -> Forall is_byte pre -> (forall t, tok = Some t -> Forall is_byte t) ->
  page tok = Some (es, next) ->
  exists r w' prolog extra attrs noise, send http now_secs cfg (bs "GET") [] (list_query pre tok) [] None w = (Ok r, w')
    /\ other_ok prolog extra attrs noise /\ r_text r = Ok (flat (page_doc prolog extra attrs noise es next)).
Proof using.
  intros Hu Hs Hp Ht Hpage. unfold send. unfold plain_url in Hu. destruct (url_for cfg []) as [url path].
  cbn [fst] in Hu. set (hs := filter _ _). set (q := query_string _).
  assert (is_empty q = false) as Hq by reflexivity. rewrite Hq.
  destruct (Hs (MkRequest (bs "GET") (url ++ bs "?" ++ q) hs None) w tok es next)
    as (r & w' & prolog & extra & attrs & noise & E & Ho & Htxt); [done| |done|].
  - apply query_decodes; [done|done|by apply list_query_bytes].
  - exists r, w', prolog, extra, attrs, noise. rewrite E. done.
Qed.

Lemma list_pages_walk tok ts es seen acc fuel w :
  plain_url -> serves -> Forall is_byte pre -> walk tok ts es -> Forall (entry_ok pre) es ->
  (forall t, tok = Some t -> Forall is_byte t) -> Forall token_ok ts -> NoDup ts -> (forall t, t ∈ ts -> t ∉ seen) ->
  (length ts < fuel)%nat ->
  exists w', list_pages http now_secs cfg fuel pre tok seen acc w = Some (Ok (add_entries pre acc es, true), w').
Proof using.
  intros Hu Hs Hp Hw. revert seen acc fuel w.
  induction Hw as [tok es Hpage|tok es t ts es' Hpage Hw IH]; intros seen acc fuel w He Ht Hts Hnd Hseen Hf;
    (destruct fuel as [|fuel]; [lia|]); cbn [list_pages].
  - destruct (send_page tok es None w Hu Hs Hp Ht Hpage) as (r & w' & prolog & extra & attrs & noise & -> & Ho & ->).
    destruct (page_root _ _ _ _ Ho es None) as [root ->].
    rewrite (page_flag _ _ _ _ Ho). rewrite bool_decide_eq_false_2 by done. rewrite bool_decide_eq_true_2 by done.
    exists w'. by rewrite read_page.
  - apply Forall_app in He as [He He']. apply Forall_cons in Hts as [(Htn & Htc & Htb) Hts].
    apply NoDup_cons in Hnd as [Hnt Hnd].
    destruct (send_page tok es (Some t) w Hu Hs Hp Ht Hpage) as (r & w' & prolog & extra & attrs & noise & -> & Ho & ->).
    destruct (page_root _ _ _ _ Ho es (Some t)) as [root ->].
    rewrite (page_flag _ _ _ _ Ho). rewrite bool_decide_eq_true_2 by done.
    rewrite (page_token _ _ _ _ Ho es (Some t) t) by done. destruct t as [|c t]; [done|].
    rewrite bool_decide_eq_false_2 by (apply Hseen; by left). rewrite read_page by done.
    destruct (IH ({[c :: t]} ∪ seen) (add_entries pre acc es) fuel w') as [w2 ->]; [done| |done|done| |simpl in Hf; lia|].
    + intros ? [= <-]. done.
    + intros t' Ht'. rewrite not_elem_of_union, not_elem_of_singleton. split; [by intros ->|]. apply Hseen. by right.
    + exists w2. by rewrite add_app.
Qed.
End Loop.

(** ** Levels *)

Record bucket_ok (m : gmap bytes (bytes * Z)) : Prop := MkBucketOk {
  bk_keys : forall k v, m !! k = Some v -> k <> [] /\ clean k;
  bk_values : forall k v t, m !! k = Some (v, t) -> len v <= u_max 64 /\ 0 <= t < Y10K;
}.

Lemma clean_prefix a b : clean (a ++ b) -> clean a.
Proof. intros Hc p x y Hp ->. apply (Hc p x (y ++ b) Hp). by rewrite !app_assoc. Qed.

Lemma level_ok m pre es : bucket_ok m -> is_level m pre es -> Forall (entry_ok pre) es.
Proof.
  intros [Hk Hv] [Ho Hp]. apply Forall_forall. intros [k n t|p] Hin.
  - apply Ho in Hin as (v & r & -> & _ & Hm & ->). destruct (Hk _ _ Hm), (Hv _ _ _ Hm). split; [done|].
    split; [by exists r|]. split; [pose proof (len_nonneg v); lia|done].
  - apply Hp in Hin as (r1 & r2 & -> & _ & [v Hm]). destruct (Hk _ _ Hm) as [_ Hc]. split; [|by eexists].
    apply (clean_prefix _ r2). by rewrite <- !app_assoc.
Qed.

Lemma objects_of_elem es k n t : (k, n, t) ∈ objects_of es <-> Object k n t ∈ es.
Proof.
  unfold objects_of. rewrite list_elem_of_omap. split.
  - intros ([k' n' t'|p] & Hin & [= <- <- <-]). done.
  - intros Hin. by exists (Object k n t).
Qed.
Lemma prefixes_of_elem es p : p ∈ prefixes_of es <-> CommonPrefix p ∈ es.
Proof.
  unfold prefixes_of. rewrite list_elem_of_omap. split.
  - intros ([k' n' t'|p'] & Hin & [= <-]). done.
  - intros Hin. by exists (CommonPrefix p).
Qed.

Lemma trim_one r : 47 ∉ r -> trim_end_matches 47 (r ++ bs "/") = r.
Proof.
  intros Hr. unfold trim_end_matches. rewrite rev_app_distr. change (rev (bs "/") ++ rev r) with (47 :: rev r).
  cbn [drop_leading Z.eqb Pos.eqb]. rewrite <- (rev_involutive r) at 2. f_equal.
  assert (47 ∉ rev r) as H47 by (rewrite list_elem_of_In, <- in_rev, <- list_elem_of_In; done).
  destruct (rev r) as [|x s]; [done|]. apply not_elem_of_cons in H47 as [Hx _]. cbn [drop_leading].
  by rewrite (proj2 (Z.eqb_neq x 47)) by congruence.
Qed.

(** What the entries of a level become. *)
Lemma level_listing m pre es : bucket_ok m -> is_level m pre es ->
  let l := add_entries pre (S3.MkListing [] false []) es in
  (forall o, o ∈ S3.l_objects l <-> S3.slash_free (S3.oi_key o)
     /\ exists v, m !! (pre ++ S3.oi_key o) = Some (v, S3.oi_time o) /\ S3.oi_size o = len v)
  /\ (forall n, n ∈ S3.l_prefixes l <-> S3.slash_free n /\ exists r, is_Some (m !! (pre ++ n ++ bs "/" ++ r)))
  /\ (S3.directory_marker_exists l = true <-> is_Some (m !! pre)).
Proof.
  intros Hb [Ho Hp]. cbn [add_entries S3.l_objects S3.l_prefixes S3.directory_marker_exists app orb]. split_and!.
  - intros o. rewrite list_elem_of_omap. split.
    + intros ([[k n] t] & Hin & Hi). apply objects_of_elem, Ho in Hin as (v & r & -> & Hr & Hm & ->).
      unfold info_of in Hi. cbn [fst snd] in Hi. rewrite (proj2 (strip_prefix_Some pre _ _) eq_refl) in Hi.
      cbn [mbind option_bind] in Hi. destruct r as [|c r]; [done|]. injection Hi as <-.
      split; [done|]. by exists v.
    + intros ([Hne Hs] & v & Hm & Hsz). exists (pre ++ S3.oi_key o, S3.oi_size o, S3.oi_time o). split.
      * apply objects_of_elem, Ho. by exists v, (S3.oi_key o).
      * unfold info_of. cbn [fst snd]. rewrite (proj2 (strip_prefix_Some pre _ _) eq_refl). cbn [mbind option_bind].
        destruct o as [[|] ? ?]; done.
  - intros n. rewrite list_elem_of_omap. split.
    + intros (p & Hin & Hn). apply prefixes_of_elem, Hp in Hin as (r1 & r2 & -> & Hr & Hm).
      unfold name_of in Hn. rewrite (proj2 (strip_prefix_Some pre _ _) eq_refl) in Hn. cbn [mbind option_bind] in Hn.
      rewrite trim_one in Hn by done. destruct r1 as [|c r1]; [done|]. injection Hn as <-. split; [done|]. by exists r2.
    + intros ([Hne Hs] & r & Hm). exists (pre ++ n ++ bs "/"). split.
      * apply prefixes_of_elem, Hp. by exists n, r.
      * unfold name_of. rewrite (proj2 (strip_prefix_Some pre _ _) eq_refl). cbn [mbind option_bind].
        rewrite trim_one by done. by destruct n.
  - rewrite existsb_exists. split.
    + intros ([[k n] t] & Hin & Hk%bool_decide_eq_true_1). cbn [fst] in Hk. subst k.
      apply list_elem_of_In, objects_of_elem, Ho in Hin. destruct Hin as (v & r & _ & _ & Hm & _). by eexists.
    + intros [[v t] Hm]. exists (pre, len v, t). split; [|by rewrite bool_decide_eq_true_2].
      apply list_elem_of_In, objects_of_elem, Ho. exists v, []. rewrite app_nil_r. split_and!; [done|apply not_elem_of_nil|done|done].
Qed.

(** ** Keys *)

(** A path below the mount, without slashes at its ends. *)
Definition trimmed (rel : bytes) : Prop := drop_leading 47 rel = rel /\ ends_with (bs "/") rel = false.

Lemma ends_with_skip s t : t <> [] -> ends_with (bs "/") (s ++ t) = ends_with (bs "/") t.
Proof.
  intros Ht. unfold ends_with, strip_suffix. rewrite rev_app_distr. destruct (rev t) as [|b r] eqn:E.
  { apply (f_equal (@rev Z)) in E. rewrite rev_involutive in E. done. }
  change (rev (bs "/")) with [47]. cbn [app strip_prefix]. by destruct (47 =? b).
Qed.

Lemma level_key cfg rel name : trimmed rel -> S3.slash_free name ->
  full_key cfg (S3.join rel name) = list_prefix_of cfg rel ++ name.
Proof.
  intros [Hl He] [Hn Hs]. unfold list_prefix_of, full_key, S3.join, trim_start_matches. rewrite Hl.
  assert (drop_leading 47 name = name) as Hd.
  { destruct name as [|x name]; [done|]. apply not_elem_of_cons in Hs as [Hx _]. cbn [drop_leading].
    by rewrite (proj2 (Z.eqb_neq x 47)) by congruence. }
  destruct rel as [|c rel]; cbn [is_empty].
  - rewrite Hd. destruct (is_empty (prefix cfg)); [done|]. cbn [app]. rewrite ends_with_app.
    rewrite andb_false_r. rewrite app_nil_r. by rewrite <- app_assoc.
  - assert (drop_leading 47 ((c :: rel) ++ bs "/" ++ name) = (c :: rel) ++ bs "/" ++ name) as ->.
    { cbn [app drop_leading] in Hl |- *. destruct (c =? 47); [|done]. exfalso.
      apply (f_equal length) in Hl. assert (forall s, (length (drop_leading 47 s) <= length s)%nat) as Hle.
      { induction s as [|x s IH]; [done|]. cbn [drop_leading]. destruct (x =? 47); simpl; lia. }
      specialize (Hle rel). simpl in Hl. lia. }
    destruct (is_empty (prefix cfg)) eqn:Ep; cbn [is_empty negb andb].
    + rewrite He. cbn [negb]. by rewrite <- app_assoc.
    + rewrite !app_assoc. rewrite ends_with_skip by done. rewrite He. cbn [negb]. rewrite andb_true_r.
      assert (is_empty ((trim_matches 47 (prefix cfg) ++ bs "/") ++ c :: rel) = false) as ->
        by (by destruct (trim_matches 47 (prefix cfg))).
      cbn [negb andb]. by rewrite <- !app_assoc.
Qed.
End ListFacts.

(** ** Signatures *)

Module SignFacts.
Import Str Pat Sigv4.

Section Sort.
Context {A : Type} (le : A -> A -> bool).
Hypothesis le_total : forall a b, le a b = true \/ le b a = true.
Hypothesis le_trans : forall a b c, le a b = true -> le b c = true -> le a c = true.
Abbreviation R := (fun a b => le a b = true).

Lemma insert_perm x l : insert_by le x l ≡ₚ x :: l.
Proof using.
  clear. induction l as [|y l IH]; [done|]. cbn [insert_by]. destruct (le x y); [done|]. rewrite IH. apply Permutation_swap.
Qed.
Lemma sort_perm l : sort_by le l ≡ₚ l.
Proof using. clear. induction l as [|x l IH]; [done|]. cbn [sort_by]. by rewrite insert_perm, IH. Qed.

Lemma insert_sorted x l : StronglySorted R l -> StronglySorted R (insert_by le x l).
Proof using le_total le_trans.
  induction 1 as [|y l Hs IH Hy]; cbn [insert_by]; [repeat constructor|].
  destruct (le x y) eqn:E.
  - constructor; [by constructor|]. constructor; [done|]. eapply Forall_impl; [exact Hy|]. intros z Hz. by eapply le_trans.
  - assert (le y x = true) as Hyx by (destruct (le_total x y); congruence).
    constructor; [done|]. apply Forall_forall. intros z Hz. rewrite insert_perm in Hz.
    apply elem_of_cons in Hz as [->|Hz]; [done|]. rewrite Forall_forall in Hy. by apply Hy.
Qed.
Lemma sort_sorted l : StronglySorted R (sort_by le l).
Proof using le_total le_trans. induction l as [|x l IH]; [constructor|]. cbn [sort_by]. by apply insert_sorted. Qed.

Lemma sort_unique l l' : l ≡ₚ l' -> (forall a b, a ∈ l -> b ∈ l -> le a b = true -> le b a = true -> a = b) ->
  sort_by le l = sort_by le l'.
Proof using le_total le_trans.
  intros Hp Hanti. apply (StronglySorted_unique_strong R); [|apply sort_sorted|apply sort_sorted|by rewrite !sort_perm].
  intros a b Ha Hb. rewrite sort_perm in Ha, Hb. apply Hanti; [done|]. by rewrite Hp.
Qed.
End Sort.

Lemma pair_leb_total a b : pair_leb a b = true \/ pair_leb b a = true.
Proof.
  unfold pair_leb. destruct (decide (a.1 = b.1)) as [E|E].
  - rewrite !bool_decide_eq_true_2 by congruence. apply BytesOrder.bytes_leb_total.
  - rewrite !bool_decide_eq_false_2 by congruence. apply BytesOrder.bytes_leb_total.
Qed.
Lemma pair_leb_antisym a b : pair_leb a b = true -> pair_leb b a = true -> a = b.
Proof.
  unfold pair_leb. destruct a as [a1 a2], b as [b1 b2]. cbn [fst snd]. destruct (decide (a1 = b1)) as [->|E].
  - rewrite !bool_decide_eq_true_2 by congruence. intros H1 H2. f_equal. by apply BytesOrder.bytes_leb_antisym.
  - rewrite !bool_decide_eq_false_2 by congruence. intros H1 H2. by destruct E; apply BytesOrder.bytes_leb_antisym.
Qed.
Lemma pair_leb_trans a b c : pair_leb a b = true -> pair_leb b c = true -> pair_leb a c = true.
Proof.
  unfold pair_leb. destruct a as [a1 a2], b as [b1 b2], c as [c1 c2]. cbn [fst snd].
  repeat case_bool_decide; subst; try done; try (by apply BytesOrder.bytes_leb_trans).
  intros H1 H2. by destruct H; apply BytesOrder.bytes_leb_antisym.
Qed.

Lemma NoDup_key {A} (l : list (bytes * A)) a b :
  NoDup (map fst l) -> a ∈ l -> b ∈ l -> a.1 = b.1 -> a = b.
Proof.
  induction l as [|x l IH]; [by intros _ ?%not_elem_of_nil|]. cbn [map]. intros [Hx Hnd]%NoDup_cons.
  intros [->|Ha]%elem_of_cons [->|Hb]%elem_of_cons E; [done| | |by apply IH].
  - destruct Hx. rewrite E. by apply list_elem_of_fmap_2.
  - destruct Hx. rewrite <- E. by apply list_elem_of_fmap_2.
Qed.

Definition header_name (h : bytes * bytes) : bytes := to_ascii_lowercase h.1.

Lemma amz_names req creds date : NoDup (map header_name (headers req)) -> NoDup (map header_name (amz_headers req creds date)).
Proof.
  intros Hnd. unfold amz_headers. rewrite map_app. apply NoDup_app. split_and!.
  - induction (headers req) as [|h hs IH]; [constructor|]. apply NoDup_cons in Hnd as [Hh Hnd].
    destruct (decide (to_ascii_lowercase h.1 ∉ signed_by_sign)).
    + rewrite filter_cons_True by done. cbn [map]. apply NoDup_cons. split; [|by apply IH].
      intros Hin. apply Hh. apply list_elem_of_fmap in Hin as (h' & -> & Hin). apply list_elem_of_filter in Hin as [_ Hin].
      by apply list_elem_of_fmap_2.
    + rewrite filter_cons_False by done. by apply IH.
  - intros x Hx. apply list_elem_of_fmap in Hx as (h & -> & Hx). apply list_elem_of_filter in Hx as [Hx _].
    intros Hin. apply Hx. unfold header_name in Hin. revert Hin. generalize (to_ascii_lowercase h.1). intros n.
    destruct (session_token creds); vm_compute; set_solver.
  - destruct (session_token creds); apply (bool_decide_unpack _); vm_compute; exact I.
Qed.

Lemma canonical_perm req req' creds date : payload_sha256 req = payload_sha256 req' ->
  headers req ≡ₚ headers req' -> NoDup (map header_name (headers req)) ->
  canonical_header_list (amz_headers req creds date) = canonical_header_list (amz_headers req' creds date).
Proof.
  intros Hp Hh Hnd. unfold canonical_header_list.
  apply (sort_unique (fun a b => Pool.bytes_leb a.1 b.1)).
  - intros a b. apply BytesOrder.bytes_leb_total.
  - intros a b c. apply BytesOrder.bytes_leb_trans.
  - apply Permutation_map. unfold amz_headers. rewrite Hp. by rewrite Hh.
  - intros a b Ha Hb H1 H2. eapply NoDup_key; [|exact Ha|exact Hb|by apply BytesOrder.bytes_leb_antisym].
    rewrite map_map. apply (amz_names req creds date Hnd).
Qed.

Lemma query_perm q q' : q ≡ₚ q' -> canonical_query q = canonical_query q'.
Proof.
  intros Hq. unfold canonical_query. f_equal. apply sort_unique; [apply pair_leb_total|apply pair_leb_trans| |].
  - by apply Permutation_map.
  - intros a b _ _. apply pair_leb_antisym.
Qed.

Lemma amz_again req creds date v :
  amz_headers (MkSign (method req) (path req) (query req) (amz_headers req creds date ++ [(bs "authorization", v)])
    (payload_sha256 req)) creds date = amz_headers req creds date.
Proof.
  unfold amz_headers. cbn [headers payload_sha256]. rewrite !filter_app, list_filter_filter_l by done. rewrite <- !app_assoc. f_equal.
  assert (forall k w, k ∈ signed_by_sign -> to_ascii_lowercase k = k ->
    filter (fun h : bytes * bytes => to_ascii_lowercase h.1 ∉ signed_by_sign) [(k, w)] = []) as Hf.
  { intros k w Hk Hl. rewrite filter_cons_False; [done|]. cbn [fst]. rewrite Hl. intros Hn. by apply Hn. }
  rewrite (filter_cons_False _ (bs "x-amz-date", _)) by (cbn [fst]; intros Hn; apply Hn; by (apply (bool_decide_unpack _); vm_compute)).
  rewrite (filter_cons_False _ (bs "x-amz-content-sha256", _)) by (cbn [fst]; intros Hn; apply Hn; by (apply (bool_decide_unpack _); vm_compute)).
  rewrite (Hf (bs "authorization")) by (by (apply (bool_decide_unpack _); vm_compute) || reflexivity).
  destruct (session_token creds); [rewrite (Hf (bs "x-amz-security-token")) by (by (apply (bool_decide_unpack _); vm_compute) || reflexivity)|]; done.
Qed.
End SignFacts.

Module ClientProps.
Import Str Pat Sigv4 Civil Xml Client XmlFacts TokenFacts Server ClientFacts ListFacts SignFacts.

(** The hand-written calendar is right: for every date
    of the Gregorian calendar from 1970 to 9999 and every time of day, the
    scope and the date a signature uses spell that date, and the time stamps
    of listings and of HTTP headers are read as its second. *)
Theorem timestamps_roundtrip weekday y m d h mi sec :
  CivilFacts.valid_date y m d -> 0 <= h < 24 -> 0 <= mi < 60 -> 0 <= sec < 60 -> Forall WordFacts.graphic weekday ->
  let secs := CivilFacts.epoch_day y m d * 86400 + h * 3600 + mi * 60 + sec in
  format_date secs = padded 4 y ++ padded 2 m ++ padded 2 d
  /\ format_datetime secs
     = format_date secs ++ bs "T" ++ padded 2 h ++ padded 2 mi ++ padded 2 sec ++ bs "Z"
  /\ parse_iso8601 (iso_text y m d h mi sec) = Some secs
  /\ parse_http_date (http_text weekday y m d h mi sec) = Some secs.
Proof.
  intros Hv Hh Hmi Hs Hw secs. pose proof (CivilFacts.civil_epoch y m d Hv) as Hc.
  destruct (date_fields y m d h mi sec Hv Hh Hmi Hs) as (Hr & Hq & E1 & E2 & E3). fold secs in Hr, Hq, E1, E2, E3.
  pose proof (iso8601_parses secs Hr) as Hi. pose proof (http_date_parses weekday secs Hw Hr) as Hd.
  unfold iso8601, http_date in Hi, Hd. unfold format_datetime, format_date. rewrite Hq, Hc in *. rewrite E1, E2, E3 in *.
  split_and!; [done|by rewrite <- !app_assoc|done|done].
Qed.

(** A signature covers what is sent, not how it is written
    down: requests that differ only in the order of their headers and of
    their query get the same authorization, and signing a signed request
    again replaces its signature instead of adding another. *)
Theorem sign_canonical `{Crypto} req req' creds region now :
  method req = method req' -> path req = path req' -> payload_sha256 req = payload_sha256 req' ->
  query req ≡ₚ query req' -> headers req ≡ₚ headers req' -> NoDup (map header_name (headers req)) ->
  last (sign req creds region now) = last (sign req' creds region now)
  /\ sign (MkSign (method req) (path req) (query req) (sign req creds region now) (payload_sha256 req)) creds region now
     = sign req creds region now.
Proof.
  intros Hm Hp Hs Hq Hh Hnd. destruct now as [date_stamp amz_date]. unfold sign. split.
  - rewrite !last_snoc. unfold canonical_request. rewrite (canonical_perm req req' creds amz_date Hs Hh Hnd).
    by rewrite Hm, Hp, Hs, (query_perm _ _ Hq).
  - rewrite amz_again. done.
Qed.

(** A directory is read whole: against a server that answers
    each decoded request with a page of the bucket's level, in any number of
    pages and with whatever else its documents hold, the loop ends, and the
    listing has exactly the objects and sub-directories of that level, with
    the sizes and times of the bucket and under names that lead back to their
    keys; it is reported complete, as the cache of absent names requires. *)
Theorem listing_exact `{Crypto} {World : Type} (http : Request -> World -> HttpResult * World) now_secs cfg m rel
    page tokens es fuel w :
  trimmed rel -> let pre := list_prefix_of cfg rel in
  plain_url cfg -> Forall is_byte pre -> serves http page pre -> walk page None tokens es ->
  Forall token_ok tokens -> NoDup tokens -> bucket_ok m -> is_level m pre es -> (length tokens < fuel)%nat ->
  exists l w', list_dir_snapshot http now_secs cfg fuel rel w = Some (Ok (l, true), w')
    /\ (forall o, o ∈ S3.l_objects l <-> S3.slash_free (S3.oi_key o)
          /\ exists v, m !! full_key cfg (S3.join rel (S3.oi_key o)) = Some (v, S3.oi_time o) /\ S3.oi_size o = len v)
    /\ (forall n, n ∈ S3.l_prefixes l <-> S3.slash_free n /\ exists r, is_Some (m !! (pre ++ n ++ bs "/" ++ r)))
    /\ (S3.directory_marker_exists l = true <-> is_Some (m !! pre)).
Proof.
  intros Hr pre Hu Hb Hsv Hw Ht Hnd Hm Hl Hf.
  destruct (list_pages_walk http now_secs cfg page pre None tokens es ∅ (S3.MkListing [] false []) fuel w)
    as [w' Hp]; [done..|by eapply level_ok|done|done|done| |done|].
  { intros t _. apply not_elem_of_empty. }
  exists (add_entries pre (S3.MkListing [] false []) es), w'. split; [exact Hp|].
  destruct (level_listing m pre es Hm Hl) as (Ho & Hn & Hd). split_and!; [|exact Hn|exact Hd].
  intros o. rewrite Ho. split; intros [Hs [v Hv]]; (split; [done|]); exists v; by rewrite level_key in * || rewrite level_key.
Qed.
End ClientProps.

Module ClientSample.
Import Str Pat Sigv4 Civil Xml Client XmlFacts TokenFacts Server ClientFacts ListFacts SignFacts ClientProps.

#[local] Instance sample_crypto : Crypto := MkCrypto (fun k d => k ++ d) (fun d => d).

Lemma timestamps_roundtrip_witness :
  format_date 951827696 = bs "20000229"
  /\ parse_http_date (bs "Tue, 29 Feb 2000 12:34:56 GMT") = Some 951827696.
Proof.
  destruct (timestamps_roundtrip (bs "Tue") 2000 2 29 12 34 56) as (Hf & _ & _ & Hh).
  - split; [lia|]. split; [lia|]. vm_compute. by split.
  - lia.
  - lia.
  - lia.
  - by apply graphics.
  - split; [exact Hf|exact Hh].
Defined.

Definition sample_request (hs q : list (bytes * bytes)) : SignRequest :=
  MkSign (bs "GET") (bs "/b/") q hs EMPTY_SHA256.
Definition host : bytes * bytes := (bs "Host", bs "s3").
Definition range : bytes * bytes := (bs "range", bs "bytes=0-9").
Lemma sign_canonical_witness :
  let q := [(bs "prefix", bs "J"); (bs "max-keys", bs "2")] in
  let creds := MkCreds (bs "id") (bs "secret") (Some (bs "token")) in
  last (sign (sample_request [host; range] q) creds (bs "r") (bs "20130524", bs "20130524T000000Z"))
  = last (sign (sample_request [range; host] (rev q)) creds (bs "r") (bs "20130524", bs "20130524T000000Z")).
Proof.
  apply (sign_canonical (sample_request [host; range] [(bs "prefix", bs "J"); (bs "max-keys", bs "2")])
    (sample_request [range; host] [(bs "max-keys", bs "2"); (bs "prefix", bs "J")])).
  - reflexivity.
  - reflexivity.
  - reflexivity.
  - apply Permutation_swap.
  - apply Permutation_swap.
  - apply (bool_decide_unpack _). vm_compute. exact I.
Defined.

(** A bucket with two keys, listed in two pages. *)
Definition sample_bucket : gmap bytes (bytes * Z) :=
  {[bs "data/a&b" := ([104; 105], 100); bs "data/sub/x" := ([121], 200)]}.
Definition sample_cfg : Config := MkConfig (bs "http://s3") (bs "r") (bs "b") [] None true.
Definition sample_page (tok : option bytes) : option (list Entry * option bytes) :=
  match tok with
  | None => Some ([Object (bs "data/a&b") 2 100], Some (bs "a+b /%"))
  | Some t => if bool_decide (t = bs "a+b /%") then Some ([CommonPrefix (bs "data/sub/")], None) else None
  end.
Definition token_of (q : list (bytes * bytes)) : option bytes :=
  snd <$> List.find (fun kv => bool_decide (kv.1 = bs "continuation-token")) q.
Definition sample_http (req : Request) (w : unit) : HttpResult * unit :=
  match sample_page (token_of (query_of (rq_url req))) with
  | Some (es, next) => (HttpOk (MkResponse (fun _ => None) (Ok []) (Ok (flat (page_doc [] [] [] [] es next)))), w)
  | None => (HttpStatus 400 (MkResponse (fun _ => None) (Ok []) (Ok [])), w)
  end.

Lemma sample_serves : serves sample_http sample_page (bs "data/").
Proof.
  intros req w tok es next _ Hq Hp. unfold sample_http. rewrite Hq.
  assert (token_of (list_query (bs "data/") tok) = tok) as -> by (by destruct tok). rewrite Hp.
  eexists _, _, [], [], [], []. split; [reflexivity|]. split; [|reflexivity].
  split; [split_and!; [constructor| |]|split; [constructor|]|split; apply not_elem_of_nil|split; [constructor|]];
    intros x Hx; by apply not_elem_of_nil in Hx.
Qed.
Lemma clean_checked s :
  forallb (fun p => negb (contains_str p s)) [bs "&lt;"; bs "&gt;"; bs "&quot;"; bs "&apos;"] = true -> clean s.
Proof.
  intros Hs p a b Hp Heq. rewrite forallb_forall in Hs. apply list_elem_of_In, Hs, negb_true_iff in Hp.
  unfold contains_str in Hp. apply bool_decide_eq_false_1 in Hp. apply Hp.
  destruct (split_at p s) as [r|] eqn:E; [by eexists|]. by destruct (PatFacts.split_at_None p s E a b).
Qed.
Lemma sample_bucket_ok : bucket_ok sample_bucket.
Proof.
  assert (forall k v, sample_bucket !! k = Some v ->
    (k = bs "data/a&b" /\ v = ([104; 105], 100)) \/ (k = bs "data/sub/x" /\ v = ([121], 200))) as Hc.
  { intros k v Hk. unfold sample_bucket in Hk. apply lookup_insert_Some in Hk as [[<- <-]|[_ Hk]]; [by left|right].
    by apply lookup_singleton_Some in Hk as [<- <-]. }
  split.
  - intros k v Hk. apply Hc in Hk as [[-> _]|[-> _]]; (split; [done|]); by apply clean_checked.
  - intros k v t Hk. apply Hc in Hk as [[_ [= -> ->]]|[_ [= -> ->]]]; (split; [done|unfold Y10K; lia]).
Qed.
Lemma sample_level : is_level sample_bucket (bs "data/") ([Object (bs "data/a&b") 2 100] ++ [CommonPrefix (bs "data/sub/")]).
Proof.
  split.
  - intros k n t. split.
    + intros Hin. apply elem_of_cons in Hin as [[= -> -> ->]|Hin].
      * exists [104; 105], (bs "a&b"). split_and!; [reflexivity|not_tag|vm_compute; reflexivity|reflexivity].
      * apply list_elem_of_singleton in Hin. done.
    + intros (v & r & -> & Hr & Hm & ->). unfold sample_bucket in Hm.
      apply lookup_insert_Some in Hm as [[Hk [= <- <-]]|[_ Hm]].
      * rewrite <- Hk. by left.
      * apply lookup_singleton_Some in Hm as [Hk _]. exfalso. change (bs "data/sub/x") with (bs "data/" ++ bs "sub/x") in Hk.
        apply app_inv_head in Hk. subst r. revert Hr. vm_compute. intros Hr. apply Hr. set_solver.
  - intros p. split.
    + intros Hin. apply elem_of_cons in Hin as [?|Hin]; [done|]. apply list_elem_of_singleton in Hin as [= ->].
      exists (bs "sub"), (bs "x"). split_and!; [reflexivity|not_tag|by eexists; vm_compute].
    + intros (r1 & r2 & -> & Hr & [v Hm]). unfold sample_bucket in Hm.
      apply lookup_insert_Some in Hm as [[Hk _]|[_ Hm]].
      * exfalso. change (bs "data/a&b") with (bs "data/" ++ bs "a&b") in Hk. apply app_inv_head in Hk.
        assert (47 ∈ bs "a&b") as H47; [|revert H47; not_tag]. rewrite Hk. apply elem_of_app. right. by left.
      * apply lookup_singleton_Some in Hm as [Hk _]. change (bs "data/sub/x") with (bs "data/" ++ bs "sub" ++ 47 :: bs "x") in Hk.
        apply app_inv_head in Hk. change (r1 ++ bs "/" ++ r2) with (r1 ++ 47 :: r2) in Hk.
        pose proof (f_equal (split_once 47) Hk) as Hs. rewrite !StrFacts.split_once_at in Hs by (done || not_tag).
        injection Hs as <- <-. right. by left.
Qed.

Lemma listing_exact_witness :
  exists l w', list_dir_snapshot sample_http (fun _ => 0) sample_cfg 2 (bs "data") tt = Some (Ok (l, true), w')
    /\ bs "sub" ∈ S3.l_prefixes l.
Proof.
  destruct (listing_exact sample_http (fun _ => 0) sample_cfg sample_bucket (bs "data") sample_page [bs "a+b /%"]
    ([Object (bs "data/a&b") 2 100] ++ [CommonPrefix (bs "data/sub/")]) 2 tt) as (l & w' & Hl & _ & Hp & _).
  - split; vm_compute; reflexivity.
  - unfold plain_url. vm_compute url_for. not_tag.
  - apply (bytes_in_range (bs "data/")). vm_compute. reflexivity.
  - exact sample_serves.
  - apply walk_next; [reflexivity|]. apply walk_last. vm_compute. reflexivity.
  - constructor; [|constructor]. split; [done|]. split; [|apply bytes_in_range; vm_compute; reflexivity].
    by apply clean_checked.
  - apply NoDup_singleton.
  - exact sample_bucket_ok.
  - exact sample_level.
  - vm_compute. lia.
  - exists l, w'. split; [exact Hl|]. apply Hp. split; [split; [done|not_tag]|]. exists (bs "x"). by eexists; vm_compute.
Defined.

(** The entities are undone one after the other, the ampersand first: a key
    that has the text of an entity in it is listed under another name. *)
Theorem escaped_entity_misread :
  xml_field (flat (element (bs "Key") [Text (escape (bs "a&lt;b"))])) (bs "Key") = Some (bs "a<b").
Proof. vm_compute. reflexivity. Qed.
End ClientSample.
