(* ===== verification/FileSys.v ===== *)
(** * FileSys: paths and the file-system calls the sources make

    Rust's [Path] on Unix ([components], [file_name], [parent], [join]) and
    the calls of [std::fs] over a tree of nodes. A path handed to the kernel
    is the list of its segments below the root, and the kernel interprets
    them: [.] and empty segments stay, [..] goes to the parent of the
    directory reached, a symbolic link is followed unless it is the last
    segment of a call that does not follow. A file system maps physical
    paths (no links, no dots) to nodes. The caller is root, so permissions
    refuse nothing. *)

From S2P Require Import Prelude RustStr.

Module Path.
Import Str.

Inductive Component := RootDir | CurDir | ParentDir | Normal (part : bytes).
#[export] Instance Component_eq_dec : EqDecision Component.
Proof. solve_decision. Defined.

Definition DOT : bytes := bs ".".
Definition DOTDOT : bytes := bs "..".

(** A name that is a directory entry of its own. *)
Definition proper (seg : bytes) : bool :=
  negb (is_empty seg) && negb (bool_decide (seg = DOT)) && negb (bool_decide (seg = DOTDOT))
  && negb (contains 47 seg) && negb (contains 0 seg).

Fixpoint body (segs : list bytes) : list Component :=
  match segs with
  | [] => []
  | seg :: segs =>
      if is_empty seg || bool_decide (seg = DOT) then body segs
      else (if bool_decide (seg = DOTDOT) then ParentDir else Normal seg) :: body segs
  end.

(** [Path::components]. *)
Definition components (p : bytes) : list Component :=
  match split 47 p with
  | [] => []
  | seg :: segs =>
      if is_empty seg then (match segs with [] => [] | _ => RootDir :: body segs end)
      else if bool_decide (seg = DOT) then CurDir :: body segs
      else body (seg :: segs)
  end.

(** [Path::file_name]. *)
Definition file_name (p : bytes) : option bytes :=
  match list.last (components p) with Some (Normal part) => Some part | _ => None end.

(** A [PathBuf] below the root: the segments of an absolute path. *)
Abbreviation PathBuf := (list bytes).
(** [Path::parent] of a path without dots. *)
Definition parent (p : PathBuf) : option PathBuf :=
  match p with [] => None | _ => Some (removelast p) end.
Definition join (p : PathBuf) (seg : bytes) : PathBuf := p ++ [seg].
End Path.

Module FileSys.
Import Str Path.

Inductive Kind :=
| KDir
| KFile (data : bytes)
| KSymlink (target : bytes)
| KWhiteout  (* character device 0/0 *)
| KOther.
#[export] Instance Kind_eq_dec : EqDecision Kind.
Proof. solve_decision. Defined.
Record Node := MkNode { kind : Kind; perm : Z; opaque : bool }.
Abbreviation Fs := (gmap PathBuf Node).

Inductive Errno := ENOENT | ENOTDIR | EEXIST | EISDIR | ELOOP | EINVAL | ENOTEMPTY | EBUSY.
#[export] Instance Errno_eq_dec : EqDecision Errno.
Proof. solve_decision. Defined.

Definition kind_at (fs : Fs) (p : PathBuf) : option Kind := let! n := fs !! p in Some (kind n).
Definition is_symlink (fs : Fs) (p : PathBuf) : bool :=
  match kind_at fs p with Some (KSymlink _) => true | _ => false end.
Definition dir_at (fs : Fs) (p : PathBuf) : Prop := kind_at fs p = Some KDir.
#[export] Instance dir_at_dec fs p : Decision (dir_at fs p) := decide (kind_at fs p = Some KDir).

(** ** Path resolution *)

Definition MAXSYMLINKS : nat := 40.
Definition stays (seg : bytes) : bool := is_empty seg || bool_decide (seg = DOT).
Definition is_absolute (target : bytes) : bool := starts_with [47] target.

(** From the directory [cur]; [links] more symbolic links may be followed. *)
Fixpoint resolve (links : nat) (fs : Fs) (follow : bool) : PathBuf -> list bytes -> result PathBuf Errno :=
  fix go cur segs :=
    match segs with
    | [] => Ok cur
    | seg :: rest =>
        if stays seg then go cur rest
        else if bool_decide (seg = DOTDOT) then go (removelast cur) rest
        else
          let p := cur ++ [seg] in
          match kind_at fs p with
          | None => match rest with [] => Ok p | _ => Err ENOENT end
          | Some KDir => go p rest
          | Some (KSymlink target) =>
              if negb follow && bool_decide (rest = []) then Ok p
              else
                match links with
                | O => Err ELOOP
                | S links =>
                    resolve links fs follow (if is_absolute target then [] else cur) (split 47 target ++ rest)
                end
          | Some _ => match rest with [] => Ok p | _ => Err ENOTDIR end
          end
    end.

(** The kernel's walk from the root; a path with a NUL byte is no C string. *)
Definition walk (fs : Fs) (follow : bool) (p : PathBuf) : result PathBuf Errno :=
  if existsb (contains 0) p then Err EINVAL else resolve MAXSYMLINKS fs follow [] p.

Definition last_seg (p : PathBuf) : bytes := default [] (list.last p).

(** ** Calls *)

Definition lookup_node (fs : Fs) (follow : bool) (p : PathBuf) : result Node Errno :=
  let? q := walk fs follow p in
  match fs !! q with Some n => Ok n | None => Err ENOENT end.
(** [fs::symlink_metadata] and [fs::metadata]. *)
Definition symlink_metadata (fs : Fs) (p : PathBuf) : result Node Errno := lookup_node fs false p.
Definition metadata (fs : Fs) (p : PathBuf) : result Node Errno := lookup_node fs true p.
(** [Path::exists] and [Path::is_dir]. *)
Definition exists_ (fs : Fs) (p : PathBuf) : bool := match metadata fs p with Ok _ => true | Err _ => false end.
Definition is_dir (fs : Fs) (p : PathBuf) : bool :=
  match metadata fs p with Ok n => (match kind n with KDir => true | _ => false end) | Err _ => false end.

(** A call that makes a new node. *)
Definition make (n : Node) (p : PathBuf) (fs : Fs) : result unit Errno * Fs :=
  match walk fs false p with
  | Err e => (Err e, fs)
  | Ok q => match fs !! q with Some _ => (Err EEXIST, fs) | None => (Ok tt, <[q := n]> fs) end
  end.
Definition mkdir (mode : Z) : PathBuf -> Fs -> result unit Errno * Fs := make (MkNode KDir mode false).
Definition mknod_whiteout : PathBuf -> Fs -> result unit Errno * Fs := make (MkNode KWhiteout 0 false).

(** A call that changes the attributes of a node it follows links to. *)
Definition change (f : Node -> Node) (p : PathBuf) (fs : Fs) : result unit Errno * Fs :=
  match walk fs true p with
  | Err e => (Err e, fs)
  | Ok q => match fs !! q with Some n => (Ok tt, <[q := f n]> fs) | None => (Err ENOENT, fs) end
  end.
Definition set_permissions (mode : Z) : PathBuf -> Fs -> result unit Errno * Fs :=
  change (fun n => MkNode (kind n) mode (opaque n)).
Definition setxattr_opaque : PathBuf -> Fs -> result unit Errno * Fs :=
  change (fun n => MkNode (kind n) (perm n) true).

(** [fs::remove_file]. *)
Definition remove_file (p : PathBuf) (fs : Fs) : result unit Errno * Fs :=
  match walk fs false p with
  | Err e => (Err e, fs)
  | Ok q =>
      match kind_at fs q with
      | None => (Err ENOENT, fs)
      | Some KDir => (Err EISDIR, fs)
      | Some _ => (Ok tt, delete q fs)
      end
  end.

(** Everything below a directory, and [rmdir] of an empty one. *)
Definition below (q p : PathBuf) : bool := bool_decide (q `prefix_of` p) && negb (bool_decide (p = q)).
Definition remove_below (q : PathBuf) (fs : Fs) : Fs := filter (fun kv => below q kv.1 = false) fs.
Definition rmdir (p : PathBuf) (fs : Fs) : result unit Errno * Fs :=
  match walk fs false p with
  | Err e => (Err e, fs)
  | Ok q =>
      if bool_decide (q = []) then (Err EBUSY, fs)
      else if stays (last_seg p) then (Err EINVAL, fs)
      else if bool_decide (last_seg p = DOTDOT) then (Err ENOTEMPTY, fs)
      else
        match kind_at fs q with
        | Some KDir =>
            if bool_decide (map_Forall (fun p _ => below q p = false) fs)
            then (Ok tt, delete q fs) else (Err ENOTEMPTY, fs)
        | Some _ => (Err ENOTDIR, fs)
        | None => (Err ENOENT, fs)
        end
  end.

(** [fs::remove_dir_all]: the contents first, then the directory itself; a
    link is removed, not followed. *)
Definition remove_dir_all (p : PathBuf) (fs : Fs) : result unit Errno * Fs :=
  match walk fs false p with
  | Err e => (Err e, fs)
  | Ok q =>
      match kind_at fs q with
      | None => (Err ENOENT, fs)
      | Some (KSymlink _) => remove_file p fs
      | Some KDir => rmdir p (remove_below q fs)
      | Some _ => (Err ENOTDIR, fs)
      end
  end.

(** [fs::create_dir_all]: the loop of [DirBuilder], from the path up. *)
Fixpoint create_dirs (fuel : nat) (mode : Z) (p : PathBuf) (fs : Fs) : result unit Errno * Fs :=
  let try_again fs :=
    match mkdir mode p fs with
    | (Err e, fs) => if is_dir fs p then (Ok tt, fs) else (Err e, fs)
    | made => made
    end in
  match mkdir mode p fs with
  | (Err ENOENT, fs) =>
      match fuel, parent p with
      | S fuel, Some up =>
          match create_dirs fuel mode up fs with
          | (Ok _, fs) => try_again fs
          | failed => failed
          end
      | _, _ => (Err ENOENT, fs)
      end
  | (Err e, fs) => if is_dir fs p then (Ok tt, fs) else (Err e, fs)
  | made => made
  end.
Definition create_dir_all (mode : Z) (p : PathBuf) (fs : Fs) : result unit Errno * Fs :=
  create_dirs (length p) mode p fs.
End FileSys.
