(* ===== verification/FileSysFacts.v ===== *)
(** * FileSysFacts: the calls keep a tree, and where they act

    A file system is a tree when the root is a directory and every other node
    lies in one. On a path without links and dots the kernel's walk ends at
    that very path, so a call acts there and nowhere else. *)

From S2P Require Import Prelude RustStr FileSys.

Module FileSysFacts.
Import Str Path FileSys.

Definition tree_ok (fs : Fs) : Prop :=
  dir_at fs [] /\ forall p seg, is_Some (fs !! (p ++ [seg])) -> dir_at fs p.

(** A segment the walk looks up by name. *)
Definition plain (seg : bytes) : Prop := stays seg = false /\ seg <> DOTDOT.
(** A path with a NUL byte cannot be handed to the kernel. *)
Definition has_nul (p : PathBuf) : bool := existsb (contains 0) p.
(** No link on the way, as far as the kernel can be asked. *)
Definition clear (fs : Fs) (p : PathBuf) : Prop :=
  forall i, has_nul (take i p) = false -> is_symlink fs (take i p) = false.

Lemma has_nul_app p q : has_nul (p ++ q) = has_nul p || has_nul q.
Proof. apply existsb_app. Qed.
Lemma has_nul_take p i : has_nul p = false -> has_nul (take i p) = false.
Proof. rewrite <- (take_drop i p) at 1. rewrite has_nul_app, orb_false_iff. tauto. Qed.

Lemma kind_at_Some fs p n : fs !! p = Some n -> kind_at fs p = Some (kind n).
Proof. unfold kind_at. by intros ->. Qed.

Lemma dir_at_node fs p : dir_at fs p -> exists n, fs !! p = Some n /\ kind n = KDir.
Proof. unfold dir_at, kind_at. destruct (fs !! p) as [n|]; simpl; [|done]. intros [= Hk]. by exists n. Qed.

Lemma kind_at_is_Some fs p k : kind_at fs p = Some k -> is_Some (fs !! p).
Proof. unfold kind_at. destruct (fs !! p); [by eexists|done]. Qed.

Lemma dir_not_symlink fs p : dir_at fs p -> is_symlink fs p = false.
Proof. unfold dir_at, is_symlink. by intros ->. Qed.

Lemma kind_at_insert fs q n p : kind_at (<[q := n]> fs) p = if bool_decide (q = p) then Some (kind n) else kind_at fs p.
Proof.
  unfold kind_at. destruct (decide (q = p)) as [->|Hne].
  - rewrite lookup_insert_eq, bool_decide_eq_true_2 by done. done.
  - rewrite lookup_insert_ne, bool_decide_eq_false_2 by done. done.
Qed.

Lemma tree_prefix fs p q : tree_ok fs -> is_Some (fs !! (p ++ q)) -> q <> [] -> dir_at fs p.
Proof.
  intros [Hr Ht]. induction q as [|x q IH] using rev_ind; [done|].
  intros Hs _. rewrite app_assoc in Hs. apply Ht in Hs. destruct q as [|y q]; [by rewrite app_nil_r in Hs|].
  apply IH; [by eapply kind_at_is_Some|done].
Qed.

Lemma dir_not_None fs p : dir_at fs p -> fs !! p = None -> False.
Proof. intros (n & Hn & _)%dir_at_node. congruence. Qed.

Lemma dir_prefix fs p r : tree_ok fs -> dir_at fs p -> r `prefix_of` p -> dir_at fs r.
Proof.
  intros Ht Hd [k ->]. destruct k as [|y k]; [by rewrite app_nil_r in Hd|].
  eapply (tree_prefix _ _ (y :: k)); [done|by eapply kind_at_is_Some|done].
Qed.

Lemma tree_removelast fs p : tree_ok fs -> dir_at fs p -> dir_at fs (removelast p).
Proof.
  intros Ht Hd. destruct p as [|x p] using rev_ind; [done|].
  rewrite removelast_last. eapply tree_prefix; [done|by eapply kind_at_is_Some|done].
Qed.

(** A tree's node has only directories above it. *)
Lemma clear_dir fs p : tree_ok fs -> dir_at fs p -> clear fs p.
Proof.
  intros Ht Hd i _. apply dir_not_symlink. eapply dir_prefix; [done|done|]. apply prefix_take.
Qed.

Lemma clear_app fs p q : clear fs (p ++ q) -> clear fs p.
Proof.
  intros Hc i. destruct (decide (i <= length p)%nat) as [Hi|Hi].
  - rewrite <- (take_app_le p q i) by lia. apply Hc.
  - rewrite take_ge by lia. rewrite <- (take_app_length p q). apply Hc.
Qed.

Lemma clear_snoc fs p x :
  clear fs p -> (has_nul (p ++ [x]) = false -> is_symlink fs (p ++ [x]) = false) -> clear fs (p ++ [x]).
Proof.
  intros Hc Hx i. destruct (decide (i <= length p)%nat).
  - rewrite take_app_le by lia. apply Hc.
  - rewrite take_ge by (rewrite length_app; simpl; lia). done.
Qed.

(** Links gone or never made: a clear path stays clear. *)
Lemma clear_mono fs fs' p :
  (forall q, is_symlink fs' q = true -> is_symlink fs q = true) -> clear fs p -> clear fs' p.
Proof.
  intros Hm Hc i Hn. destruct (is_symlink fs' (take i p)) eqn:E; [|done].
  apply Hm in E. by rewrite Hc in E.
Qed.

(** ** The walk *)

Lemma resolve_cons links fs f cur seg rest :
  resolve links fs f cur (seg :: rest) =
    if stays seg then resolve links fs f cur rest
    else if bool_decide (seg = DOTDOT) then resolve links fs f (removelast cur) rest
    else
      match kind_at fs (cur ++ [seg]) with
      | None => match rest with [] => Ok (cur ++ [seg]) | _ => Err ENOENT end
      | Some KDir => resolve links fs f (cur ++ [seg]) rest
      | Some (KSymlink target) =>
          if negb f && bool_decide (rest = []) then Ok (cur ++ [seg])
          else
            match links with
            | O => Err ELOOP
            | S links => resolve links fs f (if is_absolute target then [] else cur) (split 47 target ++ rest)
            end
      | Some _ => match rest with [] => Ok (cur ++ [seg]) | _ => Err ENOTDIR end
      end.
Proof. by destruct links. Qed.
Lemma resolve_nil links fs f cur : resolve links fs f cur [] = Ok cur.
Proof. by destruct links. Qed.

(** The walk ends at the root or inside a directory. *)
Lemma resolve_located links fs f cur segs q :
  tree_ok fs -> dir_at fs cur -> resolve links fs f cur segs = Ok q -> dir_at fs (removelast q).
Proof.
  intros Ht. revert cur segs. induction links as [|links IHl]; intros cur segs; revert cur;
    induction segs as [|seg rest IH]; intros cur Hd.
  all: try (rewrite resolve_nil; intros [= <-]; by apply tree_removelast).
  all: rewrite resolve_cons; case_match; [by apply IH|]; case_bool_decide;
    [by apply IH, tree_removelast|].
  all: destruct (kind_at fs (cur ++ [seg])) as [[| | | |]|] eqn:Ek; try done.
  all: try (by apply IH).
  all: try (destruct rest; [intros [= <-]; by rewrite removelast_last|done]).
  all: destruct (negb f && bool_decide (rest = [])); try (intros [= <-]; by rewrite removelast_last); try done.
  apply IHl. destruct (is_absolute _); [apply Ht|done].
Qed.

Lemma walk_located fs f p q : tree_ok fs -> walk fs f p = Ok q -> dir_at fs (removelast q).
Proof. intros Ht. unfold walk. case_match; [done|]. by apply resolve_located; [|apply Ht]. Qed.

(** Names without links on the way are looked up one by one. *)
Lemma resolve_clear links fs f cur names rest :
  Forall plain names -> (forall i, (i <= length names)%nat -> is_symlink fs (cur ++ take i names) = false) ->
  resolve links fs f cur (names ++ rest) = resolve links fs f (cur ++ names) rest
  \/ exists e, resolve links fs f cur (names ++ rest) = Err e.
Proof.
  intros Hp. revert cur. induction Hp as [|x names [Hx Hd] Hp IH]; intros cur Hc.
  { left. by rewrite app_nil_r. }
  rewrite <- app_comm_cons, resolve_cons, Hx, bool_decide_eq_false_2 by done.
  pose proof (Hc 1%nat ltac:(simpl; lia)) as H1. simpl in H1. rewrite take_0 in H1. unfold is_symlink in H1.
  assert (forall k, resolve links fs f (cur ++ [x]) (names ++ rest) = k ->
            k = resolve links fs f (cur ++ x :: names) rest \/ exists e, k = Err e) as Hgo.
  { intros k <-. destruct (IH (cur ++ [x])) as [H'|H']; [|left|by right].
    - intros i Hi. rewrite <- app_assoc. apply (Hc (S i)). simpl. lia.
    - by rewrite H', <- app_assoc. }
  destruct (kind_at fs (cur ++ [x])) as [[| | | |]|] eqn:Ek; try done; try (by apply Hgo).
  all: destruct names as [|y names]; simpl; [|by right; eexists].
  all: destruct rest; [left; by rewrite resolve_nil|by right; eexists].
Qed.

Lemma walk_clear fs f p rest :
  Forall plain p -> clear fs p -> has_nul (p ++ rest) = false ->
  walk fs f (p ++ rest) = resolve MAXSYMLINKS fs f p rest \/ exists e, walk fs f (p ++ rest) = Err e.
Proof.
  intros Hp Hc Hn. unfold walk. fold (has_nul (p ++ rest)). rewrite Hn.
  apply resolve_clear; [done|]. intros i _. apply Hc, has_nul_take. rewrite has_nul_app in Hn.
  by apply orb_false_iff in Hn as [? _].
Qed.

Lemma walk_plain fs f p q : Forall plain p -> clear fs p -> walk fs f p = Ok q -> q = p.
Proof.
  intros Hp Hc Hw. destruct (has_nul p) eqn:En; [by unfold walk, has_nul in *; rewrite En in Hw|].
  destruct (walk_clear fs f p []) as [H|[e H]]; rewrite ?app_nil_r in *; try done;
    rewrite ?resolve_nil in H; congruence.
Qed.

(** One more segment, whatever it is. *)
Lemma walk_last fs p x q :
  Forall plain p -> clear fs p -> walk fs false (p ++ [x]) = Ok q ->
  q = (if stays x then p else if bool_decide (x = DOTDOT) then removelast p else p ++ [x]).
Proof.
  intros Hp Hc Hw. destruct (has_nul (p ++ [x])) eqn:En; [by unfold walk, has_nul in *; rewrite En in Hw|].
  destruct (walk_clear fs false p [x]) as [H|[e H]]; try done; rewrite H in Hw; [|done].
  rewrite resolve_cons, !resolve_nil in Hw. destruct (stays x); [congruence|].
  case_bool_decide; [congruence|].
  destruct (kind_at fs (p ++ [x])) as [[| | | |]|]; rewrite ?resolve_nil in Hw; simpl in Hw; congruence.
Qed.

(** A node of a tree is found under its own path. *)
Lemma resolve_dirs links fs f cur names rest :
  Forall plain names -> (forall i, (i <= length names)%nat -> dir_at fs (cur ++ take i names)) ->
  resolve links fs f cur (names ++ rest) = resolve links fs f (cur ++ names) rest.
Proof.
  intros Hp. revert cur. induction Hp as [|x names [Hx Hd] Hp IH]; intros cur Hc; [by rewrite app_nil_r|].
  rewrite <- app_comm_cons, resolve_cons, Hx, bool_decide_eq_false_2 by done.
  pose proof (Hc 1%nat ltac:(simpl; lia)) as H1. simpl in H1. rewrite take_0 in H1. unfold dir_at in H1.
  rewrite H1, IH, <- app_assoc; [done|]. intros i Hi. rewrite <- app_assoc. apply (Hc (S i)). simpl. lia.
Qed.

(** A path as the kernel can be handed one: plain names without NUL. *)
Definition good (p : PathBuf) : Prop := Forall plain p /\ has_nul p = false.

Lemma good_app p q : good (p ++ q) <-> good p /\ good q.
Proof. unfold good. rewrite Forall_app, has_nul_app, orb_false_iff. tauto. Qed.

Lemma walk_node fs f p n :
  tree_ok fs -> good p -> fs !! p = Some n -> (f = true -> is_symlink fs p = false) -> walk fs f p = Ok p.
Proof.
  intros Ht [Hp Hn] Hl Hf. unfold walk, has_nul in *. rewrite Hn.
  destruct p as [|x p _] using rev_ind; [done|].
  apply Forall_app in Hp as [Hp [[Hx Hd] _]%Forall_cons]. 
  rewrite resolve_dirs; [|done|].
  - rewrite app_nil_l, resolve_cons, Hx, bool_decide_eq_false_2 by done. rewrite resolve_nil.
    rewrite (kind_at_Some _ _ _ Hl). destruct (kind n) eqn:Ek; try done.
    destruct f; [|done]. specialize (Hf eq_refl). unfold is_symlink in Hf.
    by rewrite (kind_at_Some _ _ _ Hl), Ek in Hf.
  - intros i Hi. simpl. eapply (tree_prefix _ _ (drop i p ++ [x])); [done| |by destruct (drop i p)].
    rewrite app_assoc, take_drop. by eexists.
Qed.

Lemma walk_dir fs f p : tree_ok fs -> good p -> dir_at fs p -> walk fs f p = Ok p.
Proof.
  intros Ht Hg Hd. destruct (dir_at_node _ _ Hd) as (n & Hn & _).
  eapply walk_node; [done|done|done|]. intros _. by apply dir_not_symlink.
Qed.

(** ** What a call leaves alone *)

(** [fs'] is a tree that differs from [fs] at most at and below [dest]. *)
Definition inside (dest : PathBuf) (fs fs' : Fs) : Prop :=
  tree_ok fs' /\ dir_at fs' dest /\ forall r, ~ dest `prefix_of` r -> fs' !! r = fs !! r.

Lemma inside_refl dest fs : tree_ok fs -> dir_at fs dest -> inside dest fs fs.
Proof. done. Qed.
Lemma inside_trans dest a b c : inside dest a b -> inside dest b c -> inside dest a c.
Proof. intros (_ & _ & H1) (? & ? & H2). split_and!; [done..|]. intros r Hr. by rewrite H2, H1. Qed.

(** A node put where no directory is. *)
Lemma tree_put fs q n :
  tree_ok fs -> ~ dir_at fs q -> dir_at fs (removelast q) -> tree_ok (<[q := n]> fs).
Proof.
  intros [Hr Ht] Hq Hd. assert (forall p, dir_at fs p -> dir_at (<[q := n]> fs) p) as Hk.
  { intros p Hp. unfold dir_at. rewrite kind_at_insert. case_bool_decide; [|done]. by subst. }
  split; [by apply Hk|]. intros p seg. destruct (decide (q = p ++ [seg])) as [->|Hne].
  - intros _. apply Hk. by rewrite removelast_last in Hd.
  - rewrite lookup_insert_ne by done. intros Hs. apply Hk. by eapply Ht.
Qed.

Lemma tree_update fs q n n' :
  tree_ok fs -> fs !! q = Some n -> kind n' = kind n -> tree_ok (<[q := n']> fs).
Proof.
  intros [Hr Ht] Hq Hk. assert (forall p, kind_at (<[q := n']> fs) p = kind_at fs p) as Hsame.
  { intros p. rewrite kind_at_insert. case_bool_decide; [|done]. subst. by rewrite Hk, (kind_at_Some _ _ _ Hq). }
  split; [unfold dir_at; by rewrite Hsame|]. intros p seg Hs. unfold dir_at. rewrite Hsame.
  apply (Ht p seg). destruct (decide (q = p ++ [seg])) as [->|]; [by eexists|].
  by rewrite lookup_insert_ne in Hs.
Qed.

Lemma tree_delete fs q :
  tree_ok fs -> q <> [] -> (forall seg, fs !! (q ++ [seg]) = None) -> tree_ok (delete q fs).
Proof.
  intros [Hr Ht] Hq Hc. assert (forall p, p <> q -> dir_at fs p -> dir_at (delete q fs) p) as Hk.
  { intros p Hp. unfold dir_at, kind_at. by rewrite lookup_delete_ne by done. }
  split; [by apply Hk|]. intros p seg [n Hn]. rewrite lookup_delete_Some in Hn. destruct Hn as [_ Hn].
  apply Hk; [|by apply (Ht p seg)]. intros ->. by rewrite Hc in Hn.
Qed.

Lemma remove_below_lookup fs q r : below q r = false -> remove_below q fs !! r = fs !! r.
Proof.
  intros Hb. unfold remove_below. destruct (fs !! r) as [n|] eqn:E.
  - by apply map_lookup_filter_Some.
  - apply map_lookup_filter_None. by left.
Qed.

Lemma tree_remove_below fs q : tree_ok fs -> tree_ok (remove_below q fs).
Proof.
  intros [Hr Ht]. assert (forall p, below q p = false -> dir_at fs p -> dir_at (remove_below q fs) p) as Hk.
  { intros p Hp. unfold dir_at, kind_at. by rewrite remove_below_lookup. }
  split; [apply Hk; [|done]|].
  - unfold below. repeat case_bool_decide; try done. by destruct H as [k ?], q.
  - intros p seg [n Hn]. apply map_lookup_filter_Some in Hn as [Hn Hb]. simpl in Hb.
    apply Hk; [|by apply (Ht p seg)]. unfold below in *.
    destruct (decide (q `prefix_of` p)) as [Hp|Hp]; [|by rewrite (bool_decide_eq_false_2 (q `prefix_of` p))].
    rewrite bool_decide_eq_true_2, andb_true_l in Hb by (by apply prefix_app_r).
    apply negb_false_iff, bool_decide_eq_true_1 in Hb. exfalso. subst q.
    apply prefix_length in Hp. rewrite length_app in Hp. simpl in Hp. lia.
Qed.

(** Where a call on [p] that does not follow a final link acts. *)
Definition target_in (fs : Fs) (dest p : PathBuf) : Prop :=
  forall q, walk fs false p = Ok q -> dest `prefix_of` q /\ (plain (last_seg p) -> q <> dest).

Section Inside.
Context (dest : PathBuf) (fs : Fs) (Ht : tree_ok fs) (Hd : dir_at fs dest).

Lemma inside_insert q n :
  dest `prefix_of` q -> tree_ok (<[q := n]> fs) -> (q = dest -> kind n = KDir) -> inside dest fs (<[q := n]> fs).
Proof using Hd.
  intros Hq Hq' Hn. split_and!; [done| |].
  - unfold dir_at. rewrite kind_at_insert. case_bool_decide; [by rewrite Hn|done].
  - intros r Hr. apply lookup_insert_ne. by intros ->.
Qed.

Lemma inside_delete q :
  dest `prefix_of` q -> q <> dest -> tree_ok (delete q fs) -> inside dest fs (delete q fs).
Proof using Hd.
  intros Hq Hne Hq'. split_and!; [done| |].
  - unfold dir_at, kind_at. by rewrite lookup_delete_ne by done.
  - intros r Hr. apply lookup_delete_ne. by intros ->.
Qed.

Lemma make_inside n p :
  (forall q, walk fs false p = Ok q -> dest `prefix_of` q) -> inside dest fs (make n p fs).2.
Proof using Hd Ht.
  intros Hin. unfold make. destruct (walk fs false p) as [q|e] eqn:Ew; [|done].
  destruct (fs !! q) eqn:Eq; [done|]. apply inside_insert; [by apply Hin| |].
  - apply tree_put; [done|intros Hq; by apply (dir_not_None _ _ Hq)|by eapply walk_located].
  - intros ->. by destruct (dir_not_None _ _ Hd).
Qed.

Lemma change_inside f p :
  (forall n, kind (f n) = kind n) -> (forall q, walk fs true p = Ok q -> dest `prefix_of` q) ->
  inside dest fs (change f p fs).2.
Proof using Hd Ht.
  intros Hf Hin. unfold change. destruct (walk fs true p) as [q|e]; [|done].
  destruct (fs !! q) as [n|] eqn:Eq; [|done]. apply inside_insert; [by apply Hin|by eapply tree_update|].
  intros ->. apply dir_at_node in Hd as (? & ? & ?). rewrite Hf. congruence.
Qed.

Lemma remove_file_inside p :
  (forall q, walk fs false p = Ok q -> dest `prefix_of` q) -> inside dest fs (remove_file p fs).2.
Proof using Hd Ht.
  intros Hin. unfold remove_file. destruct (walk fs false p) as [q|e] eqn:Ew; [|done].
  destruct (kind_at fs q) as [k|] eqn:Ek; [|done].
  assert (k <> KDir -> inside dest fs (delete q fs)) as Hdel.
  { intros Hk. apply inside_delete; [by apply Hin|intros ->; unfold dir_at in Hd; congruence|].
    apply tree_delete; [done| |].
    - intros ->. destruct Ht as [Hr _]. unfold dir_at in Hr. congruence.
    - intros seg. destruct (fs !! (q ++ [seg])) eqn:E; [|done].
      destruct Ht as [_ Hc]. pose proof (Hc q seg ltac:(by eexists)) as Hq. unfold dir_at in Hq. congruence. }
  destruct k; try done; by apply Hdel.
Qed.

Lemma rmdir_inside p : target_in fs dest p -> inside dest fs (rmdir p fs).2.
Proof using Hd Ht.
  intros Hin. unfold rmdir. destruct (walk fs false p) as [q|e] eqn:Ew; [|done].
  case_bool_decide as Hq; [done|]. destruct (stays (last_seg p)) eqn:Es; [done|].
  case_bool_decide as Hdd; [done|]. destruct (kind_at fs q) as [[]|]; try done.
  case_bool_decide as He; [|done]. destruct (Hin q Ew) as [Hp Hne]. simpl.
  apply inside_delete; [done|by apply Hne|]. apply tree_delete; [done|done|].
  intros seg. destruct (fs !! (q ++ [seg])) eqn:E; [|done]. apply He in E. unfold below in E.
  rewrite bool_decide_eq_true_2, bool_decide_eq_false_2 in E; [done| |by eexists].
  intros Hl%(f_equal length). rewrite length_app in Hl. simpl in Hl. lia.
Qed.

Lemma remove_below_inside q : dest `prefix_of` q -> inside dest fs (remove_below q fs).
Proof using Hd Ht.
  intros Hq. split_and!; [by apply tree_remove_below| |].
  - unfold dir_at, kind_at. rewrite remove_below_lookup; [done|]. unfold below.
    case_bool_decide as Hqd; [|done]. rewrite bool_decide_eq_true_2; [done|]. by apply (anti_symm prefix).
  - intros r Hr. apply remove_below_lookup. unfold below. case_bool_decide; [|done].
    exfalso. apply Hr. by etrans.
Qed.

(** A path without links stays one when nodes go away. *)
Lemma remove_below_clear q p : clear fs p -> clear (remove_below q fs) p.
Proof using.
  apply clear_mono. intros r. unfold is_symlink, kind_at, remove_below.
  destruct (filter _ fs !! r) eqn:E; [|done]. apply map_lookup_filter_Some in E as [-> _]. done.
Qed.
End Inside.

Lemma remove_file_clear fs q p : clear fs p -> clear (remove_file q fs).2 p.
Proof.
  apply clear_mono. intros r. unfold remove_file. destruct (walk fs false q); [|done].
  destruct (kind_at fs v) as [[]|]; try done; simpl; unfold is_symlink, kind_at;
    (destruct (decide (v = r)) as [->|]; [by rewrite lookup_delete_eq|by rewrite lookup_delete_ne by done]).
Qed.
End FileSysFacts.
