(* ===== verification/OciLayer.v ===== *)
(** * OciLayer: extraction of an image layer (crates/smolvm-oci-layer)

    One OCI layer blob becomes a directory overlayfs can use as a lower layer.
    The code runs as root on the host, on archives anybody may have built. The
    tar crate and the decompressors are interfaces: [archive] gives the
    entries of a stream, [unpack_in] extracts one of them. *)

From S2P Require Import Prelude RustStr FileSys.

Module OciLayer.
Import Str Path FileSys.

Definition WHITEOUT_PREFIX : bytes := bs ".wh.".
Definition OPAQUE_WHITEOUT : bytes := bs ".wh..wh..opq".

Inductive LayerEntry := OpaqueDir | Whiteout (name : bytes) | NormalEntry.

Definition classify_layer_entry (file_name : bytes) : LayerEntry :=
  if bool_decide (file_name = OPAQUE_WHITEOUT) then OpaqueDir
  else
    match strip_prefix WHITEOUT_PREFIX file_name with
    | Some name => if negb (is_empty name) then Whiteout name else NormalEntry
    | None => NormalEntry
    end.

(** [jailed_join]: [out] grows by one component at a time. *)
Fixpoint jail_from (fs : Fs) (out : PathBuf) (cs : list Component) : option PathBuf :=
  match cs with
  | [] => Some out
  | Normal part :: cs =>
      let out := join out part in
      match symlink_metadata fs out with
      | Ok md => match kind md with KSymlink _ => None | _ => jail_from fs out cs end
      | Err _ => jail_from fs out cs
      end
  | CurDir :: cs => jail_from fs out cs
  | (ParentDir | RootDir) :: _ => None
  end.
Definition jailed_join (fs : Fs) (base : PathBuf) (rel : bytes) : option PathBuf :=
  jail_from fs base (components rel).

Definition create_overlay_whiteout (path : PathBuf) (fs : Fs) : result unit Errno * Fs :=
  let fs := (remove_file path fs).2 in
  let fs := (remove_dir_all path fs).2 in
  mknod_whiteout path fs.
Definition set_overlay_opaque (dir : PathBuf) : Fs -> result unit Errno * Fs := setxattr_opaque dir.

Definition SENTINELS : list bytes := [bs "agent-rootfs.tar"; bs "storage.ext4"].
Definition is_cur_dir (c : Component) : bool := match c with CurDir => true | _ => false end.
Definition pack_sidecar_sentinel (path : bytes) : option bytes :=
  match List.filter (fun c => negb (is_cur_dir c)) (components path) with
  | [Normal name] => List.find (fun s => bool_decide (name = s)) SENTINELS
  | _ => None
  end.

(** ** Archive entries *)

Inductive EntryType := Regular | Link | Symlink | Directory | Continuous | GNUSparse | OtherType (code : Z).
#[export] Instance EntryType_eq_dec : EqDecision EntryType.
Proof. solve_decision. Defined.

Inductive IoError :=
| Os (e : Errno)
| Stream (code : Z)  (* a failed read or a damaged archive *)
| IsPack (sentinel : bytes)
| UnpackFailed (path : bytes) (e : Errno).

Record Entry := MkEntry {
  e_path : result bytes IoError;
  entry_type : EntryType;
  link_name : result (option bytes) IoError;
  e_size : option Z;
  e_mode : Z;
  e_data : bytes;
}.

(** A reader delivers chunks; an empty one is its end. *)
Definition Reader : Type := list (result bytes IoError).

(** The crates the extraction calls: decompressors, and [tar] with
    preserved permissions and overwriting. *)
Class LayerCrates := {
  gunzip : Reader -> Reader;
  unzstd : Reader -> result Reader IoError;
  archive : Reader -> list (result Entry IoError);
  unpack_in : Entry -> PathBuf -> Fs -> result unit Errno * Fs;
}.

(** ** Decompression by magic *)

(** The first four bytes, across short reads. *)
Fixpoint peek (n : nat) (r : Reader) (acc : bytes) : result (bytes * Reader) IoError :=
  match r with
  | Err e :: _ => match n with O => Ok (acc, r) | _ => Err e end
  | Ok chunk :: r' =>
      match n, chunk with
      | O, _ => Ok (acc, r)
      | _, [] => Ok (acc, r)
      | _, _ =>
          if (length chunk <=? n)%nat then peek (n - length chunk) r' (acc ++ chunk)
          else Ok (acc ++ take n chunk, Ok (drop n chunk) :: r')
      end
  | [] => Ok (acc, r)
  end.

(** [Cursor::chain]: the peeked bytes in front of the rest. *)
Definition chain (magic : bytes) (inner : Reader) : Reader :=
  match magic with [] => inner | _ => Ok magic :: inner end.

Section Extract.
Context `{LayerCrates}.
(** The mode of a directory [create_dir_all] makes. *)
Context (dir_mode : Z).

Definition decompress_layer_reader (inner : Reader) : result Reader IoError :=
  match peek 4 inner [] with
  | Err e => Err e
  | Ok (magic, inner) =>
      let stream := chain magic inner in
      let n := Z.of_nat (length magic) in
      if (n >=? 2) && bool_decide (take 2 magic = [0x1f; 0x8b]) then Ok (gunzip stream)
      else if (n >=? 4) && bool_decide (magic = [0x28; 0xb5; 0x2f; 0xfd]) then unzstd stream
      else Ok stream
  end.

(** ** The loop over the entries *)

Record Extract := MkExtract {
  x_fs : Fs;
  checked_parents : gset PathBuf;
  relaxed_parents : gmap PathBuf Z;
  logical_bytes : Z;
}.
Definition with_fs (fs : Fs) (x : Extract) : Extract :=
  MkExtract fs (checked_parents x) (relaxed_parents x) (logical_bytes x).
(** A call of [std::fs] with [?]. *)
Definition io (r : result unit Errno * Fs) (x : Extract) : result unit IoError * Extract :=
  (match r.1 with Ok _ => Ok tt | Err e => Err (Os e) end, with_fs r.2 x).

(** A marker: its parent is made, then [f] is done there. *)
Definition at_parent (f : PathBuf -> Fs -> result unit Errno * Fs) (full_path : PathBuf) (fs : Fs) :
    result unit Errno * Fs :=
  match parent full_path with
  | None => (Ok tt, fs)
  | Some up =>
      match create_dir_all dir_mode up fs with
      | (Ok _, fs) => f up fs
      | failed => failed
      end
  end.

(** A hard link whose target is not in this layer is left out. *)
Definition missing_target (dest : PathBuf) (e : Entry) (fs : Fs) : result bool IoError :=
  if bool_decide (entry_type e = Link) then
    let? link := link_name e in
    Ok (match (let! link := link in jailed_join fs dest link) with
        | Some target => negb (exists_ fs target)
        | None => true
        end)
  else Ok false.

(** 0o300 and 0o700. *)
Definition OWNER_WX : Z := 0xC0.
Definition OWNER_RWX : Z := 0x1C0.

(** The parent is made writable once. *)
Definition relax (full_path : PathBuf) (x : Extract) : result unit IoError * Extract :=
  match parent full_path with
  | None => (Ok tt, x)
  | Some up =>
      if bool_decide (up ∈ checked_parents x) then (Ok tt, x)
      else
        let x := MkExtract (x_fs x) ({[up]} ∪ checked_parents x) (relaxed_parents x) (logical_bytes x) in
        match symlink_metadata (x_fs x) up with
        | Ok (MkNode KDir mode _) =>
            if Z.land mode OWNER_WX =? OWNER_WX then (Ok tt, x)
            else
              match set_permissions (Z.lor mode OWNER_RWX) up (x_fs x) with
              | (Err e, fs) => (Err (Os e), with_fs fs x)
              | (Ok _, fs) =>
                  (Ok tt, MkExtract fs (checked_parents x) (<[up := mode]> (relaxed_parents x)) (logical_bytes x))
              end
        | _ => (Ok tt, x)
        end
  end.

Definition carries_bytes (t : EntryType) : bool :=
  match t with Regular | GNUSparse | Continuous => true | _ => false end.

Definition unpack (dest : PathBuf) (path : bytes) (e : Entry) (x : Extract) : result unit IoError * Extract :=
  match unpack_in e dest (x_fs x) with
  | (Err err, fs) =>
      (if carries_bytes (entry_type e) || bool_decide (entry_type e = Directory)
       then Err (UnpackFailed path err) else Ok tt, with_fs fs x)
  | (Ok _, fs) =>
      (Ok tt, MkExtract fs (checked_parents x) (relaxed_parents x)
         (if carries_bytes (entry_type e)
          then saturating_add 64 (logical_bytes x) (default 0 (e_size e)) else logical_bytes x))
  end.

(** A directory entry declares its mode anew. *)
Definition forget_directory (full_path : PathBuf) (e : Entry) (x : Extract) : Extract :=
  if bool_decide (entry_type e = Directory)
  then MkExtract (x_fs x) (checked_parents x ∖ {[full_path]}) (delete full_path (relaxed_parents x)) (logical_bytes x)
  else x.

Definition extract_normal (dest : PathBuf) (path : bytes) (full_path : PathBuf) (e : Entry) (x : Extract) :
    result unit IoError * Extract :=
  match missing_target dest e (x_fs x) with
  | Err err => (Err err, x)
  | Ok true => (Ok tt, x)
  | Ok false =>
      match relax full_path x with
      | (Ok _, x) =>
          match unpack dest path e x with
          | (Ok _, x) => (Ok tt, forget_directory full_path e x)
          | failed => failed
          end
      | failed => failed
      end
  end.

Definition extract_entry (dest : PathBuf) (entry : result Entry IoError) (x : Extract) :
    result unit IoError * Extract :=
  match (let? e := entry in let? path := e_path e in Ok (e, path)) with
  | Err err => (Err err, x)
  | Ok (e, path) =>
      match pack_sidecar_sentinel path with
      | Some sentinel => (Err (IsPack sentinel), x)
      | None =>
          match jailed_join (x_fs x) dest path with
          | None => (Ok tt, x)
          | Some full_path =>
              match (let! name := file_name path in let! name := from_utf8 name in Some (classify_layer_entry name)) with
              | Some OpaqueDir => io (at_parent set_overlay_opaque full_path (x_fs x)) x
              | Some (Whiteout removed) =>
                  io (at_parent (fun up => create_overlay_whiteout (join up removed)) full_path (x_fs x)) x
              | _ => extract_normal dest path full_path e x
              end
          end
      end
  end.

Fixpoint extract_entries (dest : PathBuf) (entries : list (result Entry IoError)) (x : Extract) :
    result unit IoError * Extract :=
  match entries with
  | [] => (Ok tt, x)
  | entry :: entries =>
      match extract_entry dest entry x with
      | (Ok _, x) => extract_entries dest entries x
      | failed => failed
      end
  end.

(** Relaxed directories get their modes back, the deepest first. *)
Definition deeper (a b : PathBuf * Z) : Prop := (length b.1 <= length a.1)%nat.
#[export] Instance deeper_dec : RelDecision deeper := fun a b => decide (length b.1 <= length a.1)%nat.
Fixpoint restore_modes (relaxed : list (PathBuf * Z)) (fs : Fs) : result unit Errno * Fs :=
  match relaxed with
  | [] => (Ok tt, fs)
  | (path, mode) :: relaxed =>
      match set_permissions mode path fs with
      | (Ok _, fs) => restore_modes relaxed fs
      | failed => failed
      end
  end.

(** The extraction of the entries of an archive. *)
Definition extract_archive (dest : PathBuf) (entries : list (result Entry IoError)) (fs : Fs) :
    result Z IoError * Fs :=
  match extract_entries dest entries (MkExtract fs ∅ ∅ 0) with
  | (Err err, x) => (Err err, x_fs x)
  | (Ok _, x) =>
      match restore_modes (merge_sort deeper (map_to_list (relaxed_parents x))) (x_fs x) with
      | (Err e, fs) => (Err (Os e), fs)
      | (Ok _, fs) => (Ok (logical_bytes x), fs)
      end
  end.

Definition extract_oci_layer_with_size (reader : Reader) (dest : PathBuf) (fs : Fs) : result Z IoError * Fs :=
  match decompress_layer_reader reader with
  | Err e => (Err e, fs)
  | Ok stream => extract_archive dest (archive stream) fs
  end.
Definition extract_oci_layer (reader : Reader) (dest : PathBuf) (fs : Fs) : result unit IoError * Fs :=
  let '(r, fs) := extract_oci_layer_with_size reader dest fs in
  (let? _ := r in Ok tt, fs).
End Extract.
End OciLayer.
