(* ===== verification/OciLayerFacts.v ===== *)
(** * OciLayerFacts: where each step of an extraction acts

    The jail, each file-system step and the loop over the entries stay inside
    the layer's directory; what a marker makes, exactly. *)

From S2P Require Import Prelude RustStr FileSys FileSysFacts OciLayer.

Module OciFacts.
Import Str StrPrefix Path FileSys FileSysFacts OciLayer.

(** The names of a relative path. *)
Definition normals (cs : list Component) : list bytes :=
  omap (fun c => match c with Normal part => Some part | _ => None end) cs.

Lemma body_plain segs part : Normal part ∈ body segs -> plain part.
Proof.
  induction segs as [|seg segs IH]; simpl; [by intros ?%elem_of_nil|].
  destruct (is_empty seg || _) eqn:E; [done|]. intros [Hp|Hp]%elem_of_cons; [|by apply IH].
  case_bool_decide; [done|]. injection Hp as ->. split; [exact E|done].
Qed.

Lemma components_plain p : Forall plain (normals (components p)).
Proof.
  apply Forall_forall. intros part Hp. unfold normals in Hp.
  apply list_elem_of_omap in Hp as ([| | |part'] & Hc & [= ->]). unfold components in Hc.
  destruct (split 47 p) as [|seg segs]; [by apply elem_of_nil in Hc|].
  destruct (is_empty seg); [destruct segs; [by apply elem_of_nil in Hc|]|case_bool_decide].
  1, 2: apply elem_of_cons in Hc as [?|Hc]; [done|].
  all: by eapply body_plain.
Qed.

Section Jail.
Context (fs : Fs) (Ht : tree_ok fs).

(** What [jailed_join] checks component by component. *)
Lemma jail_from_spec out cs full :
  clear fs out -> Forall plain out -> Forall plain (normals cs) ->
  jail_from fs out cs = Some full -> full = out ++ normals cs /\ clear fs full.
Proof using Ht.
  revert out. induction cs as [|[| | |part] cs IH]; intros out Hc Ho Hp; simpl; try done.
  - intros [= <-]. by rewrite app_nil_r.
  - by apply IH.
  - cbn [normals omap list_omap] in Hp. apply Forall_cons in Hp as [Hpart Hp].
    assert (clear fs (join out part) -> jail_from fs (join out part) cs = Some full ->
              full = out ++ part :: normals cs /\ clear fs full) as Hgo.
    { intros Hc' Hj. apply IH in Hj as [-> ?]; [|done| |done].
      - unfold join in *. by rewrite <- app_assoc in *.
      - apply Forall_app. by split; [|apply Forall_singleton]. }
    destruct (symlink_metadata fs (join out part)) as [md|e] eqn:Em.
    + intros Hj. apply Hgo; [|by destruct (kind md)].
      apply clear_snoc; [done|]. intros _. unfold symlink_metadata, lookup_node in Em.
      destruct (walk fs false (join out part)) as [q|] eqn:Ew; simpl in Em; [|done].
      apply walk_last in Ew; [|done..]. destruct Hpart as [Hs Hd].
      rewrite Hs, bool_decide_eq_false_2 in Ew by done. subst q.
      unfold is_symlink, kind_at. destruct (fs !! (out ++ [part])) as [n|]; [|done].
      injection Em as ->. simpl. by destruct (kind md).
    + apply Hgo. apply clear_snoc; [done|]. intros Hn.
      unfold is_symlink, kind_at. destruct (fs !! (out ++ [part])) as [n|] eqn:En; [|done]. exfalso.
      unfold symlink_metadata, lookup_node, join in Em. rewrite (walk_node _ _ _ n) in Em; [|done| |done|done].
      * simpl in Em. by rewrite En in Em.
      * split; [|done]. apply Forall_app. by split; [|apply Forall_singleton].
Qed.

Lemma jailed_join_spec dest rel full :
  good dest -> dir_at fs dest -> jailed_join fs dest rel = Some full ->
  full = dest ++ normals (components rel) /\ clear fs full /\ Forall plain full.
Proof using Ht.
  intros [Hp _] Hd Hj. apply jail_from_spec in Hj as [-> Hc]; [|by apply clear_dir|done|apply components_plain].
  split_and!; [done|done|]. apply Forall_app. split; [done|apply components_plain].
Qed.
End Jail.

(** A marker's name is the last of the path's names. *)
Lemma file_name_last path name :
  file_name path = Some name -> exists ns, normals (components path) = ns ++ [name].
Proof.
  unfold file_name. destruct (components path) as [|c cs _] using rev_ind; [done|].
  rewrite last_snoc. destruct c; try done. intros [= <-]. unfold normals. rewrite omap_app. by eexists.
Qed.

(** ** Each step stays inside *)

Definition keeps_dirs (fs fs' : Fs) : Prop := forall p, dir_at fs p -> dir_at fs' p.
Lemma keeps_dirs_trans a b c : keeps_dirs a b -> keeps_dirs b c -> keeps_dirs a c.
Proof. unfold keeps_dirs. auto. Qed.

Lemma make_keeps_dirs n p fs : keeps_dirs fs (make n p fs).2.
Proof.
  intros q Hq. unfold make. destruct (walk fs false p) as [r|]; [|done]. destruct (fs !! r) eqn:E; [done|].
  simpl. unfold dir_at. rewrite kind_at_insert. case_bool_decide; [|done]. subst.
  apply kind_at_is_Some in Hq as [? ?]. congruence.
Qed.

Lemma change_kind f p fs q : (forall n, kind (f n) = kind n) -> kind_at (change f p fs).2 q = kind_at fs q.
Proof.
  intros Hf. unfold change. destruct (walk fs true p) as [r|]; [|done]. destruct (fs !! r) eqn:E; [|done].
  simpl. rewrite kind_at_insert. case_bool_decide; [|done]. subst. by rewrite Hf, (kind_at_Some _ _ _ E).
Qed.

Lemma mkdir_links mode p fs q : is_symlink (mkdir mode p fs).2 q = true -> is_symlink fs q = true.
Proof.
  unfold mkdir, make. destruct (walk fs false p) as [r|]; [|done]. destruct (fs !! r) eqn:E; [done|].
  simpl. unfold is_symlink. rewrite kind_at_insert. by case_bool_decide.
Qed.

Lemma rmdir_links p fs q : is_symlink (rmdir p fs).2 q = true -> is_symlink fs q = true.
Proof.
  unfold rmdir. destruct (walk fs false p) as [r|]; [|exact id]. repeat case_match; try exact id.
  simpl. unfold is_symlink, kind_at. destruct (decide (r = q)) as [->|]; [by rewrite lookup_delete_eq|].
  by rewrite lookup_delete_ne.
Qed.

Section Dest.
Context (dest : PathBuf) (Hdest : good dest).

Lemma plain_app ns : Forall plain ns -> Forall plain (dest ++ ns).
Proof using Hdest. intros Hp. apply Forall_app. split; [apply Hdest|done]. Qed.

Lemma is_dir_plain fs p : Forall plain p -> clear fs p -> is_dir fs p = true -> dir_at fs p.
Proof using.
  intros Hp Hc. unfold is_dir, metadata, lookup_node. destruct (walk fs true p) as [q|] eqn:Ew; [|done].
  apply walk_plain in Ew as ->; [|done..]. simpl. unfold dir_at, kind_at.
  destruct (fs !! p) as [n|]; [|done]. simpl. by destruct (kind n).
Qed.

(** Only directories were made, and only inside. *)
Definition grows (fs fs' : Fs) : Prop :=
  inside dest fs fs' /\ keeps_dirs fs fs' /\ forall q, is_symlink fs' q = true -> is_symlink fs q = true.
Lemma grows_refl fs : tree_ok fs -> dir_at fs dest -> grows fs fs.
Proof using. intros. split; [done|]. by split; [intros ?|]. Qed.
Lemma grows_trans a b c : grows a b -> grows b c -> grows a c.
Proof using.
  intros (? & ? & ?) (? & ? & ?). split_and!; [by eapply inside_trans|by eapply keeps_dirs_trans|auto].
Qed.
Lemma grows_clear a b p : grows a b -> clear a p -> clear b p.
Proof using. intros (_ & _ & Hl). by apply clear_mono. Qed.

(** One [mkdir] on a clear path below [dest]. *)
Lemma mkdir_step mode fs ns :
  tree_ok fs -> dir_at fs dest -> Forall plain ns -> clear fs (dest ++ ns) ->
  let r := mkdir mode (dest ++ ns) fs in grows fs r.2 /\ (r.1 = Ok tt -> dir_at r.2 (dest ++ ns)).
Proof using Hdest.
  intros Ht Hd Hp Hc r.
  assert (forall q, walk fs false (dest ++ ns) = Ok q -> q = dest ++ ns) as Hw.
  { intros q Hq. apply walk_plain in Hq; [done|by apply plain_app|done]. }
  split; [split_and!|].
  - apply make_inside; [done|done|]. intros q ->%Hw. by eexists.
  - apply make_keeps_dirs.
  - apply mkdir_links.
  - unfold r, mkdir, make. destruct (walk fs false (dest ++ ns)) as [q|] eqn:E; [|done].
    rewrite (Hw q eq_refl). destruct (fs !! (dest ++ ns)); [done|]. intros _. simpl.
    unfold dir_at. by rewrite kind_at_insert, bool_decide_eq_true_2.
Qed.

Lemma mkdir_dir mode fs : tree_ok fs -> dir_at fs dest -> mkdir mode dest fs = (Err EEXIST, fs).
Proof using Hdest.
  intros Ht Hd. unfold mkdir, make. rewrite walk_dir by done.
  by destruct (dir_at_node _ _ Hd) as (n & -> & _).
Qed.

(** A failed [mkdir] on a directory is a success of [create_dir_all]. *)
Lemma or_is_dir fs fs1 ns (e : Errno) :
  grows fs fs1 -> Forall plain ns -> clear fs (dest ++ ns) ->
  let r := if is_dir fs1 (dest ++ ns) then (Ok tt, fs1) else (Err e, fs1) in
  grows fs r.2 /\ (r.1 = Ok tt -> dir_at r.2 (dest ++ ns)).
Proof using Hdest.
  intros Hg Hp Hc. destruct (is_dir fs1 (dest ++ ns)) eqn:Ei; simpl; [|done]. split; [done|].
  intros _. apply is_dir_plain; [by apply plain_app|by eapply grows_clear|done].
Qed.

Lemma parent_below ns x : parent (dest ++ ns ++ [x]) = Some (dest ++ ns).
Proof using.
  rewrite app_assoc. unfold parent. destruct ((dest ++ ns) ++ [x]) eqn:El; [by destruct (dest ++ ns)|].
  by rewrite <- El, removelast_last.
Qed.

Lemma create_dirs_inside fuel mode ns fs :
  tree_ok fs -> dir_at fs dest -> Forall plain ns -> clear fs (dest ++ ns) ->
  let r := create_dirs fuel mode (dest ++ ns) fs in grows fs r.2 /\ (r.1 = Ok tt -> dir_at r.2 (dest ++ ns)).
Proof using Hdest.
  revert ns fs. induction fuel as [|fuel IH]; intros ns fs Ht Hd Hp Hc;
    pose proof (mkdir_step mode fs ns Ht Hd Hp Hc) as Hm; cbn [create_dirs];
    destruct (mkdir mode (dest ++ ns) fs) as [[[]|e] fs1] eqn:Em; simpl in Hm; try done;
    destruct Hm as [Hg _]; (destruct e; try (by apply or_is_dir); try done).
  destruct ns as [|x ns _] using rev_ind.
  { rewrite app_nil_r, mkdir_dir in Em by done. done. }
  rewrite parent_below. pose proof Hg as [(Ht1 & Hd1 & _) _].
  assert (clear fs1 (dest ++ ns)) as Hc1.
  { eapply clear_app. rewrite <- app_assoc. by eapply grows_clear. }
  pose proof (IH ns fs1 Ht1 Hd1 (proj1 (proj1 (Forall_app _ _ _) Hp)) Hc1) as Hup.
  destruct (create_dirs fuel mode (dest ++ ns) fs1) as [[[]|e] fs2]; simpl in Hup; destruct Hup as [Hg2 _];
    [|split; [by eapply grows_trans|done]].
  pose proof (grows_trans _ _ _ Hg Hg2) as Hg02. pose proof Hg02 as [(Ht2 & Hd2 & _) _].
  pose proof (mkdir_step mode fs2 (ns ++ [x]) Ht2 Hd2 Hp (grows_clear _ _ _ Hg02 Hc)) as [Hg3 Hok].
  destruct (mkdir mode (dest ++ ns ++ [x]) fs2) as [[[]|e] fs3]; simpl in *.
  - split; [by eapply grows_trans|done].
  - apply or_is_dir; [by eapply grows_trans|done|done].
Qed.

(** Where the calls on a marker's target act. *)
Lemma marker_target fs ns x :
  Forall plain ns -> clear fs (dest ++ ns) -> (ns <> [] \/ x <> DOTDOT) ->
  target_in fs dest (join (dest ++ ns) x).
Proof using Hdest.
  intros Hp Hc He q Hq. unfold join in *. apply walk_last in Hq; [|by apply plain_app|done].
  unfold last_seg. rewrite last_snoc. simpl. subst q. destruct (stays x) eqn:Es; [|case_bool_decide as Hx].
  - split; [by eexists|]. intros [? _]. congruence.
  - split; [|by intros [_ ?]]. destruct He as [He|]; [|done].
    destruct ns as [|y ns _] using rev_ind; [done|]. rewrite app_assoc, removelast_last. by eexists.
  - split; [rewrite <- app_assoc; by eexists|]. intros _ Hl%(f_equal length).
    rewrite !length_app in Hl. simpl in Hl. lia.
Qed.

Lemma remove_dir_all_inside fs ns x :
  tree_ok fs -> dir_at fs dest -> Forall plain ns -> clear fs (dest ++ ns) -> (ns <> [] \/ x <> DOTDOT) ->
  let r := remove_dir_all (join (dest ++ ns) x) fs in inside dest fs r.2 /\ clear r.2 (dest ++ ns).
Proof using Hdest.
  intros Ht Hd Hp Hc He r. pose proof (marker_target fs ns x Hp Hc He) as Hin. subst r.
  unfold remove_dir_all. destruct (walk fs false (join (dest ++ ns) x)) as [q|] eqn:Ew; [|done].
  destruct (kind_at fs q) as [[| |t| |]|] eqn:Ek; try done.
  - pose proof (remove_below_clear fs q _ Hc) as Hc'.
    pose proof (remove_below_inside dest fs Ht Hd q (proj1 (Hin q Ew))) as Hb. split.
    + eapply inside_trans; [done|]. destruct Hb as (? & ? & _).
      apply rmdir_inside; [done|done|]. by apply marker_target.
    + eapply clear_mono; [|exact Hc']. apply rmdir_links.
  - split; [|by apply remove_file_clear]. apply remove_file_inside; [done|done|]. intros r Hr. by apply Hin.
Qed.

Lemma whiteout_inside fs ns x :
  tree_ok fs -> dir_at fs dest -> Forall plain ns -> clear fs (dest ++ ns) -> (ns <> [] \/ x <> DOTDOT) ->
  inside dest fs (create_overlay_whiteout (join (dest ++ ns) x) fs).2.
Proof using Hdest.
  intros Ht Hd Hp Hc He. unfold create_overlay_whiteout.
  pose proof (marker_target fs ns x Hp Hc He) as Hin.
  pose proof (remove_file_inside dest fs Ht Hd _ (fun q Hq => proj1 (Hin q Hq))) as H1.
  pose proof (remove_file_clear fs (join (dest ++ ns) x) _ Hc) as Hc1. pose proof H1 as (Ht1 & Hd1 & _).
  destruct (remove_dir_all_inside _ ns x Ht1 Hd1 Hp Hc1 He) as [H2 Hc2]. pose proof H2 as (Ht2 & Hd2 & _).
  eapply inside_trans; [done|]. eapply inside_trans; [done|].
  apply make_inside; [done|done|]. intros q Hq. by eapply (marker_target _ ns x Hp Hc2 He).
Qed.

(** Changing the attributes of a clear path. *)
Lemma change_below f fs ns :
  (forall n, kind (f n) = kind n) -> tree_ok fs -> dir_at fs dest -> Forall plain ns -> clear fs (dest ++ ns) ->
  inside dest fs (change f (dest ++ ns) fs).2.
Proof using Hdest.
  intros Hf Ht Hd Hp Hc. apply change_inside; [done..|]. intros q Hq.
  apply walk_plain in Hq as ->; [by eexists|by apply plain_app|done].
Qed.
End Dest.

(** ** The loop *)

(** What the documentation of [tar::Entry::unpack_in] promises: nothing is
    written outside the directory, and only files and links are overwritten. *)
Class ConfinedUnpack `{LayerCrates} := {
  unpack_confined e dest fs :
    tree_ok fs -> good dest -> dir_at fs dest -> inside dest fs (unpack_in e dest fs).2;
  unpack_keeps_dirs e dest fs :
    tree_ok fs -> good dest -> dir_at fs dest -> keeps_dirs fs (unpack_in e dest fs).2;
}.

Lemma not_below_parent (d : PathBuf) : d <> [] -> ~ d `prefix_of` removelast d.
Proof.
  intros Hd Hp%prefix_length. destruct d as [|x p _] using rev_ind; [done|].
  rewrite removelast_last, length_app in Hp. simpl in Hp. lia.
Qed.
Lemma parent_snoc (p : PathBuf) up : parent p = Some up -> exists x, p = up ++ [x].
Proof.
  unfold parent. destruct p as [|x p _] using rev_ind; [done|].
  destruct (p ++ [x]) eqn:E; [done|]. rewrite <- E, removelast_last. intros [= <-]. by exists x.
Qed.

Section Loop.
Context `{Hu : ConfinedUnpack} (dir_mode : Z) (dest : PathBuf) (Hdest : good dest).

(** The parent of the directory lets its owner write and search. *)
Definition parent_open (fs : Fs) : Prop :=
  dest <> [] -> forall n, fs !! removelast dest = Some n -> Z.land (perm n) OWNER_WX = OWNER_WX.
Definition ready (fs : Fs) : Prop := tree_ok fs /\ dir_at fs dest /\ parent_open fs.

Lemma ready_inside fs fs' : ready fs -> inside dest fs fs' -> ready fs'.
Proof using.
  intros (Ht & Hd & Ho) (Ht' & Hd' & Hs). split_and!; [done..|].
  intros Hne n. rewrite Hs by (by apply not_below_parent). by apply Ho.
Qed.

(** The directories whose modes are to be restored are still there. *)
Definition relaxed_ok (x : Extract) : Prop :=
  forall p mode, relaxed_parents x !! p = Some mode -> dest `prefix_of` p /\ Forall plain p /\ dir_at (x_fs x) p.
Lemma relaxed_ok_keeps x fs : relaxed_ok x -> keeps_dirs (x_fs x) fs -> relaxed_ok (with_fs fs x).
Proof using. intros Hr Hk p mode Hp. destruct (Hr p mode Hp) as (? & ? & ?). split_and!; [done..|by apply Hk]. Qed.

Lemma relaxed_none fs checked bytes : relaxed_ok (MkExtract fs checked ∅ bytes).
Proof using. intros p mode Hp. simpl in Hp. by rewrite lookup_empty in Hp. Qed.

Lemma at_parent_inside f fs ns x :
  tree_ok fs -> dir_at fs dest -> Forall plain (ns ++ [x]) -> clear fs (dest ++ ns ++ [x]) ->
  (forall fs', grows dest fs fs' -> dir_at fs' (dest ++ ns) -> inside dest fs' (f (dest ++ ns) fs').2) ->
  inside dest fs (at_parent dir_mode f (dest ++ ns ++ [x]) fs).2.
Proof using Hdest.
  intros Ht Hd Hp Hc Hf. unfold at_parent. rewrite parent_below.
  assert (clear fs (dest ++ ns)) as Hc' by (eapply clear_app; by rewrite <- app_assoc).
  apply Forall_app in Hp as [Hp _].
  pose proof (create_dirs_inside dest Hdest (length (dest ++ ns)) dir_mode ns fs Ht Hd Hp Hc') as [Hg Hok].
  unfold create_dir_all. destruct (create_dirs _ _ _ _) as [[[]|e] fs1]; simpl in *; [|apply Hg].
  eapply inside_trans; [apply Hg|]. by apply Hf, Hok.
Qed.

Lemma parent_up_open fs up y : parent_open fs -> dest = up ++ [y] ->
  forall n, fs !! up = Some n -> Z.land (perm n) OWNER_WX = OWNER_WX.
Proof using.
  intros Ho E n Hn. apply Ho; [rewrite E; by destruct up|by rewrite E, removelast_last].
Qed.

Lemma relax_inside full x r x' :
  ready (x_fs x) -> (exists ns, full = dest ++ ns /\ Forall plain ns) -> clear (x_fs x) full ->
  relax full x = (r, x') ->
  inside dest (x_fs x) (x_fs x') /\ keeps_dirs (x_fs x) (x_fs x') /\ (relaxed_ok x -> relaxed_ok x').
Proof using Hdest.
  intros (Ht & Hd & Ho) (ns & -> & Hp) Hc. unfold relax.
  assert (inside dest (x_fs x) (x_fs x) /\ keeps_dirs (x_fs x) (x_fs x) /\ (relaxed_ok x -> relaxed_ok x)) as Hsame
    by (split_and!; [done|by intros ?|done]).
  destruct (parent (dest ++ ns)) as [up|] eqn:Eup; [|intros [= <- <-]; done].
  case_bool_decide; [intros [= <- <-]; done|].
  destruct (symlink_metadata _ up) as [[k mode o]|e] eqn:Em; [|intros [= <- <-]; done].
  destruct k; try (intros [= <- <-]; done). cbn [x_fs] in *.
  apply parent_snoc in Eup as [y Ey]. unfold symlink_metadata, lookup_node in Em.
  destruct ns as [|z ns _] using rev_ind.
  - rewrite app_nil_r in Ey. pose proof (parent_up_open _ _ _ Ho Ey) as Hopen.
    assert (good up) as Hgu by (pose proof Hdest as Hg; rewrite Ey in Hg; by apply good_app in Hg as [? _]).
    assert (dir_at (x_fs x) up) as Hdu.
    { eapply (tree_prefix _ _ [y]); [done|rewrite <- Ey; by eapply kind_at_is_Some|done]. }
    rewrite walk_dir in Em by done. simpl in Em. destruct (x_fs x !! up) as [n|] eqn:En; [|done]. injection Em as ->.
    specialize (Hopen _ eq_refl). simpl in Hopen. rewrite Hopen, Z.eqb_refl. intros [= <- <-]. done.
  - rewrite app_assoc in Ey. apply app_inj_tail in Ey as [<- <-].
    apply Forall_app in Hp as [Hp _]. rewrite app_assoc in Hc. apply clear_app in Hc.
    destruct (walk (x_fs x) false (dest ++ ns)) as [q|] eqn:Ew; [|done].
    apply walk_plain in Ew as ->; [|by apply plain_app|done]. simpl in Em.
    destruct (x_fs x !! (dest ++ ns)) as [n|] eqn:En; [|done]. injection Em as ->.
    destruct (_ =? _); [intros [= <- <-]; done|].
    set (f := fun n => MkNode (kind n) (Z.lor mode OWNER_RWX) (opaque n)).
    pose proof (change_below dest Hdest f (x_fs x) ns (fun _ => eq_refl) Ht Hd Hp Hc) as Hin.
    assert (keeps_dirs (x_fs x) (change f (dest ++ ns) (x_fs x)).2) as Hk.
    { intros p Hd'. unfold dir_at. by rewrite change_kind. }
    unfold set_permissions. fold f. destruct (change f (dest ++ ns) (x_fs x)) as [[[]|e] fs1]; intros [= <- <-].
    + split_and!; [done|done|]. intros Hr p m. cbn [relaxed_parents x_fs] in *. rewrite lookup_insert_Some.
      intros [[<- _]|[_ Hm]].
      * split_and!; [by eexists|by apply plain_app|apply Hk]. by apply (kind_at_Some _ _ _ En).
      * destruct (Hr p m Hm) as (? & ? & ?). split_and!; [done..|by apply Hk].
    + split_and!; [done|done|]. intros Hr. by apply (relaxed_ok_keeps x).
Qed.

(** The names of an entry's path, and the marker it is. *)
Definition names_of (entry : result Entry IoError) : list bytes :=
  match entry with
  | Ok e => match e_path e with Ok path => normals (components path) | Err _ => [] end
  | Err _ => []
  end.
Definition whites_out (entry : result Entry IoError) : bool :=
  match list.last (names_of entry) with
  | Some name => match classify_layer_entry name with Whiteout _ => true | _ => false end
  | None => false
  end.
(** The marker of a whiteout of [..] at the top of the layer. *)
Definition DOTDOT_MARKER : bytes := bs ".wh...".

Lemma classify_whiteout name removed : classify_layer_entry name = Whiteout removed -> name = WHITEOUT_PREFIX ++ removed.
Proof using.
  unfold classify_layer_entry. case_bool_decide; [done|].
  destruct (strip_prefix _ _) as [t|] eqn:E; [|done]. case_match; [|done]. intros [= <-]. by apply strip_prefix_Some.
Qed.

Lemma unpack_step path e x r x' :
  ready (x_fs x) -> unpack dest path e x = (r, x') ->
  inside dest (x_fs x) (x_fs x') /\ keeps_dirs (x_fs x) (x_fs x') /\ (relaxed_ok x -> relaxed_ok x').
Proof using Hu Hdest.
  intros (Ht & Hd & _). unfold unpack.
  pose proof (unpack_confined e dest (x_fs x) Ht Hdest Hd) as Hin.
  pose proof (unpack_keeps_dirs e dest (x_fs x) Ht Hdest Hd) as Hk.
  destruct (unpack_in e dest (x_fs x)) as [[u|err] fs1]; intros [= <- <-]; (split_and!; [done|done|]);
    intros Hr; by apply (relaxed_ok_keeps x).
Qed.

Lemma forget_ok full e x : relaxed_ok x -> relaxed_ok (forget_directory full e x).
Proof using.
  intros Hr. unfold forget_directory. case_bool_decide; [|done]. intros p m Hm. simpl in *.
  apply lookup_delete_Some in Hm as [_ Hm]. by apply (Hr p m).
Qed.
Lemma forget_fs full e x : x_fs (forget_directory full e x) = x_fs x.
Proof using. unfold forget_directory. by case_match. Qed.

Lemma normal_step path full e x r x' :
  ready (x_fs x) -> (exists ns, full = dest ++ ns /\ Forall plain ns) -> clear (x_fs x) full ->
  extract_normal dest path full e x = (r, x') ->
  inside dest (x_fs x) (x_fs x') /\ keeps_dirs (x_fs x) (x_fs x') /\ (relaxed_ok x -> relaxed_ok x').
Proof using Hu Hdest.
  intros Hx Hf Hc. unfold extract_normal.
  assert (inside dest (x_fs x) (x_fs x) /\ keeps_dirs (x_fs x) (x_fs x) /\ (relaxed_ok x -> relaxed_ok x)) as Hsame.
  { destruct Hx as (? & ? & _). split_and!; [done|by intros ?|done]. }
  destruct (missing_target dest e (x_fs x)) as [[]|]; try (intros [= <- <-]; done).
  destruct (relax full x) as [r1 x1] eqn:Er. destruct (relax_inside _ _ _ _ Hx Hf Hc Er) as (H1 & K1 & R1).
  destruct r1 as [[]|e1]; [|intros [= <- <-]; done].
  destruct (unpack dest path e x1) as [r2 x2] eqn:Eu.
  destruct (unpack_step _ _ _ _ _ (ready_inside _ _ Hx H1) Eu) as (H2 & K2 & R2).
  assert (inside dest (x_fs x) (x_fs x2) /\ keeps_dirs (x_fs x) (x_fs x2) /\ (relaxed_ok x -> relaxed_ok x2)) as H12.
  { split_and!; [by eapply inside_trans|by eapply keeps_dirs_trans|auto]. }
  destruct r2 as [[]|e2]; intros [= <- <-]; [|done]. rewrite forget_fs. destruct H12 as (? & ? & ?).
  split_and!; [done|done|]. intros. by apply forget_ok; auto.
Qed.

Lemma opaque_step fs ns x :
  tree_ok fs -> dir_at fs dest -> Forall plain (ns ++ [x]) -> clear fs (dest ++ ns ++ [x]) ->
  let fs' := (at_parent dir_mode set_overlay_opaque (dest ++ ns ++ [x]) fs).2 in
  inside dest fs fs' /\ keeps_dirs fs fs'.
Proof using Hdest.
  intros Ht Hd Hp Hc. split.
  - apply at_parent_inside; [done..|]. intros fs' Hg Hd'. pose proof Hg as [(Ht' & ? & _) _].
    apply change_below; [done|done|done|done|by apply Forall_app in Hp as [? _]|].
    eapply clear_app. rewrite <- app_assoc. by eapply grows_clear.
  - unfold at_parent. rewrite parent_below.
    assert (clear fs (dest ++ ns)) as Hc' by (eapply clear_app; by rewrite <- app_assoc).
    apply Forall_app in Hp as [Hp _].
    pose proof (create_dirs_inside dest Hdest (length (dest ++ ns)) dir_mode ns fs Ht Hd Hp Hc') as [Hg _].
    unfold create_dir_all. destruct (create_dirs _ _ _ _) as [[[]|e] fs1]; [|apply Hg].
    eapply keeps_dirs_trans; [apply Hg|]. intros p Hp'. unfold dir_at.
    unfold set_overlay_opaque, setxattr_opaque. by rewrite change_kind.
Qed.

Lemma whiteout_step fs ns x removed :
  tree_ok fs -> dir_at fs dest -> Forall plain (ns ++ [x]) -> clear fs (dest ++ ns ++ [x]) ->
  (ns <> [] \/ removed <> DOTDOT) ->
  inside dest fs (at_parent dir_mode (fun up => create_overlay_whiteout (join up removed)) (dest ++ ns ++ [x]) fs).2.
Proof using Hdest.
  intros Ht Hd Hp Hc He. apply at_parent_inside; [done..|]. intros fs' Hg Hd'. pose proof Hg as [(Ht' & ? & _) _].
  apply whiteout_inside; [done|done|done|by apply Forall_app in Hp as [? _]| |done].
  eapply clear_app. rewrite <- app_assoc. by eapply grows_clear.
Qed.

Lemma entry_step entry x r x' :
  ready (x_fs x) -> names_of entry <> [DOTDOT_MARKER] -> extract_entry dir_mode dest entry x = (r, x') ->
  inside dest (x_fs x) (x_fs x') /\ (whites_out entry = false -> relaxed_ok x -> relaxed_ok x').
Proof using Hu Hdest.
  intros Hx Hne. pose proof Hx as (Ht & Hd & _). unfold extract_entry.
  assert (inside dest (x_fs x) (x_fs x) /\ (whites_out entry = false -> relaxed_ok x -> relaxed_ok x)) as Hsame by done.
  destruct entry as [e|err]; [|intros [= <- <-]; done]. unfold whites_out in *. simpl in *.
  destruct (e_path e) as [path|err]; [|intros [= <- <-]; done]. cbn [result_bind] in *.
  destruct (pack_sidecar_sentinel path); [intros [= <- <-]; done|].
  destruct (jailed_join (x_fs x) dest path) as [full|] eqn:Ej; [|intros [= <- <-]; done].
  apply jailed_join_spec in Ej as (-> & Hc & _); [|done..].
  assert (extract_normal dest path (dest ++ normals (components path)) e x = (r, x') ->
    inside dest (x_fs x) (x_fs x') /\ (relaxed_ok x -> relaxed_ok x')) as Hnormal.
  { intros (? & ? & ?)%normal_step; [done|done| |done]. eexists. split; [done|apply components_plain]. }
  destruct (file_name path) as [name|] eqn:En; cbn [mbind option_bind];
    [|intros Hn; destruct (Hnormal Hn); done].
  apply file_name_last in En as [ns En]. pose proof (components_plain path) as Hp.
  rewrite En in *. rewrite last_snoc in Hsame |- *. unfold from_utf8.
  destruct (utf8_valid name); cbn [mbind option_bind]; [|intros Hn; destruct (Hnormal Hn); done].
  destruct (classify_layer_entry name) as [|removed|] eqn:Ec; [| |intros Hn; destruct (Hnormal Hn); done].
  - intros [= _ <-]. destruct (opaque_step _ _ _ Ht Hd Hp Hc) as [Hin Hk]. split; [done|].
    intros _ Hr. by apply relaxed_ok_keeps.
  - intros [= _ <-]. split; [|done]. apply whiteout_step; [done..|].
    destruct (decide (removed = DOTDOT)) as [->|]; [left|by right]. intros ->.
    apply classify_whiteout in Ec as ->. by apply Hne.
Qed.

Lemma entries_step entries x r x' :
  ready (x_fs x) -> Forall (fun entry => names_of entry <> [DOTDOT_MARKER]) entries ->
  extract_entries dir_mode dest entries x = (r, x') ->
  inside dest (x_fs x) (x_fs x')
  /\ (Forall (fun entry => whites_out entry = false) entries -> relaxed_ok x -> relaxed_ok x').
Proof using Hu Hdest.
  intros Hx Hne. revert x Hx. induction Hne as [|entry entries Hn Hne IH]; intros x Hx; simpl.
  { intros [= <- <-]. destruct Hx as (? & ? & _). done. }
  destruct (extract_entry dir_mode dest entry x) as [r1 x1] eqn:E1.
  destruct (entry_step _ _ _ _ Hx Hn E1) as [H1 R1]. destruct r1 as [[]|e]; [|intros [= <- <-]].
  - intros H2. apply IH in H2 as [H2 R2]; [|by eapply ready_inside].
    split; [by eapply inside_trans|]. intros [Hw Hws]%Forall_cons Hr. auto.
  - split; [done|]. intros [Hw _]%Forall_cons. auto.
Qed.

(** ** Restoring the modes *)

(** Everything but the mode. *)
Definition sans_perm (n : Node) : Kind * bool := (kind n, opaque n).

Lemma set_permissions_content mode p fs r :
  option_map sans_perm ((set_permissions mode p fs).2 !! r) = option_map sans_perm (fs !! r).
Proof using.
  unfold set_permissions, change. destruct (walk fs true p) as [q|]; [|done].
  destruct (fs !! q) as [n|] eqn:E; [|done]. simpl. destruct (decide (q = r)) as [->|].
  - by rewrite lookup_insert_eq, E.
  - by rewrite lookup_insert_ne.
Qed.

Lemma restore_content relaxed fs r :
  option_map sans_perm ((restore_modes relaxed fs).2 !! r) = option_map sans_perm (fs !! r).
Proof using.
  revert fs. induction relaxed as [|[p mode] relaxed IH]; intros fs; simpl; [done|].
  pose proof (set_permissions_content mode p fs r) as Hp.
  destruct (set_permissions mode p fs) as [[[]|e] fs1]; simpl in *; [by rewrite IH|done].
Qed.

Lemma restore_inside relaxed fs :
  tree_ok fs -> dir_at fs dest ->
  Forall (fun pm => dest `prefix_of` pm.1 /\ Forall plain pm.1 /\ dir_at fs pm.1) relaxed ->
  inside dest fs (restore_modes relaxed fs).2.
Proof using.
  intros Ht Hd Hr. revert fs Ht Hd Hr.
  induction relaxed as [|[p mode] relaxed IH]; intros fs Ht Hd Hr; simpl; [done|].
  apply Forall_cons in Hr as [(Hp & Hpl & Hdp) Hr]. simpl in *.
  assert (inside dest fs (set_permissions mode p fs).2) as Hin.
  { apply change_inside; [done..|]. intros q Hq. by apply walk_plain in Hq as ->; [|done|apply clear_dir]. }
  assert (keeps_dirs fs (set_permissions mode p fs).2) as Hk.
  { intros q Hq. unfold dir_at, set_permissions. by rewrite change_kind. }
  destruct (set_permissions mode p fs) as [[[]|e] fs1]; simpl in *; [|done].
  eapply inside_trans; [done|]. destruct Hin as (? & ? & _). apply IH; [done..|].
  eapply Forall_impl; [done|]. intros [q m] (? & ? & ?). split_and!; [done..|by apply Hk].
Qed.
End Loop.

(** ** What a marker makes *)

Lemma walk_in_dir fs up x :
  tree_ok fs -> good (up ++ [x]) -> dir_at fs up -> walk fs false (up ++ [x]) = Ok (up ++ [x]).
Proof.
  intros Ht Hg Hd. pose proof Hg as [Hp Hn]. unfold walk, has_nul in *. rewrite Hn.
  apply Forall_app in Hp as [Hp [[Hx Hdd] _]%Forall_cons].
  rewrite resolve_dirs; [|done|].
  - rewrite app_nil_l, resolve_cons, Hx, bool_decide_eq_false_2, !resolve_nil by done. simpl.
    by destruct (kind_at fs (up ++ [x])) as [[]|].
  - intros i _. rewrite app_nil_l. eapply dir_prefix; [done|done|]. apply prefix_take.
Qed.

(** Every prefix is a directory or nothing. *)
Definition free (fs : Fs) (p : PathBuf) : Prop := forall q, q `prefix_of` p -> fs !! q = None \/ dir_at fs q.

Lemma resolve_missing links fs f cur ns x :
  Forall plain ns -> ns <> [] -> free fs (cur ++ ns) -> fs !! (cur ++ ns) = None ->
  resolve links fs f cur (ns ++ [x]) = Err ENOENT.
Proof.
  intros Hp. revert cur. induction Hp as [|y ns [Hy Hd] Hp IH]; intros cur Hne Hf Hm; [done|].
  rewrite <- app_comm_cons, resolve_cons, Hy, bool_decide_eq_false_2 by done.
  destruct (Hf (cur ++ [y])) as [Hn|Hn].
  { exists ns. by rewrite <- app_assoc. }
  - unfold kind_at. rewrite Hn. simpl. by destruct ns.
  - rewrite Hn. destruct ns as [|z ns].
    { by destruct (dir_not_None _ _ Hn). }
    apply IH; [done|by rewrite <- app_assoc|by rewrite <- app_assoc].
Qed.

Lemma walk_missing fs f p x :
  good (p ++ [x]) -> p <> [] -> free fs p -> fs !! p = None -> walk fs f (p ++ [x]) = Err ENOENT.
Proof.
  intros [Hp Hn] Hne Hf Hm. unfold walk, has_nul in *. rewrite Hn. apply Forall_app in Hp as [Hp _].
  by apply resolve_missing.
Qed.

(** A file system with the missing directories of a path. *)
Definition with_dirs (mode : Z) (p : PathBuf) (fs fs' : Fs) : Prop :=
  forall r, fs' !! r = match fs !! r with
                       | Some n => Some n
                       | None => if bool_decide (r `prefix_of` p) then Some (MkNode KDir mode false) else None
                       end.

Lemma with_dirs_dir mode p fs fs' : with_dirs mode p fs fs' -> free fs p -> dir_at fs' p.
Proof.
  intros Hw Hf. unfold dir_at, kind_at. rewrite Hw. destruct (Hf p) as [Hn|Hn]; [done| |].
  - by rewrite Hn, bool_decide_eq_true_2.
  - apply dir_at_node in Hn as (n & -> & Hk). simpl. by rewrite Hk.
Qed.

Lemma is_dir_at fs p : tree_ok fs -> good p -> dir_at fs p -> is_dir fs p = true.
Proof.
  intros Ht Hg Hd. unfold is_dir, metadata, lookup_node. rewrite walk_dir by done. simpl.
  apply dir_at_node in Hd as (n & -> & Hk). simpl. by rewrite Hk.
Qed.

(** On a directory [create_dir_all] does nothing. *)
Lemma create_dirs_dir fuel mode p fs :
  tree_ok fs -> good p -> dir_at fs p -> create_dirs fuel mode p fs = (Ok tt, fs).
Proof.
  intros Ht Hg Hd. pose proof (mkdir_dir p Hg mode fs Ht Hd) as Hm.
  destruct fuel; cbn [create_dirs]; rewrite Hm; by rewrite is_dir_at.
Qed.

Lemma prefix_of_snoc (r p : PathBuf) x : r `prefix_of` p ++ [x] -> r = p ++ [x] \/ r `prefix_of` p.
Proof.
  intros [k Hk]. destruct k as [|y k _] using rev_ind; [left; by rewrite app_nil_r in Hk|right].
  rewrite app_assoc in Hk. apply app_inj_tail in Hk as [-> _]. by eexists.
Qed.

Lemma free_snoc fs p x : free fs (p ++ [x]) -> free fs p.
Proof. intros Hf q Hq. apply Hf. by apply prefix_app_r. Qed.

(** [mkdir] in an existing directory. *)
Lemma mkdir_new mode fs p x :
  tree_ok fs -> good (p ++ [x]) -> dir_at fs p -> fs !! (p ++ [x]) = None ->
  mkdir mode (p ++ [x]) fs = (Ok tt, <[p ++ [x] := MkNode KDir mode false]> fs).
Proof. intros Ht Hg Hd Hn. unfold mkdir, make. by rewrite walk_in_dir, Hn. Qed.

Lemma with_dirs_tree mode p fs fs' : tree_ok fs -> free fs p -> with_dirs mode p fs fs' -> tree_ok fs'.
Proof.
  intros [Hr Ht] Hf Hw. assert (keeps_dirs fs fs') as Hk.
  { intros q (n & Hn & Hk)%dir_at_node. unfold dir_at, kind_at. rewrite Hw, Hn. simpl. by rewrite Hk. }
  split; [by apply Hk|]. intros q seg [n Hn]. rewrite Hw in Hn.
  destruct (fs !! (q ++ [seg])) eqn:E; [apply Hk, (Ht q seg); by eexists|].
  case_bool_decide as Hp; [|done]. assert (q `prefix_of` p) as Hq by (etrans; [by eexists|done]).
  destruct (Hf q Hq) as [Hm|Hm]; [|by apply Hk]. unfold dir_at, kind_at. by rewrite Hw, Hm, bool_decide_eq_true_2.
Qed.

Lemma create_dirs_exact fuel mode p fs :
  tree_ok fs -> good p -> free fs p -> (length p <= fuel)%nat ->
  exists fs', create_dirs fuel mode p fs = (Ok tt, fs') /\ with_dirs mode p fs fs'.
Proof.
  intros Ht. revert fuel. induction p as [|x p IH] using rev_ind; intros fuel Hg Hf Hl.
  { exists fs. split; [by apply create_dirs_dir; [|split|apply Ht]|]. intros r.
    destruct (fs !! r) eqn:E; [done|]. case_bool_decide as Hp; [|done].
    apply prefix_nil_inv in Hp as ->. by destruct (dir_not_None _ _ (proj1 Ht)). }
  destruct (Hf (p ++ [x])) as [Hn|Hn]; [done| |].
  2: { exists fs. split; [by apply create_dirs_dir|]. intros r. destruct (fs !! r) eqn:E; [done|].
       case_bool_decide as Hp; [|done]. by destruct (dir_not_None fs r (dir_prefix _ _ _ Ht Hn Hp)). }
  destruct fuel as [|fuel]; [rewrite length_app in Hl; simpl in Hl; lia|].
  apply good_app in Hg as Hg'. destruct Hg' as [Hgp Hgx]. cbn [create_dirs].
  assert (forall fs1, with_dirs mode p fs fs1 ->
    exists fs', mkdir mode (p ++ [x]) fs1 = (Ok tt, fs') /\ with_dirs mode (p ++ [x]) fs fs') as Hfinish.
  { intros fs1 Hw. pose proof (free_snoc _ _ _ Hf) as Hfp. eexists. split.
    - apply mkdir_new; [by eapply with_dirs_tree|done|by eapply with_dirs_dir|]. rewrite Hw, Hn, bool_decide_eq_false_2; [done|].
      intros Hp%prefix_length. rewrite length_app in Hp. simpl in Hp. lia.
    - intros r. destruct (decide (p ++ [x] = r)) as [<-|Hne].
      + by rewrite lookup_insert_eq, Hn, bool_decide_eq_true_2.
      + rewrite lookup_insert_ne, Hw by done. destruct (fs !! r); [done|].
        destruct (decide (r `prefix_of` p)) as [Hp|Hp].
        * rewrite !bool_decide_eq_true_2; [done|by apply prefix_app_r|done].
        * rewrite !bool_decide_eq_false_2; [done| |done]. intros [->|?]%prefix_of_snoc; done. }
  destruct (Hf p) as [Hm|Hm]; [by apply prefix_app_r| |].
  - assert (p <> []) as Hpne by (intros ->; by destruct (dir_not_None _ _ (proj1 Ht))).
    destruct (IH fuel) as (fs1 & E1 & W1); [done|by eapply free_snoc|rewrite length_app in Hl; simpl in Hl; lia|].
    destruct (Hfinish fs1 W1) as (fs' & E2 & W2). exists fs'. split; [|done].
    unfold mkdir at 1, make. rewrite walk_missing; [|done|done|by eapply free_snoc|done].
    replace (parent (p ++ [x])) with (Some p).
    2: { symmetry. apply (parent_below [] p x). }
    by rewrite E1, E2.
  - destruct (Hfinish fs) as (fs' & E2 & W2).
    { intros r. destruct (fs !! r) eqn:E; [done|]. case_bool_decide as Hp; [|done].
      by destruct (dir_not_None fs r (dir_prefix _ _ _ Ht Hm Hp)). }
    exists fs'. split; [|done]. by rewrite E2.
Qed.

(** Nothing lies below a path that is no directory. *)
Lemma nothing_below fs t r :
  tree_ok fs -> ~ dir_at fs t -> t `prefix_of` r -> r <> t -> fs !! r = None.
Proof.
  intros Ht Hd [k ->] Hne. destruct (fs !! (t ++ k)) eqn:E; [|done]. destruct Hd.
  eapply (tree_prefix _ _ k); [done|by eexists|]. intros ->. by rewrite app_nil_r in Hne.
Qed.

Lemma below_true t r : below t r = true <-> t `prefix_of` r /\ r <> t.
Proof. unfold below. rewrite andb_true_iff, negb_true_iff, bool_decide_eq_true, bool_decide_eq_false. done. Qed.

(** The entry in the way of a whiteout goes away, whatever it is. *)
Section ClearAway.
Context (fs : Fs) (up : PathBuf) (x : bytes).
Context (Ht : tree_ok fs) (Hg : good (up ++ [x])) (Hd : dir_at fs up).

Lemma clear_away_inside :
  inside up fs (remove_dir_all (up ++ [x]) (remove_file (up ++ [x]) fs).2).2.
Proof using Ht Hg Hd.
  apply good_app in Hg as [Hgu [[Hx _]%Forall_cons _]].
  pose proof (marker_target up Hgu fs [] x (Forall_nil_2 _)) as Hm. rewrite app_nil_r in Hm.
  specialize (Hm (clear_dir _ _ Ht Hd) (or_intror (proj2 Hx))).
  pose proof (remove_file_inside up fs Ht Hd _ (fun q Hq => proj1 (Hm q Hq))) as H1.
  eapply inside_trans; [exact H1|]. destruct H1 as (Ht1 & Hd1 & _).
  pose proof (remove_dir_all_inside up Hgu _ [] x Ht1 Hd1 (Forall_nil_2 _)) as H2. rewrite app_nil_r in H2.
  by apply H2; [apply clear_dir|right; apply Hx].
Qed.

Lemma rmdir_emptied :
  dir_at fs (up ++ [x]) ->
  rmdir (up ++ [x]) (remove_below (up ++ [x]) fs) = (Ok tt, delete (up ++ [x]) (remove_below (up ++ [x]) fs)).
Proof using Ht Hg Hd.
  intros Hdt. pose proof Hg as [_ [[[Hx Hdd] _]%Forall_cons _]]%good_app.
  assert (below (up ++ [x]) (up ++ [x]) = false) as Hb.
  { unfold below. by rewrite (bool_decide_eq_true_2 (up ++ [x] = up ++ [x])), andb_false_r. }
  assert (dir_at (remove_below (up ++ [x]) fs) (up ++ [x])) as Hdt'.
  { unfold dir_at, kind_at. by rewrite remove_below_lookup. }
  unfold rmdir. rewrite walk_dir; [|by apply tree_remove_below|done|done].
  rewrite bool_decide_eq_false_2 by (by destruct up). unfold last_seg. rewrite last_snoc. simpl.
  rewrite Hx, bool_decide_eq_false_2 by done. rewrite Hdt', bool_decide_eq_true_2; [done|].
  intros p n Hp. by apply map_lookup_filter_Some in Hp as [_ Hp].
Qed.

Lemma clear_away_lookup r :
  (remove_dir_all (up ++ [x]) (remove_file (up ++ [x]) fs).2).2 !! r
  = if bool_decide (up ++ [x] `prefix_of` r) then None else fs !! r.
Proof using Ht Hg Hd.
  pose proof (walk_in_dir fs up x Ht Hg Hd) as Hw. set (t := up ++ [x]) in *.
  assert (~ dir_at fs t -> forall q, (delete t fs) !! q = if bool_decide (t `prefix_of` q) then None else fs !! q) as Hdel.
  { intros Hnd q. destruct (decide (t = q)) as [<-|Hne]; [by rewrite lookup_delete_eq, bool_decide_eq_true_2|].
    rewrite lookup_delete_ne by done. case_bool_decide; [by eapply nothing_below|done]. }
  destruct (decide (dir_at fs t)) as [Hdt|Hdt].
  - unfold remove_file. rewrite Hw, Hdt. simpl. unfold remove_dir_all. rewrite Hw, Hdt.
    unfold t. rewrite rmdir_emptied by done. fold t. simpl.
    destruct (decide (t = r)) as [<-|Hne]; [by rewrite lookup_delete_eq, bool_decide_eq_true_2|].
    rewrite lookup_delete_ne by done. case_bool_decide as Hp.
    + apply map_lookup_filter_None. right. intros n _. simpl. rewrite not_false_iff_true. by apply below_true.
    + apply remove_below_lookup. apply not_true_iff_false. by intros [? _]%below_true.
  - unfold remove_file. rewrite Hw. destruct (kind_at fs t) as [k|] eqn:Ek.
    + assert (remove_dir_all t (delete t fs) = (Err ENOENT, delete t fs)) as Hr.
      { unfold remove_dir_all, t. rewrite walk_in_dir; [|apply tree_delete; [done|by destruct up|]|done|].
        - fold t. unfold kind_at. by rewrite lookup_delete_eq.
        - intros seg. eapply nothing_below; [done|exact Hdt|by eexists|].
          intros Hl%(f_equal length). fold t in Hl. rewrite length_app in Hl. simpl in Hl. lia.
        - unfold dir_at, kind_at. rewrite lookup_delete_ne; [done|].
          intros Hl%(f_equal length). rewrite length_app in Hl. simpl in Hl. lia. }
      destruct k; [done|..]; cbn [snd]; rewrite Hr; by apply Hdel.
    + simpl. unfold remove_dir_all. rewrite Hw, Ek. simpl. case_bool_decide as Hp; [|done].
      destruct (decide (r = t)) as [->|]; [unfold kind_at in Ek; by destruct (fs !! t)|by eapply nothing_below].
Qed.
End ClearAway.

Lemma whiteout_exact fs up x :
  tree_ok fs -> good (up ++ [x]) -> dir_at fs up ->
  let r := create_overlay_whiteout (up ++ [x]) fs in
  r.1 = Ok tt /\ forall q, r.2 !! q =
    if bool_decide (q = up ++ [x]) then Some (MkNode KWhiteout 0 false)
    else if bool_decide (up ++ [x] `prefix_of` q) then None else fs !! q.
Proof.
  intros Ht Hg Hd. pose proof (clear_away_inside fs up x Ht Hg Hd) as (Ht' & Hd' & _).
  pose proof (clear_away_lookup fs up x Ht Hg Hd) as Hl. unfold create_overlay_whiteout.
  set (fs' := (remove_dir_all _ _).2) in *. unfold mknod_whiteout, make.
  rewrite walk_in_dir by done. rewrite Hl, bool_decide_eq_true_2 by done. simpl. split; [done|].
  intros q. case_bool_decide as Hq; [subst; by rewrite lookup_insert_eq|]. by rewrite lookup_insert_ne.
Qed.

(** A marker is no sentinel of a pack. *)
Lemma normals_filter cs : normals (List.filter (fun c => negb (is_cur_dir c)) cs) = normals cs.
Proof. induction cs as [|[] cs IH]; [done|..]; cbn [List.filter is_cur_dir negb normals omap list_omap]; [exact IH..|f_equal; exact IH]. Qed.

Lemma marker_not_sentinel path name :
  file_name path = Some name -> classify_layer_entry name <> NormalEntry -> pack_sidecar_sentinel path = None.
Proof.
  intros [ns Hf]%file_name_last Hc. unfold pack_sidecar_sentinel. rewrite <- normals_filter in Hf.
  destruct (List.filter _ _) as [|[| | |name'] [|c cs]]; try done.
  destruct (find _ _) as [s|] eqn:E; [|done]. exfalso. apply Hc.
  apply find_some in E as [Hin Hs]. apply bool_decide_eq_true_1 in Hs as ->.
  destruct ns as [|? [|??]]; simpl in Hf; try done. injection Hf as <-.
  destruct Hin as [<-|[<-|[]]]; reflexivity.
Qed.
End OciFacts.
