(* ===== verification/OciLayerProps.v ===== *)
(** * OciLayerProps: what extracting a layer can touch, and what it makes

    Containment of an extraction in its directory, the translation of
    whiteout markers, and the two layers that reach outside. *)

From S2P Require Import Prelude RustStr FileSys FileSysFacts OciLayer OciLayerFacts.

Module OciProps.
Import Str StrPrefix Path FileSys FileSysFacts OciLayer OciFacts.

(** C38: Whatever a layer's archive holds, damaged or hostile,
    and however the extraction ends, nothing outside the layer's directory is
    created, deleted, replaced or written, unless the archive has the entry
    [.wh...] at its top; and if it has no whiteout marker at all, not even a
    mode outside the directory changes. The directory's parent lets its owner
    write and search. *)
Theorem layer_contained `{ConfinedUnpack} dir_mode reader dest fs :
  good dest -> ready dest fs ->
  (forall stream, decompress_layer_reader reader = Ok stream ->
     Forall (fun entry => names_of entry <> [DOTDOT_MARKER]) (archive stream)) ->
  let fs' := (extract_oci_layer_with_size dir_mode reader dest fs).2 in
  (forall r, ~ dest `prefix_of` r -> option_map sans_perm (fs' !! r) = option_map sans_perm (fs !! r))
  /\ ((forall stream, decompress_layer_reader reader = Ok stream ->
          Forall (fun entry => whites_out entry = false) (archive stream)) ->
      forall r, ~ dest `prefix_of` r -> fs' !! r = fs !! r).
Proof.
  intros Hg Hr Hn. unfold extract_oci_layer_with_size.
  destruct (decompress_layer_reader reader) as [stream|e]; [|done].
  specialize (Hn _ eq_refl). unfold extract_archive.
  destruct (extract_entries dir_mode dest (archive stream) (MkExtract fs ∅ ∅ 0)) as [res x] eqn:E.
  pose proof (entries_step dir_mode dest Hg _ (MkExtract fs ∅ ∅ 0) _ _ Hr Hn E) as [(Ht & Hd & Hs) Hw]. simpl in Hs.
  destruct res as [[]|err]; simpl.
  2: { split; [|intros _]; intros r Hp; by rewrite Hs. }
  set (l := merge_sort deeper (map_to_list (relaxed_parents x))).
  pose proof (restore_content l (x_fs x)) as Hc.
  assert (Forall (fun entry => whites_out entry = false) (archive stream) ->
    inside dest (x_fs x) (restore_modes l (x_fs x)).2) as Hin.
  { intros Hf. apply restore_inside; [done|done|]. apply Forall_forall. intros [p m] Hm.
    unfold l in Hm. rewrite merge_sort_Permutation in Hm. apply elem_of_map_to_list in Hm.
    by apply (Hw Hf (relaxed_none dest _ _ _) p m). }
  destruct (restore_modes l (x_fs x)) as [[[]|err] fs']; simpl in *; split.
  all: try (intros r Hp; by rewrite Hc, Hs).
  all: intros Hf r Hp; destruct (Hin (Hf _ eq_refl)) as (_ & _ & Hi); by rewrite Hi, Hs.
Qed.

(** What a reader delivers until its end or an error. *)
Fixpoint delivers (r : Reader) : bytes * option IoError :=
  match r with
  | [] => ([], None)
  | Ok [] :: _ => ([], None)
  | Ok chunk :: r => let '(b, e) := delivers r in (chunk ++ b, e)
  | Err e :: _ => ([], Some e)
  end.

Lemma peek_spec n r acc :
  match peek n r acc with
  | Ok (magic, r') => magic = acc ++ take n (delivers r).1 /\ delivers r' = (drop n (delivers r).1, (delivers r).2)
  | Err e => (length (delivers r).1 < n)%nat /\ (delivers r).2 = Some e
  end.
Proof.
  revert n acc. induction r as [|[[|b chunk]|e] r IH]; intros n acc; cbn [peek].
  - destruct n; simpl; by rewrite app_nil_r.
  - destruct n; simpl; by rewrite app_nil_r.
  - cbn [delivers]. destruct (delivers r) as [d eo] eqn:Ed. destruct n as [|n].
    { cbn [delivers fst snd]. rewrite Ed, take_0, app_nil_r. done. }
    destruct (length (b :: chunk) <=? S n)%nat eqn:El; [apply Nat.leb_le in El|apply Nat.leb_gt in El].
    + specialize (IH (S n - length (b :: chunk))%nat (acc ++ b :: chunk)).
      rewrite ?Ed in IH. destruct (peek _ r _) as [[magic r']|e]; cbn beta iota in IH |- *; cbn [fst snd] in *.
      * destruct IH as [-> ->]. rewrite <- app_assoc, (take_app_ge (b :: chunk)), (drop_app_ge (b :: chunk)) by lia. done.
      * destruct IH. rewrite length_app. split; [lia|done].
    + cbn [fst snd]. rewrite take_app_le, drop_app_le by lia. split; [done|].
      destruct (drop (S n) (b :: chunk)) eqn:Edr.
      { apply (f_equal length) in Edr. rewrite length_drop in Edr. simpl in *. lia. }
      cbn [delivers]. by rewrite Ed.
  - destruct n; simpl; [by rewrite app_nil_r|]. split; [lia|done].
Qed.

(** However the blob arrives in pieces, the decompressor is chosen by its
    first four bytes and is given the whole blob. *)
Theorem sniff_lossless `{LayerCrates} r stream :
  decompress_layer_reader r = Ok stream ->
  let magic := take 4 (delivers r).1 in
  exists whole, delivers whole = delivers r
  /\ if decide (take 2 magic = [0x1f; 0x8b]) then stream = gunzip whole
     else if decide (magic = [0x28; 0xb5; 0x2f; 0xfd]) then unzstd whole = Ok stream
     else stream = whole.
Proof.
  unfold decompress_layer_reader. pose proof (peek_spec 4 r []) as Hp.
  destruct (peek 4 r []) as [[magic r']|e]; [|done]. destruct Hp as [Hm Hd]. simpl in Hm.
  intros Hs. rewrite <- Hm. exists (chain magic r'). split.
  { destruct (delivers r) as [d eo]. cbn [fst snd] in *. rewrite <- (take_drop 4 d), <- Hm.
    destruct magic; cbn [chain delivers]; by rewrite Hd. }
  revert Hs. destruct (decide (take 2 magic = _)) as [H2|H2].
  - rewrite (bool_decide_eq_true_2 (take 2 magic = _)) by done.
    assert (2 <= length magic)%nat by (apply (f_equal length) in H2; rewrite length_take in H2; cbn [length] in H2; lia).
    replace (Z.of_nat (length magic) >=? 2) with true by lia. simpl. congruence.
  - rewrite (bool_decide_eq_false_2 (take 2 magic = _)), andb_false_r by done.
    destruct (decide (magic = _)) as [H4|H4].
    + rewrite (bool_decide_eq_true_2 (magic = _)) by done. rewrite H4. simpl. done.
    + rewrite (bool_decide_eq_false_2 (magic = _)), andb_false_r by done. congruence.
Qed.

(** A whiteout marker [dir/.wh.name] becomes overlayfs's
    whiteout at [dir/name], replacing whatever the layer had there; an opaque
    marker makes its directory opaque. Missing directories on the way are
    made, and nothing else changes. *)
Theorem whiteout_translated `{LayerCrates} dir_mode dest e path ns name x :
  tree_ok (x_fs x) -> good dest -> dir_at (x_fs x) dest ->
  e_path e = Ok path -> jailed_join (x_fs x) dest path = Some (dest ++ ns ++ [name]) ->
  file_name path = Some name -> utf8_valid name = true -> free (x_fs x) (dest ++ ns) -> has_nul ns = false ->
  let r := extract_entry dir_mode dest (Ok e) x in
  exists fs1, with_dirs dir_mode (dest ++ ns) (x_fs x) fs1
  /\ match classify_layer_entry name with
     | Whiteout removed =>
         good [removed] ->
         r.1 = Ok tt /\ forall q, x_fs r.2 !! q =
           if bool_decide (q = dest ++ ns ++ [removed]) then Some (MkNode KWhiteout 0 false)
           else if bool_decide (dest ++ ns ++ [removed] `prefix_of` q) then None else fs1 !! q
     | OpaqueDir =>
         r.1 = Ok tt /\ exists n, fs1 !! (dest ++ ns) = Some n
           /\ x_fs r.2 = <[dest ++ ns := MkNode (kind n) (perm n) true]> fs1
     | NormalEntry => True
     end.
Proof.
  intros Ht Hg Hd He Hj Hf Hu Hfree Hn.
  apply jailed_join_spec in Hj as Hj'; [|done..]. destruct Hj' as (Hns & _ & [_ [Hp _]%Forall_app]%Forall_app).
  assert (good (dest ++ ns)) as Hgn by (by apply good_app).
  destruct (create_dirs_exact (length (dest ++ ns)) dir_mode (dest ++ ns) (x_fs x)) as (fs1 & Ec & Hw); [done..|].
  pose proof (with_dirs_tree _ _ _ _ Ht Hfree Hw) as Ht1. pose proof (with_dirs_dir _ _ _ _ Hw Hfree) as Hd1.
  exists fs1. split; [done|]. unfold extract_entry. cbn [result_bind]. rewrite He. cbn [result_bind].
  destruct (classify_layer_entry name) as [|removed|] eqn:Ecl; [| |done].
  all: rewrite (marker_not_sentinel path name) by (done || by rewrite Ecl).
  all: rewrite Hj, Hf; cbn [mbind option_bind]; unfold from_utf8; rewrite Hu; cbn [mbind option_bind]; rewrite Ecl.
  all: unfold at_parent; rewrite parent_below; unfold create_dir_all; rewrite Ec.
  - destruct (dir_at_node _ _ Hd1) as (n & Hl & _). unfold set_overlay_opaque, setxattr_opaque, change.
    rewrite walk_dir, Hl by done. split; [done|]. by exists n.
  - intros Hgr. assert (good ((dest ++ ns) ++ [removed])) as Hgt by (by apply good_app).
    destruct (whiteout_exact fs1 (dest ++ ns) removed Ht1 Hgt Hd1) as [E1 E2]. rewrite <- app_assoc in *.
    unfold join. rewrite <- app_assoc. unfold io. rewrite E1. split; [done|]. exact E2.
Qed.
End OciProps.

(** ** A concrete unpacker, and layers that reach outside *)

Module OciSample.
Import Str Path FileSys FileSysFacts OciLayer OciFacts OciProps.

(** Directories, files and links, as [tar] extracts them: a directory takes
    the declared mode, anything else replaces what is no directory. *)
Definition node_of (e : Entry) : option Node :=
  match entry_type e with
  | Directory => Some (MkNode KDir (e_mode e) false)
  | Symlink => Some (MkNode (KSymlink (e_data e)) 0x1FF false)
  | Regular => Some (MkNode (KFile (e_data e)) (e_mode e) false)
  | _ => None
  end.
Definition put_node (full : PathBuf) (n : Node) (fs : Fs) : result unit Errno * Fs :=
  match kind_at fs full, kind n with
  | Some KDir, KDir => set_permissions (perm n) full fs
  | Some KDir, _ => (Err EEXIST, fs)
  | _, _ => (Ok tt, <[full := n]> fs)
  end.
Definition sample_unpack (e : Entry) (dest : PathBuf) (fs : Fs) : result unit Errno * Fs :=
  match (let? path := e_path e in ok_or (jailed_join fs dest path) (Stream 0)), node_of e with
  | Ok full, Some n =>
      if bool_decide (full = dest) then (Ok tt, fs)
      else
        match create_dir_all 0x1ED (removelast full) fs with
        | (Ok _, fs) => put_node full n fs
        | failed => failed
        end
  | _, _ => (Err EINVAL, fs)
  end.
#[export] Instance sample_crates : LayerCrates := {|
  gunzip := id; unzstd := Ok; unpack_in := sample_unpack;
  archive := fun _ => [Ok (MkEntry (Ok (bs "etc/hosts")) Regular (Ok None) (Some 3) 0x1A4 (bs "abc"))];
|}.

Lemma put_inside dest fs ns y n :
  good dest -> tree_ok fs -> dir_at fs dest -> Forall plain (ns ++ [y]) -> clear fs (dest ++ ns ++ [y]) ->
  dir_at fs (dest ++ ns) ->
  let fs' := (put_node (dest ++ ns ++ [y]) n fs).2 in inside dest fs fs' /\ keeps_dirs fs fs'.
Proof.
  intros Hg Ht Hd Hp Hc Hup. unfold put_node.
  assert (~ dir_at fs (dest ++ ns ++ [y]) ->
    inside dest fs (<[dest ++ ns ++ [y] := n]> fs) /\ keeps_dirs fs (<[dest ++ ns ++ [y] := n]> fs)) as Hput.
  { intros Hnd. split.
    - apply inside_insert; [done|by eexists| |].
      + apply tree_put; [done|done|]. by rewrite app_assoc, removelast_last.
      + intros Hl%(f_equal length). rewrite !length_app in Hl. simpl in Hl. lia.
    - intros p Hdp. unfold dir_at. rewrite kind_at_insert. case_bool_decide; [by subst|done]. }
  destruct (decide (dir_at fs (dest ++ ns ++ [y]))) as [Hdy|Hdy].
  - rewrite Hdy. destruct (kind n); try (split; [done|by intros ?]). split.
    + by apply change_below.
    + intros p Hdp. unfold dir_at, set_permissions. by rewrite change_kind.
  - specialize (Hput Hdy). unfold dir_at in Hdy. by destruct (kind_at fs _) as [[]|].
Qed.

Lemma sample_step e dest fs :
  good dest -> tree_ok fs -> dir_at fs dest ->
  inside dest fs (sample_unpack e dest fs).2 /\ keeps_dirs fs (sample_unpack e dest fs).2.
Proof.
  intros Hg Ht Hd. unfold sample_unpack.
  assert (inside dest fs fs /\ keeps_dirs fs fs) as Hsame by (split; [done|by intros ?]).
  destruct (e_path e) as [path|]; [|done]. cbn [result_bind].
  destruct (jailed_join fs dest path) as [full|] eqn:Ej; [|done]. cbn [ok_or].
  destruct (node_of e) as [n|]; [|done]. apply jailed_join_spec in Ej as (-> & Hc & _); [|done..].
  case_bool_decide as Hne; [done|]. pose proof (components_plain path) as Hp.
  destruct (normals (components path)) as [|y ns _] using rev_ind; [by rewrite app_nil_r in Hne|].
  replace (removelast (dest ++ ns ++ [y])) with (dest ++ ns) by (by rewrite app_assoc, removelast_last).
  unfold create_dir_all.
  assert (clear fs (dest ++ ns)) as Hcn by (eapply clear_app; by rewrite <- app_assoc).
  pose proof Hp as [Hpn _]%Forall_app.
  destruct (create_dirs_inside dest Hg (length (dest ++ ns)) 0x1ED ns fs Ht Hd Hpn Hcn) as [Hgr Hok].
  destruct (create_dirs _ _ _ _) as [[[]|err] fs1]; simpl in *; [|split; apply Hgr].
  pose proof Hgr as ((Ht1 & Hd1 & Ho1) & Hk1 & _).
  destruct (put_inside dest fs1 ns y n Hg Ht1 Hd1 Hp) as [H1 H2]; [by eapply grows_clear|by apply Hok|].
  split; [eapply inside_trans; [apply Hgr|exact H1]|eapply keeps_dirs_trans; [exact Hk1|exact H2]].
Qed.

#[export] Instance sample_confined : ConfinedUnpack.
Proof. split; intros; by apply sample_step. Qed.

(** A host with two layers in its cache and a file outside. *)
Definition host : Fs := list_to_map
  [([], MkNode KDir 0x1ED false); ([bs "cache"], MkNode KDir 0x1ED false);
   ([bs "cache"; bs "a"], MkNode KDir 0x1ED false);
   ([bs "cache"; bs "a"; bs "f"], MkNode (KFile (bs "x")) 0x1A4 false);
   ([bs "cache"; bs "b"], MkNode KDir 0x1ED false); ([bs "shadow"], MkNode (KFile (bs "x")) 0x180 false)].
Definition layer_dir : PathBuf := [bs "cache"; bs "b"].
Definition entry (t : EntryType) (path : string) (mode : Z) (data : bytes) : result Entry IoError :=
  Ok (MkEntry (Ok (bs path)) t (Ok None) None mode data).

Lemma tree_decided fs :
  dir_at fs [] -> map_Forall (fun p _ => p = [] \/ dir_at fs (removelast p)) fs -> tree_ok fs.
Proof.
  intros Hr Hf. split; [done|]. intros p seg [n Hn]. destruct (Hf _ _ Hn) as [Hp|Hp]; [by destruct p|].
  by rewrite removelast_last in Hp.
Qed.
Lemma good_decided p : forallb (fun seg => negb (stays seg) && negb (bool_decide (seg = DOTDOT))) p && negb (has_nul p) = true -> good p.
Proof.
  intros [Hf Hn]%andb_true_iff. split; [|by apply negb_true_iff]. apply Forall_forall. intros seg Hin%list_elem_of_In.
  rewrite forallb_forall in Hf. specialize (Hf seg Hin). apply andb_true_iff in Hf as [Hs Hd].
  split; [by apply negb_true_iff|]. by apply negb_true_iff, bool_decide_eq_false in Hd.
Qed.
Lemma host_tree : tree_ok host.
Proof. apply tree_decided; [reflexivity|]. apply (bool_decide_unpack _). by vm_compute. Qed.
Lemma layer_good : good layer_dir.
Proof. by apply good_decided; vm_compute. Qed.

(** The sample layer has one file, with no marker. *)
Lemma layer_contained_witness :
  let fs' := (extract_oci_layer_with_size 0x1ED [Ok (bs "tar")] layer_dir host).2 in
  fs' !! [bs "shadow"] = host !! [bs "shadow"]
  /\ fs' !! (layer_dir ++ [bs "etc"; bs "hosts"]) = Some (MkNode (KFile (bs "abc")) 0x1A4 false).
Proof.
  intros fs'. split; [|vm_compute; reflexivity].
  apply (layer_contained 0x1ED [Ok (bs "tar")] layer_dir host).
  - exact layer_good.
  - split_and!; [exact host_tree|reflexivity|]. intros _ n Hn. vm_compute in Hn. injection Hn as <-. reflexivity.
  - intros stream _. constructor; [by vm_compute|constructor].
  - intros stream _. constructor; [by vm_compute|constructor].
  - intros Hp. apply (bool_decide_pack _) in Hp. by vm_compute in Hp.
Defined.

Definition marker_entry (path : string) : Entry := MkEntry (Ok (bs path)) Regular (Ok None) None 0 [].
Lemma free_decided fs p :
  forallb (fun i => match kind_at fs (take i p) with None => true | Some k => bool_decide (k = KDir) end)
    (seq 0 (S (length p))) = true -> free fs p.
Proof.
  intros Hf q [k ->]. rewrite forallb_forall in Hf.
  specialize (Hf (length q) ltac:(apply in_seq; rewrite length_app; lia)). rewrite take_app_length in Hf.
  unfold dir_at, kind_at in *. destruct (fs !! q) as [n|]; [right|by left].
  simpl in *. by apply bool_decide_eq_true_1 in Hf as ->.
Qed.

Lemma whiteout_translated_witness :
  let r := extract_entry 0x1ED layer_dir (Ok (marker_entry "etc/.wh.x")) (MkExtract host ∅ ∅ 0) in
  r.1 = Ok tt /\ x_fs r.2 !! (layer_dir ++ [bs "etc"; bs "x"]) = Some (MkNode KWhiteout 0 false)
  /\ x_fs r.2 !! [bs "shadow"] = host !! [bs "shadow"].
Proof.
  intros r.
  destruct (whiteout_translated 0x1ED layer_dir (marker_entry "etc/.wh.x") (bs "etc/.wh.x") [bs "etc"] (bs ".wh.x")
    (MkExtract host ∅ ∅ 0)) as (fs1 & Hw & Hm).
  - exact host_tree.
  - exact layer_good.
  - reflexivity.
  - reflexivity.
  - by vm_compute.
  - by vm_compute.
  - by vm_compute.
  - by apply free_decided; vm_compute.
  - by vm_compute.
  - destruct Hm as [H1 H2]; [by apply good_decided; vm_compute|]. split; [exact H1|].
    split; [exact (H2 _)|]. etrans; [exact (H2 [bs "shadow"])|]. etrans; [exact (Hw [bs "shadow"])|]. by vm_compute.
Defined.

(** One entry, [.wh...], empties the directory that holds all the layers: the
    whiteout of the name [..] is a recursive removal of the parent. *)
Theorem dotdot_whiteout_wipes_parent :
  let r := extract_archive 0x1ED layer_dir [entry Regular ".wh..." 0 []] host in
  is_ok r.1 = false /\ map_to_list (filter (fun kv => below [bs "cache"] kv.1 = true) r.2) = [].
Proof. vm_compute. done. Qed.

(** A layer that declares a directory, whites it out and puts a link in its
    place changes the mode of the link's target, here a private file that
    everybody may then read and write. *)
Theorem restored_mode_follows_link :
  let r := extract_archive 0x1ED layer_dir
    [entry Directory "d" 0x17F []; entry Regular "d/f" 0x1A4 []; entry Regular ".wh.d" 0 [];
     entry Symlink "d" 0 (bs "/shadow")] host in
  is_ok r.1 = true /\ option_map perm (host !! [bs "shadow"]) = Some 0x180
  /\ option_map perm (r.2 !! [bs "shadow"]) = Some 0x17F.
Proof. vm_compute. done. Qed.
End OciSample.
