(* ===== verification/Ring.v ===== *)
(** * Ring: the shared-memory command ring (crates/smolvm-cuda/src/ring.rs)

    One ring is its geometry, the three words of its header (head, tail, flags)
    and its records, kept by the address [record_ptr] gives them: a page and an
    offset in it. The operations run one after the other here, each as a whole;
    [Doorbell] takes them apart into their loads, stores and fences, run by a
    producer and a consumer on a store-buffer memory. *)

From S2P Require Import Prelude.

Module Ring.

Definition RECORD_SIZE : Z := 1024.
Definition RECORD_HDR : Z := 8.
Definition INLINE_MAX : Z := RECORD_SIZE - RECORD_HDR.
Definition HEADER_SIZE : Z := 64.
Definition FLAG_PARKED : Z := 1.
Definition LEN_INDIRECT : Z := Z.shiftl 1 31.

(** A record: its sequence word, its length word and its payload area. *)
Record Rec := MkRec { r_seq : Z; r_len : Z; r_body : bytes }.
Definition zero_rec : Rec := MkRec 0 0 (replicate (Z.to_nat INLINE_MAX) 0).

Record Ring := MkRing {
  num_pages : Z;
  page_size : Z;
  capacity : Z;
  head : Z;
  tail : Z;
  flags : Z;
  recs : gmap (Z * Z) Rec;
}.

Definition capacity_for (num_pages page_size : Z) : Z :=
  let first := (page_size - HEADER_SIZE) / RECORD_SIZE in
  let rest := (num_pages - 1) * (page_size / RECORD_SIZE) in
  wrap 32 (first + rest).

(** Zeroed pages. *)
Definition from_pages (num_pages page_size : Z) : Ring :=
  MkRing num_pages page_size (capacity_for num_pages page_size) 0 0 0 ∅.

(** (page, offset in the page) of record [slot]. *)
Definition record_ptr (r : Ring) (slot : Z) : Z * Z :=
  let first_cap := (page_size r - HEADER_SIZE) / RECORD_SIZE in
  if slot <? first_cap then (0, HEADER_SIZE + slot * RECORD_SIZE)
  else
    let per_page := page_size r / RECORD_SIZE in
    let rest := slot - first_cap in
    (1 + rest / per_page, rest mod per_page * RECORD_SIZE).

Definition rec_at (r : Ring) (p : Z * Z) : Rec := default zero_rec (recs r !! p).

(** [copy_nonoverlapping] to the start of the payload area. *)
Definition copy_in (payload body : bytes) : bytes := payload ++ drop (length payload) body.

Definition try_push (payload : bytes) (fl : Z) (r : Ring) : bool * Ring :=
  let seq := head r in
  if wrapping_sub 32 seq (tail r) >=? capacity r then (false, r)
  else
    let p := record_ptr r (seq mod capacity r) in
    let rec := MkRec (wrapping_add 32 seq 1) (Z.lor (wrap 32 (len payload)) fl)
                 (copy_in payload (r_body (rec_at r p))) in
    (true, MkRing (num_pages r) (page_size r) (capacity r) (wrapping_add 32 seq 1) (tail r)
             (flags r) (<[p := rec]> (recs r))).

Definition try_pop (r : Ring) : option (bytes * Z) * Ring :=
  let seq := tail r in
  let rec := rec_at r (record_ptr r (seq mod capacity r)) in
  if negb (r_seq rec =? wrapping_add 32 seq 1) then (None, r)
  else
    let lf := r_len rec in
    let n := Z.land lf (Z.lxor (u_max 32) LEN_INDIRECT) in
    let payload := take (Z.to_nat (Z.min n INLINE_MAX)) (r_body rec) in
    (Some (payload, Z.land lf LEN_INDIRECT),
     MkRing (num_pages r) (page_size r) (capacity r) (head r) (wrapping_add 32 seq 1)
       (flags r) (recs r)).

Definition set_flags (f : Z) (r : Ring) : Ring :=
  MkRing (num_pages r) (page_size r) (capacity r) (head r) (tail r) f (recs r).

Definition unpark (r : Ring) : Ring :=
  set_flags (Z.land (flags r) (Z.lxor (u_max 32) FLAG_PARKED)) r.

(** ** Specification: a bounded queue *)

Inductive RingOp :=
| Push (payload : bytes) (fl : Z)
| Pop.
Inductive Outcome :=
| Pushed (ok : bool)
| Popped (r : option (bytes * Z)).

Definition ring_op (op : RingOp) (r : Ring) : Outcome * Ring :=
  match op with
  | Push p f => let (b, r) := try_push p f r in (Pushed b, r)
  | Pop => let (o, r) := try_pop r in (Popped o, r)
  end.
Definition queue_op (cap : Z) (op : RingOp) (q : list (bytes * Z)) : Outcome * list (bytes * Z) :=
  match op with
  | Push p f => if len q <? cap then (Pushed true, q ++ [(p, f)]) else (Pushed false, q)
  | Pop => match q with [] => (Popped None, []) | x :: q => (Popped (Some x), q) end
  end.

Fixpoint ring_run (ops : list RingOp) (r : Ring) : list Outcome * Ring :=
  match ops with
  | [] => ([], r)
  | op :: ops =>
      let (o, r) := ring_op op r in
      let (os, r) := ring_run ops r in (o :: os, r)
  end.
Fixpoint queue_run (cap : Z) (ops : list RingOp) (q : list (bytes * Z)) :
    list Outcome * list (bytes * Z) :=
  match ops with
  | [] => ([], q)
  | op :: ops =>
      let (o, q) := queue_op cap op q in
      let (os, q) := queue_run cap ops q in (o :: os, q)
  end.

End Ring.

Module RingFacts.
Import Ring.

(** ** Layout *)

Definition geometry (n ps : Z) : Prop := 1 <= n /\ RECORD_SIZE + HEADER_SIZE <= ps.

Section Layout.
Context (n ps : Z) (Hg : geometry n ps).
Let first_cap := (ps - HEADER_SIZE) / RECORD_SIZE.
Let per_page := ps / RECORD_SIZE.

Lemma first_cap_bounds : 1 <= first_cap /\ HEADER_SIZE + first_cap * RECORD_SIZE <= ps.
Proof.
  destruct Hg as [_ H]. unfold first_cap, RECORD_SIZE, HEADER_SIZE in *.
  pose proof (Z.div_mod (ps - 64) 1024). pose proof (Z.mod_pos_bound (ps - 64) 1024).
  split; [|lia]. apply Z.div_le_lower_bound; lia.
Qed.
Lemma per_page_bounds : 1 <= per_page /\ per_page * RECORD_SIZE <= ps.
Proof.
  destruct Hg as [_ H]. unfold per_page, RECORD_SIZE, HEADER_SIZE in *.
  pose proof (Z.div_mod ps 1024). pose proof (Z.mod_pos_bound ps 1024).
  split; [|lia]. apply Z.div_le_lower_bound; lia.
Qed.

(** Every slot below the capacity is a whole record inside one page of the
    list, past the header on the first. *)
Lemma record_ptr_bounds r slot page off :
  page_size r = ps -> 0 <= slot < first_cap + (n - 1) * per_page ->
  record_ptr r slot = (page, off) ->
  0 <= page < n /\ 0 <= off /\ off + RECORD_SIZE <= ps /\ (page = 0 -> HEADER_SIZE <= off).
Proof.
  intros Hps Hs. unfold record_ptr. rewrite Hps. fold first_cap per_page.
  pose proof first_cap_bounds as [F1 F2]. pose proof per_page_bounds as [P1 P2].
  destruct Hg as [Hn _].
  destruct (Z.ltb_spec slot first_cap); intros [= <- <-].
  - unfold RECORD_SIZE, HEADER_SIZE in *. split; [lia|]. split; [lia|]. split; [nia|lia].
  - pose proof (Z.div_mod (slot - first_cap) per_page).
    pose proof (Z.mod_pos_bound (slot - first_cap) per_page).
    assert (0 <= (slot - first_cap) / per_page < n - 1).
    { split; [apply Z.div_pos; lia|]. apply Z.div_lt_upper_bound; nia. }
    unfold RECORD_SIZE, HEADER_SIZE in *. split; [lia|]. split; [nia|]. split; [nia|lia].
Qed.

Lemma record_ptr_inj r s t :
  page_size r = ps -> 0 <= s -> 0 <= t -> record_ptr r s = record_ptr r t -> s = t.
Proof.
  intros Hps Hs Ht. unfold record_ptr. rewrite Hps. fold first_cap per_page.
  pose proof per_page_bounds as [P1 _].
  destruct (Z.ltb_spec s first_cap), (Z.ltb_spec t first_cap); intros E; inv E;
    unfold RECORD_SIZE, HEADER_SIZE in *.
  - lia.
  - pose proof (Z.div_pos (t - first_cap) per_page). lia.
  - pose proof (Z.div_pos (s - first_cap) per_page). lia.
  - pose proof (Z.div_mod (s - first_cap) per_page). pose proof (Z.div_mod (t - first_cap) per_page).
    assert ((s - first_cap) mod per_page = (t - first_cap) mod per_page) by nia. nia.
Qed.

End Layout.

(** ** The length word *)

Definition valid_push (p : bytes) (fl : Z) : Prop :=
  len p <= INLINE_MAX /\ (fl = 0 \/ fl = LEN_INDIRECT).
#[global] Instance valid_push_dec p fl : Decision (valid_push p fl).
Proof. unfold valid_push. apply _. Defined.

Definition len_word_ok (n : Z) : Prop :=
  forall fl, fl ∈ [0; LEN_INDIRECT] ->
  Z.land (Z.lor (wrap 32 n) fl) (Z.lxor (u_max 32) LEN_INDIRECT) = n
  /\ Z.land (Z.lor (wrap 32 n) fl) LEN_INDIRECT = fl.
Lemma len_word n : 0 <= n <= INLINE_MAX -> len_word_ok n.
Proof.
  intros H. apply (Z_range_ind len_word_ok 1017); [|unfold INLINE_MAX, RECORD_SIZE, RECORD_HDR in H; lia].
  assert (forallb (fun n => forallb (fun fl =>
    (Z.land (Z.lor (wrap 32 n) fl) (Z.lxor (u_max 32) LEN_INDIRECT) =? n)
    && (Z.land (Z.lor (wrap 32 n) fl) LEN_INDIRECT =? fl)) [0; LEN_INDIRECT]) (seqZ 0 1017) = true)
    as E by by vm_compute.
  apply Forall_forall. intros k Hk fl Hfl. rewrite forallb_forall in E.
  apply list_elem_of_In in Hk. specialize (E k Hk). rewrite forallb_forall in E.
  apply list_elem_of_In in Hfl. specialize (E fl Hfl). apply andb_true_iff in E as [E1 E2].
  by rewrite Z.eqb_eq in E1, E2.
Qed.

Lemma mod_close c a b : 0 < c -> 0 <= b - a < c -> a mod c = b mod c -> a = b.
Proof.
  intros Hc Hab E. pose proof (Z.div_mod a c). pose proof (Z.div_mod b c).
  assert (b / c = a / c) by nia. lia.
Qed.

(** ** Simulation of the bounded queue *)

Definition holds (r : Ring) (i : Z) (x : bytes * Z) : Prop :=
  let rec := rec_at r (record_ptr r (i mod capacity r)) in
  r_seq rec = i + 1 /\ r_len rec = Z.lor (wrap 32 (len x.1)) x.2
  /\ take (length x.1) (r_body rec) = x.1.

Record sim (n ps : Z) (r : Ring) (q : list (bytes * Z)) : Prop := {
  sim_geometry : geometry n ps;
  sim_size : page_size r = ps;
  sim_cap : 0 < capacity r < 2 ^ 32;
  sim_tail : 0 <= tail r;
  sim_head : head r = tail r + len q;
  sim_room : len q <= capacity r;
  sim_bound : head r < 2 ^ 32;
  sim_valid : Forall (fun x => valid_push x.1 x.2) q;
  sim_records : forall k x, q !! k = Some x -> holds r (tail r + Z.of_nat k) x;
  sim_recs : forall p, 0 <= r_seq (rec_at r p) <= head r
                       /\ length (r_body (rec_at r p)) = Z.to_nat INLINE_MAX;
}.

Lemma rec_at_insert r p rec p' n ps c h t f :
  rec_at (MkRing n ps c h t f (<[p := rec]> (recs r))) p' = if decide (p = p') then rec else rec_at r p'.
Proof.
  unfold rec_at. cbn [recs]. case_decide as E; [subst; by rewrite lookup_insert_eq|].
  by rewrite lookup_insert_ne.
Qed.

Lemma push_sim n ps r q p fl :
  sim n ps r q -> valid_push p fl -> head r + 1 < 2 ^ 32 ->
  exists r', ring_op (Push p fl) r = ((queue_op (capacity r) (Push p fl) q).1, r')
  /\ sim n ps r' (queue_op (capacity r) (Push p fl) q).2 /\ capacity r' = capacity r
  /\ head r' <= head r + 1.
Proof.
  intros [Hg Hps Hcap Ht Hh Hroom Hb Hv Hrec Hrecs] Hp Hnext.
  pose proof (len_nonneg q) as Hq.
  cbn [ring_op queue_op]. unfold try_push, wrapping_sub, wrap. rewrite Z.mod_small by lia.
  replace (head r - tail r) with (len q) by lia. rewrite Z.geb_leb.
  destruct (Z.ltb_spec (len q) (capacity r)), (Z.leb_spec (capacity r) (len q)); try lia.
  2:{ cbn [fst snd]. exists r. split; [done|]. split; [by constructor|]. split; [done|lia]. }
  unfold wrapping_add, wrap. rewrite !(Z.mod_small (head r + 1)) by lia.
  set (addr := record_ptr r (head r mod capacity r)).
  set (rec := MkRec _ _ _). cbn [fst snd]. eexists. split; [done|].
  split; [|split; [done|cbn [head]; lia]].
  pose proof (len_nonneg p) as Hpl. destruct Hp as [Hp1 Hp2].
  assert (Hbody : length (r_body rec) = Z.to_nat INLINE_MAX).
  { destruct (Hrecs addr) as [_ Hl]. cbn [rec r_body]. unfold copy_in.
    rewrite length_app, length_drop, Hl. unfold len in *. lia. }
  constructor; cbn [page_size capacity head tail]; try done; try lia.
  - rewrite len_app, len_cons, len_nil. lia.
  - rewrite len_app, len_cons, len_nil. lia.
  - apply Forall_app. split; [done|]. constructor; [by split|constructor].
  - intros k x Hk. unfold holds. cbn [capacity].
    set (r' := MkRing _ _ _ _ _ _ _).
    change (record_ptr r' ?z) with (record_ptr r z). unfold r'. rewrite rec_at_insert.
    apply lookup_app_Some in Hk as [Hk|[Hk1 Hk2]].
    + pose proof (lookup_lt_Some _ _ _ Hk) as Hlt.
      rewrite decide_False; [by apply Hrec|]. intros E.
      pose proof (Z.mod_pos_bound (head r) (capacity r)).
      pose proof (Z.mod_pos_bound (tail r + Z.of_nat k) (capacity r)).
      apply (record_ptr_inj n ps Hg r) in E; [|done|lia|lia].
      symmetry in E. apply mod_close in E; unfold len in *; lia.
    + apply list_lookup_singleton_Some in Hk2 as [Hk2 <-].
      assert (tail r + Z.of_nat k = head r) as -> by (unfold len in *; lia).
      rewrite decide_True by done. cbn [rec r_seq r_len r_body fst snd].
      split; [done|]. split; [done|]. unfold copy_in. by rewrite take_app_length.
  - intros p'. rewrite rec_at_insert. case_decide.
    + split; [cbn [rec r_seq]; lia|done].
    + destruct (Hrecs p'). split; [lia|done].
Qed.

Lemma pop_sim n ps r q :
  sim n ps r q -> head r + 1 < 2 ^ 32 ->
  exists r', ring_op Pop r = ((queue_op (capacity r) Pop q).1, r')
  /\ sim n ps r' (queue_op (capacity r) Pop q).2 /\ capacity r' = capacity r /\ head r' = head r.
Proof.
  intros Hs Hnext. pose proof Hs as [Hg Hps Hcap Ht Hh Hroom Hb Hv Hrec Hrecs].
  pose proof (len_nonneg q) as Hq.
  cbn [ring_op queue_op]. unfold try_pop, wrapping_add, wrap.
  rewrite !(Z.mod_small (tail r + 1)) by lia.
  set (addr := record_ptr r (tail r mod capacity r)).
  destruct q as [|[p fl] q].
  - rewrite len_nil in Hh. destruct (Hrecs addr) as [Hle _].
    destruct (Z.eqb_spec (r_seq (rec_at r addr)) (tail r + 1)); [lia|].
    cbn [negb fst snd]. exists r. done.
  - specialize (Hrec 0%nat (p, fl) eq_refl) as H0. unfold holds in H0.
    rewrite Z.add_0_r in H0. fold addr in H0. cbn [fst snd] in H0. destruct H0 as (E1 & E2 & E3).
    rewrite E1, Z.eqb_refl, E2. cbn [negb]. apply Forall_cons in Hv as [[Hp1 Hp2] Hv].
    cbn [fst snd] in *.
    destruct (len_word (len p)) with (fl := fl) as [L1 L2];
      [pose proof (len_nonneg p); lia|destruct Hp2 as [-> | ->]; [left|right; left]|].
    rewrite L1, L2. rewrite Z.min_l by done. unfold len at 1. rewrite Nat2Z.id, E3.
    eexists. split; [done|]. split; [|done].
    rewrite len_cons in *. constructor; cbn [page_size capacity head tail]; try done; try lia.
    intros k x Hk. specialize (Hrec (S k) x Hk). unfold holds in *. cbn [capacity].
    replace (tail r + 1 + Z.of_nat k) with (tail r + Z.of_nat (S k)) by lia. exact Hrec.
Qed.

Definition is_push (op : RingOp) : bool := match op with Push _ _ => true | Pop => false end.
Definition pushes (ops : list RingOp) : Z := len (List.filter is_push ops).
Definition op_valid (op : RingOp) : Prop :=
  match op with Push p fl => valid_push p fl | Pop => True end.

Lemma run_sim n ps ops r q :
  sim n ps r q -> Forall op_valid ops -> head r + pushes ops + 1 < 2 ^ 32 ->
  (ring_run ops r).1 = (queue_run (capacity r) ops q).1
  /\ sim n ps (ring_run ops r).2 (queue_run (capacity r) ops q).2.
Proof.
  revert r q. induction ops as [|op ops IH]; intros r q Hs Hv Hb; [done|].
  apply Forall_cons in Hv as [Hop Hv].
  pose proof (len_nonneg (List.filter is_push ops)) as Hn. unfold pushes in Hb.
  assert (exists r', ring_op op r = ((queue_op (capacity r) op q).1, r')
    /\ sim n ps r' (queue_op (capacity r) op q).2 /\ capacity r' = capacity r
    /\ head r' + len (List.filter is_push ops) <= head r + len (List.filter is_push (op :: ops)))
    as (r' & E & Hs' & Ec & Hh).
  { destruct op as [p fl|]; cbn [List.filter is_push] in *.
    - rewrite len_cons in Hb.
      destruct (push_sim n ps r q p fl) as (r' & ? & ? & ? & ?); [done|done|lia|].
      exists r'. rewrite len_cons. do 3 (split; [done|]). lia.
    - destruct (pop_sim n ps r q) as (r' & ? & ? & ? & ?); [done|lia|].
      exists r'. do 3 (split; [done|]). lia. }
  cbn [ring_run queue_run]. rewrite E. destruct (queue_op (capacity r) op q) as [o q'] eqn:Eq.
  cbn [fst snd] in *. destruct (IH r' q') as [H1 H2]; [done|done|unfold pushes; lia|].
  rewrite Ec in H1, H2. destruct (ring_run ops r') as [os r''], (queue_run (capacity r) ops q') as [os' q''].
  cbn [fst snd] in *. by rewrite H1.
Qed.

Lemma fresh_sim n ps :
  geometry n ps -> (ps - HEADER_SIZE) / RECORD_SIZE + (n - 1) * (ps / RECORD_SIZE) < 2 ^ 32 ->
  sim n ps (from_pages n ps) [].
Proof.
  intros Hg Hc. pose proof (first_cap_bounds n ps Hg) as [F _].
  pose proof (per_page_bounds n ps Hg) as [P _]. destruct Hg as [Hn Hps].
  assert (capacity_for n ps = (ps - HEADER_SIZE) / RECORD_SIZE + (n - 1) * (ps / RECORD_SIZE)) as E.
  { unfold capacity_for, wrap. apply Z.mod_small. nia. }
  constructor; cbn [from_pages page_size capacity head tail]; rewrite ?E, ?len_nil; try done;
    try nia; try lia.
Qed.

End RingFacts.

Module RingProps.
Import Ring RingFacts.

(** The records of a ring are disjoint and none straddles a page: every slot
    below the capacity lies whole inside one page of the list, past the header
    on the first page, and two slots never overlap. *)
Theorem ring_layout n ps s t page off page' off' :
  1 <= n -> RECORD_SIZE + HEADER_SIZE <= ps ->
  (ps - HEADER_SIZE) / RECORD_SIZE + (n - 1) * (ps / RECORD_SIZE) < 2 ^ 32 ->
  0 <= s < capacity (from_pages n ps) -> 0 <= t < capacity (from_pages n ps) -> s <> t ->
  record_ptr (from_pages n ps) s = (page, off) ->
  record_ptr (from_pages n ps) t = (page', off') ->
  (0 <= page < n /\ 0 <= off /\ off + RECORD_SIZE <= ps /\ (page = 0 -> HEADER_SIZE <= off))
  /\ (page <> page' \/ off + RECORD_SIZE <= off' \/ off' + RECORD_SIZE <= off).
Proof.
  intros Hn Hps Hc Hs Ht Hne Es Et. assert (Hg : geometry n ps) by done.
  pose proof (fresh_sim n ps Hg Hc) as Hsim. cbn [from_pages capacity] in Hs, Ht.
  unfold capacity_for, wrap in Hs, Ht.
  pose proof (first_cap_bounds n ps Hg) as [F _]. pose proof (per_page_bounds n ps Hg) as [P _].
  rewrite Z.mod_small in Hs, Ht by nia.
  split; [by apply (record_ptr_bounds n ps Hg (from_pages n ps) s)|].
  destruct (decide (page = page')) as [->|]; [right|by left].
  assert (Hmul : forall u pg o, record_ptr (from_pages n ps) u = (pg, o) ->
    exists k, o = (if decide (pg = 0) then HEADER_SIZE else 0) + k * RECORD_SIZE).
  { intros u pg o. unfold record_ptr. cbn [from_pages page_size].
    destruct (Z.ltb_spec u ((ps - HEADER_SIZE) / RECORD_SIZE)); intros [= <- <-]; [by exists u|].
    pose proof (Z.div_pos (u - (ps - HEADER_SIZE) / RECORD_SIZE) (ps / RECORD_SIZE)).
    rewrite decide_False by lia. eexists. by rewrite Z.add_0_l. }
  destruct (Hmul _ _ _ Es) as [k Hk], (Hmul _ _ _ Et) as [k' Hk'].
  assert (k <> k').
  { intros ->. apply Hne, (record_ptr_inj n ps Hg (from_pages n ps)); [done|lia|lia|].
    rewrite Es, Et. congruence. }
  unfold RECORD_SIZE, HEADER_SIZE in *. lia.
Qed.

Lemma ring_layout_witness :
  record_ptr (from_pages 2 4096) 2 = (0, 2112) /\ record_ptr (from_pages 2 4096) 3 = (1, 0)
  /\ 2112 + RECORD_SIZE <= 4096.
Proof.
  destruct (ring_layout 2 4096 2 3 0 2112 1 0) as [(_ & _ & H & _) _]; try by vm_compute.
Defined.

(** C18: The ring is a bounded first-in first-out queue: from zeroed pages, for any
    interleaving of pushes and pops with fewer than 2^32 pushes in all, every
    push reports full exactly when [capacity] records wait, and every pop
    returns the oldest waiting payload with its flag, byte for byte, or nothing
    when none waits. *)
Theorem ring_refines_queue n ps ops :
  1 <= n -> RECORD_SIZE + HEADER_SIZE <= ps ->
  (ps - HEADER_SIZE) / RECORD_SIZE + (n - 1) * (ps / RECORD_SIZE) < 2 ^ 32 ->
  Forall op_valid ops -> pushes ops + 1 < 2 ^ 32 ->
  (ring_run ops (from_pages n ps)).1 = (queue_run (capacity_for n ps) ops []).1.
Proof.
  intros Hn Hps Hc Hv Hb.
  apply (run_sim n ps ops (from_pages n ps) []); [by apply fresh_sim|done|done].
Qed.

Definition sample_ops : list RingOp :=
  [Push (bs "a") 0; Push (bs "b") LEN_INDIRECT; Push [] 0; Push (bs "full") 0; Pop; Pop; Pop; Pop].

Lemma ring_refines_queue_witness :
  (ring_run sample_ops (from_pages 1 4096)).1
  = [Pushed true; Pushed true; Pushed true; Pushed false; Popped (Some (bs "a", 0));
     Popped (Some (bs "b", LEN_INDIRECT)); Popped (Some ([], 0)); Popped None].
Proof.
  rewrite (ring_refines_queue 1 4096 sample_ops); [by vm_compute|done|done|by vm_compute| |by vm_compute].
  assert (V : forall p, (length p <= 4)%nat -> forall fl, fl = 0 \/ fl = LEN_INDIRECT -> valid_push p fl).
  { intros p Hp fl Hf. split; [|done]. unfold len, INLINE_MAX, RECORD_SIZE, RECORD_HDR. lia. }
  repeat constructor; try (by left); try (by right); vm_compute; discriminate.
Defined.

(** ** When the sequence number wraps *)

Definition ring_step (r r' : Ring) : Prop := exists op, op_valid op /\ r' = (ring_op op r).2.

(** One push and the pop of it, from an empty ring. *)
Lemma cycle_step n ps r :
  sim n ps r [] -> head r + 1 < 2 ^ 32 ->
  exists r', rtc ring_step r r' /\ sim n ps r' [] /\ head r' = head r + 1 /\ capacity r' = capacity r.
Proof.
  intros Hs Hb. assert (valid_push [] 0) as Hv by (by split; [vm_compute|left]).
  pose proof Hs as [_ _ Hcap _ _ _ _ _ _ _].
  destruct (push_sim n ps r [] [] 0 Hs Hv Hb) as (r1 & E1 & Hs1 & Hc1 & Hh1).
  unfold queue_op in E1, Hs1. change (len (@nil (bytes * Z))) with 0 in E1, Hs1.
  destruct (Z.ltb_spec 0 (capacity r)); [|lia]. cbn [fst snd app] in E1, Hs1.
  assert (Hhead : head r1 = head r + 1).
  { pose proof (sim_head _ _ _ _ Hs1) as A. pose proof (sim_head _ _ _ _ Hs) as B.
    rewrite len_cons, len_nil in A. rewrite len_nil in B.
    assert (tail r1 = tail r); [|lia].
    cbn [ring_op] in E1. destruct (try_push [] 0 r) as [b x] eqn:Ep. inv E1.
    unfold try_push in Ep. case_match; by inv Ep. }
  assert (Hpop : sim n ps (ring_op Pop r1).2 [] /\ head (ring_op Pop r1).2 = head r + 1
    /\ capacity (ring_op Pop r1).2 = capacity r).
  { pose proof Hs1 as [A1 A2 A3 A4 A5 A6 A7 A8 A9 A10]. rewrite len_cons, len_nil in A5.
    pose proof (A9 0%nat ([], 0) eq_refl) as H0. unfold holds in H0. rewrite Z.add_0_r in H0.
    cbn [fst snd length take] in H0. destruct H0 as (E & El & _).
    cbn [ring_op]. unfold try_pop, wrapping_add. 
    assert (wrap 32 (tail r1 + 1) = tail r1 + 1) as W by (apply Z.mod_small; lia).
    rewrite !W, !E, !Z.eqb_refl. cbn [negb fst snd].
    split; [|split; [exact Hhead|exact Hc1]].
    constructor; cbn [page_size capacity head tail]; rewrite ?len_nil; try done; try lia. }
  destruct Hpop as (H1 & H2 & H3).
  exists (ring_op Pop r1).2. split; [|done].
  apply (rtc_l _ _ r1); [exists (Push [] 0); by rewrite E1|].
  apply (rtc_l _ _ (ring_op Pop r1).2); [by exists Pop|]. apply rtc_refl.
Qed.

Lemma cycles n ps k :
  geometry n ps -> (ps - HEADER_SIZE) / RECORD_SIZE + (n - 1) * (ps / RECORD_SIZE) < 2 ^ 32 ->
  Z.of_nat k < 2 ^ 32 ->
  exists r, rtc ring_step (from_pages n ps) r /\ sim n ps r [] /\ head r = Z.of_nat k
  /\ capacity r = capacity_for n ps.
Proof.
  intros Hg Hc. induction k as [|k IH]; intros Hk.
  - exists (from_pages n ps). split; [apply rtc_refl|]. split; [by apply fresh_sim|done].
  - destruct IH as (r & Hr & Hs & Hh & Hcap); [lia|].
    destruct (cycle_step n ps r Hs) as (r' & Hr' & Hs' & Hh' & Hcap'); [lia|].
    exists r'. split; [by etransitivity|]. split; [done|]. split; [lia|congruence].
Qed.

(** Past 2^32 pushes the ring is not a queue: [capacity] does not divide
    2^32, so the slot of sequence 2^32 - 1 and the slot of the sequence after
    it, 0, can be the same. On a one-page ring a state is reachable by pushes
    and pops alone in which two pushes both succeed, the second overwrites the
    first, and the next pop finds nothing although records were accepted and
    the ring counts as non-empty. *)
Theorem ring_wrap_loses_records a b :
  valid_push a 0 -> valid_push b 0 ->
  exists r, rtc ring_step (from_pages 1 4096) r /\ head r = tail r
  /\ (ring_run [Push a 0; Push b 0; Pop; Pop] r).1
     = [Pushed true; Pushed true; Popped None; Popped None]
  /\ head (ring_run [Push a 0; Push b 0; Pop; Pop] r).2
     <> tail (ring_run [Push a 0; Push b 0; Pop; Pop] r).2.
Proof.
  intros Ha Hb. destruct (cycles 1 4096 (Z.to_nat (2 ^ 32 - 1))) as (r & Hr & Hs & Hh & Hc).
  { by vm_compute. } { by vm_compute. } { rewrite Z2Nat.id; lia. }
  rewrite Z2Nat.id in Hh by lia. pose proof (sim_head _ _ _ _ Hs) as Ht. rewrite len_nil in Ht.
  assert (capacity r = 3) as Hcap by (rewrite Hc; by vm_compute).
  exists r. split; [done|]. split; [lia|].
  assert (tail r = 2 ^ 32 - 1) as Htail by lia. cbn [ring_run ring_op].
  assert (exists r1, try_push a 0 r = (true, r1) /\ head r1 = 0 /\ tail r1 = 2 ^ 32 - 1
    /\ capacity r1 = 3) as (r1 & -> & E1 & E2 & E3).
  { unfold try_push. rewrite Hh, Htail, Hcap. eexists. split; [reflexivity|]. done. }
  assert (exists r2, try_push b 0 r1 = (true, r2) /\ head r2 = 1 /\ tail r2 = 2 ^ 32 - 1
    /\ capacity r2 = 3 /\ r_seq (rec_at r2 (record_ptr r2 0)) = 1)
    as (r2 & -> & F1 & F2 & F3 & F5).
  { unfold try_push. rewrite E1, E2, E3. eexists. split; [reflexivity|]. cbn [head tail capacity].
    repeat split; try done. unfold rec_at at 1. cbn [recs].
    change (record_ptr (MkRing _ (page_size r1) _ _ _ _ _) 0) with (record_ptr r1 0).
    by rewrite lookup_insert_eq. }
  assert (try_pop r2 = (None, r2)) as E.
  { unfold try_pop. rewrite F2, F3. change ((2 ^ 32 - 1) mod 3) with 0. by rewrite F5. }
  rewrite !E. cbn [fst snd]. split; [done|]. lia.
Qed.

Lemma ring_wrap_loses_records_witness :
  exists r, rtc ring_step (from_pages 1 4096) r
  /\ (ring_run [Push (bs "a") 0; Push (bs "b") 0; Pop; Pop] r).1
     = [Pushed true; Pushed true; Popped None; Popped None].
Proof.
  destruct (ring_wrap_loses_records (bs "a") (bs "b")) as (r & H1 & _ & H2 & _);
    [by split; [vm_compute|left]..|]. exists r. split; [exact H1|exact H2].
Defined.

End RingProps.
