(* ===== verification/Doorbell.v ===== *)
(** * Doorbell: the ring under store buffers (crates/smolvm-cuda/src/ring.rs)

    A producer publishes records and a consumer pops them, parks and sleeps,
    each one memory access at a time on a memory with store buffers (x86-TSO):
    a store waits in its thread's first-in first-out buffer until it is
    committed, a load sees the thread's own waiting stores and otherwise
    memory, and a read-modify-write or a [SeqCst] fence runs only with the
    thread's buffer empty. So the head advance of [try_push] may still wait
    while the producer reads the parked flag, unless the fence of
    [take_parked] keeps it from doing so. The callers' loops around the ring
    are here too: [ring_push] and [respond] (publish, then ring the doorbell
    when parked) and the waits of [ring_pop_response] and [serve_rings] (poll,
    park, block on the socket, unpark). The continue records of an oversized
    response, which the other side awaits without parking, are not. *)

From S2P Require Import Prelude Ring.

Module Doorbell.
Import Ring RingFacts.

(** The stores the two sides issue. *)
Inductive Store :=
| StBody (p : Z * Z) (payload : bytes)
| StLen (p : Z * Z) (v : Z)
| StSeq (p : Z * Z) (v : Z)
| StHead (v : Z)
| StTail (v : Z).

Definition set_rec (p : Z * Z) (f : Rec -> Rec) (r : Ring) : Ring :=
  MkRing (num_pages r) (page_size r) (capacity r) (head r) (tail r) (flags r)
    (<[p := f (rec_at r p)]> (recs r)).

Definition commit (st : Store) (r : Ring) : Ring :=
  match st with
  | StBody p payload => set_rec p (fun c => MkRec (r_seq c) (r_len c) (copy_in payload (r_body c))) r
  | StLen p v => set_rec p (fun c => MkRec (r_seq c) v (r_body c)) r
  | StSeq p v => set_rec p (fun c => MkRec v (r_len c) (r_body c)) r
  | StHead v => MkRing (num_pages r) (page_size r) (capacity r) v (tail r) (flags r) (recs r)
  | StTail v => MkRing (num_pages r) (page_size r) (capacity r) (head r) v (flags r) (recs r)
  end.

(** The stores of [try_push], in program order: payload, length, sequence
    (release), head (release). *)
Definition push_stores (r : Ring) (seq : Z) (payload : bytes) (fl : Z) : list Store :=
  let p := record_ptr r (seq mod capacity r) in
  [StBody p payload; StLen p (Z.lor (wrap 32 (len payload)) fl);
   StSeq p (wrapping_add 32 seq 1); StHead (wrapping_add 32 seq 1)].

(** A thread's own view of a word it alone writes: its newest waiting store,
    or memory. *)
Fixpoint own_head (buf : list Store) (m : Z) : Z :=
  match buf with
  | [] => m
  | StHead v :: buf => own_head buf v
  | _ :: buf => own_head buf m
  end.
Fixpoint own_tail (buf : list Store) (m : Z) : Z :=
  match buf with
  | [] => m
  | StTail v :: buf => own_tail buf v
  | _ :: buf => own_tail buf m
  end.

(** Where the producer is: between publications, in the loop around
    [try_push], in [take_parked] at its fence, its load or its [fetch_and], or
    about to write the doorbell byte. *)
Inductive Producer :=
| Idle
| Pushing (payload : bytes) (fl : Z)
| Fence
| LoadFlags
| ClearFlags
| Kick.

(** Where the consumer is: in [try_pop] before its load of the sequence word,
    its read of the length or its copy of the payload; in [park] at its
    [fetch_or], its load of the head, its load of the tail or its [unpark];
    blocked in the read of a doorbell byte, or at the [unpark] after it. *)
Inductive Consumer :=
| Poll
| ReadLen
| ReadBody (lf : Z)
| SetParked
| LoadHead
| LoadTail (h : Z)
| Unpark
| Blocked.

(** [sent] and [received] record what was published and what was popped. *)
Record Sys := MkSys {
  mem : Ring;
  pbuf : list Store;
  cbuf : list Store;
  prod : Producer;
  cons : Consumer;
  doorbells : nat;
  sent : list (bytes * Z);
  received : list (bytes * Z);
}.

Definition set_prod (p : Producer) (s : Sys) : Sys :=
  MkSys (mem s) (pbuf s) (cbuf s) p (cons s) (doorbells s) (sent s) (received s).
Definition set_cons (c : Consumer) (s : Sys) : Sys :=
  MkSys (mem s) (pbuf s) (cbuf s) (prod s) c (doorbells s) (sent s) (received s).
Definition set_mem (m : Ring) (s : Sys) : Sys :=
  MkSys m (pbuf s) (cbuf s) (prod s) (cons s) (doorbells s) (sent s) (received s).
Definition parked (r : Ring) : bool := negb (Z.land (flags r) FLAG_PARKED =? 0).

(** When the thread gets past the fence of [take_parked]. *)
Definition fence_passed (fenced : bool) (s : Sys) : Prop := fenced = true -> pbuf s = [].

(** One access of the producer. [fenced] says whether [take_parked] has its
    [fence(SeqCst)]; the source has it. *)
Inductive producer_step (fenced : bool) (s : Sys) : Sys -> Prop :=
| p_start payload fl :
    prod s = Idle -> valid_push payload fl -> producer_step fenced s (set_prod (Pushing payload fl) s)
| p_full payload fl :
    prod s = Pushing payload fl ->
    wrapping_sub 32 (own_head (pbuf s) (head (mem s))) (tail (mem s)) >=? capacity (mem s) = true ->
    producer_step fenced s s
| p_publish payload fl :
    prod s = Pushing payload fl ->
    wrapping_sub 32 (own_head (pbuf s) (head (mem s))) (tail (mem s)) >=? capacity (mem s) = false ->
    producer_step fenced s
      (MkSys (mem s)
         (pbuf s ++ push_stores (mem s) (own_head (pbuf s) (head (mem s))) payload fl)
         (cbuf s) Fence (cons s) (doorbells s) (sent s ++ [(payload, fl)]) (received s))
| p_fence :
    prod s = Fence -> fence_passed fenced s -> producer_step fenced s (set_prod LoadFlags s)
| p_load :
    prod s = LoadFlags ->
    producer_step fenced s (set_prod (if parked (mem s) then ClearFlags else Idle) s)
| p_clear :
    prod s = ClearFlags -> pbuf s = [] ->
    producer_step fenced s
      (set_prod (if parked (mem s) then Kick else Idle) (set_mem (unpark (mem s)) s))
| p_kick :
    prod s = Kick ->
    producer_step fenced s
      (MkSys (mem s) (pbuf s) (cbuf s) Idle (cons s) (S (doorbells s)) (sent s) (received s))
| p_commit st buf :
    pbuf s = st :: buf ->
    producer_step fenced s
      (MkSys (commit st (mem s)) buf (cbuf s) (prod s) (cons s) (doorbells s) (sent s) (received s)).

Definition own_seq (s : Sys) : Z := own_tail (cbuf s) (tail (mem s)).
Definition next_rec (s : Sys) : Rec :=
  rec_at (mem s) (record_ptr (mem s) (own_seq s mod capacity (mem s))).

(** One access of the consumer; a poll that finds nothing spins or parks. *)
Inductive consumer_step (s : Sys) : Sys -> Prop :=
| c_found :
    cons s = Poll -> r_seq (next_rec s) = wrapping_add 32 (own_seq s) 1 ->
    consumer_step s (set_cons ReadLen s)
| c_none next :
    cons s = Poll -> r_seq (next_rec s) <> wrapping_add 32 (own_seq s) 1 ->
    next = Poll \/ next = SetParked -> consumer_step s (set_cons next s)
| c_len :
    cons s = ReadLen -> consumer_step s (set_cons (ReadBody (r_len (next_rec s))) s)
| c_body lf :
    cons s = ReadBody lf ->
    let n := Z.land lf (Z.lxor (u_max 32) LEN_INDIRECT) in
    let payload := take (Z.to_nat (Z.min n INLINE_MAX)) (r_body (next_rec s)) in
    consumer_step s
      (MkSys (mem s) (pbuf s) (cbuf s ++ [StTail (wrapping_add 32 (own_seq s) 1)]) (prod s) Poll
         (doorbells s) (sent s) (received s ++ [(payload, Z.land lf LEN_INDIRECT)]))
| c_park :
    cons s = SetParked -> cbuf s = [] ->
    consumer_step s
      (set_cons LoadHead (set_mem (set_flags (Z.lor (flags (mem s)) FLAG_PARKED) (mem s)) s))
| c_head :
    cons s = LoadHead -> consumer_step s (set_cons (LoadTail (head (mem s))) s)
| c_tail h :
    cons s = LoadTail h ->
    consumer_step s (set_cons (if negb (h =? own_seq s) then Unpark else Blocked) s)
| c_unpark :
    cons s = Unpark -> cbuf s = [] ->
    consumer_step s (set_cons Poll (set_mem (unpark (mem s)) s))
| c_woken n :
    cons s = Blocked -> doorbells s = S n ->
    consumer_step s
      (MkSys (mem s) (pbuf s) (cbuf s) (prod s) Unpark n (sent s) (received s))
| c_commit st buf :
    cbuf s = st :: buf ->
    consumer_step s
      (MkSys (commit st (mem s)) (pbuf s) buf (prod s) (cons s) (doorbells s) (sent s) (received s)).

Inductive step (fenced : bool) (s s' : Sys) : Prop :=
| step_producer : producer_step fenced s s' -> step fenced s s'
| step_consumer : consumer_step s s' -> step fenced s s'.

Definition start (n ps : Z) : Sys := MkSys (from_pages n ps) [] [] Idle Poll 0 [] [].

End Doorbell.

Module DoorbellFacts.
Import Ring RingFacts Doorbell.

(** ** What waits in the buffers *)

Fixpoint pending (r : Ring) (i : nat) (xs : list (bytes * Z)) : list Store :=
  match xs with
  | [] => []
  | x :: xs => push_stores r (Z.of_nat i) x.1 x.2 ++ pending r (S i) xs
  end.
Definition tails (t n : nat) : list Store := map (fun i => StTail (Z.of_nat i)) (seq (S t) n).

Lemma pending_geometry r r' i xs :
  page_size r' = page_size r -> capacity r' = capacity r -> pending r' i xs = pending r i xs.
Proof.
  intros Hp Hc. revert i. induction xs as [|x xs IH]; intros i; [done|]. cbn [pending].
  unfold push_stores, record_ptr. by rewrite Hp, Hc, IH.
Qed.

Lemma pending_app r i xs x :
  pending r i (xs ++ [x]) = pending r i xs ++ push_stores r (Z.of_nat (i + length xs)) x.1 x.2.
Proof.
  revert i. induction xs as [|y xs IH]; intros i; cbn [app pending length].
  - by rewrite Nat.add_0_r, app_nil_r.
  - rewrite IH, <-app_assoc. do 3 f_equal. lia.
Qed.

Lemma seq_next i : Z.of_nat i + 1 < 2 ^ 32 -> wrapping_add 32 (Z.of_nat i) 1 = Z.of_nat (S i).
Proof. intros Hi. unfold wrapping_add, wrap. rewrite Z.mod_small; lia. Qed.

Lemma own_head_pending r i xs m :
  Z.of_nat i + len xs < 2 ^ 32 ->
  own_head (pending r i xs) m = if decide (xs = []) then m else Z.of_nat i + len xs.
Proof.
  revert i m. induction xs as [|x xs IH]; intros i m Hb; [done|]. rewrite len_cons in *.
  cbn [pending push_stores app own_head]. pose proof (len_nonneg xs).
  rewrite IH, seq_next by lia. rewrite (decide_False (P := x :: xs = [])) by done.
  case_decide; [subst; rewrite len_nil|]; lia.
Qed.

Lemma own_head_drop r i xs k :
  (k <= 3)%nat -> Z.of_nat i + len xs < 2 ^ 32 ->
  own_head (drop k (pending r i xs)) (Z.of_nat i) = Z.of_nat i + len xs.
Proof.
  intros Hk Hb. destruct xs as [|x xs].
  { rewrite len_nil. cbn [pending]. rewrite drop_nil. simpl. lia. }
  rewrite len_cons in *. pose proof (len_nonneg xs). cbn [pending push_stores app].
  do 4 (destruct k as [|k]; [cbn [drop own_head]; rewrite own_head_pending, seq_next by lia;
    case_decide; [subst; rewrite len_nil|]; lia|]). lia.
Qed.

Lemma own_tail_tails t n : own_tail (tails t n) (Z.of_nat t) = Z.of_nat (t + n).
Proof.
  revert t. induction n as [|n IH]; intros t; [simpl; lia|]. unfold tails in *.
  cbn [seq map own_tail]. rewrite IH. lia.
Qed.

Lemma tails_snoc t n : tails t (S n) = tails t n ++ [StTail (Z.of_nat (S (t + n)))].
Proof. unfold tails. by rewrite seq_S, map_app. Qed.

(** ** A record half written *)

Definition slot (r : Ring) (i : nat) : Z * Z := record_ptr r (Z.of_nat i mod capacity r).
Definition len_word_of (x : bytes * Z) : Z := Z.lor (wrap 32 (len x.1)) x.2.

(** The first [k] stores of record [i] are in memory. *)
Record partial (k : nat) (r : Ring) (i : nat) (x : bytes * Z) : Prop := {
  pa_body : (1 <= k)%nat -> take (length x.1) (r_body (rec_at r (slot r i))) = x.1;
  pa_len : (2 <= k)%nat -> r_len (rec_at r (slot r i)) = len_word_of x;
  pa_seq : (3 <= k)%nat -> r_seq (rec_at r (slot r i)) = Z.of_nat (S i);
}.

Lemma rec_at_set r p f p' :
  rec_at (set_rec p f r) p' = if decide (p = p') then f (rec_at r p) else rec_at r p'.
Proof. unfold set_rec. by rewrite rec_at_insert. Qed.

(** The writes to other slots and to the header leave a record alone. *)
Lemma partial_ext k r r' i x :
  slot r' i = slot r i -> rec_at r' (slot r i) = rec_at r (slot r i) ->
  partial k r i x -> partial k r' i x.
Proof. intros Hs Hr [A B C]. by constructor; rewrite Hs, Hr. Qed.

Record data_ok (n ps : Z) (s : Sys) (t c h k : nat) : Prop := {
  d_geometry : geometry n ps;
  d_size : page_size (mem s) = ps;
  d_cap : 0 < capacity (mem s) < 2 ^ 32;
  d_tail : tail (mem s) = Z.of_nat t;
  d_head : head (mem s) = Z.of_nat h;
  d_received : received s = take c (sent s);
  d_order : (t <= c <= h + k / 3)%nat;
  d_sent : (h <= length (sent s))%nat /\ ((0 < k)%nat -> (h < length (sent s))%nat);
  d_room : len (sent s) <= Z.of_nat t + capacity (mem s);
  d_bound : len (sent s) + 1 < 2 ^ 32;
  d_valid : Forall (fun x => valid_push x.1 x.2) (sent s);
  d_k : (k <= 3)%nat;
  d_pbuf : pbuf s = drop k (pending (mem s) h (drop h (sent s)));
  d_cbuf : cbuf s = tails t (c - t);
  d_records : forall i x, (t <= i < h)%nat -> sent s !! i = Some x -> partial 3 (mem s) i x;
  d_partial : forall x, sent s !! h = Some x -> partial k (mem s) h x;
  d_recs : forall p, 0 <= r_seq (rec_at (mem s) p) <= Z.of_nat (h + k / 3)
                     /\ length (r_body (rec_at (mem s) p)) = Z.to_nat INLINE_MAX;
  d_cons :
    match cons s with
    | ReadLen => (c < h + k / 3)%nat
    | ReadBody lf => (c < h + k / 3)%nat /\ exists x, sent s !! c = Some x /\ lf = len_word_of x
    | _ => True
    end;
}.

(** Who waits and what is known: the flag is up, or the doorbell is rung or
    about to be; a consumer that has read the head and a producer past its
    check agree on what is published. *)
Definition checking (p : Producer) : bool :=
  match p with Fence | LoadFlags | ClearFlags => true | _ => false end.
Definition rung (s : Sys) : Prop := (0 < doorbells s)%nat \/ prod s = Kick.
Record wake_ok (s : Sys) (c : nat) : Prop := {
  w_flags : flags (mem s) = 0 \/ flags (mem s) = 1;
  w_drained : prod s = Fence \/ pbuf s = [];
  w_cons :
    match cons s with
    | LoadHead => cbuf s = [] /\ (rung s \/ flags (mem s) = 1)
    | LoadTail h => cbuf s = [] /\
        (rung s \/ flags (mem s) = 1 /\ (checking (prod s) = true \/ h = len (sent s)))
    | Blocked => cbuf s = [] /\
        (rung s \/ flags (mem s) = 1 /\ (checking (prod s) = true \/ c = length (sent s)))
    | _ => True
    end;
}.

Lemma slot_apart n ps r i j :
  geometry n ps -> page_size r = ps -> 0 < capacity r -> (i < j)%nat ->
  Z.of_nat j - Z.of_nat i < capacity r -> slot r i <> slot r j.
Proof.
  intros Hg Hps Hc Hij Hd E. unfold slot in E.
  pose proof (Z.mod_pos_bound (Z.of_nat i) (capacity r)).
  pose proof (Z.mod_pos_bound (Z.of_nat j) (capacity r)).
  apply (record_ptr_inj n ps Hg) in E; [|done|lia|lia]. apply mod_close in E; lia.
Qed.

Lemma committed_partial n ps s t c h k :
  data_ok n ps s t c h k -> (c < h + k / 3)%nat ->
  exists x, sent s !! c = Some x /\ partial 3 (mem s) c x /\ valid_push x.1 x.2.
Proof.
  intros D Hc. destruct D. destruct (lookup_lt_is_Some_2 (sent s) c) as [x Hx].
  { destruct (decide (k = 3)%nat) as [->|]; [change (3 / 3)%nat with 1%nat in *; lia|].
    rewrite Nat.div_small in Hc by lia. lia. }
  exists x. split; [done|]. split; [|rewrite Forall_forall in d_valid0; by eapply d_valid0, list_elem_of_lookup_2].
  destruct (decide (c < h)%nat); [apply d_records0; [lia|done]|].
  destruct (decide (k = 3)%nat) as [->|]; [|rewrite Nat.div_small in Hc by lia; lia].
  change (3 / 3)%nat with 1%nat in *. assert (c = h) as -> by lia. by apply d_partial0.
Qed.

Lemma own_seq_ok n ps s t c h k : data_ok n ps s t c h k -> own_seq s = Z.of_nat c.
Proof.
  intros D. unfold own_seq. rewrite (d_cbuf _ _ _ _ _ _ _ D), (d_tail _ _ _ _ _ _ _ D), own_tail_tails.
  f_equal. destruct D. lia.
Qed.

Lemma next_rec_ok n ps s t c h k :
  data_ok n ps s t c h k -> next_rec s = rec_at (mem s) (slot (mem s) c).
Proof. intros D. unfold next_rec, slot. by rewrite (own_seq_ok _ _ _ _ _ _ _ D). Qed.

Lemma own_head_ok n ps s t c h k :
  data_ok n ps s t c h k -> own_head (pbuf s) (head (mem s)) = len (sent s).
Proof.
  intros D. destruct D. rewrite d_pbuf0, d_head0, own_head_drop; unfold len in *; rewrite ?length_drop; lia.
Qed.

(** ** Each step keeps the data *)

Lemma take_prefix {A} (a b : list A) : take (length a) (a ++ b) = a.
Proof. by rewrite take_app_length. Qed.

(** One more store of the record at the head. *)
Lemma commit_record n ps s t c h k x st :
  data_ok n ps s t c h k -> (k < 3)%nat -> sent s !! h = Some x ->
  push_stores (mem s) (Z.of_nat h) x.1 x.2 !! k = Some st ->
  let r := commit st (mem s) in
  page_size r = ps /\ capacity r = capacity (mem s) /\ head r = head (mem s) /\ tail r = tail (mem s)
  /\ flags r = flags (mem s)
  /\ (forall i y, (t <= i < h)%nat -> sent s !! i = Some y -> partial 3 r i y)
  /\ partial (S k) r h x
  /\ forall p, 0 <= r_seq (rec_at r p) <= Z.of_nat (h + S k / 3)
               /\ length (r_body (rec_at r p)) = Z.to_nat INLINE_MAX.
Proof.
  intros D Hk Hx Hst. pose proof (lookup_lt_Some _ _ _ Hx) as Hlt. destruct D.
  assert (valid_push x.1 x.2) as [Hvl _].
  { rewrite Forall_forall in d_valid0. by eapply d_valid0, list_elem_of_lookup_2. }
  unfold push_stores in Hst. fold (slot (mem s) h) in Hst. rewrite seq_next in Hst by (unfold len in *; lia).
  destruct (d_recs0 (slot (mem s) h)) as [Hseq Hbody]. destruct (d_partial0 x Hx) as [P1 P2 P3].
  assert (exists f, commit st (mem s) = set_rec (slot (mem s) h) f (mem s)
    /\ partial (S k) (set_rec (slot (mem s) h) f (mem s)) h x
    /\ (0 <= r_seq (f (rec_at (mem s) (slot (mem s) h))) <= Z.of_nat (h + S k / 3))
    /\ length (r_body (f (rec_at (mem s) (slot (mem s) h)))) = Z.to_nat INLINE_MAX)
    as (f & -> & Hpart & Hf1 & Hf2).
  { destruct k as [|[|[|k]]]; [..|lia]; cbn in Hst; injection Hst as <-; eexists; (split; [reflexivity|]);
      (split; [constructor; intros ?;
        change (slot (set_rec ?p ?g (mem s)) h) with (slot (mem s) h);
        rewrite rec_at_set, decide_True by done; cbn [r_body r_len r_seq]; try lia; auto with lia|]);
      cbn [r_seq r_body].
    - apply take_prefix.
    - change (0 / 3)%nat with 0%nat in Hseq. change (1 / 3)%nat with 0%nat. split; [lia|].
      unfold copy_in. rewrite length_app, length_drop, Hbody. unfold len in *. lia.
    - change (1 / 3)%nat with 0%nat in Hseq. change (2 / 3)%nat with 0%nat. split; [lia|done].
    - change (3 / 3)%nat with 1%nat. split; [lia|done]. }
  cbn [set_rec page_size capacity head tail flags]. do 5 (split; [done|]). split; [|split; [done|]].
  - intros i y Hi Hy. apply (partial_ext _ (mem s)); [done| |by apply d_records0].
    rewrite rec_at_set, decide_False; [done|]. intros E.
    revert E. apply not_eq_sym, (slot_apart n ps (mem s) i h); try done; unfold len in *; lia.
  - intros p. rewrite rec_at_set. case_decide; [done|]. destruct (d_recs0 p) as [Hp ?]. split; [|done].
    assert (k / 3 <= S k / 3)%nat by (apply Nat.Div0.div_le_mono; lia). lia.
Qed.

Lemma commit_data n ps s t c h k st buf :
  data_ok n ps s t c h k -> pbuf s = st :: buf ->
  exists h' k', data_ok n ps (MkSys (commit st (mem s)) buf (cbuf s) (prod s) (cons s) (doorbells s)
    (sent s) (received s)) t c h' k' /\ flags (commit st (mem s)) = flags (mem s).
Proof.
  intros D Hb. pose proof D as D'. destruct D. rewrite d_pbuf0 in Hb.
  destruct (sent s !! h) as [x|] eqn:Hx.
  2: { apply lookup_ge_None in Hx. rewrite (drop_ge (sent s)) in Hb by lia. cbn [pending] in Hb. by rewrite drop_nil in Hb. }
  rewrite (drop_S _ x h Hx) in Hb. cbn [pending] in Hb.
  destruct (decide (k = 3)%nat) as [->|Hk3].
  - cbn [push_stores app drop] in Hb. injection Hb as <- <-. exists (S h), 0%nat.
    pose proof (lookup_lt_Some _ _ _ Hx) as Hlt. change (3 / 3)%nat with 1%nat in *.
    rewrite seq_next by (unfold len in *; lia). split; [|done].
    constructor; cbn [mem pbuf cbuf cons sent received commit page_size capacity tail head]; try done; try lia.
    + rewrite drop_0. symmetry; by apply pending_geometry.
    + intros i y Hi Hy. apply (partial_ext _ (mem s)); [done..|].
      destruct (decide (i = h)) as [->|Hne]; [|apply d_records0; [lia|done]]. apply d_partial0. congruence.
    + intros y Hy. constructor; lia.
    + intros p. destruct (d_recs0 p) as [Hs1 Hs2]. split; [|exact Hs2]. change (0 / 3)%nat with 0%nat. cbn [rec_at recs] in *. unfold rec_at in *. cbn [recs]. lia.
    + change (0 / 3)%nat with 0%nat. replace (S h + 0)%nat with (h + 1)%nat by lia. done.
  - assert (exists st', push_stores (mem s) (Z.of_nat h) x.1 x.2 !! k = Some st') as [st' Hst].
    { apply lookup_lt_is_Some_2. simpl. lia. }
    assert (drop k (push_stores (mem s) (Z.of_nat h) x.1 x.2 ++ pending (mem s) (S h) (drop (S h) (sent s)))
      = st' :: drop (S k) (push_stores (mem s) (Z.of_nat h) x.1 x.2 ++ pending (mem s) (S h) (drop (S h) (sent s)))) as E.
    { apply drop_S. by apply lookup_app_l_Some. }
    rewrite E in Hb. injection Hb as <- <-.
    destruct (commit_record _ _ _ _ _ _ _ x st' D' ltac:(lia) Hx Hst) as (R1 & R2 & R3 & R4 & R5 & R6 & R7 & R8).
    exists h, (S k). split; [|done].
    assert (k / 3 <= S k / 3)%nat by (apply Nat.Div0.div_le_mono; lia).
    pose proof (lookup_lt_Some _ _ _ Hx) as Hlt.
    constructor; cbn [mem pbuf cbuf cons sent received]; rewrite ?R2, ?R3, ?R4; try done; try lia.
    + rewrite (drop_S _ x h Hx). cbn [pending]. rewrite (pending_geometry (mem s) (commit st' (mem s))) by (by rewrite ?R1, ?R2).
      assert (push_stores (commit st' (mem s)) = push_stores (mem s)) as ->; [|done].
      unfold push_stores, record_ptr. by rewrite R1, R2, d_size0.
    + intros y Hy. by replace y with x by congruence.
    + destruct (cons s); try done; [lia|]. destruct d_cons0 as [? ?]. split; [lia|done].
Qed.

Lemma publish_data n ps s t c h k payload fl :
  data_ok n ps s t c h k -> valid_push payload fl -> len (sent s) + 2 < 2 ^ 32 ->
  wrapping_sub 32 (own_head (pbuf s) (head (mem s))) (tail (mem s)) >=? capacity (mem s) = false ->
  data_ok n ps (MkSys (mem s)
    (pbuf s ++ push_stores (mem s) (own_head (pbuf s) (head (mem s))) payload fl)
    (cbuf s) Fence (cons s) (doorbells s) (sent s ++ [(payload, fl)]) (received s)) t c h k.
Proof.
  intros D Hv Hb Hroom. rewrite (own_head_ok _ _ _ _ _ _ _ D) in *. destruct D.
  assert (k / 3 <= 1)%nat as Hk1 by (destruct k as [|[|[|[|]]]]; simpl; lia).
  assert (k / 3 = 1 -> 0 < k)%nat as Hk2 by (destruct k; simpl; lia).
  rewrite d_tail0 in Hroom. unfold wrapping_sub, wrap in Hroom.
  rewrite Z.mod_small in Hroom by (unfold len in *; lia).
  rewrite Z.geb_leb in Hroom. apply Z.leb_gt in Hroom.
  constructor; cbn [mem pbuf cbuf cons sent received]; rewrite ?len_app, ?len_cons, ?len_nil; try done; try lia.
  - rewrite take_app_le; [done|]. lia.
  - rewrite length_app. simpl. lia.
  - apply Forall_app. split; [done|]. by constructor.
  - rewrite drop_app_le by lia. rewrite pending_app, drop_app_le.
    + rewrite d_pbuf0, length_drop. do 3 f_equal. unfold len. lia.
    + destruct (decide (k = 0)%nat) as [->|]; [lia|].
      destruct (drop h (sent s)) as [|y ys] eqn:E; [|cbn [pending]; rewrite length_app; simpl; lia].
      apply (f_equal length) in E. rewrite length_drop in E. simpl in E. lia.
  - intros i x Hi Hx. rewrite lookup_app_l in Hx by lia. by apply d_records0.
  - intros x Hx. destruct (decide (h < length (sent s))%nat) as [Hl|].
    + rewrite lookup_app_l in Hx by lia. by apply d_partial0.
    + constructor; lia.
  - destruct (cons s); try done. destruct d_cons0 as (? & x & Hx & ?). split; [done|]. exists x.
    split; [|done]. by apply lookup_app_l_Some.
Qed.

Lemma word_parts x : valid_push x.1 x.2 ->
  Z.land (len_word_of x) (Z.lxor (u_max 32) LEN_INDIRECT) = len x.1
  /\ Z.land (len_word_of x) LEN_INDIRECT = x.2.
Proof.
  intros [Hl Hf]. apply len_word; [pose proof (len_nonneg x.1); lia|].
  destruct Hf as [-> | ->]; [left|right; left].
Qed.

(** Only the program counters, the flag and the doorbell change. *)
Lemma data_frame n ps s t c h k f p cn b :
  data_ok n ps s t c h k ->
  match cn with
  | ReadLen => (c < h + k / 3)%nat
  | ReadBody lf => (c < h + k / 3)%nat /\ exists x, sent s !! c = Some x /\ lf = len_word_of x
  | _ => True
  end ->
  data_ok n ps (MkSys (set_flags f (mem s)) (pbuf s) (cbuf s) p cn b (sent s) (received s)) t c h k.
Proof.
  intros D Hc. destruct D.
  constructor; cbn [mem pbuf cbuf cons sent received set_flags page_size capacity tail head]; try done.
  - rewrite d_pbuf0. f_equal. symmetry. by apply pending_geometry.
  - intros i x Hi Hx. apply (partial_ext _ (mem s)); [done..|]. by apply d_records0.
  - intros x Hx. apply (partial_ext _ (mem s)); [done..|]. by apply d_partial0.
Qed.

Lemma set_same_flags r : set_flags (flags r) r = r.
Proof. by destruct r. Qed.

Lemma data_control n ps s t c h k p cn b :
  data_ok n ps s t c h k ->
  match cn with
  | ReadLen => (c < h + k / 3)%nat
  | ReadBody lf => (c < h + k / 3)%nat /\ exists x, sent s !! c = Some x /\ lf = len_word_of x
  | _ => True
  end ->
  data_ok n ps (MkSys (mem s) (pbuf s) (cbuf s) p cn b (sent s) (received s)) t c h k.
Proof.
  intros D Hc. pose proof (data_frame n ps s t c h k (flags (mem s)) p cn b D Hc) as Hf.
  by rewrite set_same_flags in Hf.
Qed.

Lemma pop_data n ps s t c h k lf :
  data_ok n ps s t c h k -> cons s = ReadBody lf ->
  data_ok n ps (MkSys (mem s) (pbuf s) (cbuf s ++ [StTail (wrapping_add 32 (own_seq s) 1)]) (prod s) Poll
    (doorbells s) (sent s)
    (received s ++ [(take (Z.to_nat (Z.min (Z.land lf (Z.lxor (u_max 32) LEN_INDIRECT)) INLINE_MAX))
                       (r_body (next_rec s)), Z.land lf LEN_INDIRECT)])) t (S c) h k.
Proof.
  intros D Hc. pose proof (d_cons _ _ _ _ _ _ _ D) as Hd. rewrite Hc in Hd. destruct Hd as (Hlt & x & Hx & ->).
  destruct (committed_partial _ _ _ _ _ _ _ D Hlt) as (x' & Hx' & [P1 _ _] & Hv).
  assert (x' = x) as -> by congruence. destruct (word_parts x Hv) as [-> ->].
  rewrite (next_rec_ok _ _ _ _ _ _ _ D), (own_seq_ok _ _ _ _ _ _ _ D), Z.min_l by apply Hv.
  unfold len at 1. rewrite Nat2Z.id, P1 by lia. destruct D. pose proof (lookup_lt_Some _ _ _ Hx).
  rewrite seq_next by (unfold len in *; lia).
  constructor; cbn [mem pbuf cbuf cons sent received]; try done; try lia.
  - rewrite d_received0, (take_S_r _ _ _ Hx). by destruct x.
  - rewrite d_cbuf0. replace (S c - t)%nat with (S (c - t)) by lia. rewrite tails_snoc. do 3 f_equal. lia.
Qed.

Lemma tail_data n ps s t c h k st buf :
  data_ok n ps s t c h k -> cbuf s = st :: buf ->
  data_ok n ps (MkSys (commit st (mem s)) (pbuf s) buf (prod s) (cons s) (doorbells s)
    (sent s) (received s)) (S t) c h k
  /\ flags (commit st (mem s)) = flags (mem s).
Proof.
  intros D Hb. destruct D. rewrite d_cbuf0 in Hb. destruct (c - t)%nat as [|m] eqn:E; [done|].
  unfold tails in Hb. cbn [seq map] in Hb. injection Hb as <- <-. split; [|done].
  constructor; cbn [mem pbuf cbuf cons sent received commit page_size capacity tail head]; try done; try lia.
  - rewrite d_pbuf0. f_equal. symmetry. by apply pending_geometry.
  - unfold tails. do 2 f_equal. lia.
  - intros i x Hi Hx. apply (partial_ext _ (mem s)); [done..|]. apply d_records0; [lia|done].
  - intros x Hx. apply (partial_ext _ (mem s)); [done..|]. by apply d_partial0.
Qed.

Definition inv (n ps : Z) (s : Sys) : Prop :=
  exists t c h k, data_ok n ps s t c h k /\ wake_ok s c /\
  match prod s with Pushing payload fl => valid_push payload fl | _ => True end.

Lemma flag_cases r : flags r = 0 \/ flags r = 1 ->
  flags r = 0 /\ parked r = false /\ flags (unpark r) = 0
  \/ flags r = 1 /\ parked r = true /\ flags (unpark r) = 0.
Proof. unfold parked, unpark. cbn [set_flags flags]. intros [-> | ->]; [left|right]; done. Qed.

Lemma data_received n ps s t c h k : data_ok n ps s t c h k -> (c <= length (sent s))%nat.
Proof.
  intros []. assert (k / 3 <= 1)%nat by (destruct k as [|[|[|[|]]]]; simpl; lia).
  assert (k / 3 = 1 -> 0 < k)%nat by (destruct k; simpl; lia). lia.
Qed.

Lemma head_drained n ps s t c h k : data_ok n ps s t c h k -> pbuf s = [] -> head (mem s) = len (sent s).
Proof. intros D Hb. rewrite <-(own_head_ok _ _ _ _ _ _ _ D). by rewrite Hb. Qed.

(** The wake-up condition after a step: the cases of the consumer. *)
Ltac wake_cases :=
  constructor; cbn [mem pbuf cbuf prod cons doorbells sent received]; auto;
  unfold rung in *; cbn [prod doorbells checking] in *; try naive_solver.

Lemma producer_keeps n ps s s' :
  inv n ps s -> producer_step true s s' -> len (sent s') + 1 < 2 ^ 32 -> inv n ps s'.
Proof.
  intros (t & c & h & k & D & [Wf Wd Wc] & Hv) Hs Hb. pose proof (d_cons _ _ _ _ _ _ _ D) as Dc.
  pose proof (flag_cases _ Wf) as Hfl. destruct Hs as
    [payload fl Hp Hpv|payload fl Hp Hfull|payload fl Hp Hroom|Hp Hfe|Hp|Hp Hpb|Hp|st buf Hpb];
    unfold rung, set_prod, set_mem in *; rewrite ?Hp in *.
  - exists t, c, h, k. split; [by apply data_control|]. split; [|done]. wake_cases.
    destruct (cons s); naive_solver.
  - exists t, c, h, k. split; [done|]. split; [|by rewrite Hp]. by constructor; unfold rung; rewrite ?Hp.
  - exists t, c, h, k. cbn [sent] in Hb. rewrite len_app, len_cons, len_nil in Hb.
    split; [by apply publish_data; [..|lia|]|]. split; [|done]. wake_cases.
    destruct (cons s); naive_solver.
  - exists t, c, h, k. split; [by apply data_control|]. split; [|done]. wake_cases.
    destruct (cons s); naive_solver.
  - exists t, c, h, k. split; [by apply data_control|].
    destruct Hfl as [(Ef & -> & _)|(Ef & -> & _)]; (split; [|done]); wake_cases;
      rewrite Ef in *; destruct (cons s); naive_solver.
  - exists t, c, h, k. split; [by apply (data_frame _ _ _ _ _ _ _ _ _ _ _ D)|].
    destruct Hfl as [(Ef & -> & Eu)|(Ef & -> & Eu)]; (split; [|done]); wake_cases;
      rewrite ?Ef, ?Eu in *; destruct (cons s); naive_solver.
  - exists t, c, h, k. split; [by apply data_control|]. split; [|done]. wake_cases.
    destruct (cons s); naive_solver lia.
  - destruct (commit_data _ _ _ _ _ _ _ _ _ D Hpb) as (h' & k' & D' & Efl).
    exists t, c, h', k'. split; [done|]. split; [|done]. destruct Wd as [Hp|Wd]; [|by rewrite Wd in Hpb].
    wake_cases; rewrite ?Efl; [done|]. destruct (cons s); naive_solver.
Qed.

Lemma consumer_keeps n ps s s' :
  inv n ps s -> consumer_step s s' -> inv n ps s'.
Proof.
  intros (t & c & h & k & D & [Wf Wd Wc] & Hv) Hs. pose proof (d_cons _ _ _ _ _ _ _ D) as Dc.
  pose proof (flag_cases _ Wf) as Hfl. pose proof (own_seq_ok _ _ _ _ _ _ _ D) as Hown.
  destruct Hs as [Hc Hf|next Hc Hf Hn|Hc|lf Hc|Hc Hcb|Hc|m Hc|Hc Hcb|m Hc Hm|st buf Hcb];
    unfold rung, set_cons, set_mem in *; rewrite ?Hc in *.
  - exists t, c, h, k. split; [|split; [by wake_cases|done]]. apply data_control; [done|].
    rewrite (next_rec_ok _ _ _ _ _ _ _ D), Hown in Hf. destruct D.
    destruct (d_recs0 (slot (mem s) c)) as [Hr _]. pose proof (data_received n ps s t c h k).
    rewrite Hf in Hr. rewrite seq_next in Hr; [lia|]. assert (c <= length (sent s))%nat; [|unfold len in *; lia].
    assert (k / 3 <= 1)%nat by (destruct k as [|[|[|[|]]]]; simpl; lia).
    assert (k / 3 = 1 -> 0 < k)%nat by (destruct k; simpl; lia). lia.
  - exists t, c, h, k. split; [apply data_control; by destruct Hn as [-> | ->]|].
    split; [wake_cases; by destruct Hn as [-> | ->]|done].
  - exists t, c, h, k. split; [|split; [by wake_cases|done]]. apply data_control; [done|].
    split; [done|]. destruct (committed_partial _ _ _ _ _ _ _ D Dc) as (x & Hx & [_ P2 _] & _).
    exists x. split; [done|]. rewrite (next_rec_ok _ _ _ _ _ _ _ D). apply P2. lia.
  - exists t, (S c), h, k. split; [by apply pop_data|]. split; [by wake_cases|done].
  - exists t, c, h, k. split; [by apply (data_frame _ _ _ _ _ _ _ _ _ _ _ D)|].
    split; [|done]. wake_cases; cbn [set_flags flags]; destruct Wf as [-> | ->]; auto.
  - exists t, c, h, k. split; [by apply data_control|]. split; [|done]. wake_cases.
    destruct Wc as [Hcb Wc]. split; [done|]. destruct Wc as [Wc|Wc]; [by left|].
    destruct Wd as [Hp|Wd]; [right; rewrite Hp; auto|].
    pose proof (head_drained _ _ _ _ _ _ _ D Wd). auto.
  - exists t, c, h, k. split; [apply data_control; [done|by destruct (negb _)]|]. split; [|done].
    wake_cases. destruct (Z.eqb_spec m (own_seq s)) as [E|]; [|done]. cbn [negb].
    destruct Wc as [Hcb Wc]. split; [done|]. rewrite Hown in E. unfold len in Wc. naive_solver lia.
  - exists t, c, h, k. split; [by apply (data_frame _ _ _ _ _ _ _ _ _ _ _ D)|].
    split; [|done]. wake_cases.
  - exists t, c, h, k. split; [by apply data_control|]. split; [by wake_cases|done].
  - destruct (tail_data _ _ _ _ _ _ _ _ _ D Hcb) as [D' Efl]. exists (S t), c, h, k.
    split; [done|]. split; [|done]. wake_cases; rewrite ?Efl; [done|].
    destruct (cons s); try done; by destruct Wc as [Wc _]; rewrite Wc in Hcb.
Qed.

Lemma inv_start n ps :
  geometry n ps -> (ps - HEADER_SIZE) / RECORD_SIZE + (n - 1) * (ps / RECORD_SIZE) < 2 ^ 32 ->
  inv n ps (start n ps).
Proof.
  intros Hg Hc. destruct (fresh_sim n ps Hg Hc) as [_ Hps Hcap _ _ _ _ _ _ Hrecs].
  exists 0%nat, 0%nat, 0%nat, 0%nat. split; [|split; [by wake_cases|done]].
  constructor; cbn [start mem sent received cbuf pbuf cons length]; try done; try lia.
  rewrite len_nil. lia.
Qed.

Lemma sent_grows b s s' : step b s s' -> len (sent s) <= len (sent s').
Proof.
  intros [Hs|Hs]; destruct Hs; cbn [set_prod set_cons set_mem sent]; try done.
  rewrite len_app. pose proof (len_nonneg [(payload, fl)]). lia.
Qed.

Lemma inv_reachable n ps s :
  geometry n ps -> (ps - HEADER_SIZE) / RECORD_SIZE + (n - 1) * (ps / RECORD_SIZE) < 2 ^ 32 ->
  rtc (step true) (start n ps) s -> len (sent s) + 1 < 2 ^ 32 -> inv n ps s.
Proof.
  intros Hg Hc Hr. revert s Hr. apply (rtc_ind_r (fun s => len (sent s) + 1 < 2 ^ 32 -> inv n ps s));
    [by intros; apply inv_start|]. intros s s' _ Hs IH Hb. pose proof (sent_grows _ _ _ Hs). destruct Hs as [Hs|Hs].
  - apply (producer_keeps n ps s); [apply IH; lia|done|done].
  - apply (consumer_keeps n ps s); [apply IH; lia|done].
Qed.

(** Committing the stores of a publication one by one is [try_push]. *)
Lemma stores_are_push r payload fl r' :
  try_push payload fl r = (true, r') ->
  r' = foldl (fun r st => commit st r) r (push_stores r (head r) payload fl).
Proof.
  unfold try_push. case_match; [done|]. intros [= <-]. unfold push_stores, commit, set_rec. cbn [foldl].
  f_equal. unfold rec_at. cbn [num_pages page_size capacity head tail flags recs].
  repeat (rewrite lookup_insert_eq; cbn [default r_seq r_len r_body]).
  by rewrite !insert_insert_eq.
Qed.

(** A producer past its publication rings, by its own steps alone, when the
    flag is up. *)
Lemma commits_drain b s : exists s', rtc (producer_step b) s s' /\ pbuf s' = [] /\ prod s' = prod s
  /\ flags (mem s') = flags (mem s).
Proof.
  remember (pbuf s) as l eqn:E. revert s E. induction l as [|st l IH]; intros s E; [by exists s|].
  destruct (IH (MkSys (commit st (mem s)) l (cbuf s) (prod s) (cons s) (doorbells s) (sent s) (received s)))
    as (s' & Hr & Hb & Hp & Hf); [done|]. exists s'. split; [|split; [done|split; [done|]]].
  - eapply rtc_l; [|exact Hr]. by apply p_commit.
  - rewrite Hf. by destruct st.
Qed.

Lemma rings b s :
  flags (mem s) = 1 -> prod s = Fence \/ pbuf s = [] -> checking (prod s) = true ->
  exists s', rtc (producer_step b) s s' /\ (0 < doorbells s')%nat.
Proof.
  intros Hf Hd Hc. assert (exists s1, rtc (producer_step b) s s1 /\ pbuf s1 = [] /\ flags (mem s1) = 1
    /\ prod s1 = prod s) as (s1 & Hr1 & Hb1 & Hf1 & Hp1).
  { destruct (commits_drain b s) as (s1 & ? & ? & ? & ?). exists s1. repeat split; congruence. }
  assert (forall x, flags (mem x) = 1 -> parked (mem x) = true) as Hpk by by intros x; unfold parked; intros ->.
  assert (forall x, prod x = ClearFlags -> pbuf x = [] -> flags (mem x) = 1 ->
    exists s', rtc (producer_step b) x s' /\ (0 < doorbells s')%nat) as H1.
  { intros x Hx Hb Hfx. eexists. split; [|]. 
    - eapply rtc_l; [by apply p_clear|]. eapply rtc_l; [|apply rtc_refl]. apply p_kick. by rewrite Hpk.
    - cbn [doorbells]. lia. }
  assert (forall x, prod x = LoadFlags -> pbuf x = [] -> flags (mem x) = 1 ->
    exists s', rtc (producer_step b) x s' /\ (0 < doorbells s')%nat) as H2.
  { intros x Hx Hb Hfx. destruct (H1 (set_prod ClearFlags x)) as (s' & ? & ?); [done..|].
    exists s'. split; [|done]. eapply rtc_l; [by apply p_load|]. by rewrite Hpk. }
  rewrite <-Hp1 in Hc. destruct (prod s1) eqn:E; try done.
  - destruct (H2 (set_prod LoadFlags s1)) as (s' & ? & ?); [done..|]. exists s'. split; [|done].
    etransitivity; [exact Hr1|]. eapply rtc_l; [by apply p_fence; [|intros _]|]. done.
  - destruct (H2 s1) as (s' & ? & ?); [done..|]. exists s'. split; [|done]. by etransitivity.
  - destruct (H1 s1) as (s' & ? & ?); [done..|]. exists s'. split; [|done]. by etransitivity.
Qed.

End DoorbellFacts.

Module DoorbellProps.
Import Ring RingFacts Doorbell DoorbellFacts.

(** C40: No wake-up is lost and no record is torn, on a memory whose
    stores wait in store buffers: from zeroed pages, for any interleaving of
    one producer's publications and one consumer's polls, parkings and
    wake-ups, access by access and store by store, with fewer than 2^32 - 1
    records in all, what was popped is a prefix of what was published, byte
    for byte; when the consumer is blocked on the doorbell, none is waiting in
    the socket and the producer is done with its last check of the flag, every
    published record was popped; and a consumer blocked while a record waits
    has a doorbell byte to read, or the producer's own remaining steps write
    one. *)
Theorem no_lost_wakeup n ps s :
  1 <= n -> RECORD_SIZE + HEADER_SIZE <= ps ->
  (ps - HEADER_SIZE) / RECORD_SIZE + (n - 1) * (ps / RECORD_SIZE) < 2 ^ 32 ->
  rtc (step true) (start n ps) s -> len (sent s) + 1 < 2 ^ 32 ->
  received s `prefix_of` sent s
  /\ (cons s = Blocked -> doorbells s = 0%nat -> prod s <> Kick -> checking (prod s) = false ->
        received s = sent s)
  /\ (cons s = Blocked -> received s <> sent s ->
        exists s', rtc (producer_step true) s s' /\ (0 < doorbells s')%nat).
Proof.
  intros Hn Hps Hcap Hr Hb.
  destruct (inv_reachable n ps s ltac:(done) Hcap Hr Hb) as (t & c & h & k & D & [Wf Wd Wc] & _).
  pose proof (d_received _ _ _ _ _ _ _ D) as Hrec. split; [|split].
  - rewrite Hrec. exists (drop c (sent s)). by rewrite take_drop.
  - intros Hc Hz Hk Hch. rewrite Hc in Wc. unfold rung in Wc. rewrite Hrec.
    destruct Wc as [_ [[?|?]|[_ [?| ->]]]]; [lia|done|congruence|]. by rewrite firstn_all.
  - intros Hc Hne. rewrite Hc in Wc. unfold rung in Wc.
    destruct Wc as [_ [[?|Hp]|[Hf [Hch|Hall]]]].
    + by exists s.
    + eexists. split; [eapply rtc_l; [by apply p_kick|apply rtc_refl]|]. cbn [doorbells]. lia.
    + by apply rings.
    + rewrite Hrec, Hall, firstn_all in Hne. done.
Qed.

(** One step of a concrete run, and its state evaluated. *)
Tactic Notation "run" tactic3(tac) :=
  eapply rtc_l; [tac|];
  match goal with |- rtc _ ?s _ => let s' := eval vm_compute in s in change s with s' end.

(** Without the fence of [take_parked] the wake-up is lost: the head store
    still waits while the flag is read, the consumer parks on the stale head,
    and once everything is committed the record is published, nobody rings and
    the consumer sleeps. *)
Theorem unfenced_loses_wakeup :
  exists s, rtc (step false) (start 1 4096) s /\ cons s = Blocked /\ prod s = Idle
  /\ pbuf s = [] /\ cbuf s = [] /\ doorbells s = 0%nat /\ sent s = [(bs "x", 0)] /\ received s = []
  /\ flags (mem s) = FLAG_PARKED.
Proof.
  eexists. split.
  - run (apply step_producer, (p_start _ _ (bs "x") 0); [done|by split; [vm_compute|left]]).
    run (apply step_producer; eapply p_publish; [done|by vm_compute]).
    run (apply step_producer; by apply p_fence; [|intros ?]). run (apply step_producer; by apply p_load).
    run (apply step_consumer, (c_none _ SetParked); [done|by vm_compute|by right]).
    run (apply step_consumer; by apply c_park). run (apply step_consumer; by apply c_head).
    run (apply step_consumer; by eapply c_tail).
    do 4 (run (apply step_producer; by eapply p_commit)). apply rtc_refl.
  - by vm_compute.
Qed.

(** The consumer parks, the producer publishes: with the fence the doorbell
    rings. *)
Lemma no_lost_wakeup_witness :
  exists s, rtc (step true) (start 1 4096) s /\ cons s = Blocked /\ doorbells s = 0%nat
  /\ received s = [] /\ sent s = [(bs "x", 0)]
  /\ exists s', rtc (producer_step true) s s' /\ (0 < doorbells s')%nat.
Proof.
  assert (exists s, rtc (step true) (start 1 4096) s /\ cons s = Blocked /\ doorbells s = 0%nat
    /\ received s = [] /\ sent s = [(bs "x", 0)]) as (s & Hr & Hc & Hd & Hrc & Hs).
  { eexists. split.
    - run (apply step_consumer, (c_none _ SetParked); [done|by vm_compute|by right]).
      run (apply step_consumer; by apply c_park). run (apply step_consumer; by apply c_head).
      run (apply step_consumer; by eapply c_tail).
      run (apply step_producer, (p_start _ _ (bs "x") 0); [done|by split; [vm_compute|left]]).
      run (apply step_producer; eapply p_publish; [done|by vm_compute]). apply rtc_refl.
    - by vm_compute. }
  exists s. do 5 (split; [done|]).
  destruct (no_lost_wakeup 1 4096 s) as (_ & _ & Hw); [done|done|by vm_compute|done|by rewrite Hs|].
  apply Hw; [done|]. by rewrite Hrc, Hs.
Defined.

End DoorbellProps.
