(* ===== verification/FrameStream.v ===== *)
(** * FrameStream: length-prefixed byte streams
    (crates/smolvm-network/src/frame_stream.rs,
    crates/smolvm-protocol/src/mediated_egress.rs)

    A reader is the bytes still to come, and [read_exact] takes its next [n]
    however the socket splits them. A writer is what it has accepted so far and
    how it will answer the next calls: an error, or the number of bytes it is
    willing to take. *)

From S2P Require Import Prelude Ip.

Module Io.

Inductive ErrorKind := UnexpectedEof | InvalidInput | InvalidData | WriteZero | Other.

Definition read_exact (n : Z) (s : bytes) : result (bytes * bytes) ErrorKind :=
  if len s <? n then Err UnexpectedEof
  else Ok (take (Z.to_nat n) s, drop (Z.to_nat n) s).

(** The answers of successive [write] calls; when none is left, a call takes all. *)
Record Writer := MkWriter { out : bytes; answers : list (option Z) }.

(** [write]: at most the whole buffer, as the trait's contract says. *)
Definition write (buf : bytes) (w : Writer) : result Z ErrorKind * Writer :=
  match answers w with
  | [] => (Ok (len buf), MkWriter (out w ++ buf) [])
  | None :: rest => (Err Other, MkWriter (out w) rest)
  | Some k :: rest =>
      let n := Z.min (Z.max 0 k) (len buf) in
      (Ok n, MkWriter (out w ++ take (Z.to_nat n) buf) rest)
  end.

End Io.

Module FrameStream.
Import Io.

Definition FRAME_HEADER_LEN : Z := 4.
Definition MAX_FRAME_LEN : Z := 64 * 1024.

Definition read_frame (reader : bytes) : result (bytes * bytes) ErrorKind :=
  let? (header, reader) := read_exact FRAME_HEADER_LEN reader in
  let frame_len := from_be header in
  if (frame_len =? 0) || (frame_len >? MAX_FRAME_LEN) then Err InvalidData
  else read_exact frame_len reader.

(** The loop of [write_all]; [None] is fuel exhaustion. *)
Fixpoint write_all_loop (fuel : nat) (buf : bytes) (w : Writer) :
    option (result unit ErrorKind * Writer) :=
  match buf with
  | [] => Some (Ok tt, w)
  | _ :: _ =>
      match fuel with
      | O => None
      | S fuel =>
          match write buf w with
          | (Err e, w) => Some (Err e, w)
          | (Ok written, w) =>
              if written =? 0 then Some (Err WriteZero, w)
              else write_all_loop fuel (drop (Z.to_nat written) buf) w
          end
      end
  end.
(** Each iteration that goes on consumes at least one byte. *)
Definition write_all (buf : bytes) (w : Writer) : result unit ErrorKind * Writer :=
  default (Ok tt, w) (write_all_loop (length buf) buf w).

(** [flush] on a socket does nothing. *)
Definition write_frame (frame : bytes) (w : Writer) : result unit ErrorKind * Writer :=
  if (len frame =? 0) || (len frame >? MAX_FRAME_LEN) then (Err InvalidInput, w)
  else
    let header := to_be 4 (wrap 32 (len frame)) in
    match write_all header w with
    | (Err e, w) => (Err e, w)
    | (Ok _, w) => write_all frame w
    end.

End FrameStream.

Module MediatedEgress.
Import Ip Io.

Definition MAGIC : bytes := bs "SMOLMEG2".
Definition MAX_INITIAL_BYTES : Z := 8 * 1024.
Definition MACHINE_ID_LEN : Z := 16.
Definition TOKEN_LEN : Z := 32.

Record FlowPrelude := MkFlow {
  machine_id : bytes;
  parent_id : bytes;
  dest_ip : IpAddr;
  dest_port : Z;
  initial_bytes : bytes;
}.

Definition zero_id : bytes := replicate 16 0.

(** The bytes written, on a writer that accepts them. *)
Definition write_to (f : FlowPrelude) (token : bytes) : result bytes ErrorKind :=
  if bool_decide (machine_id f = zero_id) || (len (initial_bytes f) >? MAX_INITIAL_BYTES)
  then Err InvalidInput
  else
    Ok (MAGIC ++ token ++ machine_id f ++ parent_id f
        ++ match dest_ip f with
           | V4 ip => [4] ++ to_be 2 (dest_port f) ++ octets4 ip
           | V6 ip => [6] ++ to_be 2 (dest_port f) ++ octets16 ip
           end
        ++ to_be 2 (wrap 16 (len (initial_bytes f))) ++ initial_bytes f).

(** The constant-time comparison: the disjunction of all differences. *)
Fixpoint mismatch (acc : Z) (actual expected : bytes) : Z :=
  match actual, expected with
  | a :: actual, e :: expected => mismatch (Z.lor acc (Z.lxor a e)) actual expected
  | _, _ => acc
  end.

Definition FIXED_LEN : Z := 8 + TOKEN_LEN + MACHINE_ID_LEN * 2 + 1 + 2.

Definition read_from (reader token : bytes) : result (FlowPrelude * bytes) ErrorKind :=
  let? (fixed, reader) := read_exact FIXED_LEN reader in
  let m := mismatch (if bool_decide (slice fixed 0 8 = MAGIC) then 0 else 1)
             (slice fixed 8 (8 + TOKEN_LEN)) token in
  if negb (m =? 0) then Err InvalidData
  else
    let machine_id := slice fixed 40 56 in
    let parent_id := slice fixed 56 72 in
    if bool_decide (machine_id = zero_id) then Err InvalidData
    else
      let port := from_be [at_ fixed 73; at_ fixed 74] in
      let? (ip, reader) :=
        (if at_ fixed 72 =? 4 then
           let? (b, reader) := read_exact 4 reader in Ok (V4 (from_be b), reader)
         else if at_ fixed 72 =? 6 then
           let? (b, reader) := read_exact 16 reader in Ok (V6 (from_be b), reader)
         else Err InvalidData) in
      let? (lb, reader) := read_exact 2 reader in
      let n := from_be lb in
      if n >? MAX_INITIAL_BYTES then Err InvalidData
      else
        let? (initial, reader) := read_exact n reader in
        Ok (MkFlow machine_id parent_id ip port initial, reader).

Inductive Decision := AllowDirect | Deny | Redirect.

Definition decision_read_from (reader : bytes) : result (Decision * bytes) ErrorKind :=
  let? (b, reader) := read_exact 1 reader in
  match at_ b 0 with
  | 0 => Ok (AllowDirect, reader)
  | 1 => Ok (Deny, reader)
  | 2 => Ok (Redirect, reader)
  | _ => Err InvalidData
  end.
Definition decision_write_to (d : Decision) : bytes :=
  match d with AllowDirect => [0] | Deny => [1] | Redirect => [2] end.

End MediatedEgress.

Module StreamFacts.
Import Io FrameStream MediatedEgress Ip.

Lemma read_exact_app n a b : n = len a -> read_exact n (a ++ b) = Ok (a, b).
Proof.
  intros ->. unfold read_exact. rewrite len_app. pose proof (len_nonneg b).
  destruct (Z.ltb_spec (len a + len b) (len a)); [lia|].
  unfold len. by rewrite Nat2Z.id, take_app_length, drop_app_length.
Qed.

Lemma read_exact_ok n s a b : 0 <= n -> read_exact n s = Ok (a, b) -> s = a ++ b /\ len a = n.
Proof.
  intros Hn. unfold read_exact. destruct (Z.ltb_spec (len s) n); [done|]. intros [= <- <-].
  split; [by rewrite take_drop|]. unfold len in *. rewrite length_take. lia.
Qed.

(** ** Writing *)

(** Whatever the writer answers, the loop ends; it writes a prefix of the
    buffer, all of it when it succeeds and not all of it when it fails. *)
Lemma write_all_loop_spec fuel buf w :
  (length buf <= fuel)%nat ->
  exists r w', write_all_loop fuel buf w = Some (r, w')
  /\ match r with
     | Ok _ => out w' = out w ++ buf
     | Err _ => exists k, (k < length buf)%nat /\ out w' = out w ++ take k buf
     end.
Proof.
  revert buf w. induction fuel as [|fuel IH]; intros buf w Hf.
  - destruct buf; [|simpl in Hf; lia]. exists (Ok tt), w. split; [done|]. by rewrite app_nil_r.
  - destruct buf as [|x buf]; [exists (Ok tt), w; split; [done|]; by rewrite app_nil_r|].
    cbn [write_all_loop]. set (b := x :: buf) in *.
    assert (Hb : (1 <= length b)%nat) by (simpl; lia).
    destruct w as [o [|[k|] rest]]; cbn [write answers out].
    + destruct (Z.eqb_spec (len b) 0) as [E|_]; [unfold len in E; lia|].
      unfold len at 1. rewrite Nat2Z.id, drop_all.
      exists (Ok tt), (MkWriter (o ++ b) []). split; [by destruct fuel|done].
    + set (n := Z.min (Z.max 0 k) (len b)). destruct (Z.eqb_spec n 0) as [E|E].
      * exists (Err WriteZero). eexists. split; [done|]. exists 0%nat. split; [lia|]. cbn [out].
        by rewrite E.
      * assert (1 <= n <= len b) by (unfold n, len in *; lia).
        destruct (IH (drop (Z.to_nat n) b) (MkWriter (o ++ take (Z.to_nat n) b) rest))
          as (r & w' & Er & Hr); [rewrite length_drop; lia|].
        exists r, w'. split; [done|]. cbn [out] in Hr. destruct r.
        -- rewrite Hr, <-app_assoc. by rewrite take_drop.
        -- destruct Hr as (j & Hj & Hr). rewrite length_drop in Hj.
           exists (Z.to_nat n + j)%nat. split; [unfold len in *; lia|].
           rewrite Hr, <-app_assoc. f_equal. by rewrite take_take_drop.
    + exists (Err Other). eexists. split; [done|]. exists 0%nat. split; [lia|].
      cbn [out]. by rewrite app_nil_r.
Qed.

Lemma write_all_spec buf w :
  match write_all buf w with
  | (Ok _, w') => out w' = out w ++ buf
  | (Err _, w') => exists k, (k < length buf)%nat /\ out w' = out w ++ take k buf
  end.
Proof.
  unfold write_all. destruct (write_all_loop_spec (length buf) buf w) as (r & w' & -> & H); [done|].
  by destruct r.
Qed.

Definition frame_bytes (frame : bytes) : bytes := to_be 4 (wrap 32 (len frame)) ++ frame.
Definition frame_ok (frame : bytes) : Prop := 0 < len frame <= MAX_FRAME_LEN.

Lemma read_frame_bytes frame rest :
  frame_ok frame -> read_frame (frame_bytes frame ++ rest) = Ok (frame, rest).
Proof.
  intros [H1 H2]. unfold read_frame, frame_bytes. rewrite <-app_assoc.
  rewrite (read_exact_app FRAME_HEADER_LEN) by by rewrite len_to_be. cbn [result_bind].
  unfold wrap. unfold MAX_FRAME_LEN in *. rewrite Z.mod_small by lia.
  rewrite from_to_be_small by (unfold is_uint; simpl; lia).
  destruct (Z.eqb_spec (len frame) 0); [lia|].
  destruct (Z.gtb_spec (len frame) (64 * 1024)); [lia|].
  by apply read_exact_app.
Qed.

(** ** The token comparison *)

Lemma lor_zero a b : Z.lor a b = 0 <-> a = 0 /\ b = 0.
Proof. split; [apply Z.lor_eq_0_iff|]. by intros [-> ->]. Qed.

Lemma mismatch_zero acc a e :
  length a = length e -> mismatch acc a e = 0 <-> acc = 0 /\ a = e.
Proof.
  revert acc e. induction a as [|x a IH]; intros acc [|y e] Hl; try done; cbn [mismatch].
  - split; [done|]. by intros [? _].
  - rewrite IH by (simpl in Hl; lia). rewrite lor_zero, Z.lxor_eq_0_iff.
    split; [by intros [[-> ->] ->]|by intros [-> [= -> ->]]].
Qed.

End StreamFacts.

Module StreamProps.
Import Io FrameStream MediatedEgress StreamFacts Ip.

(** However the socket splits the writes, a frame that is sent is
    received: if [write_frame] succeeds, what it appended reads back as exactly
    that frame with the rest of the stream untouched; if it fails, it rejected
    the length without writing, or appended a strict prefix, which a reader
    never takes for a frame. *)
Theorem frame_stream_roundtrip frame w rest :
  match write_frame frame w with
  | (Ok _, w') =>
      exists sent, out w' = out w ++ sent /\ read_frame (sent ++ rest) = Ok (frame, rest)
  | (Err e, w') =>
      (e = InvalidInput /\ w' = w /\ ~ frame_ok frame)
      \/ exists sent, out w' = out w ++ sent /\ frame_ok frame
           /\ len sent < FRAME_HEADER_LEN + len frame /\ read_frame sent = Err UnexpectedEof
  end.
Proof.
  unfold write_frame. destruct (_ || _) eqn:E.
  { left. split; [done|]. split; [done|]. unfold frame_ok. intros [H1 H2]. bool_simpl.
    destruct E as [E|E]; bool_simpl; lia. }
  assert (frame_ok frame) as Hok.
  { pose proof (len_nonneg frame). bool_simpl. unfold frame_ok. lia. }
  set (header := to_be 4 (wrap 32 (len frame))).
  assert (Hh : len header = 4) by by unfold header; rewrite len_to_be.
  assert (Hlen : from_be header = len frame).
  { unfold header, wrap. destruct Hok as [? ?]. unfold MAX_FRAME_LEN in *.
    rewrite Z.mod_small by lia. apply from_to_be_small. unfold is_uint. simpl. lia. }
  pose proof (write_all_spec header w) as H1. destruct (write_all header w) as [[[]|e] w1].
  - pose proof (write_all_spec frame w1) as H2. destruct (write_all frame w1) as [[[]|e] w2].
    + exists (frame_bytes frame). split; [by rewrite H2, H1, <-app_assoc|].
      by apply read_frame_bytes.
    + destruct H2 as (k & Hk & H2). right. exists (header ++ take k frame).
      split; [by rewrite H2, H1, <-app_assoc|]. split; [done|].
      assert (len (take k frame) < len frame) by (unfold len; rewrite length_take; lia).
      split; [rewrite len_app, Hh; unfold FRAME_HEADER_LEN; lia|].
      unfold read_frame. rewrite (read_exact_app FRAME_HEADER_LEN header) by done. cbn [result_bind].
      rewrite Hlen, E. unfold read_exact. by destruct (Z.ltb_spec (len (take k frame)) (len frame)); [|lia].
  - destruct H1 as (k & Hk & H1). right. exists (take k header). split; [done|]. split; [done|].
    assert (len (take k header) < 4) by (unfold len in *; rewrite length_take; lia).
    destruct Hok. split; [unfold FRAME_HEADER_LEN; lia|].
    unfold read_frame, read_exact, FRAME_HEADER_LEN. by destruct (Z.ltb_spec (len (take k header)) 4); [|lia].
Qed.

(** What a flow prelude must be to be written. *)
Definition flow_ok (f : FlowPrelude) : Prop :=
  len (machine_id f) = 16 /\ machine_id f <> zero_id /\ len (parent_id f) = 16
  /\ is_uint 16 (dest_port f) /\ wf (dest_ip f) /\ len (initial_bytes f) <= MAX_INITIAL_BYTES.
#[global] Instance flow_ok_dec f : base.Decision (flow_ok f).
Proof. unfold flow_ok, wf. destruct (dest_ip f); apply _. Defined.

Definition address_bytes (f : FlowPrelude) : bytes :=
  match dest_ip f with V4 ip => octets4 ip | V6 ip => octets16 ip end.
Definition family (f : FlowPrelude) : Z := match dest_ip f with V4 _ => 4 | V6 _ => 6 end.

Lemma write_to_shape f token :
  flow_ok f -> write_to f token =
  Ok ((MAGIC ++ token ++ machine_id f ++ parent_id f ++ [family f] ++ to_be 2 (dest_port f))
      ++ address_bytes f ++ to_be 2 (len (initial_bytes f)) ++ initial_bytes f).
Proof.
  intros (_ & Hm & _ & _ & _ & Hi). unfold write_to.
  rewrite bool_decide_false by done. pose proof (len_nonneg (initial_bytes f)).
  destruct (Z.gtb_spec (len (initial_bytes f)) MAX_INITIAL_BYTES); [lia|]. cbn [orb].
  unfold wrap, MAX_INITIAL_BYTES in *. rewrite Z.mod_small by lia.
  unfold family, address_bytes. destruct (dest_ip f); by rewrite <-!app_assoc.
Qed.

(** The fixed part, field by field. *)
Lemma fixed_fields magic token mid pid fam port :
  len magic = 8 -> len token = 32 -> len mid = 16 -> len pid = 16 -> len port = 2 ->
  let fixed := magic ++ token ++ mid ++ pid ++ [fam] ++ port in
  slice fixed 0 8 = magic /\ slice fixed 8 40 = token /\ slice fixed 40 56 = mid
  /\ slice fixed 56 72 = pid /\ at_ fixed 72 = fam /\ [at_ fixed 73; at_ fixed 74] = port
  /\ len fixed = FIXED_LEN.
Proof.
  intros H1 H2 H3 H4 H5 fixed. unfold fixed.
  split; [apply (slice_app [] magic); [done|by rewrite H1]|].
  split; [apply slice_app; [done|by rewrite H1, H2]|].
  split. { rewrite app_assoc. apply slice_app; rewrite len_app; lia. }
  split. { rewrite 2 app_assoc. apply slice_app; rewrite !len_app; lia. }
  assert (E : magic ++ token ++ mid ++ pid ++ [fam] ++ port = (magic ++ token ++ mid ++ pid) ++ fam :: port)
    by by rewrite <-!app_assoc.
  split. { rewrite E. apply at_app_mid. rewrite !len_app. lia. }
  split.
  - destruct port as [|a [|b [|c port]]]; try (unfold len in H5; simpl in H5; lia). rewrite E.
    f_equal; [|f_equal].
    + replace ((magic ++ token ++ mid ++ pid) ++ [fam; a; b])
        with (((magic ++ token ++ mid ++ pid) ++ [fam]) ++ a :: [b]) by by rewrite <-!app_assoc.
      apply at_app_mid. rewrite !len_app, len_cons, len_nil. lia.
    + replace ((magic ++ token ++ mid ++ pid) ++ [fam; a; b])
        with (((magic ++ token ++ mid ++ pid) ++ [fam; a]) ++ b :: []) by by rewrite <-!app_assoc.
      apply at_app_mid. rewrite !len_app, !len_cons, len_nil. lia.
  - rewrite !len_app, len_cons, len_nil. unfold FIXED_LEN, TOKEN_LEN, MACHINE_ID_LEN. lia.
Qed.

Lemma read_address f rest :
  wf (dest_ip f) ->
  (if family f =? 4 then
     let? (b, reader) := read_exact 4 (address_bytes f ++ rest) in Ok (V4 (from_be b), reader)
   else if family f =? 6 then
     let? (b, reader) := read_exact 16 (address_bytes f ++ rest) in Ok (V6 (from_be b), reader)
   else Err InvalidData) = Ok (dest_ip f, rest).
Proof.
  unfold family, address_bytes, octets4, octets16. destruct (dest_ip f) as [a|a]; simpl wf; intros Hw.
  - change (4 =? 4) with true. rewrite read_exact_app by by rewrite len_to_be. cbn [result_bind].
    by rewrite from_to_be_small.
  - change (6 =? 4) with false. change (6 =? 6) with true. cbv iota.
    rewrite read_exact_app by by rewrite len_to_be. cbn [result_bind]. by rewrite from_to_be_small.
Qed.

(** A flow the host attests is the flow the decider reads: a well-formed
    prelude written under a token reads back unchanged under the same token,
    leaving the following bytes on the stream, and is rejected under any other
    token of the same length. *)
Theorem flow_prelude_roundtrip f token token' rest :
  flow_ok f -> len token = 32 -> len token' = 32 -> token' <> token ->
  exists b, write_to f token = Ok b
  /\ read_from (b ++ rest) token = Ok (f, rest)
  /\ read_from (b ++ rest) token' = Err InvalidData.
Proof.
  intros Hf Ht Ht' Hne. rewrite write_to_shape by done. eexists. split; [done|].
  destruct Hf as (H1 & H2 & H3 & H4 & H5 & H6).
  set (fixed := MAGIC ++ token ++ _).
  destruct (fixed_fields MAGIC token (machine_id f) (parent_id f) (family f) (to_be 2 (dest_port f)))
    as (F1 & F2 & F3 & F4 & F5 & F6 & F7); [done..|].
  fold fixed in F1, F2, F3, F4, F5, F6, F7.
  assert (Hhead : forall tk, read_from ((fixed ++ address_bytes f ++ to_be 2 (len (initial_bytes f))
      ++ initial_bytes f) ++ rest) tk
    = if negb (mismatch 0 token tk =? 0) then Err InvalidData else Ok (f, rest)).
  { intros tk. rewrite <-!app_assoc. unfold read_from. rewrite read_exact_app by done.
    cbn [result_bind]. change (8 + TOKEN_LEN) with 40.
    rewrite F1, F2, F3, F4, F5, F6, (bool_decide_true (MAGIC = MAGIC)) by done.
    destruct (negb _); [done|]. rewrite bool_decide_false by done. cbv zeta.
    rewrite read_address by done. cbn [result_bind].
    rewrite read_exact_app by by rewrite len_to_be. cbn [result_bind].
    pose proof (len_nonneg (initial_bytes f)). unfold MAX_INITIAL_BYTES in *.
    rewrite !from_to_be_small by (try done; unfold is_uint; simpl; lia).
    destruct (Z.gtb_spec (len (initial_bytes f)) (8 * 1024)); [lia|].
    rewrite read_exact_app by done. by destruct f. }
  rewrite !Hhead. split.
  - by rewrite (proj2 (mismatch_zero 0 token token eq_refl)).
  - destruct (Z.eqb_spec (mismatch 0 token token') 0) as [E|]; [|done].
    apply mismatch_zero in E as [_ E]; [congruence|unfold len in *; lia].
Qed.

Definition sample_flow : FlowPrelude :=
  MkFlow (replicate 16 7) zero_id (V4 (from_be [1; 1; 1; 1])) 443 (bs "GET /").

Lemma flow_prelude_roundtrip_witness :
  exists b, write_to sample_flow (replicate 32 9) = Ok b
  /\ read_from (b ++ bs "more") (replicate 32 9) = Ok (sample_flow, bs "more").
Proof.
  destruct (flow_prelude_roundtrip sample_flow (replicate 32 9) (replicate 32 8) (bs "more"))
    as (b & H1 & H2 & _); try done.
  by exists b.
Defined.

End StreamProps.
