(* ===== verification/PackFormat.v ===== *)
(** * PackFormat: the fixed-size records of a packed machine
    (crates/smolvm-pack/src/format.rs)

    Serialization fills a zeroed buffer range by range, as the code does;
    [put] is [buf[at..at + len].copy_from_slice(bytes)]. *)

From S2P Require Import Prelude.

Module PackFormat.

Definition MAGIC : bytes := bs "SMOLPACK".
Definition SECTION_MAGIC : bytes := bs "SMOLSECT".
Definition LIBS_MAGIC : bytes := bs "SMOLLIBS".
Definition FORMAT_VERSION : Z := 1.
Definition SUPPORTED_READ_VERSIONS : list Z := [1; 2; 3].
Definition is_supported_read_version (v : Z) : bool := bool_decide (v ∈ SUPPORTED_READ_VERSIONS).
Definition FOOTER_SIZE : nat := 64.
Definition SECTION_HEADER_SIZE : nat := 32.
Definition LIBS_FOOTER_SIZE : nat := 32.

Inductive PackError := InvalidMagic | UnsupportedVersion (v : Z).

Definition put (buf : bytes) (at_ : nat) (b : bytes) : bytes :=
  take at_ buf ++ b ++ drop (at_ + length b) buf.

Record SectionHeader := MkSection {
  sh_manifest_size : Z;
  sh_assets_size : Z;
  sh_checksum : Z;
}.
Definition section_to_bytes (h : SectionHeader) : bytes :=
  let buf := replicate SECTION_HEADER_SIZE 0 in
  let buf := put buf 0 SECTION_MAGIC in
  let buf := put buf 8 (to_le 4 FORMAT_VERSION) in
  let buf := put buf 12 (to_le 4 (sh_manifest_size h)) in
  let buf := put buf 16 (to_le 8 (sh_assets_size h)) in
  put buf 24 (to_le 4 (sh_checksum h)).
Definition section_from_bytes (buf : bytes) : result SectionHeader PackError :=
  if len buf <? Z.of_nat SECTION_HEADER_SIZE then Err InvalidMagic
  else if negb (bool_decide (slice buf 0 8 = SECTION_MAGIC)) then Err InvalidMagic
  else
    let version := from_le (slice buf 8 12) in
    if negb (is_supported_read_version version) then Err (UnsupportedVersion version)
    else Ok (MkSection (from_le (slice buf 12 16)) (from_le (slice buf 16 24))
               (from_le (slice buf 24 28))).

Record LibsFooter := MkLibs { libs_offset : Z; libs_size : Z }.
Definition libs_to_bytes (f : LibsFooter) : bytes :=
  let buf := replicate LIBS_FOOTER_SIZE 0 in
  let buf := put buf 0 LIBS_MAGIC in
  let buf := put buf 8 (to_le 4 1) in
  let buf := put buf 12 (to_le 8 (libs_offset f)) in
  put buf 20 (to_le 8 (libs_size f)).
Definition libs_from_bytes (buf : bytes) : result LibsFooter PackError :=
  if negb (bool_decide (slice buf 0 8 = LIBS_MAGIC)) then Err InvalidMagic
  else
    let version := from_le (slice buf 8 12) in
    if negb (version =? 1) then Err (UnsupportedVersion version)
    else Ok (MkLibs (from_le (slice buf 12 20)) (from_le (slice buf 20 28))).

Record PackFooter := MkFooter {
  stub_size : Z;
  assets_offset : Z;
  assets_size : Z;
  manifest_offset : Z;
  manifest_size : Z;
  checksum : Z;
}.
Definition footer_to_bytes (f : PackFooter) : bytes :=
  let buf := replicate FOOTER_SIZE 0 in
  let buf := put buf 0 MAGIC in
  let buf := put buf 8 (to_le 4 FORMAT_VERSION) in
  let buf := put buf 12 (to_le 8 (stub_size f)) in
  let buf := put buf 20 (to_le 8 (assets_offset f)) in
  let buf := put buf 28 (to_le 8 (assets_size f)) in
  let buf := put buf 36 (to_le 8 (manifest_offset f)) in
  let buf := put buf 44 (to_le 8 (manifest_size f)) in
  put buf 52 (to_le 4 (checksum f)).
Definition footer_from_bytes (buf : bytes) : result PackFooter PackError :=
  if negb (bool_decide (slice buf 0 8 = MAGIC)) then Err InvalidMagic
  else
    let version := from_le (slice buf 8 12) in
    if negb (is_supported_read_version version) then Err (UnsupportedVersion version)
    else Ok (MkFooter (from_le (slice buf 12 20)) (from_le (slice buf 20 28))
               (from_le (slice buf 28 36)) (from_le (slice buf 36 44))
               (from_le (slice buf 44 52)) (from_le (slice buf 52 56))).

End PackFormat.

Module PackProps.
Import PackFormat.

Definition section_ok (h : SectionHeader) : Prop :=
  is_uint 32 (sh_manifest_size h) /\ is_uint 64 (sh_assets_size h) /\ is_uint 32 (sh_checksum h).
Definition libs_ok (f : LibsFooter) : Prop := is_uint 64 (libs_offset f) /\ is_uint 64 (libs_size f).
Definition footer_ok (f : PackFooter) : Prop :=
  is_uint 64 (stub_size f) /\ is_uint 64 (assets_offset f) /\ is_uint 64 (assets_size f)
  /\ is_uint 64 (manifest_offset f) /\ is_uint 64 (manifest_size f) /\ is_uint 32 (checksum f).

(** Every record a packer writes is read back unchanged: the section
    header, the libs footer and the pack footer, for all field values that fit
    their width, at their documented fixed sizes. *)
Theorem pack_records_roundtrip h l f rest :
  section_ok h -> libs_ok l -> footer_ok f ->
  section_from_bytes (section_to_bytes h ++ rest) = Ok h
  /\ libs_from_bytes (libs_to_bytes l) = Ok l
  /\ footer_from_bytes (footer_to_bytes f) = Ok f
  /\ length (section_to_bytes h) = 32%nat /\ length (libs_to_bytes l) = 32%nat
  /\ length (footer_to_bytes f) = 64%nat.
Proof.
  intros (S1 & S2 & S3) (L1 & L2) (F1 & F2 & F3 & F4 & F5 & F6).
  split; [|split; [|split; [|done]]].
  - unfold section_from_bytes. rewrite len_app. pose proof (len_nonneg rest).
    change (len (section_to_bytes h)) with 32.
    destruct (Z.ltb_spec (32 + len rest) (Z.of_nat SECTION_HEADER_SIZE)) as [Hlt|_];
      [change (Z.of_nat SECTION_HEADER_SIZE) with 32 in Hlt; lia|].
    change (slice (section_to_bytes h ++ rest) 0 8) with SECTION_MAGIC.
    change (slice (section_to_bytes h ++ rest) 8 12) with (to_le 4 1).
    change (slice (section_to_bytes h ++ rest) 12 16) with (to_le 4 (sh_manifest_size h)).
    change (slice (section_to_bytes h ++ rest) 16 24) with (to_le 8 (sh_assets_size h)).
    change (slice (section_to_bytes h ++ rest) 24 28) with (to_le 4 (sh_checksum h)).
    rewrite bool_decide_true by done. rewrite !from_to_le_small by done. by destruct h.
  - unfold libs_from_bytes.
    change (slice (libs_to_bytes l) 0 8) with LIBS_MAGIC.
    change (slice (libs_to_bytes l) 8 12) with (to_le 4 1).
    change (slice (libs_to_bytes l) 12 20) with (to_le 8 (libs_offset l)).
    change (slice (libs_to_bytes l) 20 28) with (to_le 8 (libs_size l)).
    rewrite bool_decide_true by done. rewrite !from_to_le_small by done. by destruct l.
  - unfold footer_from_bytes.
    change (slice (footer_to_bytes f) 0 8) with MAGIC.
    change (slice (footer_to_bytes f) 8 12) with (to_le 4 1).
    change (slice (footer_to_bytes f) 12 20) with (to_le 8 (stub_size f)).
    change (slice (footer_to_bytes f) 20 28) with (to_le 8 (assets_offset f)).
    change (slice (footer_to_bytes f) 28 36) with (to_le 8 (assets_size f)).
    change (slice (footer_to_bytes f) 36 44) with (to_le 8 (manifest_offset f)).
    change (slice (footer_to_bytes f) 44 52) with (to_le 8 (manifest_size f)).
    change (slice (footer_to_bytes f) 52 56) with (to_le 4 (checksum f)).
    rewrite bool_decide_true by done. rewrite !from_to_le_small by done. by destruct f.
Qed.

Lemma pack_records_roundtrip_witness :
  footer_from_bytes (footer_to_bytes (MkFooter 4096 4096 300 4396 77 0xdeadbeef))
  = Ok (MkFooter 4096 4096 300 4396 77 0xdeadbeef).
Proof.
  refine (proj1 (proj2 (proj2 (pack_records_roundtrip (MkSection 1 2 3) (MkLibs 4 5)
    (MkFooter 4096 4096 300 4396 77 0xdeadbeef) [] _ _ _)))); repeat split; by vm_compute.
Defined.

(** A 64-byte footer is accepted exactly when it carries the magic and a
    version this build reads; a wrong magic and an unreadable version are told
    apart, and two footers of the current version with zero reserved bytes that
    read alike are the same bytes. *)
Theorem pack_footer_strict buf :
  is_bytes buf -> length buf = 64%nat ->
  (is_ok (footer_from_bytes buf) = true <->
     slice buf 0 8 = MAGIC /\ from_le (slice buf 8 12) ∈ [1; 2; 3])
  /\ (footer_from_bytes buf = Err InvalidMagic <-> slice buf 0 8 <> MAGIC)
  /\ (forall f, footer_from_bytes buf = Ok f -> from_le (slice buf 8 12) = FORMAT_VERSION ->
        slice buf 56 64 = replicate 8 0 -> footer_to_bytes f = buf).
Proof.
  intros Hb Hl. unfold footer_from_bytes, is_supported_read_version, SUPPORTED_READ_VERSIONS.
  split; [|split].
  - case_bool_guard; [naive_solver|]. case_bool_guard; naive_solver.
  - case_bool_guard; [naive_solver|]. case_bool_guard; naive_solver.
  - intros f Hf Hv Hz.
    assert (Hs : forall a n, (a + n <= 64)%nat ->
      to_le n (from_le (slice buf (Z.of_nat a) (Z.of_nat a + Z.of_nat n)))
      = slice buf (Z.of_nat a) (Z.of_nat a + Z.of_nat n)).
    { intros a n Hn. set (x := slice buf _ _).
      assert (Hx : length x = n).
      { unfold x, slice. rewrite length_take, length_drop. lia. }
      rewrite <-Hx. apply to_from_le. unfold x, slice. by apply Forall_take, Forall_drop. }
    destruct (bool_decide (slice buf 0 8 = MAGIC)) eqn:Em; [|done]. cbn [negb] in Hf.
    destruct (bool_decide (from_le (slice buf 8 12) ∈ [1; 2; 3])); [|done]. cbn [negb] in Hf. bool_simpl.
    injection Hf as <-.
    assert (H1 : to_le 4 (from_le (slice buf 8 12)) = slice buf 8 12) by (apply (Hs 8 4)%nat; lia).
    assert (H2 : to_le 8 (from_le (slice buf 12 20)) = slice buf 12 20) by (apply (Hs 12 8)%nat; lia).
    assert (H3 : to_le 8 (from_le (slice buf 20 28)) = slice buf 20 28) by (apply (Hs 20 8)%nat; lia).
    assert (H4 : to_le 8 (from_le (slice buf 28 36)) = slice buf 28 36) by (apply (Hs 28 8)%nat; lia).
    assert (H5 : to_le 8 (from_le (slice buf 36 44)) = slice buf 36 44) by (apply (Hs 36 8)%nat; lia).
    assert (H6 : to_le 8 (from_le (slice buf 44 52)) = slice buf 44 52) by (apply (Hs 44 8)%nat; lia).
    assert (H7 : to_le 4 (from_le (slice buf 52 56)) = slice buf 52 56) by (apply (Hs 52 4)%nat; lia).
    clear Hs.
    transitivity (MAGIC ++ to_le 4 FORMAT_VERSION ++ to_le 8 (from_le (slice buf 12 20))
      ++ to_le 8 (from_le (slice buf 20 28)) ++ to_le 8 (from_le (slice buf 28 36))
      ++ to_le 8 (from_le (slice buf 36 44)) ++ to_le 8 (from_le (slice buf 44 52))
      ++ to_le 4 (from_le (slice buf 52 56)) ++ replicate 8 0); [done|].
    rewrite <-Em, <-Hv, <-Hz. rewrite H1, H2, H3, H4, H5, H6, H7.
    clear -Hl. do 64 (destruct buf as [|? buf]; [done|]). destruct buf; [done|simpl in Hl; lia].
Qed.

Lemma pack_footer_strict_witness :
  footer_from_bytes (replicate 64 0) = Err InvalidMagic.
Proof.
  refine (proj2 (proj1 (proj2 (pack_footer_strict (replicate 64 0) _ _))) _).
  - apply (bool_decide_unpack _). by vm_compute.
  - by vm_compute.
  - by vm_compute.
Defined.

End PackProps.
