(* ===== verification/CudaProto.v ===== *)
(** * The CUDA wire protocol

    [src/crates/smolvm-cuda/src/proto.rs]: the opcodes, requests and responses
    the guest's CUDA shims exchange with the host, the cursor that decodes
    them, and the length-prefixed frames that carry them.

    Integers are [Z]; a value of the Rust type is one in its range (see
    [request_ok] in [CudaProtoFacts]). A [String] is its UTF-8 bytes and an
    [f32] its bit pattern, which is how both travel. The decoder is a state and
    error monad over the cursor; its last state component, [reserved], logs
    the byte size of every buffer the decoder asks the allocator for (a
    [Vec::with_capacity] or [Vec::reserve], a [Vec] that grows on a push, the
    copy a [to_vec] makes), because a guest chooses those sizes. The one [match] of
    [encode_request] and the one of [decode_request] are cut, in source order,
    into five definitions each. *)

From S2P Require Import Prelude RustStr.

Module Proto.
Import Str.

Definition MAX_MSG : Z := 256 * 1024 * 1024.
Definition QUIET_PREFIX : Z := 0x7F.
Definition FENCE_OP : Z := 0x7E.
(** The bytes of [SMVCLN], then [0x02], [0x00]. *)
Definition CLONE_PREAMBLE_MAGIC : bytes := bs "SMVCLN" ++ [0x02; 0x00].

(** ** Opcodes, requests and responses *)

Module Op.

Inductive Op :=
| Init | DeviceGetCount | DeviceGetName | DeviceTotalMem | DriverGetVersion | DeviceGetAttribute
| DeviceGetUuid | DeviceGetPciBusId | DeviceGetByPciBusId | DeviceCanAccessPeer
| DeviceEnablePeerAccess | DeviceDisablePeerAccess | CtxCreate | CtxDestroy | PrimaryCtxRetain
| PrimaryCtxRelease | CtxGetStreamPriorityRange | CtxSetCurrent | ModuleLoadData
| ModuleGetFunction | ModuleUnload | FuncGetParamInfo | FuncSetAttribute | FuncGetAttribute
| ModuleGetGlobal | MemAlloc | MemFree | MemcpyHtoD | MemcpyDtoH | MemcpyDtoD | MemsetD8
| MemGetInfo | MemPoolCreate | MemPoolDestroy | MemPoolSetAttribute | MemPoolGetAttribute
| MemPoolSetAccess | MemPoolGetAccess | MemPoolTrimTo | MemAllocFromPoolAsync | MemAllocAsync
| LaunchKernel | MemFreeAsync | DeviceGetDefaultMemPool | DeviceGetMemPool | DeviceSetMemPool
| MemcpyPeerAsync | IpcGetMemHandle | IpcOpenMemHandle | IpcCloseMemHandle | IpcGetEventHandle
| IpcOpenEventHandle | LaunchKernelPacked | HostGetDevicePointer | CtxSynchronize | StreamCreate
| StreamDestroy | StreamSynchronize | StreamQuery | EventCreate | EventDestroy | EventRecord
| EventSynchronize | EventElapsedTime | StreamWaitEvent | EventQuery | EventCreateBatch
| StreamBeginCapture | StreamEndCapture | GraphInstantiate | GraphLaunch | GraphExecDestroy
| GraphDestroy | StreamCaptureInfo | MemsetD8Async | MemcpyDtoDAsync | GraphGetNodes
| ThreadExchangeCaptureMode | GraphExecUpdate | AutoGraphSegment | NvcompDeflateTempSize
| NvcompDeflateDecompress | CublasCreate | CublasDestroy | CublasSetStream | CublasSgemm
| LibCall | MemcpyShmHtoD | MemcpyShmDtoH | MemcpyGpaHtoD | MemcpyGpaDtoH | RingSetup
| RingSetupFile | MemAddressReserve | MemCreate | MemMap | MemSetAccess | MemUnmap | MemRelease
| MemAddressFree | MemGetAllocationGranularity | MemCreateVh | SetDeviceBase
| PublishTensorBundle.

(** [op as u8]: the discriminants. *)
Definition as_u8 (op : Op) : Z :=
  match op with
  | Init => 0x01 | DeviceGetCount => 0x02 | DeviceGetName => 0x03 | DeviceTotalMem => 0x04
  | DriverGetVersion => 0x05 | DeviceGetAttribute => 0x06 | DeviceGetUuid => 0x07
  | DeviceGetPciBusId => 0x08 | DeviceGetByPciBusId => 0x09 | DeviceCanAccessPeer => 0x0A
  | DeviceEnablePeerAccess => 0x0B | DeviceDisablePeerAccess => 0x0C | CtxCreate => 0x10
  | CtxDestroy => 0x11 | PrimaryCtxRetain => 0x12 | PrimaryCtxRelease => 0x13
  | CtxGetStreamPriorityRange => 0x14 | CtxSetCurrent => 0x15 | ModuleLoadData => 0x20
  | ModuleGetFunction => 0x21 | ModuleUnload => 0x22 | FuncGetParamInfo => 0x23
  | FuncSetAttribute => 0x24 | FuncGetAttribute => 0x25 | ModuleGetGlobal => 0x26
  | MemAlloc => 0x30 | MemFree => 0x31 | MemcpyHtoD => 0x32 | MemcpyDtoH => 0x33
  | MemcpyDtoD => 0x34 | MemsetD8 => 0x35 | MemGetInfo => 0x36 | MemPoolCreate => 0x37
  | MemPoolDestroy => 0x38 | MemPoolSetAttribute => 0x39 | MemPoolGetAttribute => 0x3A
  | MemPoolSetAccess => 0x3B | MemPoolGetAccess => 0x3C | MemPoolTrimTo => 0x3D
  | MemAllocFromPoolAsync => 0x3E | MemAllocAsync => 0x3F | LaunchKernel => 0x40
  | MemFreeAsync => 0x41 | DeviceGetDefaultMemPool => 0x42 | DeviceGetMemPool => 0x43
  | DeviceSetMemPool => 0x44 | MemcpyPeerAsync => 0x45 | IpcGetMemHandle => 0x46
  | IpcOpenMemHandle => 0x47 | IpcCloseMemHandle => 0x48 | IpcGetEventHandle => 0x49
  | IpcOpenEventHandle => 0x4A | LaunchKernelPacked => 0x4B | HostGetDevicePointer => 0x4C
  | CtxSynchronize => 0x50 | StreamCreate => 0x60 | StreamDestroy => 0x61
  | StreamSynchronize => 0x62 | StreamQuery => 0x63 | EventCreate => 0x70 | EventDestroy => 0x71
  | EventRecord => 0x72 | EventSynchronize => 0x73 | EventElapsedTime => 0x74
  | StreamWaitEvent => 0x75 | EventQuery => 0x76 | EventCreateBatch => 0x77
  | StreamBeginCapture => 0xC0 | StreamEndCapture => 0xC1 | GraphInstantiate => 0xC2
  | GraphLaunch => 0xC3 | GraphExecDestroy => 0xC4 | GraphDestroy => 0xC5
  | StreamCaptureInfo => 0xC6 | MemsetD8Async => 0xC7 | MemcpyDtoDAsync => 0xC8
  | GraphGetNodes => 0xC9 | ThreadExchangeCaptureMode => 0xCA | GraphExecUpdate => 0xCB
  | AutoGraphSegment => 0xCC | NvcompDeflateTempSize => 0x80 | NvcompDeflateDecompress => 0x81
  | CublasCreate => 0x90 | CublasDestroy => 0x91 | CublasSetStream => 0x92 | CublasSgemm => 0x93
  | LibCall => 0xA0 | MemcpyShmHtoD => 0xB0 | MemcpyShmDtoH => 0xB1 | MemcpyGpaHtoD => 0xB2
  | MemcpyGpaDtoH => 0xB3 | RingSetup => 0xD0 | RingSetupFile => 0xD1 | MemAddressReserve => 0xE0
  | MemCreate => 0xE1 | MemMap => 0xE2 | MemSetAccess => 0xE3 | MemUnmap => 0xE4
  | MemRelease => 0xE5 | MemAddressFree => 0xE6 | MemGetAllocationGranularity => 0xE7
  | MemCreateVh => 0xE8 | SetDeviceBase => 0xE9 | PublishTensorBundle => 0xEA
  end.

Definition from_u8 (v : Z) : option Op :=
  match v with
  | 0x01 => Some Init | 0x02 => Some DeviceGetCount | 0x03 => Some DeviceGetName
  | 0x04 => Some DeviceTotalMem | 0x05 => Some DriverGetVersion | 0x06 => Some DeviceGetAttribute
  | 0x07 => Some DeviceGetUuid | 0x08 => Some DeviceGetPciBusId
  | 0x09 => Some DeviceGetByPciBusId | 0x0A => Some DeviceCanAccessPeer
  | 0x0B => Some DeviceEnablePeerAccess | 0x0C => Some DeviceDisablePeerAccess
  | 0x10 => Some CtxCreate | 0x11 => Some CtxDestroy | 0x12 => Some PrimaryCtxRetain
  | 0x13 => Some PrimaryCtxRelease | 0x14 => Some CtxGetStreamPriorityRange
  | 0x15 => Some CtxSetCurrent | 0x20 => Some ModuleLoadData | 0x21 => Some ModuleGetFunction
  | 0x22 => Some ModuleUnload | 0x23 => Some FuncGetParamInfo | 0x24 => Some FuncSetAttribute
  | 0x25 => Some FuncGetAttribute | 0x26 => Some ModuleGetGlobal | 0x30 => Some MemAlloc
  | 0x31 => Some MemFree | 0x32 => Some MemcpyHtoD | 0x33 => Some MemcpyDtoH
  | 0x34 => Some MemcpyDtoD | 0x35 => Some MemsetD8 | 0x36 => Some MemGetInfo
  | 0x37 => Some MemPoolCreate | 0x38 => Some MemPoolDestroy | 0x39 => Some MemPoolSetAttribute
  | 0x3A => Some MemPoolGetAttribute | 0x3B => Some MemPoolSetAccess
  | 0x3C => Some MemPoolGetAccess | 0x3D => Some MemPoolTrimTo
  | 0x3E => Some MemAllocFromPoolAsync | 0x3F => Some MemAllocAsync | 0x40 => Some LaunchKernel
  | 0x41 => Some MemFreeAsync | 0x42 => Some DeviceGetDefaultMemPool
  | 0x43 => Some DeviceGetMemPool | 0x44 => Some DeviceSetMemPool | 0x45 => Some MemcpyPeerAsync
  | 0x46 => Some IpcGetMemHandle | 0x47 => Some IpcOpenMemHandle | 0x48 => Some IpcCloseMemHandle
  | 0x49 => Some IpcGetEventHandle | 0x4A => Some IpcOpenEventHandle
  | 0x4B => Some LaunchKernelPacked | 0x4C => Some HostGetDevicePointer
  | 0x50 => Some CtxSynchronize | 0xC0 => Some StreamBeginCapture | 0xC1 => Some StreamEndCapture
  | 0xC2 => Some GraphInstantiate | 0xC3 => Some GraphLaunch | 0xC4 => Some GraphExecDestroy
  | 0xC5 => Some GraphDestroy | 0xC6 => Some StreamCaptureInfo | 0xC7 => Some MemsetD8Async
  | 0xC8 => Some MemcpyDtoDAsync | 0xC9 => Some GraphGetNodes
  | 0xCA => Some ThreadExchangeCaptureMode | 0xCB => Some GraphExecUpdate
  | 0xCC => Some AutoGraphSegment | 0x60 => Some StreamCreate | 0x61 => Some StreamDestroy
  | 0x62 => Some StreamSynchronize | 0x63 => Some StreamQuery | 0x70 => Some EventCreate
  | 0x71 => Some EventDestroy | 0x72 => Some EventRecord | 0x73 => Some EventSynchronize
  | 0x74 => Some EventElapsedTime | 0x75 => Some StreamWaitEvent | 0x76 => Some EventQuery
  | 0x77 => Some EventCreateBatch | 0x80 => Some NvcompDeflateTempSize
  | 0x81 => Some NvcompDeflateDecompress | 0x90 => Some CublasCreate | 0x91 => Some CublasDestroy
  | 0x92 => Some CublasSetStream | 0x93 => Some CublasSgemm | 0xA0 => Some LibCall
  | 0xB0 => Some MemcpyShmHtoD | 0xB1 => Some MemcpyShmDtoH | 0xB2 => Some MemcpyGpaHtoD
  | 0xB3 => Some MemcpyGpaDtoH | 0xD0 => Some RingSetup | 0xD1 => Some RingSetupFile
  | 0xE0 => Some MemAddressReserve | 0xE1 => Some MemCreate | 0xE8 => Some MemCreateVh
  | 0xE9 => Some SetDeviceBase | 0xEA => Some PublishTensorBundle | 0xE2 => Some MemMap
  | 0xE3 => Some MemSetAccess | 0xE4 => Some MemUnmap | 0xE5 => Some MemRelease
  | 0xE6 => Some MemAddressFree | 0xE7 => Some MemGetAllocationGranularity
  | _ => None
  end.

Lemma from_as_u8 op : from_u8 (as_u8 op) = Some op.
Proof. by destruct op. Qed.

Lemma from_u8_Some v op : from_u8 v = Some op -> v = as_u8 op.
Proof.
  unfold from_u8. intros H.
  repeat (match type of H with context [match ?x with _ => _ end] => destruct x end; try discriminate);
  by inv H.
Qed.

#[global] Instance op_eq_dec : EqDecision Op.
Proof.
  refine (fun x y => cast_if (decide (as_u8 x = as_u8 y))); [|congruence].
  apply (inj Some). by rewrite <- !from_as_u8, e.
Defined.

End Op.

Module Request.

Inductive Request :=
| Init (proto_hash resume_token : Z)
| DeviceGetCount
| DeviceGetName (device : Z)
| DeviceTotalMem (device : Z)
| DriverGetVersion
| DeviceGetAttribute (attrib device : Z)
| DeviceGetUuid (device : Z)
| DeviceGetPciBusId (device : Z)
| DeviceGetByPciBusId (pci_bus_id : bytes)
| DeviceCanAccessPeer (device peer : Z)
| DeviceEnablePeerAccess (peer flags : Z)
| DeviceDisablePeerAccess (peer : Z)
| CtxCreate (device : Z)
| CtxDestroy (ctx : Z)
| PrimaryCtxRetain (device : Z)
| PrimaryCtxRelease (device : Z)
| CtxGetStreamPriorityRange
| CtxSetCurrent (ctx : Z)
| ModuleLoadData (image : bytes)
| ModuleGetFunction (module_ : Z) (name : bytes)
| ModuleUnload (module_ : Z)
| ModuleGetGlobal (module_ : Z) (name : bytes)
| FuncGetParamInfo (function_ : Z)
| FuncSetAttribute (function_ attrib value : Z)
| FuncGetAttribute (function_ attrib : Z)
| MemAlloc (bytes : Z)
| MemFree (dptr : Z)
| MemcpyHtoD (dptr stream : Z) (data : bytes)
| MemcpyDtoH (dptr bytes stream : Z)
| MemcpyDtoD (dst src bytes : Z)
| MemsetD8 (dptr value bytes : Z)
| MemGetInfo
| MemPoolCreate (alloc_type handle_types location_type location_id max_size usage : Z)
| MemPoolDestroy (pool : Z)
| MemPoolSetAttribute (pool attr value : Z)
| MemPoolGetAttribute (pool attr : Z)
| MemPoolSetAccess (pool : Z) (descriptors : list (Z * Z * Z))
| MemPoolGetAccess (pool location_type location_id : Z)
| MemPoolTrimTo (pool min_bytes : Z)
| MemAllocFromPoolAsync (bytes pool stream : Z)
| MemAllocAsync (bytes stream : Z)
| MemFreeAsync (dptr stream : Z)
| DeviceGetDefaultMemPool (device : Z)
| DeviceGetMemPool (device : Z)
| DeviceSetMemPool (device pool : Z)
| MemcpyPeerAsync (dst dst_device src src_device bytes stream : Z)
| IpcGetMemHandle (dptr : Z)
| IpcOpenMemHandle (handle : bytes) (flags : Z)
| IpcCloseMemHandle (dptr : Z)
| IpcGetEventHandle (event : Z)
| IpcOpenEventHandle (handle : bytes)
| LaunchKernel (function_ : Z) (grid block : Z * Z * Z) (shared_bytes stream : Z) (params :
    list bytes)
| LaunchKernelPacked (function_ : Z) (grid block : Z * Z * Z) (shared_bytes stream : Z) (args :
    bytes)
| HostGetDevicePointer (source address : Z)
| CtxSynchronize
| StreamBeginCapture (stream mode : Z)
| StreamEndCapture (stream graph_vh : Z)
| GraphInstantiate (graph exec_vh : Z)
| GraphLaunch (graph_exec stream : Z)
| GraphExecUpdate (graph_exec graph : Z)
| AutoGraphSegment (ops : list bytes)
| GraphExecDestroy (graph_exec : Z)
| GraphDestroy (graph : Z)
| StreamCaptureInfo (stream : Z)
| GraphGetNodes (graph : Z)
| ThreadExchangeCaptureMode (mode : Z)
| MemsetD8Async (dptr value bytes stream : Z)
| MemcpyDtoDAsync (dst src bytes stream : Z)
| StreamCreate (flags : Z)
| StreamDestroy (stream : Z)
| StreamSynchronize (stream : Z)
| StreamQuery (stream : Z)
| StreamWaitEvent (stream event flags : Z)
| EventQuery (event : Z)
| EventCreate (flags : Z)
| EventCreateBatch (flags count : Z)
| EventDestroy (event : Z)
| EventRecord (event stream : Z)
| EventSynchronize (event : Z)
| EventElapsedTime (start end_ : Z)
| NvcompDeflateTempSize (num_chunks max_uncompressed_chunk_bytes max_total_uncompressed_bytes : Z)
| NvcompDeflateDecompress (device_compressed_ptrs device_compressed_bytes
    device_uncompressed_bytes device_actual_uncompressed_bytes batch_size device_temp
    temp_bytes device_uncompressed_ptrs device_statuses stream : Z)
| CublasCreate
| CublasDestroy (handle : Z)
| CublasSetStream (handle stream : Z)
| CublasSgemm (handle transa transb m n k alpha_bits a lda bmat ldb beta_bits c ldc : Z)
| LibCall (lib func : Z) (args : bytes)
| MemcpyShmHtoD (dptr offset size stream : Z)
| MemcpyShmDtoH (offset dptr size stream : Z)
| MemcpyGpaHtoD (dptr stream : Z) (segments : list (Z * Z))
| MemcpyGpaDtoH (dptr stream : Z) (segments : list (Z * Z))
| RingSetup (page_size : Z) (req_pages resp_pages bounce_pages : list Z)
| RingSetupFile (page_size req_n resp_n bounce_n : Z) (fname : bytes)
| MemAddressReserve (size align : Z)
| MemCreate (size device : Z)
| MemCreateVh (size device handle_vh : Z)
| SetDeviceBase (device : Z)
| MemMap (va size offset handle : Z)
| MemSetAccess (va size device : Z)
| MemUnmap (va size : Z)
| MemRelease (handle : Z)
| MemAddressFree (va size : Z)
| MemGetAllocationGranularity (device flags : Z)
| PublishTensorBundle (manifest : bytes) (tensors : list (Z * Z)).

End Request.

Module Response.

(** [Millis] carries the bits of its [f32]. *)
Inductive Response :=
| Ok
| Count (v : Z)
| Name (s : bytes)
| Bytes (v : Z)
| Handle (v : Z)
| Dptr (v : Z)
| Data (d : bytes)
| Pair (a z : Z)
| Millis (ms : Z)
| LibResult (status : Z) (out : bytes).

#[global] Instance response_eq_dec : EqDecision Response.
Proof. solve_decision. Defined.

End Response.

(** ** I/O errors *)

Inductive ErrorKind := InvalidData | InvalidInput | UnexpectedEof | OtherKind.

Inductive IoError := IoErr (kind : ErrorKind) (msg : string).

#[global] Instance error_kind_eq_dec : EqDecision ErrorKind.
Proof. solve_decision. Defined.
#[global] Instance io_error_eq_dec : EqDecision IoError.
Proof. solve_decision. Defined.

Definition bad : IoError := IoErr InvalidData "malformed cuda-rpc message".

(** ** Writers: each appends to the buffer *)

Declare Scope cuda_scope.
Delimit Scope cuda_scope with cuda.
Open Scope cuda_scope.

Notation "b ';>' w" := (w b) (at level 50, left associativity, only parsing) : cuda_scope.

Definition w_u8 (v : Z) (b : bytes) : bytes := b ++ [v].
Definition w_i32 (v : Z) (b : bytes) : bytes := b ++ to_le 4 v.
Definition w_u32 (v : Z) (b : bytes) : bytes := b ++ to_le 4 v.
Definition w_u16 (v : Z) (b : bytes) : bytes := b ++ to_le 2 v.
Definition w_u64 (v : Z) (b : bytes) : bytes := b ++ to_le 8 v.
Definition w_bytes (v : bytes) (b : bytes) : bytes := b ;> w_u64 (len v) ++ v.
Definition w_str (v : bytes) (b : bytes) : bytes := b ;> w_bytes v.

(** [for x in xs { w(b, x) }]. *)
Definition w_for {A} (w : A -> bytes -> bytes) (xs : list A) (b : bytes) : bytes :=
  fold_left (fun b x => w x b) xs b.

(** [for v in grid { w_u32(b, *v) }], over a [[u32; 3]]. *)
Definition w_dims (d : Z * Z * Z) (b : bytes) : bytes :=
  let '(x, y, z) := d in b ;> w_u32 x ;> w_u32 y ;> w_u32 z.

Definition w_gpa_segments (segs : list (Z * Z)) (b : bytes) : bytes :=
  b ;> w_u32 (wrap 32 (len segs))
    ;> w_for (fun '(gpa, len) b => b ;> w_u64 gpa ;> w_u64 len) segs.

(** ** The cursor and its monad *)

Record Dec := MkDec {
  cur_b : bytes;
  cur_p : Z;
  reserved : list Z;
}.

Definition M (A : Type) : Type := Dec -> result A IoError * Dec.

Definition ret {A} (x : A) : M A := fun c => (Ok x, c).
Definition fail {A} (e : IoError) : M A := fun c => (Err e, c).
Definition mbind_dec {A B} (m : M A) (k : A -> M B) : M B :=
  fun c => match m c with (Ok x, c) => k x c | (Err e, c) => (Err e, c) end.

Notation "'let#' x ':=' e 'in' k" := (mbind_dec e (fun x => k))
  (at level 10, x pattern, e at level 200, k at level 200,
   format "'[v' 'let#'  x  ':='  e  'in' '/' k ']'") : cuda_scope.

(** [m.unwrap_or(d)]: a failed read leaves the cursor where its last step put it. *)
Definition unwrap_or {A} (m : M A) (d : A) : M A :=
  fun c => match m c with (Ok x, c) => (Ok x, c) | (Err _, c) => (Ok d, c) end.

(** The allocator is asked for [n] bytes. *)
Definition allocates (n : Z) : M unit :=
  fun c => (Ok tt, MkDec (cur_b c) (cur_p c) (reserved c ++ [n])).

(** [Vec::with_capacity(n)] of elements of [size] bytes. *)
Definition with_capacity (size n : Z) : M unit := allocates (size * n).

(** The capacity [Vec::reserve(n)] gives an empty vector. *)
Definition reserve_cap (n : Z) : Z := if n =? 0 then 0 else Z.max n 4.

(** The capacity of a vector of [k] elements pushed one by one onto one of
    capacity [cap]: a full vector at least doubles, to 4 or more. Lengths are
    below 2^64. *)
Fixpoint cap_at (fuel : nat) (cap k : Z) : Z :=
  match fuel with
  | O => cap
  | S fuel => if k <=? cap then cap else cap_at fuel (Z.max (2 * cap) 4) k
  end.

(** [v.push(x)], on a vector that started with capacity [cap]. *)
Definition push {A} (size cap : Z) (v : list A) (x : A) : M (list A) :=
  let have := cap_at 64 cap (len v) in
  if len v <? have then ret (v ++ [x])
  else let# _ := allocates (size * Z.max (2 * have) 4) in ret (v ++ [x]).

(** [for _ in 0..n { v.push(m?) }]: [n] iterations, by the binary digits of
    [n], so that a count no message can back does not have to be unfolded. *)
Fixpoint for_pos {A} (size cap : Z) (m : M A) (n : positive) (v : list A) : M (list A) :=
  match n with
  | xH => let# x := m in push size cap v x
  | xO n => let# v := for_pos size cap m n v in for_pos size cap m n v
  | xI n => let# v := for_pos size cap m n v in let# v := for_pos size cap m n v in
            let# x := m in push size cap v x
  end.
Definition for_n {A} (size cap n : Z) (m : M A) : M (list A) :=
  match n with Zpos n => for_pos size cap m n [] | _ => ret [] end.

(** Two's complement: the [i32] of a 32-bit pattern. *)
Definition as_i32 (v : Z) : Z := if v <? 2 ^ 31 then v else v - 2 ^ 32.

Module Cur.

Definition new (b : bytes) : Dec := MkDec b 0 [].

Definition take (n : Z) : M bytes := fun c =>
  match checked_add 64 (cur_p c) n with
  | None => (Err bad, c)
  | Some end_ =>
      if end_ >? len (cur_b c) then (Err bad, c)
      else (Ok (slice (cur_b c) (cur_p c) end_), MkDec (cur_b c) end_ (reserved c))
  end.

Definition u8 : M Z := let# s := take 1 in ret (at_ s 0).
Definition i32 : M Z := let# s := take 4 in ret (as_i32 (from_le s)).
Definition u16 : M Z := let# s := take 2 in ret (from_le s).
Definition u32 : M Z := let# s := take 4 in ret (from_le s).
Definition u64 : M Z := let# s := take 8 in ret (from_le s).

(** [usize] is 64 bits wide, so [usize::try_from] of a [u64] succeeds. *)
Definition to_vec (s : Prelude.bytes) : M Prelude.bytes :=
  let# _ := allocates (len s) in ret s.
Definition bytes : M bytes := let# n := u64 in let# s := take n in to_vec s.
Definition bytes_bounded (maximum : Z) : M Prelude.bytes :=
  let# n := u64 in
  if n >? maximum then fail bad else let# s := take n in to_vec s.
Definition string : M Prelude.bytes :=
  let# v := bytes in
  match from_utf8 v with Some s => ret s | None => fail bad end.

End Cur.

(** [[c.u32()?, c.u32()?, c.u32()?]]. *)
Definition r_dims : M (Z * Z * Z) :=
  let# x := Cur.u32 in let# y := Cur.u32 in let# z := Cur.u32 in ret (x, y, z).
(** [(c.u64()?, c.u64()?)]. *)
Definition r_pair : M (Z * Z) :=
  let# x := Cur.u64 in let# y := Cur.u64 in ret (x, y).

Definition r_gpa_segments : M (list (Z * Z)) :=
  let# n := Cur.u32 in
  let# _ := with_capacity 16 (Z.min n (Z.shiftl 1 20)) in
  for_n 16 (Z.min n (Z.shiftl 1 20)) n r_pair.

(** One list of [Op::RingSetup]. *)
Definition r_pages : M (list Z) :=
  let# n := Cur.u32 in
  let# _ := with_capacity 8 (reserve_cap (Z.min n (Z.shiftl 1 16))) in
  for_n 8 (reserve_cap (Z.min n (Z.shiftl 1 16))) n Cur.u64.

(** ** Requests *)

Definition encode_device_module (req : Request.Request) : option bytes :=
  match req with
  | Request.Init proto_hash resume_token =>
      Some ([] ;> w_u8 (Op.as_u8 Op.Init) ;> w_u64 proto_hash ;> w_u64 resume_token)
  | Request.DeviceGetCount => Some ([] ;> w_u8 (Op.as_u8 Op.DeviceGetCount))
  | Request.DeviceGetName device => Some ([] ;> w_u8 (Op.as_u8 Op.DeviceGetName) ;> w_i32 device)
  | Request.DeviceTotalMem device =>
      Some ([] ;> w_u8 (Op.as_u8 Op.DeviceTotalMem) ;> w_i32 device)
  | Request.DriverGetVersion => Some ([] ;> w_u8 (Op.as_u8 Op.DriverGetVersion))
  | Request.DeviceGetAttribute attrib device =>
      Some ([] ;> w_u8 (Op.as_u8 Op.DeviceGetAttribute) ;> w_i32 attrib ;> w_i32 device)
  | Request.DeviceGetUuid device => Some ([] ;> w_u8 (Op.as_u8 Op.DeviceGetUuid) ;> w_i32 device)
  | Request.DeviceGetPciBusId device =>
      Some ([] ;> w_u8 (Op.as_u8 Op.DeviceGetPciBusId) ;> w_i32 device)
  | Request.DeviceGetByPciBusId pci_bus_id =>
      Some ([] ;> w_u8 (Op.as_u8 Op.DeviceGetByPciBusId) ;> w_str pci_bus_id)
  | Request.DeviceCanAccessPeer device peer =>
      Some ([] ;> w_u8 (Op.as_u8 Op.DeviceCanAccessPeer) ;> w_i32 device ;> w_i32 peer)
  | Request.DeviceEnablePeerAccess peer flags =>
      Some ([] ;> w_u8 (Op.as_u8 Op.DeviceEnablePeerAccess) ;> w_i32 peer ;> w_u32 flags)
  | Request.DeviceDisablePeerAccess peer =>
      Some ([] ;> w_u8 (Op.as_u8 Op.DeviceDisablePeerAccess) ;> w_i32 peer)
  | Request.CtxCreate device => Some ([] ;> w_u8 (Op.as_u8 Op.CtxCreate) ;> w_i32 device)
  | Request.CtxDestroy ctx => Some ([] ;> w_u8 (Op.as_u8 Op.CtxDestroy) ;> w_u64 ctx)
  | Request.PrimaryCtxRetain device =>
      Some ([] ;> w_u8 (Op.as_u8 Op.PrimaryCtxRetain) ;> w_i32 device)
  | Request.PrimaryCtxRelease device =>
      Some ([] ;> w_u8 (Op.as_u8 Op.PrimaryCtxRelease) ;> w_i32 device)
  | Request.CtxGetStreamPriorityRange => Some ([] ;> w_u8 (Op.as_u8 Op.CtxGetStreamPriorityRange))
  | Request.CtxSetCurrent ctx => Some ([] ;> w_u8 (Op.as_u8 Op.CtxSetCurrent) ;> w_u64 ctx)
  | Request.ModuleLoadData image =>
      Some ([] ;> w_u8 (Op.as_u8 Op.ModuleLoadData) ;> w_bytes image)
  | Request.ModuleGetFunction module_ name =>
      Some ([] ;> w_u8 (Op.as_u8 Op.ModuleGetFunction) ;> w_u64 module_ ;> w_str name)
  | Request.ModuleUnload module_ => Some ([] ;> w_u8 (Op.as_u8 Op.ModuleUnload) ;> w_u64 module_)
  | Request.ModuleGetGlobal module_ name =>
      Some ([] ;> w_u8 (Op.as_u8 Op.ModuleGetGlobal) ;> w_u64 module_ ;> w_str name)
  | Request.FuncGetParamInfo function_ =>
      Some ([] ;> w_u8 (Op.as_u8 Op.FuncGetParamInfo) ;> w_u64 function_)
  | Request.FuncGetAttribute function_ attrib =>
      Some ([] ;> w_u8 (Op.as_u8 Op.FuncGetAttribute) ;> w_u64 function_ ;> w_i32 attrib)
  | Request.FuncSetAttribute function_ attrib value =>
      Some ([] ;> w_u8 (Op.as_u8 Op.FuncSetAttribute) ;> w_u64 function_ ;> w_i32 attrib
         ;> w_i32 value)
  | Request.MemAlloc bytes => Some ([] ;> w_u8 (Op.as_u8 Op.MemAlloc) ;> w_u64 bytes)
  | Request.MemFree dptr => Some ([] ;> w_u8 (Op.as_u8 Op.MemFree) ;> w_u64 dptr)
  | _ => None
  end.

Definition encode_pool_ipc (req : Request.Request) : option bytes :=
  match req with
  | Request.MemPoolCreate alloc_type handle_types location_type location_id max_size usage =>
      Some ([] ;> w_u8 (Op.as_u8 Op.MemPoolCreate) ;> w_i32 alloc_type ;> w_u32 handle_types
         ;> w_i32 location_type ;> w_i32 location_id ;> w_u64 max_size ;> w_u16 usage)
  | Request.MemPoolDestroy pool => Some ([] ;> w_u8 (Op.as_u8 Op.MemPoolDestroy) ;> w_u64 pool)
  | Request.MemPoolSetAttribute pool attr value =>
      Some ([] ;> w_u8 (Op.as_u8 Op.MemPoolSetAttribute) ;> w_u64 pool ;> w_i32 attr
         ;> w_u64 value)
  | Request.MemPoolGetAttribute pool attr =>
      Some ([] ;> w_u8 (Op.as_u8 Op.MemPoolGetAttribute) ;> w_u64 pool ;> w_i32 attr)
  | Request.MemPoolSetAccess pool descriptors =>
      Some ([] ;> w_u8 (Op.as_u8 Op.MemPoolSetAccess) ;> w_u64 pool
         ;> w_u32 (wrap 32 (len descriptors))
         ;> w_for (fun '(location_type, location_id, flags) b =>
             b ;> w_i32 location_type ;> w_i32 location_id ;> w_u64 flags) descriptors)
  | Request.MemPoolGetAccess pool location_type location_id =>
      Some ([] ;> w_u8 (Op.as_u8 Op.MemPoolGetAccess) ;> w_u64 pool ;> w_i32 location_type
         ;> w_i32 location_id)
  | Request.MemPoolTrimTo pool min_bytes =>
      Some ([] ;> w_u8 (Op.as_u8 Op.MemPoolTrimTo) ;> w_u64 pool ;> w_u64 min_bytes)
  | Request.MemAllocFromPoolAsync bytes pool stream =>
      Some ([] ;> w_u8 (Op.as_u8 Op.MemAllocFromPoolAsync) ;> w_u64 bytes ;> w_u64 pool
         ;> w_u64 stream)
  | Request.MemAllocAsync bytes stream =>
      Some ([] ;> w_u8 (Op.as_u8 Op.MemAllocAsync) ;> w_u64 bytes ;> w_u64 stream)
  | Request.MemFreeAsync dptr stream =>
      Some ([] ;> w_u8 (Op.as_u8 Op.MemFreeAsync) ;> w_u64 dptr ;> w_u64 stream)
  | Request.DeviceGetDefaultMemPool device =>
      Some ([] ;> w_u8 (Op.as_u8 Op.DeviceGetDefaultMemPool) ;> w_i32 device)
  | Request.DeviceGetMemPool device =>
      Some ([] ;> w_u8 (Op.as_u8 Op.DeviceGetMemPool) ;> w_i32 device)
  | Request.DeviceSetMemPool device pool =>
      Some ([] ;> w_u8 (Op.as_u8 Op.DeviceSetMemPool) ;> w_i32 device ;> w_u64 pool)
  | Request.MemcpyPeerAsync dst dst_device src src_device bytes stream =>
      Some ([] ;> w_u8 (Op.as_u8 Op.MemcpyPeerAsync) ;> w_u64 dst ;> w_i32 dst_device
         ;> w_u64 src ;> w_i32 src_device ;> w_u64 bytes ;> w_u64 stream)
  | Request.IpcGetMemHandle dptr => Some ([] ;> w_u8 (Op.as_u8 Op.IpcGetMemHandle) ;> w_u64 dptr)
  | Request.IpcOpenMemHandle handle flags =>
      Some ([] ;> w_u8 (Op.as_u8 Op.IpcOpenMemHandle) ;> w_bytes handle ;> w_u32 flags)
  | Request.IpcCloseMemHandle dptr =>
      Some ([] ;> w_u8 (Op.as_u8 Op.IpcCloseMemHandle) ;> w_u64 dptr)
  | Request.IpcGetEventHandle event =>
      Some ([] ;> w_u8 (Op.as_u8 Op.IpcGetEventHandle) ;> w_u64 event)
  | Request.IpcOpenEventHandle handle =>
      Some ([] ;> w_u8 (Op.as_u8 Op.IpcOpenEventHandle) ;> w_bytes handle)
  | _ => None
  end.

Definition encode_copy_launch_graph (req : Request.Request) : option bytes :=
  match req with
  | Request.MemcpyHtoD dptr stream data =>
      Some ([] ;> w_u8 (Op.as_u8 Op.MemcpyHtoD) ;> w_u64 dptr ;> w_u64 stream ;> w_bytes data)
  | Request.MemcpyDtoH dptr bytes stream =>
      Some ([] ;> w_u8 (Op.as_u8 Op.MemcpyDtoH) ;> w_u64 dptr ;> w_u64 bytes ;> w_u64 stream)
  | Request.MemcpyDtoD dst src bytes =>
      Some ([] ;> w_u8 (Op.as_u8 Op.MemcpyDtoD) ;> w_u64 dst ;> w_u64 src ;> w_u64 bytes)
  | Request.MemsetD8 dptr value bytes =>
      Some ([] ;> w_u8 (Op.as_u8 Op.MemsetD8) ;> w_u64 dptr ;> w_u8 value ;> w_u64 bytes)
  | Request.MemGetInfo => Some ([] ;> w_u8 (Op.as_u8 Op.MemGetInfo))
  | Request.LaunchKernel function_ grid block shared_bytes stream params =>
      Some ([] ;> w_u8 (Op.as_u8 Op.LaunchKernel) ;> w_u64 function_ ;> w_dims grid
         ;> w_dims block ;> w_u32 shared_bytes ;> w_u64 stream ;> w_u32 (wrap 32 (len params))
         ;> w_for (fun p => w_bytes p) params)
  | Request.LaunchKernelPacked function_ grid block shared_bytes stream args =>
      Some ([] ;> w_u8 (Op.as_u8 Op.LaunchKernelPacked) ;> w_u64 function_ ;> w_dims grid
         ;> w_dims block ;> w_u32 shared_bytes ;> w_u64 stream ;> w_bytes args)
  | Request.HostGetDevicePointer source address =>
      Some ([] ;> w_u8 (Op.as_u8 Op.HostGetDevicePointer) ;> w_u8 source ;> w_u64 address)
  | Request.CtxSynchronize => Some ([] ;> w_u8 (Op.as_u8 Op.CtxSynchronize))
  | Request.StreamBeginCapture stream mode =>
      Some ([] ;> w_u8 (Op.as_u8 Op.StreamBeginCapture) ;> w_u64 stream ;> w_i32 mode)
  | Request.StreamEndCapture stream graph_vh =>
      Some ([] ;> w_u8 (Op.as_u8 Op.StreamEndCapture) ;> w_u64 stream ;> w_u64 graph_vh)
  | Request.GraphInstantiate graph exec_vh =>
      Some ([] ;> w_u8 (Op.as_u8 Op.GraphInstantiate) ;> w_u64 graph ;> w_u64 exec_vh)
  | Request.GraphLaunch graph_exec stream =>
      Some ([] ;> w_u8 (Op.as_u8 Op.GraphLaunch) ;> w_u64 graph_exec ;> w_u64 stream)
  | Request.GraphExecUpdate graph_exec graph =>
      Some ([] ;> w_u8 (Op.as_u8 Op.GraphExecUpdate) ;> w_u64 graph_exec ;> w_u64 graph)
  | Request.AutoGraphSegment ops =>
      Some ([] ;> w_u8 (Op.as_u8 Op.AutoGraphSegment) ;> w_u32 (wrap 32 (len ops))
         ;> w_for (fun op => w_bytes op) ops)
  | Request.GraphExecDestroy graph_exec =>
      Some ([] ;> w_u8 (Op.as_u8 Op.GraphExecDestroy) ;> w_u64 graph_exec)
  | Request.GraphDestroy graph => Some ([] ;> w_u8 (Op.as_u8 Op.GraphDestroy) ;> w_u64 graph)
  | Request.StreamCaptureInfo stream =>
      Some ([] ;> w_u8 (Op.as_u8 Op.StreamCaptureInfo) ;> w_u64 stream)
  | Request.GraphGetNodes graph => Some ([] ;> w_u8 (Op.as_u8 Op.GraphGetNodes) ;> w_u64 graph)
  | Request.ThreadExchangeCaptureMode mode =>
      Some ([] ;> w_u8 (Op.as_u8 Op.ThreadExchangeCaptureMode) ;> w_i32 mode)
  | Request.MemsetD8Async dptr value bytes stream =>
      Some ([] ;> w_u8 (Op.as_u8 Op.MemsetD8Async) ;> w_u64 dptr ;> w_u8 value ;> w_u64 bytes
         ;> w_u64 stream)
  | Request.MemcpyDtoDAsync dst src bytes stream =>
      Some ([] ;> w_u8 (Op.as_u8 Op.MemcpyDtoDAsync) ;> w_u64 dst ;> w_u64 src ;> w_u64 bytes
         ;> w_u64 stream)
  | _ => None
  end.

Definition encode_stream_event_lib (req : Request.Request) : option bytes :=
  match req with
  | Request.StreamCreate flags => Some ([] ;> w_u8 (Op.as_u8 Op.StreamCreate) ;> w_u32 flags)
  | Request.StreamDestroy stream => Some ([] ;> w_u8 (Op.as_u8 Op.StreamDestroy) ;> w_u64 stream)
  | Request.StreamSynchronize stream =>
      Some ([] ;> w_u8 (Op.as_u8 Op.StreamSynchronize) ;> w_u64 stream)
  | Request.StreamQuery stream => Some ([] ;> w_u8 (Op.as_u8 Op.StreamQuery) ;> w_u64 stream)
  | Request.StreamWaitEvent stream event flags =>
      Some ([] ;> w_u8 (Op.as_u8 Op.StreamWaitEvent) ;> w_u64 stream ;> w_u64 event
         ;> w_u32 flags)
  | Request.EventQuery event => Some ([] ;> w_u8 (Op.as_u8 Op.EventQuery) ;> w_u64 event)
  | Request.EventCreate flags => Some ([] ;> w_u8 (Op.as_u8 Op.EventCreate) ;> w_u32 flags)
  | Request.EventCreateBatch flags count =>
      Some ([] ;> w_u8 (Op.as_u8 Op.EventCreateBatch) ;> w_u32 flags ;> w_u32 count)
  | Request.EventDestroy event => Some ([] ;> w_u8 (Op.as_u8 Op.EventDestroy) ;> w_u64 event)
  | Request.EventRecord event stream =>
      Some ([] ;> w_u8 (Op.as_u8 Op.EventRecord) ;> w_u64 event ;> w_u64 stream)
  | Request.EventSynchronize event =>
      Some ([] ;> w_u8 (Op.as_u8 Op.EventSynchronize) ;> w_u64 event)
  | Request.EventElapsedTime start end_ =>
      Some ([] ;> w_u8 (Op.as_u8 Op.EventElapsedTime) ;> w_u64 start ;> w_u64 end_)
  | Request.NvcompDeflateTempSize num_chunks max_uncompressed_chunk_bytes
      max_total_uncompressed_bytes =>
      Some ([] ;> w_u8 (Op.as_u8 Op.NvcompDeflateTempSize) ;> w_u64 num_chunks
         ;> w_u64 max_uncompressed_chunk_bytes ;> w_u64 max_total_uncompressed_bytes)
  | Request.NvcompDeflateDecompress device_compressed_ptrs device_compressed_bytes
      device_uncompressed_bytes device_actual_uncompressed_bytes batch_size device_temp temp_bytes
      device_uncompressed_ptrs device_statuses stream =>
      Some ([] ;> w_u8 (Op.as_u8 Op.NvcompDeflateDecompress) ;> w_u64 device_compressed_ptrs
         ;> w_u64 device_compressed_bytes ;> w_u64 device_uncompressed_bytes
         ;> w_u64 device_actual_uncompressed_bytes ;> w_u64 batch_size ;> w_u64 device_temp
         ;> w_u64 temp_bytes ;> w_u64 device_uncompressed_ptrs ;> w_u64 device_statuses
         ;> w_u64 stream)
  | Request.CublasCreate => Some ([] ;> w_u8 (Op.as_u8 Op.CublasCreate))
  | Request.CublasDestroy handle => Some ([] ;> w_u8 (Op.as_u8 Op.CublasDestroy) ;> w_u64 handle)
  | Request.CublasSetStream handle stream =>
      Some ([] ;> w_u8 (Op.as_u8 Op.CublasSetStream) ;> w_u64 handle ;> w_u64 stream)
  | Request.CublasSgemm handle transa transb m n k alpha_bits a lda bmat ldb beta_bits c ldc =>
      Some ([] ;> w_u8 (Op.as_u8 Op.CublasSgemm) ;> w_u64 handle ;> w_u32 transa ;> w_u32 transb
         ;> w_i32 m ;> w_i32 n ;> w_i32 k ;> w_u32 alpha_bits ;> w_u64 a ;> w_i32 lda
         ;> w_u64 bmat ;> w_i32 ldb ;> w_u32 beta_bits ;> w_u64 c ;> w_i32 ldc)
  | _ => None
  end.

Definition encode_transport_vmm (req : Request.Request) : option bytes :=
  match req with
  | Request.LibCall lib func args =>
      Some ([] ;> w_u8 (Op.as_u8 Op.LibCall) ;> w_u8 lib ;> w_u32 func ;> w_bytes args)
  | Request.MemcpyShmHtoD dptr offset size stream =>
      Some ([] ;> w_u8 (Op.as_u8 Op.MemcpyShmHtoD) ;> w_u64 dptr ;> w_u64 offset ;> w_u64 size
         ;> w_u64 stream)
  | Request.MemcpyShmDtoH offset dptr size stream =>
      Some ([] ;> w_u8 (Op.as_u8 Op.MemcpyShmDtoH) ;> w_u64 offset ;> w_u64 dptr ;> w_u64 size
         ;> w_u64 stream)
  | Request.MemcpyGpaHtoD dptr stream segments =>
      Some ([] ;> w_u8 (Op.as_u8 Op.MemcpyGpaHtoD) ;> w_u64 dptr ;> w_u64 stream
         ;> w_gpa_segments segments)
  | Request.MemcpyGpaDtoH dptr stream segments =>
      Some ([] ;> w_u8 (Op.as_u8 Op.MemcpyGpaDtoH) ;> w_u64 dptr ;> w_u64 stream
         ;> w_gpa_segments segments)
  | Request.RingSetup page_size req_pages resp_pages bounce_pages =>
      Some ([] ;> w_u8 (Op.as_u8 Op.RingSetup) ;> w_u32 page_size
         ;> w_for (fun pages b =>
             b ;> w_u32 (wrap 32 (len pages)) ;> w_for (fun gpa => w_u64 gpa) pages)
             [req_pages; resp_pages; bounce_pages])
  | Request.RingSetupFile page_size req_n resp_n bounce_n fname =>
      Some ([] ;> w_u8 (Op.as_u8 Op.RingSetupFile) ;> w_u32 page_size ;> w_u32 req_n
         ;> w_u32 resp_n ;> w_u32 bounce_n ;> w_bytes fname)
  | Request.MemAddressReserve size align =>
      Some ([] ;> w_u8 (Op.as_u8 Op.MemAddressReserve) ;> w_u64 size ;> w_u64 align)
  | Request.MemCreate size device =>
      Some ([] ;> w_u8 (Op.as_u8 Op.MemCreate) ;> w_u64 size ;> w_i32 device)
  | Request.MemCreateVh size device handle_vh =>
      Some ([] ;> w_u8 (Op.as_u8 Op.MemCreateVh) ;> w_u64 size ;> w_i32 device
         ;> w_u64 handle_vh)
  | Request.SetDeviceBase device => Some ([] ;> w_u8 (Op.as_u8 Op.SetDeviceBase) ;> w_i32 device)
  | Request.MemMap va size offset handle =>
      Some ([] ;> w_u8 (Op.as_u8 Op.MemMap) ;> w_u64 va ;> w_u64 size ;> w_u64 offset
         ;> w_u64 handle)
  | Request.MemSetAccess va size device =>
      Some ([] ;> w_u8 (Op.as_u8 Op.MemSetAccess) ;> w_u64 va ;> w_u64 size ;> w_i32 device)
  | Request.MemUnmap va size => Some ([] ;> w_u8 (Op.as_u8 Op.MemUnmap) ;> w_u64 va ;> w_u64 size)
  | Request.MemRelease handle => Some ([] ;> w_u8 (Op.as_u8 Op.MemRelease) ;> w_u64 handle)
  | Request.MemAddressFree va size =>
      Some ([] ;> w_u8 (Op.as_u8 Op.MemAddressFree) ;> w_u64 va ;> w_u64 size)
  | Request.MemGetAllocationGranularity device flags =>
      Some ([] ;> w_u8 (Op.as_u8 Op.MemGetAllocationGranularity) ;> w_i32 device ;> w_u32 flags)
  | Request.PublishTensorBundle manifest tensors =>
      Some ([] ;> w_u8 (Op.as_u8 Op.PublishTensorBundle) ;> w_bytes manifest
         ;> w_u32 (wrap 32 (len tensors))
         ;> w_for (fun '(dptr, size) b => b ;> w_u64 dptr ;> w_u64 size) tensors)
  | _ => None
  end.

Definition first_some {A} (xs : list (option A)) (d : A) : A :=
  default d (foldr (fun o k => match o with Some x => Some x | None => k end) None xs).

Definition encode_request (req : Request.Request) : bytes :=
  first_some [encode_device_module req; encode_pool_ipc req; encode_copy_launch_graph req;
              encode_stream_event_lib req; encode_transport_vmm req] [].

Definition decode_device_module (op : Op.Op) : option (M Request.Request) :=
  match op with
  | Op.Init =>
      Some (let# proto_hash := unwrap_or Cur.u64 0 in
            let# resume_token := unwrap_or Cur.u64 0 in
            ret (Request.Init proto_hash resume_token))
  | Op.DeviceGetCount => Some (ret Request.DeviceGetCount)
  | Op.DeviceGetName => Some (let# device := Cur.i32 in ret (Request.DeviceGetName device))
  | Op.DeviceTotalMem => Some (let# device := Cur.i32 in ret (Request.DeviceTotalMem device))
  | Op.DriverGetVersion => Some (ret Request.DriverGetVersion)
  | Op.DeviceGetAttribute =>
      Some (let# attrib := Cur.i32 in
            let# device := Cur.i32 in
            ret (Request.DeviceGetAttribute attrib device))
  | Op.DeviceGetUuid => Some (let# device := Cur.i32 in ret (Request.DeviceGetUuid device))
  | Op.DeviceGetPciBusId => Some (let# device := Cur.i32 in ret (Request.DeviceGetPciBusId device))
  | Op.DeviceGetByPciBusId =>
      Some (let# pci_bus_id := Cur.string in ret (Request.DeviceGetByPciBusId pci_bus_id))
  | Op.DeviceCanAccessPeer =>
      Some (let# device := Cur.i32 in
            let# peer := Cur.i32 in
            ret (Request.DeviceCanAccessPeer device peer))
  | Op.DeviceEnablePeerAccess =>
      Some (let# peer := Cur.i32 in
            let# flags := Cur.u32 in
            ret (Request.DeviceEnablePeerAccess peer flags))
  | Op.DeviceDisablePeerAccess =>
      Some (let# peer := Cur.i32 in ret (Request.DeviceDisablePeerAccess peer))
  | Op.CtxCreate => Some (let# device := Cur.i32 in ret (Request.CtxCreate device))
  | Op.CtxDestroy => Some (let# ctx := Cur.u64 in ret (Request.CtxDestroy ctx))
  | Op.PrimaryCtxRetain => Some (let# device := Cur.i32 in ret (Request.PrimaryCtxRetain device))
  | Op.PrimaryCtxRelease => Some (let# device := Cur.i32 in ret (Request.PrimaryCtxRelease device))
  | Op.CtxGetStreamPriorityRange => Some (ret Request.CtxGetStreamPriorityRange)
  | Op.CtxSetCurrent => Some (let# ctx := Cur.u64 in ret (Request.CtxSetCurrent ctx))
  | Op.ModuleLoadData => Some (let# image := Cur.bytes in ret (Request.ModuleLoadData image))
  | Op.ModuleGetFunction =>
      Some (let# module_ := Cur.u64 in
            let# name := Cur.string in
            ret (Request.ModuleGetFunction module_ name))
  | Op.ModuleUnload => Some (let# module_ := Cur.u64 in ret (Request.ModuleUnload module_))
  | Op.ModuleGetGlobal =>
      Some (let# module_ := Cur.u64 in
            let# name := Cur.string in
            ret (Request.ModuleGetGlobal module_ name))
  | Op.FuncGetParamInfo =>
      Some (let# function_ := Cur.u64 in ret (Request.FuncGetParamInfo function_))
  | Op.FuncSetAttribute =>
      Some (let# function_ := Cur.u64 in
            let# attrib := Cur.i32 in
            let# value := Cur.i32 in
            ret (Request.FuncSetAttribute function_ attrib value))
  | Op.FuncGetAttribute =>
      Some (let# function_ := Cur.u64 in
            let# attrib := Cur.i32 in
            ret (Request.FuncGetAttribute function_ attrib))
  | Op.MemAlloc => Some (let# bytes := Cur.u64 in ret (Request.MemAlloc bytes))
  | Op.MemFree => Some (let# dptr := Cur.u64 in ret (Request.MemFree dptr))
  | _ => None
  end.

Definition decode_pool_ipc (op : Op.Op) : option (M Request.Request) :=
  match op with
  | Op.MemPoolCreate =>
      Some (let# alloc_type := Cur.i32 in
            let# handle_types := Cur.u32 in
            let# location_type := Cur.i32 in
            let# location_id := Cur.i32 in
            let# max_size := Cur.u64 in
            let# usage := Cur.u16 in
            ret (Request.MemPoolCreate alloc_type handle_types location_type location_id max_size usage))
  | Op.MemPoolDestroy => Some (let# pool := Cur.u64 in ret (Request.MemPoolDestroy pool))
  | Op.MemPoolSetAttribute =>
      Some (let# pool := Cur.u64 in
            let# attr := Cur.i32 in
            let# value := Cur.u64 in
            ret (Request.MemPoolSetAttribute pool attr value))
  | Op.MemPoolGetAttribute =>
      Some (let# pool := Cur.u64 in
            let# attr := Cur.i32 in
            ret (Request.MemPoolGetAttribute pool attr))
  | Op.MemPoolSetAccess =>
      Some (let# pool := Cur.u64 in
            let# count := Cur.u32 in
            if count >? 1024 then fail bad else
            let# _ := with_capacity 16 count in
            let# descriptors := for_n 16 count count
              (let# location_type := Cur.i32 in
               let# location_id := Cur.i32 in
               let# flags := Cur.u64 in
               ret (location_type, location_id, flags)) in
            ret (Request.MemPoolSetAccess pool descriptors))
  | Op.MemPoolGetAccess =>
      Some (let# pool := Cur.u64 in
            let# location_type := Cur.i32 in
            let# location_id := Cur.i32 in
            ret (Request.MemPoolGetAccess pool location_type location_id))
  | Op.MemPoolTrimTo =>
      Some (let# pool := Cur.u64 in
            let# min_bytes := Cur.u64 in
            ret (Request.MemPoolTrimTo pool min_bytes))
  | Op.MemAllocFromPoolAsync =>
      Some (let# bytes := Cur.u64 in
            let# pool := Cur.u64 in
            let# stream := Cur.u64 in
            ret (Request.MemAllocFromPoolAsync bytes pool stream))
  | Op.MemAllocAsync =>
      Some (let# bytes := Cur.u64 in
            let# stream := Cur.u64 in
            ret (Request.MemAllocAsync bytes stream))
  | Op.MemFreeAsync =>
      Some (let# dptr := Cur.u64 in
            let# stream := Cur.u64 in
            ret (Request.MemFreeAsync dptr stream))
  | Op.DeviceGetDefaultMemPool =>
      Some (let# device := Cur.i32 in ret (Request.DeviceGetDefaultMemPool device))
  | Op.DeviceGetMemPool => Some (let# device := Cur.i32 in ret (Request.DeviceGetMemPool device))
  | Op.DeviceSetMemPool =>
      Some (let# device := Cur.i32 in
            let# pool := Cur.u64 in
            ret (Request.DeviceSetMemPool device pool))
  | Op.MemcpyPeerAsync =>
      Some (let# dst := Cur.u64 in
            let# dst_device := Cur.i32 in
            let# src := Cur.u64 in
            let# src_device := Cur.i32 in
            let# bytes := Cur.u64 in
            let# stream := Cur.u64 in
            ret (Request.MemcpyPeerAsync dst dst_device src src_device bytes stream))
  | Op.IpcGetMemHandle => Some (let# dptr := Cur.u64 in ret (Request.IpcGetMemHandle dptr))
  | Op.IpcOpenMemHandle =>
      Some (let# handle := Cur.bytes in
            let# flags := Cur.u32 in
            ret (Request.IpcOpenMemHandle handle flags))
  | Op.IpcCloseMemHandle => Some (let# dptr := Cur.u64 in ret (Request.IpcCloseMemHandle dptr))
  | Op.IpcGetEventHandle => Some (let# event := Cur.u64 in ret (Request.IpcGetEventHandle event))
  | Op.IpcOpenEventHandle =>
      Some (let# handle := Cur.bytes in ret (Request.IpcOpenEventHandle handle))
  | _ => None
  end.

Definition decode_copy_launch_graph (op : Op.Op) : option (M Request.Request) :=
  match op with
  | Op.MemcpyHtoD =>
      Some (let# dptr := Cur.u64 in
            let# stream := Cur.u64 in
            let# data := Cur.bytes in
            ret (Request.MemcpyHtoD dptr stream data))
  | Op.MemcpyDtoH =>
      Some (let# dptr := Cur.u64 in
            let# bytes := Cur.u64 in
            let# stream := Cur.u64 in
            ret (Request.MemcpyDtoH dptr bytes stream))
  | Op.MemcpyDtoD =>
      Some (let# dst := Cur.u64 in
            let# src := Cur.u64 in
            let# bytes := Cur.u64 in
            ret (Request.MemcpyDtoD dst src bytes))
  | Op.MemsetD8 =>
      Some (let# dptr := Cur.u64 in
            let# value := Cur.u8 in
            let# bytes := Cur.u64 in
            ret (Request.MemsetD8 dptr value bytes))
  | Op.MemGetInfo => Some (ret Request.MemGetInfo)
  | Op.LaunchKernel =>
      Some (let# function_ := Cur.u64 in
            let# grid := r_dims in
            let# block := r_dims in
            let# shared_bytes := Cur.u32 in
            let# stream := Cur.u64 in
            let# n := Cur.u32 in
            let# _ := with_capacity 24 n in
            let# params := for_n 24 n n Cur.bytes in
            ret (Request.LaunchKernel function_ grid block shared_bytes stream params))
  | Op.LaunchKernelPacked =>
      Some (let# function_ := Cur.u64 in
            let# grid := r_dims in
            let# block := r_dims in
            let# shared_bytes := Cur.u32 in
            let# stream := Cur.u64 in
            let# args := Cur.bytes in
            ret (Request.LaunchKernelPacked function_ grid block shared_bytes stream args))
  | Op.HostGetDevicePointer =>
      Some (let# source := Cur.u8 in
            let# address := Cur.u64 in
            ret (Request.HostGetDevicePointer source address))
  | Op.CtxSynchronize => Some (ret Request.CtxSynchronize)
  | Op.StreamBeginCapture =>
      Some (let# stream := Cur.u64 in
            let# mode := Cur.i32 in
            ret (Request.StreamBeginCapture stream mode))
  | Op.StreamEndCapture =>
      Some (let# stream := Cur.u64 in
            let# graph_vh := Cur.u64 in
            ret (Request.StreamEndCapture stream graph_vh))
  | Op.GraphInstantiate =>
      Some (let# graph := Cur.u64 in
            let# exec_vh := Cur.u64 in
            ret (Request.GraphInstantiate graph exec_vh))
  | Op.GraphLaunch =>
      Some (let# graph_exec := Cur.u64 in
            let# stream := Cur.u64 in
            ret (Request.GraphLaunch graph_exec stream))
  | Op.GraphExecUpdate =>
      Some (let# graph_exec := Cur.u64 in
            let# graph := Cur.u64 in
            ret (Request.GraphExecUpdate graph_exec graph))
  | Op.AutoGraphSegment =>
      Some (let# count := Cur.u32 in
            if (count =? 0) || (count >? 512)
            then fail (IoErr InvalidData "invalid auto-graph segment length") else
            let# _ := with_capacity 24 count in
            let# ops := for_n 24 count count Cur.bytes in
            ret (Request.AutoGraphSegment ops))
  | Op.GraphExecDestroy =>
      Some (let# graph_exec := Cur.u64 in ret (Request.GraphExecDestroy graph_exec))
  | Op.GraphDestroy => Some (let# graph := Cur.u64 in ret (Request.GraphDestroy graph))
  | Op.StreamCaptureInfo => Some (let# stream := Cur.u64 in ret (Request.StreamCaptureInfo stream))
  | Op.GraphGetNodes => Some (let# graph := Cur.u64 in ret (Request.GraphGetNodes graph))
  | Op.ThreadExchangeCaptureMode =>
      Some (let# mode := Cur.i32 in ret (Request.ThreadExchangeCaptureMode mode))
  | Op.MemsetD8Async =>
      Some (let# dptr := Cur.u64 in
            let# value := Cur.u8 in
            let# bytes := Cur.u64 in
            let# stream := Cur.u64 in
            ret (Request.MemsetD8Async dptr value bytes stream))
  | Op.MemcpyDtoDAsync =>
      Some (let# dst := Cur.u64 in
            let# src := Cur.u64 in
            let# bytes := Cur.u64 in
            let# stream := Cur.u64 in
            ret (Request.MemcpyDtoDAsync dst src bytes stream))
  | _ => None
  end.

Definition decode_stream_event_lib (op : Op.Op) : option (M Request.Request) :=
  match op with
  | Op.StreamCreate => Some (let# flags := Cur.u32 in ret (Request.StreamCreate flags))
  | Op.StreamDestroy => Some (let# stream := Cur.u64 in ret (Request.StreamDestroy stream))
  | Op.StreamSynchronize => Some (let# stream := Cur.u64 in ret (Request.StreamSynchronize stream))
  | Op.StreamQuery => Some (let# stream := Cur.u64 in ret (Request.StreamQuery stream))
  | Op.StreamWaitEvent =>
      Some (let# stream := Cur.u64 in
            let# event := Cur.u64 in
            let# flags := Cur.u32 in
            ret (Request.StreamWaitEvent stream event flags))
  | Op.EventQuery => Some (let# event := Cur.u64 in ret (Request.EventQuery event))
  | Op.EventCreate => Some (let# flags := Cur.u32 in ret (Request.EventCreate flags))
  | Op.EventCreateBatch =>
      Some (let# flags := Cur.u32 in
            let# count := Cur.u32 in
            ret (Request.EventCreateBatch flags count))
  | Op.EventDestroy => Some (let# event := Cur.u64 in ret (Request.EventDestroy event))
  | Op.EventRecord =>
      Some (let# event := Cur.u64 in
            let# stream := Cur.u64 in
            ret (Request.EventRecord event stream))
  | Op.EventSynchronize => Some (let# event := Cur.u64 in ret (Request.EventSynchronize event))
  | Op.EventElapsedTime =>
      Some (let# start := Cur.u64 in
            let# end_ := Cur.u64 in
            ret (Request.EventElapsedTime start end_))
  | Op.NvcompDeflateTempSize =>
      Some (let# num_chunks := Cur.u64 in
            let# max_uncompressed_chunk_bytes := Cur.u64 in
            let# max_total_uncompressed_bytes := Cur.u64 in
            ret (Request.NvcompDeflateTempSize num_chunks max_uncompressed_chunk_bytes max_total_uncompressed_bytes))
  | Op.NvcompDeflateDecompress =>
      Some (let# device_compressed_ptrs := Cur.u64 in
            let# device_compressed_bytes := Cur.u64 in
            let# device_uncompressed_bytes := Cur.u64 in
            let# device_actual_uncompressed_bytes := Cur.u64 in
            let# batch_size := Cur.u64 in
            let# device_temp := Cur.u64 in
            let# temp_bytes := Cur.u64 in
            let# device_uncompressed_ptrs := Cur.u64 in
            let# device_statuses := Cur.u64 in
            let# stream := Cur.u64 in
            ret (Request.NvcompDeflateDecompress device_compressed_ptrs device_compressed_bytes device_uncompressed_bytes device_actual_uncompressed_bytes batch_size device_temp temp_bytes device_uncompressed_ptrs device_statuses stream))
  | Op.CublasCreate => Some (ret Request.CublasCreate)
  | Op.CublasDestroy => Some (let# handle := Cur.u64 in ret (Request.CublasDestroy handle))
  | Op.CublasSetStream =>
      Some (let# handle := Cur.u64 in
            let# stream := Cur.u64 in
            ret (Request.CublasSetStream handle stream))
  | Op.CublasSgemm =>
      Some (let# handle := Cur.u64 in
            let# transa := Cur.u32 in
            let# transb := Cur.u32 in
            let# m := Cur.i32 in
            let# n := Cur.i32 in
            let# k := Cur.i32 in
            let# alpha_bits := Cur.u32 in
            let# a := Cur.u64 in
            let# lda := Cur.i32 in
            let# bmat := Cur.u64 in
            let# ldb := Cur.i32 in
            let# beta_bits := Cur.u32 in
            let# c := Cur.u64 in
            let# ldc := Cur.i32 in
            ret (Request.CublasSgemm handle transa transb m n k alpha_bits a lda bmat ldb beta_bits c ldc))
  | _ => None
  end.

Definition decode_transport_vmm (op : Op.Op) : option (M Request.Request) :=
  match op with
  | Op.LibCall =>
      Some (let# lib := Cur.u8 in
            let# func := Cur.u32 in let func := wrap 16 func in
            let# args := Cur.bytes in
            ret (Request.LibCall lib func args))
  | Op.MemcpyShmHtoD =>
      Some (let# dptr := Cur.u64 in
            let# offset := Cur.u64 in
            let# size := Cur.u64 in
            let# stream := Cur.u64 in
            ret (Request.MemcpyShmHtoD dptr offset size stream))
  | Op.MemcpyShmDtoH =>
      Some (let# offset := Cur.u64 in
            let# dptr := Cur.u64 in
            let# size := Cur.u64 in
            let# stream := Cur.u64 in
            ret (Request.MemcpyShmDtoH offset dptr size stream))
  | Op.MemcpyGpaHtoD =>
      Some (let# dptr := Cur.u64 in
            let# stream := Cur.u64 in
            let# segments := r_gpa_segments in
            ret (Request.MemcpyGpaHtoD dptr stream segments))
  | Op.MemcpyGpaDtoH =>
      Some (let# dptr := Cur.u64 in
            let# stream := Cur.u64 in
            let# segments := r_gpa_segments in
            ret (Request.MemcpyGpaDtoH dptr stream segments))
  | Op.RingSetup =>
      Some (let# page_size := Cur.u32 in
            let# req_pages := r_pages in
            let# resp_pages := r_pages in
            let# bounce_pages := r_pages in
            ret (Request.RingSetup page_size req_pages resp_pages bounce_pages))
  | Op.RingSetupFile =>
      Some (let# page_size := Cur.u32 in
            let# req_n := Cur.u32 in
            let# resp_n := Cur.u32 in
            let# bounce_n := Cur.u32 in
            let# fname := Cur.bytes in
            ret (Request.RingSetupFile page_size req_n resp_n bounce_n fname))
  | Op.MemAddressReserve =>
      Some (let# size := Cur.u64 in
            let# align := Cur.u64 in
            ret (Request.MemAddressReserve size align))
  | Op.MemCreate =>
      Some (let# size := Cur.u64 in
            let# device := Cur.i32 in
            ret (Request.MemCreate size device))
  | Op.MemCreateVh =>
      Some (let# size := Cur.u64 in
            let# device := Cur.i32 in
            let# handle_vh := Cur.u64 in
            ret (Request.MemCreateVh size device handle_vh))
  | Op.SetDeviceBase => Some (let# device := Cur.i32 in ret (Request.SetDeviceBase device))
  | Op.MemMap =>
      Some (let# va := Cur.u64 in
            let# size := Cur.u64 in
            let# offset := Cur.u64 in
            let# handle := Cur.u64 in
            ret (Request.MemMap va size offset handle))
  | Op.MemSetAccess =>
      Some (let# va := Cur.u64 in
            let# size := Cur.u64 in
            let# device := Cur.i32 in
            ret (Request.MemSetAccess va size device))
  | Op.MemUnmap =>
      Some (let# va := Cur.u64 in
            let# size := Cur.u64 in
            ret (Request.MemUnmap va size))
  | Op.MemRelease => Some (let# handle := Cur.u64 in ret (Request.MemRelease handle))
  | Op.MemAddressFree =>
      Some (let# va := Cur.u64 in
            let# size := Cur.u64 in
            ret (Request.MemAddressFree va size))
  | Op.MemGetAllocationGranularity =>
      Some (let# device := Cur.i32 in
            let# flags := Cur.u32 in
            ret (Request.MemGetAllocationGranularity device flags))
  | Op.PublishTensorBundle =>
      Some (let# manifest := Cur.bytes_bounded (Z.shiftl 1 20) in
            let# count := Cur.u32 in
            if count >? 65536
            then fail (IoErr InvalidData "tensor bundle contains too many ranges") else
            let# _ := with_capacity 16 count in
            let# tensors := for_n 16 count count r_pair in
            ret (Request.PublishTensorBundle manifest tensors))
  | _ => None
  end.

Definition decode_args (op : Op.Op) : M Request.Request :=
  first_some [decode_device_module op; decode_pool_ipc op; decode_copy_launch_graph op;
              decode_stream_event_lib op; decode_transport_vmm op] (fail bad).

Definition decode_body : M Request.Request :=
  let# v := Cur.u8 in
  match Op.from_u8 v with Some op => decode_args op | None => fail bad end.

Definition decode_request (payload : bytes) : result Request.Request IoError :=
  fst (decode_body (Cur.new payload)).

(** The sizes the decoder asks the allocator for, in order. *)
Definition decode_reservations (payload : bytes) : list Z :=
  reserved (snd (decode_body (Cur.new payload))).

(** ** Responses *)

Definition encode_response (status : Z) (resp : Response.Response) : bytes :=
  let b := [] ;> w_i32 status in
  if status =? 0 then
    match resp with
    | Response.Ok => b
    | Response.Count v => b ;> w_i32 v
    | Response.Name s => b ;> w_str s
    | Response.Bytes v | Response.Handle v | Response.Dptr v => b ;> w_u64 v
    | Response.Data d => b ;> w_bytes d
    | Response.Pair a z => b ;> w_u64 a ;> w_u64 z
    | Response.Millis ms => b ;> w_u32 ms
    | Response.LibResult status out => b ;> w_i32 status ;> w_bytes out
    end
  else b.

Definition r_count : M Response.Response := let# v := Cur.i32 in ret (Response.Count v).
Definition r_name : M Response.Response := let# s := Cur.string in ret (Response.Name s).
Definition r_bytes : M Response.Response := let# v := Cur.u64 in ret (Response.Bytes v).
Definition r_handle : M Response.Response := let# v := Cur.u64 in ret (Response.Handle v).
Definition r_dptr : M Response.Response := let# v := Cur.u64 in ret (Response.Dptr v).
Definition r_data : M Response.Response := let# d := Cur.bytes in ret (Response.Data d).
Definition r_two : M Response.Response :=
  let# a := Cur.u64 in let# z := Cur.u64 in ret (Response.Pair a z).
Definition r_millis : M Response.Response := let# ms := Cur.u32 in ret (Response.Millis ms).
Definition r_lib : M Response.Response :=
  let# status := Cur.i32 in let# out := Cur.bytes in ret (Response.LibResult status out).

(** The body of a successful response, by the opcode it answers. *)
Definition response_body (op : Op.Op) : M Response.Response :=
  match op with
  | Op.DeviceGetCount | Op.DeviceGetByPciBusId | Op.DriverGetVersion
  | Op.DeviceGetAttribute | Op.DeviceCanAccessPeer | Op.ThreadExchangeCaptureMode
  | Op.StreamQuery | Op.EventQuery | Op.FuncGetAttribute => r_count
  | Op.DeviceGetName | Op.DeviceGetPciBusId => r_name
  | Op.DeviceTotalMem => r_bytes
  | Op.Init => r_handle
  | Op.CtxCreate | Op.PrimaryCtxRetain | Op.MemPoolCreate | Op.DeviceGetDefaultMemPool
  | Op.DeviceGetMemPool | Op.HostGetDevicePointer => r_handle
  | Op.ModuleLoadData | Op.ModuleGetFunction => r_handle
  | Op.StreamCreate | Op.EventCreate | Op.IpcOpenEventHandle => r_handle
  | Op.EventCreateBatch => r_data
  | Op.StreamEndCapture => r_two
  | Op.CtxGetStreamPriorityRange => r_two
  | Op.GraphInstantiate => r_handle
  | Op.GraphGetNodes => r_bytes
  | Op.StreamCaptureInfo => r_two
  | Op.MemAlloc | Op.MemAllocFromPoolAsync | Op.MemAllocAsync | Op.IpcOpenMemHandle => r_dptr
  | Op.MemPoolGetAttribute | Op.MemPoolGetAccess => r_bytes
  | Op.MemcpyDtoH | Op.DeviceGetUuid | Op.FuncGetParamInfo | Op.ModuleGetGlobal
  | Op.IpcGetMemHandle | Op.IpcGetEventHandle | Op.PublishTensorBundle => r_data
  | Op.MemGetInfo => r_two
  | Op.NvcompDeflateTempSize => r_two
  | Op.NvcompDeflateDecompress | Op.GraphExecUpdate => r_count
  | Op.CublasCreate => r_handle
  | Op.LibCall => r_lib
  | Op.EventElapsedTime => r_millis
  | Op.StreamBeginCapture | Op.GraphLaunch | Op.AutoGraphSegment | Op.GraphExecDestroy
  | Op.GraphDestroy | Op.MemsetD8Async | Op.MemcpyDtoDAsync | Op.CtxDestroy
  | Op.CtxSetCurrent | Op.PrimaryCtxRelease | Op.DeviceEnablePeerAccess
  | Op.DeviceDisablePeerAccess | Op.ModuleUnload | Op.FuncSetAttribute | Op.MemFree
  | Op.MemPoolDestroy | Op.MemPoolSetAttribute | Op.MemPoolSetAccess | Op.MemPoolTrimTo
  | Op.MemFreeAsync | Op.DeviceSetMemPool | Op.MemcpyHtoD | Op.MemcpyDtoD
  | Op.MemcpyPeerAsync | Op.IpcCloseMemHandle | Op.MemsetD8 | Op.LaunchKernel
  | Op.LaunchKernelPacked | Op.CtxSynchronize | Op.StreamDestroy | Op.StreamSynchronize
  | Op.StreamWaitEvent | Op.EventDestroy | Op.EventRecord | Op.EventSynchronize
  | Op.CublasDestroy | Op.CublasSetStream | Op.CublasSgemm | Op.MemcpyShmHtoD
  | Op.MemcpyShmDtoH | Op.MemcpyGpaHtoD | Op.MemcpyGpaDtoH | Op.RingSetup
  | Op.RingSetupFile | Op.MemMap | Op.MemSetAccess | Op.MemUnmap | Op.MemRelease
  | Op.MemAddressFree | Op.MemCreateVh | Op.SetDeviceBase => ret Response.Ok
  | Op.MemAddressReserve => r_dptr
  | Op.MemCreate => r_handle
  | Op.MemGetAllocationGranularity => r_bytes
  end.

Definition decode_response (op : Op.Op) (payload : bytes) :
    result (Z * Response.Response) IoError :=
  fst ((let# status := Cur.i32 in
        if negb (status =? 0) then ret (status, Response.Ok) else
        let# body := response_body op in
        ret (status, body)) (Cur.new payload)).

(** ** The module and upload cache's hash *)

Definition fnv64 (data : bytes) : Z :=
  Z.max (fold_left (fun h b => wrap 64 (Z.lxor h b * 0x00000100000001b3)) data
           0xcbf29ce484222325) 1.

(** ** Frames *)

(** The source's [Write] bound: [write_all] and [flush] on a sink. *)
Class Write (W : Type) := {
  write_all : bytes -> W -> result unit IoError * W;
  flush : W -> result unit IoError * W;
}.

(** A sink that keeps its writes apart, the last one last. *)
#[global] Instance write_log : Write (list bytes) := {|
  write_all bs w := (Ok tt, w ++ [bs]);
  flush w := (Ok tt, w);
|}.

Definition then_ {W A} (r : result unit IoError * W) (k : W -> result A IoError * W) :
    result A IoError * W :=
  match r with (Ok _, w) => k w | (Err e, w) => (Err e, w) end.

Definition COALESCE_MAX : Z := 64 * 1024.

Definition write_msg `{Write W} (payload : bytes) (w : W) : result unit IoError * W :=
  if len payload >? MAX_MSG then (Err (IoErr InvalidInput "message too large"), w) else
  let n := to_le 4 (wrap 32 (len payload)) in
  if len payload <=? COALESCE_MAX then
    then_ (write_all (n ++ payload) w) flush
  else
    then_ (write_all n w) (fun w => then_ (write_all payload w) flush).

(** A [Read] end: the bytes it will deliver, then end of file or an error. *)
Record Source := MkSource { src_data : bytes; src_fault : option IoError }.

Definition read_exact (n : Z) (r : Source) : result bytes IoError * Source :=
  if n <=? len (src_data r)
  then (Ok (slice (src_data r) 0 n), MkSource (slice (src_data r) n (len (src_data r))) (src_fault r))
  else (Err (default (IoErr UnexpectedEof "failed to fill whole buffer") (src_fault r)),
        MkSource [] (src_fault r)).

Definition read_msg (r : Source) : result (option bytes) IoError * Source :=
  match read_exact 4 r with
  | (Err (IoErr UnexpectedEof _), r) => (Ok None, r)
  | (Err e, r) => (Err e, r)
  | (Ok l, r) =>
      let n := from_le l in
      if n >? MAX_MSG then (Err (IoErr InvalidData "message too large"), r) else
      match read_exact n r with
      | (Err e, r) => (Err e, r)
      | (Ok buf, r) => (Ok (Some buf), r)
      end
  end.

End Proto.
