(* ===== verification/CudaProtoFacts.v ===== *)
(** * Laws of the CUDA wire protocol

    Two judgements on the decoder's actions, each with one rule per action:
    [parses m v bs] (the action reads exactly [bs] and returns [v], and rejects
    every strict prefix of [bs]) and [triple B m P] (the action keeps the
    message, returns only values in [P], fails only as malformed, and reserves
    at most [B] bytes at a time). The properties of [CudaProtoProps] are these
    rules applied along the source's [match]. *)

From S2P Require Import Prelude RustStr CudaProto.

Module ProtoFacts.
Import Str Proto.

(** ** The Rust types of the fields *)

Definition is_i32 (v : Z) : Prop := - 2 ^ 31 <= v < 2 ^ 31.
Definition is_vec (v : bytes) : Prop := is_bytes v /\ is_uint 64 (len v).
Definition is_str (v : bytes) : Prop := is_vec v /\ utf8_valid v = true.
Definition is_dims (d : Z * Z * Z) : Prop :=
  is_uint 32 d.1.1 /\ is_uint 32 d.1.2 /\ is_uint 32 d.2.
Definition is_pair (x : Z * Z) : Prop := is_uint 64 x.1 /\ is_uint 64 x.2.
Definition is_access (x : Z * Z * Z) : Prop := is_i32 x.1.1 /\ is_i32 x.1.2 /\ is_uint 64 x.2.
(** A [Vec] whose length travels as a [u32]. *)
Definition is_list {A} (w : Z) (P : A -> Prop) (l : list A) : Prop :=
  is_uint w (len l) /\ Forall P l.

(** The requests the wire can carry: every field in the range of its Rust
    type, and the counts the decoder bounds within their bounds. *)
Definition request_ok (r : Request.Request) : Prop :=
  match r with
  | Request.Init proto_hash resume_token => is_uint 64 proto_hash /\ is_uint 64 resume_token
  | Request.DeviceGetCount => True
  | Request.DeviceGetName device => is_i32 device
  | Request.DeviceTotalMem device => is_i32 device
  | Request.DriverGetVersion => True
  | Request.DeviceGetAttribute attrib device => is_i32 attrib /\ is_i32 device
  | Request.DeviceGetUuid device => is_i32 device
  | Request.DeviceGetPciBusId device => is_i32 device
  | Request.DeviceGetByPciBusId pci_bus_id => is_str pci_bus_id
  | Request.DeviceCanAccessPeer device peer => is_i32 device /\ is_i32 peer
  | Request.DeviceEnablePeerAccess peer flags => is_i32 peer /\ is_uint 32 flags
  | Request.DeviceDisablePeerAccess peer => is_i32 peer
  | Request.CtxCreate device => is_i32 device
  | Request.CtxDestroy ctx => is_uint 64 ctx
  | Request.PrimaryCtxRetain device => is_i32 device
  | Request.PrimaryCtxRelease device => is_i32 device
  | Request.CtxGetStreamPriorityRange => True
  | Request.CtxSetCurrent ctx => is_uint 64 ctx
  | Request.ModuleLoadData image => is_vec image
  | Request.ModuleGetFunction module_ name => is_uint 64 module_ /\ is_str name
  | Request.ModuleUnload module_ => is_uint 64 module_
  | Request.ModuleGetGlobal module_ name => is_uint 64 module_ /\ is_str name
  | Request.FuncGetParamInfo function_ => is_uint 64 function_
  | Request.FuncSetAttribute function_ attrib value =>
      is_uint 64 function_ /\ is_i32 attrib /\ is_i32 value
  | Request.FuncGetAttribute function_ attrib => is_uint 64 function_ /\ is_i32 attrib
  | Request.MemAlloc bytes => is_uint 64 bytes
  | Request.MemFree dptr => is_uint 64 dptr
  | Request.MemcpyHtoD dptr stream data => is_uint 64 dptr /\ is_uint 64 stream /\ is_vec data
  | Request.MemcpyDtoH dptr bytes stream =>
      is_uint 64 dptr /\ is_uint 64 bytes /\ is_uint 64 stream
  | Request.MemcpyDtoD dst src bytes => is_uint 64 dst /\ is_uint 64 src /\ is_uint 64 bytes
  | Request.MemsetD8 dptr value bytes => is_uint 64 dptr /\ is_uint 8 value /\ is_uint 64 bytes
  | Request.MemGetInfo => True
  | Request.MemPoolCreate alloc_type handle_types location_type location_id max_size usage =>
      is_i32 alloc_type /\ is_uint 32 handle_types /\ is_i32 location_type /\
      is_i32 location_id /\ is_uint 64 max_size /\ is_uint 16 usage
  | Request.MemPoolDestroy pool => is_uint 64 pool
  | Request.MemPoolSetAttribute pool attr value =>
      is_uint 64 pool /\ is_i32 attr /\ is_uint 64 value
  | Request.MemPoolGetAttribute pool attr => is_uint 64 pool /\ is_i32 attr
  | Request.MemPoolSetAccess pool descriptors =>
      is_uint 64 pool /\ is_list 32 is_access descriptors /\ len descriptors <= 1024
  | Request.MemPoolGetAccess pool location_type location_id =>
      is_uint 64 pool /\ is_i32 location_type /\ is_i32 location_id
  | Request.MemPoolTrimTo pool min_bytes => is_uint 64 pool /\ is_uint 64 min_bytes
  | Request.MemAllocFromPoolAsync bytes pool stream =>
      is_uint 64 bytes /\ is_uint 64 pool /\ is_uint 64 stream
  | Request.MemAllocAsync bytes stream => is_uint 64 bytes /\ is_uint 64 stream
  | Request.MemFreeAsync dptr stream => is_uint 64 dptr /\ is_uint 64 stream
  | Request.DeviceGetDefaultMemPool device => is_i32 device
  | Request.DeviceGetMemPool device => is_i32 device
  | Request.DeviceSetMemPool device pool => is_i32 device /\ is_uint 64 pool
  | Request.MemcpyPeerAsync dst dst_device src src_device bytes stream =>
      is_uint 64 dst /\ is_i32 dst_device /\ is_uint 64 src /\ is_i32 src_device /\
      is_uint 64 bytes /\ is_uint 64 stream
  | Request.IpcGetMemHandle dptr => is_uint 64 dptr
  | Request.IpcOpenMemHandle handle flags => is_vec handle /\ is_uint 32 flags
  | Request.IpcCloseMemHandle dptr => is_uint 64 dptr
  | Request.IpcGetEventHandle event => is_uint 64 event
  | Request.IpcOpenEventHandle handle => is_vec handle
  | Request.LaunchKernel function_ grid block shared_bytes stream params =>
      is_uint 64 function_ /\ is_dims grid /\ is_dims block /\ is_uint 32 shared_bytes /\
      is_uint 64 stream /\ is_list 32 is_vec params
  | Request.LaunchKernelPacked function_ grid block shared_bytes stream args =>
      is_uint 64 function_ /\ is_dims grid /\ is_dims block /\ is_uint 32 shared_bytes /\
      is_uint 64 stream /\ is_vec args
  | Request.HostGetDevicePointer source address => is_uint 8 source /\ is_uint 64 address
  | Request.CtxSynchronize => True
  | Request.StreamBeginCapture stream mode => is_uint 64 stream /\ is_i32 mode
  | Request.StreamEndCapture stream graph_vh => is_uint 64 stream /\ is_uint 64 graph_vh
  | Request.GraphInstantiate graph exec_vh => is_uint 64 graph /\ is_uint 64 exec_vh
  | Request.GraphLaunch graph_exec stream => is_uint 64 graph_exec /\ is_uint 64 stream
  | Request.GraphExecUpdate graph_exec graph => is_uint 64 graph_exec /\ is_uint 64 graph
  | Request.AutoGraphSegment ops => is_list 32 is_vec ops /\ 1 <= len ops <= 512
  | Request.GraphExecDestroy graph_exec => is_uint 64 graph_exec
  | Request.GraphDestroy graph => is_uint 64 graph
  | Request.StreamCaptureInfo stream => is_uint 64 stream
  | Request.GraphGetNodes graph => is_uint 64 graph
  | Request.ThreadExchangeCaptureMode mode => is_i32 mode
  | Request.MemsetD8Async dptr value bytes stream =>
      is_uint 64 dptr /\ is_uint 8 value /\ is_uint 64 bytes /\ is_uint 64 stream
  | Request.MemcpyDtoDAsync dst src bytes stream =>
      is_uint 64 dst /\ is_uint 64 src /\ is_uint 64 bytes /\ is_uint 64 stream
  | Request.StreamCreate flags => is_uint 32 flags
  | Request.StreamDestroy stream => is_uint 64 stream
  | Request.StreamSynchronize stream => is_uint 64 stream
  | Request.StreamQuery stream => is_uint 64 stream
  | Request.StreamWaitEvent stream event flags =>
      is_uint 64 stream /\ is_uint 64 event /\ is_uint 32 flags
  | Request.EventQuery event => is_uint 64 event
  | Request.EventCreate flags => is_uint 32 flags
  | Request.EventCreateBatch flags count => is_uint 32 flags /\ is_uint 32 count
  | Request.EventDestroy event => is_uint 64 event
  | Request.EventRecord event stream => is_uint 64 event /\ is_uint 64 stream
  | Request.EventSynchronize event => is_uint 64 event
  | Request.EventElapsedTime start end_ => is_uint 64 start /\ is_uint 64 end_
  | Request.NvcompDeflateTempSize num_chunks max_uncompressed_chunk_bytes
      max_total_uncompressed_bytes =>
      is_uint 64 num_chunks /\ is_uint 64 max_uncompressed_chunk_bytes /\
      is_uint 64 max_total_uncompressed_bytes
  | Request.NvcompDeflateDecompress device_compressed_ptrs device_compressed_bytes
      device_uncompressed_bytes device_actual_uncompressed_bytes batch_size device_temp temp_bytes
      device_uncompressed_ptrs device_statuses stream =>
      is_uint 64 device_compressed_ptrs /\ is_uint 64 device_compressed_bytes /\
      is_uint 64 device_uncompressed_bytes /\ is_uint 64 device_actual_uncompressed_bytes /\
      is_uint 64 batch_size /\ is_uint 64 device_temp /\ is_uint 64 temp_bytes /\
      is_uint 64 device_uncompressed_ptrs /\ is_uint 64 device_statuses /\ is_uint 64 stream
  | Request.CublasCreate => True
  | Request.CublasDestroy handle => is_uint 64 handle
  | Request.CublasSetStream handle stream => is_uint 64 handle /\ is_uint 64 stream
  | Request.CublasSgemm handle transa transb m n k alpha_bits a lda bmat ldb beta_bits c ldc =>
      is_uint 64 handle /\ is_uint 32 transa /\ is_uint 32 transb /\ is_i32 m /\ is_i32 n /\
      is_i32 k /\ is_uint 32 alpha_bits /\ is_uint 64 a /\ is_i32 lda /\ is_uint 64 bmat /\
      is_i32 ldb /\ is_uint 32 beta_bits /\ is_uint 64 c /\ is_i32 ldc
  | Request.LibCall lib func args => is_uint 8 lib /\ is_uint 16 func /\ is_vec args
  | Request.MemcpyShmHtoD dptr offset size stream =>
      is_uint 64 dptr /\ is_uint 64 offset /\ is_uint 64 size /\ is_uint 64 stream
  | Request.MemcpyShmDtoH offset dptr size stream =>
      is_uint 64 offset /\ is_uint 64 dptr /\ is_uint 64 size /\ is_uint 64 stream
  | Request.MemcpyGpaHtoD dptr stream segments =>
      is_uint 64 dptr /\ is_uint 64 stream /\ is_list 32 is_pair segments
  | Request.MemcpyGpaDtoH dptr stream segments =>
      is_uint 64 dptr /\ is_uint 64 stream /\ is_list 32 is_pair segments
  | Request.RingSetup page_size req_pages resp_pages bounce_pages =>
      is_uint 32 page_size /\ is_list 32 (is_uint 64) req_pages /\
      is_list 32 (is_uint 64) resp_pages /\ is_list 32 (is_uint 64) bounce_pages
  | Request.RingSetupFile page_size req_n resp_n bounce_n fname =>
      is_uint 32 page_size /\ is_uint 32 req_n /\ is_uint 32 resp_n /\ is_uint 32 bounce_n /\
      is_vec fname
  | Request.MemAddressReserve size align => is_uint 64 size /\ is_uint 64 align
  | Request.MemCreate size device => is_uint 64 size /\ is_i32 device
  | Request.MemCreateVh size device handle_vh =>
      is_uint 64 size /\ is_i32 device /\ is_uint 64 handle_vh
  | Request.SetDeviceBase device => is_i32 device
  | Request.MemMap va size offset handle =>
      is_uint 64 va /\ is_uint 64 size /\ is_uint 64 offset /\ is_uint 64 handle
  | Request.MemSetAccess va size device => is_uint 64 va /\ is_uint 64 size /\ is_i32 device
  | Request.MemUnmap va size => is_uint 64 va /\ is_uint 64 size
  | Request.MemRelease handle => is_uint 64 handle
  | Request.MemAddressFree va size => is_uint 64 va /\ is_uint 64 size
  | Request.MemGetAllocationGranularity device flags => is_i32 device /\ is_uint 32 flags
  | Request.PublishTensorBundle manifest tensors =>
      is_vec manifest /\ is_list 32 is_pair tensors /\ len manifest <= 2 ^ 20 /\
      len tensors <= 65536
  end.

(** ** Reading back what was written *)

Definition reads {A} (m : M A) (v : A) (bs : bytes) : Prop :=
  forall pre rest rsv, len (pre ++ bs ++ rest) <= u_max 64 ->
  exists rsv', m (MkDec (pre ++ bs ++ rest) (len pre) rsv) =
    (Ok v, MkDec (pre ++ bs ++ rest) (len pre + len bs) rsv').

Definition truncated {A} (m : M A) (bs : bytes) : Prop :=
  forall pre bs1 bs2 rsv, bs = bs1 ++ bs2 -> bs2 <> [] -> len (pre ++ bs1) <= u_max 64 ->
  exists c, m (MkDec (pre ++ bs1) (len pre) rsv) = (Err bad, c).

Record parses {A} (m : M A) (v : A) (bs : bytes) : Prop := {
  parses_reads : reads m v bs;
  parses_truncated : truncated m bs;
}.

Lemma reads_bind {A B} (m : M A) (k : A -> M B) x v bs1 bs2 :
  reads m x bs1 -> reads (k x) v bs2 -> reads (mbind_dec m k) v (bs1 ++ bs2).
Proof.
  intros Hm Hk pre rest rsv Hlen. unfold mbind_dec. rewrite <- app_assoc in *.
  destruct (Hm pre (bs2 ++ rest) rsv Hlen) as [rsv1 ->].
  rewrite (app_assoc pre bs1) in *.
  destruct (Hk (pre ++ bs1) rest rsv1 Hlen) as [rsv2 Hk2].
  rewrite len_app in Hk2. rewrite Hk2. exists rsv2. by rewrite len_app, Z.add_assoc.
Qed.

Lemma reads_ret {A} (v : A) : reads (ret v) v [].
Proof. intros pre rest rsv _. exists rsv. cbn. by rewrite Z.add_0_r. Qed.

Lemma parses_ret {A} (v : A) : parses (ret v) v [].
Proof.
  split; [apply reads_ret|]. intros pre bs1 bs2 rsv E Hne. by destruct bs1, bs2.
Qed.

Lemma parses_bind {A B} (m : M A) (k : A -> M B) x v bs1 bs2 :
  parses m x bs1 -> parses (k x) v bs2 -> parses (mbind_dec m k) v (bs1 ++ bs2).
Proof.
  intros [Hm Tm] [Hk Tk]. split; [by eapply reads_bind|].
  intros pre q1 q2 rsv E Hne Hlen. unfold mbind_dec.
  apply app_eq_inv in E as [(k1 & -> & ->)|(k1 & -> & ->)].
  - destruct (decide (k1 = [])) as [->|Hk1].
    + rewrite app_nil_r in *.
      destruct (Hm pre [] rsv) as [rsv1 E1]; [by rewrite app_nil_r|].
      rewrite app_nil_r in E1. rewrite E1.
      destruct (Tk (pre ++ q1) [] bs2 rsv1) as [c Hc]; [done|done|by rewrite app_nil_r|].
      rewrite app_nil_r, len_app in Hc. eauto.
    + destruct (Tm pre q1 k1 rsv) as [c ->]; eauto.
  - destruct (Hm pre k1 rsv Hlen) as [rsv1 ->]. rewrite app_assoc in *.
    destruct (Tk (pre ++ bs1) k1 q2 rsv1) as [c Hc]; [done..|].
    rewrite len_app in Hc. eauto.
Qed.

Lemma parses_take n s : len s = n -> parses (Cur.take n) s s.
Proof.
  intros <-. unfold Cur.take, checked_add. split.
  - intros pre rest rsv Hlen. exists rsv. cbn [cur_b cur_p reserved].
    rewrite !len_app in *. pose proof (len_nonneg rest).
    rewrite (proj2 (Z.leb_le _ _)) by lia.
    destruct (_ >? _) eqn:E; [bool_simpl; lia|].
    by rewrite slice_app by lia.
  - intros pre s1 s2 rsv -> Hne Hlen. cbn [cur_b cur_p reserved].
    destruct (_ <=? _); [|eauto]. destruct (_ >? _) eqn:E; [eauto|]. exfalso.
    rewrite !len_app in E. bool_simpl. destruct s2; [done|]. rewrite len_cons in E.
    pose proof (len_nonneg s2). lia.
Qed.

Lemma parses_map {A B} (m : M A) (f : A -> B) x bs :
  parses m x bs -> parses (let# y := m in ret (f y)) (f x) bs.
Proof. intros H. rewrite <- (app_nil_r bs). eapply parses_bind; [done|]. apply parses_ret. Qed.

Lemma parses_map_eq {A B} (m : M A) (f : A -> B) x v bs :
  parses m x bs -> f x = v -> parses (let# y := m in ret (f y)) v bs.
Proof. intros H <-. by apply parses_map. Qed.

Lemma as_i32_le v : is_i32 v -> as_i32 (from_le (to_le 4 v)) = v.
Proof.
  unfold is_i32, as_i32. intros H. rewrite from_to_le.
  change (256 ^ Z.of_nat 4) with (2 ^ 32).
  destruct (Z_lt_le_dec v 0).
  - rewrite <- (Z_mod_plus_full v 1 (2 ^ 32)), Z.mod_small by lia.
    destruct (_ <? _) eqn:E; bool_simpl; lia.
  - rewrite Z.mod_small by lia. destruct (_ <? _) eqn:E; bool_simpl; lia.
Qed.

Lemma as_i32_range v : is_uint 32 v -> is_i32 (as_i32 v).
Proof. unfold is_uint, is_i32, as_i32. case_bool_guard; bool_simpl; lia. Qed.

Lemma parses_u8 v : is_uint 8 v -> parses Cur.u8 v [v].
Proof. intros _. by eapply parses_map_eq; [apply parses_take|]. Qed.
Lemma parses_i32 v : is_i32 v -> parses Cur.i32 v (to_le 4 v).
Proof.
  intros H. eapply parses_map_eq; [apply parses_take, len_to_le|]. by apply as_i32_le.
Qed.
Lemma parses_u16 v : is_uint 16 v -> parses Cur.u16 v (to_le 2 v).
Proof. intros H. eapply parses_map_eq; [apply parses_take, len_to_le|]. by apply from_to_le_small. Qed.
Lemma parses_u32 v : is_uint 32 v -> parses Cur.u32 v (to_le 4 v).
Proof. intros H. eapply parses_map_eq; [apply parses_take, len_to_le|]. by apply from_to_le_small. Qed.
Lemma parses_u64 v : is_uint 64 v -> parses Cur.u64 v (to_le 8 v).
Proof. intros H. eapply parses_map_eq; [apply parses_take, len_to_le|]. by apply from_to_le_small. Qed.

(** A length-prefixed byte string. *)
Definition le_bytes (v : bytes) : bytes := to_le 8 (len v) ++ v.

(** A reservation reads nothing. *)
Lemma parses_allocates {A} n (k : M A) v bs :
  parses k v bs -> parses (let# _ := allocates n in k) v bs.
Proof.
  intros [H T]. split.
  - intros pre rest rsv Hlen. apply H, Hlen.
  - intros pre s1 s2 rsv E Hne Hlen. eapply T; eauto.
Qed.
Lemma parses_capacity {A} size n (k : M A) v bs :
  parses k v bs -> parses (let# _ := with_capacity size n in k) v bs.
Proof. apply parses_allocates. Qed.
Lemma parses_copy n s : len s = n -> parses (let# s := Cur.take n in Cur.to_vec s) s s.
Proof.
  intros Hs. rewrite <- (app_nil_r s) at 2. eapply parses_bind; [by apply parses_take|].
  apply parses_allocates, parses_ret.
Qed.

Lemma parses_bytes v : is_vec v -> parses Cur.bytes v (le_bytes v).
Proof. intros [_ H]. eapply parses_bind; [by apply parses_u64|]. by apply parses_copy. Qed.

Lemma parses_bytes_bounded k v :
  is_vec v -> len v <= k -> parses (Cur.bytes_bounded k) v (le_bytes v).
Proof.
  intros [_ H] Hk. eapply parses_bind; [by apply parses_u64|].
  destruct (_ >? _) eqn:E; [bool_simpl; lia|]. by apply parses_copy.
Qed.

Lemma parses_string v : is_str v -> parses Cur.string v (le_bytes v).
Proof.
  intros [H Hu]. rewrite <- (app_nil_r (le_bytes v)). eapply parses_bind; [by apply parses_bytes|].
  unfold from_utf8. rewrite Hu. apply parses_ret.
Qed.

Definition le_dims (d : Z * Z * Z) : bytes := to_le 4 d.1.1 ++ to_le 4 d.1.2 ++ to_le 4 d.2.

Lemma parses_dims d : is_dims d ->
  parses r_dims d (le_dims d).
Proof.
  destruct d as [[x y] z]. intros (Hx & Hy & Hz).
  repeat (eapply parses_bind; [by apply parses_u32|]). by apply parses_map_eq with z; [apply parses_u32|].
Qed.

Definition le_pair (x : Z * Z) : bytes := to_le 8 x.1 ++ to_le 8 x.2.
Definition le_access (x : Z * Z * Z) : bytes := to_le 4 x.1.1 ++ to_le 4 x.1.2 ++ to_le 8 x.2.

Lemma parses_pair x : is_pair x -> parses r_pair x (le_pair x).
Proof.
  destruct x as [x y]. intros [Hx Hy]. eapply parses_bind; [by apply parses_u64|].
  by apply parses_map_eq with y; [apply parses_u64|].
Qed.

(** ** Counted loops *)

Lemma split_at {A} n (l : list A) : (n <= length l)%nat -> exists a b, l = a ++ b /\ length a = n.
Proof. exists (take n l), (drop n l). by rewrite take_drop, length_take_le. Qed.

Lemma parses_push {A} size cap (v : list A) x : parses (push size cap v x) (v ++ [x]) [].
Proof.
  unfold push. destruct (_ <? _); [apply parses_ret|]. apply parses_allocates, parses_ret.
Qed.

Lemma parses_for_pos {A} (P : A -> Prop) size cap (m : M A) (enc : A -> bytes) n :
  (forall x, P x -> parses m x (enc x)) ->
  forall xs v, length xs = Pos.to_nat n -> Forall P xs ->
  parses (for_pos size cap m n v) (v ++ xs) (mjoin (enc <$> xs)).
Proof.
  intros Hm. induction n as [n IH|n IH|]; intros xs v Hlen HP; cbn [for_pos].
  - destruct (split_at (Pos.to_nat n) xs) as (a & xs' & -> & Ha); [lia|].
    rewrite length_app in Hlen.
    destruct (split_at (Pos.to_nat n) xs') as (b & c & -> & Hb); [lia|].
    rewrite length_app in Hlen. destruct c as [|x [|]]; cbn [length] in Hlen; [lia| |lia].
    rewrite !Forall_app in HP. destruct HP as (HPa & HPb & HPx).
    rewrite !fmap_app, !join_app. eapply parses_bind; [by apply IH|].
    eapply parses_bind; [by apply IH|]. cbn [fmap list_fmap mjoin list_join].
    rewrite !app_assoc. eapply parses_bind; [apply Hm; by inv HPx|]. apply parses_push.
  - destruct (split_at (Pos.to_nat n) xs) as (a & b & -> & Ha); [lia|].
    rewrite length_app in Hlen. apply Forall_app in HP as [HPa HPb].
    rewrite fmap_app, join_app, app_assoc.
    eapply parses_bind; [by apply IH|]. apply IH; [lia|done].
  - destruct xs as [|x [|]]; [done| |done]. cbn [fmap list_fmap mjoin list_join].
    eapply parses_bind; [apply Hm; by inv HP|]. apply parses_push.
Qed.

Lemma parses_for_n {A} (P : A -> Prop) size cap (m : M A) (enc : A -> bytes) xs :
  (forall x, P x -> parses m x (enc x)) -> Forall P xs ->
  parses (for_n size cap (len xs) m) xs (mjoin (enc <$> xs)).
Proof.
  intros Hm HP. unfold for_n, len. destruct (length xs) as [|n] eqn:E.
  - destruct xs; [|done]. apply parses_ret.
  - cbn. rewrite <- (app_nil_l xs) at 1.
    eapply parses_for_pos; [done| |done]. rewrite E. lia.
Qed.

(** The loops of the writers append the elements' bytes. *)
Lemma w_for_app {A} (w : A -> bytes -> bytes) (enc : A -> bytes) xs b :
  (forall x b, w x b = b ++ enc x) -> w_for w xs b = b ++ mjoin (enc <$> xs).
Proof.
  intros Hw. unfold w_for. revert b. induction xs as [|x xs IH]; intros b; cbn.
  - by rewrite app_nil_r.
  - rewrite IH, Hw. by rewrite <- app_assoc.
Qed.

#[export] Hint Resolve parses_u8 parses_i32 parses_u16 parses_u32 parses_u64 parses_bytes
  parses_bytes_bounded parses_string parses_dims parses_pair parses_ret : cuda.

(** ** Requests *)

Lemma parses_access x : is_access x ->
  parses (let# location_type := Cur.i32 in let# location_id := Cur.i32 in
          let# flags := Cur.u64 in ret (location_type, location_id, flags)) x (le_access x).
Proof.
  destruct x as [[x y] z]. intros (Hx & Hy & Hz).
  repeat (eapply parses_bind; [by apply parses_i32|]).
  by apply parses_map_eq with z; [apply parses_u64|].
Qed.

(** A list, its length first. *)
Definition le_counted {A} (enc : A -> bytes) (l : list A) : bytes :=
  to_le 4 (wrap 32 (len l)) ++ mjoin (enc <$> l).

Lemma parses_count {A B} (enc : A -> bytes) l (k : Z -> M B) v rest :
  is_uint 32 (len l) -> parses (k (len l)) v (mjoin (enc <$> l) ++ rest) ->
  parses (mbind_dec Cur.u32 k) v (le_counted enc l ++ rest).
Proof.
  intros Hn Hk. unfold le_counted. unfold wrap. rewrite Z.mod_small by done.
  rewrite <- app_assoc. eapply parses_bind; [by apply parses_u32|done].
Qed.

Lemma parses_segments l : is_list 32 is_pair l -> parses r_gpa_segments l (le_counted le_pair l).
Proof.
  intros [Hn HP]. rewrite <- (app_nil_r (le_counted _ _)). apply parses_count; [done|].
  rewrite app_nil_r. apply parses_capacity. eapply parses_for_n; [apply parses_pair|done].
Qed.

Lemma parses_pages l : is_list 32 (is_uint 64) l -> parses r_pages l (le_counted (to_le 8) l).
Proof.
  intros [Hn HP]. rewrite <- (app_nil_r (le_counted _ _)). apply parses_count; [done|].
  rewrite app_nil_r. apply parses_capacity. eapply parses_for_n; [apply parses_u64|done].
Qed.

#[export] Hint Resolve parses_access parses_segments parses_pages : cuda.

(** The writers as concatenation. *)
Lemma w_dims_app d b : w_dims d b = b ++ le_dims d.
Proof. destruct d as [[x y] z]. cbn. unfold w_u32. by rewrite <- !app_assoc. Qed.
Lemma w_bytes_app v b : w_bytes v b = b ++ le_bytes v.
Proof. unfold w_bytes, w_u64, le_bytes. by rewrite <- app_assoc. Qed.
Lemma w_counted {A} (w : A -> bytes -> bytes) (enc : A -> bytes) l b :
  (forall x b, w x b = b ++ enc x) ->
  w_for w l (w_u32 (wrap 32 (len l)) b) = b ++ le_counted enc l.
Proof. intros Hw. rewrite (w_for_app _ enc) by done. unfold w_u32. by rewrite <- app_assoc. Qed.
Lemma w_pair_app (x : Z * Z) b :
  (let '(x, y) := x in fun b => w_u64 y (w_u64 x b)) b = b ++ le_pair x.
Proof. destruct x. unfold w_u64. by rewrite <- app_assoc. Qed.
Lemma w_access_app (x : Z * Z * Z) b :
  (let '(x, y, z) := x in fun b => w_u64 z (w_i32 y (w_i32 x b))) b = b ++ le_access x.
Proof. destruct x as [[]]. unfold w_u64, w_i32. by rewrite <- !app_assoc. Qed.
Lemma w_segments_app l b : w_gpa_segments l b = b ++ le_counted le_pair l.
Proof. apply w_counted, w_pair_app. Qed.

(** The bytes of a request, as its opcode and the encodings of its fields. *)
Definition le_u8 (v : Z) : bytes := [v].

Ltac wire_norm :=
  unfold encode_request, first_some;
  cbn [encode_device_module encode_pool_ipc encode_copy_launch_graph encode_stream_event_lib
       encode_transport_vmm foldr default from_option id];
  rewrite ?w_segments_app, ?(w_counted _ le_bytes) by apply w_bytes_app;
  rewrite ?(w_counted _ le_pair) by apply w_pair_app;
  rewrite ?(w_counted _ le_access) by apply w_access_app;
  unfold w_str; rewrite ?w_bytes_app, ?w_dims_app;
  unfold w_u8, w_i32, w_u32, w_u16, w_u64; fold le_u8;
  rewrite <- ?app_assoc, ?app_nil_l.

Lemma parses_op op r args :
  parses (decode_args op) r args -> parses decode_body r ([Op.as_u8 op] ++ args).
Proof.
  intros H. eapply parses_bind; [apply parses_u8; by destruct op|].
  by rewrite Op.from_as_u8.
Qed.

Ltac arm_norm :=
  unfold decode_args, first_some;
  cbn [decode_device_module decode_pool_ipc decode_copy_launch_graph decode_stream_event_lib
       decode_transport_vmm foldr default from_option id].

Ltac parse_fields :=
  repeat match goal with
  | |- parses (ret _) _ _ => apply parses_ret
  | |- parses (if ?g then _ else _) _ _ => destruct g eqn:?; [exfalso; bool_simpl; lia|]
  | |- parses (mbind_dec (with_capacity _ _) _) _ _ => apply parses_capacity
  | |- parses (mbind_dec Cur.u32 _) _ (le_counted _ _ ++ _) => apply parses_count; [done|]
  | |- parses (mbind_dec (for_n _ _ _ _) _) _ _ =>
      eapply parses_bind; [eapply parses_for_n; [solve [eauto 2 with cuda]|done]|]
  | |- parses (mbind_dec _ _) _ _ => eapply parses_bind; [solve [eauto 2 with cuda]|]
  end.

Lemma parses_request r :
  request_ok r -> (forall h t, r <> Request.Init h t) -> parses decode_body r (encode_request r).
Proof.
  intros H Hi. rewrite <- (app_nil_r (encode_request r)).
  destruct r; cbn [request_ok] in H; destruct_and?.
  1: by destruct (Hi proto_hash resume_token).
  all: wire_norm.
  all: try (apply parses_op; arm_norm; parse_fields; done).
  all: repeat match goal with H : is_list _ _ _ |- _ => destruct H end.
  all: try (apply parses_op; arm_norm; parse_fields; done).
  - apply parses_op; arm_norm.
    eapply parses_bind; [by apply parses_u8|].
    eapply parses_bind; [apply parses_u32; unfold is_uint in *; lia|].
    unfold wrap. rewrite Z.mod_small by done. parse_fields.
  - rewrite (w_for_app _ (le_counted (to_le 8))) by (intros; by apply w_counted).
    cbn [fmap list_fmap mjoin list_join]. rewrite <- !app_assoc, app_nil_l.
    apply parses_op; arm_norm.
    eapply parses_bind; [by apply parses_u32|].
    do 3 (eapply parses_bind; [by apply parses_pages|]). apply parses_ret.
Qed.

Lemma reads_unwrap_or {A} (m : M A) d v bs : reads m v bs -> reads (unwrap_or m d) v bs.
Proof.
  intros H pre rest rsv Hlen. unfold unwrap_or. destruct (H pre rest rsv Hlen) as [rsv' ->]. eauto.
Qed.

Lemma reads_request r : request_ok r -> reads decode_body r (encode_request r).
Proof.
  intros H. destruct r; try (apply parses_request; [done|congruence]).
  destruct H as [Hh Ht]. rewrite <- (app_nil_r (encode_request _)). wire_norm.
  eapply reads_bind; [by apply parses_u8|]. arm_norm.
  do 2 (eapply reads_bind; [by apply reads_unwrap_or, parses_u64|]). apply reads_ret.
Qed.

(** ** What any message can make the decoder do *)

Definition dec_ok (c : Dec) : Prop :=
  is_bytes (cur_b c) /\ 0 <= cur_p c <= len (cur_b c).

(** What was asked of the allocator is at most [B], or twice what was read. *)
Definition reserves (B : Z) (c c' : Dec) : Prop :=
  exists new, reserved c' = reserved c ++ new
  /\ Forall (fun n => 0 <= n <= Z.max B (2 * cur_p c')) new.

Definition triple {A} (B : Z) (m : M A) (P : A -> Prop) : Prop :=
  forall c, dec_ok c ->
  let '(r, c') := m c in
  dec_ok c' /\ cur_b c' = cur_b c /\ cur_p c <= cur_p c' /\ reserves B c c' /\
  match r with Ok v => P v | Err (IoErr k _) => k = InvalidData end.

Lemma reserves_refl B c : reserves B c c.
Proof. exists []. by rewrite app_nil_r. Qed.
Lemma reserves_trans B c1 c2 c3 :
  cur_p c2 <= cur_p c3 -> reserves B c1 c2 -> reserves B c2 c3 -> reserves B c1 c3.
Proof.
  intros Hp (n1 & E1 & H1) (n2 & E2 & H2). exists (n1 ++ n2).
  rewrite E2, E1, app_assoc. split; [done|]. apply Forall_app. split; [|done].
  eapply Forall_impl; [exact H1|]. cbn. lia.
Qed.

Lemma triple_ret {A} B (v : A) (P : A -> Prop) : P v -> triple B (ret v) P.
Proof. intros HP c Hc. cbn. repeat split; try done; try apply Hc; try lia. apply reserves_refl. Qed.

Lemma triple_fail {A} B s (P : A -> Prop) : triple B (fail (IoErr InvalidData s)) P.
Proof. intros c Hc. cbn. repeat split; try done; try apply Hc; try lia. apply reserves_refl. Qed.

Lemma triple_bind {A C} B (m : M A) (k : A -> M C) P Q :
  triple B m P -> (forall x, P x -> triple B (k x) Q) -> triple B (mbind_dec m k) Q.
Proof.
  intros Hm Hk c Hc. unfold mbind_dec. specialize (Hm c Hc).
  destruct (m c) as [[x|e] c1]; destruct Hm as (Hc1 & Eb & Hp & Hr & Hx).
  - specialize (Hk x Hx c1 Hc1). destruct (k x c1) as [r c2].
    destruct Hk as (Hc2 & Eb2 & Hp2 & Hr2 & Hres).
    repeat split; try done; try apply Hc2; try congruence; try lia. by eapply reserves_trans; [|done..].
  - repeat split; try done; apply Hc1.
Qed.

Lemma triple_weaken {A} B (m : M A) (P Q : A -> Prop) :
  triple B m P -> (forall x, P x -> Q x) -> triple B m Q.
Proof.
  intros Hm HPQ c Hc. specialize (Hm c Hc). destruct (m c) as [[x|e] c1]; naive_solver.
Qed.

Lemma triple_map {A C} B (m : M A) (f : A -> C) P Q :
  triple B m P -> (forall x, P x -> Q (f x)) -> triple B (let# x := m in ret (f x)) Q.
Proof. intros Hm HPQ. eapply triple_bind; [done|]. intros x Hx. apply triple_ret. eauto. Qed.

Lemma triple_unwrap_or {A} B (m : M A) d P :
  triple B m P -> P d -> triple B (unwrap_or m d) P.
Proof.
  intros Hm Hd c Hc. unfold unwrap_or. specialize (Hm c Hc).
  destruct (m c) as [[x|e] c1]; naive_solver.
Qed.

Lemma triple_take B n :
  0 <= n -> triple B (Cur.take n) (fun s => is_bytes s /\ len s = n).
Proof.
  intros Hn c [Hb Hp]. unfold Cur.take. destruct (checked_add 64 (cur_p c) n) as [e|] eqn:E.
  2: { repeat split; try done; try lia. apply reserves_refl. }
  unfold checked_add in E. case_bool_guard_in E; inv E.
  destruct (_ >? _) eqn:G; bool_simpl.
  { repeat split; try done; try lia. apply reserves_refl. }
  repeat split; cbn; try done; try lia.
  - exists []. by rewrite app_nil_r.
  - by apply Forall_take, Forall_drop.
  - rewrite len_slice; lia.
Qed.

Lemma triple_capacity B size n : 0 <= size * n <= B -> triple B (with_capacity size n) (fun _ => True).
Proof.
  intros H c Hc. cbn. repeat split; try done; try apply Hc; try (cbn; lia).
  exists [size * n]. split; [done|]. apply List.Forall_cons; [cbn; lia|done].
Qed.

(** A copy is no longer than what was read. *)
Lemma triple_copy B n :
  0 <= n -> triple B (let# s := Cur.take n in Cur.to_vec s) (fun s => is_bytes s /\ len s = n).
Proof.
  intros Hn c Hc. pose proof (triple_take B n Hn c Hc) as Ht. unfold mbind_dec at 1.
  unfold Cur.take in *. destruct (checked_add 64 (cur_p c) n) as [e|] eqn:E; [|done].
  destruct (_ >? _); [done|]. unfold checked_add in E. case_bool_guard_in E; inv E.
  destruct Ht as (Hc' & Eb & Hp & _ & Hs & Hl). cbn in *. destruct Hc as [_ Hc].
  repeat split; cbn; try done; try lia; try apply Hc'.
  exists [len (slice (cur_b c) (cur_p c) (cur_p c + n))]. split; [done|].
  apply List.Forall_cons; [|done]. cbn. rewrite Hl. lia.
Qed.

Lemma triple_le B n w :
  256 ^ Z.of_nat n = 2 ^ w ->
  triple B (let# s := Cur.take (Z.of_nat n) in ret (from_le s)) (is_uint w).
Proof.
  intros Ew. eapply triple_map; [apply triple_take; lia|]. intros s [Hs Hl].
  unfold is_uint. rewrite <- Ew, <- Hl. by apply from_le_bound.
Qed.

Lemma triple_u16 B : triple B Cur.u16 (is_uint 16).
Proof. by apply (triple_le B 2). Qed.
Lemma triple_u32 B : triple B Cur.u32 (is_uint 32).
Proof. by apply (triple_le B 4). Qed.
Lemma triple_u64 B : triple B Cur.u64 (is_uint 64).
Proof. by apply (triple_le B 8). Qed.
Lemma triple_u8 B : triple B Cur.u8 (is_uint 8).
Proof.
  eapply triple_map; [by apply triple_take|]. intros s [Hs Hl].
  destruct s as [|x [|y s]]; [done| |rewrite !len_cons in Hl; pose proof (len_nonneg s); lia].
  by inv Hs.
Qed.
Lemma triple_i32 B : triple B Cur.i32 is_i32.
Proof.
  eapply triple_map; [by apply triple_take|]. intros s [Hs Hl]. apply as_i32_range.
  unfold is_uint. change (2 ^ 32) with (256 ^ 4). rewrite <- Hl. by apply from_le_bound.
Qed.
Lemma triple_bytes B : triple B Cur.bytes is_vec.
Proof.
  eapply triple_bind; [apply triple_u64|]. intros n [H0 H1].
  eapply triple_weaken; [by apply triple_copy|]. intros s [Hs <-]. done.
Qed.
Lemma triple_bytes_bounded B k : triple B (Cur.bytes_bounded k) (fun v => is_vec v /\ len v <= k).
Proof.
  eapply triple_bind; [apply triple_u64|]. intros n [H0 H1].
  destruct (_ >? _) eqn:E; [apply triple_fail|]. bool_simpl.
  eapply triple_weaken; [by apply triple_copy|]. intros s [Hs <-]. repeat split; try done; lia.
Qed.
Lemma triple_string B : triple B Cur.string is_str.
Proof.
  eapply triple_bind; [apply triple_bytes|]. intros v Hv. unfold from_utf8.
  destruct (utf8_valid v) eqn:E; [|apply triple_fail]. by apply triple_ret.
Qed.
Lemma triple_dims B : triple B r_dims is_dims.
Proof.
  do 3 (eapply triple_bind; [apply triple_u32|intros ? ?]). by apply triple_ret.
Qed.
Lemma triple_pair B : triple B r_pair is_pair.
Proof. do 2 (eapply triple_bind; [apply triple_u64|intros ? ?]). by apply triple_ret. Qed.

(** ** Loops that push

    A vector that never gets longer than it was reserved asks for nothing; one
    that does has read, for every element it holds, at least the element's
    size, so its doubling is covered by what was read. *)

Definition consumes {A} (k : Z) (m : M A) : Prop :=
  forall c x c', m c = (Ok x, c') -> cur_p c + k <= cur_p c'.

Lemma consumes_take n : consumes n (Cur.take n).
Proof.
  intros c x c'. unfold Cur.take, checked_add. case_bool_guard; [|done].
  destruct (_ >? _); [done|]. intros E'. injection E' as <- <-. cbn. lia.
Qed.
Lemma consumes_bind {A C} j k (m : M A) (f : A -> M C) :
  consumes j m -> (forall x, consumes k (f x)) -> consumes (j + k) (mbind_dec m f).
Proof.
  intros Hm Hf c x c'. unfold mbind_dec. destruct (m c) as [[y|] c1] eqn:E; [|done]. intros Hx.
  specialize (Hm _ _ _ E). specialize (Hf y _ _ _ Hx). lia.
Qed.
Lemma consumes_ret {A} (v : A) : consumes 0 (ret v).
Proof. intros c x c' E. injection E as <- <-. lia. Qed.
Lemma consumes_u64 : consumes 8 Cur.u64.
Proof. apply (consumes_bind 8 0); [apply consumes_take|intros; apply consumes_ret]. Qed.
Lemma consumes_pair : consumes 16 r_pair.
Proof.
  apply (consumes_bind 8 8); [apply consumes_u64|]. intros y.
  apply (consumes_bind 8 0); [apply consumes_u64|intros; apply consumes_ret].
Qed.

Lemma cap_at_small fuel cap k : k <= cap -> cap_at (S fuel) cap k = cap.
Proof. intros Hk. cbn [cap_at]. by rewrite (proj2 (Z.leb_le _ _) Hk). Qed.
Lemma cap_at_ge fuel cap k : 0 <= cap -> cap <= cap_at fuel cap k.
Proof.
  revert cap. induction fuel as [|fuel IH]; intros cap Hc; cbn [cap_at]; [lia|].
  destruct (k <=? cap); [lia|]. etransitivity; [|apply IH]; lia.
Qed.

(** When [v] may get [n] more elements. *)
Definition backed {A} (size cap : Z) (m : M A) (p : Z) (k n : Z) : Prop :=
  k + n <= cap \/ (4 <= cap /\ consumes size m /\ size * k <= p).

Lemma push_ok {A} B size cap (m : M A) v x c0 c c1 :
  0 <= size -> m c = (Ok x, c1) -> dec_ok c1 -> cur_b c1 = cur_b c -> reserves B c0 c1 ->
  backed size cap m (cur_p c) (len v) 1 ->
  exists c2, push size cap v x c1 = (Ok (v ++ [x]), c2) /\ dec_ok c2 /\ cur_b c2 = cur_b c1
    /\ cur_p c2 = cur_p c1 /\ reserves B c0 c2
    /\ forall n, backed size cap m (cur_p c) (len v) (1 + n) ->
         backed size cap m (cur_p c2) (len (v ++ [x])) n.
Proof.
  intros Hs Em Hc1 Eb (new & E & Hn) Hb. unfold push. pose proof (len_nonneg v) as Hv.
  assert (forall n, backed size cap m (cur_p c) (len v) (1 + n) ->
    backed size cap m (cur_p c1) (len (v ++ [x])) n) as Hnext.
  { intros n. rewrite len_app, len_cons, len_nil. intros [H|(H4 & Hm & Hp)]; [left; lia|right].
    split; [done|]. split; [done|]. specialize (Hm _ _ _ Em). lia. }
  destruct (len v <? cap_at 64 cap (len v)) eqn:El.
  { exists c1. do 4 (split; [done|]). split; [by exists new|done]. }
  apply Z.ltb_ge in El. destruct Hb as [Hb|(H4 & Hm & Hp)].
  { rewrite cap_at_small in El by lia. lia. }
  eexists. split; [reflexivity|]. split; [done|]. split; [done|]. split; [done|]. split; [|done].
  exists (new ++ [size * Z.max (2 * cap_at 64 cap (len v)) 4]). cbn [reserved]. rewrite E, app_assoc.
  split; [done|]. apply Forall_app. split; [done|]. apply List.Forall_cons; [|done].
  pose proof (cap_at_ge 64 cap (len v) ltac:(lia)) as Hge. specialize (Hm _ _ _ Em). cbn [cur_p]. nia.
Qed.

(** What [n] more iterations on [v] leave. *)
Definition loop_ok {A} (B size cap : Z) (m : M A) (P : A -> Prop) (n : Z) (v : list A) (c : Dec)
    (out : result (list A) IoError * Dec) : Prop :=
  let '(r, c') := out in
  dec_ok c' /\ cur_b c' = cur_b c /\ cur_p c <= cur_p c' /\ reserves B c c' /\
  match r with
  | Ok l => len l = len v + n /\ Forall P l
      /\ forall k, backed size cap m (cur_p c) (len v) (n + k) -> backed size cap m (cur_p c') (len l) k
  | Err (IoErr k _) => k = InvalidData
  end.

Lemma loop_one {A} B size cap (m : M A) P v c :
  0 <= size -> triple B m P -> dec_ok c -> Forall P v -> backed size cap m (cur_p c) (len v) 1 ->
  loop_ok B size cap m P 1 v c (mbind_dec m (fun x => push size cap v x) c).
Proof.
  intros Hs Hm Hc Hv Hb. unfold mbind_dec. specialize (Hm c Hc). destruct (m c) as [[x|e] c1] eqn:Em; [|done].
  destruct Hm as (Hc1 & Eb & Hp & Hr & Hx).
  destruct (push_ok B size cap m v x c c c1 Hs Em Hc1 Eb Hr Hb) as (c2 & -> & Hc2 & Eb2 & Ep2 & Hr2 & Hnext).
  split; [done|]. split; [congruence|]. split; [lia|]. split; [done|].
  split; [by rewrite len_app, len_cons, len_nil|]. split; [|done]. apply Forall_app. by repeat constructor.
Qed.

Lemma loop_seq {A} B size cap (m : M A) P (f g : list A -> M (list A)) a b v c :
  loop_ok B size cap m P a v c (f v c) ->
  (forall v c, dec_ok c -> Forall P v -> backed size cap m (cur_p c) (len v) b ->
     loop_ok B size cap m P b v c (g v c)) ->
  backed size cap m (cur_p c) (len v) (a + b) ->
  loop_ok B size cap m P (a + b) v c (mbind_dec (f v) g c).
Proof.
  intros Hf Hg Hb. unfold mbind_dec. destruct (f v c) as [[l|e] c1]; [|done].
  destruct Hf as (Hc1 & Eb & Hp & Hr & Hl & HP & Hk). specialize (Hg l c1 Hc1 HP (Hk b Hb)).
  destruct (g l c1) as [r c2]. destruct Hg as (Hc2 & Eb2 & Hp2 & Hr2 & Hres).
  split; [done|]. split; [congruence|]. split; [lia|]. split; [by eapply reserves_trans; [|done..]|].
  destruct r as [l2|]; [|done]. destruct Hres as (Hl2 & HP2 & Hk2). split; [lia|]. split; [done|].
  intros k Hbk. apply Hk2, Hk. by rewrite Z.add_assoc.
Qed.

Lemma backed_less {A} size cap (m : M A) p k n n' :
  n' <= n -> backed size cap m p k n -> backed size cap m p k n'.
Proof. intros Hn [H|H]; [left; lia|by right]. Qed.

Lemma for_pos_ok {A} B size cap (m : M A) P n :
  0 <= size -> triple B m P -> forall v c, dec_ok c -> Forall P v ->
  backed size cap m (cur_p c) (len v) (Zpos n) ->
  loop_ok B size cap m P (Zpos n) v c (for_pos size cap m n v c).
Proof.
  intros Hs Hm. induction n as [n IH|n IH|]; intros v c Hc Hv Hb; cbn [for_pos].
  - replace (Zpos n~1) with (Zpos n + (Zpos n + 1)) in * by lia. apply loop_seq; [| |done].
    + apply IH; [done|done|]. eapply backed_less; [|exact Hb]. lia.
    + intros v' c' Hc' Hv' Hb'. apply loop_seq; [| |done].
      * apply IH; [done|done|]. eapply backed_less; [|exact Hb']. lia.
      * intros. by apply loop_one.
  - replace (Zpos n~0) with (Zpos n + Zpos n) in * by lia. apply loop_seq; [|done|done].
    apply IH; [done|done|]. eapply backed_less; [|exact Hb]. lia.
  - by apply loop_one.
Qed.

Lemma triple_for_n {A} B size cap (m : M A) P n :
  0 <= n -> 0 <= size -> triple B m P -> n <= cap \/ (4 <= cap /\ consumes size m) ->
  triple B (for_n size cap n m) (fun l => len l = n /\ Forall P l).
Proof.
  intros Hn Hs Hm Hb. destruct n as [|n|n]; cbn [for_n]; [by apply triple_ret| |lia]. intros c Hc.
  pose proof (for_pos_ok B size cap m P n Hs Hm [] c Hc (List.Forall_nil _)) as Hp.
  assert (backed size cap m (cur_p c) (len (@nil A)) (Zpos n)) as Hbk.
  { rewrite len_nil. destruct Hb as [Hb|[H4 Hc4]]; [left; lia|right]. destruct Hc.
    split; [done|]. split; [done|lia]. }
  specialize (Hp Hbk). destruct (for_pos size cap m n [] c) as [[l|e] c']; [|done].
  destruct Hp as (? & ? & ? & ? & Hl & HP & _). by rewrite Hl.
Qed.

#[export] Hint Resolve triple_u8 triple_i32 triple_u16 triple_u32 triple_u64 triple_bytes
  triple_bytes_bounded triple_string triple_dims triple_pair : cuda.

(** The largest reservation a message can ask for, by opcode. *)
Definition reserve_limit (op : Op.Op) : Z :=
  match op with Op.LaunchKernel => 24 * u_max 32 | _ => 16 * 2 ^ 20 end.

Lemma triple_segments B : 16 * 2 ^ 20 <= B -> triple B r_gpa_segments (is_list 32 is_pair).
Proof.
  intros HB. eapply triple_bind; [apply triple_u32|]. intros n Hn. unfold is_uint in Hn.
  eapply triple_bind; [apply triple_capacity; change (Z.shiftl 1 20) with (2 ^ 20); lia|].
  intros _ _. change (Z.shiftl 1 20) with (2 ^ 20).
  eapply triple_weaken; [apply triple_for_n; [lia|lia|apply triple_pair|]|].
  - destruct (Z.le_gt_cases n (2 ^ 20)); [left; lia|right; split; [lia|apply consumes_pair]].
  - intros l [<- H]. by split.
Qed.

Lemma triple_pages B : 16 * 2 ^ 20 <= B -> triple B r_pages (is_list 32 (is_uint 64)).
Proof.
  intros HB. eapply triple_bind; [apply triple_u32|]. intros n Hn. unfold is_uint in Hn.
  change (Z.shiftl 1 16) with (2 ^ 16).
  assert (0 <= reserve_cap (Z.min n (2 ^ 16)) <= 2 ^ 16
    /\ (n <= reserve_cap (Z.min n (2 ^ 16)) \/ 4 <= reserve_cap (Z.min n (2 ^ 16)))) as [Hr Hg].
  { unfold reserve_cap. destruct (Z.eqb_spec (Z.min n (2 ^ 16)) 0); lia. }
  eapply triple_bind; [apply triple_capacity; lia|].
  intros _ _. eapply triple_weaken; [apply triple_for_n; [lia|lia|apply triple_u64|]|].
  - destruct Hg; [by left|right; split; [done|apply consumes_u64]].
  - intros l [<- H]. by split.
Qed.

#[export] Hint Resolve triple_segments triple_pages : cuda.

Lemma triple_access B :
  triple B (let# location_type := Cur.i32 in let# location_id := Cur.i32 in
            let# flags := Cur.u64 in ret (location_type, location_id, flags)) is_access.
Proof.
  do 2 (eapply triple_bind; [apply triple_i32|intros ? ?]).
  eapply triple_bind; [apply triple_u64|intros ? ?]. by apply triple_ret.
Qed.
#[export] Hint Resolve triple_access : cuda.

Ltac triple_step :=
  match goal with
  | |- triple _ (ret _) _ => apply triple_ret; cbn [request_ok]
  | |- triple _ (fail _) _ => apply triple_fail
  | |- triple _ (if ?g then _ else _) _ => destruct g eqn:?; bool_simpl
  | |- triple _ (mbind_dec (with_capacity _ _) _) _ =>
      eapply triple_bind; [apply triple_capacity; unfold is_uint, u_max in *; cbn; lia|intros ? _]
  | |- triple _ (mbind_dec (for_n _ _ _ _) _) _ =>
      eapply triple_bind;
      [eapply triple_for_n;
        [unfold is_uint in *; lia|lia|solve [eauto 2 with cuda]|left; unfold is_uint in *; lia]
      |intros ? [? ?]; subst]
  | |- triple _ (mbind_dec (unwrap_or _ _) _) _ =>
      eapply triple_bind; [eapply triple_unwrap_or; [solve [eauto 2 with cuda]|done]|intros ? ?]
  | |- triple _ (mbind_dec _ _) _ =>
      eapply triple_bind; [solve [eauto 2 with cuda | auto using triple_segments, triple_pages, Z.le_refl]|intros ? ?]
  end.

Lemma triple_args op : triple (reserve_limit op) (decode_args op) request_ok.
Proof.
  destruct op; arm_norm; cbn [reserve_limit].
  all: repeat triple_step.
  all: try done.
  all: try (destruct_and?; done).
  - unfold is_list. split; [done|]. unfold is_uint in *. lia.
  - split; [done|]. split; [|done]. apply Z.mod_pos_bound. lia.
  - destruct H as [Hv Hl]. by repeat (split; [done|]).
Qed.

Lemma triple_mono {A} B B' (m : M A) P : B <= B' -> triple B m P -> triple B' m P.
Proof.
  intros HB Hm c Hc. specialize (Hm c Hc). destruct (m c) as [r c'].
  destruct Hm as (? & ? & ? & (new & E & Hn) & ?). repeat split; try done; try apply H.
  exists new. split; [done|]. eapply Forall_impl; [done|]. cbn. lia.
Qed.

Lemma body_nil : decode_body (Cur.new []) = (Err bad, Cur.new []).
Proof. done. Qed.
Lemma body_cons v rest :
  decode_body (Cur.new (v :: rest)) =
  (match Op.from_u8 v with Some op => decode_args op | None => fail bad end)
    (MkDec (v :: rest) 1 []).
Proof.
  unfold decode_body, Cur.u8, Cur.take, mbind_dec. cbn [cur_b cur_p Cur.new reserved ret].
  change (checked_add 64 0 1) with (Some 1). rewrite len_cons.
  destruct (_ >? _) eqn:E; [pose proof (len_nonneg rest); bool_simpl; lia|]. done.
Qed.
End ProtoFacts.
