(* ===== verification/CudaProtoProps.v ===== *)
(** * Properties of the CUDA wire protocol

    Round trips of requests, responses and frames; what a hostile message can
    and cannot make the host's decoder do. *)

From S2P Require Import Prelude RustStr CudaProto CudaProtoFacts.

Module ProtoProps.
Import Str Proto ProtoFacts.

Lemma decode_reads r bs rest :
  reads decode_body r bs -> len (bs ++ rest) <= u_max 64 -> decode_request (bs ++ rest) = Ok r.
Proof.
  intros H Hlen. unfold decode_request, Cur.new.
  destruct (H [] rest [] Hlen) as [rsv E]. cbn [app] in E. change (len []) with 0 in E.
  by rewrite E.
Qed.

Lemma decode_encode r rest :
  request_ok r -> len (encode_request r) <= MAX_MSG -> len rest <= MAX_MSG ->
  decode_request (encode_request r ++ rest) = Ok r.
Proof.
  intros Hr Hlen Hrest. apply decode_reads; [by apply reads_request|].
  rewrite len_app. unfold MAX_MSG, u_max in *. lia.
Qed.

Lemma decode_encode_nil r :
  request_ok r -> len (encode_request r) <= MAX_MSG -> decode_request (encode_request r) = Ok r.
Proof. intros Hr Hlen. rewrite <- (app_nil_r (encode_request r)). by apply decode_encode. Qed.

(** C9: A request whose fields are in the range of their Rust
    types is decoded back from its encoding, whatever bytes follow it; and,
    [Init] aside, no strict prefix of the encoding is a request: a truncated
    message is always refused as malformed. *)
Theorem request_roundtrip (r : Request.Request) :
  request_ok r -> len (encode_request r) <= MAX_MSG ->
  decode_request (encode_request r) = Ok r /\
  (forall rest, len rest <= MAX_MSG -> decode_request (encode_request r ++ rest) = Ok r) /\
  (forall front back, encode_request r = front ++ back -> back <> [] ->
     (forall h t, r <> Request.Init h t) -> decode_request front = Err bad).
Proof.
  intros Hr Hlen. split; [by apply decode_encode_nil|]. split; [intros; by apply decode_encode|].
  intros front back E Hne Hi. destruct (parses_request r Hr Hi) as [_ T].
  assert (H : len (@nil Z ++ front) <= u_max 64).
  { rewrite E, len_app in Hlen. pose proof (len_nonneg back). cbn [app]. unfold u_max, MAX_MSG in *. lia. }
  destruct (T [] front back [] E Hne H) as [c Hc]. unfold decode_request.
  cbn [app] in Hc. unfold Cur.new. change (len []) with 0 in Hc. by rewrite Hc.
Qed.

Lemma request_roundtrip_witness :
  decode_request (encode_request (Request.MemsetD8 4096 255 16)) = Ok (Request.MemsetD8 4096 255 16).
Proof. apply (request_roundtrip (Request.MemsetD8 4096 255 16)); vm_compute; repeat split; discriminate. Defined.

(** C13: Whatever bytes arrive, the decoder returns, with a request
    whose every field is in the range of its type and whose counts are within
    the decoder's bounds, or with an [InvalidData] error; and a request it
    returns is decoded again from its own encoding. *)
Theorem decode_typed (payload : bytes) :
  is_bytes payload ->
  match decode_request payload with
  | Ok r => request_ok r /\
            (len (encode_request r) <= MAX_MSG -> decode_request (encode_request r) = Ok r)
  | Err (IoErr kind _) => kind = InvalidData
  end.
Proof.
  intros Hb. unfold decode_request. destruct payload as [|v rest].
  { done. }
  rewrite body_cons. destruct (Op.from_u8 v) as [op|]; [|done].
  assert (Hok : dec_ok (MkDec (v :: rest) 1 [])).
  { split; [done|]. cbn. rewrite len_cons. pose proof (len_nonneg rest). lia. }
  pose proof (triple_args op _ Hok) as H. destruct (decode_args op _) as [[r|[k s]] c]; cbn [fst].
  - destruct H as (_ & _ & _ & _ & Hr). split; [done|]. intros Hlen.
    by apply decode_encode_nil.
  - by destruct H as (_ & _ & _ & _ & Hr).
Qed.

Lemma decode_typed_witness : request_ok (Request.EventCreateBatch 2 258).
Proof.
  assert (H : is_bytes [0x77; 2; 0; 0; 0; 2; 1; 0; 0; 9]) by (repeat constructor; unfold is_byte; lia).
  exact (proj1 (decode_typed [0x77; 2; 0; 0; 0; 2; 1; 0; 0; 9] H)).
Defined.

(** ** Reservations *)

(** C28: Reading any message, no single buffer the
    decoder asks the allocator for (reserved up front by a count in the
    message, grown by a push, or the copy of a byte string) is larger than 16
    MiB or, when that is more, twice the message, a message of the
    [LaunchKernel] opcode excepted, where the guest's count alone decides and
    the bound is 24 * (2^32 - 1) bytes. *)
Theorem decode_reservations_bounded (payload : bytes) :
  is_bytes payload ->
  Forall (fun n => 0 <= n <= Z.max (24 * (2 ^ 32 - 1)) (2 * len payload)) (decode_reservations payload) /\
  (at_ payload 0 <> Op.as_u8 Op.LaunchKernel ->
   Forall (fun n => 0 <= n <= Z.max (16 * 2 ^ 20) (2 * len payload)) (decode_reservations payload)).
Proof.
  intros Hb. unfold decode_reservations. destruct payload as [|v rest].
  { by repeat constructor. }
  rewrite body_cons. destruct (Op.from_u8 v) as [op|] eqn:Eop; [|by repeat constructor].
  assert (Hok : dec_ok (MkDec (v :: rest) 1 [])).
  { split; [done|]. cbn. rewrite len_cons. pose proof (len_nonneg rest). lia. }
  pose proof (triple_args op _ Hok) as H. destruct (decode_args op _) as [r c]; cbn [snd].
  destruct H as ([_ Hp] & Eb & _ & (new & E & Hn) & _). cbn [reserved app cur_b] in E, Eb. rewrite E.
  rewrite Eb in Hp. change (at_ (v :: rest) 0) with v. split.
  - eapply Forall_impl; [exact Hn|]. intros n Hl. unfold reserve_limit, u_max in Hl.
    destruct op; lia.
  - intros Hv. eapply Forall_impl; [exact Hn|]. intros n Hl. unfold reserve_limit in Hl.
    destruct op; try (cbv beta in Hl; lia). destruct Hv. by destruct (Op.from_u8_Some v _ Eop).
Qed.

(** A [MemcpyHtoD] of two bytes copies them; segments past the message's end
    reserve by their count. *)
Lemma decode_reservations_bounded_witness :
  let copy := [0x32] ++ replicate 16 0 ++ to_le 8 2 ++ [7; 8] in
  decode_reservations copy = [2] /\ Forall (fun n => 0 <= n <= 16 * 2 ^ 20) (decode_reservations copy).
Proof.
  intros copy. split; [by vm_compute|].
  refine (Forall_impl _ _ _ (proj2 (decode_reservations_bounded copy _) _) _);
    [by apply (bool_decide_eq_true_1 _); vm_compute|discriminate|].
  intros n Hn. change (len copy) with 27 in Hn. lia.
Defined.

(** A [LaunchKernel] of 49 bytes, its argument count 2^32 - 1. *)
Definition hostile_launch : bytes :=
  [Op.as_u8 Op.LaunchKernel] ++ replicate 44 0 ++ [255; 255; 255; 255].

(** The exception is real: a 49-byte [LaunchKernel]
    message whose argument count is 2^32 - 1 is refused as malformed, but only
    after the decoder has asked for 24 * (2^32 - 1) bytes, about 103 GB. *)
Theorem launch_reserves_by_count :
  len hostile_launch = 49 /\ decode_request hostile_launch = Err bad /\
  decode_reservations hostile_launch = [24 * (2 ^ 32 - 1)].
Proof. by vm_compute. Qed.

(** ** Responses *)

Definition response_ok (resp : Response.Response) : Prop :=
  match resp with
  | Response.Ok => True
  | Response.Count v => is_i32 v
  | Response.Name s => is_str s
  | Response.Bytes v | Response.Handle v | Response.Dptr v => is_uint 64 v
  | Response.Data d => is_vec d
  | Response.Pair a z => is_uint 64 a /\ is_uint 64 z
  | Response.Millis ms => is_uint 32 ms
  | Response.LibResult status out => is_i32 status /\ is_vec out
  end.

(** The shape of body the client expects for [op]. *)
Definition answers (op : Op.Op) (resp : Response.Response) : Prop :=
  response_body op =
  match resp with
  | Response.Ok => ret Response.Ok
  | Response.Count _ => r_count
  | Response.Name _ => r_name
  | Response.Bytes _ => r_bytes
  | Response.Handle _ => r_handle
  | Response.Dptr _ => r_dptr
  | Response.Data _ => r_data
  | Response.Pair _ _ => r_two
  | Response.Millis _ => r_millis
  | Response.LibResult _ _ => r_lib
  end.

Lemma parses_response op resp :
  response_ok resp -> answers op resp ->
  exists args, encode_response 0 resp = to_le 4 0 ++ args /\ parses (response_body op) resp args.
Proof.
  intros Hr ->. unfold encode_response. cbn [Z.eqb]. unfold w_str. rewrite ?w_bytes_app.
  unfold w_i32, w_u64, w_u32. rewrite app_nil_l.
  destruct resp; cbn [response_ok] in Hr.
  10: { exists (to_le 4 status ++ le_bytes out). rewrite w_bytes_app, <- app_assoc. split; [done|].
        destruct Hr. eapply parses_bind; [by apply parses_i32|]. apply parses_map; eauto with cuda. }
  all: try rewrite <- app_assoc; eexists; (split; [reflexivity|]).
  all: try (apply parses_map; eauto 2 with cuda; fail).
  - apply parses_ret.
  - destruct Hr. eapply parses_bind; [by apply parses_u64|]. apply parses_map; eauto with cuda.
Qed.

Lemma decode_response_ok op resp :
  response_ok resp -> answers op resp -> len (encode_response 0 resp) <= MAX_MSG ->
  decode_response op (encode_response 0 resp) = Ok (0, resp).
Proof.
  intros Hr Ha Hlen. destruct (parses_response op resp Hr Ha) as (args & E & Hp).
  unfold decode_response.
  assert (H : reads (let# status := Cur.i32 in
        if negb (status =? 0) then ret (status, Response.Ok) else
        let# body := response_body op in ret (status, body)) (0, resp) (encode_response 0 resp)).
  { rewrite E. eapply reads_bind; [by apply (parses_i32 0)|]. cbn [Z.eqb negb].
    rewrite <- (app_nil_r args). eapply reads_bind; [apply Hp|]. apply reads_ret. }
  destruct (H [] [] []) as [rsv Eq].
  { rewrite app_nil_r. cbn [app]. unfold MAX_MSG, u_max in *. lia. }
  rewrite app_nil_r in Eq. cbn [app] in Eq. change (len []) with 0 in Eq.
  unfold Cur.new. by rewrite Eq.
Qed.

Lemma decode_response_err op status resp :
  is_i32 status -> status <> 0 ->
  decode_response op (encode_response status resp) = Ok (status, Response.Ok).
Proof.
  intros Hs Hne. unfold encode_response. destruct (status =? 0) eqn:E0; [bool_simpl; lia|].
  unfold decode_response.
  assert (H : reads (let# status := Cur.i32 in
        if negb (status =? 0) then ret (status, Response.Ok) else
        let# body := response_body op in ret (status, body)) (status, Response.Ok)
        (w_i32 status [])).
  { unfold w_i32. rewrite app_nil_l, <- (app_nil_r (to_le 4 status)).
    eapply reads_bind; [by apply parses_i32|]. rewrite E0. apply reads_ret. }
  destruct (H [] [] []) as [rsv Eq].
  { rewrite app_nil_r. unfold w_i32. rewrite !app_nil_l, len_to_le. done. }
  rewrite app_nil_r in Eq. cbn [app] in Eq. change (len []) with 0 in Eq.
  unfold Cur.new. by rewrite Eq.
Qed.

(** The answer to an opcode is decoded back when it has the
    shape that opcode is answered with; a failure status comes back alone,
    whatever body came with it. *)
Theorem response_roundtrip (op : Op.Op) (status : Z) (resp : Response.Response) :
  is_i32 status -> response_ok resp -> answers op resp ->
  len (encode_response status resp) <= MAX_MSG ->
  decode_response op (encode_response status resp) =
    Ok (status, if status =? 0 then resp else Response.Ok).
Proof.
  intros Hs Hr Ha Hlen. destruct (status =? 0) eqn:E; bool_simpl.
  - subst. by apply decode_response_ok.
  - by apply decode_response_err.
Qed.

Lemma response_roundtrip_witness :
  decode_response Op.MemGetInfo (encode_response 0 (Response.Pair 7 9)) = Ok (0, Response.Pair 7 9).
Proof.
  apply (response_roundtrip Op.MemGetInfo 0 (Response.Pair 7 9)); [|split| |];
    try done; vm_compute; repeat split; discriminate.
Defined.

(** ** Frames *)

Definition frame (p : bytes) : bytes := to_le 4 (len p) ++ p.

Lemma read_exact_split n s rest f :
  n = len s -> read_exact n (MkSource (s ++ rest) f) = (Ok s, MkSource rest f).
Proof.
  intros ->. unfold read_exact. cbn [src_data src_fault]. rewrite len_app.
  pose proof (len_nonneg rest). rewrite (proj2 (Z.leb_le _ _)) by lia.
  rewrite <- len_app, slice_from_app by done. f_equal. f_equal.
  rewrite slice_app_l by (pose proof (len_nonneg s); lia).
  by apply (slice_app_end [] s).
Qed.

Lemma length_prefix (p : bytes) : len p <= MAX_MSG -> from_le (to_le 4 (len p)) = len p.
Proof.
  intros Hp. apply from_to_le_small. pose proof (len_nonneg p). unfold MAX_MSG in Hp.
  unfold is_uint. change (2 ^ (8 * Z.of_nat 4)) with 4294967296. lia.
Qed.

Lemma read_msg_frame p rest f :
  len p <= MAX_MSG -> read_msg (MkSource (frame p ++ rest) f) = (Ok (Some p), MkSource rest f).
Proof.
  intros Hp. unfold read_msg, frame. rewrite <- app_assoc, read_exact_split by by rewrite len_to_le.
  rewrite length_prefix by done.
  destruct (_ >? _) eqn:E; [bool_simpl; lia|]. by rewrite read_exact_split.
Qed.

Lemma write_msg_frame p (w : list bytes) :
  len p <= MAX_MSG ->
  exists ws, write_msg p w = (Ok tt, w ++ ws) /\ mjoin ws = frame p /\
             (len p <= COALESCE_MAX -> ws = [frame p]).
Proof.
  intros Hp. pose proof (len_nonneg p). unfold write_msg.
  destruct (_ >? _) eqn:E; [bool_simpl; lia|].
  unfold wrap. rewrite Z.mod_small by (unfold MAX_MSG in *; lia).
  destruct (len p <=? COALESCE_MAX) eqn:Ec; bool_simpl; cbn.
  - exists [frame p]. cbn. by rewrite app_nil_r.
  - exists [to_le 4 (len p); p]. rewrite <- app_assoc. cbn. rewrite app_nil_r.
    repeat split; [done..|lia].
Qed.

(** A sender of several messages, and a reader of [n]. *)
Fixpoint write_msgs (ps : list bytes) (w : list bytes) : result unit IoError * list bytes :=
  match ps with
  | [] => (Ok tt, w)
  | p :: ps => then_ (write_msg p w) (write_msgs ps)
  end.
Fixpoint read_msgs (n : nat) (r : Source) : list (result (option bytes) IoError) * Source :=
  match n with
  | O => ([], r)
  | S n => let '(x, r) := read_msg r in let '(xs, r) := read_msgs n r in (x :: xs, r)
  end.

Lemma write_msgs_frames ps w :
  Forall (fun p => len p <= MAX_MSG) ps ->
  exists ws, write_msgs ps w = (Ok tt, w ++ ws) /\ mjoin ws = mjoin (frame <$> ps) /\
             (Forall (fun p => len p <= COALESCE_MAX) ps -> ws = frame <$> ps).
Proof.
  intros H. revert w. induction H as [|p ps Hp _ IH]; intros w; cbn [write_msgs].
  - exists []. by rewrite app_nil_r.
  - destruct (write_msg_frame p w Hp) as (ws & -> & Ej & Ec). cbn [then_].
    destruct (IH (w ++ ws)) as (ws2 & -> & Ej2 & Ec2). exists (ws ++ ws2).
    rewrite app_assoc, join_app, Ej, Ej2. repeat split; [done..|].
    intros Hc. inv Hc. by rewrite Ec, Ec2.
Qed.

Lemma read_msgs_frames ps rest f :
  Forall (fun p => len p <= MAX_MSG) ps ->
  read_msgs (length ps) (MkSource (mjoin (frame <$> ps) ++ rest) f) =
    ((fun p => Ok (Some p)) <$> ps, MkSource rest f).
Proof.
  induction 1 as [|p ps Hp _ IH]; cbn [read_msgs length]; [done|].
  change (mjoin (frame <$> p :: ps)) with (frame p ++ mjoin (frame <$> ps)).
  rewrite <- app_assoc, read_msg_frame by done. cbv beta iota. by rewrite IH.
Qed.

(** Messages written one after the other are read back one
    for one, in order, and leave what follows them unread; after the last, a
    closed stream reads as a clean end. A message of at most 64 KiB is one
    write. *)
Theorem frames_roundtrip (ps : list bytes) (f : option IoError) :
  Forall (fun p => len p <= MAX_MSG) ps ->
  exists ws, write_msgs ps [] = (Ok tt, ws) /\
    (forall rest, read_msgs (length ps) (MkSource (mjoin ws ++ rest) f) =
       ((fun p => Ok (Some p)) <$> ps, MkSource rest f)) /\
    (read_msgs (S (length ps)) (MkSource (mjoin ws) None)).1 =
       ((fun p => Ok (Some p)) <$> ps) ++ [Ok None] /\
    (Forall (fun p => len p <= COALESCE_MAX) ps -> ws = frame <$> ps).
Proof.
  intros H. destruct (write_msgs_frames ps [] H) as (ws & E & Ej & Ec). exists ws.
  split; [done|]. rewrite Ej. split; [intros rest; by apply read_msgs_frames|]. split.
  - assert (Hs : forall n r xs r', read_msgs n r = (xs, r') ->
      (read_msgs (S n) r).1 = xs ++ [(read_msg r').1]).
    { clear. induction n as [|n IH]; intros r xs r' E.
      - inv E. cbn. by destruct (read_msg r').
      - cbn [read_msgs] in E |- *. destruct (read_msg r) as [x r1].
        destruct (read_msgs n r1) as [ys r2] eqn:E2. inv E.
        specialize (IH r1 ys r' E2). cbn [read_msgs] in IH.
        destruct (read_msg r1) as [y r3]. destruct (read_msgs n r3). cbn in *. by rewrite IH. }
    erewrite Hs; [|rewrite <- (app_nil_r (mjoin _)); by apply read_msgs_frames]. done.
  - exact Ec.
Qed.

Lemma frames_roundtrip_witness :
  exists ws, write_msgs [[1; 2]; []] [] = (Ok tt, ws) /\
    (read_msgs 3 (MkSource (mjoin ws) None)).1 = [Ok (Some [1; 2]); Ok (Some []); Ok None].
Proof.
  assert (H : Forall (fun p => len p <= MAX_MSG) [[1; 2]; []])
    by (repeat constructor; vm_compute; discriminate).
  destruct (frames_roundtrip [[1; 2]; []] None H) as (ws & E & _ & Hr & _). eauto.
Defined.

(** The preamble of a forked clone's connection is never
    taken for a message: whatever follows it, it reads as an oversized frame,
    and no message that [write_msg] sends begins with it. *)
Theorem preamble_unambiguous (rest p : bytes) (f : option IoError) :
  (read_msg (MkSource (CLONE_PREAMBLE_MAGIC ++ rest) f)).1 =
    Err (IoErr InvalidData "message too large") /\
  forall w, write_msg p [] = (Ok tt, w) -> take 8 (mjoin w) <> CLONE_PREAMBLE_MAGIC.
Proof.
  split.
  - unfold read_msg. change (CLONE_PREAMBLE_MAGIC ++ rest)
      with ([83; 77; 86; 67] ++ ([76; 78; 2; 0] ++ rest)).
    by rewrite read_exact_split.
  - intros w Hw Heq. destruct (decide (len p <= MAX_MSG)) as [Hp|Hp].
    2: { unfold write_msg in Hw. destruct (_ >? _) eqn:E; [done|bool_simpl; lia]. }
    destruct (write_msg_frame p [] Hp) as (ws & E & Ej & _). rewrite Hw in E. inv E.
    rewrite Ej in Heq. apply (f_equal (fun l => from_le (take 4 l))) in Heq.
    unfold frame in Heq. rewrite take_take, take_app_le in Heq by (rewrite length_to_le; lia).
    rewrite take_ge in Heq by (rewrite length_to_le; lia).
    rewrite length_prefix in Heq by done.
    rewrite Heq in Hp. by vm_compute in Hp.
Qed.

(** Unlike what its documentation says of a truncated
    frame, a stream cut inside the four length bytes reads as a clean end of
    the connection. *)
Theorem short_length_reads_clean (part : bytes) :
  0 < len part < 4 -> (read_msg (MkSource part None)).1 = Ok None.
Proof.
  intros H. unfold read_msg, read_exact. cbn [src_data src_fault].
  by rewrite (proj2 (Z.leb_gt _ _)) by lia.
Qed.

Lemma short_length_reads_clean_witness : (read_msg (MkSource [5; 0; 0] None)).1 = Ok None.
Proof. by apply (short_length_reads_clean [5; 0; 0]); vm_compute. Defined.
End ProtoProps.
