(* ===== verification/CudaPipe.v ===== *)
(** * The CUDA request pipeline over a socket

    [src/crates/smolvm-cuda/src/client.rs] (the guest's [Client]: deferred
    requests, the write buffer, the replay journal, transparent graph segments,
    fences, synchronization elision) and [src/crates/smolvm-cuda/src/host.rs]
    ([dispatch_quiet] and [serve_inner], the host's loop over one connection).

    The two ends are one [World]: the client, the bytes in flight each way, and
    the host. What the host does with a request, [dispatch] and the mapping of
    ring pages, are parameters. The host runs when the client waits for a
    response: it serves every complete frame it has been sent, in order. It
    reads and writes nothing else, so serving earlier makes no difference
    ([serve_app] in [CudaPipeFacts]). The model is of the socket transport
    ([ring] and [bridge] are [None]); the hooks a bridged shim calls on the
    client that owns the connection, [raw_quiet] and [raw_call], are modelled. *)

From S2P Require Import Prelude RustStr CudaProto.

Module Pipe.
Import Str Proto.

(** The opcode of a request, as [call]'s callers pass it. *)
Definition op_of (req : Request.Request) : Op.Op :=
  default Op.Init (Op.from_u8 (at_ (encode_request req) 0)).

Inductive CudaRpcError :=
| Io (e : IoError)
| Cuda (code : Z)
| Protocol (msg : string)
| Blocked. (** not of the source: the value of a read that never returns *)

(** ** The host *)

Section Pipe.
Context {Sess : Type}.
Variable dispatch : Sess -> Request.Request -> (Z * Response.Response) * Sess.
(** [HostRings::map] or [map_file]: the code of its error, if it fails. *)
Variable ring_map : Sess -> Request.Request -> option Z.
(** [SMOLVM_CUDA_SYNC_OPS]. *)
Variable sync_forced : Request.Request -> Op.Op -> bool.

Record Host := MkHost { h_sess : Sess; quiet_sticky : Z }.

Definition dispatch_quiet (req : Request.Request) (h : Host) : (Z * Response.Response) * Host :=
  if negb (quiet_sticky h =? 0) then ((quiet_sticky h, Response.Ok), h) else
  let '(r, s) := dispatch (h_sess h) req in
  (r, MkHost s (if negb (r.1 =? 0) then r.1 else quiet_sticky h)).

Inductive Served :=
| Next (out : bytes) (h : Host)
| Upgrade (out : bytes) (h : Host)
| Failed (e : IoError) (h : Host).

(** [write_msg(&mut stream, bytes)?], then on to [k]. *)
Definition respond (payload : bytes) (k : bytes -> Host -> Served) (h : Host) : Served :=
  match write_msg payload [] with
  | (Ok _, w) => k (mjoin w) h
  | (Err e, _) => Failed e h
  end.

Definition is_ring_setup (req : Request.Request) : bool :=
  match req with Request.RingSetup _ _ _ _ | Request.RingSetupFile _ _ _ _ _ => true | _ => false end.

(** One turn of [serve_inner]'s loop. *)
Definition serve_payload (payload : bytes) (h : Host) : Served :=
  let sync (_ : unit) :=
    match decode_request payload with
    | Err e => Failed e h
    | Ok req =>
        if is_ring_setup req then
          match ring_map (h_sess h) req with
          | None => respond (encode_response 0 Response.Ok) Upgrade h
          | Some code => respond (encode_response code Response.Ok) Next h
          end
        else
          let '((status, resp), s) := dispatch (h_sess h) req in
          respond (encode_response status resp) Next (MkHost s (quiet_sticky h))
    end in
  match payload with
  | first :: rest =>
      if first =? QUIET_PREFIX then
        match decode_request rest with
        | Err e => Failed e h
        | Ok req => Next [] (dispatch_quiet req h).2
        end
      else if (first =? FENCE_OP) && (len payload =? 1) then
        respond (encode_response (quiet_sticky h) Response.Ok) Next (MkHost (h_sess h) 0)
      else sync tt
  | [] => sync tt
  end.

(** [read_exact] would return without waiting for more input. *)
Definition frame_ready (inp : bytes) : bool :=
  (4 <=? len inp) &&
  (let n := from_le (slice inp 0 4) in (n >? MAX_MSG) || (4 + n <=? len inp)).

(** How the loop stands: waiting for a frame, over, or moved to the rings. *)
Inductive Loop := Waiting | Over (e : option IoError) | OnRings.

Record Conn := MkConn { c_host : Host; c_up : bytes; c_down : bytes; c_loop : Loop }.

(** [serve_inner], as far as the bytes received allow. A frame takes at least
    four bytes, so the fuel [length (c_up c)] is never exhausted. *)
Fixpoint serve_inner (fuel : nat) (c : Conn) : Conn :=
  match fuel, c_loop c with
  | S fuel, Waiting =>
      if frame_ready (c_up c) then
        match read_msg (MkSource (c_up c) None) with
        | (Ok (Some payload), r) =>
            match serve_payload payload (c_host c) with
            | Next out h => serve_inner fuel (MkConn h (src_data r) (c_down c ++ out) Waiting)
            | Upgrade out h => MkConn h (src_data r) (c_down c ++ out) OnRings
            | Failed e h => MkConn h (src_data r) (c_down c) (Over (Some e))
            end
        | (Ok None, r) => MkConn (c_host c) (src_data r) (c_down c) (Over None)
        | (Err e, r) => MkConn (c_host c) (src_data r) (c_down c) (Over (Some e))
        end
      else c
  | _, _ => c
  end.

Definition serve (c : Conn) : Conn := serve_inner (length (c_up c)) c.

(** ** The client *)

Record Client := MkClient {
  deferred : Z;
  sticky : Z;
  defer_enabled : bool;
  clean : bool;
  clean_all : bool;
  clean_stream : Z;
  wbuf : bytes;
  journal : list bytes;
  auto_graph : bool;
  auto_ops : list bytes;
  auto_bytes : Z;
  explicit_capture_depth : Z;
}.

Definition MAX_DEFERRED : Z := 512.
Definition WBUF_FLUSH : Z := 256 * 1024.
Definition AUTO_SEGMENT_MAX_OPS : Z := 256.
Definition AUTO_SEGMENT_MAX_BYTES : Z := 128 * 1024.

Definition auto_graph_eligible (req : Request.Request) : bool :=
  match req with
  | Request.LaunchKernel _ _ _ _ _ _ | Request.LaunchKernelPacked _ _ _ _ _ _
  | Request.LibCall _ _ _ | Request.MemsetD8Async _ _ _ _ | Request.MemcpyDtoDAsync _ _ _ _ => true
  | _ => false
  end.

(** [Client::new], with the two environment switches. *)
Definition new (async auto : bool) : Client := {|
  deferred := 0; sticky := 0; defer_enabled := async;
  clean := false; clean_all := false; clean_stream := 0;
  wbuf := []; journal := [];
  auto_graph := auto; auto_ops := []; auto_bytes := 0; explicit_capture_depth := 0;
|}.

(** The transport under the client: a live connection; one that swallows
    writes and delivers nothing, as a forked clone inherits; a broken one. *)
Inductive Link := Live (c : Conn) | Swallowing | Broken (e : IoError).

Record World := MkWorld { cl : Client; link : Link }.

Definition C (A : Type) : Type := World -> result A CudaRpcError * World.

Definition cret {A} (x : A) : C A := fun w => (Ok x, w).
Definition cfail {A} (e : CudaRpcError) : C A := fun w => (Err e, w).
Definition cbind {A B} (m : C A) (k : A -> C B) : C B :=
  fun w => match m w with (Ok x, w) => k x w | (Err e, w) => (Err e, w) end.
Definition self : C Client := fun w => (Ok (cl w), w).
Definition set (f : Client -> Client) : C unit := fun w => (Ok tt, MkWorld (f (cl w)) (link w)).
(** [let _ = m;]: the error is dropped. *)
Definition ignore {A} (m : C A) : C unit := fun w => (Ok tt, (m w).2).

End Pipe.

Notation "'let@' x ':=' e 'in' k" := (cbind e (fun x => k))
  (at level 10, x pattern, e at level 200, k at level 200,
   format "'[v' 'let@'  x  ':='  e  'in' '/' k ']'") : cuda_scope.

Arguments Host : clear implicits.
Arguments Served : clear implicits.
Arguments Conn : clear implicits.
Arguments Link : clear implicits.
Arguments World : clear implicits.
Arguments C : clear implicits.

(** Field updates. *)
Definition set_deferred (v : Z) (c : Client) : Client := {|
  deferred := v; sticky := sticky c; defer_enabled := defer_enabled c; clean := clean c;
  clean_all := clean_all c; clean_stream := clean_stream c; wbuf := wbuf c; journal := journal c;
  auto_graph := auto_graph c; auto_ops := auto_ops c; auto_bytes := auto_bytes c;
  explicit_capture_depth := explicit_capture_depth c |}.
Definition set_sticky (v : Z) (c : Client) : Client := {|
  deferred := deferred c; sticky := v; defer_enabled := defer_enabled c; clean := clean c;
  clean_all := clean_all c; clean_stream := clean_stream c; wbuf := wbuf c; journal := journal c;
  auto_graph := auto_graph c; auto_ops := auto_ops c; auto_bytes := auto_bytes c;
  explicit_capture_depth := explicit_capture_depth c |}.
Definition set_clean (v : bool) (c : Client) : Client := {|
  deferred := deferred c; sticky := sticky c; defer_enabled := defer_enabled c; clean := v;
  clean_all := clean_all c; clean_stream := clean_stream c; wbuf := wbuf c; journal := journal c;
  auto_graph := auto_graph c; auto_ops := auto_ops c; auto_bytes := auto_bytes c;
  explicit_capture_depth := explicit_capture_depth c |}.
Definition set_synced (all : bool) (stream : Z) (c : Client) : Client := {|
  deferred := deferred c; sticky := sticky c; defer_enabled := defer_enabled c; clean := true;
  clean_all := all; clean_stream := stream; wbuf := wbuf c; journal := journal c;
  auto_graph := auto_graph c; auto_ops := auto_ops c; auto_bytes := auto_bytes c;
  explicit_capture_depth := explicit_capture_depth c |}.
Definition set_wbuf (v : bytes) (c : Client) : Client := {|
  deferred := deferred c; sticky := sticky c; defer_enabled := defer_enabled c; clean := clean c;
  clean_all := clean_all c; clean_stream := clean_stream c; wbuf := v; journal := journal c;
  auto_graph := auto_graph c; auto_ops := auto_ops c; auto_bytes := auto_bytes c;
  explicit_capture_depth := explicit_capture_depth c |}.
Definition set_journal (v : list bytes) (c : Client) : Client := {|
  deferred := deferred c; sticky := sticky c; defer_enabled := defer_enabled c; clean := clean c;
  clean_all := clean_all c; clean_stream := clean_stream c; wbuf := wbuf c; journal := v;
  auto_graph := auto_graph c; auto_ops := auto_ops c; auto_bytes := auto_bytes c;
  explicit_capture_depth := explicit_capture_depth c |}.
Definition set_auto (ops : list bytes) (n : Z) (c : Client) : Client := {|
  deferred := deferred c; sticky := sticky c; defer_enabled := defer_enabled c; clean := clean c;
  clean_all := clean_all c; clean_stream := clean_stream c; wbuf := wbuf c; journal := journal c;
  auto_graph := auto_graph c; auto_ops := ops; auto_bytes := n;
  explicit_capture_depth := explicit_capture_depth c |}.
Definition set_depth (v : Z) (c : Client) : Client := {|
  deferred := deferred c; sticky := sticky c; defer_enabled := defer_enabled c; clean := clean c;
  clean_all := clean_all c; clean_stream := clean_stream c; wbuf := wbuf c; journal := journal c;
  auto_graph := auto_graph c; auto_ops := auto_ops c; auto_bytes := auto_bytes c;
  explicit_capture_depth := v |}.
Definition set_defer (on : bool) (c : Client) : Client := {|
  deferred := deferred c; sticky := sticky c; defer_enabled := on; clean := clean c;
  clean_all := clean_all c; clean_stream := clean_stream c; wbuf := wbuf c; journal := journal c;
  auto_graph := (if on then auto_graph c else false); auto_ops := auto_ops c;
  auto_bytes := auto_bytes c; explicit_capture_depth := explicit_capture_depth c |}.

(** ** The client's operations *)

Section Client.
Context {Sess : Type}.
Variable dispatch : Sess -> Request.Request -> (Z * Response.Response) * Sess.
Variable ring_map : Sess -> Request.Request -> option Z.
Variable sync_forced : Request.Request -> Op.Op -> bool.

Notation C := (C Sess).

(** [stream.write_all(bytes)?; stream.flush()?]. *)
Definition stream_write (bs : bytes) : C unit := fun w =>
  match link w with
  | Live c => (Ok tt, MkWorld (cl w) (Live (MkConn (c_host c) (c_up c ++ bs) (c_down c) (c_loop c))))
  | Swallowing => (Ok tt, w)
  | Broken e => (Err (Io e), w)
  end.

(** [write_msg(&mut self.stream, payload)?]. *)
Definition stream_write_msg (payload : bytes) : C unit := fun w =>
  match write_msg payload [] with
  | (Ok _, log) => stream_write (mjoin log) w
  | (Err e, _) => (Err (Io e), w)
  end.

(** [read_msg(&mut self.stream)?.ok_or(Protocol(closed))?]: the host serves
    what it has been sent, then its answer is read. *)
Definition stream_read_msg (closed : string) : C bytes := fun w =>
  match link w with
  | Live c =>
      let c := serve dispatch ring_map c in
      let w := MkWorld (cl w) (Live c) in
      if negb (frame_ready (c_down c)) && match c_loop c with Over _ => false | _ => true end
      then (Err Blocked, w) else
      match read_msg (MkSource (c_down c) None) with
      | (r, src) =>
          let w := MkWorld (cl w) (Live (MkConn (c_host c) (c_up c) (src_data src) (c_loop c))) in
          match r with
          | Ok (Some p) => (Ok p, w)
          | Ok None => (Err (Protocol closed), w)
          | Err e => (Err (Io e), w)
          end
      end
  | Swallowing => (Err (Protocol closed), w)
  | Broken e => (Err (Io e), w)
  end.

Definition flush_wbuf : C unit :=
  let@ c := self in
  if is_empty (wbuf c) then cret tt else
  let@ _ := stream_write (wbuf c) in
  set (set_wbuf []).

(** The frame of [QUIET_PREFIX] and a payload, or of a lone fence. *)
Definition batch_frame (payload : bytes) : bytes := to_le 4 (wrap 32 (len payload)) ++ payload.

(** [if st != 0 && self.sticky == 0 { self.sticky = st }]. *)
Definition collect (st : Z) : C unit :=
  let@ c := self in
  if negb (st =? 0) && (sticky c =? 0) then set (set_sticky st) else cret tt.

(** The status in front of a response payload, when it has one. *)
Definition collect_payload (payload : bytes) : C unit :=
  if 4 <=? len payload then collect (as_i32 (from_le (slice payload 0 4))) else cret tt.

Definition take_sticky : C Z :=
  let@ c := self in let@ _ := set (set_sticky 0) in cret (sticky c).

Definition take_auto_payloads (c : Client) : list bytes * Client :=
  match auto_ops c with
  | [] => ([], set_auto [] 0 c)
  | [op] => ([op], set_auto [] 0 c)
  | ops => ([encode_request (Request.AutoGraphSegment ops)], set_auto [] 0 c)
  end.

(** [enqueue_quiet_direct], [flush_auto_segment] and [drain] call each other:
    a full pipeline drains, a drain flushes the pending segment, and a segment
    is enqueued. The segment is taken before it is enqueued, so the recursion
    stops at the second drain; [fuel] counts the enqueues. *)
Section Drain.
Variable enqueue : bytes -> C unit.

Fixpoint enqueue_all (ps : list bytes) : C unit :=
  match ps with
  | [] => cret tt
  | p :: ps => let@ _ := enqueue p in enqueue_all ps
  end.

Definition flush_auto_with : C unit :=
  let@ c := self in
  let '(ps, c) := take_auto_payloads c in
  let@ _ := set (fun _ => c) in
  enqueue_all ps.

Definition drain_with : C unit :=
  let@ _ := flush_auto_with in
  let@ c := self in
  if deferred c =? 0 then flush_wbuf else
  let@ _ := set (set_deferred 0) in
  let@ _ := set (fun c => set_wbuf (wbuf c ++ batch_frame [FENCE_OP]) c) in
  let@ _ := flush_wbuf in
  let@ payload := stream_read_msg "host closed mid-fence" in
  let@ _ := set (set_journal []) in
  collect_payload payload.
End Drain.

Fixpoint enqueue_direct (fuel : nat) (payload : bytes) : C unit :=
  match fuel with
  | O => cfail (Protocol "out of fuel")
  | S fuel =>
      let@ c := self in
      let@ _ := if MAX_DEFERRED <=? deferred c then drain_with (enqueue_direct fuel) else cret tt in
      let@ c := self in
      if negb (sticky c =? 0) then
        let@ code := take_sticky in cfail (Cuda code)
      else
        let@ _ := set (fun c => set_wbuf (wbuf c ++ batch_frame (QUIET_PREFIX :: payload)) c) in
        let@ _ := set (fun c => set_journal (journal c ++ [payload]) c) in
        let@ _ := set (fun c => set_deferred (deferred c + 1) c) in
        let@ c := self in
        if WBUF_FLUSH <=? len (wbuf c) then ignore flush_wbuf else cret tt
  end.

Definition enqueue_quiet_direct : bytes -> C unit := enqueue_direct 3.
Definition flush_auto_segment : C unit := flush_auto_with enqueue_quiet_direct.
Definition drain : C unit := drain_with enqueue_quiet_direct.

Definition enqueue_quiet (payload : bytes) : C unit :=
  let@ c := self in
  if auto_graph c then
    let other (_ : unit) :=
      let@ _ := flush_auto_segment in enqueue_quiet_direct payload in
    match decode_request payload with
    | Ok req =>
        match req with
        | Request.StreamBeginCapture _ _ =>
            let@ _ := flush_auto_segment in
            let@ _ := enqueue_quiet_direct payload in
            set (fun c => set_depth (saturating_add 64 (explicit_capture_depth c) 1) c)
        | _ =>
            if (explicit_capture_depth c =? 0) && auto_graph_eligible req then
              let@ _ := set (fun c => set_auto (auto_ops c ++ [payload])
                                        (saturating_add 64 (auto_bytes c) (len payload)) c) in
              let@ c := self in
              if (AUTO_SEGMENT_MAX_OPS <=? len (auto_ops c)) ||
                 (AUTO_SEGMENT_MAX_BYTES <=? auto_bytes c)
              then flush_auto_segment else cret tt
            else other tt
        end
    | Err _ => other tt
    end
  else enqueue_quiet_direct payload.

(** The operations after which a settled stream is still settled. *)
Definition keeps_clean (op : Op.Op) : bool :=
  match op with
  | Op.StreamSynchronize | Op.CtxSynchronize | Op.EventSynchronize | Op.DeviceGetCount
  | Op.DeviceGetName | Op.DeviceTotalMem | Op.DriverGetVersion | Op.DeviceGetAttribute
  | Op.DeviceGetUuid | Op.DeviceGetPciBusId | Op.DeviceGetByPciBusId | Op.ModuleGetFunction
  | Op.FuncGetParamInfo | Op.FuncGetAttribute | Op.MemAlloc | Op.MemFree | Op.MemGetInfo
  | Op.MemcpyDtoH | Op.MemcpyShmDtoH | Op.MemcpyGpaDtoH | Op.StreamQuery | Op.EventQuery
  | Op.EventCreate | Op.EventCreateBatch | Op.EventDestroy | Op.EventElapsedTime
  | Op.CtxGetStreamPriorityRange | Op.StreamCaptureInfo => true
  | _ => false
  end.

(** [flush_wbuf()?; write_msg(payload)?; read_msg()?; journal.clear()]. *)
Definition round_trip (payload : bytes) : C bytes :=
  let@ _ := flush_wbuf in
  let@ _ := stream_write_msg payload in
  let@ p := stream_read_msg "host closed mid-call" in
  let@ _ := set (set_journal []) in
  cret p.

Definition call (req : Request.Request) (op : Op.Op) : C Response.Response :=
  let@ _ := flush_auto_segment in
  let@ _ := if keeps_clean op then cret tt else set (set_clean false) in
  let@ payload := round_trip (encode_request req) in
  let@ (status, resp) :=
    match decode_response op payload with Ok x => cret x | Err e => cfail (Io e) end in
  let@ _ := match req with
            | Request.StreamBeginCapture _ _ =>
                if status =? 0
                then set (fun c => set_depth (saturating_add 64 (explicit_capture_depth c) 1) c)
                else cret tt
            | Request.StreamEndCapture _ _ =>
                set (fun c => set_depth (saturating_sub (explicit_capture_depth c) 1) c)
            | _ => cret tt
            end in
  if negb (status =? 0) then cfail (Cuda status) else cret resp.

Definition call_deferred (req : Request.Request) (op : Op.Op) : C unit :=
  let@ _ := set (set_clean false) in
  let@ c := self in
  if negb (defer_enabled c) || sync_forced req op then
    let@ _ := call req op in cret tt
  else enqueue_quiet (encode_request req).

Definition is_begin_capture (payload : bytes) : bool :=
  match decode_request payload with Ok (Request.StreamBeginCapture _ _) => true | _ => false end.
Definition is_end_capture (payload : bytes) : bool :=
  match decode_request payload with Ok (Request.StreamEndCapture _ _) => true | _ => false end.

(** The depth goes down whether or not the round trip succeeded. *)
Definition raw_call (payload : bytes) : C bytes :=
  let@ _ := set (set_clean false) in
  let@ _ := flush_auto_segment in
  fun w =>
    let '(r, w) := round_trip payload w in
    if is_end_capture payload
    then (r, MkWorld (set_depth (saturating_sub (explicit_capture_depth (cl w)) 1) (cl w)) (link w))
    else (r, w).

Definition raw_quiet (payload : bytes) : C unit :=
  let@ _ := set (set_clean false) in
  let@ c := self in
  if negb (defer_enabled c) then
    let@ resp := raw_call payload in collect_payload resp
  else
    let@ _ := flush_auto_segment in
    let@ _ := if is_begin_capture payload
              then set (fun c => set_depth (saturating_add 64 (explicit_capture_depth c) 1) c)
              else cret tt in
    enqueue_quiet_direct payload.

Definition set_defer_enabled (on : bool) : C unit := set (set_defer on).

(** ** Synchronization *)

Definition surface : C unit :=
  let@ code := take_sticky in
  if code =? 0 then cret tt else cfail (Cuda code).

Definition ctx_synchronize : C unit :=
  let@ c := self in
  if clean c && clean_all c && (sticky c =? 0) then cret tt else
  let@ _ := drain in
  let@ _ := call Request.CtxSynchronize Op.CtxSynchronize in
  let@ _ := set (fun c => set_synced true (clean_stream c) c) in
  surface.

Definition stream_synchronize (stream : Z) : C unit :=
  let@ c := self in
  if clean c && (sticky c =? 0) && (clean_all c || (clean_stream c =? stream)) then cret tt else
  let@ _ := drain in
  let@ _ := call (Request.StreamSynchronize stream) Op.StreamSynchronize in
  let@ _ := set (fun c => set_synced false stream c) in
  surface.

(** ** Reconnecting *)

Definition take_journal (c : Client) : (list bytes * Z) * Client :=
  let '(pending, c) := take_auto_payloads c in
  ((journal c ++ pending, sticky c),
   set_journal [] (set_wbuf [] (set_deferred 0 (set_sticky 0 c)))).

Definition replay_journal (ops : list bytes) (st : Z) : C unit :=
  let@ c := self in
  let@ _ := if sticky c =? 0 then set (set_sticky st) else cret tt in
  enqueue_all enqueue_quiet ops.

End Client.

End Pipe.
