(* ===== verification/CudaPipeSpec.v ===== *)
(** * What the CUDA request pipeline computes

    The specification of [CudaPipe]: the same operations on a host that is a
    function call away. There are no bytes, frames, buffers or responses in
    flight here; a deferred request reaches the host when it is accepted, and
    [unproven] is simply the list of those no response has covered yet. The
    refinement of [CudaPipeFacts] relates a world to the state the host will
    have reached once it has read everything sent to it. *)

From S2P Require Import Prelude RustStr CudaProto CudaProtoFacts CudaPipe.

Module PipeSpec.
Import Proto ProtoFacts Pipe.

Section Spec.
Context {Sess : Type}.
Variable dispatch : Sess -> Request.Request -> (Z * Response.Response) * Sess.
Variable sync_forced : Request.Request -> Op.Op -> bool.

Record Spec := MkSpec {
  s_host : Host Sess;
  s_deferred : Z;               (** requests since the last fence *)
  s_sticky : Z;                 (** failure collected by a fence, not yet surfaced *)
  s_unproven : list Request.Request;  (** deferred since the last response *)
  s_pend : list Request.Request;      (** held back for one graph segment *)
  s_depth : Z;
  s_defer : bool;
  s_auto : bool;
  s_clean : bool * bool * Z;
}.

Definition upd_host h s := MkSpec h (s_deferred s) (s_sticky s) (s_unproven s) (s_pend s) (s_depth s) (s_defer s) (s_auto s) (s_clean s).
Definition upd_deferred v s := MkSpec (s_host s) v (s_sticky s) (s_unproven s) (s_pend s) (s_depth s) (s_defer s) (s_auto s) (s_clean s).
Definition upd_sticky v s := MkSpec (s_host s) (s_deferred s) v (s_unproven s) (s_pend s) (s_depth s) (s_defer s) (s_auto s) (s_clean s).
Definition upd_unproven v s := MkSpec (s_host s) (s_deferred s) (s_sticky s) v (s_pend s) (s_depth s) (s_defer s) (s_auto s) (s_clean s).
Definition upd_pend v s := MkSpec (s_host s) (s_deferred s) (s_sticky s) (s_unproven s) v (s_depth s) (s_defer s) (s_auto s) (s_clean s).
Definition upd_depth v s := MkSpec (s_host s) (s_deferred s) (s_sticky s) (s_unproven s) (s_pend s) v (s_defer s) (s_auto s) (s_clean s).
Definition upd_clean v s := MkSpec (s_host s) (s_deferred s) (s_sticky s) (s_unproven s) (s_pend s) (s_depth s) (s_defer s) (s_auto s) v.

Definition dirty (s : Spec) : Spec := upd_clean (false, (s_clean s).1.2, (s_clean s).2) s.

Definition P (A : Type) : Type := Spec -> result A CudaRpcError * Spec.
Definition pret {A} (x : A) : P A := fun s => (Ok x, s).
Definition pfail {A} (e : CudaRpcError) : P A := fun s => (Err e, s).
Definition pbind {A B} (m : P A) (k : A -> P B) : P B :=
  fun s => match m s with (Ok x, s) => k x s | (Err e, s) => (Err e, s) end.
Definition pset (f : Spec -> Spec) : P unit := fun s => (Ok tt, f s).

End Spec.

Notation "'let$' x ':=' e 'in' k" := (pbind e (fun x => k))
  (at level 10, x pattern, e at level 200, k at level 200,
   format "'[v' 'let$'  x  ':='  e  'in' '/' k ']'") : cuda_scope.

Arguments Spec : clear implicits.
Arguments P : clear implicits.

Section Ops.
Context {Sess : Type}.
Variable dispatch : Sess -> Request.Request -> (Z * Response.Response) * Sess.
Variable sync_forced : Request.Request -> Op.Op -> bool.
Notation P := (P Sess).

(** A fence: the host's held failure moves to the client, unless one waits there. *)
Definition spec_fence : P unit := fun s =>
  if s_deferred s =? 0 then (Ok tt, s) else
  let st := quiet_sticky (s_host s) in
  let s := upd_unproven [] (upd_deferred 0 (upd_host (MkHost (h_sess (s_host s)) 0) s)) in
  (Ok tt, if negb (st =? 0) && (s_sticky s =? 0) then upd_sticky st s else s).

Definition spec_direct (req : Request.Request) : P unit :=
  let$ _ := fun s => if MAX_DEFERRED <=? s_deferred s then spec_fence s else (Ok tt, s) in
  fun s =>
  if negb (s_sticky s =? 0) then (Err (Cuda (s_sticky s)), upd_sticky 0 s) else
  (Ok tt, upd_unproven (s_unproven s ++ [req]) (upd_deferred (s_deferred s + 1)
            (upd_host (dispatch_quiet dispatch req (s_host s)).2 s))).

(** A segment of one request is that request. *)
Definition segment (rs : list Request.Request) : list Request.Request :=
  match rs with
  | [] => []
  | [r] => [r]
  | rs => [Request.AutoGraphSegment (encode_request <$> rs)]
  end.

Fixpoint spec_all (f : Request.Request -> P unit) (rs : list Request.Request) : P unit :=
  match rs with [] => pret tt | r :: rs => let$ _ := f r in spec_all f rs end.

Definition spec_flush : P unit := fun s => spec_all spec_direct (segment (s_pend s)) (upd_pend [] s).

Definition spec_drain : P unit := let$ _ := spec_flush in spec_fence.

Definition payload_bytes (rs : list Request.Request) : Z :=
  foldr (fun r n => len (encode_request r) + n) 0 rs.

Definition deeper (s : Spec Sess) : Spec Sess := upd_depth (saturating_add 64 (s_depth s) 1) s.
Definition shallower (s : Spec Sess) : Spec Sess := upd_depth (saturating_sub (s_depth s) 1) s.

Definition is_begin (req : Request.Request) : bool :=
  match req with Request.StreamBeginCapture _ _ => true | _ => false end.
Definition is_end (req : Request.Request) : bool :=
  match req with Request.StreamEndCapture _ _ => true | _ => false end.

Definition spec_quiet (req : Request.Request) : P unit := fun s =>
  if negb (s_auto s) then spec_direct req s else
  if is_begin req then
    (let$ _ := spec_flush in let$ _ := spec_direct req in pset deeper) s
  else if (s_depth s =? 0) && auto_graph_eligible req then
    let s := upd_pend (s_pend s ++ [req]) s in
    if (AUTO_SEGMENT_MAX_OPS <=? len (s_pend s)) ||
       (AUTO_SEGMENT_MAX_BYTES <=? payload_bytes (s_pend s))
    then spec_flush s else (Ok tt, s)
  else (let$ _ := spec_flush in spec_direct req) s.

(** One request and its answer. *)
Definition spec_round_trip (req : Request.Request) : P (Z * Response.Response) := fun s =>
  let '(r, sess) := dispatch (h_sess (s_host s)) req in
  (Ok r, upd_unproven [] (upd_host (MkHost sess (quiet_sticky (s_host s))) s)).

Definition spec_call (req : Request.Request) : P Response.Response :=
  let$ _ := spec_flush in
  let$ _ := pset (fun s => if keeps_clean (op_of req) then s else dirty s) in
  let$ (status, resp) := spec_round_trip req in
  let$ _ := pset (fun s => if is_begin req then (if status =? 0 then deeper s else s)
                           else if is_end req then shallower s else s) in
  if negb (status =? 0) then pfail (Cuda status) else pret resp.

Definition spec_deferred (req : Request.Request) : P unit :=
  let$ _ := pset dirty in
  fun s => if negb (s_defer s) || sync_forced req (op_of req)
           then (let$ _ := spec_call req in pret tt) s
           else spec_quiet req s.

Definition spec_raw_call (req : Request.Request) : P bytes :=
  let$ _ := pset dirty in
  let$ _ := spec_flush in
  let$ (status, resp) := spec_round_trip req in
  let$ _ := pset (fun s => if is_end req then shallower s else s) in
  pret (encode_response status resp).

Definition spec_collect (st : Z) : P unit := fun s =>
  (Ok tt, if negb (st =? 0) && (s_sticky s =? 0) then upd_sticky st s else s).

Definition spec_raw_quiet (req : Request.Request) : P unit :=
  let$ _ := pset dirty in
  fun s =>
  if negb (s_defer s) then
    (let$ payload := spec_raw_call req in
     spec_collect (as_i32 (from_le (slice payload 0 4)))) s
  else
    (let$ _ := spec_flush in
     let$ _ := pset (fun s => if is_begin req then deeper s else s) in
     spec_direct req) s.

Definition spec_surface : P unit := fun s =>
  (if s_sticky s =? 0 then Ok tt else Err (Cuda (s_sticky s)), upd_sticky 0 s).

Definition spec_ctx_synchronize : P unit := fun s =>
  if (s_clean s).1.1 && (s_clean s).1.2 && (s_sticky s =? 0) then (Ok tt, s) else
  (let$ _ := spec_drain in
   let$ _ := spec_call Request.CtxSynchronize in
   let$ _ := pset (fun s => upd_clean (true, true, (s_clean s).2) s) in
   spec_surface) s.

Definition spec_stream_synchronize (stream : Z) : P unit := fun s =>
  if (s_clean s).1.1 && (s_sticky s =? 0) && ((s_clean s).1.2 || ((s_clean s).2 =? stream))
  then (Ok tt, s) else
  (let$ _ := spec_drain in
   let$ _ := spec_call (Request.StreamSynchronize stream) in
   let$ _ := pset (upd_clean (true, false, stream)) in
   spec_surface) s.

(** ** Programs of client operations *)

Inductive ClientOp :=
| Call (req : Request.Request)
| Deferred (req : Request.Request)
| RawCall (req : Request.Request)
| RawQuiet (req : Request.Request)
| Drain
| TakeSticky
| CtxSynchronize
| StreamSynchronize (stream : Z).

Inductive Answer := AResp (r : Response.Response) | ABytes (b : bytes) | AStatus (z : Z) | AUnit.

Definition spec_op (op : ClientOp) : P Answer :=
  match op with
  | Call req => let$ r := spec_call req in pret (AResp r)
  | Deferred req => let$ _ := spec_deferred req in pret AUnit
  | RawCall req => let$ b := spec_raw_call req in pret (ABytes b)
  | RawQuiet req => let$ _ := spec_raw_quiet req in pret AUnit
  | Drain => let$ _ := spec_drain in pret AUnit
  | TakeSticky => fun s => (Ok (AStatus (s_sticky s)), upd_sticky 0 s)
  | CtxSynchronize => let$ _ := spec_ctx_synchronize in pret AUnit
  | StreamSynchronize stream => let$ _ := spec_stream_synchronize stream in pret AUnit
  end.

End Ops.

Section Run.
Context {Sess : Type}.
Variable dispatch : Sess -> Request.Request -> (Z * Response.Response) * Sess.
Variable ring_map : Sess -> Request.Request -> option Z.
Variable sync_forced : Request.Request -> Op.Op -> bool.

Definition client_op (op : ClientOp) : C Sess Answer :=
  match op with
  | Call req => let@ r := call dispatch ring_map req (op_of req) in cret (AResp r)
  | Deferred req =>
      let@ _ := call_deferred dispatch ring_map sync_forced req (op_of req) in cret AUnit
  | RawCall req => let@ b := raw_call dispatch ring_map (encode_request req) in cret (ABytes b)
  | RawQuiet req => let@ _ := raw_quiet dispatch ring_map (encode_request req) in cret AUnit
  | Drain => let@ _ := drain dispatch ring_map in cret AUnit
  | TakeSticky => let@ z := take_sticky in cret (AStatus z)
  | CtxSynchronize => let@ _ := ctx_synchronize dispatch ring_map in cret AUnit
  | StreamSynchronize stream => let@ _ := stream_synchronize dispatch ring_map stream in cret AUnit
  end.

(** A program runs on past the errors its operations return. *)
Fixpoint run_client (ops : list ClientOp) (w : World Sess) :
    list (result Answer CudaRpcError) * World Sess :=
  match ops with
  | [] => ([], w)
  | op :: ops =>
      let '(r, w) := client_op op w in
      let '(rs, w) := run_client ops w in (r :: rs, w)
  end.
Fixpoint run_spec (ops : list ClientOp) (s : Spec Sess) :
    list (result Answer CudaRpcError) * Spec Sess :=
  match ops with
  | [] => ([], s)
  | op :: ops =>
      let '(r, s) := spec_op dispatch sync_forced op s in
      let '(rs, s) := run_spec ops s in (r :: rs, s)
  end.

End Run.

End PipeSpec.
