(* ===== verification/CudaPipeFacts.v ===== *)
(** * The CUDA request pipeline refines its specification

    The two ends and the bytes between them, seen as the state the host will
    have reached: [R w s]. Each operation of the client keeps it and returns
    what the operation of the specification returns. *)

From S2P Require Import Prelude RustStr CudaProto CudaProtoFacts CudaProtoProps CudaPipe CudaPipeSpec.

Module PipeFacts.
Import Str Proto ProtoFacts ProtoProps Pipe PipeSpec.

(** ** Encodings *)

Lemma fmap_bytes {A} (enc : A -> bytes) (Q : A -> Prop) l :
  (forall x, Q x -> is_bytes (enc x)) -> Forall Q l -> is_bytes (mjoin (enc <$> l)).
Proof.
  intros He. induction 1 as [|x l Hx _ IH]; cbn; [constructor|].
  apply Forall_app. split; [by apply He|done].
Qed.

Lemma le_bytes_bytes v : is_vec v -> is_bytes (le_bytes v).
Proof. intros [H _]. apply Forall_app. split; [apply to_le_bytes|done]. Qed.
Lemma le_counted_bytes {A} (enc : A -> bytes) (Q : A -> Prop) l w :
  (forall x, Q x -> is_bytes (enc x)) -> is_list w Q l -> is_bytes (le_counted enc l).
Proof.
  intros He [_ Hl]. apply Forall_app. split; [apply to_le_bytes|by eapply fmap_bytes].
Qed.
Lemma le_pair_bytes x : is_bytes (le_pair x).
Proof. apply Forall_app. split; apply to_le_bytes. Qed.
Lemma le_access_bytes x : is_bytes (le_access x).
Proof. repeat (apply Forall_app; split); apply to_le_bytes. Qed.
Lemma le_dims_bytes d : is_bytes (le_dims d).
Proof. repeat (apply Forall_app; split); apply to_le_bytes. Qed.
Lemma byte_bytes v : is_uint 8 v -> is_bytes [v].
Proof. intros H. by apply List.Forall_cons. Qed.

Lemma op_bytes op : is_bytes [Op.as_u8 op].
Proof. apply byte_bytes. by destruct op. Qed.
Lemma bytes_app x y : is_bytes x -> is_bytes y -> is_bytes (x ++ y).
Proof. intros. by apply Forall_app. Qed.
Lemma str_vec v : is_str v -> is_vec v.
Proof. by intros []. Qed.

Lemma encode_bytes r : request_ok r -> is_bytes (encode_request r).
Proof.
  intros H. destruct r; cbn [request_ok] in H; destruct_and?; wire_norm.
  all: try rewrite (w_for_app _ (le_counted (to_le 8))) by (intros; by apply w_counted).
  all: repeat match goal with |- is_bytes (_ ++ _) => apply bytes_app end;
    auto using to_le_bytes, byte_bytes, le_dims_bytes, op_bytes, le_bytes_bytes, str_vec.
  all: try (eapply le_counted_bytes; [|eassumption];
    auto using le_pair_bytes, le_access_bytes, le_bytes_bytes).
  all: eapply (fmap_bytes _ (is_list 32 (is_uint 64)));
    [intros; eapply le_counted_bytes; [|eassumption]; auto using to_le_bytes|];
    by repeat apply List.Forall_cons.
Qed.

Lemma encode_head r : exists op rest, encode_request r = Op.as_u8 op :: rest.
Proof.
  destruct r; wire_norm;
    try rewrite (w_for_app _ (le_counted (to_le 8))) by (intros; by apply w_counted);
    eexists _, _; reflexivity.
Qed.

Lemma encode_op r : exists rest, encode_request r = Op.as_u8 (op_of r) :: rest.
Proof.
  destruct (encode_head r) as (op & rest & E). exists rest. unfold op_of. rewrite E.
  change (at_ (Op.as_u8 op :: rest) 0) with (Op.as_u8 op). by rewrite Op.from_as_u8.
Qed.

(** No opcode is the quiet prefix or the fence. *)
Lemma op_not_control op : Op.as_u8 op =? QUIET_PREFIX = false /\ Op.as_u8 op =? FENCE_OP = false.
Proof. by destruct op. Qed.

(** ** The host's loop, frame by frame *)

(** What a host promises a client: from an invariant state, statuses are
    [CUresult]s, a successful answer has the shape of its request, and the
    answer to a request of the client's own making fits a frame. *)
Definition answerable (r : Request.Request) : Prop :=
  match r with Request.MemcpyDtoH _ n _ => n <= 64 * 1024 * 1024 | _ => True end.

Class Answering {Sess} (dispatch : Sess -> Request.Request -> (Z * Response.Response) * Sess) := {
  host_ok : Sess -> Prop;
  host_answers s req : host_ok s -> request_ok req ->
    let '((status, resp), s') := dispatch s req in
    is_i32 status /\ host_ok s' /\
    (answerable req -> len (encode_response status resp) <= MAX_MSG) /\
    (status = 0 -> response_ok resp /\ answers (op_of req) resp);
}.
Arguments host_ok {Sess} dispatch {_} _.
#[global] Hint Mode Answering - ! : typeclass_instances.

Section Refine.
Context {Sess : Type}.
Variable dispatch : Sess -> Request.Request -> (Z * Response.Response) * Sess.
Variable ring_map : Sess -> Request.Request -> option Z.
Variable sync_forced : Request.Request -> Op.Op -> bool.

Notation serve_payload := (serve_payload dispatch ring_map).
Notation serve_inner := (serve_inner dispatch ring_map).
Notation serve := (serve dispatch ring_map).

Lemma frame_ready_app (q rest : bytes) : len q <= MAX_MSG -> frame_ready (frame q ++ rest) = true.
Proof.
  intros Hq. unfold frame_ready, frame. rewrite <- app_assoc, !len_app, len_to_le.
  pose proof (len_nonneg q). pose proof (len_nonneg rest).
  rewrite (proj2 (Z.leb_le _ _)) by lia.
  rewrite slice_app_l by (rewrite ?len_to_le; lia).
  rewrite (slice_app_end [] (to_le 4 (len q))) by done.
  rewrite length_prefix by done.
  rewrite (proj2 (Z.leb_le (4 + len q) _)) by lia. by rewrite orb_true_r.
Qed.

Lemma serve_inner_frame fuel (q rest : bytes) h d :
  len q <= MAX_MSG ->
  serve_inner (S fuel) (MkConn h (frame q ++ rest) d Waiting) =
  match serve_payload q h with
  | Next out h => serve_inner fuel (MkConn h rest (d ++ out) Waiting)
  | Upgrade out h => MkConn h rest (d ++ out) OnRings
  | Failed e h => MkConn h rest d (Over (Some e))
  end.
Proof.
  intros Hq. cbn [Pipe.serve_inner c_loop c_up c_down c_host].
  by rewrite frame_ready_app, read_msg_frame by done.
Qed.

Lemma serve_inner_stop fuel h d : serve_inner fuel (MkConn h [] d Waiting) = MkConn h [] d Waiting.
Proof. by destruct fuel. Qed.

(** Serving a stream of whole frames, and more of them later, is serving them
    all at once. *)
Lemma serve_inner_more ps : forall fuel fuel' h (rest d : bytes),
  Forall (fun q => len q <= MAX_MSG) ps -> (length ps <= fuel)%nat ->
  serve_inner (fuel + fuel') (MkConn h (mjoin (frame <$> ps) ++ rest) d Waiting) =
  let c := serve_inner fuel (MkConn h (mjoin (frame <$> ps)) d Waiting) in
  serve_inner (fuel - length ps + fuel') (MkConn (c_host c) (c_up c ++ rest) (c_down c) (c_loop c)).
Proof.
  induction ps as [|q ps IH]; intros fuel fuel' h rest d Hps Hf.
  - cbn. rewrite serve_inner_stop. cbn. by rewrite Nat.sub_0_r.
  - inv Hps. destruct fuel as [|fuel]; [cbn in Hf; lia|]. cbn [length] in *.
    change (mjoin (frame <$> q :: ps)) with (frame q ++ mjoin (frame <$> ps)).
    rewrite <- app_assoc. cbn [Nat.add]. rewrite !serve_inner_frame by done.
    destruct (serve_payload q h).
    + rewrite IH by (done || lia). by replace (S fuel - S (length ps))%nat with (fuel - length ps)%nat by lia.
    + cbn. by destruct (fuel - length ps + fuel')%nat.
    + cbn. by destruct (fuel - length ps + fuel')%nat.
Qed.

Lemma slice_bytes (l : bytes) x y : is_bytes l -> is_bytes (slice l x y).
Proof. intros H. by apply Forall_take, Forall_drop. Qed.

Lemma read_exact_length n r x r' :
  0 <= n -> read_exact n r = (Ok x, r') -> len (src_data r') = len (src_data r) - n.
Proof.
  unfold read_exact. intros Hn E. case_bool_guard_in E; inv E. bool_simpl. cbn.
  rewrite len_slice; lia.
Qed.

Lemma read_msg_consumes up q r :
  is_bytes up -> read_msg (MkSource up None) = (Ok (Some q), r) ->
  (length (src_data r) < length up)%nat /\ is_bytes (src_data r).
Proof.
  intros Hb. unfold read_msg.
  destruct (read_exact 4 (MkSource up None)) as [[l|[[] m]] r1] eqn:E1; try done.
  destruct (_ >? _); [done|]. destruct (read_exact (from_le l) r1) as [[q'|] r2] eqn:E2; [|done].
  intros E. inv E. pose proof (read_exact_length _ _ _ _ (ltac:(lia) : 0 <= 4) E1) as L1.
  assert (Hl : is_bytes l /\ is_bytes (src_data r1)).
  { unfold read_exact in E1. cbn [src_data src_fault] in E1. case_bool_guard_in E1; inv E1.
    split; by apply slice_bytes. }
  assert (H2 : is_bytes (src_data r)).
  { unfold read_exact in E2. case_bool_guard_in E2; inv E2. apply slice_bytes, Hl. }
  pose proof (read_exact_length _ _ _ _ (proj1 (from_le_bound l (proj1 Hl))) E2) as L2.
  pose proof (proj1 (from_le_bound l (proj1 Hl))).
  cbn [src_data] in L1. unfold len in *. split; [lia|done].
Qed.

Lemma serve_inner_fuel n : forall m c,
  is_bytes (c_up c) -> (length (c_up c) <= n)%nat -> (length (c_up c) <= m)%nat ->
  serve_inner n c = serve_inner m c.
Proof.
  assert (H0 : forall m c, length (c_up c) = 0%nat -> serve_inner m c = c).
  { intros m [h up d l] E. cbn in E. destruct up; [|done]. by destruct m, l. }
  induction n as [|n IH]; intros m c Hb Hn Hm; [rewrite !H0 by lia; done|].
  destruct m as [|m]; [rewrite !H0 by lia; done|].
  cbn [Pipe.serve_inner]. destruct (c_loop c); [|done..].
  destruct (frame_ready (c_up c)); [|done].
  destruct (read_msg _) as [[[q|]|] r] eqn:E; [|done..].
  apply read_msg_consumes in E as [Hl Hb']; [|done].
  destruct (serve_payload q (c_host c)); [|done..].
  apply IH; cbn; [done|lia..].
Qed.

Lemma frame_length q : length (frame q) = (4 + length q)%nat.
Proof. unfold frame. by rewrite length_app, length_to_le. Qed.

Lemma frames_length ps : (length ps <= length (mjoin (frame <$> ps)))%nat.
Proof.
  induction ps as [|q ps IH]; [done|].
  change (mjoin (frame <$> q :: ps)) with (frame q ++ mjoin (frame <$> ps)).
  rewrite length_app, frame_length. cbn [length]. lia.
Qed.

Lemma serve_inner_done ps : forall fuel h d,
  Forall (fun q => len q <= MAX_MSG) ps -> (length ps <= fuel)%nat ->
  c_loop (serve_inner fuel (MkConn h (mjoin (frame <$> ps)) d Waiting)) = Waiting ->
  c_up (serve_inner fuel (MkConn h (mjoin (frame <$> ps)) d Waiting)) = [].
Proof.
  induction ps as [|q ps IH]; intros fuel h d Hps Hf; [by rewrite serve_inner_stop|].
  inv Hps. destruct fuel as [|fuel]; [cbn in Hf; lia|]. cbn [length] in Hf.
  change (mjoin (frame <$> q :: ps)) with (frame q ++ mjoin (frame <$> ps)).
  rewrite serve_inner_frame by done. destruct (serve_payload q h); [|done..].
  apply IH; [done|lia].
Qed.

(** The host's answers do not depend on when it looks at its socket. *)
Lemma serve_app ps (rest : bytes) h d :
  Forall (fun q => len q <= MAX_MSG) ps -> is_bytes rest ->
  serve (MkConn h (mjoin (frame <$> ps) ++ rest) d Waiting) =
  let c := serve (MkConn h (mjoin (frame <$> ps)) d Waiting) in
  serve (MkConn (c_host c) (c_up c ++ rest) (c_down c) (c_loop c)).
Proof.
  intros Hps Hrest. unfold Pipe.serve. cbn [c_up]. rewrite length_app.
  pose proof (frames_length ps) as Hl. rewrite serve_inner_more by done.
  pose proof (serve_inner_done ps (length (mjoin (frame <$> ps))) h d Hps Hl) as Hd.
  cbv zeta. destruct (serve_inner _ (MkConn h (mjoin _) _ _)) as [h' up' d' l']. cbn in *.
  destruct l' as [| |].
  - rewrite Hd by done. apply serve_inner_fuel; cbn; [done|lia..].
  - by destruct (_ - _ + _)%nat, (length (up' ++ rest)).
  - by destruct (_ - _ + _)%nat, (length (up' ++ rest)).
Qed.

(** ** The relation *)

Context `{HA : !Answering dispatch}.

(** The host as it serves: in an invariant state, its held failure a status. *)
Definition host_fine (h : Host Sess) : Prop := is_i32 (quiet_sticky h) /\ host_ok dispatch (h_sess h).

(** A request that fits a quiet frame. *)
Definition quietable (r : Request.Request) : Prop :=
  request_ok r /\ len (encode_request r) < MAX_MSG.

(** A request the callers of the client send: no bigger than a quarter of a
    frame (bulk copies are cut into 64 MiB pieces), with an answer that fits
    one, and not the transport upgrade itself. *)
Definition sendable (r : Request.Request) : Prop :=
  request_ok r /\ len (encode_request r) <= 65 * 1024 * 1024 /\ is_ring_setup r = false /\
  answerable r.

Definition quiet_frames (rs : list Request.Request) : bytes :=
  mjoin (frame <$> ((fun r => QUIET_PREFIX :: encode_request r) <$> rs)).

Definition fold_quiet (h : Host Sess) (rs : list Request.Request) : Host Sess :=
  fold_left (fun h r => (dispatch_quiet dispatch r h).2) rs h.

Definition client_of (s : Spec Sess) (buf : bytes) : Client := {|
  deferred := s_deferred s; sticky := s_sticky s; defer_enabled := s_defer s;
  clean := (s_clean s).1.1; clean_all := (s_clean s).1.2; clean_stream := (s_clean s).2;
  wbuf := buf; journal := encode_request <$> s_unproven s;
  auto_graph := s_auto s; auto_ops := encode_request <$> s_pend s;
  auto_bytes := payload_bytes (s_pend s); explicit_capture_depth := s_depth s;
|}.

(** The world of [s] when the host is at [h], has [ru] to read, and [rw] waits
    in the client's buffer. *)
Definition W (s : Spec Sess) (h : Host Sess) (ru rw : list Request.Request) : World Sess :=
  MkWorld (client_of s (quiet_frames rw)) (Live (MkConn h (quiet_frames ru) [] Waiting)).

Definition pend_ok (s : Spec Sess) : Prop :=
  Forall sendable (s_pend s) /\ len (s_pend s) < AUTO_SEGMENT_MAX_OPS /\
  payload_bytes (s_pend s) < AUTO_SEGMENT_MAX_BYTES /\ (s_auto s = true \/ s_pend s = []).

Record at_host (s : Spec Sess) (h : Host Sess) (ru rw : list Request.Request) : Prop := {
  ah_host : s_host s = fold_quiet h (ru ++ rw);
  ah_frames : Forall quietable (ru ++ rw);
  ah_fine : host_fine h;
  ah_deferred : 0 <= s_deferred s;
}.

Definition R (w : World Sess) (s : Spec Sess) : Prop :=
  exists h ru rw, w = W s h ru rw /\ at_host s h ru rw /\ pend_ok s.

(** ** The host on quiet frames *)

Lemma quiet_frames_app xs ys : quiet_frames (xs ++ ys) = quiet_frames xs ++ quiet_frames ys.
Proof. unfold quiet_frames. by rewrite !fmap_app, join_app. Qed.

Lemma quiet_frames_cons r rs :
  quiet_frames (r :: rs) = frame (QUIET_PREFIX :: encode_request r) ++ quiet_frames rs.
Proof. done. Qed.

Lemma quiet_frames_nil rs : quiet_frames rs = [] -> rs = [].
Proof.
  destruct rs as [|r rs]; [done|]. rewrite quiet_frames_cons. intros E.
  apply (f_equal length) in E. by rewrite length_app, frame_length in E.
Qed.

Lemma fold_quiet_app h xs ys : fold_quiet h (xs ++ ys) = fold_quiet (fold_quiet h xs) ys.
Proof. apply fold_left_app. Qed.

Lemma decode_quietable r : quietable r -> decode_request (encode_request r) = Ok r.
Proof. intros [Hr Hl]. apply decode_encode_nil; [done|lia]. Qed.

Lemma serve_quiet_payload r h :
  quietable r ->
  serve_payload (QUIET_PREFIX :: encode_request r) h = Next [] (dispatch_quiet dispatch r h).2.
Proof.
  intros Hr. unfold Pipe.serve_payload. rewrite Z.eqb_refl. by rewrite decode_quietable.
Qed.

Lemma serve_quiets rs : forall fuel h (rest d : bytes),
  Forall quietable rs ->
  serve_inner (length rs + fuel) (MkConn h (quiet_frames rs ++ rest) d Waiting) =
  serve_inner fuel (MkConn (fold_quiet h rs) rest d Waiting).
Proof.
  induction rs as [|r rs IH]; intros fuel h rest d Hrs; [done|]. inv Hrs.
  rewrite quiet_frames_cons. cbn [length Nat.add].
  rewrite <- app_assoc, serve_inner_frame by (rewrite len_cons; destruct H1; lia).
  rewrite serve_quiet_payload, app_nil_r by done. by rewrite IH.
Qed.

(** The frames in flight, then one more that is answered. *)
Lemma serve_answered rs q h out h' :
  Forall quietable rs -> len q <= MAX_MSG ->
  serve_payload q (fold_quiet h rs) = Next out h' ->
  serve (MkConn h (quiet_frames rs ++ frame q) [] Waiting) = MkConn h' [] out Waiting.
Proof.
  intros Hrs Hq Hs. unfold Pipe.serve. cbn [c_up].
  assert (Hl : exists fuel, length (quiet_frames rs ++ frame q) = (length rs + S fuel)%nat).
  { exists (length (quiet_frames rs ++ frame q) - S (length rs))%nat.
    pose proof (frames_length ((fun r => QUIET_PREFIX :: encode_request r) <$> rs)) as H.
    rewrite length_fmap in H. rewrite length_app, frame_length. unfold quiet_frames. lia. }
  destruct Hl as [fuel ->]. rewrite serve_quiets by done.
  rewrite <- (app_nil_r (frame q)), serve_inner_frame, Hs by done.
  by rewrite serve_inner_stop.
Qed.

Lemma dispatch_quiet_ok r h :
  request_ok r -> host_fine h -> host_fine (dispatch_quiet dispatch r h).2.
Proof.
  intros Hr Hh. unfold dispatch_quiet. case_bool_guard; [done|]. destruct Hh as [Hi Hh].
  pose proof (host_answers (h_sess h) r Hh Hr) as H. destruct (dispatch _ r) as [[st resp] s'].
  destruct H as (H & Hs & _). cbn. by case_bool_guard.
Qed.

Lemma fold_quiet_ok rs : forall h,
  Forall quietable rs -> host_fine h -> host_fine (fold_quiet h rs).
Proof.
  induction rs as [|r rs IH]; intros h Hrs Hh; [done|]. inv Hrs. cbn. apply IH; [done|].
  apply dispatch_quiet_ok; [by destruct H1|done].
Qed.

(** ** Moving bytes *)

Lemma flush_wbuf_W s h ru rw : flush_wbuf (W s h ru rw) = (Ok tt, W s h (ru ++ rw) []).
Proof.
  unfold flush_wbuf, cbind, self. cbn [cl W client_of wbuf].
  destruct (decide (rw = [])) as [->|Hne].
  - cbn. by rewrite app_nil_r.
  - destruct (is_empty (quiet_frames rw)) eqn:E.
    + destruct Hne. apply quiet_frames_nil. by destruct (quiet_frames rw).
    + unfold stream_write, set, W. cbn. rewrite quiet_frames_app. done.
Qed.

Lemma batch_frame_eq q : len q <= MAX_MSG -> batch_frame q = frame q.
Proof.
  intros H. unfold batch_frame, frame, wrap. rewrite Z.mod_small; [done|].
  pose proof (len_nonneg q). unfold MAX_MSG in H. lia.
Qed.

Lemma respond_frame q k (h : Host Sess) : len q <= MAX_MSG -> respond q k h = k (frame q) h.
Proof.
  intros H. unfold respond. destruct (write_msg_frame q [] H) as (ws & -> & Ej & _).
  by rewrite app_nil_l, Ej.
Qed.

Lemma read_answer closed c rs q h p h' :
  Forall quietable rs -> len q <= MAX_MSG -> len p <= MAX_MSG ->
  serve_payload q (fold_quiet h rs) = Next (frame p) h' ->
  stream_read_msg dispatch ring_map closed
    (MkWorld c (Live (MkConn h (quiet_frames rs ++ frame q) [] Waiting))) =
  (Ok p, MkWorld c (Live (MkConn h' [] [] Waiting))).
Proof.
  intros Hrs Hq Hp Hs. unfold stream_read_msg. cbn [link].
  rewrite (serve_answered _ _ _ _ _ Hrs Hq Hs). cbn [c_down c_loop cl].
  rewrite <- (app_nil_r (frame p)), frame_ready_app by done. cbn [negb andb].
  by rewrite read_msg_frame.
Qed.

(** The status in front of a response. *)
Lemma response_head st resp : exists rest, encode_response st resp = to_le 4 st ++ rest.
Proof.
  unfold encode_response, w_str, w_i32. rewrite ?w_bytes_app, ?app_nil_l.
  destruct (st =? 0); [|exists []; by rewrite app_nil_r].
  destruct resp; unfold w_i32, w_u64, w_u32; rewrite ?w_bytes_app, <- ?app_assoc; eexists; reflexivity.
Qed.
Lemma response_len st resp : 4 <= len (encode_response st resp).
Proof.
  destruct (response_head st resp) as [rest ->]. rewrite len_app, len_to_le.
  pose proof (len_nonneg rest). lia.
Qed.
Lemma response_status st resp :
  is_i32 st -> as_i32 (from_le (slice (encode_response st resp) 0 4)) = st /\
  4 <= len (encode_response st resp).
Proof.
  intros Hst. split; [|apply response_len]. destruct (response_head st resp) as [rest ->]. rewrite slice_app_l by (rewrite ?len_to_le; lia).
  rewrite (slice_app_end [] (to_le 4 st)) by done. by rewrite as_i32_le.
Qed.

(** ** Simulation *)

Definition simI {A} (I : Spec Sess -> Prop) (m : C Sess A) (n : P Sess A) (J : Spec Sess -> Prop) : Prop :=
  forall w s, R w s -> I s ->
  (m w).1 = (n s).1 /\ R (m w).2 (n s).2 /\ (is_ok (n s).1 = true -> J (n s).2).

Definition any (_ : Spec Sess) : Prop := True.
Definition empty (s : Spec Sess) : Prop := s_pend s = [].

Lemma sim_bind {A B} I J K (m : C Sess A) (k : A -> C Sess B) n k' :
  simI I m n J -> (forall x, simI J (k x) (k' x) K) -> simI I (cbind m k) (pbind n k') K.
Proof.
  intros Hm Hk w s HR HI. unfold cbind, pbind. destruct (Hm w s HR HI) as (E & HR' & HJ).
  destruct (m w) as [[x|e] w'], (n s) as [[y|e'] s']; cbn in *; try done; inv E; [|done].
  by apply Hk; [|apply HJ].
Qed.

Lemma sim_use {A} I J (m : C Sess A) n w s :
  R w s -> I s -> simI I m n J ->
  (m w).1 = (n s).1 /\ R (m w).2 (n s).2 /\ (is_ok (n s).1 = true -> J (n s).2).
Proof. intros HR HI H. by apply H. Qed.

Lemma sim_ret {A} I (x : A) : simI I (cret x) (pret x) I.
Proof. intros w s HR HI. done. Qed.

Lemma sim_fail {A} I J e : simI I (cfail e : C Sess A) (pfail e) J.
Proof. intros w s HR HI. done. Qed.

Lemma sim_weaken {A} (I I' J J' : Spec Sess -> Prop) (m : C Sess A) n :
  (forall s, I' s -> I s) -> (forall s, J s -> J' s) -> simI I m n J -> simI I' m n J'.
Proof. intros HI HJ H w s HR HI'. destruct (H w s HR (HI s HI')) as (? & ? & ?). eauto. Qed.

(** A change of the client's own fields. *)
Lemma sim_set (f : Client -> Client) (g : Spec Sess -> Spec Sess) (I J : Spec Sess -> Prop) :
  (forall s buf, f (client_of s buf) = client_of (g s) buf) ->
  (forall s, s_host (g s) = s_host s /\ s_deferred (g s) = s_deferred s /\
    s_pend (g s) = s_pend s /\ s_auto (g s) = s_auto s) ->
  (forall s, I s -> J (g s)) -> simI I (set f) (pset g) J.
Proof.
  intros Hf Hg HIJ w s (h & ru & rw & -> & [] & Hp) HI. unfold set, pset. cbn.
  rewrite Hf. split; [done|]. split; [|intros _; by apply HIJ].
  destruct (Hg s) as (Eh & Ed & Ep & Ea).
  exists h, ru, rw. split; [done|]. split; [split; congruence|]. unfold pend_ok. by rewrite Ep, Ea.
Qed.

(** ** Fences and deferred requests *)

Lemma serve_fence h :
  is_i32 (quiet_sticky h) ->
  serve_payload [FENCE_OP] h =
  Next (frame (encode_response (quiet_sticky h) Response.Ok)) (MkHost (h_sess h) 0).
Proof.
  intros Hs. unfold Pipe.serve_payload. rewrite respond_frame; [done|].
  unfold encode_response, w_i32. case_bool_guard; rewrite app_nil_l, len_to_le; done.
Qed.

Lemma at_host_nil s h : s_host s = h -> host_fine h -> 0 <= s_deferred s -> at_host s h [] [].
Proof. intros E Hs Hd. split; [done|constructor|done|done]. Qed.

Lemma collect_W st s h ru rw :
  collect st (W s h ru rw) =
  (Ok tt, W (if negb (st =? 0) && (s_sticky s =? 0) then upd_sticky st s else s) h ru rw).
Proof. unfold collect, cbind, self. cbn [cl W client_of sticky]. by case_bool_guard. Qed.

(** [drain] after its flush. *)
Definition fence : C Sess unit :=
  let@ c := self in
  if deferred c =? 0 then flush_wbuf else
  let@ _ := set (set_deferred 0) in
  let@ _ := set (fun c => set_wbuf (wbuf c ++ batch_frame [FENCE_OP]) c) in
  let@ _ := flush_wbuf in
  let@ payload := stream_read_msg dispatch ring_map "host closed mid-fence" in
  let@ _ := set (set_journal []) in
  collect_payload payload.

Lemma fence_W s h ru rw :
  at_host s h ru rw ->
  fence (W s h ru rw) =
  (Ok tt, if s_deferred s =? 0 then W s h (ru ++ rw) []
          else W (spec_fence s).2 (s_host (spec_fence s).2) [] []).
Proof.
  intros [Eh Hfr Hst Hd]. unfold fence, spec_fence. unfold cbind at 1, self at 1.
  cbn [cl W client_of deferred]. destruct (s_deferred s =? 0) eqn:E0; [by rewrite flush_wbuf_W|].
  unfold cbind at 1 2, set at 1 2. cbn [cl link].
  change (set_wbuf _ _) with
    (client_of (upd_deferred 0 s) (quiet_frames rw ++ batch_frame [FENCE_OP])).
  rewrite batch_frame_eq by done.
  unfold flush_wbuf. unfold cbind at 1 2, self at 1. cbn [cl client_of wbuf].
  replace (is_empty (quiet_frames rw ++ frame [FENCE_OP])) with false
    by (destruct (quiet_frames rw); done).
  unfold cbind at 1, stream_write at 1. cbn [W link c_up c_host c_down c_loop].
  unfold set at 1. cbn [cl link]. rewrite app_assoc, <- quiet_frames_app. unfold cbind at 1.
  assert (Hi : is_i32 (quiet_sticky (s_host s))) by (rewrite Eh; by apply fold_quiet_ok).
  rewrite (read_answer _ _ _ _ _ (encode_response (quiet_sticky (s_host s)) Response.Ok)
             (MkHost (h_sess (s_host s)) 0)); [|done|done| |].
  2: { unfold encode_response, w_i32. case_bool_guard; rewrite app_nil_l, len_to_le; done. }
  2: { rewrite <- Eh. by apply serve_fence. }
  unfold cbind at 1, set at 1. unfold collect_payload.
  destruct (response_status _ Response.Ok Hi) as [-> Hl].
  rewrite (proj2 (Z.leb_le _ _)) by done. cbn [cl link].
  set (s1 := upd_unproven [] (upd_deferred 0 (upd_host (MkHost (h_sess (s_host s)) 0) s))).
  change (MkWorld _ _) with (W s1 (s_host s1) [] []). rewrite collect_W. cbn [snd].
  by case_bool_guard.
Qed.

Lemma spec_fence_facts (s : Spec Sess) :
  (spec_fence s).1 = Ok tt /\ s_pend (spec_fence s).2 = s_pend s /\
  s_auto (spec_fence s).2 = s_auto s /\
  (s_deferred s <> 0 -> s_deferred (spec_fence s).2 = 0 /\
     s_host (spec_fence s).2 = MkHost (h_sess (s_host s)) 0).
Proof.
  unfold spec_fence. destruct (s_deferred s =? 0) eqn:E; bool_simpl; [by repeat split|].
  by case_bool_guard.
Qed.

Lemma sim_fence : simI empty fence spec_fence empty.
Proof.
  intros w s (h & ru & rw & -> & Ha & Hp) He. rewrite fence_W by done. cbn [fst snd].
  destruct (spec_fence_facts s) as (E1 & E2 & Ea & E3). rewrite E1. split; [done|].
  split; [|intros _; by unfold empty; rewrite E2]. destruct (s_deferred s =? 0) eqn:E0; bool_simpl.
  - replace (spec_fence s).2 with s by (unfold spec_fence; by rewrite E0).
    exists h, (ru ++ rw), []. split; [done|]. split; [|done].
    destruct Ha. split; rewrite ?app_nil_r; done.
  - destruct (E3 E0) as [E4 E5]. eexists _, [], []. split; [done|].
    split; [apply at_host_nil; [done| |lia]|unfold pend_ok; by rewrite E2, Ea].
    rewrite E5. split; [done|]. destruct Ha as [-> ? ? ?]. by apply fold_quiet_ok.
Qed.

(** With no segment pending, a drain is a fence. *)
Lemma sim_drain enq : simI empty (drain_with dispatch ring_map enq) spec_fence empty.
Proof.
  change (simI empty (cbind (flush_auto_with enq) (fun _ => fence))
            (pbind (pret tt) (fun _ => spec_fence)) empty).
  eapply sim_bind; [|intros _; apply sim_fence].
  intros w s (h & ru & rw & -> & Ha & Hp) He.
  replace (flush_auto_with enq (W s h ru rw)) with (@Ok unit CudaRpcError tt, W s h ru rw).
  { split; [done|]. split; [|done]. by exists h, ru, rw. }
  unfold flush_auto_with, cbind, self, take_auto_payloads, set, set_auto, W, client_of.
  cbn. by rewrite He.
Qed.

Lemma sim_first fuel : simI empty
  (let@ c := self in
   if MAX_DEFERRED <=? deferred c
   then drain_with dispatch ring_map (enqueue_direct dispatch ring_map fuel) else cret tt)
  (fun s => if MAX_DEFERRED <=? s_deferred s then spec_fence s else (Ok tt, s)) empty.
Proof.
  intros w s HR He. destruct (id HR) as (h & ru & rw & -> & _).
  unfold cbind, self. cbn [cl W client_of deferred].
  destruct (MAX_DEFERRED <=? s_deferred s); [|done]. by apply sim_drain.
Qed.

(** Sending the accepted request: into the buffer, the journal and the count. *)
Definition push (r : Request.Request) : C Sess unit :=
  let@ c := self in
  if negb (sticky c =? 0) then let@ code := take_sticky in cfail (Cuda code) else
  let@ _ := set (fun c => set_wbuf (wbuf c ++ batch_frame (QUIET_PREFIX :: encode_request r)) c) in
  let@ _ := set (fun c => set_journal (journal c ++ [encode_request r]) c) in
  let@ _ := set (fun c => set_deferred (deferred c + 1) c) in
  let@ c := self in
  if WBUF_FLUSH <=? len (wbuf c) then ignore flush_wbuf else cret tt.

Definition pushed (r : Request.Request) (s : Spec Sess) : Spec Sess :=
  upd_unproven (s_unproven s ++ [r]) (upd_deferred (s_deferred s + 1)
    (upd_host (dispatch_quiet dispatch r (s_host s)).2 s)).

Lemma push_W r s h ru rw :
  quietable r ->
  push r (W s h ru rw) =
  if negb (s_sticky s =? 0) then (Err (Cuda (s_sticky s)), W (upd_sticky 0 s) h ru rw) else
  (Ok tt, if WBUF_FLUSH <=? len (quiet_frames (rw ++ [r])) then W (pushed r s) h (ru ++ rw ++ [r]) []
          else W (pushed r s) h ru (rw ++ [r])).
Proof.
  intros Hr. unfold push. unfold cbind at 1, self at 1. cbn [cl W client_of sticky].
  destruct (negb (s_sticky s =? 0)); [done|].
  unfold cbind, set, self. cbn [cl link W client_of wbuf set_wbuf set_journal set_deferred].
  rewrite batch_frame_eq by (rewrite len_cons; destruct Hr; lia).
  replace (quiet_frames rw ++ frame (QUIET_PREFIX :: encode_request r))
    with (quiet_frames (rw ++ [r])) by by rewrite quiet_frames_app, quiet_frames_cons, app_nil_r.
  match goal with |- (if _ then _ else _) ?x = _ => replace x with (W (pushed r s) h ru (rw ++ [r])) end.
  2: { unfold W, client_of, set_wbuf, set_journal, set_deferred. cbn. by rewrite fmap_app. }
  case_bool_guard.
  - unfold ignore. by rewrite flush_wbuf_W.
  - done.
Qed.

Lemma sim_push r :
  quietable r ->
  simI empty (push r)
    (fun s => if negb (s_sticky s =? 0) then (Err (Cuda (s_sticky s)), upd_sticky 0 s)
              else (Ok tt, pushed r s)) empty.
Proof.
  intros Hr w s (h & ru & rw & -> & [Eh Hfr Hst Hd] & Hp) He. rewrite push_W by done.
  destruct (negb (s_sticky s =? 0)); cbn [fst snd]; (split; [done|]); (split; [|done]).
  { exists h, ru, rw. split; [done|]. by split. }
  assert (HR : at_host (pushed r s) h ru (rw ++ [r])).
  { split.
    - cbn. by rewrite app_assoc, fold_quiet_app, <- Eh.
    - rewrite app_assoc. apply Forall_app. split; [done|]. by apply List.Forall_cons.
    - done.
    - cbn. lia. }
  case_bool_guard; [exists h, (ru ++ rw ++ [r]), []|exists h, ru, (rw ++ [r])]; (split; [done|]);
    (split; [|done]); [|done].
  destruct HR. split; rewrite ?app_nil_r; done.
Qed.

Lemma sim_direct fuel r :
  quietable r ->
  simI empty (enqueue_direct dispatch ring_map (S fuel) (encode_request r))
    (spec_direct dispatch r) empty.
Proof.
  intros Hr w s HR He.
  change (enqueue_direct dispatch ring_map (S fuel) (encode_request r) w) with
    (cbind (let@ c := self in
       if MAX_DEFERRED <=? deferred c
       then drain_with dispatch ring_map (enqueue_direct dispatch ring_map fuel) else cret tt)
     (fun _ => push r) w).
  revert w s HR He. eapply sim_bind; [apply sim_first|]. intros _. by apply sim_push.
Qed.

(** ** Segments *)

Definition seg_ok (rs : list Request.Request) : Prop :=
  Forall sendable rs /\ len rs <= AUTO_SEGMENT_MAX_OPS /\ payload_bytes rs <= 66 * 1024 * 1024.

Lemma sendable_quietable r : sendable r -> quietable r.
Proof. intros (H & Hl & _). split; [done|]. unfold MAX_MSG. lia. Qed.

Lemma sendable_vec r : sendable r -> is_vec (encode_request r).
Proof.
  intros (H & Hl & _). split; [by apply encode_bytes|]. unfold is_uint.
  pose proof (len_nonneg (encode_request r)). lia.
Qed.

Lemma mjoin_cons (x : bytes) l : mjoin (x :: l) = x ++ mjoin l.
Proof. done. Qed.

Lemma len_segment rs :
  len (encode_request (Request.AutoGraphSegment (encode_request <$> rs))) =
  5 + 8 * len rs + payload_bytes rs.
Proof.
  assert (H : len (mjoin (le_bytes <$> (encode_request <$> rs))) = 8 * len rs + payload_bytes rs).
  { induction rs as [|r rs IH]; [done|]. rewrite len_cons, !fmap_cons.
    change (payload_bytes (r :: rs)) with (len (encode_request r) + payload_bytes rs).
    rewrite mjoin_cons, len_app, IH.
    unfold le_bytes. rewrite len_app, len_to_le. lia. }
  rewrite <- Z.add_assoc, <- H. generalize (encode_request <$> rs). intros ops.
  wire_norm. unfold le_counted. rewrite !len_app, len_to_le. change (len [_]) with 1. lia.
Qed.

Lemma segment_quietable rs : seg_ok rs -> Forall quietable (segment rs).
Proof.
  intros (Hs & Hl & Hb). destruct rs as [|r1 [|r2 rs]]; cbn [segment]; [constructor| |].
  - inv Hs. apply List.Forall_cons; [by apply sendable_quietable|constructor].
  - set (l := r1 :: r2 :: rs) in *. apply List.Forall_cons; [|constructor].
    assert (len (encode_request <$> l) = len l) by (unfold len; by rewrite length_fmap).
    assert (2 <= len l) by (subst l; rewrite !len_cons; pose proof (len_nonneg rs); lia).
    unfold AUTO_SEGMENT_MAX_OPS in Hl. split; [|rewrite len_segment; unfold MAX_MSG; lia].
    cbn [request_ok]. split; [split|lia].
    + unfold is_uint. lia.
    + apply Forall_fmap. eapply Forall_impl; [exact Hs|]. apply sendable_vec.
Qed.

Lemma take_auto_W s buf :
  take_auto_payloads (client_of s buf) =
  (encode_request <$> segment (s_pend s), client_of (upd_pend [] s) buf).
Proof.
  unfold take_auto_payloads. cbn [client_of auto_ops].
  by destruct (s_pend s) as [|r1 [|r2 rs]].
Qed.

Lemma sim_all enq f I rs :
  (forall r, In r rs -> simI I (enq (encode_request r)) (f r) I) ->
  simI I (enqueue_all enq (encode_request <$> rs)) (spec_all f rs) I.
Proof.
  induction rs as [|r rs IH]; intros H; [apply sim_ret|].
  cbn. eapply sim_bind; [apply H; by left|]. intros _. apply IH. intros x Hx. apply H. by right.
Qed.

(** Flushing a segment that may just have reached its limits. *)
Lemma flush_W s h ru rw :
  at_host s h ru rw -> seg_ok (s_pend s) ->
  let '(r, w') := flush_auto_segment dispatch ring_map (W s h ru rw) in
  let '(r', s') := spec_flush dispatch s in
  r = r' /\ R w' s' /\ (is_ok r' = true -> s_pend s' = []).
Proof.
  intros Ha Hseg. unfold flush_auto_segment, flush_auto_with.
  unfold cbind at 1, self at 1. cbn [cl W]. rewrite take_auto_W.
  unfold cbind at 1, set at 1. cbn [cl link].
  change (MkWorld _ _) with (W (upd_pend [] s) h ru rw).
  assert (HR : R (W (upd_pend [] s) h ru rw) (upd_pend [] s)).
  { exists h, ru, rw. split; [done|]. destruct Ha. split; [by split|]. split; [constructor|]. by repeat split; try right. }
  assert (Hsim : simI empty (enqueue_all (enqueue_quiet_direct dispatch ring_map)
                    (encode_request <$> segment (s_pend s)))
                  (spec_all (spec_direct dispatch) (segment (s_pend s))) empty).
  { apply sim_all. intros r Hin. apply sim_direct.
    apply segment_quietable in Hseg. rewrite List.Forall_forall in Hseg. by apply Hseg. }
  unfold spec_flush. destruct (Hsim _ _ HR eq_refl) as (E & HR' & He).
  destruct (enqueue_all _ _ _), (spec_all _ _ _). done.
Qed.

Lemma pend_seg s : pend_ok s -> seg_ok (s_pend s).
Proof.
  intros (H & Hl & Hb & _). split; [done|].
  unfold AUTO_SEGMENT_MAX_OPS, AUTO_SEGMENT_MAX_BYTES in *. lia.
Qed.

Lemma sim_flush : simI any (flush_auto_segment dispatch ring_map) (spec_flush dispatch) empty.
Proof.
  intros w s (h & ru & rw & -> & Ha & Hp) _.
  pose proof (flush_W s h ru rw Ha (pend_seg s Hp)) as H.
  destruct (flush_auto_segment _ _ _), (spec_flush _ _). done.
Qed.

Lemma sim_drain_all : simI any (drain dispatch ring_map) (spec_drain dispatch) empty.
Proof.
  change (drain dispatch ring_map) with (cbind (flush_auto_segment dispatch ring_map) (fun _ => fence)).
  eapply sim_bind; [apply sim_flush|]. intros _. apply sim_fence.
Qed.

(** ** Deferring *)

Lemma enqueue_quiet_eq r w :
  decode_request (encode_request r) = Ok r ->
  enqueue_quiet dispatch ring_map (encode_request r) w =
  (if auto_graph (cl w) then
     if is_begin r then
       let@ _ := flush_auto_segment dispatch ring_map in
       let@ _ := enqueue_quiet_direct dispatch ring_map (encode_request r) in
       set (fun c => set_depth (saturating_add 64 (explicit_capture_depth c) 1) c)
     else if (explicit_capture_depth (cl w) =? 0) && auto_graph_eligible r then
       let@ _ := set (fun c => set_auto (auto_ops c ++ [encode_request r])
                                 (saturating_add 64 (auto_bytes c) (len (encode_request r))) c) in
       let@ c := self in
       if (AUTO_SEGMENT_MAX_OPS <=? len (auto_ops c)) ||
          (AUTO_SEGMENT_MAX_BYTES <=? auto_bytes c)
       then flush_auto_segment dispatch ring_map else cret tt
     else
       let@ _ := flush_auto_segment dispatch ring_map in
       enqueue_quiet_direct dispatch ring_map (encode_request r)
   else enqueue_quiet_direct dispatch ring_map (encode_request r)) w.
Proof.
  intros E. unfold enqueue_quiet. unfold cbind at 1, self at 1. rewrite E.
  destruct (auto_graph (cl w)); [|done]. by destruct r.
Qed.

Lemma payload_bytes_cons r rs :
  payload_bytes (r :: rs) = len (encode_request r) + payload_bytes rs.
Proof. done. Qed.

Lemma payload_bytes_app xs ys : payload_bytes (xs ++ ys) = payload_bytes xs + payload_bytes ys.
Proof.
  induction xs as [|x xs IH]; [done|]. cbn [app]. rewrite !payload_bytes_cons, IH. lia.
Qed.

(** Holding a request back for a segment, and the flush when it is full. *)
Lemma sim_hold r s h ru rw :
  sendable r -> at_host s h ru rw -> pend_ok s -> s_auto s = true ->
  let m := let@ _ := set (fun c => set_auto (auto_ops c ++ [encode_request r])
                                 (saturating_add 64 (auto_bytes c) (len (encode_request r))) c) in
       let@ c := self in
       if (AUTO_SEGMENT_MAX_OPS <=? len (auto_ops c)) ||
          (AUTO_SEGMENT_MAX_BYTES <=? auto_bytes c)
       then flush_auto_segment dispatch ring_map else cret tt in
  let s1 := upd_pend (s_pend s ++ [r]) s in
  let n := if (AUTO_SEGMENT_MAX_OPS <=? len (s_pend s1)) ||
       (AUTO_SEGMENT_MAX_BYTES <=? payload_bytes (s_pend s1))
    then spec_flush dispatch s1 else (Ok tt, s1) in
  (m (W s h ru rw)).1 = n.1 /\ R (m (W s h ru rw)).2 n.2.
Proof.
  intros Hr Ha (Hf & Hl & Hb & _) Hauto. cbv zeta.
  unfold cbind, set, self. cbn [cl link W client_of auto_ops auto_bytes].
  set (s1 := upd_pend (s_pend s ++ [r]) s).
  assert (Eb : saturating_add 64 (payload_bytes (s_pend s)) (len (encode_request r)) =
               payload_bytes (s_pend s1)).
  { subst s1. cbn [upd_pend s_pend]. rewrite payload_bytes_app, payload_bytes_cons.
    change (payload_bytes []) with 0. unfold saturating_add, u_max.
    destruct Hr as (_ & Hr & _). unfold AUTO_SEGMENT_MAX_BYTES in Hb. lia. }
  rewrite Eb. cbn [set_auto auto_ops auto_bytes].
  replace (len ((encode_request <$> s_pend s) ++ [encode_request r])) with (len (s_pend s1)).
  2: { subst s1. cbn [upd_pend s_pend]. unfold len. rewrite !length_app, length_fmap. done. }
  set (full := _ || _).
  match goal with |- context [(if full then _ else _) ?x] => replace x with (W s1 h ru rw) end.
  2: { unfold W, client_of, set_auto. cbn. by rewrite fmap_app. }
  assert (Ha1 : at_host s1 h ru rw) by (destruct Ha; by split).
  assert (Hf1 : Forall sendable (s_pend s1)).
  { apply Forall_app. split; [done|]. by apply List.Forall_cons. }
  assert (Hl1 : len (s_pend s1) = len (s_pend s) + 1) by (subst s1; cbn; by rewrite len_app).
  destruct full eqn:Ef; subst full.
  - assert (Hseg : seg_ok (s_pend s1)).
    { split; [done|]. split; [lia|]. subst s1. cbn [upd_pend s_pend] in *.
      rewrite payload_bytes_app, payload_bytes_cons. change (payload_bytes []) with 0.
      destruct Hr as (_ & Hr & _). unfold AUTO_SEGMENT_MAX_BYTES in Hb. lia. }
    pose proof (flush_W s1 h ru rw Ha1 Hseg) as H.
    destruct (flush_auto_segment _ _ _), (spec_flush _ _). naive_solver.
  - apply orb_false_iff in Ef as [Ef1 Ef2]. bool_simpl.
    split; [done|]. exists h, ru, rw. split; [done|]. split; [done|].
    repeat split; try done. by left.
Qed.

(** What a journal can hold: accepted requests, and segments of them. *)
Definition replayable (r : Request.Request) : Prop :=
  quietable r /\ (auto_graph_eligible r = true -> sendable r).

Lemma sendable_replayable r : sendable r -> replayable r.
Proof. intros H. split; [by apply sendable_quietable|done]. Qed.

Lemma sim_quiet r :
  replayable r -> simI any (enqueue_quiet dispatch ring_map (encode_request r)) (spec_quiet dispatch r) any.
Proof.
  intros [Hq Hr] w s HR _.
  rewrite (enqueue_quiet_eq r w (decode_quietable r Hq)).
  destruct (id HR) as (h & ru & rw & -> & Ha & Hp).
  unfold spec_quiet. cbn [cl W client_of auto_graph explicit_capture_depth].
  destruct (s_auto s) eqn:Eauto; cbn [negb].
  2: { destruct (id Hp) as (_ & _ & _ & [|He]); [congruence|].
       destruct (sim_direct 2 r Hq _ _ HR He) as (? & ? & ?). by repeat split. }
  destruct (is_begin r) eqn:Eb.
  { apply (sim_use any any); [exact HR|done|]. eapply sim_bind; [apply sim_flush|]. intros _.
    eapply sim_bind; [by apply sim_direct|]. intros _. by apply sim_set. }
  destruct ((s_depth s =? 0) && auto_graph_eligible r) eqn:Eel.
  { apply andb_true_iff in Eel as [_ Eel].
    destruct (sim_hold r s h ru rw (Hr Eel) Ha Hp Eauto) as [E1 E2]. by repeat split. }
  apply (sim_use any any); [exact HR|done|]. eapply sim_bind; [apply sim_flush|]. intros _.
  eapply sim_weaken; [| |by apply sim_direct]; done.
Qed.

(** ** Round trips *)

Lemma serve_sync r h :
  sendable r -> host_ok dispatch (h_sess h) ->
  serve_payload (encode_request r) h =
  let '((st, resp), s) := dispatch (h_sess h) r in
  Next (frame (encode_response st resp)) (MkHost s (quiet_sticky h)).
Proof.
  intros Hr Hh. destruct (encode_op r) as [rest E]. destruct (op_not_control (op_of r)) as [E1 E2].
  unfold Pipe.serve_payload. rewrite (decode_quietable r (sendable_quietable r Hr)).
  destruct Hr as (Hok & _ & Hring & Ha). rewrite Hring, E, E1, E2. cbn [andb].
  pose proof (host_answers (h_sess h) r Hh Hok) as H. destruct (dispatch _ r) as [[st resp] s'].
  destruct H as (_ & _ & Hl & _). rewrite respond_frame; [done|auto].
Qed.

Definition answered (r : Request.Request) (s : Spec Sess) : Spec Sess :=
  upd_unproven [] (upd_host (MkHost (dispatch (h_sess (s_host s)) r).2 (quiet_sticky (s_host s))) s).

Lemma round_trip_W r s h ru rw :
  sendable r -> at_host s h ru rw ->
  round_trip dispatch ring_map (encode_request r) (W s h ru rw) =
  (Ok (encode_response (dispatch (h_sess (s_host s)) r).1.1 (dispatch (h_sess (s_host s)) r).1.2),
   W (answered r s) (s_host (answered r s)) [] []).
Proof.
  intros Hr [Eh Hfr Hst Hd]. pose proof (sendable_quietable r Hr) as [_ Hlt].
  assert (Hh : host_ok dispatch (h_sess (s_host s))) by (rewrite Eh; by apply fold_quiet_ok).
  unfold round_trip. unfold cbind at 1. rewrite flush_wbuf_W.
  unfold cbind at 1, stream_write_msg at 1.
  destruct (write_msg_frame (encode_request r) []) as (ws & -> & Ej & _); [lia|].
  rewrite app_nil_l, Ej. unfold stream_write. cbn [link W c_host c_up c_down c_loop cl].
  unfold cbind at 1.
  pose proof (serve_sync r (s_host s) Hr Hh) as Hs.
  pose proof (host_answers (h_sess (s_host s)) r Hh ltac:(by destruct Hr)) as Hans.
  unfold answered. destruct (dispatch (h_sess (s_host s)) r) as [[st resp] sess]. cbn [fst snd].
  destruct Hans as (_ & _ & Hlen & _). specialize (Hlen ltac:(apply Hr)).
  rewrite (read_answer _ _ _ _ _ (encode_response st resp) (MkHost sess (quiet_sticky (s_host s))));
    [done|done|lia|done|]. by rewrite <- Eh.
Qed.

(** What an answered request leaves behind. *)
Lemma R_answered r s h ru rw :
  sendable r -> at_host s h ru rw -> pend_ok s ->
  R (W (answered r s) (s_host (answered r s)) [] []) (answered r s).
Proof.
  intros Hr [Eh Hfr Hs Hd] Hp. eexists _, [], []. split; [done|]. split; [|done].
  assert (Hf : host_fine (s_host s)) by (rewrite Eh; by apply fold_quiet_ok).
  apply at_host_nil; [done| |done]. destruct Hf as [Hi Hh].
  pose proof (host_answers (h_sess (s_host s)) r Hh ltac:(apply Hr)) as Hans.
  unfold answered. destruct (dispatch (h_sess (s_host s)) r) as [[st resp] sess]. by destruct Hans as (_ & ? & _).
Qed.

Lemma sim_round {B} r (k : bytes -> C Sess B) k' K :
  sendable r ->
  (forall st resp, is_i32 st -> len (encode_response st resp) <= MAX_MSG ->
     (st = 0 -> response_ok resp /\ answers (op_of r) resp) ->
     simI any (k (encode_response st resp)) (k' (st, resp)) K) ->
  simI any (cbind (round_trip dispatch ring_map (encode_request r)) k)
           (pbind (spec_round_trip dispatch r) k') K.
Proof.
  intros Hr Hk w s (h & ru & rw & -> & Ha & Hp) _. unfold cbind, pbind.
  rewrite round_trip_W by done. unfold spec_round_trip. pose proof (R_answered r s h ru rw Hr Ha Hp) as HR.
  assert (Hh : host_ok dispatch (h_sess (s_host s))) by (destruct Ha as [-> ? ? ?]; by apply fold_quiet_ok).
  pose proof (host_answers (h_sess (s_host s)) r Hh ltac:(by destruct Hr)) as Hans.
  unfold answered in *. destruct (dispatch (h_sess (s_host s)) r) as [[st resp] sess]. cbn [fst snd] in *.
  destruct Hans as (Hst & _ & Hlen & Hok). apply Hk; [done|by apply Hlen, Hr|done|done|done].
Qed.

Lemma sim_pset f g :
  (forall s buf, f (client_of s buf) = client_of (g s) buf) ->
  (forall s, s_host (g s) = s_host s /\ s_deferred (g s) = s_deferred s /\
    s_pend (g s) = s_pend s /\ s_auto (g s) = s_auto s) ->
  simI any (set f) (pset g) any.
Proof. intros Hf Hg. by apply sim_set. Qed.

Lemma sim_dirty : simI any (set (set_clean false)) (pset dirty) any.
Proof. by apply sim_pset. Qed.

Lemma sim_deeper : simI any (set (fun c => set_depth (saturating_add 64 (explicit_capture_depth c) 1) c))
  (pset deeper) any.
Proof. by apply sim_pset. Qed.
Lemma sim_shallower : simI any (set (fun c => set_depth (saturating_sub (explicit_capture_depth c) 1) c))
  (pset shallower) any.
Proof. by apply sim_pset. Qed.

Lemma sim_any {A} I J (m : C Sess A) n : simI I m n J -> simI I m n any.
Proof. by apply sim_weaken. Qed.

Lemma sim_skip : simI any (cret tt) (pset (fun s => s)) any.
Proof. done. Qed.

Lemma sim_ret_l {A B} I J (x : A) (k : A -> C Sess B) n :
  simI I (k x) n J -> simI I (cbind (cret x) k) n J.
Proof. intros H. exact H. Qed.

Lemma sim_call r :
  sendable r -> simI any (call dispatch ring_map r (op_of r)) (spec_call dispatch r) any.
Proof.
  intros Hr. unfold call, spec_call.
  eapply sim_bind; [apply (sim_any _ empty), sim_flush|]. intros _.
  eapply sim_bind.
  { destruct (keeps_clean (op_of r)); [apply sim_skip|apply sim_dirty]. }
  intros _. apply sim_round; [done|]. intros st resp Hst Hlen Hans.
  assert (Ed : exists resp', decode_response (op_of r) (encode_response st resp) = Ok (st, resp') /\
                             (st = 0 -> resp' = resp)).
  { destruct (st =? 0) eqn:E0; bool_simpl.
    - subst st. destruct (Hans eq_refl). exists resp. by rewrite decode_response_ok.
    - exists Response.Ok. by rewrite decode_response_err. }
  destruct Ed as (resp' & -> & Eresp).
  apply sim_ret_l. eapply sim_bind.
  { destruct (is_begin r) eqn:Eb; [|destruct (is_end r) eqn:Ee].
    - destruct r; try done. destruct (st =? 0); [apply sim_deeper|apply sim_skip].
    - destruct r; try done. apply sim_shallower.
    - destruct r; try done; apply sim_skip. }
  intros _. destruct (negb (st =? 0)) eqn:E0; [apply sim_fail|]. bool_simpl.
  rewrite (Eresp E0). apply sim_ret.
Qed.

Lemma sim_self_if {A} (g : Client -> bool) (g' : Spec Sess -> bool) I J (m1 m2 : C Sess A) n1 n2 :
  (forall s buf, g (client_of s buf) = g' s) ->
  simI I m1 n1 J -> simI I m2 n2 J ->
  simI I (let@ c := self in if g c then m1 else m2) (fun s => if g' s then n1 s else n2 s) J.
Proof.
  intros Hg H1 H2 w s HR HI. destruct (id HR) as (h & ru & rw & -> & _).
  unfold cbind, self. cbn [cl W]. rewrite Hg. destruct (g' s); [by apply H1|by apply H2].
Qed.

Lemma sim_deferred r :
  sendable r ->
  simI any (call_deferred dispatch ring_map sync_forced r (op_of r))
    (spec_deferred dispatch sync_forced r) any.
Proof.
  intros Hr. unfold call_deferred, spec_deferred.
  eapply sim_bind; [apply sim_dirty|]. intros _.
  apply (sim_self_if (fun c => negb (defer_enabled c) || sync_forced r (op_of r))); [done| |].
  - eapply sim_bind; [by apply sim_call|]. intros _. apply sim_ret.
  - by apply sim_quiet, sendable_replayable.
Qed.

Lemma end_capture r : quietable r -> is_end_capture (encode_request r) = is_end r.
Proof. intros H. unfold is_end_capture. rewrite decode_quietable by done. by destruct r. Qed.
Lemma begin_capture r : quietable r -> is_begin_capture (encode_request r) = is_begin r.
Proof. intros H. unfold is_begin_capture. rewrite decode_quietable by done. by destruct r. Qed.

Lemma sim_raw_call r :
  sendable r -> simI any (raw_call dispatch ring_map (encode_request r)) (spec_raw_call dispatch r) any.
Proof.
  intros Hr. pose proof (sendable_quietable r Hr) as Hq. unfold raw_call, spec_raw_call.
  eapply sim_bind; [apply sim_dirty|]. intros _.
  eapply sim_bind; [apply (sim_any _ empty), sim_flush|]. intros _.
  rewrite end_capture by done.
  (* the round trip of a live connection succeeds, so the count goes down after it *)
  intros w s HR _. destruct (id HR) as (h & ru & rw & -> & Ha & Hp).
  rewrite round_trip_W by done. unfold pbind, spec_round_trip, pset, pret.
  pose proof (R_answered r s h ru rw Hr Ha Hp) as HR2.
  unfold answered in *. destruct (dispatch (h_sess (s_host s)) r) as [[st resp] sess].
  cbn [fst snd] in *. destruct (is_end r); [|done].
  split; [done|]. split; [|done]. by apply (sim_shallower _ _ HR2 I).
Qed.

Lemma sim_collect st : simI any (collect st) (spec_collect st) any.
Proof.
  intros w s (h & ru & rw & -> & Ha & Hp) _. rewrite collect_W. unfold spec_collect. cbn [fst snd].
  split; [done|]. split; [|done]. exists h, ru, rw. split; [done|].
  destruct Ha. case_bool_guard; by split.
Qed.

Lemma spec_raw_call_status r s p s' :
  spec_raw_call dispatch r s = (Ok p, s') -> 4 <= len p.
Proof.
  unfold spec_raw_call, pbind, pset. destruct (spec_flush dispatch (dirty s)) as [[|] s1]; [|done].
  unfold spec_round_trip. destruct (dispatch (h_sess (s_host s1)) r) as [[st resp] sess]. intros E. inv E.
  apply response_len.
Qed.

Lemma sim_raw_quiet r :
  sendable r -> simI any (raw_quiet dispatch ring_map (encode_request r)) (spec_raw_quiet dispatch r) any.
Proof.
  intros Hr. pose proof (sendable_quietable r Hr) as Hq. unfold raw_quiet, spec_raw_quiet.
  eapply sim_bind; [apply sim_dirty|]. intros _.
  apply (sim_self_if (fun c => negb (defer_enabled c))); [done| |].
  - intros w s HR _. destruct (sim_raw_call r Hr w s HR I) as (E & HR' & _).
    unfold cbind, pbind. destruct (raw_call _ _ _ w) as [[p|e] w'];
      destruct (spec_raw_call dispatch r s) as [[p'|e'] s'] eqn:Es; try done; cbn in E; inv E; [|done].
    unfold collect_payload. rewrite (proj2 (Z.leb_le _ _)) by by eapply spec_raw_call_status.
    by apply sim_collect.
  - eapply sim_bind; [apply sim_flush|]. intros _.
    eapply (sim_bind empty empty).
    { rewrite begin_capture by done. destruct (is_begin r); [by apply sim_set|done]. }
    intros _. apply (sim_any _ empty). by apply sim_direct.
Qed.

(** ** Synchronization *)

Lemma sim_take_sticky :
  simI any take_sticky (fun s => (Ok (s_sticky s), upd_sticky 0 s)) any.
Proof.
  intros w s (h & ru & rw & -> & Ha & Hp) _. split; [done|]. split; [|done].
  exists h, ru, rw. split; [done|]. destruct Ha. by split.
Qed.

Lemma sim_surface : simI any surface spec_surface any.
Proof.
  intros w s HR _. destruct (sim_take_sticky w s HR I) as (E & HR' & _).
  unfold surface, spec_surface, cbind. destruct (take_sticky w) as [[z|e] w']; cbn in E; inv E.
  cbn [fst snd] in *. destruct (s_sticky s =? 0); done.
Qed.

Lemma sendable_ctx_sync : sendable Request.CtxSynchronize.
Proof. by repeat split. Qed.
Lemma sendable_stream_sync stream : is_uint 64 stream -> sendable (Request.StreamSynchronize stream).
Proof. intros H. split; [done|]. split; [|done]. wire_norm. rewrite len_app, len_to_le. done. Qed.

Lemma sim_ctx_synchronize :
  simI any (ctx_synchronize dispatch ring_map) (spec_ctx_synchronize dispatch) any.
Proof.
  apply (sim_self_if (fun c => clean c && clean_all c && (sticky c =? 0))); [done|by apply sim_ret|].
  eapply sim_bind; [apply (sim_any _ empty), sim_drain_all|]. intros _.
  eapply sim_bind; [apply (sim_call _ sendable_ctx_sync)|]. intros _.
  eapply sim_bind; [by apply sim_pset|]. intros _. apply sim_surface.
Qed.

Lemma sim_stream_synchronize stream :
  is_uint 64 stream ->
  simI any (stream_synchronize dispatch ring_map stream) (spec_stream_synchronize dispatch stream) any.
Proof.
  intros Hs.
  apply (sim_self_if (fun c => clean c && (sticky c =? 0) && (clean_all c || (clean_stream c =? stream))));
    [done|by apply sim_ret|].
  eapply sim_bind; [apply (sim_any _ empty), sim_drain_all|]. intros _.
  eapply sim_bind; [apply (sim_call _ (sendable_stream_sync stream Hs))|]. intros _.
  eapply sim_bind; [by apply sim_pset|]. intros _. apply sim_surface.
Qed.

(** ** Whole programs *)

Definition op_ok (op : ClientOp) : Prop :=
  match op with
  | Call r | Deferred r | RawCall r | RawQuiet r => sendable r
  | StreamSynchronize stream => is_uint 64 stream
  | Drain | TakeSticky | CtxSynchronize => True
  end.

Lemma sim_answer {A} (f : A -> Answer) (m : C Sess A) n :
  simI any m n any -> simI any (let@ x := m in cret (f x)) (let$ x := n in pret (f x)) any.
Proof. intros H. eapply sim_bind; [done|]. intros x. apply sim_ret. Qed.

Lemma sim_op op :
  op_ok op ->
  simI any (client_op dispatch ring_map sync_forced op) (spec_op dispatch sync_forced op) any.
Proof.
  destruct op as [r|r|r|r| | | |stream]; intros Hop; cbn [client_op spec_op].
  - by apply sim_answer, sim_call.
  - by apply (sim_answer (fun _ => AUnit)), sim_deferred.
  - by apply sim_answer, sim_raw_call.
  - by apply (sim_answer (fun _ => AUnit)), sim_raw_quiet.
  - apply (sim_answer (fun _ => AUnit)), (sim_any _ empty), sim_drain_all.
  - apply (sim_answer AStatus _ (fun s => (Ok (s_sticky s), upd_sticky 0 s))), sim_take_sticky.
  - apply (sim_answer (fun _ => AUnit)), sim_ctx_synchronize.
  - by apply (sim_answer (fun _ => AUnit)), sim_stream_synchronize.
Qed.

Lemma sim_run ops : forall w s,
  Forall op_ok ops -> R w s ->
  (run_client dispatch ring_map sync_forced ops w).1 = (run_spec dispatch sync_forced ops s).1 /\
  R (run_client dispatch ring_map sync_forced ops w).2 (run_spec dispatch sync_forced ops s).2.
Proof.
  induction ops as [|op ops IH]; intros w s Hops HR; [done|]. inv Hops.
  cbn [run_client run_spec]. destruct (sim_op op H1 w s HR I) as (E & HR' & _).
  destruct (client_op _ _ _ op w) as [x w'], (spec_op _ _ op s) as [y s']. cbn in E, HR'. subst.
  destruct (IH w' s' H2 HR') as [E2 HR2].
  destruct (run_client _ _ _ ops w'), (run_spec _ _ ops s'). cbn in *. by subst.
Qed.

(** The specification of a fresh client, and its world. *)
Definition spec0 (sess : Sess) (async auto : bool) : Spec Sess :=
  MkSpec (MkHost sess 0) 0 0 [] [] 0 async auto (false, false, 0).
Definition world0 (sess : Sess) (async auto : bool) : World Sess :=
  MkWorld (new async auto) (Live (MkConn (MkHost sess 0) [] [] Waiting)).

Lemma R_start sess async auto : host_ok dispatch sess -> R (world0 sess async auto) (spec0 sess async auto).
Proof.
  intros Hs. exists (MkHost sess 0), [], []. split; [done|]. split; [by apply at_host_nil|].
  repeat split; [constructor|by right].
Qed.

(** Where the host will be once it has read all that was sent and buffered. *)
Definition reach (w : World Sess) : option (Host Sess) :=
  match link w with
  | Live c => Some (c_host (serve (MkConn (c_host c) (c_up c ++ wbuf (cl w)) (c_down c) (c_loop c))))
  | _ => None
  end.

Lemma reach_R w s : R w s -> reach w = Some (s_host s).
Proof.
  intros (h & ru & rw & -> & [Eh Hfr Hst Hd] & _). unfold reach. cbn [link W c_host c_up c_down c_loop cl client_of wbuf].
  rewrite <- quiet_frames_app. f_equal. unfold Pipe.serve. cbn [c_up].
  assert (Hl : exists fuel, length (quiet_frames (ru ++ rw)) = (length (ru ++ rw) + fuel)%nat).
  { exists (length (quiet_frames (ru ++ rw)) - length (ru ++ rw))%nat.
    pose proof (frames_length ((fun r => QUIET_PREFIX :: encode_request r) <$> (ru ++ rw))) as H.
    rewrite length_fmap in H. unfold quiet_frames. lia. }
  destruct Hl as [fuel ->]. rewrite <- (app_nil_r (quiet_frames (ru ++ rw))), serve_quiets by done.
  by rewrite serve_inner_stop.
Qed.

(** The only errors of the specification are statuses of the host. *)
Definition plain {A} (m : P Sess A) : Prop :=
  forall s, match (m s).1 with Ok _ | Err (Cuda _) => True | Err _ => False end.

Lemma plain_bind {A B} (m : P Sess A) (k : A -> P Sess B) :
  plain m -> (forall x, plain (k x)) -> plain (pbind m k).
Proof.
  intros Hm Hk s. unfold pbind. specialize (Hm s). destruct (m s) as [[x|[]] s']; try done. apply Hk.
Qed.
Lemma plain_fence : plain (@spec_fence Sess).
Proof. intros s. by rewrite (proj1 (spec_fence_facts s)). Qed.
Lemma plain_direct r : plain (spec_direct dispatch r).
Proof.
  apply plain_bind; [intros s; case_bool_guard; [apply plain_fence|done]|].
  intros _ s. by case_bool_guard.
Qed.
Lemma plain_all f rs : (forall r, plain (f r)) -> plain (spec_all (Sess := Sess) f rs).
Proof. intros Hf. induction rs as [|r rs IH]; [done|]. by apply plain_bind. Qed.
Lemma plain_flush : plain (spec_flush dispatch).
Proof. intros s. apply plain_all, plain_direct. Qed.
Lemma plain_drain : plain (spec_drain dispatch).
Proof. apply plain_bind; [apply plain_flush|intros _; apply plain_fence]. Qed.
Lemma plain_quiet r : plain (spec_quiet dispatch r).
Proof.
  intros s. unfold spec_quiet. case_bool_guard; [apply plain_direct|].
  destruct (is_begin r).
  { apply plain_bind; [apply plain_flush|]. intros _. by apply plain_bind; [apply plain_direct|]. }
  case_bool_guard; [case_bool_guard; [apply plain_flush|done]|].
  apply plain_bind; [apply plain_flush|]. intros _. apply plain_direct.
Qed.
Lemma plain_round r : plain (spec_round_trip dispatch r).
Proof. intros s. unfold spec_round_trip. by destruct (dispatch _ r). Qed.
Lemma plain_call r : plain (spec_call dispatch r).
Proof.
  apply plain_bind; [apply plain_flush|]. intros _. apply plain_bind; [done|]. intros _.
  apply plain_bind; [apply plain_round|]. intros [st resp]. apply plain_bind; [done|].
  intros _ s. by case_bool_guard.
Qed.
Lemma plain_raw_call r : plain (spec_raw_call dispatch r).
Proof.
  apply plain_bind; [done|]. intros _. apply plain_bind; [apply plain_flush|]. intros _.
  apply plain_bind; [apply plain_round|]. intros [st resp]. by apply plain_bind.
Qed.
Lemma plain_surface : plain (@spec_surface Sess).
Proof. intros s. unfold spec_surface. cbn. by case_bool_guard. Qed.

Lemma plain_sync r f :
  plain (let$ _ := spec_drain dispatch in let$ _ := spec_call dispatch r in
         let$ _ := pset f in spec_surface).
Proof.
  apply plain_bind; [apply plain_drain|]. intros _. apply plain_bind; [apply plain_call|].
  intros _. apply plain_bind; [done|]. intros _. apply plain_surface.
Qed.

Lemma plain_op op : plain (spec_op dispatch sync_forced op).
Proof.
  destruct op as [r|r|r|r| | | |stream]; cbn [spec_op]; try (apply plain_bind; [|done]).
  - apply plain_call.
  - apply plain_bind; [done|]. intros _ s. case_bool_guard; [|apply plain_quiet].
    by apply plain_bind; [apply plain_call|].
  - apply plain_raw_call.
  - apply plain_bind; [done|]. intros _ s. case_bool_guard.
    + by apply plain_bind; [apply plain_raw_call|].
    + apply plain_bind; [apply plain_flush|]. intros _. apply plain_bind; [done|].
      intros _. apply plain_direct.
  - apply plain_drain.
  - done.
  - intros s. unfold spec_ctx_synchronize. case_bool_guard; [done|].
    by apply plain_sync.
  - intros s. unfold spec_stream_synchronize. case_bool_guard; [done|].
    by apply plain_sync.
Qed.

Lemma plain_run ops : forall s,
  Forall (fun r => match r with Ok _ | Err (Cuda _) => True | Err _ => False end)
    (run_spec dispatch sync_forced ops s).1.
Proof.
  induction ops as [|op ops IH]; intros s; [constructor|]. cbn [run_spec].
  pose proof (plain_op op s) as H. destruct (spec_op _ _ op s) as [x s1].
  specialize (IH s1). destruct (run_spec _ _ ops s1). by apply List.Forall_cons.
Qed.

End Refine.

End PipeFacts.
