(* ===== verification/CudaPipeProps.v ===== *)
(** * Properties of the CUDA request pipeline

    Batching, framing and the lag of the host are invisible to the caller; a
    failed deferred request stops the ones behind it and is reported by the
    next synchronization; the journal replays on a new connection exactly the
    requests a dead one swallowed. *)

From S2P Require Import Prelude RustStr CudaProto CudaProtoFacts CudaProtoProps CudaPipe CudaPipeSpec CudaPipeFacts.

Module PipeProps.
Import Str Proto ProtoFacts ProtoProps Pipe PipeSpec PipeFacts.

Section Props.
Context {Sess : Type}.
Variable dispatch : Sess -> Request.Request -> (Z * Response.Response) * Sess.
Variable ring_map : Sess -> Request.Request -> option Z.
Variable sync_forced : Request.Request -> Op.Op -> bool.

(** ** Requests in order *)

(** A segment stands for the requests in it. *)
Definition flatten (rs : list Request.Request) : list Request.Request :=
  rs ≫= fun r =>
    match r with
    | Request.AutoGraphSegment ops =>
        omap (fun p => match decode_request p with Ok r => Some r | Err _ => None end) ops
    | r => [r]
    end.

(** Dispatching in order, up to the first failure and no further. *)
Fixpoint until_failure (s : Sess) (rs : list Request.Request) : Z * Sess :=
  match rs with
  | [] => (0, s)
  | r :: rs =>
      let '((st, _), s) := dispatch s r in
      if st =? 0 then until_failure s rs else (st, s)
  end.

Lemma fold_quiet_stuck rs : forall h : Host Sess,
  quiet_sticky h <> 0 -> fold_quiet dispatch h rs = h.
Proof.
  induction rs as [|r rs IH]; intros h Hh; [done|]. cbn.
  assert (E : (dispatch_quiet dispatch r h).2 = h).
  { unfold dispatch_quiet. by rewrite (proj2 (Z.eqb_neq _ _) Hh). }
  rewrite E. by apply IH.
Qed.

Lemma fold_quiet_until rs : forall s,
  fold_quiet dispatch (MkHost s 0) rs =
  MkHost (until_failure s rs).2 (until_failure s rs).1.
Proof.
  induction rs as [|r rs IH]; intros s; [done|].
  change (fold_quiet dispatch (MkHost s 0) (r :: rs))
    with (fold_quiet dispatch (dispatch_quiet dispatch r (MkHost s 0)).2 rs).
  unfold dispatch_quiet. cbn [quiet_sticky h_sess Z.eqb negb until_failure].
  destruct (dispatch s r) as [[st resp] s']. cbn [fst snd].
  destruct (st =? 0) eqn:E; cbn [negb]; [apply IH|]. bool_simpl. by apply fold_quiet_stuck.
Qed.

(** ** Growth of the pipeline between fences *)

Record grew (s s' : Spec Sess) (ss : list Request.Request) : Prop := {
  g_host : s_host s' = fold_quiet dispatch (s_host s) ss;
  g_unproven : s_unproven s' = s_unproven s ++ ss;
  g_deferred : s_deferred s' = s_deferred s + len ss;
  g_sticky : s_sticky s' = s_sticky s;
  g_auto : s_auto s' = s_auto s;
  g_defer : s_defer s' = s_defer s;
  g_clean : (s_clean s).1.1 = false -> (s_clean s').1.1 = false;
}.

Lemma grew_refl s : grew s s [].
Proof. split; try done; [by rewrite app_nil_r|]. change (len []) with 0. lia. Qed.
Lemma grew_trans s1 s2 s3 xs ys : grew s1 s2 xs -> grew s2 s3 ys -> grew s1 s3 (xs ++ ys).
Proof.
  intros [] []. split; try congruence; try tauto.
  - rewrite fold_quiet_app. congruence.
  - rewrite app_assoc. congruence.
  - rewrite len_app. lia.
Qed.

Lemma direct_grew r s :
  s_sticky s = 0 -> s_deferred s < MAX_DEFERRED ->
  exists s', spec_direct dispatch r s = (Ok tt, s') /\ grew s s' [r] /\
    s_pend s' = s_pend s /\ s_depth s' = s_depth s.
Proof.
  intros Hs Hd. unfold spec_direct, pbind. rewrite (proj2 (Z.leb_gt _ _)) by lia.
  cbn [fst snd]. rewrite Hs. cbn [Z.eqb negb]. eexists. split; [done|]. by repeat split.
Qed.

Lemma len_segment_le rs : len (segment rs) <= len rs.
Proof.
  destruct rs as [|r1 [|r2 rs]]; cbn [segment]; [done..|]. rewrite !len_cons, len_nil.
  pose proof (len_nonneg rs). lia.
Qed.

Lemma flush_grew s :
  s_sticky s = 0 -> s_deferred s + len (s_pend s) <= MAX_DEFERRED ->
  exists s', spec_flush dispatch s = (Ok tt, s') /\ grew s s' (segment (s_pend s)) /\
    s_pend s' = [] /\ s_depth s' = s_depth s.
Proof.
  intros Hs Hd. unfold spec_flush.
  assert (Hc : segment (s_pend s) = [] \/ exists r, segment (s_pend s) = [r] /\ 1 <= len (s_pend s)).
  { destruct (s_pend s) as [|r1 rs]; [by left|right]. rewrite len_cons.
    pose proof (len_nonneg rs). destruct rs; eexists; (split; [done|lia]). }
  destruct Hc as [->|(r & -> & Hl)].
  - eexists. split; [done|]. split; [|done].
    split; try done; cbn; [by rewrite app_nil_r|]. change (len []) with 0. lia.
  - cbn [spec_all]. unfold pbind at 1.
    destruct (direct_grew r (upd_pend [] s)) as (s' & -> & G & Hp & Hdep); [done|cbn; lia|].
    exists s'. split; [done|]. split; [|done]. destruct G. by split.
Qed.

(** Requests held back are eligible ones, so none is itself a segment. *)
Definition held (s : Spec Sess) : Prop :=
  Forall (fun r => sendable r /\ auto_graph_eligible r = true) (s_pend s) /\ pend_ok s.

Lemma held_nil s : s_pend s = [] -> held s.
Proof.
  intros E. unfold held, pend_ok. rewrite E. split; [constructor|].
  split; [constructor|]. split; [done|]. split; [done|]. by right.
Qed.

Lemma segment_replayable rs :
  Forall (fun r => sendable r /\ auto_graph_eligible r = true) rs -> seg_ok rs ->
  Forall replayable (segment rs).
Proof.
  intros H Hs. pose proof (segment_quietable rs Hs) as Hq.
  destruct rs as [|r1 [|r2 rs]]; cbn [segment] in *; [constructor| |].
  - inv H. apply List.Forall_cons; [by apply sendable_replayable, H2|constructor].
  - inv Hq. by apply List.Forall_cons.
Qed.

Lemma flatten_app xs ys : flatten (xs ++ ys) = flatten xs ++ flatten ys.
Proof. apply bind_app. Qed.

Lemma flatten_held rs :
  Forall (fun r => sendable r /\ auto_graph_eligible r = true) rs -> flatten rs = rs.
Proof.
  induction 1 as [|r rs [_ Hr] _ IH]; [done|].
  change (r :: rs) with ([r] ++ rs) at 1. rewrite flatten_app, IH. by destruct r.
Qed.

Lemma flatten_segment rs :
  Forall (fun r => sendable r /\ auto_graph_eligible r = true) rs -> flatten (segment rs) = rs.
Proof.
  intros H. destruct rs as [|r1 [|r2 rs]]; [done|by apply flatten_held|].
  unfold segment, flatten. set (l := r1 :: r2 :: rs) in *. cbn [mbind list_bind].
  rewrite app_nil_r. induction H as [|r l' [Hs _] _ IH]; [done|].
  cbn [fmap list_fmap omap list_omap]. rewrite (decode_quietable r) by by apply sendable_quietable. by f_equal.
Qed.

Lemma quiet_grew r s :
  replayable r -> held s -> s_sticky s = 0 -> s_deferred s + len (s_pend s) + 1 <= MAX_DEFERRED ->
  exists s' ss, spec_quiet dispatch r s = (Ok tt, s') /\ grew s s' ss /\ held s' /\
    Forall replayable ss /\
    flatten ss ++ s_pend s' = s_pend s ++ flatten [r] /\
    s_deferred s' + len (s_pend s') <= s_deferred s + len (s_pend s) + 1.
Proof.
  intros Hr [Hh Hok] Hs Hd. pose proof (len_nonneg (s_pend s)) as Hn. unfold spec_quiet.
  assert (Hflush : exists s' ss, (let$ _ := spec_flush dispatch in spec_direct dispatch r) s = (Ok tt, s') /\
            grew s s' ss /\ s_pend s' = [] /\ Forall replayable ss /\
            flatten ss = s_pend s ++ flatten [r] /\
            s_deferred s' <= s_deferred s + len (s_pend s) + 1).
  { destruct (flush_grew s) as (s1 & E1 & G1 & Hp1 & _); [done|lia|].
    pose proof (len_segment_le (s_pend s)) as Hl. destruct (id G1) as [_ _ Hd1 Hs1 _ _ _].
    destruct (direct_grew r s1) as (s2 & E2 & G2 & Hp2 & _); [congruence|lia|].
    exists s2, (segment (s_pend s) ++ [r]). unfold pbind. rewrite E1, E2. split; [done|].
    split; [by eapply grew_trans|]. split; [congruence|]. split.
    { apply Forall_app. split; [by apply segment_replayable, pend_seg|]. by apply List.Forall_cons. }
    rewrite flatten_app, flatten_segment by done. split; [done|].
    destruct G2 as [_ _ Hd2 _ _ _ _]. rewrite len_cons, len_nil in Hd2. lia. }
  destruct (s_auto s) eqn:Eauto; cbn [negb].
  2: { destruct Hok as (_ & _ & _ & [|Hp]); [congruence|].
       destruct (direct_grew r s) as (s' & E & G & Hp' & _); [done|lia|].
       exists s', [r]. rewrite Hp in *. split; [done|]. split; [done|].
       split; [by apply held_nil|]. split; [by apply List.Forall_cons|]. rewrite Hp'.
       split; [by rewrite app_nil_r|].
       destruct G as [_ _ Hd' _ _ _ _]. rewrite Hd', !len_cons, !len_nil. lia. }
  destruct Hflush as (s2 & ss & E & G & Hp & Hre & Hf & Hd2).
  destruct (is_begin r).
  { exists (deeper s2), ss. unfold pbind in *. destruct (spec_flush dispatch s) as [[]]; [|done].
    rewrite E. split; [done|]. split; [destruct G; by split|]. split; [by apply held_nil|].
    split; [done|]. cbn [s_pend s_deferred deeper upd_depth]. rewrite Hp, app_nil_r, len_nil.
    split; [done|lia]. }
  destruct (_ && _) eqn:Eel.
  2: { exists s2, ss. split; [done|]. split; [done|]. split; [by apply held_nil|]. split; [done|].
       rewrite Hp, app_nil_r, len_nil. split; [done|lia]. }
  apply andb_true_iff in Eel as [_ Eel]. destruct Hr as [_ Hr]. specialize (Hr Eel).
  set (s1 := upd_pend (s_pend s ++ [r]) s).
  assert (Hh1 : Forall (fun r => sendable r /\ auto_graph_eligible r = true) (s_pend s1)).
  { apply Forall_app. split; [done|]. by apply List.Forall_cons. }
  assert (Hl1 : len (s_pend s1) = len (s_pend s) + 1) by (subst s1; cbn; by rewrite len_app).
  assert (Hb1 : payload_bytes (s_pend s1) = payload_bytes (s_pend s) + len (encode_request r)).
  { subst s1. cbn [s_pend upd_pend]. rewrite payload_bytes_app, payload_bytes_cons.
    change (payload_bytes []) with 0. lia. }
  assert (Hr1 : flatten [r] = [r]) by by destruct r.
  assert (Hs1 : Forall sendable (s_pend s1)) by (eapply Forall_impl; [exact Hh1|by intros x []]).
  destruct (_ || _) eqn:Efull.
  - destruct (flush_grew s1) as (s3 & E3 & G3 & Hp3 & _); [done|cbn in *; lia|].
    exists s3, (segment (s_pend s1)). split; [done|]. destruct G3. split; [by split|].
    split; [by apply held_nil|]. split.
    { apply segment_replayable; [done|]. destruct Hok as (_ & Hl & Hb & _). destruct Hr as (_ & Hr & _).
      unfold AUTO_SEGMENT_MAX_BYTES, AUTO_SEGMENT_MAX_OPS in *. split; [done|].
      unfold AUTO_SEGMENT_MAX_OPS. lia. }
    rewrite Hp3, flatten_segment, app_nil_r, Hr1 by done. split; [done|].
    pose proof (len_segment_le (s_pend s1)). cbn in *. rewrite len_nil. lia.
  - apply orb_false_iff in Efull as [Ef1 Ef2]. bool_simpl.
    exists s1, []. split; [done|]. split; [|split].
    + split; try done; cbn; [by rewrite app_nil_r|]. change (len []) with 0. lia.
    + split; [done|]. split; [done|]. split; [done|]. split; [done|]. by left.
    + split; [constructor|]. rewrite Hr1. split; [done|]. cbn in *. lia.
Qed.

Lemma quiets_grew rs : forall s,
  Forall replayable rs -> held s -> s_sticky s = 0 ->
  s_deferred s + len (s_pend s) + len rs <= MAX_DEFERRED ->
  exists s' ss, spec_all (spec_quiet dispatch) rs s = (Ok tt, s') /\ grew s s' ss /\ held s' /\
    flatten ss ++ s_pend s' = s_pend s ++ flatten rs /\
    s_deferred s' + len (s_pend s') <= s_deferred s + len (s_pend s) + len rs.
Proof.
  induction rs as [|r rs IH]; intros s Hrs Hh Hs Hd.
  - exists s, []. split; [done|]. split; [apply grew_refl|]. split; [done|].
    rewrite app_nil_r, len_nil. split; [done|lia].
  - inv Hrs. rewrite len_cons in *. pose proof (len_nonneg rs).
    destruct (quiet_grew r s) as (s1 & ss1 & E1 & G1 & Hh1 & _ & F1 & D1); [done..|lia|].
    destruct (IH s1) as (s2 & ss2 & E2 & G2 & Hh2 & F2 & D2);
      [done|done|by destruct G1; congruence|lia|].
    exists s2, (ss1 ++ ss2). cbn [spec_all]. unfold pbind. rewrite E1, E2. split; [done|].
    split; [by eapply grew_trans|]. split; [done|].
    rewrite flatten_app, <- app_assoc, F2, app_assoc, F1, <- app_assoc. split; [|lia].
    by rewrite <- flatten_app.
Qed.

(** A drain with nothing collected yet moves the host's failure to the client. *)
Lemma drain_grew s :
  held s -> s_sticky s = 0 -> s_deferred s + len (s_pend s) <= MAX_DEFERRED -> 0 <= s_deferred s ->
  (s_deferred s = 0 -> quiet_sticky (s_host s) = 0) ->
  exists s' ss, spec_drain dispatch s = (Ok tt, s') /\ flatten ss = s_pend s /\
    s_host s' = MkHost (h_sess (fold_quiet dispatch (s_host s) ss)) 0 /\
    s_sticky s' = quiet_sticky (fold_quiet dispatch (s_host s) ss) /\
    s_pend s' = [].
Proof.
  intros [Hh _] Hs Hd H0 Hz. destruct (flush_grew s Hs Hd) as (s1 & E1 & G1 & Hp1 & _).
  unfold spec_drain, pbind. rewrite E1. exists (spec_fence s1).2, (segment (s_pend s)).
  destruct G1 as [Gh Gu Gd Gs Ga Gf Gc]. rewrite flatten_segment by done.
  assert (Hcase : s_deferred s1 = 0 -> segment (s_pend s) = [] /\ s_deferred s = 0).
  { intros E. pose proof (len_nonneg (segment (s_pend s))).
    destruct (segment (s_pend s)) as [|x xs]; [split; [done|change (len []) with 0 in *; lia]|].
    rewrite len_cons in *. pose proof (len_nonneg xs). lia. }
  unfold spec_fence. destruct (s_deferred s1 =? 0) eqn:E; bool_simpl.
  - destruct (Hcase E) as [Eseg Ed]. rewrite Eseg in *. cbn in Gh.
    cbn [fst snd fold_quiet fold_left]. rewrite Gh, Gs, Hp1, Hs. specialize (Hz Ed).
    destruct (s_host s) as [x y]; cbn in *. by subst y.
  - cbn [fst snd s_sticky upd_unproven upd_deferred upd_host]. rewrite Gs, Hs, Z.eqb_refl, andb_true_r.
    destruct (quiet_sticky (s_host s1) =? 0) eqn:Eq; cbn; rewrite <- Gh; bool_simpl;
      repeat split; try done; congruence.
Qed.

(** ** Theorems *)

Context `{HA : !Answering dispatch}.

(** ** A connection that swallows writes

    As long as nothing is read, the client cannot tell a dead connection from a
    live one. *)

Definition blind {A} (I : Client -> Prop) (m : C Sess A) (J : Client -> Prop) : Prop :=
  forall c conn, I c ->
  (m (MkWorld c Swallowing)).1 = (m (MkWorld c (Live conn))).1 /\
  cl (m (MkWorld c Swallowing)).2 = cl (m (MkWorld c (Live conn))).2 /\
  link (m (MkWorld c Swallowing)).2 = Swallowing /\
  (exists conn', link (m (MkWorld c (Live conn))).2 = Live conn') /\
  (is_ok (m (MkWorld c Swallowing)).1 = true -> J (cl (m (MkWorld c Swallowing)).2)).

Lemma blind_bind {A B} I J K (m : C Sess A) (k : A -> C Sess B) :
  blind I m J -> (forall x, blind J (k x) K) -> blind I (cbind m k) K.
Proof.
  intros Hm Hk c conn HI. destruct (Hm c conn HI) as (E & Ec & El & (conn' & El') & HJ).
  unfold cbind. destruct (m (MkWorld c Swallowing)) as [[x|e] [c1 l1]];
    destruct (m (MkWorld c (Live conn))) as [[y|e'] [c2 l2]]; cbn in *; try done; subst; inv E.
  - by apply Hk, HJ.
  - by repeat split; eauto.
Qed.

Lemma blind_self {A} I J (k : Client -> C Sess A) :
  (forall c0, blind (fun c => I c /\ c = c0) (k c0) J) -> blind I (cbind self k) J.
Proof. intros Hk c conn HI. by apply (Hk c c conn). Qed.

Lemma blind_ret {A} (I J : Client -> Prop) (x : A) :
  (forall c, I c -> J c) -> blind I (cret x : C Sess A) J.
Proof. intros H c conn HI. cbn. eauto 10. Qed.

Lemma blind_fail {A} (I J : Client -> Prop) e : blind I (cfail e : C Sess A) J.
Proof. intros c conn HI. by repeat split; eauto. Qed.

Lemma blind_set (I J : Client -> Prop) f :
  (forall c, I c -> J (f c)) -> blind I (set f : C Sess unit) J.
Proof. intros H c conn HI. cbn. eauto 10. Qed.

Lemma blind_pre {A} (I I' J : Client -> Prop) (m : C Sess A) :
  (forall c, I' c -> I c) -> blind I m J -> blind I' m J.
Proof. intros HI H c conn HI'. by apply H, HI. Qed.

(** Room for [n] more requests before a fence. *)
Definition room (n : Z) (c : Client) : Prop :=
  defer_enabled c = true /\ deferred c + len (auto_ops c) + n <= MAX_DEFERRED.

Lemma blind_flush_wbuf n : blind (room n) (flush_wbuf : C Sess unit) (room n).
Proof.
  apply blind_self. intros c0. case_bool_guard; [apply blind_ret; by intros c []|].
  apply (blind_bind _ (room n)); [|intros _; by apply blind_set].
  intros c conn [HI ->]. cbn. eauto 10.
Qed.

Lemma blind_ignore n : blind (room n) (ignore flush_wbuf : C Sess unit) (room n).
Proof.
  intros c conn HI. destruct (blind_flush_wbuf n c conn HI) as (E & Ec & El & Hl & HJ).
  unfold ignore. cbn [fst snd]. split; [done|]. split; [done|]. split; [done|]. split; [done|].
  intros _. apply HJ. unfold flush_wbuf, cbind, self, stream_write, set. cbn. by case_bool_guard.
Qed.

Lemma blind_direct p n :
  0 <= n -> blind (room (n + 1)) (enqueue_quiet_direct dispatch ring_map p) (room n).
Proof.
  intros Hn. unfold enqueue_quiet_direct. cbn [enqueue_direct]. apply blind_self. intros c0.
  eapply (blind_bind _ (room (n + 1))).
  { intros c conn [HI ->]. destruct (id HI) as [_ Hd]. pose proof (len_nonneg (auto_ops c0)).
    rewrite (proj2 (Z.leb_gt _ _)) by lia. cbn. eauto 10. }
  intros _. apply blind_self. intros c1. case_bool_guard.
  { apply (blind_bind _ (fun _ => True)); [|intros; apply blind_fail].
    apply blind_self. intros c2. apply (blind_bind _ (fun _ => True)); [by apply blind_set|].
    intros _. by apply blind_ret. }
  apply (blind_bind _ (room (n + 1))); [apply blind_set; by intros c []|]. intros _.
  apply (blind_bind _ (room (n + 1))); [by apply blind_set|]. intros _.
  apply (blind_bind _ (room n)).
  { apply blind_set. unfold room. cbn. intros c [Hde Hc]. split; [done|lia]. }
  intros _. apply blind_self. intros c2. case_bool_guard.
  - eapply blind_pre; [|apply blind_ignore]. by intros c [].
  - apply blind_ret. by intros c [].
Qed.

Lemma blind_flush n :
  0 <= n ->
  blind (room n) (flush_auto_segment dispatch ring_map) (room n).
Proof.
  intros Hn. unfold flush_auto_segment, flush_auto_with. apply blind_self. intros c0.
  assert (Ht : exists ps, take_auto_payloads c0 = (ps, set_auto [] 0 c0) /\
                          (ps = [] \/ exists q, ps = [q] /\ 1 <= len (auto_ops c0))).
  { unfold take_auto_payloads. destruct (auto_ops c0) as [|x [|y l]]; eexists; (split; [done|]);
      [by left|right; eexists; (split; [done|]); rewrite !len_cons..].
    - by rewrite len_nil.
    - pose proof (len_nonneg l). lia. }
  destruct Ht as (ps & -> & Hps).
  destruct Hps as [->|(q & -> & Hl)]; cbn [enqueue_all].
  - apply (blind_bind _ (room n)); [|intros _; by apply blind_ret].
    apply blind_set. intros c [[Hde HI] ->]. unfold room in *. cbn.
    pose proof (len_nonneg (auto_ops c0)). change (len []) with 0. split; [done|lia].
  - apply (blind_bind _ (room (n + 1))).
    { apply blind_set. intros c [[Hde HI] ->]. unfold room in *. cbn. change (len []) with 0.
      split; [done|lia]. }
    intros _. apply (blind_bind _ (room n)); [by apply blind_direct|]. intros _. by apply blind_ret.
Qed.

Lemma len_snoc {A} (l : list A) x : len (l ++ [x]) = len l + 1.
Proof. by rewrite len_app. Qed.

Lemma blind_quiet r n :
  0 <= n -> decode_request (encode_request r) = Ok r ->
  blind (room (n + 1)) (enqueue_quiet dispatch ring_map (encode_request r)) (room n).
Proof.
  intros Hn Ed.
  assert (Hplain : blind (room (n + 1))
    (let@ _ := flush_auto_segment dispatch ring_map in
     enqueue_quiet_direct dispatch ring_map (encode_request r)) (room n)).
  { eapply blind_bind; [apply blind_flush; lia|]. intros _. by apply blind_direct. }
  intros c conn HI. rewrite !enqueue_quiet_eq by done. cbn [cl].
  destruct (auto_graph c); [|by apply blind_direct].
  destruct (is_begin r).
  { revert c conn HI. apply (blind_bind _ (room (n + 1))); [apply blind_flush; lia|]. intros _.
    apply (blind_bind _ (room n)); [by apply blind_direct|]. intros _. by apply blind_set. }
  destruct (_ && _); [|by apply Hplain].
  revert c conn HI. apply (blind_bind _ (room n)).
  { apply blind_set. unfold room. cbn. intros c [Hde Hc]. rewrite len_snoc. split; [done|lia]. }
  intros _. apply blind_self. intros c1. case_bool_guard.
  - eapply blind_pre; [|by apply blind_flush]. by intros c [].
  - apply blind_ret. by intros c [].
Qed.

Lemma blind_deferred r n :
  0 <= n -> decode_request (encode_request r) = Ok r -> sync_forced r (op_of r) = false ->
  blind (room (n + 1)) (client_op dispatch ring_map sync_forced (Deferred r)) (room n).
Proof.
  intros Hn Ed Hf. cbn [client_op]. apply (blind_bind _ (room n)); [|intros _; by apply blind_ret].
  unfold call_deferred. apply (blind_bind _ (room (n + 1))); [by apply blind_set|]. intros _.
  apply blind_self. intros c0. rewrite Hf, orb_false_r. destruct (defer_enabled c0) eqn:E; cbn [negb].
  - eapply blind_pre; [|by apply blind_quiet]. by intros c [].
  - intros c conn [[Hde _] ->]. congruence.
Qed.

Lemma blind_run rs : forall c conn,
  Forall sendable rs -> Forall (fun r => sync_forced r (op_of r) = false) rs -> room (len rs) c ->
  Forall (fun a => is_ok a = true)
    (run_client dispatch ring_map sync_forced (Deferred <$> rs) (MkWorld c (Live conn))).1 ->
  (run_client dispatch ring_map sync_forced (Deferred <$> rs) (MkWorld c Swallowing)).1 =
  (run_client dispatch ring_map sync_forced (Deferred <$> rs) (MkWorld c (Live conn))).1 /\
  cl (run_client dispatch ring_map sync_forced (Deferred <$> rs) (MkWorld c Swallowing)).2 =
  cl (run_client dispatch ring_map sync_forced (Deferred <$> rs) (MkWorld c (Live conn))).2.
Proof.
  induction rs as [|r rs IH]; intros c conn Hrs Hpl Hroom Hok; [done|].
  apply List.Forall_cons_iff in Hrs as [Hr Hrs]. apply List.Forall_cons_iff in Hpl as [Hp1 Hpl].
  change (Deferred <$> r :: rs) with (Deferred r :: (Deferred <$> rs)) in *. cbn [run_client] in *.
  rewrite len_cons, Z.add_comm in Hroom.
  destruct (blind_deferred r (len rs) (len_nonneg rs)
     (decode_quietable r (sendable_quietable r Hr)) Hp1 c conn Hroom) as (E & Ec & El & (conn' & El') & HJ).
  destruct (client_op _ _ _ _ (MkWorld c Swallowing)) as [x [c1 l1]].
  destruct (client_op _ _ _ _ (MkWorld c (Live conn))) as [y [c2 l2]]. cbn [fst snd cl link] in *.
  subst x c2 l1 l2. destruct (run_client _ _ _ _ (MkWorld c1 (Live conn'))) as [ys w2] eqn:E2.
  cbn [fst] in Hok. apply List.Forall_cons_iff in Hok as [Hy Hok].
  specialize (IH c1 conn' Hrs Hpl (HJ Hy)). rewrite E2 in IH. destruct (IH Hok) as [E3 E4].
  destruct (run_client _ _ _ _ (MkWorld c1 Swallowing)). cbn in *. by subst.
Qed.

(** C5: The socket is invisible. A program of client operations
    run on a fresh connection returns what it returns when each request is a
    function call on the host: batching, framing, flushing thresholds, graph
    segments and the host's lag change no answer. Every operation returns, and
    fails only with a status of the host. Once the host has read what was sent
    it is in the specified state, and the journal holds exactly the deferred
    requests that no response has covered. *)
Theorem pipeline_refines (sess : Sess) (async auto : bool) (ops : list ClientOp) :
  host_ok dispatch sess -> Forall op_ok ops ->
  let '(answers, w) := run_client dispatch ring_map sync_forced ops (world0 sess async auto) in
  let '(expected, s) := run_spec dispatch sync_forced ops (spec0 sess async auto) in
  answers = expected /\
  Forall (fun r => match r with Ok _ | Err (Cuda _) => True | Err _ => False end) answers /\
  reach dispatch ring_map w = Some (s_host s) /\
  journal (cl w) = encode_request <$> s_unproven s /\
  auto_ops (cl w) = encode_request <$> s_pend s /\
  sticky (cl w) = s_sticky s.
Proof.
  intros Hs Hops.
  destruct (sim_run dispatch ring_map sync_forced ops _ _ Hops
              (R_start dispatch sess async auto Hs)) as [E HR].
  pose proof (plain_run dispatch sync_forced ops (spec0 sess async auto)) as Hplain.
  destruct (run_client _ _ _ ops _) as [xs w], (run_spec _ _ ops _) as [ys s]. cbn in *. subst.
  split; [done|]. split; [done|]. split; [by eapply reach_R|].
  by destruct HR as (h & ru & rw & -> & _).
Qed.

Lemma run_spec_app xs ys s :
  run_spec dispatch sync_forced (xs ++ ys) s =
  let '(a, s1) := run_spec dispatch sync_forced xs s in
  let '(b, s2) := run_spec dispatch sync_forced ys s1 in (a ++ b, s2).
Proof.
  revert s. induction xs as [|x xs IH]; intros s; cbn [app run_spec].
  - by destruct (run_spec _ _ ys s).
  - destruct (spec_op _ _ x s) as [r s1]. rewrite IH.
    destruct (run_spec _ _ xs s1) as [a s2]. by destruct (run_spec _ _ ys s2).
Qed.

Definition plain_defer (rs : list Request.Request) : Prop :=
  Forall (fun r => sync_forced r (op_of r) = false) rs.

Lemma deferreds_run rs : forall s,
  Forall sendable rs -> plain_defer rs -> held s -> s_defer s = true -> s_sticky s = 0 ->
  s_deferred s + len (s_pend s) + len rs <= MAX_DEFERRED ->
  exists s' ss, run_spec dispatch sync_forced (Deferred <$> rs) s = (replicate (length rs) (Ok AUnit), s') /\
    grew s s' ss /\ held s' /\ Forall replayable ss /\
    flatten ss ++ s_pend s' = s_pend s ++ flatten rs /\
    s_deferred s' + len (s_pend s') <= s_deferred s + len (s_pend s) + len rs.
Proof.
  induction rs as [|r rs IH]; intros s Hrs Hpl Hh Hde Hs Hd.
  - exists s, []. split; [done|]. split; [apply grew_refl|]. split; [done|]. split; [constructor|].
    rewrite app_nil_r, len_nil. split; [done|lia].
  - apply List.Forall_cons_iff in Hrs as [Hr Hrs]. apply List.Forall_cons_iff in Hpl as [Hp1 Hpl].
    rewrite len_cons in *. pose proof (len_nonneg rs).
    destruct (quiet_grew r (dirty s)) as (s1 & ss1 & E1 & G1 & Hh1 & Hq1 & F1 & D1);
      [by apply sendable_replayable|done|done|cbn; lia|].
    change (s_pend (dirty s)) with (s_pend s) in F1, D1.
    change (s_deferred (dirty s)) with (s_deferred s) in D1.
    destruct (IH s1) as (s2 & ss2 & E2 & G2 & Hh2 & Hq2 & F2 & D2);
      [done|done|done|by destruct G1; cbn in *; congruence|by destruct G1; cbn in *; congruence|lia|].
    exists s2, (ss1 ++ ss2).
    assert (Ed : spec_op dispatch sync_forced (Deferred r) s = (Ok AUnit, s1)).
    { cbn [spec_op]. unfold spec_deferred, pbind, pset. cbn [s_defer dirty upd_clean].
      rewrite Hde, Hp1. cbn [negb orb]. by rewrite E1. }
    change (Deferred <$> r :: rs) with (Deferred r :: (Deferred <$> rs)). cbn [run_spec length replicate].
    rewrite Ed, E2. split; [done|].
    split; [|split; [done|split; [by apply Forall_app|]]].
    + eapply grew_trans; [|exact G2]. destruct G1. split; auto.
    + rewrite flatten_app, <- app_assoc, F2, app_assoc, F1, <- app_assoc. split; [|lia].
      by rewrite <- flatten_app.
Qed.

Lemma ctx_sync_run s1 s2 sess1 :
  (s_clean s1).1.1 = false -> spec_drain dispatch s1 = (Ok tt, s2) ->
  s_pend s2 = [] -> s_host s2 = MkHost sess1 0 ->
  exists s3, spec_op dispatch sync_forced CtxSynchronize s1 =
    (let st := (dispatch sess1 Request.CtxSynchronize).1.1 in
     if negb (st =? 0) then Err (Cuda st) else
     if s_sticky s2 =? 0 then Ok AUnit else Err (Cuda (s_sticky s2)), s3) /\
    s_host s3 = MkHost (dispatch sess1 Request.CtxSynchronize).2 0.
Proof.
  intros Hc Hd Hp Hh. cbn [spec_op]. unfold spec_ctx_synchronize, spec_call, spec_flush.
  unfold pbind, pset. rewrite Hc. cbn [andb]. rewrite Hd, Hp. cbn [segment spec_all].
  unfold pret, spec_round_trip. change (keeps_clean (op_of Request.CtxSynchronize)) with true.
  cbn [s_host upd_pend is_begin is_end]. rewrite Hh. cbn [h_sess quiet_sticky].
  destruct (dispatch sess1 Request.CtxSynchronize) as [[st resp] sess2]. cbn [fst snd].
  destruct (st =? 0); cbn [negb]; [|by eexists].
  unfold spec_surface. cbn. destruct (s_sticky s2 =? 0); by eexists.
Qed.

(** Up to [MAX_DEFERRED] deferred requests are answered at once, and a
    synchronization settles the account: the host has dispatched the deferred
    requests in program order (segments standing for the requests in them) up
    to the first failure and none after it, and the synchronization returns
    that failure. [PipeAccount] has the account for any number. *)
Theorem sync_reports_failure (sess : Sess) (auto : bool) (rs : list Request.Request) :
  host_ok dispatch sess -> Forall sendable rs -> plain_defer rs -> len rs <= MAX_DEFERRED ->
  let '(answers, w) := run_client dispatch ring_map sync_forced
                         ((Deferred <$> rs) ++ [CtxSynchronize]) (world0 sess true auto) in
  exists ss, flatten ss = flatten rs /\
    let '(code, s1) := until_failure sess ss in
    let '((st, _), s2) := dispatch s1 Request.CtxSynchronize in
    answers = replicate (length rs) (Ok AUnit) ++
      [if negb (st =? 0) then Err (Cuda st) else if code =? 0 then Ok AUnit else Err (Cuda code)] /\
    reach dispatch ring_map w = Some (MkHost s2 0).
Proof.
  intros Hs Hrs Hpl Hl.
  assert (Hops : Forall op_ok ((Deferred <$> rs) ++ [CtxSynchronize])).
  { apply Forall_app. split; [|by apply List.Forall_cons]. by apply Forall_fmap. }
  destruct (sim_run dispatch ring_map sync_forced _ _ _ Hops
              (R_start dispatch sess true auto Hs)) as [E HR].
  destruct (run_client _ _ _ _ _) as [xs w]. cbn [fst snd] in E, HR. subst xs.
  assert (Hh0 : held (spec0 sess true auto)) by (by apply held_nil).
  destruct (deferreds_run rs (spec0 sess true auto) Hrs Hpl Hh0 eq_refl eq_refl) as
    (s1 & ss1 & E1 & G1 & Hh1 & _ & F1 & D1); [change (0 + 0 + len rs <= MAX_DEFERRED); lia|].
  rewrite run_spec_app, E1 in HR |- *. cbn [s_pend s_deferred spec0 app] in F1, D1.
  change (len []) with 0 in D1. destruct G1 as [Gh Gu Gd Gs Ga Gf Gc]. cbn in Gh, Gd, Gs.
  destruct (drain_grew s1) as (s2 & ss2 & E2 & F2 & Eh2 & Es2 & Hp2); [done|done|lia| | |].
  { pose proof (len_nonneg ss1). lia. }
  { intros E0. destruct ss1 as [|x xs]; [by rewrite Gh|]. rewrite len_cons in Gd.
    pose proof (len_nonneg xs). lia. }
  exists (ss1 ++ ss2). split; [by rewrite flatten_app, F2|].
  rewrite Gh, <- fold_quiet_app, fold_quiet_until in Eh2, Es2. cbn [h_sess quiet_sticky] in Eh2, Es2.
  destruct (until_failure sess (ss1 ++ ss2)) as [code sess1]. cbn [fst snd] in *.
  destruct (ctx_sync_run s1 s2 sess1) as (s3 & E3 & Eh3); [by apply Gc|done..|].
  cbn [run_spec] in HR |- *. rewrite E3 in HR |- *. rewrite Es2.
  destruct (dispatch sess1 Request.CtxSynchronize) as [[st resp] sess2]. cbn [fst snd] in *.
  split; [done|]. rewrite <- Eh3. by eapply reach_R.
Qed.

(** ** Reconnecting *)

(** A client with nothing outstanding, as at a fork point. *)
Definition quiescent (c : Client) : Prop :=
  deferred c = 0 /\ sticky c = 0 /\ wbuf c = [] /\ journal c = [] /\
  auto_ops c = [] /\ auto_bytes c = 0 /\ defer_enabled c = true.

Definition spec_of (c : Client) (sess : Sess) : Spec Sess :=
  MkSpec (MkHost sess 0) 0 0 [] [] (explicit_capture_depth c) true (auto_graph c)
    (clean c, clean_all c, clean_stream c).

Lemma quiescent_spec c sess : quiescent c -> c = client_of (spec_of c sess) [].
Proof.
  destruct c as [d st de cn ca cs wb j ag ao ab dep]. unfold quiescent, client_of, spec_of. cbn.
  by intros (-> & -> & -> & -> & -> & -> & ->).
Qed.

Lemma take_journal_of (s : Spec Sess) buf :
  (take_journal (client_of s buf)).1 =
  (encode_request <$> (s_unproven s ++ segment (s_pend s)), s_sticky s).
Proof. unfold take_journal. rewrite take_auto_W. cbn. by rewrite fmap_app. Qed.

(** The requests a dead connection swallowed, as the journal holds them. *)
Lemma swallowed_journal c rs :
  quiescent c -> Forall sendable rs -> plain_defer rs -> len rs <= MAX_DEFERRED -> forall sess, host_ok dispatch sess ->
  let '(answers, w) := run_client dispatch ring_map sync_forced (Deferred <$> rs)
                         (MkWorld c Swallowing) in
  exists ss, answers = replicate (length rs) (Ok AUnit) /\
    (take_journal (cl w)).1 = (encode_request <$> ss, 0) /\
    Forall replayable ss /\ flatten ss = flatten rs /\ len ss <= len rs.
Proof.
  intros Hq Hrs Hpl Hl sess Hs. set (s0 := spec_of c sess).
  set (conn := MkConn (MkHost sess 0) [] [] Waiting).
  assert (HR0 : R dispatch (MkWorld c (Live conn)) s0).
  { exists (MkHost sess 0), [], []. split; [unfold W; f_equal; exact (quiescent_spec c sess Hq)|].
    split; [by apply at_host_nil|]. by apply held_nil. }
  assert (Hops : Forall op_ok (Deferred <$> rs)) by by apply Forall_fmap.
  destruct (sim_run dispatch ring_map sync_forced _ _ _ Hops HR0) as [E HR].
  destruct (deferreds_run rs s0 Hrs Hpl (held_nil s0 eq_refl) eq_refl eq_refl) as
    (s1 & ss1 & E1 & G1 & Hh1 & Hq1 & F1 & D1); [change (0 + 0 + len rs <= MAX_DEFERRED); lia|].
  rewrite E1 in E, HR. cbn [fst snd] in E, HR.
  assert (Hroom : room (len rs) c).
  { unfold room. destruct Hq as (-> & _ & _ & _ & -> & _ & Hde). split; [done|].
    change (0 + 0 + len rs <= MAX_DEFERRED). lia. }
  assert (Hok : Forall (fun a => is_ok a = true)
     (run_client dispatch ring_map sync_forced (Deferred <$> rs) (MkWorld c (Live conn))).1).
  { rewrite E. by apply Forall_replicate. }
  destruct (blind_run rs c conn Hrs Hpl Hroom Hok) as [Ea Ec].
  destruct (run_client _ _ _ _ (MkWorld c Swallowing)) as [answers w]. cbn [fst snd] in *.
  exists (ss1 ++ segment (s_pend s1)). rewrite Ea, E, Ec. split; [done|].
  destruct HR as (h & ru & rw & -> & _). cbn [cl W]. rewrite take_journal_of.
  destruct G1 as [Gh Gu Gd Gs _ _ _]. rewrite Gu, Gs. split; [done|].
  destruct Hh1 as [Hh1 Hp1]. split.
  { apply Forall_app. split; [done|]. by apply segment_replayable, pend_seg. }
  rewrite flatten_app, flatten_segment, F1, len_app by done. split; [done|].
  pose proof (len_segment_le (s_pend s1)). change (s_deferred s0) with 0 in *.
  change (len (s_pend s0)) with 0 in D1. lia.
Qed.

(** Replaying and draining, step by step what the specification does. *)
Lemma replay_sim ss st :
  Forall replayable ss ->
  simI dispatch any
    (let@ _ := replay_journal dispatch ring_map (encode_request <$> ss) st in drain dispatch ring_map)
    (let$ _ := let$ _ := pset (fun s : Spec Sess => if s_sticky s =? 0 then upd_sticky st s else s) in
               spec_all (spec_quiet dispatch) ss in spec_drain dispatch) any.
Proof.
  intros Hss. eapply sim_bind; [|intros _; eapply sim_any, sim_drain_all; done].
  change (replay_journal dispatch ring_map (encode_request <$> ss) st) with
    (let@ _ := (let@ c := self in if sticky c =? 0 then set (set_sticky st) else cret tt) in
     enqueue_all (enqueue_quiet dispatch ring_map) (encode_request <$> ss)).
  eapply (sim_bind dispatch _ any).
  - intros w s (h & ru & rw & -> & Ha & Hp) _.
    unfold cbind, self, pset. cbn [cl W client_of sticky]. destruct (s_sticky s =? 0).
    + split; [done|]. split; [|done]. exists h, ru, rw. split; [done|]. destruct Ha. by split.
    + split; [done|]. split; [|done]. by exists h, ru, rw.
  - intros _. apply sim_all. intros r Hr. apply sim_quiet; [done..|].
    by apply (proj1 (List.Forall_forall _ _) Hss).
Qed.

(** C15: A forked clone loses nothing. From a quiescent client,
    up to 512 requests deferred on a connection that swallows them are all
    answered; the journal then replayed on a fresh connection and drained
    dispatches exactly those requests there, in order (segments standing for
    the requests in them), up to the first failure, which the drain collects. *)
Theorem reconnect_lossless (c : Client) (rs : list Request.Request) (sess : Sess) (auto : bool) :
  host_ok dispatch sess ->
  quiescent c -> Forall sendable rs -> plain_defer rs -> len rs <= MAX_DEFERRED ->
  let '(answers, w) := run_client dispatch ring_map sync_forced (Deferred <$> rs)
                         (MkWorld c Swallowing) in
  let '(ops, st) := (take_journal (cl w)).1 in
  let '(r, w2) := (let@ _ := replay_journal dispatch ring_map ops st in
                   drain dispatch ring_map) (world0 sess true auto) in
  answers = replicate (length rs) (Ok AUnit) /\ r = Ok tt /\
  exists ss, flatten ss = flatten rs /\
    reach dispatch ring_map w2 = Some (MkHost (until_failure sess ss).2 0) /\
    sticky (cl w2) = (until_failure sess ss).1.
Proof.
  intros Hs Hq Hrs Hpl Hl. pose proof (swallowed_journal c rs Hq Hrs Hpl Hl sess Hs) as H.
  destruct (run_client _ _ _ _ (MkWorld c Swallowing)) as [answers w].
  destruct H as (ss & Ha & -> & Hre & Hf & Hls).
  destruct (quiets_grew ss (spec0 sess true auto) Hre (held_nil (spec0 sess true auto) eq_refl) eq_refl)
    as (s1 & ss1 & E1 & G1 & Hh1 & F1 & D1); [change (0 + 0 + len ss <= MAX_DEFERRED); lia|].
  change (s_pend (spec0 sess true auto)) with (@nil Request.Request) in F1, D1.
  change (s_deferred (spec0 sess true auto)) with 0 in D1. change (len []) with 0 in D1.
  destruct G1 as [Gh Gu Gd Gs _ _ _]. change (s_deferred (spec0 sess true auto)) with 0 in Gd.
  destruct (drain_grew s1) as (s2 & ss2 & E2 & F2 & Eh2 & Es2 & _); [done|done|lia| | |].
  { pose proof (len_nonneg ss1). lia. }
  { intros E0. destruct ss1 as [|x xs]; [by rewrite Gh|]. rewrite len_cons in Gd.
    pose proof (len_nonneg xs). lia. }
  destruct (replay_sim ss 0 Hre (world0 sess true auto) (spec0 sess true auto)
              (R_start dispatch sess true auto Hs) I) as (E & HR & _).
  unfold pbind, pset in E, HR. cbn [s_sticky spec0] in E, HR. change (0 =? 0) with true in E, HR.
  change (upd_sticky 0 (spec0 sess true auto)) with (spec0 sess true auto) in E, HR.
  cbv iota in E, HR. rewrite E1, E2 in E, HR. destruct (cbind _ _ (world0 sess true auto)) as [r w2].
  cbn [fst snd] in E, HR. split; [done|]. split; [done|]. exists (ss1 ++ ss2).
  rewrite flatten_app, F2, F1. split; [done|].
  rewrite Gh in Eh2, Es2. change (s_host (spec0 sess true auto)) with (MkHost sess 0) in Eh2, Es2.
  rewrite <- fold_quiet_app, fold_quiet_until in Eh2, Es2. cbn [h_sess quiet_sticky] in Eh2, Es2.
  rewrite (reach_R _ _ _ _ HR), Eh2. split; [done|]. rewrite <- Es2.
  by destruct HR as (h & ru & rw & -> & _).
Qed.

End Props.

(** ** A concrete host

    It logs what it dispatches, answers zeros of the right shape, and fails a
    fill with the byte 255, alone or in a segment. *)

Definition blank (op : Op.Op) : Response.Response :=
  match decode_response op (replicate 20 0) with Ok (_, resp) => resp | Err _ => Response.Ok end.

Definition is_bad (r : Request.Request) : bool :=
  match r with Request.MemsetD8Async _ b _ _ => b =? 255 | _ => false end.

Definition logging (log : list Request.Request) (r : Request.Request) :
    (Z * Response.Response) * list Request.Request :=
  ((if existsb is_bad (flatten [r]) then 700 else 0, blank (op_of r)), log ++ [r]).

#[global] Instance logging_host : Answering logging.
Proof.
  refine {| host_ok := fun _ => True |}. intros s req _ _. unfold logging. generalize (op_of req) as op. intros op.
  assert (H : forall st, is_i32 st -> is_i32 st /\ True /\
            (answerable req -> len (encode_response st (blank op)) <= MAX_MSG) /\
            (st = 0 -> response_ok (blank op) /\ answers op (blank op))).
  { intros st Hst. split; [done|]. split; [done|]. split.
    - intros _. unfold encode_response. destruct (st =? 0); destruct op; vm_compute; discriminate.
    - intros _. split; destruct op; try done; vm_compute; repeat split; try discriminate; constructor. }
  case_match; apply H; vm_compute; split; congruence.
Defined.

Definition no_rings (_ : list Request.Request) (_ : Request.Request) : option Z := None.
Definition none_forced (_ : Request.Request) (_ : Op.Op) : bool := false.
Definition fill (b : Z) : Request.Request := Request.MemsetD8Async 4096 b 16 0.

Lemma pipeline_refines_witness :
  (run_client logging no_rings none_forced
     [Deferred (fill 7); Deferred (fill 255); Call (Request.MemAlloc 64); Drain; TakeSticky; TakeSticky]
     (world0 [] true true)).1 =
  [Ok AUnit; Ok AUnit; Ok (AResp (Response.Dptr 0)); Ok AUnit; Ok (AStatus 700); Ok (AStatus 0)].
Proof.
  pose proof (pipeline_refines logging no_rings none_forced [] true true
    [Deferred (fill 7); Deferred (fill 255); Call (Request.MemAlloc 64); Drain; TakeSticky; TakeSticky]) as H.
  destruct (run_client _ _ _ _ _) as [xs w]; destruct (run_spec _ _ _ _) as [ys s] eqn:E.
  assert (Hops : ys = [Ok AUnit; Ok AUnit; Ok (AResp (Response.Dptr 0)); Ok AUnit; Ok (AStatus 700); Ok (AStatus 0)]).
  { vm_compute in E. by inv E. }
  rewrite <- Hops. apply H; [done|]. repeat constructor; vm_compute; repeat split; discriminate.
Defined.

Lemma sync_reports_failure_witness :
  let rs := [fill 1; fill 255; Request.StreamWaitEvent 0 1 0; fill 2] in
  let '(answers, w) := run_client logging no_rings none_forced
                         ((Deferred <$> rs) ++ [CtxSynchronize]) (world0 [] true true) in
  answers = [Ok AUnit; Ok AUnit; Ok AUnit; Ok AUnit; Err (Cuda 700)] /\
  exists ss, flatten ss = rs /\
    reach logging no_rings w = Some (MkHost ((until_failure logging [] ss).2 ++ [Request.CtxSynchronize]) 0).
Proof.
  intros rs.
  assert (Hrs : Forall sendable rs) by (repeat constructor; vm_compute; repeat split; discriminate).
  pose proof (sync_reports_failure logging no_rings none_forced [] true rs I Hrs
    ltac:(repeat constructor) ltac:(vm_compute; discriminate)) as H.
  destruct (run_client _ _ _ _ _) as [xs w] eqn:E. destruct H as (ss & Hf & H).
  split; [vm_compute in E; by inv E|]. exists ss. split; [done|].
  destruct (until_failure logging [] ss) as [code s1]. apply H.
Defined.

Lemma reconnect_lossless_witness :
  let rs := [fill 1; fill 2; Request.StreamWaitEvent 0 1 0; fill 3] in
  let '(answers, w) := run_client logging no_rings none_forced (Deferred <$> rs)
                         (MkWorld (new true true) Swallowing) in
  let '(ops, st) := (take_journal (cl w)).1 in
  let '(r, w2) := (let@ _ := replay_journal logging no_rings ops st in
                   drain logging no_rings) (world0 [] true true) in
  exists ss, flatten ss = rs /\
    reach logging no_rings w2 = Some (MkHost (until_failure logging [] ss).2 0).
Proof.
  intros rs.
  assert (Hrs : Forall sendable rs) by (repeat constructor; vm_compute; repeat split; discriminate).
  pose proof (reconnect_lossless logging no_rings none_forced (new true true) rs [] true I
    ltac:(by repeat split) Hrs ltac:(repeat constructor) ltac:(vm_compute; discriminate)) as H.
  destruct (run_client _ _ _ _ _) as [xs w]. destruct (take_journal (cl w)) as [[ops st] c]. cbn [fst] in *.
  destruct (cbind _ _ _) as [r w2]. destruct H as (_ & _ & ss & Hf & Hr & _). by exists ss.
Defined.

End PipeProps.
