(* ===== verification/CudaPipeAccount.v ===== *)
(** * No failure of a pipelined request is lost

    The pipeline answers a deferred request before the host has run it. Every
    status other than zero that the host returns, for whatever request and
    however many are in flight, is still handed to the caller exactly once: as
    the error of a later operation, as the status in a raw answer or by
    [take_sticky]. The host is run here with a log of those statuses. *)

From S2P Require Import Prelude RustStr CudaProto CudaProtoFacts CudaProtoProps CudaPipe CudaPipeSpec CudaPipeFacts CudaPipeProps.

Module PipeAccount.
Import Str Proto ProtoFacts ProtoProps Pipe PipeSpec PipeFacts.

Definition nonzero (z : Z) : list Z := if z =? 0 then [] else [z].

(** The statuses an operation hands to its caller. *)
Definition told {A} (r : result A CudaRpcError) : list Z :=
  match r with Err (Cuda c) => [c] | _ => [] end.
Definition told_answer (r : result Answer CudaRpcError) : list Z :=
  match r with
  | Ok (AStatus z) => nonzero z
  | Ok (ABytes b) => nonzero (as_i32 (from_le (slice b 0 4)))
  | r => told r
  end.
Definition reported (answers : list (result Answer CudaRpcError)) : list Z := answers ≫= told_answer.

(** Permutations of integers, by counting each one. *)
Ltac perm_count :=
  repeat match goal with H : _ ≡ₚ _ |- _ => rewrite (Permutation_count_occ Z.eq_dec) in H end;
  apply (Permutation_count_occ Z.eq_dec);
  let x := fresh "x" in intros x;
  repeat match goal with H : forall y : Z, count_occ _ _ _ = _ |- _ => specialize (H x) end;
  rewrite ?count_occ_app, ?count_occ_nil in *; lia.

Section Account.
Context {Sess : Type}.
Variable plain_dispatch : Sess -> Request.Request -> (Z * Response.Response) * Sess.
Variable plain_rings : Sess -> Request.Request -> option Z.
Variable sync_forced : Request.Request -> Op.Op -> bool.
(** A status is an [i32]. *)
Hypothesis typed_status : forall s r, is_i32 (plain_dispatch s r).1.1.

(** The host with a log of the statuses other than zero it returned. *)
Definition traced (s : Sess * list Z) (r : Request.Request) :
    (Z * Response.Response) * (Sess * list Z) :=
  let '((st, resp), s') := plain_dispatch s.1 r in ((st, resp), (s', s.2 ++ nonzero st)).
Definition traced_rings (s : Sess * list Z) (r : Request.Request) : option Z := plain_rings s.1 r.

#[local] Notation Spec := (Spec (Sess * list Z)).
#[local] Notation P := (P (Sess * list Z)).

Definition log (s : Spec) : list Z := (h_sess (s_host s)).2.
(** Failures not handed out yet: at the client, or still at the host. *)
Definition owed (s : Spec) : list Z := nonzero (s_sticky s) ++ nonzero (quiet_sticky (s_host s)).

(** A failure waits at the client only with nothing in flight, and at the host
    only with something in flight; a settled client has nothing in flight. *)
Record good (s : Spec) : Prop := {
  g_defer : s_defer s = true;
  g_count : 0 <= s_deferred s;
  g_sticky : s_sticky s <> 0 -> s_deferred s = 0;
  g_quiet : s_deferred s = 0 -> quiet_sticky (s_host s) = 0;
  g_clean : (s_clean s).1.1 = true -> s_deferred s = 0 /\ s_pend s = [];
}.

(** The books balance over [m], whose results are handed out as [rep] says. *)
Definition balances {A} (m : P A) (rep : result A CudaRpcError -> list Z) (pre : Spec -> Prop) : Prop :=
  forall s, good s -> pre s ->
  let '(r, s') := m s in good s' /\ log s' ++ owed s ≡ₚ log s ++ rep r ++ owed s'.

Definition any (_ : Spec) : Prop := True.
(** Nothing in flight and nothing held back. *)
Definition drained (s : Spec) : Prop := s_deferred s = 0 /\ s_pend s = [].
Definition dirtied (s : Spec) : Prop := (s_clean s).1.1 = false.

Lemma nonzero_0 : nonzero 0 = [].
Proof. done. Qed.
Lemma nonzero_ne z : z <> 0 -> nonzero z = [z].
Proof. intros Hz. unfold nonzero. by rewrite (proj2 (Z.eqb_neq _ _) Hz). Qed.

Lemma owed_le s : good s -> len (owed s) <= 1.
Proof.
  intros [_ _ Hs Hq _]. unfold owed, nonzero.
  destruct (Z.eqb_spec (s_sticky s) 0); [by destruct (_ =? 0)|]. by rewrite (Hq (Hs n)).
Qed.

(** A step that touches neither the host nor what is owed. *)
Lemma balances_set (f : Spec -> Spec) rep (pre : Spec -> Prop) :
  (forall s, good s -> pre s -> good (f s)) ->
  (forall s, s_host (f s) = s_host s /\ s_sticky (f s) = s_sticky s) -> rep (Ok tt) = [] ->
  balances (pset f) rep pre.
Proof.
  intros Hg Hf Hr s Hs Hp. cbn. split; [by apply Hg|]. destruct (Hf s) as [E1 E2].
  unfold log, owed. by rewrite E1, E2, Hr.
Qed.

Lemma balances_bind {A C} (m : P A) (k : A -> P C) rep (pre mid : Spec -> Prop) :
  balances m told pre -> (forall s, good s -> pre s -> match m s with (Ok _, s') => mid s' | _ => True end) ->
  (forall x, balances (k x) rep mid) -> (forall e, rep (Err e) = told (Err e : result A _)) ->
  balances (pbind m k) rep pre.
Proof.
  intros Hm Hmid Hk Hrep s Hs Hp. unfold pbind. specialize (Hm s Hs Hp). specialize (Hmid s Hs Hp).
  destruct (m s) as [[x|e] s1]; destruct Hm as [Hs1 Hb1].
  - specialize (Hk x s1 Hs1 Hmid). destruct (k x s1) as [r s2]. destruct Hk as [Hs2 Hb2].
    split; [done|]. cbn [told app] in Hb1.
    perm_count.
  - split; [done|]. by rewrite Hrep.
Qed.

Lemma balances_ret {A} (x : A) rep (pre : Spec -> Prop) : rep (Ok x) = [] -> balances (pret x) rep pre.
Proof. intros Hr s Hs _. cbn. by rewrite Hr. Qed.

(** ** The operations of the specification *)

Lemma balances_fence (pre : Spec -> Prop) : balances (spec_fence) told pre.
Proof.
  intros s [Hd Hc Hs Hq Hcl] _. unfold spec_fence. destruct (Z.eqb_spec (s_deferred s) 0) as [E|E].
  { split; [done|]. by cbn [told app]. }
  assert (s_sticky s = 0) as E0.
  { destruct (Z.eq_dec (s_sticky s) 0) as [|Hn]; [done|]. by apply Hs in Hn. }
  cbn [s_sticky upd_unproven upd_deferred upd_host]. rewrite E0, Z.eqb_refl, andb_true_r.
  destruct (Z.eqb_spec (quiet_sticky (s_host s)) 0) as [Eq|Eq]; cbn [negb].
  - split; [constructor; cbn; try done; naive_solver|]. unfold log, owed. cbn. by rewrite E0, Eq.
  - split; [constructor; cbn; try done; naive_solver|]. unfold log, owed. cbn.
    by rewrite E0, nonzero_0, app_nil_r.
Qed.

Lemma fence_settles s : good s ->
  match spec_fence s with (r, s') => r = Ok tt /\ s_deferred s' = 0 /\ s_pend s' = s_pend s
    /\ s_clean s' = s_clean s end.
Proof.
  intros _. unfold spec_fence. destruct (Z.eqb_spec (s_deferred s) 0) as [E|E]; [done|].
  destruct (_ && _); done.
Qed.

Lemma balances_direct req : balances (spec_direct traced req) told dirtied.
Proof.
  unfold spec_direct. apply (balances_bind _ _ _ _ dirtied).
  - intros s Hs _. destruct (_ <=? _); [by apply (balances_fence any)|]. split; [done|by cbn [told app]].
  - intros s Hs Hd. destruct (_ <=? _); [|done]. pose proof (fence_settles s Hs) as Hf.
    destruct (spec_fence s) as [r s']. destruct Hf as (-> & _ & _ & Hc). unfold dirtied. by rewrite Hc.
  - intros [] s [Hd Hc Hs Hq Hcl] Hdi. destruct (Z.eqb_spec (s_sticky s) 0) as [E|E]; cbn [negb].
    + assert (forall b, good (upd_unproven (s_unproven s ++ [req]) (upd_deferred (s_deferred s + 1)
        (upd_host b s)))) as Hg.
      { intros b. constructor; cbn; try done; try lia. unfold dirtied in Hdi. rewrite Hdi. done. }
      split; [apply Hg|]. unfold log, owed, dispatch_quiet, traced. cbn [s_host s_sticky upd_unproven upd_deferred upd_host].
      destruct (Z.eqb_spec (quiet_sticky (s_host s)) 0) as [Eq|Eq]; cbn [negb]; [|by cbn].
      destruct (plain_dispatch _ _) as [[st resp] s']. cbn [fst snd h_sess quiet_sticky told app].
      rewrite E, Eq. destruct (Z.eqb_spec st 0) as [->|]; cbn [negb]; [by rewrite nonzero_0, !app_nil_r|].
      rewrite nonzero_0. cbn [app]. by rewrite app_nil_r.
    + split.
      * constructor; cbn; try done. 
      * unfold log, owed. cbn [told s_host s_sticky upd_sticky]. rewrite nonzero_0, (nonzero_ne _ E). done.
  - done.
Qed.

Lemma balances_segment rs : balances (spec_all (spec_direct traced) (segment rs)) told dirtied.
Proof.
  destruct rs as [|r [|r' rs]]; cbn [segment spec_all]; [by apply balances_ret|..];
    (apply (balances_bind _ _ _ _ any); [apply balances_direct|by intros ? ? ?; case_match; case_match|
     intros; by apply balances_ret|done]).
Qed.

(** Nothing of the account changes. *)
Record same_books (s s' : Spec) : Prop := {
  sb_host : h_sess (s_host s') = h_sess (s_host s) /\ quiet_sticky (s_host s') = quiet_sticky (s_host s);
  sb_sticky : s_sticky s' = s_sticky s;
  sb_count : s_deferred s' = s_deferred s;
  sb_defer : s_defer s' = s_defer s;
  sb_clean : (s_clean s').1.1 = true -> (s_clean s).1.1 = true /\ s_pend s' = s_pend s;
}.

Lemma good_same s s' : same_books s s' -> good s -> good s'.
Proof.
  intros [[_ Eq] Es Ec Ed Hcl] [Hd Hc Hs Hq Hg]. constructor; rewrite ?Eq, ?Es, ?Ec, ?Ed; auto.
  intros Hx. destruct (Hcl Hx) as [Hc' Hp]. destruct (Hg Hc') as [? ?]. split; [done|congruence].
Qed.
Lemma owed_same s s' : same_books s s' -> owed s' = owed s /\ log s' = log s.
Proof. intros [[El Eq] Es _ _ _]. unfold owed, log. by rewrite Es, Eq, El. Qed.

Lemma balances_same (f : Spec -> Spec) (pre : Spec -> Prop) :
  (forall s, pre s -> same_books s (f s)) -> balances (pset f) told pre.
Proof.
  intros Hf s Hs Hp. cbn. specialize (Hf s Hp). split; [by eapply good_same|].
  destruct (owed_same _ _ Hf) as [-> ->]. by cbn [told app].
Qed.

Ltac same := by intros; constructor; cbn; auto; intros; split; auto.

Lemma flush_keeps s : match spec_flush traced s with (_, s') => s_clean s' = s_clean s /\ s_pend s' = []
  /\ (s_pend s = [] -> s_deferred s' = s_deferred s) end.
Proof.
  unfold spec_flush.
  assert (forall req t, match spec_direct traced req t with (_, t') =>
    s_clean t' = s_clean t /\ s_pend t' = s_pend t end) as Hd.
  { intros req t. unfold spec_direct, pbind. destruct (_ <=? _).
    - unfold spec_fence. by repeat (match goal with |- context [if ?b then _ else _] => destruct b end).
    - by destruct (negb _). }
  destruct (s_pend s) as [|r [|r' rs]]; cbn [segment spec_all pbind]; [done|..]; unfold pbind;
    match goal with |- context [spec_direct traced ?q ?t] => specialize (Hd q t);
      destruct (spec_direct traced q t) as [[[]|e] t'] end; destruct Hd as [E1 E2]; cbn; by rewrite E1, E2.
Qed.

Lemma balances_flush (pre : Spec -> Prop) : balances (spec_flush traced) told pre.
Proof.
  intros s Hs _. unfold spec_flush. destruct (s_clean s).1.1 eqn:Ec.
  - destruct (g_clean s Hs Ec) as [_ ->]. cbn [segment spec_all]. unfold pret. split.
    + apply (good_same s); [constructor; cbn; auto|done]. intros _. by destruct (g_clean s Hs Ec) as [_ ->].
    + by cbn.
  - assert (same_books s (upd_pend [] s)) as Hsb by (constructor; cbn; auto; congruence).
    pose proof (balances_segment (s_pend s) (upd_pend [] s) (good_same _ _ Hsb Hs) Ec) as Hb.
    destruct (spec_all _ _ _) as [r s']. destruct (owed_same _ _ Hsb) as [Eo El]. by rewrite Eo, El in Hb.
Qed.

Lemma flush_dirtied s : dirtied s -> match spec_flush traced s with (_, s') => dirtied s' end.
Proof. intros Hd. pose proof (flush_keeps s) as Hf. destruct (spec_flush traced s). unfold dirtied. by destruct Hf as [-> _]. Qed.

Lemma balances_drain : balances (spec_drain traced) told any.
Proof.
  unfold spec_drain. apply (balances_bind _ _ _ _ any); [apply balances_flush| |intros; apply balances_fence|done].
  intros s _ _. by repeat case_match.
Qed.
Lemma drain_drains s : good s ->
  match spec_drain traced s with (Ok _, s') => drained s' | _ => True end.
Proof.
  intros Hs. unfold spec_drain, pbind. pose proof (balances_flush any s Hs I) as Hb.
  pose proof (flush_keeps s) as Hk. destruct (spec_flush traced s) as [[[]|e] s1]; [|done].
  destruct Hb as [Hs1 _]. pose proof (fence_settles s1 Hs1) as Hf. destruct (spec_fence s1) as [r s2].
  destruct Hf as (-> & Hd & Hp & _). split; [done|]. rewrite Hp. by destruct Hk as (_ & ? & _).
Qed.

(** A request and its answer: the status is the caller's to hand on. *)
Lemma round_trip_books req s : good s ->
  match spec_round_trip traced req s with
  | (Ok (st, resp), s') => good s' /\ log s' = log s ++ nonzero st /\ owed s' = owed s /\ is_i32 st
      /\ s_deferred s' = s_deferred s /\ s_pend s' = s_pend s /\ s_clean s' = s_clean s
  | _ => False
  end.
Proof.
  intros Hs. unfold spec_round_trip, traced. pose proof (typed_status (h_sess (s_host s)).1 req) as Ht.
  destruct (plain_dispatch _ _) as [[st resp] sess]. cbn in Ht. destruct Hs.
  split; [by constructor|]. by repeat (split; [done|]).
Qed.

Lemma balances_call req : balances (spec_call traced req) told any.
Proof.
  intros s Hs _. unfold spec_call, pbind. pose proof (balances_flush any s Hs I) as Hb.
  destruct (spec_flush traced s) as [[[]|e] s1]; [|done]. destruct Hb as [Hs1 Hb]. cbn [told app] in Hb. unfold pset at 1.
  set (s2 := if keeps_clean (op_of req) then s1 else dirty s1).
  assert (same_books s1 s2) as H12 by (unfold s2; destruct (keeps_clean _); constructor; cbn; auto; congruence).
  pose proof (round_trip_books req s2 (good_same _ _ H12 Hs1)) as Hr.
  destruct (spec_round_trip traced req s2) as [[[st resp]|] s3]; [|done].
  destruct Hr as (Hs3 & El & Eo & _). unfold pset. destruct (owed_same _ _ H12) as [Eo2 El2].
  set (s4 := if is_begin req then _ else _).
  assert (same_books s3 s4) as H34.
  { unfold s4. destruct (is_begin req); [destruct (st =? 0)|destruct (is_end req)]; constructor; cbn; auto. }
  pose proof (good_same _ _ H34 Hs3) as Hs4. destruct (owed_same _ _ H34) as [Eo4 El4].
  destruct (Z.eqb_spec st 0) as [->|Hn]; cbn [negb]; unfold pret, pfail; cbn [told];
    (split; [done|]); rewrite ?(nonzero_ne st Hn), ?nonzero_0, ?app_nil_r in El;
    rewrite Eo4, El4, El, Eo, El2, Eo2; perm_count.
Qed.

Lemma call_drained req s : good s -> drained s ->
  match spec_call traced req s with (_, s') => drained s' end.
Proof.
  intros Hs [Hd Hp]. unfold spec_call, pbind, spec_flush. rewrite Hp. cbn [segment spec_all]. unfold pret, pset.
  set (s2 := if keeps_clean (op_of req) then _ else _).
  assert (s_deferred s2 = 0 /\ s_pend s2 = []) as H2 by (unfold s2; by destruct (keeps_clean _)).
  unfold spec_round_trip. destruct (traced _ _) as [[st resp] sess]. cbv zeta.
  destruct (is_begin req); [destruct (st =? 0)|destruct (is_end req)]; destruct (negb _); done.
Qed.

Lemma balances_quiet req : balances (spec_quiet traced req) told dirtied.
Proof.
  intros s Hs Hd. unfold spec_quiet. destruct (s_auto s); cbn [negb]; [|by apply balances_direct].
  assert (forall (k : P unit) t, good t -> dirtied t -> balances k told dirtied ->
    let '(r, t') := (let$ _ := spec_flush traced in k) t in good t' /\ log t' ++ owed t ≡ₚ log t ++ told r ++ owed t') as Hfk.
  { intros k t Ht Hdt Hk. apply (balances_bind _ _ _ dirtied dirtied); [apply balances_flush| |done|done|done|done].
    intros u _ Hu. pose proof (flush_dirtied u Hu). destruct (spec_flush traced u) as [[]]; done. }
  destruct (is_begin req).
  { apply Hfk; [done|done|]. apply (balances_bind _ _ _ _ any); [apply balances_direct|by intros ? ? ?; repeat case_match| |done].
    intros. apply balances_same. same. }
  destruct (_ && _); [|by apply Hfk; [done|done|apply balances_direct]].
  assert (same_books s (upd_pend (s_pend s ++ [req]) s)) as Hsb.
  { constructor; cbn; auto. unfold dirtied in Hd. congruence. }
  destruct (owed_same _ _ Hsb) as [Eo El]. destruct (_ || _).
  - pose proof (balances_flush any _ (good_same _ _ Hsb Hs) I) as Hb.
    destruct (spec_flush traced _) as [r s']. by rewrite Eo, El in Hb.
  - split; [by eapply good_same|]. by rewrite Eo, El.
Qed.

Lemma balances_deferred req : balances (spec_deferred traced sync_forced req) told any.
Proof.
  unfold spec_deferred. apply (balances_bind _ _ _ _ dirtied); [apply balances_same|done| |done].
  - intros s _. constructor; cbn; auto. done.
  - intros [] s Hs Hd. destruct (_ || _); [|by apply balances_quiet].
    apply (balances_bind _ _ _ any any); [apply balances_call|by intros ? ? ?; repeat case_match| |done|done|done].
    intros. by apply balances_ret.
Qed.

Lemma balances_raw_quiet req : balances (spec_raw_quiet traced req) told any.
Proof.
  unfold spec_raw_quiet. apply (balances_bind _ _ _ _ dirtied); [apply balances_same|done| |done].
  - intros s _. constructor; cbn; auto. done.
  - intros [] s Hs Hd. rewrite (g_defer s Hs). cbn [negb].
    apply (balances_bind _ _ _ dirtied dirtied); [apply balances_flush| | |done|done|done].
    + intros u _ Hu. pose proof (flush_dirtied u Hu). destruct (spec_flush traced u) as [[]]; done.
    + intros []. apply (balances_bind _ _ _ dirtied dirtied); [apply balances_same| |intros; apply balances_direct|done].
      * intros u _. destruct (is_begin req); constructor; cbn; auto.
      * intros u _ Hu. unfold pset. by destruct (is_begin req).
Qed.

Lemma status_of_response st resp : is_i32 st -> as_i32 (from_le (slice (encode_response st resp) 0 4)) = st.
Proof.
  intros Hst. assert (exists rest, encode_response st resp = to_le 4 st ++ rest) as [rest ->].
  { unfold encode_response, w_i32. cbv zeta. cbn [app]. destruct (st =? 0); [|by exists []; rewrite app_nil_r].
    destruct resp; try (by exists []; rewrite app_nil_r); eexists; unfold w_i32, w_u64, w_u32, w_str, w_bytes;
      rewrite <-?app_assoc; reflexivity. }
  change (slice (to_le 4 st ++ rest) 0 4) with (take 4 (to_le 4 st ++ rest)).
  rewrite take_app_le by (by rewrite length_to_le). rewrite take_ge by (by rewrite length_to_le).
  by apply as_i32_le.
Qed.

Definition told_bytes (r : result bytes CudaRpcError) : list Z :=
  match r with Ok b => nonzero (as_i32 (from_le (slice b 0 4))) | Err e => told (Err e : result unit _) end.

Lemma balances_raw_call req : balances (spec_raw_call traced req) told_bytes any.
Proof.
  unfold spec_raw_call. apply (balances_bind _ _ _ _ any); [apply balances_same|done| |done].
  { intros s _. constructor; cbn; auto. done. }
  intros []. apply (balances_bind _ _ _ any any); [apply balances_flush|by intros ? ? ?; repeat case_match| |done].
  intros [] s Hs _. unfold pbind. pose proof (round_trip_books req s Hs) as Hr.
  destruct (spec_round_trip traced req s) as [[[st resp]|] s3]; [|done].
  destruct Hr as (Hs3 & El & Eo & Hst & _). unfold pset, pret.
  set (s4 := if is_end req then _ else _).
  assert (same_books s3 s4) as H34 by (unfold s4; destruct (is_end req); constructor; cbn; auto).
  destruct (owed_same _ _ H34) as [Eo4 El4]. split; [by eapply good_same|].
  cbn [told_bytes]. rewrite (status_of_response st resp Hst), Eo4, El4, El, Eo. perm_count.
Qed.

Lemma balances_surface : balances (@spec_surface (Sess * list Z)) told any.
Proof.
  intros s [Hd Hc Hs Hq Hcl] _. unfold spec_surface. split; [by constructor; cbn|].
  unfold log, owed. cbn [s_host s_sticky upd_sticky]. rewrite nonzero_0. unfold nonzero at 1.
  destruct (Z.eqb_spec (s_sticky s) 0); by cbn [told app].
Qed.

(** After a synchronization that returns [Ok] nothing is owed. *)
Lemma settled s : good s -> s_deferred s = 0 -> s_sticky s = 0 -> owed s = [].
Proof. intros [_ _ _ Hq _] Hd Hz. unfold owed. by rewrite Hz, (Hq Hd). Qed.

Lemma sync_books (req : Request.Request) (mark : Spec -> Spec) s :
  (forall s, drained s -> same_books s (upd_clean (s_clean s) (mark s)) /\ s_deferred (mark s) = 0
     /\ s_pend (mark s) = []) -> good s ->
  let '(r, s') := (let$ _ := spec_drain traced in let$ _ := spec_call traced req in
                   let$ _ := pset mark in spec_surface) s in
  good s' /\ log s' ++ owed s ≡ₚ log s ++ told r ++ owed s' /\ (r = Ok tt -> owed s' = []).
Proof.
  intros Hm Hs. unfold pbind. pose proof (balances_drain s Hs I) as Hb. pose proof (drain_drains s Hs) as Hd.
  destruct (spec_drain traced s) as [[[]|e] s1]; destruct Hb as [Hs1 Hb1]; [|done].
  pose proof (balances_call req s1 Hs1 I) as Hc. pose proof (call_drained req s1 Hs1 Hd) as Hd2.
  destruct (spec_call traced req s1) as [[resp|e] s2]; destruct Hc as [Hs2 Hb2]; cbn [told app] in *.
  2: { split; [done|]. split; [perm_count|done]. }
  unfold pset. destruct (Hm s2 Hd2) as (Hsb & Hz & Hp).
  assert (good (mark s2)) as Hs3.
  { destruct Hsb as [[_ Eq] Es Ec Ed _]. cbn in Eq, Es, Ec, Ed. destruct Hs2.
    constructor; rewrite ?Eq, ?Es, ?Ec, ?Ed; auto. by rewrite Ec in Hz. }
  assert (owed (mark s2) = owed s2 /\ log (mark s2) = log s2) as [Eo El] by exact (owed_same _ _ Hsb).
  pose proof (balances_surface (mark s2) Hs3 I) as Hf. unfold spec_surface in *. destruct Hf as [Hs4 Hb4].
  split; [done|]. split; [rewrite Eo, El in Hb4; perm_count|].
  intros E. apply settled; [done|done|]. by cbn.
Qed.

(** ** Programs *)

Definition is_sync (op : ClientOp) : bool :=
  match op with CtxSynchronize | StreamSynchronize _ => true | _ => false end.

Lemma op_books op s : good s ->
  let '(r, s') := spec_op traced sync_forced op s in
  good s' /\ log s' ++ owed s ≡ₚ log s ++ told_answer r ++ owed s'
  /\ (is_sync op = true -> r = Ok AUnit -> owed s' = []).
Proof.
  intros Hs.
  assert (forall {A} (m : P A) (f : A -> Answer) (rep : result A CudaRpcError -> list Z),
    balances m rep any -> (forall x, rep (Ok x) = told_answer (Ok (f x))) ->
    (forall e, rep (Err e) = told_answer (Err e)) ->
    let '(r, s') := (let$ x := m in pret (f x)) s in
    good s' /\ log s' ++ owed s ≡ₚ log s ++ told_answer r ++ owed s') as Hop.
  { intros A m f rep Hm Hok Herr. unfold pbind, pret. specialize (Hm s Hs I).
    destruct (m s) as [[x|e] s']; [by rewrite <-Hok|by rewrite <-Herr]. }
  assert (forall (m : P unit),
    (let '(r, s') := m s in good s' /\ log s' ++ owed s ≡ₚ log s ++ told r ++ owed s' /\ (r = Ok tt -> owed s' = [])) ->
    let '(r, s') := (let$ _ := m in pret AUnit) s in
    good s' /\ log s' ++ owed s ≡ₚ log s ++ told_answer r ++ owed s' /\ (true = true -> r = Ok AUnit -> owed s' = [])) as Hsy.
  { intros m Hm. unfold pbind, pret. destruct (m s) as [[[]|e] s']; destruct Hm as (? & ? & Ho); [by auto|]. by split. }
  assert (s_sticky s = 0 -> (s_clean s).1.1 = true -> owed s = []) as Hcl.
  { intros Hz Hc. apply settled; [done| |done]. by apply (g_clean s Hs). }
  destruct op as [r|r|r|r| | | |stream]; cbn [spec_op is_sync].
  - pose proof (Hop _ _ AResp told (balances_call r) ltac:(done) ltac:(done)) as Hx. case_match. naive_solver.
  - pose proof (Hop _ _ (fun _ => AUnit) told (balances_deferred r) ltac:(done) ltac:(done)) as Hx. case_match. naive_solver.
  - pose proof (Hop _ _ ABytes told_bytes (balances_raw_call r) ltac:(done) ltac:(done)) as Hx. case_match. naive_solver.
  - pose proof (Hop _ _ (fun _ => AUnit) told (balances_raw_quiet r) ltac:(done) ltac:(done)) as Hx. case_match. naive_solver.
  - pose proof (Hop _ _ (fun _ => AUnit) told balances_drain ltac:(done) ltac:(done)) as Hx. case_match. naive_solver.
  - split; [destruct Hs; by constructor; cbn|]. split; [|done]. unfold log, owed. by cbn.
  - apply Hsy. unfold spec_ctx_synchronize. destruct (_ && _) eqn:E.
    + bool_simpl. cbn [told app]. split; [done|]. split; [done|]. intros _. apply Hcl; [lia|done].
    + apply sync_books; [|done]. intros t [? ?]. split; [|done]. constructor; cbn; auto.
  - apply Hsy. unfold spec_stream_synchronize. destruct (_ && _) eqn:E.
    + bool_simpl. cbn [told app]. split; [done|]. split; [done|]. intros _. apply Hcl; [lia|done].
    + apply sync_books; [|done]. intros t [? ?]. split; [|done]. constructor; cbn; auto.
Qed.

Lemma run_books ops : forall s, good s ->
  let '(answers, s') := run_spec traced sync_forced ops s in
  good s' /\ log s' ++ owed s ≡ₚ log s ++ reported answers ++ owed s'
  /\ forall op, last ops = Some op -> is_sync op = true -> last answers = Some (Ok AUnit) -> owed s' = [].
Proof.
  induction ops as [|op ops IH]; intros s Hs; cbn [run_spec]; [by split|].
  pose proof (op_books op s Hs) as Ho. destruct (spec_op _ _ op s) as [r s1]. destruct Ho as (Hs1 & Hb1 & Hl1).
  specialize (IH s1 Hs1). destruct (run_spec _ _ ops s1) as [rs s2] eqn:E. destruct IH as (Hs2 & Hb2 & Hl2).
  split; [done|]. split.
  - unfold reported in *. change ((r :: rs) ≫= told_answer) with (told_answer r ++ (rs ≫= told_answer)). perm_count.
  - intros op' Hop Hsy Hr. destruct ops as [|op2 ops].
    + cbn in E. injection E as <- <-. cbn in Hop, Hr. injection Hop as ->. injection Hr as ->. by apply Hl1.
    + destruct rs as [|r2 rs].
      { cbn [run_spec] in E. repeat case_match; done. }
      by apply (Hl2 op').
Qed.

Context `{!Answering plain_dispatch}.

#[local] Instance traced_answers : Answering traced.
Proof.
  refine {| host_ok := fun s => host_ok plain_dispatch s.1 |}. intros s req Hs Hr.
  pose proof (host_answers s.1 req Hs Hr) as Ha. unfold traced.
  destruct (plain_dispatch s.1 req) as [[st resp] s']. exact Ha.
Defined.

(** C14: No failure of a pipelined request is lost. For any
    program of client operations (calls, deferred and raw requests, however
    many are in flight, drains and synchronizations) on a connection that
    defers, the statuses other than zero that the host returned are exactly
    the errors and statuses the operations handed to the caller, once each,
    and at most one more, held by the client or the host until the next fence
    (while it is held no deferred request is run); and when the last
    operation is a synchronization that returned [Ok], there is no such one. *)
Theorem no_failure_lost (sess : Sess) (auto : bool) (ops : list ClientOp) :
  host_ok plain_dispatch sess -> Forall op_ok ops ->
  let '(answers, w) := run_client traced traced_rings sync_forced ops (world0 (sess, []) true auto) in
  exists h, reach traced traced_rings w = Some h /\
    let held := nonzero (sticky (cl w)) ++ nonzero (quiet_sticky h) in
    (h_sess h).2 ≡ₚ reported answers ++ held /\ len held <= 1 /\
    (forall op, last ops = Some op -> is_sync op = true -> last answers = Some (Ok AUnit) -> held = []).
Proof.
  intros Hs Hops. assert (host_ok traced (sess, [])) as Hs' by (cbn; exact Hs).
  destruct (sim_run traced traced_rings sync_forced ops _ _ Hops
              (R_start traced (sess, []) true auto Hs')) as [E HR].
  assert (good (spec0 (sess, []) true auto)) as Hg by by constructor.
  pose proof (run_books ops _ Hg) as Hb.
  destruct (run_client _ _ _ _ _) as [xs w]. cbn [fst snd] in E, HR. subst xs.
  destruct (run_spec _ _ ops _) as [answers s]. cbn [fst snd] in *. destruct Hb as (Hgs & Hbal & Hl).
  exists (s_host s). split; [by eapply reach_R|].
  assert (sticky (cl w) = s_sticky s) as -> by by destruct HR as (h & ru & rw & -> & _).
  unfold log, owed in *. cbn in Hbal. rewrite app_nil_r in Hbal.
  split; [done|]. split; [by apply owed_le|done].
Qed.

End Account.

Import PipeProps.

Lemma logging_typed s r : is_i32 (logging s r).1.1.
Proof. unfold logging. case_match; vm_compute; split; congruence. Qed.

(** Two failures, each handed out once, and a last synchronization that
    settles the account. *)
Lemma no_failure_lost_witness :
  let ops := [Deferred (fill 255); Deferred (fill 7); Drain; Deferred (fill 1); Deferred (fill 255);
              CtxSynchronize; CtxSynchronize] in
  let '(answers, w) := run_client (traced logging) (traced_rings no_rings) none_forced ops
                         (world0 ([], []) true false) in
  answers = [Ok AUnit; Ok AUnit; Ok AUnit; Err (Cuda 700); Ok AUnit; Err (Cuda 700); Ok AUnit]
  /\ exists h, reach (traced logging) (traced_rings no_rings) w = Some h /\ (h_sess h).2 ≡ₚ [700; 700].
Proof.
  intros ops.
  assert (Hops : Forall op_ok ops) by (repeat constructor; vm_compute; repeat split; discriminate).
  pose proof (no_failure_lost logging no_rings none_forced logging_typed [] false ops I Hops) as H.
  destruct (run_client _ _ _ _ _) as [answers w] eqn:E.
  assert (answers = [Ok AUnit; Ok AUnit; Ok AUnit; Err (Cuda 700); Ok AUnit; Err (Cuda 700); Ok AUnit]) as ->.
  { vm_compute in E. by inv E. }
  split; [done|]. destruct H as (h & Hr & Hp & _ & Hl). exists h. split; [done|].
  rewrite Hp. rewrite (Hl CtxSynchronize); done.
Defined.

End PipeAccount.
