(* ===== verification/CudaMem.v ===== *)
(** * Device memory of a forked CUDA session

    [src/crates/smolvm-cuda/src/host.rs]: the memory side of [dispatch]. A clone
    of a machine keeps sending the device pointers its parent gave it; the host
    rewrites them to private copies ([xlat], [translate_dptrs]), shares uploaded
    weights until the clone writes them ([cow_written]), keeps inherited VMM
    chunks read-only ([vmm_access_partitions]) until they are written
    ([cow_worker_vmm_range]), records which chunks are exactly as uploaded
    ([mark_loaded_vmm_with], [covered_exactly]) and enforces the memory budget.

    The driver is the source's [Backend] trait, here a class; [cpu_backend] is
    the source's own emulation of it. [Session] has the fields the memory
    operations touch, [Worker] the process-wide tables of a clone worker. The
    arms of [dispatch] that are not about memory are the parameter [other]. *)

From S2P Require Import Prelude RustStr CudaProto.

Module Mem.
Import Str Proto.

Definition CuResult (A : Type) : Type := result A Z.

Definition CUDA_ERROR_INVALID_HANDLE : Z := 400.
Definition CUDA_ERROR_NOT_FOUND : Z := 500.
Definition CUDA_ERROR_NOT_SUPPORTED : Z := 801.
Definition CUDA_ERROR_OUT_OF_MEMORY : Z := 2.
Definition VHANDLE_TAG : Z := 2 ^ 63.

(** ** The driver *)

Class Backend (B : Type) := {
  device_total_mem : Z -> B -> CuResult Z * B;
  mem_get_info : B -> CuResult (Z * Z) * B;
  mem_alloc : Z -> B -> CuResult Z * B;
  mem_free : Z -> B -> CuResult unit * B;
  mem_alloc_async : Z -> Z -> B -> CuResult Z * B;
  mem_alloc_from_pool_async : Z -> Z -> Z -> B -> CuResult Z * B;
  mem_free_async : Z -> Z -> B -> CuResult unit * B;
  memcpy_htod : Z -> bytes -> Z -> B -> CuResult unit * B;
  memcpy_dtoh : Z -> Z -> Z -> B -> CuResult bytes * B;
  memcpy_dtod : Z -> Z -> Z -> B -> CuResult unit * B;
  memcpy_dtod_async : Z -> Z -> Z -> Z -> B -> CuResult unit * B;
  memset_d8 : Z -> Z -> Z -> B -> CuResult unit * B;
  memset_d8_async : Z -> Z -> Z -> Z -> B -> CuResult unit * B;
  memcpy_shm_htod : Z -> Z -> Z -> Z -> B -> CuResult unit * B;
  memcpy_shm_dtoh : Z -> Z -> Z -> Z -> B -> CuResult unit * B;
  hash_shm_range : Z -> Z -> Z -> B -> option Z * B;
  memcpy_gpa_htod : Z -> list (Z * Z) -> Z -> B -> CuResult unit * B;
  memcpy_gpa_dtoh : Z -> list (Z * Z) -> Z -> B -> CuResult unit * B;
  hash_gpa_range : list (Z * Z) -> Z -> Z -> B -> option Z * B;
  ctx_synchronize : B -> CuResult unit * B;
  mem_address_reserve : Z -> Z -> B -> CuResult Z * B;
  mem_create : Z -> Z -> B -> CuResult Z * B;
  mem_create_exportable : Z -> Z -> B -> CuResult Z * B;
  mem_map : Z -> Z -> Z -> Z -> B -> CuResult unit * B;
  mem_set_access : Z -> Z -> Z -> B -> CuResult unit * B;
  mem_set_access_ro : Z -> Z -> Z -> B -> CuResult unit * B;
  mem_unmap : Z -> Z -> B -> CuResult unit * B;
  mem_release : Z -> B -> CuResult unit * B;
  mem_address_free : Z -> Z -> B -> CuResult unit * B;
  mem_get_allocation_granularity : Z -> Z -> B -> CuResult Z * B;
}.

(** ** Upload coverage of a mapped chunk *)

Record ChunkCover := MkCover {
  cc_size : Z;
  cc_handle : Z;
  ghandle : Z;
  segs : list (Z * Z * Z);
  verified : option bool;
}.

Fixpoint tiles (expect : Z) (l : list (Z * Z * Z)) (size : Z) : bool :=
  match l with
  | [] => expect =? size
  | (s, e, crc) :: l => if negb (s =? expect) || (crc =? 0) then false else tiles e l size
  end.

Definition covered_exactly (c : ChunkCover) : bool := tiles 0 (segs c) (cc_size c).

(** [Vec<(u64, u64, u64)>::sort_unstable]: equal elements are equal. *)
Definition seg_le (x y : Z * Z * Z) : Prop :=
  x.1.1 < y.1.1 \/ x.1.1 = y.1.1 /\ (x.1.2 < y.1.2 \/ x.1.2 = y.1.2 /\ x.2 <= y.2).
#[global] Instance seg_le_dec x y : Decision (seg_le x y).
Proof. unfold seg_le. apply _. Defined.

(** The part of the upload [dptr, end) that falls into the chunk at [base]. *)
Definition mark_chunk {S} (crc_of : Z -> Z -> S -> Z * S) (dptr end_ : Z)
    (base : Z) (c : ChunkCover) (st : S) : ChunkCover * S :=
  let abs_s := Z.max dptr base in
  let abs_e := Z.min end_ (wrap 64 (base + cc_size c)) in
  if abs_e <=? abs_s then (c, st) else
  let '(crc, st) := crc_of (abs_s - dptr) (abs_e - dptr) st in
  let s := abs_s - base in
  let e := abs_e - base in
  let kept := List.filter (fun '(a, b, _) => (b <=? s) || (e <=? a)) (segs c) in
  (MkCover (cc_size c) (cc_handle c) (ghandle c) (merge_sort seg_le (kept ++ [(s, e, crc)])) None, st).

Fixpoint mark_chunks {S} (crc_of : Z -> Z -> S -> Z * S) (dptr end_ : Z)
    (l : list (Z * ChunkCover)) (st : S) : list (Z * ChunkCover) * S :=
  match l with
  | [] => ([], st)
  | (base, c) :: l =>
      let '(c, st) := mark_chunk crc_of dptr end_ base c st in
      let '(l, st) := mark_chunks crc_of dptr end_ l st in
      ((base, c) :: l, st)
  end.

Definition mark_loaded_vmm_with {S} (crc_of : Z -> Z -> S -> Z * S) (dptr nbytes : Z)
    (maps : gmap Z ChunkCover) (st : S) : gmap Z ChunkCover * S :=
  let '(l, st) := mark_chunks crc_of dptr (saturating_add 64 dptr nbytes) (map_to_list maps) st in
  (list_to_map l, st).

Definition mark_loaded_vmm (dptr nbytes : Z) (data : option bytes) (maps : gmap Z ChunkCover) :
    gmap Z ChunkCover :=
  fst (mark_loaded_vmm_with
         (fun s e (_ : unit) => (match data with Some d => fnv64 (slice d s e) | None => 0 end, tt))
         dptr nbytes maps tt).

(** The fields of [GoldenLayout] that describe memory. *)
Record GoldenLayout := MkLayout {
  reservations : gmap Z Z;
  maps : gmap Z ChunkCover;
  layout_device : Z;
}.

(** ** Sessions *)

(** The fields of [Session] that concern memory. The allocation table, the VMM
    ranges and the layout are behind [Arc<Mutex<_>>] in the source, shared with the
    handoff registries a later clone reads its snapshots from. *)
Record Session := MkSession {
  vram_limit_bytes : option Z;
  fork_pool_size : option Z;
  fork_clone : bool;
  mem_pools : gmap Z Z;
  owned_dptrs : gmap Z Z;
  owned_vmm_handles : gmap Z Z;
  vmm_vhandles : gmap Z Z;
  device_base : Z;
  device_pinned : bool;
  owned_vmm_maps : gmap Z Z;
  owned_vmm_reservations : gmap Z Z;
  alloc_table : gmap Z (Z * bool);
  vmm_ranges : gmap Z Z;
  golden_layout : GoldenLayout;
  dptr_trans : list (Z * Z * Z);
  pending_isolate : Z;
  shared_ranges : list (Z * Z);
}.

Definition set_vram_limit (v : option Z) (s : Session) : Session := {|
  vram_limit_bytes := v; fork_pool_size := fork_pool_size s; fork_clone := fork_clone s;
  mem_pools := mem_pools s; owned_dptrs := owned_dptrs s; owned_vmm_handles := owned_vmm_handles
  s; vmm_vhandles := vmm_vhandles s; device_base := device_base s; device_pinned :=
  device_pinned s; owned_vmm_maps := owned_vmm_maps s; owned_vmm_reservations :=
  owned_vmm_reservations s; alloc_table := alloc_table s; vmm_ranges := vmm_ranges s;
  golden_layout := golden_layout s; dptr_trans := dptr_trans s; pending_isolate :=
  pending_isolate s; shared_ranges := shared_ranges s |}.
Definition set_owned_dptrs (v : gmap Z Z) (s : Session) : Session := {|
  vram_limit_bytes := vram_limit_bytes s; fork_pool_size := fork_pool_size s; fork_clone :=
  fork_clone s; mem_pools := mem_pools s; owned_dptrs := v; owned_vmm_handles :=
  owned_vmm_handles s; vmm_vhandles := vmm_vhandles s; device_base := device_base s;
  device_pinned := device_pinned s; owned_vmm_maps := owned_vmm_maps s; owned_vmm_reservations
  := owned_vmm_reservations s; alloc_table := alloc_table s; vmm_ranges := vmm_ranges s;
  golden_layout := golden_layout s; dptr_trans := dptr_trans s; pending_isolate :=
  pending_isolate s; shared_ranges := shared_ranges s |}.
Definition set_vmm_handles (v : gmap Z Z) (s : Session) : Session := {|
  vram_limit_bytes := vram_limit_bytes s; fork_pool_size := fork_pool_size s; fork_clone :=
  fork_clone s; mem_pools := mem_pools s; owned_dptrs := owned_dptrs s; owned_vmm_handles := v;
  vmm_vhandles := vmm_vhandles s; device_base := device_base s; device_pinned := device_pinned
  s; owned_vmm_maps := owned_vmm_maps s; owned_vmm_reservations := owned_vmm_reservations s;
  alloc_table := alloc_table s; vmm_ranges := vmm_ranges s; golden_layout := golden_layout s;
  dptr_trans := dptr_trans s; pending_isolate := pending_isolate s; shared_ranges :=
  shared_ranges s |}.
Definition set_vhandles (v : gmap Z Z) (s : Session) : Session := {|
  vram_limit_bytes := vram_limit_bytes s; fork_pool_size := fork_pool_size s; fork_clone :=
  fork_clone s; mem_pools := mem_pools s; owned_dptrs := owned_dptrs s; owned_vmm_handles :=
  owned_vmm_handles s; vmm_vhandles := v; device_base := device_base s; device_pinned :=
  device_pinned s; owned_vmm_maps := owned_vmm_maps s; owned_vmm_reservations :=
  owned_vmm_reservations s; alloc_table := alloc_table s; vmm_ranges := vmm_ranges s;
  golden_layout := golden_layout s; dptr_trans := dptr_trans s; pending_isolate :=
  pending_isolate s; shared_ranges := shared_ranges s |}.
Definition set_vmm_maps (v : gmap Z Z) (s : Session) : Session := {|
  vram_limit_bytes := vram_limit_bytes s; fork_pool_size := fork_pool_size s; fork_clone :=
  fork_clone s; mem_pools := mem_pools s; owned_dptrs := owned_dptrs s; owned_vmm_handles :=
  owned_vmm_handles s; vmm_vhandles := vmm_vhandles s; device_base := device_base s;
  device_pinned := device_pinned s; owned_vmm_maps := v; owned_vmm_reservations :=
  owned_vmm_reservations s; alloc_table := alloc_table s; vmm_ranges := vmm_ranges s;
  golden_layout := golden_layout s; dptr_trans := dptr_trans s; pending_isolate :=
  pending_isolate s; shared_ranges := shared_ranges s |}.
Definition set_reservations (v : gmap Z Z) (s : Session) : Session := {|
  vram_limit_bytes := vram_limit_bytes s; fork_pool_size := fork_pool_size s; fork_clone :=
  fork_clone s; mem_pools := mem_pools s; owned_dptrs := owned_dptrs s; owned_vmm_handles :=
  owned_vmm_handles s; vmm_vhandles := vmm_vhandles s; device_base := device_base s;
  device_pinned := device_pinned s; owned_vmm_maps := owned_vmm_maps s; owned_vmm_reservations
  := v; alloc_table := alloc_table s; vmm_ranges := vmm_ranges s; golden_layout := golden_layout
  s; dptr_trans := dptr_trans s; pending_isolate := pending_isolate s; shared_ranges :=
  shared_ranges s |}.
Definition set_alloc_table (v : gmap Z (Z * bool)) (s : Session) : Session := {|
  vram_limit_bytes := vram_limit_bytes s; fork_pool_size := fork_pool_size s; fork_clone :=
  fork_clone s; mem_pools := mem_pools s; owned_dptrs := owned_dptrs s; owned_vmm_handles :=
  owned_vmm_handles s; vmm_vhandles := vmm_vhandles s; device_base := device_base s;
  device_pinned := device_pinned s; owned_vmm_maps := owned_vmm_maps s; owned_vmm_reservations
  := owned_vmm_reservations s; alloc_table := v; vmm_ranges := vmm_ranges s; golden_layout :=
  golden_layout s; dptr_trans := dptr_trans s; pending_isolate := pending_isolate s;
  shared_ranges := shared_ranges s |}.
Definition set_vmm_ranges (v : gmap Z Z) (s : Session) : Session := {|
  vram_limit_bytes := vram_limit_bytes s; fork_pool_size := fork_pool_size s; fork_clone :=
  fork_clone s; mem_pools := mem_pools s; owned_dptrs := owned_dptrs s; owned_vmm_handles :=
  owned_vmm_handles s; vmm_vhandles := vmm_vhandles s; device_base := device_base s;
  device_pinned := device_pinned s; owned_vmm_maps := owned_vmm_maps s; owned_vmm_reservations
  := owned_vmm_reservations s; alloc_table := alloc_table s; vmm_ranges := v; golden_layout :=
  golden_layout s; dptr_trans := dptr_trans s; pending_isolate := pending_isolate s;
  shared_ranges := shared_ranges s |}.
Definition set_layout (v : GoldenLayout) (s : Session) : Session := {|
  vram_limit_bytes := vram_limit_bytes s; fork_pool_size := fork_pool_size s; fork_clone :=
  fork_clone s; mem_pools := mem_pools s; owned_dptrs := owned_dptrs s; owned_vmm_handles :=
  owned_vmm_handles s; vmm_vhandles := vmm_vhandles s; device_base := device_base s;
  device_pinned := device_pinned s; owned_vmm_maps := owned_vmm_maps s; owned_vmm_reservations
  := owned_vmm_reservations s; alloc_table := alloc_table s; vmm_ranges := vmm_ranges s;
  golden_layout := v; dptr_trans := dptr_trans s; pending_isolate := pending_isolate s;
  shared_ranges := shared_ranges s |}.
Definition set_trans (v : list (Z * Z * Z)) (s : Session) : Session := {|
  vram_limit_bytes := vram_limit_bytes s; fork_pool_size := fork_pool_size s; fork_clone :=
  fork_clone s; mem_pools := mem_pools s; owned_dptrs := owned_dptrs s; owned_vmm_handles :=
  owned_vmm_handles s; vmm_vhandles := vmm_vhandles s; device_base := device_base s;
  device_pinned := device_pinned s; owned_vmm_maps := owned_vmm_maps s; owned_vmm_reservations
  := owned_vmm_reservations s; alloc_table := alloc_table s; vmm_ranges := vmm_ranges s;
  golden_layout := golden_layout s; dptr_trans := v; pending_isolate := pending_isolate s;
  shared_ranges := shared_ranges s |}.
Definition set_pending (v : Z) (s : Session) : Session := {|
  vram_limit_bytes := vram_limit_bytes s; fork_pool_size := fork_pool_size s; fork_clone :=
  fork_clone s; mem_pools := mem_pools s; owned_dptrs := owned_dptrs s; owned_vmm_handles :=
  owned_vmm_handles s; vmm_vhandles := vmm_vhandles s; device_base := device_base s;
  device_pinned := device_pinned s; owned_vmm_maps := owned_vmm_maps s; owned_vmm_reservations
  := owned_vmm_reservations s; alloc_table := alloc_table s; vmm_ranges := vmm_ranges s;
  golden_layout := golden_layout s; dptr_trans := dptr_trans s; pending_isolate := v;
  shared_ranges := shared_ranges s |}.
Definition set_shared (v : list (Z * Z)) (s : Session) : Session := {|
  vram_limit_bytes := vram_limit_bytes s; fork_pool_size := fork_pool_size s; fork_clone :=
  fork_clone s; mem_pools := mem_pools s; owned_dptrs := owned_dptrs s; owned_vmm_handles :=
  owned_vmm_handles s; vmm_vhandles := vmm_vhandles s; device_base := device_base s;
  device_pinned := device_pinned s; owned_vmm_maps := owned_vmm_maps s; owned_vmm_reservations
  := owned_vmm_reservations s; alloc_table := alloc_table s; vmm_ranges := vmm_ranges s;
  golden_layout := golden_layout s; dptr_trans := dptr_trans s; pending_isolate :=
  pending_isolate s; shared_ranges := v |}.
Definition pin_device (device : Z) (s : Session) : Session := {|
  vram_limit_bytes := vram_limit_bytes s; fork_pool_size := fork_pool_size s; fork_clone :=
  fork_clone s; mem_pools := mem_pools s; owned_dptrs := owned_dptrs s; owned_vmm_handles :=
  owned_vmm_handles s; vmm_vhandles := vmm_vhandles s; device_base := device; device_pinned :=
  true; owned_vmm_maps := owned_vmm_maps s; owned_vmm_reservations := owned_vmm_reservations s;
  alloc_table := alloc_table s; vmm_ranges := vmm_ranges s; golden_layout := golden_layout s;
  dptr_trans := dptr_trans s; pending_isolate := pending_isolate s; shared_ranges :=
  shared_ranges s |}.

Definition upd_maps (f : gmap Z ChunkCover -> gmap Z ChunkCover) (s : Session) : Session :=
  let g := golden_layout s in
  set_layout (MkLayout (reservations g) (f (maps g)) (layout_device g)) s.
Definition upd_reserved (f : gmap Z Z -> gmap Z Z) (s : Session) : Session :=
  let g := golden_layout s in
  set_layout (MkLayout (f (reservations g)) (maps g) (layout_device g)) s.

(** The tables shared by the serving threads of one clone worker. *)
Record Worker := MkWorker {
  shared_vmm_ranges : list (Z * Z);
  worker_alloc_trans : list (Z * Z * Z);
  vmm_trans : option (gmap Z Z);
  lib_trans : list (Z * Z * Z);
}.

Definition set_shared_vmm (v : list (Z * Z)) (w : Worker) : Worker :=
  MkWorker v (worker_alloc_trans w) (vmm_trans w) (lib_trans w).
Definition set_vmm_trans (v : option (gmap Z Z)) (w : Worker) : Worker :=
  MkWorker (shared_vmm_ranges w) (worker_alloc_trans w) v (lib_trans w).
Definition set_lib_trans (v : list (Z * Z * Z)) (w : Worker) : Worker :=
  MkWorker (shared_vmm_ranges w) (worker_alloc_trans w) (vmm_trans w) v.

(** ** Pointer translation *)

(** [Vec::is_empty]. *)
Definition no_entries {A} (l : list A) : bool := match l with [] => true | _ => false end.

(** [slice::partition_point]: the index a binary search ends at. *)
Fixpoint bisect {A} (fuel : nat) (p : A -> bool) (l : list A) (lo hi : nat) : nat :=
  match fuel with
  | O => lo
  | S fuel =>
      if (lo <? hi)%nat then
        let mid := ((lo + hi) / 2)%nat in
        match l !! mid with
        | Some x => if p x then bisect fuel p l (S mid) hi else bisect fuel p l lo mid
        | None => lo
        end
      else lo
  end.
Definition partition_point {A} (p : A -> bool) (l : list A) : nat :=
  bisect (S (length l)) p l 0 (length l).

Definition xlat (trans : list (Z * Z * Z)) (p : Z) : Z :=
  if (p =? 0) || no_entries trans then p else
  match partition_point (fun t => t.1.1 <=? p) trans with
  | O => p
  | S i =>
      match trans !! i with
      | Some (base, size, copy) =>
          if p <? wrap 64 (base + size) then wrap 64 (copy + (p - base)) else p
      | None => p
      end
  end.

Definition base_le (x y : Z * Z * Z) : Prop := x.1.1 <= y.1.1.
#[global] Instance base_le_dec x y : Decision (base_le x y).
Proof. unfold base_le. apply _. Defined.
Definition sort_trans (trans : list (Z * Z * Z)) : list (Z * Z * Z) := merge_sort base_le trans.

(** The scan of an argument buffer in windows of eight bytes. *)
Fixpoint xlat_windows (fuel : nat) (trans : list (Z * Z * Z)) (p : bytes) : bytes :=
  match fuel with
  | O => p
  | S fuel =>
      if 8 <=? len p then
        let v := from_le (slice p 0 8) in
        let t := xlat trans v in
        (if negb (t =? v) then to_le 8 t else slice p 0 8) ++ xlat_windows fuel trans (slice p 8 (len p))
      else p
  end.
Definition xlat_args (trans : list (Z * Z * Z)) (p : bytes) : bytes := xlat_windows (length p) trans p.

Definition translate_dptrs (trans : list (Z * Z * Z)) (req : Request.Request) : Request.Request :=
  if no_entries trans then req else
  let x := xlat trans in
  match req with
  | Request.MemcpyHtoD dptr stream data => Request.MemcpyHtoD (x dptr) stream data
  | Request.MemcpyDtoH dptr n stream => Request.MemcpyDtoH (x dptr) n stream
  | Request.MemcpyDtoD dst src n => Request.MemcpyDtoD (x dst) (x src) n
  | Request.MemcpyDtoDAsync dst src n stream => Request.MemcpyDtoDAsync (x dst) (x src) n stream
  | Request.MemcpyPeerAsync dst dst_device src src_device n stream =>
      Request.MemcpyPeerAsync (x dst) dst_device (x src) src_device n stream
  | Request.IpcGetMemHandle dptr => Request.IpcGetMemHandle (x dptr)
  | Request.MemsetD8 dptr value n => Request.MemsetD8 (x dptr) value n
  | Request.MemsetD8Async dptr value n stream => Request.MemsetD8Async (x dptr) value n stream
  | Request.MemcpyShmHtoD dptr offset size stream => Request.MemcpyShmHtoD (x dptr) offset size stream
  | Request.MemcpyShmDtoH offset dptr size stream => Request.MemcpyShmDtoH offset (x dptr) size stream
  | Request.MemcpyGpaHtoD dptr stream segments => Request.MemcpyGpaHtoD (x dptr) stream segments
  | Request.MemcpyGpaDtoH dptr stream segments => Request.MemcpyGpaDtoH (x dptr) stream segments
  | Request.MemFree dptr => Request.MemFree (x dptr)
  | Request.MemFreeAsync dptr stream => Request.MemFreeAsync (x dptr) stream
  | Request.LaunchKernel function_ grid block shared_bytes stream params =>
      Request.LaunchKernel function_ grid block shared_bytes stream (xlat_args trans <$> params)
  | Request.LaunchKernelPacked function_ grid block shared_bytes stream args =>
      Request.LaunchKernelPacked function_ grid block shared_bytes stream (xlat_args trans args)
  | Request.CublasSgemm handle transa transb m n k alpha_bits a lda bmat ldb beta_bits c ldc =>
      Request.CublasSgemm handle transa transb m n k alpha_bits (x a) lda (x bmat) ldb beta_bits (x c) ldc
  | Request.PublishTensorBundle manifest tensors =>
      Request.PublishTensorBundle manifest ((fun t => (x t.1, t.2)) <$> tensors)
  | other => other
  end.

(** ** Access rights of inherited VMM ranges *)

Definition pair_le (x y : Z * Z) : Prop := x.1 < y.1 \/ x.1 = y.1 /\ x.2 <= y.2.
#[global] Instance pair_le_dec x y : Decision (pair_le x y).
Proof. unfold pair_le. apply _. Defined.

Definition intersection (va end_ : Z) (r : Z * Z) : option (Z * Z) :=
  let '(base, len) := r in
  let! shared_end := checked_add 64 base len in
  let start := Z.max va base in
  let stop := Z.min end_ shared_end in
  if start <? stop then Some (start, stop) else None.

(** The loop that merges, [last] being the last merged range so far. *)
Fixpoint merge_ranges (last : Z * Z) (l : list (Z * Z)) : list (Z * Z) :=
  match l with
  | [] => [last]
  | (start, stop) :: l =>
      if start <=? last.2 then merge_ranges (last.1, Z.max last.2 stop) l
      else last :: merge_ranges (start, stop) l
  end.
Definition merge_all (l : list (Z * Z)) : list (Z * Z) :=
  match l with [] => [] | x :: l => merge_ranges x l end.

Fixpoint partition_from (cursor end_ : Z) (merged : list (Z * Z)) : list (Z * Z * bool) :=
  match merged with
  | [] => if cursor <? end_ then [(cursor, end_ - cursor, false)] else []
  | (start, stop) :: merged =>
      (if cursor <? start then [(cursor, start - cursor, false)] else []) ++
      (start, stop - start, true) :: partition_from stop end_ merged
  end.

Definition vmm_access_partitions (va size : Z) (shared : list (Z * Z)) : list (Z * Z * bool) :=
  match checked_add 64 va size with
  | None => [(va, size, false)]
  | Some end_ =>
      partition_from va end_ (merge_all (merge_sort pair_le (omap (intersection va end_) shared)))
  end.

Definition forget_range (va end_ : Z) (r : Z * Z) : list (Z * Z) :=
  let '(base, len) := r in
  match checked_add 64 base len with
  | None => []
  | Some shared_end =>
      if (shared_end <=? va) || (end_ <=? base) then [(base, len)] else
      (if base <? va then [(base, va - base)] else []) ++
      (if end_ <? shared_end then [(end_, shared_end - end_)] else [])
  end.

Definition forget_worker_shared_vmm_range (va size : Z) (ranges : list (Z * Z)) : list (Z * Z) :=
  match checked_add 64 va size with
  | None => ranges
  | Some end_ => ranges ≫= forget_range va end_
  end.

Definition alloc_trans_is_identity (trans : list (Z * Z * Z)) (dptr : Z) : bool :=
  existsb (fun '(golden, _, worker) => (golden =? dptr) && (worker =? dptr)) trans.

(** ** Budgets *)

Definition FORK_POOL_HEADROOM_PERCENT : Z := 10.
Definition DEFAULT_FORK_DENSITY_SLOTS : Z := 8.

Definition pool_vram_limit (total fork_pool_size : Z) (fork_clone : bool) : Z :=
  let density_limit := total / DEFAULT_FORK_DENSITY_SLOTS in
  if negb fork_clone then density_limit else
  let sessions := saturating_add 64 fork_pool_size 1 in
  let fair_share := saturating_mul 64 total (100 - FORK_POOL_HEADROOM_PERCENT) / 100 / sessions in
  Z.min fair_share density_limit.

Definition sum_values (m : gmap Z Z) : Z := map_fold (fun _ v acc => v + acc) 0 m.

Definition session_vram_used (s : Session) : Z :=
  wrap 64 (wrap 64 (sum_values (owned_dptrs s)) + wrap 64 (sum_values (owned_vmm_handles s))).

(** The environment of the serving process: Path 3 on or off, the legacy
    budget, and the translation of stream handles. *)
Record Env := MkEnv {
  path3_enabled : bool;
  env_vram_limit : Z;
  raw_stream : Z -> Z;
}.

Definition session_vram_limit (env : Env) (s : Session) (physical_total : Z) : Z :=
  match vram_limit_bytes s with
  | Some limit => limit
  | None =>
      match fork_pool_size s with
      | Some n => if 0 <? n then pool_vram_limit physical_total n (fork_clone s) else env_vram_limit env
      | None => env_vram_limit env
      end
  end.

Definition virtual_memory_info (env : Env) (s : Session) (free total : Z) : Z * Z :=
  let total := Z.min total (session_vram_limit env s total) in
  (Z.min free (saturating_sub total (session_vram_used s)), total).

(** [dev] in [dispatch]: the guest's device through the session's pin. *)
Definition dev (s : Session) (device : Z) : Z :=
  if device_pinned s then as_i32 (wrap 32 (device_base s + device)) else device.

(** ** The state of a serving thread *)

Record State (B : Type) := MkState { sess : Session; worker : Worker; gpu : B }.
Arguments MkState {B}.
Arguments sess {B}.
Arguments worker {B}.
Arguments gpu {B}.

Definition D (B A : Type) : Type := State B -> CuResult A * State B.

Section Monad.
Context {B : Type}.
Definition dret {A} (x : A) : D B A := fun st => (Ok x, st).
Definition dfail {A} (code : Z) : D B A := fun st => (Err code, st).
Definition dbind {A C} (m : D B A) (k : A -> D B C) : D B C :=
  fun st => match m st with (Ok x, st) => k x st | (Err e, st) => (Err e, st) end.
(** A call of the driver. *)
Definition drive {A} (f : B -> CuResult A * B) : D B A :=
  fun st => let '(r, b) := f (gpu st) in (r, MkState (sess st) (worker st) b).
(** [let _ = m]: the error is dropped. *)
Definition dropped {A} (m : D B A) : D B unit := fun st => (Ok tt, (m st).2).
Definition session : D B Session := fun st => (Ok (sess st), st).
Definition table : D B Worker := fun st => (Ok (worker st), st).
Definition upd (f : Session -> Session) : D B unit :=
  fun st => (Ok tt, MkState (f (sess st)) (worker st) (gpu st)).
Definition upd_worker (f : Worker -> Worker) : D B unit :=
  fun st => (Ok tt, MkState (sess st) (f (worker st)) (gpu st)).
(** [if let Err(error) = m { release; return Err(error) }]. *)
Definition on_error {A} (m : D B A) (undo : D B unit) : D B A :=
  fun st => match m st with
            | (Err e, st) => (Err e, (undo st).2)
            | r => r
            end.
End Monad.

Notation "'let%' x ':=' e 'in' k" := (dbind e (fun x => k))
  (at level 10, x pattern, e at level 200, k at level 200,
   format "'[v' 'let%'  x  ':='  e  'in' '/' k ']'") : cuda_scope.

Section Host.
Context {B : Type} `{!Backend B}.
Variable env : Env.
(** The arms of [dispatch] that do not concern memory. *)
Variable other : Request.Request -> D B Response.Response.

Definition allocation_vram_limit : D B Z :=
  let% s := session in
  match vram_limit_bytes s, fork_pool_size s with
  | None, Some _ =>
      let% total := drive (device_total_mem (if device_pinned s then device_base s else 0)) in
      dret (session_vram_limit env s total)
  | _, _ => dret (session_vram_limit env s (u_max 64))
  end.

(** [used.saturating_add(bytes) > limit]: over the budget. *)
Definition check_quota (n : Z) : D B unit :=
  let% limit := allocation_vram_limit in
  let% s := session in
  if saturating_add 64 (session_vram_used s) n >? limit then dfail CUDA_ERROR_OUT_OF_MEMORY else dret tt.

(** [owned_dptrs.insert] and [alloc_table.insert]. *)
Definition own (d size : Z) : D B unit :=
  let% _ := upd (fun s => set_owned_dptrs (<[d := size]> (owned_dptrs s)) s) in
  upd (fun s => set_alloc_table (<[d := (size, false)]> (alloc_table s)) s).
Definition disown (d : Z) : D B unit :=
  let% _ := upd (fun s => set_owned_dptrs (base.delete d (owned_dptrs s)) s) in
  upd (fun s => set_alloc_table (base.delete d (alloc_table s)) s).

(** ** Copies for a clone *)

(** [slice::iter().position] and [Vec::swap_remove]. *)
Fixpoint position {A} (f : A -> bool) (l : list A) : option nat :=
  match l with
  | [] => None
  | x :: l => if f x then Some O else S <$> position f l
  end.
Definition swap_remove {A} (i : nat) (l : list A) : list A :=
  match last l with
  | Some x => take (length l - 1) (<[i := x]> l)
  | None => l
  end.

(** A private copy of the parent's [size] bytes at [base]; nothing when the
    driver has no room. *)
Definition private_copy (base size : Z) (k : Z -> D B unit) : D B unit := fun st =>
  match drive (mem_alloc size) st with
  | (Ok c, st) =>
      (let% _ := dropped (drive (memcpy_dtod c base size)) in
       let% _ := upd (fun s => set_trans (dptr_trans s ++ [(base, size, c)]) s) in
       k c) st
  | (Err _, st) => (Ok tt, st)
  end.

Definition in_range (dptr : Z) (r : Z * Z) : bool :=
  (r.1 <=? dptr) && (dptr <? wrap 64 (r.1 + r.2)).

Definition sync_lib_trans : D B unit :=
  let% s := session in upd_worker (set_lib_trans (dptr_trans s)).

Definition cow_one (dptr : Z) : D B unit :=
  let% s := session in
  match position (in_range dptr) (shared_ranges s) with
  | None => dret tt
  | Some i =>
      match shared_ranges s !! i with
      | None => dret tt
      | Some (base, size) =>
          let% _ := upd (set_shared (swap_remove i (shared_ranges s))) in
          private_copy base size (fun c =>
            let% _ := upd (fun s => set_trans (sort_trans (dptr_trans s)) s) in
            let% _ := own c size in
            sync_lib_trans)
      end
  end.

Definition cow_written (req : Request.Request) : D B unit :=
  let% s := session in
  if no_entries (shared_ranges s) then dret tt else
  match req with
  | Request.MemcpyHtoD dptr _ _ | Request.MemsetD8 dptr _ _ | Request.MemsetD8Async dptr _ _ _
  | Request.MemcpyShmHtoD dptr _ _ _ | Request.MemcpyGpaHtoD dptr _ _ => cow_one dptr
  | Request.MemcpyDtoD dst _ _ | Request.MemcpyDtoDAsync dst _ _ _
  | Request.MemcpyPeerAsync dst _ _ _ _ _ => cow_one dst
  | _ => dret tt
  end.

(** The copies of [PrimaryCtxRetain]'s first call on an isolating clone, from
    snapshots of the parent's allocations and VMM ranges in table order. *)
Fixpoint copy_allocs (copy_all : bool) (l : list (Z * Z * bool)) : D B unit :=
  match l with
  | [] => dret tt
  | (gdptr, size, loaded) :: l =>
      let% _ := if loaded && negb copy_all
                then upd (fun s => set_shared (shared_ranges s ++ [(gdptr, size)]) s)
                else private_copy gdptr size (fun c => own c size) in
      copy_allocs copy_all l
  end.
Fixpoint copy_vmm (l : list (Z * Z)) : D B unit :=
  match l with
  | [] => dret tt
  | (gva, size) :: l =>
      let% _ := private_copy gva size (fun c => own c size) in copy_vmm l
  end.
Fixpoint adopt_copies (l : list (Z * Z * Z)) : D B unit :=
  match l with
  | [] => dret tt
  | (gdptr, size, c) :: l =>
      let% _ := upd (fun s => set_trans (dptr_trans s ++ [(gdptr, size, c)]) s) in
      let% _ := upd (fun s => set_alloc_table (<[c := (size, false)]> (alloc_table s)) s) in
      adopt_copies l
  end.

Definition isolate (allocs : option (list (Z * Z * bool))) (vmm : option (list (Z * Z)))
    (copy_all in_worker : bool) : D B unit :=
  let% s := session in
  if pending_isolate s =? 0 then dret tt else
  let% _ := upd (set_pending 0) in
  let% _ := match allocs with
            | Some l => if in_worker then dret tt else copy_allocs copy_all l
            | None => dret tt
            end in
  let% _ := match vmm with
            | Some l => if in_worker then dret tt else copy_vmm l
            | None => dret tt
            end in
  let% w := table in
  let% _ := adopt_copies (worker_alloc_trans w) in
  let% _ := upd (fun s => set_trans (sort_trans (dptr_trans s)) s) in
  sync_lib_trans.

(** ** Writes to shared VMM chunks of a worker *)

Definition touches (dptr write_end : Z) (r : Z * Z) : bool :=
  (dptr <? saturating_add 64 r.1 r.2) && (r.1 <? write_end).

Definition replace_chunk (device base size : Z) : D B unit :=
  let% private := drive (mem_create size device) in
  let undo := dropped (drive (mem_release private)) in
  let% snapshot := on_error (drive (memcpy_dtoh base size 0)) undo in
  let% _ := on_error (drive ctx_synchronize) undo in
  let% _ := on_error (drive (mem_unmap base size)) undo in
  let% _ := on_error (drive (mem_map base size 0 private)) undo in
  let% _ := on_error (drive (mem_set_access base size device)) undo in
  let% _ := undo in
  let% _ := drive (memcpy_htod base snapshot 0) in
  drive ctx_synchronize.

(** Each turn removes a range, so the number of ranges bounds the turns. *)
Fixpoint cow_vmm_loop (fuel : nat) (device dptr write_end : Z) : D B unit :=
  match fuel with
  | O => dret tt
  | S fuel =>
      let% w := table in
      let ranges := shared_vmm_ranges w in
      match position (touches dptr write_end) ranges with
      | None => dret tt
      | Some i =>
          match ranges !! i with
          | None => dret tt
          | Some (base, size) =>
              let% _ := replace_chunk device base size in
              let% _ := upd_worker (set_shared_vmm (swap_remove i ranges)) in
              cow_vmm_loop fuel device dptr write_end
          end
      end
  end.

Definition cow_worker_vmm_range (dptr n : Z) : D B unit :=
  if n =? 0 then dret tt else
  let% s := session in
  let% w := table in
  cow_vmm_loop (S (length (shared_vmm_ranges w))) (if device_pinned s then device_base s else 0)
    dptr (saturating_add 64 dptr n).

Definition written_range (req : Request.Request) : option (Z * Z) :=
  match req with
  | Request.MemcpyHtoD dptr _ data => Some (dptr, len data)
  | Request.MemsetD8 dptr _ n | Request.MemsetD8Async dptr _ n _ => Some (dptr, n)
  | Request.MemcpyShmHtoD dptr _ size _ => Some (dptr, size)
  | Request.MemcpyGpaHtoD dptr _ segments =>
      Some (dptr, fold_left (fun total s => saturating_add 64 total s.2) segments 0)
  | Request.MemcpyDtoD dst _ n | Request.MemcpyDtoDAsync dst _ n _
  | Request.MemcpyPeerAsync dst _ _ _ n _ => Some (dst, n)
  | _ => None
  end.

Definition cow_worker_vmm_written (req : Request.Request) : D B unit :=
  match written_range req with
  | Some (dptr, n) => cow_worker_vmm_range dptr n
  | None => dret tt
  end.

(** ** The memory arms of [dispatch] *)

(** The allocation [dptr] points into, the one at [dptr] itself first; the
    table's own order decides between several. *)
Definition mark_loaded (dptr : Z) (t : gmap Z (Z * bool)) : gmap Z (Z * bool) :=
  match t !! dptr with
  | Some v => <[dptr := (v.1, true)]> t
  | None =>
      match List.find (fun kv => (kv.1 <=? dptr) && (dptr <? wrap 64 (kv.1 + kv.2.1))) (map_to_list t) with
      | Some (base, v) => <[base := (v.1, true)]> t
      | None => t
      end
  end.

Definition loaded (dptr : Z) : D B unit :=
  upd (fun s => set_alloc_table (mark_loaded dptr (alloc_table s)) s).

(** [mark_loaded_vmm_with] where the driver hashes the source. *)
Definition loaded_vmm (dptr n : Z) (hash : Z -> Z -> B -> option Z * B) : D B unit := fun st =>
  let '(m, b) := mark_loaded_vmm_with
                   (fun s e b => let '(r, b) := hash s e b in (default 0 r, b))
                   dptr n (maps (golden_layout (sess st))) (gpu st) in
  (Ok tt, MkState (upd_maps (fun _ => m) (sess st)) (worker st) b).

Definition unit_ok (m : D B unit) : D B Response.Response := let% _ := m in dret Response.Ok.

Definition dispatch_heap (req : Request.Request) : option (D B Response.Response) :=
  match req with
  | Request.MemAlloc n => Some (
      let% _ := check_quota n in
      let% d := drive (mem_alloc n) in
      let% _ := own d n in
      dret (Response.Dptr d))
  | Request.MemFree dptr => Some (
      let% _ := disown dptr in
      let% s := session in
      let% w := table in
      if fork_clone s && alloc_trans_is_identity (worker_alloc_trans w) dptr then dret Response.Ok
      else unit_ok (drive (mem_free dptr)))
  | Request.MemAllocFromPoolAsync n pool stream => Some (
      let% _ := check_quota n in
      let% s := session in
      match mem_pools s !! pool with
      | None => dfail CUDA_ERROR_INVALID_HANDLE
      | Some raw_pool =>
          let% d := drive (mem_alloc_from_pool_async n raw_pool (raw_stream env stream)) in
          let% _ := own d n in
          dret (Response.Dptr d)
      end)
  | Request.MemAllocAsync n stream => Some (
      let% _ := check_quota n in
      let% d := drive (mem_alloc_async n (raw_stream env stream)) in
      let% _ := own d n in
      dret (Response.Dptr d))
  | Request.MemFreeAsync dptr stream => Some (
      let% _ := drive (mem_free_async dptr (raw_stream env stream)) in
      unit_ok (disown dptr))
  | Request.MemGetInfo => Some (
      let% (free, total) := drive mem_get_info in
      let% s := session in
      let '(free, total) := virtual_memory_info env s free total in
      dret (Response.Pair free total))
  | Request.DeviceTotalMem device => Some (
      let% s := session in
      let% total := drive (device_total_mem (dev s device)) in
      dret (Response.Bytes (Z.min total (session_vram_limit env s total))))
  | _ => None
  end.

Definition dispatch_copy (req : Request.Request) : option (D B Response.Response) :=
  match req with
  | Request.MemcpyHtoD dptr stream data => Some (
      let% _ := loaded dptr in
      let% _ := if path3_enabled env
                then upd (upd_maps (mark_loaded_vmm dptr (len data) (Some data)))
                else dret tt in
      unit_ok (drive (memcpy_htod dptr data (raw_stream env stream))))
  | Request.MemcpyDtoH dptr n stream => Some (
      let% data := drive (memcpy_dtoh dptr n (raw_stream env stream)) in
      dret (Response.Data data))
  | Request.MemcpyDtoD dst src n => Some (unit_ok (drive (memcpy_dtod dst src n)))
  | Request.MemsetD8 dptr value n => Some (unit_ok (drive (memset_d8 dptr value n)))
  | Request.MemsetD8Async dptr value n stream =>
      Some (unit_ok (drive (memset_d8_async dptr value n (raw_stream env stream))))
  | Request.MemcpyDtoDAsync dst src n stream =>
      Some (unit_ok (drive (memcpy_dtod_async dst src n (raw_stream env stream))))
  | Request.MemcpyShmHtoD dptr offset size stream => Some (
      let% _ := loaded dptr in
      let% _ := if path3_enabled env then loaded_vmm dptr size (hash_shm_range offset) else dret tt in
      unit_ok (drive (memcpy_shm_htod dptr offset size (raw_stream env stream))))
  | Request.MemcpyShmDtoH offset dptr size stream =>
      Some (unit_ok (drive (memcpy_shm_dtoh offset dptr size (raw_stream env stream))))
  | Request.MemcpyGpaHtoD dptr stream segments => Some (
      let% _ := loaded dptr in
      let n := fold_left (fun total s => wrap 64 (total + s.2)) segments 0 in
      let% _ := if path3_enabled env then loaded_vmm dptr n (hash_gpa_range segments) else dret tt in
      unit_ok (drive (memcpy_gpa_htod dptr segments (raw_stream env stream))))
  | Request.MemcpyGpaDtoH dptr stream segments =>
      Some (unit_ok (drive (memcpy_gpa_dtoh dptr segments (raw_stream env stream))))
  | _ => None
  end.

Fixpoint set_access_parts (device : Z) (parts : list (Z * Z * bool)) : D B unit :=
  match parts with
  | [] => dret tt
  | (va, size, read_only) :: parts =>
      let% s := session in
      let% _ := drive (if read_only : bool then mem_set_access_ro va size (dev s device)
                       else mem_set_access va size (dev s device)) in
      set_access_parts device parts
  end.

Definition create (size device : Z) : D B Z :=
  let% _ := check_quota size in
  let% s := session in
  let% h := drive (if path3_enabled env then mem_create_exportable size (dev s device)
                   else mem_create size (dev s device)) in
  let% _ := upd (fun s => set_vmm_handles (<[h := size]> (owned_vmm_handles s)) s) in
  dret h.

Definition resolve_handle (s : Session) (w : Worker) (handle : Z) : CuResult Z :=
  match vmm_vhandles s !! handle with
  | Some real => Ok real
  | None =>
      match t ← vmm_trans w; t !! handle with
      | Some real => Ok real
      | None => if negb (Z.land handle VHANDLE_TAG =? 0) then Err CUDA_ERROR_INVALID_HANDLE else Ok handle
      end
  end.

(** [MemRelease]. *)
Definition release (guest_handle : Z) : D B Response.Response :=
  let% s := session in
  let session_handle := vmm_vhandles s !! guest_handle in
  let% _ := upd (fun s => set_vhandles (base.delete guest_handle (vmm_vhandles s)) s) in
  let handle := default guest_handle session_handle in
  let created_here := bool_decide (is_Some (owned_vmm_handles s !! handle)) in
  let% _ := upd (fun s => set_vmm_handles (base.delete handle (owned_vmm_handles s)) s) in
  let% w := table in
  match vmm_trans w with
  | Some t =>
      let% _ := upd_worker (set_vmm_trans (Some (base.delete handle t))) in
      match t !! handle with
      | Some h => unit_ok (drive (mem_release h))
      | None => if created_here then unit_ok (drive (mem_release handle)) else dret Response.Ok
      end
  | None =>
      if bool_decide (session_handle = None) && negb (Z.land guest_handle VHANDLE_TAG =? 0)
      then dfail CUDA_ERROR_INVALID_HANDLE
      else unit_ok (drive (mem_release handle))
  end.

Definition dispatch_vmm (req : Request.Request) : option (D B Response.Response) :=
  match req with
  | Request.MemAddressReserve size align => Some (
      let% va := drive (mem_address_reserve size align) in
      let% _ := upd (fun s => set_reservations (<[va := size]> (owned_vmm_reservations s)) s) in
      let% _ := upd (upd_reserved <[va := size]>) in
      dret (Response.Dptr va))
  | Request.MemCreate size device => Some (
      let% h := create size device in dret (Response.Handle h))
  | Request.MemCreateVh size device handle_vh => Some (
      let% h := create size device in
      unit_ok (upd (fun s => set_vhandles (<[handle_vh := h]> (vmm_vhandles s)) s)))
  | Request.MemMap va size offset ghandle => Some (
      let% s := session in
      let% w := table in
      let% handle := fun st => (resolve_handle s w ghandle, st) in
      let% _ := drive (mem_map va size offset handle) in
      let% _ := upd (fun s => set_vmm_maps (<[va := size]> (owned_vmm_maps s)) s) in
      let% _ := upd (fun s => set_vmm_ranges (<[va := size]> (vmm_ranges s)) s) in
      unit_ok (upd (upd_maps <[va := MkCover size handle ghandle [] None]>)))
  | Request.MemSetAccess va size device => Some (
      let% w := table in
      unit_ok (set_access_parts device (vmm_access_partitions va size (shared_vmm_ranges w))))
  | Request.MemUnmap va size => Some (
      let% _ := upd (fun s => set_vmm_maps (base.delete va (owned_vmm_maps s)) s) in
      let% _ := upd (fun s => set_vmm_ranges (base.delete va (vmm_ranges s)) s) in
      let% _ := upd (upd_maps (base.delete va)) in
      let% _ := drive (mem_unmap va size) in
      unit_ok (upd_worker (fun w =>
        set_shared_vmm (forget_worker_shared_vmm_range va size (shared_vmm_ranges w)) w)))
  | Request.MemRelease handle => Some (release handle)
  | Request.SetDeviceBase device => Some (
      let% _ := upd (pin_device device) in
      unit_ok (upd (fun s => let g := golden_layout s in
                             set_layout (MkLayout (reservations g) (maps g) device) s)))
  | Request.MemAddressFree va size => Some (
      let% _ := upd (fun s => set_reservations (base.delete va (owned_vmm_reservations s)) s) in
      let% _ := upd (upd_reserved (base.delete va)) in
      unit_ok (drive (mem_address_free va size)))
  | Request.MemGetAllocationGranularity device flags => Some (
      let% s := session in
      let% n := drive (mem_get_allocation_granularity (dev s device) flags) in
      dret (Response.Bytes n))
  | _ => None
  end.

Definition dispatch_arms (req : Request.Request) : D B Response.Response :=
  match dispatch_heap req with
  | Some m => m
  | None =>
      match dispatch_copy req with
      | Some m => m
      | None => match dispatch_vmm req with Some m => m | None => other req end
      end
  end.

Definition dispatch (st : State B) (req : Request.Request) : (Z * Response.Response) * State B :=
  let '(r, st) :=
    (let% _ := cow_worker_vmm_written req in
     let% _ := cow_written req in
     let% s := session in
     dispatch_arms (translate_dptrs (dptr_trans s) req)) st in
  match r with
  | Ok resp => ((0, resp), st)
  | Err code => ((code, Response.Ok), st)
  end.

End Host.

(** ** The emulated device *)

Record CpuBackend := MkCpu { next_dptr : Z; mem : gmap Z bytes }.

Definition cpu_default : CpuBackend := MkCpu 0x100000000 ∅.

Definition cpu_alloc (n : Z) (b : CpuBackend) : CuResult Z * CpuBackend :=
  (Ok (next_dptr b),
   MkCpu (wrap 64 (next_dptr b + Z.max n 1)) (<[next_dptr b := replicate (Z.to_nat n) 0]> (mem b))).

Definition cpu_free (d : Z) (b : CpuBackend) : CuResult unit * CpuBackend :=
  match mem b !! d with
  | Some _ => (Ok tt, MkCpu (next_dptr b) (base.delete d (mem b)))
  | None => (Err CUDA_ERROR_INVALID_HANDLE, b)
  end.

(** [buf[..data.len()].copy_from_slice(data)]. *)
Definition cpu_write (d : Z) (data : bytes) (b : CpuBackend) : CuResult unit * CpuBackend :=
  match mem b !! d with
  | None => (Err CUDA_ERROR_INVALID_HANDLE, b)
  | Some buf =>
      if len data >? len buf then (Err CUDA_ERROR_INVALID_HANDLE, b) else
      (Ok tt, MkCpu (next_dptr b) (<[d := data ++ drop (length data) buf]> (mem b)))
  end.

Definition cpu_read (d n : Z) (b : CpuBackend) : CuResult bytes * CpuBackend :=
  match mem b !! d with
  | None => (Err CUDA_ERROR_INVALID_HANDLE, b)
  | Some buf =>
      if n >? len buf then (Err CUDA_ERROR_INVALID_HANDLE, b) else (Ok (slice buf 0 n), b)
  end.

Definition cpu_copy (dst src n : Z) (b : CpuBackend) : CuResult unit * CpuBackend :=
  match cpu_read src n b with
  | (Ok data, b) => cpu_write dst data b
  | (Err e, b) => (Err e, b)
  end.

Definition cpu_fill (d value n : Z) (b : CpuBackend) : CuResult unit * CpuBackend :=
  match mem b !! d with
  | None => (Err CUDA_ERROR_INVALID_HANDLE, b)
  | Some buf =>
      if n >? len buf then (Err CUDA_ERROR_INVALID_HANDLE, b) else
      (Ok tt, MkCpu (next_dptr b) (<[d := replicate (Z.to_nat n) value ++ drop (Z.to_nat n) buf]> (mem b)))
  end.

Definition unsupported {A} (b : CpuBackend) : CuResult A * CpuBackend := (Err CUDA_ERROR_NOT_SUPPORTED, b).
Definition not_found {A} (b : CpuBackend) : CuResult A * CpuBackend := (Err CUDA_ERROR_NOT_FOUND, b).

#[global] Instance cpu_backend : Backend CpuBackend := {|
  device_total_mem _ b := (Ok (2 ^ 30), b);
  mem_get_info b := (Ok (2 ^ 29, 2 ^ 30), b);
  mem_alloc := cpu_alloc;
  mem_free := cpu_free;
  mem_alloc_async n _ := cpu_alloc n;
  mem_alloc_from_pool_async n _ _ := cpu_alloc n;
  mem_free_async d _ := cpu_free d;
  memcpy_htod d data _ := cpu_write d data;
  memcpy_dtoh d n _ := cpu_read d n;
  memcpy_dtod := cpu_copy;
  memcpy_dtod_async dst src n _ := cpu_copy dst src n;
  memset_d8 := cpu_fill;
  memset_d8_async d v n _ := cpu_fill d v n;
  memcpy_shm_htod _ _ _ _ := not_found;
  memcpy_shm_dtoh _ _ _ _ := not_found;
  hash_shm_range _ _ _ b := (None, b);
  memcpy_gpa_htod _ _ _ := not_found;
  memcpy_gpa_dtoh _ _ _ := not_found;
  hash_gpa_range _ _ _ b := (None, b);
  ctx_synchronize b := (Ok tt, b);
  mem_address_reserve _ _ := unsupported;
  mem_create _ _ := unsupported;
  mem_create_exportable _ _ := unsupported;
  mem_map _ _ _ _ := unsupported;
  mem_set_access _ _ _ := unsupported;
  mem_set_access_ro _ _ _ := unsupported;
  mem_unmap _ _ := unsupported;
  mem_release _ := unsupported;
  mem_address_free _ _ := unsupported;
  mem_get_allocation_granularity _ _ := unsupported;
|}.

End Mem.
