(* ===== verification/CudaMemFacts.v ===== *)
(** * Laws of device memory

    What the host relies on in the driver, as the class [DeviceLaws] (blocks that
    do not overlap, copies and fills that change what they name and nothing
    else), its instance for the emulated device, the binary search, and the
    pointer table as a partial map on addresses. *)

From S2P Require Import Prelude RustStr CudaProto CudaMem.

Module MemFacts.
Import Str Proto Mem.

(** ** Binary search *)

Lemma bisect_spec {A} (p : A -> bool) (l : list A) k fuel lo hi :
  (k <= length l)%nat -> (lo <= k <= hi)%nat -> (hi <= length l)%nat -> (hi - lo < fuel)%nat ->
  (forall i x, l !! i = Some x -> p x = (i <? k)%nat) ->
  bisect fuel p l lo hi = k.
Proof.
  intros Hk Hlo Hhi Hf Hp. revert lo hi Hlo Hhi Hf.
  induction fuel as [|fuel IH]; intros lo hi Hlo Hhi Hf; [lia|]. cbn [bisect].
  destruct (lo <? hi)%nat eqn:E; [apply Nat.ltb_lt in E|apply Nat.ltb_ge in E; lia].
  assert (Hm : (lo <= (lo + hi) / 2 < hi)%nat).
  { split; [apply Nat.div_le_lower_bound; lia|apply Nat.Div0.div_lt_upper_bound; lia]. }
  destruct (lookup_lt_is_Some_2 l ((lo + hi) / 2)) as [x Hx]; [lia|]. rewrite Hx, (Hp _ _ Hx).
  destruct ((lo + hi) / 2 <? k)%nat eqn:E2; [apply Nat.ltb_lt in E2|apply Nat.ltb_ge in E2];
    apply IH; lia.
Qed.

(** The number of leading elements with [p], when [p] holds on a prefix. *)
Lemma partition_point_split {A} (p : A -> bool) (l1 l2 : list A) :
  Forall (fun x => p x = true) l1 -> Forall (fun x => p x = false) l2 ->
  partition_point p (l1 ++ l2) = length l1.
Proof.
  intros H1 H2. unfold partition_point. rewrite length_app.
  apply bisect_spec; rewrite ?length_app; try lia. intros i x Hx.
  destruct (i <? length l1)%nat eqn:E; [apply Nat.ltb_lt in E|apply Nat.ltb_ge in E].
  - rewrite lookup_app_l in Hx by done. by apply (Forall_lookup_1 _ _ _ _ H1 Hx).
  - rewrite lookup_app_r in Hx by done. by apply (Forall_lookup_1 _ _ _ _ H2 Hx).
Qed.

(** ** The pointer table as a partial map *)

Definition entry_ok (t : Z * Z * Z) : Prop :=
  let '(base, size, copy) := t in
  0 < base /\ 0 < size /\ base + size < 2 ^ 64 /\ 0 <= copy /\ copy + size < 2 ^ 64.
Definition apart (x y : Z * Z * Z) : Prop := x.1.1 + x.1.2 <= y.1.1.
(** Entries in address order, their ranges apart. *)
Definition table_ok (t : list (Z * Z * Z)) : Prop := Forall entry_ok t /\ StronglySorted apart t.

Lemma table_ok_le t : table_ok t -> StronglySorted (fun x y => x.1.1 <= y.1.1) t.
Proof.
  intros [Ht Hs]. induction Hs as [|x t Hs IH Hx]; constructor; inv Ht; [by apply IH|].
  eapply Forall_impl; [exact Hx|]. intros y Hy. unfold apart in Hy.
  destruct x as [[b n] c], H1. cbn in *. lia.
Qed.

Lemma split_at_address t p :
  table_ok t -> exists l1 l2, t = l1 ++ l2 /\
  Forall (fun e => (e.1.1 <=? p) = true) l1 /\ Forall (fun e => (e.1.1 <=? p) = false) l2.
Proof.
  intros Ht. apply table_ok_le in Ht. induction Ht as [|x t Ht (l1 & l2 & -> & H1 & H2) Hx].
  - by exists [], [].
  - destruct (x.1.1 <=? p) eqn:E.
    + exists (x :: l1), l2. split; [done|]. split; [by constructor|done].
    + exists [], (x :: l1 ++ l2). split; [done|]. split; [constructor|]. constructor; [done|].
      eapply Forall_impl; [exact Hx|]. intros y Hy. cbn beta in Hy. apply Z.leb_gt in E. apply Z.leb_gt. lia.
Qed.

(** What [xlat] looks at: the last entry that starts at or below [p]. *)
Lemma xlat_split l1 l2 p :
  p <> 0 ->
  Forall (fun e => (e.1.1 <=? p) = true) l1 -> Forall (fun e => (e.1.1 <=? p) = false) l2 ->
  xlat (l1 ++ l2) p =
  match last l1 with
  | Some (base, size, copy) => if p <? wrap 64 (base + size) then wrap 64 (copy + (p - base)) else p
  | None => p
  end.
Proof.
  intros Hp H1 H2. unfold xlat. rewrite (proj2 (Z.eqb_neq p 0)) by done.
  rewrite partition_point_split by done. rewrite last_lookup.
  destruct l1 as [|x l1].
  - cbn. by destruct l2.
  - cbn [app no_entries orb length Nat.pred].
    change (x :: l1 ++ l2) with ((x :: l1) ++ l2). rewrite lookup_app_l by (cbn; lia). done.
Qed.

Lemma wrap_small w n : 0 <= n < 2 ^ w -> wrap w n = n.
Proof. apply Z.mod_small. Qed.

Lemma xlat_in t base size copy p :
  table_ok t -> (base, size, copy) ∈ t -> base <= p < base + size -> xlat t p = copy + (p - base).
Proof.
  intros Ht Hin Hp. destruct (split_at_address t p Ht) as (l1 & l2 & -> & H1 & H2).
  destruct Ht as [Hok Hs]. assert (He : entry_ok (base, size, copy)).
  { by apply (proj1 (list.Forall_forall _ _) Hok). }
  destruct He as (Hb & Hsz & Hbs & Hc & Hcs).
  rewrite xlat_split by (done || lia).
  apply elem_of_app in Hin as [Hin|Hin].
  2: { apply (proj1 (list.Forall_forall _ _) H2) in Hin. cbn in Hin. bool_simpl. lia. }
  destruct (last l1) as [[[b n] c]|] eqn:El.
  2: { apply last_None in El. subst. by apply elem_of_nil in Hin. }
  apply last_Some in El as [l1' ->]. apply elem_of_app in Hin as [Hin|Hin].
  - (* an earlier entry ends before the last one starts *)
    rewrite <- app_assoc in Hs. apply (StronglySorted_app_1_elem_of _ _ _) with (x1 := (base, size, copy))
      (x2 := (b, n, c)) in Hs; [|done|set_solver]. unfold apart in Hs. cbn in Hs.
    apply Forall_app in H1 as [_ H1]. inv H1. cbn in *. bool_simpl. lia.
  - apply list_elem_of_singleton in Hin. inv Hin. rewrite !wrap_small by lia.
    by rewrite (proj2 (Z.ltb_lt _ _)) by lia.
Qed.

Lemma xlat_out t p :
  table_ok t -> (forall base size copy, (base, size, copy) ∈ t -> ~ base <= p < base + size) ->
  xlat t p = p.
Proof.
  intros Ht Hout. destruct (decide (p = 0)) as [->|Hp]; [done|].
  destruct (split_at_address t p Ht) as (l1 & l2 & -> & H1 & H2). destruct Ht as [Hok _].
  rewrite xlat_split by done. destruct (last l1) as [[[b n] c]|] eqn:El; [|done].
  apply last_Some in El as [l1' ->]. assert (Hin : (b, n, c) ∈ (l1' ++ [(b, n, c)]) ++ l2) by set_solver.
  pose proof (proj1 (list.Forall_forall _ _) Hok _ Hin) as (Hb & Hsz & Hbs & _).
  specialize (Hout _ _ _ Hin). apply Forall_app in H1 as [_ H1]. inv H1. cbn in *. bool_simpl.
  rewrite wrap_small by lia. rewrite (proj2 (Z.ltb_ge _ _)) by lia. done.
Qed.

(** Sorting makes a table of any list of entries whose ranges are apart. *)
Definition entries_apart (l : list (Z * Z * Z)) : Prop :=
  forall i j x y, i <> j -> l !! i = Some x -> l !! j = Some y -> apart x y \/ apart y x.

Lemma entries_apart_perm l k : l ≡ₚ k -> entries_apart l -> entries_apart k.
Proof.
  intros Hp Hl i j x y Hij Hx Hy. symmetry in Hp.
  apply Permutation_inj in Hp as [Hlen (f & Hinj & Hf)].
  apply (Hl (f i) (f j)); [|by rewrite <- Hf..]. intros E. by apply Hinj in E.
Qed.

#[global] Instance base_le_trans : Transitive base_le.
Proof. intros x y z. unfold base_le. lia. Qed.
#[global] Instance base_le_total : Total base_le.
Proof. intros x y. unfold base_le. lia. Qed.

Lemma sorted_apart l :
  Forall entry_ok l -> StronglySorted base_le l -> entries_apart l -> StronglySorted apart l.
Proof.
  intros Hok Hs Ha. induction Hs as [|x l Hs IH Hx]; [constructor|]. inv Hok. constructor.
  - apply IH; [done|]. intros i j y z Hij. apply (Ha (S i) (S j)); lia.
  - apply Forall_lookup_2. intros i y Hy. pose proof (Forall_lookup_1 _ _ _ _ Hx Hy) as Hle.
    destruct (Ha 0%nat (S i) x y) as [|Hyx]; [lia|done..|].
    pose proof (Forall_lookup_1 _ _ _ _ H2 Hy) as Hy'. destruct y as [[b n] c], x as [[b' n'] c'].
    unfold apart, base_le in *. cbn in *. lia.
Qed.

Lemma sort_trans_ok l : Forall entry_ok l -> entries_apart l -> table_ok (sort_trans l).
Proof.
  intros Hok Ha. unfold sort_trans.
  assert (Hp : merge_sort base_le l ≡ₚ l) by apply merge_sort_Permutation.
  assert (Hok' : Forall entry_ok (merge_sort base_le l)) by by rewrite Hp.
  split; [done|]. apply sorted_apart; [done|apply StronglySorted_merge_sort; apply _|].
  by eapply entries_apart_perm.
Qed.

Lemma elem_of_sort_trans e l : e ∈ sort_trans l <-> e ∈ l.
Proof. unfold sort_trans. by rewrite merge_sort_Permutation. Qed.

(** ** What the driver promises *)

(** [data] written into [buf] at [off]. *)
Definition splice (off : Z) (data buf : bytes) : bytes :=
  take (Z.to_nat off) buf ++ data ++ drop (Z.to_nat off + length data) buf.

Lemma len_splice off data buf :
  0 <= off -> off + len data <= len buf -> len (splice off data buf) = len buf.
Proof. unfold splice, len. rewrite !length_app, length_take, length_drop. lia. Qed.

(** [n] bytes at offset [off] of a buffer. *)
Definition inside (off n : Z) (buf : bytes) : Prop := 0 <= off < len buf /\ 0 <= n /\ off + n <= len buf.

(** Errors of the driver are not [CUDA_SUCCESS]. *)
Definition coded {A} (r : CuResult A) : Prop := forall e, r = Err e -> e <> 0.

(** The laws of device memory: its blocks by base address. [room b k] says that
    allocations of [k] bytes in all, one extra byte each, will be granted. *)
Class DeviceLaws (B : Type) `{!Backend B} := {
  good : B -> Prop;
  room : B -> Z -> Prop;
  blocks : B -> gmap Z bytes;
  block_range b d buf : good b -> blocks b !! d = Some buf -> 0 < d /\ d + len buf < 2 ^ 64;
  block_apart b d d' buf buf' :
    good b -> blocks b !! d = Some buf -> blocks b !! d' = Some buf' -> d < d' -> d + len buf <= d';
  room_le b k k' : room b k -> k' <= k -> room b k';
  alloc_law b n k :
    good b -> 0 < n -> 0 <= k -> room b (n + 1 + k) ->
    exists d buf b', mem_alloc n b = (Ok d, b') /\ blocks b !! d = None /\ len buf = n /\
      blocks b' = <[d := buf]> (blocks b) /\ good b' /\ room b' k;
  total_law b device :
    good b ->
    let '(r, b') := device_total_mem device b in
    coded r /\ good b' /\ (forall k, room b k -> room b' k) /\ blocks b' = blocks b;
  free_law b d buf :
    good b -> blocks b !! d = Some buf ->
    let '(r, b') := mem_free d b in
    coded r /\ good b' /\ (forall k, room b k -> room b' k) /\
    blocks b' = (if is_ok r then base.delete d (blocks b) else blocks b);
  htod_law b d off data buf s :
    good b -> blocks b !! d = Some buf -> inside off (len data) buf ->
    let '(r, b') := memcpy_htod (d + off) data s b in
    coded r /\ good b' /\ (forall k, room b k -> room b' k) /\
    blocks b' = (if is_ok r then <[d := splice off data buf]> (blocks b) else blocks b);
  dtoh_law b d off n buf s :
    good b -> blocks b !! d = Some buf -> inside off n buf ->
    let '(r, b') := memcpy_dtoh (d + off) n s b in
    coded r /\ good b' /\ (forall k, room b k -> room b' k) /\ blocks b' = blocks b /\
    forall data, r = Ok data -> data = slice buf off (off + n);
  dtod_law b d off buf d' off' buf' n :
    good b -> blocks b !! d = Some buf -> inside off n buf ->
    blocks b !! d' = Some buf' -> inside off' n buf' ->
    let '(r, b') := memcpy_dtod (d + off) (d' + off') n b in
    coded r /\ good b' /\ (forall k, room b k -> room b' k) /\
    blocks b' = (if is_ok r then <[d := splice off (slice buf' off' (off' + n)) buf]> (blocks b)
                 else blocks b);
  memset_law b d off n v buf :
    good b -> blocks b !! d = Some buf -> inside off n buf ->
    let '(r, b') := memset_d8 (d + off) v n b in
    coded r /\ good b' /\ (forall k, room b k -> room b' k) /\
    blocks b' = (if is_ok r then <[d := splice off (replicate (Z.to_nat n) v) buf]> (blocks b)
                 else blocks b);
  (** The stream-ordered forms, their effect taken at their turn. *)
  dtod_async dst src n s b : memcpy_dtod_async dst src n s b = memcpy_dtod dst src n b;
  memset_async d v n s b : memset_d8_async d v n s b = memset_d8 d v n b;
}.

(** A driver whose copies of a whole block onto another of its size succeed.
    Not one of the laws: CUDA lets any copy fail. *)
Definition whole_copies (B : Type) `{!Backend B, !DeviceLaws B} : Prop :=
  forall (b : B) d buf d' buf',
  good b -> blocks b !! d = Some buf -> blocks b !! d' = Some buf' -> len buf = len buf' -> 0 < len buf ->
  is_ok (memcpy_dtod d d' (len buf) b).1 = true.

(** ** The emulated device keeps them *)

Definition cpu_good (b : CpuBackend) : Prop :=
  (forall d buf, mem b !! d = Some buf -> 0 < d /\ d + len buf <= next_dptr b /\ d < next_dptr b) /\
  (forall d d' buf buf', mem b !! d = Some buf -> mem b !! d' = Some buf' -> d < d' -> d + len buf <= d') /\
  0 < next_dptr b < 2 ^ 64.
Definition cpu_room (b : CpuBackend) (k : Z) : Prop := next_dptr b + k < 2 ^ 64.

(** Only the base of a block is an address of the emulation. *)
Lemma cpu_interior b d off buf :
  cpu_good b -> mem b !! d = Some buf -> 0 <= off < len buf ->
  off = 0 \/ mem b !! (d + off) = None.
Proof.
  intros (_ & Hap & _) Hd Hoff. destruct (decide (off = 0)) as [->|]; [by left|right].
  destruct (mem b !! (d + off)) as [buf'|] eqn:E; [|done].
  specialize (Hap _ _ _ _ Hd E). lia.
Qed.

Lemma cpu_good_update b d buf buf' :
  cpu_good b -> mem b !! d = Some buf -> len buf' = len buf ->
  cpu_good (MkCpu (next_dptr b) (<[d := buf']> (mem b))).
Proof.
  intros (Hr & Hap & Hn) Hd Hl. split; [|split; [|done]]; cbn [mem next_dptr].
  - intros x bx Hx. apply lookup_insert_Some in Hx as [[<- <-]|[_ Hx]]; [|by eapply Hr].
    rewrite Hl. by eapply Hr.
  - intros x y bx by_ Hx Hy Hlt.
    apply lookup_insert_Some in Hx as [[<- <-]|[_ Hx]];
      apply lookup_insert_Some in Hy as [[<- <-]|[_ Hy]]; rewrite ?Hl; try lia; by eapply Hap.
Qed.

Lemma cpu_alloc_law b n k :
  cpu_good b -> 0 < n -> 0 <= k -> cpu_room b (n + 1 + k) ->
  exists d buf b', cpu_alloc n b = (Ok d, b') /\ mem b !! d = None /\ len buf = n /\
    mem b' = <[d := buf]> (mem b) /\ cpu_good b' /\ cpu_room b' k.
Proof.
  intros (Hr & Hap & Hn) Hpos Hk Hroom. unfold cpu_room in *.
  assert (Hnone : mem b !! next_dptr b = None).
  { destruct (mem b !! next_dptr b) eqn:E; [|done]. apply Hr in E. lia. }
  assert (Hl : len (replicate (Z.to_nat n) 0) = n) by (unfold len; rewrite length_replicate; lia).
  eexists _, _, _. split; [done|]. split; [done|]. split; [exact Hl|]. split; [done|].
  cbn [mem next_dptr]. rewrite Z.max_l, wrap_small by lia. split; [|lia].
  split; [|split; [|cbn; lia]]; cbn [mem next_dptr].
  - intros x bx Hx. apply lookup_insert_Some in Hx as [[<- <-]|[_ Hx]]; [lia|]. apply Hr in Hx. lia.
  - intros x y bx by_ Hx Hy Hlt.
    apply lookup_insert_Some in Hx as [[<- <-]|[_ Hx]];
      apply lookup_insert_Some in Hy as [[<- <-]|[_ Hy]]; try lia.
    + apply Hr in Hy. lia.
    + apply Hr in Hx. lia.
    + by eapply Hap.
Qed.

Lemma cpu_good_delete b d : cpu_good b -> cpu_good (MkCpu (next_dptr b) (base.delete d (mem b))).
Proof.
  intros (Hr & Hap & Hn). split; [|split; [|done]]; cbn [mem next_dptr].
  - intros x bx Hx. apply lookup_delete_Some in Hx as [_ Hx]. by eapply Hr.
  - intros x y bx by_ Hx Hy. apply lookup_delete_Some in Hx as [_ Hx].
    apply lookup_delete_Some in Hy as [_ Hy]. by eapply Hap.
Qed.

(** Replacing the head of a block, the form every write of the emulation has. *)
Lemma cpu_write_law b d off data buf :
  cpu_good b -> mem b !! d = Some buf -> inside off (len data) buf ->
  let '(r, b') := cpu_write (d + off) data b in
  coded r /\ cpu_good b' /\ (forall k, cpu_room b k -> cpu_room b' k) /\
  mem b' = (if is_ok r then <[d := splice off data buf]> (mem b) else mem b).
Proof.
  intros Hg Hd (Hoff & _ & Hle). unfold cpu_write.
  destruct (cpu_interior b d off buf Hg Hd Hoff) as [->| ->]; [|by split; [intros e E; inv E|]].
  rewrite Z.add_0_r, Hd, Z.gtb_ltb, (proj2 (Z.ltb_ge _ _)) by lia. cbn [is_ok]. split; [done|].
  replace (data ++ drop (length data) buf) with (splice 0 data buf) by done.
  split; [|done]. eapply cpu_good_update; [done..|]. by rewrite len_splice by lia.
Qed.

Lemma cpu_fill_write b d v n : 0 <= n -> cpu_fill d v n b = cpu_write d (replicate (Z.to_nat n) v) b.
Proof.
  intros Hn. unfold cpu_fill, cpu_write. destruct (mem b !! d); [|done].
  unfold len. by rewrite length_replicate, Z2Nat.id.
Qed.

Lemma cpu_read_law b d off n buf :
  cpu_good b -> mem b !! d = Some buf -> inside off n buf ->
  (cpu_read (d + off) n b).2 = b /\ coded (cpu_read (d + off) n b).1 /\
  (forall data, (cpu_read (d + off) n b).1 = Ok data -> data = slice buf off (off + n)).
Proof.
  intros Hg Hd (Hoff & Hn & Hle). unfold cpu_read.
  destruct (cpu_interior b d off buf Hg Hd Hoff) as [->| ->]; [|by split; [|split; [intros e E; inv E|]]].
  rewrite Z.add_0_r, Hd, Z.gtb_ltb, (proj2 (Z.ltb_ge _ _)) by lia. split; [done|]. split; [done|].
  intros data E. by inv E.
Qed.

Lemma len_slice_inside off n buf : inside off n buf -> len (slice buf off (off + n)) = n.
Proof. intros (H1 & H2 & H3). rewrite len_slice by lia. lia. Qed.

#[global, refine] Instance cpu_laws : DeviceLaws CpuBackend := {|
  good := cpu_good; room := cpu_room; blocks := mem;
|}.
Proof.
  - intros b d buf (Hr & _ & Hn) Hd. apply Hr in Hd. lia.
  - intros b d d' buf buf' (_ & Hap & _). apply Hap.
  - unfold cpu_room. intros. lia.
  - exact cpu_alloc_law.
  - intros b device Hg. cbn. by split.
  - intros b d buf Hg Hd. cbn. unfold cpu_free. rewrite Hd. split; [done|]. split; [by apply cpu_good_delete|done].
  - intros b d off data buf s. apply cpu_write_law.
  - intros b d off n buf s Hg Hd Hin. cbn. destruct (cpu_read_law b d off n buf Hg Hd Hin) as (E & Hc & H).
    destruct (cpu_read (d + off) n b) as [r b']. cbn in *. by subst.
  - intros b d off buf d' off' buf' n Hg Hd Hin Hd' Hin'. cbn. unfold cpu_copy.
    destruct (cpu_read_law b d' off' n buf' Hg Hd' Hin') as (E & Hc & H).
    destruct (cpu_read (d' + off') n b) as [[data|e] b'] eqn:Er; cbn in E, Hc, H; subst b';
      [|by split; [intros x Ex; inv Ex; by apply Hc|]].
    rewrite (H data eq_refl). apply cpu_write_law; [done..|]. by rewrite len_slice_inside.
  - intros b d off n v buf Hg Hd Hin. cbn. rewrite cpu_fill_write by (destruct Hin; lia).
    apply cpu_write_law; [done..|]. unfold len at 1. rewrite length_replicate, Z2Nat.id; [done|]. by destruct Hin as (_ & ? & _).
  - done.
  - done.
Defined.

Lemma cpu_whole_copies : whole_copies CpuBackend.
Proof.
  intros b d buf d' buf' Hg Hd Hd' Hl Hpos. cbn in *. unfold cpu_copy, cpu_read, cpu_write.
  rewrite Hd', Z.gtb_ltb, (proj2 (Z.ltb_ge _ _)) by lia. cbn [mem].
  rewrite Hd, Z.gtb_ltb, (proj2 (Z.ltb_ge _ _)); [done|]. rewrite len_slice; lia.
Qed.

(** ** Ranges *)

Definition covered (l : list (Z * Z)) (a : Z) : Prop := exists x, x ∈ l /\ x.1 <= a < x.2.
(** Ranges in order with gaps between them. *)
Definition gapped (l : list (Z * Z)) : Prop :=
  StronglySorted (fun x y => x.2 < y.1) l /\ Forall (fun x => x.1 < x.2) l.

Lemma covered_cons x l a : covered (x :: l) a <-> x.1 <= a < x.2 \/ covered l a.
Proof.
  unfold covered. split.
  - intros (y & Hy & Ha). apply elem_of_cons in Hy as [->|Hy]; eauto.
  - intros [Ha|(y & Hy & Ha)]; [exists x|exists y]; (split; [|done]); set_solver.
Qed.

Lemma merge_ranges_spec l : forall last,
  Forall (fun x => x.1 < x.2) (last :: l) -> StronglySorted (fun x y => x.1 <= y.1) (last :: l) ->
  gapped (merge_ranges last l) /\ Forall (fun x => last.1 <= x.1) (merge_ranges last l) /\
  (forall a, covered (merge_ranges last l) a <-> covered (last :: l) a).
Proof.
  induction l as [|[start stop] l IH]; intros [s e] Hne Hs; cbn [merge_ranges fst snd].
  - split; [|split; [|done]].
    + split; [repeat constructor|done].
    + constructor; [done|constructor].
  - apply List.Forall_cons_iff in Hne as [H1 Hne]. apply List.Forall_cons_iff in Hne as [H2 Hne].
    apply StronglySorted_inv in Hs as [Hs Hle]. apply StronglySorted_inv in Hs as [Hs Hle2].
    apply List.Forall_cons_iff in Hle as [H3 Hle]. cbn [fst snd] in *.
    destruct (start <=? e) eqn:E; [apply Z.leb_le in E|apply Z.leb_gt in E].
    + destruct (IH (s, Z.max e stop)) as (Hg & Hf & Hc).
      { constructor; [cbn; lia|done]. }
      { by constructor. }
      split; [done|]. split; [done|]. intros a. rewrite Hc, !covered_cons. cbn [fst snd].
      split; [intros [|]|intros [|[|]]]; try tauto; lia.
    + destruct (IH (start, stop)) as ([Hg Hg'] & Hf & Hc).
      { by constructor. }
      { by constructor. }
      cbn [fst] in Hf. split; [split|split].
      * constructor; [done|]. eapply Forall_impl; [exact Hf|]. intros x Hx. cbn in *. lia.
      * by constructor.
      * constructor; [done|]. eapply Forall_impl; [exact Hf|]. intros x Hx. cbn in *. lia.
      * intros a. rewrite covered_cons, Hc. by rewrite (covered_cons (s, e)).
Qed.

Lemma merge_all_spec l :
  Forall (fun x => x.1 < x.2) l -> StronglySorted (fun x y => x.1 <= y.1) l ->
  gapped (merge_all l) /\ (forall a, covered (merge_all l) a <-> covered l a).
Proof.
  intros Hne Hs. destruct l as [|x l]; cbn [merge_all].
  - split; [split; constructor|done].
  - by destruct (merge_ranges_spec l x Hne Hs) as (? & _ & ?).
Qed.

(** Parts that follow one another from [from] to [end_]. *)
Fixpoint contiguous (from end_ : Z) (parts : list (Z * Z * bool)) : Prop :=
  match parts with
  | [] => from = end_
  | (va, size, _) :: parts => va = from /\ 0 < size /\ contiguous (va + size) end_ parts
  end.

Lemma partition_from_spec merged : forall cursor end_,
  gapped merged -> Forall (fun x => cursor <= x.1 /\ x.2 <= end_) merged -> cursor <= end_ ->
  contiguous cursor end_ (partition_from cursor end_ merged) /\
  (forall v n ro a, (v, n, ro) ∈ partition_from cursor end_ merged -> v <= a < v + n ->
     cursor <= a < end_ /\ (ro = true <-> covered merged a)).
Proof.
  induction merged as [|[start stop] merged IH]; intros cursor end_ [Hg Hne] Hb Hce; cbn [partition_from].
  - destruct (cursor <? end_) eqn:E; [apply Z.ltb_lt in E|apply Z.ltb_ge in E].
    + split; [cbn; lia|]. intros v n ro a Hin Ha. apply list_elem_of_singleton in Hin. inv Hin.
      split; [lia|]. split; [done|]. intros (x & Hx & _). by apply elem_of_nil in Hx.
    + split; [cbn; lia|]. intros v n ro a Hin. by apply elem_of_nil in Hin.
  - apply StronglySorted_inv in Hg as [Hg Hgap]. apply List.Forall_cons_iff in Hne as [H1 Hne].
    apply List.Forall_cons_iff in Hb as [[H2 H3] Hb]. cbn [fst snd] in *.
    destruct (IH stop end_) as [Hc Hf]; [done| |lia|].
    { apply list.Forall_forall. intros x Hx. pose proof (proj1 (list.Forall_forall _ _) Hgap x Hx).
      pose proof (proj1 (list.Forall_forall _ _) Hb x Hx). cbn in *. lia. }
    assert (Hnot : forall a, a < stop -> ~ covered merged a).
    { intros a Ha (x & Hx & Hxa). pose proof (proj1 (list.Forall_forall _ _) Hgap x Hx). cbn in *. lia. }
    split.
    + destruct (cursor <? start) eqn:E; [apply Z.ltb_lt in E|apply Z.ltb_ge in E]; cbn [app contiguous].
      * replace (cursor + (start - cursor)) with start by lia.
        replace (start + (stop - start)) with stop by lia. split; [done|]. split; [lia|]. split; [done|].
        split; [lia|done].
      * replace (start + (stop - start)) with stop by lia. split; [lia|]. split; [lia|done].
    + intros v n ro a Hin Ha. rewrite covered_cons. cbn [fst snd].
      apply elem_of_app in Hin as [Hin|Hin].
      * destruct (cursor <? start) eqn:E; [apply Z.ltb_lt in E|by apply elem_of_nil in Hin].
        apply list_elem_of_singleton in Hin. inv Hin. split; [lia|]. split; [done|].
        intros [|Hcov]; [lia|]. exfalso. eapply Hnot; [|exact Hcov]. lia.
      * apply elem_of_cons in Hin as [E|Hin].
        -- inv E. split; [lia|]. split; [|done]. intros _. left. lia.
        -- destruct (Hf v n ro a Hin Ha) as [Hr Hi]. split; [lia|]. rewrite Hi. split; [by right|].
           intros [|]; [lia|done].
Qed.

#[global] Instance pair_le_trans : Transitive pair_le.
Proof. intros x y z. unfold pair_le. lia. Qed.
#[global] Instance pair_le_total : Total pair_le.
Proof. intros x y. unfold pair_le. lia. Qed.

Lemma StronglySorted_impl {A} (R S : A -> A -> Prop) l :
  (forall x y, R x y -> S x y) -> StronglySorted R l -> StronglySorted S l.
Proof.
  intros H Hl. induction Hl as [|x l Hl IH Hx]; constructor; [done|].
  eapply Forall_impl; [exact Hx|]. intros y. apply H.
Qed.

(** ** Upload coverage *)

(** The bytes last uploaded, by address. *)
Definition upload (content : Z -> option Z) (dptr : Z) (data : bytes) (a : Z) : option Z :=
  if (dptr <=? a) && (a <? dptr + len data) then data !! Z.to_nat (a - dptr) else content a.

(** A recorded segment of the chunk at [base] holds the hash of what was last
    uploaded there. *)
Definition seg_ok (base size : Z) (content : Z -> option Z) (x : Z * Z * Z) : Prop :=
  let '(s, e, crc) := x in
  0 <= s < e /\ e <= size /\
  exists bs : bytes, len bs = e - s /\ crc = fnv64 bs /\
    forall i, 0 <= i < e - s -> content (base + s + i) = bs !! Z.to_nat i.

Definition cover_ok (content : Z -> option Z) (base : Z) (c : ChunkCover) : Prop :=
  Forall (seg_ok base (cc_size c) content) (segs c).

Lemma slice_lookup {A} (l : list A) a b i :
  0 <= a <= b -> b <= len l -> 0 <= i < b - a -> slice l a b !! Z.to_nat i = l !! Z.to_nat (a + i).
Proof.
  intros H1 H2 H3. unfold slice. rewrite lookup_take_lt by lia. rewrite lookup_drop. f_equal. lia.
Qed.

Lemma mark_chunk_ok content dptr (data : bytes) base c :
  0 <= dptr -> dptr + len data < 2 ^ 64 -> 0 <= base -> base + cc_size c < 2 ^ 64 -> 0 <= cc_size c ->
  cover_ok content base c ->
  cover_ok (upload content dptr data) base
    (mark_chunk (fun s e (_ : unit) => (fnv64 (slice data s e), tt)) dptr (dptr + len data) base c tt).1 /\
  cc_size (mark_chunk (fun s e (_ : unit) => (fnv64 (slice data s e), tt)) dptr (dptr + len data) base c tt).1 =
    cc_size c.
Proof.
  intros Hd Hdl Hb Hbs Hsz Hok. unfold mark_chunk. rewrite wrap_small by lia.
  set (abs_s := Z.max dptr base). set (abs_e := Z.min (dptr + len data) (base + cc_size c)).
  (* a segment the upload does not reach is as before *)
  assert (Hkeep : forall x, seg_ok base (cc_size c) content x ->
            x.1.2 <= abs_s - base \/ abs_e - base <= x.1.1 \/ abs_e <= abs_s ->
            seg_ok base (cc_size c) (upload content dptr data) x).
  { intros [[s e] crc] (Hs & He & bs & Hl & Hc & Hi) Hout. cbn [fst snd] in Hout.
    split; [done|]. split; [done|]. exists bs. split; [done|]. split; [done|]. intros i Hr.
    rewrite <- (Hi i Hr). unfold upload. case_bool_guard; [|done]. bool_simpl. unfold abs_s, abs_e in *. lia. }
  case_bool_guard; cbn [fst]; bool_simpl.
  - split; [|done]. eapply Forall_impl; [exact Hok|]. intros x Hx. apply Hkeep; [done|]. right. right. done.
  - split; [|done]. unfold cover_ok. cbn [segs cc_size]. rewrite merge_sort_Permutation.
    apply Forall_app. split.
    + apply list.Forall_forall. intros [[s e] crc] Hin. apply list_elem_of_In, filter_In in Hin as [Hin Hf].
      apply list_elem_of_In in Hin. apply Hkeep; [by apply (proj1 (list.Forall_forall _ _) Hok)|].
      apply orb_true_iff in Hf. rewrite !Z.leb_le in Hf. cbn. lia.
    + apply List.Forall_cons; [|constructor]. unfold seg_ok. unfold abs_s, abs_e in *.
      split; [lia|]. split; [lia|]. eexists. split; [|split; [reflexivity|]].
      * rewrite len_slice; lia.
      * intros i Hi. rewrite slice_lookup by lia. unfold upload.
        rewrite (proj2 (Z.leb_le _ _)), (proj2 (Z.ltb_lt _ _)) by lia. cbn. f_equal. lia.
Qed.

(** Marking is marking each chunk. *)
Lemma mark_loaded_vmm_lookup dptr data (m : gmap Z ChunkCover) base :
  dptr + len data < 2 ^ 64 ->
  mark_loaded_vmm dptr (len data) (Some data) m !! base =
  (fun c => (mark_chunk (fun s e (_ : unit) => (fnv64 (slice data s e), tt)) dptr (dptr + len data) base c tt).1)
    <$> m !! base.
Proof.
  intros Hle. unfold mark_loaded_vmm, mark_loaded_vmm_with.
  replace (saturating_add 64 dptr (len data)) with (dptr + len data) by (unfold saturating_add, u_max; lia).
  set (f := fun s e (_ : unit) => (fnv64 (slice data s e), tt)).
  set (g := fun kc : Z * ChunkCover => (kc.1, (mark_chunk f dptr (dptr + len data) kc.1 kc.2 tt).1)).
  assert (E : forall l, mark_chunks f dptr (dptr + len data) l tt = (g <$> l, tt)).
  { intros l. induction l as [|[b c] l IH]; [done|]. cbn [mark_chunks].
    destruct (mark_chunk f dptr (dptr + len data) b c tt) as [c' []] eqn:Ec. rewrite IH.
    cbn [fmap list_fmap]. unfold g at 2. cbn [fst snd]. by rewrite Ec. }
  rewrite E. cbn [fst].
  assert (Hfst : (g <$> map_to_list m).*1 = (map_to_list m).*1) by by rewrite <- list_fmap_compose.
  destruct (m !! base) as [c|] eqn:Em; cbn.
  - apply elem_of_list_to_map_1; [rewrite Hfst; apply NoDup_fst_map_to_list|].
    apply list_elem_of_fmap. exists (base, c). split; [done|]. by apply elem_of_map_to_list.
  - apply not_elem_of_list_to_map_1. rewrite Hfst. intros Hin.
    apply list_elem_of_fmap in Hin as ([b c] & -> & Hin). apply elem_of_map_to_list in Hin. cbn in *. congruence.
Qed.

(** A tiling of the chunk is an image of it. *)
Lemma tiles_image base size content l : forall expect,
  0 <= expect -> tiles expect l size = true -> Forall (seg_ok base size content) l ->
  exists img : bytes, expect <= size /\ len img = size - expect /\
    (forall i, 0 <= i < size - expect -> content (base + expect + i) = img !! Z.to_nat i) /\
    Forall (fun '(s, e, crc) => expect <= s < e /\ e <= size /\ crc = fnv64 (slice img (s - expect) (e - expect))) l.
Proof.
  induction l as [|[[s e] crc] l IH]; intros expect He Ht Hok; cbn [tiles] in Ht.
  - bool_simpl. exists []. subst. split; [lia|]. split; [rewrite len_nil; lia|]. split; [intros i Hi; lia|constructor].
  - destruct (negb (s =? expect) || (crc =? 0)) eqn:E; [done|]. apply orb_false_iff in E as [E _].
    apply negb_false_iff, Z.eqb_eq in E. subst s. apply List.Forall_cons_iff in Hok as [(Hs & Hle & bs & Hl & Hc & Hi) Hok].
    destruct (IH e ltac:(lia) Ht Hok) as (img & H1 & H2 & H3 & H4).
    exists (bs ++ img). split; [lia|]. split; [rewrite len_app; lia|]. split.
    + intros i Hr. destruct (decide (i < e - expect)).
      * rewrite lookup_app_l by (unfold len in Hl; lia). apply Hi. lia.
      * rewrite lookup_app_r by (unfold len in Hl; lia).
        replace (base + expect + i) with (base + e + (i - (e - expect))) by lia. rewrite H3 by lia.
        f_equal. unfold len in Hl. lia.
    + apply List.Forall_cons.
      * split; [lia|]. split; [done|]. rewrite Hc. f_equal. rewrite Z.sub_diag.
        unfold slice, len in *. rewrite Z.sub_0_r. change (Z.to_nat 0) with 0%nat.
        rewrite drop_0, take_app_le, firstn_all2 by lia. done.
      * eapply Forall_impl; [exact H4|]. intros [[s' e'] crc'] (Ha & Hb & ->). split; [lia|]. split; [done|].
        f_equal. unfold slice, len in *. rewrite drop_app_ge by lia. f_equal; [lia|]. f_equal. lia.
Qed.

End MemFacts.
