(* ===== verification/CudaMemIso.v ===== *)
(** * Isolation of a forked CUDA session

    A clone that shares its parent's device sees a private memory: the
    specification is a machine with buffers of its own ([private_step]), the
    implementation is [Mem.dispatch] after [Mem.isolate], and [isolated] relates
    the two through the pointer table. *)

From S2P Require Import Prelude RustStr CudaProto CudaMem CudaMemFacts.

Module Iso.
Import Str Proto Mem MemFacts.

(** ** The specification: a memory of one's own *)

Notation PMem := (gmap Z bytes).

Inductive private_step : PMem -> Request.Request -> Z * Response.Response -> PMem -> Prop :=
| ps_refused m req code : code <> 0 -> private_step m req (code, Response.Ok) m
| ps_htod m p off buf s data :
    m !! p = Some buf -> inside off (len data) buf ->
    private_step m (Request.MemcpyHtoD (p + off) s data) (0, Response.Ok) (<[p := splice off data buf]> m)
| ps_dtoh m p off buf n s :
    m !! p = Some buf -> inside off n buf ->
    private_step m (Request.MemcpyDtoH (p + off) n s) (0, Response.Data (slice buf off (off + n))) m
| ps_dtod m p off buf p' off' buf' n req :
    m !! p = Some buf -> inside off n buf -> m !! p' = Some buf' -> inside off' n buf' ->
    (req = Request.MemcpyDtoD (p + off) (p' + off') n \/
     exists s, req = Request.MemcpyDtoDAsync (p + off) (p' + off') n s) ->
    private_step m req (0, Response.Ok) (<[p := splice off (slice buf' off' (off' + n)) buf]> m)
| ps_memset m p off buf v n req :
    m !! p = Some buf -> inside off n buf ->
    (req = Request.MemsetD8 (p + off) v n \/ exists s, req = Request.MemsetD8Async (p + off) v n s) ->
    private_step m req (0, Response.Ok) (<[p := splice off (replicate (Z.to_nat n) v) buf]> m)
| ps_alloc m n d buf :
    len buf = n -> m !! d = None ->
    (forall p b, m !! p = Some b -> p + len b <= d \/ d + n <= p) ->
    private_step m (Request.MemAlloc n) (0, Response.Dptr d) (<[d := buf]> m)
| ps_free m p buf :
    m !! p = Some buf -> private_step m (Request.MemFree p) (0, Response.Ok) (base.delete p m).

Inductive private_run : PMem -> list (Request.Request * (Z * Response.Response)) -> PMem -> Prop :=
| pr_nil m : private_run m [] m
| pr_cons m m' m'' req ans t :
    private_step m req ans m' -> private_run m' t m'' -> private_run m ((req, ans) :: t) m''.

(** ** Programs that respect the bounds of their buffers *)

Definition points (live : gmap Z Z) (dptr n : Z) : Prop :=
  exists p size, live !! p = Some size /\ p <= dptr < p + size /\ 0 <= n /\ dptr + n <= p + size.

(** Requests on buffers that are live, each within one buffer. Weights, which
    may be shared with the parent, are not freed. *)
Definition valid (live : gmap Z Z) (weights : gset Z) (req : Request.Request) : Prop :=
  match req with
  | Request.MemcpyHtoD dptr _ data => points live dptr (len data)
  | Request.MemcpyDtoH dptr n _ => points live dptr n
  | Request.MemcpyDtoD dst src n | Request.MemcpyDtoDAsync dst src n _ =>
      points live dst n /\ points live src n
  | Request.MemsetD8 dptr _ n | Request.MemsetD8Async dptr _ n _ => points live dptr n
  | Request.MemAlloc n => 0 < n
  | Request.MemFree dptr => is_Some (live !! dptr) /\ dptr ∉ weights
  | _ => False
  end.

(** The buffers a program holds, from what it was answered. *)
Definition track (live : gmap Z Z) (req : Request.Request) (ans : Z * Response.Response) : gmap Z Z :=
  match req, ans with
  | Request.MemAlloc n, (0, Response.Dptr d) => <[d := n]> live
  | Request.MemFree d, (0, _) => base.delete d live
  | _, _ => live
  end.

Fixpoint valid_trace (live : gmap Z Z) (weights : gset Z)
    (t : list (Request.Request * (Z * Response.Response))) : Prop :=
  match t with
  | [] => True
  | (req, ans) :: t => valid live weights req /\ valid_trace (track live req ans) weights t
  end.

Definition alloc_cost (req : Request.Request) : Z :=
  match req with Request.MemAlloc n => n + 1 | _ => 0 end.
Definition budget (reqs : list Request.Request) : Z := foldr (fun r k => alloc_cost r + k) 0 reqs.
Definition cost (l : list (Z * Z)) : Z := foldr (fun r k => r.2 + 1 + k) 0 l.

Lemma cost_app l k : cost (l ++ k) = cost l + cost k.
Proof. induction l as [|x l IH]; [done|]. cbn [cost foldr app]. fold (cost (l ++ k)). fold (cost l). lia. Qed.
#[global] Instance cost_Permutation : Proper ((≡ₚ) ==> eq) cost.
Proof. intros l k H. induction H; cbn [cost foldr] in *; try fold (cost l) in *; try fold (cost l') in *; lia. Qed.

Section Iso.
Context {B : Type} `{!Backend B, !DeviceLaws B}.
Variable env : Env.
Variable other : Request.Request -> D B Response.Response.

(** ** The relation *)

(** Where the guest's buffer at [p] really is. *)
Definition lives (tr : list (Z * Z * Z)) (p n h : Z) : Prop :=
  (p, n, h) ∈ tr \/ h = p /\ p ∉ tr.*1.*1.

Lemma base_in (tr : list (Z * Z * Z)) p n c : (p, n, c) ∈ tr -> p ∈ tr.*1.*1.
Proof.
  intros H. apply list_elem_of_fmap. exists (p, n). split; [done|].
  apply list_elem_of_fmap. by exists (p, n, c).
Qed.
Lemma in_base (tr : list (Z * Z * Z)) p : p ∈ tr.*1.*1 -> exists n c, (p, n, c) ∈ tr.
Proof.
  intros Hin. apply list_elem_of_fmap in Hin as ([p' n] & -> & Hin).
  apply list_elem_of_fmap in Hin as ([[q n'] c] & E & Hin). inv E. by eexists _, _.
Qed.

Record isolated (P : gmap Z bytes) (weights : gset Z) (k : Z)
    (sh : list (Z * Z)) (tr : list (Z * Z * Z)) (b : B) (m : PMem) : Prop := {
  i_good : good b;
  i_room : room b (cost sh + k);
  i_parent : P ⊆ blocks b;
  i_pos : forall p buf, P !! p = Some buf -> 0 < len buf;
  i_shared : forall p n, (p, n) ∈ sh -> p ∈ weights /\ exists buf, P !! p = Some buf /\ len buf = n;
  i_trans : forall p n c, (p, n, c) ∈ tr ->
    0 <= c /\ c + n < 2 ^ 64 /\ exists buf, P !! p = Some buf /\ len buf = n;
  i_once : NoDup (sh.*1 ++ tr.*1.*1);
  i_sorted : StronglySorted base_le tr;
  i_view : forall p buf, m !! p = Some buf ->
    0 < len buf /\ (exists old, blocks b !! p = Some old /\ len old = len buf) /\
    exists h, lives tr p (len buf) h /\ blocks b !! h = Some buf /\
      (P !! h = None \/ h = p /\ (p, len buf) ∈ sh);
  i_inj : forall p q bp bq h, m !! p = Some bp -> m !! q = Some bq ->
    lives tr p (len bp) h -> lives tr q (len bq) h -> p = q;
}.

Section Facts.
Context {P : gmap Z bytes} {weights : gset Z}.
Context {k : Z} {sh : list (Z * Z)} {tr : list (Z * Z * Z)} {b : B} {m : PMem}.
Hypothesis HI : isolated P weights k sh tr b m.

Lemma parent_block p buf : P !! p = Some buf -> blocks b !! p = Some buf.
Proof. intros H. by apply (lookup_weaken _ _ _ _ H), HI. Qed.

(** Two blocks with a common address are one. *)
Lemma same_block p q bp bq a :
  blocks b !! p = Some bp -> blocks b !! q = Some bq ->
  p <= a < p + len bp -> q <= a < q + len bq -> p = q.
Proof.
  intros Hp Hq Hap Haq. pose proof (i_good _ _ _ _ _ _ _ HI) as Hg.
  destruct (Z.lt_trichotomy p q) as [Hlt|[|Hlt]]; [|done|].
  - pose proof (block_apart _ _ _ _ _ Hg Hp Hq Hlt). lia.
  - pose proof (block_apart _ _ _ _ _ Hg Hq Hp Hlt). lia.
Qed.

Lemma trans_entry_ok : Forall entry_ok tr.
Proof.
  apply list.Forall_forall. intros [[p n] c] Hin.
  destruct (i_trans _ _ _ _ _ _ _ HI p n c Hin) as (Hc & Hcn & buf & Hp & Hl).
  pose proof (i_pos _ _ _ _ _ _ _ HI p buf Hp).
  pose proof (block_range _ _ _ (i_good _ _ _ _ _ _ _ HI) (parent_block p buf Hp)).
  unfold entry_ok. lia.
Qed.

Lemma trans_entries_apart : entries_apart tr.
Proof.
  intros i j [[p n] c] [[q n'] c'] Hij Hx Hy.
  assert (Hne : p <> q).
  { intros ->. pose proof (i_once _ _ _ _ _ _ _ HI) as Hnd. apply NoDup_app in Hnd as (_ & _ & Hnd).
    apply Hij. apply (NoDup_lookup _ _ _ q Hnd); by rewrite !list_lookup_fmap, ?Hx, ?Hy. }
  destruct (i_trans _ _ _ _ _ _ _ HI p n c) as (_ & _ & bp & Hp & Hlp); [by eapply list_elem_of_lookup_2|].
  destruct (i_trans _ _ _ _ _ _ _ HI q n' c') as (_ & _ & bq & Hq & Hlq); [by eapply list_elem_of_lookup_2|].
  apply parent_block in Hp, Hq. pose proof (i_good _ _ _ _ _ _ _ HI) as Hg. unfold apart. cbn.
  destruct (Z.lt_trichotomy p q) as [Hlt|[|Hlt]]; [left|done|right].
  - pose proof (block_apart _ _ _ _ _ Hg Hp Hq Hlt). lia.
  - pose proof (block_apart _ _ _ _ _ Hg Hq Hp Hlt). lia.
Qed.

Lemma trans_table_ok : table_ok tr.
Proof.
  split; [apply trans_entry_ok|].
  apply sorted_apart; [apply trans_entry_ok|apply HI|apply trans_entries_apart].
Qed.

(** The pointer table maps a guest's buffer onto its home, byte by byte. *)
Lemma xlat_guest p buf h off :
  m !! p = Some buf -> lives tr p (len buf) h -> 0 <= off < len buf -> xlat tr (p + off) = h + off.
Proof.
  intros Hm [Hin|[-> Hnin]] Hoff.
  - rewrite (xlat_in tr p (len buf) h) by (apply trans_table_ok || done || lia). lia.
  - apply xlat_out; [apply trans_table_ok|]. intros q n c Hin Hq.
    destruct (i_trans _ _ _ _ _ _ _ HI q n c Hin) as (_ & _ & bq & Hbq & Hlq).
    destruct (i_view _ _ _ _ _ _ _ HI p buf Hm) as (_ & (old & Hold & Hlo) & _).
    assert (E : p = q) by (eapply (same_block p q old bq (p + off)); [done|by apply parent_block|lia..]).
    subst q.
    by eapply Hnin, base_in.
Qed.

Lemma in_range_shared p n a :
  (p, n) ∈ sh -> in_range a (p, n) = true <-> p <= a < p + n.
Proof.
  intros Hin. destruct (i_shared _ _ _ _ _ _ _ HI p n Hin) as (_ & buf & Hp & Hl).
  pose proof (block_range _ _ _ (i_good _ _ _ _ _ _ _ HI) (parent_block p buf Hp)) as Hr.
  pose proof (len_nonneg buf). unfold in_range. cbn [fst snd]. rewrite wrap_small by lia.
  rewrite andb_true_iff, Z.leb_le, Z.ltb_lt. done.
Qed.

(** The shared range a guest's address falls into is the guest's own buffer. *)
Lemma shared_of_guest p buf off q n :
  m !! p = Some buf -> 0 <= off < len buf -> (q, n) ∈ sh -> in_range (p + off) (q, n) = true ->
  q = p /\ n = len buf.
Proof.
  intros Hm Hoff Hin Hr. apply (in_range_shared q n _ Hin) in Hr.
  destruct (i_shared _ _ _ _ _ _ _ HI q n Hin) as (_ & bq & Hbq & Hlq).
  destruct (i_view _ _ _ _ _ _ _ HI p buf Hm) as (_ & (old & Hold & Hlo) & _).
  apply parent_block in Hbq.
  assert (E : p = q) by (eapply (same_block p q old bq (p + off)); done || lia). subst q.
  split; [done|]. congruence.
Qed.

Lemma lives_private p buf h :
  m !! p = Some buf -> lives tr p (len buf) h -> blocks b !! h = Some buf.
Proof.
  intros Hm Hh. destruct (i_view _ _ _ _ _ _ _ HI p buf Hm) as (_ & _ & h' & Hh' & Hb & _).
  assert (h = h') as ->; [|done]. pose proof (i_once _ _ _ _ _ _ _ HI) as Hnd.
  apply NoDup_app in Hnd as (_ & _ & Hnd).
  destruct Hh as [Hin|[-> Hnin]], Hh' as [Hin'|[-> Hnin']]; [|exfalso..|done].
  - apply list_elem_of_lookup in Hin as [i Hi]. apply list_elem_of_lookup in Hin' as [j Hj].
    assert (i = j) as ->. { apply (NoDup_lookup _ _ _ p Hnd); by rewrite !list_lookup_fmap, ?Hi, ?Hj. }
    congruence.
  - by eapply Hnin', base_in.
  - by eapply Hnin, base_in.
Qed.

(** A write to a private home changes that guest's buffer and nothing else. *)
Lemma isolated_write p buf buf' h b' k' :
  m !! p = Some buf -> lives tr p (len buf) h -> P !! h = None -> len buf' = len buf ->
  good b' -> room b' (cost sh + k') -> blocks b' = <[h := buf']> (blocks b) ->
  isolated P weights k' sh tr b' (<[p := buf']> m).
Proof.
  intros Hm Hh HP Hl Hg Hroom Hb. destruct (id HI) as [_ _ Hpar Hpos Hsh Htr Hnd Hso Hv Hi].
  split; try done.
  - rewrite Hb. apply map_subseteq_spec. intros q bq Hq. rewrite lookup_insert_ne by congruence.
    by apply parent_block.
  - intros q bq Hq. rewrite Hb.
    assert (Hold : forall q', (exists old, blocks b !! q' = Some old /\ len old = len bq) ->
              exists old, <[h := buf']> (blocks b) !! q' = Some old /\ len old = len bq).
    { intros q' (old & Ho & Hlo). destruct (decide (h = q')) as [<-|].
      - rewrite lookup_insert_eq. pose proof (lives_private p buf h Hm Hh). exists buf'. split; [done|]. congruence.
      - rewrite lookup_insert_ne by done. eauto. }
    apply lookup_insert_Some in Hq as [[<- <-]|[Hne Hq]].
    + destruct (Hv p buf Hm) as (Hp & (old & Ho & Hlo) & _). rewrite Hl. split; [done|].
      rewrite Hl in Hold. split; [apply Hold; eauto|]. exists h. rewrite lookup_insert_eq. eauto.
    + destruct (Hv q bq Hq) as (Hp & Ho & hq & Hhq & Hbq & Hpq). split; [done|]. split; [by apply Hold|].
      exists hq. rewrite lookup_insert_ne; [eauto|]. intros ->. apply Hne. by eapply Hi.
  - intros q r bq br hh Hq Hr Hhq Hhr.
    assert (Hsame : forall q bq, <[p := buf']> m !! q = Some bq ->
              exists bq', m !! q = Some bq' /\ len bq' = len bq).
    { intros x bx Hx. apply lookup_insert_Some in Hx as [[<- <-]|[_ Hx]]; eauto. }
    apply Hsame in Hq as (bq' & Hq & Elq). apply Hsame in Hr as (br' & Hr & Elr).
    rewrite <- Elq in Hhq. rewrite <- Elr in Hhr. by eapply Hi.
Qed.

Lemma isolated_same b' k' :
  good b' -> room b' (cost sh + k') -> blocks b' = blocks b -> isolated P weights k' sh tr b' m.
Proof. intros Hg Hr Hb. destruct HI. split; rewrite ?Hb; done. Qed.

(** A new block becomes a new buffer of the guest, at the same address. *)
Lemma isolated_alloc d buf b' k' :
  0 < len buf -> blocks b !! d = None -> good b' -> room b' (cost sh + k') ->
  blocks b' = <[d := buf]> (blocks b) ->
  isolated P weights k' sh tr b' (<[d := buf]> m) /\ m !! d = None /\
  (forall p bp, m !! p = Some bp -> p + len bp <= d \/ d + len buf <= p).
Proof.
  intros Hpos Hd Hg Hroom Hb. destruct (id HI) as [_ _ Hpar HP Hsh Htr Hnd Hso Hv Hi].
  assert (HPd : P !! d = None).
  { destruct (P !! d) eqn:E; [|done]. apply parent_block in E. congruence. }
  assert (Hdn : d ∉ tr.*1.*1).
  { intros Hin. apply in_base in Hin as (n & c & Hin).
    destruct (Htr _ _ _ Hin) as (_ & _ & bp & Hbp & _). congruence. }
  assert (Hmd : m !! d = None).
  { destruct (m !! d) as [bd|] eqn:E; [|done]. destruct (Hv _ _ E) as (_ & (old & Ho & _) & _). congruence. }
  assert (Hother : forall q bq h, m !! q = Some bq -> lives tr q (len bq) h -> h <> d).
  { intros q bq h Hq Hh ->. pose proof (lives_private q bq d Hq Hh). congruence. }
  split; [split; try done|split; [done|]].
  - rewrite Hb. apply map_subseteq_spec. intros q bq Hq. rewrite lookup_insert_ne by congruence.
    by apply parent_block.
  - intros q bq Hq. rewrite Hb. apply lookup_insert_Some in Hq as [[<- <-]|[Hne Hq]].
    + split; [done|]. split; [exists buf; by rewrite lookup_insert_eq|].
      exists d. rewrite lookup_insert_eq. split; [by right|]. split; [done|]. by left.
    + destruct (Hv q bq Hq) as (Hp & (old & Ho & Hlo) & hq & Hhq & Hbq & Hpq). split; [done|].
      rewrite lookup_insert_ne by congruence. split; [eauto|]. exists hq.
      rewrite lookup_insert_ne by (intros <-; by eapply Hother). eauto.
  - intros q r bq br h Hq Hr Hhq Hhr.
    apply lookup_insert_Some in Hq as [[<- <-]|[Hne Hq]];
      apply lookup_insert_Some in Hr as [[<- <-]|[Hne' Hr]]; [done| | |by eapply Hi].
    + destruct Hhq as [Hin|[-> _]]; [|by destruct (Hother _ _ _ Hr Hhr)].
      exfalso. by eapply Hdn, base_in.
    + destruct Hhr as [Hin|[-> _]]; [|by destruct (Hother _ _ _ Hq Hhq)].
      exfalso. by eapply Hdn, base_in.
  - intros p bp Hp. destruct (Hv _ _ Hp) as (_ & (old & Ho & Hlo) & _).
    assert (H1 : blocks b' !! p = Some old) by (rewrite Hb, lookup_insert_ne by congruence; done).
    assert (H2 : blocks b' !! d = Some buf) by (rewrite Hb; apply lookup_insert_eq).
    destruct (Z.lt_trichotomy p d) as [Hlt|[->|Hlt]]; [left|congruence|right].
    + pose proof (block_apart _ _ _ _ _ Hg H1 H2 Hlt). lia.
    + pose proof (block_apart _ _ _ _ _ Hg H2 H1 Hlt). lia.
Qed.

(** A freed home takes its guest's buffer with it. *)
Lemma isolated_free p buf h b' k' :
  m !! p = Some buf -> lives tr p (len buf) h -> P !! h = None ->
  good b' -> room b' (cost sh + k') -> blocks b' = base.delete h (blocks b) ->
  isolated P weights k' sh tr b' (base.delete p m).
Proof.
  intros Hm Hh HP Hg Hroom Hb. destruct (id HI) as [_ _ Hpar Hpos Hsh Htr Hnd Hso Hv Hi].
  split; try done.
  - rewrite Hb. apply map_subseteq_spec. intros q bq Hq. rewrite lookup_delete_ne by congruence.
    by apply parent_block.
  - intros q bq Hq. apply lookup_delete_Some in Hq as [Hne Hq]. rewrite Hb.
    destruct (Hv q bq Hq) as (Hp & (old & Ho & Hlo) & hq & Hhq & Hbq & Hpq). split; [done|].
    assert (Hdiff : hq <> h) by (intros ->; apply Hne; by eapply Hi).
    split.
    + exists old. rewrite lookup_delete_ne; [done|]. intros ->.
      destruct Hhq as [Hin|[-> _]]; [|done].
      destruct (Htr _ _ _ Hin) as (_ & _ & bp & Hbp & _). congruence.
    + exists hq. rewrite lookup_delete_ne by done. eauto.
  - intros q r bq br hh Hq Hr. apply lookup_delete_Some in Hq as [_ Hq].
    apply lookup_delete_Some in Hr as [_ Hr]. by eapply Hi.
Qed.

(** A shared buffer replaced by a private one of its size. *)
Lemma isolated_cow p n sh' buf buf0 c b' k' :
  sh ≡ₚ (p, n) :: sh' -> P !! p = Some buf -> is_Some (m !! p) -> len buf0 = len buf -> blocks b !! c = None ->
  good b' -> room b' (cost sh' + k') -> blocks b' = <[c := buf0]> (blocks b) ->
  isolated P weights k' sh' (sort_trans (tr ++ [(p, n, c)])) b' (<[p := buf0]> m).
Proof.
  intros Hsp HPp [bm Hmp] Hl0 Hc Hg Hroom Hb. destruct (id HI) as [Hg0 _ Hpar Hpos Hsh Htr Hnd Hso Hv Hi].
  destruct (Hsh p n) as (Hw & buf' & HPp' & Hl); [rewrite Hsp; set_solver|].
  assert (buf' = buf) as -> by congruence. subst n.
  assert (HPc : P !! c = None).
  { destruct (P !! c) eqn:E; [|done]. apply parent_block in E. congruence. }
  assert (Hmem : forall e, e ∈ sort_trans (tr ++ [(p, len buf, c)]) <-> e ∈ tr \/ e = (p, len buf, c)).
  { intros e. rewrite elem_of_sort_trans, elem_of_app, list_elem_of_singleton. done. }
  assert (Hbases : (sort_trans (tr ++ [(p, len buf, c)])).*1.*1 ≡ₚ p :: tr.*1.*1).
  { unfold sort_trans. rewrite merge_sort_Permutation, !fmap_app. cbn. by rewrite Permutation_app_comm. }
  assert (Hpt : p ∉ tr.*1.*1).
  { rewrite Hsp in Hnd. cbn in Hnd. apply NoDup_cons in Hnd as [Hnin _]. set_solver. }
  assert (Hnewc : forall q bq h, m !! q = Some bq -> lives tr q (len bq) h -> h <> c).
  { intros q bq h Hq Hh ->. pose proof (lives_private q bq c Hq Hh). congruence. }
  (* homes of the other guests do not move *)
  assert (Hl_ne : forall q x h, q <> p ->
            lives (sort_trans (tr ++ [(p, len buf, c)])) q x h <-> lives tr q x h).
  { intros q x h Hq. unfold lives. rewrite Hmem, Hbases, elem_of_cons. split.
    - intros [[H|H]|[-> H]]; [by left|congruence|right]. split; [done|]. tauto.
    - intros [H|[-> H]]; [left; by left|right]. split; [done|]. intros [|]; done. }
  assert (Hl_p : forall x h, lives (sort_trans (tr ++ [(p, len buf, c)])) p x h -> h = c /\ x = len buf).
  { intros x h [H|[_ H]].
    - apply Hmem in H as [H|H]; [by apply base_in in H|]. by inv H.
    - exfalso. apply H. rewrite Hbases. by left. }
  assert (Hblk : forall q bq, blocks b !! q = Some bq -> blocks b' !! q = Some bq).
  { intros q bq Hq. rewrite Hb, lookup_insert_ne by congruence. done. }
  split; try done.
  - apply map_subseteq_spec. intros q bq Hq. by apply Hblk, parent_block.
  - intros q x Hq. apply Hsh. rewrite Hsp. by right.
  - intros q x c' Hin. apply Hmem in Hin as [Hin|Hin]; [by apply Htr|]. inv Hin.
    pose proof (block_range b' c buf0 Hg ltac:(rewrite Hb; apply lookup_insert_eq)).
    pose proof (len_nonneg buf). split; [lia|]. split; [lia|]. eauto.
  - rewrite Hbases. rewrite Hsp in Hnd. cbn in Hnd. rewrite <- Permutation_middle. exact Hnd.
  - apply StronglySorted_merge_sort; apply _.
  - intros q bq Hq. apply lookup_insert_Some in Hq as [[<- <-]|[Hne Hq]].
    + (* the guest whose buffer was shared *)
      rewrite Hl0. split; [by eapply Hpos|]. split; [exists buf; split; [by apply Hblk, parent_block|done]|].
      exists c. split; [left; apply Hmem; by right|]. split; [rewrite Hb; apply lookup_insert_eq|by left].
    + destruct (Hv q bq Hq) as (Hp & (old & Ho & Hlo) & hq & Hhq & Hbq & Hpq).
      split; [done|]. split; [eauto|]. exists hq. split; [by apply Hl_ne|]. split; [by apply Hblk|].
      destruct Hpq as [|[-> Hin]]; [by left|right]. split; [done|].
      rewrite Hsp in Hin. apply elem_of_cons in Hin as [Hin|]; [congruence|done].
  - intros q r bq br h Hq Hr Hhq Hhr.
    apply lookup_insert_Some in Hq as [[<- <-]|[Hq' Hq]]; apply lookup_insert_Some in Hr as [[<- <-]|[Hr' Hr]];
      [done| | |].
    + apply Hl_p in Hhq as [-> _]. apply Hl_ne in Hhr; [|done]. by destruct (Hnewc _ _ _ Hr Hhr).
    + apply Hl_p in Hhr as [-> _]. apply Hl_ne in Hhq; [|done]. by destruct (Hnewc _ _ _ Hq Hhq).
    + apply Hl_ne in Hhq, Hhr; [|done..]. by eapply Hi.
Qed.

End Facts.
(** ** Copies *)

Lemma splice_whole data buf : len data = len buf -> splice 0 data buf = data.
Proof.
  unfold splice, len. intros H. cbn. rewrite drop_ge by lia. by rewrite app_nil_r.
Qed.
Lemma slice_whole (buf : bytes) : slice buf 0 (len buf) = buf.
Proof. unfold slice, len. rewrite Z.sub_0_r, Nat2Z.id. cbn. by rewrite firstn_all. Qed.

Definition with_trans (tr : list (Z * Z * Z)) (st : State B) (b : B) : State B :=
  MkState (set_trans tr (sess st)) (worker st) b.

(** The private copy of a buffer: of its size, and of its bytes when the
    driver's copies succeed; the host drops the copy's error. *)
Definition copied (buf buf0 : bytes) : Prop := len buf0 = len buf /\ (whole_copies B -> buf0 = buf).

Lemma private_copy_spec (st : State B) p n buf k kont :
  good (gpu st) -> blocks (gpu st) !! p = Some buf -> len buf = n -> 0 < n -> 0 <= k ->
  room (gpu st) (n + 1 + k) ->
  exists c buf0 b', private_copy p n kont st =
      kont c (with_trans (dptr_trans (sess st) ++ [(p, n, c)]) st b') /\
    blocks (gpu st) !! c = None /\ copied buf buf0 /\ blocks b' = <[c := buf0]> (blocks (gpu st)) /\
    good b' /\ room b' k.
Proof.
  intros Hg Hp Hl Hn Hk Hroom.
  destruct (alloc_law (gpu st) n k Hg Hn Hk Hroom) as (c & buf0 & b1 & Ea & Hc & Hl0 & Hb1 & Hg1 & Hr1).
  assert (Hp1 : blocks b1 !! p = Some buf) by (rewrite Hb1, lookup_insert_ne by congruence; done).
  assert (Hc1 : blocks b1 !! c = Some buf0) by (rewrite Hb1; apply lookup_insert_eq).
  assert (Hok : whole_copies B -> is_ok (memcpy_dtod c p (len buf0) b1).1 = true).
  { intros Hw. apply (Hw b1 c buf0 p buf Hg1 Hc1 Hp1); lia. }
  pose proof (dtod_law b1 c 0 buf0 p 0 buf n Hg1 Hc1 ltac:(split; lia) Hp1 ltac:(split; lia)) as Hd.
  rewrite !Z.add_0_r, Hl0 in *. destruct (memcpy_dtod c p n b1) as [r b2] eqn:Ed.
  destruct Hd as (_ & Hg2 & Hroom2 & Hb2).
  exists c, (if is_ok r then buf else buf0), b2. split.
  { unfold private_copy, drive at 1. rewrite Ea. unfold dbind, dropped, drive, upd. cbn [gpu sess worker].
    rewrite Ed. done. }
  split; [done|]. split; [|split; [|split; [done|by apply Hroom2]]].
  - split; [by destruct (is_ok r); rewrite ?Hl0|]. intros Hw. specialize (Hok Hw). cbn in Hok. by rewrite Hok.
  - rewrite Hb2. destruct (is_ok r); rewrite Hb1; [|done]. rewrite insert_insert_eq. f_equal.
    rewrite Z.add_0_l, <- Hl, slice_whole. apply splice_whole. lia.
Qed.

Lemma position_Some {A} (f : A -> bool) l i : position f l = Some i -> exists x, l !! i = Some x /\ f x = true.
Proof.
  revert i. induction l as [|x l IH]; intros i; cbn [position]; [done|].
  destruct (f x) eqn:E; [intros H; inv H; by exists x|].
  intros H. apply fmap_Some in H as (j & Hj & ->). by apply IH.
Qed.
Lemma position_None {A} (f : A -> bool) l x : position f l = None -> x ∈ l -> f x = false.
Proof.
  induction l as [|y l IH]; cbn [position]; intros H Hin; [by apply elem_of_nil in Hin|].
  destruct (f y) eqn:E; [done|]. apply fmap_None in H. apply elem_of_cons in Hin as [->|Hin]; auto.
Qed.

Lemma swap_remove_perm {A} (l : list A) i x : l !! i = Some x -> l ≡ₚ x :: swap_remove i l.
Proof.
  intros Hi. unfold swap_remove. destruct (last l) as [y|] eqn:El.
  2: { apply last_None in El. by subst. }
  apply last_Some in El as [l' ->]. rewrite length_app. cbn [length].
  replace (length l' + 1 - 1)%nat with (length l') by lia.
  destruct (decide (i = length l')) as [->|Hne].
  - rewrite list_lookup_middle in Hi by done. inv Hi.
    rewrite insert_app_r_alt, Nat.sub_diag by lia. cbn [insert list_insert].
    rewrite take_app_length. by rewrite Permutation_app_comm.
  - pose proof (lookup_lt_Some _ _ _ Hi) as Hlt. rewrite length_app in Hlt. cbn in Hlt.
    assert (Hil : (i < length l')%nat) by lia. rewrite lookup_app_l in Hi by done.
    rewrite insert_app_l by done. rewrite take_app_le by (rewrite length_insert; lia).
    rewrite firstn_all2 by (rewrite length_insert; lia).
    rewrite (insert_take_drop l') by done. rewrite <- (take_drop_middle l' i x Hi) at 1.
    solve_Permutation.
Qed.

(** ** The invariant on states *)

(** In the daemon, where the tables of a clone worker are empty. *)
Definition in_daemon (w : Worker) : Prop := shared_vmm_ranges w = [] /\ worker_alloc_trans w = [].

Definition iso (P : gmap Z bytes) (weights : gset Z) (k : Z) (st : State B) (m : PMem) : Prop :=
  isolated P weights k (shared_ranges (sess st)) (dptr_trans (sess st)) (gpu st) m /\
  in_daemon (worker st).

Lemma cost_nonneg l : (forall p n, (p, n) ∈ l -> 0 <= n) -> 0 <= cost l.
Proof.
  induction l as [|[p n] l IH]; intros H; [done|]. cbn [cost foldr]. fold (cost l).
  pose proof (H p n ltac:(set_solver)). specialize (IH ltac:(set_solver)). cbn. lia.
Qed.
Lemma isolated_cost P weights k sh tr b m p n : isolated P weights k sh tr b m -> (p, n) ∈ sh -> 0 <= n.
Proof.
  intros HI Hin. destruct (i_shared _ _ _ _ _ _ _ HI p n Hin) as (_ & buf & _ & <-). apply len_nonneg.
Qed.

Lemma cow_vmm_none req (st : State B) :
  in_daemon (worker st) -> cow_worker_vmm_written req st = (Ok tt, st).
Proof.
  intros [Hv _]. unfold cow_worker_vmm_written. destruct (written_range req) as [[d n]|]; [|done].
  unfold cow_worker_vmm_range. destruct (n =? 0); [done|]. unfold dbind, session, table. rewrite Hv.
  cbn [length cow_vmm_loop]. unfold dbind, table. by rewrite Hv.
Qed.

(** The same buffers, and the same bytes when the driver's copies succeed. *)
Definition drift (m m1 : PMem) : Prop := len <$> m1 = (len <$> m : gmap Z Z) /\ (whole_copies B -> m1 = m).

Lemma drift_refl m : drift m m.
Proof. done. Qed.
Lemma drift_lookup m m1 p buf : drift m m1 -> m !! p = Some buf -> exists buf1, m1 !! p = Some buf1 /\ len buf1 = len buf.
Proof.
  intros [E _] Hm. assert (H : (len <$> m1 : gmap Z Z) !! p = Some (len buf)) by (rewrite E, lookup_fmap, Hm; done).
  rewrite lookup_fmap in H. apply fmap_Some in H as (buf1 & H1 & H2). eauto.
Qed.
Lemma drift_copied m p buf buf0 : m !! p = Some buf -> copied buf buf0 -> drift m (<[p := buf0]> m).
Proof.
  intros Hm [Hl Hw]. split.
  - rewrite fmap_insert, Hl. apply insert_id. by rewrite lookup_fmap, Hm.
  - intros H. rewrite (Hw H). by apply insert_id.
Qed.

(** After the copy on write the guest's buffer is private. *)
Lemma cow_one_spec P weights k (st : State B) m p buf off :
  iso P weights k st m -> 0 <= k -> m !! p = Some buf -> 0 <= off < len buf ->
  exists st' m1 h, cow_one (p + off) st = (Ok tt, st') /\ drift m m1 /\ iso P weights k st' m1 /\
    lives (dptr_trans (sess st')) p (len buf) h /\ P !! h = None.
Proof.
  intros [HI Hd] Hk Hm Hoff. unfold cow_one, dbind at 1, session.
  destruct (position (in_range (p + off)) (shared_ranges (sess st))) as [i|] eqn:Ep.
  - destruct (position_Some _ _ _ Ep) as ([q n] & Hi & Hr). rewrite Hi.
    assert (Hin : (q, n) ∈ shared_ranges (sess st)) by by eapply list_elem_of_lookup_2.
    destruct (shared_of_guest HI p buf off q n Hm Hoff Hin Hr) as [-> ->].
    pose proof (swap_remove_perm _ _ _ Hi) as Hperm.
    set (sh' := swap_remove i (shared_ranges (sess st))) in *.
    destruct (i_shared _ _ _ _ _ _ _ HI _ _ Hin) as (Hw & pbuf & HP & Hlp).
    pose proof (i_room _ _ _ _ _ _ _ HI) as Hroom. rewrite Hperm in Hroom. cbn [cost foldr snd] in Hroom.
    fold (cost sh') in Hroom.
    assert (Hsh' : 0 <= cost sh').
    { apply cost_nonneg. intros x y Hx. eapply isolated_cost; [exact HI|]. rewrite Hperm. by right. }
    unfold dbind at 1, upd at 1.
    destruct (private_copy_spec (MkState (set_shared sh' (sess st)) (worker st) (gpu st)) p (len buf) pbuf
      (cost sh' + k) (fun c =>
            let% _ := upd (fun s => set_trans (sort_trans (dptr_trans s)) s) in
            let% _ := own c (len buf) in
            sync_lib_trans)) as (c & buf0 & b' & E & Hc & Hcp & Hb' & Hg' & Hr'); cbn [gpu];
      [apply HI|by apply (parent_block HI)|done|lia|lia|by replace (len buf + 1 + (cost sh' + k))
        with (len buf + 1 + cost sh' + k) by lia|].
    rewrite E. eexists _, (<[p := buf0]> m), c. split; [reflexivity|].
    assert (Hsame : pbuf = buf).
    { destruct (i_view _ _ _ _ _ _ _ HI p buf Hm) as (_ & _ & h & Hh & Hb & _).
      pose proof (i_once _ _ _ _ _ _ _ HI) as Hnd. apply NoDup_app in Hnd as (_ & Hnd & _).
      destruct Hh as [Hh|[-> _]]; [|apply (parent_block HI) in HP; congruence].
      apply base_in in Hh. destruct (Hnd p); [|done]. apply list_elem_of_fmap. by exists (p, len buf). }
    subst pbuf. split; [by eapply drift_copied|].
    assert (HI' : isolated P weights k sh' (sort_trans (dptr_trans (sess st) ++ [(p, len buf, c)])) b' (<[p := buf0]> m))
      by (eapply (isolated_cow HI); try done; apply Hcp).
    split; [split; [exact HI'|done]|]. split; [|].
    + left. cbn. apply elem_of_sort_trans. set_solver.
    + destruct (P !! c) eqn:Epc; [|done]. apply (parent_block HI) in Epc. cbn in Hc. congruence.
  - destruct (i_view _ _ _ _ _ _ _ HI p buf Hm) as (_ & _ & h & Hh & _ & HP).
    exists st, m, h. split; [done|]. split; [done|]. split; [done|]. split; [done|].
    destruct HP as [|[-> Hin]]; [done|]. exfalso.
    pose proof (position_None _ _ _ Ep Hin) as Hf.
    assert (Ht : in_range (p + off) (p, len buf) = true) by (apply (in_range_shared HI _ _ _ Hin); lia).
    congruence.
Qed.

(** ** One request *)

Definition answer_of (r : CuResult Response.Response) : Z * Response.Response :=
  match r with Ok resp => (0, resp) | Err code => (code, Response.Ok) end.

Lemma dispatch_eq (st st' : State B) req :
  in_daemon (worker st) -> cow_written req st = (Ok tt, st') ->
  dispatch env other st req =
  let '(r, st'') := dispatch_arms env other (translate_dptrs (dptr_trans (sess st')) req) st' in
  (answer_of r, st'').
Proof.
  intros Hd Hc. unfold dispatch, dbind. rewrite cow_vmm_none, Hc by done. unfold session.
  by destruct (dispatch_arms _ _ _ _) as [[resp|code] st''].
Qed.

(** The pointer a request writes through, and what it writes once it is
    dispatched; the session's tables of copies stay as they are. *)
Definition arm_is (req : Request.Request) (f : B -> CuResult unit * B) : Prop :=
  forall st : State B, exists s', shared_ranges s' = shared_ranges (sess st) /\
    dptr_trans s' = dptr_trans (sess st) /\
    dispatch_arms env other req st =
    (let '(r, b') := f (gpu st) in
     (match r with Ok _ => Ok Response.Ok | Err e => Err e end, MkState s' (worker st) b')).

Lemma arm_htod d s data : arm_is (Request.MemcpyHtoD d s data) (memcpy_htod d data (raw_stream env s)).
Proof.
  intros st. unfold dispatch_arms. cbn [dispatch_heap dispatch_copy].
  destruct (path3_enabled env); eexists; (split; [|split]);
    [| |unfold dbind, loaded, upd, unit_ok, dbind, drive; cbn [gpu sess worker];
        by destruct (memcpy_htod _ _ _ _) as [[] ?]|
     | |unfold dbind, loaded, upd, unit_ok, dbind, drive, dret; cbn [gpu sess worker];
        by destruct (memcpy_htod _ _ _ _) as [[] ?]]; done.
Qed.
Lemma arm_unit req f :
  dispatch_heap env req = None -> dispatch_copy env req = Some (unit_ok (drive f)) -> arm_is req f.
Proof.
  intros E1 E2 st. unfold dispatch_arms. rewrite E1, E2. exists (sess st). split; [done|]. split; [done|].
  unfold unit_ok, dbind, drive. by destruct (f (gpu st)) as [[] ?].
Qed.

Lemma translate_eq tr req :
  translate_dptrs tr req =
  match req with
  | Request.MemcpyHtoD d s data => Request.MemcpyHtoD (xlat tr d) s data
  | Request.MemcpyDtoH d n s => Request.MemcpyDtoH (xlat tr d) n s
  | Request.MemcpyDtoD dst src n => Request.MemcpyDtoD (xlat tr dst) (xlat tr src) n
  | Request.MemcpyDtoDAsync dst src n s => Request.MemcpyDtoDAsync (xlat tr dst) (xlat tr src) n s
  | Request.MemsetD8 d v n => Request.MemsetD8 (xlat tr d) v n
  | Request.MemsetD8Async d v n s => Request.MemsetD8Async (xlat tr d) v n s
  | Request.MemFree d => Request.MemFree (xlat tr d)
  | Request.MemAlloc n => Request.MemAlloc n
  | req => translate_dptrs tr req
  end.
Proof.
  destruct tr as [|t tr]; [|by destruct req].
  assert (H : forall a, xlat [] a = a) by (intros a; unfold xlat; by rewrite orb_true_r).
  destruct req; cbn [translate_dptrs no_entries]; rewrite ?H; done.
Qed.

Lemma points_in (m : PMem) d n :
  points (len <$> m) d n -> exists p off buf, m !! p = Some buf /\ d = p + off /\ inside off n buf.
Proof.
  intros (p & size & Hp & Hd & Hn & Hle). rewrite lookup_fmap in Hp.
  apply fmap_Some in Hp as (buf & Hp & ->). exists p, (d - p), buf. unfold inside. repeat split; done || lia.
Qed.

Lemma track_write (m : PMem) p (buf buf' : bytes) :
  m !! p = Some buf -> len buf' = len buf -> len <$> <[p := buf']> m = (len <$> m : gmap Z Z).
Proof.
  intros Hm Hl. rewrite fmap_insert, Hl. apply insert_id. by rewrite lookup_fmap, Hm.
Qed.

(** A request that writes through the pointer of one guest's buffer; [data] is
    what it writes, given the guest's memory after the copy on write. *)
Lemma write_step P weights k (st : State B) m req p off buf (data : PMem -> bytes)
    (f : State B -> Z -> B -> CuResult unit * B) :
  iso P weights k st m -> 0 <= k -> m !! p = Some buf -> 0 <= off < len buf ->
  cow_written req st = cow_one (p + off) st ->
  (forall st' m1 buf1 h, iso P weights k st' m1 -> drift m m1 -> m1 !! p = Some buf1 -> len buf1 = len buf ->
     lives (dptr_trans (sess st')) p (len buf1) h ->
     inside off (len (data m1)) buf1 /\
     arm_is (translate_dptrs (dptr_trans (sess st')) req) (f st' h) /\
     let '(r, b') := f st' h (gpu st') in
     coded r /\ good b' /\ (forall k, room (gpu st') k -> room b' k) /\
     blocks b' = (if is_ok r then <[h := splice off (data m1) buf1]> (blocks (gpu st')) else blocks (gpu st'))) ->
  let '(ans, st') := dispatch env other st req in
  exists m1 buf1 m', drift m m1 /\ m1 !! p = Some buf1 /\ inside off (len (data m1)) buf1 /\
    (ans = (0, Response.Ok) /\ m' = <[p := splice off (data m1) buf1]> m1 \/
     (exists code, code <> 0 /\ ans = (code, Response.Ok) /\ m' = m1)) /\
    iso P weights k st' m' /\ len <$> m' = (len <$> m1 : gmap Z Z).
Proof.
  intros Hiso Hk Hm Hoff Hcow Hlaw.
  destruct (cow_one_spec P weights k st m p buf off Hiso Hk Hm Hoff) as (st' & m1 & h & Ec & Hdr & Hiso' & Hh & HP).
  destruct (drift_lookup m m1 p buf Hdr Hm) as (buf1 & Hm1 & Hl1). rewrite <- Hl1 in Hh.
  rewrite (dispatch_eq st st' req) by (apply Hiso || congruence).
  destruct (Hlaw st' m1 buf1 h Hiso' Hdr Hm1 Hl1 Hh) as (Hin & Harm & Hf). clear Hlaw.
  destruct (Harm st') as (s' & Es & Et & ->).
  destruct (f st' h (gpu st')) as [r b']. destruct Hf as (Hcd & Hg & Hr & Hb).
  destruct Hiso' as [HI' Hd']. destruct (id Hin) as (_ & _ & Hle).
  pose proof (len_splice off (data m1) buf1 ltac:(lia) Hle) as Hls. exists m1, buf1.
  destruct r as [u|code]; cbn [is_ok answer_of] in *.
  - exists (<[p := splice off (data m1) buf1]> m1). split_and!; [done..|by left| |by eapply track_write].
    split; [|done]. cbn [sess gpu]. rewrite Es, Et.
    eapply (isolated_write HI'); try done. apply Hr, HI'.
  - exists m1. split_and!; [done..|right; exists code; split; [by apply Hcd|done]| |done]. split; [|done].
    cbn [sess gpu]. rewrite Es, Et. apply (isolated_same HI'); [done|apply Hr, HI'|done].
Qed.

Lemma cow_written_one req d (st : State B) :
  match req with
  | Request.MemcpyHtoD dptr _ _ | Request.MemsetD8 dptr _ _ | Request.MemsetD8Async dptr _ _ _ => dptr = d
  | Request.MemcpyDtoD dst _ _ | Request.MemcpyDtoDAsync dst _ _ _ => dst = d
  | _ => False
  end -> cow_written req st = cow_one d st.
Proof.
  intros H. unfold cow_written, dbind, session.
  destruct (no_entries (shared_ranges (sess st))) eqn:E; [|by destruct req; subst].
  unfold cow_one, dbind, session. by destruct (shared_ranges (sess st)).
Qed.
Lemma cow_written_none req (st : State B) :
  match req with
  | Request.MemcpyDtoH _ _ _ | Request.MemAlloc _ | Request.MemFree _ => True
  | _ => False
  end -> cow_written req st = (Ok tt, st).
Proof. intros H. unfold cow_written, dbind, session. destruct (no_entries _); [done|by destruct req]. Qed.

(** One request: the private copy it may need first, then a step of the private memory. *)
Definition explains (m : PMem) (req : Request.Request) (ans : Z * Response.Response) (m' : PMem) : Prop :=
  exists m1, drift m m1 /\ private_step m1 req ans m' /\ len <$> m' = track (len <$> m) req ans.

Lemma explains_same m req ans m' :
  private_step m req ans m' -> len <$> m' = track (len <$> m) req ans -> explains m req ans m'.
Proof. intros H1 H2. by exists m. Qed.

(** A write, once the request is known not to change which buffers there are. *)
Lemma explains_write P weights k (st' : State B) m req ans p off (data : PMem -> bytes) :
  (forall ans, track (len <$> m) req ans = len <$> m) ->
  (forall m1 buf1, drift m m1 -> m1 !! p = Some buf1 -> inside off (len (data m1)) buf1 ->
     private_step m1 req (0, Response.Ok) (<[p := splice off (data m1) buf1]> m1)) ->
  (exists m1 buf1 m', drift m m1 /\ m1 !! p = Some buf1 /\ inside off (len (data m1)) buf1 /\
    (ans = (0, Response.Ok) /\ m' = <[p := splice off (data m1) buf1]> m1 \/
     (exists code, code <> 0 /\ ans = (code, Response.Ok) /\ m' = m1)) /\
    iso P weights k st' m' /\ len <$> m' = (len <$> m1 : gmap Z Z)) ->
  exists m', explains m req ans m' /\ iso P weights k st' m'.
Proof.
  intros Ht Hs (m1 & buf1 & m' & Hd & Hm1 & Hin & Hans & Hi & Hl). exists m'. split; [|done].
  exists m1. split; [done|]. split.
  - destruct Hans as [[-> ->]|(code & Hc & -> & ->)]; [by apply Hs|by constructor].
  - rewrite Ht, Hl. apply Hd.
Qed.

Lemma htod_step P weights k (st : State B) m d s data :
  iso P weights k st m -> 0 <= k -> points (len <$> m) d (len data) ->
  let '(ans, st') := dispatch env other st (Request.MemcpyHtoD d s data) in
  exists m', explains m (Request.MemcpyHtoD d s data) ans m' /\ iso P weights k st' m'.
Proof.
  intros Hiso Hk Hpt. destruct (points_in m d _ Hpt) as (p & off & buf & Hm & -> & Hin).
  pose proof (write_step P weights k st m (Request.MemcpyHtoD (p + off) s data) p off buf (fun _ => data)
    (fun _ h => memcpy_htod (h + off) data (raw_stream env s)) Hiso Hk Hm (proj1 Hin)) as H.
  destruct (dispatch _ _ _ _) as [ans st']. apply (explains_write _ _ _ _ _ _ _ p off (fun _ => data)); [done| |].
  { intros m1 buf1 _ Hm1 Hin1. by constructor. }
  apply H; [by apply cow_written_one|]. clear H. intros st1 m1 buf1 h [HI1 _] _ Hm1 Hl1 Hh.
  assert (Hin1 : inside off (len data) buf1) by (unfold inside in *; lia). split; [done|]. split.
  - rewrite translate_eq, (xlat_guest HI1 p buf1 h) by (done || apply Hin1). apply arm_htod.
  - apply htod_law; [apply HI1|by eapply (lives_private HI1)|done].
Qed.

Lemma memset_step P weights k (st : State B) m req d v n :
  req = Request.MemsetD8 d v n \/ (exists s, req = Request.MemsetD8Async d v n s) ->
  iso P weights k st m -> 0 <= k -> points (len <$> m) d n ->
  let '(ans, st') := dispatch env other st req in
  exists m', explains m req ans m' /\ iso P weights k st' m'.
Proof.
  intros Hreq Hiso Hk Hpt. destruct (points_in m d _ Hpt) as (p & off & buf & Hm & -> & Hin).
  assert (Hlr : len (replicate (Z.to_nat n) v) = n).
  { unfold len. rewrite length_replicate. destruct Hin as (_ & ? & _). lia. }
  pose proof (write_step P weights k st m req p off buf (fun _ => replicate (Z.to_nat n) v)
    (fun _ h => memset_d8 (h + off) v n) Hiso Hk Hm (proj1 Hin)) as H.
  destruct (dispatch _ _ _ _) as [ans st'].
  apply (explains_write _ _ _ _ _ _ _ p off (fun _ => replicate (Z.to_nat n) v)).
  { by destruct Hreq as [->|[s ->]]. }
  { intros m1 buf1 _ Hm1 Hin1. rewrite Hlr in Hin1. eapply ps_memset; [done..|]. destruct Hreq as [->|[s ->]]; eauto. }
  apply H; [apply cow_written_one; by destruct Hreq as [->|[s ->]]|]. clear H.
  intros st1 m1 buf1 h [HI1 _] _ Hm1 Hl1 Hh. rewrite Hlr.
  assert (Hin1 : inside off n buf1) by (unfold inside in *; lia). split; [done|]. split.
  - rewrite translate_eq. destruct Hreq as [->|[s ->]]; rewrite (xlat_guest HI1 p buf1 h) by (done || apply Hin1).
    + by apply arm_unit.
    + intros st2. destruct (arm_unit (Request.MemsetD8Async (h + off) v n s)
        (memset_d8_async (h + off) v n (raw_stream env s)) eq_refl eq_refl st2) as (s' & Es & Et & E).
      exists s'. by rewrite E, memset_async.
  - apply memset_law; [apply HI1|by eapply (lives_private HI1)|done].
Qed.

Lemma dtod_step P weights k (st : State B) m req dst src n :
  req = Request.MemcpyDtoD dst src n \/ (exists s, req = Request.MemcpyDtoDAsync dst src n s) ->
  iso P weights k st m -> 0 <= k -> points (len <$> m) dst n -> points (len <$> m) src n ->
  let '(ans, st') := dispatch env other st req in
  exists m', explains m req ans m' /\ iso P weights k st' m'.
Proof.
  intros Hreq Hiso Hk Hdst Hsrc. destruct (points_in m dst _ Hdst) as (p & off & buf & Hm & -> & Hin).
  destruct (points_in m src _ Hsrc) as (q & off' & buf' & Hq & -> & Hin').
  set (data := fun m1 : PMem => slice (default [] (m1 !! q)) off' (off' + n)).
  assert (Hdata : forall m1, drift m m1 -> exists bq, m1 !! q = Some bq /\ inside off' n bq /\
            data m1 = slice bq off' (off' + n) /\ len (data m1) = n).
  { intros m1 Hd. destruct (drift_lookup m m1 q buf' Hd Hq) as (bq & Hbq & Hlq).
    assert (Hi : inside off' n bq) by (unfold inside in *; lia). exists bq. unfold data. rewrite Hbq. cbn.
    split_and!; [done..|]. by apply len_slice_inside. }
  pose proof (write_step P weights k st m req p off buf data
    (fun st1 h => memcpy_dtod (h + off) (xlat (dptr_trans (sess st1)) (q + off')) n)
    Hiso Hk Hm (proj1 Hin)) as H.
  destruct (dispatch _ _ _ _) as [ans st']. apply (explains_write _ _ _ _ _ _ _ p off data).
  { by destruct Hreq as [->|[s ->]]. }
  { intros m1 buf1 Hd Hm1 Hin1. destruct (Hdata m1 Hd) as (bq & Hbq & Hiq & Ed & Hln).
    rewrite Hln in Hin1. rewrite Ed. eapply ps_dtod; [done..|]. destruct Hreq as [->|[s ->]]; eauto. }
  apply H; [apply cow_written_one; by destruct Hreq as [->|[s ->]]|]. clear H.
  intros st1 m1 buf1 h [HI1 _] Hd Hm1 Hl1 Hh. destruct (Hdata m1 Hd) as (bq & Hbq & Hiq & Ed & Hln).
  rewrite Hln, Ed.
  assert (Hin1 : inside off n buf1) by (unfold inside in *; lia). split; [done|]. split.
  - rewrite translate_eq. destruct Hreq as [->|[s ->]]; rewrite (xlat_guest HI1 p buf1 h) by (done || apply Hin1).
    + by apply arm_unit.
    + intros st2. destruct (arm_unit (Request.MemcpyDtoDAsync (h + off) (xlat (dptr_trans (sess st1)) (q + off')) n s)
        (memcpy_dtod_async (h + off) (xlat (dptr_trans (sess st1)) (q + off')) n (raw_stream env s))
        eq_refl eq_refl st2) as (s' & Es & Et & E).
      exists s'. by rewrite E, dtod_async.
  - destruct (i_view _ _ _ _ _ _ _ HI1 q bq Hbq) as (_ & _ & hq & Hhq & Hb & _).
    rewrite (xlat_guest HI1 q bq hq) by (done || apply Hiq).
    apply dtod_law; [apply HI1|by eapply (lives_private HI1)|done..].
Qed.

Lemma dtoh_step P weights k (st : State B) m d n s :
  iso P weights k st m -> points (len <$> m) d n ->
  let '(ans, st') := dispatch env other st (Request.MemcpyDtoH d n s) in
  exists m', explains m (Request.MemcpyDtoH d n s) ans m' /\ iso P weights k st' m'.
Proof.
  intros [HI Hd] Hpt. destruct (points_in m d _ Hpt) as (p & off & buf & Hm & -> & Hin).
  destruct (i_view _ _ _ _ _ _ _ HI p buf Hm) as (_ & _ & h & Hh & Hb & _).
  rewrite (dispatch_eq st st) by (done || by apply cow_written_none).
  rewrite translate_eq, (xlat_guest HI p buf h) by (done || apply Hin).
  pose proof (dtoh_law (gpu st) h off n buf (raw_stream env s) (i_good _ _ _ _ _ _ _ HI) Hb Hin) as Hlaw.
  unfold dispatch_arms. cbn [dispatch_heap dispatch_copy]. unfold dbind, drive.
  destruct (memcpy_dtoh _ _ _ _) as [[data|code] b']; destruct Hlaw as (Hc & Hg & Hr & Hbl & Hdata);
    cbn [answer_of dret]; exists m; (split; [|split; [apply (isolated_same HI); [done|apply Hr, HI|done]|done]]).
  - rewrite (Hdata data eq_refl). apply explains_same; [by constructor|done].
  - apply explains_same; [constructor; by apply Hc|done].
Qed.

Lemma isolated_room P weights k k' sh tr b m :
  isolated P weights k sh tr b m -> k' <= k -> isolated P weights k' sh tr b m.
Proof. intros [] H. split; try done. eapply room_le; [done|]. lia. Qed.

(** The budget of a session, asked of the driver or known. *)
Lemma check_quota_spec n (st : State B) :
  good (gpu st) ->
  let '(r, st') := check_quota env n st in
  sess st' = sess st /\ worker st' = worker st /\ coded r /\ good (gpu st') /\
  (forall k, room (gpu st) k -> room (gpu st') k) /\ blocks (gpu st') = blocks (gpu st).
Proof.
  intros Hg. unfold check_quota, allocation_vram_limit, dbind, session, drive, dret, dfail.
  assert (Hn : coded (Err CUDA_ERROR_OUT_OF_MEMORY : CuResult unit)) by (intros e E; by inv E).
  destruct (vram_limit_bytes (sess st)) as [limit|].
  { case_bool_guard; by repeat split. }
  destruct (fork_pool_size (sess st)) as [size|].
  2: { case_bool_guard; by repeat split. }
  pose proof (total_law (gpu st) (if device_pinned (sess st) then device_base (sess st) else 0) Hg) as Hl.
  destruct (device_total_mem _ _) as [[total|code] b']; destruct Hl as (Hc & Hg' & Hr & Hb).
  - cbn [sess gpu worker]. case_bool_guard; by repeat split.
  - repeat split; try done. intros e E. inv E. by apply Hc.
Qed.

Lemma alloc_step P weights k (st : State B) m n :
  iso P weights (n + 1 + k) st m -> 0 <= k -> 0 < n ->
  let '(ans, st') := dispatch env other st (Request.MemAlloc n) in
  exists m', explains m (Request.MemAlloc n) ans m' /\ iso P weights k st' m'.
Proof.
  intros [HI Hd] Hk Hn. rewrite (dispatch_eq st st) by (done || by apply cow_written_none).
  rewrite translate_eq. unfold dispatch_arms. cbn [dispatch_heap]. unfold dbind at 1.
  pose proof (check_quota_spec n st (i_good _ _ _ _ _ _ _ HI)) as Hq.
  destruct (check_quota env n st) as [r st1]. destruct Hq as (Es & Ew & Hc & Hg & Hr & Hb).
  assert (HI1 : isolated P weights (n + 1 + k) (shared_ranges (sess st)) (dptr_trans (sess st)) (gpu st1) m).
  { apply (isolated_same HI); [done|apply Hr, HI|done]. }
  destruct r as [u|code]; cbn [answer_of].
  2: { exists m. split; [apply explains_same; [constructor; by apply Hc|by destruct code]|]. split; [|by rewrite Ew].
       rewrite Es. eapply isolated_room; [exact HI1|lia]. }
  assert (Hcost : 0 <= cost (shared_ranges (sess st))).
  { apply cost_nonneg. intros x y Hx. by eapply isolated_cost. }
  pose proof (i_room _ _ _ _ _ _ _ HI1) as Hroom.
  replace (cost (shared_ranges (sess st)) + (n + 1 + k)) with (n + 1 + (cost (shared_ranges (sess st)) + k)) in Hroom by lia.
  destruct (alloc_law (gpu st1) n (cost (shared_ranges (sess st)) + k) Hg Hn ltac:(lia) Hroom)
    as (d & buf & b' & Ea & Hd' & Hl & Hb' & Hg' & Hr').
  unfold dbind, drive. rewrite Ea. unfold own, dbind, upd, dret. cbn [sess worker gpu answer_of].
  destruct (isolated_alloc HI1 d buf b' k) as (HI2 & Hmd & Hapart); [lia|done..|].
  exists (<[d := buf]> m). split.
  - apply explains_same; [apply ps_alloc; [done..|]; by rewrite <- Hl|]. cbn. by rewrite fmap_insert, Hl.
  - split; [|by rewrite Ew]. cbn. by rewrite Es.
Qed.

Lemma free_step P weights k (st : State B) m d :
  iso P weights k st m -> is_Some ((len <$> m : gmap Z Z) !! d) -> d ∉ weights ->
  let '(ans, st') := dispatch env other st (Request.MemFree d) in
  exists m', explains m (Request.MemFree d) ans m' /\ iso P weights k st' m'.
Proof.
  intros [HI Hd] [x Hlive] Hw. rewrite lookup_fmap in Hlive.
  apply fmap_Some in Hlive as (buf & Hm & _).
  destruct (i_view _ _ _ _ _ _ _ HI d buf Hm) as (Hpos & _ & h & Hh & Hb & HP).
  assert (HPh : P !! h = None).
  { destruct HP as [|[_ Hin]]; [done|]. by destruct (i_shared _ _ _ _ _ _ _ HI _ _ Hin). }
  rewrite (dispatch_eq st st) by (done || by apply cow_written_none).
  pose proof (xlat_guest HI d buf h 0 Hm Hh ltac:(lia)) as Ex. rewrite !Z.add_0_r in Ex.
  rewrite translate_eq, Ex.
  unfold dispatch_arms. cbn [dispatch_heap]. unfold disown, unit_ok, dbind, drive, upd, session, table.
  cbn [sess worker gpu]. rewrite (proj2 Hd), andb_false_r. cbv iota. cbn [gpu].
  pose proof (free_law (gpu st) h buf (i_good _ _ _ _ _ _ _ HI) Hb) as Hlaw. unfold dret.
  destruct (mem_free h (gpu st)) as [[u|code] b']; destruct Hlaw as (Hc & Hg & Hr & Hbl);
    cbn [answer_of is_ok] in *.
  - exists (base.delete d m). split; [apply explains_same; [by eapply ps_free|cbn; by rewrite fmap_delete]|]. split; [|done].
    cbn. eapply (isolated_free HI); try done. apply Hr, HI.
  - exists m. split; [apply explains_same; [constructor; by apply Hc|]|].
    + cbn. destruct code; try done. by destruct (Hc 0 eq_refl).
    + split; [|done]. cbn. apply (isolated_same HI); [done|apply Hr, HI|done].
Qed.

Lemma dispatch_step P weights k (st : State B) m req :
  iso P weights (alloc_cost req + k) st m -> 0 <= k -> valid (len <$> m) weights req ->
  let '(ans, st') := dispatch env other st req in
  exists m', explains m req ans m' /\ iso P weights k st' m'.
Proof.
  intros Hiso Hk Hv. destruct req; try done; cbn [valid alloc_cost] in *; rewrite ?Z.add_0_l in Hiso.
  - by apply alloc_step.
  - destruct Hv. by apply free_step.
  - by apply htod_step.
  - by apply dtoh_step.
  - destruct Hv. by eapply dtod_step; [left|..].
  - by eapply memset_step; [left|..].
  - by eapply memset_step; [right; eexists|..].
  - destruct Hv. by eapply dtod_step; [right; eexists|..].
Qed.

(** ** Programs *)

Fixpoint run_requests (reqs : list Request.Request) (st : State B) : list (Z * Response.Response) * State B :=
  match reqs with
  | [] => ([], st)
  | req :: reqs =>
      let '(ans, st) := dispatch env other st req in
      let '(answers, st) := run_requests reqs st in (ans :: answers, st)
  end.

Lemma run_step P weights reqs : forall k (st : State B) m,
  iso P weights (budget reqs + k) st m -> 0 <= k ->
  Forall (fun r => 0 <= alloc_cost r) reqs ->
  let '(answers, st') := run_requests reqs st in
  valid_trace (len <$> m) weights (zip reqs answers) ->
  exists m', (whole_copies B -> private_run m (zip reqs answers) m') /\ iso P weights k st' m'.
Proof.
  induction reqs as [|req reqs IH]; intros k st m Hiso Hk Hc.
  - intros _. exists m. split; [intros _; constructor|done].
  - inv Hc. cbn [run_requests]. cbn [budget foldr] in Hiso. fold (budget reqs) in Hiso.
    assert (Hb : 0 <= budget reqs).
    { clear -H2. induction H2; cbn [budget foldr]; [done|]. fold (budget l). lia. }
    pose proof (dispatch_step P weights (budget reqs + k) st m req) as Hstep.
    destruct (dispatch env other st req) as [ans st1] eqn:Ed.
    specialize (IH k st1). destruct (run_requests reqs st1) as [answers st2] eqn:Er.
    cbn [zip zip_with valid_trace]. intros [Hv Hvt].
    destruct Hstep as (m1 & (m0 & Hdr & Hps & Htr) & Hiso1); [by rewrite Z.add_assoc|lia|done|].
    destruct (IH m1) as (m2 & Hrun & Hiso2); [done..|by rewrite Htr|].
    exists m2. split; [|done]. intros Hw. destruct Hdr as [_ Hdr]. rewrite (Hdr Hw) in Hps.
    econstructor; [done|by apply Hrun].
Qed.

(** ** Setting up the clone *)

(** The tables while they are filled, not yet sorted; [M] is the memory the
    clone will see, the parent's where its copy succeeded. *)
Record staged (P : gmap Z bytes) (weights : gset Z) (k : Z)
    (sh : list (Z * Z)) (tr : list (Z * Z * Z)) (b : B) (M : PMem) : Prop := {
  g_good : good b;
  g_room : room b (cost sh + k);
  g_parent : P ⊆ blocks b;
  g_shared : forall p n, (p, n) ∈ sh -> p ∈ weights /\ exists buf, P !! p = Some buf /\ len buf = n;
  g_trans : forall p n c, (p, n, c) ∈ tr ->
    exists buf, M !! p = Some buf /\ len buf = n /\ blocks b !! c = Some buf /\ P !! c = None;
  g_drift : drift P M;
  g_same : forall p, p ∉ tr.*1.*1 -> M !! p = P !! p;
  g_once : NoDup (sh.*1 ++ tr.*1.*1);
  g_copies : NoDup tr.*2;
}.

Definition bases (s : Session) : list Z := (shared_ranges s).*1 ++ (dptr_trans s).*1.*1.

Lemma staged_share P weights p n buf k sh tr b M :
  staged P weights (n + 1 + k) sh tr b M -> P !! p = Some buf -> len buf = n -> p ∈ weights ->
  p ∉ sh.*1 ++ tr.*1.*1 -> staged P weights k (sh ++ [(p, n)]) tr b M.
Proof.
  intros [] Hp Hl Hw Hn. split; try done.
  - rewrite cost_app. cbn. by replace (cost sh + (n + 1 + 0) + k) with (cost sh + (n + 1 + k)) by lia.
  - intros q x Hin. apply elem_of_app in Hin as [Hin|Hin]; [by apply g_shared0|].
    apply list_elem_of_singleton in Hin. inv Hin. eauto.
  - assert (E : (sh ++ [(p, n)]).*1 ++ tr.*1.*1 ≡ₚ p :: (sh.*1 ++ tr.*1.*1)).
    { rewrite fmap_app. cbn [fmap list_fmap fst]. solve_Permutation. }
    rewrite E. by apply NoDup_cons.
Qed.

Lemma staged_copy P weights p n buf buf0 c b' k sh tr b M :
  staged P weights (n + 1 + k) sh tr b M -> P !! p = Some buf -> len buf = n -> copied buf buf0 ->
  p ∉ sh.*1 ++ tr.*1.*1 -> blocks b !! c = None -> blocks b' = <[c := buf0]> (blocks b) ->
  good b' -> room b' (cost sh + k) -> staged P weights k sh (tr ++ [(p, n, c)]) b' (<[p := buf0]> M).
Proof.
  intros [] Hp Hl [Hl0 Hw0] Hn Hc Hb Hg Hr.
  assert (HPc : P !! c = None).
  { destruct (P !! c) eqn:E; [|done]. apply (lookup_weaken _ _ _ _ E) in g_parent0. congruence. }
  assert (HMp : M !! p = Some buf) by (rewrite g_same0; [done|set_solver]).
  split; try done.
  - rewrite Hb. by apply insert_subseteq_r.
  - intros q x c' Hin. apply elem_of_app in Hin as [Hin|Hin].
    + destruct (g_trans0 _ _ _ Hin) as (bq & Hq & Hlq & Hbq & HPq). exists bq.
      rewrite Hb, lookup_insert_ne by (intros ->; apply Hn, elem_of_app; right; by eapply base_in).
      rewrite lookup_insert_ne by congruence. done.
    + apply list_elem_of_singleton in Hin. inv Hin. exists buf0. rewrite Hb, !lookup_insert_eq. done.
  - destruct g_drift0 as [E Hw]. destruct (drift_copied M p buf buf0 HMp) as [E' Hw']; [done|].
    split; [by rewrite E'|]. intros H. by rewrite Hw', Hw.
  - intros q Hq. rewrite !fmap_app in Hq. rewrite lookup_insert_ne by set_solver. apply g_same0. set_solver.
  - rewrite !fmap_app, app_assoc. cbn. apply NoDup_app. split; [done|]. split; [|apply NoDup_singleton].
    intros x Hx Hin. apply list_elem_of_singleton in Hin. by subst.
  - rewrite fmap_app. cbn. apply NoDup_app. split; [done|]. split; [|apply NoDup_singleton].
    intros x Hx Hin. apply list_elem_of_singleton in Hin. subst x.
    apply list_elem_of_fmap in Hx as ([[q x] c'] & -> & Hin).
    destruct (g_trans0 _ _ _ Hin) as (bq & _ & _ & Hbq & _). cbn in *. congruence.
Qed.

Lemma copy_allocs_spec P weights copy_all l : forall k (st : State B) M,
  staged P weights (cost l.*1 + k) (shared_ranges (sess st)) (dptr_trans (sess st)) (gpu st) M ->
  0 <= k -> (forall p buf, P !! p = Some buf -> 0 < len buf) ->
  (forall p n f, (p, n, f) ∈ l -> (f = true -> p ∈ weights) /\ exists buf, P !! p = Some buf /\ len buf = n) ->
  NoDup (bases (sess st) ++ l.*1.*1) ->
  exists st' M', copy_allocs copy_all l st = (Ok tt, st') /\ worker st' = worker st /\
    staged P weights k (shared_ranges (sess st')) (dptr_trans (sess st')) (gpu st') M' /\
    bases (sess st') ≡ₚ bases (sess st) ++ l.*1.*1.
Proof.
  induction l as [|[[p n] loaded] l IH]; intros k st M Hs Hk Hpos Hl Hnd.
  - exists st, M. cbn in *. rewrite app_nil_r. rewrite Z.add_0_l in Hs. done.
  - cbn [fmap list_fmap cost foldr fst snd] in Hs, Hnd. fold (cost l.*1) in Hs.
    destruct (Hl p n loaded ltac:(set_solver)) as (Hw & buf & Hp & Hlen).
    assert (Hpn : p ∉ bases (sess st)) by (apply NoDup_app in Hnd as (_ & Hd & _); set_solver).
    assert (Hrest : 0 <= cost l.*1).
    { apply cost_nonneg. intros q x Hin. apply list_elem_of_fmap in Hin as ([[q' x'] f] & E & Hin). inv E.
      destruct (Hl q' x' f ltac:(set_solver)) as (_ & bq & _ & <-). apply len_nonneg. }
    assert (Hshc : 0 <= cost (shared_ranges (sess st))).
    { apply cost_nonneg. intros q x Hin. destruct (g_shared _ _ _ _ _ _ _ Hs q x Hin) as (_ & bq & _ & <-). apply len_nonneg. }
    rewrite <- Z.add_assoc in Hs.
    (* one item, then the rest *)
    assert (Hone : exists st1 M1,
      (if loaded && negb copy_all
       then upd (fun s => set_shared (shared_ranges s ++ [(p, n)]) s)
       else private_copy p n (fun c => own c n)) st = (Ok tt, st1) /\ worker st1 = worker st /\
      staged P weights (cost l.*1 + k) (shared_ranges (sess st1)) (dptr_trans (sess st1)) (gpu st1) M1 /\
      bases (sess st1) ≡ₚ bases (sess st) ++ [p]).
    { destruct (loaded && negb copy_all) eqn:E.
      - apply andb_true_iff in E as [-> _]. eexists _, M. split; [reflexivity|]. split; [done|]. split.
        + cbn. eapply staged_share; [done..| |done]. by apply Hw.
        + unfold bases. cbn. rewrite fmap_app. cbn. solve_Permutation.
      - pose proof (g_room _ _ _ _ _ _ _ Hs) as Hroom.
        destruct (private_copy_spec st p n buf (cost (shared_ranges (sess st)) + (cost l.*1 + k)) (fun c => own c n))
          as (c & buf0 & b' & Ec & Hc & Hcp & Hb' & Hg' & Hr');
          [apply Hs|by apply (lookup_weaken _ _ _ _ Hp), Hs|done|by rewrite <- Hlen; eapply Hpos|lia| |].
        { by replace (n + 1 + (cost (shared_ranges (sess st)) + (cost l.*1 + k)))
            with (cost (shared_ranges (sess st)) + (n + 1 + (cost l.*1 + k))) by lia. }
        rewrite Ec. eexists _, (<[p := buf0]> M). split; [reflexivity|]. split; [done|]. split.
        + cbn. by eapply staged_copy.
        + unfold bases. cbn. rewrite !fmap_app. cbn. by rewrite app_assoc. }
    destruct Hone as (st1 & M1 & E1 & Ew1 & Hs1 & Hb1).
    destruct (IH k st1 M1) as (st2 & M2 & E2 & Ew2 & Hs2 & Hb2); [done|done|done|set_solver| |].
    { rewrite Hb1, <- app_assoc. exact Hnd. }
    exists st2, M2. cbn [copy_allocs]. unfold dbind at 1. rewrite E1, E2. split; [done|]. split; [congruence|].
    split; [done|]. rewrite Hb2, Hb1, <- app_assoc. done.
Qed.

Lemma drift_back m m1 p buf1 : drift m m1 -> m1 !! p = Some buf1 -> exists buf, m !! p = Some buf /\ len buf1 = len buf.
Proof.
  intros [E _] Hm. assert (H : (len <$> m : gmap Z Z) !! p = Some (len buf1)) by (rewrite <- E, lookup_fmap, Hm; done).
  rewrite lookup_fmap in H. apply fmap_Some in H as (buf & H1 & H2). eauto.
Qed.

Lemma isolated_of_staged P weights k sh tr b M :
  staged P weights k sh tr b M -> (forall p buf, P !! p = Some buf -> 0 < len buf) ->
  (forall p buf, P !! p = Some buf -> p ∈ sh.*1 ++ tr.*1.*1) ->
  isolated P weights k sh (sort_trans tr) b M.
Proof.
  intros [] Hpos Hall.
  assert (Hbases : (sort_trans tr).*1.*1 ≡ₚ tr.*1.*1).
  { unfold sort_trans. by rewrite merge_sort_Permutation. }
  assert (Hpar : forall p buf, P !! p = Some buf -> blocks b !! p = Some buf).
  { intros p buf Hp. by apply (lookup_weaken _ _ _ _ Hp). }
  assert (Hhome : forall p n h, lives (sort_trans tr) p n h -> (p, n, h) ∈ tr \/ h = p /\ p ∉ tr.*1.*1).
  { intros p n h [H|[-> H]]; [left; by apply elem_of_sort_trans|right]. by rewrite Hbases in H. }
  split; try done.
  - intros p n c Hin. rewrite elem_of_sort_trans in Hin.
    destruct (g_trans0 _ _ _ Hin) as (buf & Hp & Hl & Hc & _).
    destruct (drift_back _ _ _ _ g_drift0 Hp) as (bufP & HpP & HlP).
    pose proof (block_range _ _ _ g_good0 Hc). split; [lia|]. split; [lia|]. exists bufP. split; [done|lia].
  - by rewrite Hbases.
  - apply StronglySorted_merge_sort; apply _.
  - intros p buf HM. destruct (drift_back _ _ _ _ g_drift0 HM) as (bufP & Hp & Hl).
    split; [rewrite Hl; by eapply Hpos|]. split; [eauto|].
    specialize (Hall _ _ Hp). apply elem_of_app in Hall as [Hin|Hin].
    + apply list_elem_of_fmap in Hin as ([q n] & -> & Hin). cbn [fst] in *.
      assert (Hnt : q ∉ tr.*1.*1).
      { apply NoDup_app in g_once0 as (_ & Hd & _). apply Hd, list_elem_of_fmap. by exists (q, n). }
      rewrite (g_same0 _ Hnt) in HM. assert (bufP = buf) as -> by congruence.
      destruct (g_shared0 _ _ Hin) as (_ & buf' & Hq & Hl'). assert (buf' = buf) as -> by congruence. subst n.
      exists q. split; [right; split; [done|by rewrite Hbases]|]. split; [by apply Hpar|by right].
    + apply in_base in Hin as (n & c & Hin). destruct (g_trans0 _ _ _ Hin) as (buf' & Hq & Hl' & Hc & HPc).
      assert (buf' = buf) as -> by congruence. subst n. exists c.
      split; [left; by apply elem_of_sort_trans|]. split; [done|by left].
  - intros p q bp bq h Hp Hq Hhp Hhq. apply Hhome in Hhp, Hhq.
    destruct (drift_back _ _ _ _ g_drift0 Hp) as (bp' & Hp' & _).
    destruct (drift_back _ _ _ _ g_drift0 Hq) as (bq' & Hq' & _).
    destruct Hhp as [Hhp|[-> _]], Hhq as [Hhq|[-> _]]; [| | |done].
    + apply list_elem_of_lookup in Hhp as [i Hi]. apply list_elem_of_lookup in Hhq as [j Hj].
      assert (i = j) as ->. { apply (NoDup_lookup _ _ _ h g_copies0); by rewrite !list_lookup_fmap, ?Hi, ?Hj. }
      congruence.
    + destruct (g_trans0 _ _ _ Hhp) as (? & _ & _ & _ & HP). congruence.
    + destruct (g_trans0 _ _ _ Hhq) as (? & _ & _ & _ & HP). congruence.
Qed.

Lemma copy_vmm_allocs l copy_all (st : State B) :
  copy_vmm l st = copy_allocs copy_all ((fun r => (r, false)) <$> l) st.
Proof.
  revert st. induction l as [|[p n] l IH]; intros st; [done|]. cbn [copy_vmm copy_allocs fmap list_fmap andb].
  unfold dbind at 1 2. destruct (private_copy _ _ _ st) as [[u|e] st']; [apply IH|done].
Qed.

(** A session of a clone that has not copied anything yet. *)
Definition fresh_clone (st : State B) : Prop :=
  pending_isolate (sess st) <> 0 /\ shared_ranges (sess st) = [] /\ dptr_trans (sess st) = [] /\
  in_daemon (worker st).

(** The parent's buffers, as its allocation and VMM tables list them. *)
Definition lists (P : gmap Z bytes) (weights : gset Z) (allocs : list (Z * Z * bool)) (vmm : list (Z * Z)) : Prop :=
  NoDup (allocs.*1.*1 ++ vmm.*1) /\
  (forall p n f, (p, n, f) ∈ allocs -> (f = true -> p ∈ weights) /\ exists buf, P !! p = Some buf /\ len buf = n) /\
  (forall p n, (p, n) ∈ vmm -> exists buf, P !! p = Some buf /\ len buf = n) /\
  (forall p buf, P !! p = Some buf -> 0 < len buf /\ p ∈ allocs.*1.*1 ++ vmm.*1).

Lemma isolate_spec P weights allocs vmm copy_all k (st : State B) :
  fresh_clone st -> good (gpu st) -> P ⊆ blocks (gpu st) -> lists P weights allocs vmm ->
  0 <= k -> room (gpu st) (cost allocs.*1 + (cost vmm + k)) ->
  exists st' M, isolate (Some allocs) (Some vmm) copy_all false st = (Ok tt, st') /\ drift P M /\
    iso P weights k st' M.
Proof.
  intros (Hpend & Hsh & Htr & Hd) Hg HP (Hnd & Hal & Hvm & Hall) Hk Hroom.
  set (st0 := MkState (set_pending 0 (sess st)) (worker st) (gpu st)).
  assert (Hpos : forall p buf, P !! p = Some buf -> 0 < len buf) by (intros p buf Hp; by eapply Hall).
  set (vmm' := (fun r => (r, false)) <$> vmm : list (Z * Z * bool)).
  assert (Hv1 : vmm'.*1 = vmm).
  { unfold vmm'. rewrite <- list_fmap_compose. apply list_fmap_id. }
  assert (Hvc : 0 <= cost vmm).
  { apply cost_nonneg. intros p n Hin. destruct (Hvm p n Hin) as (buf & _ & <-). apply len_nonneg. }
  assert (Hb0 : bases (sess st0) = []) by (unfold bases; cbn; by rewrite Hsh, Htr).
  assert (Hs0 : staged P weights (cost allocs.*1 + (cost vmm + k)) (shared_ranges (sess st0))
                  (dptr_trans (sess st0)) (gpu st0) P).
  { cbn. rewrite Hsh, Htr. split; try done; try apply NoDup_nil_2; intros *; by rewrite elem_of_nil. }
  destruct (copy_allocs_spec P weights copy_all allocs (cost vmm + k) st0 P Hs0)
    as (st1 & M1 & E1 & Ew1 & Hs1 & Hb1); [lia|done|done| |].
  { rewrite Hb0. by apply NoDup_app in Hnd as (? & _ & _). }
  rewrite <- Hv1 in Hs1. destruct (copy_allocs_spec P weights copy_all vmm' k st1 M1 Hs1)
    as (st2 & M2 & E2 & Ew2 & Hs2 & Hb2); [done|done| |by rewrite Hb1, Hb0, Hv1|].
  { intros p n f Hin. apply list_elem_of_fmap in Hin as ([q x] & E & Hin). inv E. split; [done|]. by apply Hvm. }
  rewrite Hb1, Hb0, Hv1 in Hb2. cbn [app] in Hb2.
  unfold isolate, dbind at 1, session. rewrite (proj2 (Z.eqb_neq _ _) Hpend).
  unfold dbind at 1, upd at 1. fold st0. unfold dbind at 1. rewrite E1. unfold dbind at 1.
  rewrite (copy_vmm_allocs vmm copy_all). fold vmm'. rewrite E2. unfold dbind at 1, table. rewrite Ew2, Ew1. cbn [worker st0].
  rewrite (proj2 Hd). cbn [adopt_copies]. eexists _, M2. split; [reflexivity|]. split; [apply Hs2|]. split.
  - cbn. apply isolated_of_staged; [done|done|]. intros p buf Hp. unfold bases in Hb2. rewrite Hb2.
    by eapply Hall.
  - cbn. rewrite Ew2, Ew1. done.
Qed.

End Iso.
End Iso.
