(* ===== verification/CudaMemProps.v ===== *)
(** * Properties of the device memory of forked sessions *)

From S2P Require Import Prelude RustStr CudaProto CudaProtoFacts CudaMem CudaMemFacts CudaMemIso.

Module MemProps.
Import Str Proto ProtoFacts Mem MemFacts Iso.

(** ** Isolation *)

Section Isolation.
Context {B : Type} `{!Backend B, !DeviceLaws B}.
Variable env : Env.
Variable other : Request.Request -> D B Response.Response.

(** C6: A clone has a memory of its own. Consider a freshly
    isolated clone in the daemon, on a device with room for the copies, and any
    program of it that allocates buffers, frees buffers other than the uploaded
    weights, uploads, downloads, copies and fills, each request inside one live
    buffer of the clone. (Kernel launches and every other request are left out;
    a clone that frees a weight it still shares frees its parent's buffer,
    [clone_frees_parent].) Then the parent's buffers keep every byte, also when
    the driver refuses copies or writes; and on a driver whose copies of whole
    blocks succeed each answer is the one a private memory that started as a
    snapshot of the parent would give. Without that the snapshot can be lost,
    because the host drops the error of the copy ([failed_copy_loses_weight]). *)
Theorem clone_isolated (P : gmap Z bytes) (weights : gset Z) (allocs : list (Z * Z * bool))
    (vmm : list (Z * Z)) (copy_all : bool) (st : State B) (reqs : list Request.Request) :
  fresh_clone st -> good (gpu st) -> P ⊆ blocks (gpu st) -> lists P weights allocs vmm ->
  Forall (fun r => 0 <= alloc_cost r) reqs ->
  room (gpu st) (cost allocs.*1 + (cost vmm + budget reqs)) ->
  let '(r, st1) := isolate (Some allocs) (Some vmm) copy_all false st in
  let '(answers, st2) := run_requests env other reqs st1 in
  r = Ok tt /\
  (valid_trace (len <$> P) weights (zip reqs answers) ->
   P ⊆ blocks (gpu st2) /\
   (whole_copies B -> exists m, private_run P (zip reqs answers) m)).
Proof.
  intros Hf Hg HP Hl Hc Hroom.
  assert (Hb : 0 <= budget reqs).
  { clear -Hc. induction Hc; cbn [budget foldr]; [done|]. fold (budget l). lia. }
  destruct (isolate_spec P weights allocs vmm copy_all (budget reqs) st Hf Hg HP Hl Hb Hroom)
    as (st1 & M & -> & [El Hdr] & Hiso).
  rewrite <- (Z.add_0_r (budget reqs)) in Hiso.
  pose proof (run_step env other P weights reqs 0 st1 M Hiso ltac:(lia) Hc) as H. rewrite El in H.
  destruct (run_requests env other reqs st1) as [answers st2]. split; [done|]. intros Hv.
  destruct (H Hv) as (m & Hrun & HI & _). split; [apply HI|]. intros Hw. exists m.
  rewrite <- (Hdr Hw) at 1. by apply Hrun.
Qed.

(** The state of a clone that shares one buffer, nothing copied yet. *)
Definition shares (st : State B) (p n : Z) : Prop :=
  shared_ranges (sess st) = [(p, n)] /\ dptr_trans (sess st) = [] /\ in_daemon (worker st) /\
  0 < p /\ 0 < n /\ p + n < 2 ^ 64.

(** When the device has no room for the private copy,
    a clone's write to a shared weight goes to the parent's buffer itself and is
    reported as a success. *)
Theorem full_device_hits_parent (st : State B) (p n off s code : Z) (data : bytes) (b' : B) :
  shares st p n -> 0 <= off < n ->
  mem_alloc n (gpu st) = (Err code, gpu st) ->
  memcpy_htod (p + off) data (raw_stream env s) (gpu st) = (Ok tt, b') ->
  let '(ans, st') := dispatch env other st (Request.MemcpyHtoD (p + off) s data) in
  ans = (0, Response.Ok) /\ gpu st' = b' /\ shared_ranges (sess st') = [] /\ dptr_trans (sess st') = [].
Proof.
  intros (Hsh & Htr & Hd & Hp & Hn & Hpn) Hoff Ha Hw.
  set (st1 := MkState (set_shared [] (sess st)) (worker st) (gpu st)).
  assert (Hc : cow_written (Request.MemcpyHtoD (p + off) s data) st = (Ok tt, st1)).
  { rewrite (cow_written_one _ (p + off)) by done. unfold cow_one, dbind at 1, session. rewrite Hsh.
    cbn [position]. unfold in_range. cbn [fst snd]. rewrite wrap_small by lia.
    rewrite (proj2 (Z.leb_le _ _)), (proj2 (Z.ltb_lt _ _)) by lia. cbn [andb lookup list_lookup].
    change (swap_remove 0 [(p, n)]) with (@nil (Z * Z)). unfold dbind, upd at 1, private_copy, drive.
    cbn [gpu sess worker]. by rewrite Ha. }
  rewrite (dispatch_eq env other st st1) by done. rewrite translate_eq.
  assert (Ex : xlat (dptr_trans (sess st1)) (p + off) = p + off).
  { cbn [st1 sess dptr_trans set_shared]. rewrite Htr. unfold xlat. by rewrite orb_true_r. }
  rewrite Ex. destruct (arm_htod env other (p + off) s data st1) as (s' & Es & Et & ->).
  cbn [gpu st1]. rewrite Hw. cbn [answer_of]. split; [done|]. split; [done|].
  cbn [sess]. rewrite Es, Et. split; [done|]. cbn. done.
Qed.

(** When the driver refuses the copy of a shared weight, the write goes on in a
    fresh buffer that does not hold the weight, and is reported as a success. *)
Theorem failed_copy_loses_weight (st : State B) (p n off s c code : Z) (data : bytes) (b1 b2 b3 : B) :
  shares st p n -> 0 <= off < n -> 0 < c -> c + n < 2 ^ 64 ->
  mem_alloc n (gpu st) = (Ok c, b1) ->
  memcpy_dtod c p n b1 = (Err code, b2) ->
  memcpy_htod (c + off) data (raw_stream env s) b2 = (Ok tt, b3) ->
  let '(ans, st') := dispatch env other st (Request.MemcpyHtoD (p + off) s data) in
  ans = (0, Response.Ok) /\ gpu st' = b3 /\ shared_ranges (sess st') = [] /\ dptr_trans (sess st') = [(p, n, c)].
Proof.
  intros (Hsh & Htr & Hd & Hp & Hn & Hpn) Hoff Hc Hcn Ha Hcp Hw.
  assert (Hcow : exists s1 w1, cow_written (Request.MemcpyHtoD (p + off) s data) st = (Ok tt, MkState s1 w1 b2) /\
            shared_ranges s1 = [] /\ dptr_trans s1 = [(p, n, c)]).
  { rewrite (cow_written_one _ (p + off)) by done. unfold cow_one, dbind at 1, session. rewrite Hsh.
    cbn [position]. unfold in_range. cbn [fst snd]. rewrite wrap_small by lia.
    rewrite (proj2 (Z.leb_le _ _)), (proj2 (Z.ltb_lt _ _)) by lia. cbn [andb lookup list_lookup].
    change (swap_remove 0 [(p, n)]) with (@nil (Z * Z)). unfold dbind at 1, upd at 1, private_copy, drive at 1.
    cbn [gpu sess worker]. rewrite Ha. unfold dbind at 1, dropped, drive. cbn [gpu]. rewrite Hcp.
    unfold own, sync_lib_trans, dbind, upd, session, upd_worker. cbn [snd sess worker gpu].
    do 2 eexists. split; [reflexivity|]. split; [done|]. cbn. by rewrite Htr. }
  destruct Hcow as (s1 & w1 & Hcow & Hs1 & Ht1).
  rewrite (dispatch_eq env other st (MkState s1 w1 b2)) by done. rewrite translate_eq. cbn [sess]. rewrite Ht1.
  assert (Hx : xlat [(p, n, c)] (p + off) = c + off).
  { rewrite (xlat_in _ p n c); [lia| |set_solver|lia]. split; [|repeat constructor].
    apply List.Forall_cons; [unfold entry_ok; lia|constructor]. }
  rewrite Hx. destruct (arm_htod env other (c + off) s data (MkState s1 w1 b2)) as (s' & Es & Et & ->).
  cbn [gpu]. rewrite Hw. cbn [answer_of sess] in *. rewrite Es, Et. done.
Qed.

(** A clone that frees a weight it still shares frees the
    parent's buffer: the request reaches the driver with the parent's address. *)
Theorem clone_frees_parent (st : State B) (p n : Z) (buf : bytes) :
  shares st p n -> good (gpu st) -> blocks (gpu st) !! p = Some buf ->
  is_ok (mem_free p (gpu st)).1 = true ->
  let '(ans, st') := dispatch env other st (Request.MemFree p) in
  ans = (0, Response.Ok) /\ blocks (gpu st') = base.delete p (blocks (gpu st)) /\
  blocks (gpu st') !! p = None.
Proof.
  intros (Hsh & Htr & Hd & _) Hg Hp Hok.
  rewrite (dispatch_eq env other st st) by (done || by apply cow_written_none).
  rewrite translate_eq, Htr. assert (Ex : xlat [] p = p) by (unfold xlat; by rewrite orb_true_r).
  rewrite Ex. unfold dispatch_arms. cbn [dispatch_heap].
  unfold disown, unit_ok, dbind, drive, upd, session, table. cbn [sess worker gpu].
  rewrite (proj2 Hd), andb_false_r. cbv iota. cbn [gpu].
  pose proof (free_law (gpu st) p buf Hg Hp) as Hlaw.
  destruct (mem_free p (gpu st)) as [[u|e] b']; [|done]. destruct Hlaw as (_ & _ & _ & Hb). cbn in *.
  split; [done|]. split; [done|]. rewrite Hb. apply lookup_delete_eq.
Qed.

End Isolation.

(** ** The pointer table *)

(** C27: The binary search finds what a scan of the whole table finds:
    an address inside an inherited allocation is moved to the same offset of
    its copy, any other stays. *)
Theorem xlat_correct (entries : list (Z * Z * Z)) (p : Z) :
  Forall entry_ok entries -> entries_apart entries ->
  xlat (sort_trans entries) p =
  match List.find (fun '(base, size, _) => (base <=? p) && (p <? base + size)) entries with
  | Some (base, _, copy) => copy + (p - base)
  | None => p
  end.
Proof.
  intros Hok Ha. pose proof (sort_trans_ok entries Hok Ha) as Ht.
  destruct (List.find _ entries) as [[[base size] copy]|] eqn:E.
  - apply find_some in E as [Hin E]. apply andb_true_iff in E as [E1 E2].
    apply Z.leb_le in E1. apply Z.ltb_lt in E2. apply list_elem_of_In in Hin.
    by rewrite (xlat_in _ base size copy) by (done || by apply elem_of_sort_trans).
  - apply xlat_out; [done|]. intros base size copy Hin Hp. rewrite elem_of_sort_trans in Hin.
    apply list_elem_of_In in Hin. pose proof (find_none _ _ E _ Hin) as Hf. cbn in Hf.
    rewrite (proj2 (Z.leb_le _ _)), (proj2 (Z.ltb_lt _ _)) in Hf by lia. done.
Qed.

(** ** Access rights *)

(** The addresses of the shared ranges; one that wraps around has none. *)
Definition shared_at (shared : list (Z * Z)) (a : Z) : Prop :=
  exists base n, (base, n) ∈ shared /\ base + n <= u_max 64 /\ base <= a < base + n.

Lemma intersections_covered va end_ shared a :
  covered (omap (intersection va end_) shared) a <-> va <= a < end_ /\ shared_at shared a.
Proof.
  unfold covered, shared_at. split.
  - intros (x & Hx & Ha). apply list_elem_of_omap in Hx as ([base n] & Hin & Hi).
    unfold intersection, checked_add in Hi. destruct (base + n <=? u_max 64) eqn:E; [|done]. cbn in Hi.
    case_bool_guard_in Hi; [|done]. inv Hi. cbn [fst snd] in Ha. bool_simpl. split; [lia|].
    exists base, n. split; [done|]. lia.
  - intros (Ha & base & n & Hin & Hle & Hb). exists (Z.max va base, Z.min end_ (base + n)).
    split; [|cbn; lia]. apply list_elem_of_omap. exists (base, n). split; [done|].
    unfold intersection, checked_add. rewrite (proj2 (Z.leb_le _ _)) by lia. cbn.
    by rewrite (proj2 (Z.ltb_lt _ _)) by lia.
Qed.

Lemma intersections_bounds va end_ shared :
  Forall (fun x => x.1 < x.2) (omap (intersection va end_) shared) /\
  Forall (fun x => va <= x.1 /\ x.2 <= end_) (omap (intersection va end_) shared).
Proof.
  split; apply list.Forall_forall; intros x Hx; apply list_elem_of_omap in Hx as ([base n] & _ & Hi);
    unfold intersection, checked_add in Hi; (destruct (base + n <=? u_max 64); [|done]); cbn in Hi;
    (case_bool_guard_in Hi; [|done]); inv Hi; cbn [fst snd]; bool_simpl; lia.
Qed.

(** The bounds of a merged list are those of the list. *)
Lemma covered_bounds l va end_ :
  gapped l -> (forall a, covered l a -> va <= a < end_) -> Forall (fun x => va <= x.1 /\ x.2 <= end_) l.
Proof.
  intros [_ Hne] H. apply list.Forall_forall. intros x Hx.
  pose proof (proj1 (list.Forall_forall _ _) Hne x Hx) as Hlt. cbn in Hlt.
  pose proof (H x.1 ltac:(exists x; split; [done|lia])).
  pose proof (H (x.2 - 1) ltac:(exists x; split; [done|lia])). lia.
Qed.

(** C26: When a clone sets the access of an address range, the
    parts the host asks the driver for follow one another and make up exactly
    that range, and a part is read-only precisely where the memory is still
    shared with the parent. *)
Theorem partitions_exact (va size : Z) (shared : list (Z * Z)) :
  0 <= size -> va + size <= u_max 64 ->
  contiguous va (va + size) (vmm_access_partitions va size shared) /\
  (forall v n read_only a, (v, n, read_only) ∈ vmm_access_partitions va size shared -> v <= a < v + n ->
     (read_only = true <-> shared_at shared a)).
Proof.
  intros Hs Hle. unfold vmm_access_partitions, checked_add. rewrite (proj2 (Z.leb_le _ _)) by lia.
  set (l := merge_sort pair_le (omap (intersection va (va + size)) shared)).
  assert (Hp : l ≡ₚ omap (intersection va (va + size)) shared) by apply merge_sort_Permutation.
  destruct (merge_all_spec l) as [Hg Hc].
  { rewrite Hp. apply intersections_bounds. }
  { apply (StronglySorted_impl pair_le); [unfold pair_le; lia|].
    apply StronglySorted_merge_sort; apply _. }
  assert (Hc' : forall a, covered (merge_all l) a <-> va <= a < va + size /\ shared_at shared a).
  { intros a. rewrite Hc, <- intersections_covered. unfold covered. by setoid_rewrite Hp. }
  destruct (partition_from_spec (merge_all l) va (va + size)) as [Hcont Hf]; [done| |lia|].
  { apply covered_bounds; [done|]. intros a Ha. by apply Hc'. }
  split; [done|]. intros v n ro a Hin Ha. destruct (Hf v n ro a Hin Ha) as [Hr ->]. rewrite Hc'. tauto.
Qed.

Lemma partitions_exact_witness :
  contiguous 0 100 (vmm_access_partitions 0 100 [(40, 20); (10, 20); (15, 5)]) /\
  vmm_access_partitions 0 100 [(40, 20); (10, 20); (15, 5)] =
    [(0, 10, false); (10, 20, true); (30, 10, false); (40, 20, true); (60, 40, false)].
Proof.
  split; [apply (partitions_exact 0 100 [(40, 20); (10, 20); (15, 5)])|]; vm_compute; try reflexivity; discriminate.
Defined.

(** Once a range is unmapped the clone shares nothing in it, and everything
    outside of it as before. *)
Lemma forget_exact va size ranges a :
  0 <= size -> va + size <= u_max 64 ->
  shared_at (forget_worker_shared_vmm_range va size ranges) a <->
  shared_at ranges a /\ ~ va <= a < va + size.
Proof.
  intros Hs Hle. unfold forget_worker_shared_vmm_range, checked_add. rewrite (proj2 (Z.leb_le _ _)) by lia.
  assert (Hone : forall base n, shared_at (forget_range va (va + size) (base, n)) a <->
            base + n <= u_max 64 /\ base <= a < base + n /\ ~ va <= a < va + size).
  { intros base n. unfold forget_range, checked_add, shared_at.
    destruct (base + n <=? u_max 64) eqn:E; bool_simpl.
    2: { split; [intros (? & ? & Hin & _); by apply elem_of_nil in Hin|lia]. }
    repeat case_bool_guard; bool_simpl; cbn [app]; split.
    all: try (intros (b' & n' & Hin & H1 & H2); rewrite ?elem_of_cons, ?elem_of_nil in Hin;
              destruct_or? Hin; simplify_eq; lia).
    all: intros (H1 & H2 & H3).
    all: first [exists base, n; split; [set_solver|lia]
               |destruct (decide (a < va)); [exists base, (va - base); split; [set_solver|lia]|];
                exists (va + size), (base + n - (va + size)); split; [set_solver|lia]
               |exists base, (va - base); split; [set_solver|lia]
               |exists (va + size), (base + n - (va + size)); split; [set_solver|lia]
               |lia]. }
  split.
  - intros (b' & n' & Hin & H1 & H2). apply list_elem_of_bind in Hin as ([base n] & Hf & Hin).
    destruct (proj1 (Hone base n)) as (H3 & H4 & H5); [by exists b', n'|]. split; [|done].
    exists base, n. done.
  - intros [(base & n & Hin & H1 & H2) H3].
    destruct (proj2 (Hone base n)) as (b' & n' & Hf & H4 & H5); [done|].
    exists b', n'. split; [|done]. apply list_elem_of_bind. by exists (base, n).
Qed.

(** ** Share candidates *)

(** The uploads of a session: what the host records, and what is on the device
    as far as uploads go. *)
Fixpoint record_uploads (ups : list (Z * bytes)) (m : gmap Z ChunkCover) : gmap Z ChunkCover :=
  match ups with
  | [] => m
  | (d, data) :: ups => record_uploads ups (mark_loaded_vmm d (len data) (Some data) m)
  end.
Fixpoint uploaded (ups : list (Z * bytes)) (content : Z -> option Z) : Z -> option Z :=
  match ups with
  | [] => content
  | (d, data) :: ups => uploaded ups (upload content d data)
  end.

Lemma record_uploads_ok base ups : forall content m c,
  Forall (fun u => 0 <= u.1 /\ u.1 + len u.2 < 2 ^ 64) ups ->
  m !! base = Some c -> 0 <= base -> 0 <= cc_size c -> base + cc_size c < 2 ^ 64 -> cover_ok content base c ->
  exists c', record_uploads ups m !! base = Some c' /\ cc_size c' = cc_size c /\
    cover_ok (uploaded ups content) base c'.
Proof.
  induction ups as [|[d data] ups IH]; intros content m c Hu Hm Hb Hs Hbs Hok; [by exists c|].
  apply List.Forall_cons_iff in Hu as [[H1 H2] Hu]. cbn [fst snd record_uploads uploaded] in *.
  destruct (mark_chunk_ok content d data base c) as [Hok' Hs']; [done..|].
  destruct (IH (upload content d data) (mark_loaded_vmm d (len data) (Some data) m) _ Hu
    ltac:(rewrite mark_loaded_vmm_lookup, Hm by done; reflexivity)) as (c' & E & Es & Hc); rewrite ?Hs'; try done.
  exists c'. split; [done|]. split; [congruence|done].
Qed.

(** C22: The fork-time check of a chunk means what it
    should: whatever uploads a session makes over a freshly mapped chunk, if the
    recorded segments cover the chunk exactly then all of it was uploaded, and
    each recorded hash is the hash of the bytes last uploaded to its segment. *)
Theorem covered_chunk_faithful (base : Z) (ups : list (Z * bytes)) (m : gmap Z ChunkCover) (c : ChunkCover) :
  Forall (fun u => 0 <= u.1 /\ u.1 + len u.2 < 2 ^ 64) ups ->
  m !! base = Some c -> segs c = [] -> 0 <= base -> 0 <= cc_size c -> base + cc_size c < 2 ^ 64 ->
  match record_uploads ups m !! base with
  | Some c' => cc_size c' = cc_size c /\
      (covered_exactly c' = true ->
       exists image : bytes, len image = cc_size c /\
         (forall i, 0 <= i < cc_size c -> uploaded ups (fun _ => None) (base + i) = image !! Z.to_nat i) /\
         Forall (fun '(s, e, crc) => crc = fnv64 (slice image s e)) (segs c'))
  | None => False
  end.
Proof.
  intros Hu Hm Hseg Hb Hs Hbs.
  assert (Hok : cover_ok (fun _ => None) base c) by (unfold cover_ok; rewrite Hseg; constructor).
  destruct (record_uploads_ok base ups _ m c Hu Hm Hb Hs Hbs Hok) as (c' & -> & Es & Hc).
  split; [done|]. intros Hcov. unfold covered_exactly in Hcov. unfold cover_ok in Hc. rewrite Es in *.
  destruct (tiles_image base (cc_size c) _ (segs c') 0 ltac:(lia) Hcov Hc) as (img & _ & Hl & Hi & Hf).
  rewrite Z.sub_0_r in *. exists img. split; [done|]. split.
  - intros i Hr. rewrite <- Hi by done. f_equal. lia.
  - eapply Forall_impl; [exact Hf|]. intros [[s e] crc] (_ & _ & ->). by rewrite !Z.sub_0_r.
Qed.

Lemma covered_chunk_faithful_witness :
  match record_uploads [(100, [1; 2; 3]); (98, [5; 6]); (101, [7; 8; 9])] {[98 := MkCover 4 0 0 [] None]} !! 98 with
  | Some c' => cc_size c' = 4
  | None => False
  end.
Proof.
  pose proof (covered_chunk_faithful 98 [(100, [1; 2; 3]); (98, [5; 6]); (101, [7; 8; 9])]
    {[98 := MkCover 4 0 0 [] None]} (MkCover 4 0 0 [] None)) as H.
  destruct (record_uploads _ _ !! 98); [|apply H]; try apply H; try done; try (cbn; lia).
  all: repeat (apply List.Forall_cons; [unfold len; cbn; lia|]); constructor.
Defined.

(** ** Kernel arguments *)

Lemma slice_skip {A} (w q : list A) k a b :
  len w = k -> 0 <= a -> a <= b -> slice (w ++ q) (k + a) (k + b) = slice q a b.
Proof.
  intros <- Ha Hb. unfold slice, len. rewrite drop_app_ge by lia. f_equal; [lia|]. f_equal. lia.
Qed.

Lemma window_split (p : bytes) :
  8 <= len p -> exists w r, p = w ++ r /\ len w = 8 /\ slice p 0 8 = w /\ slice p 8 (len p) = r.
Proof.
  intros H. exists (take 8 p), (drop 8 p). rewrite take_drop. split; [done|].
  unfold len, slice in *. rewrite length_take, Nat2Z.inj_min. split; [lia|]. split; [done|].
  rewrite firstn_all2 by (rewrite length_drop; lia). done.
Qed.

Lemma xlat_windows_spec trans fuel : forall p : bytes,
  (length p <= fuel)%nat -> is_bytes p -> (forall v, is_uint 64 v -> is_uint 64 (xlat trans v)) ->
  let q := xlat_windows fuel trans p in
  len q = len p /\
  (forall i, 0 <= i -> 8 * i + 8 <= len p ->
     from_le (slice q (8 * i) (8 * i + 8)) = xlat trans (from_le (slice p (8 * i) (8 * i + 8)))) /\
  slice q (8 * (len p / 8)) (len p) = slice p (8 * (len p / 8)) (len p).
Proof.
  induction fuel as [|fuel IH]; intros p Hf Hb Hx.
  { destruct p; [|cbn in Hf; lia]. split; [done|]. split; [|done]. intros i Hi H. rewrite len_nil in H. lia. }
  cbn [xlat_windows]. destruct (8 <=? len p) eqn:E; bool_simpl.
  2: { split; [done|]. split; [|done]. intros i Hi H. lia. }
  destruct (window_split p E) as (w & r & -> & Hw & -> & ->). apply Forall_app in Hb as [Hbw Hbr].
  set (w' := if negb (xlat trans (from_le w) =? from_le w) then to_le 8 (xlat trans (from_le w)) else w).
  assert (Hw64 : is_uint 64 (from_le w)).
  { pose proof (from_le_bound w Hbw) as H. rewrite Hw in H. unfold is_uint. exact H. }
  assert (Hw' : len w' = 8 /\ from_le w' = xlat trans (from_le w)).
  { unfold w'. destruct (xlat trans (from_le w) =? from_le w) eqn:E1; cbn [negb]; bool_simpl; [done|].
    split; [apply len_to_le|]. apply from_to_le_small. by apply Hx. }
  destruct Hw' as [Hw' Hfw].
  destruct (IH r) as (Hl & Hwin & Htail); [|done|done|].
  { unfold len in Hw. rewrite length_app in Hf. lia. }
  rewrite !len_app, Hw, Hw'. split; [lia|]. split.
  - intros i Hi Hle. destruct (decide (i = 0)) as [->|Hne].
    + change (8 * 0) with 0. change (0 + 8) with 8. rewrite !slice_app_l by lia.
      replace 8 with (len w') at 1 by done. replace 8 with (len w) by done. by rewrite !slice_whole.
    + replace (8 * i) with (8 + 8 * (i - 1)) by lia. rewrite <- Z.add_assoc.
      rewrite !slice_skip by (done || lia). apply Hwin; lia.
  - assert (Ed : (8 + len r) / 8 = len r / 8 + 1).
    { replace (8 + len r) with (len r + 1 * 8) by lia. apply Z.div_add. lia. }
    rewrite Ed. pose proof (len_nonneg r).
    replace (8 * (len r / 8 + 1)) with (8 + 8 * (len r / 8)) by lia.
    pose proof (Z.div_mod (len r) 8 ltac:(lia)). pose proof (Z.mod_pos_bound (len r) 8 ltac:(lia)).
    rewrite !slice_skip by (done || lia). done.
Qed.

(** A kernel's argument buffer keeps its length;
    each aligned window of eight bytes is translated as a pointer, and the tail
    that is too short for one stays. *)
Theorem argument_windows_translated (trans : list (Z * Z * Z)) (p : bytes) :
  is_bytes p -> (forall v, is_uint 64 v -> is_uint 64 (xlat trans v)) ->
  len (xlat_args trans p) = len p /\
  (forall i, 0 <= i -> 8 * i + 8 <= len p ->
     from_le (slice (xlat_args trans p) (8 * i) (8 * i + 8)) = xlat trans (from_le (slice p (8 * i) (8 * i + 8)))) /\
  slice (xlat_args trans p) (8 * (len p / 8)) (len p) = slice p (8 * (len p / 8)) (len p).
Proof. intros Hb Hx. by apply xlat_windows_spec. Qed.

Lemma argument_windows_translated_witness :
  xlat_args [] [1; 2; 3; 4; 5; 6; 7; 8; 9] = [1; 2; 3; 4; 5; 6; 7; 8; 9] /\
  len (xlat_args [] [1; 2; 3; 4; 5; 6; 7; 8; 9]) = 9.
Proof.
  split; [reflexivity|].
  apply (argument_windows_translated [] [1; 2; 3; 4; 5; 6; 7; 8; 9]).
  - repeat (apply List.Forall_cons; [unfold is_byte; lia|]). constructor.
  - intros v Hv. unfold xlat. by rewrite orb_true_r.
Defined.

(** ** Budgets *)

(** The memory budgets a host assigns to the machines of a
    fork pool add up: the golden's session and [n] clones together stay within
    nine tenths of the device, and none is given more than an eighth of it. *)
Theorem pool_shares_fit (total n : Z) :
  0 <= total -> 90 * total <= u_max 64 -> 0 <= n <= u_max 32 ->
  (n + 1) * pool_vram_limit total n true <= total * 90 / 100 /\
  0 <= pool_vram_limit total n true <= pool_vram_limit total n false /\
  8 * pool_vram_limit total n false <= total.
Proof.
  intros Ht Hmax Hn. unfold pool_vram_limit, DEFAULT_FORK_DENSITY_SLOTS, FORK_POOL_HEADROOM_PERCENT,
    saturating_add, saturating_mul, u_max in *. cbn [negb].
  rewrite !Z.min_l with (m := 2 ^ 64 - 1) by lia. change (100 - 10) with 90.
  pose proof (Z.mul_div_le (total * 90 / 100) (n + 1) ltac:(lia)) as H1.
  pose proof (Z.mul_div_le total 8 ltac:(lia)) as H2.
  pose proof (Z.div_pos total 8 Ht ltac:(lia)) as H3.
  assert (H4 : 0 <= total * 90 / 100 / (n + 1)) by (apply Z.div_pos; [apply Z.div_pos|]; lia).
  split; [nia|]. lia.
Qed.

Lemma pool_shares_fit_witness :
  (4 + 1) * pool_vram_limit (24 * 2 ^ 30) 4 true <= 24 * 2 ^ 30 * 90 / 100 /\
  pool_vram_limit (24 * 2 ^ 30) 4 true = 3 * 2 ^ 30.
Proof.
  split; [|vm_compute; reflexivity]. apply (pool_shares_fit (24 * 2 ^ 30) 4); vm_compute; try split; discriminate.
Defined.

(** ** Writing to an inherited VMM chunk *)

Section Chunks.
Context {B : Type} `{!Backend B}.

(** The driver calls of a replacement leave the tables alone. *)
Definition keeps {A} (m : D B A) : Prop := forall st, worker (m st).2 = worker st /\ sess (m st).2 = sess st.

Lemma keeps_bind {A C} (m : D B A) (k : A -> D B C) : keeps m -> (forall x, keeps (k x)) -> keeps (dbind m k).
Proof.
  intros Hm Hk st. unfold dbind. specialize (Hm st). destruct (m st) as [[x|e] st1]; [|done].
  destruct Hm, (Hk x st1). cbn in *. split; congruence.
Qed.
Lemma keeps_drive {A} (f : B -> CuResult A * B) : keeps (drive f).
Proof. intros st. unfold drive. by destruct (f (gpu st)). Qed.
Lemma keeps_dropped {A} (m : D B A) : keeps m -> keeps (dropped m).
Proof. intros Hm st. apply Hm. Qed.
Lemma keeps_on_error {A} (m : D B A) undo : keeps m -> keeps undo -> keeps (on_error m undo).
Proof.
  intros Hm Hu st. unfold on_error. specialize (Hm st). destruct (m st) as [[x|e] st1]; [done|].
  destruct Hm, (Hu st1). cbn in *. split; congruence.
Qed.
Lemma keeps_replace device base size : keeps (replace_chunk device base size).
Proof.
  assert (Hu : forall p, keeps (dropped (drive (B := B) (mem_release p)))) by (intros p; apply keeps_dropped, keeps_drive).
  unfold replace_chunk.
  repeat (apply keeps_bind; [first [apply Hu|apply keeps_on_error; [apply keeps_drive|apply Hu]|apply keeps_drive]|intros ?]).
  apply keeps_drive.
Qed.

Lemma cow_vmm_loop_spec fuel device dptr write_end : forall st : State B,
  (length (shared_vmm_ranges (worker st)) < fuel)%nat ->
  let '(r, st') := cow_vmm_loop fuel device dptr write_end st in
  shared_vmm_ranges (worker st') ⊆+ shared_vmm_ranges (worker st) /\
  (forall x, x ∈ shared_vmm_ranges (worker st) -> touches dptr write_end x = false ->
     x ∈ shared_vmm_ranges (worker st')) /\
  (is_ok r = true -> forall x, x ∈ shared_vmm_ranges (worker st') -> touches dptr write_end x = false).
Proof.
  induction fuel as [|fuel IH]; intros st Hf; [lia|]. cbn [cow_vmm_loop]. unfold dbind at 1, table.
  set (ranges := shared_vmm_ranges (worker st)) in *.
  destruct (position (touches dptr write_end) ranges) as [i|] eqn:Ep.
  2: { split; [done|]. split; [done|]. intros _ x Hx. by eapply position_None. }
  destruct (position_Some _ _ _ Ep) as ([base size] & Hi & Ht). rewrite Hi.
  pose proof (swap_remove_perm _ _ _ Hi) as Hperm. unfold dbind at 1.
  pose proof (keeps_replace device base size st) as [Hw _].
  destruct (replace_chunk device base size st) as [[u|e] st1]; cbn [snd] in Hw.
  - unfold dbind, upd_worker. set (st2 := MkState _ _ _).
    assert (Hs2 : shared_vmm_ranges (worker st2) = swap_remove i ranges) by done.
    assert (Hlen : (length (shared_vmm_ranges (worker st2)) < fuel)%nat).
    { rewrite Hs2. apply Permutation_length in Hperm. cbn in Hperm. lia. }
    specialize (IH st2 Hlen). destruct (cow_vmm_loop fuel device dptr write_end st2) as [r st'].
    rewrite Hs2 in IH. destruct IH as (H1 & H2 & H3). split; [|split; [|done]].
    + rewrite Hperm. etrans; [exact H1|]. by apply submseteq_cons.
    + intros x Hx Hxt. apply H2; [|done]. rewrite Hperm in Hx. apply elem_of_cons in Hx as [->|]; [congruence|done].
  - rewrite Hw. fold ranges. by split.
Qed.

(** The device addresses a request writes. *)
Definition writes (req : Request.Request) (a : Z) : Prop :=
  match req with
  | Request.MemcpyHtoD d _ data => d <= a < d + len data
  | Request.MemsetD8 d _ n | Request.MemsetD8Async d _ n _ | Request.MemcpyShmHtoD d _ n _
  | Request.MemcpyDtoD d _ n | Request.MemcpyDtoDAsync d _ n _ | Request.MemcpyPeerAsync d _ _ _ n _ =>
      d <= a < d + n
  | Request.MemcpyGpaHtoD d _ segments => d <= a < d + foldr (fun s n => s.2 + n) 0 segments
  | _ => False
  end.
Definition range_of (r : Z * Z) (a : Z) : Prop := r.1 <= a < r.1 + r.2.
Definition fits (r : Z * Z) : Prop := 0 <= r.1 /\ 0 < r.2 /\ r.1 + r.2 <= u_max 64.

Lemma saturating_sum (segments : list (Z * Z)) : forall total,
  0 <= total <= u_max 64 -> Forall is_pair segments ->
  fold_left (fun total s => saturating_add 64 total s.2) segments total =
  Z.min (u_max 64) (total + foldr (fun s n => s.2 + n) 0 segments) /\
  0 <= foldr (fun s n => s.2 + n) 0 segments.
Proof.
  induction segments as [|s l IH]; intros total Ht Hl; cbn [fold_left foldr]; [lia|].
  apply List.Forall_cons_iff in Hl as [[_ Hs] Hl]. unfold is_uint in Hs.
  destruct (IH (saturating_add 64 total s.2)) as [-> H0]; [unfold saturating_add in *; lia|done|].
  unfold saturating_add. lia.
Qed.

(** The range the code computes covers what the request writes. *)
Lemma written_range_covers req :
  request_ok req ->
  match written_range req with
  | Some (d, n) =>
      0 <= d /\ 0 <= n /\
      exists n', n = Z.min (u_max 64) n' /\ 0 <= n' /\ forall a, writes req a <-> d <= a < d + n'
  | None => forall a, ~ writes req a
  end.
Proof.
  assert (Hid : forall n, is_uint 64 n -> 0 <= n /\ n = Z.min (u_max 64) n /\ 0 <= n)
    by (unfold is_uint, u_max; lia).
  destruct req; intros Hr; cbn [request_ok written_range writes] in *; destruct_and?; try tauto.
  all: try (match goal with |- 0 <= ?d /\ 0 <= ?n /\ _ =>
              destruct (Hid n) as (Hz & Hm & _); [done|]; split; [unfold is_uint in *; lia|];
              split; [done|]; exists n; by rewrite <- Hm end).
  - match goal with H : is_vec _ |- _ => destruct H as [_ Hv] end.
    destruct (Hid _ Hv) as (Hz & Hm & _). split; [unfold is_uint in *; lia|]. split; [done|].
    exists (len data). by rewrite <- Hm.
  - match goal with H : is_list _ _ _ |- _ => destruct H as [_ Hl] end.
    destruct (saturating_sum segments 0 ltac:(unfold u_max; lia) Hl) as [-> Hz].
    split; [unfold is_uint in *; lia|]. split; [unfold u_max; lia|]. by eexists; rewrite Z.add_0_l.
Qed.

(** A request without a range to check writes nothing; for the others the
    test of the code says whether it writes into a chunk. *)
Lemma touches_writes req :
  request_ok req -> (forall a, writes req a -> a < u_max 64) ->
  match written_range req with
  | Some (d, n) =>
      (n = 0 -> forall a, ~ writes req a) /\
      (n <> 0 -> forall x, fits x ->
         touches d (saturating_add 64 d n) x = false <-> forall a, writes req a -> ~ range_of x a)
  | None => forall a, ~ writes req a
  end.
Proof.
  intros Hr Hend. pose proof (written_range_covers req Hr) as Hw.
  destruct (written_range req) as [[d n]|]; [|done].
  destruct Hw as (Hd & Hn & n' & -> & Hn' & Hwr). split.
  - intros E a Ha. apply Hwr in Ha. unfold u_max in E. lia.
  - intros Hne x (Hx1 & Hx2 & Hx3).
    assert (Hpos : 0 < n') by (unfold u_max in Hne; lia).
    assert (Hle : d + n' <= u_max 64).
    { assert (writes req (d + n' - 1)) as Hl by (apply Hwr; lia). apply Hend in Hl. lia. }
    rewrite (Z.min_r (u_max 64)) by lia. unfold touches, saturating_add. rewrite !Z.min_l by lia.
    rewrite andb_false_iff, !Z.ltb_ge. unfold range_of. split.
    + intros Hx a Ha. apply Hwr in Ha. lia.
    + intros Hx. destruct (decide (d < x.1 + x.2)), (decide (x.1 < d + n')); [|lia..].
      destruct (Hx (Z.max d x.1)); [apply Hwr|]; lia.
Qed.

(** Whatever the driver answers: the loop ends; once it has succeeded no range
    left in the worker's list has an address the request writes; ranges it
    writes nothing of stay, and none is added. *)
Theorem written_chunks_unshared req (st : State B) :
  request_ok req -> (forall a, writes req a -> a < u_max 64) -> Forall fits (shared_vmm_ranges (worker st)) ->
  let '(r, st') := cow_worker_vmm_written req st in
  shared_vmm_ranges (worker st') ⊆+ shared_vmm_ranges (worker st) /\
  (is_ok r = true -> forall x a, x ∈ shared_vmm_ranges (worker st') -> writes req a -> ~ range_of x a) /\
  (forall x, x ∈ shared_vmm_ranges (worker st) -> (forall a, writes req a -> ~ range_of x a) ->
     x ∈ shared_vmm_ranges (worker st')).
Proof.
  intros Hr Hend Hfit. pose proof (touches_writes req Hr Hend) as Hw.
  unfold cow_worker_vmm_written. destruct (written_range req) as [[d n]|].
  2: { split; [done|]. split; [intros _ x a _ Ha; by destruct (Hw a)|done]. }
  destruct Hw as [Hz Ht]. unfold cow_worker_vmm_range. destruct (n =? 0) eqn:En; bool_simpl.
  { split; [done|]. split; [|done]. intros _ x a _ Ha. by destruct (Hz En a). }
  unfold dbind, session, table.
  pose proof (cow_vmm_loop_spec (S (length (shared_vmm_ranges (worker st))))
    (if device_pinned (sess st) then device_base (sess st) else 0) d (saturating_add 64 d n) st ltac:(lia)) as H.
  destruct (cow_vmm_loop _ _ _ _ st) as [r st']. destruct H as (H1 & H2 & H3). specialize (Ht En).
  split; [done|]. split.
  - intros Hok x a Hx Ha. apply (Ht x); [|by apply H3|done].
    eapply (proj1 (Forall_forall _ _) Hfit), elem_of_submseteq; [exact Hx|done].
  - intros x Hx Hxa. apply H2; [done|]. apply Ht; [|done]. by apply (proj1 (Forall_forall _ _) Hfit).
Qed.
End Chunks.

(** ** A concrete clone *)

Definition sample_env : Env := MkEnv false (u_max 64) (fun s => s).
Definition no_arm {B} (_ : Request.Request) : D B Response.Response := dfail CUDA_ERROR_NOT_SUPPORTED.

(** A parent with a weight at 4096 and a scratch buffer at 8192. *)
Definition sample_gpu : CpuBackend := MkCpu 65536 (<[4096 := [1; 2; 3; 4]]> {[8192 := [9; 9]]}).
Definition sample_session (pending : Z) (shared : list (Z * Z)) : Session :=
  MkSession None None true ∅ ∅ ∅ ∅ 0 false ∅ ∅ ∅ ∅ (MkLayout ∅ ∅ 0) [] pending shared.
Definition sample_clone : State CpuBackend :=
  MkState (sample_session 7 []) (MkWorker [] [] None []) sample_gpu.

Lemma sample_good : cpu_good sample_gpu.
Proof.
  unfold sample_gpu. split; [|split; [|done]]; cbn [mem next_dptr].
  - intros d buf H. rewrite lookup_insert_Some, lookup_singleton_Some in H.
    destruct H as [[<- <-]|[_ [<- <-]]]; unfold len; cbn; lia.
  - intros d d' buf buf' H H'. rewrite lookup_insert_Some, lookup_singleton_Some in H, H'.
    destruct H as [[<- <-]|[_ [<- <-]]], H' as [[<- <-]|[_ [<- <-]]]; unfold len; cbn; lia.
Qed.

(** It fills the weight, reads it back, copies it over the scratch buffer. *)
Definition sample_program : list Request.Request :=
  [Request.MemsetD8 4096 7 3; Request.MemcpyDtoH 4096 4 0; Request.MemcpyDtoD 8192 4096 2;
   Request.MemcpyDtoH 8192 2 0; Request.MemFree 8192].

Lemma clone_isolated_witness :
  let '(r, st1) := isolate (Some [(4096, 4, true); (8192, 2, false)]) (Some []) false false sample_clone in
  let '(answers, st2) := run_requests sample_env no_arm sample_program st1 in
  answers = [(0, Response.Ok); (0, Response.Data [7; 7; 7; 4]); (0, Response.Ok);
             (0, Response.Data [7; 7]); (0, Response.Ok)] /\ mem sample_gpu ⊆ mem (gpu st2).
Proof.
  pose proof (clone_isolated (B := CpuBackend) sample_env no_arm (mem sample_gpu) {[4096]}
    [(4096, 4, true); (8192, 2, false)] [] false sample_clone sample_program) as H.
  destruct (isolate _ _ _ _ sample_clone) as [r st1] eqn:E1.
  destruct (run_requests _ _ _ st1) as [answers st2] eqn:E2.
  assert (Ha : answers = [(0, Response.Ok); (0, Response.Data [7; 7; 7; 4]); (0, Response.Ok);
             (0, Response.Data [7; 7]); (0, Response.Ok)]).
  { change answers with ((answers, st2).1). rewrite <- E2.
    replace st1 with (isolate (Some [(4096, 4, true); (8192, 2, false)]) (Some []) false false sample_clone).2
      by (by rewrite E1). vm_compute. reflexivity. }
  split; [done|]. apply H; clear H.
  - repeat split. done.
  - apply sample_good.
  - done.
  - split; [apply (bool_decide_unpack _); vm_compute; exact I|]. split; [|split; [|]].
    + intros p n f Hin. rewrite !elem_of_cons, elem_of_nil in Hin.
      destruct Hin as [E|[E|[]]]; inv E; (split; [set_solver|]); eexists; (split; [vm_compute; reflexivity|done]).
    + intros p n Hin. by apply elem_of_nil in Hin.
    + intros p buf Hp. cbn [mem sample_gpu] in Hp. rewrite lookup_insert_Some, lookup_singleton_Some in Hp.
      destruct Hp as [[<- <-]|[_ [<- <-]]]; (split; [done|set_solver]).
  - repeat constructor; done.
  - vm_compute. reflexivity.
  - rewrite Ha.
    assert (Hpt : forall l d n p size, l !! p = Some size -> p <= d < p + size -> 0 <= n -> d + n <= p + size -> points l d n)
      by (intros; by eexists _, _).
    repeat split; try (by eapply (Hpt _ _ _ 4096 4); vm_compute); try (by eapply (Hpt _ _ _ 8192 2); vm_compute);
      try (by eexists; vm_compute); set_solver.
Defined.

(** A device that refuses every allocation. *)
Definition out_of_memory : Backend CpuBackend := {|
  device_total_mem := Mem.device_total_mem;
  mem_get_info := Mem.mem_get_info;
  mem_alloc := fun _ b => (Err CUDA_ERROR_OUT_OF_MEMORY, b);
  mem_free := Mem.mem_free;
  mem_alloc_async := fun _ _ b => (Err CUDA_ERROR_OUT_OF_MEMORY, b);
  mem_alloc_from_pool_async := fun _ _ _ b => (Err CUDA_ERROR_OUT_OF_MEMORY, b);
  mem_free_async := Mem.mem_free_async;
  memcpy_htod := Mem.memcpy_htod;
  memcpy_dtoh := Mem.memcpy_dtoh;
  memcpy_dtod := Mem.memcpy_dtod;
  memcpy_dtod_async := Mem.memcpy_dtod_async;
  memset_d8 := Mem.memset_d8;
  memset_d8_async := Mem.memset_d8_async;
  memcpy_shm_htod := Mem.memcpy_shm_htod;
  memcpy_shm_dtoh := Mem.memcpy_shm_dtoh;
  hash_shm_range := Mem.hash_shm_range;
  memcpy_gpa_htod := Mem.memcpy_gpa_htod;
  memcpy_gpa_dtoh := Mem.memcpy_gpa_dtoh;
  hash_gpa_range := Mem.hash_gpa_range;
  ctx_synchronize := Mem.ctx_synchronize;
  mem_address_reserve := Mem.mem_address_reserve;
  mem_create := Mem.mem_create;
  mem_create_exportable := Mem.mem_create_exportable;
  mem_map := Mem.mem_map;
  mem_set_access := Mem.mem_set_access;
  mem_set_access_ro := Mem.mem_set_access_ro;
  mem_unmap := Mem.mem_unmap;
  mem_release := Mem.mem_release;
  mem_address_free := Mem.mem_address_free;
  mem_get_allocation_granularity := Mem.mem_get_allocation_granularity;
|}.

Definition sharing_clone : State CpuBackend :=
  MkState (sample_session 0 [(4096, 4)]) (MkWorker [] [] None []) sample_gpu.

Lemma full_device_hits_parent_witness :
  let '(ans, st') := @dispatch _ out_of_memory sample_env no_arm sharing_clone
                       (Request.MemcpyHtoD 4096 0 [5; 6]) in
  ans = (0, Response.Ok) /\ mem (gpu st') !! 4096 = Some [5; 6; 3; 4].
Proof.
  pose proof (@full_device_hits_parent CpuBackend out_of_memory sample_env no_arm sharing_clone 4096 4 0 0
    CUDA_ERROR_OUT_OF_MEMORY [5; 6] (cpu_write 4096 [5; 6] sample_gpu).2) as H.
  change (4096 + 0) with 4096 in H. destruct (dispatch _ _ _ _) as [ans st'].
  destruct H as (Ha & Hg & _); [by repeat split|lia|reflexivity|vm_compute; reflexivity|].
  split; [done|]. rewrite Hg. vm_compute. reflexivity.
Defined.

Lemma clone_frees_parent_witness :
  let '(ans, st') := dispatch sample_env no_arm sharing_clone (Request.MemFree 4096) in
  ans = (0, Response.Ok) /\ mem (gpu st') !! 4096 = None.
Proof.
  pose proof (clone_frees_parent sample_env no_arm sharing_clone 4096 4 [1; 2; 3; 4]) as H.
  destruct (dispatch _ _ _ _) as [ans st'].
  destruct H as (Ha & _ & Hg); [by repeat split|apply sample_good|vm_compute; reflexivity..|]. done.
Defined.

Lemma xlat_correct_witness :
  xlat (sort_trans [(8192, 16, 65536); (4096, 16, 32768)]) 4100 = 32772.
Proof.
  refine (eq_trans (xlat_correct [(8192, 16, 65536); (4096, 16, 32768)] 4100 _ _) eq_refl).
  - repeat (apply List.Forall_cons; [unfold entry_ok; lia|]). constructor.
  - intros i j x y Hij Hx Hy. unfold apart.
    destruct i as [|[|i]], j as [|[|j]]; try done; cbn in Hx, Hy; simplify_eq; cbn; lia.
Defined.

End MemProps.
