(* ===== verification/CudaVmm.v ===== *)
(** * Shared chunks of a clone worker

    A worker maps its parent's physical chunks at the parent's addresses. Before
    a request writes to such a chunk the host replaces it by a private one
    ([Mem.cow_worker_vmm_written]). [VmmLaws] states what the host relies on in
    the driver's virtual memory: addresses map to handles, handles hold bytes.
    Any call may fail. [written_chunks_private] shows that the replacement is a
    real one: other memory, at the same address, with the same bytes. *)

From S2P Require Import Prelude RustStr CudaProto CudaProtoFacts CudaMem CudaMemFacts CudaMemIso CudaMemProps.

Module Vmm.
Import Str Proto ProtoFacts Mem MemFacts Iso MemProps.

(** ** Virtual memory *)

(** [mapped] gives the size and the handle mapped at an address, [physical] the
    bytes of a handle, [retained] the handles another process refers to. *)
Class VmmLaws (B : Type) `{!Backend B} := {
  vmm_good : B -> Prop;
  mapped : B -> gmap Z (Z * Z);
  physical : B -> gmap Z bytes;
  retained : B -> gset Z;
  create_law b size device :
    vmm_good b -> 0 < size ->
    let '(r, b') := mem_create size device b in
    vmm_good b' /\ retained b' = retained b /\ mapped b' = mapped b /\
    match r with
    | Ok h => physical b !! h = None /\ exists buf, len buf = size /\ physical b' = <[h := buf]> (physical b)
    | Err _ => physical b' = physical b
    end;
  (** Memory goes with its last reference, a mapping being one. *)
  release_law b h :
    vmm_good b ->
    let '(r, b') := mem_release h b in
    vmm_good b' /\ retained b' = retained b /\ mapped b' = mapped b /\
    forall h' buf, physical b !! h' = Some buf ->
      h' <> h \/ h' ∈ retained b \/ (exists va size, mapped b !! va = Some (size, h')) ->
      physical b' !! h' = Some buf;
  unmap_law b va size h :
    vmm_good b -> mapped b !! va = Some (size, h) ->
    let '(r, b') := mem_unmap va size b in
    vmm_good b' /\ retained b' = retained b /\
    mapped b' = (if is_ok r then base.delete va (mapped b) else mapped b) /\
    forall h' buf, physical b !! h' = Some buf -> h' <> h \/ h' ∈ retained b -> physical b' !! h' = Some buf;
  map_law b va size h :
    vmm_good b -> mapped b !! va = None ->
    let '(r, b') := mem_map va size 0 h b in
    vmm_good b' /\ retained b' = retained b /\ physical b' = physical b /\
    mapped b' = (if is_ok r then <[va := (size, h)]> (mapped b) else mapped b);
  access_law b va size device :
    vmm_good b ->
    let '(r, b') := mem_set_access va size device b in
    vmm_good b' /\ retained b' = retained b /\ physical b' = physical b /\ mapped b' = mapped b;
  sync_law b :
    vmm_good b ->
    let '(r, b') := ctx_synchronize b in
    vmm_good b' /\ retained b' = retained b /\ physical b' = physical b /\ mapped b' = mapped b;
  read_law b va size h buf s :
    vmm_good b -> mapped b !! va = Some (size, h) -> physical b !! h = Some buf -> len buf = size ->
    let '(r, b') := memcpy_dtoh va size s b in
    vmm_good b' /\ retained b' = retained b /\ physical b' = physical b /\ mapped b' = mapped b /\
    forall data, r = Ok data -> data = buf;
  (** A failed write leaves any bytes behind. *)
  write_law b va h buf data s :
    vmm_good b -> mapped b !! va = Some (len data, h) -> physical b !! h = Some buf -> len buf = len data ->
    let '(r, b') := memcpy_htod va data s b in
    vmm_good b' /\ retained b' = retained b /\ mapped b' = mapped b /\
    exists buf', physical b' = <[h := buf']> (physical b) /\ (is_ok r = true -> buf' = data);
}.

(** ** Programs over the driver *)

Section Chunks.
Context {B : Type} `{!Backend B, !VmmLaws B}.

(** [m] from [st] ends with a result and a device that satisfy [Q]; the tables stay. *)
Definition ends {A} (m : D B A) (st : State B) (Q : CuResult A -> B -> Prop) : Prop :=
  let '(r, st') := m st in worker st' = worker st /\ sess st' = sess st /\ Q r (gpu st').

Definition on_dev (st : State B) (b : B) : State B := MkState (sess st) (worker st) b.
Lemma on_gpu st b : gpu (on_dev st b) = b.
Proof. done. Qed.

Lemma ends_ret {A} (x : A) st Q : Q (Ok x) (gpu st) -> ends (dret x) st Q.
Proof. done. Qed.
Lemma ends_drive {A} (f : B -> CuResult A * B) st Q :
  (let '(r, b') := f (gpu st) in Q r b') -> ends (drive f) st Q.
Proof. unfold ends, drive. by destruct (f (gpu st)). Qed.
Lemma ends_bind {A C} (m : D B A) (k : A -> D B C) st Q :
  ends m st (fun r b => match r with Ok x => ends (k x) (on_dev st b) Q | Err e => Q (Err e) b end) ->
  ends (dbind m k) st Q.
Proof.
  unfold ends, dbind, on_dev. destruct (m st) as [[x|e] [s w b]]; cbn; [|done]. intros (-> & -> & H). done.
Qed.
Lemma ends_on_error {A} (m : D B A) undo st Q :
  ends m st (fun r b => match r with
                        | Ok x => Q (Ok x) b
                        | Err e => ends undo (on_dev st b) (fun _ b => Q (Err e) b)
                        end) ->
  ends (on_error m undo) st Q.
Proof.
  unfold ends, on_error, on_dev. destruct (m st) as [[x|e] [s w b]]; cbn; [done|]. intros (-> & -> & H).
  by destruct (undo (MkState (sess st) (worker st) b)).
Qed.
Lemma ends_dropped {A} (m : D B A) st Q :
  ends m st (fun _ b => Q (Ok tt) b) -> ends (dropped m) st Q.
Proof. unfold ends, dropped. by destruct (m st). Qed.
Lemma ends_weaken {A} (m : D B A) st (Q Q' : CuResult A -> B -> Prop) :
  ends m st Q -> (forall r b, Q r b -> Q' r b) -> ends m st Q'.
Proof. unfold ends. destruct (m st). intros (? & ? & ?) Hi. auto. Qed.

(** ** Replacing one chunk *)

(** Everything that was on the device is on it still, and only the mapping at
    [base] may have changed. *)
Record framed (base : Z) (b b' : B) : Prop := {
  fr_good : vmm_good b';
  fr_retained : retained b' = retained b;
  fr_physical : physical b ⊆ physical b';
  fr_mapped va : va <> base -> mapped b' !! va = mapped b !! va;
}.

(** The chunk of [size] bytes at [base], retained by the parent. *)
Definition chunk (b : B) (base size : Z) (buf : bytes) : Prop :=
  exists h, mapped b !! base = Some (size, h) /\ h ∈ retained b /\ physical b !! h = Some buf /\ len buf = size.

(** Other memory than any of [b] is mapped there, with the bytes [buf]. *)
Definition replaced (b b' : B) (base size : Z) (buf : bytes) : Prop :=
  exists h, physical b !! h = None /\ mapped b' !! base = Some (size, h) /\ physical b' !! h = Some buf.

Lemma undo_framed b b1 base private (st : State B) :
  framed base b b1 -> physical b !! private = None ->
  ends (dropped (drive (mem_release private))) (on_dev st b1) (fun _ b2 => framed base b b2).
Proof.
  intros Hf Hp. apply ends_dropped, ends_drive. cbn [gpu on_dev]. destruct Hf as [Hg Hr Hph Hm].
  pose proof (release_law b1 private Hg) as Hl. destruct (mem_release private b1) as [r b2].
  destruct Hl as (Hg2 & Hr2 & Hm2 & Hk). split; [done|congruence| |by rewrite Hm2].
  apply map_subseteq_spec. intros h buf Hh. apply Hk; [by apply (lookup_weaken _ _ _ _ Hh)|left; congruence].
Qed.

(** A failure after which the new memory is released again. *)
Lemma fail_framed {A} (f : B -> CuResult A * B) b b1 base private (st : State B) (Q : CuResult A -> B -> Prop) :
  (let '(r, b2) := f b1 in framed base b b2 /\ forall x, r = Ok x -> Q (Ok x) b2) ->
  physical b !! private = None -> (forall e b', framed base b b' -> Q (Err e) b') ->
  ends (on_error (drive f) (dropped (drive (mem_release private)))) (on_dev st b1) Q.
Proof.
  intros Hf Hp Herr. apply ends_on_error, ends_drive. cbn [gpu on_dev]. destruct (f b1) as [[x|e] b2].
  - destruct Hf as [_ Hf]. by apply Hf.
  - destruct Hf as [Hf _]. eapply ends_weaken; [by apply (undo_framed b b2 base private st)|].
    intros r3 b3 Hf3. by apply Herr.
Qed.

(** The parent's memory is unmapped, the new memory mapped in its place. *)
Lemma swap_spec device base size private buf0 h (st : State B) b b3 (k : D B unit) Q :
  framed base b b3 -> physical b !! private = None -> physical b3 !! private = Some buf0 ->
  mapped b3 !! base = Some (size, h) -> h ∈ retained b3 -> private <> h ->
  (forall b7, framed base b b7 -> mapped b7 !! base = Some (size, private) ->
     physical b7 !! private = Some buf0 -> ends k (on_dev st b7) Q) ->
  (forall e b', framed base b b' -> Q (Err e) b') ->
  let undo := dropped (drive (mem_release private)) in
  ends (let% _ := on_error (drive (mem_unmap base size)) undo in
        let% _ := on_error (drive (mem_map base size 0 private)) undo in
        let% _ := on_error (drive (mem_set_access base size device)) undo in
        let% _ := undo in
        k) (on_dev st b3) Q.
Proof.
  intros [Hg3 Hr3 Hp3 Hm3] Hnew Hph3 Hmap3 Hret Hne Hk Herr undo.
  apply ends_bind, (fail_framed _ b b3 base private st); [|done|done].
  pose proof (unmap_law b3 base size h Hg3 Hmap3) as Hun.
  destruct (mem_unmap base size b3) as [r b4]; destruct Hun as (Hg4 & Hr4 & Hm4 & Hk4).
  assert (Hkeep : forall h' buf', physical b3 !! h' = Some buf' -> physical b4 !! h' = Some buf').
  { intros h' buf' Hh'. apply Hk4; [done|]. destruct (decide (h' = h)) as [->|]; [by right|by left]. }
  assert (Hf4 : framed base b b4).
  { split; [done|congruence| |].
    - apply map_subseteq_spec. intros h' buf' Hh'. by apply Hkeep, (lookup_weaken _ _ _ _ Hh').
    - intros va Hva. rewrite Hm4. destruct (is_ok r); rewrite ?lookup_delete_ne by done; by apply Hm3. }
  split; [done|]. intros u ->. cbn [is_ok] in Hm4.
  apply ends_bind, (fail_framed _ b b4 base private st); [|done|done].
  pose proof (map_law b4 base size private Hg4 ltac:(rewrite Hm4; apply lookup_delete_eq)) as Hmap.
  destruct (mem_map base size 0 private b4) as [r b5]; destruct Hmap as (Hg5 & Hr5 & Hp5 & Hm5).
  assert (Hf5 : framed base b b5).
  { split; [done|rewrite Hr5; apply Hf4|rewrite Hp5; apply Hf4|]. intros va Hva. rewrite Hm5.
    destruct (is_ok r); rewrite ?lookup_insert_ne by done; by apply Hf4. }
  split; [done|]. intros u2 ->. cbn [is_ok] in Hm5.
  apply ends_bind, (fail_framed _ b b5 base private st); [|done|done].
  pose proof (access_law b5 base size device Hg5) as Hac.
  destruct (mem_set_access base size device b5) as [r b6]; destruct Hac as (Hg6 & Hr6 & Hp6 & Hm6).
  assert (Hf6 : framed base b b6).
  { split; [done|rewrite Hr6; apply Hf5|rewrite Hp6; apply Hf5|intros; rewrite Hm6; by apply Hf5]. }
  split; [done|]. intros u3 ->.
  apply ends_bind, ends_dropped, ends_drive. cbn [gpu on_dev]. pose proof (release_law b6 private Hg6) as Hrel.
  destruct (mem_release private b6) as [r7 b7]; destruct Hrel as (Hg7 & Hr7 & Hm7 & Hk7).
  assert (Hmap6 : mapped b6 !! base = Some (size, private)) by (rewrite Hm6, Hm5; apply lookup_insert_eq).
  apply Hk; [|by rewrite Hm7|apply Hk7; [rewrite Hp6, Hp5; by apply Hkeep|right; right; eauto]].
  split; [done|rewrite Hr7; apply Hf6| |intros; rewrite Hm7; by apply Hf6].
  apply map_subseteq_spec. intros h' buf' Hh'. apply Hk7; [by apply (lookup_weaken _ _ _ _ Hh'), Hf6|left; congruence].
Qed.

(** The saved bytes are written to the new memory. *)
Lemma refill_spec base size buf private buf0 (st : State B) b b7 :
  framed base b b7 -> physical b !! private = None -> mapped b7 !! base = Some (size, private) ->
  physical b7 !! private = Some buf0 -> len buf0 = size -> len buf = size ->
  ends (let% _ := drive (memcpy_htod base buf 0) in drive ctx_synchronize) (on_dev st b7) (fun r b' =>
    framed base b b' /\ (is_ok r = true -> replaced b b' base size buf)).
Proof.
  intros Hf7 Hnew Hm Hp Hl0 Hl. apply ends_bind, ends_drive. cbn [gpu on_dev].
  pose proof (write_law b7 base private buf0 buf 0 (fr_good _ _ _ Hf7) ltac:(by rewrite Hl) Hp ltac:(lia)) as Hw.
  destruct (memcpy_htod base buf 0 b7) as [r b8]; destruct Hw as (Hg8 & Hr8 & Hm8 & buf' & Hp8 & Hbuf).
  assert (Hf8 : framed base b b8).
  { split; [done|rewrite Hr8; apply Hf7| |intros; rewrite Hm8; by apply Hf7].
    rewrite Hp8. apply insert_subseteq_r; [done|]. apply Hf7. }
  destruct r as [u4|e]; [|by split]. rewrite (Hbuf eq_refl) in Hp8.
  apply ends_drive. cbn [gpu on_dev]. pose proof (sync_law b8 Hg8) as Hs9.
  destruct (ctx_synchronize b8) as [r9 b9]; destruct Hs9 as (Hg9 & Hr9 & Hp9 & Hm9). split.
  - split; [done|rewrite Hr9; apply Hf8|rewrite Hp9; apply Hf8|intros; rewrite Hm9; by apply Hf8].
  - intros _. exists private. by rewrite Hm9, Hm8, Hp9, Hp8, lookup_insert_eq.
Qed.

Lemma replace_chunk_spec device base size buf (st : State B) :
  vmm_good (gpu st) -> 0 < size -> chunk (gpu st) base size buf ->
  ends (replace_chunk device base size) st (fun r b' =>
    framed base (gpu st) b' /\ (is_ok r = true -> replaced (gpu st) b' base size buf)).
Proof.
  intros Hg Hs (h & Hm & Hret & Hph & Hlen). set (b := gpu st) in *. unfold replace_chunk.
  apply ends_bind, ends_drive. fold b. pose proof (create_law b size device Hg Hs) as Hc.
  destruct (mem_create size device b) as [[private|e] b1]; destruct Hc as (Hg1 & Hr1 & Hm1 & Hp1).
  2: { split; [|done]. split; [done..|by rewrite Hp1|by rewrite Hm1]. }
  destruct Hp1 as (Hnew & buf0 & Hl0 & Hp1). assert (Hne : private <> h) by congruence.
  assert (Hph1 : physical b1 !! h = Some buf) by (rewrite Hp1, lookup_insert_ne by done; done).
  assert (Hf1 : framed base b b1).
  { split; [done..| |by rewrite Hm1]. rewrite Hp1. by apply insert_subseteq. }
  (* the bytes are read *)
  apply ends_bind, (fail_framed _ b b1 base private st); [|done|by split].
  pose proof (read_law b1 base size h buf 0 Hg1 ltac:(by rewrite Hm1) Hph1 Hlen) as Hread.
  destruct (memcpy_dtoh base size 0 b1) as [r b2]; destruct Hread as (Hg2 & Hr2 & Hp2 & Hm2 & Hdata).
  assert (Hf2 : framed base b b2).
  { split; [done|congruence|by rewrite Hp2; apply Hf1|intros; rewrite Hm2; by apply Hf1]. }
  split; [done|]. intros snapshot ->. rewrite (Hdata snapshot eq_refl). clear Hdata snapshot.
  apply ends_bind, (fail_framed _ b b2 base private st); [|done|by split].
  pose proof (sync_law b2 Hg2) as Hsync.
  destruct (ctx_synchronize b2) as [r b3]; destruct Hsync as (Hg3 & Hr3 & Hp3 & Hm3).
  assert (Hf3 : framed base b b3).
  { split; [done|congruence|rewrite Hp3; apply Hf2|intros; rewrite Hm3; by apply Hf2]. }
  split; [done|]. intros u ->.
  eapply (swap_spec device base size private buf0 h st b b3); [done..| | | |done| |by split].
  - rewrite Hp3, Hp2, Hp1. apply lookup_insert_eq.
  - by rewrite Hm3, Hm2, Hm1.
  - by rewrite Hr3, Hr2, Hr1.
  - intros b7 Hf7 Hm7 Hp7. by eapply refill_spec.
Qed.

(** ** All chunks a request writes *)

Definition starts (dptr write_end : Z) (ranges : list (Z * Z)) (va : Z) : Prop :=
  exists size, (va, size) ∈ ranges /\ touches dptr write_end (va, size) = true.

Definition chunks_ok (b : B) (ranges : list (Z * Z)) : Prop :=
  NoDup ranges.*1 /\ forall base size, (base, size) ∈ ranges -> 0 < size /\ exists buf, chunk b base size buf.

Lemma chunk_framed b b1 base base' size buf :
  framed base b b1 -> base' <> base -> chunk b base' size buf -> chunk b1 base' size buf.
Proof.
  intros [_ Hr Hp Hm] Hne (h & H1 & H2 & H3 & H4). exists h. rewrite Hm, Hr by done.
  split_and!; [done..| |done]. by apply (lookup_weaken _ _ _ _ H3).
Qed.

Lemma cow_vmm_loop_replaces fuel device dptr write_end : forall st : State B,
  vmm_good (gpu st) -> chunks_ok (gpu st) (shared_vmm_ranges (worker st)) ->
  (length (shared_vmm_ranges (worker st)) < fuel)%nat ->
  let '(r, st') := cow_vmm_loop fuel device dptr write_end st in
  physical (gpu st) ⊆ physical (gpu st') /\
  (forall va, ~ starts dptr write_end (shared_vmm_ranges (worker st)) va ->
     mapped (gpu st') !! va = mapped (gpu st) !! va) /\
  (is_ok r = true -> forall base size buf, (base, size) ∈ shared_vmm_ranges (worker st) ->
     touches dptr write_end (base, size) = true -> chunk (gpu st) base size buf ->
     replaced (gpu st) (gpu st') base size buf).
Proof.
  induction fuel as [|fuel IH]; intros st Hg [Hnd Hch] Hf; [lia|]. cbn [cow_vmm_loop]. unfold dbind at 1, table.
  set (ranges := shared_vmm_ranges (worker st)) in *.
  destruct (position (touches dptr write_end) ranges) as [i|] eqn:Ep.
  2: { split; [done|]. split; [done|]. intros _ base size buf Hin Ht.
       by rewrite (position_None _ _ _ Ep Hin) in Ht. }
  destruct (position_Some _ _ _ Ep) as ([base size] & Hi & Ht). rewrite Hi.
  assert (Hin : (base, size) ∈ ranges) by by eapply list_elem_of_lookup_2.
  pose proof (swap_remove_perm _ _ _ Hi) as Hperm. destruct (Hch base size Hin) as (Hs & buf & Hc).
  pose proof (replace_chunk_spec device base size buf st Hg Hs Hc) as Hrep. unfold ends in Hrep. unfold dbind at 1.
  destruct (replace_chunk device base size st) as [[u|e] st1]; destruct Hrep as (Hw & _ & Hfr & Hre).
  2: { split; [apply Hfr|]. split; [|done]. intros va Hva. apply Hfr. intros ->. apply Hva. by exists size. }
  unfold dbind, upd_worker. set (st2 := MkState _ _ _).
  assert (Hnd' := Hnd). rewrite Hperm in Hnd'. cbn [fmap list_fmap fst] in Hnd'. apply NoDup_cons in Hnd' as [Hnin Hnd'].
  assert (Hother : forall base' size', (base', size') ∈ swap_remove i ranges -> base' <> base /\ (base', size') ∈ ranges).
  { intros base' size' Hin'. split; [|rewrite Hperm; by right]. intros ->. apply Hnin, list_elem_of_fmap. by exists (base, size'). }
  specialize (IH st2 (fr_good _ _ _ Hfr)). destruct (cow_vmm_loop fuel device dptr write_end st2) as [r st'].
  destruct IH as (H1 & H2 & H3).
  { split; [done|]. intros base' size' Hin'. destruct (Hother _ _ Hin') as [Hne Hin2].
    destruct (Hch _ _ Hin2) as (Hs' & buf' & Hc'). split; [done|]. exists buf'. by eapply chunk_framed. }
  { cbn. apply Permutation_length in Hperm. cbn in Hperm. lia. }
  change (gpu st2) with (gpu st1) in *. change (shared_vmm_ranges (worker st2)) with (swap_remove i ranges) in *.
  split; [etrans; [apply Hfr|exact H1]|]. split.
  - intros va Hva. rewrite H2.
    + apply Hfr. intros ->. apply Hva. by exists size.
    + intros (size' & Hin' & Ht'). destruct (Hother _ _ Hin') as [_ Hin2]. apply Hva. by exists size'.
  - intros Hok base' size' buf' Hin' Ht' Hc'. rewrite Hperm in Hin'. apply elem_of_cons in Hin' as [E|Hin'].
    + inv E. destruct (Hre eq_refl) as (h & Hn & Hm1 & Hp1). exists h. split; [done|].
      assert (buf' = buf) as -> by (destruct Hc as (x & A1 & _ & A2 & _), Hc' as (y & B1 & _ & B2 & _); congruence).
      split; [|by apply (lookup_weaken _ _ _ _ Hp1)]. rewrite H2; [done|].
      intros (size2 & Hin2 & _). by destruct (Hother _ _ Hin2).
    + destruct (Hother _ _ Hin') as [Hne _].
      destruct (H3 Hok base' size' buf' Hin' Ht') as (h & Hn & Hm1 & Hp1); [by eapply chunk_framed|].
      exists h. split; [|done]. destruct (physical (gpu st) !! h) eqn:E; [|done].
      assert (physical (gpu st1) !! h = Some l) by (apply (lookup_weaken _ _ _ _ E), Hfr). congruence.
Qed.

(** C23: A worker's write never reaches its parent's
    memory. Let the worker's shared ranges be chunks that are mapped and that
    the parent retains. When a request is about to write, then, whatever calls
    of the driver fail on the way, every byte that was on the device is still
    there, and no mapping changes but those of the shared chunks the request
    writes into. If the host goes on with the request, each of these chunks has
    been replaced: at its address other memory is mapped than any that existed
    before, holding the bytes the chunk held, and the chunk has left the list of
    shared ranges; a chunk the request writes nothing of stays in the list, and
    none is added. The loop ends. (After a failure half way the worker may have
    lost the mapping of a chunk it was replacing; its request is refused.) *)
Theorem written_chunks_private req (st : State B) :
  request_ok req -> (forall a, writes req a -> a < u_max 64) ->
  Forall fits (shared_vmm_ranges (worker st)) ->
  vmm_good (gpu st) -> chunks_ok (gpu st) (shared_vmm_ranges (worker st)) ->
  let '(r, st') := cow_worker_vmm_written req st in
  let hit := fun x => exists a, writes req a /\ range_of x a in
  physical (gpu st) ⊆ physical (gpu st') /\
  (forall va, (forall size, (va, size) ∈ shared_vmm_ranges (worker st) -> ~ hit (va, size)) ->
     mapped (gpu st') !! va = mapped (gpu st) !! va) /\
  (is_ok r = true -> forall base size buf, (base, size) ∈ shared_vmm_ranges (worker st) -> hit (base, size) ->
     chunk (gpu st) base size buf ->
     replaced (gpu st) (gpu st') base size buf /\ (base, size) ∉ shared_vmm_ranges (worker st')) /\
  shared_vmm_ranges (worker st') ⊆+ shared_vmm_ranges (worker st) /\
  (forall x, x ∈ shared_vmm_ranges (worker st) -> ~ hit x -> x ∈ shared_vmm_ranges (worker st')).
Proof.
  intros Hr Hend Hfit Hg Hch. pose proof (touches_writes req Hr Hend) as Hw.
  pose proof (written_chunks_unshared req st Hr Hend Hfit) as Hl.
  destruct (cow_worker_vmm_written req st) as [r st'] eqn:E. destruct Hl as (L1 & L2 & L3). cbv zeta.
  enough (physical (gpu st) ⊆ physical (gpu st') /\
    (forall va, (forall size, (va, size) ∈ shared_vmm_ranges (worker st) ->
        ~ exists a, writes req a /\ range_of (va, size) a) -> mapped (gpu st') !! va = mapped (gpu st) !! va) /\
    (is_ok r = true -> forall base size buf, (base, size) ∈ shared_vmm_ranges (worker st) ->
       (exists a, writes req a /\ range_of (base, size) a) -> chunk (gpu st) base size buf ->
       replaced (gpu st) (gpu st') base size buf)) as (H1 & H2 & H3).
  { split_and!; [done|done| |done|].
    - intros Hok base size buf Hin (a & Ha & Hra) Hc. split; [by eapply H3; eauto|]. intros Hin'. by eapply L2.
    - intros x Hx Hn. apply L3; [done|]. intros a Ha Hra. apply Hn. by exists a. }
  clear L1 L2 L3. unfold cow_worker_vmm_written in E. destruct (written_range req) as [[d n]|].
  2: { inv E. split_and!; [done..|]. intros _ base size buf _ (a & Ha & _). by destruct (Hw a). }
  destruct Hw as [Hz Ht]. unfold cow_worker_vmm_range in E. destruct (n =? 0) eqn:En; bool_simpl.
  { inv E. split_and!; [done..|]. intros _ base size buf _ (a & Ha & _). by destruct (Hz eq_refl a). }
  unfold dbind, session, table in E. specialize (Ht En).
  pose proof (cow_vmm_loop_replaces (S (length (shared_vmm_ranges (worker st))))
    (if device_pinned (sess st) then device_base (sess st) else 0) d (saturating_add 64 d n) st Hg Hch ltac:(lia)) as H.
  rewrite E in H. destruct H as (H1 & H2 & H3). split; [done|]. split.
  - intros va Hva. apply H2. intros (size & Hin & Htt).
    rewrite (proj2 (Ht (va, size) (proj1 (Forall_forall _ _) Hfit _ Hin))) in Htt; [done|].
    intros a Ha Hra. apply (Hva size Hin). by exists a.
  - intros Hok base size buf Hin (a & Ha & Hra). apply H3; [done..|].
    destruct (touches d (saturating_add 64 d n) (base, size)) eqn:Et; [done|].
    exfalso. by eapply (proj1 (Ht _ (proj1 (Forall_forall _ _) Hfit _ Hin)) Et).
Qed.

End Chunks.

(** ** A concrete virtual memory *)

Record VDev := MkVDev { v_next : Z; v_map : gmap Z (Z * Z); v_phys : gmap Z bytes; v_pins : gset Z }.

Definition refused {A} (b : VDev) : CuResult A * VDev := (Err CUDA_ERROR_NOT_SUPPORTED, b).
Definition is_mapped (h : Z) (b : VDev) : bool := existsb (fun e => e.2.2 =? h) (map_to_list (v_map b)).

Definition v_create (size : Z) (b : VDev) : CuResult Z * VDev :=
  (Ok (v_next b), MkVDev (v_next b + 1) (v_map b) (<[v_next b := replicate (Z.to_nat size) 0]> (v_phys b)) (v_pins b)).
Definition v_release (h : Z) (b : VDev) : CuResult unit * VDev :=
  if bool_decide (h ∈ v_pins b) || is_mapped h b then (Ok tt, b)
  else (Ok tt, MkVDev (v_next b) (v_map b) (base.delete h (v_phys b)) (v_pins b)).
Definition v_unmap (va : Z) (b : VDev) : CuResult unit * VDev :=
  (Ok tt, MkVDev (v_next b) (base.delete va (v_map b)) (v_phys b) (v_pins b)).
Definition v_mmap (va size h : Z) (b : VDev) : CuResult unit * VDev :=
  match v_map b !! va with
  | Some _ => refused b
  | None => (Ok tt, MkVDev (v_next b) (<[va := (size, h)]> (v_map b)) (v_phys b) (v_pins b))
  end.
Definition v_read (va n : Z) (b : VDev) : CuResult bytes * VDev :=
  match v_map b !! va with
  | Some (size, h) => if size =? n then (Ok (default [] (v_phys b !! h)), b) else refused b
  | None => refused b
  end.
Definition v_write (va : Z) (data : bytes) (b : VDev) : CuResult unit * VDev :=
  match v_map b !! va with
  | Some (size, h) =>
      if size =? len data then (Ok tt, MkVDev (v_next b) (v_map b) (<[h := data]> (v_phys b)) (v_pins b)) else refused b
  | None => refused b
  end.

#[global] Instance v_backend : Backend VDev := {|
  device_total_mem _ := refused; mem_get_info := refused; mem_alloc _ := refused; mem_free _ := refused;
  mem_alloc_async _ _ := refused; mem_alloc_from_pool_async _ _ _ := refused; mem_free_async _ _ := refused;
  memcpy_htod va data _ := v_write va data; memcpy_dtoh va n _ := v_read va n;
  memcpy_dtod _ _ _ := refused; memcpy_dtod_async _ _ _ _ := refused;
  memset_d8 _ _ _ := refused; memset_d8_async _ _ _ _ := refused;
  memcpy_shm_htod _ _ _ _ := refused; memcpy_shm_dtoh _ _ _ _ := refused; hash_shm_range _ _ _ b := (None, b);
  memcpy_gpa_htod _ _ _ := refused; memcpy_gpa_dtoh _ _ _ := refused; hash_gpa_range _ _ _ b := (None, b);
  ctx_synchronize b := (Ok tt, b); mem_address_reserve _ _ := refused;
  mem_create size _ := v_create size; mem_create_exportable size _ := v_create size;
  mem_map va size _ h := v_mmap va size h; mem_set_access _ _ _ b := (Ok tt, b); mem_set_access_ro _ _ _ b := (Ok tt, b);
  mem_unmap va _ := v_unmap va; mem_release := v_release; mem_address_free _ _ := refused;
  mem_get_allocation_granularity _ _ := refused;
|}.

Definition v_good (b : VDev) : Prop := forall h, is_Some (v_phys b !! h) -> h < v_next b.

Lemma v_release_law b h :
  v_good b ->
  let '(r, b') := v_release h b in
  v_good b' /\ v_pins b' = v_pins b /\ v_map b' = v_map b /\
  forall h' buf, v_phys b !! h' = Some buf ->
    h' <> h \/ h' ∈ v_pins b \/ (exists va size, v_map b !! va = Some (size, h')) -> v_phys b' !! h' = Some buf.
Proof.
  intros Hg. unfold v_release. destruct (bool_decide (h ∈ v_pins b) || is_mapped h b) eqn:E; [done|].
  apply orb_false_iff in E as [E1 E2]. apply bool_decide_eq_false in E1. split_and!; [|done..|].
  - intros x [buf Hx]. apply Hg. cbn in Hx. apply lookup_delete_Some in Hx as [_ Hx]. eauto.
  - intros h' buf Hh Hor. cbn. apply lookup_delete_Some. split; [|done]. intros <-.
    destruct Hor as [|[|(va & size & Hm)]]; [done..|].
    assert (is_mapped h b = true); [|congruence]. apply existsb_exists. exists (va, (size, h)).
    split; [|apply Z.eqb_refl]. by apply list_elem_of_In, elem_of_map_to_list.
Qed.

#[global, refine] Instance v_laws : VmmLaws VDev := {|
  vmm_good := v_good; mapped := v_map; physical := v_phys; retained := v_pins;
|}.
Proof.
  - intros b size device Hg Hs. cbn. split_and!; [|done..| |].
    + intros h [buf Hh]. cbn in *. apply lookup_insert_Some in Hh as [[<- _]|[_ Hh]]; [lia|].
      pose proof (Hg h (ex_intro _ _ Hh)). lia.
    + destruct (v_phys b !! v_next b) eqn:E; [|done]. pose proof (Hg _ (ex_intro _ _ E)). lia.
    + eexists. split; [|reflexivity]. unfold len. rewrite length_replicate. lia.
  - exact v_release_law.
  - intros b va size h Hg Hm. cbn. split_and!; [done..|]. auto.
  - intros b va size h Hg Hm. cbn. unfold v_mmap. by rewrite Hm.
  - intros b va size device Hg. by cbn.
  - intros b Hg. by cbn.
  - intros b va size h buf s Hg Hm Hp Hl. cbn. unfold v_read. rewrite Hm, Z.eqb_refl, Hp. cbn.
    split_and!; [done..|]. intros data E. by inv E.
  - intros b va h buf data s Hg Hm Hp Hl. cbn. unfold v_write. rewrite Hm, Z.eqb_refl. cbn. split_and!; [|done..|].
    + intros x [bx Hx]. cbn in *. apply lookup_insert_Some in Hx as [[<- _]|[_ Hx]]; apply Hg; eauto.
    + by exists data.
Defined.

(** A worker that shares two chunks of its parent and fills part of the first. *)
Definition parent_bytes : bytes := [1; 2; 3; 4; 5; 6; 7; 8].
Definition worker_dev : VDev :=
  MkVDev 3 (<[40 := (8, 1)]> {[100 := (2, 2)]}) (<[1 := parent_bytes]> {[2 := [9; 9]]}) {[1; 2]}.
Definition worker_state : State VDev :=
  MkState (sample_session 0 []) (MkWorker [(40, 8); (100, 2)] [] None []) worker_dev.

Lemma written_chunks_private_witness :
  let '(r, st') := cow_worker_vmm_written (Request.MemsetD8 44 7 10) worker_state in
  r = Ok tt /\ replaced worker_dev (gpu st') 40 8 parent_bytes /\ mapped (gpu st') !! 100 = Some (2, 2) /\
  (40, 8) ∉ shared_vmm_ranges (worker st').
Proof.
  pose proof (written_chunks_private (Request.MemsetD8 44 7 10) worker_state) as H.
  destruct (cow_worker_vmm_written _ _) as [r st'] eqn:E.
  assert (Er : r = Ok tt).
  { change r with (r, st').1. rewrite <- E. vm_compute. reflexivity. }
  assert (Hc1 : chunk worker_dev 40 8 parent_bytes).
  { exists 1. split_and!; [reflexivity|set_solver|reflexivity|reflexivity]. }
  destruct H as (_ & Hm & Hre & _).
  - repeat split; vm_compute; congruence.
  - cbn. unfold u_max. lia.
  - repeat constructor; cbn; unfold u_max; lia.
  - intros h [buf Hh]. cbn in Hh. rewrite lookup_insert_Some, lookup_singleton_Some in Hh. cbn. lia.
  - split; [apply (bool_decide_unpack _); vm_compute; exact I|]. intros base size Hin. cbn in Hin.
    rewrite !elem_of_cons, elem_of_nil in Hin. destruct Hin as [Ei|[Ei|[]]]; inv Ei; (split; [lia|]); [by exists parent_bytes|].
    exists [9; 9], 2. split_and!; [reflexivity|set_solver|reflexivity|reflexivity].
  - destruct (Hre ltac:(by rewrite Er) 40 8 parent_bytes) as [H1 H2]; [set_solver| |done|].
    { exists 44. cbn. unfold range_of. cbn. lia. }
    split_and!; [done|done| |done]. rewrite Hm; [reflexivity|]. intros size Hin (a & Ha & Hra). cbn in Hin.
    rewrite !elem_of_cons, elem_of_nil in Hin. destruct Hin as [Ei|[Ei|[]]]; inv Ei. cbn in Ha. unfold range_of in Hra. cbn in Hra. lia.
Defined.

End Vmm.
