(* ===== verification/CudaApi.v ===== *)
(** * The client's methods

    The public methods of [Client] in [crates/smolvm-cuda/src/client.rs], one
    definition each: the request a method sends, whether it waits for the
    answer ([call]) or not ([call_deferred]), and what it takes from the
    response. A floating-point argument or result is its bits. *)

From S2P Require Import Prelude RustStr CudaProto CudaPipe.

Module Api.
Import Str Proto Pipe.
Open Scope cuda_scope.

(** ** What a method takes from a response *)

Definition done_of (r : Response.Response) : option unit := Some tt.
Definition count_of (r : Response.Response) : option Z :=
  match r with Response.Count n => Some n | _ => None end.
Definition name_of (r : Response.Response) : option bytes :=
  match r with Response.Name s => Some s | _ => None end.
Definition bytes_of (r : Response.Response) : option Z :=
  match r with Response.Bytes v => Some v | _ => None end.
Definition handle_of (r : Response.Response) : option Z :=
  match r with Response.Handle h => Some h | _ => None end.
Definition dptr_of (r : Response.Response) : option Z :=
  match r with Response.Dptr d => Some d | _ => None end.
Definition data_of (r : Response.Response) : option bytes :=
  match r with Response.Data d => Some d | _ => None end.
Definition pair_of (r : Response.Response) : option (Z * Z) :=
  match r with Response.Pair a b => Some (a, b) | _ => None end.
Definition millis_of (r : Response.Response) : option Z :=
  match r with Response.Millis ms => Some ms | _ => None end.
Definition lib_of (r : Response.Response) : option (Z * bytes) :=
  match r with Response.LibResult status out => Some (status, out) | _ => None end.

(** Bulk copies are cut into pieces of this size. *)
Definition CHUNK : Z := 64 * 1024 * 1024.

(** [slice::chunks(n)]. *)
Fixpoint chunks_from (fuel : nat) (n : Z) (l : bytes) : list bytes :=
  match fuel with
  | O => []
  | S fuel =>
      if is_empty l then [] else
      if len l <=? n then [l] else slice l 0 n :: chunks_from fuel n (slice l n (len l))
  end.
Definition chunks (n : Z) (l : bytes) : list bytes := chunks_from (length l) n l.

(** The little-endian words of [w] bytes in a byte string. *)
Fixpoint words_from (fuel : nat) (w : Z) (l : bytes) : list Z :=
  match fuel with
  | O => []
  | S fuel => if len l <? w then [] else from_le (slice l 0 w) :: words_from fuel w (slice l w (len l))
  end.
Definition words (w : Z) (l : bytes) : list Z := words_from (length l) w l.

Section Methods.
Context {Sess : Type}.
Variable dispatch : Sess -> Request.Request -> (Z * Response.Response) * Sess.
Variable ring_map : Sess -> Request.Request -> option Z.
Variable sync_forced : Request.Request -> Op.Op -> bool.
(** The hash of the protocol's source, which the build computes. *)
Variable PROTO_HASH : Z.

Notation C := (C Sess).
Notation call := (call dispatch ring_map).
Notation call_deferred := (call_deferred dispatch ring_map sync_forced).

(** [_ => Err(CudaRpcError::Protocol(msg))]. *)
Definition expect {A} (o : option A) (msg : string) : C A :=
  match o with Some x => cret x | None => cfail (Protocol msg) end.

(** ** One request, one answer *)

Definition device_get_count : C Z :=
  let@ r := call Request.DeviceGetCount Op.DeviceGetCount in
  expect (count_of r) "expected Count".
Definition device_get_name (device : Z) : C bytes :=
  let@ r := call (Request.DeviceGetName device) Op.DeviceGetName in
  expect (name_of r) "expected Name".
Definition device_get_pci_bus_id (device : Z) : C bytes :=
  let@ r := call (Request.DeviceGetPciBusId device) Op.DeviceGetPciBusId in
  expect (name_of r) "expected Name".
Definition device_get_by_pci_bus_id (pci_bus_id : bytes) : C Z :=
  let@ r := call (Request.DeviceGetByPciBusId pci_bus_id) Op.DeviceGetByPciBusId in
  expect (count_of r) "expected Count".
Definition device_can_access_peer (device peer : Z) : C Z :=
  let@ r := call (Request.DeviceCanAccessPeer device peer) Op.DeviceCanAccessPeer in
  expect (count_of r) "expected Count".
Definition device_enable_peer_access (peer flags : Z) : C unit :=
  let@ _ := call (Request.DeviceEnablePeerAccess peer flags) Op.DeviceEnablePeerAccess in cret tt.
Definition device_disable_peer_access (peer : Z) : C unit :=
  let@ _ := call (Request.DeviceDisablePeerAccess peer) Op.DeviceDisablePeerAccess in cret tt.
Definition device_total_mem (device : Z) : C Z :=
  let@ r := call (Request.DeviceTotalMem device) Op.DeviceTotalMem in
  expect (bytes_of r) "expected Bytes".
Definition ctx_create (device : Z) : C Z :=
  let@ r := call (Request.CtxCreate device) Op.CtxCreate in
  expect (handle_of r) "expected Handle".
Definition ctx_destroy (ctx : Z) : C unit :=
  let@ _ := call (Request.CtxDestroy ctx) Op.CtxDestroy in cret tt.
Definition ctx_set_current (ctx : Z) : C unit :=
  call_deferred (Request.CtxSetCurrent ctx) Op.CtxSetCurrent.
Definition module_get_function (module_ : Z) (name : bytes) : C Z :=
  let@ r := call (Request.ModuleGetFunction module_ name) Op.ModuleGetFunction in
  expect (handle_of r) "expected Handle".
Definition mem_alloc (nbytes : Z) : C Z :=
  let@ r := call (Request.MemAlloc nbytes) Op.MemAlloc in
  expect (dptr_of r) "expected Dptr".
Definition mem_free (dptr : Z) : C unit :=
  call_deferred (Request.MemFree dptr) Op.MemFree.
Definition mem_pool_create (alloc_type handle_types location_type location_id max_size usage : Z)
    : C Z :=
  let@ r := call (Request.MemPoolCreate alloc_type handle_types location_type location_id max_size
    usage) Op.MemPoolCreate in
  expect (handle_of r) "expected Handle".
Definition mem_pool_destroy (pool : Z) : C unit :=
  let@ _ := call (Request.MemPoolDestroy pool) Op.MemPoolDestroy in cret tt.
Definition mem_pool_set_attribute (pool attr value : Z) : C unit :=
  let@ _ := call (Request.MemPoolSetAttribute pool attr value) Op.MemPoolSetAttribute in cret tt.
Definition mem_pool_get_attribute (pool attr : Z) : C Z :=
  let@ r := call (Request.MemPoolGetAttribute pool attr) Op.MemPoolGetAttribute in
  expect (bytes_of r) "expected Bytes".
Definition mem_pool_set_access (pool : Z) (descriptors : list (Z * Z * Z)) : C unit :=
  let@ _ := call (Request.MemPoolSetAccess pool descriptors) Op.MemPoolSetAccess in cret tt.
Definition mem_pool_get_access (pool location_type location_id : Z) : C Z :=
  let@ r := call (Request.MemPoolGetAccess pool location_type location_id) Op.MemPoolGetAccess in
  expect (bytes_of r) "expected Bytes".
Definition mem_pool_trim_to (pool min_bytes : Z) : C unit :=
  let@ _ := call (Request.MemPoolTrimTo pool min_bytes) Op.MemPoolTrimTo in cret tt.
Definition mem_alloc_from_pool_async (nbytes pool stream : Z) : C Z :=
  let@ r := call (Request.MemAllocFromPoolAsync nbytes pool stream) Op.MemAllocFromPoolAsync in
  expect (dptr_of r) "expected Dptr".
Definition mem_alloc_async (nbytes stream : Z) : C Z :=
  let@ r := call (Request.MemAllocAsync nbytes stream) Op.MemAllocAsync in
  expect (dptr_of r) "expected Dptr".
Definition mem_free_async (dptr stream : Z) : C unit :=
  call_deferred (Request.MemFreeAsync dptr stream) Op.MemFreeAsync.
Definition device_get_default_mem_pool (device : Z) : C Z :=
  let@ r := call (Request.DeviceGetDefaultMemPool device) Op.DeviceGetDefaultMemPool in
  expect (handle_of r) "expected Handle".
Definition device_get_mem_pool (device : Z) : C Z :=
  let@ r := call (Request.DeviceGetMemPool device) Op.DeviceGetMemPool in
  expect (handle_of r) "expected Handle".
Definition device_set_mem_pool (device pool : Z) : C unit :=
  let@ _ := call (Request.DeviceSetMemPool device pool) Op.DeviceSetMemPool in cret tt.
Definition launch_kernel (function_ : Z) (grid block : Z * Z * Z) (shared_bytes stream : Z)
    (params : list bytes) : C unit :=
  call_deferred (Request.LaunchKernel function_ grid block shared_bytes stream params)
    Op.LaunchKernel.
Definition launch_kernel_packed (function_ : Z) (grid block : Z * Z * Z) (shared_bytes stream : Z)
    (args : bytes) : C unit :=
  call_deferred (Request.LaunchKernelPacked function_ grid block shared_bytes stream args)
    Op.LaunchKernelPacked.
Definition host_get_device_pointer (source address : Z) : C Z :=
  let@ r := call (Request.HostGetDevicePointer source address) Op.HostGetDevicePointer in
  expect (handle_of r) "expected Handle".
Definition thread_exchange_capture_mode (mode : Z) : C Z :=
  let@ r := call (Request.ThreadExchangeCaptureMode mode) Op.ThreadExchangeCaptureMode in
  expect (count_of r) "expected Count".
Definition stream_begin_capture (stream mode : Z) : C unit :=
  let@ _ := call (Request.StreamBeginCapture stream mode) Op.StreamBeginCapture in cret tt.
Definition stream_begin_capture_deferred (stream mode : Z) : C unit :=
  call_deferred (Request.StreamBeginCapture stream mode) Op.StreamBeginCapture.
Definition stream_end_capture (stream graph_vh : Z) : C Z :=
  let@ r := call (Request.StreamEndCapture stream graph_vh) Op.StreamEndCapture in
  expect ('(_, node_count) ← pair_of r; Some node_count) "expected Pair".
Definition stream_capture_info (stream : Z) : C (Z * Z) :=
  let@ r := call (Request.StreamCaptureInfo stream) Op.StreamCaptureInfo in
  expect (pair_of r) "expected Pair".
Definition graph_instantiate_deferred (graph exec_vh : Z) : C unit :=
  call_deferred (Request.GraphInstantiate graph exec_vh) Op.GraphInstantiate.
Definition graph_instantiate (graph exec_vh : Z) : C unit :=
  let@ r := call (Request.GraphInstantiate graph exec_vh) Op.GraphInstantiate in
  expect (_ ← handle_of r; Some tt) "expected Handle".
Definition graph_launch (graph_exec stream : Z) : C unit :=
  call_deferred (Request.GraphLaunch graph_exec stream) Op.GraphLaunch.
Definition graph_exec_update (graph_exec graph : Z) : C Z :=
  let@ r := call (Request.GraphExecUpdate graph_exec graph) Op.GraphExecUpdate in
  expect (count_of r) "expected Count".
Definition graph_get_node_count (graph : Z) : C Z :=
  let@ r := call (Request.GraphGetNodes graph) Op.GraphGetNodes in
  expect (bytes_of r) "expected Bytes".
Definition graph_exec_destroy (graph_exec : Z) : C unit :=
  call_deferred (Request.GraphExecDestroy graph_exec) Op.GraphExecDestroy.
Definition graph_destroy (graph : Z) : C unit :=
  call_deferred (Request.GraphDestroy graph) Op.GraphDestroy.
Definition memset_d8_async (dptr value nbytes stream : Z) : C unit :=
  call_deferred (Request.MemsetD8Async dptr value nbytes stream) Op.MemsetD8Async.
Definition memcpy_dtod_async (dst src nbytes stream : Z) : C unit :=
  call_deferred (Request.MemcpyDtoDAsync dst src nbytes stream) Op.MemcpyDtoDAsync.
Definition memcpy_peer_async (dst dst_device src src_device nbytes stream : Z) : C unit :=
  call_deferred (Request.MemcpyPeerAsync dst dst_device src src_device nbytes stream)
    Op.MemcpyPeerAsync.
Definition ipc_open_mem_handle (handle : bytes) (flags : Z) : C Z :=
  let@ r := call (Request.IpcOpenMemHandle handle flags) Op.IpcOpenMemHandle in
  expect (dptr_of r) "bad IPC memory pointer".
Definition ipc_close_mem_handle (dptr : Z) : C unit :=
  let@ _ := call (Request.IpcCloseMemHandle dptr) Op.IpcCloseMemHandle in cret tt.
Definition ipc_open_event_handle (handle : bytes) : C Z :=
  let@ r := call (Request.IpcOpenEventHandle handle) Op.IpcOpenEventHandle in
  expect (handle_of r) "bad IPC event".
Definition ctx_get_stream_priority_range : C (Z * Z) :=
  let@ r := call Request.CtxGetStreamPriorityRange Op.CtxGetStreamPriorityRange in
  expect ('(least, greatest) ← pair_of r; Some (as_i32 (wrap 32 least), as_i32 (wrap 32 greatest))) "expected Pair".
Definition driver_get_version : C Z :=
  let@ r := call Request.DriverGetVersion Op.DriverGetVersion in
  expect (count_of r) "expected Count".
Definition device_get_attribute (attrib device : Z) : C Z :=
  let@ r := call (Request.DeviceGetAttribute attrib device) Op.DeviceGetAttribute in
  expect (count_of r) "expected Count".
Definition primary_ctx_retain (device : Z) : C Z :=
  let@ r := call (Request.PrimaryCtxRetain device) Op.PrimaryCtxRetain in
  expect (handle_of r) "expected Handle".
Definition primary_ctx_release (device : Z) : C unit :=
  let@ _ := call (Request.PrimaryCtxRelease device) Op.PrimaryCtxRelease in cret tt.
Definition module_unload (module_ : Z) : C unit :=
  let@ _ := call (Request.ModuleUnload module_) Op.ModuleUnload in cret tt.
Definition func_get_attribute (function_ attrib : Z) : C Z :=
  let@ r := call (Request.FuncGetAttribute function_ attrib) Op.FuncGetAttribute in
  expect (count_of r) "expected Count".
Definition func_set_attribute (function_ attrib value : Z) : C unit :=
  let@ _ := call (Request.FuncSetAttribute function_ attrib value) Op.FuncSetAttribute in cret tt.
Definition memcpy_dtod (dst src nbytes : Z) : C unit :=
  let@ _ := call (Request.MemcpyDtoD dst src nbytes) Op.MemcpyDtoD in cret tt.
Definition memset_d8 (dptr value nbytes : Z) : C unit :=
  call_deferred (Request.MemsetD8 dptr value nbytes) Op.MemsetD8.
Definition mem_get_info : C (Z * Z) :=
  let@ r := call Request.MemGetInfo Op.MemGetInfo in
  expect (pair_of r) "expected Pair".
Definition stream_create (flags : Z) : C Z :=
  let@ r := call (Request.StreamCreate flags) Op.StreamCreate in
  expect (handle_of r) "expected Handle".
Definition stream_destroy (stream : Z) : C unit :=
  let@ _ := call (Request.StreamDestroy stream) Op.StreamDestroy in cret tt.
Definition stream_query (stream : Z) : C Z :=
  let@ r := call (Request.StreamQuery stream) Op.StreamQuery in
  expect (count_of r) "expected Count".
Definition stream_wait_event (stream event flags : Z) : C unit :=
  call_deferred (Request.StreamWaitEvent stream event flags) Op.StreamWaitEvent.
Definition event_query (event : Z) : C Z :=
  let@ r := call (Request.EventQuery event) Op.EventQuery in
  expect (count_of r) "expected Count".
Definition event_create (flags : Z) : C Z :=
  let@ r := call (Request.EventCreate flags) Op.EventCreate in
  expect (handle_of r) "expected Handle".
Definition event_destroy (event : Z) : C unit :=
  call_deferred (Request.EventDestroy event) Op.EventDestroy.
Definition event_record (event stream : Z) : C unit :=
  call_deferred (Request.EventRecord event stream) Op.EventRecord.
Definition event_synchronize (event : Z) : C unit :=
  let@ _ := call (Request.EventSynchronize event) Op.EventSynchronize in cret tt.
Definition event_elapsed_time (start end_ : Z) : C Z :=
  let@ r := call (Request.EventElapsedTime start end_) Op.EventElapsedTime in
  expect (millis_of r) "expected Millis".
Definition nvcomp_deflate_temp_size (num_chunks max_uncompressed_chunk_bytes
    max_total_uncompressed_bytes : Z) : C (Z * Z) :=
  let@ r := call (Request.NvcompDeflateTempSize num_chunks max_uncompressed_chunk_bytes
    max_total_uncompressed_bytes) Op.NvcompDeflateTempSize in
  expect ('(st, tb) ← pair_of r; Some (as_i32 (wrap 32 st), tb)) "expected Pair".
Definition nvcomp_deflate_decompress (device_compressed_ptrs device_compressed_bytes
    device_uncompressed_bytes device_actual_uncompressed_bytes batch_size device_temp temp_bytes
    device_uncompressed_ptrs device_statuses stream : Z) : C Z :=
  let@ r := call (Request.NvcompDeflateDecompress device_compressed_ptrs device_compressed_bytes
    device_uncompressed_bytes device_actual_uncompressed_bytes batch_size device_temp temp_bytes
    device_uncompressed_ptrs device_statuses stream) Op.NvcompDeflateDecompress in
  expect (count_of r) "expected Count".
Definition cublas_create : C Z :=
  let@ r := call Request.CublasCreate Op.CublasCreate in
  expect (handle_of r) "expected Handle".
Definition cublas_destroy (handle : Z) : C unit :=
  let@ _ := call (Request.CublasDestroy handle) Op.CublasDestroy in cret tt.
Definition cublas_set_stream (handle stream : Z) : C unit :=
  let@ _ := call (Request.CublasSetStream handle stream) Op.CublasSetStream in cret tt.
Definition cublas_sgemm (handle transa transb m n k alpha a lda b ldb beta c ldc : Z) : C unit :=
  let@ _ := call (Request.CublasSgemm handle transa transb m n k alpha a lda b ldb beta c ldc)
    Op.CublasSgemm in cret tt.
Definition lib_call (lib func : Z) (args : bytes) : C (Z * bytes) :=
  let@ r := call (Request.LibCall lib func args) Op.LibCall in
  expect (lib_of r) "expected LibResult".
Definition mem_address_reserve (size align : Z) : C Z :=
  let@ r := call (Request.MemAddressReserve size align) Op.MemAddressReserve in
  expect (dptr_of r) "expected Dptr".
Definition mem_create (size device : Z) : C Z :=
  let@ r := call (Request.MemCreate size device) Op.MemCreate in
  expect (handle_of r) "expected Handle".
Definition mem_create_vh (size device handle_vh : Z) : C unit :=
  call_deferred (Request.MemCreateVh size device handle_vh) Op.MemCreateVh.
Definition mem_map_quiet (va size offset handle : Z) : C unit :=
  call_deferred (Request.MemMap va size offset handle) Op.MemMap.
Definition mem_set_access_quiet (va size device : Z) : C unit :=
  call_deferred (Request.MemSetAccess va size device) Op.MemSetAccess.
Definition mem_release_quiet (handle : Z) : C unit :=
  call_deferred (Request.MemRelease handle) Op.MemRelease.
Definition set_device_base (device : Z) : C unit :=
  call_deferred (Request.SetDeviceBase device) Op.SetDeviceBase.
Definition mem_map (va size offset handle : Z) : C unit :=
  let@ _ := call (Request.MemMap va size offset handle) Op.MemMap in cret tt.
Definition mem_set_access (va size device : Z) : C unit :=
  let@ _ := call (Request.MemSetAccess va size device) Op.MemSetAccess in cret tt.
Definition mem_unmap (va size : Z) : C unit :=
  let@ _ := call (Request.MemUnmap va size) Op.MemUnmap in cret tt.
Definition mem_release (handle : Z) : C unit :=
  let@ _ := call (Request.MemRelease handle) Op.MemRelease in cret tt.
Definition mem_address_free (va size : Z) : C unit :=
  let@ _ := call (Request.MemAddressFree va size) Op.MemAddressFree in cret tt.
Definition mem_get_allocation_granularity (device flags : Z) : C Z :=
  let@ r := call (Request.MemGetAllocationGranularity device flags) Op.MemGetAllocationGranularity
    in
  expect (bytes_of r) "expected Bytes".
Definition publish_tensor_bundle (manifest : bytes) (tensors : list (Z * Z)) : C bytes :=
  let@ r := call (Request.PublishTensorBundle manifest tensors) Op.PublishTensorBundle in
  expect (data_of r) "expected Data".
Definition memcpy_shm_htod (dptr offset size stream : Z) : C unit :=
  let@ _ := call (Request.MemcpyShmHtoD dptr offset size stream) Op.MemcpyShmHtoD in cret tt.
Definition memcpy_shm_dtoh (offset dptr size stream : Z) : C unit :=
  let@ _ := call (Request.MemcpyShmDtoH offset dptr size stream) Op.MemcpyShmDtoH in cret tt.
Definition memcpy_gpa_htod (dptr : Z) (segments : list (Z * Z)) (stream : Z) : C unit :=
  let@ _ := call (Request.MemcpyGpaHtoD dptr stream segments) Op.MemcpyGpaHtoD in cret tt.
Definition memcpy_gpa_dtoh (dptr : Z) (segments : list (Z * Z)) (stream : Z) : C unit :=
  let@ _ := call (Request.MemcpyGpaDtoH dptr stream segments) Op.MemcpyGpaDtoH in cret tt.
(** Library functions with no output. *)
Definition lib_call_deferred (lib func : Z) (args : bytes) : C unit :=
  call_deferred (Request.LibCall lib func args) Op.LibCall.

(** ** Methods that look into the response *)

(** An older host answers [Ok], which carries no token. *)
Definition init (resume_token : Z) : C Z :=
  let@ r := call (Request.Init PROTO_HASH resume_token) Op.Init in
  cret (default 0 (handle_of r)).

(** The image is offered by content first; any other outcome of the offer
    falls back to sending it. *)
Definition module_load_data (image : bytes) : C Z :=
  let send (_ : unit) :=
    let@ r := call (Request.ModuleLoadData image) Op.ModuleLoadData in
    expect (handle_of r) "expected Handle" in
  if 64 <=? len image then
    let blob := to_le 8 (fnv64 image) ++ to_le 8 (len image) ++ slice image 0 8 ++
                slice image (len image - 8) (len image) in
    fun w =>
      match lib_call 6 1 blob w with
      | (Ok (0, out), w) => if len out =? 8 then (Ok (from_le out), w) else send tt w
      | (_, w) => send tt w
      end
  else send tt.

Definition module_get_global (module_ : Z) (name : bytes) : C (Z * Z) :=
  let@ r := call (Request.ModuleGetGlobal module_ name) Op.ModuleGetGlobal in
  expect (data ← data_of r;
          if len data =? 16 then Some (from_le (slice data 0 8), from_le (slice data 8 16)) else None)
    "expected global pointer and size".

Definition ipc_get_mem_handle (dptr : Z) : C bytes :=
  let@ r := call (Request.IpcGetMemHandle dptr) Op.IpcGetMemHandle in
  expect (handle ← data_of r; if len handle =? 64 then Some handle else None) "bad IPC memory handle".

Definition ipc_get_event_handle (event : Z) : C bytes :=
  let@ r := call (Request.IpcGetEventHandle event) Op.IpcGetEventHandle in
  expect (handle ← data_of r; if len handle =? 64 then Some handle else None) "bad IPC event handle".

Definition device_get_uuid (device : Z) : C bytes :=
  let@ r := call (Request.DeviceGetUuid device) Op.DeviceGetUuid in
  expect (d ← data_of r; if len d =? 16 then Some d else None) "expected 16-byte Data".

Definition func_get_param_info (function_ : Z) : C (list Z) :=
  let@ r := call (Request.FuncGetParamInfo function_) Op.FuncGetParamInfo in
  expect (d ← data_of r; if len d mod 4 =? 0 then Some (words 4 d) else None) "expected u32-array Data".

Definition event_create_batch (flags count : Z) : C (list Z) :=
  let@ r := call (Request.EventCreateBatch flags count) Op.EventCreateBatch in
  match data_of r with
  | Some d => if len d =? count * 8 then cret (words 8 d) else cfail (Protocol "invalid event batch length")
  | None => cfail (Protocol "expected Data")
  end.

(** ** Bulk copies *)

Fixpoint htod_chunks (i : Z) (dptr stream : Z) (cs : list bytes) : C unit :=
  match cs with
  | [] => cret tt
  | chunk :: cs =>
      let@ chunk_dptr := expect (checked_add 64 dptr (i * CHUNK)) "copy address overflow" in
      let@ _ := call_deferred (Request.MemcpyHtoD chunk_dptr stream chunk) Op.MemcpyHtoD in
      htod_chunks (i + 1) dptr stream cs
  end.
Definition memcpy_htod (dptr : Z) (data : bytes) (stream : Z) : C unit :=
  htod_chunks 0 dptr stream (chunks CHUNK data).

Definition dtoh_chunk (dptr nbytes stream offset : Z) : C bytes :=
  let count := Z.min (nbytes - offset) CHUNK in
  let@ chunk_dptr := expect (checked_add 64 dptr offset) "copy address overflow" in
  let@ r := call (Request.MemcpyDtoH chunk_dptr count stream) Op.MemcpyDtoH in
  match data_of r with
  | Some data => if len data =? count then cret data else cfail (Protocol "invalid memcpy response length")
  | None => cfail (Protocol "expected Data")
  end.
(** Each turn but the last moves [offset] by [CHUNK]. *)
Fixpoint dtoh_loop (fuel : nat) (dptr nbytes stream offset : Z) (out : bytes) : C bytes :=
  match fuel with
  | O => cret out
  | S fuel =>
      if offset <? nbytes then
        let@ data := dtoh_chunk dptr nbytes stream offset in
        dtoh_loop fuel dptr nbytes stream (offset + Z.min (nbytes - offset) CHUNK) (out ++ data)
      else cret out
  end.
Definition memcpy_dtoh (dptr nbytes stream : Z) : C bytes :=
  dtoh_loop (Z.to_nat (nbytes / CHUNK + 2)) dptr nbytes stream 0 [].

End Methods.

End Api.
