(* ===== verification/CudaApiProps.v ===== *)
(** * What the client's methods return

    [Program m n msgs] lists the request methods of [Api] and of the pipeline,
    each with what it computes on a host that is a function call away and the
    protocol errors it may return: [Method] has those that send one request and
    read its answer, [Sized] those that also check the length of a payload, and
    [init], [module_load_data], the bulk copies and the synchronizations have a
    specification each. [api_answers] is about every method of the table. *)

From S2P Require Import Prelude RustStr CudaProto CudaProtoFacts CudaProtoProps CudaPipe CudaPipeSpec CudaPipeFacts CudaPipeProps CudaApi.

Module ApiProps.
Import Str Proto ProtoFacts ProtoProps Pipe PipeSpec PipeFacts PipeProps Api.
Open Scope cuda_scope.

(** A method's answer is read from the response, or is the acknowledgement. *)
Definition resp {A} (read : Response.Response -> option A) (a : Answer) : option A :=
  match a with AResp r => read r | _ => None end.
Definition ack (a : Answer) : option unit := match a with AUnit => Some tt | _ => None end.

(** The opcode of a request, and the constructors a reader accepts. *)
Ltac shapes := let r := fresh in intros r; destruct r; intros Hshape; vm_compute in Hshape; first [discriminate Hshape | by eexists].
Ltac opcode :=
  first [ reflexivity
        | unfold op_of; wire_norm;
          try rewrite (w_for_app _ (le_counted (to_le 8))) by (intros; by apply w_counted); reflexivity ].
Ltac unfold_head m := lazymatch m with ?f _ => unfold_head f | _ => unfold m end.

Section Methods.
Context {Sess : Type}.
Variable dispatch : Sess -> Request.Request -> (Z * Response.Response) * Sess.
Variable ring_map : Sess -> Request.Request -> option Z.
Variable sync_forced : Request.Request -> Op.Op -> bool.

Inductive Method : forall {A}, C Sess A -> ClientOp -> (Answer -> option A) -> Prop :=
| m_device_get_count : Method (device_get_count dispatch ring_map) (Call Request.DeviceGetCount)
    (resp count_of)
| m_device_get_name device : Method (device_get_name dispatch ring_map device) (Call
    (Request.DeviceGetName device)) (resp name_of)
| m_device_get_pci_bus_id device : Method (device_get_pci_bus_id dispatch ring_map device) (Call
    (Request.DeviceGetPciBusId device)) (resp name_of)
| m_device_get_by_pci_bus_id pci_bus_id : Method (device_get_by_pci_bus_id dispatch ring_map
    pci_bus_id) (Call (Request.DeviceGetByPciBusId pci_bus_id)) (resp count_of)
| m_device_can_access_peer device peer : Method (device_can_access_peer dispatch ring_map device
    peer) (Call (Request.DeviceCanAccessPeer device peer)) (resp count_of)
| m_device_enable_peer_access peer flags : Method (device_enable_peer_access dispatch ring_map peer
    flags) (Call (Request.DeviceEnablePeerAccess peer flags)) (resp done_of)
| m_device_disable_peer_access peer : Method (device_disable_peer_access dispatch ring_map peer)
    (Call (Request.DeviceDisablePeerAccess peer)) (resp done_of)
| m_device_total_mem device : Method (device_total_mem dispatch ring_map device) (Call
    (Request.DeviceTotalMem device)) (resp bytes_of)
| m_ctx_create device : Method (ctx_create dispatch ring_map device) (Call (Request.CtxCreate
    device)) (resp handle_of)
| m_ctx_destroy ctx : Method (ctx_destroy dispatch ring_map ctx) (Call (Request.CtxDestroy ctx))
    (resp done_of)
| m_ctx_set_current ctx : Method (ctx_set_current dispatch ring_map sync_forced ctx) (Deferred
    (Request.CtxSetCurrent ctx)) ack
| m_module_get_function module_ name : Method (module_get_function dispatch ring_map module_ name)
    (Call (Request.ModuleGetFunction module_ name)) (resp handle_of)
| m_mem_alloc nbytes : Method (mem_alloc dispatch ring_map nbytes) (Call (Request.MemAlloc nbytes))
    (resp dptr_of)
| m_mem_free dptr : Method (mem_free dispatch ring_map sync_forced dptr) (Deferred (Request.MemFree
    dptr)) ack
| m_mem_pool_create alloc_type handle_types location_type location_id max_size usage : Method
    (mem_pool_create dispatch ring_map alloc_type handle_types location_type location_id max_size
    usage) (Call (Request.MemPoolCreate alloc_type handle_types location_type location_id max_size
    usage)) (resp handle_of)
| m_mem_pool_destroy pool : Method (mem_pool_destroy dispatch ring_map pool) (Call
    (Request.MemPoolDestroy pool)) (resp done_of)
| m_mem_pool_set_attribute pool attr value : Method (mem_pool_set_attribute dispatch ring_map pool
    attr value) (Call (Request.MemPoolSetAttribute pool attr value)) (resp done_of)
| m_mem_pool_get_attribute pool attr : Method (mem_pool_get_attribute dispatch ring_map pool attr)
    (Call (Request.MemPoolGetAttribute pool attr)) (resp bytes_of)
| m_mem_pool_set_access pool descriptors : Method (mem_pool_set_access dispatch ring_map pool
    descriptors) (Call (Request.MemPoolSetAccess pool descriptors)) (resp done_of)
| m_mem_pool_get_access pool location_type location_id : Method (mem_pool_get_access dispatch
    ring_map pool location_type location_id) (Call (Request.MemPoolGetAccess pool location_type
    location_id)) (resp bytes_of)
| m_mem_pool_trim_to pool min_bytes : Method (mem_pool_trim_to dispatch ring_map pool min_bytes)
    (Call (Request.MemPoolTrimTo pool min_bytes)) (resp done_of)
| m_mem_alloc_from_pool_async nbytes pool stream : Method (mem_alloc_from_pool_async dispatch
    ring_map nbytes pool stream) (Call (Request.MemAllocFromPoolAsync nbytes pool stream)) (resp
    dptr_of)
| m_mem_alloc_async nbytes stream : Method (mem_alloc_async dispatch ring_map nbytes stream) (Call
    (Request.MemAllocAsync nbytes stream)) (resp dptr_of)
| m_mem_free_async dptr stream : Method (mem_free_async dispatch ring_map sync_forced dptr stream)
    (Deferred (Request.MemFreeAsync dptr stream)) ack
| m_device_get_default_mem_pool device : Method (device_get_default_mem_pool dispatch ring_map
    device) (Call (Request.DeviceGetDefaultMemPool device)) (resp handle_of)
| m_device_get_mem_pool device : Method (device_get_mem_pool dispatch ring_map device) (Call
    (Request.DeviceGetMemPool device)) (resp handle_of)
| m_device_set_mem_pool device pool : Method (device_set_mem_pool dispatch ring_map device pool)
    (Call (Request.DeviceSetMemPool device pool)) (resp done_of)
| m_launch_kernel function_ grid block shared_bytes stream params : Method (launch_kernel dispatch
    ring_map sync_forced function_ grid block shared_bytes stream params) (Deferred
    (Request.LaunchKernel function_ grid block shared_bytes stream params)) ack
| m_launch_kernel_packed function_ grid block shared_bytes stream args : Method
    (launch_kernel_packed dispatch ring_map sync_forced function_ grid block shared_bytes stream
    args) (Deferred (Request.LaunchKernelPacked function_ grid block shared_bytes stream args)) ack
| m_host_get_device_pointer source address : Method (host_get_device_pointer dispatch ring_map
    source address) (Call (Request.HostGetDevicePointer source address)) (resp handle_of)
| m_thread_exchange_capture_mode mode : Method (thread_exchange_capture_mode dispatch ring_map mode)
    (Call (Request.ThreadExchangeCaptureMode mode)) (resp count_of)
| m_stream_begin_capture stream mode : Method (stream_begin_capture dispatch ring_map stream mode)
    (Call (Request.StreamBeginCapture stream mode)) (resp done_of)
| m_stream_begin_capture_deferred stream mode : Method (stream_begin_capture_deferred dispatch
    ring_map sync_forced stream mode) (Deferred (Request.StreamBeginCapture stream mode)) ack
| m_stream_end_capture stream graph_vh : Method (stream_end_capture dispatch ring_map stream
    graph_vh) (Call (Request.StreamEndCapture stream graph_vh)) (resp (fun r => '(_, node_count) ←
    pair_of r; Some node_count))
| m_stream_capture_info stream : Method (stream_capture_info dispatch ring_map stream) (Call
    (Request.StreamCaptureInfo stream)) (resp pair_of)
| m_graph_instantiate_deferred graph exec_vh : Method (graph_instantiate_deferred dispatch ring_map
    sync_forced graph exec_vh) (Deferred (Request.GraphInstantiate graph exec_vh)) ack
| m_graph_instantiate graph exec_vh : Method (graph_instantiate dispatch ring_map graph exec_vh)
    (Call (Request.GraphInstantiate graph exec_vh)) (resp (fun r => _ ← handle_of r; Some tt))
| m_graph_launch graph_exec stream : Method (graph_launch dispatch ring_map sync_forced graph_exec
    stream) (Deferred (Request.GraphLaunch graph_exec stream)) ack
| m_graph_exec_update graph_exec graph : Method (graph_exec_update dispatch ring_map graph_exec
    graph) (Call (Request.GraphExecUpdate graph_exec graph)) (resp count_of)
| m_graph_get_node_count graph : Method (graph_get_node_count dispatch ring_map graph) (Call
    (Request.GraphGetNodes graph)) (resp bytes_of)
| m_graph_exec_destroy graph_exec : Method (graph_exec_destroy dispatch ring_map sync_forced
    graph_exec) (Deferred (Request.GraphExecDestroy graph_exec)) ack
| m_graph_destroy graph : Method (graph_destroy dispatch ring_map sync_forced graph) (Deferred
    (Request.GraphDestroy graph)) ack
| m_memset_d8_async dptr value nbytes stream : Method (memset_d8_async dispatch ring_map sync_forced
    dptr value nbytes stream) (Deferred (Request.MemsetD8Async dptr value nbytes stream)) ack
| m_memcpy_dtod_async dst src nbytes stream : Method (memcpy_dtod_async dispatch ring_map
    sync_forced dst src nbytes stream) (Deferred (Request.MemcpyDtoDAsync dst src nbytes stream))
    ack
| m_memcpy_peer_async dst dst_device src src_device nbytes stream : Method (memcpy_peer_async
    dispatch ring_map sync_forced dst dst_device src src_device nbytes stream) (Deferred
    (Request.MemcpyPeerAsync dst dst_device src src_device nbytes stream)) ack
| m_ipc_open_mem_handle handle flags : Method (ipc_open_mem_handle dispatch ring_map handle flags)
    (Call (Request.IpcOpenMemHandle handle flags)) (resp dptr_of)
| m_ipc_close_mem_handle dptr : Method (ipc_close_mem_handle dispatch ring_map dptr) (Call
    (Request.IpcCloseMemHandle dptr)) (resp done_of)
| m_ipc_open_event_handle handle : Method (ipc_open_event_handle dispatch ring_map handle) (Call
    (Request.IpcOpenEventHandle handle)) (resp handle_of)
| m_ctx_get_stream_priority_range : Method (ctx_get_stream_priority_range dispatch ring_map) (Call
    Request.CtxGetStreamPriorityRange) (resp (fun r => '(least, greatest) ← pair_of r; Some (as_i32
    (wrap 32 least), as_i32 (wrap 32 greatest))))
| m_driver_get_version : Method (driver_get_version dispatch ring_map) (Call
    Request.DriverGetVersion) (resp count_of)
| m_device_get_attribute attrib device : Method (device_get_attribute dispatch ring_map attrib
    device) (Call (Request.DeviceGetAttribute attrib device)) (resp count_of)
| m_primary_ctx_retain device : Method (primary_ctx_retain dispatch ring_map device) (Call
    (Request.PrimaryCtxRetain device)) (resp handle_of)
| m_primary_ctx_release device : Method (primary_ctx_release dispatch ring_map device) (Call
    (Request.PrimaryCtxRelease device)) (resp done_of)
| m_module_unload module_ : Method (module_unload dispatch ring_map module_) (Call
    (Request.ModuleUnload module_)) (resp done_of)
| m_func_get_attribute function_ attrib : Method (func_get_attribute dispatch ring_map function_
    attrib) (Call (Request.FuncGetAttribute function_ attrib)) (resp count_of)
| m_func_set_attribute function_ attrib value : Method (func_set_attribute dispatch ring_map
    function_ attrib value) (Call (Request.FuncSetAttribute function_ attrib value)) (resp done_of)
| m_memcpy_dtod dst src nbytes : Method (memcpy_dtod dispatch ring_map dst src nbytes) (Call
    (Request.MemcpyDtoD dst src nbytes)) (resp done_of)
| m_memset_d8 dptr value nbytes : Method (memset_d8 dispatch ring_map sync_forced dptr value nbytes)
    (Deferred (Request.MemsetD8 dptr value nbytes)) ack
| m_mem_get_info : Method (mem_get_info dispatch ring_map) (Call Request.MemGetInfo) (resp pair_of)
| m_stream_create flags : Method (stream_create dispatch ring_map flags) (Call (Request.StreamCreate
    flags)) (resp handle_of)
| m_stream_destroy stream : Method (stream_destroy dispatch ring_map stream) (Call
    (Request.StreamDestroy stream)) (resp done_of)
| m_stream_query stream : Method (stream_query dispatch ring_map stream) (Call (Request.StreamQuery
    stream)) (resp count_of)
| m_stream_wait_event stream event flags : Method (stream_wait_event dispatch ring_map sync_forced
    stream event flags) (Deferred (Request.StreamWaitEvent stream event flags)) ack
| m_event_query event : Method (event_query dispatch ring_map event) (Call (Request.EventQuery
    event)) (resp count_of)
| m_event_create flags : Method (event_create dispatch ring_map flags) (Call (Request.EventCreate
    flags)) (resp handle_of)
| m_event_destroy event : Method (event_destroy dispatch ring_map sync_forced event) (Deferred
    (Request.EventDestroy event)) ack
| m_event_record event stream : Method (event_record dispatch ring_map sync_forced event stream)
    (Deferred (Request.EventRecord event stream)) ack
| m_event_synchronize event : Method (event_synchronize dispatch ring_map event) (Call
    (Request.EventSynchronize event)) (resp done_of)
| m_event_elapsed_time start end_ : Method (event_elapsed_time dispatch ring_map start end_) (Call
    (Request.EventElapsedTime start end_)) (resp millis_of)
| m_nvcomp_deflate_temp_size num_chunks max_uncompressed_chunk_bytes max_total_uncompressed_bytes :
    Method (nvcomp_deflate_temp_size dispatch ring_map num_chunks max_uncompressed_chunk_bytes
    max_total_uncompressed_bytes) (Call (Request.NvcompDeflateTempSize num_chunks
    max_uncompressed_chunk_bytes max_total_uncompressed_bytes)) (resp (fun r => '(st, tb) ← pair_of
    r; Some (as_i32 (wrap 32 st), tb)))
| m_nvcomp_deflate_decompress device_compressed_ptrs device_compressed_bytes
    device_uncompressed_bytes device_actual_uncompressed_bytes batch_size device_temp temp_bytes
    device_uncompressed_ptrs device_statuses stream : Method (nvcomp_deflate_decompress dispatch
    ring_map device_compressed_ptrs device_compressed_bytes device_uncompressed_bytes
    device_actual_uncompressed_bytes batch_size device_temp temp_bytes device_uncompressed_ptrs
    device_statuses stream) (Call (Request.NvcompDeflateDecompress device_compressed_ptrs
    device_compressed_bytes device_uncompressed_bytes device_actual_uncompressed_bytes batch_size
    device_temp temp_bytes device_uncompressed_ptrs device_statuses stream)) (resp count_of)
| m_cublas_create : Method (cublas_create dispatch ring_map) (Call Request.CublasCreate) (resp
    handle_of)
| m_cublas_destroy handle : Method (cublas_destroy dispatch ring_map handle) (Call
    (Request.CublasDestroy handle)) (resp done_of)
| m_cublas_set_stream handle stream : Method (cublas_set_stream dispatch ring_map handle stream)
    (Call (Request.CublasSetStream handle stream)) (resp done_of)
| m_cublas_sgemm handle transa transb m n k alpha a lda b ldb beta c ldc : Method (cublas_sgemm
    dispatch ring_map handle transa transb m n k alpha a lda b ldb beta c ldc) (Call
    (Request.CublasSgemm handle transa transb m n k alpha a lda b ldb beta c ldc)) (resp done_of)
| m_lib_call lib func args : Method (lib_call dispatch ring_map lib func args) (Call
    (Request.LibCall lib func args)) (resp lib_of)
| m_mem_address_reserve size align : Method (mem_address_reserve dispatch ring_map size align) (Call
    (Request.MemAddressReserve size align)) (resp dptr_of)
| m_mem_create size device : Method (mem_create dispatch ring_map size device) (Call
    (Request.MemCreate size device)) (resp handle_of)
| m_mem_create_vh size device handle_vh : Method (mem_create_vh dispatch ring_map sync_forced size
    device handle_vh) (Deferred (Request.MemCreateVh size device handle_vh)) ack
| m_mem_map_quiet va size offset handle : Method (mem_map_quiet dispatch ring_map sync_forced va
    size offset handle) (Deferred (Request.MemMap va size offset handle)) ack
| m_mem_set_access_quiet va size device : Method (mem_set_access_quiet dispatch ring_map sync_forced
    va size device) (Deferred (Request.MemSetAccess va size device)) ack
| m_mem_release_quiet handle : Method (mem_release_quiet dispatch ring_map sync_forced handle)
    (Deferred (Request.MemRelease handle)) ack
| m_set_device_base device : Method (set_device_base dispatch ring_map sync_forced device) (Deferred
    (Request.SetDeviceBase device)) ack
| m_mem_map va size offset handle : Method (mem_map dispatch ring_map va size offset handle) (Call
    (Request.MemMap va size offset handle)) (resp done_of)
| m_mem_set_access va size device : Method (mem_set_access dispatch ring_map va size device) (Call
    (Request.MemSetAccess va size device)) (resp done_of)
| m_mem_unmap va size : Method (mem_unmap dispatch ring_map va size) (Call (Request.MemUnmap va
    size)) (resp done_of)
| m_mem_release handle : Method (mem_release dispatch ring_map handle) (Call (Request.MemRelease
    handle)) (resp done_of)
| m_mem_address_free va size : Method (mem_address_free dispatch ring_map va size) (Call
    (Request.MemAddressFree va size)) (resp done_of)
| m_mem_get_allocation_granularity device flags : Method (mem_get_allocation_granularity dispatch
    ring_map device flags) (Call (Request.MemGetAllocationGranularity device flags)) (resp bytes_of)
| m_publish_tensor_bundle manifest tensors : Method (publish_tensor_bundle dispatch ring_map
    manifest tensors) (Call (Request.PublishTensorBundle manifest tensors)) (resp data_of)
| m_memcpy_shm_htod dptr offset size stream : Method (memcpy_shm_htod dispatch ring_map dptr offset
    size stream) (Call (Request.MemcpyShmHtoD dptr offset size stream)) (resp done_of)
| m_memcpy_shm_dtoh offset dptr size stream : Method (memcpy_shm_dtoh dispatch ring_map offset dptr
    size stream) (Call (Request.MemcpyShmDtoH offset dptr size stream)) (resp done_of)
| m_memcpy_gpa_htod dptr segments stream : Method (memcpy_gpa_htod dispatch ring_map dptr segments
    stream) (Call (Request.MemcpyGpaHtoD dptr stream segments)) (resp done_of)
| m_memcpy_gpa_dtoh dptr segments stream : Method (memcpy_gpa_dtoh dispatch ring_map dptr segments
    stream) (Call (Request.MemcpyGpaDtoH dptr stream segments)) (resp done_of)
| m_lib_call_deferred lib func args : Method (lib_call_deferred dispatch ring_map sync_forced lib
    func args) (Deferred (Request.LibCall lib func args)) ack.

Context `{HA : !Answering dispatch}.

Lemma R_fine w s : R dispatch w s -> host_fine dispatch (s_host s).
Proof. intros (h & ru & rw & -> & [-> ? ? ?] & _). by apply fold_quiet_ok. Qed.

Lemma call_shape req w s r s' :
  sendable req -> R dispatch w s -> spec_call dispatch req s = (Ok r, s') -> answers (op_of req) r.
Proof.
  intros Hr HR. unfold spec_call, pbind.
  destruct (sim_flush dispatch ring_map w s HR I) as (_ & HR1 & _).
  destruct (spec_flush dispatch s) as [[[]|e] s1]; [|done]. cbn in HR1.
  destruct (R_fine _ _ HR1) as [_ Hh]. unfold pset, spec_round_trip.
  assert (E : forall b : bool, s_host (if b then s1 else dirty s1) = s_host s1) by by destruct b.
  rewrite E. pose proof (host_answers (h_sess (s_host s1)) req Hh ltac:(apply Hr)) as Hans.
  destruct (dispatch _ req) as [[st r'] sess]. destruct Hans as (_ & _ & _ & Hok).
  destruct (st =? 0) eqn:E0; cbn [negb]; [|done]. bool_simpl. intros Eq. inv Eq. by apply Hok.
Qed.

(** The constructor of a response. *)
Definition shape (r : Response.Response) : nat :=
  match r with
  | Response.Ok => 0 | Response.Count _ => 1 | Response.Name _ => 2 | Response.Bytes _ => 3
  | Response.Handle _ => 4 | Response.Dptr _ => 5 | Response.Data _ => 6 | Response.Pair _ _ => 7
  | Response.Millis _ => 8 | Response.LibResult _ _ => 9
  end.

Lemma answers_shape op r : answers op r -> shape r = shape (blank op).
Proof. unfold answers, blank, decode_response. intros ->. by destruct r. Qed.

(** A method of one call: its answer has the shape it reads. *)
Lemma method_call {A} req op (read : Response.Response -> option A) msg w s :
  (forall r, shape r = shape (blank op) -> is_Some (read r)) -> op_of req = op ->
  sendable req -> R dispatch w s ->
  let m := let@ r := call dispatch ring_map req op in expect (read r) msg in
  let '(a, s') := spec_op dispatch sync_forced (Call req) s in
  R dispatch (m w).2 s' /\
  match a with Ok a => exists x, resp read a = Some x /\ (m w).1 = Ok x | Err e => (m w).1 = Err e end.
Proof.
  intros Hread <- Hr HR. cbn [spec_op]. destruct (sim_call dispatch ring_map req Hr w s HR I) as (E & HR' & _).
  unfold cbind, pbind. pose proof (call_shape req w s) as Hs.
  destruct (call _ _ _ _ w) as [[r|e] w'], (spec_call dispatch req s) as [[r'|e'] s'];
    cbn in E; inv E; [|done]. cbn in HR'.
  destruct (Hread r') as [x Ex]; [by eapply answers_shape, Hs|].
  cbn [resp pret]. rewrite Ex. cbn. split; [done|]. by exists x.
Qed.

Lemma method_deferred req op w s :
  op_of req = op -> sendable req -> R dispatch w s ->
  let m := call_deferred dispatch ring_map sync_forced req op in
  let '(a, s') := spec_op dispatch sync_forced (Deferred req) s in
  R dispatch (m w).2 s' /\
  match a with Ok a => exists x, ack a = Some x /\ (m w).1 = Ok x | Err e => (m w).1 = Err e end.
Proof.
  intros <- Hr HR. cbn [spec_op].
  destruct (sim_deferred dispatch ring_map sync_forced req Hr w s HR I) as (E & HR' & _).
  unfold pbind. destruct (call_deferred _ _ _ _ _ w) as [[[]|e] w'],
    (spec_deferred dispatch sync_forced req s) as [[[]|e'] s']; cbn in *; inv E; [|done].
  split; [done|]. by exists tt.
Qed.

Lemma method_runs {A} (m : C Sess A) op read w s :
  Method m op read -> op_ok op -> R dispatch w s ->
  let '(a, s') := spec_op dispatch sync_forced op s in
  R dispatch (m w).2 s' /\
  match a with Ok a => exists x, read a = Some x /\ (m w).1 = Ok x | Err e => (m w).1 = Err e end.
Proof.
  intros Hm Hop HR. destruct Hm; cbn [op_ok] in Hop;
    lazymatch goal with |- context [R _ (?m w).2 _] => unfold_head m end;
    lazymatch goal with
    | |- context [call_deferred _ _ _ ?req ?op] => refine (method_deferred req op w s _ Hop HR); opcode
    | |- context [expect (A := ?A) _ ?msg] =>
        lazymatch goal with |- context [call _ _ ?req ?op] =>
          refine (method_call req op _ msg w s _ _ Hop HR); [shapes|opcode] end
    | |- context [call _ _ ?req ?op] => refine (method_call req op done_of "" w s _ _ Hop HR); [shapes|opcode]
    end.
Qed.

(** ** Every method, against the host a call away

    [runs m n msgs]: from related states the method [m] returns what the
    specification [n] returns, leaves related states, and fails only with a
    status of the host or a protocol error among [msgs]. *)
Definition runs {A} (m : C Sess A) (n : P Sess A) (msgs : list string) : Prop :=
  forall w s, R dispatch w s ->
  (m w).1 = (n s).1 /\ R dispatch (m w).2 (n s).2 /\
  match (n s).1 with Ok _ | Err (Cuda _) => True | Err (Protocol msg) => msg ∈ msgs | Err _ => False end.

Definition s_expect {A} (o : option A) (msg : string) : P Sess A :=
  match o with Some x => pret x | None => pfail (Protocol msg) end.

Lemma runs_ret {A} (x : A) msgs : runs (cret x) (pret x) msgs.
Proof. by intros w s HR. Qed.
Lemma runs_expect {A} (o : option A) msg msgs :
  (o = None -> msg ∈ msgs) -> runs (expect o msg) (s_expect o msg) msgs.
Proof. intros Ho w s HR. destruct o; [done|]. cbn. split_and!; [done|done|by apply Ho]. Qed.
Lemma runs_bind {A B} (m : C Sess A) (k : A -> C Sess B) n k' msgs :
  runs m n msgs -> (forall x, runs (k x) (k' x) msgs) -> runs (cbind m k) (pbind n k') msgs.
Proof.
  intros Hm Hk w s HR. unfold cbind, pbind. destruct (Hm w s HR) as (E & HR' & He).
  destruct (m w) as [[x|e] w'], (n s) as [[y|e'] s']; cbn in *; try done; inv E; [by apply Hk|done].
Qed.
Lemma runs_sim {A} (m : C Sess A) n msgs : simI dispatch any m n any -> plain n -> runs m n msgs.
Proof.
  intros Hm Hn w s HR. destruct (Hm w s HR I) as (E & HR' & _). split_and!; [done..|].
  specialize (Hn s). by destruct (n s) as [[x|[]] ?].
Qed.
(** The answer to a call has the shape of the call's operation. *)
Lemma runs_call {A} req op (k : Response.Response -> C Sess A) k' msgs :
  op_of req = op -> sendable req ->
  (forall r, shape r = shape (blank op) -> runs (k r) (k' r) msgs) ->
  runs (cbind (call dispatch ring_map req op) k) (pbind (spec_call dispatch req) k') msgs.
Proof.
  intros <- Hr Hk w s HR. unfold cbind, pbind.
  destruct (sim_call dispatch ring_map req Hr w s HR I) as (E & HR' & _).
  pose proof (call_shape req w s) as Hs. pose proof (plain_call dispatch req s) as Hp.
  destruct (call _ _ _ _ w) as [[r|e] w'], (spec_call dispatch req s) as [[r'|e'] s']; cbn in E, HR', Hp; inv E.
  - by apply Hk; [eapply answers_shape, Hs|].
  - by destruct e'.
Qed.
Lemma plain_deferred req : plain (spec_deferred dispatch sync_forced req).
Proof.
  intros s. pose proof (plain_op dispatch sync_forced (Deferred req) s) as H. cbn [spec_op] in H.
  unfold pbind in H. by destruct (spec_deferred _ _ _ s) as [[]].
Qed.
Lemma runs_deferred req op msgs :
  op_of req = op -> sendable req ->
  runs (call_deferred dispatch ring_map sync_forced req op) (spec_deferred dispatch sync_forced req) msgs.
Proof. intros <- Hr. apply runs_sim; [by apply sim_deferred|apply plain_deferred]. Qed.
Lemma runs_method {A} (m : C Sess A) op read msgs :
  Method m op read -> op_ok op ->
  runs m (let$ a := spec_op dispatch sync_forced op in s_expect (read a) "") msgs.
Proof.
  intros Hm Hop w s HR. pose proof (method_runs m op read w s Hm Hop HR) as H.
  pose proof (plain_op dispatch sync_forced op s) as Hp. unfold pbind.
  destruct (spec_op dispatch sync_forced op s) as [[a|e] s']; cbn [fst snd] in *.
  - destruct H as (HR' & x & Ex & Em). by rewrite Ex, Em.
  - destruct H as [HR' Em]. by destruct e.
Qed.

(** *** Payloads of a fixed length *)

(** [Sized m req read msg]: a method that also checks the length of the
    payload it is answered with. *)
Definition payload {A} (good : bytes -> bool) (get : bytes -> A) (r : Response.Response) : option A :=
  d ← data_of r; if good d then Some (get d) else None.

Inductive Sized : forall {A}, C Sess A -> Request.Request -> (Response.Response -> option A) -> string -> Prop :=
| z_module_get_global module_ name : Sized (module_get_global dispatch ring_map module_ name)
    (Request.ModuleGetGlobal module_ name)
    (payload (fun d => len d =? 16) (fun d => (from_le (slice d 0 8), from_le (slice d 8 16))))
    "expected global pointer and size"
| z_ipc_get_mem_handle dptr : Sized (ipc_get_mem_handle dispatch ring_map dptr)
    (Request.IpcGetMemHandle dptr) (payload (fun d => len d =? 64) id) "bad IPC memory handle"
| z_ipc_get_event_handle event : Sized (ipc_get_event_handle dispatch ring_map event)
    (Request.IpcGetEventHandle event) (payload (fun d => len d =? 64) id) "bad IPC event handle"
| z_device_get_uuid device : Sized (device_get_uuid dispatch ring_map device)
    (Request.DeviceGetUuid device) (payload (fun d => len d =? 16) id) "expected 16-byte Data"
| z_func_get_param_info function_ : Sized (func_get_param_info dispatch ring_map function_)
    (Request.FuncGetParamInfo function_) (payload (fun d => len d mod 4 =? 0) (words 4)) "expected u32-array Data"
| z_event_create_batch flags count : Sized (event_create_batch dispatch ring_map flags count)
    (Request.EventCreateBatch flags count) (payload (fun d => len d =? count * 8) (words 8))
    "invalid event batch length".

Lemma runs_sized {A} (m : C Sess A) req read msg :
  Sized m req read msg -> sendable req ->
  runs m (let$ r := spec_call dispatch req in s_expect (read r) msg) [msg].
Proof.
  intros Hm Hr. destruct Hm;
    lazymatch goal with |- runs ?m _ _ => unfold_head m end;
    (apply runs_call; [opcode|done|]); try (intros r _; apply runs_expect; set_solver).
  intros r Hs. destruct r; vm_compute in Hs; try discriminate Hs. cbn [data_of payload mbind option_bind].
  unfold payload. cbn [data_of mbind option_bind].
  destruct (_ =? _); [apply runs_ret|]. by apply (runs_expect None); set_solver.
Qed.

(** *** Requests offered, then sent *)

Definition spec_init (PROTO_HASH resume_token : Z) : P Sess Z :=
  let$ r := spec_call dispatch (Request.Init PROTO_HASH resume_token) in
  pret (default 0 (handle_of r)).

(** The image by its hash, its length and its ends. *)
Definition image_key (image : bytes) : bytes :=
  to_le 8 (fnv64 image) ++ to_le 8 (len image) ++ slice image 0 8 ++ slice image (len image - 8) (len image).

Definition spec_send_module (image : bytes) : P Sess Z :=
  let$ r := spec_call dispatch (Request.ModuleLoadData image) in s_expect (handle_of r) "expected Handle".
(** The host's cached module, when it has one under the image's key. *)
Definition spec_module_load_data (image : bytes) : P Sess Z := fun s =>
  if len image <? 64 then spec_send_module image s else
  match spec_call dispatch (Request.LibCall 6 1 (image_key image)) s with
  | (Ok (Response.LibResult 0 out), s) =>
      if len out =? 8 then (Ok (from_le out), s) else spec_send_module image s
  | (_, s) => spec_send_module image s
  end.

Lemma sendable_key image : is_bytes image -> 64 <= len image -> sendable (Request.LibCall 6 1 (image_key image)).
Proof.
  intros Hi Hl.
  assert (Hlen : len (image_key image) = 32).
  { unfold image_key. rewrite !len_app, !len_to_le, !len_slice by lia. lia. }
  assert (Hb : is_bytes (image_key image)).
  { unfold image_key. repeat apply bytes_app; auto using to_le_bytes, slice_bytes. }
  split.
  { cbn [request_ok]. split; [by vm_compute|]. split; [by vm_compute|]. split; [done|]. rewrite Hlen. by vm_compute. }
  split; [|done]. wire_norm. unfold le_bytes. rewrite !len_app, !len_to_le, Hlen. by vm_compute.
Qed.

Lemma runs_load image :
  is_bytes image -> sendable (Request.ModuleLoadData image) ->
  runs (module_load_data dispatch ring_map image) (spec_module_load_data image) [].
Proof.
  intros Hi Hr. unfold module_load_data, spec_module_load_data.
  assert (Hsend : runs (let@ r := call dispatch ring_map (Request.ModuleLoadData image) Op.ModuleLoadData in
                        expect (handle_of r) "expected Handle") (spec_send_module image) []).
  { apply runs_call; [opcode|done|]. intros r Hs. apply runs_expect. by destruct r; vm_compute in Hs. }
  destruct (64 <=? len image) eqn:El; bool_simpl.
  - intros w s HR. rewrite (proj2 (Z.ltb_ge _ _)) by lia.
    assert (Hlib : runs (lib_call dispatch ring_map 6 1 (image_key image))
      (let$ r := spec_call dispatch (Request.LibCall 6 1 (image_key image)) in s_expect (lib_of r) "") []).
    { apply runs_call; [opcode|by apply sendable_key|]. intros r Hs. destruct r; vm_compute in Hs; try discriminate Hs.
      apply runs_ret. }
    destruct (Hlib w s HR) as (E & HR' & He). unfold pbind in E, HR', He. fold (image_key image).
    destruct (lib_call _ _ _ _ _ w) as [o w'].
    destruct (spec_call dispatch (Request.LibCall 6 1 (image_key image)) s) as [[r|e] s']; cbn [fst snd] in *.
    2: { subst o. by apply Hsend. }
    destruct r; cbn [lib_of s_expect pret pfail fst snd] in *; subst o; try (by apply Hsend).
    destruct status; [|by apply Hsend..]. destruct (len out =? 8); [done|by apply Hsend].
  - intros w s HR. rewrite (proj2 (Z.ltb_lt _ _)) by lia. by apply Hsend.
Qed.
Lemma runs_init PROTO_HASH token :
  sendable (Request.Init PROTO_HASH token) ->
  runs (init dispatch ring_map PROTO_HASH token) (spec_init PROTO_HASH token) [].
Proof. intros Hr. apply runs_call; [opcode|done|]. intros r _. apply runs_ret. Qed.

(** *** Bulk copies *)

(** The number of pieces of a copy of [n] bytes. *)
Definition pieces (n : Z) : nat := Z.to_nat ((n + CHUNK - 1) / CHUNK).

Definition copy_address (d off : Z) : P Sess Z := s_expect (checked_add 64 d off) "copy address overflow".

Fixpoint spec_htod (k : nat) (d stream : Z) (data : bytes) (off : Z) : P Sess unit :=
  match k with
  | O => pret tt
  | S k =>
      let$ p := copy_address d off in
      let$ _ := spec_deferred dispatch sync_forced
                  (Request.MemcpyHtoD p stream (slice data off (Z.min (off + CHUNK) (len data)))) in
      spec_htod k d stream data (off + CHUNK)
  end.
Definition spec_memcpy_htod (d : Z) (data : bytes) (stream : Z) : P Sess unit :=
  spec_htod (pieces (len data)) d stream data 0.

Definition spec_dtoh_chunk (d n stream off : Z) : P Sess bytes :=
  let count := Z.min (n - off) CHUNK in
  let$ p := copy_address d off in
  let$ r := spec_call dispatch (Request.MemcpyDtoH p count stream) in
  s_expect (payload (fun d => len d =? count) id r) "invalid memcpy response length".
Fixpoint spec_dtoh (k : nat) (d n stream off : Z) (out : bytes) : P Sess bytes :=
  match k with
  | O => pret out
  | S k =>
      let$ data := spec_dtoh_chunk d n stream off in
      spec_dtoh k d n stream (off + CHUNK) (out ++ data)
  end.
Definition spec_memcpy_dtoh (d n stream : Z) : P Sess bytes := spec_dtoh (pieces n) d n stream 0 [].

Lemma pieces_done n : n <= 0 -> pieces n = O.
Proof.
  intros H. unfold pieces. assert ((n + CHUNK - 1) / CHUNK < 1) by (apply Z.div_lt_upper_bound; unfold CHUNK; lia). lia.
Qed.
Lemma pieces_more n : 0 < n -> pieces n = S (pieces (n - CHUNK)).
Proof.
  intros H. unfold pieces. replace (n + CHUNK - 1) with (n - CHUNK + CHUNK - 1 + 1 * CHUNK) by lia.
  rewrite Z.div_add by done.
  assert (0 <= (n - CHUNK + CHUNK - 1) / CHUNK) by (apply Z.div_pos; unfold CHUNK; lia). lia.
Qed.

Lemma sendable_htod d stream data :
  is_uint 64 d -> is_uint 64 stream -> is_bytes data -> len data <= CHUNK ->
  sendable (Request.MemcpyHtoD d stream data).
Proof.
  intros Hd Hs Hb Hl. pose proof (len_nonneg data). unfold CHUNK in Hl. split.
  { split; [done|]. split; [done|]. split; [done|]. unfold is_uint. lia. }
  split; [|done]. wire_norm. unfold le_bytes. rewrite !len_app, !len_to_le. change (len [_]) with 1. lia.
Qed.
Lemma sendable_dtoh d n stream :
  is_uint 64 d -> is_uint 64 n -> is_uint 64 stream -> n <= CHUNK -> sendable (Request.MemcpyDtoH d n stream).
Proof.
  intros Hd Hn Hs Hl. split; [done|]. split; [|done]. wire_norm. rewrite !len_app, !len_to_le. by vm_compute.
Qed.

Lemma checked_uint d off p : is_uint 64 d -> 0 <= off -> checked_add 64 d off = Some p -> is_uint 64 p.
Proof. unfold checked_add, is_uint, u_max. intros ? ? E. destruct (_ <=? _) eqn:El; inv E. bool_simpl. lia. Qed.

Lemma runs_address {A} d off (k : Z -> C Sess A) k' msgs :
  is_uint 64 d -> 0 <= off -> "copy address overflow"%string ∈ msgs ->
  (forall p, is_uint 64 p -> runs (k p) (k' p) msgs) ->
  runs (let@ p := expect (checked_add 64 d off) "copy address overflow" in k p)
       (let$ p := copy_address d off in k' p) msgs.
Proof.
  intros Hd Hoff Hin Hk w s HR. unfold copy_address.
  destruct (checked_add 64 d off) as [p|] eqn:E; [|done].
  apply Hk; [by eapply checked_uint|done].
Qed.

Lemma slice_past {A} (l : list A) a b : b <= a -> slice l a b = [].
Proof. intros H. unfold slice. by replace (Z.to_nat (b - a)) with O by lia. Qed.
Lemma slice_slice {A} (l : list A) a b x y :
  0 <= a -> 0 <= x -> y <= b - a -> slice (slice l a b) x y = slice l (a + x) (a + y).
Proof.
  intros Ha Hx Hy. unfold slice. rewrite skipn_firstn_comm, take_take, drop_drop. f_equal; [lia|]. f_equal. lia.
Qed.

Lemma runs_htod fuel : forall i d stream (data : bytes),
  is_uint 64 d -> is_uint 64 stream -> is_bytes data -> 0 <= i -> (length data <= Z.to_nat (i * CHUNK) + fuel)%nat ->
  runs (htod_chunks dispatch ring_map sync_forced i d stream
          (chunks_from fuel CHUNK (slice data (i * CHUNK) (len data))))
       (spec_htod (pieces (len data - i * CHUNK)) d stream data (i * CHUNK)) ["copy address overflow"].
Proof.
  induction fuel as [|fuel IH]; intros i d stream data Hd Hs Hb Hi Hf;
    (assert (HC : 0 < CHUNK) by done); assert (Hi0 : 0 <= i * CHUNK) by lia.
  { rewrite pieces_done by (unfold len; lia). apply runs_ret. }
  cbn [chunks_from]. destruct (decide (len data <= i * CHUNK)) as [Hle|Hgt].
  { rewrite pieces_done, slice_past by lia. apply runs_ret. }
  rewrite pieces_more by lia. cbn [spec_htod].
  assert (Hl : len (slice data (i * CHUNK) (len data)) = len data - i * CHUNK) by (rewrite len_slice; nia).
  destruct (slice data (i * CHUNK) (len data)) as [|x rest] eqn:Es; [rewrite len_nil in Hl; lia|].
  cbn [is_empty]. rewrite <- Es in *. clear Es x rest. rewrite Hl.
  replace (i * CHUNK + CHUNK) with ((i + 1) * CHUNK) by lia.
  replace (len data - i * CHUNK - CHUNK) with (len data - (i + 1) * CHUNK) by lia.
  assert (Hstep : forall chunk rest,
    chunk = slice data (i * CHUNK) (Z.min ((i + 1) * CHUNK) (len data)) ->
    rest = chunks_from fuel CHUNK (slice data ((i + 1) * CHUNK) (len data)) ->
    runs (htod_chunks dispatch ring_map sync_forced i d stream (chunk :: rest))
      (let$ p := copy_address d (i * CHUNK) in
       let$ _ := spec_deferred dispatch sync_forced
         (Request.MemcpyHtoD p stream (slice data (i * CHUNK) (Z.min ((i + 1) * CHUNK) (len data)))) in
       spec_htod (pieces (len data - (i + 1) * CHUNK)) d stream data ((i + 1) * CHUNK)) ["copy address overflow"]).
  { intros chunk rest -> ->. cbn [htod_chunks]. apply runs_address; [done|lia|set_solver|]. intros p Hp.
    apply runs_bind.
    - apply runs_deferred; [opcode|]. apply sendable_htod; [done..|by apply slice_bytes|]. rewrite len_slice; lia.
    - intros _. apply IH; [done..|lia|]. unfold len, CHUNK in *. lia. }
  destruct (_ <=? CHUNK) eqn:El; bool_simpl; apply Hstep.
  - f_equal. lia.
  - rewrite slice_past by lia. by destruct fuel.
  - rewrite slice_slice by lia. f_equal; lia.
  - f_equal. rewrite slice_slice by lia. f_equal; lia.
Qed.

Definition copy_errors : list string := ["copy address overflow"; "invalid memcpy response length"].

Lemma runs_dtoh_chunk d n stream off :
  is_uint 64 d -> is_uint 64 n -> is_uint 64 stream -> 0 <= off < n ->
  runs (dtoh_chunk dispatch ring_map d n stream off) (spec_dtoh_chunk d n stream off) copy_errors.
Proof.
  intros Hd Hn Hs Hoff. apply runs_address; [done|lia|set_solver|]. intros p Hp.
  apply runs_call; [opcode| |].
  - apply sendable_dtoh; [done| |done|lia]. unfold is_uint, CHUNK in *. lia.
  - intros r Hr. destruct r; vm_compute in Hr; try discriminate Hr. unfold payload. cbn [data_of mbind option_bind].
    destruct (_ =? _); [apply runs_ret|]. apply (runs_expect None). set_solver.
Qed.

Lemma runs_dtoh fuel : forall d n stream off out,
  is_uint 64 d -> is_uint 64 n -> is_uint 64 stream -> 0 <= off -> (pieces (n - off) <= fuel)%nat ->
  runs (dtoh_loop dispatch ring_map fuel d n stream off out) (spec_dtoh (pieces (n - off)) d n stream off out) copy_errors.
Proof.
  assert (HC : 0 < CHUNK) by done.
  induction fuel as [|fuel IH]; intros d n stream off out Hd Hn Hs Hoff Hf.
  { replace (pieces (n - off)) with O by lia. apply runs_ret. }
  cbn [dtoh_loop]. destruct (off <? n) eqn:E; bool_simpl.
  2: { rewrite pieces_done by lia. apply runs_ret. }
  rewrite pieces_more in Hf |- * by lia. cbn [spec_dtoh].
  apply runs_bind; [by apply runs_dtoh_chunk|]. intros data.
  destruct (decide (CHUNK <= n - off)) as [Hc|Hc].
  - rewrite Z.min_r by lia. replace (n - off - CHUNK) with (n - (off + CHUNK)) in * by lia. apply IH; [done..|lia|lia].
  - rewrite Z.min_l, (pieces_done (n - off - CHUNK)) by lia. replace (off + (n - off)) with n by lia.
    pose proof (IH d n stream n (out ++ data) Hd Hn Hs) as H. rewrite (pieces_done (n - n)) in H by lia. apply H; lia.
Qed.

Lemma runs_memcpy_htod d data stream :
  is_uint 64 d -> is_uint 64 stream -> is_bytes data ->
  runs (memcpy_htod dispatch ring_map sync_forced d data stream) (spec_memcpy_htod d data stream)
    ["copy address overflow"].
Proof.
  intros Hd Hs Hb. pose proof (runs_htod (length data) 0 d stream data Hd Hs Hb) as H.
  change (0 * CHUNK) with 0 in H. rewrite Z.sub_0_r in H.
  replace (slice data 0 (len data)) with data in H by (unfold slice, len; rewrite Z.sub_0_r, Nat2Z.id; cbn; by rewrite take_ge).
  apply H; lia.
Qed.
Lemma runs_memcpy_dtoh d n stream :
  is_uint 64 d -> is_uint 64 n -> is_uint 64 stream ->
  runs (memcpy_dtoh dispatch ring_map d n stream) (spec_memcpy_dtoh d n stream) copy_errors.
Proof.
  intros Hd Hn Hs. pose proof (runs_dtoh (Z.to_nat (n / CHUNK + 2)) d n stream 0 [] Hd Hn Hs) as H.
  rewrite Z.sub_0_r in H. apply H; [done|]. unfold pieces. assert ((n + CHUNK - 1) / CHUNK <= n / CHUNK + 1).
  { replace (n + CHUNK - 1) with (n - 1 + 1 * CHUNK) by lia. rewrite Z.div_add by done.
    pose proof (Z.div_le_mono (n - 1) n CHUNK ltac:(done)). lia. }
  unfold is_uint in Hn. pose proof (Z.div_pos n CHUNK ltac:(lia) ltac:(done)). lia.
Qed.

(** *** The table of all methods *)

(** [Program m n msgs]: the method [m], what it computes on a host that is a
    function call away, and the protocol errors it can still return. *)
Inductive Program : forall {A}, C Sess A -> P Sess A -> list string -> Prop :=
| p_method {A} (m : C Sess A) op read : Method m op read -> op_ok op ->
    Program m (let$ a := spec_op dispatch sync_forced op in s_expect (read a) "") []
| p_sized {A} (m : C Sess A) req read msg : Sized m req read msg -> sendable req ->
    Program m (let$ r := spec_call dispatch req in s_expect (read r) msg) [msg]
| p_init PROTO_HASH token : sendable (Request.Init PROTO_HASH token) ->
    Program (init dispatch ring_map PROTO_HASH token) (spec_init PROTO_HASH token) []
| p_module_load_data image : is_bytes image -> sendable (Request.ModuleLoadData image) ->
    Program (module_load_data dispatch ring_map image) (spec_module_load_data image) []
| p_memcpy_htod d data stream : is_uint 64 d -> is_uint 64 stream -> is_bytes data ->
    Program (memcpy_htod dispatch ring_map sync_forced d data stream) (spec_memcpy_htod d data stream)
      ["copy address overflow"]
| p_memcpy_dtoh d n stream : is_uint 64 d -> is_uint 64 n -> is_uint 64 stream ->
    Program (memcpy_dtoh dispatch ring_map d n stream) (spec_memcpy_dtoh d n stream) copy_errors
| p_ctx_synchronize : Program (Pipe.ctx_synchronize dispatch ring_map) (spec_ctx_synchronize dispatch) []
| p_stream_synchronize stream : is_uint 64 stream ->
    Program (Pipe.stream_synchronize dispatch ring_map stream) (spec_stream_synchronize dispatch stream) []
| p_drain : Program (drain dispatch ring_map) (spec_drain dispatch) []
| p_take_sticky : Program (take_sticky) (fun s => (Ok (s_sticky s), upd_sticky 0 s)) []
| p_raw_call req : sendable req ->
    Program (raw_call dispatch ring_map (encode_request req)) (spec_raw_call dispatch req) []
| p_raw_quiet req : sendable req ->
    Program (raw_quiet dispatch ring_map (encode_request req)) (spec_raw_quiet dispatch req) [].

(** The specification of an operation whose answer is discarded fails as the operation does. *)
Lemma plain_of {A} (n : P Sess A) op (f : A -> Answer) :
  spec_op dispatch sync_forced op = (let$ x := n in pret (f x)) -> plain n.
Proof.
  intros E s. pose proof (plain_op dispatch sync_forced op s) as H. rewrite E in H. unfold pbind in H.
  by destruct (n s) as [[]].
Qed.

Lemma program_runs {A} (m : C Sess A) n msgs : Program m n msgs -> runs m n msgs.
Proof.
  intros Hp. destruct Hp.
  - by apply runs_method.
  - by apply runs_sized.
  - by apply runs_init.
  - by apply runs_load.
  - by apply runs_memcpy_htod.
  - by apply runs_memcpy_dtoh.
  - apply runs_sim; [apply sim_ctx_synchronize|by apply (plain_of _ CtxSynchronize (fun _ => AUnit))].
  - apply runs_sim; [by apply sim_stream_synchronize|by apply (plain_of _ (StreamSynchronize stream) (fun _ => AUnit))].
  - apply runs_sim; [apply (sim_any dispatch _ empty), sim_drain_all|apply plain_drain].
  - apply runs_sim; [apply sim_take_sticky|by intros s].
  - apply runs_sim; [by apply sim_raw_call|apply plain_raw_call].
  - apply runs_sim; [by apply sim_raw_quiet|by apply (plain_of _ (RawQuiet req) (fun _ => AUnit))].
Qed.

(** C21: What each method of the client returns. The table [Program]
    lists every request method of the client (the lookups and launches of
    [Method], the methods of [Sized] that check the length of a payload, [init],
    [module_load_data], the bulk copies, the synchronizations, [drain],
    [take_sticky], [raw_call] and [raw_quiet]) with what it computes on a host
    that is a function call away. After any program of client operations, for
    arguments in the range of their types and requests that fit a message, the
    method returns exactly that over the wire, and leaves the host exactly
    there. It fails only with a status of the host or with one of the protocol
    errors listed for it: none, but for the payload-length checks of [Sized]
    and [memcpy_dtoh] (a host may answer a payload of another length) and the
    address overflow of the bulk copies. In particular no method meets a
    response of another constructor than it reads, a closed stream or an
    undecodable frame. *)
Theorem api_answers {A} (m : C Sess A) (n : P Sess A) msgs sess async auto ops :
  Program m n msgs -> host_ok dispatch sess -> Forall op_ok ops ->
  let w := (run_client dispatch ring_map sync_forced ops (world0 sess async auto)).2 in
  let s := (run_spec dispatch sync_forced ops (spec0 sess async auto)).2 in
  let '(a, s') := n s in
  let '(r, w') := m w in
  r = a /\ reach dispatch ring_map w' = Some (s_host s') /\
  match r with Ok _ | Err (Cuda _) => True | Err (Protocol msg) => msg ∈ msgs | Err _ => False end.
Proof.
  intros Hm Hs Hops w s.
  destruct (sim_run dispatch ring_map sync_forced ops _ _ Hops (R_start dispatch sess async auto Hs)) as [_ HR].
  fold w s in HR. destruct (program_runs m n msgs Hm w s HR) as (E & HR' & He).
  destruct (n s) as [a s'], (m w) as [r w']. cbn [fst snd] in *. subst r.
  split; [done|]. split; [by eapply reach_R|done].
Qed.

End Methods.

(** The download of a buffer on a host that answers every copy with nothing:
    the client refuses the payload. *)
Lemma api_answers_witness :
  let w := (run_client logging no_rings none_forced [Deferred (fill 7)] (world0 [] true true)).2 in
  (mem_alloc logging no_rings 64 w).1 = Ok 0 /\
  (memcpy_dtoh logging no_rings 4096 16 0 w).1 = Err (Protocol "invalid memcpy response length").
Proof.
  assert (Hops : Forall op_ok [Deferred (fill 7)])
    by (repeat constructor; vm_compute; repeat split; discriminate).
  split.
  - pose proof (api_answers logging no_rings none_forced _ _ _ [] true true [Deferred (fill 7)]
      (p_method logging no_rings none_forced _ _ _ (m_mem_alloc logging no_rings none_forced 64)
        ltac:(vm_compute; repeat split; discriminate)) I Hops) as H.
    cbv zeta in H |- *. destruct (mem_alloc _ _ _ _) as [r w'].
    vm_compute (pbind _ _ _) in H. by destruct H as [-> _].
  - pose proof (api_answers logging no_rings none_forced _ _ _ [] true true [Deferred (fill 7)]
      (p_memcpy_dtoh logging no_rings none_forced 4096 16 0 ltac:(by vm_compute) ltac:(by vm_compute) ltac:(by vm_compute))
      I Hops) as H.
    cbv zeta in H |- *. destruct (memcpy_dtoh _ _ _ _ _ _) as [r w'].
    vm_compute (spec_memcpy_dtoh _ _ _ _ _) in H. by destruct H as [-> _].
Defined.

End ApiProps.
