(* ===== verification/CudaStack.v ===== *)
(** * The whole stack on a device

    The methods of [Api], the pipeline of [Pipe], the serve loop and the
    dispatcher of [Mem] on a driver, composed: the
    dispatcher keeps the promise the pipeline's theorems ask of a host, as the
    instance [mem_host] of [Answering], over any driver whose results are in the
    range of their types ([TypedBackend]); the emulated device is one. *)

From S2P Require Import Prelude RustStr CudaProto CudaProtoFacts CudaProtoProps CudaPipe CudaPipeSpec CudaPipeFacts CudaPipeProps CudaMem CudaMemFacts CudaMemProps CudaApi CudaApiProps.

Module Stack.
Import Str Proto ProtoFacts ProtoProps Pipe PipeSpec PipeFacts PipeProps ApiProps Mem.
Open Scope cuda_scope.

(** ** States and answers in the range of their types *)

(** A status other than success. *)
Definition failure (e : Z) : Prop := is_i32 e /\ e <> 0.
Definition yes {A} (_ : A) : Prop := True.

Definition typedb {B A} (ok : B -> Prop) (Q : A -> Prop) (f : B -> CuResult A * B) : Prop :=
  forall b, ok b -> ok (f b).2 /\ match (f b).1 with Ok x => Q x | Err e => failure e end.

(** A driver whose results are in the range of the types it declares. *)
Class TypedBackend (B : Type) `{!Backend B} := {
  dev_ok : B -> Prop;
  t_total device : typedb dev_ok (is_uint 64) (device_total_mem device);
  t_info : typedb dev_ok (fun x => is_uint 64 x.1 /\ is_uint 64 x.2) mem_get_info;
  t_alloc n : is_uint 64 n -> typedb dev_ok (is_uint 64) (mem_alloc n);
  t_alloc_async n s : is_uint 64 n -> typedb dev_ok (is_uint 64) (mem_alloc_async n s);
  t_alloc_pool n p s : is_uint 64 n -> typedb dev_ok (is_uint 64) (mem_alloc_from_pool_async n p s);
  t_free d : typedb dev_ok yes (mem_free d);
  t_free_async d s : typedb dev_ok yes (mem_free_async d s);
  t_htod d data s : is_vec data -> typedb dev_ok yes (memcpy_htod d data s);
  t_dtoh d n s : is_uint 64 n -> typedb dev_ok (fun data => is_vec data /\ len data = n) (memcpy_dtoh d n s);
  t_dtod dst src n : is_uint 64 n -> typedb dev_ok yes (memcpy_dtod dst src n);
  t_dtod_async dst src n s : is_uint 64 n -> typedb dev_ok yes (memcpy_dtod_async dst src n s);
  t_memset d v n : is_uint 8 v -> is_uint 64 n -> typedb dev_ok yes (memset_d8 d v n);
  t_memset_async d v n s : is_uint 8 v -> is_uint 64 n -> typedb dev_ok yes (memset_d8_async d v n s);
  t_shm_htod d o n s : typedb dev_ok yes (memcpy_shm_htod d o n s);
  t_shm_dtoh o d n s : typedb dev_ok yes (memcpy_shm_dtoh o d n s);
  t_hash_shm o s e b : dev_ok b -> dev_ok (hash_shm_range o s e b).2;
  t_gpa_htod d l s : typedb dev_ok yes (memcpy_gpa_htod d l s);
  t_gpa_dtoh d l s : typedb dev_ok yes (memcpy_gpa_dtoh d l s);
  t_hash_gpa l s e b : dev_ok b -> dev_ok (hash_gpa_range l s e b).2;
  t_sync : typedb dev_ok yes ctx_synchronize;
  t_reserve n align : typedb dev_ok (is_uint 64) (mem_address_reserve n align);
  t_create n device : typedb dev_ok (is_uint 64) (mem_create n device);
  t_create_exportable n device : typedb dev_ok (is_uint 64) (mem_create_exportable n device);
  t_map va n off h : typedb dev_ok yes (mem_map va n off h);
  t_access va n device : typedb dev_ok yes (mem_set_access va n device);
  t_access_ro va n device : typedb dev_ok yes (mem_set_access_ro va n device);
  t_unmap va n : typedb dev_ok yes (mem_unmap va n);
  t_release h : typedb dev_ok yes (mem_release h);
  t_address_free va n : typedb dev_ok yes (mem_address_free va n);
  t_granularity device flags : typedb dev_ok (is_uint 64) (mem_get_allocation_granularity device flags);
}.

Definition sess_ok (s : Session) : Prop :=
  match vram_limit_bytes s with Some l => is_uint 64 l | None => True end /\
  Forall (fun r => is_uint 64 r.2) (shared_ranges s).
Definition worker_ok (w : Worker) : Prop :=
  Forall (fun r => is_uint 64 r.1 /\ is_uint 64 r.2) (shared_vmm_ranges w).

Create HintDb typed.

Section Typed.
Context {B : Type} `{!Backend B, !TypedBackend B}.
Notation D := (D B).

Definition state_ok (st : State B) : Prop := sess_ok (sess st) /\ worker_ok (worker st) /\ dev_ok (gpu st).

Definition typed {A} (Q : A -> Prop) (m : D A) : Prop :=
  forall st, state_ok st ->
  state_ok (m st).2 /\ match (m st).1 with Ok x => Q x | Err e => failure e end.

Lemma typed_ret {A} (Q : A -> Prop) x : Q x -> typed Q (dret x).
Proof. by intros H st Hst. Qed.
Lemma typed_fail {A} (Q : A -> Prop) e : failure e -> typed Q (dfail e).
Proof. by intros H st Hst. Qed.
Lemma typed_bind {A A'} (P : A -> Prop) (Q : A' -> Prop) (m : D A) k :
  typed P m -> (forall x, P x -> typed Q (k x)) -> typed Q (dbind m k).
Proof.
  intros Hm Hk st Hst. unfold dbind. destruct (Hm st Hst) as [H1 H2].
  destruct (m st) as [[x|e] st']; cbn in *; [by apply Hk|done].
Qed.
Lemma typed_weaken {A} (P Q : A -> Prop) (m : D A) :
  (forall x, P x -> Q x) -> typed P m -> typed Q m.
Proof. intros H Hm st Hst. destruct (Hm st Hst) as [H1 H2]. split; [done|]. case_match; auto. Qed.
Lemma typed_session : typed sess_ok session.
Proof. intros st Hst. split; [done|]. apply Hst. Qed.
Lemma typed_table : typed worker_ok table.
Proof. intros st Hst. split; [done|]. apply Hst. Qed.
Lemma typed_upd f : (forall s, sess_ok s -> sess_ok (f s)) -> typed yes (upd f).
Proof. intros Hf st (Hs & Hg). split; [|done]. split; [by apply Hf|done]. Qed.
Lemma typed_worker f : (forall w, worker_ok w -> worker_ok (f w)) -> typed yes (upd_worker f).
Proof. intros Hf st (Hs & Hw & Hg). split; [|done]. split; [done|]. split; [by apply Hf|done]. Qed.
Lemma typed_drive {A} (Q : A -> Prop) f : typedb dev_ok Q f -> typed Q (drive f).
Proof.
  intros Hf st (Hs & Hw & Hg). unfold drive. destruct (Hf _ Hg) as [H1 H2].
  destruct (f (gpu st)) as [r b]. cbn in *. by split.
Qed.
Lemma typed_dropped {A} (Q : A -> Prop) (m : D A) : typed Q m -> typed yes (dropped m).
Proof. intros Hm st Hst. split; [|done]. by apply Hm. Qed.
Lemma typed_on_error {A} (Q : A -> Prop) (m : D A) undo :
  typed Q m -> typed yes undo -> typed Q (on_error m undo).
Proof.
  intros Hm Hu st Hst. unfold on_error. destruct (Hm st Hst) as [H1 H2].
  destruct (m st) as [[x|e] st']; cbn in *; [done|]. split; [by apply Hu|done].
Qed.
Lemma typed_if {A} (Q : A -> Prop) (b : bool) m1 m2 :
  typed Q m1 -> typed Q m2 -> typed Q (if b then m1 else m2).
Proof. by destruct b. Qed.

(** ** The dispatcher *)

(** An answer of the shape of its request, within the frame a client asked for. *)
Definition reply (req : Request.Request) (r : Response.Response) : Prop :=
  response_ok r /\ answers (op_of req) r /\
  (answerable req -> len (encode_response 0 r) <= MAX_MSG).

(** What is asked of the arms that are not modelled, and of the environment. *)
Class TypedArms (env : Env) (other : Request.Request -> D Response.Response) : Prop := {
  env_limit_ok : is_uint 64 (env_vram_limit env);
  other_typed req : request_ok req -> typed (reply req) (other req);
}.

Lemma limit_ok env s total :
  is_uint 64 (env_vram_limit env) -> sess_ok s -> is_uint 64 total ->
  is_uint 64 (session_vram_limit env s total).
Proof.
  intros He [Hl _] Ht. unfold session_vram_limit. destruct (vram_limit_bytes s); [done|].
  destruct (fork_pool_size s) as [n|]; [|done]. destruct (0 <? n) eqn:En; [|done]. bool_simpl.
  unfold pool_vram_limit, is_uint, saturating_mul, saturating_add, u_max, DEFAULT_FORK_DENSITY_SLOTS,
    FORK_POOL_HEADROOM_PERCENT in *.
  assert (H8 : 0 <= total / 8 <= total) by (split; [apply Z.div_pos|apply Z.div_le_upper_bound]; lia).
  destruct (fork_clone s); cbn [negb]; [|lia].
  assert (0 <= Z.min (total * (100 - 10)) (2 ^ 64 - 1) / 100 / Z.min (n + 1) (2 ^ 64 - 1)).
  { apply Z.div_pos; [apply Z.div_pos|]; lia. }
  lia.
Qed.

Lemma info_ok env s free total :
  is_uint 64 (env_vram_limit env) -> sess_ok s -> is_uint 64 free -> is_uint 64 total ->
  is_uint 64 (virtual_memory_info env s free total).1 /\ is_uint 64 (virtual_memory_info env s free total).2.
Proof.
  intros He Hs Hf Ht. unfold virtual_memory_info. cbn [fst snd].
  pose proof (limit_ok env s total He Hs Ht). unfold is_uint, saturating_sub in *. lia.
Qed.

(** The answers without a buffer are small. *)
Lemma small_reply req r :
  match r with Response.Ok | Response.Bytes _ | Response.Handle _ | Response.Dptr _ | Response.Pair _ _ => True
             | _ => False end ->
  response_ok r -> answers (op_of req) r -> reply req r.
Proof.
  intros Hr Hok Ha. split; [done|]. split; [done|]. intros _.
  destruct r; try done; unfold encode_response, w_u64, w_i32; cbn [Z.eqb];
    rewrite ?len_app, ?len_to_le, ?len_nil; vm_compute; discriminate.
Qed.

Lemma keeps_upd f :
  (forall s, vram_limit_bytes (f s) = vram_limit_bytes s /\ shared_ranges (f s) = shared_ranges s) ->
  typed yes (upd f).
Proof. intros Hf. apply typed_upd. intros s Hs. destruct (Hf s) as [E1 E2]. unfold sess_ok. by rewrite E1, E2. Qed.

Hint Resolve typed_session typed_table typed_ret typed_fail typed_dropped typed_on_error typed_if typed_drive : typed.
Hint Resolve t_total t_info t_alloc t_alloc_async t_alloc_pool t_free t_free_async t_htod t_dtoh t_dtod t_dtod_async
  t_memset t_memset_async t_shm_htod t_shm_dtoh t_gpa_htod t_gpa_dtoh t_sync t_reserve t_create t_create_exportable
  t_map t_access t_access_ro t_unmap t_release t_address_free t_granularity : typed.
Hint Extern 1 (typed _ (upd _)) => (apply keeps_upd; intros; by split) : typed.
Hint Extern 1 (typed _ (upd_worker _)) => (apply typed_worker; by intros) : typed.
Hint Extern 1 (failure _) => (split; [split; vm_compute; congruence|discriminate]) : typed.
Hint Extern 1 (yes _) => exact I : typed.

(** One step of a program: a bind whose first part is known, or a leaf. *)
Ltac ty_step :=
  lazymatch goal with
  | |- typed _ (dbind _ _) => eapply typed_bind; [solve [eauto with typed]|intros ? ?]
  | |- typed _ (if ?b then _ else _) => destruct b
  | |- typed _ (match ?x with _ => _ end) => destruct x
  | |- typed _ (let '(_, _) := ?x in _) => destruct x
  | |- typed _ _ => solve [eauto with typed]
  end.
Ltac ty := repeat ty_step.

Section Host.
Context (env : Env) (other : Request.Request -> D Response.Response) `{!TypedArms env other}.

Lemma quota_typed n : typed yes (check_quota env n).
Proof.
  assert (H : typed yes (allocation_vram_limit env)).
  { unfold allocation_vram_limit. eapply typed_bind; [apply typed_session|intros s Hs].
    destruct (vram_limit_bytes s), (fork_pool_size s); try by apply typed_ret.
    eapply typed_bind; [apply typed_drive, t_total|intros total _]. by apply typed_ret. }
  unfold check_quota. eapply typed_bind; [exact H|intros]. ty.
Qed.
Lemma own_typed d size : typed yes (own d size).
Proof. unfold own. ty. Qed.
Lemma disown_typed d : typed yes (disown d).
Proof. unfold disown. ty. Qed.
Hint Resolve quota_typed own_typed disown_typed : typed.

Lemma private_copy_typed base size k :
  is_uint 64 size -> (forall c, typed yes (k c)) -> typed yes (private_copy base size k).
Proof.
  intros Hsz Hk st Hst. unfold private_copy.
  pose proof (typed_drive _ _ (t_alloc size Hsz) st Hst) as [H1 _].
  destruct (drive (mem_alloc size) st) as [[c|e] st']; [|done].
  revert H1. cbn [snd]. generalize st'. clear st'. intros st' H1.
  refine ((_ : typed yes _) st' H1). eapply typed_bind; [|intros _ _].
  { apply (typed_dropped yes), typed_drive. by apply t_dtod. }
  eapply typed_bind; [solve [eauto with typed]|intros _ _]. apply Hk.
Qed.

Lemma swap_remove_forall {A} (Q : A -> Prop) i l : Forall Q l -> Forall Q (swap_remove i l).
Proof.
  intros H. unfold swap_remove. destruct (last l) as [x|] eqn:E; [|done].
  apply Forall_take, Forall_insert; [done|]. apply last_Some in E as [l' ->]. by apply Forall_app in H as [_ H]; inv H.
Qed.

Lemma cow_one_typed dptr : typed yes (cow_one dptr).
Proof.
  unfold cow_one. eapply typed_bind; [apply typed_session|intros s Hs].
  destruct (position _ _) as [i|]; [|by apply typed_ret].
  destruct (shared_ranges s !! i) as [[base size]|] eqn:Ei; [|by apply typed_ret].
  assert (Hsz : is_uint 64 size).
  { destruct Hs as [_ Hs]. by apply (Forall_lookup_1 _ _ _ _ Hs Ei). }
  eapply typed_bind; [|intros _ _; apply private_copy_typed; [done|intros; ty; unfold sync_lib_trans; ty]].
  apply typed_upd. intros s' [H1 _]. split; [done|]. by apply swap_remove_forall, Hs.
Qed.

Lemma cow_written_typed req : typed yes (cow_written req).
Proof.
  unfold cow_written. eapply typed_bind; [apply typed_session|intros s Hs].
  destruct (no_entries _); [by apply typed_ret|]. destruct req; first [apply cow_one_typed|by apply typed_ret].
Qed.

Lemma replace_typed device base size : is_uint 64 size -> typed yes (replace_chunk (B := B) device base size).
Proof.
  intros Hs. unfold replace_chunk. eapply typed_bind; [solve [eauto with typed]|intros private _].
  eapply (typed_bind (fun data => is_vec data /\ len data = size)).
  { apply typed_on_error; eauto with typed. }
  intros snapshot [Hv _]. ty.
Qed.

Lemma worker_swap i w : worker_ok w -> worker_ok (set_shared_vmm (swap_remove i (shared_vmm_ranges w)) w).
Proof. intros Hw. by apply swap_remove_forall. Qed.

Lemma cow_loop_typed fuel device dptr write_end : typed yes (cow_vmm_loop (B := B) fuel device dptr write_end).
Proof.
  induction fuel as [|fuel IH]; cbn [cow_vmm_loop]; [by apply typed_ret|].
  eapply typed_bind; [apply typed_table|intros w Hw].
  destruct (position _ _) as [i|]; [|by apply typed_ret].
  destruct (shared_vmm_ranges w !! i) as [[base size]|] eqn:Ei; [|by apply typed_ret].
  eapply typed_bind; [apply replace_typed|intros _ _].
  { by apply (Forall_lookup_1 _ _ _ _ Hw Ei). }
  eapply typed_bind; [|intros _ _; exact IH]. apply typed_worker. intros w' _. by apply swap_remove_forall.
Qed.

Lemma cow_vmm_typed req : typed yes (cow_worker_vmm_written req).
Proof.
  unfold cow_worker_vmm_written. destruct (written_range req) as [[dptr n]|]; [|by apply typed_ret].
  unfold cow_worker_vmm_range. destruct (n =? 0); [by apply typed_ret|].
  eapply typed_bind; [apply typed_session|intros s _]. eapply typed_bind; [apply typed_table|intros w _].
  apply cow_loop_typed.
Qed.

Lemma unit_typed req m : typed yes m -> answers (op_of req) Response.Ok -> typed (reply req) (unit_ok m).
Proof.
  intros Hm Ha. unfold unit_ok. eapply typed_bind; [exact Hm|intros _ _].
  apply typed_ret. by apply small_reply.
Qed.

Lemma chunks_state {S} (Q : S -> Prop) (crc_of : Z -> Z -> S -> Z * S) dptr end_ l st :
  (forall s e st, Q st -> Q (crc_of s e st).2) -> Q st -> Q (mark_chunks crc_of dptr end_ l st).2.
Proof.
  intros H. revert st. induction l as [|[base c] l IH]; intros st Hst; [done|]. cbn [mark_chunks].
  assert (E : Q (mark_chunk crc_of dptr end_ base c st).2).
  { unfold mark_chunk. case_match; [done|]. specialize (H (Z.max dptr base - dptr)
      (Z.min end_ (wrap 64 (base + cc_size c)) - dptr) st Hst). by destruct (crc_of _ _ st). }
  destruct (mark_chunk _ _ _ _ _ st) as [c' st1]. cbn in E.
  specialize (IH st1 E). by destruct (mark_chunks _ _ _ l st1).
Qed.

Lemma loaded_vmm_typed dptr n hash :
  (forall s e b, dev_ok b -> dev_ok (hash s e b).2) -> typed yes (loaded_vmm (B := B) dptr n hash).
Proof.
  intros Hh st (Hs & Hw & Hg). unfold loaded_vmm, mark_loaded_vmm_with.
  pose proof (chunks_state dev_ok (fun s e b => let '(r, b) := hash s e b in (default 0 r, b)) dptr
    (saturating_add 64 dptr n) (map_to_list (maps (golden_layout (sess st)))) (gpu st)) as E.
  destruct (mark_chunks _ _ _ _ _) as [l b]. cbn [fst snd] in *. split; [|done]. split; [done|]. split; [done|].
  apply E; [|done]. intros s e b' Hb. specialize (Hh s e b' Hb). by destruct (hash s e b').
Qed.

Lemma loaded_typed dptr : typed yes (loaded (B := B) dptr).
Proof. unfold loaded. eauto with typed. Qed.
Hint Resolve loaded_typed : typed.

Ltac ans := unfold answers; opcode.

Lemma alloc_reply req n f :
  typedb dev_ok (is_uint 64) f -> (forall d, is_uint 64 d -> answers (op_of req) (Response.Dptr d)) ->
  typed (reply req) (let% d := drive f in let% _ := own d n in dret (Response.Dptr d)).
Proof.
  intros Hf Ha. eapply typed_bind; [by apply typed_drive|intros d Hd].
  eapply typed_bind; [apply own_typed|intros _ _]. apply typed_ret, small_reply; auto.
Qed.

Lemma total_reply device :
  typed (reply (Request.DeviceTotalMem device))
    (let% s := session in
     let% total := drive (device_total_mem (dev s device)) in
     dret (Response.Bytes (Z.min total (session_vram_limit env s total)))).
Proof.
  eapply typed_bind; [apply typed_session|intros s Hs].
  eapply typed_bind; [apply typed_drive, t_total|intros total Ht].
  pose proof (limit_ok env s total env_limit_ok Hs Ht) as Hl.
  apply typed_ret, small_reply; [done| |ans]. cbn [response_ok]. unfold is_uint in *. lia.
Qed.

Lemma info_reply :
  typed (reply Request.MemGetInfo)
    (let% (free, total) := drive mem_get_info in
     let% s := session in
     let '(free, total) := virtual_memory_info env s free total in
     dret (Response.Pair free total)).
Proof.
  eapply typed_bind; [apply typed_drive, t_info|intros [free total] [Hf Ht]].
  eapply typed_bind; [apply typed_session|intros s Hs].
  apply typed_ret, small_reply; [done| |ans]. by apply (info_ok env s free total env_limit_ok Hs).
Qed.

Lemma heap_typed req m :
  request_ok req -> dispatch_heap env req = Some m -> typed (reply req) m.
Proof.
  destruct req; intros Hr; cbn [dispatch_heap]; intros E; inv E; cbn [request_ok] in Hr; destruct_and?.
  all: try (eapply typed_bind; [apply quota_typed|intros _ _]).
  all: try by apply alloc_reply; [eauto with typed|intros; ans].
  - apply total_reply.
  - ty; [by apply typed_ret, small_reply; [..|ans]|]. apply unit_typed; [by apply typed_drive, t_free|ans].
  - apply info_reply.
  - eapply typed_bind; [apply typed_session|intros s Hs].
    destruct (mem_pools s !! pool); [by apply alloc_reply; [apply t_alloc_pool|intros; ans]|eauto with typed].
  - eapply typed_bind; [by apply typed_drive, t_free_async|intros _ _]. by apply unit_typed; [apply disown_typed|ans].
Qed.

Lemma data_reply dptr n stream data :
  is_vec data -> len data = n -> reply (Request.MemcpyDtoH dptr n stream) (Response.Data data).
Proof.
  intros Hv Hl. split; [done|]. split; [ans|]. cbn [answerable]. intros Hn.
  unfold encode_response, w_i32. cbn [Z.eqb]. rewrite w_bytes_app; unfold le_bytes; rewrite !len_app, !len_to_le, Hl, len_nil. unfold MAX_MSG. lia.
Qed.

Lemma copy_typed_all req m :
  request_ok req -> dispatch_copy env req = Some m -> typed (reply req) m.
Proof.
  destruct req; intros Hr; cbn [dispatch_copy]; intros E; inv E; cbn [request_ok] in Hr; destruct_and?.
  all: try (eapply typed_bind; [apply loaded_typed|intros _ _]).
  all: try (apply unit_typed; [apply typed_drive; solve [eauto with typed]|ans]).
  all: try (eapply (typed_bind yes); [destruct (path3_enabled env); eauto using loaded_vmm_typed, t_hash_shm, t_hash_gpa with typed|intros _ _];
    apply unit_typed; [apply typed_drive; solve [eauto with typed]|ans]).
  eapply typed_bind; [by apply typed_drive, t_dtoh|intros data [Hv Hl]].
  apply typed_ret. by apply data_reply.
Qed.

Lemma access_typed device parts : typed yes (set_access_parts (B := B) device parts).
Proof.
  induction parts as [|[[va size] ro] parts IH]; cbn [set_access_parts]; [by apply typed_ret|].
  eapply typed_bind; [apply typed_session|intros s _].
  eapply (typed_bind yes); [|intros _ _; exact IH]. apply typed_drive. destruct ro; eauto with typed.
Qed.

Lemma create_typed size device : typed (is_uint 64) (create env size device).
Proof.
  unfold create. eapply typed_bind; [apply quota_typed|intros _ _].
  eapply typed_bind; [apply typed_session|intros s _].
  eapply (typed_bind (is_uint 64)); [|intros h Hh; eapply typed_bind; [solve [eauto with typed]|intros _ _]; by apply typed_ret].
  apply typed_drive. destruct (path3_enabled env); eauto with typed.
Qed.

Lemma release_typed handle : typed (reply (Request.MemRelease handle)) (release (B := B) handle).
Proof.
  assert (Hu : forall h, typed (reply (Request.MemRelease handle)) (unit_ok (drive (mem_release h)))).
  { intros h. apply unit_typed; [|ans]. apply typed_drive, t_release. }
  assert (Hr : typed (reply (Request.MemRelease handle)) (dret Response.Ok))
    by (apply typed_ret, small_reply; [done..|ans]).
  unfold release. ty.
Qed.

(** What is left of a range once part of it is unmapped. *)
Lemma forget_range_ok va size w :
  is_uint 64 va -> is_uint 64 size -> worker_ok w ->
  worker_ok (set_shared_vmm (forget_worker_shared_vmm_range va size (shared_vmm_ranges w)) w).
Proof.
  intros Hva Hsz Hw. unfold worker_ok, set_shared_vmm. cbn [shared_vmm_ranges]. unfold forget_worker_shared_vmm_range.
  destruct (checked_add 64 va size) as [end_|] eqn:Ee; [|done]. apply Forall_bind. eapply Forall_impl; [exact Hw|].
  intros [base n] [Hb Hn]. unfold forget_range, checked_add, u_max, is_uint in *. unfold compose. cbn [fst snd] in *. cbv beta iota.
  destruct (base + n <=? _) eqn:E1; [|constructor].
  destruct (va + size <=? _) eqn:E2; [|done]. inv Ee. bool_simpl.
  repeat case_bool_guard; bool_simpl; repeat constructor; cbn [fst snd]; lia.
Qed.

Lemma vmm_typed req m :
  request_ok req -> dispatch_vmm env req = Some m -> typed (reply req) m.
Proof.
  destruct req; intros Hr; cbn [dispatch_vmm]; intros E; inv E; cbn [request_ok] in Hr; destruct_and?.
  all: try apply release_typed.
  - eapply typed_bind; [apply typed_drive, t_reserve|intros va Hva].
    do 2 (eapply typed_bind; [solve [eauto with typed]|intros _ _]). apply typed_ret, small_reply; [done..|ans].
  - eapply typed_bind; [apply create_typed|intros h Hh]. apply typed_ret, small_reply; [done..|ans].
  - eapply typed_bind; [apply create_typed|intros h Hh]. apply unit_typed; [eauto with typed|ans].
  - eapply typed_bind; [solve [eauto with typed]|intros _ _]. apply unit_typed; [eauto with typed|ans].
  - eapply typed_bind; [apply typed_session|intros s _]. eapply typed_bind; [apply typed_table|intros w _].
    eapply (typed_bind yes).
    + intros st Hst. split; [done|]. unfold resolve_handle. cbn [fst].
      destruct (vmm_vhandles s !! handle); [done|]. destruct (_ ≫= _); [done|].
      destruct (negb _); [|done]. eauto with typed.
    + intros h _. do 3 (eapply typed_bind; [solve [eauto with typed]|intros _ _]). apply unit_typed; [eauto with typed|ans].
  - eapply typed_bind; [apply typed_table|intros w _]. apply unit_typed; [apply access_typed|ans].
  - do 4 (eapply typed_bind; [solve [eauto with typed]|intros _ _]).
    apply unit_typed; [|ans]. apply typed_worker. intros w. by apply forget_range_ok.
  - do 2 (eapply typed_bind; [solve [eauto with typed]|intros _ _]).
    apply unit_typed; [apply typed_drive, t_address_free|ans].
  - eapply typed_bind; [apply typed_session|intros s _].
    eapply typed_bind; [apply typed_drive, t_granularity|intros n Hn]. apply typed_ret, small_reply; [done..|ans].
Qed.

Lemma arms_typed req : request_ok req -> typed (reply req) (dispatch_arms env other req).
Proof.
  intros Hr. unfold dispatch_arms.
  destruct (dispatch_heap env req) as [m|] eqn:E1; [by eapply heap_typed|].
  destruct (dispatch_copy env req) as [m|] eqn:E2; [by eapply copy_typed_all|].
  destruct (dispatch_vmm env req) as [m|] eqn:E3; [by eapply vmm_typed|]. by apply other_typed.
Qed.

(** ** Translated requests *)

Lemma xlat_uint trans p : is_uint 64 p -> is_uint 64 (xlat trans p).
Proof.
  intros Hp. unfold xlat. repeat case_match; try done. unfold is_uint, wrap.
  match goal with |- context [?x mod _] => pose proof (Z.mod_pos_bound x (2 ^ 64) ltac:(lia)) end. lia.
Qed.

Lemma windows_bytes trans fuel : forall p,
  is_bytes p -> is_bytes (xlat_windows fuel trans p) /\ len (xlat_windows fuel trans p) = len p.
Proof.
  induction fuel as [|fuel IH]; intros p Hp; [done|]. cbn [xlat_windows].
  destruct (8 <=? len p) eqn:E; bool_simpl; [|done].
  destruct (IH (slice p 8 (len p)) (slice_bytes _ _ _ Hp)) as [H1 H2].
  rewrite len_slice in H2 by lia. split.
  - apply bytes_app; [|done]. case_match; [apply to_le_bytes|by apply slice_bytes].
  - rewrite len_app, H2. case_match; rewrite ?len_to_le, ?len_slice; lia.
Qed.
Lemma args_vec trans p : is_vec p -> is_vec (xlat_args trans p).
Proof.
  intros [H1 H2]. destruct (windows_bytes trans (length p) p H1) as [H3 H4].
  split; [done|]. unfold xlat_args. by rewrite H4.
Qed.

Lemma list_map_ok {A A'} w (P : A -> Prop) (Q : A' -> Prop) f l :
  (forall x, P x -> Q (f x)) -> is_list w P l -> is_list w Q (f <$> l).
Proof.
  intros Hf [Hl HP]. split; [unfold len in *; by rewrite length_fmap|].
  apply Forall_fmap. eapply Forall_impl; [exact HP|done].
Qed.

Lemma translate_ok trans req : request_ok req -> request_ok (translate_dptrs trans req).
Proof.
  intros Hr. unfold translate_dptrs. destruct (no_entries trans); [done|].
  destruct req; cbn [request_ok] in *; destruct_and?; split_and?; auto using xlat_uint, args_vec.
  - apply (list_map_ok _ is_vec); [apply args_vec|done].
  - apply (list_map_ok _ is_pair); [|done]. intros x [Hx1 Hx2]. by split; [apply xlat_uint|].
  - unfold len in *. by rewrite length_fmap.
Qed.

Lemma translate_op trans req : op_of (translate_dptrs trans req) = op_of req.
Proof.
  unfold translate_dptrs. destruct (no_entries trans); [done|]. destruct req; try done.
  all: unfold op_of; wire_norm; reflexivity.
Qed.

Lemma translate_reply trans req r : reply (translate_dptrs trans req) r -> reply req r.
Proof.
  unfold reply. rewrite translate_op. intros (H1 & H2 & H3). split; [done|]. split; [done|].
  intros Ha. apply H3. unfold translate_dptrs. destruct (no_entries trans); [done|]. by destruct req.
Qed.

Lemma served_typed req :
  request_ok req ->
  typed (reply req) (let% _ := cow_worker_vmm_written req in
                     let% _ := cow_written req in
                     let% s := session in
                     dispatch_arms env other (translate_dptrs (dptr_trans s) req)).
Proof.
  intros Hr. eapply typed_bind; [apply cow_vmm_typed|intros _ _].
  eapply typed_bind; [apply cow_written_typed|intros _ _].
  eapply typed_bind; [apply typed_session|intros s _].
  eapply typed_weaken; [apply translate_reply|]. by apply arms_typed, translate_ok.
Qed.

(** The dispatcher is a host the pipeline can rely on. *)
#[global] Instance mem_host : Answering (dispatch env other).
Proof.
  refine {| host_ok := state_ok |}. intros st req Hst Hr. unfold dispatch.
  destruct (served_typed req Hr st Hst) as [H1 H2].
  destruct ((let% _ := cow_worker_vmm_written req in _) st) as [[r|e] st']; cbn [fst snd] in *.
  - destruct H2 as (H2 & H3 & H4). split; [unfold is_i32; lia|]. by split_and!.
  - destruct H2 as [H2 H3]. split; [done|]. split; [done|]. split; [|done]. intros _.
    unfold encode_response. rewrite (proj2 (Z.eqb_neq e 0) H3). unfold w_i32.
    rewrite app_nil_l, len_to_le. by vm_compute.
Defined.

End Host.
End Typed.

(** ** The emulated device *)

Definition cpu_ok (b : CpuBackend) : Prop :=
  is_uint 64 (next_dptr b) /\ map_Forall (fun _ => is_vec) (mem b).

Lemma cpu_insert b d buf : cpu_ok b -> is_vec buf -> cpu_ok (MkCpu (next_dptr b) (<[d := buf]> (mem b))).
Proof. intros [H1 H2] Hb. split; [done|]. by apply map_Forall_insert_2. Qed.

Lemma alloc_typed n : is_uint 64 n -> typedb cpu_ok (is_uint 64) (cpu_alloc n).
Proof.
  intros Hn b [H1 H2]. unfold cpu_alloc. cbn [fst snd]. split; [|done]. split; cbn [next_dptr mem].
  - unfold is_uint, wrap. pose proof (Z.mod_pos_bound (next_dptr b + Z.max n 1) (2 ^ 64) ltac:(lia)). lia.
  - apply map_Forall_insert_2; [|done]. split.
    + apply Forall_replicate. unfold is_byte. lia.
    + unfold len. rewrite length_replicate. unfold is_uint in *. lia.
Qed.
Lemma free_typed d : typedb cpu_ok yes (cpu_free d).
Proof.
  intros b [H1 H2]. unfold cpu_free. case_match; cbn [fst snd]; [|by split].
  split; [|done]. split; [done|]. by apply map_Forall_delete.
Qed.

(** A buffer with its first bytes replaced. *)
Lemma splice_vec (data buf : bytes) :
  is_bytes data -> is_vec buf -> len data <= len buf -> is_vec (data ++ drop (length data) buf).
Proof.
  intros Hd [Hb Hl] Hle. split.
  - apply Forall_app. split; [done|]. by apply Forall_drop.
  - unfold len, is_uint in *. rewrite length_app, length_drop. lia.
Qed.
Lemma write_typed d data : is_bytes data -> typedb cpu_ok yes (cpu_write d data).
Proof.
  intros Hd b Hb. unfold cpu_write. destruct (mem b !! d) as [buf|] eqn:Eb; [|by split].
  destruct (len data >? len buf) eqn:E; [by split|]. rewrite Z.gtb_ltb in E. bool_simpl.
  split; [|done]. apply cpu_insert; [done|]. apply splice_vec; [done| |lia]. by eapply Hb.
Qed.
Lemma read_typed d n :
  is_uint 64 n -> typedb cpu_ok (fun data => is_vec data /\ len data = n) (cpu_read d n).
Proof.
  intros Hn b Hb. unfold cpu_read. destruct (mem b !! d) as [buf|] eqn:Eb; [|by split].
  destruct (n >? len buf) eqn:E; [by split|]. rewrite Z.gtb_ltb in E. bool_simpl.
  split; [done|]. cbn [fst]. assert (Hv : is_vec buf) by by eapply Hb. destruct Hv as [Hv _].
  assert (Hl : len (slice buf 0 n) = n) by (unfold is_uint in *; rewrite len_slice; lia).
  split; [|done]. split; [by apply slice_bytes|by rewrite Hl].
Qed.
Lemma copy_typed dst src n : is_uint 64 n -> typedb cpu_ok yes (cpu_copy dst src n).
Proof.
  intros Hn b Hb. unfold cpu_copy. destruct (read_typed src n Hn b Hb) as [H1 H2].
  destruct (cpu_read src n b) as [[data|e] b']; cbn in *; [|done]. by apply write_typed; [apply H2|].
Qed.
Lemma fill_typed d v n : is_uint 8 v -> is_uint 64 n -> typedb cpu_ok yes (cpu_fill d v n).
Proof.
  intros Hv Hn b Hb. unfold cpu_fill. destruct (mem b !! d) as [buf|] eqn:Eb; [|by split].
  destruct (n >? len buf) eqn:E; [by split|]. rewrite Z.gtb_ltb in E. bool_simpl.
  split; [|done]. apply cpu_insert; [done|].
  pose proof (splice_vec (replicate (Z.to_nat n) v) buf) as H. rewrite length_replicate in H. apply H.
  - apply Forall_replicate. unfold is_byte, is_uint in *. lia.
  - by eapply Hb.
  - unfold len, is_uint in *. rewrite length_replicate. lia.
Qed.
Lemma unsupported_typed {A} (Q : A -> Prop) : typedb cpu_ok Q unsupported.
Proof. by intros b Hb. Qed.
Lemma not_found_typed {A} (Q : A -> Prop) : typedb cpu_ok Q not_found.
Proof. by intros b Hb. Qed.


#[global, refine] Instance cpu_typed : TypedBackend CpuBackend := {| dev_ok := cpu_ok |}.
Proof.
  all: try (intros; first [apply unsupported_typed|apply not_found_typed]).
  all: try (intros; first [by apply alloc_typed|by apply free_typed|by apply copy_typed|by apply fill_typed]).
  all: try done.
  - intros d data s [Hd _]. by apply write_typed.
  - intros d n s Hn. by apply read_typed.
Defined.

End Stack.
