(* ===== verification/CudaReadBack.v ===== *)
(** * A buffer written and read back through the whole stack

    A guest allocates a buffer, uploads data and downloads it again: the
    methods of [Api] with their loops over pieces, the pipeline, the wire, the
    serve loop and the dispatcher of [Mem], on any driver with the laws of
    [DeviceLaws] and results in the range of their types ([TypedBackend]). Any
    call of the driver may fail; the theorem says where a failure shows. *)

From S2P Require Import Prelude RustStr CudaProto CudaProtoFacts CudaProtoProps CudaPipe CudaPipeSpec CudaPipeFacts CudaPipeProps CudaMem CudaMemFacts CudaMemIso CudaMemProps CudaApi CudaApiProps CudaStack.

Module ReadBack.
Import Str Proto ProtoFacts ProtoProps Pipe PipeSpec PipeFacts PipeProps ApiProps Mem MemFacts Stack.
Open Scope cuda_scope.

(** ** Requests when nothing is held back *)

Section Spec.
Context {Sess : Type} (dispatch : Sess -> Request.Request -> (Z * Response.Response) * Sess) `{!Answering dispatch}.
Variable sync_forced : Request.Request -> Op.Op -> bool.

Definition ordinary (r : Request.Request) : Prop :=
  is_begin r = false /\ is_end r = false /\ auto_graph_eligible r = false.

(** No failure, or one the client or the host still holds. *)
Definition clear (s : Spec Sess) : Prop := s_sticky s = 0 /\ quiet_sticky (s_host s) = 0.
Definition failed (s : Spec Sess) : Prop := s_sticky s <> 0 \/ quiet_sticky (s_host s) <> 0.

Definition ready (s : Spec Sess) : Prop := s_pend s = [] /\ host_ok dispatch (h_sess (s_host s)).

Lemma host_stays_ok sess req :
  host_ok dispatch sess -> request_ok req -> host_ok dispatch (dispatch sess req).2.
Proof.
  intros Hs Hr. pose proof (host_answers sess req Hs Hr) as H. by destruct (dispatch sess req) as [[]]; destruct_and?.
Qed.

(** A call is one dispatch; it leaves held failures where they are. *)
Lemma call_spec r s :
  ready s -> ordinary r -> request_ok r ->
  let '((st, resp), sess') := dispatch (h_sess (s_host s)) r in
  exists s', spec_call dispatch r s = (if st =? 0 then Ok resp else Err (Cuda st), s') /\ ready s' /\
    s_sticky s' = s_sticky s /\ s_host s' = MkHost sess' (quiet_sticky (s_host s)).
Proof.
  intros [Hp Hh] (Hb & He & _) Hr. pose proof (host_stays_ok _ r Hh Hr) as Hok.
  unfold spec_call, pbind, spec_flush. rewrite Hp. cbn [segment spec_all].
  unfold pret, pset, spec_round_trip. rewrite Hb, He.
  assert (Eh : forall b : bool, s_host (if b then upd_pend [] s else dirty (upd_pend [] s)) = s_host s) by by destruct b.
  rewrite Eh. destruct (dispatch (h_sess (s_host s)) r) as [[st resp] sess']. cbn [snd] in Hok.
  destruct (st =? 0); cbn [negb]; eexists; (split; [reflexivity|]); split_and!; try done;
    by destruct (keeps_clean (op_of r)).
Qed.

(** A deferred request is refused for an earlier failure, or dispatched, or
    dropped after an earlier failure; a failure of its own is held or returned. *)
Lemma direct_spec r s :
  ready s -> request_ok r ->
  match spec_direct dispatch r s with
  | (Ok _, s') =>
      ready s' /\ (failed s /\ failed s' \/
      clear s /\ exists st resp, dispatch (h_sess (s_host s)) r = ((st, resp), h_sess (s_host s')) /\
        (st = 0 /\ clear s' \/ st <> 0 /\ failed s'))
  | (Err e, s') => failed s /\ exists z, e = Cuda z
  end.
Proof.
  intros [Hp Hh] Hr. unfold spec_direct, pbind.
  assert (Hf : exists s1, (if MAX_DEFERRED <=? s_deferred s then spec_fence s else (Ok tt, s)) = (Ok tt, s1) /\
            s_pend s1 = [] /\ h_sess (s_host s1) = h_sess (s_host s) /\
            (failed s -> failed s1) /\ (clear s -> clear s1) /\ (failed s1 -> failed s) /\ (clear s1 -> clear s)).
  { destruct (MAX_DEFERRED <=? s_deferred s); [|by exists s]. unfold spec_fence.
    destruct (s_deferred s =? 0); [by exists s|]. eexists. split; [reflexivity|].
    destruct (negb (quiet_sticky (s_host s) =? 0) && _) eqn:E; unfold failed, clear; cbn in *;
      (split; [done|split; [done|]]); cbn in E; apply andb_true_iff in E || apply andb_false_iff in E;
      rewrite ?negb_true_iff, ?negb_false_iff, ?Z.eqb_eq, ?Z.eqb_neq in E; lia. }
  destruct Hf as (s1 & -> & Hp1 & Hh1 & F1 & C1 & F2 & C2). destruct (s_sticky s1 =? 0) eqn:Es; cbn [negb]; bool_simpl.
  2: { split; [apply F2; by left|eauto]. }
  unfold dispatch_quiet. rewrite Hh1. destruct (quiet_sticky (s_host s1) =? 0) eqn:Eq; cbn [negb snd]; bool_simpl.
  - pose proof (host_stays_ok _ r Hh Hr) as Hok. destruct (dispatch (h_sess (s_host s)) r) as [[st resp] sess'].
    cbn [fst snd] in *. split; [by split|]. right. split; [apply C2; by split|]. exists st, resp. split; [done|].
    unfold clear, failed. cbn. destruct (st =? 0) eqn:E0; cbn [negb]; bool_simpl; [left|right]; split; auto.
  - split; [split; [done|by cbn; rewrite Hh1]|]. left. split; [apply F2; by right|by right].
Qed.

Lemma deferred_spec r s :
  ready s -> ordinary r -> request_ok r ->
  match spec_deferred dispatch sync_forced r s with
  | (Ok _, s') =>
      ready s' /\ (failed s /\ failed s' \/
      clear s /\ exists st resp, dispatch (h_sess (s_host s)) r = ((st, resp), h_sess (s_host s')) /\
        (st = 0 /\ clear s' \/ st <> 0 /\ failed s'))
  | (Err e, s') => (exists z, e = Cuda z) /\
      (failed s \/ clear s /\ exists st resp sess', dispatch (h_sess (s_host s)) r = ((st, resp), sess') /\ st <> 0)
  end.
Proof.
  intros Hrd Ho Hr. unfold spec_deferred, pbind at 1, pset.
  assert (Hrd' : ready (dirty s)) by exact Hrd.
  assert (Hd : forall s, clear s \/ failed s).
  { intros s0. unfold clear, failed. lia. }
  destruct (negb _ || _).
  - pose proof (call_spec r (dirty s) Hrd' Ho Hr) as Hc. change (s_host (dirty s)) with (s_host s) in Hc.
    destruct (dispatch (h_sess (s_host s)) r) as [[st resp] sess'] eqn:Ed.
    destruct Hc as (s' & E & Hr' & Hs' & Hh'). unfold pbind. rewrite E. unfold clear, failed in *.
    destruct (st =? 0) eqn:E0; bool_simpl; cbn [pret].
    + split; [done|]. rewrite Hs', Hh'. cbn [h_sess quiet_sticky]. destruct (Hd s) as [H|H]; [right|by left].
      split; [done|]. exists st, resp. split; [done|]. by left.
    + split; [eauto|]. destruct (Hd s) as [H|H]; [right|by left]. split; [done|]. by exists st, resp, sess'.
  - pose proof (direct_spec r (dirty s) Hrd' Hr) as Hq.
    assert (E : spec_quiet dispatch r (dirty s) = spec_direct dispatch r (dirty s)).
    { unfold spec_quiet. destruct (s_auto (dirty s)); cbn [negb]; [|done]. destruct Ho as (Hb & _ & Hel).
      rewrite Hb, Hel, andb_false_r. unfold pbind, spec_flush. cbn [s_pend dirty upd_clean].
      rewrite (proj1 Hrd). cbn [segment spec_all]. unfold pret. f_equal.
      destruct s as [? ? ? ? pend]. destruct Hrd as [Hp _]. cbn in Hp. by subst pend. }
    rewrite E. destruct (spec_direct dispatch r (dirty s)) as [[u|e] s']; [done|].
    destruct Hq as [Hf Hz]. split; [done|]. by left.
Qed.

End Spec.

(** ** The host on a plain guest *)

Section Roundtrip.
Context {B : Type} `{!Backend B, !DeviceLaws B, !TypedBackend B}.
Context (env : Env) (other : Request.Request -> D B Response.Response) `{HT : !TypedArms env other}.
Variable ring_map : State B -> Request.Request -> option Z.
Variable sync_forced : Request.Request -> Op.Op -> bool.
Notation serve := (Mem.dispatch env other).
Notation CHUNK := Api.CHUNK.

(** A guest that is not a clone: no pointer to translate, nothing shared. *)
Definition plain_guest (st : State B) : Prop :=
  dptr_trans (sess st) = [] /\ shared_ranges (sess st) = [] /\ shared_vmm_ranges (worker st) = [].

Lemma dispatch_plain st req :
  plain_guest st ->
  serve st req = match dispatch_arms env other req st with
                 | (Ok r, st) => ((0, r), st)
                 | (Err e, st) => ((e, Response.Ok), st)
                 end.
Proof.
  intros (E1 & E2 & E3). unfold dispatch.
  assert (Hv : cow_worker_vmm_written req st = (Ok tt, st)).
  { unfold cow_worker_vmm_written. destruct (written_range req) as [[d n]|]; [|done].
    unfold cow_worker_vmm_range. destruct (n =? 0); [done|].
    unfold dbind, session, table. cbn [cow_vmm_loop]. unfold dbind, table. by rewrite E3. }
  assert (Hw : cow_written req st = (Ok tt, st)) by (unfold cow_written, dbind, session; by rewrite E2).
  unfold dbind at 1. rewrite Hv. unfold dbind at 1. rewrite Hw. unfold dbind, session. rewrite E1.
  change (translate_dptrs [] req) with req. by destruct (dispatch_arms env other req st) as [[]].
Qed.

(** The allocation stays within the session's budget. *)
Definition within_budget (st : State B) (n : Z) : Prop :=
  exists limit, (allocation_vram_limit env st).1 = Ok limit /\
    saturating_add 64 (session_vram_used (sess st)) n <= limit.

Lemma quota_within st n : within_budget st n -> (check_quota env n st).1 = Ok tt.
Proof.
  intros (limit & E & Hl). unfold check_quota, dbind.
  assert (Est : sess (allocation_vram_limit env st).2 = sess st).
  { destruct st as [s w b]. unfold allocation_vram_limit, dbind, session, drive. cbn [sess gpu].
    destruct (vram_limit_bytes s), (fork_pool_size s); try done. by destruct (device_total_mem _ _) as [[]]. }
  destruct (allocation_vram_limit env st) as [r st']. cbn in E, Est. subst. unfold session. rewrite Est.
  rewrite Z.gtb_ltb, (proj2 (Z.ltb_ge _ _)) by done. done.
Qed.

Lemma serve_alloc st n :
  plain_guest st -> within_budget st n -> good (gpu st) -> 0 < n -> room (gpu st) (n + 1) ->
  exists st' d buf, serve st (Request.MemAlloc n) = ((0, Response.Dptr d), st') /\ plain_guest st' /\
    good (gpu st') /\ blocks (gpu st') !! d = Some buf /\ len buf = n.
Proof.
  intros Hp Hq Hg Hn Hroom. rewrite dispatch_plain by done. unfold dispatch_arms. cbn [dispatch_heap].
  pose proof (quota_within st n Hq) as Eq. pose proof (Iso.check_quota_spec env n st Hg) as Hs. unfold dbind at 1.
  destruct (check_quota env n st) as [r st1]. cbn in Eq. subst r. destruct Hs as (Es & Ew & _ & Hg1 & Hr1 & Hb1).
  destruct (alloc_law (gpu st1) n 0 Hg1 Hn ltac:(lia)) as (d & buf & b' & Ea & _ & Hl & Hb & Hg' & _).
  { apply Hr1. by rewrite Z.add_0_r. }
  unfold dbind, drive. rewrite Ea. unfold own, dbind, upd, dret. cbn [sess worker gpu].
  eexists _, d, buf. split; [reflexivity|]. cbn [gpu]. rewrite Hb, lookup_insert_eq. split_and!; [|done..].
  destruct Hp as (E1 & E2 & E3). unfold plain_guest. cbn. by rewrite Es, Ew.
Qed.

(** Whatever the session, a download that succeeds has the length asked for. *)
Lemma serve_dtoh_len st p n stream r st' :
  state_ok st -> is_uint 64 n -> serve st (Request.MemcpyDtoH p n stream) = ((0, r), st') ->
  exists data, r = Response.Data data /\ len data = n.
Proof.
  intros Hst Hn E.
  assert (Ht : typed (fun r => exists data, r = Response.Data data /\ len data = n)
    (let% _ := cow_worker_vmm_written (Request.MemcpyDtoH p n stream) in
     let% _ := cow_written (Request.MemcpyDtoH p n stream) in
     let% s := session in
     dispatch_arms env other (translate_dptrs (dptr_trans s) (Request.MemcpyDtoH p n stream)))).
  { eapply typed_bind; [apply cow_vmm_typed|intros _ _]. eapply typed_bind; [apply cow_written_typed|intros _ _].
    eapply typed_bind; [apply typed_session|intros s _].
    assert (Harm : forall q, typed (fun r => exists data, r = Response.Data data /\ len data = n)
      (dispatch_arms env other (Request.MemcpyDtoH q n stream))).
    { intros q. unfold dispatch_arms. cbn [dispatch_heap dispatch_copy].
      eapply typed_bind; [by apply typed_drive, t_dtoh|intros data [_ Hl]]. apply typed_ret. by exists data. }
    unfold translate_dptrs. destruct (no_entries (dptr_trans s)); apply Harm. }
  destruct (Ht st Hst) as [_ H]. unfold dispatch in E.
  destruct ((let% _ := cow_worker_vmm_written _ in _) st) as [[x|e] st1]; cbn in H; inv E; [done|]. by destruct H.
Qed.

(** ** Pieces *)

(** The driver copies every piece of [m] bytes that a buffer has room for. *)
Definition copies_succeed (m : Z) : Prop := forall (b : B) d buf s i, good b -> blocks b !! d = Some buf -> 0 <= i ->
  (forall data, 0 < len data -> i * CHUNK + len data <= m -> inside (i * CHUNK) (len data) buf ->
     is_ok (memcpy_htod (d + i * CHUNK) data s b).1 = true) /\
  (forall n, 0 < n -> i * CHUNK + n <= m -> inside (i * CHUNK) n buf ->
     is_ok (memcpy_dtoh (d + i * CHUNK) n s b).1 = true).

Lemma splice_lookup off (data buf : bytes) i :
  0 <= off -> off + len data <= len buf -> 0 <= i ->
  splice off data buf !! Z.to_nat i =
  if (off <=? i) && (i <? off + len data) then data !! Z.to_nat (i - off) else buf !! Z.to_nat i.
Proof.
  intros Hoff Hle Hi. unfold splice, len in *.
  assert (Ht : length (take (Z.to_nat off) buf) = Z.to_nat off) by (rewrite length_take; lia).
  destruct (off <=? i) eqn:E1; bool_simpl; cbn [andb].
  2: { rewrite lookup_app_l by lia. by rewrite lookup_take_lt by lia. }
  rewrite lookup_app_r by lia. rewrite Ht. destruct (i <? _) eqn:E2; bool_simpl.
  - rewrite lookup_app_l by lia. f_equal. lia.
  - rewrite lookup_app_r by lia. rewrite lookup_drop. f_equal. lia.
Qed.

Section Buffer.
Context (d : Z) (data : bytes) (stream : Z).
Hypothesis Hbytes : is_bytes data.
Hypothesis Hstream : is_uint 64 stream.
Hypothesis Hlen : is_uint 64 (len data).
Hypothesis Hd : 0 <= d /\ d + len data <= 2 ^ 64.

(** The guest's buffer holds the data up to [off]. *)
Definition holds (st : State B) (off : Z) : Prop :=
  plain_guest st /\ good (gpu st) /\ exists buf, blocks (gpu st) !! d = Some buf /\ len data <= len buf /\
  forall i, 0 <= i < off -> i < len data -> buf !! Z.to_nat i = data !! Z.to_nat i.

Notation doubt := (~ copies_succeed (len data)).

(** Uploaded up to [off], unless a copy of the driver has failed. *)
Definition up (off : Z) (s : Spec (State B)) : Prop :=
  ready serve s /\ (failed s /\ doubt \/ clear s /\ holds (h_sess (s_host s)) off).

Definition piece (off : Z) : bytes := slice data off (Z.min (off + CHUNK) (len data)).

Lemma len_piece off : 0 <= off < len data -> len (piece off) = Z.min CHUNK (len data - off).
Proof. intros H. unfold piece. rewrite len_slice; unfold Api.CHUNK; lia. Qed.

Lemma serve_piece st i :
  0 <= i -> i * CHUNK < len data -> holds st (i * CHUNK) ->
  let '((status, _), st') := serve st (Request.MemcpyHtoD (d + i * CHUNK) stream (piece (i * CHUNK))) in
  (status = 0 -> holds st' (i * CHUNK + CHUNK)) /\ (status <> 0 -> doubt).
Proof.
  intros Hi Hoff (Hp & Hg & buf & Hb & Hl & Heq). pose proof (len_piece (i * CHUNK) ltac:(unfold Api.CHUNK in *; lia)) as Hlp.
  set (off := i * CHUNK) in *. assert (Hoff0 : 0 <= off) by (unfold off, Api.CHUNK; lia).
  assert (HC : 0 < CHUNK) by done.
  assert (Hin : inside off (len (piece off)) buf) by (unfold inside; lia).
  rewrite dispatch_plain by done. destruct (Iso.arm_htod env other (d + off) stream (piece off) st) as (s' & Es & Et & ->).
  pose proof (htod_law (gpu st) d off (piece off) buf (raw_stream env stream) Hg Hb Hin) as Hlaw.
  destruct (memcpy_htod (d + off) (piece off) (raw_stream env stream) (gpu st)) as [[u|e] b'] eqn:Ew;
    destruct Hlaw as (Hc & Hg' & _ & Hb').
  - split; [|done]. intros _. destruct Hp as (E1 & E2 & E3). split; [|split; [done|]].
    { split_and!; cbn; congruence. }
    cbn [gpu is_ok] in *. exists (splice off (piece off) buf). rewrite Hb', lookup_insert_eq, len_splice by lia.
    split_and!; [done..|]. intros j Hj Hjl. rewrite splice_lookup by lia.
    destruct (off <=? j) eqn:E; bool_simpl; cbn [andb]; [|apply Heq; lia].
    rewrite (proj2 (Z.ltb_lt _ _)) by lia. unfold piece. rewrite slice_lookup by lia. f_equal. lia.
  - split; [intros ->; by destruct (Hc 0 eq_refl)|]. intros _ Hcs.
    destruct (Hcs (gpu st) d buf (raw_stream env stream) i Hg Hb Hi) as [Hw _].
    specialize (Hw (piece off) ltac:(lia) ltac:(lia) Hin). fold off in Hw. by rewrite Ew in Hw.
Qed.

Lemma address_ok off (s : Spec (State B)) : 0 <= off < len data -> copy_address d off s = (Ok (d + off), s).
Proof.
  intros H. unfold copy_address, checked_add. rewrite (proj2 (Z.leb_le _ _)); [done|]. unfold u_max. lia.
Qed.

Lemma up_more off off' s : up off s -> len data <= off -> len data <= off' -> up off' s.
Proof.
  intros [Hr [H|[Hc (Hp & Hg & buf & Hb & Hl & Heq)]]] H1 H2; split; [done|by left|done|right].
  split; [done|]. split; [done|]. split; [done|]. exists buf. split_and!; [done..|]. intros i Hi Hil. apply Heq; lia.
Qed.

Lemma htod_up k : forall i s,
  0 <= i -> k = pieces (len data - i * CHUNK) -> up (i * CHUNK) s ->
  match spec_htod serve sync_forced k d stream data (i * CHUNK) s with
  | (Ok _, s') => up (len data) s'
  | (Err e, s') => (exists z, e = Cuda z) /\ doubt
  end.
Proof.
  assert (HC : 0 < CHUNK) by done.
  induction k as [|k IH]; intros i s Hi Hk Hup; cbn [spec_htod].
  { destruct (decide (len data - i * CHUNK <= 0)); [|by rewrite pieces_more in Hk by lia].
    cbn [pret]. eapply up_more; [exact Hup|lia..]. }
  destruct (decide (len data - i * CHUNK <= 0)) as [|Hlt]; [by rewrite pieces_done in Hk by lia|].
  rewrite pieces_more in Hk by lia. injection Hk as Hk. unfold pbind at 1. rewrite address_ok by lia. unfold pbind at 1.
  fold (piece (i * CHUNK)). set (req := Request.MemcpyHtoD (d + i * CHUNK) stream (piece (i * CHUNK))).
  assert (Hok : request_ok req).
  { apply sendable_htod; [unfold is_uint; lia|done|by apply slice_bytes|]. rewrite len_piece by lia. lia. }
  destruct Hup as [Hr Hor]. pose proof (deferred_spec serve sync_forced req s Hr ltac:(done) Hok) as Hd'.
  assert (Hstep : clear s -> forall st resp sess', serve (h_sess (s_host s)) req = ((st, resp), sess') ->
            (st = 0 -> holds sess' (i * CHUNK + CHUNK)) /\ (st <> 0 -> doubt)).
  { intros Hcl st resp sess' E. destruct Hor as [[Hf _]|[_ Hh]]; [unfold clear, failed in *; lia|].
    pose proof (serve_piece (h_sess (s_host s)) i Hi ltac:(lia) Hh) as H. fold req in H. by rewrite E in H. }
  assert (Hfail : failed s -> doubt).
  { intros Hf. destruct Hor as [[_ H]|[Hc _]]; [done|]. unfold clear, failed in *. lia. }
  destruct (spec_deferred serve sync_forced req s) as [[u|e] s1].
  - destruct Hd' as [Hr1 Hcase]. replace (i * CHUNK + CHUNK) with ((i + 1) * CHUNK) in * by lia.
    apply IH; [lia|by rewrite Hk; f_equal; lia|]. split; [done|].
    destruct Hcase as [[Hf Hf1]|[Hcl (st & resp & E & [[-> Hc1]|[Hne Hf1]])]].
    + left. split; [done|by apply Hfail].
    + right. split; [done|]. by apply (Hstep Hcl _ _ _ E).
    + left. split; [done|]. by apply (Hstep Hcl _ _ _ E).
  - destruct Hd' as [Hz [Hf|[Hcl (st & resp & sess' & E & Hne)]]]; (split; [done|]); [by apply Hfail|].
    by apply (Hstep Hcl _ _ _ E).
Qed.

(** ** Reading the pieces back *)

Lemma slice_cat (l : bytes) a b : 0 <= a <= b -> b <= len l -> slice l 0 a ++ slice l a b = slice l 0 b.
Proof.
  intros Ha Hb. unfold slice. rewrite !Z.sub_0_r. cbn [Z.to_nat drop].
  replace (Z.to_nat b) with (Z.to_nat a + Z.to_nat (b - a))%nat by lia. by rewrite take_take_drop.
Qed.

Definition count_at (off : Z) : Z := Z.min (len data - off) CHUNK.

Lemma serve_back st i :
  0 <= i -> i * CHUNK < len data -> holds st (len data) ->
  let off := i * CHUNK in
  let '((status, resp), st') := serve st (Request.MemcpyDtoH (d + off) (count_at off) stream) in
  (status = 0 -> holds st' (len data) /\ resp = Response.Data (slice data off (off + count_at off))) /\
  (status <> 0 -> doubt).
Proof.
  intros Hi Hlt (Hp & Hg & buf & Hb & Hl & Heq) off. assert (HC : 0 < CHUNK) by done.
  assert (Hoff : 0 <= off < len data) by (unfold off, Api.CHUNK in *; lia).
  assert (Hcnt : 0 < count_at off /\ off + count_at off <= len data) by (unfold count_at; lia).
  assert (Hin : inside off (count_at off) buf) by (unfold inside; lia).
  rewrite dispatch_plain by done. unfold dispatch_arms. cbn [dispatch_heap dispatch_copy]. unfold dbind, drive.
  pose proof (dtoh_law (gpu st) d off (count_at off) buf (raw_stream env stream) Hg Hb Hin) as Hlaw.
  destruct (memcpy_dtoh (d + off) (count_at off) (raw_stream env stream) (gpu st)) as [[x|e] b'] eqn:Er;
    destruct Hlaw as (Hc & Hg' & _ & Hb' & Hx); cbn [dret].
  - split; [|done]. intros _. rewrite (Hx x eq_refl). split.
    + split; [done|]. split; [done|]. exists buf. cbn [gpu]. rewrite Hb'. done.
    + f_equal. apply list_eq_same_length with (n := Z.to_nat (count_at off)).
      * pose proof (len_slice data off (off + count_at off) ltac:(lia) ltac:(lia)) as E. unfold len at 1 in E. lia.
      * pose proof (len_slice buf off (off + count_at off) ltac:(lia) ltac:(lia)) as E. unfold len at 1 in E. lia.
      * intros j y z Hj Hy Hz. rewrite <- (Nat2Z.id j) in Hy, Hz. rewrite slice_lookup in Hy, Hz by lia.
        rewrite Heq in Hy by lia. congruence.
  - split; [intros ->; by destruct (Hc 0 eq_refl)|]. intros _ Hcs.
    destruct (Hcs (gpu st) d buf (raw_stream env stream) i Hg Hb Hi) as [_ Hr].
    specialize (Hr (count_at off) ltac:(lia) ltac:(lia) Hin). fold off in Hr. by rewrite Er in Hr.
Qed.

Lemma chunk_back i s :
  0 <= i -> i * CHUNK < len data -> up (len data) s ->
  let off := i * CHUNK in
  match spec_dtoh_chunk serve d (len data) stream off s with
  | (Ok x, s') => up (len data) s' /\ (clear s' -> clear s /\ x = slice data off (off + count_at off))
  | (Err e, s') => (exists z, e = Cuda z) /\ doubt
  end.
Proof.
  intros Hi Hlt [Hr Hor] off. assert (HC : 0 < CHUNK) by done.
  assert (Hoff : 0 <= off < len data) by (unfold off, Api.CHUNK in *; lia).
  assert (Hcnt : is_uint 64 (count_at off)) by (unfold count_at, is_uint in *; lia).
  unfold spec_dtoh_chunk. fold (count_at off). unfold pbind at 1. rewrite address_ok by lia. unfold pbind at 1.
  set (req := Request.MemcpyDtoH (d + off) (count_at off) stream).
  assert (Hok : request_ok req).
  { apply sendable_dtoh; [unfold is_uint; lia|done|done|]. unfold count_at. lia. }
  pose proof (call_spec serve req s Hr ltac:(done) Hok) as Hc.
  pose proof (serve_dtoh_len (h_sess (s_host s)) (d + off) (count_at off) stream) as Hlen'.
  pose proof (fun H => serve_back (h_sess (s_host s)) i Hi Hlt H) as Hback. cbv zeta in Hback. fold off req in Hback, Hlen'.
  destruct (serve (h_sess (s_host s)) req) as [[st resp] sess'].
  destruct Hc as (s' & -> & Hr' & Hs' & Hh'). destruct (st =? 0) eqn:E0; bool_simpl.
  - subst st. destruct (Hlen' resp sess' (proj2 Hr) Hcnt eq_refl) as (x & -> & Hx).
    unfold payload. cbn [Api.data_of mbind option_bind]. rewrite Hx, Z.eqb_refl. cbn [s_expect pret id]. unfold up, clear, failed in *.
    rewrite Hs', Hh'. cbn [h_sess quiet_sticky]. destruct Hor as [[Hf Hdb]|[Hcl Hh]].
    + split; [split; [done|by left]|]. intros Hc. lia.
    + destruct (Hback Hh) as [[Hh2 E] _]; [done|]. inv E. split; [split; [done|by right]|]. done.
  - split; [eauto|]. destruct Hor as [[_ Hdb]|[_ Hh]]; [done|]. by apply (Hback Hh).
Qed.

Lemma dtoh_down k : forall i s out,
  0 <= i -> k = pieces (len data - i * CHUNK) -> up (len data) s ->
  (clear s -> out = slice data 0 (Z.min (i * CHUNK) (len data))) ->
  match spec_dtoh serve k d (len data) stream (i * CHUNK) out s with
  | (Ok x, s') => up (len data) s' /\ (clear s' -> x = data)
  | (Err e, s') => (exists z, e = Cuda z) /\ doubt
  end.
Proof.
  assert (HC : 0 < CHUNK) by done. pose proof (len_nonneg data) as Hl0.
  induction k as [|k IH]; intros i s out Hi Hk Hup Hout; cbn [spec_dtoh].
  { destruct (decide (len data - i * CHUNK <= 0)); [|by rewrite pieces_more in Hk by lia].
    cbn [pret]. split; [done|]. intros Hc. rewrite (Hout Hc), Z.min_r by lia. apply Iso.slice_whole. }
  destruct (decide (len data - i * CHUNK <= 0)) as [|Hlt]; [by rewrite pieces_done in Hk by lia|].
  rewrite pieces_more in Hk by lia. injection Hk as Hk. unfold pbind at 1.
  pose proof (chunk_back i s Hi ltac:(lia) Hup) as Hc. cbv zeta in Hc.
  destruct (spec_dtoh_chunk serve d (len data) stream (i * CHUNK) s) as [[x|e] s1]; [|done].
  destruct Hc as [Hup1 Hx]. replace (i * CHUNK + CHUNK) with ((i + 1) * CHUNK) by lia.
  apply IH; [lia|by rewrite Hk; f_equal; lia|done|]. intros Hc1. destruct (Hx Hc1) as [Hc ->]. rewrite (Hout Hc).
  rewrite Z.min_l by lia. unfold count_at.
  rewrite slice_cat by lia. f_equal. lia.
Qed.

End Buffer.

(** ** The whole program *)

(** Allocate, upload, download. *)
Definition write_back (n : Z) (data : bytes) (stream : Z) : C (State B) bytes :=
  let@ d := Api.mem_alloc serve ring_map n in
  let@ _ := Api.memcpy_htod serve ring_map sync_forced d data stream in
  Api.memcpy_dtoh serve ring_map d (len data) stream.

(** The client or the host holds the status of a failed request, which the
    guest has yet to see. *)
Definition failure_held (w : World (State B)) : Prop :=
  exists h, reach serve ring_map w = Some h /\ (sticky (cl w) <> 0 \/ quiet_sticky h <> 0).

Lemma sendable_alloc n : is_uint 64 n -> sendable (Request.MemAlloc n).
Proof. intros H. split; [done|]. split; [|done]. wire_norm. rewrite !len_app, !len_to_le. by vm_compute. Qed.

Lemma held_R w s : R serve w s -> failed s -> failure_held w.
Proof.
  intros HR Hf. exists (s_host s). split; [by eapply reach_R|].
  destruct HR as (h & ru & rw & -> & _). exact Hf.
Qed.

(** C10: Memory works through the whole stack. Consider a guest
    on a fresh connection that is not a clone and is within its budget, on a
    driver with the laws of [DeviceLaws] and room for the buffer. It allocates a
    buffer, uploads data of any length that fits, in pieces of 64 MiB, and
    downloads it. If the driver executes the copies of the pieces, the guest
    gets its data: over the loops of the client's methods, the batching of
    deferred requests with or without graph segments, the wire format, the
    serve loop, the dispatcher's bookkeeping and the device. If a copy fails,
    the guest gets a status; or, the upload being deferred, the client or the
    host holds the failure's status when the download returns, for the next
    synchronization to report. No other error occurs. *)
Theorem guest_reads_back (st : State B) (async auto : bool) n data stream :
  state_ok st -> plain_guest st -> within_budget st n -> good (gpu st) -> room (gpu st) (n + 1) ->
  0 < n -> is_uint 64 n -> is_uint 64 stream -> is_bytes data -> len data <= n ->
  let '(r, w') := write_back n data stream (world0 st async auto) in
  match r with
  | Ok x => x = data \/ failure_held w'
  | Err (Cuda _) => True
  | Err _ => False
  end /\
  (copies_succeed (len data) -> r = Ok data).
Proof.
  intros Hst Hp Hq Hg Hroom Hn0 Hn Hs Hb Hln. pose proof (len_nonneg data) as Hl0.
  assert (Hok : host_ok serve st) by exact Hst.
  assert (Hl : is_uint 64 (len data)) by (unfold is_uint in *; lia).
  destruct (serve_alloc st n Hp Hq Hg Hn0 Hroom) as (st1 & d & buf & Ea & Hp1 & Hg1 & Hb1 & Hlb).
  pose proof (call_spec serve (Request.MemAlloc n) (spec0 st async auto) (conj eq_refl Hok) ltac:(done) Hn) as Hc.
  cbn [s_host spec0 h_sess] in Hc. rewrite Ea in Hc. destruct Hc as (s1 & E1 & Hr1 & Hk1 & Hh1).
  destruct (sim_call serve ring_map _ (sendable_alloc n Hn) _ _ (R_start serve st async auto Hok) I) as (Ew & HR1 & _).
  rewrite E1 in Ew, HR1. unfold write_back, Api.mem_alloc. change (op_of (Request.MemAlloc n)) with Op.MemAlloc in *.
  unfold cbind at 1 2. destruct (call _ _ (Request.MemAlloc n) _ _) as [r w1]. cbn [fst snd Z.eqb] in Ew, HR1. subst r.
  cbn [Api.dptr_of Api.expect cret].
  destruct (block_range (gpu st1) d buf Hg1 Hb1) as [Hd1 Hd2].
  assert (Hd : is_uint 64 d) by (unfold is_uint; pose proof (len_nonneg buf); lia).
  assert (Hrange : 0 <= d /\ d + len data <= 2 ^ 64) by lia.
  assert (Hup : up d data 0 s1).
  { split; [done|]. right. split; [split; [by rewrite Hk1|by rewrite Hh1]|]. rewrite Hh1. cbn [h_sess].
    split; [done|]. split; [done|]. exists buf. split_and!; [done|lia|]. intros i Hi. lia. }
  pose proof (htod_up d data stream Hb Hs Hrange (pieces (len data)) 0 s1 ltac:(lia)) as Hh.
  change (0 * CHUNK) with 0 in Hh. rewrite Z.sub_0_r in Hh. specialize (Hh eq_refl Hup).
  fold (spec_memcpy_htod serve sync_forced d data stream) in Hh.
  destruct (runs_memcpy_htod serve ring_map sync_forced d data stream Hd Hs Hb w1 s1 HR1) as (E2 & HR2 & _).
  unfold cbind. destruct (Api.memcpy_htod _ _ _ _ _ _ w1) as [r w2].
  destruct (spec_memcpy_htod serve sync_forced d data stream s1) as [[u|e] s2]; cbn [fst snd] in E2, HR2; subst r.
  2: { destruct Hh as [[z ->] Hdb]. split; [done|]. intros Hcs. by destruct (Hdb Hcs). }
  pose proof (dtoh_down d data stream Hs Hl Hrange (pieces (len data)) 0 s2 [] ltac:(lia)) as Hdn.
  change (0 * CHUNK) with 0 in Hdn. rewrite Z.sub_0_r in Hdn. rewrite Z.min_l in Hdn by lia.
  specialize (Hdn eq_refl Hh ltac:(done)). fold (spec_memcpy_dtoh serve d (len data) stream) in Hdn.
  destruct (runs_memcpy_dtoh serve ring_map d (len data) stream Hd Hl Hs w2 s2 HR2) as (E3 & HR3 & _).
  destruct (Api.memcpy_dtoh _ _ _ _ _ w2) as [r w3].
  destruct (spec_memcpy_dtoh serve d (len data) stream s2) as [[x|e] s3]; cbn [fst snd] in E3, HR3; subst r.
  - destruct Hdn as [[_ Hor] Hx]. destruct Hor as [[Hf Hdb]|[Hc _]].
    + split; [right; by eapply held_R|]. intros Hcs. by destruct (Hdb Hcs).
    + rewrite (Hx Hc). split; [by left|done].
  - destruct Hdn as [[z ->] Hdb]. split; [done|]. intros Hcs. by destruct (Hdb Hcs).
Qed.

End Roundtrip.

(** ** The emulated device *)

(** On the emulated device this works up to one piece ... *)
Lemma cpu_copies_succeed m : m <= Api.CHUNK -> copies_succeed (B := CpuBackend) m.
Proof.
  intros Hm b d buf s i Hg Hb Hi. cbn [blocks cpu_laws good] in *.
  assert (Hz : forall k, 0 < k -> i * Api.CHUNK + k <= m -> i = 0) by (unfold Api.CHUNK in *; lia). split.
  - intros data Hpos Hle (_ & _ & Hin). rewrite (Hz _ Hpos Hle) in *. cbn. rewrite Z.add_0_r.
    unfold cpu_write. rewrite Hb, Z.gtb_ltb, (proj2 (Z.ltb_ge _ _)) by lia. done.
  - intros n Hpos Hle (_ & _ & Hin). rewrite (Hz _ Hpos Hle) in *. cbn. rewrite Z.add_0_r.
    unfold cpu_read. rewrite Hb, Z.gtb_ltb, (proj2 (Z.ltb_ge _ _)) by lia. done.
Qed.

(** ... and no further: it knows a buffer by its first address only. *)
Theorem emulated_interior_refused (b : CpuBackend) d off (buf data : bytes) s :
  cpu_good b -> mem b !! d = Some buf -> 0 < off < len buf ->
  memcpy_htod (d + off) data s b = (Err CUDA_ERROR_INVALID_HANDLE, b).
Proof.
  intros Hg Hb Hoff. cbn. unfold cpu_write.
  destruct (cpu_interior b d off buf Hg Hb ltac:(lia)) as [->| ->]; [lia|done].
Qed.

(** ** A device with flat addresses *)

(** The memory of the emulated device behind addresses as CUDA has them: any
    address inside a buffer is one of the buffer. *)
Record Flat := MkFlat { flat : CpuBackend }.

Definition locate (a : Z) (b : CpuBackend) : option (Z * bytes) :=
  List.find (fun e => (e.1 <=? a) && (a <? e.1 + len e.2)) (map_to_list (mem b)).

Definition flat_write (a : Z) (data : bytes) (f : Flat) : CuResult unit * Flat :=
  match locate a (flat f) with
  | Some (d, buf) =>
      if a - d + len data <=? len buf
      then (Ok tt, MkFlat (MkCpu (next_dptr (flat f)) (<[d := splice (a - d) data buf]> (mem (flat f)))))
      else (Err CUDA_ERROR_INVALID_HANDLE, f)
  | None => (Err CUDA_ERROR_INVALID_HANDLE, f)
  end.
Definition flat_read (a n : Z) (f : Flat) : CuResult bytes * Flat :=
  match locate a (flat f) with
  | Some (d, buf) =>
      if a - d + n <=? len buf then (Ok (slice buf (a - d) (a - d + n)), f) else (Err CUDA_ERROR_INVALID_HANDLE, f)
  | None => (Err CUDA_ERROR_INVALID_HANDLE, f)
  end.
Definition flat_copy (dst src n : Z) (f : Flat) : CuResult unit * Flat :=
  match flat_read src n f with (Ok data, f) => flat_write dst data f | (Err e, f) => (Err e, f) end.
Definition flat_fill (a v n : Z) (f : Flat) : CuResult unit * Flat := flat_write a (replicate (Z.to_nat n) v) f.
Definition lift {A} (op : CpuBackend -> CuResult A * CpuBackend) (f : Flat) : CuResult A * Flat :=
  let '(r, b) := op (flat f) in (r, MkFlat b).
Definition flat_no {A} (f : Flat) : CuResult A * Flat := (Err CUDA_ERROR_NOT_SUPPORTED, f).

#[global] Instance flat_backend : Backend Flat := {|
  device_total_mem _ f := (Ok (2 ^ 30), f); mem_get_info f := (Ok (2 ^ 29, 2 ^ 30), f);
  mem_alloc n := lift (cpu_alloc n); mem_free d := lift (cpu_free d);
  mem_alloc_async n _ := lift (cpu_alloc n); mem_alloc_from_pool_async n _ _ := lift (cpu_alloc n);
  mem_free_async d _ := lift (cpu_free d);
  memcpy_htod a data _ := flat_write a data; memcpy_dtoh a n _ := flat_read a n;
  memcpy_dtod := flat_copy; memcpy_dtod_async dst src n _ := flat_copy dst src n;
  memset_d8 := flat_fill; memset_d8_async a v n _ := flat_fill a v n;
  memcpy_shm_htod _ _ _ _ := flat_no; memcpy_shm_dtoh _ _ _ _ := flat_no; hash_shm_range _ _ _ f := (None, f);
  memcpy_gpa_htod _ _ _ := flat_no; memcpy_gpa_dtoh _ _ _ := flat_no; hash_gpa_range _ _ _ f := (None, f);
  ctx_synchronize f := (Ok tt, f); mem_address_reserve _ _ := flat_no; mem_create _ _ := flat_no;
  mem_create_exportable _ _ := flat_no; mem_map _ _ _ _ := flat_no; mem_set_access _ _ _ := flat_no;
  mem_set_access_ro _ _ _ := flat_no; mem_unmap _ _ := flat_no; mem_release _ := flat_no;
  mem_address_free _ _ := flat_no; mem_get_allocation_granularity _ _ := flat_no;
|}.

Lemma locate_some a b d buf : locate a b = Some (d, buf) -> mem b !! d = Some buf /\ d <= a < d + len buf.
Proof.
  intros E. apply find_some in E as [Hin E]. apply list_elem_of_In, elem_of_map_to_list in Hin.
  cbn in E. apply andb_true_iff in E as [E1 E2]. bool_simpl. done.
Qed.
Lemma locate_block b d off buf :
  cpu_good b -> mem b !! d = Some buf -> 0 <= off < len buf -> locate (d + off) b = Some (d, buf).
Proof.
  intros (_ & Hap & _) Hd Hoff. destruct (locate (d + off) b) as [[d' buf']|] eqn:E.
  - apply locate_some in E as [Hd' Ha].
    destruct (Z.lt_trichotomy d d') as [Hlt|[->|Hlt]]; [|congruence|].
    + pose proof (Hap _ _ _ _ Hd Hd' Hlt). lia.
    + pose proof (Hap _ _ _ _ Hd' Hd Hlt). lia.
  - apply List.find_none with (x := (d, buf)) in E; [|by apply list_elem_of_In, elem_of_map_to_list].
    cbn in E. rewrite (proj2 (Z.leb_le _ _)), (proj2 (Z.ltb_lt _ _)) in E by lia. done.
Qed.

Lemma flat_write_law f d off data buf :
  cpu_good (flat f) -> mem (flat f) !! d = Some buf -> inside off (len data) buf ->
  let '(r, f') := flat_write (d + off) data f in
  r = Ok tt /\ cpu_good (flat f') /\ (forall k, cpu_room (flat f) k -> cpu_room (flat f') k) /\
  mem (flat f') = <[d := splice off data buf]> (mem (flat f)).
Proof.
  intros Hg Hd (H1 & H2 & H3). unfold flat_write. rewrite (locate_block _ d off buf) by done.
  replace (d + off - d) with off by lia. rewrite (proj2 (Z.leb_le _ _)) by done. cbn [flat mem].
  split_and!; [done| |done|done]. eapply cpu_good_update; [done..|]. apply len_splice; lia.
Qed.
Lemma flat_read_law f d off n buf :
  cpu_good (flat f) -> mem (flat f) !! d = Some buf -> inside off n buf ->
  flat_read (d + off) n f = (Ok (slice buf off (off + n)), f).
Proof.
  intros Hg Hd (H1 & H2 & H3). unfold flat_read. rewrite (locate_block _ d off buf) by done.
  replace (d + off - d) with off by lia. by rewrite (proj2 (Z.leb_le _ _)) by done.
Qed.

#[global, refine] Instance flat_laws : DeviceLaws Flat := {|
  good f := cpu_good (flat f); room f := cpu_room (flat f); blocks f := mem (flat f);
|}.
Proof.
  - intros b d buf (Hr & _ & Hn) Hd. apply Hr in Hd. lia.
  - intros b d d' buf buf' (_ & Hap & _). apply Hap.
  - unfold cpu_room. intros. lia.
  - intros [b] n k Hg Hn Hk Hr. destruct (cpu_alloc_law b n k Hg Hn Hk Hr) as (d & buf & b' & E & H).
    exists d, buf, (MkFlat b'). split; [|exact H]. change (lift (cpu_alloc n) (MkFlat b) = (Ok d, MkFlat b')).
    unfold lift. cbn [flat]. by rewrite E.
  - intros f device Hg. cbn. by split.
  - intros [b] d buf Hg Hd. cbn in *. unfold lift, cpu_free. cbn [flat]. rewrite Hd. cbn. split; [done|].
    split; [by apply cpu_good_delete|done].
  - intros f d off data buf s Hg Hd Hin. cbn in *. pose proof (flat_write_law f d off data buf Hg Hd Hin) as H.
    destruct (flat_write _ _ _) as [r f']. destruct H as (-> & H). done.
  - intros f d off n buf s Hg Hd Hin. cbn in *. rewrite (flat_read_law f d off n buf) by done. split_and!; try done.
    intros data E. by inv E.
  - intros f d off buf d' off' buf' n Hg Hd Hin Hd' Hin'. cbn in *. unfold flat_copy.
    rewrite (flat_read_law f d' off' n buf') by done.
    pose proof (flat_write_law f d off (slice buf' off' (off' + n)) buf Hg Hd ltac:(by rewrite len_slice_inside)) as H.
    destruct (flat_write _ _ _) as [r f']. destruct H as (-> & H). done.
  - intros f d off n v buf Hg Hd Hin. cbn in *. unfold flat_fill.
    pose proof (flat_write_law f d off (replicate (Z.to_nat n) v) buf Hg Hd) as H.
    destruct (flat_write _ _ _) as [r f']. destruct H as (-> & H); [|done].
    unfold len at 1. rewrite length_replicate, Z2Nat.id; [done|]. by destruct Hin as (_ & ? & _).
  - done.
  - done.
Defined.

Lemma flat_write_typed a data :
  is_bytes data -> typedb (fun f => cpu_ok (flat f)) yes (flat_write a data).
Proof.
  intros Hd f Hf. unfold flat_write. destruct (locate a (flat f)) as [[d buf]|] eqn:E; [|by split].
  apply locate_some in E as [Hb Ha]. destruct (_ <=? _) eqn:El; bool_simpl; [|by split]. cbn [fst snd flat].
  split; [|done]. apply cpu_insert; [done|]. assert (Hv : is_vec buf) by by eapply Hf. destruct Hv as [Hv Hl].
  split; [|by rewrite len_splice by lia].
  unfold splice. apply Forall_app. split; [by apply Forall_take|]. apply Forall_app. split; [done|by apply Forall_drop].
Qed.
Lemma flat_read_typed a n :
  is_uint 64 n -> typedb (fun f => cpu_ok (flat f)) (fun data => is_vec data /\ len data = n) (flat_read a n).
Proof.
  intros Hn f Hf. unfold flat_read. destruct (locate a (flat f)) as [[d buf]|] eqn:E; [|by split].
  apply locate_some in E as [Hb Ha]. destruct (_ <=? _) eqn:El; bool_simpl; [|by split]. cbn [fst snd].
  split; [done|]. assert (Hv : is_vec buf) by by eapply Hf. destruct Hv as [Hv _]. unfold is_uint in Hn.
  assert (Hl : len (slice buf (a - d) (a - d + n)) = n) by (rewrite len_slice; lia).
  split; [|done]. split; [by apply slice_bytes|]. rewrite Hl. done.
Qed.
Lemma lift_typed {A} (Q : A -> Prop) op : typedb cpu_ok Q op -> typedb (fun f => cpu_ok (flat f)) Q (lift op).
Proof. intros H [b] Hb. specialize (H b Hb). unfold lift. cbn [flat]. by destruct (op b). Qed.
Lemma flat_copy_typed dst src n : is_uint 64 n -> typedb (fun f => cpu_ok (flat f)) yes (flat_copy dst src n).
Proof.
  intros Hn f Hf. unfold flat_copy. destruct (flat_read_typed src n Hn f Hf) as [H1 H2].
  destruct (flat_read src n f) as [[data|e] f']; cbn in *; [|done]. by apply flat_write_typed; [apply H2|].
Qed.
Lemma flat_fill_typed a v n : is_uint 8 v -> typedb (fun f => cpu_ok (flat f)) yes (flat_fill a v n).
Proof. intros Hv. apply flat_write_typed, Forall_replicate. unfold is_byte, is_uint in *. lia. Qed.

#[global, refine] Instance flat_typed : TypedBackend Flat := {| dev_ok f := cpu_ok (flat f) |}.
Proof.
  all: try done.
  all: try (intros; by intros f Hf).
  all: try (intros; first [by apply lift_typed, alloc_typed|by apply lift_typed, free_typed
                          |by apply flat_copy_typed|by apply flat_fill_typed]).
  - intros d data s [Hd _]. by apply flat_write_typed.
  - intros d n s Hn. by apply flat_read_typed.
Defined.

Lemma flat_copies_succeed m : copies_succeed (B := Flat) m.
Proof.
  intros f d buf s i Hg Hb Hi. split.
  - intros data _ _ Hin. pose proof (flat_write_law f d (i * Api.CHUNK) data buf Hg Hb Hin) as H. cbn.
    destruct (flat_write _ _ _) as [r f']. by destruct H as (-> & _).
  - intros n _ _ Hin. cbn. by rewrite (flat_read_law f d (i * Api.CHUNK) n buf).
Qed.

(** A guest alone on the device. *)
Definition bare_env : Env := MkEnv false (2 ^ 30) (fun s => s).
Definition bare_arms {B} (req : Request.Request) : D B Response.Response := dfail CUDA_ERROR_NOT_SUPPORTED.
#[global] Instance bare_typed {B} `{!Backend B, !TypedBackend B} : TypedArms bare_env (bare_arms (B := B)).
Proof. split; [by vm_compute|]. intros req _. by apply typed_fail. Qed.
Definition bare_guest {B} (b : B) : State B :=
  MkState (MkSession None None false ∅ ∅ ∅ ∅ 0 false ∅ ∅ ∅ ∅ (MkLayout ∅ ∅ 0) [] 0 [])
    (MkWorker [] [] None []) b.

(** One byte more than a piece. *)
Definition two_pieces : bytes := replicate (Z.to_nat (Api.CHUNK + 1)) 7.
Lemma len_two_pieces : len two_pieces = Api.CHUNK + 1.
Proof. unfold two_pieces, len. rewrite length_replicate, Z2Nat.id; [done|]. by vm_compute. Qed.

Lemma guest_reads_back_witness :
  (write_back (B := Flat) bare_env bare_arms (fun _ _ => None) (fun _ _ => false) (2 ^ 27) two_pieces 0
     (world0 (bare_guest (MkFlat cpu_default)) true true)).1 = Ok two_pieces.
Proof.
  pose proof (guest_reads_back (B := Flat) bare_env bare_arms (fun _ _ => None) (fun _ _ => false)
    (bare_guest (MkFlat cpu_default)) true true (2 ^ 27) two_pieces 0) as H.
  destruct (write_back _ _ _ _ _ _ _ _) as [r w']. cbn [fst]. apply H; clear H.
  - split; [by repeat split|]. split; [constructor|]. split; [by vm_compute|]. apply map_Forall_empty.
  - by repeat split.
  - by exists (2 ^ 30).
  - split; [|split; [|by vm_compute]]; cbn; intros *; by rewrite lookup_empty.
  - by vm_compute.
  - done.
  - by vm_compute.
  - by vm_compute.
  - unfold two_pieces. apply Forall_replicate. unfold is_byte. lia.
  - rewrite len_two_pieces. by vm_compute.
  - apply flat_copies_succeed.
Defined.

End ReadBack.
